(* ===== verification/_CoqProject ===== *)
-Q . S2P
Prelude.v
Outcome.v
Ring.v
RingBuf.v
MsgQueue.v
CircBuf.v
EventBus.v
Endian.v
TlvBlock.v
TlvCtx.v
TlvCodec.v
MultiTimer.v
MultiButton.v
QList.v
StepDelta.v
QmTime.v
WeeklyTimer.v
CountDown.v
CommBase.v
Base64.v
HashTable.v
Crc.v
ThreadPool.v
Future.v
Noos.v
VirtualChannel.v
DataChannel.v
WorkQueue.v
Flash.v
KvMgr.v
KvStore.v
KvRecover.v
KvInit.v
KvCrash.v
Memory.v
Heap.v
SpecApi.v
SpecHex.v
Words.v
Merkle.v
Ble.v
Sha256.v
Aes.v
AesFips.v
BleLink.v
BleAuth.v
Digest.v
Md5.v
Sha1.v
StrUtil.v
Hmac.v
Totp.v
BleOta.v
Esp32Ota.v
