(* ===== verification/Prelude.v ===== *)
(** * Verification of QUMIOS, an operating layer for IoT devices

    QUMIOS is a C framework of small components (src/components, src/utility)
    over a thin hardware interface (src/include/hal).  This library models the
    components that carry its own data structures, state machines and protocols,
    and proves what makes them correct.

    ** The parts and how they interact

    - Events: modules post events to a static event bus
      (components/qm_eventbus_static), which keeps them in two queues of
      variable-length elements (circbuf_var.c) and calls the handlers of a table.
    - Data: sensors and services exchange blocks of tagged values (utility/tlv)
      in one of three wire formats; raw bytes go through a ring buffer
      (utility/ringbuf); objects are kept in doubly linked lists (utility/list)
      and hash tables (utility/hashtable); binary data is sent as Base64
      (utility/base64).
    - Time: software timers (components/multi_timer) run callbacks from a loop
      over the 32-bit millisecond counter; deadlines (utility/timer) are compared
      on the same counter; the calendar (components/qm_time) converts seconds;
      weekly alarms (components/weekly_timer) use the calendar.
    - Input and output: buttons are sampled and recognised
      (components/multi_button); lights are dimmed along ramps
      (components/qm_step_delta); a framed protocol with acknowledgements and
      retransmission (components/comm_base) runs over a serial line and uses the
      list and the deadlines.
    - Tasks: a work queue (components/qm_work) dispatches posted events and delayed
      works in one task; a thread pool and futures (components/threadpool, future)
      run on the kernel; components/qm_noos replaces the kernel by a loop over
      cooperative tasks, with message queues on the ring buffer.
    - Channels: data channels and virtual channels (components/data_channel,
      virtual_channel) are byte streams between tasks over two ring buffers.
    - Storage: a key-value store (utility/kv) keeps items in blocks of NOR flash
      and collects deleted items; checksums are in utility/crc and crc32; a pool
      allocator (utility/memory) replaces malloc where the platform has none.
    - Device model: the properties of a device (components/qm_spec) are lists of
      values in the heap, which binary messages set, read and report.
    - Bluetooth: the link (components/qm_ble) cuts messages into frames, encrypts
      them with AES (utility/aes through platform/mcu/esp32) under a key that a
      challenge and SHA-256 (utility/sha256) give, and reassembles what arrives; new
      firmware comes over it (core/qm_ble_ota.c) into the flash of the ESP32.
    - Secrets and text: MD5, SHA-1 and HMAC (utility/md5, sha1, hmac) sign messages;
      one-time passwords (utility/totp) are made of them; utility/string writes and
      reads numbers, bytes and values in JSON text.

    ** Conventions

    A w-bit integer is a [Z]; the casts [u8], [u16], [u32], [u64], [i32], ...
    below are written where C reduces modulo the width.  Signed overflow, which C
    leaves undefined, is [None] in StepDelta.  Memory accesses that can go wrong
    return an [outcome] (Outcome.v): a result, [OutOfBounds] for an access outside
    valid memory (NULL, freed or foreign), or [NoFuel] for a loop cut off by its
    fuel.  Linked structures are stores from addresses to nodes, so aliasing and
    stale links are visible.  NULL arguments are [None].  Allocation results,
    clock readings and results of drivers are arguments; callbacks are functions
    on a client state or are recorded as a trace.  Locks are left out; where
    the source releases one around a callback, the callback may change the state.
    Threads are modelled where the component is about them: ThreadPool is a step
    relation whose steps are the sections under the mutex, WorkQueue runs arbitrary
    interleavings of client calls, timer expiries and rounds of the worker, and the
    channels take what other threads do during a wait as an argument.  The kernel
    queue of WorkQueue and the flash driver of KvMgr are classes whose laws are
    their documented behaviour; both have an executable instance.  The block cipher
    and the digest of Ble are classes too; Aes and Sha256 are the instances.  BleOta is
    proved against a driver that appends, which Esp32Ota is over the vendor's functions;
    these promise no more than a working flash whose slots are erased when they are opened.

    ** Files

    - Prelude.v (this file): integer casts with their lemmas, tactics and hints,
      error codes, lists with distinct keys.
    - Outcome.v: results of C code with a monad.
    - Ring.v: cyclic indices, segments of a circular array; shared by the next two.
    - RingBuf.v: [qm_ringbuf_t] with init, push, pop, flush and the two tests.
      Push and pop refine a bounded FIFO of bytes; a push stores the longest prefix
      that fits; the flags are sound.
    - MsgQueue.v: the class of a bounded queue of messages with its laws, which
      the event bus is proved against.
    - CircBuf.v: [circbuf_var_t]; push, pop, peek and drop refine a queue of
      messages and give the instance of the class.  A destructive pop into a short
      buffer is shown to lose synchronisation.
    - EventBus.v: [qm_eventbus_t] with init, post, process, peek, count and call.
      Processing ends and delivers emergency events first, then normal ones, in
      posting order to every matching handler, when handlers post nothing; posting appends to the right queue
      or reports the error; the effect of a direct call on the queue is stated.
    - Endian.v: byte swaps of qm_types.h and big-endian fields.
    - TlvBlock.v: one block ([qm_tlv_block_t]) for every configuration of tag and
      length width: pack and unpack round trips, copying, error paths.
    - TlvCtx.v: lists of blocks ([qm_tlv_ctx_t]): add, remove, find, merge and
      divide refine operations on lists of abstract blocks.
    - TlvCodec.v: the DTTV, TLV and TTLV formats as instances of one class of wire
      formats; round trip, bounds of the writer, safety of the parser, exact size
      queries, and the inputs on which the code misbehaves.
    - MultiTimer.v: timers in two sorted singly linked lists, one for deadlines
      after the next wrap of the clock.  Start and stop refine sorted insertion and
      removal; a yield without a wrap, with callbacks that leave the timers alone,
      fires exactly the due timers in order and returns the time to the next deadline;
      a wrap with a periodic timer armed does not end.
    - MultiButton.v: debouncing and click recognition at the widths of the bit
      fields, the work list and the sampling tick.
    - QList.v: [qm_list_t] in a store of nodes; pushes, pops, removal, search,
      indexing and destruction refine operations on a sequence of nodes.
    - StepDelta.v: ramps in Q14 arithmetic; no overflow, the announced number of
      steps, bounds of the outputs.
    - QmTime.v: [_qm_gmtime_r] and [qm_mktime] against a day-counting definition
      of the Gregorian calendar, their round trips, the time zone and the clock.
    - WeeklyTimer.v: the next alarm of a group is the earliest due instant, in UTC.
    - CountDown.v: deadlines across the wrap of the millisecond counter.
    - CommBase.v: the receive state machine ends and does not depend on how the
      bytes are split into chunks; unacknowledged commands are repeated exactly as
      often as asked; acknowledgements complete them.
    - Base64.v: the codec against RFC 4648, and its round trip.
    - HashTable.v: chained hash table; adding a new key and deleting a key of fixed
      length act on this key only; updates of chained keys are shown to corrupt.
    - Crc.v: the 21 codes of qm_crc.c are the published codes, defined by polynomial
      division; bursts up to the width are detected; the two variants of
      [qm_utils_crc32] agree.
    - ThreadPool.v: in every state reached once all workers wait, the tasks taken and
      queued are the tasks accepted in order; a graceful destroy drains the queue; a
      destroy can always be completed; the races the source has before and besides that
      are shown.
    - Future.v: the first value wins.
    - Noos.v: queues of the threadless kernel refine a FIFO of messages while whole
      messages fit; a yield calls every task once.
    - VirtualChannel.v: tables of servers, listeners and clients; calls with
      descriptors that are not negative keep them well-formed and touch no buffer that
      is freed or missing; writes and reads act on byte streams.
    - DataChannel.v: the same for pointers to servers and clients.
    - WorkQueue.v: events, works and their timers; every interleaving is free of
      undefined accesses as long as the kernel has timers left, accepted messages are handled in
      order, a cancelled work does not run; what goes wrong outside these conditions.
    - Flash.v: the class [SpiFlash] (reading, programming, which clears bits, and
      erasing of sectors) with its lemmas, an instance on a finite map, and one that
      remembers every state the flash has had.
    - KvMgr.v: qm_kvmgr.c in a state monad: lookup, storing, deletion, garbage
      collection, start and recovery, for every number of blocks.
    - KvStore.v: the blocks as lists of entries, the invariant [wf], and refinement of
      a finite map by get, set, delete, delete by prefix and garbage collection, as
      long as no allocation fails.
    - KvRecover.v: the start on any flash of laid-out blocks, with the recovery of
      interrupted updates and collections.
    - KvInit.v: start on a blank flash, restart, concrete stores, and the states in
      which the store hangs or loses data.
    - KvCrash.v: power loss after any flash operation of set, delete and garbage
      collection: the next start gives the map before or after the call, as long as a
      block stays clean and no live entry has a live origin.
    - Memory.v: the pool allocator on the words of its area, with an alignment of 4 or
      8.  Allocation and release
      refine first fit with splitting and joining on a list of blocks; blocks in use
      are aligned, disjoint and untouched by other calls; a drained pool is whole.
    - Heap.v: objects with sizes, and the class of an allocator, for the device model.
    - SpecApi.v: [qm_spec_property_operation] and its properties: packing and
      unpacking, add, find, remove and merge against a finite map.
    - SpecHex.v: the binary messages of qm_spec_core.c and their dispatch: round
      trip of reports, set and service messages, responses, release of the heap.
    - Words.v: bytes of words, tables, and reflection of properties of bytes.
    - Merkle.v: the buffering of block digests: feeding pieces keeps the state of the
      blocks seen so far and the rest in the buffer.
    - Sha256.v: qm_utils_sha256.c against FIPS 180-4, whose constants are computed from
      primes; a message hashed in pieces has the digest of the whole.
    - Aes.v: key schedules, block function, CBC and CFB128; decryption inverts
      encryption; the functions of the ESP32 port.  AesFips.v: the block function is
      the cipher of FIPS 197, defined by arithmetic in GF(2^8).
    - Ble.v: service, transport, authentication and core of qm_ble.  BleLink.v: a message
      sent by one side is delivered by the other; the receiver is safe on any packets
      of at least four bytes; the cases in which the link loses data, hangs or reads
      foreign memory.  BleAuth.v: the key that answers a challenge.
    - Digest.v: the contexts of MD5 and SHA-1, whose code differs only in the
      compression and the byte order.  Md5.v and Sha1.v: the compressions, against RFC
      1321 (constants from the sine) and FIPS 180-4.
    - StrUtil.v: text helpers: round trips of numbers and bytes, safety and result of the
      search in JSON text, substitution of strings.
    - Hmac.v and Totp.v: HMAC against RFC 2104, passwords against RFC 4226, and the
      passwords of successive periods.
    - BleOta.v: updates over Bluetooth, for any driver that appends.  Esp32Ota.v: the
      driver of the ESP32 does; a file sent in pieces of at most 256 bytes is in the slot that is not
      running, and is switched to exactly if its digest is right; the cases in which a
      refused, malformed or long message goes wrong.

    Each component is a Module with its data, its operations under the names of
    the source, a specification part and the theorems, followed by concrete
    instances on which the theorems are applied.

    ** Fuel and bounds

    Structural loops are recursive functions on lists.  Loops over linked nodes in
    MultiTimer and QList take fuel from the size of the store or of the list, and the
    theorems show that it is enough on well-formed lists; the yield loop and the
    receive loop take fuel as an argument, with theorems that a stated amount is
    enough for the result ([yield_fires_due], [recv_handler_total]) or that none is
    ([yield_wrap_diverges], [zero_length_step_diverges]).  Processing the work queue
    takes one unit more than there are messages.  The search for a free block takes
    fuel above the number of blocks, which is enough when the entry can be placed
    ([kv_set_refines]) and never in a full store ([full_store_hangs]); a traversal has
    520 rounds, more than the 512 items of 8 bytes in a block.  Walks over the free
    list of Memory take one unit per word of the area, unpacking a message one per
    byte.  The substitution of strings takes one unit more than the format has
    characters.  In Ble the fuel bounds the calls of send_fragment from its own completion:
    one is enough when the stack takes the notifications ([link_roundtrip]) and none is
    when it refuses them ([unsubscribed_notification_diverges]).  Reading a file back for
    its digest takes two units more than it has full buffers.  The year loop of the
    calendar needs at most four rounds, the month loop at most twelve, the weekday
    search at most eight.  Calendar theorems hold before 2100, because the source
    treats every fourth year as a leap year; ramps up to 262143 steps, the limit
    named in the source; countdowns up to 2^31 ms.

    ** What is not modelled

    Third-party code in the repository (bson, http_parser, tinycbor, FlashDB, SFUD,
    heatshrink, MQTTPacket), drivers and platform ports (but those of AES and updates on the ESP32), network clients and servers,
    and text formatting.  The JSON messages of the device model need the cJSON library,
    which is not in the repository.  Floating-point values in TLV blocks and properties
    are 32-bit patterns.  The queue of Bluetooth answers (qm_ble_async.c) is entered again from
    the link that it calls; in BleOta the result of each answer is a parameter.  Locks and semaphores are not modelled as objects beyond the
    conventions above; the flash driver does not report errors and a single call of it
    is not interrupted (power is lost between calls); console commands, which only
    print, are left out. *)

From stdpp Require Export base list list_numbers numbers gmap sets option decidable.
From stdpp Require Import tactics.
#[global] Set Default Proof Using "Type".
#[export] Set Default Goal Selector "!".

Declare Scope qm_scope.
Delimit Scope qm_scope with qm.
Open Scope Z_scope.

(** ** Machine integers (include/common/qm_types.h and <stdint.h>)

    A w-bit integer is a [Z]; every place where C reduces modulo the width
    applies one of the casts below. *)

Definition u8 (z : Z) : Z := z mod 2 ^ 8.
Definition u16 (z : Z) : Z := z mod 2 ^ 16.
Definition u32 (z : Z) : Z := z mod 2 ^ 32.
Definition u64 (z : Z) : Z := z mod 2 ^ 64.
Definition i8 (z : Z) : Z := (z + 2 ^ 7) mod 2 ^ 8 - 2 ^ 7.
Definition i16 (z : Z) : Z := (z + 2 ^ 15) mod 2 ^ 16 - 2 ^ 15.
Definition i32 (z : Z) : Z := (z + 2 ^ 31) mod 2 ^ 32 - 2 ^ 31.

Definition INT_MAX : Z := 2 ^ 31 - 1.
Definition UINT32_MAX : Z := 2 ^ 32 - 1.

Definition is_u8 (z : Z) : Prop := 0 <= z < 2 ^ 8.
Definition is_u16 (z : Z) : Prop := 0 <= z < 2 ^ 16.
Definition is_u32 (z : Z) : Prop := 0 <= z < 2 ^ 32.
Definition is_u64 (z : Z) : Prop := 0 <= z < 2 ^ 64.

Arguments u8 : simpl never.
Arguments u16 : simpl never.
Arguments u32 : simpl never.
Arguments u64 : simpl never.
Arguments i8 : simpl never.
Arguments i16 : simpl never.
Arguments i32 : simpl never.

Create HintDb qm.
Create Rewrite HintDb qm_rw.

Ltac widths := unfold u8, u16, u32, u64, i8, i16, i32, is_u8, is_u16, is_u32, is_u64, INT_MAX, UINT32_MAX in *.

(** Arithmetic with the width casts and Euclidean division. *)
Ltac zsolve := widths; Z.to_euclidean_division_equations; lia.

Lemma u8_range z : is_u8 (u8 z).
Proof. zsolve. Qed.
Lemma u16_range z : is_u16 (u16 z).
Proof. zsolve. Qed.
Lemma u32_range z : is_u32 (u32 z).
Proof. zsolve. Qed.

Lemma u8_id z : is_u8 z -> u8 z = z.
Proof. zsolve. Qed.
Lemma u16_id z : is_u16 z -> u16 z = z.
Proof. zsolve. Qed.
Lemma u32_id z : is_u32 z -> u32 z = z.
Proof. zsolve. Qed.
Lemma u64_id z : is_u64 z -> u64 z = z.
Proof. zsolve. Qed.
Lemma i32_id z : - 2 ^ 31 <= z < 2 ^ 31 -> i32 z = z.
Proof. zsolve. Qed.

#[export] Hint Resolve u8_range u16_range u32_range : qm.
#[export] Hint Rewrite u8_id u16_id u32_id using zsolve : qm_rw.

(** ** Bits *)

Lemma testbit_above w x i : 0 <= w -> 0 <= x < 2 ^ w -> w <= i -> Z.testbit x i = false.
Proof.
  intros Hw Hx Hi. destruct (decide (x = 0)) as [->|Hne]; [apply Z.testbit_0_l|].
  apply Z.bits_above_log2; [lia|]. apply Z.log2_lt_pow2; [lia|].
  apply Z.lt_le_trans with (2 ^ w); [lia|]. apply Z.pow_le_mono_r; lia.
Qed.

Lemma below_of_testbit w x :
  0 <= w -> 0 <= x -> (forall i, w <= i -> Z.testbit x i = false) -> 0 <= x < 2 ^ w.
Proof.
  intros Hw Hx Hi. split; [done|]. destruct (decide (x = 0)) as [->|Hne]; [lia|].
  apply Z.log2_lt_pow2; [lia|]. destruct (decide (Z.log2 x < w)) as [|Hge]; [done|].
  specialize (Hi (Z.log2 x) ltac:(lia)). rewrite Z.bit_log2 in Hi by lia. done.
Qed.

Lemma lxor_below w x y : 0 <= w -> 0 <= x < 2 ^ w -> 0 <= y < 2 ^ w -> 0 <= Z.lxor x y < 2 ^ w.
Proof.
  intros Hw Hx Hy. apply below_of_testbit; [done|apply Z.lxor_nonneg; lia|].
  intros i Hi. by rewrite Z.lxor_spec, !(testbit_above w).
Qed.

(** ** Error codes (include/common/qm_errno.h) *)

Definition QM_EOK : Z := 0.
Definition QM_ENOMEM : Z := 5.
Definition QM_EINVAL : Z := 10.
Definition QM_ENOENT : Z := 12.

(** ** Lists with distinct keys *)

Lemma NoDup_fmap_inj_elem {A B} (f : A -> B) (l : list A) x y :
  base.NoDup (f <$> l) -> x ∈ l -> y ∈ l -> f x = f y -> x = y.
Proof.
  induction l as [|a l IH]; [by rewrite elem_of_nil|]. rewrite fmap_cons, list.NoDup_cons, !elem_of_cons.
  intros [Ha Hl] [->|Hx] [->|Hy] He; [done|..].
  - exfalso. apply Ha. rewrite He. by apply list_elem_of_fmap_2.
  - exfalso. apply Ha. rewrite <- He. by apply list_elem_of_fmap_2.
  - by apply IH.
Qed.

Lemma NoDup_fmap_filter {A B} (f : A -> B) (P : A -> Prop) `{forall x, Decision (P x)} (l : list A) :
  base.NoDup (f <$> l) -> base.NoDup (f <$> filter P l).
Proof.
  intros Hl. apply list.NoDup_fmap_2_strong; [|apply list.NoDup_filter; by eapply list.NoDup_fmap_1].
  intros x y [_ Hx]%list_elem_of_filter [_ Hy]%list_elem_of_filter. by apply (NoDup_fmap_inj_elem f l).
Qed.

Lemma filter_all {A} (P : A -> Prop) `{forall x, Decision (P x)} (l : list A) : List.Forall P l -> filter P l = l.
Proof. intros Hl. induction Hl as [|x l Hx Hl IH]; [done|]. by rewrite filter_cons_True, IH. Qed.
