(* ===== verification/Outcome.v ===== *)
(** * Outcomes of running C code

    The result type of the parts of the development in which memory accesses
    can go wrong or loops need fuel, with its monad. *)

From S2P Require Import Prelude.

(** A result, or an access outside valid memory.  [NoFuel] marks a loop that
    was cut off by its fuel. *)
Inductive outcome (A : Type) :=
| Ret (a : A)
| OutOfBounds
| NoFuel.
Arguments Ret {A} a.
Arguments OutOfBounds {A}.
Arguments NoFuel {A}.

#[global] Instance outcome_ret : MRet outcome := @Ret.
#[global] Instance outcome_bind : MBind outcome := fun A B f m =>
  match m with Ret a => f a | OutOfBounds => OutOfBounds | NoFuel => NoFuel end.

(** A read that may fail. *)
Definition of_option {A} (o : option A) : outcome A :=
  match o with Some a => Ret a | None => OutOfBounds end.

Lemma bind_Ret {A B} (m : outcome A) (f : A -> outcome B) b :
  m ≫= f = Ret b -> exists a, m = Ret a /\ f a = Ret b.
Proof. destruct m as [a| |]; simpl; intros Hf; [by exists a|done|done]. Qed.
