(* ===== verification/Ring.v ===== *)
(** * Circular arrays

    Reads and writes of an array whose index wraps modulo the array's
    size.  The circular byte buffers of the code base (qm_ringbuf.c and
    circbuf_var.c) and the task queue of the thread pool store their contents
    this way; the lemmas here carry the modular arithmetic for all of them. *)

From S2P Require Import Prelude.

(** [ring_read buf size start n]: the [n] elements at positions
    [start, start+1, ...] modulo [size]. *)
Fixpoint ring_read {A} `{!Inhabited A} (buf : list A) (size start : Z) (n : nat) : list A :=
  match n with
  | O => []
  | S m => buf !!! Z.to_nat (start mod size) :: ring_read buf size (start + 1) m
  end.

(** [ring_write buf size start data] stores [data] at the positions
    [start, start+1, ...] modulo [size]. *)
Fixpoint ring_write {A} (buf : list A) (size start : Z) (data : list A) : list A :=
  match data with
  | [] => buf
  | b :: rest => ring_write (<[Z.to_nat (start mod size) := b]> buf) size (start + 1) rest
  end.

(** Distance between two wrapped indices, and the successor of one. *)
Lemma mod_sub sz a b : 0 <= a < sz -> 0 <= b < sz ->
  (a - b) mod sz = if b <=? a then a - b else a - b + sz.
Proof.
  intros Ha Hb. destruct (Z.leb_spec b a).
  - apply Z.mod_small. lia.
  - symmetry. apply (Z.mod_unique _ _ (-1)); lia.
Qed.

Lemma mod_succ sz a : 0 <= a < sz -> (a + 1) mod sz = if a + 1 =? sz then 0 else a + 1.
Proof.
  intros Ha. destruct (Z.eqb_spec (a + 1) sz) as [->|].
  - apply Z_mod_same_full.
  - apply Z.mod_small. lia.
Qed.

(** Case analysis on wrapped indices that are in range. *)
Ltac wrap_cases :=
  repeat first
    [ rewrite mod_succ by lia
    | rewrite mod_sub by (repeat case_match; lia)
    | match goal with
      | |- context [?a =? ?b] => destruct (Z.eqb_spec a b)
      | |- context [?a <=? ?b] => destruct (Z.leb_spec a b)
      | |- context [?a <? ?b] => destruct (Z.ltb_spec a b)
      | _ : context [?a =? ?b] |- _ => destruct (Z.eqb_spec a b)
      | _ : context [?a <=? ?b] |- _ => destruct (Z.leb_spec a b)
      end ]; try lia; try done.

Section ring.
Context `{!Inhabited A} (size : Z) (Hsize : 0 < size).
Implicit Types (buf data : list A) (b : A).

Lemma mod_add_ne s j k :
  0 <= j < size -> 0 <= k < size -> j <> k -> (s + j) mod size <> (s + k) mod size.
Proof using Hsize.
  intros Hj Hk Hne Heq.
  assert (size * ((s + j) / size - (s + k) / size) = j - k) as Hd.
  { pose proof (Z.div_mod (s + j) size). pose proof (Z.div_mod (s + k) size). lia. }
  set (q := (s + j) / size - (s + k) / size) in *.
  assert (q = 0 \/ q >= 1 \/ q <= -1) as [Hq|[Hq|Hq]] by lia; nia.
Qed.

Lemma ring_read_length buf s n : length (ring_read buf size s n) = n.
Proof. revert s; induction n as [|n IH]; intros s; simpl; [done|by rewrite IH]. Qed.

Lemma ring_read_app buf s n m :
  ring_read buf size s (n + m) = ring_read buf size s n ++ ring_read buf size (s + Z.of_nat n) m.
Proof.
  revert s; induction n as [|n IH]; intros s; simpl.
  - by rewrite Z.add_0_r.
  - rewrite IH. do 3 f_equal. lia.
Qed.

Lemma ring_read_take buf s n m :
  (m <= n)%nat -> take m (ring_read buf size s n) = ring_read buf size s m.
Proof.
  intros Hle. replace n with (m + (n - m))%nat by lia.
  rewrite ring_read_app, take_app_length'; [done|by rewrite ring_read_length].
Qed.

Lemma ring_read_drop buf s n m :
  (m <= n)%nat -> drop m (ring_read buf size s n) = ring_read buf size (s + Z.of_nat m) (n - m).
Proof.
  intros Hle. replace n with (m + (n - m))%nat at 1 by lia.
  rewrite ring_read_app, drop_app_length'; [done|by rewrite ring_read_length].
Qed.

Lemma ring_read_mod buf s n : ring_read buf size (s mod size) n = ring_read buf size s n.
Proof using Hsize.
  revert s; induction n as [|n IH]; intros s; simpl; [done|].
  rewrite Zmod_mod. f_equal.
  rewrite <- IH, <- (IH (s + 1)). f_equal. by rewrite Zplus_mod_idemp_l.
Qed.

Lemma ring_read_insert_ne buf s n k b :
  Z.of_nat n <= k < size ->
  ring_read (<[Z.to_nat ((s + k) mod size) := b]> buf) size s n = ring_read buf size s n.
Proof using Hsize.
  revert s k; induction n as [|n IH]; intros s k Hk; simpl; [done|].
  f_equal.
  - apply list_lookup_total_insert_ne.
    pose proof (mod_add_ne s 0 k ltac:(lia) ltac:(lia) ltac:(lia)) as Hne.
    rewrite Z.add_0_r in Hne.
    pose proof (Z.mod_pos_bound s size Hsize). pose proof (Z.mod_pos_bound (s + k) size Hsize). lia.
  - replace (s + k) with ((s + 1) + (k - 1)) by lia. apply IH. lia.
Qed.

Lemma ring_write_length buf s data : length (ring_write buf size s data) = length buf.
Proof.
  revert buf s; induction data as [|b data IH]; intros buf s; simpl; [done|].
  by rewrite IH, length_insert.
Qed.

Lemma ring_write_mod buf s data : ring_write buf size (s mod size) data = ring_write buf size s data.
Proof using Hsize.
  revert buf s; induction data as [|b data IH]; intros buf s; simpl; [done|].
  rewrite Zmod_mod, <- IH, <- (IH _ (s + 1)). f_equal. by rewrite Zplus_mod_idemp_l.
Qed.

(** A write of the region after the first [n] elements leaves them alone. *)
Lemma ring_read_write_before buf s n k data :
  Z.of_nat n <= k -> k + Z.of_nat (length data) <= size ->
  ring_read (ring_write buf size (s + k) data) size s n = ring_read buf size s n.
Proof using Hsize.
  revert buf k; induction data as [|b data IH]; intros buf k Hn Hk; simpl in *; [done|].
  replace (s + k + 1) with (s + (k + 1)) by lia.
  rewrite IH by lia. apply ring_read_insert_ne. lia.
Qed.

(** Reading back what was written. *)
Lemma ring_read_write buf s data :
  Z.of_nat (length buf) = size -> Z.of_nat (length data) <= size ->
  ring_read (ring_write buf size s data) size s (length data) = data.
Proof using Hsize.
  intros Hbuf. revert buf s Hbuf; induction data as [|b data IH]; intros buf s Hbuf Hd; simpl in *; [done|].
  f_equal; [|apply IH; [by rewrite length_insert|lia]].
  pose proof (Z.mod_pos_bound s size Hsize).
  change (ring_write ?l size (s + 1) data) with (ring_write l size (s + 1) data).
  assert (ring_read (ring_write (<[Z.to_nat (s mod size):=b]> buf) size (s + 1) data) size s 1
          = ring_read (<[Z.to_nat (s mod size):=b]> buf) size s 1) as Hr.
  { apply ring_read_write_before; lia. }
  simpl in Hr. injection Hr as ->.
  apply list_lookup_total_insert_eq. lia.
Qed.

(** The FIFO step: extending a region of [n] elements by [data]. *)
Lemma ring_read_extend buf s n data :
  Z.of_nat (length buf) = size -> Z.of_nat n + Z.of_nat (length data) <= size ->
  ring_read (ring_write buf size (s + Z.of_nat n) data) size s (n + length data)
  = ring_read buf size s n ++ data.
Proof using Hsize.
  intros Hbuf Hle. rewrite ring_read_app. f_equal.
  - apply ring_read_write_before; lia.
  - apply ring_read_write; lia.
Qed.
End ring.
