(* ===== verification/RingBuf.v ===== *)
(** * Byte ring buffer (utility/ringbuf/qm_ringbuf.c)

    The concrete buffer, its invariant, and the proof that it implements a
    bounded byte FIFO of capacity [size - 1]. *)

From S2P Require Import Prelude Ring.

Module RingBuf.

Record qm_ringbuf_t := mk_ringbuf {
  size : Z;                    (* uint32_t *)
  readpoint : Z;               (* uint32_t *)
  writepoint : Z;              (* uint32_t *)
  buffer : option (list Z);    (* uint8_t *, None = NULL *)
  full : Z                     (* uint8_t *)
}.

Definition zero_bytes (n : Z) : list Z := replicate (Z.to_nat n) 0.

(** The first argument is the previous content of the structure: an invalid
    call returns 0 and leaves it as it was.  [buff] is the caller's memory. *)
Definition qm_ringbuf_init (ringbuf : option qm_ringbuf_t) (buff : option (list Z)) (sz : Z)
  : Z * option qm_ringbuf_t :=
  match ringbuf, buff with
  | Some _, Some _ =>
      if sz =? 0 then (0, ringbuf)
      else (QM_EOK, Some (mk_ringbuf sz 0 0 (Some (zero_bytes sz)) 0))
  | _, _ => (0, ringbuf)
  end.

Definition qm_ringbuf_flush (ringbuf : option qm_ringbuf_t) : Z * option qm_ringbuf_t :=
  match ringbuf with
  | None => (0, None)
  | Some rb =>
      match buffer rb with
      | None => (0, Some rb)
      | Some _ => (QM_EOK, Some (mk_ringbuf (size rb) 0 0 (Some (zero_bytes (size rb))) 0))
      end
  end.

(** One iteration of the loop of [qm_ringbuf_push]; [None] is the early
    return with the buffer full. *)
Definition push_byte (rb : qm_ringbuf_t) (buf : list Z) (b : Z) : option (qm_ringbuf_t * list Z) :=
  if u32 (writepoint rb + 1) mod size rb =? readpoint rb then None
  else
    let wp := if writepoint rb <? u32 (size rb - 1) then writepoint rb + 1 else 0 in
    let buf' := <[Z.to_nat wp := b]> buf in
    Some (mk_ringbuf (size rb) (readpoint rb) wp (Some buf') (full rb), buf').

Fixpoint push_loop (rb : qm_ringbuf_t) (buf : list Z) (data : list Z) (i : Z) : Z * qm_ringbuf_t :=
  match data with
  | [] => (i, rb)
  | b :: rest =>
      match push_byte rb buf b with
      | None => (i, mk_ringbuf (size rb) (readpoint rb) (writepoint rb) (buffer rb) 1)
      | Some (rb', buf') => push_loop rb' buf' rest (i + 1)
      end
  end.

(** [len] is an [int]; its comparison with the unsigned [size] is unsigned. *)
Definition qm_ringbuf_push (ringbuf : option qm_ringbuf_t) (data : option (list Z)) (len : Z)
  : Z * option qm_ringbuf_t :=
  match ringbuf, data with
  | Some rb, Some d =>
      if len =? 0 then (0, ringbuf) else
      match buffer rb with
      | None => (0, ringbuf)
      | Some buf =>
          if u32 len >? size rb then (- QM_EINVAL, ringbuf)
          else
            let '(i, rb') := push_loop rb buf (take (Z.to_nat len) d) 0 in
            (i, Some rb')
      end
  | _, _ => (0, ringbuf)
  end.

(** The loop of [qm_ringbuf_pop]; [n] is the number of iterations left. *)
Fixpoint pop_loop (rb : qm_ringbuf_t) (buf : list Z) (n : nat) : list Z * qm_ringbuf_t :=
  match n with
  | O => ([], rb)
  | S m =>
      if writepoint rb =? readpoint rb then ([], rb)
      else
        let rp := if readpoint rb =? u32 (size rb - 1) then 0 else readpoint rb + 1 in
        let '(out, rb') :=
          pop_loop (mk_ringbuf (size rb) rp (writepoint rb) (buffer rb) 0) buf m in
        (buf !!! Z.to_nat rp :: out, rb')
  end.

(** Returns the bytes stored into [data]; the C result is their number. *)
Definition qm_ringbuf_pop (rb : qm_ringbuf_t) (len : Z) : list Z * qm_ringbuf_t :=
  match buffer rb with
  | Some buf => pop_loop rb buf (Z.to_nat len)
  | None => ([], rb)
  end.

Definition qm_ringbuf_isempty (rb : qm_ringbuf_t) : Z := Z.b2z (writepoint rb =? readpoint rb).

Definition qm_ringbuf_isfull (rb : qm_ringbuf_t) : Z := full rb.

(** ** Abstraction and invariant *)

(** Number of stored bytes. *)
Definition used (rb : qm_ringbuf_t) : Z := (writepoint rb - readpoint rb) mod size rb.

(** The stored bytes, oldest first: the slot after [readpoint] is the oldest. *)
Definition contents (rb : qm_ringbuf_t) : list Z :=
  match buffer rb with
  | Some buf => ring_read buf (size rb) (readpoint rb + 1) (Z.to_nat (used rb))
  | None => []
  end.

Definition capacity (rb : qm_ringbuf_t) : Z := size rb - 1.

Record rb_inv (rb : qm_ringbuf_t) : Prop := {
  inv_size : 0 < size rb < 2 ^ 32;
  inv_rp : 0 <= readpoint rb < size rb;
  inv_wp : 0 <= writepoint rb < size rb;
  inv_buf : exists buf, buffer rb = Some buf /\ Z.of_nat (length buf) = size rb;
  (* the [full] flag is only ever set on a buffer that has no room left *)
  inv_full : full rb = 0 \/ (full rb = 1 /\ used rb = size rb - 1)
}.

(** ** Lemmas *)

Lemma used_range rb : rb_inv rb -> 0 <= used rb < size rb.
Proof. intros []. apply Z.mod_pos_bound. lia. Qed.

Lemma contents_length rb : rb_inv rb -> Z.of_nat (length (contents rb)) = used rb.
Proof.
  intros H. destruct (inv_buf _ H) as (buf & Hb & _). unfold contents. rewrite Hb, ring_read_length.
  pose proof (used_range _ H). lia.
Qed.

(** The test for a full buffer in [qm_ringbuf_push]. *)
Lemma full_test rb : rb_inv rb ->
  (u32 (writepoint rb + 1) mod size rb =? readpoint rb) = (used rb =? capacity rb).
Proof.
  intros [Hs Hr Hw _ _]. unfold used, capacity. rewrite u32_id by (widths; lia).
  wrap_cases.
Qed.

Definition advance (sz p : Z) : Z := if p <? u32 (sz - 1) then p + 1 else 0.

Lemma advance_mod sz p : 0 < sz < 2 ^ 32 -> 0 <= p < sz -> advance sz p = (p + 1) mod sz.
Proof.
  intros Hs Hp. unfold advance. rewrite u32_id by (widths; lia).
  wrap_cases.
Qed.

Lemma used_push sz wp rp : 0 < sz -> 0 <= wp < sz -> 0 <= rp < sz ->
  (wp - rp) mod sz <> sz - 1 -> ((wp + 1) mod sz - rp) mod sz = (wp - rp) mod sz + 1.
Proof.
  intros ? ? ? Hne. revert Hne. wrap_cases.
Qed.

Lemma push_byte_spec rb buf b rb' buf' : rb_inv rb -> buffer rb = Some buf ->
  push_byte rb buf b = Some (rb', buf') ->
  rb_inv rb' /\ buffer rb' = Some buf' /\ contents rb' = contents rb ++ [b]
  /\ size rb' = size rb /\ full rb' = full rb /\ used rb < capacity rb.
Proof.
  intros Hinv Hb. unfold push_byte. rewrite (full_test _ Hinv).
  destruct (Z.eqb_spec (used rb) (capacity rb)) as [|Hne]; [done|]. intros [= <- <-].
  pose proof (used_range _ Hinv) as Hu.
  destruct Hinv as [Hs Hr Hw (buf0 & Hb0 & Hlen) Hfull].
  assert (buf0 = buf) as -> by congruence.
  fold (advance (size rb) (writepoint rb)). rewrite advance_mod by lia.
  assert (((writepoint rb + 1) mod size rb - readpoint rb) mod size rb = used rb + 1) as Hused.
  { apply used_push; unfold used, capacity in *; lia. }
  pose proof (Z.mod_pos_bound (writepoint rb + 1) (size rb)).
  split_and!; try done.
  - constructor; simpl; try lia.
    + eexists; split; [done|]. by rewrite length_insert.
    + left. destruct Hfull as [|[_ Hf]]; [done|]. unfold capacity in Hne. lia.
  - unfold contents; simpl. rewrite Hb. unfold used at 1; simpl. rewrite Hused.
    replace (Z.to_nat (used rb + 1)) with (Z.to_nat (used rb) + length [b])%nat by (simpl; lia).
    rewrite <- (ring_read_extend (size rb)) by (simpl; unfold capacity in *; lia).
    f_equal. simpl. f_equal. f_equal.
    rewrite Z2Nat.id by lia. unfold used.
    rewrite Zplus_mod_idemp_r. f_equal. lia.
  - unfold capacity in *; lia.
Qed.

Lemma push_byte_none rb buf b : rb_inv rb -> push_byte rb buf b = None -> used rb = capacity rb.
Proof.
  intros Hinv. unfold push_byte. rewrite (full_test _ Hinv).
  by destruct (Z.eqb_spec (used rb) (capacity rb)).
Qed.

Lemma capacity_size rb rb' : size rb' = size rb -> capacity rb' = capacity rb.
Proof. unfold capacity. by intros ->. Qed.

Lemma mark_full_inv rb : rb_inv rb -> used rb = capacity rb ->
  rb_inv (mk_ringbuf (size rb) (readpoint rb) (writepoint rb) (buffer rb) 1).
Proof. intros [] Hu. constructor; simpl; try done. right. split; [done|]. exact Hu. Qed.

Lemma push_loop_spec rb buf data i : rb_inv rb -> buffer rb = Some buf ->
  let k := Z.to_nat (capacity rb - used rb) in
  let '(r, rb') := push_loop rb buf data i in
  r = i + Z.of_nat (length (take k data)) /\ rb_inv rb' /\ size rb' = size rb
  /\ contents rb' = contents rb ++ take k data
  /\ full rb' = (if (k <? length data)%nat then 1 else full rb).
Proof.
  revert rb buf i. induction data as [|b data IH]; intros rb buf i Hinv Hb; simpl.
  { rewrite take_nil, app_nil_r. split_and!; simpl; (done || lia). }
  pose proof (used_range _ Hinv) as Hu.
  destruct (push_byte rb buf b) as [[rb' buf']|] eqn:Hp; simpl.
  - destruct (push_byte_spec _ _ _ _ _ Hinv Hb Hp) as (Hinv' & Hb' & Hc & Hs & Hf & Hroom).
    specialize (IH rb' buf' (i + 1) Hinv' Hb').
    pose proof (contents_length _ Hinv) as Hl. pose proof (contents_length _ Hinv') as Hl'.
    rewrite Hc, length_app in Hl'. simpl in Hl'.
    rewrite (capacity_size _ _ Hs) in IH.
    replace (Z.to_nat (capacity rb - used rb)) with (S (Z.to_nat (capacity rb - used rb'))) by lia.
    destruct (push_loop rb' buf' data (i + 1)) as [r rb'']. destruct IH as (-> & ? & ? & Hc' & Hf').
    split_and!; simpl; try (done || lia || congruence).
    + rewrite Hc', Hc. by rewrite <- app_assoc.
    + rewrite Hf', Hf. done.
  - pose proof (push_byte_none _ _ _ Hinv Hp) as Hfl.
    replace (Z.to_nat (capacity rb - used rb)) with 0%nat by lia. simpl.
    split_and!; try (done || lia); [by apply mark_full_inv|]. by rewrite app_nil_r.
Qed.

Lemma used_pop sz wp rp : 0 < sz -> 0 <= wp < sz -> 0 <= rp < sz -> wp <> rp ->
  (wp - (rp + 1) mod sz) mod sz = (wp - rp) mod sz - 1.
Proof.
  intros. wrap_cases.
Qed.

Lemma advance_eq sz p : 0 < sz < 2 ^ 32 -> 0 <= p < sz ->
  (if p =? u32 (sz - 1) then 0 else p + 1) = (p + 1) mod sz.
Proof.
  intros Hs Hp. rewrite u32_id by (widths; lia). wrap_cases.
Qed.

Lemma used_zero rb : rb_inv rb -> (writepoint rb =? readpoint rb) = (used rb =? 0).
Proof.
  intros [Hs Hr Hw _ _]. unfold used. wrap_cases.
Qed.

Lemma pop_loop_spec rb buf n : rb_inv rb -> buffer rb = Some buf ->
  let '(out, rb') := pop_loop rb buf n in
  out = take n (contents rb) /\ contents rb' = drop n (contents rb) /\ rb_inv rb' /\ size rb' = size rb
  /\ buffer rb' = Some buf.
Proof.
  revert rb. induction n as [|n IH]; intros rb Hinv Hb; simpl.
  { by rewrite take_0, drop_0. }
  rewrite (used_zero _ Hinv). destruct (Z.eqb_spec (used rb) 0) as [Hz|Hz].
  { assert (contents rb = []) as -> by (unfold contents; rewrite Hb, Hz; done).
    split_and!; try done; by rewrite ?take_nil, ?drop_nil. }
  pose proof (used_range _ Hinv) as Hu. pose proof Hinv as [Hs Hr Hw (buf0 & Hb0 & Hlen) _].
  assert (buf0 = buf) as -> by congruence. rewrite advance_eq by lia.
  assert (writepoint rb <> readpoint rb) as Hne.
  { intros He. pose proof (used_zero _ Hinv) as Hq. rewrite He, Z.eqb_refl in Hq.
    symmetry in Hq. apply Z.eqb_eq in Hq. lia. }
  set (rb1 := mk_ringbuf (size rb) ((readpoint rb + 1) mod size rb) (writepoint rb) (buffer rb) 0).
  assert (used rb1 = used rb - 1) as Hu1 by (unfold used; simpl; apply used_pop; lia).
  pose proof (Z.mod_pos_bound (readpoint rb + 1) (size rb)).
  assert (rb_inv rb1) as Hinv1.
  { constructor; simpl; try lia; eauto. }
  assert (contents rb = buf !!! Z.to_nat ((readpoint rb + 1) mod size rb) :: contents rb1) as ->.
  { unfold contents. simpl. rewrite Hb. replace (Z.to_nat (used rb)) with (S (Z.to_nat (used rb - 1))) by lia.
    simpl. f_equal. rewrite Hu1, <- (ring_read_mod (size rb) ltac:(lia) buf (readpoint rb + 1 + 1)),
      <- (ring_read_mod (size rb) ltac:(lia) buf (_ mod _ + 1)). by rewrite Zplus_mod_idemp_l. }
  specialize (IH rb1 Hinv1 Hb). destruct (pop_loop rb1 buf n) as [out rb'].
  destruct IH as (-> & Hc & ? & ? & ?). split_and!; done.
Qed.

Lemma isempty_contents rb : rb_inv rb -> (qm_ringbuf_isempty rb =? 0) = false -> contents rb = [].
Proof.
  intros Hinv. unfold qm_ringbuf_isempty. rewrite (used_zero _ Hinv), <- (contents_length _ Hinv).
  destruct (contents rb); [done|]. cbn [length]. destruct (Z.eqb_spec (Z.of_nat (S (length l))) 0); [lia|done].
Qed.

(** ** Theorems *)

(** A fresh ring buffer over a caller's buffer of [sz] bytes is empty and
    well formed. *)
Theorem init_establishes rb0 mem sz : 0 < sz < 2 ^ 32 ->
  exists rb, qm_ringbuf_init (Some rb0) (Some mem) sz = (QM_EOK, Some rb)
  /\ rb_inv rb /\ contents rb = [] /\ capacity rb = sz - 1.
Proof.
  intros Hs. unfold qm_ringbuf_init. destruct (Z.eqb_spec sz 0); [lia|].
  eexists. split; [done|]. split_and!; try done.
  constructor; simpl; try lia. eexists. split; [done|].
  unfold zero_bytes. rewrite length_replicate. lia.
Qed.

(** ** What the clients of the buffer use *)

Lemma push_spec rb d len : rb_inv rb -> 0 < len <= size rb -> len <= Z.of_nat (length d) ->
  let k := Z.to_nat (Z.min len (capacity rb - used rb)) in
  exists rb', qm_ringbuf_push (Some rb) (Some d) len = (Z.of_nat k, Some rb')
  /\ rb_inv rb' /\ size rb' = size rb /\ contents rb' = contents rb ++ take k d
  /\ qm_ringbuf_isfull rb' = (if capacity rb - used rb <? len then 1 else qm_ringbuf_isfull rb).
Proof.
  intros Hinv Hlen Hd. pose proof (used_range _ Hinv) as Hu. destruct (inv_buf _ Hinv) as (buf & Hb & _).
  pose proof (inv_size _ Hinv). unfold qm_ringbuf_push. rewrite Hb.
  destruct (Z.eqb_spec len 0); [lia|]. rewrite u32_id by (widths; lia).
  destruct (Z.gtb_spec len (size rb)); [lia|].
  pose proof (push_loop_spec rb buf (take (Z.to_nat len) d) 0 Hinv Hb) as Hl. simpl in Hl.
  destruct (push_loop rb buf (take (Z.to_nat len) d) 0) as [r rb'].
  destruct Hl as (-> & ? & ? & Hc & Hf). rewrite take_take in Hc. rewrite take_take, !length_take in *.
  exists rb'. unfold capacity in *. split_and!; try done.
  - f_equal. lia.
  - rewrite Hc. do 2 f_equal. lia.
  - unfold qm_ringbuf_isfull. rewrite Hf.
    destruct (Nat.ltb_spec (Z.to_nat (size rb - 1 - used rb)) (Z.to_nat len `min` length d));
      destruct (Z.ltb_spec (size rb - 1 - used rb) len); done || lia.
Qed.

(** [qm_ringbuf_push] of [len] bytes appends to the FIFO exactly the
    longest prefix for which there is room, returns its length, keeps the
    invariant, and raises the [full] flag exactly when bytes were left over. *)
Theorem push_refines rb d len : rb_inv rb -> 0 < len <= size rb -> len <= Z.of_nat (length d) ->
  let k := Z.to_nat (Z.min len (capacity rb - used rb)) in
  exists rb', qm_ringbuf_push (Some rb) (Some d) len = (Z.of_nat k, Some rb')
  /\ rb_inv rb' /\ contents rb' = contents rb ++ take k d
  /\ qm_ringbuf_isfull rb' = (if capacity rb - used rb <? len then 1 else qm_ringbuf_isfull rb).
Proof.
  intros Hinv Hlen Hd. destruct (push_spec rb d len Hinv Hlen Hd) as (rb' & ? & ? & ? & ? & ?). by exists rb'.
Qed.

Definition rb_demo : qm_ringbuf_t := mk_ringbuf 4 2 3 (Some [10; 11; 12; 13]) 0.

Lemma rb_demo_inv : rb_inv rb_demo.
Proof. constructor; simpl; try lia; eauto. Defined.

Lemma push_refines_witness :
  exists rb', qm_ringbuf_push (Some rb_demo) (Some [1; 2; 3]) 3 = (2, Some rb')
  /\ rb_inv rb' /\ contents rb' = [13; 1; 2] /\ qm_ringbuf_isfull rb' = 1.
Proof. apply (push_refines rb_demo [1; 2; 3] 3 rb_demo_inv); simpl; lia. Defined.

Lemma init_establishes_witness :
  exists rb, qm_ringbuf_init (Some rb_demo) (Some [7; 7]) 2 = (QM_EOK, Some rb)
  /\ rb_inv rb /\ contents rb = [] /\ capacity rb = 1.
Proof. apply (init_establishes rb_demo [7; 7] 2). lia. Defined.

Lemma pop_spec rb len : rb_inv rb ->
  let '(out, rb') := qm_ringbuf_pop rb len in
  out = take (Z.to_nat len) (contents rb) /\ contents rb' = drop (Z.to_nat len) (contents rb)
  /\ rb_inv rb' /\ size rb' = size rb.
Proof.
  intros Hinv. destruct (inv_buf _ Hinv) as (buf & Hb & _). unfold qm_ringbuf_pop. rewrite Hb.
  pose proof (pop_loop_spec rb buf (Z.to_nat len) Hinv Hb) as Hp.
  destruct (pop_loop rb buf (Z.to_nat len)) as [out rb'].
  by destruct Hp as (-> & -> & ? & ? & _).
Qed.

(** [qm_ringbuf_pop] returns the oldest bytes in order (all of them when
    fewer than [len] are stored), removes exactly those, and keeps the
    invariant. *)
Theorem pop_refines rb len : rb_inv rb ->
  let '(out, rb') := qm_ringbuf_pop rb len in
  out = take (Z.to_nat len) (contents rb) /\ contents rb' = drop (Z.to_nat len) (contents rb)
  /\ rb_inv rb'.
Proof.
  intros Hinv. pose proof (pop_spec rb len Hinv) as Hp. destruct (qm_ringbuf_pop rb len). by destruct Hp as (? & ? & ? & _).
Qed.

Lemma pop_refines_witness :
  let '(out, rb') := qm_ringbuf_pop rb_demo 5 in
  out = [13] /\ contents rb' = [] /\ rb_inv rb'.
Proof. exact (pop_refines rb_demo 5 rb_demo_inv). Defined.

(** The emptiness test is exact, and a raised [full] flag means that
    [capacity] bytes are stored. *)
Theorem flags_sound rb : rb_inv rb ->
  (qm_ringbuf_isempty rb = 1 <-> contents rb = [])
  /\ (qm_ringbuf_isfull rb = 1 -> Z.of_nat (length (contents rb)) = capacity rb).
Proof.
  intros Hinv. pose proof (contents_length _ Hinv) as Hl. split.
  - unfold qm_ringbuf_isempty. rewrite (used_zero _ Hinv), <- Hl.
    destruct (contents rb); simpl; [done|]. destruct (Z.eqb_spec (Z.of_nat (S (length l))) 0); [lia|].
    split; [discriminate|done].
  - unfold qm_ringbuf_isfull. intros Hf. rewrite Hl. destruct (inv_full _ Hinv) as [|[_ ->]]; [lia|done].
Qed.

Lemma flags_sound_witness :
  (qm_ringbuf_isempty rb_demo = 1 <-> contents rb_demo = [])
  /\ (qm_ringbuf_isfull rb_demo = 1 -> Z.of_nat (length (contents rb_demo)) = capacity rb_demo).
Proof. exact (flags_sound rb_demo rb_demo_inv). Defined.

(** [qm_ringbuf_flush] empties an initialised buffer and keeps the invariant. *)
Theorem flush_empties rb : rb_inv rb ->
  exists rb', qm_ringbuf_flush (Some rb) = (QM_EOK, Some rb') /\ rb_inv rb' /\ contents rb' = []
  /\ capacity rb' = capacity rb.
Proof.
  intros Hinv. destruct (inv_buf _ Hinv) as (buf & Hb & _). unfold qm_ringbuf_flush. rewrite Hb.
  pose proof (inv_size _ Hinv). eexists. split; [done|]. split_and!; try done.
  constructor; simpl; try lia. eexists. split; [done|].
  unfold zero_bytes. rewrite length_replicate. lia.
Qed.

Lemma flush_empties_witness :
  exists rb', qm_ringbuf_flush (Some rb_demo) = (QM_EOK, Some rb') /\ rb_inv rb' /\ contents rb' = []
  /\ capacity rb' = capacity rb_demo.
Proof. exact (flush_empties rb_demo rb_demo_inv). Defined.

End RingBuf.
