(* ===== verification/MsgQueue.v ===== *)
(** * Interface of a bounded queue of variable-length messages

    What the event bus relies on when it stores events in a queue: the
    operations it calls and the laws they obey with respect to the list of
    queued messages.  [CircBuf] discharges the laws for circbuf_var.c; the
    theorems of [EventBus] are proved against this interface only. *)

From S2P Require Import Prelude.

Class MsgQueue (Q : Type) := {
  (** [mq_init q mem size]: (re)initialise over the memory [mem] of [size] bytes *)
  mq_init : Q -> list Z -> Z -> Z * Q;
  (** [mq_push q elem size]: append the first [size] bytes of [elem] *)
  mq_push : Q -> list Z -> Z -> Z * Q;
  (** [mq_pop q size read_only]: result code, bytes copied out, new queue *)
  mq_pop : Q -> Z -> bool -> Z * list Z * Q;
  (** [mq_drop q]: discard the oldest message *)
  mq_drop : Q -> Z * Q;
  (** [mq_counts q]: number of queued messages *)
  mq_counts : Q -> Z
}.

Class MsgQueueLaws (Q : Type) `{MsgQueue Q} := {
  (** [mq_repr q es]: [q] is well formed and holds the messages [es], oldest first *)
  mq_repr : Q -> list (list Z) -> Prop;
  mq_init_repr q mem size : 0 < size < 2 ^ 16 -> Z.of_nat (length mem) = size ->
    exists q', mq_init q mem size = (0, q') /\ mq_repr q' [];
  (** a buffer without bytes is refused and the queue keeps its old state *)
  mq_init_refuse q mem size : size <= 0 -> mq_init q mem size = (- QM_EINVAL, q);
  mq_counts_repr q es : mq_repr q es -> mq_counts q = Z.of_nat (length es);
  (** a push either appends the message or reports that there is no room *)
  mq_push_repr q es elem size : mq_repr q es -> 0 < size < 256 -> size <= Z.of_nat (length elem) ->
    (exists q', mq_push q elem size = (0, q') /\ mq_repr q' (es ++ [take (Z.to_nat size) elem]))
    \/ mq_push q elem size = (- QM_ENOMEM, q);
  (** a read-only pop copies a prefix of the oldest message and changes nothing *)
  mq_peek_repr q e es size : mq_repr q (e :: es) -> 0 <= size ->
    mq_pop q size true
    = (Z.min size (Z.of_nat (length e)), take (Z.to_nat size) e, q);
  mq_peek_empty q size : mq_repr q [] -> mq_pop q size true = (- QM_ENOMEM, [], q);
  mq_drop_repr q e es : mq_repr q (e :: es) ->
    exists q', mq_drop q = (0, q') /\ mq_repr q' es;
  mq_nonempty q e es : mq_repr q es -> e ∈ es -> (0 < length e)%nat
}.
