(* ===== verification/CircBuf.v ===== *)
(** * Circular buffer of variable-length elements
    (components/qm_eventbus_static/circbuf_var.c)

    Each element is stored as one length byte followed by its data, in a
    byte ring of [size] bytes of which one always stays free. *)

From S2P Require Import Prelude Ring MsgQueue.

Module CircBuf.

Record circbuf_var_t := mk_circbuf {
  push_index : Z;       (* uint16_t *)
  pop_index : Z;        (* uint16_t *)
  size : Z;             (* uint16_t *)
  elem_cnt : Z;         (* int16_t *)
  buffer : list Z       (* the [size] bytes [buffer] points to *)
}.

(** [mem] is the memory at [buffer]. The zero-initialised object of
    [_eventbus] has [size = 0], which every operation tests. *)
Definition circbuf_var_init (circbuf : option circbuf_var_t) (mem : option (list Z)) (sz : Z)
  : Z * option circbuf_var_t :=
  match circbuf, mem with
  | Some _, Some m =>
      if sz <=? 0 then (- QM_EINVAL, circbuf)
      else (0, Some (mk_circbuf 0 0 (u16 sz) 0 m))
  | _, _ => (- QM_EINVAL, circbuf)
  end.

Definition circbuf_var_free_space (cb : circbuf_var_t) : Z :=
  let total := Z.rem (push_index cb - pop_index cb + size cb) (size cb) in
  size cb - total - 1.

Definition circbuf_var_size (cb : circbuf_var_t) : Z :=
  Z.rem (push_index cb - pop_index cb + size cb) (size cb).

Definition circbuf_var_elem_counts (cb : circbuf_var_t) : Z := elem_cnt cb.

(** The copy loop of [circbuf_var_pop]: [n] bytes from [idx] on; returns the
    bytes and the index after them. *)
Fixpoint pop_copy (buf : list Z) (sz idx : Z) (n : nat) : list Z * Z :=
  match n with
  | O => ([], idx)
  | S m =>
      let '(out, idx') := pop_copy buf sz (Z.rem (idx + 1) sz) m in
      (buf !!! Z.to_nat idx :: out, idx')
  end.

(** Result: return code, bytes stored into [elem], new state. *)
Definition circbuf_var_pop (circ_buf : option circbuf_var_t) (elem_null : bool) (sz : Z) (read_only : bool)
  : Z * list Z * option circbuf_var_t :=
  match circ_buf with
  | None => (- QM_EINVAL, [], None)
  | Some cb =>
      if elem_null || (size cb =? 0) then (- QM_EINVAL, [], circ_buf)
      else if elem_cnt cb =? 0 then (- QM_ENOMEM, [], circ_buf)
      else
        let elem_size := buffer cb !!! Z.to_nat (pop_index cb) in
        let pop_size := if sz <? elem_size then sz else elem_size in
        let '(out, idx) :=
          pop_copy (buffer cb) (size cb) (Z.rem (pop_index cb + 1) (size cb)) (Z.to_nat pop_size) in
        if read_only then (pop_size, out, circ_buf)
        else (pop_size, out,
              Some (mk_circbuf (push_index cb) idx (size cb) (i16 (elem_cnt cb - 1)) (buffer cb)))
  end.

Definition circbuf_var_drop_cur_elem (circbuf : option circbuf_var_t) : Z * option circbuf_var_t :=
  match circbuf with
  | None => (- QM_EINVAL, None)
  | Some cb =>
      if (elem_cnt cb =? 0) || (size cb =? 0) then (- QM_EINVAL, circbuf)
      else
        let header := buffer cb !!! Z.to_nat (pop_index cb) in
        (0, Some (mk_circbuf (push_index cb) (Z.rem (pop_index cb + header + 1) (size cb)) (size cb)
                    (i16 (elem_cnt cb - 1)) (buffer cb)))
  end.

Definition circbuf_var_cur_elem_size (circbuf : option circbuf_var_t) : Z :=
  match circbuf with
  | None => - QM_EINVAL
  | Some cb =>
      if (elem_cnt cb =? 0) || (size cb =? 0) then - QM_EINVAL
      else buffer cb !!! Z.to_nat (Z.rem (pop_index cb) (size cb)) + 1
  end.

(** The copy loop of [circbuf_var_push_elem]. *)
Fixpoint push_copy (buf : list Z) (sz idx : Z) (data : list Z) : list Z * Z :=
  match data with
  | [] => (buf, idx)
  | b :: rest => push_copy (<[Z.to_nat idx := b]> buf) sz (Z.rem (idx + 1) sz) rest
  end.

Definition circbuf_var_push_elem (circ_buf : option circbuf_var_t) (elem : option (list Z)) (sz : Z)
  : Z * option circbuf_var_t :=
  match circ_buf, elem with
  | Some cb, Some e =>
      if (sz =? 0) || (size cb =? 0) then (- QM_EINVAL, circ_buf)
      else if circbuf_var_free_space cb <? sz + 1 then (- QM_ENOMEM, circ_buf)
      else
        let buf := <[Z.to_nat (Z.rem (push_index cb) (size cb)) := u8 sz]> (buffer cb) in
        let idx := Z.rem (push_index cb + 1) (size cb) in
        let '(buf', idx') := push_copy buf (size cb) idx (take (Z.to_nat sz) e) in
        (0, Some (mk_circbuf idx' (pop_index cb) (size cb) (i16 (elem_cnt cb + 1)) buf'))
  | _, _ => (- QM_EINVAL, circ_buf)
  end.

(** ** Representation *)

(** Bytes of one stored element, and of a queue of elements. *)
Definition encode_elem (e : list Z) : list Z := Z.of_nat (length e) :: e.
Definition encode (es : list (list Z)) : list Z := concat (encode_elem <$> es).

Definition elem_ok (e : list Z) : Prop := (0 < length e < 256)%nat.

Record cb_repr (cb : circbuf_var_t) (es : list (list Z)) : Prop := {
  r_size : 0 < size cb < 2 ^ 16;
  r_push : push_index cb = (pop_index cb + Z.of_nat (length (encode es))) mod size cb;
  r_pop : 0 <= pop_index cb < size cb;
  r_room : Z.of_nat (length (encode es)) < size cb;
  r_len : Z.of_nat (length (buffer cb)) = size cb;
  r_data : ring_read (buffer cb) (size cb) (pop_index cb) (length (encode es)) = encode es;
  r_cnt : elem_cnt cb = Z.of_nat (length es);
  r_elems : Forall elem_ok es
}.

(** ** Lemmas *)

Lemma encode_app es es' : encode (es ++ es') = encode es ++ encode es'.
Proof. unfold encode. by rewrite fmap_app, concat_app. Qed.

Lemma encode_single e : encode [e] = encode_elem e.
Proof. unfold encode. simpl. by rewrite app_nil_r. Qed.

Lemma encode_cons e es : encode (e :: es) = encode_elem e ++ encode es.
Proof. done. Qed.

Lemma encode_length_ge es : Forall elem_ok es -> (2 * length es <= length (encode es))%nat.
Proof.
  induction 1 as [|e es He Hes IH]; [done|].
  rewrite encode_cons, length_app.
  unfold elem_ok in He. simpl. lia.
Qed.

(** The element counter fits its [int16_t]: the buffer is too small to hold
    more than 32767 elements. *)
Lemma cnt_bound cb es : cb_repr cb es -> Z.of_nat (length es) < 2 ^ 15.
Proof.
  intros []. pose proof (encode_length_ge _ r_elems0). lia.
Qed.

Lemma push_idx_range cb es : cb_repr cb es -> 0 <= push_index cb < size cb.
Proof. intros []. rewrite r_push0. apply Z.mod_pos_bound. lia. Qed.

Lemma rem_mod a b : 0 <= a -> 0 < b -> Z.rem a b = a mod b.
Proof. intros. apply Z.rem_mod_nonneg; lia. Qed.

Lemma dist_encode cb es : cb_repr cb es ->
  Z.rem (push_index cb - pop_index cb + size cb) (size cb) = Z.of_nat (length (encode es)).
Proof.
  intros H. pose proof (push_idx_range _ _ H). destruct H.
  rewrite rem_mod by lia.
  replace (push_index cb - pop_index cb + size cb)
    with (push_index cb - pop_index cb + 1 * size cb) by lia.
  rewrite Z_mod_plus_full, r_push0, Zminus_mod_idemp_l.
  rewrite Z.add_simpl_l. apply Z.mod_small. lia.
Qed.

Lemma push_copy_ring buf sz idx data : 0 < sz -> 0 <= idx < sz ->
  push_copy buf sz idx data = (ring_write buf sz idx data, (idx + Z.of_nat (length data)) mod sz).
Proof.
  intros Hs. revert buf idx. induction data as [|b data IH]; intros buf idx Hi; simpl.
  - rewrite Z.add_0_r, Z.mod_small; done.
  - rewrite rem_mod by lia.
    rewrite IH by (apply Z.mod_pos_bound; lia). rewrite ring_write_mod by done.
    rewrite (Z.mod_small idx) by done. f_equal. rewrite Zplus_mod_idemp_l. f_equal. lia.
Qed.

Lemma pop_copy_ring buf sz idx n : 0 < sz -> 0 <= idx < sz ->
  pop_copy buf sz idx n = (ring_read buf sz idx n, (idx + Z.of_nat n) mod sz).
Proof.
  intros Hs. revert idx. induction n as [|n IH]; intros idx Hi; simpl.
  - rewrite Z.add_0_r, Z.mod_small; done.
  - rewrite rem_mod by lia.
    rewrite IH by (apply Z.mod_pos_bound; lia). rewrite ring_read_mod by done.
    rewrite (Z.mod_small idx) by done. f_equal. rewrite Zplus_mod_idemp_l. f_equal. lia.
Qed.

(** The bytes of the oldest element. *)
Lemma head_bytes cb e es : cb_repr cb (e :: es) ->
  buffer cb !!! Z.to_nat (pop_index cb) = Z.of_nat (length e)
  /\ ring_read (buffer cb) (size cb) (pop_index cb + 1) (length e) = e
  /\ elem_ok e.
Proof.
  intros []. rewrite encode_cons in *. simpl in r_data0. rewrite length_app in r_data0.
  injection r_data0 as Hh Ht. rewrite Z.mod_small in Hh by done. split_and!; [done| |].
  - apply (f_equal (take (length e))) in Ht.
    rewrite ring_read_take in Ht by lia. by rewrite take_app_length in Ht.
  - by inversion r_elems0.
Qed.

(** Dropping the oldest element leaves the others in place. *)
Lemma repr_tail cb e es : cb_repr cb (e :: es) ->
  cb_repr (mk_circbuf (push_index cb) ((pop_index cb + Z.of_nat (length e) + 1) mod size cb) (size cb)
             (i16 (elem_cnt cb - 1)) (buffer cb)) es.
Proof.
  intros H. pose proof (cnt_bound _ _ H) as Hc. destruct H. simpl in Hc.
  rewrite encode_cons, length_app in *.
  simpl in r_room0. constructor; simpl; try done.
  - rewrite r_push0, Zplus_mod_idemp_l. f_equal. simpl. lia.
  - apply Z.mod_pos_bound. lia.
  - lia.
  - rewrite ring_read_mod by lia. apply (f_equal (drop (length (encode_elem e)))) in r_data0.
    rewrite drop_app_length, ring_read_drop in r_data0 by lia.
    simpl in r_data0. rewrite <- r_data0 at 2. f_equal; lia.
  - rewrite r_cnt0. simpl. widths. rewrite Z.mod_small; lia.
  - by inversion r_elems0.
Qed.

(** ** Operations against the representation *)

Lemma init_repr cb mem sz : 0 < sz < 2 ^ 16 -> Z.of_nat (length mem) = sz ->
  exists cb', circbuf_var_init (Some cb) (Some mem) sz = (0, Some cb') /\ cb_repr cb' [].
Proof.
  intros Hs Hl. unfold circbuf_var_init. destruct (Z.leb_spec sz 0); [lia|].
  rewrite u16_id by (widths; lia). eexists. split; [done|].
  constructor; simpl; try lia; done.
Qed.

Lemma push_repr cb es elem sz : cb_repr cb es -> 0 < sz < 256 -> sz <= Z.of_nat (length elem) ->
  Z.of_nat (length (encode es)) + sz + 2 <= size cb ->
  exists cb', circbuf_var_push_elem (Some cb) (Some elem) sz = (0, Some cb')
  /\ cb_repr cb' (es ++ [take (Z.to_nat sz) elem]).
Proof.
  intros H Hsz Hlen Hroom. unfold circbuf_var_push_elem, circbuf_var_free_space.
  rewrite (dist_encode _ _ H). pose proof (push_idx_range _ _ H) as Hp. pose proof (cnt_bound _ _ H) as Hc.
  destruct (Z.eqb_spec sz 0); [lia|]. destruct (Z.eqb_spec (size cb) 0); [lia|]. simpl.
  destruct (Z.ltb_spec (size cb - Z.of_nat (length (encode es)) - 1) (sz + 1)); [lia|].
  set (e := take (Z.to_nat sz) elem).
  assert (length e = Z.to_nat sz) as He by (unfold e; rewrite length_take; lia).
  rewrite !rem_mod by lia. rewrite push_copy_ring by (try apply Z.mod_pos_bound; lia).
  eexists. split; [done|]. destruct H.
  assert (u8 sz = Z.of_nat (length e)) as Hu8 by (rewrite u8_id; widths; lia).
  assert (length (encode (es ++ [e])) = length (encode es) + length (encode_elem e))%nat as Hel.
  { by rewrite encode_app, encode_single, length_app. }
  constructor; simpl; try done.
  - rewrite Zplus_mod_idemp_l, r_push0, Hel. simpl.
    rewrite <- !Z.add_assoc, Zplus_mod_idemp_l. f_equal. lia.
  - rewrite Hel. simpl. lia.
  - by rewrite ring_write_length, length_insert.
  - rewrite Hel, encode_app, encode_single, ring_write_mod by lia.
    rewrite Hu8.
    change (ring_write _ (size cb) (push_index cb + 1) e)
      with (ring_write (buffer cb) (size cb) (push_index cb) (encode_elem e)).
    rewrite r_push0, ring_write_mod by lia.
    rewrite ring_read_extend by (simpl; lia). by rewrite r_data0.
  - rewrite r_cnt0, length_app. simpl. widths.
    pose proof (encode_length_ge _ r_elems0). rewrite Z.mod_small; lia.
  - apply Forall_app. split; [done|]. constructor; [|done]. unfold elem_ok. lia.
Qed.

Lemma push_full cb es elem sz : cb_repr cb es -> 0 < sz < 256 ->
  size cb < Z.of_nat (length (encode es)) + sz + 2 ->
  circbuf_var_push_elem (Some cb) (Some elem) sz = (- QM_ENOMEM, Some cb).
Proof.
  intros H Hsz Hroom. unfold circbuf_var_push_elem, circbuf_var_free_space.
  rewrite (dist_encode _ _ H). destruct H.
  destruct (Z.eqb_spec sz 0); [lia|]. destruct (Z.eqb_spec (size cb) 0); [lia|]. simpl.
  destruct (Z.ltb_spec (size cb - Z.of_nat (length (encode es)) - 1) (sz + 1)); [done|lia].
Qed.

(** The common part of every [circbuf_var_pop] on a non-empty queue. *)
Lemma pop_repr cb e es sz ro : cb_repr cb (e :: es) -> 0 <= sz ->
  circbuf_var_pop (Some cb) false sz ro
  = (Z.min sz (Z.of_nat (length e)), take (Z.to_nat sz) e,
     if ro then Some cb
     else Some (mk_circbuf (push_index cb)
                  ((pop_index cb + 1 + Z.min sz (Z.of_nat (length e))) mod size cb)
                  (size cb) (i16 (elem_cnt cb - 1)) (buffer cb))).
Proof.
  intros H Hsz. destruct (head_bytes _ _ _ H) as (Hh & Ht & He). unfold circbuf_var_pop.
  destruct H. simpl in r_cnt0.
  destruct (Z.eqb_spec (size cb) 0); [lia|]. destruct (Z.eqb_spec (elem_cnt cb) 0); [lia|]. simpl.
  rewrite Hh, rem_mod by lia.
  assert ((if sz <? Z.of_nat (length e) then sz else Z.of_nat (length e))
          = Z.min sz (Z.of_nat (length e))) as -> by (destruct (Z.ltb_spec sz (Z.of_nat (length e))); lia).
  rewrite pop_copy_ring by (try apply Z.mod_pos_bound; lia).
  rewrite ring_read_mod by lia. rewrite <- (ring_read_take (size cb) (buffer cb) (pop_index cb + 1) (length e)) by lia.
  rewrite Ht.
  assert (take (Z.to_nat (Z.min sz (Z.of_nat (length e)))) e = take (Z.to_nat sz) e) as ->.
  { destruct (decide (sz <= Z.of_nat (length e))); [f_equal; lia|]. by rewrite !take_ge by lia. }
  destruct ro; [done|]. rewrite Zplus_mod_idemp_l. do 4 f_equal. lia.
Qed.

Lemma drop_repr cb e es : cb_repr cb (e :: es) ->
  exists cb', circbuf_var_drop_cur_elem (Some cb) = (0, Some cb') /\ cb_repr cb' es.
Proof.
  intros H. destruct (head_bytes _ _ _ H) as (Hh & _ & He). pose proof (repr_tail _ _ _ H) as Ht.
  unfold circbuf_var_drop_cur_elem. destruct H. simpl in r_cnt0.
  destruct (Z.eqb_spec (elem_cnt cb) 0); [lia|]. destruct (Z.eqb_spec (size cb) 0); [lia|]. simpl.
  rewrite Hh, rem_mod by lia. eauto.
Qed.

Lemma pop_whole cb e es sz : cb_repr cb (e :: es) -> Z.of_nat (length e) <= sz ->
  exists cb', circbuf_var_pop (Some cb) false sz false = (Z.of_nat (length e), e, Some cb')
  /\ cb_repr cb' es.
Proof.
  intros H Hsz. rewrite (pop_repr _ _ _ _ _ H) by lia. rewrite Z.min_r, take_ge by lia.
  eexists. split; [done|].
  replace (pop_index cb + 1 + Z.of_nat (length e)) with (pop_index cb + Z.of_nat (length e) + 1) by lia.
  by apply repr_tail.
Qed.

(** ** Theorems *)

(** [circbuf_var_push_elem] of an element of 1 to 255 bytes either appends
    it to the queue (there are [size - 1] usable bytes and an element takes
    its length plus one) or returns [-QM_ENOMEM] and changes nothing. *)
Theorem push_elem_refines cb es elem sz : cb_repr cb es -> 0 < sz < 256 -> sz <= Z.of_nat (length elem) ->
  if Z.of_nat (length (encode es)) + (sz + 1) <=? size cb - 1
  then exists cb', circbuf_var_push_elem (Some cb) (Some elem) sz = (0, Some cb')
       /\ cb_repr cb' (es ++ [take (Z.to_nat sz) elem])
  else circbuf_var_push_elem (Some cb) (Some elem) sz = (- QM_ENOMEM, Some cb).
Proof.
  intros H Hs Hl. destruct (Z.leb_spec (Z.of_nat (length (encode es)) + (sz + 1)) (size cb - 1)).
  - apply push_repr; (done || lia).
  - eapply push_full; [done|done|lia].
Qed.

(** A buffer of 8 bytes whose queue wraps around the end. *)
Definition cb_demo : circbuf_var_t := mk_circbuf 1 5 8 1 [22; 0; 0; 0; 0; 3; 20; 21].

Lemma cb_demo_repr : cb_repr cb_demo [[20; 21; 22]].
Proof.
  constructor; simpl; try lia; try done. repeat constructor; simpl; lia.
Defined.

Lemma push_elem_refines_witness :
  exists cb', circbuf_var_push_elem (Some cb_demo) (Some [7; 9]) 2 = (0, Some cb')
  /\ cb_repr cb' [[20; 21; 22]; [7; 9]].
Proof.
  exact (push_elem_refines cb_demo [[20; 21; 22]] [7; 9] 2 cb_demo_repr
           ltac:(lia) ltac:(simpl; lia)).
Defined.

(** C38: a destructive [circbuf_var_pop] with a buffer large enough for the
    oldest element returns exactly that element and leaves the rest; a
    read-only one returns the same bytes and leaves the queue as it was. *)
Theorem pop_refines_queue cb e es sz : cb_repr cb (e :: es) -> Z.of_nat (length e) <= sz ->
  circbuf_var_pop (Some cb) false sz true = (Z.of_nat (length e), e, Some cb)
  /\ exists cb', circbuf_var_pop (Some cb) false sz false = (Z.of_nat (length e), e, Some cb')
     /\ cb_repr cb' es.
Proof.
  intros H Hsz. split; [|by apply pop_whole].
  rewrite (pop_repr _ _ _ _ _ H), Z.min_r, take_ge by lia. done.
Qed.

Lemma pop_refines_queue_witness :
  circbuf_var_pop (Some cb_demo) false 10 true = (3, [20; 21; 22], Some cb_demo)
  /\ exists cb', circbuf_var_pop (Some cb_demo) false 10 false = (3, [20; 21; 22], Some cb')
     /\ cb_repr cb' [].
Proof. apply (pop_refines_queue cb_demo [20; 21; 22] [] 10 cb_demo_repr). simpl. lia. Defined.

(** Pushing into an empty queue and popping gives the same bytes back
    (round trip), whatever the position of the ring indices. *)
Theorem push_pop_roundtrip cb elem : cb_repr cb [] -> elem_ok elem ->
  Z.of_nat (length elem) + 2 <= size cb ->
  exists cb1 cb2, circbuf_var_push_elem (Some cb) (Some elem) (Z.of_nat (length elem)) = (0, Some cb1)
  /\ circbuf_var_pop (Some cb1) false 255 false = (Z.of_nat (length elem), elem, Some cb2)
  /\ cb_repr cb2 [].
Proof.
  unfold elem_ok. intros H He Hr.
  destruct (push_repr cb [] elem (Z.of_nat (length elem)) H) as (cb1 & Hp & H1); try (simpl; lia).
  rewrite Nat2Z.id, firstn_all in H1. exists cb1.
  destruct (pop_whole cb1 elem [] 255 H1) as (cb2 & Hq & H2); [lia|]. eauto.
Qed.

Definition cb_empty6 : circbuf_var_t := mk_circbuf 4 4 6 0 [0; 0; 0; 0; 0; 0].

Lemma push_pop_roundtrip_witness :
  exists cb1 cb2, circbuf_var_push_elem (Some cb_empty6) (Some [1; 2; 3; 4]) 4 = (0, Some cb1)
  /\ circbuf_var_pop (Some cb1) false 255 false = (4, [1; 2; 3; 4], Some cb2) /\ cb_repr cb2 [].
Proof.
  apply (push_pop_roundtrip cb_empty6 [1; 2; 3; 4]).
  - constructor; simpl; try lia; done.
  - unfold elem_ok. simpl. lia.
  - simpl. lia.
Defined.

(** A destructive [circbuf_var_pop] with a buffer shorter than the oldest
    element advances the read index by the copied bytes only: the queue then
    takes a data byte of the old element for the next length byte. *)
Theorem short_pop_desynchronises :
  let cb := mk_circbuf 6 0 8 2 [3; 9; 8; 7; 1; 5; 0; 0] in
  cb_repr cb [[9; 8; 7]; [5]]
  /\ exists cb', circbuf_var_pop (Some cb) false 1 false = (1, [9], Some cb')
  /\ circbuf_var_pop (Some cb') false 255 true = (8, [7; 1; 5; 0; 0; 3; 9; 8], Some cb')
  /\ forall es, ~ cb_repr cb' es.
Proof.
  split.
  - constructor; simpl; try lia; try done. repeat constructor; simpl; lia.
  - eexists. split; [reflexivity|]. split; [reflexivity|].
    intros es H. pose proof (r_cnt _ _ H) as Hc. change (1 = Z.of_nat (length es)) in Hc.
    destruct es as [|e [|e' es]]; simpl in Hc; try lia.
    pose proof (r_room _ _ H) as Hroom. apply head_bytes in H as (Hh & _).
    change (8 = Z.of_nat (length e)) in Hh. rewrite encode_single in Hroom. simpl in Hroom. lia.
Qed.

(** ** The queue interface *)

Definition or_same (cb : circbuf_var_t) (r : option circbuf_var_t) : circbuf_var_t := default cb r.

#[global] Instance circbuf_queue : MsgQueue circbuf_var_t := {
  mq_init cb mem sz := let '(r, cb') := circbuf_var_init (Some cb) (Some mem) sz in (r, or_same cb cb');
  mq_push cb e sz := let '(r, cb') := circbuf_var_push_elem (Some cb) (Some e) sz in (r, or_same cb cb');
  mq_pop cb sz ro :=
    let '(r, out, cb') := circbuf_var_pop (Some cb) false sz ro in (r, out, or_same cb cb');
  mq_drop cb := let '(r, cb') := circbuf_var_drop_cur_elem (Some cb) in (r, or_same cb cb');
  mq_counts := circbuf_var_elem_counts
}.

#[global] Program Instance circbuf_laws : MsgQueueLaws circbuf_var_t := { mq_repr := cb_repr }.
Next Obligation.
  intros q mem sz Hs Hl. destruct (init_repr q mem sz Hs Hl) as (q' & Hi & Hr).
  unfold mq_init, circbuf_queue. rewrite Hi. eauto.
Qed.
Next Obligation.
  intros q mem sz Hs. unfold mq_init, circbuf_queue, circbuf_var_init. destruct (Z.leb_spec sz 0); [done|lia].
Qed.
Next Obligation. intros q es H. apply (r_cnt _ _ H). Qed.
Next Obligation.
  intros q es elem sz H Hs Hl.
  destruct (decide (Z.of_nat (length (encode es)) + sz + 2 <= size q)) as [Hd|Hd].
  - left. destruct (push_repr _ _ _ _ H Hs Hl Hd) as (q' & Hp & Hr). unfold mq_push, circbuf_queue.
    rewrite Hp. eauto.
  - right. unfold mq_push, circbuf_queue. rewrite (push_full _ _ elem _ H Hs) by lia. done.
Qed.
Next Obligation.
  intros q e es sz H Hs. unfold mq_pop, circbuf_queue. by rewrite (pop_repr _ _ _ _ true H Hs).
Qed.
Next Obligation.
  intros q sz H. unfold mq_pop, circbuf_queue, circbuf_var_pop. destruct H. simpl in r_cnt0.
  destruct (Z.eqb_spec (size q) 0); [lia|]. simpl. rewrite r_cnt0. done.
Qed.
Next Obligation.
  intros q e es H. destruct (drop_repr _ _ _ H) as (q' & Hd & Hr). unfold mq_drop, circbuf_queue.
  rewrite Hd. eauto.
Qed.
Next Obligation.
  intros q e es [] He. eapply List.Forall_forall in r_elems0; [|by apply list_elem_of_In]. unfold elem_ok in *. lia.
Qed.

End CircBuf.
