(* ===== verification/EventBus.v ===== *)
(** * Static event bus (components/qm_eventbus_static/qm_eventbus_static.c)

    A bus owns two message queues, one for normal and one for emergency
    events, and a table of handlers.  Handlers are function pointers that may
    call back into the bus, so a handler is a transformer of the whole world:
    the array [_eventbus] together with the client's state.  The queues are
    used through the interface of [MsgQueue]. *)

From S2P Require Import Prelude MsgQueue CircBuf.

Module EventBus.

Definition NULL_MODULE_ID : Z := 0.
Definition ALL_EVENT : Z := 0xFF.
Definition EVENT_ID (e : Z) : Z := Z.land e 0x7F.
Definition IS_EMERGE_EVENT (e : Z) : bool := negb (Z.land e 0x80 =? 0).
Definition QM_EVENTBUS_NORMAL_EVENT : Z := 1.
Definition QM_EVENTBUS_EMERGENCY_EVENT : Z := 2.
Definition QM_EVENTBUS_ALL_EVENT : Z := 3.
Definition sizeof_event : Z := 2.

Record qm_eventbus_event_t := mk_event { module_id : Z; event_id : Z }.

(** [handler] names a function of the environment [run_handler] below. *)
Record qm_eventbus_event_table_t := mk_entry { entry_event : qm_eventbus_event_t; handler : nat }.

Record qm_eventbus_t (Q : Type) := mk_bus {
  event_queue : Q;
  emerge_event_queue : Q;
  (** the entries before the [NULL_MODULE_ID] sentinel; [None] = NULL *)
  event_table : option (list qm_eventbus_event_table_t)
}.
Arguments mk_bus {Q}.
Arguments event_queue {Q}.
Arguments emerge_event_queue {Q}.
Arguments event_table {Q}.

#[export] Instance event_eq_dec : EqDecision qm_eventbus_event_t.
Proof. solve_decision. Defined.

Section bus.
Context {Q : Type} `{MsgQueue Q} {A : Type}.

(** The array [_eventbus] (its length is CONFIG_QM_EVENTBUS_MAX_BUS_NUM)
    and the client's state. *)
Definition world : Type := list (qm_eventbus_t Q) * A.

(** The functions the tables point to, and the value of an uninitialised byte. *)
Context (run_handler : nat -> nat -> qm_eventbus_event_t -> world -> world) (uninit : Z).

Definition set_bus (i : nat) (b : qm_eventbus_t Q) (w : world) : world := (<[i := b]> w.1, w.2).

Definition queue_of (emerge : bool) (b : qm_eventbus_t Q) : Q :=
  if emerge then emerge_event_queue b else event_queue b.

Definition set_queue (emerge : bool) (q : Q) (b : qm_eventbus_t Q) : qm_eventbus_t Q :=
  if emerge then mk_bus (event_queue b) q (event_table b)
  else mk_bus q (emerge_event_queue b) (event_table b).

(** The test of an entry against an event, as in every loop over the table. *)
Definition entry_matches (e : qm_eventbus_event_table_t) (ev : qm_eventbus_event_t) : bool :=
  (module_id (entry_event e) =? module_id ev)
  && ((event_id (entry_event e) =? ALL_EVENT)
      || (EVENT_ID (event_id (entry_event e)) =? EVENT_ID (event_id ev))).

(** The search of [qm_eventbus_post_event]: is there an entry before the sentinel? *)
Fixpoint has_handler (t : list qm_eventbus_event_table_t) (ev : qm_eventbus_event_t) : bool :=
  match t with
  | [] => false
  | e :: t' =>
      if module_id (entry_event e) =? NULL_MODULE_ID then false
      else if entry_matches e ev then true
      else has_handler t' ev
  end.

(** Rounding of the emergency part up to a multiple of 4. *)
Definition emerge_size (size emergency_percent : Z) : Z :=
  let n := if emergency_percent >? 0 then Z.quot (size * emergency_percent) 100 else 0 in
  if negb (Z.rem n 4 =? 0) then (Z.quot n 4 + 1) * 4 else n.

(** [mem] is the caller's buffer; the normal queue gets its first part. *)
Definition qm_eventbus_init (bus_id : nat) (mem : option (list Z)) (size : Z)
    (table : option (list qm_eventbus_event_table_t)) (emergency_percent : Z) (w : world) : Z * world :=
  match w.1 !! bus_id, mem, table with
  | Some b, Some m, Some t =>
      if size <=? 0 then (- QM_EINVAL, w)
      else if negb (Z.rem size 4 =? 0) then (- QM_EINVAL, w)
      else
        let e := emerge_size size emergency_percent in
        let '(_, q1) := mq_init (event_queue b) (take (Z.to_nat (size - e)) m) (size - e) in
        let '(_, q2) := mq_init (emerge_event_queue b) (drop (Z.to_nat (size - e)) m) e in
        (0, set_bus bus_id (mk_bus q1 q2 (Some t)) w)
  | _, _, _ => (- QM_EINVAL, w)
  end.

(** [ev] is the memory the event pointer refers to: header, then data.
    [size] is an [int] that [circbuf_var_push_elem] receives as [uint8_t]. *)
Definition event_of (bytes : list Z) : qm_eventbus_event_t :=
  mk_event (default uninit (bytes !! 0%nat)) (default uninit (bytes !! 1%nat)).

Definition qm_eventbus_post_event (bus_id : nat) (ev : option (list Z)) (size : Z) (w : world) : Z * world :=
  match w.1 !! bus_id, ev with
  | Some b, Some e =>
      if size <=? 0 then (- QM_EINVAL, w) else
      match event_table b with
      | None => (- QM_ENOENT, w)
      | Some t =>
          if negb (has_handler t (event_of e)) then (- QM_ENOENT, w)
          else
            let em := IS_EMERGE_EVENT (event_id (event_of e)) in
            let '(r, q) := mq_push (queue_of em b) e (u8 size) in
            (r, set_bus bus_id (set_queue em q b) w)
      end
  | _, _ => (- QM_EINVAL, w)
  end.

(** The handler loop, which reads the table of the current state at every
    index; [None] when the fuel runs out. *)
Fixpoint dispatch (fuel : nat) (bus_id : nat) (ev : qm_eventbus_event_t) (i : nat) (w : world) : option world :=
  match fuel with
  | O => None
  | S fuel' =>
      match (b ← w.1 !! bus_id; t ← event_table b; t !! i) with
      | None => Some w
      | Some e =>
          if module_id (entry_event e) =? NULL_MODULE_ID then Some w
          else dispatch fuel' bus_id ev (S i)
                 (if entry_matches e ev then run_handler (handler e) bus_id ev w else w)
      end
  end.

(** One of the two [while] loops of [qm_eventbus_process_events]. *)
Fixpoint drain (fuel : nat) (emerge : bool) (bus_id : nat) (w : world) : option world :=
  match fuel with
  | O => None
  | S fuel' =>
      b ← w.1 !! bus_id;
      let q := queue_of emerge b in
      if mq_counts q >? 0 then
        let '(_, out, q1) := mq_pop q 2 true in
        w1 ← dispatch fuel bus_id (event_of out) 0 (set_bus bus_id (set_queue emerge q1 b) w);
        b1 ← w1.1 !! bus_id;
        let '(_, q2) := mq_drop (queue_of emerge b1) in
        drain fuel' emerge bus_id (set_bus bus_id (set_queue emerge q2 b1) w1)
      else Some w
  end.

Definition qm_eventbus_process_events (fuel : nat) (bus_id : nat) (w : world) : option (Z * world) :=
  match w.1 !! bus_id with
  | None => Some (- QM_EINVAL, w)
  | Some b =>
      match event_table b with
      | None => Some (- QM_ENOENT, w)
      | Some _ =>
          w1 ← drain fuel true bus_id w;
          w2 ← drain fuel false bus_id w1;
          b2 ← w2.1 !! bus_id;
          Some (mq_counts (event_queue b2) + mq_counts (emerge_event_queue b2), w2)
      end
  end.

Definition qm_eventbus_peek_event_data (bus_id : nat) (ev : qm_eventbus_event_t) (data_null : bool) (size : Z)
    (w : world) : Z * list Z :=
  match w.1 !! bus_id with
  | None => (- QM_EINVAL, [])
  | Some b =>
      if data_null || (size <=? 0) then (- QM_EINVAL, [])
      else
        let '(r, out, _) := mq_pop (queue_of (IS_EMERGE_EVENT (event_id ev)) b) size true in
        (r, out)
  end.

Definition qm_eventbus_event_counts (bus_id : nat) (type : Z) (w : world) : Z :=
  match w.1 !! bus_id with
  | None => - QM_EINVAL
  | Some b =>
      let normal_counts := mq_counts (event_queue b) in
      let emerge_counts := mq_counts (emerge_event_queue b) in
      if type =? QM_EVENTBUS_NORMAL_EVENT then normal_counts
      else if type =? QM_EVENTBUS_EMERGENCY_EVENT then emerge_counts
      else if type =? QM_EVENTBUS_ALL_EVENT then normal_counts + emerge_counts
      else - QM_EINVAL
  end.

Definition qm_eventbus_call_event (fuel : nat) (bus_id : nat) (ev : option (list Z)) (size : Z) (w : world)
    : option (Z * world) :=
  match w.1 !! bus_id, ev with
  | Some b, Some e =>
      if size <=? 0 then Some (- QM_EINVAL, w) else
      match event_table b with
      | None => Some (- QM_ENOENT, w)
      | Some _ =>
          let '(ret, w1) :=
            if size >? sizeof_event then qm_eventbus_post_event bus_id ev size w else (0, w) in
          if ret <? 0 then Some (ret, w1)
          else
            w2 ← dispatch fuel bus_id (event_of e) 0 w1;
            if size >? sizeof_event then
              b2 ← w2.1 !! bus_id;
              let em := IS_EMERGE_EVENT (event_id (event_of e)) in
              let '(_, q) := mq_drop (queue_of em b2) in
              Some (0, set_bus bus_id (set_queue em q b2) w2)
            else Some (0, w2)
      end
  | _, _ => Some (- QM_EINVAL, w)
  end.
End bus.

(** ** Abstract specification: a bus is two lists of events *)

Section spec.
Context {A : Type} (effect : nat -> nat -> qm_eventbus_event_t -> A -> A).

(** The entries the loops visit. *)
Fixpoint active (t : list qm_eventbus_event_table_t) : list qm_eventbus_event_table_t :=
  match t with
  | [] => []
  | e :: t' => if module_id (entry_event e) =? NULL_MODULE_ID then [] else e :: active t'
  end.

(** Every matching handler runs once, in table order. *)
Definition deliver (bus_id : nat) (t : list qm_eventbus_event_table_t) (a : A) (ev : qm_eventbus_event_t) : A :=
  foldl (fun a e => effect (handler e) bus_id ev a) a (List.filter (fun e => entry_matches e ev) (active t)).

Definition deliver_all (bus_id : nat) (t : list qm_eventbus_event_table_t) (evs : list qm_eventbus_event_t) (a : A) : A :=
  foldl (deliver bus_id t) a evs.
End spec.

(** ** Lemmas, proved against the queue interface *)

Section bus_lemmas.
Context {Q : Type} `{MsgQueueLaws Q} {A : Type}.
Context (run_handler : nat -> nat -> qm_eventbus_event_t -> @world Q A -> @world Q A) (uninit : Z).
Context (effect : nat -> nat -> qm_eventbus_event_t -> A -> A).

(** Handlers that act on the client's state and leave the buses alone. *)
Definition handlers_observe : Prop :=
  forall h i ev bs a, run_handler h i ev (bs, a) = (bs, effect h i ev a).

(** [bus_repr b t es]: the bus has table [t], emergency events [es true]
    and normal events [es false]. *)
Record bus_repr (b : qm_eventbus_t Q) t (es : bool -> list (list Z)) : Prop := {
  br_table : event_table b = Some t;
  br_queue em : mq_repr (queue_of em b) (es em)
}.

Definition upd (em : bool) (l : list (list Z)) (es : bool -> list (list Z)) : bool -> list (list Z) :=
  fun em' => if Bool.eqb em em' then l else es em'.

Lemma set_queue_repr em b t es q l :
  bus_repr b t es -> mq_repr q l -> bus_repr (set_queue em q b) t (upd em l es).
Proof.
  intros [Ht Hq] Hl. constructor; [by destruct em|]. intros em'. unfold upd.
  destruct em, em'; simpl; try done; [apply (Hq false)|apply (Hq true)].
Qed.

Lemma set_queue_same em (b : qm_eventbus_t Q) : set_queue em (queue_of em b) b = b.
Proof. by destruct em, b. Qed.

Lemma set_bus_same i (b : qm_eventbus_t Q) bs (a : A) : bs !! i = Some b -> set_bus i b (bs, a) = (bs, a).
Proof. intros Hb. unfold set_bus. simpl. by rewrite list_insert_id. Qed.

Lemma event_of_take e : event_of uninit (take 2 e) = event_of uninit e.
Proof. by destruct e as [|? [|? ?]]. Qed.

Lemma has_handler_filter t ev :
  has_handler t ev = negb (bool_decide (List.filter (fun e => entry_matches e ev) (active t) = [])).
Proof.
  induction t as [|e t IH]; simpl; [done|].
  destruct (_ =? NULL_MODULE_ID); [done|]. simpl. destruct (entry_matches e ev); done.
Qed.

Lemma dispatch_observe (Hobs : handlers_observe) fuel bus_id ev t b bs a i :
  bs !! bus_id = Some b -> event_table b = Some t -> (length t < fuel + i)%nat -> (0 < fuel)%nat ->
  dispatch run_handler fuel bus_id ev i (bs, a)
  = Some (bs, deliver effect bus_id (drop i t) a ev).
Proof.
  intros Hb Ht. revert i a. induction fuel as [|fuel IH]; intros i a Hf Hpos; [lia|].
  simpl. rewrite Hb. simpl. rewrite Ht. simpl.
  destruct (t !! i) as [e|] eqn:He.
  - pose proof (lookup_lt_Some _ _ _ He). rewrite (drop_S _ _ _ He). unfold deliver. simpl.
    destruct (module_id (entry_event e) =? NULL_MODULE_ID); [done|]. simpl.
    destruct (entry_matches e ev).
    + rewrite Hobs, IH by lia. done.
    + rewrite IH by lia. done.
  - apply lookup_ge_None in He. rewrite drop_ge by lia. done.
Qed.

(** Draining one queue delivers its events in order and empties it. *)
Lemma drain_observe (Hobs : handlers_observe) em fuel bus_id t b bs a es :
  bs !! bus_id = Some b -> bus_repr b t es -> (length (es em) + length t < fuel)%nat ->
  exists b', drain run_handler uninit fuel em bus_id (bs, a)
             = Some (<[bus_id := b']> bs, deliver_all effect bus_id t (event_of uninit <$> es em) a)
  /\ bus_repr b' t (upd em [] es).
Proof.
  remember (es em) as l eqn:Hl. revert fuel b bs a es Hl.
  induction l as [|e l IH]; intros [|fuel] b bs a es Hl Hb Hr Hf; try (simpl in Hf; lia).
  - exists b. pose proof (mq_counts_repr _ _ (br_queue _ _ _ Hr em)) as Hc. rewrite <- Hl in Hc. simpl in Hc.
    split.
    + simpl. rewrite Hb. simpl. rewrite Hc. simpl. by rewrite list_insert_id.
    + destruct Hr as [Ht Hq]. constructor; [done|]. intros em'. unfold upd.
      specialize (Hq em'). destruct em, em'; simpl; rewrite ?Hl; done.
  - pose proof (br_queue _ _ _ Hr em) as Hq. rewrite <- Hl in Hq.
    pose proof (mq_counts_repr _ _ Hq) as Hc. simpl in Hc.
    destruct (mq_drop_repr _ _ _ Hq) as (q' & Hd & Hq').
    pose proof (set_queue_repr em b t es q' l Hr Hq') as Hr'.
    cbn [drain mbind option_bind fst]. rewrite Hb. cbn [mbind option_bind].
    destruct (Z.gtb_spec (mq_counts (queue_of em b)) 0); [|lia].
    rewrite (mq_peek_repr _ _ _ 2 Hq) by lia.
    rewrite set_queue_same, set_bus_same by done.
    pose proof (br_table _ _ _ Hr) as Hrt. simpl in Hf.
    rewrite (dispatch_observe Hobs _ _ _ t b) by (done || lia). cbn [mbind option_bind fst].
    rewrite Hb. cbn [mbind option_bind]. rewrite Hd. unfold set_bus. cbn [fst snd].
    assert (bus_id < length bs)%nat by (by eapply lookup_lt_Some).
    destruct (IH fuel (set_queue em q' b) (<[bus_id:=set_queue em q' b]> bs)
                (deliver effect bus_id (drop 0 t) a (event_of uninit (take (Z.to_nat 2) e)))
                (upd em l es)) as (b' & Hdr & Hr'').
    + unfold upd. by rewrite Bool.eqb_reflx.
    + by apply list_lookup_insert_eq.
    + done.
    + simpl in Hf. lia.
    + exists b'. split.
      * rewrite Hdr. rewrite list_insert_insert_eq. do 2 f_equal.
        change (Z.to_nat 2) with 2%nat. rewrite event_of_take, drop_0. done.
      * destruct Hr'' as [Ht Hqs]. constructor; [done|]. intros em'. specialize (Hqs em').
        unfold upd in *. destruct em, em'; done.
Qed.
End bus_lemmas.

(** The post of [qm_eventbus_post_event] once the guards are passed. *)
Lemma post_eq {Q} `{MsgQueue Q} {A} uninit bus_id e sz (bs : list (qm_eventbus_t Q)) (a : A) b t :
  bs !! bus_id = Some b -> event_table b = Some t -> 0 < sz -> has_handler t (event_of uninit e) = true ->
  qm_eventbus_post_event uninit bus_id (Some e) sz (bs, a)
  = let em := IS_EMERGE_EVENT (event_id (event_of uninit e)) in
    let '(r, q) := mq_push (queue_of em b) e (u8 sz) in (r, set_bus bus_id (set_queue em q b) (bs, a)).
Proof.
  intros Hb Ht Hsz Hh. unfold qm_eventbus_post_event. simpl. rewrite Hb, Ht, Hh.
  destruct (Z.leb_spec sz 0); [lia|]. done.
Qed.

(** ** Theorems *)

Section theorems.
Context {Q : Type} `{MsgQueueLaws Q} {A : Type}.
Context (run_handler : nat -> nat -> qm_eventbus_event_t -> @world Q A -> @world Q A) (uninit : Z).
Context (effect : nat -> nat -> qm_eventbus_event_t -> A -> A).

(** C6: with handlers that leave the buses alone and a bus that has both queues
    (emergency_percent is not 0), [qm_eventbus_process_events] terminates,
    runs every matching handler once per event, all emergency events first and
    each queue in posting order, and leaves both queues empty (result 0). *)
Theorem process_events_refines bus_id t b bs (a : A) es fuel :
  handlers_observe run_handler effect -> bs !! bus_id = Some b -> bus_repr b t es ->
  (length (es true) + length (es false) + length t < fuel)%nat ->
  exists b', qm_eventbus_process_events run_handler uninit fuel bus_id (bs, a)
    = Some (0, (<[bus_id := b']> bs,
                deliver_all effect bus_id t (event_of uninit <$> es true ++ es false) a))
  /\ bus_repr b' t (fun _ => []).
Proof.
  intros Hobs Hb Hr Hf. unfold qm_eventbus_process_events. cbn [fst]. rewrite Hb, (br_table _ _ _ Hr).
  destruct (drain_observe run_handler uninit effect Hobs true fuel bus_id t b bs a es) as (b1 & Hd1 & Hr1);
    [done|done|lia|].
  rewrite Hd1. cbn [mbind option_bind].
  assert (bus_id < length bs)%nat by (by eapply lookup_lt_Some).
  destruct (drain_observe run_handler uninit effect Hobs false fuel bus_id t b1 (<[bus_id:=b1]> bs)
              (deliver_all effect bus_id t (event_of uninit <$> es true) a) (upd true [] es)) as (b2 & Hd2 & Hr2).
  { by apply list_lookup_insert_eq. }
  { done. }
  { unfold upd; simpl; lia. }
  exists b2. rewrite Hd2. cbn [mbind option_bind fst]. rewrite list_insert_insert_eq.
  rewrite list_lookup_insert_eq by done. cbn [mbind option_bind].
  assert (forall em, mq_repr (queue_of em b2) []) as Hq2.
  { intros em. pose proof (br_queue _ _ _ Hr2 em) as Hq. by destruct em. }
  split; [|constructor; [apply (br_table _ _ _ Hr2)|done]].
  change (event_queue b2) with (queue_of false b2). change (emerge_event_queue b2) with (queue_of true b2).
  rewrite (mq_counts_repr _ _ (Hq2 false)), (mq_counts_repr _ _ (Hq2 true)).
  simpl. do 3 f_equal. unfold deliver_all. by rewrite fmap_app, foldl_app.
Qed.

(** Posting an event for which the table has a handler stores it, whole,
    at the end of the queue its emergency bit selects, or reports
    [-QM_ENOMEM] and changes nothing; the other queue is not touched. *)
Theorem post_event_refines bus_id t b bs (a : A) es e sz :
  bs !! bus_id = Some b -> bus_repr b t es -> has_handler t (event_of uninit e) = true ->
  0 < sz < 256 -> sz <= Z.of_nat (length e) ->
  let em := IS_EMERGE_EVENT (event_id (event_of uninit e)) in
  (exists b', qm_eventbus_post_event uninit bus_id (Some e) sz (bs, a) = (0, (<[bus_id := b']> bs, a))
     /\ bus_repr b' t (upd em (es em ++ [take (Z.to_nat sz) e]) es))
  \/ qm_eventbus_post_event uninit bus_id (Some e) sz (bs, a) = (- QM_ENOMEM, (bs, a)).
Proof.
  intros Hb Hr Hh Hsz Hl em.
  rewrite (post_eq _ _ _ _ _ _ _ _ Hb (br_table _ _ _ Hr)) by (done || lia). fold em.
  rewrite u8_id by (widths; lia).
  destruct (mq_push_repr (queue_of em b) (es em) e sz (br_queue _ _ _ Hr em) Hsz Hl)
    as [(q & Hp & Hq)|Hp]; simpl; rewrite Hp.
  - left. eexists. split; [done|]. by apply set_queue_repr.
  - right. by rewrite set_queue_same, set_bus_same.
Qed.

(** An event without a handler, and any event on a bus that was not
    initialised, is refused with [-QM_ENOENT] and changes nothing. *)
Theorem post_event_refused bus_id b bs (a : A) e sz :
  bs !! bus_id = Some b -> 0 < sz ->
  match event_table b with Some t => has_handler t (event_of uninit e) = false | None => True end ->
  qm_eventbus_post_event uninit bus_id (Some e) sz (bs, a) = (- QM_ENOENT, (bs, a)).
Proof.
  intros Hb Hsz Ht. unfold qm_eventbus_post_event. simpl. rewrite Hb.
  destruct (Z.leb_spec sz 0); [lia|]. destruct (event_table b); [|done]. by rewrite Ht.
Qed.

(** [qm_eventbus_call_event] with data posts its event at the end of the
    queue, runs the handlers, and then drops the element at the FRONT: the
    queue ends up as the tail of the old events followed by the new one.
    Only on an empty queue is that the queue it started with; otherwise the
    oldest event is lost and the called one stays queued. *)
Theorem call_event_queue_effect bus_id t b bs (a : A) es e sz fuel :
  handlers_observe run_handler effect -> bs !! bus_id = Some b -> bus_repr b t es ->
  has_handler t (event_of uninit e) = true -> 2 < sz < 256 -> sz <= Z.of_nat (length e) ->
  (length t < fuel)%nat ->
  let em := IS_EMERGE_EVENT (event_id (event_of uninit e)) in
  (exists b', qm_eventbus_call_event run_handler uninit fuel bus_id (Some e) sz (bs, a)
     = Some (0, (<[bus_id := b']> bs, deliver effect bus_id t a (event_of uninit e)))
   /\ bus_repr b' t (upd em (tail (es em ++ [take (Z.to_nat sz) e])) es))
  \/ qm_eventbus_call_event run_handler uninit fuel bus_id (Some e) sz (bs, a)
     = Some (- QM_ENOMEM, (bs, a)).
Proof.
  intros Hobs Hb Hr Hh Hsz Hl Hf em. unfold qm_eventbus_call_event. cbn [fst]. rewrite Hb, (br_table _ _ _ Hr).
  destruct (Z.leb_spec sz 0); [lia|]. unfold sizeof_event. destruct (Z.gtb_spec sz 2); [|lia].
  rewrite (post_eq _ _ _ _ _ _ _ _ Hb (br_table _ _ _ Hr)) by (done || lia). fold em.
  rewrite u8_id by (widths; lia). cbn zeta.
  destruct (mq_push_repr (queue_of em b) (es em) e sz (br_queue _ _ _ Hr em) ltac:(lia) Hl)
    as [(q & Hp & Hq)|Hp]; rewrite Hp.
  - left. change (0 <? 0) with false. cbn match. unfold set_bus. cbn [fst snd].
    pose proof (set_queue_repr em b t es q _ Hr Hq) as Hr1. set (b1 := set_queue em q b) in *.
    assert (bus_id < length bs)%nat by (by eapply lookup_lt_Some).
    rewrite (dispatch_observe run_handler effect Hobs _ _ _ t b1)
      by (done || lia || apply Hr1 || by apply list_lookup_insert_eq).
    cbn [mbind option_bind fst snd]. rewrite list_lookup_insert_eq by done. cbn [mbind option_bind].
    pose proof (br_queue _ _ _ Hr1 em) as Hq1. unfold upd in Hq1 at 1. rewrite Bool.eqb_reflx in Hq1.
    destruct (es em ++ [take (Z.to_nat sz) e]) as [|e0 es'] eqn:Hes; [by destruct (es em)|].
    destruct (mq_drop_repr _ _ _ Hq1) as (q2 & Hd & Hq2). rewrite Hd.
    eexists. rewrite list_insert_insert_eq. split; [done|].
    pose proof (set_queue_repr em b1 t _ q2 _ Hr1 Hq2) as [Ht2 Hqs].
    constructor; [done|]. intros em'. specialize (Hqs em'). unfold upd in *. by destruct em, em'.
  - right. unfold QM_ENOMEM. simpl. by rewrite set_queue_same, set_bus_same.
Qed.
End theorems.

(** Initialisation splits the caller's buffer into a normal and an
    emergency queue whose sizes are multiples of 4 and sum up to the whole
    buffer; both start empty. *)
Theorem init_splits_buffer {Q : Type} `{MsgQueueLaws Q} {A : Type} bus_id b bs (a : A) mem sz t pct :
  bs !! bus_id = Some b -> Z.of_nat (length mem) = sz -> 8 <= sz < 2 ^ 16 -> sz mod 4 = 0 ->
  1 <= sz * pct / 100 -> 0 < pct -> sz * pct / 100 + 4 < sz ->
  let e := emerge_size sz pct in
  e mod 4 = 0 /\ sz * pct / 100 <= e < sz * pct / 100 + 4
  /\ exists b', qm_eventbus_init bus_id (Some mem) sz (Some t) pct (bs, a) = (0, (<[bus_id := b']> bs, a))
     /\ bus_repr b' t (fun _ => []).
Proof.
  intros Hb Hm Hsz H4 Hpart Hpct Hlt e.
  assert (e mod 4 = 0 /\ sz * pct / 100 <= e < sz * pct / 100 + 4) as [He4 He].
  { unfold e, emerge_size. destruct (Z.gtb_spec pct 0); [|lia].
    rewrite Z.quot_div_nonneg, Z.rem_mod_nonneg, Z.quot_div_nonneg by lia.
    destruct (Z.eqb_spec ((sz * pct / 100) mod 4) 0); simpl; Z.to_euclidean_division_equations; lia. }
  split_and!; [done|lia|lia|]. unfold qm_eventbus_init. cbn [fst]. rewrite Hb.
  destruct (Z.leb_spec sz 0); [lia|]. rewrite Z.rem_mod_nonneg, H4 by lia. simpl. fold e.
  destruct (mq_init_repr (event_queue b) (take (Z.to_nat (sz - e)) mem) (sz - e)) as (q1 & -> & Hq1);
    [lia|rewrite length_take; lia|].
  destruct (mq_init_repr (emerge_event_queue b) (drop (Z.to_nat (sz - e)) mem) e) as (q2 & -> & Hq2);
    [lia|rewrite length_drop; lia|].
  eexists. split; [done|]. constructor; [done|]. by intros [].
Qed.

(** ** A concrete bus: circular buffers and handlers that log their events *)

Definition log_effect (h i : nat) (ev : qm_eventbus_event_t) (l : list (nat * qm_eventbus_event_t))
  : list (nat * qm_eventbus_event_t) := l ++ [(h, ev)].

Definition log_handler (h i : nat) (ev : qm_eventbus_event_t)
    (w : list (qm_eventbus_t CircBuf.circbuf_var_t) * list (nat * qm_eventbus_event_t)) :=
  (w.1, log_effect h i ev w.2).

Lemma log_handler_observes : handlers_observe log_handler log_effect.
Proof. done. Defined.

Definition demo_table : list qm_eventbus_event_table_t :=
  [mk_entry (mk_event 1 0xFF) 10; mk_entry (mk_event 2 5) 20; mk_entry (mk_event 1 3) 30].

Definition demo_es (em : bool) : list (list Z) := if em then [[2; 0x85]] else [[1; 3; 7]; [2; 5]].

Definition demo_bus : qm_eventbus_t CircBuf.circbuf_var_t :=
  mk_bus (CircBuf.mk_circbuf 7 0 16 2 ([3; 1; 3; 7; 2; 2; 5] ++ replicate 9 0))
         (CircBuf.mk_circbuf 3 0 8 1 ([2; 2; 0x85] ++ replicate 5 0)) (Some demo_table).

Lemma demo_bus_repr : bus_repr demo_bus demo_table demo_es.
Proof.
  constructor; [done|]. intros []; simpl; constructor; simpl; try lia; try done;
    repeat constructor; simpl; lia.
Defined.

Lemma process_events_refines_witness :
  exists b', qm_eventbus_process_events log_handler 0 7 0 ([demo_bus], [])
    = Some (0, ([b'], [(20%nat, mk_event 2 0x85); (10%nat, mk_event 1 3); (30%nat, mk_event 1 3);
                       (20%nat, mk_event 2 5)]))
  /\ bus_repr b' demo_table (fun _ => []).
Proof.
  apply (process_events_refines log_handler 0 log_effect 0 demo_table demo_bus [demo_bus] [] demo_es 7).
  - exact log_handler_observes.
  - reflexivity.
  - exact demo_bus_repr.
  - simpl. lia.
Defined.

Lemma post_event_refines_witness :
  (exists b', qm_eventbus_post_event 0 0 (Some [1; 0x83; 9]) 3 ([demo_bus], tt) = (0, ([b'], tt))
     /\ bus_repr b' demo_table (upd true [[2; 0x85]; [1; 0x83; 9]] demo_es))
  \/ qm_eventbus_post_event 0 0 (Some [1; 0x83; 9]) 3 ([demo_bus], tt) = (- QM_ENOMEM, ([demo_bus], tt)).
Proof.
  apply (post_event_refines 0 0 demo_table demo_bus [demo_bus] tt demo_es [1; 0x83; 9] 3);
    [reflexivity|exact demo_bus_repr|reflexivity|lia|simpl; lia].
Defined.

Lemma post_event_refused_witness :
  qm_eventbus_post_event 0 0 (Some [4; 4]) 2 ([demo_bus], tt) = (- QM_ENOENT, ([demo_bus], tt)).
Proof. apply (post_event_refused 0 0 demo_bus [demo_bus] tt [4; 4] 2); [reflexivity|lia|reflexivity]. Defined.

(** The normal queue holds [1;3;7] and [2;5]; after the call of [2;5;8] the
    first of them is gone and [2;5;8] is still queued. *)
Lemma call_event_queue_effect_witness :
  (exists b', qm_eventbus_call_event log_handler 0 4 0 (Some [2; 5; 8]) 3 ([demo_bus], [])
     = Some (0, ([b'], [(20%nat, mk_event 2 5)]))
     /\ bus_repr b' demo_table (upd false [[2; 5]; [2; 5; 8]] demo_es))
  \/ qm_eventbus_call_event log_handler 0 4 0 (Some [2; 5; 8]) 3 ([demo_bus], [])
     = Some (- QM_ENOMEM, ([demo_bus], [])).
Proof.
  apply (call_event_queue_effect log_handler 0 log_effect 0 demo_table demo_bus [demo_bus] [] demo_es
           [2; 5; 8] 3 4);
    [exact log_handler_observes|reflexivity|exact demo_bus_repr|reflexivity|lia|simpl; lia|simpl; lia].
Defined.

Lemma init_splits_buffer_witness :
  emerge_size 64 30 mod 4 = 0 /\ 64 * 30 / 100 <= emerge_size 64 30 < 64 * 30 / 100 + 4
  /\ exists b', qm_eventbus_init 0 (Some (replicate 64 0)) 64 (Some demo_table) 30 ([demo_bus], tt)
       = (0, ([b'], tt)) /\ bus_repr b' demo_table (fun _ => []).
Proof.
  apply (init_splits_buffer 0 demo_bus [demo_bus] tt (replicate 64 0) 64 demo_table 30);
    try reflexivity; vm_compute; intuition congruence.
Defined.

End EventBus.
