(* ===== verification/Endian.v ===== *)
(** * Byte order (include/common/qm_types.h)

    The integers the codecs store with [memcpy] are little-endian in memory
    (CONFIG_CPU_BIGENDIAN is not defined); [cpu_to_be16] and its relatives
    are the byte-swapping macros [swab16] and [swab32]. *)

From S2P Require Import Prelude.

(** The [n] bytes of [z] in memory, least significant first. *)
Fixpoint store_le (n : nat) (z : Z) : list Z :=
  match n with
  | O => []
  | S m => z mod 256 :: store_le m (z / 256)
  end.

Fixpoint load_le (bs : list Z) : Z :=
  match bs with
  | [] => 0
  | b :: rest => b + 256 * load_le rest
  end.

Definition swab16 (x : Z) : Z :=
  u16 (Z.lor (Z.shiftl (Z.land (u16 x) 0x00ff) 8) (Z.shiftr (Z.land (u16 x) 0xff00) 8)).

Definition swab32 (x : Z) : Z :=
  u32 (Z.lor (Z.lor (Z.lor
        (Z.shiftl (Z.land (u32 x) 0x000000ff) 24)
        (Z.shiftl (Z.land (u32 x) 0x0000ff00) 8))
        (Z.shiftr (Z.land (u32 x) 0x00ff0000) 8))
        (Z.shiftr (Z.land (u32 x) 0xff000000) 24)).

Definition be16_to_cpu (x : Z) : Z := swab16 x.
Definition be32_to_cpu (x : Z) : Z := swab32 x.
Definition cpu_to_be16 (x : Z) : Z := swab16 x.
Definition cpu_to_be32 (x : Z) : Z := swab32 x.

(** ** Lemmas *)

Lemma store_le_length n z : length (store_le n z) = n.
Proof. revert z. induction n as [|n IH]; intros z; simpl; [done|by rewrite IH]. Qed.

Lemma load_store_le n z : 0 <= z < 256 ^ Z.of_nat n -> load_le (store_le n z) = z.
Proof.
  revert z. induction n as [|n IH]; intros z Hz; simpl.
  - simpl in Hz. lia.
  - rewrite Nat2Z.inj_succ, Z.pow_succ_r in Hz by lia. rewrite IH.
    + pose proof (Z.div_mod z 256). lia.
    + split; [apply Z.div_pos; lia|]. apply Z.div_lt_upper_bound; lia.
Qed.

Lemma store_load_le bs : Forall is_u8 bs -> store_le (length bs) (load_le bs) = bs.
Proof.
  induction 1 as [|b bs Hb Hbs IH]; simpl; [done|].
  unfold is_u8 in Hb. f_equal.
  - rewrite (Z.mul_comm 256), Z_mod_plus_full. apply Z.mod_small. lia.
  - rewrite (Z.mul_comm 256), Z_div_plus_full by lia. rewrite Z.div_small by lia. done.
Qed.

Lemma load_le_bound bs : Forall is_u8 bs -> 0 <= load_le bs < 256 ^ Z.of_nat (length bs).
Proof.
  induction 1 as [|b bs Hb Hbs IH]; simpl length; [simpl; lia|].
  rewrite Nat2Z.inj_succ, Z.pow_succ_r by lia. unfold is_u8 in Hb. simpl. lia.
Qed.

(** Disjoint bits add up. *)
Lemma lor_add a b n : 0 <= n -> 0 <= b < 2 ^ n -> Z.lor (Z.shiftl a n) b = a * 2 ^ n + b.
Proof.
  intros Hn Hb. rewrite <- Z.shiftl_mul_pow2 by done.
  assert (Z.land (Z.shiftl a n) b = 0) as Hd.
  { apply Z.bits_inj'. intros m Hm. rewrite Z.land_spec, Z.bits_0.
    destruct (Z.lt_ge_cases m n).
    - rewrite Z.shiftl_spec_low by done. done.
    - rewrite <- (Z.mod_small b (2 ^ n)) by done. rewrite Z.mod_pow2_bits_high by lia.
      apply Bool.andb_false_r. }
  rewrite <- Z.lxor_lor, <- Z.add_nocarry_lxor; done.
Qed.

Lemma land_byte x k : 0 <= k -> Z.shiftr (Z.land x (Z.shiftl 0xff k)) k = (x / 2 ^ k) mod 256.
Proof.
  intros Hk. rewrite Z.shiftr_land, Z.shiftr_shiftl_l, Z.sub_diag, Z.shiftl_0_r by lia.
  rewrite Z.shiftr_div_pow2 by done. change 0xff with (Z.ones 8). apply Z.land_ones. lia.
Qed.

Lemma swab16_bytes x : is_u16 x -> swab16 x = (x mod 256) * 256 + x / 256.
Proof.
  intros Hx. unfold swab16. rewrite (u16_id x) by done.
  change 0x00ff with (Z.ones 8) at 1. rewrite Z.land_ones by lia.
  change 0xff00 with (Z.shiftl 0xff 8). rewrite land_byte by lia.
  rewrite (lor_add _ _ 8) by zsolve. change (2 ^ 8) with 256. rewrite u16_id; zsolve.
Qed.

Lemma swab32_bytes x : is_u32 x ->
  swab32 x = (x mod 256) * 2 ^ 24 + (x / 2 ^ 8 mod 256) * 2 ^ 16 + (x / 2 ^ 16 mod 256) * 2 ^ 8 + x / 2 ^ 24.
Proof.
  intros Hx. unfold swab32. rewrite (u32_id x) by done.
  change 0x000000ff with (Z.ones 8) at 1. rewrite Z.land_ones by lia.
  assert (Z.shiftl (Z.land x 0x0000ff00) 8 = Z.shiftl (x / 2 ^ 8 mod 256) 16) as ->.
  { change 0x0000ff00 with (Z.shiftl 0xff 8). rewrite <- (land_byte x 8) by lia.
    apply Z.bits_inj'. intros m Hm. rewrite !Z.shiftl_spec by lia.
    destruct (Z.lt_ge_cases m 16).
    - rewrite (Z.testbit_neg_r _ (m - 16)) by lia. rewrite Z.land_spec, Z.shiftl_spec_low by lia.
      apply Bool.andb_false_r.
    - rewrite Z.shiftr_spec by lia. f_equal. lia. }
  assert (Z.shiftr (Z.land x 0x00ff0000) 8 = Z.shiftl (x / 2 ^ 16 mod 256) 8) as ->.
  { change 0x00ff0000 with (Z.shiftl 0xff 16). rewrite <- (land_byte x 16) by lia.
    apply Z.bits_inj'. intros m Hm. rewrite Z.shiftl_spec, Z.shiftr_spec by lia.
    destruct (Z.lt_ge_cases m 8).
    - rewrite (Z.testbit_neg_r _ (m - 8)) by lia. rewrite Z.land_spec, Z.shiftl_spec_low by lia.
      apply Bool.andb_false_r.
    - rewrite Z.shiftr_spec by lia. f_equal. lia. }
  change 0xff000000 with (Z.shiftl 0xff 24). rewrite land_byte by lia.
  rewrite <- !Z.lor_assoc.
  rewrite (lor_add (x / 2 ^ 16 mod 256) _ 8) by zsolve.
  rewrite (lor_add (x / 2 ^ 8 mod 256) _ 16) by zsolve.
  rewrite (lor_add (x mod 2 ^ 8) _ 24) by zsolve. rewrite u32_id; zsolve.
Qed.

Lemma swab16_range x : is_u16 (swab16 x).
Proof. apply u16_range. Qed.

Lemma swab32_range x : is_u32 (swab32 x).
Proof. apply u32_range. Qed.

Lemma swab16_involutive x : is_u16 x -> swab16 (swab16 x) = x.
Proof.
  intros Hx. pose proof (swab16_range x) as Hr. rewrite swab16_bytes by done.
  rewrite (swab16_bytes x) by done. zsolve.
Qed.

Lemma swab32_reverse b0 b1 b2 b3 : is_u8 b0 -> is_u8 b1 -> is_u8 b2 -> is_u8 b3 ->
  swab32 (load_le [b0; b1; b2; b3]) = load_le [b3; b2; b1; b0].
Proof.
  intros H0 H1 H2 H3. set (x := load_le [b0; b1; b2; b3]).
  assert (x = b0 + 256 * b1 + 65536 * b2 + 16777216 * b3) as Hx by (unfold x; simpl; lia).
  clearbody x. unfold is_u8 in *. rewrite swab32_bytes by (widths; lia).
  assert (x mod 256 = b0) as -> by zsolve.
  assert (x / 2 ^ 8 = b1 + 256 * b2 + 65536 * b3) as -> by zsolve.
  assert (x / 2 ^ 16 = b2 + 256 * b3) as -> by zsolve.
  assert (x / 2 ^ 24 = b3) as -> by zsolve.
  assert ((b1 + 256 * b2 + 65536 * b3) mod 256 = b1) as -> by zsolve.
  assert ((b2 + 256 * b3) mod 256 = b2) as -> by zsolve.
  simpl. lia.
Qed.

Lemma swab32_involutive x : is_u32 x -> swab32 (swab32 x) = x.
Proof.
  intros Hx. rewrite <- (load_store_le 4 x) by (widths; simpl; lia). cbn [store_le].
  rewrite !swab32_reverse by zsolve. done.
Qed.

(** Two bytes in network order: what the codecs put on the wire. *)
Lemma store_be16 x : is_u16 x -> store_le 2 (cpu_to_be16 x) = [x / 256; x mod 256].
Proof.
  intros Hx. unfold cpu_to_be16. rewrite swab16_bytes by done. cbn [store_le]. f_equal; [|f_equal]; zsolve.
Qed.

Lemma load_be16 h l : is_u8 h -> is_u8 l -> be16_to_cpu (load_le [h; l]) = h * 256 + l.
Proof.
  intros Hh Hl. unfold be16_to_cpu. rewrite swab16_bytes by (simpl; zsolve). cbn [load_le]. zsolve.
Qed.

Arguments store_le : simpl never.
Arguments load_le : simpl never.
