(* ===== verification/TlvBlock.v ===== *)
(** * TLV blocks: values, packing and unpacking (utility/tlv/qm_tlv.c)

    A block is one tagged value.  Up to CONFIG_QM_TLV_BUF_SIZE bytes live in
    the block itself, longer values in a heap buffer; the two share a union,
    which is modelled as its raw bytes together with the buffer that the
    pointer view designates.  The example configurations all set
    CONFIG_QM_DTTV_BYTES_SIZE to 4 and the targets have 32-bit pointers, so
    both views cover the same 4 bytes. *)

From S2P Require Import Prelude Endian.

(** Compile-time configuration of qm_tlv.h.  [..._tag2]/[..._len2]: the tag or
    length field of that wire format has two bytes. *)
Class TlvConfig := {
  dttv_tag2 : bool; dttv_len2 : bool;
  tlv_tag2 : bool; tlv_len2 : bool;
  ttlv_tag2 : bool; ttlv_len2 : bool;
  dttv_support : bool; tlv_support : bool; ttlv_support : bool;
  force_update : bool;
  int16_support : bool; int32_support : bool; int64_support : bool;
  float32_support : bool; float64_support : bool
}.

Module TlvBlock.

Definition BUF_SIZE : Z := 4.    (* CONFIG_QM_TLV_BUF_SIZE *)

(** CONFIG_QM_TLV_TAG_BYTE and CONFIG_QM_TLV_LENGTH_BYTE: the widest of the formats. *)
Definition tag_byte2 `{TlvConfig} : bool := tlv_tag2 || dttv_tag2 || ttlv_tag2.
Definition length_byte2 `{TlvConfig} : bool := tlv_len2 || dttv_len2 || ttlv_len2.

(** Assignment to the [tag] and [len] members. *)
Definition trunc_tag `{TlvConfig} (z : Z) : Z := if tag_byte2 then u16 z else u8 z.
Definition trunc_len `{TlvConfig} (z : Z) : Z := if length_byte2 then u16 z else u8 z.
Definition len_max `{TlvConfig} : Z := if length_byte2 then 2 ^ 16 - 1 else 2 ^ 8 - 1.
Definition tag_max `{TlvConfig} : Z := if tag_byte2 then 2 ^ 16 - 1 else 2 ^ 8 - 1.

Record qm_tlv_block_t := mk_block {
  flag_update : bool;
  flag_serialization : bool;
  flag_divide : bool;
  blk_type : Z;            (* uint8_t *)
  blk_tag : Z;             (* uint8_t or uint16_t *)
  blk_len : Z;             (* uint8_t or uint16_t *)
  value_raw : list Z;      (* the 4 bytes of the union: value.bytes *)
  value_heap : list Z;     (* the heap buffer value.pdata points to *)
  blk_arg : Z;             (* void * *)
  blk_addr : Z             (* the address of the block itself *)
}.

#[global] Instance block_eq_dec : EqDecision qm_tlv_block_t.
Proof. solve_decision. Defined.

(** The union read as a pointer. *)
Definition value_pdata (b : qm_tlv_block_t) : Z := load_le (value_raw b).

Definition set_update (u : bool) (b : qm_tlv_block_t) : qm_tlv_block_t :=
  mk_block u (flag_serialization b) (flag_divide b) (blk_type b) (blk_tag b) (blk_len b)
    (value_raw b) (value_heap b) (blk_arg b) (blk_addr b).
Definition set_serialization (u : bool) (b : qm_tlv_block_t) : qm_tlv_block_t :=
  mk_block (flag_update b) u (flag_divide b) (blk_type b) (blk_tag b) (blk_len b)
    (value_raw b) (value_heap b) (blk_arg b) (blk_addr b).
Definition set_divide (u : bool) (b : qm_tlv_block_t) : qm_tlv_block_t :=
  mk_block (flag_update b) (flag_serialization b) u (blk_type b) (blk_tag b) (blk_len b)
    (value_raw b) (value_heap b) (blk_arg b) (blk_addr b).
Definition set_type (t : Z) (b : qm_tlv_block_t) : qm_tlv_block_t :=
  mk_block (flag_update b) (flag_serialization b) (flag_divide b) t (blk_tag b) (blk_len b)
    (value_raw b) (value_heap b) (blk_arg b) (blk_addr b).
Definition set_tag (t : Z) (b : qm_tlv_block_t) : qm_tlv_block_t :=
  mk_block (flag_update b) (flag_serialization b) (flag_divide b) (blk_type b) t (blk_len b)
    (value_raw b) (value_heap b) (blk_arg b) (blk_addr b).
Definition set_len (l : Z) (b : qm_tlv_block_t) : qm_tlv_block_t :=
  mk_block (flag_update b) (flag_serialization b) (flag_divide b) (blk_type b) (blk_tag b) l
    (value_raw b) (value_heap b) (blk_arg b) (blk_addr b).
Definition set_value (raw heap : list Z) (b : qm_tlv_block_t) : qm_tlv_block_t :=
  mk_block (flag_update b) (flag_serialization b) (flag_divide b) (blk_type b) (blk_tag b) (blk_len b)
    raw heap (blk_arg b) (blk_addr b).
Definition set_arg (a : Z) (b : qm_tlv_block_t) : qm_tlv_block_t :=
  mk_block (flag_update b) (flag_serialization b) (flag_divide b) (blk_type b) (blk_tag b) (blk_len b)
    (value_raw b) (value_heap b) a (blk_addr b).

(** ** The heap

    [malloc n] is the result of the n-th call of [tlv_malloc]: [None] when
    the allocation fails, otherwise the (non-null, 32-bit) address. Functions
    that allocate take and return the number of calls made so far. *)
Class TlvHeap := malloc : nat -> option Z.

Class TlvHeapOk (H : TlvHeap) : Prop :=
  malloc_range n a : malloc n = Some a -> 0 < a < 2 ^ 32.

Section ops.
Context `{TlvConfig} {heap : TlvHeap}.

(** memset(0): every flag, the type, tag and length are zero, the value is all zero. *)
Definition qm_tlv_block_creat (n : nat) : option qm_tlv_block_t * nat :=
  match malloc n with
  | None => (None, S n)
  | Some addr => (Some (mk_block false false false 0 0 0 [0; 0; 0; 0] [] 0 addr), S n)
  end.

(** The statement that frees a previous heap buffer before a value is stored. *)
Definition release_pdata (b : qm_tlv_block_t) : qm_tlv_block_t :=
  if BUF_SIZE <? blk_len b then
    if negb (value_pdata b =? 0) then set_value [0; 0; 0; 0] [] b else b
  else b.

(** memset of the inline bytes followed by memcpy of [bs]. *)
Definition fill_raw (bs : list Z) : list Z := bs ++ replicate (4 - length bs) 0.

Definition qm_tlv_pack_uint8 (tlv_block : option qm_tlv_block_t) (v : Z) : Z * option qm_tlv_block_t :=
  match tlv_block with
  | None => (- QM_EINVAL, None)
  | Some b =>
      let b1 := release_pdata b in
      let b2 := set_value (<[0%nat := u8 v]> (value_raw b1)) (value_heap b1) b1 in
      (QM_EOK, Some (set_len (trunc_len 1) b2))
  end.

Definition qm_tlv_pack_bool (tlv_block : option qm_tlv_block_t) (v : Z) : Z * option qm_tlv_block_t :=
  qm_tlv_pack_uint8 tlv_block (u8 v).

Definition qm_tlv_pack_int8 (tlv_block : option qm_tlv_block_t) (v : Z) : Z * option qm_tlv_block_t :=
  qm_tlv_pack_uint8 tlv_block (u8 v).

Definition qm_tlv_pack_uint16 (tlv_block : option qm_tlv_block_t) (v : Z) : Z * option qm_tlv_block_t :=
  match tlv_block with
  | None => (- QM_EINVAL, None)
  | Some b =>
      let b1 := release_pdata b in
      let tmp := cpu_to_be16 v in
      (QM_EOK, Some (set_len (trunc_len 2) (set_value (fill_raw (store_le 2 tmp)) (value_heap b1) b1)))
  end.

Definition qm_tlv_pack_int16 (tlv_block : option qm_tlv_block_t) (v : Z) : Z * option qm_tlv_block_t :=
  qm_tlv_pack_uint16 tlv_block (u16 v).

Definition qm_tlv_pack_uint32 (tlv_block : option qm_tlv_block_t) (v : Z) : Z * option qm_tlv_block_t :=
  match tlv_block with
  | None => (- QM_EINVAL, None)
  | Some b =>
      let b1 := release_pdata b in
      let tmp := cpu_to_be32 v in
      (QM_EOK, Some (set_len (trunc_len 4) (set_value (fill_raw (store_le 4 tmp)) (value_heap b1) b1)))
  end.

Definition qm_tlv_pack_int32 (tlv_block : option qm_tlv_block_t) (v : Z) : Z * option qm_tlv_block_t :=
  qm_tlv_pack_uint32 tlv_block (u32 v).

(** [bits]: the 32 bits of the float, stored in memory order. The old heap
    buffer is not released here. *)
Definition qm_tlv_pack_float32 (tlv_block : option qm_tlv_block_t) (bits : Z) : Z * option qm_tlv_block_t :=
  match tlv_block with
  | None => (- QM_EINVAL, None)
  | Some b =>
      (QM_EOK, Some (set_len (trunc_len 4) (set_value (fill_raw (store_le 4 bits)) (value_heap b) b)))
  end.

(** [bytes] is the memory the pointer refers to, at least [size] bytes. *)
Definition qm_tlv_pack_bytes (tlv_block : option qm_tlv_block_t) (bytes : option (list Z)) (size : Z) (n : nat)
  : Z * option qm_tlv_block_t * nat :=
  match tlv_block, bytes with
  | Some b, Some src =>
      if size =? 0 then (- QM_EINVAL, tlv_block, n) else
      let b1 := release_pdata b in
      let data := take (Z.to_nat size) src in
      if size <=? BUF_SIZE then
        (QM_EOK, Some (set_len (trunc_len size) (set_value (fill_raw data) (value_heap b1) b1)), n)
      else
        match malloc n with
        | None => (- QM_ENOMEM, Some (set_value [0; 0; 0; 0] (value_heap b1) b1), S n)
        | Some addr =>
            (QM_EOK, Some (set_len (trunc_len size) (set_value (store_le 4 addr) data b1)), S n)
        end
  | _, _ => (- QM_EINVAL, tlv_block, n)
  end.

Definition qm_tlv_pack_string (tlv_block : option qm_tlv_block_t) (str : option (list Z)) (size : Z) (n : nat)
  : Z * option qm_tlv_block_t * nat := qm_tlv_pack_bytes tlv_block str size n.

(** ** Unpacking: result code, the value stored through the pointer, the block *)

Definition qm_tlv_unpack_uint8 (tlv_block : option qm_tlv_block_t) (value_null : bool)
  : Z * option Z * option qm_tlv_block_t :=
  match tlv_block with
  | Some b =>
      if value_null then (- QM_EINVAL, None, tlv_block)
      else (QM_EOK, Some (u8 (value_raw b !!! 0%nat)), Some (set_update false b))
  | None => (- QM_EINVAL, None, tlv_block)
  end.

Definition qm_tlv_unpack_bool := qm_tlv_unpack_uint8.

(** The byte is stored through an [int8_t *]. *)
Definition qm_tlv_unpack_int8 (tlv_block : option qm_tlv_block_t) (value_null : bool)
  : Z * option Z * option qm_tlv_block_t :=
  let '(r, v, b) := qm_tlv_unpack_uint8 tlv_block value_null in (r, i8 <$> v, b).

Definition qm_tlv_unpack_uint16 (tlv_block : option qm_tlv_block_t) (value_null : bool)
  : Z * option Z * option qm_tlv_block_t :=
  match tlv_block with
  | Some b =>
      if value_null then (- QM_EINVAL, None, tlv_block)
      else
        let tmp := load_le (take 2 (value_raw b)) in
        (QM_EOK, Some (be16_to_cpu tmp), Some (set_update false b))
  | None => (- QM_EINVAL, None, tlv_block)
  end.

Definition qm_tlv_unpack_int16 (tlv_block : option qm_tlv_block_t) (value_null : bool)
  : Z * option Z * option qm_tlv_block_t :=
  let '(r, v, b) := qm_tlv_unpack_uint16 tlv_block value_null in (r, i16 <$> v, b).

Definition qm_tlv_unpack_uint32 (tlv_block : option qm_tlv_block_t) (value_null : bool)
  : Z * option Z * option qm_tlv_block_t :=
  match tlv_block with
  | Some b =>
      if value_null then (- QM_EINVAL, None, tlv_block)
      else
        let tmp := load_le (take 4 (value_raw b)) in
        (QM_EOK, Some (be32_to_cpu tmp), Some (set_update false b))
  | None => (- QM_EINVAL, None, tlv_block)
  end.

Definition qm_tlv_unpack_int32 (tlv_block : option qm_tlv_block_t) (value_null : bool)
  : Z * option Z * option qm_tlv_block_t :=
  let '(r, v, b) := qm_tlv_unpack_uint32 tlv_block value_null in (r, i32 <$> v, b).

Definition qm_tlv_unpack_float32 (tlv_block : option qm_tlv_block_t) (value_null : bool)
  : Z * option Z * option qm_tlv_block_t :=
  match tlv_block with
  | Some b =>
      if value_null then (- QM_EINVAL, None, tlv_block)
      else (QM_EOK, Some (load_le (take 4 (value_raw b))), Some (set_update false b))
  | None => (- QM_EINVAL, None, tlv_block)
  end.

(** The memory a value pointer of the block refers to. *)
Definition value_mem (b : qm_tlv_block_t) : list Z :=
  if blk_len b <=? BUF_SIZE then value_raw b else value_heap b.

(** [size]: in/out parameter. Result: code, bytes written to [bytes], the new
    [*size], the block. *)
Definition qm_tlv_unpack_bytes (tlv_block : option qm_tlv_block_t) (bytes_null : bool) (size : option Z)
  : Z * list Z * option Z * option qm_tlv_block_t :=
  match tlv_block, size with
  | Some b, Some _ =>
      let size1 := blk_len b in
      if bytes_null then (QM_EOK, [], Some size1, tlv_block)
      else if size1 <? blk_len b then (- QM_EINVAL, [], Some size1, tlv_block)
      else (QM_EOK, take (Z.to_nat (blk_len b)) (value_mem b), Some size1, Some (set_update false b))
  | _, _ => (- QM_EINVAL, [], size, tlv_block)
  end.

Definition qm_tlv_unpack_string (tlv_block : option qm_tlv_block_t) (str_null : bool) (size : option Z)
  : Z * list Z * option Z * option qm_tlv_block_t :=
  match tlv_block, size with
  | Some b, Some _ =>
      let size1 := blk_len b + 1 in
      if str_null then (QM_EOK, [], Some size1, tlv_block)
      else if size1 <? blk_len b + 1 then (- QM_EINVAL, [], Some size1, tlv_block)
      else (QM_EOK, take (Z.to_nat (blk_len b)) (value_mem b) ++ [0], Some size1, Some (set_update false b))
  | _, _ => (- QM_EINVAL, [], size, tlv_block)
  end.

(** The pointer results of the [_direct] functions: [None] = NULL, otherwise
    the memory pointed to; with the size. *)
Definition direct_bytes (b : qm_tlv_block_t) : option (list Z) :=
  if blk_len b <=? BUF_SIZE then Some (value_raw b)
  else if value_pdata b =? 0 then None else Some (value_heap b).

Definition qm_tlv_unpack_direct (b : qm_tlv_block_t) : option (list Z) * Z := (direct_bytes b, blk_len b).

Definition qm_tlv_unpack_bytes_direct (b : qm_tlv_block_t) : option (list Z) * Z * qm_tlv_block_t :=
  (direct_bytes b, blk_len b, set_update false b).

Definition qm_tlv_unpack_string_direct := qm_tlv_unpack_bytes_direct.

(** ** Block attributes *)

Definition qm_tlv_block_tag_set (tlv_block : option qm_tlv_block_t) (tag : Z) : Z * option qm_tlv_block_t :=
  match tlv_block with
  | None => (- QM_EINVAL, None)
  | Some b => (QM_EOK, Some (set_tag (trunc_tag tag) b))
  end.

Definition qm_tlv_block_tag_get (tlv_block : option qm_tlv_block_t) (tag_null : bool) : Z * option Z :=
  match tlv_block with
  | Some b => if tag_null then (- QM_EINVAL, None) else (QM_EOK, Some (trunc_tag (blk_tag b)))
  | None => (- QM_EINVAL, None)
  end.

Definition qm_tlv_block_arg_set (tlv_block : option qm_tlv_block_t) (arg : Z) : Z * option qm_tlv_block_t :=
  match tlv_block with
  | None => (- QM_EINVAL, None)
  | Some b => (QM_EOK, Some (set_arg arg b))
  end.

Definition qm_tlv_block_arg_get (tlv_block : option qm_tlv_block_t) (arg_null : bool) : Z * option Z :=
  match tlv_block with
  | Some b => if arg_null then (- QM_EINVAL, None) else (QM_EOK, Some (blk_arg b))
  | None => (- QM_EINVAL, None)
  end.

Definition QM_DTTV_TYPE_NONE : Z := 0xFF.

Definition qm_tlv_block_data_type_set (tlv_block : option qm_tlv_block_t) (type : Z) : Z * option qm_tlv_block_t :=
  match tlv_block with
  | None => (- QM_EINVAL, None)
  | Some b => (QM_EOK, Some (set_type (u8 type) b))
  end.

Definition qm_tlv_block_data_type_get (tlv_block : option qm_tlv_block_t) : Z :=
  match tlv_block with
  | None => QM_DTTV_TYPE_NONE
  | Some b => blk_type b
  end.

Definition qm_tlv_block_serialize (tlv_block : option qm_tlv_block_t) : Z * option qm_tlv_block_t :=
  match tlv_block with
  | None => (- QM_EINVAL, None)
  | Some b => (QM_EOK, Some (set_serialization true b))
  end.

Definition qm_tlv_block_is_update (tlv_block : option qm_tlv_block_t) (out_null : bool) : Z * option Z :=
  match tlv_block with
  | Some b => if out_null then (- QM_EINVAL, None) else (QM_EOK, Some (Z.b2z (flag_update b)))
  | None => (- QM_EINVAL, None)
  end.

Definition qm_tlv_block_is_data (tlv_block : option qm_tlv_block_t) (out_null : bool) : Z * option Z :=
  match tlv_block with
  | Some b => if out_null then (- QM_EINVAL, None) else (QM_EOK, Some (if blk_len b >? 0 then 1 else 0))
  | None => (- QM_EINVAL, None)
  end.

(** [flag.update] is a one-bit field: the assignment keeps the lowest bit. *)
Definition qm_tlv_block_update (tlv_block : option qm_tlv_block_t) (update : Z) : Z * option qm_tlv_block_t :=
  match tlv_block with
  | None => (- QM_EINVAL, None)
  | Some b => (QM_EOK, Some (set_update (Z.odd update) b))
  end.

Definition qm_tlv_block_divide (tlv_block : option qm_tlv_block_t) : Z * option qm_tlv_block_t :=
  match tlv_block with
  | None => (- QM_EINVAL, None)
  | Some b => (QM_EOK, Some (set_divide true b))
  end.

(** ** Data types *)

Definition REAL_TYPE_ID (t : Z) : Z := Z.land t 0x7F.
Definition IS_FORCE_UPDATE (t : Z) : bool := negb (Z.land t 0x80 =? 0).

Definition between (lo t hi : Z) : bool := (lo <=? t) && (t <=? hi).

(** Size of the value of a type: 0 for types with a length field, -1 for an
    unknown or unsupported type. *)
Definition qm_tlv_block_data_type_len (type0 : Z) : Z :=
  let type := if dttv_support && force_update then REAL_TYPE_ID type0 else type0 in
  if type <=? 2 then 1
  else if int16_support && (between 3 type 4 || between 15 type 16 || between 19 type 20) then 2
  else if int32_support && (between 5 type 6 || between 17 type 18 || between 21 type 22) then 4
  else if int64_support && between 7 type 8 then 8
  else if float32_support && (type =? 9) then 4
  else if float64_support && (type =? 10) then 8
  else if between 11 type 14 || between 23 type 24 then 0
  else -1.

(** ** Copying *)

Definition memcmp_eq (a b : option (list Z)) (size : Z) : bool :=
  match a, b with
  | Some x, Some y => bool_decide (take (Z.to_nat size) x = take (Z.to_nat size) y)
  | _, _ => false
  end.

Definition qm_tlv_block_copy (dest_tlv_block src_tlv_block : option qm_tlv_block_t) (n : nat)
  : Z * option qm_tlv_block_t * nat :=
  match dest_tlv_block, src_tlv_block with
  | Some d0, Some s =>
      let d1 := if negb (blk_tag d0 =? blk_tag s) then set_update true (set_tag (blk_tag s) d0) else d0 in
      let d2 := if dttv_support && negb (blk_type d1 =? blk_type s)
                then set_update true (set_type (blk_type s) d1) else d1 in
      let d3 := set_arg (blk_arg s) d2 in
      let d4 := if dttv_support && force_update && IS_FORCE_UPDATE (blk_type s)
                then set_update true (set_type (Z.land (blk_type s) 0x7F) d3) else d3 in
      let '(dest_bytes, dest_size) := qm_tlv_unpack_direct d4 in
      let '(src_bytes, src_size) := qm_tlv_unpack_direct s in
      if (dest_size =? src_size) && memcmp_eq dest_bytes src_bytes dest_size then (0, Some d4, n)
      else
        let '(ret, d5, n') := qm_tlv_pack_bytes (Some d4) src_bytes src_size n in
        (ret, set_update true <$> d5, n')
  | _, _ => (- QM_EINVAL, dest_tlv_block, n)
  end.

(** ** Well-formed blocks *)

Record block_wf (b : qm_tlv_block_t) : Prop := {
  wf_raw_len : length (value_raw b) = 4%nat;
  wf_raw : Forall is_u8 (value_raw b);
  wf_len : 0 <= blk_len b <= len_max;
  wf_heap : BUF_SIZE < blk_len b ->
    Z.of_nat (length (value_heap b)) = blk_len b /\ Forall is_u8 (value_heap b) /\ value_pdata b <> 0
}.

(** The bytes of the value. *)
Definition block_data (b : qm_tlv_block_t) : list Z := take (Z.to_nat (blk_len b)) (value_mem b).

Definition same_header (b b' : qm_tlv_block_t) : Prop :=
  blk_type b' = blk_type b /\ blk_tag b' = blk_tag b /\ blk_arg b' = blk_arg b /\ blk_addr b' = blk_addr b
  /\ flag_update b' = flag_update b /\ flag_serialization b' = flag_serialization b
  /\ flag_divide b' = flag_divide b.

(** Allocations never fail. *)
Definition malloc_ok : Prop := forall n, exists a, malloc n = Some a.

(** ** Lemmas *)

Lemma trunc_len_id z : 0 <= z <= len_max -> trunc_len z = z.
Proof. unfold trunc_len, len_max. destruct length_byte2; zsolve. Qed.

Lemma len_max_ge : 255 <= len_max.
Proof. unfold len_max. destruct length_byte2; lia. Qed.

Lemma release_header b : same_header b (release_pdata b).
Proof. unfold release_pdata. repeat case_match; by split_and!. Qed.

Lemma release_raw_len b : length (value_raw b) = 4%nat -> length (value_raw (release_pdata b)) = 4%nat.
Proof. intros Hl. unfold release_pdata. by repeat case_match. Qed.

Lemma release_raw b : Forall is_u8 (value_raw b) -> Forall is_u8 (value_raw (release_pdata b)).
Proof. intros Hl. unfold release_pdata. repeat case_match; try done. repeat constructor; widths; lia. Qed.

Lemma fill_raw_length bs : (length bs <= 4)%nat -> length (fill_raw bs) = 4%nat.
Proof. intros Hl. unfold fill_raw. rewrite length_app, length_replicate. lia. Qed.

Lemma fill_raw_bytes bs : Forall is_u8 bs -> Forall is_u8 (fill_raw bs).
Proof. intros Hb. apply Forall_app. split; [done|]. apply Forall_replicate. widths; lia. Qed.

Lemma fill_raw_take bs : take (length bs) (fill_raw bs) = bs.
Proof. apply take_app_length. Qed.

Lemma store_le_bytes k z : Forall is_u8 (store_le k z).
Proof. revert z. induction k as [|k IH]; intros z; simpl; constructor; [zsolve|done]. Qed.

Lemma block_data_length b : block_wf b -> Z.of_nat (length (block_data b)) = blk_len b.
Proof.
  intros [Hl _ Hr Hh]. unfold block_data, value_mem. rewrite length_take.
  destruct (Z.leb_spec (blk_len b) BUF_SIZE) as [Hc|Hc].
  - unfold BUF_SIZE in *. lia.
  - destruct (Hh Hc) as (Hhl & _). lia.
Qed.

Lemma block_data_bytes b : block_wf b -> Forall is_u8 (block_data b).
Proof.
  intros [Hl Hr _ Hh]. unfold block_data, value_mem. apply Forall_take.
  destruct (Z.leb_spec (blk_len b) BUF_SIZE) as [Hc|Hc]; [done|]. by apply Hh.
Qed.

Lemma direct_bytes_wf b : block_wf b -> direct_bytes b = Some (value_mem b).
Proof.
  intros [_ _ _ Hh]. unfold direct_bytes, value_mem.
  destruct (Z.leb_spec (blk_len b) BUF_SIZE) as [Hc|Hc]; [done|].
  destruct (Hh Hc) as (_ & _ & Hp). by destruct (Z.eqb_spec (value_pdata b) 0).
Qed.

(** Blocks that differ in flags, header or address only. *)
Lemma block_wf_same_value b b' :
  blk_len b' = blk_len b -> value_raw b' = value_raw b -> value_heap b' = value_heap b ->
  block_wf b -> block_wf b'.
Proof.
  intros Hl Hr Hh [H1 H2 H3 H4]. constructor; unfold value_pdata in *; rewrite ?Hl, ?Hr, ?Hh; done.
Qed.

(** An inline value of at most 4 bytes. *)
Lemma wf_inline b bs : (0 < length bs <= 4)%nat -> Forall is_u8 bs ->
  let b' := set_len (trunc_len (Z.of_nat (length bs))) (set_value (fill_raw bs) (value_heap b) b) in
  block_wf b' /\ block_data b' = bs.
Proof.
  intros Hl Hb. pose proof len_max_ge. rewrite trunc_len_id by lia. split.
  - constructor; simpl; [apply fill_raw_length; lia|by apply fill_raw_bytes|lia|].
    unfold BUF_SIZE. lia.
  - unfold block_data, value_mem. simpl. destruct (Z.leb_spec (Z.of_nat (length bs)) BUF_SIZE);
      [|unfold BUF_SIZE in *; lia]. rewrite Nat2Z.id. apply fill_raw_take.
Qed.

Lemma pack_bytes_spec `{!TlvHeapOk heap} b src size n :
  0 < size <= len_max -> size <= Z.of_nat (length src) -> Forall is_u8 src ->
  (size <= BUF_SIZE \/ is_Some (malloc n)) ->
  exists b' n', qm_tlv_pack_bytes (Some b) (Some src) size n = (QM_EOK, Some b', n')
  /\ block_wf b' /\ block_data b' = take (Z.to_nat size) src /\ same_header b b'.
Proof.
  intros Hs Hl Hb Hm. unfold qm_tlv_pack_bytes. destruct (Z.eqb_spec size 0); [lia|].
  assert (length (take (Z.to_nat size) src) = Z.to_nat size) as Hdl by (rewrite length_take; lia).
  assert (Forall is_u8 (take (Z.to_nat size) src)) as Hdb by (by apply Forall_take).
  destruct (Z.leb_spec size BUF_SIZE) as [Hc|Hc].
  - destruct (wf_inline (release_pdata b) (take (Z.to_nat size) src)) as [Hw Hd];
      [unfold BUF_SIZE in *; lia|done|].
    rewrite Hdl, Z2Nat.id in Hw, Hd by lia. do 2 eexists. split; [done|]. split_and!; try done.
    all: apply release_header.
  - destruct Hm as [|[a Ha]]; [lia|]. rewrite Ha. do 2 eexists. split; [done|].
    rewrite trunc_len_id by lia. pose proof (malloc_range _ _ Ha). split_and!; try apply release_header.
    + constructor; simpl; [done|apply store_le_bytes|lia|]. intros _. split_and!; [lia|done|].
      unfold value_pdata. cbn [value_raw set_len set_value].
      rewrite load_store_le; simpl; lia.
    + unfold block_data, value_mem. simpl. destruct (Z.leb_spec size BUF_SIZE); [lia|].
      rewrite take_take. f_equal. lia.
Qed.

Lemma memcmp_eq_data d s : block_wf d -> block_wf s -> blk_len d = blk_len s ->
  memcmp_eq (direct_bytes d) (direct_bytes s) (blk_len d) = bool_decide (block_data d = block_data s).
Proof.
  intros Hd Hs He. rewrite !direct_bytes_wf by done. unfold memcmp_eq, block_data. by rewrite He.
Qed.

(** The value written by a scalar pack function. *)
Lemma pack_scalar_wf b bs : (0 < length bs <= 4)%nat -> Forall is_u8 bs ->
  let b1 := release_pdata b in
  let b' := set_len (trunc_len (Z.of_nat (length bs))) (set_value (fill_raw bs) (value_heap b1) b1) in
  block_wf b' /\ block_data b' = bs /\ same_header b b'.
Proof.
  intros Hl Hb. destruct (wf_inline (release_pdata b) bs Hl Hb) as [Hw Hd].
  split_and!; try done; apply release_header.
Qed.

Lemma load_store_be32 v : is_u32 v -> be32_to_cpu (load_le (store_le 4 (cpu_to_be32 v))) = v.
Proof.
  intros Hv. unfold be32_to_cpu, cpu_to_be32. pose proof (swab32_range v) as Hr.
  rewrite load_store_le by (widths; simpl; lia). by apply swab32_involutive.
Qed.

Lemma load_store_be16 v : is_u16 v -> be16_to_cpu (load_le (store_le 2 (cpu_to_be16 v))) = v.
Proof.
  intros Hv. unfold be16_to_cpu, cpu_to_be16. pose proof (swab16_range v) as Hr.
  rewrite load_store_le by (widths; simpl; lia). by apply swab16_involutive.
Qed.

(** ** Theorems *)

(** What an integer pack function stores, the matching unpack function
    returns: for each width, signed and unsigned, on every well-formed block,
    and the unpack clears the update flag. *)
Theorem scalar_roundtrip b : block_wf b ->
  (forall v, is_u8 v -> exists b', qm_tlv_pack_uint8 (Some b) v = (QM_EOK, Some b')
     /\ qm_tlv_unpack_uint8 (Some b') false = (QM_EOK, Some v, Some (set_update false b')))
  /\ (forall v, -128 <= v < 128 -> exists b', qm_tlv_pack_int8 (Some b) v = (QM_EOK, Some b')
     /\ qm_tlv_unpack_int8 (Some b') false = (QM_EOK, Some v, Some (set_update false b')))
  /\ (forall v, is_u16 v -> exists b', qm_tlv_pack_uint16 (Some b) v = (QM_EOK, Some b')
     /\ qm_tlv_unpack_uint16 (Some b') false = (QM_EOK, Some v, Some (set_update false b')))
  /\ (forall v, - 2 ^ 15 <= v < 2 ^ 15 -> exists b', qm_tlv_pack_int16 (Some b) v = (QM_EOK, Some b')
     /\ qm_tlv_unpack_int16 (Some b') false = (QM_EOK, Some v, Some (set_update false b')))
  /\ (forall v, is_u32 v -> exists b', qm_tlv_pack_uint32 (Some b) v = (QM_EOK, Some b')
     /\ qm_tlv_unpack_uint32 (Some b') false = (QM_EOK, Some v, Some (set_update false b')))
  /\ (forall v, - 2 ^ 31 <= v < 2 ^ 31 -> exists b', qm_tlv_pack_int32 (Some b) v = (QM_EOK, Some b')
     /\ qm_tlv_unpack_int32 (Some b') false = (QM_EOK, Some v, Some (set_update false b'))).
Proof.
  intros Hwf. pose proof (release_raw_len _ (wf_raw_len _ Hwf)) as Hrl.
  assert (forall v, exists b', qm_tlv_pack_uint8 (Some b) v = (QM_EOK, Some b')
            /\ value_raw b' !!! 0%nat = u8 v) as H8.
  { intros v. eexists. split; [done|]. simpl. apply list_lookup_total_insert_eq. lia. }
  assert (forall v, exists b', qm_tlv_pack_uint16 (Some b) v = (QM_EOK, Some b')
            /\ take 2 (value_raw b') = store_le 2 (cpu_to_be16 v)) as H16.
  { intros v. eexists. split; reflexivity. }
  assert (forall v, exists b', qm_tlv_pack_uint32 (Some b) v = (QM_EOK, Some b')
            /\ take 4 (value_raw b') = store_le 4 (cpu_to_be32 v)) as H32.
  { intros v. eexists. split; reflexivity. }
  split_and!; intros v Hv.
  - destruct (H8 v) as (b' & Hp & Hr). exists b'. split; [done|]. simpl. rewrite Hr. do 3 f_equal. zsolve.
  - destruct (H8 (u8 v)) as (b' & Hp & Hr). exists b'. split; [done|]. unfold qm_tlv_unpack_int8.
    simpl. rewrite Hr. do 3 f_equal. zsolve.
  - destruct (H16 v) as (b' & Hp & Hr). exists b'. split; [done|]. simpl. by rewrite Hr, load_store_be16.
  - destruct (H16 (u16 v)) as (b' & Hp & Hr). exists b'. split; [done|]. unfold qm_tlv_unpack_int16.
    simpl. rewrite Hr, load_store_be16 by auto with qm. simpl. do 3 f_equal. zsolve.
  - destruct (H32 v) as (b' & Hp & Hr). exists b'. split; [done|]. simpl. by rewrite Hr, load_store_be32.
  - destruct (H32 (u32 v)) as (b' & Hp & Hr). exists b'. split; [done|]. unfold qm_tlv_unpack_int32.
    simpl. rewrite Hr, load_store_be32 by auto with qm. simpl. do 3 f_equal. zsolve.
Qed.

(** The multi-byte scalars are in network byte order in the block, which
    is what [qm_tlv_serialize] copies onto the wire. *)
Theorem scalar_wire_order b v : is_u16 v ->
  exists b', qm_tlv_pack_uint16 (Some b) v = (QM_EOK, Some b') /\ block_wf b'
  /\ block_data b' = [v / 256; v mod 256] /\ same_header b b'.
Proof.
  intros Hv. eexists. split; [done|].
  pose proof (pack_scalar_wf b (store_le 2 (cpu_to_be16 v))) as Hw. rewrite store_le_length in Hw.
  destruct Hw as (H1 & H2 & H3); [lia|apply store_le_bytes|].
  split; [done|]. split; [|done]. etrans; [exact H2|]. by apply store_be16.
Qed.

(** [qm_tlv_pack_bytes] of 1 to [len_max] bytes makes the block well formed
    with exactly those bytes as its value, inline or on the heap, and leaves
    tag, type, flags and argument alone; [qm_tlv_unpack_bytes] reads them back. *)
Theorem bytes_roundtrip `{!TlvHeapOk heap} b src n size_in :
  malloc_ok -> (0 < length src)%nat -> Z.of_nat (length src) <= len_max -> Forall is_u8 src ->
  exists b' n', qm_tlv_pack_bytes (Some b) (Some src) (Z.of_nat (length src)) n = (QM_EOK, Some b', n')
  /\ block_wf b' /\ same_header b b'
  /\ qm_tlv_unpack_bytes (Some b') false (Some size_in)
     = (QM_EOK, src, Some (Z.of_nat (length src)), Some (set_update false b')).
Proof.
  intros Hm Hl Hmax Hb.
  destruct (pack_bytes_spec b src (Z.of_nat (length src)) n) as (b' & n' & Hp & Hw & Hd & Hh);
    [lia|lia|done|right; destruct (Hm n); eauto|].
  rewrite Nat2Z.id, firstn_all in Hd. exists b', n'. split_and!; try done; try apply Hh.
  pose proof (block_data_length _ Hw) as Hlen. unfold qm_tlv_unpack_bytes.
  destruct (Z.ltb_spec (blk_len b') (blk_len b')); [lia|].
  fold (block_data b'). rewrite <- Hlen, Hd. done.
Qed.

(** When the heap buffer of a long value cannot be allocated,
    [qm_tlv_pack_bytes] reports [-QM_ENOMEM]; the length member keeps its old
    value while the pointer is NULL, so the block is not well formed if it held
    a long value before. *)
Theorem pack_bytes_nomem b src size n : BUF_SIZE < size -> malloc n = None ->
  exists b', qm_tlv_pack_bytes (Some b) (Some src) size n = (- QM_ENOMEM, Some b', S n)
  /\ value_pdata b' = 0 /\ blk_len b' = blk_len b /\ (BUF_SIZE < blk_len b -> ~ block_wf b').
Proof.
  intros Hs Hm. unfold qm_tlv_pack_bytes. unfold BUF_SIZE in Hs. destruct (Z.eqb_spec size 0); [lia|].
  destruct (Z.leb_spec size BUF_SIZE); [unfold BUF_SIZE in *; lia|]. rewrite Hm.
  assert (blk_len (release_pdata b) = blk_len b) as Hbl by (unfold release_pdata; by repeat case_match).
  eexists. split_and!; try done. intros Hlen Hw.
  destruct (wf_heap _ Hw) as (_ & _ & Hp); [simpl; lia|]. done.
Qed.

(** A value longer than the length member can express is accepted with
    [QM_EOK] and silently truncated: the block then claims fewer bytes than
    were packed. *)
Theorem pack_bytes_truncates b src size n : malloc_ok -> len_max < size ->
  exists b' n', qm_tlv_pack_bytes (Some b) (Some src) size n = (QM_EOK, Some b', n') /\ blk_len b' < size.
Proof.
  intros Hm Hs. pose proof len_max_ge as Hge. unfold qm_tlv_pack_bytes. destruct (Z.eqb_spec size 0); [lia|].
  destruct (Z.leb_spec size BUF_SIZE); [unfold BUF_SIZE in *; lia|]. destruct (Hm n) as [a ->].
  do 2 eexists. split; [done|]. simpl. unfold trunc_len, len_max in *. destruct length_byte2; zsolve.
Qed.

(** [qm_tlv_unpack_bytes] and [qm_tlv_unpack_string] overwrite the caller's
    buffer size before they test it: whatever the capacity [size_in], all
    [blk_len] bytes (plus the terminator for strings) are written. *)
Theorem unpack_ignores_capacity b size_in : block_wf b ->
  (exists out, qm_tlv_unpack_bytes (Some b) false (Some size_in)
     = (QM_EOK, out, Some (blk_len b), Some (set_update false b)) /\ Z.of_nat (length out) = blk_len b)
  /\ (exists out, qm_tlv_unpack_string (Some b) false (Some size_in)
     = (QM_EOK, out, Some (blk_len b + 1), Some (set_update false b)) /\ Z.of_nat (length out) = blk_len b + 1).
Proof.
  intros Hw. pose proof (block_data_length _ Hw) as Hl. unfold qm_tlv_unpack_bytes, qm_tlv_unpack_string.
  rewrite !Z.ltb_irrefl. fold (block_data b). split; eexists; (split; [done|]); rewrite ?length_app; simpl; lia.
Qed.

(** The type a copy ends up with. *)
Definition copied_type (d s : qm_tlv_block_t) : Z :=
  if dttv_support then
    if force_update && IS_FORCE_UPDATE (blk_type s) then Z.land (blk_type s) 0x7F else blk_type s
  else blk_type d.

(** Does the copy of [s] over [d] count as an update? *)
Definition copy_changes (d s : qm_tlv_block_t) : bool :=
  negb (blk_tag d =? blk_tag s)
  || (dttv_support && negb (blk_type d =? blk_type s))
  || (dttv_support && force_update && IS_FORCE_UPDATE (blk_type s))
  || negb (bool_decide (block_data d = block_data s)).

(** [qm_tlv_block_copy] of a non-empty block makes tag, type, argument and
    value equal to the source's and raises the update flag exactly when one of
    tag, type or value differed or the source forces an update. *)
Lemma copy_spec `{!TlvHeapOk heap} d s n : malloc_ok -> block_wf d -> block_wf s -> 0 < blk_len s ->
  exists d' n', qm_tlv_block_copy (Some d) (Some s) n = (QM_EOK, Some d', n')
  /\ block_wf d' /\ block_data d' = block_data s /\ blk_tag d' = blk_tag s
  /\ blk_type d' = copied_type d s /\ blk_arg d' = blk_arg s /\ blk_addr d' = blk_addr d
  /\ flag_update d' = flag_update d || copy_changes d s
  /\ flag_serialization d' = flag_serialization d /\ flag_divide d' = flag_divide d.
Proof.
  intros Hm Hd Hs Hlen. unfold qm_tlv_block_copy.
  set (d1 := if negb _ then _ else d). set (d2 := if _ && negb _ then _ else d1).
  set (d3 := set_arg _ d2). set (d4 := if _ && _ && _ then _ else d3).
  assert (blk_len d4 = blk_len d /\ value_raw d4 = value_raw d /\ value_heap d4 = value_heap d
          /\ blk_addr d4 = blk_addr d /\ flag_serialization d4 = flag_serialization d
          /\ flag_divide d4 = flag_divide d /\ blk_arg d4 = blk_arg s /\ blk_tag d4 = blk_tag s
          /\ blk_type d4 = copied_type d s) as (Hl4 & Hr4 & Hh4 & Ha4 & Hs4 & Hv4 & Hg4 & Ht4 & Hy4).
  { unfold d4, d3, d2, d1, copied_type.
    destruct (Z.eqb_spec (blk_tag d) (blk_tag s)), dttv_support; simpl;
      destruct (Z.eqb_spec (blk_type d) (blk_type s)); simpl;
      destruct force_update, (IS_FORCE_UPDATE (blk_type s)); simpl; split_and!; congruence. }
  assert (flag_update d4 = flag_update d || negb (blk_tag d =? blk_tag s)
          || (dttv_support && negb (blk_type d =? blk_type s))
          || (dttv_support && force_update && IS_FORCE_UPDATE (blk_type s))) as Hu4.
  { unfold d4, d3, d2, d1. destruct (Z.eqb_spec (blk_tag d) (blk_tag s)), dttv_support; simpl;
      destruct (Z.eqb_spec (blk_type d) (blk_type s)); simpl;
      destruct force_update, (IS_FORCE_UPDATE (blk_type s)), (flag_update d) eqn:?; simpl; done. }
  clearbody d4. assert (block_wf d4) as Hw4 by (by eapply block_wf_same_value, Hd).
  assert (block_data d4 = block_data d) as Hd4.
  { unfold block_data, value_mem. by rewrite Hl4, Hr4, Hh4. }
  unfold qm_tlv_unpack_direct, copy_changes. rewrite <- Hd4.
  assert ((blk_len d4 =? blk_len s) && memcmp_eq (direct_bytes d4) (direct_bytes s) (blk_len d4)
          = bool_decide (block_data d4 = block_data s)) as ->.
  { destruct (Z.eqb_spec (blk_len d4) (blk_len s)) as [He|He]; simpl; [by apply memcmp_eq_data|].
    symmetry. apply bool_decide_eq_false. intros Hq. apply He.
    by rewrite <- (block_data_length d4), <- (block_data_length s), Hq by done. }
  destruct (bool_decide (block_data d4 = block_data s)) eqn:Hb.
  - apply bool_decide_eq_true in Hb. exists d4, n. split_and!; try done.
    rewrite Hu4. simpl. by rewrite !orb_false_r, !orb_assoc.
  - rewrite direct_bytes_wf by done. pose proof (block_data_length _ Hs) as Hsl.
    destruct (pack_bytes_spec d4 (value_mem s) (blk_len s) n) as (d5 & n5 & Hp & Hw5 & Hd5 & Hh5).
    + pose proof (wf_len _ Hs). lia.
    + unfold block_data in Hsl. rewrite length_take in Hsl. lia.
    + unfold value_mem. destruct (Z.leb_spec (blk_len s) BUF_SIZE); [apply Hs|by apply Hs].
    + right. destruct (Hm n); eauto.
    + rewrite Hp. simpl. exists (set_update true d5), n5. destruct Hh5 as (Hh1 & Hh2 & Hh3 & Hh6 & Hh7 & Hh8 & Hh9).
      split_and!; simpl; try congruence.
      * by eapply block_wf_same_value, Hw5.
      * done.
      * by rewrite !orb_true_r.
Qed.

(** Copying a block over itself content-wise (same tag, type and value, no
    forced update) changes neither the value nor the update flag, so merging
    the same data twice reports no second update. *)
Theorem copy_idempotent `{!TlvHeapOk heap} d s n : malloc_ok -> block_wf d -> block_wf s -> 0 < blk_len s ->
  force_update = false ->
  exists d1 n1, qm_tlv_block_copy (Some d) (Some s) n = (QM_EOK, Some d1, n1)
  /\ block_data d1 = block_data s /\ flag_update d1 = flag_update d || copy_changes d s
  /\ exists d2 n2, qm_tlv_block_copy (Some (set_update false d1)) (Some s) n1 = (QM_EOK, Some d2, n2)
     /\ block_data d2 = block_data s /\ flag_update d2 = false.
Proof.
  intros Hm Hd Hs Hl Hf.
  destruct (copy_spec d s n Hm Hd Hs Hl) as (d1 & n1 & Hc1 & Hw1 & Hd1 & Ht1 & Hy1 & _ & _ & Hu1 & _).
  exists d1, n1. split_and!; try done.
  assert (block_wf (set_update false d1)) as Hw by (by eapply block_wf_same_value, Hw1).
  destruct (copy_spec (set_update false d1) s n1 Hm Hw Hs Hl) as (d2 & n2 & Hc2 & _ & Hd2 & _ & _ & _ & _ & Hu2 & _).
  exists d2, n2. split_and!; try done. rewrite Hu2. unfold copy_changes. simpl.
  change (block_data (set_update false d1)) with (block_data d1).
  rewrite Hd1, Ht1, Hy1, Hf. unfold copied_type. rewrite Hf. simpl.
  rewrite Z.eqb_refl, bool_decide_true by done. rewrite andb_false_r. simpl.
  destruct dttv_support; [|done]. simpl. by rewrite Z.eqb_refl.
Qed.

(** A source block without data cannot be copied over one that has some:
    the call fails with [-QM_EINVAL] after tag, type and update flag of the
    destination have already been changed. *)
Theorem copy_empty_fails d s n : block_wf d -> block_wf s -> blk_len s = 0 -> 0 < blk_len d ->
  exists d', qm_tlv_block_copy (Some d) (Some s) n = (- QM_EINVAL, Some d', n)
  /\ blk_tag d' = blk_tag s /\ blk_type d' = copied_type d s /\ flag_update d' = true
  /\ block_data d' = block_data d.
Proof.
  intros Hd Hs Hls Hld. unfold qm_tlv_block_copy.
  set (d1 := if negb _ then _ else d). set (d2 := if _ && negb _ then _ else d1).
  set (d3 := set_arg _ d2). set (d4 := if _ && _ && _ then _ else d3).
  assert (blk_len d4 = blk_len d /\ value_mem d4 = value_mem d
          /\ blk_tag d4 = blk_tag s /\ blk_type d4 = copied_type d s) as (Hl4 & Hv4 & Ht4 & Hy4).
  { unfold d4, d3, d2, d1, copied_type.
    destruct (Z.eqb_spec (blk_tag d) (blk_tag s)), dttv_support; simpl;
      destruct (Z.eqb_spec (blk_type d) (blk_type s)); simpl;
      destruct force_update, (IS_FORCE_UPDATE (blk_type s)); simpl; split_and!; first [done|congruence]. }
  clearbody d4. unfold qm_tlv_unpack_direct. rewrite Hl4, Hls.
  destruct (Z.eqb_spec (blk_len d) 0); [lia|]. simpl.
  rewrite direct_bytes_wf by done. simpl. eexists. split_and!; [done|done|done|done|].
  unfold block_data. simpl. change (value_mem (set_update true d4)) with (value_mem d4). by rewrite Hl4, Hv4.
Qed.

End ops.

(** ** A concrete configuration, heap and blocks *)

(** The configuration of the examples: 1-byte tags, 2-byte lengths. *)
Definition demo_cfg : TlvConfig := {|
  dttv_tag2 := false; dttv_len2 := true; tlv_tag2 := false; tlv_len2 := false;
  ttlv_tag2 := false; ttlv_len2 := true;
  dttv_support := true; tlv_support := true; ttlv_support := true; force_update := false;
  int16_support := true; int32_support := true; int64_support := false;
  float32_support := true; float64_support := false |}.

Definition demo_heap : TlvHeap := fun n => Some (1 + Z.of_nat n mod 1000).

Lemma demo_heap_ok : TlvHeapOk demo_heap.
Proof. intros n a [= <-]. pose proof (Z.mod_pos_bound (Z.of_nat n) 1000). lia. Defined.

Lemma demo_malloc_ok : malloc_ok (heap := demo_heap).
Proof. intros n. eexists. reflexivity. Defined.

Definition demo_short : qm_tlv_block_t :=
  mk_block true false false 4 7 2 [1; 2; 0; 0] [] 0 100.
Definition demo_long : qm_tlv_block_t :=
  mk_block false true false 11 9 6 [5; 0; 0; 0] [104; 101; 108; 108; 111; 33] 0 200.
Definition demo_none : qm_tlv_block_t := mk_block false false false 11 9 0 [0; 0; 0; 0] [] 0 300.

Lemma demo_short_wf : block_wf (H := demo_cfg) demo_short.
Proof. constructor; simpl; [done|repeat constructor; widths; lia|unfold len_max; simpl; lia|unfold BUF_SIZE; lia]. Defined.
Lemma demo_none_wf : block_wf (H := demo_cfg) demo_none.
Proof. constructor; simpl; [done|repeat constructor; widths; lia|unfold len_max; simpl; lia|unfold BUF_SIZE; lia]. Defined.
Lemma demo_long_wf : block_wf (H := demo_cfg) demo_long.
Proof.
  constructor; simpl; [done|repeat constructor; widths; lia|unfold len_max; simpl; lia|].
  intros _. split_and!; [done|repeat constructor; widths; lia|done].
Defined.

Lemma scalar_roundtrip_witness :
  exists b', qm_tlv_pack_int32 (H := demo_cfg) (Some demo_long) (-7) = (QM_EOK, Some b')
  /\ qm_tlv_unpack_int32 (Some b') false = (QM_EOK, Some (-7), Some (set_update false b')).
Proof.
  destruct (scalar_roundtrip (H := demo_cfg) demo_long demo_long_wf) as (_ & _ & _ & _ & _ & H32).
  apply H32. lia.
Defined.

Lemma scalar_wire_order_witness :
  exists b', qm_tlv_pack_uint16 (H := demo_cfg) (Some demo_short) 0x1234 = (QM_EOK, Some b')
  /\ block_wf (H := demo_cfg) b' /\ block_data b' = [0x12; 0x34] /\ same_header demo_short b'.
Proof. apply (scalar_wire_order (H := demo_cfg) demo_short 0x1234). widths; lia. Defined.

Lemma bytes_roundtrip_witness :
  exists b' n', qm_tlv_pack_bytes (H := demo_cfg) (heap := demo_heap) (Some demo_short) (Some [9; 8; 7; 6; 5]) 5 0
    = (QM_EOK, Some b', n')
  /\ block_wf (H := demo_cfg) b' /\ same_header demo_short b'
  /\ qm_tlv_unpack_bytes (Some b') false (Some 0)
     = (QM_EOK, [9; 8; 7; 6; 5], Some 5, Some (set_update false b')).
Proof.
  apply (bytes_roundtrip (H := demo_cfg) (heap := demo_heap) (TlvHeapOk0 := demo_heap_ok)
           demo_short [9; 8; 7; 6; 5] 0 0);
    [exact demo_malloc_ok|simpl; lia|unfold len_max; simpl; lia|repeat constructor; widths; lia].
Defined.

Lemma pack_bytes_nomem_witness :
  let hp : TlvHeap := fun _ => None in
  exists b', qm_tlv_pack_bytes (H := demo_cfg) (heap := hp) (Some demo_long) (Some [1; 2; 3; 4; 5]) 5 0
    = (- QM_ENOMEM, Some b', 1%nat)
  /\ value_pdata b' = 0 /\ blk_len b' = 6 /\ (BUF_SIZE < 6 -> ~ block_wf (H := demo_cfg) b').
Proof.
  apply (pack_bytes_nomem (H := demo_cfg) (heap := fun _ => None) demo_long [1; 2; 3; 4; 5] 5 0);
    [unfold BUF_SIZE; lia|reflexivity].
Defined.

Lemma pack_bytes_truncates_witness :
  exists b' n', qm_tlv_pack_bytes (H := demo_cfg) (heap := demo_heap) (Some demo_short)
    (Some (replicate 4 1)) 65537 0 = (QM_EOK, Some b', n') /\ blk_len b' < 65537.
Proof.
  apply (pack_bytes_truncates (H := demo_cfg) (heap := demo_heap) demo_short (replicate 4 1) 65537 0);
    [exact demo_malloc_ok|unfold len_max; simpl; lia].
Defined.

Lemma unpack_ignores_capacity_witness :
  (exists out, qm_tlv_unpack_bytes (Some demo_long) false (Some 2)
     = (QM_EOK, out, Some 6, Some (set_update false demo_long)) /\ Z.of_nat (length out) = 6)
  /\ (exists out, qm_tlv_unpack_string (Some demo_long) false (Some 2)
     = (QM_EOK, out, Some 7, Some (set_update false demo_long)) /\ Z.of_nat (length out) = 7).
Proof. exact (unpack_ignores_capacity (H := demo_cfg) demo_long 2 demo_long_wf). Defined.

Lemma copy_idempotent_witness :
  exists d1 n1, qm_tlv_block_copy (H := demo_cfg) (heap := demo_heap) (Some demo_short) (Some demo_long) 3
    = (QM_EOK, Some d1, n1)
  /\ block_data d1 = [104; 101; 108; 108; 111; 33] /\ flag_update d1 = true
  /\ exists d2 n2, qm_tlv_block_copy (H := demo_cfg) (heap := demo_heap) (Some (set_update false d1))
         (Some demo_long) n1 = (QM_EOK, Some d2, n2)
     /\ block_data d2 = [104; 101; 108; 108; 111; 33] /\ flag_update d2 = false.
Proof.
  apply (copy_idempotent (H := demo_cfg) (heap := demo_heap) (TlvHeapOk0 := demo_heap_ok)
           demo_short demo_long 3 demo_malloc_ok demo_short_wf demo_long_wf); [simpl; lia|reflexivity].
Defined.

Lemma copy_empty_fails_witness :
  exists d', qm_tlv_block_copy (H := demo_cfg) (heap := demo_heap) (Some demo_short) (Some demo_none) 0
    = (- QM_EINVAL, Some d', 0%nat)
  /\ blk_tag d' = 9 /\ blk_type d' = 11 /\ flag_update d' = true /\ block_data d' = [1; 2].
Proof.
  apply (copy_empty_fails (H := demo_cfg) (heap := demo_heap) demo_short demo_none 0 demo_short_wf demo_none_wf);
    [reflexivity|simpl; lia].
Defined.

End TlvBlock.
