(* ===== verification/TlvCtx.v ===== *)
(** * TLV contexts: the list of blocks (utility/tlv/qm_tlv.c)

    A context is a singly linked list of blocks with distinct tags.  Seen from
    outside it is a finite map from tags to values; [ctx_map] is that map and
    the theorems relate the list operations to it. *)

From S2P Require Import Prelude Endian TlvBlock.
Import TlvBlock.

Module TlvCtx.

Record qm_tlv_ctx_t := mk_ctx {
  count : Z;
  ctx_arg : Z;
  blocks : list qm_tlv_block_t      (* from [tlv_block] along [next] *)
}.

Section ctx.
Context `{TlvConfig} {heap : TlvHeap}.

Definition qm_tlv_ctx_creat (n : nat) : option qm_tlv_ctx_t * nat :=
  match malloc n with
  | None => (None, S n)
  | Some _ => (Some (mk_ctx 0 0 []), S n)
  end.

(** Result and the addresses passed to [tlv_free], in order. *)
Definition qm_tlv_block_delete (tlv_block : option qm_tlv_block_t) : Z * list Z :=
  match tlv_block with
  | None => (- QM_EINVAL, [])
  | Some b => (QM_EOK, (if blk_len b >? BUF_SIZE then [value_pdata b] else []) ++ [blk_addr b])
  end.

(** Frees every block and its heap buffer (the free of the context itself is
    the last one and not listed). *)
Definition qm_tlv_ctx_delete (tlv_ctx : option qm_tlv_ctx_t) : Z * list Z :=
  match tlv_ctx with
  | None => (- QM_EINVAL, [])
  | Some c => (QM_EOK, flat_map (fun b => (if blk_len b >? BUF_SIZE then [value_pdata b] else []) ++ [blk_addr b])
                         (blocks c))
  end.

Definition qm_tlv_ctx_count_get (tlv_ctx : option qm_tlv_ctx_t) : Z :=
  match tlv_ctx with None => - QM_EINVAL | Some c => count c end.

Definition qm_tlv_ctx_arg_set (tlv_ctx : option qm_tlv_ctx_t) (arg : Z) : Z * option qm_tlv_ctx_t :=
  match tlv_ctx with
  | None => (- QM_EINVAL, None)
  | Some c => (QM_EOK, Some (mk_ctx (count c) arg (blocks c)))
  end.

Definition qm_tlv_ctx_arg_get (tlv_ctx : option qm_tlv_ctx_t) (arg_null : bool) : Z * option Z :=
  match tlv_ctx with
  | Some c => if arg_null then (- QM_EINVAL, None) else (QM_EOK, Some (ctx_arg c))
  | None => (- QM_EINVAL, None)
  end.

(** The block after the one at address [addr], or the first one for NULL. *)
Fixpoint next_after (bs : list qm_tlv_block_t) (addr : Z) : option qm_tlv_block_t :=
  match bs with
  | [] => None
  | b :: rest => if blk_addr b =? addr then head rest else next_after rest addr
  end.

Definition qm_tlv_block_next (tlv_ctx : option qm_tlv_ctx_t) (tlv_block : option Z) : option qm_tlv_block_t :=
  match tlv_block with
  | None => match tlv_ctx with None => None | Some c => head (blocks c) end
  | Some addr => c ← tlv_ctx; next_after (blocks c) addr
  end.

(** The loop over the blocks with [qm_tlv_block_next]. *)
Fixpoint update_count (bs : list qm_tlv_block_t) (cnt : Z) : Z :=
  match bs with
  | [] => cnt
  | b :: rest => update_count rest (if flag_update b then cnt + 1 else cnt)
  end.

Definition qm_tlv_ctx_update_count_get (tlv_ctx : option qm_tlv_ctx_t) : Z :=
  match tlv_ctx with None => 0 | Some c => update_count (blocks c) 0 end.

Fixpoint tag_in (bs : list qm_tlv_block_t) (tag : Z) : bool :=
  match bs with
  | [] => false
  | b :: rest => if tag =? blk_tag b then true else tag_in rest tag
  end.

Definition qm_tlv_block_check (c : qm_tlv_ctx_t) (b : qm_tlv_block_t) : bool := tag_in (blocks c) (blk_tag b).

Definition qm_tlv_block_add (tlv_ctx : option qm_tlv_ctx_t) (tlv_block : option qm_tlv_block_t)
  : Z * option qm_tlv_ctx_t :=
  match tlv_ctx, tlv_block with
  | Some c, Some b =>
      match blocks c with
      | [] => (QM_EOK, Some (mk_ctx (count c + 1) (ctx_arg c) [set_update true b]))
      | _ :: _ =>
          if qm_tlv_block_check c b then (- QM_EINVAL, tlv_ctx)
          else (QM_EOK, Some (mk_ctx (count c + 1) (ctx_arg c) (blocks c ++ [set_update true b])))
      end
  | _, _ => (- QM_EINVAL, tlv_ctx)
  end.

#[local] Arguments qm_tlv_block_add : simpl never.
#[local] Arguments qm_tlv_block_copy : simpl never.
#[local] Arguments qm_tlv_block_creat : simpl never.

(** Unlinks the block with the given address; [None] when it is not in the list. *)
Fixpoint unlink (bs : list qm_tlv_block_t) (addr : Z) : option (list qm_tlv_block_t) :=
  match bs with
  | [] => None
  | b :: rest => if blk_addr b =? addr then Some rest else cons b <$> unlink rest addr
  end.

Definition qm_tlv_block_remove (tlv_ctx : option qm_tlv_ctx_t) (tlv_block : option Z) : Z * option qm_tlv_ctx_t :=
  match tlv_ctx, tlv_block with
  | Some c, Some addr =>
      match unlink (blocks c) addr with
      | Some bs => (QM_EOK, Some (mk_ctx (count c - 1) (ctx_arg c) bs))
      | None => (QM_EOK, tlv_ctx)
      end
  | _, _ => (- QM_EINVAL, tlv_ctx)
  end.

(** The comparison is selected by the width of the LENGTH field. *)
Definition find_test (tag : Z) (b : qm_tlv_block_t) : bool :=
  if length_byte2 then blk_tag b =? u16 tag else blk_tag b =? u8 tag.

(** Position and block the search loop stops at. *)
Fixpoint find_from (bs : list qm_tlv_block_t) (tag : Z) (i : nat) : option (nat * qm_tlv_block_t) :=
  match bs with
  | [] => None
  | b :: rest => if find_test tag b then Some (i, b) else find_from rest tag (S i)
  end.

Definition qm_tlv_block_find (tlv_ctx : option qm_tlv_ctx_t) (tag : Z) : option (nat * qm_tlv_block_t) :=
  match tlv_ctx with
  | None => None
  | Some c => find_from (blocks c) tag 0
  end.

Definition put_block (c : qm_tlv_ctx_t) (i : nat) (b : qm_tlv_block_t) : qm_tlv_ctx_t :=
  mk_ctx (count c) (ctx_arg c) (<[i := b]> (blocks c)).

(** One iteration of [qm_tlv_merge]. *)
Definition merge_block (dest : qm_tlv_ctx_t) (b : qm_tlv_block_t) (n : nat) : Z * qm_tlv_ctx_t * nat :=
  match qm_tlv_block_find (Some dest) (u16 (blk_tag b)) with
  | Some (i, m) =>
      let '(ret, m', n') := qm_tlv_block_copy (Some m) (Some b) n in
      (ret, put_block dest i (default m m'), n')
  | None =>
      match qm_tlv_block_creat n with
      | (None, n1) => (- QM_ENOMEM, dest, n1)
      | (Some m, n1) =>
          let '(ret, m', n2) := qm_tlv_block_copy (Some m) (Some b) n1 in
          if negb (ret =? QM_EOK) then (ret, dest, n2)
          else
            let '(ret2, dest') := qm_tlv_block_add (Some dest) m' in
            (ret2, default dest dest', n2)
      end
  end.

Fixpoint merge_loop (dest : qm_tlv_ctx_t) (src : list qm_tlv_block_t) (n : nat) : Z * qm_tlv_ctx_t * nat :=
  match src with
  | [] => (QM_EOK, dest, n)
  | b :: rest =>
      let '(ret, dest', n') := merge_block dest b n in
      if negb (ret =? QM_EOK) then (ret, dest', n') else merge_loop dest' rest n'
  end.

Definition qm_tlv_merge (dest_tlv_ctx src_tlv_ctx : option qm_tlv_ctx_t) (n : nat)
  : Z * option qm_tlv_ctx_t * nat :=
  match dest_tlv_ctx, src_tlv_ctx with
  | Some dest, Some src =>
      let '(ret, dest', n') := merge_loop dest (blocks src) n in (ret, Some dest', n')
  | _, _ => (- QM_EINVAL, dest_tlv_ctx, n)
  end.

Definition QM_TLV_DIVIDE_TYPE_GENERIC : Z := 0.
Definition QM_TLV_DIVIDE_TYPE_UPDATE : Z := 1.
Definition QM_TLV_DIVIDE_TYPE_MAX : Z := 2.

(** Is the block skipped, and what becomes of its flags? *)
Definition divide_select (divide_type : Z) (b : qm_tlv_block_t) : bool * qm_tlv_block_t :=
  if divide_type =? QM_TLV_DIVIDE_TYPE_UPDATE then (flag_update b, b)
  else if divide_type =? QM_TLV_DIVIDE_TYPE_GENERIC then (flag_divide b, set_divide false b)
  else (true, b).

(** Returns the result, the destination and the blocks of the source. *)
Fixpoint divide_loop (dest : qm_tlv_ctx_t) (src : list qm_tlv_block_t) (divide_type : Z) (n : nat)
  : Z * qm_tlv_ctx_t * list qm_tlv_block_t * nat :=
  match src with
  | [] => (QM_EOK, dest, [], n)
  | b :: rest =>
      let '(take_it, b1) := divide_select divide_type b in
      if negb take_it then
        let '(r, d, bs, n') := divide_loop dest rest divide_type n in (r, d, b :: bs, n')
      else
        match qm_tlv_block_creat n with
        | (None, n1) => (- QM_ENOMEM, dest, b1 :: rest, n1)
        | (Some m, n1) =>
            let '(ret, m', n2) := qm_tlv_block_copy (Some m) (Some b1) n1 in
            if negb (ret =? QM_EOK) then (ret, dest, b1 :: rest, n2)
            else
              let '(_, dest') := qm_tlv_block_add (Some dest) m' in
              let '(r, d, bs, n') := divide_loop (default dest dest') rest divide_type n2 in
              (r, d, b1 :: bs, n')
        end
  end.

Definition qm_tlv_divide (dest_tlv_ctx src_tlv_ctx : option qm_tlv_ctx_t) (divide_type : Z) (n : nat)
  : Z * option qm_tlv_ctx_t * option qm_tlv_ctx_t * nat :=
  match dest_tlv_ctx, src_tlv_ctx with
  | Some dest, Some src =>
      if divide_type >=? QM_TLV_DIVIDE_TYPE_MAX then (- QM_EINVAL, dest_tlv_ctx, src_tlv_ctx, n)
      else
        let '(r, d, bs, n') := divide_loop dest (blocks src) divide_type n in
        (r, Some d, Some (mk_ctx (count src) (ctx_arg src) bs), n')
  | _, _ => (- QM_EINVAL, dest_tlv_ctx, src_tlv_ctx, n)
  end.

(** ** Invariant and abstraction *)

Definition tags (c : qm_tlv_ctx_t) : list Z := blk_tag <$> blocks c.

Definition tag_ok (b : qm_tlv_block_t) : Prop := 0 <= blk_tag b <= tag_max.

Record ctx_wf (c : qm_tlv_ctx_t) : Prop := {
  cw_count : count c = Z.of_nat (length (blocks c));
  cw_tags : NoDup (tags c);
  cw_blocks : Forall block_wf (blocks c);
  cw_tagged : Forall tag_ok (blocks c)
}.

Definition to_map (bs : list qm_tlv_block_t) : gmap Z (list Z) :=
  list_to_map ((fun b => (blk_tag b, block_data b)) <$> bs).

Definition ctx_map (c : qm_tlv_ctx_t) : gmap Z (list Z) := to_map (blocks c).

(** The search of [qm_tlv_block_find] sees the whole tag. *)
Definition find_exact : Prop := tag_byte2 = true -> length_byte2 = true.

(** ** Lemmas *)

Lemma tag_in_spec bs tag : tag_in bs tag = bool_decide (tag ∈ blk_tag <$> bs).
Proof.
  induction bs as [|b bs IH]; simpl; [done|].
  destruct (Z.eqb_spec tag (blk_tag b)) as [->|Hne].
  - symmetry. apply bool_decide_eq_true. by left.
  - rewrite IH. apply bool_decide_ext. split; [by right|]. by intros [?|?]%elem_of_cons.
Qed.

Lemma add_eq c b : qm_tlv_block_add (Some c) (Some b)
  = if bool_decide (blk_tag b ∈ tags c) then (- QM_EINVAL, Some c)
    else (QM_EOK, Some (mk_ctx (count c + 1) (ctx_arg c) (blocks c ++ [set_update true b]))).
Proof.
  unfold qm_tlv_block_add, qm_tlv_block_check, tags. rewrite tag_in_spec.
  destruct (blocks c) eqn:Hb; [done|]. done.
Qed.

Lemma add_wf c b : ctx_wf c -> block_wf b -> tag_ok b -> blk_tag b ∉ tags c ->
  ctx_wf (mk_ctx (count c + 1) (ctx_arg c) (blocks c ++ [set_update true b])).
Proof.
  intros [Hc Ht Hb Hg] Hw Hk Hn. constructor; simpl.
  - rewrite length_app. simpl. lia.
  - unfold tags. simpl. rewrite fmap_app. apply list.NoDup_app. split_and!; [done| |apply NoDup_singleton].
    intros x Hx Hx'. apply list_elem_of_singleton in Hx'. subst x. by apply Hn.
  - apply Forall_app. split; [done|]. constructor; [|done]. by eapply block_wf_same_value, Hw.
  - apply Forall_app. split; [done|]. by constructor.
Qed.

Lemma to_map_cons b bs : to_map (b :: bs) = <[blk_tag b := block_data b]> (to_map bs).
Proof. done. Qed.

Lemma to_map_app bs b : blk_tag b ∉ blk_tag <$> bs ->
  to_map (bs ++ [b]) = <[blk_tag b := block_data b]> (to_map bs).
Proof.
  induction bs as [|b0 bs IH]; intros Hn; [done|].
  rewrite fmap_cons in Hn. apply not_elem_of_cons in Hn as [Hne Hn].
  rewrite <- app_comm_cons, !to_map_cons, IH by done. by apply insert_insert_ne.
Qed.

Lemma to_map_None bs t : to_map bs !! t = None <-> t ∉ blk_tag <$> bs.
Proof.
  unfold to_map. rewrite <- not_elem_of_list_to_map.
  replace ((fun b => (blk_tag b, block_data b)) <$> bs).*1 with (blk_tag <$> bs); [done|].
  rewrite <- list_fmap_compose. done.
Qed.

Lemma to_map_lookup bs b : NoDup (blk_tag <$> bs) -> b ∈ bs -> to_map bs !! blk_tag b = Some (block_data b).
Proof.
  intros Hn Hb. unfold to_map. apply elem_of_list_to_map_1.
  - rewrite <- list_fmap_compose. done.
  - apply list_elem_of_fmap. exists b. done.
Qed.

(** Replacing the block at a position keeps the map up to that tag. *)
Lemma to_map_insert bs i b b' : NoDup (blk_tag <$> bs) -> bs !! i = Some b -> blk_tag b' = blk_tag b ->
  to_map (<[i := b']> bs) = <[blk_tag b := block_data b']> (to_map bs).
Proof.
  revert i. induction bs as [|b0 bs IH]; intros [|i] Hn Hi Ht; simpl in *; try done.
  - injection Hi as ->. rewrite !to_map_cons, Ht. by rewrite insert_insert_eq.
  - apply list.NoDup_cons in Hn as [Hn1 Hn2]. rewrite !to_map_cons, (IH i Hn2 Hi Ht).
    apply insert_insert_ne. intros He. apply Hn1. rewrite He. apply list_elem_of_fmap.
    exists b. split; [done|]. by eapply list_elem_of_lookup_2.
Qed.

Lemma find_from_shift bs tag i : find_from bs tag (S i) = (fun p => (S p.1, p.2)) <$> find_from bs tag i.
Proof.
  revert i. induction bs as [|b bs IH]; intros i; simpl; [done|].
  destruct (find_test tag b); [done|]. by rewrite IH.
Qed.

Lemma find_test_exact tag b : find_exact -> 0 <= tag <= tag_max -> tag_ok b ->
  find_test tag b = (blk_tag b =? tag).
Proof.
  unfold find_exact, find_test, tag_ok, tag_max. intros Hx Ht Hb.
  destruct tag_byte2; [rewrite Hx by done; rewrite u16_id; [done|widths; lia]|].
  destruct length_byte2; rewrite ?u16_id, ?u8_id; try done; widths; lia.
Qed.

Lemma find_from_spec bs tag : find_exact -> 0 <= tag <= tag_max -> Forall tag_ok bs ->
  match find_from bs tag 0 with
  | Some (i, b) => bs !! i = Some b /\ blk_tag b = tag
  | None => tag ∉ blk_tag <$> bs
  end.
Proof.
  intros Hx Ht. induction 1 as [|b bs Hb Hbs IH]; simpl; [set_solver|].
  rewrite find_test_exact by done. destruct (Z.eqb_spec (blk_tag b) tag) as [->|Hne]; [done|].
  rewrite find_from_shift. destruct (find_from bs tag 0) as [[i b']|]; simpl in *; [done|].
  apply not_elem_of_cons. split; [congruence|done].
Qed.

Lemma unlink_spec bs addr :
  match unlink bs addr with
  | Some bs' => exists l b r, bs = l ++ b :: r /\ bs' = l ++ r /\ blk_addr b = addr
                 /\ addr ∉ blk_addr <$> l
  | None => addr ∉ blk_addr <$> bs
  end.
Proof.
  induction bs as [|b bs IH]; simpl; [set_solver|].
  destruct (Z.eqb_spec (blk_addr b) addr) as [He|Hne].
  - exists [], b, bs. split_and!; try done. set_solver.
  - destruct (unlink bs addr) as [bs'|]; simpl.
    + destruct IH as (l & b0 & r & -> & -> & Ha & Hl). exists (b :: l), b0, r.
      split_and!; try done. apply not_elem_of_cons. split; [congruence|done].
    + apply not_elem_of_cons. split; [congruence|done].
Qed.

Lemma update_count_spec bs k :
  update_count bs k = k + Z.of_nat (length (List.filter flag_update bs)).
Proof.
  revert k. induction bs as [|b bs IH]; intros k; simpl; [lia|].
  rewrite IH. destruct (flag_update b); simpl; lia.
Qed.

Lemma fresh_wf addr : block_wf (mk_block false false false 0 0 0 [0; 0; 0; 0] [] 0 addr).
Proof.
  constructor; simpl; [done|repeat constructor; widths; lia| |unfold BUF_SIZE; lia].
  pose proof len_max_ge. lia.
Qed.

(** What a copy into a freshly created block gives. *)
Lemma creat_copy_spec `{!TlvHeapOk heap} b n : malloc_ok -> block_wf b -> 0 < blk_len b ->
  exists m m' n', qm_tlv_block_creat n = (Some m, S n)
  /\ qm_tlv_block_copy (Some m) (Some b) (S n) = (QM_EOK, Some m', n')
  /\ block_wf m' /\ block_data m' = block_data b /\ blk_tag m' = blk_tag b.
Proof.
  intros Hm Hb Hl. destruct (Hm n) as [a Ha]. unfold qm_tlv_block_creat. rewrite Ha.
  eexists. destruct (copy_spec _ b (S n) Hm (fresh_wf a) Hb Hl) as (d' & n' & Hc & Hw & Hd & Ht & _).
  exists d', n'. done.
Qed.

Lemma put_block_wf c i b b' : ctx_wf c -> blocks c !! i = Some b -> block_wf b' -> blk_tag b' = blk_tag b ->
  ctx_wf (put_block c i b').
Proof.
  intros [Hc Ht Hb Hg] Hi Hw Htag. constructor; simpl.
  - by rewrite length_insert.
  - unfold tags. simpl. rewrite list_fmap_insert, list_insert_id; [done|].
    by rewrite list_lookup_fmap, Hi, Htag.
  - by apply Forall_insert.
  - apply Forall_insert; [done|]. unfold tag_ok. rewrite Htag.
    by eapply Forall_lookup_1 in Hg; [|exact Hi].
Qed.

Lemma merge_block_spec `{!TlvHeapOk heap} dest b n : malloc_ok -> find_exact -> ctx_wf dest ->
  block_wf b -> tag_ok b -> 0 < blk_len b ->
  exists dest' n', merge_block dest b n = (QM_EOK, dest', n') /\ ctx_wf dest'
  /\ ctx_map dest' = <[blk_tag b := block_data b]> (ctx_map dest).
Proof.
  intros Hm Hx Hwf Hb Ht Hl. unfold merge_block, qm_tlv_block_find.
  assert (u16 (blk_tag b) = blk_tag b) as ->
    by (apply u16_id; unfold tag_ok, tag_max in Ht; destruct tag_byte2; widths; lia).
  pose proof (find_from_spec (blocks dest) (blk_tag b) Hx Ht (cw_tagged _ Hwf)) as Hf.
  destruct (find_from (blocks dest) (blk_tag b) 0) as [[i m]|].
  - destruct Hf as [Hi Htag].
    assert (block_wf m) as Hmw by (by eapply Forall_lookup_1 in Hi; [|exact (cw_blocks _ Hwf)]).
    destruct (copy_spec m b n Hm Hmw Hb Hl) as (d' & n' & Hc & Hw & Hd & Htd & _). rewrite Hc. simpl.
    eexists _, _. split; [done|]. split; [apply put_block_wf with m; by rewrite ?Htd|].
    unfold ctx_map. simpl. rewrite (to_map_insert _ _ m); [|apply Hwf|done|congruence].
    by rewrite Hd, Htag.
  - destruct (creat_copy_spec b n Hm Hb Hl) as (m & m' & n' & Hc & Hcp & Hw & Hd & Htd). rewrite Hc, Hcp. simpl.
    rewrite add_eq, bool_decide_false by (unfold tags; by rewrite Htd). simpl.
    eexists _, _. split; [done|]. split; [apply add_wf; try done; unfold tag_ok, tags; by rewrite Htd|].
    unfold ctx_map. simpl. rewrite to_map_app by (simpl; by rewrite Htd). simpl.
    change (block_data (set_update true m')) with (block_data m'). by rewrite Htd, Hd.
Qed.

Lemma merge_loop_spec `{!TlvHeapOk heap} src : malloc_ok -> find_exact ->
  Forall block_wf src -> Forall tag_ok src -> Forall (fun b => 0 < blk_len b) src -> NoDup (blk_tag <$> src) ->
  forall dest n, ctx_wf dest ->
  exists dest' n', merge_loop dest src n = (QM_EOK, dest', n') /\ ctx_wf dest'
  /\ ctx_map dest' = to_map src ∪ ctx_map dest.
Proof.
  intros Hm Hx. induction src as [|b src IH]; intros Hb Ht Hl Hn dest n Hwf; simpl.
  - eexists _, _. split; [done|]. split; [done|]. unfold to_map. simpl. by rewrite (left_id_L ∅ (∪)).
  - apply list.Forall_cons in Hb as [Hb1 Hb], Ht as [Ht1 Ht], Hl as [Hl1 Hl]. simpl in Hn.
    apply list.NoDup_cons in Hn as [Hn1 Hn].
    destruct (merge_block_spec dest b n Hm Hx Hwf Hb1 Ht1 Hl1) as (d1 & n1 & He1 & Hw1 & Hm1).
    rewrite He1. simpl. destruct (IH Hb Ht Hl Hn d1 n1 Hw1) as (d2 & n2 & He2 & Hw2 & Hm2).
    eexists _, _. split; [exact He2|]. split; [done|]. rewrite Hm2, Hm1, to_map_cons.
    rewrite <- insert_union_r by (by apply to_map_None). by rewrite insert_union_l.
Qed.

Lemma union_insert_absorb (m1 m2 : gmap Z (list Z)) i x : m1 !! i <> None -> m1 ∪ m2 = m1 ∪ <[i := x]> m2.
Proof.
  intros Hi. apply map_eq. intros j. destruct (decide (i = j)) as [<-|Hne].
  - rewrite !lookup_union. by destruct (m1 !! i), (m2 !! i), (<[i := x]> m2 !! i).
  - by rewrite !lookup_union, lookup_insert_ne.
Qed.

Lemma divide_loop_spec `{!TlvHeapOk heap} ty (sel : qm_tlv_block_t -> bool) : malloc_ok ->
  (forall b, exists b', divide_select ty b = (sel b, b') /\ blk_tag b' = blk_tag b
      /\ blk_len b' = blk_len b /\ value_raw b' = value_raw b /\ value_heap b' = value_heap b) ->
  forall src, Forall block_wf src -> Forall tag_ok src -> Forall (fun b => 0 < blk_len b) src ->
  forall dest n, ctx_wf dest ->
  exists dest' src' n', divide_loop dest src ty n = (QM_EOK, dest', src', n') /\ ctx_wf dest'
  /\ src' = (fun b => if sel b then (divide_select ty b).2 else b) <$> src
  /\ ctx_map dest' = ctx_map dest ∪ to_map (List.filter sel src).
Proof.
  intros Hm Hsel. induction src as [|b src IH]; intros Hb Ht Hl dest n Hwf; simpl.
  - eexists _, _, _. split_and!; try done. unfold to_map. simpl. by rewrite (right_id_L ∅ (∪)).
  - apply list.Forall_cons in Hb as [Hb1 Hb], Ht as [Ht1 Ht], Hl as [Hl1 Hl].
    specialize (IH Hb Ht Hl). destruct (Hsel b) as (b' & Hs & Htag & Hlen & Hraw & Hheap). rewrite Hs.
    destruct (sel b) eqn:Hsb; simpl.
    + assert (block_wf b') as Hb' by (by eapply block_wf_same_value, Hb1).
      assert (block_data b' = block_data b) as Hbd by (unfold block_data, value_mem; by rewrite Hlen, Hraw, Hheap).
      destruct (creat_copy_spec b' n Hm Hb') as (m & m' & n' & Hc & Hcp & Hw & Hd & Htd); [lia|].
      rewrite Hc, Hcp. simpl. rewrite add_eq. unfold tags. rewrite Htd, Htag. case_bool_decide as Hin; simpl.
      * destruct (IH dest n' Hwf) as (d2 & s2 & n2 & He & Hw2 & Hs2 & Hm2). rewrite He.
        eexists _, _, _. split_and!; [done|done|by rewrite Hs2|].
        rewrite Hm2. rewrite to_map_cons.
        apply union_insert_absorb. intros Hnone. apply to_map_None in Hnone. done.
      * destruct (IH _ n' (add_wf dest m' Hwf Hw ltac:(unfold tag_ok; by rewrite Htd, Htag)
                            ltac:(unfold tags; by rewrite Htd, Htag))) as (d2 & s2 & n2 & He & Hw2 & Hs2 & Hm2).
        rewrite He. eexists _, _, _. split_and!; [done|done|by rewrite Hs2|].
        rewrite Hm2. unfold ctx_map. simpl. rewrite to_map_app by (simpl; by rewrite Htd, Htag). simpl.
        change (block_data (set_update true m')) with (block_data m'). rewrite Htd, Htag, Hd, Hbd.
        rewrite to_map_cons.
        rewrite <- insert_union_r by (by apply to_map_None). by rewrite insert_union_l.
    + destruct (IH dest n Hwf) as (d2 & s2 & n2 & He & Hw2 & Hs2 & Hm2). rewrite He.
      eexists _, _, _. split_and!; [done|done|by rewrite Hs2|done].
Qed.

Lemma to_map_is_Some bs t : is_Some (to_map bs !! t) <-> t ∈ blk_tag <$> bs.
Proof.
  rewrite <- not_eq_None_Some, to_map_None. split; [|tauto].
  intros Hn. by destruct (decide (t ∈ blk_tag <$> bs)).
Qed.

Lemma to_map_remove l b r : NoDup (blk_tag <$> l ++ b :: r) ->
  to_map (l ++ r) = delete (blk_tag b) (to_map (l ++ b :: r)).
Proof.
  induction l as [|b0 l IH]; rewrite fmap_app; cbn [app]; intros Hn.
  - rewrite to_map_cons. apply list.NoDup_cons in Hn as [Hn _].
    rewrite delete_insert_eq, delete_id; [done|]. by apply to_map_None.
  - rewrite fmap_cons in Hn. cbn [app] in Hn. apply list.NoDup_cons in Hn as [Hn0 Hn]. rewrite <- fmap_app in Hn.
    rewrite !to_map_cons, IH by done. rewrite delete_insert_ne; [done|].
    intros He. apply Hn0. rewrite <- He. apply elem_of_app. right. rewrite fmap_cons. by left.
Qed.

(** ** Theorems *)

(** [qm_tlv_block_add] inserts a block whose tag is not yet in the context
    (marking it updated) and refuses a duplicate tag with [-QM_EINVAL],
    leaving the context alone; the invariant is kept in both cases. *)
Theorem add_refines c b : ctx_wf c -> block_wf b -> tag_ok b ->
  exists c', ctx_wf c' /\ ctx_arg c' = ctx_arg c
  /\ if decide (is_Some (ctx_map c !! blk_tag b))
     then qm_tlv_block_add (Some c) (Some b) = (- QM_EINVAL, Some c') /\ c' = c
     else qm_tlv_block_add (Some c) (Some b) = (QM_EOK, Some c')
          /\ ctx_map c' = <[blk_tag b := block_data b]> (ctx_map c)
          /\ count c' = count c + 1 /\ blocks c' = blocks c ++ [set_update true b].
Proof.
  intros Hc Hb Ht. rewrite add_eq. unfold tags. case_decide as Hd; unfold ctx_map in Hd; rewrite to_map_is_Some in Hd.
  - exists c. by rewrite bool_decide_true.
  - eexists. rewrite bool_decide_false by done. split; [by apply add_wf|]. split; [done|].
    split; [done|]. unfold ctx_map. simpl. rewrite to_map_app by done. done.
Qed.

(** [qm_tlv_block_remove] takes out exactly the block at the given
    address: the abstract map loses its tag and nothing else, and the count
    stays the number of blocks. *)
Theorem remove_refines c b : ctx_wf c -> NoDup (blk_addr <$> blocks c) -> b ∈ blocks c ->
  exists c', qm_tlv_block_remove (Some c) (Some (blk_addr b)) = (QM_EOK, Some c') /\ ctx_wf c'
  /\ ctx_map c' = delete (blk_tag b) (ctx_map c).
Proof.
  intros [Hc Ht Hb Hg] Ha Hin. unfold qm_tlv_block_remove.
  pose proof (unlink_spec (blocks c) (blk_addr b)) as Hu. destruct (unlink (blocks c) (blk_addr b)) as [bs|].
  2: { exfalso. apply Hu. apply list_elem_of_fmap. by exists b. }
  destruct Hu as (l & b0 & r & Hbs & -> & Hab & _). eexists. split; [done|].
  assert (b0 = b) as ->.
  { rewrite list_elem_of_lookup in Hin. destruct Hin as [i Hi].
    assert (blocks c !! length l = Some b0) as Hl by (rewrite Hbs; by apply list_lookup_middle).
    assert (i = length l) as ->; [|congruence].
    eapply (NoDup_lookup _ _ _ (blk_addr b) Ha); rewrite list_lookup_fmap; [by rewrite Hi|by rewrite Hl; simpl; rewrite Hab]. }
  unfold ctx_map, tags in *. rewrite Hbs in *. split; [|by apply to_map_remove]. constructor; simpl.
  - rewrite Hc, !length_app. simpl. lia.
  - unfold tags. simpl. rewrite fmap_app, fmap_cons in Ht. rewrite fmap_app.
    apply list.NoDup_app in Ht as (Hl & Hd & Hr). apply list.NoDup_cons in Hr as [_ Hr].
    apply list.NoDup_app. split_and!; [done| |done]. intros x Hx Hx'. apply (Hd x Hx). by right.
  - apply list.Forall_app in Hb as [Hb1 Hb2]. apply list.Forall_cons in Hb2 as [_ Hb2]. by apply list.Forall_app.
  - apply list.Forall_app in Hg as [Hg1 Hg2]. apply list.Forall_cons in Hg2 as [_ Hg2]. by apply list.Forall_app.
Qed.

(** When the configuration lets the search see whole tags,
    [qm_tlv_block_find] is the lookup of the abstract map: it returns the
    block holding the tag's value, and NULL exactly when the tag is absent. *)
Theorem find_refines c tag : find_exact -> ctx_wf c -> 0 <= tag <= tag_max ->
  (fun p => block_data (snd p)) <$> qm_tlv_block_find (Some c) tag = ctx_map c !! tag.
Proof.
  intros Hx Hwf Ht. unfold qm_tlv_block_find, ctx_map.
  pose proof (find_from_spec (blocks c) tag Hx Ht (cw_tagged _ Hwf)) as Hf.
  destruct (find_from (blocks c) tag 0) as [[i b]|]; simpl.
  - destruct Hf as [Hi <-]. rewrite to_map_lookup; [done|apply Hwf|by eapply list_elem_of_lookup_2].
  - by apply to_map_None in Hf.
Qed.

(** With two-byte tags and one-byte lengths [qm_tlv_block_find] compares
    with the low byte of the tag only: a block whose tag exceeds 255 is never
    found, and merging such a block into a context that already has its tag
    does not update the value. *)
Theorem find_truncates_tag c tag : tag_byte2 = true -> length_byte2 = false -> 255 < tag <= tag_max ->
  match qm_tlv_block_find (Some c) tag with Some (_, b) => blk_tag b <> tag | None => True end.
Proof.
  intros Ht Hl Hr. unfold qm_tlv_block_find. generalize 0%nat as i.
  induction (blocks c) as [|b bs IH]; intros i; simpl; [done|].
  unfold find_test. rewrite Hl. destruct (Z.eqb_spec (blk_tag b) (u8 tag)) as [He|Hne]; [|apply IH].
  rewrite He. pose proof (u8_range tag). widths. lia.
Qed.

(** [qm_tlv_merge] succeeds whenever memory suffices and leaves in the
    destination the union of both contexts, the source's value winning on
    common tags; the invariant of the destination is kept. *)
Theorem merge_refines `{!TlvHeapOk heap} dest src n : malloc_ok -> find_exact -> ctx_wf dest -> ctx_wf src ->
  Forall (fun b => 0 < blk_len b) (blocks src) ->
  exists dest' n', qm_tlv_merge (Some dest) (Some src) n = (QM_EOK, Some dest', n') /\ ctx_wf dest'
  /\ ctx_map dest' = ctx_map src ∪ ctx_map dest.
Proof.
  intros Hm Hx Hd [_ Ht Hb Hg] Hl. destruct (merge_loop_spec (blocks src) Hm Hx Hb Hg Hl Ht dest n Hd)
    as (d & n' & He & Hw & Hmap). exists d, n'. simpl. by rewrite He.
Qed.

(** [qm_tlv_divide] copies exactly the selected blocks, those with the
    update flag or those marked by [qm_tlv_block_divide]; a tag the
    destination already has keeps its value there. The source keeps all its
    blocks, with the divide marks consumed in the second mode. *)
Theorem divide_refines `{!TlvHeapOk heap} dest src ty n : malloc_ok -> ctx_wf dest -> ctx_wf src ->
  Forall (fun b => 0 < blk_len b) (blocks src) -> 0 <= ty < QM_TLV_DIVIDE_TYPE_MAX ->
  let sel := if ty =? QM_TLV_DIVIDE_TYPE_UPDATE then flag_update else flag_divide in
  exists dest' src' n', qm_tlv_divide (Some dest) (Some src) ty n = (QM_EOK, Some dest', Some src', n')
  /\ ctx_wf dest' /\ ctx_map dest' = ctx_map dest ∪ to_map (List.filter sel (blocks src))
  /\ blocks src' = (if ty =? QM_TLV_DIVIDE_TYPE_UPDATE then blocks src
                    else set_divide false <$> blocks src).
Proof.
  intros Hm Hd [_ Ht Hb Hg] Hl Hty sel. unfold qm_tlv_divide.
  rewrite Z.geb_leb. destruct (Z.leb_spec QM_TLV_DIVIDE_TYPE_MAX ty) as [|_]; [lia|].
  assert (ty = 0 \/ ty = 1) as Hcase by (unfold QM_TLV_DIVIDE_TYPE_MAX in Hty; lia).
  assert (forall b, exists b', divide_select ty b = (sel b, b') /\ blk_tag b' = blk_tag b
      /\ blk_len b' = blk_len b /\ value_raw b' = value_raw b /\ value_heap b' = value_heap b) as Hsel.
  { intros b. destruct Hcase as [-> | ->]; (eexists; split; [reflexivity|]; by split_and!). }
  destruct (divide_loop_spec ty sel Hm Hsel (blocks src) Hb Hg Hl dest n Hd) as (d & bs & n' & He & Hw & Hs & Hmap).
  rewrite He. eexists _, _, _. split_and!; try done. simpl. rewrite Hs. clear - Hcase.
  unfold sel, divide_select. destruct Hcase as [-> | ->]; simpl.
  - apply list_fmap_ext. intros i b _. destruct (flag_divide b) eqn:Hf; [done|]. destruct b; simpl in *. by rewrite Hf.
  - rewrite <- (list_fmap_id (blocks src)) at 2. apply list_fmap_ext. intros i b _. by destruct (flag_update b).
Qed.

End ctx.

(** ** Concrete contexts *)

Definition demo_dest : qm_tlv_ctx_t := mk_ctx 2 0 [demo_short; demo_long].
Definition demo_upd : qm_tlv_block_t := mk_block true false true 4 9 2 [8; 8; 0; 0] [] 0 400.
Definition demo_src : qm_tlv_ctx_t := mk_ctx 1 0 [demo_upd].

Lemma demo_upd_wf : block_wf (H := demo_cfg) demo_upd.
Proof. constructor; simpl; [done|repeat constructor; widths; lia|unfold len_max; simpl; lia|unfold BUF_SIZE; lia]. Defined.

Lemma demo_dest_wf : ctx_wf (H := demo_cfg) demo_dest.
Proof.
  constructor; simpl; [done|apply (bool_decide_unpack _); vm_compute; exact I| |].
  - constructor; [exact demo_short_wf|constructor; [exact demo_long_wf|constructor]].
  - repeat constructor; unfold tag_ok, tag_max; simpl; lia.
Defined.

Lemma demo_src_wf : ctx_wf (H := demo_cfg) demo_src.
Proof.
  constructor; simpl; [done|apply (bool_decide_unpack _); vm_compute; exact I| |].
  - constructor; [exact demo_upd_wf|constructor].
  - repeat constructor; unfold tag_ok, tag_max; simpl; lia.
Defined.

Lemma demo_find_exact : find_exact (H := demo_cfg).
Proof. discriminate. Defined.

Lemma add_refines_witness :
  exists c', ctx_wf (H := demo_cfg) c' /\ qm_tlv_block_add (Some demo_src) (Some demo_short) = (QM_EOK, Some c')
  /\ ctx_map c' = <[7 := [1; 2]]> (ctx_map demo_src).
Proof.
  destruct (add_refines (H := demo_cfg) demo_src demo_short demo_src_wf demo_short_wf) as (c' & Hw & _ & Hc).
  - unfold tag_ok, tag_max. simpl. lia.
  - exists c'. split; [done|]. destruct (decide _) as [Hd|Hd] in Hc; [exfalso; by destruct Hd|].
    destruct Hc as (He & Hm & _). by split.
Defined.

Lemma remove_refines_witness :
  exists c', qm_tlv_block_remove (Some demo_dest) (Some 100) = (QM_EOK, Some c')
  /\ ctx_map c' = delete 7 (ctx_map demo_dest).
Proof.
  destruct (remove_refines (H := demo_cfg) demo_dest demo_short demo_dest_wf) as (c' & He & _ & Hm).
  - apply (bool_decide_unpack _). vm_compute. exact I.
  - by left.
  - by exists c'.
Defined.

Lemma find_refines_witness :
  (fun p => block_data (snd p)) <$> qm_tlv_block_find (H := demo_cfg) (Some demo_dest) 9
    = Some [104; 101; 108; 108; 111; 33]
  /\ (fun p => block_data (snd p)) <$> qm_tlv_block_find (H := demo_cfg) (Some demo_dest) 5 = None.
Proof.
  split.
  - rewrite (find_refines (H := demo_cfg) demo_dest 9 demo_find_exact demo_dest_wf);
      [reflexivity|unfold tag_max; simpl; lia].
  - rewrite (find_refines (H := demo_cfg) demo_dest 5 demo_find_exact demo_dest_wf);
      [reflexivity|unfold tag_max; simpl; lia].
Defined.

(** Two-byte tags with one-byte lengths. *)
Definition wide_tag_cfg : TlvConfig := {|
  dttv_tag2 := true; dttv_len2 := false; tlv_tag2 := false; tlv_len2 := false;
  ttlv_tag2 := false; ttlv_len2 := false;
  dttv_support := true; tlv_support := true; ttlv_support := true; force_update := false;
  int16_support := true; int32_support := true; int64_support := false;
  float32_support := true; float64_support := false |}.

Lemma find_truncates_tag_witness :
  let c := mk_ctx 1 0 [mk_block true false false 4 300 1 [1; 0; 0; 0] [] 0 100] in
  qm_tlv_block_find (H := wide_tag_cfg) (Some c) 300 = None
  /\ match qm_tlv_block_find (H := wide_tag_cfg) (Some c) 300 with Some (_, b) => blk_tag b <> 300 | None => True end.
Proof.
  intros c. split; [reflexivity|].
  apply (find_truncates_tag (H := wide_tag_cfg) c 300); [reflexivity|reflexivity|unfold tag_max; simpl; lia].
Defined.

Lemma merge_refines_witness :
  exists dest' n', qm_tlv_merge (H := demo_cfg) (heap := demo_heap) (Some demo_dest) (Some demo_src) 0
    = (QM_EOK, Some dest', n')
  /\ ctx_map dest' !! 9 = Some [8; 8] /\ ctx_map dest' !! 7 = Some [1; 2].
Proof.
  destruct (merge_refines (H := demo_cfg) (heap := demo_heap) (TlvHeapOk0 := demo_heap_ok) demo_dest demo_src 0
    demo_malloc_ok demo_find_exact demo_dest_wf demo_src_wf) as (d & n & He & _ & Hm).
  - repeat constructor.
  - exists d, n. rewrite Hm. split; [exact He|]. by split; vm_compute.
Defined.

Lemma divide_refines_witness :
  exists dest' src' n', qm_tlv_divide (H := demo_cfg) (heap := demo_heap) (Some demo_src) (Some demo_dest) 1 0
    = (QM_EOK, Some dest', Some src', n')
  /\ ctx_map dest' !! 9 = Some [8; 8] /\ ctx_map dest' !! 7 = Some [1; 2].
Proof.
  destruct (divide_refines (H := demo_cfg) (heap := demo_heap) (TlvHeapOk0 := demo_heap_ok) demo_src demo_dest 1 0
    demo_malloc_ok demo_src_wf demo_dest_wf) as (d & s & n & He & _ & Hm & _).
  - repeat constructor.
  - unfold QM_TLV_DIVIDE_TYPE_MAX. lia.
  - exists d, s, n. rewrite Hm. split; [exact He|]. by split; vm_compute.
Defined.

End TlvCtx.
