(* ===== verification/TlvCodec.v ===== *)
(** * The TLV wire formats (utility/tlv/qm_tlv.c)

    Three byte formats for a context: DTTV (type, tag, value), TLV (tag,
    length, value) and TTLV (tag, type, value); in DTTV and TTLV a length
    field is present only for types without a fixed size.  The serialisers
    and parsers of the three formats share their loops and differ in the
    element header, which is the interface [WireFormat]; [WireFormatLaws] is
    what a header codec promises to the loops. *)

From S2P Require Import Prelude Outcome Endian TlvBlock TlvCtx.
Import TlvBlock TlvCtx.

Module TlvCodec.

(** [*(msg + index)] *)
Definition read_byte (msg : list Z) (index : Z) : outcome Z :=
  if index <? 0 then OutOfBounds
  else match msg !! Z.to_nat index with Some v => Ret v | None => OutOfBounds end.

(** memcpy(&tmp, msg + index, 2) followed by be16_to_cpu(tmp) *)
Definition read_be16 (msg : list Z) (index : Z) : outcome Z :=
  a ← read_byte msg index; b ← read_byte msg (index + 1); Ret (be16_to_cpu (load_le [a; b])).

(** memcpy(msg + index, bytes, ...) *)
Definition write_bytes (msg : list Z) (index : Z) (bytes : list Z) : outcome (list Z) :=
  if (index <? 0) || (Z.of_nat (length msg) <? index + Z.of_nat (length bytes)) then OutOfBounds
  else Ret (take (Z.to_nat index) msg ++ bytes ++ drop (Z.to_nat index + length bytes) msg).

(** ** Element headers *)

(** Outcome of reading a header: an error code, or the block with type, tag
    and length filled in together with the index behind the header. *)
Inductive header :=
| HeaderErr (code : Z)
| HeaderOk (b : qm_tlv_block_t) (index : Z).

(** A length check and a one- or two-byte big-endian field. *)
Definition read_field (two : bool) (msg : list Z) (len index : Z) : outcome (option (Z * Z)) :=
  if two then
    if len - index <? 2 then Ret None
    else v ← read_be16 msg index; Ret (Some (v, index + 2))
  else
    if len - index <? 1 then Ret None
    else v ← read_byte msg index; Ret (Some (v, index + 1)).

Definition emit_field (two : bool) (v : Z) : list Z :=
  if two then store_le 2 (cpu_to_be16 v) else [u8 v].

Definition field_size (two : bool) : Z := if two then 2 else 1.

Class WireFormat := {
  fmt_header : list Z -> Z -> Z -> qm_tlv_block_t -> outcome header;
  fmt_emit : qm_tlv_block_t -> list Z;
  fmt_block_len : qm_tlv_block_t -> Z
}.

Section formats.
Context `{TlvConfig}.

(** The length of a value whose type occupies [type_len] bytes: a field of the
    message when the type has no fixed size. *)
Definition read_length (len2 : bool) (type_len : Z) (msg : list Z) (len index : Z) (b : qm_tlv_block_t)
  : outcome header :=
  if type_len =? 0 then
    r ← read_field len2 msg len index;
    match r with
    | None => Ret (HeaderErr (- QM_EINVAL))
    | Some (l, index') => Ret (HeaderOk (set_len (trunc_len l) b) index')
    end
  else Ret (HeaderOk (set_len (trunc_len type_len) b) index).

Definition emit_length (len2 : bool) (b : qm_tlv_block_t) : list Z :=
  if qm_tlv_block_data_type_len (blk_type b) =? 0 then emit_field len2 (blk_len b) else [].

(** *** DTTV: type, tag, length unless the type has a fixed size *)

Definition dttv_header (msg : list Z) (len index : Z) (b : qm_tlv_block_t) : outcome header :=
  type ← read_byte msg index;
  let type_len := qm_tlv_block_data_type_len type in
  if type_len <? 0 then Ret (HeaderErr (- QM_EINVAL))
  else
    let b1 := set_type type b in
    r ← read_field dttv_tag2 msg len (index + 1);
    match r with
    | None => Ret (HeaderErr (- QM_EINVAL))
    | Some (tag, index2) =>
        let b2 := set_tag (trunc_tag tag) b1 in
        read_length dttv_len2 type_len msg len index2 b2
    end.

Definition dttv_emit (b : qm_tlv_block_t) : list Z :=
  [blk_type b] ++ emit_field dttv_tag2 (blk_tag b) ++ emit_length dttv_len2 b.

Definition dttv_block_len (b : qm_tlv_block_t) : Z :=
  let len := 1 + field_size dttv_tag2 in
  let type_len := qm_tlv_block_data_type_len (blk_type b) in
  if type_len >? 0 then len + type_len
  else if type_len =? 0 then len + field_size dttv_len2 + blk_len b
  else len.

(** *** TLV: tag, length *)

Definition tlv_header (msg : list Z) (len index : Z) (b : qm_tlv_block_t) : outcome header :=
  r ← read_field tlv_tag2 msg len index;
  match r with
  | None => Ret (HeaderErr (- QM_EINVAL))
  | Some (tag, index2) =>
      let b1 := set_tag (trunc_tag tag) b in
      r ← read_field tlv_len2 msg len index2;
      match r with
      | None => Ret (HeaderErr (- QM_EINVAL))
      | Some (l, index3) => Ret (HeaderOk (set_len (trunc_len l) b1) index3)
      end
  end.

Definition tlv_emit (b : qm_tlv_block_t) : list Z :=
  emit_field tlv_tag2 (blk_tag b) ++ emit_field tlv_len2 (blk_len b).

Definition tlv_block_len (b : qm_tlv_block_t) : Z :=
  field_size tlv_tag2 + field_size tlv_len2 + blk_len b.

(** *** TTLV: tag, type, length unless the type has a fixed size *)

(** The type byte is read without a length check. *)
Definition ttlv_header (msg : list Z) (len index : Z) (b : qm_tlv_block_t) : outcome header :=
  r ← read_field ttlv_tag2 msg len index;
  match r with
  | None => Ret (HeaderErr (- QM_EINVAL))
  | Some (tag, index2) =>
      let b1 := set_tag (trunc_tag tag) b in
      type ← read_byte msg index2;
      let type_len := qm_tlv_block_data_type_len type in
      if type_len <? 0 then Ret (HeaderErr (- QM_EINVAL))
      else
        let b2 := set_type type b1 in
        read_length ttlv_len2 type_len msg len (index2 + 1) b2
  end.

Definition ttlv_emit (b : qm_tlv_block_t) : list Z :=
  emit_field ttlv_tag2 (blk_tag b) ++ [blk_type b] ++ emit_length ttlv_len2 b.

(** Uses the widths of the block members, not those of the TTLV fields. *)
Definition ttlv_block_len (b : qm_tlv_block_t) : Z :=
  let len := field_size tag_byte2 + 1 in
  let type_len := qm_tlv_block_data_type_len (blk_type b) in
  if type_len >? 0 then len + type_len
  else if type_len =? 0 then len + field_size length_byte2 + blk_len b
  else len.

Definition dttv_format : WireFormat := {|
  fmt_header := dttv_header; fmt_emit := dttv_emit; fmt_block_len := dttv_block_len |}.
Definition tlv_format : WireFormat := {|
  fmt_header := tlv_header; fmt_emit := tlv_emit; fmt_block_len := tlv_block_len |}.
Definition ttlv_format : WireFormat := {|
  fmt_header := ttlv_header; fmt_emit := ttlv_emit; fmt_block_len := ttlv_block_len |}.

End formats.

(** ** The loops *)

Definition QM_TLV_SERIALIZE_TYPE_ALL : Z := 0.
Definition QM_TLV_SERIALIZE_TYPE_UPDATE : Z := 1.
Definition QM_TLV_SERIALIZE_TYPE_PARTIAL : Z := 2.

Section loops.
Context `{TlvConfig} {heap : TlvHeap} (fmt : WireFormat).

(** One round of the parsing loop: [inl] leaves the loop with a result code
    and the context, [inr] continues with the context and the next index. *)
Definition deserialize_element (ctx : qm_tlv_ctx_t) (msg : list Z) (len index : Z) (n : nat)
  : outcome (Z * qm_tlv_ctx_t * nat + qm_tlv_ctx_t * Z * nat) :=
  match qm_tlv_block_creat n with
  | (None, n1) => Ret (inl (- QM_ENOMEM, ctx, n1))
  | (Some b, n1) =>
      h ← fmt_header msg len index b;
      match h with
      | HeaderErr e => Ret (inl (e, ctx, n1))
      | HeaderOk b1 index1 =>
          if len - index1 <? blk_len b1 then Ret (inl (- QM_EINVAL, ctx, n1))
          else if Z.of_nat (length msg) <? index1 + blk_len b1 then OutOfBounds
          else
            let '(ret, b2, n2) := qm_tlv_pack_bytes (Some b1) (Some (drop (Z.to_nat index1) msg)) (blk_len b1) n1 in
            if negb (ret =? QM_EOK) then Ret (inl (ret, ctx, n2))
            else
              let '(ret, ctx') := qm_tlv_block_add (Some ctx) b2 in
              if negb (ret =? QM_EOK) then Ret (inl (ret, ctx, n2))
              else Ret (inr (default ctx ctx', index1 + blk_len (default b1 b2), n2))
      end
  end.

Fixpoint deserialize_loop (fuel : nat) (ctx : qm_tlv_ctx_t) (msg : list Z) (len index : Z) (n : nat)
  : outcome (Z * qm_tlv_ctx_t * nat) :=
  if negb (index <? len) then Ret (QM_EOK, ctx, n)
  else match fuel with
       | O => NoFuel
       | S fuel' =>
           r ← deserialize_element ctx msg len index n;
           match r with
           | inl res => Ret res
           | inr (ctx', index', n') => deserialize_loop fuel' ctx' msg len index' n'
           end
       end.

(** Every round consumes at least one byte: [len] rounds are enough. *)
Definition deserialize_with (tlv_ctx : option qm_tlv_ctx_t) (msg : option (list Z)) (len : Z) (n : nat)
  : outcome (Z * option qm_tlv_ctx_t * nat) :=
  match tlv_ctx, msg with
  | Some ctx, Some m =>
      if len =? 0 then Ret (- QM_EINVAL, tlv_ctx, n)
      else '(ret, ctx', n') ← deserialize_loop (Z.to_nat len) ctx m len 0 n; Ret (ret, Some ctx', n')
  | _, _ => Ret (- QM_EINVAL, tlv_ctx, n)
  end.

(** Does the mode emit this block, and which flag does emitting it clear? *)
Definition selected (ty : Z) (b : qm_tlv_block_t) : bool :=
  if ty =? QM_TLV_SERIALIZE_TYPE_PARTIAL then flag_serialization b
  else if ty =? QM_TLV_SERIALIZE_TYPE_UPDATE then flag_update b
  else true.

Definition clear_flag (ty : Z) (b : qm_tlv_block_t) : qm_tlv_block_t :=
  if ty =? QM_TLV_SERIALIZE_TYPE_PARTIAL then set_serialization false b
  else if ty =? QM_TLV_SERIALIZE_TYPE_UPDATE then set_update false b
  else b.

(** [msg = None] (NULL) only computes the size.  The result has the blocks
    with their flags, the buffer and the final index. *)
Fixpoint serialize_loop (bs : list qm_tlv_block_t) (msg : option (list Z)) (index offset ty : Z)
  : outcome (list qm_tlv_block_t * option (list Z) * Z) :=
  match bs with
  | [] => Ret ([], msg, index)
  | b :: rest =>
      if negb (selected ty b) then
        '(bs', msg', i') ← serialize_loop rest msg index offset ty; Ret (b :: bs', msg', i')
      else
        match msg with
        | None =>
            '(bs', msg', i') ← serialize_loop rest None
                (index + Z.of_nat (length (fmt_emit b)) + blk_len b) offset ty;
            Ret (b :: bs', msg', i')
        | Some m =>
            if offset - index <? fmt_block_len b then Ret (b :: rest, msg, index)
            else
              let b1 := clear_flag ty b in
              let hd := fmt_emit b1 in
              let index1 := index + Z.of_nat (length hd) in
              m1 ← write_bytes m index hd;
              let '(bytes, size, b2) := qm_tlv_unpack_bytes_direct b1 in
              m2 ← match bytes with
                   | None => Ret m1
                   | Some src => if Z.of_nat (length src) <? size then OutOfBounds
                                 else write_bytes m1 index1 (take (Z.to_nat size) src)
                   end;
              '(bs', msg', i') ← serialize_loop rest (Some m2) (index1 + blk_len b2) offset ty;
              Ret (b2 :: bs', msg', i')
        end
  end.

(** Result: code, context, buffer and [*len].  [*len] is read before [len] is
    compared with NULL. *)
Definition serialize_with (tlv_ctx : option qm_tlv_ctx_t) (msg : option (list Z)) (len : option Z) (ty : Z)
  : outcome (Z * option qm_tlv_ctx_t * option (list Z) * Z) :=
  match len with
  | None => OutOfBounds
  | Some offset =>
      match tlv_ctx with
      | None => Ret (- QM_EINVAL, None, msg, offset)
      | Some ctx =>
          '(bs, msg', index) ← serialize_loop (blocks ctx) msg 0 offset ty;
          Ret (QM_EOK, Some (mk_ctx (count ctx) (ctx_arg ctx) bs), msg', index)
      end
  end.

End loops.

(** ** The public functions *)

Definition QM_BLOCK_TYPE_TLV : Z := 0.
Definition QM_BLOCK_TYPE_DTTV : Z := 1.
Definition QM_BLOCK_TYPE_TTLV : Z := 2.

Section api.
Context `{TlvConfig} {heap : TlvHeap}.

Definition _qm_dttv_deserialize := deserialize_with dttv_format.
Definition _qm_tlv_deserialize := deserialize_with tlv_format.
Definition _qm_ttlv_deserialize := deserialize_with ttlv_format.
Definition _qm_dttv_serialize := serialize_with dttv_format.
Definition _qm_tlv_serialize := serialize_with tlv_format.
Definition _qm_ttlv_serialize := serialize_with ttlv_format.

Definition qm_tlv_deserialize (tlv_ctx : option qm_tlv_ctx_t) (msg : option (list Z)) (len block_type : Z) (n : nat)
  : outcome (Z * option qm_tlv_ctx_t * nat) :=
  if dttv_support && (block_type =? QM_BLOCK_TYPE_DTTV) then _qm_dttv_deserialize tlv_ctx msg len n
  else if tlv_support && (block_type =? QM_BLOCK_TYPE_TLV) then _qm_tlv_deserialize tlv_ctx msg len n
  else if ttlv_support && (block_type =? QM_BLOCK_TYPE_TTLV) then _qm_ttlv_deserialize tlv_ctx msg len n
  else Ret (- QM_EINVAL, tlv_ctx, n).

Definition qm_tlv_serialize (tlv_ctx : option qm_tlv_ctx_t) (msg : option (list Z)) (len : option Z)
  (block_type ty : Z) : outcome (Z * option qm_tlv_ctx_t * option (list Z) * option Z) :=
  let out (r : outcome (Z * option qm_tlv_ctx_t * option (list Z) * Z)) :=
    '(ret, c, m, l) ← r; Ret (ret, c, m, Some l) in
  if dttv_support && (block_type =? QM_BLOCK_TYPE_DTTV) then out (_qm_dttv_serialize tlv_ctx msg len ty)
  else if tlv_support && (block_type =? QM_BLOCK_TYPE_TLV) then out (_qm_tlv_serialize tlv_ctx msg len ty)
  else if ttlv_support && (block_type =? QM_BLOCK_TYPE_TTLV) then out (_qm_ttlv_serialize tlv_ctx msg len ty)
  else Ret (- QM_EINVAL, tlv_ctx, msg, len).

End api.

(** ** What a header codec promises *)

Definition field_bound (two : bool) : Z := if two then 2 ^ 16 else 2 ^ 8.

(** A freshly created block with a header filled in. *)
Definition parsed (type tag len addr : Z) : qm_tlv_block_t :=
  mk_block false false false type tag len [0; 0; 0; 0] [] 0 addr.

(** [ok]: the blocks a format can represent; [wtype]: the type it transmits. *)
Class WireFormatLaws `{TlvConfig} (fmt : WireFormat) (ok : qm_tlv_block_t -> Prop)
    (wtype : qm_tlv_block_t -> Z) : Prop := {
  law_emit_ext b b' : blk_type b' = blk_type b -> blk_tag b' = blk_tag b -> blk_len b' = blk_len b ->
    fmt_emit b' = fmt_emit b /\ fmt_block_len b' = fmt_block_len b;
  law_room b : ok b -> Z.of_nat (length (fmt_emit b)) + blk_len b <= fmt_block_len b;
  law_emit_byte b : ok b -> Forall is_u8 (fmt_emit b);
  law_emit_pos b : (0 < length (fmt_emit b))%nat;
  law_read b pre post addr len : ok b ->
    Z.of_nat (length pre + length (fmt_emit b)) <= len ->
    fmt_header (pre ++ fmt_emit b ++ post) len (Z.of_nat (length pre)) (parsed 0 0 0 addr)
    = Ret (HeaderOk (parsed (wtype b) (blk_tag b) (blk_len b) addr) (Z.of_nat (length pre + length (fmt_emit b))));
  law_shape msg len index addr : Forall is_u8 msg -> 0 <= index ->
    match fmt_header msg len index (parsed 0 0 0 addr) with
    | Ret (HeaderErr e) => e = - QM_EINVAL
    | Ret (HeaderOk b i) => exists ty tag l, b = parsed ty tag l addr /\ index < i
        /\ 0 <= tag <= tag_max /\ 0 <= l <= len_max
    | OutOfBounds => True
    | NoFuel => False
    end
}.

(** A format that never reads outside a message of the announced length. *)
Definition header_safe `{TlvConfig} (fmt : WireFormat) : Prop :=
  forall msg index b, 0 <= index < Z.of_nat (length msg) ->
  fmt_header msg (Z.of_nat (length msg)) index b <> OutOfBounds.

Section header_lemmas.
Context `{TlvConfig}.

Lemma read_byte_app pre v post index : index = Z.of_nat (length pre) -> read_byte (pre ++ v :: post) index = Ret v.
Proof.
  intros ->. unfold read_byte. destruct (Z.ltb_spec (Z.of_nat (length pre)) 0); [lia|].
  by rewrite Nat2Z.id, list_lookup_middle.
Qed.

Lemma read_byte_Some msg index : 0 <= index < Z.of_nat (length msg) -> exists v, read_byte msg index = Ret v.
Proof.
  intros Hi. unfold read_byte. destruct (Z.ltb_spec index 0); [lia|].
  destruct (lookup_lt_is_Some_2 msg (Z.to_nat index)) as [v Hv]; [lia|]. rewrite Hv. by exists v.
Qed.

Lemma read_byte_u8 msg index v : Forall is_u8 msg -> read_byte msg index = Ret v -> is_u8 v.
Proof.
  unfold read_byte. intros Hm Hr. destruct (index <? 0); [done|].
  destruct (msg !! Z.to_nat index) as [x|] eqn:Hx; [|done]. injection Hr as ->.
  by eapply Forall_lookup_1 in Hm; [|exact Hx].
Qed.

Lemma read_byte_fuel msg index : read_byte msg index <> NoFuel.
Proof. unfold read_byte. destruct (index <? 0); [done|]. by destruct (msg !! _). Qed.

Lemma emit_field_length two v : length (emit_field two v) = Z.to_nat (field_size two).
Proof. destruct two; [apply store_le_length|done]. Qed.

Lemma emit_field_bytes two v : Forall is_u8 (emit_field two v).
Proof. destruct two; [apply store_le_bytes|]. repeat constructor; apply u8_range. Qed.

Lemma read_field_app two pre v post index len : index = Z.of_nat (length pre) -> 0 <= v < field_bound two ->
  index + field_size two <= len ->
  read_field two (pre ++ emit_field two v ++ post) len index = Ret (Some (v, index + field_size two)).
Proof.
  unfold read_field, emit_field, field_bound, field_size. intros -> Hv Hl. destruct two.
  - destruct (Z.ltb_spec (len - Z.of_nat (length pre)) 2); [lia|].
    rewrite store_be16 by done. unfold read_be16. simpl.
    rewrite (read_byte_app pre _ _ (Z.of_nat (length pre))) by done. simpl.
    assert (pre ++ v / 256 :: v mod 256 :: post = (pre ++ [v / 256]) ++ v mod 256 :: post) as ->
      by (by rewrite <- app_assoc).
    rewrite read_byte_app by (rewrite length_app; simpl; lia). simpl.
    rewrite load_be16 by zsolve. rewrite Z.mul_comm, <- Z.div_mod by lia. done.
  - destruct (Z.ltb_spec (len - Z.of_nat (length pre)) 1); [lia|]. simpl.
    rewrite read_byte_app by done. simpl. by rewrite u8_id.
Qed.

Lemma read_field_at two msg pre v post index len : msg = pre ++ emit_field two v ++ post ->
  index = Z.of_nat (length pre) -> 0 <= v < field_bound two -> index + field_size two <= len ->
  read_field two msg len index = Ret (Some (v, index + field_size two)).
Proof. intros ->. apply read_field_app. Qed.

(** Whatever a field read gives is in range and moves the index. *)
Lemma read_field_shape two msg len index : Forall is_u8 msg ->
  match read_field two msg len index with
  | Ret None => len - index < field_size two
  | Ret (Some (v, i)) => i = index + field_size two /\ 0 <= v < field_bound two /\ i <= len
  | OutOfBounds => True
  | NoFuel => False
  end.
Proof.
  intros Hm. unfold read_field, read_be16, field_size, field_bound. destruct two.
  - destruct (Z.ltb_spec (len - index) 2); [done|].
    destruct (read_byte msg index) as [a| |] eqn:Ha; simpl; [|done|by apply read_byte_fuel in Ha].
    destruct (read_byte msg (index + 1)) as [b| |] eqn:Hb; simpl; [|done|by apply read_byte_fuel in Hb].
    apply read_byte_u8 in Ha, Hb; try done. rewrite load_be16 by done. widths. lia.
  - destruct (Z.ltb_spec (len - index) 1); [done|].
    destruct (read_byte msg index) as [a| |] eqn:Ha; simpl; [|done|by apply read_byte_fuel in Ha].
    apply read_byte_u8 in Ha; try done. widths. lia.
Qed.

Lemma read_field_safe two msg index : 0 <= index ->
  read_field two msg (Z.of_nat (length msg)) index <> OutOfBounds.
Proof.
  intros Hi. unfold read_field, read_be16. destruct two.
  - destruct (Z.ltb_spec (Z.of_nat (length msg) - index) 2); [done|].
    destruct (read_byte_Some msg index) as [a ->]; [lia|].
    by destruct (read_byte_Some msg (index + 1)) as [b ->]; [lia|].
  - destruct (Z.ltb_spec (Z.of_nat (length msg) - index) 1); [done|].
    by destruct (read_byte_Some msg index) as [a ->]; [lia|].
Qed.

Lemma trunc_tag_id (two : bool) v : (two = true -> tag_byte2 = true) -> 0 <= v < field_bound two ->
  trunc_tag v = v /\ 0 <= v <= tag_max.
Proof.
  unfold trunc_tag, tag_max, field_bound. intros Ht Hv. destruct two.
  - rewrite Ht by done. rewrite u16_id; [split; [done|lia]|done].
  - destruct tag_byte2; rewrite ?u16_id, ?u8_id; widths; lia.
Qed.

Lemma trunc_len_field (two : bool) v : (two = true -> length_byte2 = true) -> 0 <= v < field_bound two ->
  trunc_len v = v /\ 0 <= v <= len_max.
Proof.
  unfold trunc_len, len_max, field_bound. intros Ht Hv. destruct two.
  - rewrite Ht by done. rewrite u16_id; [split; [done|lia]|done].
  - destruct length_byte2; rewrite ?u16_id, ?u8_id; widths; lia.
Qed.

Lemma type_len_cases ty : let tl := qm_tlv_block_data_type_len ty in
  tl = -1 \/ tl = 0 \/ tl = 1 \/ tl = 2 \/ tl = 4 \/ tl = 8.
Proof. unfold qm_tlv_block_data_type_len. cbv zeta. repeat case_match; lia. Qed.

Lemma trunc_type_len ty : let tl := qm_tlv_block_data_type_len ty in 0 <= tl ->
  trunc_len tl = tl /\ 0 <= tl <= len_max.
Proof.
  intros tl Htl. apply (trunc_len_field false); [done|]. unfold field_bound.
  pose proof (type_len_cases ty) as Hc. cbv zeta in Hc. fold tl in Hc. clearbody tl. lia.
Qed.

Lemma dttv_tag_byte : dttv_tag2 = true -> tag_byte2 = true.
Proof. unfold tag_byte2. intros ->. by rewrite orb_true_r. Qed.
Lemma tlv_tag_byte : tlv_tag2 = true -> tag_byte2 = true.
Proof. unfold tag_byte2. by intros ->. Qed.
Lemma ttlv_tag_byte : ttlv_tag2 = true -> tag_byte2 = true.
Proof. unfold tag_byte2. intros ->. by rewrite orb_true_r. Qed.
Lemma dttv_len_byte : dttv_len2 = true -> length_byte2 = true.
Proof. unfold length_byte2. intros ->. by rewrite orb_true_r. Qed.
Lemma tlv_len_byte : tlv_len2 = true -> length_byte2 = true.
Proof. unfold length_byte2. by intros ->. Qed.
Lemma ttlv_len_byte : ttlv_len2 = true -> length_byte2 = true.
Proof. unfold length_byte2. intros ->. by rewrite orb_true_r. Qed.

End header_lemmas.

#[global] Hint Resolve dttv_tag_byte tlv_tag_byte ttlv_tag_byte dttv_len_byte tlv_len_byte ttlv_len_byte : qm.

(** ** The three formats satisfy the interface *)

Section instances.
Context `{TlvConfig}.

(** Types with a length field carry any length the field can hold, the others
    exactly the size of the type. *)
Definition typed_ok (tag2 len2 : bool) (b : qm_tlv_block_t) : Prop :=
  is_u8 (blk_type b) /\ 0 <= blk_tag b < field_bound tag2
  /\ let tl := qm_tlv_block_data_type_len (blk_type b) in
     0 <= tl /\ (if tl =? 0 then 0 <= blk_len b < field_bound len2 else blk_len b = tl).

Definition dttv_ok : qm_tlv_block_t -> Prop := typed_ok dttv_tag2 dttv_len2.
Definition ttlv_ok : qm_tlv_block_t -> Prop := typed_ok ttlv_tag2 ttlv_len2.
Definition tlv_ok (b : qm_tlv_block_t) : Prop :=
  0 <= blk_tag b < field_bound tlv_tag2 /\ 0 <= blk_len b < field_bound tlv_len2.

Lemma field_size_pos two : 1 <= field_size two <= 2.
Proof. destruct two; simpl; lia. Qed.

Lemma typed_len_cases tag2 len2 b : typed_ok tag2 len2 b ->
  (qm_tlv_block_data_type_len (blk_type b) = 0 /\ 0 <= blk_len b < field_bound len2)
  \/ (0 < qm_tlv_block_data_type_len (blk_type b) /\ blk_len b = qm_tlv_block_data_type_len (blk_type b)).
Proof.
  intros (_ & _ & Hp & Hl). cbv zeta in *. destruct (Z.eqb_spec (qm_tlv_block_data_type_len (blk_type b)) 0); [left|right]; lia.
Qed.

Lemma emit_length_bytes len2 b : Forall is_u8 (emit_length len2 b).
Proof. unfold emit_length. destruct (_ =? 0); [apply emit_field_bytes|constructor]. Qed.

(** The space a block needs behind its type and tag. *)
Lemma emit_length_room tag2 len2 b extra : typed_ok tag2 len2 b -> field_size len2 <= extra ->
  Z.of_nat (length (emit_length len2 b)) + blk_len b
  <= (let tl := qm_tlv_block_data_type_len (blk_type b) in
      if tl >? 0 then tl else if tl =? 0 then extra + blk_len b else 0).
Proof.
  intros Hok Hx. unfold emit_length. cbv zeta. pose proof (field_size_pos len2).
  destruct (typed_len_cases _ _ _ Hok) as [[-> Hl]|[Hp ->]]; simpl.
  - rewrite emit_field_length. lia.
  - destruct (Z.eqb_spec (qm_tlv_block_data_type_len (blk_type b)) 0); [lia|]. simpl.
    destruct (Z.gtb_spec (qm_tlv_block_data_type_len (blk_type b)) 0); lia.
Qed.

Lemma read_length_emit tag2 len2 b msg pre post len index b0 :
  (len2 = true -> length_byte2 = true) -> typed_ok tag2 len2 b ->
  msg = pre ++ emit_length len2 b ++ post -> index = Z.of_nat (length pre) ->
  index + Z.of_nat (length (emit_length len2 b)) <= len ->
  read_length len2 (qm_tlv_block_data_type_len (blk_type b)) msg len index b0
  = Ret (HeaderOk (set_len (blk_len b) b0) (index + Z.of_nat (length (emit_length len2 b)))).
Proof.
  intros Hb Hok -> -> Hlen. unfold read_length, emit_length in *. pose proof (field_size_pos len2).
  destruct (typed_len_cases _ _ _ Hok) as [[Htl Hl]|[Hp Htl]].
  - rewrite Htl in *. simpl in *. rewrite emit_field_length in *.
    rewrite (read_field_app _ pre (blk_len b)) by (try done; lia). simpl.
    destruct (trunc_len_field len2 (blk_len b) Hb Hl) as [-> _]. repeat f_equal. lia.
  - destruct (Z.eqb_spec (qm_tlv_block_data_type_len (blk_type b)) 0); [lia|]. simpl in *.
    destruct (trunc_type_len (blk_type b)) as [-> _]; [lia|]. rewrite Htl. repeat f_equal. lia.
Qed.

Lemma read_length_shape len2 ty msg len index ty' tag addr : (len2 = true -> length_byte2 = true) ->
  Forall is_u8 msg -> 0 <= qm_tlv_block_data_type_len ty ->
  match read_length len2 (qm_tlv_block_data_type_len ty) msg len index (parsed ty' tag 0 addr) with
  | Ret (HeaderErr e) => e = - QM_EINVAL
  | Ret (HeaderOk b i) => exists l, b = parsed ty' tag l addr /\ index <= i /\ 0 <= l <= len_max
  | OutOfBounds => True
  | NoFuel => False
  end.
Proof.
  intros Hb Hm Hp. unfold read_length. destruct (_ =? 0).
  - pose proof (read_field_shape len2 msg len index Hm) as Hr. pose proof (field_size_pos len2).
    destruct (read_field len2 msg len index) as [[[l i]|]| |]; simpl; [|done|done|done].
    destruct Hr as (-> & Hl & _). destruct (trunc_len_field len2 l Hb Hl) as [-> Hll].
    exists l. split; [done|]. lia.
  - destruct (trunc_type_len ty Hp) as [-> Hll]. eexists. split; [done|]. lia.
Qed.

Lemma read_length_safe len2 tl msg index b : 0 <= index ->
  read_length len2 tl msg (Z.of_nat (length msg)) index b <> OutOfBounds.
Proof.
  intros Hi. unfold read_length. destruct (tl =? 0); [|done].
  pose proof (read_field_safe len2 msg index Hi) as Hr.
  by destruct (read_field len2 msg (Z.of_nat (length msg)) index) as [[[l i]|]| |].
Qed.

#[global] Instance dttv_laws : WireFormatLaws dttv_format dttv_ok blk_type.
Proof.
  split; cbn [fmt_emit fmt_header fmt_block_len dttv_format].
  - intros b b' Ht Hg Hl. unfold dttv_emit, emit_length, dttv_block_len. by rewrite Ht, Hg, Hl.
  - intros b Hok. unfold dttv_emit, dttv_block_len. rewrite !length_app, emit_field_length. simpl.
    pose proof (field_size_pos dttv_tag2). pose proof (emit_length_room _ _ _ _ Hok (Z.le_refl _)) as Hr.
    cbv zeta in Hr. destruct (_ >? 0); [|destruct (_ =? 0)]; lia.
  - intros b (Hb & _). unfold dttv_emit. repeat apply Forall_app_2; [by constructor|apply emit_field_bytes|].
    apply emit_length_bytes.
  - intros b. unfold dttv_emit. simpl. lia.
  - intros b pre post addr len Hok Hlen. pose proof Hok as (Hty & Htag & Hp & _).
    pose proof (field_size_pos dttv_tag2).
    unfold dttv_header. unfold dttv_emit in *. rewrite !length_app, emit_field_length in *. simpl in Hlen |- *.
    rewrite (read_byte_app pre _ _ _ eq_refl). simpl.
    destruct (Z.ltb_spec (qm_tlv_block_data_type_len (blk_type b)) 0); [lia|].
    rewrite (read_field_at _ _ (pre ++ [blk_type b]) (blk_tag b) (emit_length dttv_len2 b ++ post));
      [|by rewrite <- !app_assoc|rewrite length_app; simpl; lia|done|lia]. simpl.
    destruct (trunc_tag_id dttv_tag2 (blk_tag b) dttv_tag_byte Htag) as [-> _].
    rewrite (read_length_emit dttv_tag2 _ b _ (pre ++ [blk_type b] ++ emit_field dttv_tag2 (blk_tag b)) post);
      [|exact dttv_len_byte|done|by rewrite <- !app_assoc|rewrite !length_app, emit_field_length; simpl; lia|lia].
    unfold parsed, set_len, set_tag, set_type. simpl. repeat f_equal. lia.
  - intros msg len index addr Hm Hi. unfold dttv_header.
    destruct (read_byte msg index) as [ty| |] eqn:Hty; simpl; [|done|by apply read_byte_fuel in Hty].
    destruct (Z.ltb_spec (qm_tlv_block_data_type_len ty) 0); [done|].
    pose proof (read_field_shape dttv_tag2 msg len (index + 1) Hm) as Hr. pose proof (field_size_pos dttv_tag2).
    destruct (read_field dttv_tag2 msg len (index + 1)) as [[[tag i]|]| |]; simpl; [|done|done|done].
    destruct Hr as (-> & Ht & _). destruct (trunc_tag_id dttv_tag2 tag dttv_tag_byte Ht) as [-> Htt].
    pose proof (read_length_shape dttv_len2 ty msg len (index + 1 + field_size dttv_tag2) ty tag addr dttv_len_byte Hm)
      as Hs. change (set_tag tag (set_type ty (parsed 0 0 0 addr))) with (parsed ty tag 0 addr).
    destruct (read_length _ _ _ _ _ _) as [[e|b i]| |]; [apply Hs; lia| |done|apply Hs; lia].
    destruct Hs as (l & -> & Hi' & Hl); [lia|]. exists ty, tag, l. split_and!; try done; lia.
Qed.

#[global] Instance ttlv_laws : WireFormatLaws ttlv_format ttlv_ok blk_type.
Proof.
  split; cbn [fmt_emit fmt_header fmt_block_len ttlv_format].
  - intros b b' Ht Hg Hl. unfold ttlv_emit, emit_length, ttlv_block_len. by rewrite Ht, Hg, Hl.
  - intros b Hok. unfold ttlv_emit, ttlv_block_len. rewrite !length_app, emit_field_length. simpl.
    pose proof (field_size_pos ttlv_tag2).
    assert (field_size ttlv_tag2 <= field_size tag_byte2) as Ht
      by (pose proof ttlv_tag_byte as Hb; destruct ttlv_tag2, tag_byte2; simpl; try lia; by specialize (Hb eq_refl)).
    assert (field_size ttlv_len2 <= field_size length_byte2) as Hl
      by (pose proof ttlv_len_byte as Hb; destruct ttlv_len2, length_byte2; simpl; try lia; by specialize (Hb eq_refl)).
    pose proof (emit_length_room _ _ _ _ Hok Hl) as Hr.
    cbv zeta in Hr. destruct (_ >? 0); [|destruct (_ =? 0)]; lia.
  - intros b (Hb & _). unfold ttlv_emit. repeat apply Forall_app_2; [apply emit_field_bytes|by constructor|].
    apply emit_length_bytes.
  - intros b. unfold ttlv_emit. rewrite !length_app. simpl. lia.
  - intros b pre post addr len Hok Hlen. pose proof Hok as (Hty & Htag & Hp & _).
    pose proof (field_size_pos ttlv_tag2).
    unfold ttlv_header. unfold ttlv_emit in *. rewrite !length_app, emit_field_length in *. simpl in Hlen |- *.
    rewrite (read_field_at _ _ pre (blk_tag b) ([blk_type b] ++ emit_length ttlv_len2 b ++ post));
      [|by rewrite <- !app_assoc|done|done|lia]. simpl.
    rewrite <- app_assoc. simpl. rewrite app_assoc.
    rewrite read_byte_app by (rewrite length_app, emit_field_length; lia). simpl.
    destruct (Z.ltb_spec (qm_tlv_block_data_type_len (blk_type b)) 0); [lia|].
    destruct (trunc_tag_id ttlv_tag2 (blk_tag b) ttlv_tag_byte Htag) as [-> _].
    rewrite (read_length_emit ttlv_tag2 _ b _ (pre ++ emit_field ttlv_tag2 (blk_tag b) ++ [blk_type b]) post);
      [|exact ttlv_len_byte|done|by rewrite <- !app_assoc|rewrite !length_app, emit_field_length; simpl; lia|lia].
    unfold parsed, set_len, set_tag, set_type. simpl. repeat f_equal. lia.
  - intros msg len index addr Hm Hi. unfold ttlv_header.
    pose proof (read_field_shape ttlv_tag2 msg len index Hm) as Hr. pose proof (field_size_pos ttlv_tag2).
    destruct (read_field ttlv_tag2 msg len index) as [[[tag i]|]| |]; simpl; [|done|done|done].
    destruct Hr as (-> & Ht & _). destruct (trunc_tag_id ttlv_tag2 tag ttlv_tag_byte Ht) as [-> Htt].
    destruct (read_byte msg (index + field_size ttlv_tag2)) as [ty| |] eqn:Hty; simpl;
      [|done|by apply read_byte_fuel in Hty].
    destruct (Z.ltb_spec (qm_tlv_block_data_type_len ty) 0); [done|].
    pose proof (read_length_shape ttlv_len2 ty msg len (index + field_size ttlv_tag2 + 1) ty tag addr ttlv_len_byte Hm)
      as Hs. change (set_type ty (set_tag tag (parsed 0 0 0 addr))) with (parsed ty tag 0 addr).
    destruct (read_length _ _ _ _ _ _) as [[e|b i]| |]; [apply Hs; lia| |done|apply Hs; lia].
    destruct Hs as (l & -> & Hi' & Hl); [lia|]. exists ty, tag, l. split_and!; try done; lia.
Qed.

#[global] Instance tlv_laws : WireFormatLaws tlv_format tlv_ok (fun _ => 0).
Proof.
  split; cbn [fmt_emit fmt_header fmt_block_len tlv_format].
  - intros b b' Ht Hg Hl. unfold tlv_emit, tlv_block_len. by rewrite Hg, Hl.
  - intros b [Ht Hl]. unfold tlv_emit, tlv_block_len. rewrite !length_app, !emit_field_length.
    pose proof (field_size_pos tlv_tag2). pose proof (field_size_pos tlv_len2). lia.
  - intros b _. unfold tlv_emit. apply Forall_app_2; apply emit_field_bytes.
  - intros b. unfold tlv_emit. rewrite length_app, emit_field_length. pose proof (field_size_pos tlv_tag2). lia.
  - intros b pre post addr len [Htag Hl] Hlen.
    pose proof (field_size_pos tlv_tag2). pose proof (field_size_pos tlv_len2).
    unfold tlv_header. unfold tlv_emit in *. rewrite !length_app, !emit_field_length in *.
    rewrite (read_field_at _ _ pre (blk_tag b) (emit_field tlv_len2 (blk_len b) ++ post));
      [|by rewrite <- !app_assoc|done|done|lia]. simpl.
    rewrite (read_field_at _ _ (pre ++ emit_field tlv_tag2 (blk_tag b)) (blk_len b) post);
      [|by rewrite <- !app_assoc|rewrite !length_app, emit_field_length; simpl; lia|done|lia]. simpl.
    destruct (trunc_tag_id tlv_tag2 (blk_tag b) tlv_tag_byte Htag) as [-> _].
    destruct (trunc_len_field tlv_len2 (blk_len b) tlv_len_byte Hl) as [-> _].
    unfold parsed, set_len, set_tag. simpl. repeat f_equal. lia.
  - intros msg len index addr Hm Hi. unfold tlv_header.
    pose proof (read_field_shape tlv_tag2 msg len index Hm) as Hr. pose proof (field_size_pos tlv_tag2).
    destruct (read_field tlv_tag2 msg len index) as [[[tag i]|]| |]; simpl; [|done|done|done].
    destruct Hr as (-> & Ht & _). destruct (trunc_tag_id tlv_tag2 tag tlv_tag_byte Ht) as [-> Htt].
    pose proof (read_field_shape tlv_len2 msg len (index + field_size tlv_tag2) Hm) as Hr. pose proof (field_size_pos tlv_len2).
    destruct (read_field tlv_len2 msg len _) as [[[l i]|]| |]; simpl; [|done|done|done].
    destruct Hr as (-> & Hl & _). destruct (trunc_len_field tlv_len2 l tlv_len_byte Hl) as [-> Hll].
    exists 0, tag, l. split_and!; try done; lia.
Qed.

Lemma dttv_safe : header_safe dttv_format.
Proof.
  intros msg index b Hi. cbn. unfold dttv_header. destruct (read_byte_Some msg index Hi) as [ty ->]. simpl.
  destruct (_ <? 0); [done|]. pose proof (read_field_safe dttv_tag2 msg (index + 1)) as Hr.
  destruct (read_field dttv_tag2 msg (Z.of_nat (length msg)) (index + 1)) as [[[tag i]|]| |] eqn:He; simpl; [|done| |done].
  - apply read_length_safe. unfold read_field in He. destruct dttv_tag2.
    all: destruct (_ <? _); [done|]. all: destruct (_ msg (index + 1)); simpl in He; [|done|done].
    all: injection He; lia.
  - exfalso. apply Hr; [lia|done].
Qed.

Lemma tlv_safe : header_safe tlv_format.
Proof.
  intros msg index b Hi. cbn. unfold tlv_header. pose proof (read_field_safe tlv_tag2 msg index) as Hr.
  destruct (read_field tlv_tag2 msg (Z.of_nat (length msg)) index) as [[[tag i]|]| |] eqn:He; simpl; [|done| |done].
  2: { exfalso. apply Hr; [lia|done]. }
  assert (0 <= i) as Hpos.
  { unfold read_field in He. destruct tlv_tag2.
    all: destruct (_ <? _); [done|]. all: destruct (_ msg index); simpl in He; [|done|done].
    all: injection He; lia. }
  pose proof (read_field_safe tlv_len2 msg i Hpos) as Hr2.
  by destruct (read_field tlv_len2 msg (Z.of_nat (length msg)) i) as [[[l i']|]| |].
Qed.

End instances.

(** ** The loops against the encoding of a list of blocks *)

Definition encode (fmt : WireFormat) (bs : list qm_tlv_block_t) : list Z :=
  concat ((fun b => fmt_emit b ++ block_data b) <$> bs).

(** A block after it has been written out. *)
Definition emitted (ty : Z) (b : qm_tlv_block_t) : qm_tlv_block_t :=
  if selected ty b then set_update false (clear_flag ty b) else b.

(** Type, tag and value. *)
Definition view (b : qm_tlv_block_t) : Z * Z * list Z := (blk_type b, blk_tag b, block_data b).

Section loop_lemmas.
#[local] Set Default Proof Using "All".
Context `{TlvConfig} (fmt : WireFormat) (ok : qm_tlv_block_t -> Prop)
  (wtype : qm_tlv_block_t -> Z) `{!WireFormatLaws fmt ok wtype}.

Lemma encoding_cons b bs : encode fmt (b :: bs) = fmt_emit b ++ block_data b ++ encode fmt bs.
Proof using Type. unfold encode. simpl. by rewrite app_assoc. Qed.

Lemma encoding_length_ge bs : (length bs <= length (encode fmt bs))%nat.
Proof.
  induction bs as [|b bs IH]; [done|]. rewrite encoding_cons, !length_app. pose proof (law_emit_pos b). simpl. lia.
Qed.

Lemma write_bytes_ok m index bytes : 0 <= index -> index + Z.of_nat (length bytes) <= Z.of_nat (length m) ->
  write_bytes m index bytes = Ret (take (Z.to_nat index) m ++ bytes ++ drop (Z.to_nat index + length bytes) m).
Proof using.
  intros Hi Hl. unfold write_bytes. destruct (Z.ltb_spec index 0); [lia|]. simpl.
  by destruct (Z.ltb_spec (Z.of_nat (length m)) (index + Z.of_nat (length bytes))); [lia|].
Qed.

(** Two adjacent writes are one. *)
Lemma splice_twice (m a b : list Z) (i : nat) : (i + length a + length b <= length m)%nat ->
  let m1 := take i m ++ a ++ drop (i + length a) m in
  take (i + length a) m1 ++ b ++ drop (i + length a + length b) m1
  = take i m ++ (a ++ b) ++ drop (i + length (a ++ b)) m.
Proof using.
  intros Hl. cbv zeta. rewrite (app_assoc (take i m) a (drop (i + length a) m)).
  assert (length (take i m ++ a) = i + length a)%nat as Hla by (rewrite length_app, length_take; lia).
  rewrite take_app_length' by done. rewrite (drop_app_ge _ _ (i + length a + length b)) by lia.
  rewrite Hla, drop_drop, length_app. rewrite <- !app_assoc. do 4 f_equal. lia.
Qed.

Lemma splice_length (m a : list Z) (i : nat) : (i + length a <= length m)%nat ->
  length (take i m ++ a ++ drop (i + length a) m) = length m.
Proof using. intros Hl. rewrite !length_app, length_take, length_drop. lia. Qed.

Lemma direct_wf b ty : block_wf b -> exists src,
  qm_tlv_unpack_bytes_direct (clear_flag ty b) = (Some src, blk_len b, set_update false (clear_flag ty b))
  /\ blk_len b <= Z.of_nat (length src) /\ take (Z.to_nat (blk_len b)) src = block_data b.
Proof using Type.
  intros Hw. unfold qm_tlv_unpack_bytes_direct.
  assert (direct_bytes (clear_flag ty b) = Some (value_mem b) /\ blk_len (clear_flag ty b) = blk_len b) as [-> ->].
  { rewrite <- (direct_bytes_wf b Hw). unfold clear_flag. destruct (_ =? _); [done|]. by destruct (_ =? _). }
  exists (value_mem b). split_and!; [done| |done].
  pose proof (block_data_length b Hw) as Hd. unfold block_data in Hd. rewrite length_take in Hd. lia.
Qed.

Lemma clear_flag_header ty b : blk_type (clear_flag ty b) = blk_type b /\ blk_tag (clear_flag ty b) = blk_tag b
  /\ blk_len (clear_flag ty b) = blk_len b.
Proof using. unfold clear_flag. destruct (_ =? _); [done|]. by destruct (_ =? _). Qed.

(** Writing one block. *)
Lemma serialize_step b rest m index offset ty : ok b -> block_wf b -> selected ty b = true ->
  0 <= index -> offset <= Z.of_nat (length m) -> fmt_block_len b <= offset - index ->
  let out := fmt_emit b ++ block_data b in
  let index' := index + Z.of_nat (length out) in
  let m' := take (Z.to_nat index) m ++ out ++ drop (Z.to_nat index + length out) m in
  index' <= offset /\ length m' = length m
  /\ serialize_loop fmt (b :: rest) (Some m) index offset ty
     = ('(bs', msg', i') ← serialize_loop fmt rest (Some m') index' offset ty; Ret (emitted ty b :: bs', msg', i')).
Proof.
  intros Hok Hw Hsel Hi Ho Hfit out index' m'.
  pose proof (law_room b Hok) as Hroom. pose proof (block_data_length b Hw) as Hdl.
  assert (Z.of_nat (length out) = Z.of_nat (length (fmt_emit b)) + blk_len b) as Hol
    by (unfold out; rewrite length_app; lia).
  split; [lia|]. split; [apply splice_length; lia|].
  cbn [serialize_loop]. rewrite Hsel. cbn [negb].
  destruct (Z.ltb_spec (offset - index) (fmt_block_len b)); [lia|].
  destruct (clear_flag_header ty b) as (Ht & Hg & Hl). destruct (law_emit_ext b _ Ht Hg Hl) as [-> _].
  rewrite write_bytes_ok by lia. cbn [mbind outcome_bind].
  destruct (direct_wf b ty Hw) as (src & -> & Hsl & Hsd).
  destruct (Z.ltb_spec (Z.of_nat (length src)) (blk_len b)); [lia|]. rewrite Hsd.
  assert (Z.to_nat (index + Z.of_nat (length (fmt_emit b))) = Z.to_nat index + length (fmt_emit b))%nat as Hn by lia.
  rewrite write_bytes_ok; [|lia|rewrite splice_length; lia]. rewrite Hn. cbn [mbind outcome_bind].
  rewrite splice_twice by lia. fold out. fold m'.
  assert (index + Z.of_nat (length (fmt_emit b)) + blk_len (set_update false (clear_flag ty b)) = index') as ->
    by (simpl; unfold index'; lia).
  unfold emitted. by rewrite Hsel.
Qed.

Lemma serialize_loop_spec bs ty offset : Forall ok bs -> Forall block_wf bs ->
  forall m index, 0 <= index -> offset <= Z.of_nat (length m) ->
  exists l r, bs = l ++ r /\
  let out := encode fmt (List.filter (selected ty) l) in
  let index' := index + Z.of_nat (length out) in
  serialize_loop fmt bs (Some m) index offset ty
  = Ret ((emitted ty <$> l) ++ r,
         Some (take (Z.to_nat index) m ++ out ++ drop (Z.to_nat index + length out) m), index')
  /\ index' <= Z.max index offset
  /\ match r with [] => True | b :: _ => selected ty b = true /\ offset - index' < fmt_block_len b end.
Proof.
  induction bs as [|b bs IH]; intros Hok Hw m index Hi Ho.
  - exists [], []. split; [done|]. cbn. rewrite Nat.add_0_r, take_drop, Z.add_0_r. split; [done|]. split; [lia|done].
  - apply list.Forall_cons in Hok as [Hok1 Hok], Hw as [Hw1 Hw]. specialize (IH Hok Hw).
    destruct (selected ty b) eqn:Hsel.
    + destruct (Z.ltb_spec (offset - index) (fmt_block_len b)) as [Hno|Hfit].
      * exists [], (b :: bs). split; [done|]. cbn [serialize_loop]. rewrite Hsel. simpl.
        destruct (Z.ltb_spec (offset - index) (fmt_block_len b)); [|lia].
        rewrite Nat.add_0_r, take_drop, Z.add_0_r. split; [done|]. split; [lia|done].
      * destruct (serialize_step b bs m index offset ty Hok1 Hw1 Hsel Hi Ho Hfit) as (Hb & Hlm & ->).
        set (out1 := fmt_emit b ++ block_data b) in *.
        destruct (IH (take (Z.to_nat index) m ++ out1 ++ drop (Z.to_nat index + length out1) m)
                    (index + Z.of_nat (length out1))) as (l & r & -> & He & Hmax & Hr); [lia|lia|].
        exists (b :: l), r. split; [done|]. cbv zeta in He |- *. rewrite He. cbn [mbind outcome_bind List.filter].
        rewrite Hsel, encoding_cons, (app_assoc (fmt_emit b) (block_data b)). fold out1.
        set (out2 := encode fmt (List.filter (selected ty) l)) in *.
        assert (Z.to_nat (index + Z.of_nat (length out1)) = Z.to_nat index + length out1)%nat as -> by lia.
        assert (index + Z.of_nat (length out1) + Z.of_nat (length out2) = index + Z.of_nat (length (out1 ++ out2))) as Hs
          by (rewrite length_app; lia).
        rewrite splice_twice by lia. rewrite Hs in *. split; [done|]. split; [lia|done].
    + destruct (IH m index Hi Ho) as (l & r & -> & He & Hmax & Hr). exists (b :: l), r. split; [done|].
      cbn [serialize_loop app List.filter]. rewrite Hsel. cbn [negb]. rewrite He. cbn [mbind outcome_bind].
      split; [|by split]. unfold emitted at 2. simpl. by rewrite Hsel.
Qed.

(** The size query. *)
Lemma serialize_loop_null bs ty offset : Forall block_wf bs -> forall index,
  serialize_loop fmt bs None index offset ty
  = Ret (bs, None, index + Z.of_nat (length (encode fmt (List.filter (selected ty) bs)))).
Proof.
  induction 1 as [|b bs Hb Hbs IH]; intros index; simpl; [by rewrite Z.add_0_r|].
  destruct (selected ty b); simpl; rewrite IH; simpl; [|done].
  do 2 f_equal. rewrite encoding_cons, !length_app. pose proof (block_data_length b Hb). lia.
Qed.

End loop_lemmas.

Section parse_lemmas.
#[local] Set Default Proof Using "All".
Context `{TlvConfig} {heap : TlvHeap} `{!TlvHeapOk heap} (fmt : WireFormat) (ok : qm_tlv_block_t -> Prop)
  (wtype : qm_tlv_block_t -> Z) `{!WireFormatLaws fmt ok wtype}.

(** Packing either succeeds or reports the failed allocation. *)
Lemma pack_bytes_total b src size n : 0 < size <= len_max -> size <= Z.of_nat (length src) -> Forall is_u8 src ->
  (exists b' n', qm_tlv_pack_bytes (Some b) (Some src) size n = (QM_EOK, Some b', n')
     /\ block_wf b' /\ block_data b' = take (Z.to_nat size) src /\ same_header b b')
  \/ (exists b' n', qm_tlv_pack_bytes (Some b) (Some src) size n = (- QM_ENOMEM, Some b', n')).
Proof.
  intros Hs Hl Hb. destruct (malloc n) as [a|] eqn:Ha.
  - left. apply pack_bytes_spec; [done|done|done|]. right. by rewrite Ha.
  - destruct (Z.leb_spec size BUF_SIZE) as [Hc|Hc].
    + left. apply pack_bytes_spec; [done|done|done|by left].
    + right. unfold qm_tlv_pack_bytes. destruct (Z.eqb_spec size 0); [lia|].
      destruct (Z.leb_spec size BUF_SIZE); [lia|]. rewrite Ha. by eexists _, _.
Qed.

(** Any element: either the context is left alone and a documented code is
    returned, or one well-formed block is appended and the index moves on. *)
Lemma element_shape ctx msg len index n : Forall is_u8 msg -> 0 <= index -> ctx_wf ctx ->
  match deserialize_element fmt ctx msg len index n with
  | Ret (inl (ret, ctx', _)) => ctx' = ctx /\ (ret = - QM_EINVAL \/ ret = - QM_ENOMEM)
  | Ret (inr (ctx', index', _)) => index < index' /\ ctx_wf ctx'
      /\ (exists b, blocks ctx' = blocks ctx ++ [b] /\ flag_update b = true)
  | OutOfBounds => True
  | NoFuel => False
  end.
Proof.
  intros Hm Hi Hwf. unfold deserialize_element, qm_tlv_block_creat.
  destruct (malloc n) as [a|] eqn:Ha; [|by split; [|right]].
  change (mk_block false false false 0 0 0 [0; 0; 0; 0] [] 0 a) with (parsed 0 0 0 a).
  pose proof (law_shape msg len index a Hm Hi) as Hs.
  destruct (fmt_header msg len index (parsed 0 0 0 a)) as [[e|b i]| |]; cbn [mbind outcome_bind];
    [by split; [|left]| |done|done].
  destruct Hs as (ty & tag & l & -> & Hlt & Htag & Hlen). cbn [blk_len parsed].
  destruct (Z.ltb_spec (len - i) l); [by split; [|left]|].
  destruct (Z.ltb_spec (Z.of_nat (length msg)) (i + l)); [done|].
  destruct (Z.eqb_spec l 0) as [->|Hl0]; [by split; [|left]|].
  destruct (pack_bytes_total (parsed ty tag l a) (drop (Z.to_nat i) msg) l (S n))
    as [(b' & n' & -> & Hw & Hd & Hh)|(b' & n' & ->)]; [lia|rewrite length_drop; lia|by apply Forall_drop| |by split; [|right]].
  cbn [Z.eqb negb]. rewrite add_eq. case_bool_decide as Hin; [by split; [|left]|]. cbn.
  destruct Hh as (Hty & Htg & _). simpl in Htg. split; [destruct Hw; lia|]. split.
  - apply add_wf; try done. unfold tag_ok. by rewrite Htg.
  - by eexists.
Qed.

Lemma deserialize_loop_total fuel ctx msg len index n : Forall is_u8 msg -> 0 <= index -> ctx_wf ctx ->
  (Z.to_nat (len - index) <= fuel)%nat ->
  match deserialize_loop fmt fuel ctx msg len index n with
  | Ret (ret, ctx', _) => ctx_wf ctx' /\ (ret = QM_EOK \/ ret = - QM_EINVAL \/ ret = - QM_ENOMEM)
      /\ exists bs, blocks ctx' = blocks ctx ++ bs /\ Forall (fun b => flag_update b = true) bs
  | OutOfBounds => True
  | NoFuel => False
  end.
Proof.
  revert ctx index n. induction fuel as [|fuel IH]; intros ctx index n Hm Hi Hwf Hf; cbn [deserialize_loop].
  - destruct (Z.ltb_spec index len); [lia|]. cbn. split; [done|]. split; [by left|].
    exists []. by rewrite app_nil_r.
  - destruct (Z.ltb_spec index len); cbn [negb].
    2: { split; [done|]. split; [by left|]. exists []. by rewrite app_nil_r. }
    pose proof (element_shape ctx msg len index n Hm Hi Hwf) as He.
    destruct (deserialize_element fmt ctx msg len index n) as [[[[ret c'] n']|[[c' i'] n']]| |];
      cbn [mbind outcome_bind]; [| |done|done].
    + destruct He as [-> Hr]. split; [done|]. split; [tauto|]. exists []. by rewrite app_nil_r.
    + destruct He as (Hlt & Hwf' & b & Hb & Hu). specialize (IH c' i' n' Hm).
      destruct (deserialize_loop fmt fuel c' msg len i' n') as [[[ret c2] n2]| |]; [|done|by apply IH; [lia|done|lia]].
      destruct IH as (Hw2 & Hr & bs & Hbs & Hus); [lia|done|lia|]. split; [done|]. split; [done|].
      exists (b :: bs). split; [by rewrite Hbs, Hb, <- app_assoc|by constructor].
Qed.

(** A safe header format keeps the whole loop inside the message. *)
Lemma deserialize_loop_safe fuel ctx msg index n : header_safe fmt -> Forall is_u8 msg -> 0 <= index -> ctx_wf ctx ->
  deserialize_loop fmt fuel ctx msg (Z.of_nat (length msg)) index n <> OutOfBounds.
Proof.
  intros Hsafe Hm. revert ctx index n. induction fuel as [|fuel IH]; intros ctx index n Hi Hwf; cbn [deserialize_loop].
  - by destruct (Z.ltb_spec index (Z.of_nat (length msg))).
  - destruct (Z.ltb_spec index (Z.of_nat (length msg))); [|done]. cbn [negb].
    pose proof (element_shape ctx msg (Z.of_nat (length msg)) index n Hm Hi Hwf) as He.
    assert (deserialize_element fmt ctx msg (Z.of_nat (length msg)) index n <> OutOfBounds) as Hne.
    { unfold deserialize_element. destruct (qm_tlv_block_creat n) as [[b|] n1]; [|done].
      pose proof (Hsafe msg index b) as Hh.
      destruct (fmt_header msg _ index b) as [[e|b1 i1]| |]; cbn [mbind outcome_bind]; [done| |intros _; apply Hh; [lia|done]|done].
      destruct (Z.ltb_spec (Z.of_nat (length msg) - i1) (blk_len b1)); [done|].
      destruct (Z.ltb_spec (Z.of_nat (length msg)) (i1 + blk_len b1)); [lia|].
      destruct (qm_tlv_pack_bytes _ _ _ _) as [[ret b2] n2]. destruct (negb (ret =? QM_EOK)); [done|].
      destruct (qm_tlv_block_add _ _) as [ret2 c2]. by destruct (negb (ret2 =? QM_EOK)). }
    destruct (deserialize_element fmt ctx msg _ index n) as [[[[ret c'] n']|[[c' i'] n']]| |];
      cbn [mbind outcome_bind]; [done| |done|done].
    destruct He as (Hlt & Hwf' & _). apply IH; [lia|done].
Qed.

(** Parsing what the serialiser wrote. *)
Lemma element_roundtrip ctx pre post b n : malloc_ok -> ok b -> block_wf b -> 0 < blk_len b -> ctx_wf ctx ->
  tag_ok b -> blk_tag b ∉ tags ctx -> Forall is_u8 (pre ++ fmt_emit b ++ block_data b ++ post) ->
  exists b' n' ctx', deserialize_element fmt ctx (pre ++ fmt_emit b ++ block_data b ++ post)
    (Z.of_nat (length (pre ++ fmt_emit b ++ block_data b ++ post))) (Z.of_nat (length pre)) n
  = Ret (inr (ctx', Z.of_nat (length (pre ++ fmt_emit b ++ block_data b)), n'))
  /\ ctx_wf ctx' /\ ctx_arg ctx' = ctx_arg ctx /\ blocks ctx' = blocks ctx ++ [b'] /\ flag_update b' = true
  /\ view b' = (wtype b, blk_tag b, block_data b).
Proof.
  intros Hm Hok Hw Hl Hwf Htag Hn Hbytes. unfold deserialize_element, qm_tlv_block_creat.
  destruct (Hm n) as [a Ha]. rewrite Ha.
  change (mk_block false false false 0 0 0 [0; 0; 0; 0] [] 0 a) with (parsed 0 0 0 a).
  pose proof (block_data_length b Hw) as Hdl.
  rewrite (law_read b pre (block_data b ++ post) a) by (try done; rewrite !length_app; lia).
  cbn [mbind outcome_bind blk_len parsed]. rewrite !length_app.
  destruct (Z.ltb_spec (Z.of_nat (length pre + (length (fmt_emit b) + (length (block_data b) + length post)))
     - Z.of_nat (length pre + length (fmt_emit b))) (blk_len b)); [lia|].
  destruct (Z.ltb_spec (Z.of_nat (length pre + (length (fmt_emit b) + (length (block_data b) + length post))))
     (Z.of_nat (length pre + length (fmt_emit b)) + blk_len b)); [lia|].
  rewrite Nat2Z.id, (app_assoc pre), drop_app_length' by (by rewrite length_app).
  assert (Forall is_u8 (block_data b ++ post)) as Hdb
    by (apply list.Forall_app in Hbytes as [_ Hb]; by apply list.Forall_app in Hb as [_ Hb]).
  destruct (pack_bytes_spec (parsed (wtype b) (blk_tag b) (blk_len b) a) (block_data b ++ post) (blk_len b) (S n))
    as (b' & n' & -> & Hw' & Hd & Hh); [pose proof (wf_len _ Hw); lia|rewrite length_app; lia|done|by right; apply Hm|].
  destruct Hh as (Hty & Htg & _). simpl in Hty, Htg. cbn [Z.eqb negb QM_EOK].
  rewrite add_eq, bool_decide_false by (by rewrite Htg). cbn.
  assert (block_data b' = block_data b) as Hdd.
  { rewrite Hd. rewrite <- (Nat2Z.id (length (block_data b))) in Hdl. apply take_app_length'. lia. }
  eexists (set_update true b'), n', _. split.
  - do 3 f_equal. pose proof (block_data_length b' Hw') as Hl'. rewrite Hdd in Hl'. f_equal. lia.
  - split; [apply add_wf; try done; [unfold tag_ok; by rewrite Htg|by rewrite Htg]|].
    split_and!; try done. unfold view. simpl. change (block_data (set_update true b')) with (block_data b').
    by rewrite Hty, Htg, Hdd.
Qed.

Lemma encode_bytes bs : Forall ok bs -> Forall block_wf bs -> Forall is_u8 (encode fmt bs).
Proof.
  induction 1 as [|b bs Hb Hbs IH]; intros Hw; [constructor|].
  apply list.Forall_cons in Hw as [Hw1 Hw]. rewrite encoding_cons.
  apply list.Forall_app. split; [by apply law_emit_byte|]. apply list.Forall_app.
  split; [by apply block_data_bytes|by apply IH].
Qed.

Lemma deserialize_loop_roundtrip bs : malloc_ok -> Forall ok bs -> Forall block_wf bs -> Forall tag_ok bs ->
  Forall (fun b => 0 < blk_len b) bs ->
  forall fuel ctx pre n, (length bs <= fuel)%nat -> ctx_wf ctx -> Forall is_u8 pre ->
  NoDup (blk_tag <$> blocks ctx ++ bs) ->
  exists bs' ctx' n', deserialize_loop fmt fuel ctx (pre ++ encode fmt bs)
      (Z.of_nat (length (pre ++ encode fmt bs))) (Z.of_nat (length pre)) n = Ret (QM_EOK, ctx', n')
  /\ ctx_wf ctx' /\ ctx_arg ctx' = ctx_arg ctx /\ blocks ctx' = blocks ctx ++ bs'
  /\ view <$> bs' = (fun b => (wtype b, blk_tag b, block_data b)) <$> bs.
Proof.
  intros Hm. induction bs as [|b bs IH]; intros Hok Hw Ht Hl fuel ctx pre n Hf Hwf Hpre Hnd.
  - exists [], ctx, n. unfold encode. simpl. rewrite !app_nil_r.
    destruct fuel; cbn [deserialize_loop]; rewrite Z.ltb_irrefl; done.
  - apply list.Forall_cons in Hok as [Hok1 Hok], Hw as [Hw1 Hw], Ht as [Ht1 Ht], Hl as [Hl1 Hl].
    pose proof (encode_bytes bs Hok Hw) as Henc.
    destruct fuel as [|fuel]; [simpl in Hf; lia|]. rewrite encoding_cons. cbn [deserialize_loop].
    pose proof (law_emit_pos b) as Hpos.
    match goal with |- context [?x <? ?y] => destruct (Z.ltb_spec x y) end; [|rewrite !length_app in *; lia]. cbn [negb].
    assert (Forall is_u8 (pre ++ fmt_emit b ++ block_data b)) as Hpre'.
    { apply list.Forall_app. split; [done|]. apply list.Forall_app. split; [by apply law_emit_byte|by apply block_data_bytes]. }
    assert (blk_tag b ∉ tags ctx) as Hnt.
    { rewrite fmap_app in Hnd. apply list.NoDup_app in Hnd as (_ & Hd & _). intros Hin. apply (Hd _ Hin). by left. }
    destruct (element_roundtrip ctx pre (encode fmt bs) b n Hm Hok1 Hw1 Hl1 Hwf Ht1 Hnt)
      as (b' & n' & ctx' & He & Hwf' & Harg & Hbl & _ & Hv).
    { replace (pre ++ fmt_emit b ++ block_data b ++ encode fmt bs)
        with ((pre ++ fmt_emit b ++ block_data b) ++ encode fmt bs) by (by rewrite <- !app_assoc).
      by apply list.Forall_app. }
    rewrite He. cbn [mbind outcome_bind].
    replace (pre ++ fmt_emit b ++ block_data b ++ encode fmt bs)
      with ((pre ++ fmt_emit b ++ block_data b) ++ encode fmt bs) by (by rewrite <- !app_assoc).
    destruct (IH Hok Hw Ht Hl fuel ctx' (pre ++ fmt_emit b ++ block_data b) n')
      as (bs' & ctx2 & n2 & He2 & Hwf2 & Harg2 & Hbl2 & Hv2); [simpl in Hf; lia|done|done| |].
    { rewrite Hbl, <- app_assoc. injection Hv as _ Htg _. rewrite fmap_app in Hnd |- *. simpl. by rewrite Htg. }
    exists (b' :: bs'), ctx2, n2. split; [exact He2|]. split_and!; [done|congruence|by rewrite Hbl2, Hbl, <- app_assoc|].
    rewrite !fmap_cons, Hv, Hv2. done.
Qed.

End parse_lemmas.

(** ** Theorems about the public functions *)

Section theorems.
#[local] Set Default Proof Using "All".
Context `{TlvConfig} {heap : TlvHeap} `{!TlvHeapOk heap}.

(** The format a block type selects in this configuration, with the blocks it
    can represent and the type it transmits. *)
Inductive supported : Z -> WireFormat -> (qm_tlv_block_t -> Prop) -> (qm_tlv_block_t -> Z) -> Prop :=
| sup_dttv : dttv_support = true -> supported QM_BLOCK_TYPE_DTTV dttv_format dttv_ok blk_type
| sup_tlv : tlv_support = true -> supported QM_BLOCK_TYPE_TLV tlv_format tlv_ok (fun _ => 0)
| sup_ttlv : ttlv_support = true -> supported QM_BLOCK_TYPE_TTLV ttlv_format ttlv_ok blk_type.

Lemma supported_laws bt fmt ok wtype : supported bt fmt ok wtype -> WireFormatLaws fmt ok wtype.
Proof. destruct 1; apply _. Qed.

Lemma serialize_dispatch bt fmt ok wtype c m l ty : supported bt fmt ok wtype ->
  qm_tlv_serialize c m l bt ty = ('(ret, c, m, l) ← serialize_with fmt c m l ty; Ret (ret, c, m, Some l)).
Proof. unfold qm_tlv_serialize. destruct 1 as [->| -> | ->]; simpl; rewrite ?andb_false_r; done. Qed.

Lemma deserialize_dispatch bt fmt ok wtype c m l n : supported bt fmt ok wtype ->
  qm_tlv_deserialize c m l bt n = deserialize_with fmt c m l n.
Proof. unfold qm_tlv_deserialize. destruct 1 as [->| -> | ->]; simpl; rewrite ?andb_false_r; done. Qed.

(** The space the serialiser asks for, block by block. *)
Definition room (fmt : WireFormat) (bs : list qm_tlv_block_t) : Z := foldr (fun b k => fmt_block_len b + k) 0 bs.

Lemma room_app fmt l r : room fmt (l ++ r) = room fmt l + room fmt r.
Proof. induction l as [|b l IH]; simpl; [done|]. rewrite IH. lia. Qed.

Lemma encode_room fmt ok wtype bs : WireFormatLaws fmt ok wtype -> Forall ok bs -> Forall block_wf bs ->
  Z.of_nat (length (encode fmt bs)) <= room fmt bs.
Proof.
  intros HL. induction 1 as [|b bs Hb Hbs IH]; intros Hw; [done|]. apply list.Forall_cons in Hw as [Hw1 Hw].
  rewrite encoding_cons, !length_app. simpl. pose proof (law_room b Hb).
  pose proof (block_data_length b Hw1). specialize (IH Hw). lia.
Qed.

Lemma room_nonneg fmt ok wtype bs : WireFormatLaws fmt ok wtype -> Forall ok bs -> Forall block_wf bs -> 0 <= room fmt bs.
Proof. intros HL Hok Hw. pose proof (encode_room fmt ok wtype bs HL Hok Hw). lia. Qed.

Lemma Forall_filter_list (P : qm_tlv_block_t -> Prop) f bs : Forall P bs -> Forall P (List.filter f bs).
Proof. induction 1 as [|b bs Hb Hbs IH]; simpl; [done|]. destruct (f b); [by constructor|done]. Qed.

(** With enough room every selected block is written. *)
Lemma serialize_complete fmt ok wtype c m cap ty : WireFormatLaws fmt ok wtype -> ctx_wf c -> Forall ok (blocks c) ->
  cap <= Z.of_nat (length m) -> room fmt (List.filter (selected ty) (blocks c)) <= cap ->
  let out := encode fmt (List.filter (selected ty) (blocks c)) in
  serialize_with fmt (Some c) (Some m) (Some cap) ty
  = Ret (QM_EOK, Some (mk_ctx (count c) (ctx_arg c) (emitted ty <$> blocks c)),
         Some (out ++ drop (length out) m), Z.of_nat (length out)).
Proof.
  intros HL Hwf Hok Hcap Hroom out. cbn [serialize_with].
  destruct (serialize_loop_spec fmt ok wtype (blocks c) ty cap Hok (cw_blocks _ Hwf) m 0)
    as (l & r & Hsplit & He & _ & Hr); [lia|done|].
  assert (r = []) as ->.
  { destruct r as [|b r]; [done|]. exfalso. destruct Hr as [Hsel Hno].
    rewrite Hsplit, List.filter_app, room_app in Hroom. simpl in Hroom. rewrite Hsel in Hroom. simpl in Hroom.
    rewrite Hsplit in Hok. pose proof (cw_blocks _ Hwf) as Hw. rewrite Hsplit in Hw.
    apply list.Forall_app in Hok as [Hok1 Hok2], Hw as [Hw1 Hw2].
    apply list.Forall_cons in Hok2 as [_ Hok2], Hw2 as [_ Hw2].
    pose proof (encode_room fmt ok wtype (List.filter (selected ty) l) HL
      (Forall_filter_list _ _ _ Hok1) (Forall_filter_list _ _ _ Hw1)).
    pose proof (room_nonneg fmt ok wtype (List.filter (selected ty) r) HL
      (Forall_filter_list _ _ _ Hok2) (Forall_filter_list _ _ _ Hw2)). cbv zeta in Hno. lia. }
  rewrite app_nil_r in Hsplit. subst l. rewrite He. cbn [mbind outcome_bind]. rewrite app_nil_r. done.
Qed.

Lemma selected_all bs : List.filter (selected QM_TLV_SERIALIZE_TYPE_ALL) bs = bs.
Proof. induction bs as [|b bs IH]; simpl; [done|]. by rewrite IH. Qed.

(** C1: round trip. In every supported format, serialising all blocks of a
    non-empty context into a buffer with the room the serialiser asks for and
    parsing the written bytes into an empty context succeeds and gives back the
    same blocks in the same order: tags and values, and the types in the DTTV
    and TTLV formats, while the TLV format, which does not carry them, gives type
    0. The blocks are representable in the format and not empty (the parser
    refuses empty values), and no allocation fails. *)
Theorem wire_roundtrip bt fmt ok wtype c m n : supported bt fmt ok wtype -> malloc_ok -> ctx_wf c ->
  Forall ok (blocks c) -> Forall (fun b => 0 < blk_len b) (blocks c) -> blocks c <> [] ->
  room fmt (blocks c) <= Z.of_nat (length m) ->
  exists c1 m' l c2 n',
    qm_tlv_serialize (Some c) (Some m) (Some (Z.of_nat (length m))) bt QM_TLV_SERIALIZE_TYPE_ALL
      = Ret (QM_EOK, Some c1, Some m', Some (Z.of_nat l))
    /\ qm_tlv_deserialize (Some (mk_ctx 0 0 [])) (Some (take l m')) (Z.of_nat l) bt n = Ret (QM_EOK, Some c2, n')
    /\ ctx_wf c2 /\ view <$> blocks c2 = (fun b => (wtype b, blk_tag b, block_data b)) <$> blocks c
    /\ ctx_map c2 = ctx_map c.
Proof.
  intros Hsup Hm Hwf Hok Hl Hne Hroom. pose proof (supported_laws _ _ _ _ Hsup) as HL.
  rewrite (serialize_dispatch _ _ _ _ _ _ _ _ Hsup).
  rewrite (serialize_complete fmt ok wtype c m _ QM_TLV_SERIALIZE_TYPE_ALL HL Hwf Hok) by (rewrite ?selected_all; lia).
  rewrite selected_all. set (out := encode fmt (blocks c)). cbn [mbind outcome_bind].
  pose proof (cw_blocks _ Hwf) as Hw. pose proof (cw_tagged _ Hwf) as Ht.
  assert (0 < length out)%nat as Hpos.
  { pose proof (encoding_length_ge fmt ok wtype (blocks c)) as Hge. fold out in Hge.
    destruct (blocks c); [done|]. simpl in Hge. lia. }
  assert (ctx_wf (mk_ctx 0 0 [])) as Hempty by (constructor; simpl; [done|apply NoDup_nil_2|done|done]).
  destruct (deserialize_loop_roundtrip fmt ok wtype (blocks c) Hm Hok Hw Ht Hl (length out) (mk_ctx 0 0 []) [] n)
    as (bs' & c2 & n' & He & Hwf2 & _ & Hbl & Hv); [apply (encoding_length_ge fmt ok wtype)|done|done|apply Hwf|].
  simpl in He, Hbl. fold out in He. change (Z.of_nat 0) with 0 in He.
  eexists _, _, (length out), c2, n'. split; [done|]. rewrite (deserialize_dispatch _ _ _ _ _ _ _ _ Hsup).
  rewrite take_app_length. cbn [deserialize_with]. destruct (Z.eqb_spec (Z.of_nat (length out)) 0); [lia|].
  rewrite Nat2Z.id, He. cbn [mbind outcome_bind]. rewrite Hbl.
  split; [done|]. split; [done|]. split; [done|]. unfold ctx_map, to_map. rewrite Hbl. f_equal.
  transitivity ((fun v : Z * Z * list Z => (v.1.2, v.2)) <$> (view <$> bs')); [by rewrite <- list_fmap_compose|].
  rewrite Hv, <- list_fmap_compose. done.
Qed.


(** Calling a serialiser without a buffer changes nothing and returns the
    exact size: for DTTV and TLV a buffer of that size then receives every
    selected block. *)
Theorem size_query_exact bt fmt ok wtype c ty : supported bt fmt ok wtype -> bt <> QM_BLOCK_TYPE_TTLV -> ctx_wf c ->
  Forall ok (blocks c) ->
  exists size, qm_tlv_serialize (Some c) None (Some 0) bt ty = Ret (QM_EOK, Some c, None, Some size)
  /\ forall m, Z.of_nat (length m) = size -> exists c',
     qm_tlv_serialize (Some c) (Some m) (Some size) bt ty
     = Ret (QM_EOK, Some c', Some (encode fmt (List.filter (selected ty) (blocks c))), Some size).
Proof.
  intros Hsup Hbt Hwf Hok. pose proof (supported_laws _ _ _ _ Hsup) as HL.
  set (sel := List.filter (selected ty) (blocks c)).
  exists (Z.of_nat (length (encode fmt sel))). rewrite (serialize_dispatch _ _ _ _ _ _ _ _ Hsup). cbn [serialize_with].
  rewrite (serialize_loop_null fmt ok wtype) by apply Hwf. cbn [mbind outcome_bind]. split; [by destruct c|].
  intros m Hm. rewrite (serialize_dispatch _ _ _ _ _ _ _ _ Hsup).
  rewrite (serialize_complete fmt ok wtype c m _ ty HL Hwf Hok); [|lia|].
  - fold sel. cbn [mbind outcome_bind]. eexists. do 3 f_equal. rewrite drop_ge by lia. by rewrite app_nil_r.
  - fold sel. assert (Forall ok sel) as Hoks by (by apply Forall_filter_list).
    assert (Forall block_wf sel) as Hws by (by apply Forall_filter_list, Hwf). clearbody sel. clear Hm.
    induction Hoks as [|b bs Hb Hbs IH]; [simpl; lia|]. apply list.Forall_cons in Hws as [Hw1 Hws].
    rewrite encoding_cons, !length_app. simpl. specialize (IH Hws).
    assert (fmt_block_len b <= Z.of_nat (length (fmt_emit b)) + blk_len b) as Hex; [|pose proof (block_data_length b Hw1); lia].
    destruct Hsup; [| |done]; simpl.
    + unfold dttv_block_len, dttv_emit, emit_length. rewrite !length_app, emit_field_length.
      pose proof (field_size_pos dttv_tag2). pose proof (field_size_pos dttv_len2). simpl.
      destruct (typed_len_cases _ _ _ Hb) as [[-> Hl]|[Hp ->]]; simpl; [rewrite emit_field_length; lia|].
      destruct (Z.eqb_spec (qm_tlv_block_data_type_len (blk_type b)) 0); [lia|]. simpl.
      destruct (Z.gtb_spec (qm_tlv_block_data_type_len (blk_type b)) 0); lia.
    + unfold tlv_block_len, tlv_emit. rewrite !length_app, !emit_field_length.
      pose proof (field_size_pos tlv_tag2). pose proof (field_size_pos tlv_len2). lia.
Qed.

(** C37: the DTTV and TLV parsers are total and memory safe: on every message
    they terminate without reading past its end, with success or one of the
    two documented codes; the context stays well formed, keeps all it had and
    has only gained blocks that are marked updated, also on the error paths. *)
Theorem deserialize_safe bt fmt ok wtype c msg n : supported bt fmt ok wtype -> bt <> QM_BLOCK_TYPE_TTLV ->
  Forall is_u8 msg -> ctx_wf c ->
  exists ret c' n' bs, qm_tlv_deserialize (Some c) (Some msg) (Z.of_nat (length msg)) bt n = Ret (ret, Some c', n')
  /\ (ret = QM_EOK \/ ret = - QM_EINVAL \/ ret = - QM_ENOMEM)
  /\ ctx_wf c' /\ blocks c' = blocks c ++ bs /\ Forall (fun b => flag_update b = true) bs.
Proof.
  intros Hsup Hbt Hm Hwf. pose proof (supported_laws _ _ _ _ Hsup) as HL.
  rewrite (deserialize_dispatch _ _ _ _ _ _ _ _ Hsup). cbn [deserialize_with].
  destruct (Z.eqb_spec (Z.of_nat (length msg)) 0).
  { eexists _, c, n, []. rewrite app_nil_r. split; [done|]. split; [tauto|]. done. }
  pose proof (deserialize_loop_total fmt ok wtype (Z.to_nat (Z.of_nat (length msg))) c msg (Z.of_nat (length msg)) 0 n
    Hm (Z.le_refl 0) Hwf ltac:(lia)) as Ht.
  assert (header_safe fmt) as Hsafe by (destruct Hsup; [apply dttv_safe|apply tlv_safe|done]).
  pose proof (deserialize_loop_safe fmt ok wtype (Z.to_nat (Z.of_nat (length msg))) c msg 0 n Hsafe Hm (Z.le_refl 0) Hwf) as Hs.
  destruct (deserialize_loop _ _ _ _ _ _ _) as [[[ret c'] n']| |]; [|done|done].
  destruct Ht as (Hw' & Hr & bs & Hb & Hu). by exists ret, c', n', bs.
Qed.

(** An element without data cannot be received: the parsers refuse the
    encoding that the serialisers produce for an empty string or array. *)
Theorem empty_value_refused bt fmt ok wtype b n : supported bt fmt ok wtype -> malloc_ok -> ok b -> blk_len b = 0 ->
  exists c n', qm_tlv_deserialize (Some (mk_ctx 0 0 [])) (Some (fmt_emit b)) (Z.of_nat (length (fmt_emit b))) bt n
  = Ret (- QM_EINVAL, Some c, n') /\ blocks c = [].
Proof.
  intros Hsup Hm Hok Hl. pose proof (supported_laws _ _ _ _ Hsup) as HL. pose proof (law_emit_pos b) as Hpos.
  rewrite (deserialize_dispatch _ _ _ _ _ _ _ _ Hsup). cbn [deserialize_with].
  destruct (Z.eqb_spec (Z.of_nat (length (fmt_emit b))) 0); [lia|]. rewrite Nat2Z.id.
  destruct (length (fmt_emit b)) as [|k] eqn:Hk; [lia|]. cbn [deserialize_loop].
  destruct (Z.ltb_spec 0 (Z.of_nat (S k))); [|lia]. cbn [negb]. unfold deserialize_element, qm_tlv_block_creat.
  destruct (Hm n) as [a ->]. pose proof (law_read b [] [] a (Z.of_nat (S k)) Hok) as Hr. simpl in Hr.
  rewrite app_nil_r in Hr. change (Z.of_nat 0) with 0 in Hr. change (mk_block false false false 0 0 0 [0; 0; 0; 0] [] 0 a) with (parsed 0 0 0 a).
  rewrite Hr by lia. cbn [mbind outcome_bind blk_len parsed]. rewrite Hl, Hk.
  destruct (Z.ltb_spec (Z.of_nat (S k) - Z.of_nat (S k)) 0); [lia|].
  destruct (Z.ltb_spec (Z.of_nat (S k)) (Z.of_nat (S k) + 0)); [lia|].
  cbn [qm_tlv_pack_bytes Z.eqb negb QM_EOK QM_EINVAL Z.opp mbind outcome_bind]. by eexists _, _.
Qed.

(** The space check of the DTTV serialiser trusts the type, the copy uses
    the length of the value: a block whose value is longer than its type says
    is written past a buffer that passed the check. *)
Theorem dttv_serialize_overruns b arg m ty : dttv_support = true -> block_wf b ->
  0 < qm_tlv_block_data_type_len (blk_type b) < blk_len b -> Z.of_nat (length m) = dttv_block_len b ->
  selected ty b = true ->
  qm_tlv_serialize (Some (mk_ctx 1 arg [b])) (Some m) (Some (dttv_block_len b)) QM_BLOCK_TYPE_DTTV ty = OutOfBounds.
Proof.
  intros Hs Hw Htl Hm Hsel. rewrite (serialize_dispatch _ _ _ _ _ _ _ _ (sup_dttv Hs)).
  cbn [serialize_with serialize_loop blocks]. rewrite Hsel. cbn [negb fmt_block_len dttv_format].
  rewrite Z.sub_0_r, Z.ltb_irrefl. destruct (clear_flag_header ty b) as (Ht & Hg & Hl).
  destruct (law_emit_ext (fmt := dttv_format) b _ Ht Hg Hl) as [-> _].
  assert (Z.of_nat (length (dttv_emit b)) = 1 + field_size dttv_tag2) as Hel.
  { unfold dttv_emit, emit_length. destruct (Z.eqb_spec (qm_tlv_block_data_type_len (blk_type b)) 0); [lia|].
    rewrite app_nil_r, length_app, emit_field_length. pose proof (field_size_pos dttv_tag2). simpl. lia. }
  assert (dttv_block_len b = 1 + field_size dttv_tag2 + qm_tlv_block_data_type_len (blk_type b)) as Hbl.
  { unfold dttv_block_len. destruct (Z.gtb_spec (qm_tlv_block_data_type_len (blk_type b)) 0); lia. }
  cbn [fmt_emit dttv_format]. rewrite write_bytes_ok by lia. cbn [mbind outcome_bind].
  destruct (direct_wf b ty Hw) as (src & -> & Hsl & Hsd).
  destruct (Z.ltb_spec (Z.of_nat (length src)) (blk_len b)); [lia|]. rewrite Hsd. unfold write_bytes.
  rewrite splice_length by lia. pose proof (block_data_length b Hw).
  destruct (Z.ltb_spec (0 + Z.of_nat (length (dttv_emit b))) 0); [lia|].
  destruct (Z.ltb_spec (Z.of_nat (length m)) (0 + Z.of_nat (length (dttv_emit b)) + Z.of_nat (length (block_data b)))); [done|lia].
Qed.

(** The TTLV parser reads the type byte without comparing the index with
    the length: a message that ends behind a tag is read past its end. *)
Theorem ttlv_overread tag n : ttlv_support = true -> malloc_ok -> 0 <= tag < field_bound ttlv_tag2 ->
  let msg := emit_field ttlv_tag2 tag in
  qm_tlv_deserialize (Some (mk_ctx 0 0 [])) (Some msg) (Z.of_nat (length msg)) QM_BLOCK_TYPE_TTLV n = OutOfBounds.
Proof.
  intros Hs Hm Ht msg. rewrite (deserialize_dispatch _ _ _ _ _ _ _ _ (sup_ttlv Hs)). cbn [deserialize_with].
  pose proof (field_size_pos ttlv_tag2). assert (Z.of_nat (length msg) = field_size ttlv_tag2) as Hl
    by (unfold msg; rewrite emit_field_length; lia).
  rewrite Hl. destruct (Z.eqb_spec (field_size ttlv_tag2) 0); [lia|].
  destruct (Z.to_nat (field_size ttlv_tag2)) as [|k] eqn:Hk; [lia|]. cbn [deserialize_loop].
  destruct (Z.ltb_spec 0 (field_size ttlv_tag2)); [|lia]. cbn [negb]. unfold deserialize_element, qm_tlv_block_creat.
  destruct (Hm n) as [a ->]. cbn [fmt_header ttlv_format]. unfold ttlv_header.
  rewrite (read_field_at _ _ [] tag []); [|by rewrite app_nil_r|done|done|lia]. cbn [mbind outcome_bind].
  unfold read_byte. destruct (Z.ltb_spec (0 + field_size ttlv_tag2) 0); [lia|].
  by rewrite lookup_ge_None_2 by lia.
Qed.

(** The TTLV serialiser computes the space with the widest tag of all
    formats, not with its own. Where they differ, a buffer of exactly the size
    the size query announces for one block receives nothing, yet the call
    reports success. *)
Theorem ttlv_exact_buffer_empty b arg m : ttlv_support = true -> tag_byte2 = true -> ttlv_tag2 = false ->
  ctx_wf (mk_ctx 1 arg [b]) -> ttlv_ok b ->
  exists size, qm_tlv_serialize (Some (mk_ctx 1 arg [b])) None (Some 0) QM_BLOCK_TYPE_TTLV QM_TLV_SERIALIZE_TYPE_ALL
    = Ret (QM_EOK, Some (mk_ctx 1 arg [b]), None, Some size) /\ 0 < size
  /\ (Z.of_nat (length m) = size ->
     qm_tlv_serialize (Some (mk_ctx 1 arg [b])) (Some m) (Some size) QM_BLOCK_TYPE_TTLV QM_TLV_SERIALIZE_TYPE_ALL
     = Ret (QM_EOK, Some (mk_ctx 1 arg [b]), Some m, Some 0)).
Proof.
  intros Hs Htb Ht Hwf Hok. pose proof (Forall_inv (cw_blocks _ Hwf)) as Hw. rewrite (serialize_dispatch _ _ _ _ _ _ _ _ (sup_ttlv Hs)).
  cbn [serialize_with]. rewrite (serialize_loop_null ttlv_format ttlv_ok blk_type) by apply Hwf.
  cbn [mbind outcome_bind blocks count ctx_arg]. rewrite selected_all, encoding_cons.
  rewrite app_nil_r. pose proof (law_emit_pos (fmt := ttlv_format) b). pose proof (block_data_length b Hw) as Hdl.
  eexists. split; [done|]. split; [rewrite length_app; lia|]. intros Hm.
  rewrite (serialize_dispatch _ _ _ _ _ _ _ _ (sup_ttlv Hs)). cbn [serialize_with serialize_loop blocks].
  change (selected QM_TLV_SERIALIZE_TYPE_ALL b) with true. cbn [negb].
  match goal with |- context [?x <? ?y] => destruct (Z.ltb_spec x y) as [_|Hge] end; [done|]. exfalso.
  cbn [fmt_block_len fmt_emit ttlv_format] in *. rewrite length_app in Hge.
  assert (field_size ttlv_len2 <= field_size length_byte2) as Hlb
    by (pose proof ttlv_len_byte as Hb; destruct ttlv_len2, length_byte2; simpl; try lia; by specialize (Hb eq_refl)).
  unfold ttlv_block_len, ttlv_emit, emit_length in Hge. rewrite !length_app, emit_field_length, Htb, Ht in Hge.
  pose proof (field_size_pos ttlv_len2).
  destruct (typed_len_cases _ _ _ Hok) as [[Htl Hl]|[Hp Htl]]; [rewrite Htl in Hge; simpl in Hge; rewrite emit_field_length in Hge; lia|].
  destruct (Z.eqb_spec (qm_tlv_block_data_type_len (blk_type b)) 0); [lia|].
  destruct (Z.gtb_spec (qm_tlv_block_data_type_len (blk_type b)) 0); simpl in Hge; lia.
Qed.

End theorems.

(** ** Concrete instances *)

Lemma demo_typed_ok : Forall (dttv_ok (H := demo_cfg)) (blocks demo_dest).
Proof. repeat constructor; vm_compute; try done; lia. Defined.

Lemma demo_sup : supported (H := demo_cfg) QM_BLOCK_TYPE_DTTV (dttv_format (H := demo_cfg))
  (dttv_ok (H := demo_cfg)) blk_type.
Proof. by constructor. Defined.

Lemma wire_roundtrip_witness :
  exists c1 m' l c2 n',
    qm_tlv_serialize (H := demo_cfg) (Some demo_dest) (Some (replicate 32 0)) (Some 32) 1 0
      = Ret (QM_EOK, Some c1, Some m', Some (Z.of_nat l))
    /\ qm_tlv_deserialize (H := demo_cfg) (heap := demo_heap) (Some (mk_ctx 0 0 [])) (Some (take l m')) (Z.of_nat l) 1 0
       = Ret (QM_EOK, Some c2, n')
    /\ view <$> blocks c2 = [(4, 7, [1; 2]); (11, 9, [104; 101; 108; 108; 111; 33])].
Proof.
  destruct (wire_roundtrip (H := demo_cfg) (heap := demo_heap) (TlvHeapOk0 := demo_heap_ok)
    1 _ _ _ demo_dest (replicate 32 0) 0 demo_sup demo_malloc_ok demo_dest_wf demo_typed_ok)
    as (c1 & m' & l & c2 & n' & Hs & Hd & _ & Hv & _).
  - repeat constructor.
  - discriminate.
  - vm_compute. discriminate.
  - exists c1, m', l, c2, n'. split; [exact Hs|]. split; [exact Hd|]. rewrite Hv. reflexivity.
Defined.


Lemma size_query_exact_witness :
  exists c', qm_tlv_serialize (H := demo_cfg) (Some demo_dest) (Some (replicate 14 0)) (Some 14) 1 0
    = Ret (QM_EOK, Some c', Some [4; 7; 1; 2; 11; 9; 0; 6; 104; 101; 108; 108; 111; 33], Some 14).
Proof.
  destruct (size_query_exact (H := demo_cfg) (heap := demo_heap) (TlvHeapOk0 := demo_heap_ok)
    1 _ _ _ demo_dest 0 demo_sup ltac:(discriminate) demo_dest_wf demo_typed_ok) as (size & Hq & Hall).
  assert (size = 14) as -> by (vm_compute in Hq; congruence).
  exact (Hall (replicate 14 0) eq_refl).
Defined.

Lemma deserialize_safe_witness :
  exists ret c' n' bs, qm_tlv_deserialize (H := demo_cfg) (heap := demo_heap) (Some demo_src) (Some [4; 7; 1; 2; 11; 9])
      6 1 0 = Ret (ret, Some c', n')
  /\ (ret = QM_EOK \/ ret = - QM_EINVAL \/ ret = - QM_ENOMEM) /\ blocks c' = demo_upd :: bs.
Proof.
  destruct (deserialize_safe (H := demo_cfg) (heap := demo_heap) (TlvHeapOk0 := demo_heap_ok)
    1 _ _ _ demo_src [4; 7; 1; 2; 11; 9] 0 demo_sup ltac:(discriminate)) as (ret & c' & n' & bs & He & Hr & _ & Hb & _).
  - repeat constructor; widths; lia.
  - exact demo_src_wf.
  - exists ret, c', n', bs. split; [exact He|]. split; [exact Hr|exact Hb].
Defined.

Lemma empty_value_refused_witness :
  exists c n', qm_tlv_deserialize (H := demo_cfg) (heap := demo_heap) (Some (mk_ctx 0 0 [])) (Some [11; 9; 0; 0]) 4 1 0
    = Ret (- QM_EINVAL, Some c, n') /\ blocks c = [].
Proof.
  apply (empty_value_refused (H := demo_cfg) (heap := demo_heap) (TlvHeapOk0 := demo_heap_ok)
    1 _ _ _ demo_none 0 demo_sup demo_malloc_ok); [vm_compute; repeat split; discriminate|reflexivity].
Defined.

(** A six-byte value behind type UINT8, as [qm_tlv_block_data_type_set] and
    [qm_tlv_pack_bytes] can make it. *)
Definition demo_mistyped : qm_tlv_block_t := set_type 2 demo_long.

Lemma dttv_serialize_overruns_witness :
  qm_tlv_serialize (H := demo_cfg) (Some (mk_ctx 1 0 [demo_mistyped])) (Some [0; 0; 0]) (Some 3) 1 0 = OutOfBounds.
Proof.
  apply (dttv_serialize_overruns (H := demo_cfg) (heap := demo_heap) (TlvHeapOk0 := demo_heap_ok) demo_mistyped 0 [0; 0; 0] 0);
    [reflexivity| |split; reflexivity|reflexivity|reflexivity].
  exact (block_wf_same_value demo_long demo_mistyped eq_refl eq_refl eq_refl demo_long_wf).
Defined.

Lemma ttlv_overread_witness :
  qm_tlv_deserialize (H := demo_cfg) (heap := demo_heap) (Some (mk_ctx 0 0 [])) (Some [7]) 1 2 0 = OutOfBounds.
Proof.
  apply (ttlv_overread (H := demo_cfg) (heap := demo_heap) (TlvHeapOk0 := demo_heap_ok) 7 0);
    [reflexivity|exact demo_malloc_ok|vm_compute; split; [discriminate|reflexivity]].
Defined.

Lemma ttlv_exact_buffer_empty_witness :
  qm_tlv_serialize (H := wide_tag_cfg) (Some (mk_ctx 1 0 [demo_short])) (Some [0; 0; 0; 0]) (Some 4) 2 0
  = Ret (QM_EOK, Some (mk_ctx 1 0 [demo_short]), Some [0; 0; 0; 0], Some 0).
Proof.
  destruct (ttlv_exact_buffer_empty (H := wide_tag_cfg) (heap := demo_heap) (TlvHeapOk0 := demo_heap_ok)
    demo_short 0 [0; 0; 0; 0]) as (size & Hq & _ & Hr).
  - reflexivity.
  - reflexivity.
  - reflexivity.
  - constructor; simpl; [done|apply (bool_decide_unpack _); vm_compute; exact I| |].
    + constructor; [|constructor]. constructor; simpl; [done|repeat constructor; widths; lia|unfold len_max; simpl; lia|unfold BUF_SIZE; lia].
    + repeat constructor; unfold tag_ok, tag_max; simpl; lia.
  - vm_compute. repeat split; discriminate.
  - assert (size = 4) as -> by (vm_compute in Hq; congruence). exact (Hr eq_refl).
Defined.

End TlvCodec.
