(* ===== verification/MultiTimer.v ===== *)
(** * Software timers (components/multi_timer)

    Timers are caller-owned structures linked through [next] into two lists
    sorted by expiry time: one for the current run of the 32-bit millisecond
    counter and one for expiry times behind its next wrap.  The model keeps
    the structures in a store and the links as pointers, so that a structure
    that ends up in two lists is visible; [timers_wf] says which abstract
    lists the pointers form.  The mutex is not modelled (one thread), the
    clock readings are arguments. *)

From Stdlib Require Import Sorted.
From S2P Require Import Prelude Outcome.
Import list_relations.list list_basics.list.

Module MultiTimer.

(** The two list heads; their addresses are stored in [timer->list]. *)
Inductive list_id := TimerList | OverflowList.

#[global] Instance list_id_eq_dec : EqDecision list_id.
Proof. solve_decision. Defined.

Record multi_timer_t := mk_timer {
  t_next : option Z;          (* address of a timer, or NULL *)
  t_delay : Z;                (* uint32_t *)
  t_period : Z;               (* uint32_t *)
  t_callback : Z;             (* 0: NULL *)
  t_arg : Z;
  t_auto_reload : Z;          (* int *)
  t_list : option list_id
}.

(** The context, the static [last_time] of [multi_timer_yield] and the store of timers. *)
Record multi_timer_ctx_t := mk_mt {
  timer_list : option Z;
  overflow_timer_list : option Z;
  last_time : Z;
  timers : gmap Z multi_timer_t
}.

(** A place a [multi_timer_t **] can point to. *)
Inductive cell := HeadOf (l : list_id) | NextOf (t : Z).

#[global] Instance cell_eq_dec : EqDecision cell.
Proof. solve_decision. Defined.

Definition set_next (v : option Z) (r : multi_timer_t) : multi_timer_t :=
  mk_timer v (t_delay r) (t_period r) (t_callback r) (t_arg r) (t_auto_reload r) (t_list r).
Definition set_delay (v : Z) (r : multi_timer_t) : multi_timer_t :=
  mk_timer (t_next r) v (t_period r) (t_callback r) (t_arg r) (t_auto_reload r) (t_list r).
Definition set_list (v : option list_id) (r : multi_timer_t) : multi_timer_t :=
  mk_timer (t_next r) (t_delay r) (t_period r) (t_callback r) (t_arg r) (t_auto_reload r) v.

Definition set_timers (m : gmap Z multi_timer_t) (s : multi_timer_ctx_t) : multi_timer_ctx_t :=
  mk_mt (timer_list s) (overflow_timer_list s) (last_time s) m.
Definition set_head (l : list_id) (v : option Z) (s : multi_timer_ctx_t) : multi_timer_ctx_t :=
  match l with
  | TimerList => mk_mt v (overflow_timer_list s) (last_time s) (timers s)
  | OverflowList => mk_mt (timer_list s) v (last_time s) (timers s)
  end.
Definition set_last (v : Z) (s : multi_timer_ctx_t) : multi_timer_ctx_t :=
  mk_mt (timer_list s) (overflow_timer_list s) v (timers s).

Definition load_timer (s : multi_timer_ctx_t) (t : Z) : outcome multi_timer_t := of_option (timers s !! t).

Definition update_timer (s : multi_timer_ctx_t) (t : Z) (f : multi_timer_t -> multi_timer_t) : outcome multi_timer_ctx_t :=
  r ← load_timer s t; Ret (set_timers (<[t := f r]> (timers s)) s).

Definition load_cell (s : multi_timer_ctx_t) (c : cell) : outcome (option Z) :=
  match c with
  | HeadOf TimerList => Ret (timer_list s)
  | HeadOf OverflowList => Ret (overflow_timer_list s)
  | NextOf t => r ← load_timer s t; Ret (t_next r)
  end.

Definition store_cell (s : multi_timer_ctx_t) (c : cell) (v : option Z) : outcome multi_timer_ctx_t :=
  match c with
  | HeadOf l => Ret (set_head l v s)
  | NextOf t => update_timer s t (set_next v)
  end.

(** ** Operations *)

(** The search-and-remove loop. *)
Fixpoint unlink_loop (fuel : nat) (s : multi_timer_ctx_t) (next_timer : cell) (timer : Z) : outcome multi_timer_ctx_t :=
  match fuel with
  | O => NoFuel
  | S fuel' =>
      p ← load_cell s next_timer;
      match p with
      | None => Ret s
      | Some q =>
          if q =? timer then nx ← load_cell s (NextOf timer); store_cell s next_timer nx
          else unlink_loop fuel' s (NextOf q) timer
      end
  end.

(** The loop that finds the place of the timer and links it in. *)
Fixpoint link_loop (fuel : nat) (s : multi_timer_ctx_t) (next_timer : cell) (timer : Z) : outcome multi_timer_ctx_t :=
  match fuel with
  | O => NoFuel
  | S fuel' =>
      p ← load_cell s next_timer;
      match p with
      | None => s1 ← store_cell s (NextOf timer) None; store_cell s1 next_timer (Some timer)
      | Some q =>
          r ← load_timer s timer; rq ← load_timer s q;
          if t_delay r <? t_delay rq then
            s1 ← store_cell s (NextOf timer) (Some q); store_cell s1 next_timer (Some timer)
          else link_loop fuel' s (NextOf q) timer
      end
  end.

(** A list of the store has no more elements than the store. *)
Definition list_fuel (s : multi_timer_ctx_t) : nat := S (size (timers s)).

Definition timer_list_insert (s : multi_timer_ctx_t) (head_list : list_id) (timer : Z) : outcome multi_timer_ctx_t :=
  s1 ← unlink_loop (list_fuel s) s (HeadOf head_list) timer;
  s2 ← link_loop (list_fuel s) s1 (HeadOf head_list) timer;
  update_timer s2 timer (set_list (Some head_list)).

Definition timer_insert (s : multi_timer_ctx_t) (timer now_time : Z) : outcome multi_timer_ctx_t :=
  r ← load_timer s timer;
  let delay := u32 (t_period r + now_time) in
  s1 ← update_timer s timer (set_delay delay);
  if delay <? now_time then timer_list_insert s1 OverflowList timer
  else timer_list_insert s1 TimerList timer.

Definition timer_list_switch (s : multi_timer_ctx_t) : multi_timer_ctx_t :=
  mk_mt (overflow_timer_list s) None (last_time s) (timers s).

Definition timer_list_remove (s : multi_timer_ctx_t) (head_list : list_id) (timer : Z) : outcome multi_timer_ctx_t :=
  unlink_loop (list_fuel s) s (HeadOf head_list) timer.

Definition next_expire_time_get (s : multi_timer_ctx_t) : outcome Z :=
  match timer_list s with
  | Some t => r ← load_timer s t; Ret (t_delay r)
  | None =>
      match overflow_timer_list s with
      | Some t => r ← load_timer s t; Ret (t_delay r)
      | None => Ret 0
      end
  end.

Definition multi_timer_creat (s : multi_timer_ctx_t) (timer : option Z) (callback arg ms auto_reload : Z)
  : outcome (Z * multi_timer_ctx_t) :=
  match timer with
  | None => Ret (- QM_EINVAL, s)
  | Some t => Ret (QM_EOK, set_timers (<[t := mk_timer None 0 ms callback arg auto_reload None]> (timers s)) s)
  end.

Definition multi_timer_delete (s : multi_timer_ctx_t) (timer : option Z) : outcome (Z * multi_timer_ctx_t) :=
  match timer with
  | None => Ret (- QM_EINVAL, s)
  | Some t =>
      r ← load_timer s t;
      match t_list r with
      | None => Ret (QM_EOK, s)
      | Some l =>
          s1 ← timer_list_remove s l t;
          s2 ← update_timer s1 t (set_list None);
          Ret (QM_EOK, s2)
      end
  end.

Definition multi_timer_start (s : multi_timer_ctx_t) (timer : option Z) (now_time : Z) : outcome (Z * multi_timer_ctx_t) :=
  match timer with
  | None => Ret (- QM_EINVAL, s)
  | Some t => s1 ← timer_insert s t now_time; Ret (QM_EOK, s1)
  end.

Definition multi_timer_stop (s : multi_timer_ctx_t) (timer : option Z) : outcome (Z * multi_timer_ctx_t) :=
  multi_timer_delete s timer.

Definition multi_timer_change (s : multi_timer_ctx_t) (timer : option Z) (ms now_time : Z) : outcome (Z * multi_timer_ctx_t) :=
  match timer with
  | None => Ret (- QM_EINVAL, s)
  | Some t =>
      m ← load_timer s t;
      '(_, s1) ← multi_timer_delete s timer;
      '(_, s2) ← multi_timer_creat s1 timer (t_callback m) (t_arg m) ms (t_auto_reload m);
      '(_, s3) ← multi_timer_start s2 timer now_time;
      Ret (QM_EOK, s3)
  end.

Section process.
Context {C : Type}.
(** The callbacks: they get the timer and its argument and may use the timer
    functions; [C] is the state of the client. *)
Variable call : Z -> Z -> Z -> multi_timer_ctx_t -> C -> outcome (multi_timer_ctx_t * C).

(** The part of both loops behind the expiry test: take the timer off the
    list, reload it, call back. *)
Definition fire (s : multi_timer_ctx_t) (c : C) (t now_time : Z) : outcome (multi_timer_ctx_t * C) :=
  r ← load_timer s t;
  let s1 := set_head TimerList (t_next r) s in
  s2 ← (if t_auto_reload r =? 0 then Ret s1 else timer_insert s1 t now_time);
  r2 ← load_timer s2 t;
  if t_callback r2 =? 0 then Ret (s2, c) else call (t_callback r2) t (t_arg r2) s2 c.

Fixpoint overflow_timer_process (fuel : nat) (s : multi_timer_ctx_t) (c : C) (now_time : Z)
  : outcome (multi_timer_ctx_t * C) :=
  match timer_list s with
  | None => Ret (s, c)
  | Some t =>
      match fuel with
      | O => NoFuel
      | S fuel' => '(s', c') ← fire s c t now_time; overflow_timer_process fuel' s' c' now_time
      end
  end.

Fixpoint timer_process (fuel : nat) (s : multi_timer_ctx_t) (c : C) (now_time : Z)
  : outcome (multi_timer_ctx_t * C) :=
  match timer_list s with
  | None => Ret (s, c)
  | Some t =>
      match fuel with
      | O => NoFuel
      | S fuel' =>
          r ← load_timer s t;
          if now_time <? t_delay r then Ret (s, c)
          else '(s', c') ← fire s c t now_time; timer_process fuel' s' c' now_time
      end
  end.

(** [now_time] and [now2] are the two clock readings. *)
Definition multi_timer_yield (fuel : nat) (s : multi_timer_ctx_t) (c : C) (now_time now2 : Z)
  : outcome (Z * multi_timer_ctx_t * C) :=
  let overflow := now_time <? last_time s in
  '(s1, c1) ← (if overflow
               then '(s', c') ← overflow_timer_process fuel s c now_time; Ret (timer_list_switch s', c')
               else Ret (s, c));
  '(s2, c2) ← timer_process fuel s1 c1 now_time;
  next_period ← next_expire_time_get s2;
  let s3 := set_last now2 s2 in
  Ret (if next_period >? now_time then u32 (next_period - now_time)
       else if overflow then u32 (next_period - now_time) else 0, s3, c2).

End process.

(** ** The lists behind the pointers *)

Fixpoint chain (s : multi_timer_ctx_t) (c : cell) (l : list Z) : Prop :=
  match l with
  | [] => load_cell s c = Ret None
  | t :: l' => load_cell s c = Ret (Some t) /\ chain s (NextOf t) l'
  end.

(** The expiry time of a timer (0 when it does not exist). *)
Definition delay_of (s : multi_timer_ctx_t) (t : Z) : Z := default 0 (t_delay <$> timers s !! t).

Definition by_delay (s : multi_timer_ctx_t) (a b : Z) : Prop := delay_of s a <= delay_of s b.

Record timers_wf (s : multi_timer_ctx_t) (tl ol : list Z) : Prop := {
  tw_timers : chain s (HeadOf TimerList) tl;
  tw_overflow : chain s (HeadOf OverflowList) ol;
  tw_nodup : NoDup (tl ++ ol);
  tw_sorted : StronglySorted (by_delay s) tl;
  tw_sorted_ol : StronglySorted (by_delay s) ol
}.

(** Insertion behind every timer that expires no later. *)
Fixpoint insert_by (d : Z -> Z) (t : Z) (l : list Z) : list Z :=
  match l with
  | [] => [t]
  | q :: l' => if d t <? d q then t :: q :: l' else q :: insert_by d t l'
  end.

Definition remove_id (t : Z) (l : list Z) : list Z := filter (fun x => x <> t) l.

(** Two states whose timers differ in [next] links (and [list] tags) only. *)
Definition same_data (s s' : multi_timer_ctx_t) : Prop :=
  last_time s' = last_time s /\ dom (timers s') = dom (timers s) /\
  forall t r, timers s !! t = Some r -> exists r', timers s' !! t = Some r'
    /\ t_delay r' = t_delay r /\ t_period r' = t_period r /\ t_callback r' = t_callback r
    /\ t_arg r' = t_arg r /\ t_auto_reload r' = t_auto_reload r.

(** ** Lemmas *)

#[global] Instance same_data_refl : Reflexive same_data.
Proof. intros s. split_and!; try done. intros t r Hr. by exists r. Qed.

#[global] Instance same_data_trans : Transitive same_data.
Proof.
  intros a b c (Hl & Hd & Hab) (Hl' & Hd' & Hbc). split_and!; [congruence|congruence|].
  intros t r Hr. destruct (Hab t r Hr) as (r1 & H1 & E1). destruct (Hbc t r1 H1) as (r2 & H2 & E2).
  exists r2. split; [done|]. destruct E1 as (?&?&?&?&?), E2 as (?&?&?&?&?). split_and!; congruence.
Qed.

Lemma delay_of_lookup s t r : timers s !! t = Some r -> delay_of s t = t_delay r.
Proof. unfold delay_of. by intros ->. Qed.

Lemma same_data_delay s s' t : same_data s s' -> delay_of s' t = delay_of s t.
Proof.
  intros (_ & Hd & Hs). unfold delay_of. destruct (timers s !! t) as [r|] eqn:Hr.
  - destruct (Hs t r Hr) as (r' & -> & Hdl & _). simpl. done.
  - assert (timers s' !! t = None) as ->; [|done]. apply not_elem_of_dom. rewrite Hd. by apply not_elem_of_dom.
Qed.

Lemma same_data_size s s' : same_data s s' -> size (timers s') = size (timers s).
Proof. intros (_ & Hd & _). rewrite <- !size_dom. by rewrite Hd. Qed.

Lemma load_store s c v s' c' : store_cell s c v = Ret s' ->
  load_cell s' c' = if decide (c = c') then Ret v else load_cell s c'.
Proof.
  destruct c as [l|t]; simpl.
  - intros [= <-]. destruct l, c' as [[]|t']; simpl; done.
  - unfold update_timer, load_timer. destruct (timers s !! t) as [r|] eqn:Hr; [|done]. simpl. intros [= <-].
    destruct c' as [[]|t']; [done|done|]. simpl. unfold load_timer. simpl. destruct (decide (t = t')) as [<-|Hne].
    + rewrite lookup_insert_eq, decide_True by done. done.
    + rewrite lookup_insert_ne, decide_False by congruence. done.
Qed.

Lemma store_same_data s c v s' : store_cell s c v = Ret s' -> same_data s s'.
Proof.
  destruct c as [[]|t]; simpl.
  - intros [= <-]. split_and!; try done. intros t r Hr. by exists r.
  - intros [= <-]. split_and!; try done. intros t r Hr. by exists r.
  - unfold update_timer, load_timer. destruct (timers s !! t) as [r|] eqn:Hr; [|done]. simpl. intros [= <-].
    split_and!; [done| |].
    + simpl. rewrite dom_insert_L. apply subseteq_union_1_L, singleton_subseteq_l, elem_of_dom. by exists r.
    + intros t' r' Hr'. simpl. destruct (decide (t = t')) as [<-|Hne].
      * rewrite lookup_insert_eq. eexists. split; [done|]. rewrite Hr in Hr'. injection Hr' as <-. done.
      * rewrite lookup_insert_ne by done. by exists r'.
Qed.

Lemma store_ok s c v : (forall t, c = NextOf t -> is_Some (timers s !! t)) -> exists s', store_cell s c v = Ret s'.
Proof.
  destruct c as [l|t]; intros Ht; simpl; [by eexists|]. destruct (Ht t eq_refl) as [r Hr].
  unfold update_timer, load_timer. rewrite Hr. by eexists.
Qed.

Lemma load_next s t : is_Some (timers s !! t) -> exists v, load_cell s (NextOf t) = Ret v.
Proof. intros [r Hr]. simpl. unfold load_timer. rewrite Hr. by eexists. Qed.

Lemma chain_valid s c l : chain s c l -> Forall (fun t => is_Some (timers s !! t)) l.
Proof.
  revert c. induction l as [|t l IH]; intros c Hc; [done|]. destruct Hc as [_ Hc]. constructor; [|by eapply IH].
  assert (exists v, load_cell s (NextOf t) = Ret v) as [v Hv] by (destruct l; [by eexists|destruct Hc; by eexists]).
  simpl in Hv. unfold load_timer in Hv. by destruct (timers s !! t).
Qed.

Lemma chain_frame s s' c l : (forall c', c' ∈ c :: (NextOf <$> l) -> load_cell s' c' = load_cell s c') ->
  chain s c l -> chain s' c l.
Proof.
  revert c. induction l as [|t l IH]; intros c Hf Hc; simpl in *.
  - rewrite Hf; [done|by left].
  - destruct Hc as [Hl Hc]. split; [rewrite Hf; [done|by left]|]. apply IH; [|done].
    intros c' Hc'. apply Hf. by right.
Qed.

(** The rest of a chain hangs on any cell with the same content. *)
Lemma chain_move s s' c c' l : load_cell s' c' = load_cell s c -> chain s c l ->
  (forall t, t ∈ l -> load_cell s' (NextOf t) = load_cell s (NextOf t)) -> chain s' c' l.
Proof.
  destruct l as [|t l]; simpl; intros He Hc Hf; [congruence|]. destruct Hc as [Hl Hc]. split; [congruence|].
  eapply chain_frame; [|done]. intros c1 Hc1. rewrite <- fmap_cons in Hc1.
  apply list_elem_of_fmap in Hc1 as (u & -> & Hu). by apply Hf.
Qed.

Lemma NextOf_notin t (l : list Z) : NextOf t ∉ NextOf <$> l <-> t ∉ l.
Proof.
  split; intros Hn Hi; apply Hn.
  - apply list_elem_of_fmap. by exists t.
  - apply list_elem_of_fmap in Hi as (u & [= <-] & Hu). done.
Qed.

Lemma remove_notin t (l : list Z) : t ∉ l -> remove_id t l = l.
Proof.
  unfold remove_id. induction l as [|q l IH]; intros Hn; [done|]. apply not_elem_of_cons in Hn as [Hne Hn].
  rewrite filter_cons, decide_True by congruence. by rewrite IH.
Qed.

Lemma unlink_loop_spec timer l : forall fuel s c, chain s c l -> NoDup l -> c ∉ NextOf <$> l -> (length l < fuel)%nat ->
  exists s', unlink_loop fuel s c timer = Ret s' /\ chain s' c (remove_id timer l) /\ same_data s s'
  /\ forall c', c' ∉ c :: (NextOf <$> l) -> load_cell s' c' = load_cell s c'.
Proof.
  induction l as [|t l IH]; intros fuel s c Hc Hnd Hcn Hf.
  - destruct fuel as [|fuel]; [simpl in Hf; lia|]. simpl in Hc |- *. rewrite Hc. simpl. by exists s.
  - destruct fuel as [|fuel]; [simpl in Hf; lia|]. pose proof (chain_valid _ _ _ Hc) as Hv.
    apply Forall_cons in Hv as [Hv1 Hv]. destruct Hc as [Hl Hc]. cbn [unlink_loop]. rewrite Hl. simpl.
    apply NoDup_cons in Hnd as [Hnt Hnd]. rewrite fmap_cons in Hcn. apply not_elem_of_cons in Hcn as [Hct Hcn].
    unfold remove_id. rewrite filter_cons. destruct (Z.eqb_spec t timer) as [->|Hne].
    + rewrite decide_False by (intros Hx; by apply Hx). fold (remove_id timer l). rewrite remove_notin by done.
      destruct (load_next s timer Hv1) as [nx Hnx]. simpl in Hnx |- *. rewrite Hnx. simpl.
      destruct (store_ok s c nx) as [s' Hs'].
      { intros u ->. simpl in Hl. unfold load_timer in Hl. by destruct (timers s !! u). }
      exists s'. split; [done|]. pose proof (fun c' => load_store _ _ _ _ c' Hs') as Hls.
      split; [|split; [by eapply store_same_data|]].
      * apply (chain_move s s' (NextOf timer)); [|done|].
        -- rewrite Hls, decide_True by done. by rewrite <- Hnx.
        -- intros u Hu. rewrite Hls, decide_False; [done|]. intros ->. by apply NextOf_notin in Hcn.
      * intros c' Hc'. rewrite Hls, decide_False; [done|]. intros ->. apply Hc'. by left.
    + rewrite decide_True by done. fold (remove_id timer l).
      destruct (IH fuel s (NextOf t) Hc Hnd) as (s' & He & Hch & Hsd & Hfr);
        [by apply NextOf_notin|simpl in Hf; lia|].
      exists s'. split; [exact He|]. split; [split; [|done]|split; [done|]].
      * rewrite Hfr; [done|]. apply not_elem_of_cons. done.
      * intros c' Hc'. apply Hfr. intros Hi. apply Hc'. right. done.
Qed.

(** The two stores that link [timer] in front of what [v] points to. *)
Lemma link_cells timer s c v : is_Some (timers s !! timer) -> (forall t, c = NextOf t -> is_Some (timers s !! t)) ->
  c <> NextOf timer -> exists s', (s1 ← store_cell s (NextOf timer) v; store_cell s1 c (Some timer)) = Ret s'
  /\ same_data s s' /\ forall c', load_cell s' c' = if decide (c = c') then Ret (Some timer)
      else if decide (NextOf timer = c') then Ret v else load_cell s c'.
Proof.
  intros Hv Hcv Hne. destruct (store_ok s (NextOf timer) v) as [s1 Hs1]; [by intros t [= <-]|].
  pose proof (store_same_data _ _ _ _ Hs1) as Hsd1. rewrite Hs1. simpl.
  destruct (store_ok s1 c (Some timer)) as [s2 Hs2].
  { intros t ->. destruct (Hcv t eq_refl) as [r Hr]. destruct Hsd1 as (_ & _ & Hsd1).
    destruct (Hsd1 t r Hr) as (r' & -> & _). by eexists. }
  exists s2. split; [done|]. split; [etrans; [done|by eapply store_same_data]|].
  intros c'. rewrite (load_store _ _ _ _ c' Hs2). case_decide; [done|]. apply (load_store _ _ _ _ c' Hs1).
Qed.

Lemma link_loop_spec timer l : forall fuel s c, chain s c l -> NoDup l -> timer ∉ l -> is_Some (timers s !! timer) ->
  c ∉ NextOf <$> l -> c <> NextOf timer -> (length l < fuel)%nat ->
  exists s', link_loop fuel s c timer = Ret s' /\ chain s' c (insert_by (delay_of s) timer l) /\ same_data s s'
  /\ forall c', c' ∉ c :: NextOf timer :: (NextOf <$> l) -> load_cell s' c' = load_cell s c'.
Proof.
  induction l as [|t l IH]; intros fuel s c Hc Hnd Hnt Hv Hcn Hne Hf;
    (destruct fuel as [|fuel]; [simpl in Hf; lia|]).
  - simpl in Hc. cbn [link_loop]. rewrite Hc. cbn [mbind outcome_bind].
    destruct (link_cells timer s c None Hv) as (s' & He & Hsd & Hls); [|done|].
    { intros t ->. simpl in Hc. unfold load_timer in Hc. by destruct (timers s !! t). }
    exists s'. split; [exact He|]. split; [|split; [done|]].
    + cbn [insert_by chain]. rewrite !Hls. by rewrite decide_True, decide_False, decide_True.
    + intros c' Hc'. apply not_elem_of_cons in Hc' as [H1 Hc']. apply not_elem_of_cons in Hc' as [H2 _].
      rewrite Hls, !decide_False; done.
  - pose proof (chain_valid _ _ _ Hc) as Hval. apply Forall_cons in Hval as [[rt Hrt] _].
    destruct Hv as [r Hr]. destruct Hc as [Hl Hc]. cbn [link_loop]. rewrite Hl. cbn [mbind outcome_bind].
    unfold load_timer. rewrite Hr, Hrt. cbn [of_option mbind outcome_bind insert_by].
    rewrite (delay_of_lookup _ _ _ Hr), (delay_of_lookup _ _ _ Hrt).
    apply NoDup_cons in Hnd as [Htl Hnd]. apply not_elem_of_cons in Hnt as [Htt Hnt].
    rewrite fmap_cons in Hcn. apply not_elem_of_cons in Hcn as [Hct Hcn].
    destruct (t_delay r <? t_delay rt).
    + destruct (link_cells timer s c (Some t)) as (s' & He & Hsd & Hls); [by eexists| |done|].
      { intros u ->. simpl in Hl. unfold load_timer in Hl. by destruct (timers s !! u). }
      exists s'. split; [exact He|]. split; [|split; [done|]].
      * cbn [chain]. rewrite !Hls. split; [by rewrite decide_True|]. split; [by rewrite decide_False, decide_True|].
        eapply chain_frame; [|done]. intros c' Hc'. rewrite <- fmap_cons in Hc'.
        apply list_elem_of_fmap in Hc' as (u & -> & Hu). rewrite Hls, !decide_False; [done| |].
        -- intros [= ->]. apply elem_of_cons in Hu as [->|Hu]; [done|done].
        -- intros ->. apply elem_of_cons in Hu as [->|Hu]; [done|by apply NextOf_notin in Hcn].
      * intros c' Hc'. apply not_elem_of_cons in Hc' as [H1 Hc']. apply not_elem_of_cons in Hc' as [H2 _].
        rewrite Hls, !decide_False; done.
    + destruct (IH fuel s (NextOf t) Hc Hnd Hnt) as (s' & He & Hch & Hsd & Hfr);
        [by eexists|by apply NextOf_notin|congruence|simpl in Hf; lia|].
      exists s'. split; [exact He|]. split; [split; [|done]|split; [done|]].
      * rewrite Hfr; [done|]. apply not_elem_of_cons. split; [done|]. apply not_elem_of_cons. done.
      * intros c' Hc'. apply Hfr. apply not_elem_of_cons in Hc' as [H1 Hc']. apply not_elem_of_cons in Hc' as [H2 Hc'].
        rewrite fmap_cons in Hc'. apply not_elem_of_cons in Hc' as [H3 Hc'].
        apply not_elem_of_cons. split; [done|]. by apply not_elem_of_cons.
Qed.

(** *** Sorted insertion *)

Lemma insert_by_perm d t l : insert_by d t l ≡ₚ t :: l.
Proof.
  induction l as [|q l IH]; simpl; [done|]. destruct (d t <? d q); [done|].
  rewrite IH. apply Permutation_swap.
Qed.

Lemma insert_by_ext d d' t l : d t = d' t -> (forall q, q ∈ l -> d q = d' q) -> insert_by d t l = insert_by d' t l.
Proof.
  intros Ht. induction l as [|q l IH]; intros Hq; simpl; [done|]. rewrite Ht, (Hq q) by (by left).
  destruct (_ <? _); [done|]. f_equal. apply IH. intros u Hu. apply Hq. by right.
Qed.

Lemma insert_by_app d t l1 l2 : (forall q, q ∈ l1 -> d q <= d t) ->
  insert_by d t (l1 ++ l2) = l1 ++ insert_by d t l2.
Proof.
  induction l1 as [|q l1 IH]; intros Hq; simpl; [done|].
  destruct (Z.ltb_spec (d t) (d q)) as [Hlt|_]; [specialize (Hq q (list_elem_of_here _ _)); lia|].
  f_equal. apply IH. intros u Hu. apply Hq. by right.
Qed.

Lemma insert_by_sorted d t l : StronglySorted (fun a b => d a <= d b) l ->
  StronglySorted (fun a b => d a <= d b) (insert_by d t l).
Proof.
  induction 1 as [|q l Hs IH Hq]; simpl; [repeat constructor|]. destruct (Z.ltb_spec (d t) (d q)) as [Hlt|Hge].
  - constructor; [by constructor|]. constructor; [lia|]. eapply Forall_impl; [exact Hq|]. simpl. intros; lia.
  - constructor; [done|]. rewrite insert_by_perm. by constructor.
Qed.

Lemma sorted_ext (R R' : Z -> Z -> Prop) l : (forall a b, a ∈ l -> b ∈ l -> R a b -> R' a b) ->
  StronglySorted R l -> StronglySorted R' l.
Proof.
  intros Hr Hs. induction Hs as [|q l Hs IH Hq]; [constructor|]. constructor.
  - apply IH. intros a b Ha Hb. apply Hr; by right.
  - apply Forall_forall. intros x Hx. rewrite Forall_forall in Hq. apply Hr; [by left|by right|by apply Hq].
Qed.

Lemma sorted_remove R t l : StronglySorted R l -> StronglySorted R (remove_id t l).
Proof.
  unfold remove_id. induction 1 as [|q l Hs IH Hq]; [constructor|]. rewrite filter_cons. case_decide; [|done].
  constructor; [done|]. apply Forall_forall. intros x Hx. apply list_elem_of_filter in Hx as [_ Hx].
  rewrite Forall_forall in Hq. by apply Hq.
Qed.

Lemma remove_elem t l x : x ∈ remove_id t l <-> x <> t /\ x ∈ l.
Proof. unfold remove_id. by rewrite list_elem_of_filter. Qed.

Lemma chain_fuel s c l : chain s c l -> NoDup l -> (length l < list_fuel s)%nat.
Proof.
  intros Hc Hnd. unfold list_fuel. pose proof (chain_valid _ _ _ Hc) as Hv.
  assert (list_to_set l ⊆ dom (timers s)) as Hsub.
  { intros t Ht. apply elem_of_list_to_set in Ht. rewrite Forall_forall in Hv. by apply elem_of_dom, Hv. }
  apply subseteq_size in Hsub. rewrite size_list_to_set, size_dom in Hsub by done. lia.
Qed.

(** Changes to fields other than the links. *)
Lemma update_cells s t f s' : (forall r, t_next (f r) = t_next r) -> update_timer s t f = Ret s' ->
  forall c, load_cell s' c = load_cell s c.
Proof.
  unfold update_timer, load_timer. intros Hf. destruct (timers s !! t) as [r|] eqn:Hr; [|done].
  intros [= <-] [[]|u]; [done|done|]. simpl. unfold load_timer. simpl. destruct (decide (t = u)) as [<-|Hne].
  - rewrite lookup_insert_eq, Hr. simpl. by rewrite Hf.
  - by rewrite lookup_insert_ne.
Qed.

Lemma update_lookup s t f r : timers s !! t = Some r ->
  update_timer s t f = Ret (set_timers (<[t := f r]> (timers s)) s).
Proof. unfold update_timer, load_timer. by intros ->. Qed.

Lemma set_list_same_data s t k r : timers s !! t = Some r ->
  same_data s (set_timers (<[t := set_list k r]> (timers s)) s).
Proof.
  intros Hr. split_and!; [done| |].
  - simpl. rewrite dom_insert_L. apply subseteq_union_1_L, singleton_subseteq_l, elem_of_dom. by exists r.
  - intros u ru Hu. simpl. destruct (decide (t = u)) as [<-|Hne].
    + rewrite lookup_insert_eq. eexists. split; [done|]. rewrite Hr in Hu. injection Hu as <-. done.
    + rewrite lookup_insert_ne by done. by exists ru.
Qed.

Lemma timer_list_insert_spec s k k' l l' t : k <> k' -> chain s (HeadOf k) l -> chain s (HeadOf k') l' ->
  NoDup l -> (forall x, x ∈ l' -> x ∉ l) -> t ∉ l' -> is_Some (timers s !! t) ->
  exists s', timer_list_insert s k t = Ret s'
  /\ chain s' (HeadOf k) (insert_by (delay_of s) t (remove_id t l)) /\ chain s' (HeadOf k') l' /\ same_data s s'
  /\ (exists r, timers s' !! t = Some r /\ t_list r = Some k).
Proof.
  intros Hk Hc Hc' Hnd Hdis Hn Hv. unfold timer_list_insert.
  destruct (unlink_loop_spec t l (list_fuel s) s (HeadOf k) Hc Hnd) as (s1 & -> & Hc1 & Hsd1 & Hf1);
    [intros Hi; by apply list_elem_of_fmap in Hi as (? & ? & _)|by eapply chain_fuel|]. cbn [mbind outcome_bind].
  assert (NoDup (remove_id t l)) as Hnd1 by (by apply NoDup_filter).
  assert (is_Some (timers s1 !! t)) as Hv1
    by (destruct Hv as [r Hr]; destruct Hsd1 as (_ & _ & Hx); destruct (Hx t r Hr) as (r' & -> & _); by eexists).
  destruct (link_loop_spec t (remove_id t l) (list_fuel s) s1 (HeadOf k) Hc1 Hnd1) as (s2 & -> & Hc2 & Hsd2 & Hf2).
  { rewrite remove_elem. tauto. }
  { done. }
  { intros Hi; by apply list_elem_of_fmap in Hi as (? & ? & _). }
  { done. }
  { unfold list_fuel. rewrite <- (same_data_size _ _ Hsd1). by eapply chain_fuel. }
  cbn [mbind outcome_bind].
  assert (exists r2, timers s2 !! t = Some r2) as [r2 Hr2]
    by (destruct Hv1 as [r Hr]; destruct Hsd2 as (_ & _ & Hx); destruct (Hx t r Hr) as (r' & -> & _); by eexists).
  rewrite (update_lookup _ _ _ _ Hr2). eexists. split; [done|].
  pose proof (update_cells s2 t (set_list (Some k)) _ (fun _ => eq_refl) (update_lookup _ _ _ _ Hr2)) as Hcells.
  split_and!.
  - eapply chain_frame; [intros c' _; apply Hcells|].
    rewrite (insert_by_ext (delay_of s) (delay_of s1)); [done|symmetry; by apply same_data_delay|].
    intros q _. symmetry. by apply same_data_delay.
  - eapply chain_frame; [|exact Hc']. intros c' Hi. rewrite Hcells.
    assert ((c' ∉ HeadOf k :: (NextOf <$> l)) /\ c' <> NextOf t) as [H1 H2].
    { apply elem_of_cons in Hi as [->|Hi].
      - split; [|done]. apply not_elem_of_cons. split; [congruence|]. intros Hx. by apply list_elem_of_fmap in Hx as (? & ? & _).
      - apply list_elem_of_fmap in Hi as (u & -> & Hu). split; [|congruence]. apply not_elem_of_cons. split; [done|].
        apply NextOf_notin. by apply Hdis. }
    rewrite Hf2, Hf1; [done|done|]. apply not_elem_of_cons in H1 as [H1 H1']. apply not_elem_of_cons. split; [done|].
    apply not_elem_of_cons. split; [done|]. intros Hx. apply H1'. apply list_elem_of_fmap in Hx as (u & -> & Hu).
    apply list_elem_of_fmap. exists u. split; [done|]. by apply remove_elem in Hu as [_ Hu].
  - etrans; [exact Hsd1|]. etrans; [exact Hsd2|]. by apply set_list_same_data.
  - eexists. simpl. by rewrite lookup_insert_eq.
Qed.

(** The state after the assignment of the expiry time. *)
Definition with_delay (s : multi_timer_ctx_t) (t d : Z) (r : multi_timer_t) : multi_timer_ctx_t :=
  set_timers (<[t := set_delay d r]> (timers s)) s.

Lemma with_delay_of s t d r q : timers s !! t = Some r ->
  delay_of (with_delay s t d r) q = if decide (q = t) then d else delay_of s q.
Proof.
  intros Hr. unfold delay_of. simpl. case_decide as Hq.
  - subst q. by rewrite lookup_insert_eq.
  - by rewrite lookup_insert_ne.
Qed.

Lemma with_delay_chain s t d r c l : timers s !! t = Some r -> chain s c l -> chain (with_delay s t d r) c l.
Proof.
  intros Hr. apply chain_frame. intros c' _.
  exact (update_cells s t (set_delay d) _ (fun _ => eq_refl) (update_lookup _ _ _ _ Hr) c').
Qed.

Definition reload_time (r : multi_timer_t) (now : Z) : Z := u32 (t_period r + now).

Lemma timer_insert_spec s tl ol t r now : timers_wf s tl ol -> timers s !! t = Some r ->
  let d := reload_time r now in
  (d < now -> t ∉ tl) -> (now <= d -> t ∉ ol) ->
  exists s', timer_insert s t now = Ret s' /\ same_data (with_delay s t d r) s'
  /\ timers_wf s' (if d <? now then tl else insert_by (delay_of s') t (remove_id t tl))
                  (if d <? now then insert_by (delay_of s') t (remove_id t ol) else ol)
  /\ (exists r', timers s' !! t = Some r' /\ t_list r' = Some (if d <? now then OverflowList else TimerList)).
Proof.
  intros [Ht Ho Hnd Hs Hso] Hr d Hd1 Hd2. unfold timer_insert, load_timer. rewrite Hr. cbn [of_option mbind outcome_bind].
  fold (reload_time r now). fold d. rewrite (update_lookup _ _ _ _ Hr). cbn [mbind outcome_bind].
  fold (with_delay s t d r). set (s1 := with_delay s t d r).
  pose proof Hnd as Hnd0. apply NoDup_app in Hnd0 as (Hndt & Hdis & Hndo).
  assert (is_Some (timers s1 !! t)) as Hv by (simpl; rewrite lookup_insert_eq; by eexists).
  assert (forall l, t ∉ l -> StronglySorted (by_delay s) l -> StronglySorted (by_delay s1) l) as Hsort.
  { intros l Hl. apply sorted_ext. intros a b Ha Hb. unfold by_delay, s1. rewrite !(with_delay_of _ _ _ _ _ Hr).
    rewrite !decide_False by congruence. done. }
  assert (forall s' l, same_data s1 s' -> t ∉ l -> StronglySorted (by_delay s) l -> StronglySorted (by_delay s') l) as Hkeep.
  { intros s' l Hsd Hl Hsl. eapply sorted_ext; [|by apply Hsort]. intros a b _ _. unfold by_delay.
    by rewrite !(same_data_delay _ _ _ Hsd). }
  assert (forall s' l, same_data s1 s' -> StronglySorted (by_delay s) l ->
     insert_by (delay_of s1) t (remove_id t l) = insert_by (delay_of s') t (remove_id t l)
     /\ StronglySorted (by_delay s') (insert_by (delay_of s') t (remove_id t l))) as Hins.
  { intros s' l Hsd Hsl. split; [apply insert_by_ext; [|intros q _]; symmetry; by apply same_data_delay|].
    apply insert_by_sorted. apply (Hkeep s'); [done|rewrite remove_elem; tauto|by apply sorted_remove]. }
  destruct (Z.ltb_spec d now) as [Hlt|Hge].
  - destruct (timer_list_insert_spec s1 OverflowList TimerList ol tl t) as (s' & -> & Hc & Hc' & Hsd & Htag);
      [done|by apply with_delay_chain|by apply with_delay_chain|done|by intros; apply Hdis|by apply Hd1|done|].
    exists s'. split; [done|]. split; [done|]. destruct (Hins s' ol Hsd Hso) as [Heq Hss]. split; [|done].
    rewrite Heq in Hc. constructor; [done|done| |apply Hkeep; [done|by apply Hd1|done]|done].
    apply NoDup_app. split; [done|]. rewrite insert_by_perm. split.
    + intros x Hx Hi. rewrite insert_by_perm in Hi. apply elem_of_cons in Hi as [->|Hi]; [by apply Hd1|]. apply remove_elem in Hi as [_ Hi]. by eapply Hdis.
    + constructor; [rewrite remove_elem; tauto|by apply NoDup_filter].
  - destruct (timer_list_insert_spec s1 TimerList OverflowList tl ol t) as (s' & -> & Hc & Hc' & Hsd & Htag);
      [done|by apply with_delay_chain|by apply with_delay_chain|done|intros x Hx Hx'; by eapply Hdis|by apply Hd2|done|].
    exists s'. split; [done|]. split; [done|]. destruct (Hins s' tl Hsd Hs) as [Heq Hss]. split; [|done].
    rewrite Heq in Hc. constructor; [done|done| |done|apply Hkeep; [done|by apply Hd2|done]].
    rewrite insert_by_perm. cbn [app]. constructor.
    + rewrite elem_of_app, remove_elem. intros [[? _]|Hi]; [done|by apply Hd2].
    + apply NoDup_app. split; [by apply NoDup_filter|]. split; [|done]. intros x Hx. apply remove_elem in Hx as [_ Hx]. by apply Hdis.
Qed.

(** *** Firing timers *)

Definition same_static (r r' : multi_timer_t) : Prop :=
  t_period r' = t_period r /\ t_callback r' = t_callback r /\ t_arg r' = t_arg r
  /\ t_auto_reload r' = t_auto_reload r.

(** Where an expired timer goes. *)
Definition kept (s : multi_timer_ctx_t) (now t : Z) : option list_id :=
  match timers s !! t with
  | None => None
  | Some r => if t_auto_reload r =? 0 then None
              else if reload_time r now <? now then Some OverflowList else Some TimerList
  end.

Definition reloads_into (k : list_id) (s : multi_timer_ctx_t) (now t : Z) : bool := bool_decide (kept s now t = Some k).

(** Periods are 32-bit and positive. *)
Definition periods_ok (s : multi_timer_ctx_t) : Prop :=
  forall t r, timers s !! t = Some r -> 0 < t_period r < 2 ^ 32.

(** What happens to the timers when those in [e] are fired at [now]. *)
Definition fired (s s' : multi_timer_ctx_t) (e : list Z) (now : Z) : Prop :=
  dom (timers s') = dom (timers s) /\
  forall t r, timers s !! t = Some r -> exists r', timers s' !! t = Some r' /\ same_static r r'
    /\ t_delay r' = (if decide (t ∈ e) then if t_auto_reload r =? 0 then t_delay r else reload_time r now
                     else t_delay r).

Lemma reload_time_ne r now : is_u32 now -> 0 < t_period r < 2 ^ 32 -> reload_time r now <> now.
Proof. unfold reload_time. intros Hn Hp. zsolve. Qed.

Lemma pop_head_wf s t l ol r : timers_wf s (t :: l) ol -> timers s !! t = Some r ->
  timers_wf (set_head TimerList (t_next r) s) l ol.
Proof.
  intros [[_ Ht] Ho Hnd Hs Hso] Hr. assert (forall q, load_cell (set_head TimerList (t_next r) s) (NextOf q) = load_cell s (NextOf q)) as Hn by done.
  constructor.
  - eapply (chain_move s _ (NextOf t)); [|exact Ht|by intros]. simpl. unfold load_timer. by rewrite Hr.
  - eapply (chain_move s _ (HeadOf OverflowList)); [done|exact Ho|by intros].
  - cbn [app] in Hnd. by apply NoDup_cons in Hnd as [_ Hnd].
  - apply StronglySorted_inv in Hs as [Hs _]. eapply sorted_ext; [|exact Hs]. done.
  - eapply sorted_ext; [|exact Hso]. done.
Qed.

Lemma fired_periods s s' e now : fired s s' e now -> periods_ok s -> periods_ok s'.
Proof.
  intros [Hd Hf] Hp t r' Hr'. assert (is_Some (timers s !! t)) as [r Hr]
    by (apply elem_of_dom; rewrite <- Hd; apply elem_of_dom; by eexists).
  destruct (Hf t r Hr) as (r2 & Hr2 & (Hper & _) & _). assert (r2 = r') as -> by congruence.
  rewrite Hper. by eapply Hp.
Qed.

Lemma fired_cons s s1 s' t e now : t ∉ e -> fired s s1 [t] now -> fired s1 s' e now -> fired s s' (t :: e) now.
Proof.
  intros Hn [Hd1 H1] [Hd2 H2]. split; [congruence|]. intros q r Hr.
  destruct (H1 q r Hr) as (r1 & Hr1 & Hst1 & Hdl1). destruct (H2 q r1 Hr1) as (r2 & Hr2 & Hst2 & Hdl2).
  exists r2. split; [done|]. unfold same_static in *. destruct Hst1 as (E1 & E2 & E3 & E4), Hst2 as (G1 & G2 & G3 & G4).
  split; [split_and!; congruence|]. rewrite Hdl2, E4. unfold reload_time. rewrite E1.
  destruct (decide (q = t)) as [->|Hne].
  - rewrite decide_False by done. rewrite Hdl1, !decide_True by (by left). done.
  - rewrite Hdl1, (decide_False (P := q ∈ [t])) by (by rewrite list_elem_of_singleton).
    destruct (decide (q ∈ e)) as [Hq|Hq].
    + rewrite decide_True by (by right). done.
    + rewrite decide_False; [done|]. by rewrite not_elem_of_cons.
Qed.

Lemma fired_kept s s' e now k t : fired s s' e now -> is_Some (timers s !! t) -> reloads_into k s' now t = reloads_into k s now t.
Proof.
  intros [_ Hf] [r Hr]. destruct (Hf t r Hr) as (r' & Hr' & (Hp & _ & _ & Ha) & _).
  unfold reloads_into, kept, reload_time. by rewrite Hr, Hr', Ha, Hp.
Qed.

Lemma fired_delay_other s s' e now t : fired s s' e now -> t ∉ e -> delay_of s' t = delay_of s t.
Proof.
  intros [Hd Hf] Ht. unfold delay_of. destruct (timers s !! t) as [r|] eqn:Hr.
  - destruct (Hf t r Hr) as (r' & -> & _ & Hdl). rewrite decide_False in Hdl by done. simpl. done.
  - assert (timers s' !! t = None) as ->; [|done]. apply not_elem_of_dom. rewrite Hd. by apply not_elem_of_dom.
Qed.

Lemma filter_ext_in (f g : Z -> bool) l : (forall x, x ∈ l -> f x = g x) -> List.filter f l = List.filter g l.
Proof.
  induction l as [|a l IH]; intros Hx; simpl; [done|]. rewrite (Hx a) by (by left).
  rewrite IH; [done|]. intros x Hi. apply Hx. by right.
Qed.

Section firing.
Context {C : Type} (call : Z -> Z -> Z -> multi_timer_ctx_t -> C -> outcome (multi_timer_ctx_t * C))
  (note : Z -> Z -> Z -> C -> C).

(** The callbacks leave the timers alone. *)
Definition passive : Prop := forall cb t a s c, call cb t a s c = Ret (s, note cb t a c).

Definition notify (s : multi_timer_ctx_t) (c : C) (t : Z) : C :=
  match timers s !! t with
  | None => c
  | Some r => if t_callback r =? 0 then c else note (t_callback r) t (t_arg r) c
  end.

Lemma fire_spec s t l ol r c now : passive -> is_u32 now -> timers_wf s (t :: l) ol -> timers s !! t = Some r ->
  0 < t_period r < 2 ^ 32 ->
  exists s', fire call s c t now = Ret (s', notify s c t) /\ fired s s' [t] now /\ last_time s' = last_time s
  /\ timers_wf s' (if reloads_into TimerList s now t then insert_by (delay_of s') t l else l)
                  (if reloads_into OverflowList s now t then insert_by (delay_of s') t ol else ol).
Proof.
  intros Hcall Hnow Hwf Hr Hp. pose proof (pop_head_wf _ _ _ _ _ Hwf Hr) as Hwf1.
  pose proof (tw_nodup _ _ _ Hwf) as Hnd. cbn [app] in Hnd. apply NoDup_cons in Hnd as [Hn Hnd].
  rewrite not_elem_of_app in Hn. destruct Hn as [Hnl Hno].
  unfold fire, load_timer. rewrite Hr. cbn [of_option mbind outcome_bind]. set (s1 := set_head TimerList (t_next r) s) in *.
  unfold reloads_into, kept, notify. rewrite Hr. destruct (t_auto_reload r =? 0) eqn:Ha.
  - exists s1. cbn [mbind outcome_bind]. change (timers s1) with (timers s). rewrite Hr. cbn [of_option mbind outcome_bind].
    rewrite !bool_decide_false by done. split; [by destruct (t_callback r =? 0)|]. split_and!; [|done|done].
    split; [done|]. intros q rq Hq. exists rq. split; [done|]. split; [done|]. case_decide as Hin; [|done].
    apply list_elem_of_singleton in Hin as ->. assert (rq = r) as -> by congruence. by rewrite Ha.
  - destruct (timer_insert_spec s1 l ol t r now Hwf1 Hr) as (s2 & -> & Hsd & Hwf2 & _); [done|done|].
    rewrite !remove_notin in Hwf2 by done. cbn [mbind outcome_bind].
    destruct Hsd as (Hlast & Hdom & Hsd).
    destruct (Hsd t (set_delay (reload_time r now) r)) as (r2 & Hr2 & Hd2 & Hp2 & Hc2 & Ha2 & Hl2);
      [simpl; by rewrite lookup_insert_eq|]. simpl in *.
    rewrite Hr2. cbn [of_option mbind outcome_bind]. rewrite Hc2, Ha2. exists s2.
    split; [by destruct (t_callback r =? 0)|]. split_and!; [|done|].
    + split; [rewrite Hdom; simpl; rewrite dom_insert_L; apply subseteq_union_1_L, singleton_subseteq_l, elem_of_dom; by exists r|].
      intros q rq Hq. destruct (decide (q = t)) as [->|Hne].
      * assert (rq = r) as -> by congruence. exists r2. split; [done|]. split; [done|].
        rewrite decide_True by (by left). by rewrite Ha.
      * destruct (Hsd q rq) as (rq' & Hq' & Hd & Hst); [by rewrite lookup_insert_ne|].
        exists rq'. split; [done|]. split; [done|]. rewrite decide_False; [done|].
        rewrite list_elem_of_singleton. done.
    + destruct (reload_time r now <? now).
      * rewrite bool_decide_false, bool_decide_true by done. exact Hwf2.
      * rewrite bool_decide_true, bool_decide_false by done. exact Hwf2.
Qed.

Lemma fired_notify s s' e now l c : fired s s' e now -> Forall (fun t => is_Some (timers s !! t)) l ->
  foldl (notify s') c l = foldl (notify s) c l.
Proof.
  intros [_ Hf]. revert c. induction l as [|t l IH]; intros c Hv; simpl; [done|].
  apply Forall_cons in Hv as [[r Hr] Hv]. rewrite IH by done. f_equal. unfold notify.
  destruct (Hf t r Hr) as (r' & -> & (_ & Hcb & Ha & _) & _). by rewrite Hr, Hcb, Ha.
Qed.

(** Expired timers [e] in front, the others behind. *)
(** The loop stops at the first timer that is not due. *)
Lemma timer_process_stops s rest ol c fuel now : timers_wf s rest ol -> Forall (fun t => now < delay_of s t) rest ->
  timer_process call (S fuel) s c now = Ret (s, c).
Proof.
  intros Hwf Hrest. cbn [timer_process]. pose proof (tw_timers _ _ _ Hwf) as Hc.
  destruct rest as [|q rest]; simpl in Hc; [by injection Hc as ->|]. destruct Hc as [Hh Hc]. injection Hh as ->.
  pose proof (chain_valid s (HeadOf TimerList) (q :: rest) (tw_timers _ _ _ Hwf)) as Hv.
  apply Forall_cons in Hv as [[r Hr] _], Hrest as [Hq _]. rewrite (delay_of_lookup _ _ _ Hr) in Hq.
  unfold load_timer. rewrite Hr. cbn [of_option mbind outcome_bind].
  by destruct (Z.ltb_spec now (t_delay r)); [|lia].
Qed.

(** A reloaded timer is due later. *)
Lemma reloaded_later s s1 t r now : is_u32 now -> 0 < t_period r < 2 ^ 32 -> timers s !! t = Some r -> fired s s1 [t] now ->
  reloads_into TimerList s now t = true -> now < delay_of s1 t.
Proof.
  intros Hnow Hp Hr [_ Hfd]. unfold reloads_into, kept. rewrite Hr. intros Hk. apply bool_decide_eq_true in Hk.
  destruct (t_auto_reload r =? 0) eqn:Ha; [done|]. destruct (Z.ltb_spec (reload_time r now) now); [done|].
  destruct (Hfd t r Hr) as (r1 & Hr1 & _ & Hd1). rewrite decide_True, Ha in Hd1 by (by left).
  rewrite (delay_of_lookup _ _ _ Hr1), Hd1. pose proof (reload_time_ne r now Hnow Hp). lia.
Qed.

(** The lists after the first of the due timers [t :: e] was fired. *)
Lemma timer_process_step s t e rest ol c fuel now : passive -> is_u32 now -> periods_ok s ->
  timers_wf s (t :: e ++ rest) ol -> Forall (fun q => delay_of s q <= now) (t :: e) -> Forall (fun q => now < delay_of s q) rest ->
  exists s1, timer_process call (S fuel) s c now = timer_process call fuel s1 (notify s c t) now
  /\ fired s s1 [t] now /\ last_time s1 = last_time s
  /\ let rest1 := if reloads_into TimerList s now t then insert_by (delay_of s1) t rest else rest in
     let ol1 := if reloads_into OverflowList s now t then insert_by (delay_of s1) t ol else ol in
     timers_wf s1 (e ++ rest1) ol1 /\ Forall (fun q => delay_of s1 q <= now) e /\ Forall (fun q => now < delay_of s1 q) rest1.
Proof.
  intros Hcall Hnow Hper Hwf He Hrest. pose proof (tw_timers _ _ _ Hwf) as Hc. pose proof (chain_valid _ _ _ Hc) as Hv.
  apply Forall_cons in Hv as [[r Hr] Hv]. apply Forall_cons in He as [Ht He].
  pose proof (tw_nodup _ _ _ Hwf) as Hnd. cbn [app] in Hnd. apply NoDup_cons in Hnd as [Hn _].
  rewrite !not_elem_of_app in Hn. destruct Hn as [[Hne Hnr] _].
  destruct (fire_spec s t (e ++ rest) ol r c now Hcall Hnow Hwf Hr (Hper t r Hr)) as (s1 & Hfire & Hfd & Hlast & Hwf1).
  destruct Hc as [Hh _]. injection Hh as Hh. exists s1. split; [|split; [done|split; [done|]]].
  { cbn [timer_process]. rewrite Hh. unfold load_timer at 1. rewrite Hr.
    cbn [of_option mbind outcome_bind]. rewrite (delay_of_lookup _ _ _ Hr) in Ht.
    destruct (Z.ltb_spec now (t_delay r)); [lia|]. by rewrite Hfire. }
  pose proof (reloaded_later s s1 t r now Hnow (Hper t r Hr) Hr Hfd) as Hnew.
  assert (forall P l, (forall q, q ∈ l -> q <> t) -> Forall (fun q => P (delay_of s q)) l -> Forall (fun q => P (delay_of s1 q)) l) as Hkeep.
  { intros P l Hl HP. rewrite Forall_forall in *. intros q Hq. rewrite (fired_delay_other s s1 [t] now q); [by apply HP|done|].
    rewrite list_elem_of_singleton. by apply Hl. }
  assert (Forall (fun q => delay_of s1 q <= now) e) as He1 by (apply (Hkeep (fun d => d <= now)); [by intros q Hq ->|done]).
  assert (Forall (fun q => now < delay_of s1 q) rest) as Hr1 by (apply (Hkeep (fun d => now < d)); [by intros q Hq ->|done]).
  cbv zeta. split; [|split; [done|]].
  - destruct (reloads_into TimerList s now t); [|done]. rewrite insert_by_app in Hwf1; [done|].
    intros q Hq. rewrite Forall_forall in He1. specialize (He1 q Hq). specialize (Hnew eq_refl). lia.
  - destruct (reloads_into TimerList s now t); [|done]. rewrite insert_by_perm. constructor; [by apply Hnew|done].
Qed.

Lemma timer_process_spec e : forall s rest ol c fuel now, passive -> is_u32 now -> periods_ok s ->
  timers_wf s (e ++ rest) ol -> Forall (fun t => delay_of s t <= now) e -> Forall (fun t => now < delay_of s t) rest ->
  (length e < fuel)%nat ->
  exists s' rest' ol', timer_process call fuel s c now = Ret (s', foldl (notify s) c e)
  /\ fired s s' e now /\ last_time s' = last_time s /\ timers_wf s' rest' ol'
  /\ rest' ≡ₚ List.filter (reloads_into TimerList s now) e ++ rest
  /\ ol' ≡ₚ List.filter (reloads_into OverflowList s now) e ++ ol
  /\ Forall (fun t => now < delay_of s' t) rest'.
Proof.
  induction e as [|t e IH]; intros s rest ol c fuel now Hcall Hnow Hper Hwf He Hrest Hf;
    (destruct fuel as [|fuel]; [simpl in Hf; lia|]).
  - exists s, rest, ol. split; [by eapply timer_process_stops|]. split; [|by split_and!].
    split; [done|]. intros q r Hr. exists r. by rewrite decide_False by apply not_elem_of_nil.
  - pose proof (chain_valid _ _ _ (tw_timers _ _ _ Hwf)) as Hv. cbn [app] in Hv, Hwf. apply Forall_cons in Hv as [_ Hv].
    destruct (timer_process_step s t e rest ol c fuel now Hcall Hnow Hper Hwf He Hrest) as (s1 & -> & Hfd & Hlast & Hwf1 & He1 & Hrest1).
    destruct (IH s1 _ _ (notify s c t) fuel now Hcall Hnow (fired_periods _ _ _ _ Hfd Hper) Hwf1 He1 Hrest1)
      as (s' & rest' & ol' & Hp & Hfd' & Hlast' & Hwf' & Hpr & Hpo & Hfin); [simpl in Hf; lia|].
    assert (Forall (fun q => is_Some (timers s !! q)) e) as Hve by (apply Forall_app in Hv as [Hv _]; done).
    assert (forall k, List.filter (reloads_into k s1 now) e = List.filter (reloads_into k s now) e) as Hflt.
    { intros k. apply filter_ext_in. intros q Hq. eapply fired_kept; [done|]. rewrite Forall_forall in Hve. by apply Hve. }
    rewrite Hflt in Hpr, Hpo.
    pose proof (tw_nodup _ _ _ Hwf) as Hnd. cbn [app] in Hnd. apply NoDup_cons in Hnd as [Hn _].
    rewrite !not_elem_of_app in Hn. destruct Hn as [[Hne _] _].
    exists s', rest', ol'. split; [by rewrite Hp, (fired_notify _ _ _ _ _ _ Hfd Hve)|].
    split; [by eapply fired_cons|]. split; [congruence|]. split; [done|]. split_and!; [| |done].
    + rewrite Hpr. cbn [List.filter]. destruct (reloads_into TimerList s now t); [|done].
      rewrite insert_by_perm. apply Permutation_sym, Permutation_middle.
    + rewrite Hpo. cbn [List.filter]. destruct (reloads_into OverflowList s now t); [|done].
      rewrite insert_by_perm. apply Permutation_sym, Permutation_middle.
Qed.

(** A periodic timer that reloads below the wrap keeps the drain loop busy. *)
Lemma overflow_process_busy fuel : forall s tl ol c t r now, passive -> is_u32 now -> periods_ok s ->
  timers_wf s tl ol -> t ∈ tl -> timers s !! t = Some r -> t_auto_reload r <> 0 -> now <= reload_time r now ->
  overflow_timer_process call fuel s c now = NoFuel.
Proof.
  induction fuel as [|fuel IH]; intros s tl ol c t r now Hcall Hnow Hper Hwf Ht Hr Ha Hge.
  - destruct tl as [|q tl]; [by apply not_elem_of_nil in Ht|]. destruct (tw_timers _ _ _ Hwf) as [Hh _].
    injection Hh as Hh. simpl. by rewrite Hh.
  - destruct tl as [|q tl]; [by apply not_elem_of_nil in Ht|]. pose proof (tw_timers _ _ _ Hwf) as Hc.
    pose proof (chain_valid _ _ _ Hc) as Hv. apply Forall_cons in Hv as [[rq Hrq] _]. destruct Hc as [Hh _].
    injection Hh as Hh. cbn [overflow_timer_process]. rewrite Hh.
    destruct (fire_spec s q tl ol rq c now Hcall Hnow Hwf Hrq (Hper q rq Hrq)) as (s1 & -> & Hfd & _ & Hwf1).
    cbn [mbind outcome_bind]. pose proof Hfd as [_ Hfd']. destruct (Hfd' t r Hr) as (r1 & Hr1 & (Hp & _ & _ & Har) & _).
    eapply (IH s1 _ _ _ t r1); [done|done|by eapply fired_periods|exact Hwf1| |done|by rewrite Har|unfold reload_time; by rewrite Hp].
    apply elem_of_cons in Ht as [->|Ht].
    + assert (rq = r) as -> by congruence. assert (reloads_into TimerList s now q = true) as ->.
      { unfold reloads_into, kept. rewrite Hr. apply bool_decide_eq_true. destruct (Z.eqb_spec (t_auto_reload r) 0); [done|].
        by destruct (Z.ltb_spec (reload_time r now) now); [lia|]. }
      rewrite insert_by_perm. by left.
    + destruct (reloads_into TimerList s now q); [|done]. rewrite insert_by_perm. by right.
Qed.

Lemma sorted_split s tl now : StronglySorted (by_delay s) tl ->
  exists e rest, tl = e ++ rest /\ e = List.filter (fun t => delay_of s t <=? now) tl
  /\ Forall (fun t => delay_of s t <= now) e /\ Forall (fun t => now < delay_of s t) rest.
Proof.
  induction 1 as [|t l Hs IH Ht]; [by exists [], []|]. cbn [List.filter].
  destruct (Z.leb_spec (delay_of s t) now) as [Hle|Hgt].
  - destruct IH as (e & rest & -> & He & H1 & H2). exists (t :: e), rest. rewrite <- He.
    split_and!; [done|done|by constructor|done].
  - exists [], (t :: l). assert (Forall (fun q => now < delay_of s q) l) as Hl.
    { eapply Forall_impl; [exact Ht|]. unfold by_delay. simpl. intros; lia. }
    split_and!; [done| |done|by constructor]. clear -Hl. induction Hl as [|q l Hq Hl IH]; [done|]. cbn [List.filter].
    destruct (Z.leb_spec (delay_of s q) now); [lia|done].
Qed.

(** Time to the next expiry: of the current list, or else of the other one. *)
Definition wait_time (s : multi_timer_ctx_t) (tl ol : list Z) (now : Z) : Z :=
  match tl with
  | t :: _ => delay_of s t - now
  | [] => match ol with t :: _ => Z.max 0 (delay_of s t - now) | [] => 0 end
  end.

Lemma next_expire_spec s tl ol : timers_wf s tl ol ->
  next_expire_time_get s = Ret (match tl with t :: _ => delay_of s t | [] => match ol with t :: _ => delay_of s t | [] => 0 end end).
Proof.
  intros [Ht Ho _ _ _]. unfold next_expire_time_get, load_timer.
  destruct tl as [|t tl]; [|pose proof (chain_valid _ _ _ Ht) as Hv; apply Forall_cons in Hv as [[r Hr] _]; destruct Ht as [Ht _]];
    injection Ht as ->.
  2: { rewrite Hr. simpl. by rewrite (delay_of_lookup _ _ _ Hr). }
  destruct ol as [|t ol]; [|pose proof (chain_valid _ _ _ Ho) as Hv; apply Forall_cons in Hv as [[r Hr] _]; destruct Ho as [Ho _]];
    injection Ho as ->; [done|]. rewrite Hr. simpl. by rewrite (delay_of_lookup _ _ _ Hr).
Qed.


(** When the clock has wrapped since the last call, a periodic timer that
    is still in the list is reloaded into the list that is being drained: the
    loop never ends, whatever number of rounds it is given. *)
Theorem yield_wrap_diverges s tl ol c fuel now now2 t r : passive -> is_u32 now -> periods_ok s ->
  timers_wf s tl ol -> now < last_time s -> t ∈ tl -> timers s !! t = Some r -> t_auto_reload r <> 0 ->
  now <= reload_time r now ->
  multi_timer_yield call fuel s c now now2 = NoFuel.
Proof.
  intros Hcall Hnow Hper Hwf Hlast Ht Hr Ha Hge. unfold multi_timer_yield.
  destruct (Z.ltb_spec now (last_time s)); [|lia]. by erewrite overflow_process_busy.
Qed.

End firing.

(** [multi_timer_start] sets the expiry time to now plus the period,
    modulo 2^32, and puts the timer at its place in the list of the current
    clock run, or of the next one when the sum wraps; a timer that was waiting
    in that list is moved. The other list and all other timers keep their
    content, and both lists stay sorted. *)
Theorem start_refines s tl ol t r now : timers_wf s tl ol -> timers s !! t = Some r ->
  let d := reload_time r now in
  (d < now -> t ∉ tl) -> (now <= d -> t ∉ ol) ->
  exists s', multi_timer_start s (Some t) now = Ret (QM_EOK, s') /\ delay_of s' t = d
  /\ (forall q, q <> t -> delay_of s' q = delay_of s q)
  /\ timers_wf s' (if d <? now then tl else insert_by (delay_of s') t (remove_id t tl))
                  (if d <? now then insert_by (delay_of s') t (remove_id t ol) else ol)
  /\ (exists r', timers s' !! t = Some r' /\ t_list r' = Some (if d <? now then OverflowList else TimerList)).
Proof.
  intros Hwf Hr d H1 H2. destruct (timer_insert_spec s tl ol t r now Hwf Hr H1 H2) as (s' & He & Hsd & Hwf' & Hl).
  exists s'. simpl. rewrite He. split; [done|].
  split; [rewrite (same_data_delay _ _ _ Hsd), (with_delay_of _ _ _ _ _ Hr); by rewrite decide_True|].
  split; [|done]. intros q Hq. rewrite (same_data_delay _ _ _ Hsd), (with_delay_of _ _ _ _ _ Hr). by rewrite decide_False.
Qed.

(** [multi_timer_stop] takes a timer out of the list it is tagged with and
    clears the tag; order and content of both lists are otherwise kept. *)
Theorem stop_refines s tl ol t r k : timers_wf s tl ol -> timers s !! t = Some r -> t_list r = Some k ->
  exists s', multi_timer_stop s (Some t) = Ret (QM_EOK, s')
  /\ timers_wf s' (if decide (k = TimerList) then remove_id t tl else tl)
                  (if decide (k = OverflowList) then remove_id t ol else ol)
  /\ same_data s s' /\ (exists r', timers s' !! t = Some r' /\ t_list r' = None).
Proof.
  intros [Ht Ho Hnd Hs Hso] Hr Hk. unfold multi_timer_stop, multi_timer_delete, load_timer. rewrite Hr. simpl. rewrite Hk.
  pose proof Hnd as Hnd0. apply NoDup_app in Hnd0 as (Hndt & Hdis & Hndo).
  set (l := match k with TimerList => tl | OverflowList => ol end).
  assert (chain s (HeadOf k) l) as Hc by (by destruct k). assert (NoDup l) as Hndl by (by destruct k).
  unfold timer_list_remove. destruct (unlink_loop_spec t l (list_fuel s) s (HeadOf k) Hc Hndl) as (s1 & -> & Hc1 & Hsd1 & Hf1);
    [intros Hi; by apply list_elem_of_fmap in Hi as (? & ? & _)|by eapply chain_fuel|]. cbn [mbind outcome_bind].
  destruct Hsd1 as (Hl1 & Hd1 & Hx1). destruct (Hx1 t r Hr) as (r1 & Hr1 & _).
  rewrite (update_lookup _ _ _ _ Hr1). cbn [mbind outcome_bind].
  pose proof (update_cells s1 t (set_list None) _ (fun _ => eq_refl) (update_lookup _ _ _ _ Hr1)) as Hcells.
  set (s2 := set_timers _ s1) in *. exists s2. split; [done|].
  assert (same_data s s2) as Hsd by (etrans; [by split_and!|by apply set_list_same_data]).
  split; [|split; [done|exists (set_list None r1); simpl; by rewrite lookup_insert_eq]].
  assert (forall m, StronglySorted (by_delay s) m -> StronglySorted (by_delay s2) m) as Hsort.
  { intros m. apply sorted_ext. intros a b _ _. unfold by_delay. by rewrite !(same_data_delay _ _ _ Hsd). }
  assert (forall k' m, k' <> k -> chain s (HeadOf k') m -> (forall x, x ∈ m -> x ∉ l) -> chain s2 (HeadOf k') m) as Hother.
  { intros k' m Hne Hm Hd. eapply chain_frame; [|exact Hm]. intros c' Hi. rewrite Hcells. apply Hf1.
    apply elem_of_cons in Hi as [->|Hi].
    - apply not_elem_of_cons. split; [congruence|]. intros Hx. by apply list_elem_of_fmap in Hx as (? & ? & _).
    - apply list_elem_of_fmap in Hi as (u & -> & Hu). apply not_elem_of_cons. split; [done|]. apply NextOf_notin. by apply Hd. }
  assert (chain s2 (HeadOf k) (remove_id t l)) as Hc2 by (eapply chain_frame; [intros c' _; apply Hcells|done]).
  destruct k; cbn; constructor; try done.
  - apply Hother; [done|done|]. intros x Hx Hx'. by eapply Hdis.
  - apply NoDup_app. split; [by apply NoDup_filter|]. split; [|done]. intros x Hx. apply remove_elem in Hx as [_ Hx]. by apply Hdis.
  - apply Hsort. by apply sorted_remove.
  - by apply Hsort.
  - apply Hother; [done|done|]. intros x Hx. by apply Hdis.
  - apply NoDup_app. split; [done|]. split; [|by apply NoDup_filter]. intros x Hx Hi. apply remove_elem in Hi as [_ Hi]. by eapply Hdis.
  - by apply Hsort.
  - apply Hsort. by apply sorted_remove.
Qed.

(** After the lists have been switched at a wrap, the timers that came
    from the overflow list still carry its tag: stopping one reports success
    but leaves it in the list, where it will still fire. *)
Theorem stop_after_switch s tl ol t r : timers_wf s tl ol -> timers s !! t = Some r -> t ∈ ol ->
  t_list r = Some OverflowList ->
  exists s', multi_timer_stop (timer_list_switch s) (Some t) = Ret (QM_EOK, s')
  /\ chain s' (HeadOf TimerList) ol /\ t ∈ ol /\ (exists r', timers s' !! t = Some r' /\ t_list r' = None).
Proof.
  intros Hwf Hr Hin Hk. pose proof (tw_overflow _ _ _ Hwf) as Ho. unfold multi_timer_stop, multi_timer_delete, load_timer. simpl.
  rewrite Hr. simpl. rewrite Hk. unfold timer_list_remove, list_fuel. cbn [unlink_loop load_cell overflow_timer_list timer_list_switch mbind outcome_bind].
  rewrite (update_lookup _ t _ r) by done. cbn [mbind outcome_bind]. eexists. split; [done|]. split; [|split; [done|]].
  - eapply (chain_move s _ (HeadOf OverflowList)); [done|done|]. intros q _.
    exact (update_cells (timer_list_switch s) t (set_list None) _ (fun _ => eq_refl) (update_lookup (timer_list_switch s) t _ r Hr) (NextOf q)).
  - eexists. simpl. by rewrite lookup_insert_eq.
Qed.

(** Restarting a waiting timer so that its new expiry time lies behind the
    wrap links it into the overflow list without taking it out of the current
    one: everything that waited behind it is lost from that list. *)
Theorem restart_across_wrap_drops s t l r now : timers_wf s (t :: l) [] -> timers s !! t = Some r ->
  reload_time r now < now ->
  exists s', multi_timer_start s (Some t) now = Ret (QM_EOK, s')
  /\ chain s' (HeadOf TimerList) [t] /\ chain s' (HeadOf OverflowList) [t].
Proof.
  intros Hwf Hr Hlt. destruct (tw_timers _ _ _ Hwf) as [Hh _]. pose proof (tw_overflow _ _ _ Hwf) as Ho.
  injection Hh as Hh. injection Ho as Ho. unfold multi_timer_start, timer_insert, load_timer. rewrite Hr.
  cbn [of_option mbind outcome_bind]. fold (reload_time r now). rewrite (update_lookup _ _ _ _ Hr). cbn [mbind outcome_bind].
  destruct (Z.ltb_spec (reload_time r now) now); [|lia]. unfold timer_list_insert, list_fuel.
  cbn [unlink_loop load_cell overflow_timer_list set_timers mbind outcome_bind]. rewrite Ho.
  cbn [mbind outcome_bind link_loop load_cell overflow_timer_list set_timers]. rewrite Ho.
  cbn [mbind outcome_bind store_cell]. rewrite (update_lookup _ t _ (set_delay (reload_time r now) r)) by (simpl; by rewrite lookup_insert_eq).
  cbn [mbind outcome_bind set_timers timers]. rewrite insert_insert_eq.
  rewrite (update_lookup _ t _ (set_next None (set_delay (reload_time r now) r))) by (simpl; by rewrite lookup_insert_eq).
  cbn [mbind outcome_bind]. eexists. split; [done|]. unfold chain, load_cell, load_timer. simpl.
  rewrite insert_insert_eq, lookup_insert_eq. simpl. by rewrite Hh.
Qed.

(** ** A concrete state *)

(** A periodic and a one-shot timer waiting, and one timer behind the wrap. *)
Definition demo : multi_timer_ctx_t := mk_mt (Some 1) (Some 3) 100
  (<[1 := mk_timer (Some 2) 105 10 7 0 1 (Some TimerList)]>
  (<[2 := mk_timer None 120 20 8 0 0 (Some TimerList)]>
  (<[3 := mk_timer None 4 50 9 0 1 (Some OverflowList)]> ∅))).

(** The client records which timers fired. *)
Definition demo_note (cb t arg : Z) (c : list Z) : list Z := c ++ [t].
Definition demo_call (cb t arg : Z) (s : multi_timer_ctx_t) (c : list Z) : outcome (multi_timer_ctx_t * list Z) :=
  Ret (s, demo_note cb t arg c).

Lemma demo_wf : timers_wf demo [1; 2] [3].
Proof.
  constructor; [by repeat split|by repeat split|apply (bool_decide_unpack _); vm_compute; exact I| |].
  - repeat constructor. vm_compute. discriminate.
  - repeat constructor.
Defined.

Lemma demo_periods : periods_ok demo.
Proof.
  assert (map_Forall (fun _ r => 0 < t_period r < 2 ^ 32) (timers demo)) as Hm
    by (apply (bool_decide_unpack _); vm_compute; exact I).
  exact Hm.
Defined.

Lemma demo_delays t : is_u32 (delay_of demo t).
Proof.
  assert (map_Forall (fun _ r => 0 <= t_delay r < 2 ^ 32) (timers demo)) as Hm
    by (apply (bool_decide_unpack _); vm_compute; exact I).
  unfold delay_of. destruct (timers demo !! t) as [r|] eqn:Hr; [exact (Hm t r Hr)|]. widths. simpl. lia.
Defined.


Lemma yield_wrap_diverges_witness :
  multi_timer_yield demo_call 1000 demo [] 3 3 = NoFuel.
Proof.
  apply (yield_wrap_diverges demo_call demo_note demo [1; 2] [3] [] 1000 3 3 1
    (mk_timer (Some 2) 105 10 7 0 1 (Some TimerList))).
  - intros cb t a s c. reflexivity.
  - widths. lia.
  - exact demo_periods.
  - exact demo_wf.
  - simpl. lia.
  - by left.
  - reflexivity.
  - simpl. lia.
  - vm_compute. discriminate.
Defined.

Lemma start_refines_witness :
  exists s', multi_timer_start demo (Some 1) 130 = Ret (QM_EOK, s') /\ timers_wf s' [2; 1] [3].
Proof.
  destruct (start_refines demo [1; 2] [3] 1 (mk_timer (Some 2) 105 10 7 0 1 (Some TimerList)) 130 demo_wf eq_refl)
    as (s' & He & _ & _ & Hwf & _).
  - vm_compute. discriminate.
  - intros _. apply (bool_decide_unpack _). vm_compute. exact I.
  - exists s'. split; [exact He|]. vm_compute in He. injection He as <-. exact Hwf.
Defined.

Lemma stop_refines_witness :
  exists s', multi_timer_stop demo (Some 1) = Ret (QM_EOK, s') /\ timers_wf s' [2] [3].
Proof.
  destruct (stop_refines demo [1; 2] [3] 1 (mk_timer (Some 2) 105 10 7 0 1 (Some TimerList)) TimerList demo_wf eq_refl eq_refl)
    as (s' & He & Hwf & _).
  exists s'. split; [exact He|exact Hwf].
Defined.

Lemma stop_after_switch_witness :
  exists s', multi_timer_stop (timer_list_switch demo) (Some 3) = Ret (QM_EOK, s') /\ chain s' (HeadOf TimerList) [3].
Proof.
  destruct (stop_after_switch demo [1; 2] [3] 3 (mk_timer None 4 50 9 0 1 (Some OverflowList)) demo_wf eq_refl)
    as (s' & He & Hc & _); [by left|reflexivity|].
  exists s'. split; [exact He|exact Hc].
Defined.

Lemma restart_across_wrap_drops_witness :
  exists s', multi_timer_start (mk_mt (Some 1) None 100 (timers demo)) (Some 1) (2 ^ 32 - 5) = Ret (QM_EOK, s')
  /\ chain s' (HeadOf TimerList) [1].
Proof.
  destruct (restart_across_wrap_drops (mk_mt (Some 1) None 100 (timers demo)) 1 [2]
    (mk_timer (Some 2) 105 10 7 0 1 (Some TimerList)) (2 ^ 32 - 5)) as (s' & He & Hc & _).
  - constructor; [by repeat split|by repeat split|apply (bool_decide_unpack _); vm_compute; exact I| |constructor].
    repeat constructor. vm_compute. discriminate.
  - reflexivity.
  - vm_compute. reflexivity.
  - exists s'. split; [exact He|exact Hc].
Defined.

End MultiTimer.
