(* ===== verification/MultiButton.v ===== *)
(** * Push buttons (components/multi_button)

    A button is sampled at a fixed interval; its level is debounced and drives
    a small state machine that reports presses, releases, clicks and long
    presses.  Handles live in a store; the work list is the chain of handles
    from [head_handle] along [next].  The pin is an input: each tick gets the
    levels that [pin_level_get] returns.  Callbacks are observers: the model
    returns the events whose callback is called, in order. *)

From S2P Require Import Prelude.
Import list_relations.list list_basics.list.

(** multi_button.h and Kconfig: all values are numbers of ticks. *)
Class ButtonConfig := {
  DEBOUNCE_TICKS : Z;
  SHORT_TICKS : Z;
  LONG_TICKS : Z
}.

Module MultiButton.

Inductive press_event_t :=
| PRESS_EVENT_NONE | PRESS_EVENT_DOWN | PRESS_EVENT_UP | PRESS_EVENT_REPEAT
| PRESS_EVENT_SINGLE_CLICK | PRESS_EVENT_DOUBLE_CLICK | PRESS_EVENT_LONG_START | PRESS_EVENT_LONG_HOLD.

#[global] Instance press_event_eq_dec : EqDecision press_event_t.
Proof. solve_decision. Defined.

Record multi_button_t := mk_button {
  ticks : Z;              (* uint16_t *)
  repeat : Z;             (* 4 bits *)
  event : press_event_t;  (* 4 bits *)
  state : Z;              (* 3 bits *)
  debounce_cnt : Z;       (* 3 bits *)
  active_level : Z;       (* 1 bit *)
  button_level : Z;       (* 1 bit *)
  cb : press_event_t -> bool   (* is a callback attached? *)
}.

Definition bits (w z : Z) : Z := z mod 2 ^ w.
Arguments bits : simpl never.

Definition set_ticks (v : Z) (h : multi_button_t) : multi_button_t :=
  mk_button v (repeat h) (event h) (state h) (debounce_cnt h) (active_level h) (button_level h) (cb h).
Definition set_repeat (v : Z) (h : multi_button_t) : multi_button_t :=
  mk_button (ticks h) v (event h) (state h) (debounce_cnt h) (active_level h) (button_level h) (cb h).
Definition set_event (v : press_event_t) (h : multi_button_t) : multi_button_t :=
  mk_button (ticks h) (repeat h) v (state h) (debounce_cnt h) (active_level h) (button_level h) (cb h).
Definition set_state (v : Z) (h : multi_button_t) : multi_button_t :=
  mk_button (ticks h) (repeat h) (event h) v (debounce_cnt h) (active_level h) (button_level h) (cb h).
Definition set_debounce (cnt level : Z) (h : multi_button_t) : multi_button_t :=
  mk_button (ticks h) (repeat h) (event h) (state h) cnt (active_level h) level (cb h).

(** [level]: what [fn] returns during the call. *)
Definition multi_button_init (level active : Z) : multi_button_t :=
  mk_button 0 0 PRESS_EVENT_NONE 0 0 (bits 1 active) (bits 1 level) (fun _ => false).

Definition multi_button_attach (h : multi_button_t) (e : press_event_t) (has_cb : bool) : multi_button_t :=
  mk_button (ticks h) (repeat h) (event h) (state h) (debounce_cnt h) (active_level h) (button_level h)
    (fun e' => if decide (e' = e) then has_cb else cb h e').

Definition multi_button_event_get (h : multi_button_t) : press_event_t := event h.

(** EVENT_CB *)
Definition EVENT_CB (h : multi_button_t) (e : press_event_t) : list press_event_t := if cb h e then [e] else [].

Section handler.
Context `{ButtonConfig}.

Definition debounce (h : multi_button_t) (read_gpio_level : Z) : multi_button_t :=
  if negb (read_gpio_level =? button_level h) then
    let cnt := bits 3 (debounce_cnt h + 1) in
    if cnt >=? DEBOUNCE_TICKS then set_debounce 0 (bits 1 read_gpio_level) h
    else set_debounce cnt (button_level h) h
  else set_debounce 0 (button_level h) h.

Definition count_tick (h : multi_button_t) : multi_button_t :=
  if state h >? 0 then set_ticks (u16 (ticks h + 1)) h else h.

(** The switch over the state: new handle and the callbacks called. *)
Definition state_machine (h : multi_button_t) : multi_button_t * list press_event_t :=
  let pressed := button_level h =? active_level h in
  if state h =? 0 then
    if pressed then
      (set_state 1 (set_repeat 1 (set_ticks 0 (set_event PRESS_EVENT_DOWN h))), EVENT_CB h PRESS_EVENT_DOWN)
    else (set_event PRESS_EVENT_NONE h, [])
  else if state h =? 1 then
    if negb pressed then
      (set_state 2 (set_ticks 0 (set_event PRESS_EVENT_UP h)), EVENT_CB h PRESS_EVENT_UP)
    else if ticks h >? LONG_TICKS then
      (set_state 5 (set_event PRESS_EVENT_LONG_START h), EVENT_CB h PRESS_EVENT_LONG_START)
    else (h, [])
  else if state h =? 2 then
    if pressed then
      (set_state 3 (set_ticks 0 (set_repeat (bits 4 (repeat h + 1)) (set_event PRESS_EVENT_DOWN h))),
       EVENT_CB h PRESS_EVENT_DOWN ++ EVENT_CB h PRESS_EVENT_REPEAT)
    else if ticks h >? SHORT_TICKS then
      if repeat h =? 1 then
        (set_state 0 (set_event PRESS_EVENT_SINGLE_CLICK h), EVENT_CB h PRESS_EVENT_SINGLE_CLICK)
      else if repeat h =? 2 then
        (set_state 0 (set_event PRESS_EVENT_DOUBLE_CLICK h), EVENT_CB h PRESS_EVENT_DOUBLE_CLICK)
      else (set_state 0 h, [])
    else (h, [])
  else if state h =? 3 then
    if negb pressed then
      (if ticks h <? SHORT_TICKS then set_state 2 (set_ticks 0 (set_event PRESS_EVENT_UP h))
       else set_state 0 (set_event PRESS_EVENT_UP h), EVENT_CB h PRESS_EVENT_UP)
    else if ticks h >? SHORT_TICKS then (set_state 0 h, [])
    else (h, [])
  else if state h =? 5 then
    if pressed then (set_event PRESS_EVENT_LONG_HOLD h, EVENT_CB h PRESS_EVENT_LONG_HOLD)
    else (set_state 0 (set_event PRESS_EVENT_UP h), EVENT_CB h PRESS_EVENT_UP)
  else (h, []).

Definition button_handler (h : multi_button_t) (read_gpio_level : Z) : multi_button_t * list press_event_t :=
  state_machine (debounce (count_tick h) read_gpio_level).

End handler.

(** ** The work list *)

Record buttons := mk_buttons {
  work : list Z;                     (* from [head_handle] along [next] *)
  handles : gmap Z multi_button_t
}.

(** Linking clears nothing but [next] of the new head. *)
Definition multi_button_start (s : buttons) (handle : Z) : Z * buttons :=
  if bool_decide (handle ∈ work s) then (-1, s)
  else (0, mk_buttons (handle :: work s) (handles s)).

Fixpoint unlink (l : list Z) (handle : Z) : list Z :=
  match l with
  | [] => []
  | entry :: l' => if entry =? handle then l' else entry :: unlink l' handle
  end.

Definition multi_button_stop (s : buttons) (handle : Z) : buttons :=
  mk_buttons (unlink (work s) handle) (handles s).

(** One pass over the list; [levels] are the pin levels of this tick. The
    result has the callbacks called, with their button. *)
Fixpoint ticks_loop `{ButtonConfig} (l : list Z) (hs : gmap Z multi_button_t) (levels : Z -> Z)
  : gmap Z multi_button_t * list (Z * press_event_t) :=
  match l with
  | [] => (hs, [])
  | target :: l' =>
      match hs !! target with
      | None => (hs, [])
      | Some h =>
          let '(h', evs) := button_handler h (levels target) in
          let '(hs', out) := ticks_loop l' (<[target := h']> hs) levels in
          (hs', ((fun e => (target, e)) <$> evs) ++ out)
      end
  end.

Definition multi_button_ticks `{ButtonConfig} (s : buttons) (levels : Z -> Z) : buttons * list (Z * press_event_t) :=
  let '(hs, out) := ticks_loop (work s) (handles s) levels in (mk_buttons (work s) hs, out).

(** ** Specification *)

Section spec.
Context `{ButtonConfig}.

(** The events of a sequence of samples. *)
Fixpoint run (h : multi_button_t) (levels : list Z) : multi_button_t * list press_event_t :=
  match levels with
  | [] => (h, [])
  | v :: levels' =>
      let '(h1, e1) := button_handler h v in
      let '(h2, e2) := run h1 levels' in (h2, e1 ++ e2)
  end.

(** Handles within their bit fields and in a state of the machine. *)
Record button_wf (h : multi_button_t) : Prop := {
  bw_ticks : is_u16 (ticks h);
  bw_repeat : 0 <= repeat h < 16;
  bw_state : state h = 0 \/ state h = 1 \/ state h = 2 \/ state h = 3 \/ state h = 5;
  bw_debounce : 0 <= debounce_cnt h < 8;
  bw_active : 0 <= active_level h < 2;
  bw_level : 0 <= button_level h < 2
}.

(** A handle that has settled in state [st] [t] ticks ago, with [r] presses counted. *)
Record settled (h : multi_button_t) (st t r a : Z) : Prop := {
  se_state : state h = st;
  se_ticks : ticks h = t;
  se_repeat : repeat h = r;
  se_debounce : debounce_cnt h = 0;
  se_active : active_level h = a;
  se_cb : forall e, cb h e = true
}.

(** Tick counts stay below the 16-bit wrap (Kconfig allows at most 500). *)
Definition config_ok : Prop := 0 < SHORT_TICKS < 2 ^ 16 - 1 /\ 0 < LONG_TICKS < 2 ^ 16 - 1.

Lemma run_app h l1 l2 : run h (l1 ++ l2) = let '(h1, e1) := run h l1 in let '(h2, e2) := run h1 l2 in (h2, e1 ++ e2).
Proof.
  revert h. induction l1 as [|v l1 IH]; intros h; simpl; [by destruct (run h l2)|].
  destruct (button_handler h v) as [h1 e1]. rewrite IH. destruct (run h1 l1) as [h2 e2].
  destruct (run h2 l2) as [h3 e3]. by rewrite app_assoc.
Qed.

Lemma bits_range w z : 0 <= w -> 0 <= bits w z < 2 ^ w.
Proof. intros Hw. apply Z.mod_pos_bound. lia. Qed.

Lemma bits_id w z : 0 <= z < 2 ^ w -> bits w z = z.
Proof. apply Z.mod_small. Qed.

(** With one debounce tick the sample is the level. *)
Lemma debounce_one h v : DEBOUNCE_TICKS = 1 -> debounce_cnt h = 0 -> 0 <= v < 2 -> debounce h v = set_debounce 0 v h.
Proof.
  intros Hd Hc Hv. unfold debounce. rewrite Hd, Hc. destruct (Z.eqb_spec v (button_level h)) as [->|Hne]; [done|].
  cbn [negb]. rewrite (bits_id 1 v) by lia. done.
Qed.

Lemma handler_settled h st t r a v : DEBOUNCE_TICKS = 1 -> settled h st t r a -> 0 <= v < 2 ->
  exists h1, button_handler h v = state_machine h1 /\ button_level h1 = v
  /\ settled h1 st (if st >? 0 then u16 (t + 1) else t) r a.
Proof.
  intros Hd [Hs Ht Hr Hc Ha Hcb] Hv. unfold button_handler, count_tick. rewrite Hs.
  exists (set_debounce 0 v (if st >? 0 then set_ticks (u16 (ticks h + 1)) h else h)).
  destruct (st >? 0); (rewrite debounce_one by done); (split; [done|]); (split; [done|]);
    constructor; simpl; congruence.
Qed.

(** One sample, by state and level. *)
Lemma step_idle h t r a v : DEBOUNCE_TICKS = 1 -> settled h 0 t r a -> 0 <= v < 2 ->
  exists h', button_handler h v = (h', if v =? a then [PRESS_EVENT_DOWN] else [])
  /\ if v =? a then settled h' 1 0 1 a else settled h' 0 t r a.
Proof.
  intros Hd Hh Hv. destruct (handler_settled h 0 t r a v Hd Hh Hv) as (h1 & -> & Hl & [Hs Ht Hr Hc Ha Hcb]).
  unfold state_machine, EVENT_CB. rewrite Hs, Hl, Ha, !Hcb. simpl. destruct (v =? a); eexists; (split; [done|]); by constructor.
Qed.

Lemma step_pressed h t r a v : DEBOUNCE_TICKS = 1 -> settled h 1 t r a -> 0 <= v < 2 -> 0 <= t < 2 ^ 16 - 1 ->
  exists h', button_handler h v
    = (h', if v =? a then if t + 1 >? LONG_TICKS then [PRESS_EVENT_LONG_START] else [] else [PRESS_EVENT_UP])
  /\ if v =? a then if t + 1 >? LONG_TICKS then settled h' 5 (t + 1) r a else settled h' 1 (t + 1) r a
     else settled h' 2 0 r a.
Proof.
  intros Hd Hh Hv Htr. destruct (handler_settled h 1 t r a v Hd Hh Hv) as (h1 & -> & Hl & [Hs Ht Hr Hc Ha Hcb]).
  simpl in Ht. rewrite u16_id in Ht by (widths; lia).
  unfold state_machine, EVENT_CB. rewrite Hs, Hl, Ha, Ht, !Hcb. simpl.
  destruct (v =? a); simpl; [destruct (t + 1 >? LONG_TICKS)|]; eexists; (split; [done|]); by constructor.
Qed.

Lemma step_released h t r a v : DEBOUNCE_TICKS = 1 -> settled h 2 t r a -> 0 <= v < 2 -> 0 <= t < 2 ^ 16 - 1 ->
  exists h', button_handler h v
    = (h', if v =? a then [PRESS_EVENT_DOWN; PRESS_EVENT_REPEAT]
           else if t + 1 >? SHORT_TICKS then
             if r =? 1 then [PRESS_EVENT_SINGLE_CLICK] else if r =? 2 then [PRESS_EVENT_DOUBLE_CLICK] else []
           else [])
  /\ if v =? a then settled h' 3 0 (bits 4 (r + 1)) a
     else if t + 1 >? SHORT_TICKS then settled h' 0 (t + 1) r a else settled h' 2 (t + 1) r a.
Proof.
  intros Hd Hh Hv Htr. destruct (handler_settled h 2 t r a v Hd Hh Hv) as (h1 & -> & Hl & [Hs Ht Hr Hc Ha Hcb]).
  simpl in Ht. rewrite u16_id in Ht by (widths; lia).
  unfold state_machine, EVENT_CB. rewrite Hs, Hl, Ha, Ht, Hr, !Hcb. simpl.
  destruct (v =? a); [|destruct (t + 1 >? SHORT_TICKS); [destruct (r =? 1); [|destruct (r =? 2)]|]];
    eexists; (split; [done|]); by constructor.
Qed.

Lemma step_repressed h t r a v : DEBOUNCE_TICKS = 1 -> settled h 3 t r a -> 0 <= v < 2 -> 0 <= t < 2 ^ 16 - 1 ->
  exists h', button_handler h v = (h', if v =? a then [] else [PRESS_EVENT_UP])
  /\ if v =? a then if t + 1 >? SHORT_TICKS then settled h' 0 (t + 1) r a else settled h' 3 (t + 1) r a
     else if t + 1 <? SHORT_TICKS then settled h' 2 0 r a else settled h' 0 (t + 1) r a.
Proof.
  intros Hd Hh Hv Htr. destruct (handler_settled h 3 t r a v Hd Hh Hv) as (h1 & -> & Hl & [Hs Ht Hr Hc Ha Hcb]).
  simpl in Ht. rewrite u16_id in Ht by (widths; lia).
  unfold state_machine, EVENT_CB. rewrite Hs, Hl, Ha, Ht, !Hcb. simpl.
  destruct (v =? a); simpl; [destruct (t + 1 >? SHORT_TICKS)|destruct (t + 1 <? SHORT_TICKS)];
    eexists; (split; [done|]); by constructor.
Qed.

(** Waiting in a state: [n] samples that do not end it. *)
Lemma wait_in st limit stay h t r a n :
  (forall h t, settled h st t r a -> 0 <= t -> t + 1 <= limit ->
     exists h', button_handler h stay = (h', []) /\ settled h' st (t + 1) r a) ->
  settled h st t r a -> 0 <= t -> t + Z.of_nat n <= limit ->
  exists h', run h (replicate n stay) = (h', []) /\ settled h' st (t + Z.of_nat n) r a.
Proof.
  intros Hstep. revert h t. induction n as [|n IH]; intros h t Hh Ht Hl; cbn [replicate run].
  - exists h. by rewrite Z.add_0_r.
  - destruct (Hstep h t Hh Ht) as (h1 & -> & Hh1); [lia|].
    destruct (IH h1 (t + 1) Hh1) as (h2 & -> & Hh2); [lia|lia|]. exists h2. split; [done|].
    by replace (t + Z.of_nat (S n)) with (t + 1 + Z.of_nat n) by lia.
Qed.

Context (Hdb : DEBOUNCE_TICKS = 1) (Hcfg : config_ok).

Lemma wait_pressed h t r a n : settled h 1 t r a -> 0 <= a < 2 -> 0 <= t -> t + Z.of_nat n <= LONG_TICKS ->
  exists h', run h (replicate n a) = (h', []) /\ settled h' 1 (t + Z.of_nat n) r a.
Proof using All.
  destruct Hcfg as [Hs Hl]. intros Hh Ha. apply wait_in; [|done]. intros h0 t0 Hh0 Ht0 Hle.
  destruct (step_pressed h0 t0 r a a Hdb Hh0 Ha) as (h' & He & Hh'); [lia|]. rewrite Z.eqb_refl in He, Hh'.
  destruct (Z.gtb_spec (t0 + 1) LONG_TICKS); [lia|]. by exists h'.
Qed.

Lemma wait_released h t r a n : settled h 2 t r a -> 0 <= a < 2 -> 0 <= t -> t + Z.of_nat n <= SHORT_TICKS ->
  exists h', run h (replicate n (1 - a)) = (h', []) /\ settled h' 2 (t + Z.of_nat n) r a.
Proof using All.
  destruct Hcfg as [Hs Hl]. intros Hh Ha. apply wait_in; [|done]. intros h0 t0 Hh0 Ht0 Hle.
  destruct (step_released h0 t0 r a (1 - a) Hdb Hh0) as (h' & He & Hh'); [lia|lia|].
  destruct (Z.eqb_spec (1 - a) a); [lia|]. destruct (Z.gtb_spec (t0 + 1) SHORT_TICKS); [lia|]. by exists h'.
Qed.

Lemma wait_repressed h t r a n : settled h 3 t r a -> 0 <= a < 2 -> 0 <= t -> t + Z.of_nat n <= SHORT_TICKS ->
  exists h', run h (replicate n a) = (h', []) /\ settled h' 3 (t + Z.of_nat n) r a.
Proof using All.
  destruct Hcfg as [Hs Hl]. intros Hh Ha. apply wait_in; [|done]. intros h0 t0 Hh0 Ht0 Hle.
  destruct (step_repressed h0 t0 r a a Hdb Hh0 Ha) as (h' & He & Hh'); [lia|]. rewrite Z.eqb_refl in He, Hh'.
  destruct (Z.gtb_spec (t0 + 1) SHORT_TICKS); [lia|]. by exists h'.
Qed.

(** A press of [p] samples that is not long, and its release. *)
Lemma press_release h t r a p : settled h 0 t r a -> 0 <= a < 2 -> (0 < p)%nat -> Z.of_nat p <= LONG_TICKS + 1 ->
  exists h', run h (replicate p a ++ [1 - a]) = (h', [PRESS_EVENT_DOWN; PRESS_EVENT_UP]) /\ settled h' 2 0 1 a.
Proof using All.
  intros Hh Ha Hp Hl. destruct p as [|p]; [lia|]. cbn [replicate app run].
  destruct (step_idle h t r a a Hdb Hh Ha) as (h1 & -> & Hh1). rewrite Z.eqb_refl in Hh1 |- *.
  destruct (wait_pressed h1 0 1 a p Hh1 Ha) as (h2 & He2 & Hh2); [lia|lia|]. rewrite run_app, He2. cbn [run].
  destruct Hcfg. destruct (step_pressed h2 (0 + Z.of_nat p) 1 a (1 - a) Hdb Hh2) as (h3 & -> & Hh3); [lia|lia|].
  destruct (Z.eqb_spec (1 - a) a); [lia|]. by exists h3.
Qed.

(** Nothing further until the click is decided. *)
Lemma decide_click h r a : settled h 2 0 r a -> 0 <= a < 2 ->
  exists h' t', run h (replicate (S (Z.to_nat SHORT_TICKS)) (1 - a))
    = (h', if r =? 1 then [PRESS_EVENT_SINGLE_CLICK] else if r =? 2 then [PRESS_EVENT_DOUBLE_CLICK] else [])
  /\ settled h' 0 t' r a.
Proof using All.
  intros Hh Ha. destruct Hcfg. replace (S (Z.to_nat SHORT_TICKS)) with (Z.to_nat SHORT_TICKS + 1)%nat by lia.
  rewrite replicate_add, run_app. destruct (wait_released h 0 r a (Z.to_nat SHORT_TICKS) Hh Ha) as (h1 & -> & Hh1); [lia|lia|].
  cbn [replicate run]. destruct (step_released h1 (0 + Z.of_nat (Z.to_nat SHORT_TICKS)) r a (1 - a) Hdb Hh1) as (h2 & -> & Hh2); [lia|lia|].
  destruct (Z.eqb_spec (1 - a) a); [lia|]. destruct (Z.gtb_spec (0 + Z.of_nat (Z.to_nat SHORT_TICKS) + 1) SHORT_TICKS); [|lia].
  exists h2. eexists. rewrite app_nil_r. split; [done|exact Hh2].
Qed.

(** A press that is not long, followed by a pause, is reported as exactly
    DOWN, UP and SINGLE_CLICK, and the machine is idle again. *)
Theorem single_click h t r a p : settled h 0 t r a -> 0 <= a < 2 -> (0 < p)%nat -> Z.of_nat p <= LONG_TICKS + 1 ->
  exists h' t', run h (replicate p a ++ [1 - a] ++ replicate (S (Z.to_nat SHORT_TICKS)) (1 - a))
    = (h', [PRESS_EVENT_DOWN; PRESS_EVENT_UP; PRESS_EVENT_SINGLE_CLICK]) /\ settled h' 0 t' 1 a.
Proof using All.
  intros Hh Ha Hp Hl. rewrite app_assoc, run_app.
  destruct (press_release h t r a p Hh Ha Hp Hl) as (h1 & -> & Hh1).
  destruct (decide_click h1 1 a Hh1 Ha) as (h2 & t2 & -> & Hh2). by exists h2, t2.
Qed.

(** Two short presses with a short gap are reported as DOWN, UP, DOWN,
    REPEAT, UP, DOUBLE_CLICK: no single click in between. *)
Theorem double_click h t r a p1 g p2 : settled h 0 t r a -> 0 <= a < 2 ->
  (0 < p1)%nat -> Z.of_nat p1 <= LONG_TICKS + 1 -> Z.of_nat g <= SHORT_TICKS ->
  (0 < p2)%nat -> Z.of_nat p2 < SHORT_TICKS ->
  exists h' t', run h (replicate p1 a ++ [1 - a] ++ replicate g (1 - a) ++ replicate p2 a ++ [1 - a]
      ++ replicate (S (Z.to_nat SHORT_TICKS)) (1 - a))
    = (h', [PRESS_EVENT_DOWN; PRESS_EVENT_UP; PRESS_EVENT_DOWN; PRESS_EVENT_REPEAT; PRESS_EVENT_UP;
            PRESS_EVENT_DOUBLE_CLICK]) /\ settled h' 0 t' 2 a.
Proof using All.
  intros Hh Ha Hp1 Hl Hg Hp2 Hs. destruct Hcfg as [[Hsp Hsm] _]. rewrite app_assoc, run_app.
  destruct (press_release h t r a p1 Hh Ha Hp1 Hl) as (h1 & -> & Hh1). rewrite run_app.
  destruct (wait_released h1 0 1 a g Hh1 Ha) as (h2 & -> & Hh2); [lia|lia|].
  destruct p2 as [|p2]; [lia|]. cbn [replicate app run].
  destruct (step_released h2 (0 + Z.of_nat g) 1 a a Hdb Hh2 Ha) as (h3 & -> & Hh3); [lia|]. rewrite Z.eqb_refl in Hh3 |- *.
  rewrite run_app. destruct (wait_repressed h3 0 (bits 4 (1 + 1)) a p2 Hh3 Ha) as (h4 & -> & Hh4); [lia|lia|].
  cbn [app run]. destruct (step_repressed h4 (0 + Z.of_nat p2) _ a (1 - a) Hdb Hh4) as (h5 & -> & Hh5); [lia|lia|].
  destruct (Z.eqb_spec (1 - a) a); [lia|]. destruct (Z.ltb_spec (0 + Z.of_nat p2 + 1) SHORT_TICKS); [|lia].
  destruct (decide_click h5 (bits 4 (1 + 1)) a Hh5 Ha) as (h6 & t6 & He & Hh6). cbn [replicate run] in He. rewrite He.
  by exists h6, t6.
Qed.

(** A press longer than the limit is reported as DOWN and LONG_START, then
    LONG_HOLD for every further sample and UP at the release: never a click. *)
Theorem long_press h t r a k : settled h 0 t r a -> 0 <= a < 2 ->
  exists h', run h (replicate (Z.to_nat LONG_TICKS + 2 + k) a ++ [1 - a])
    = (h', [PRESS_EVENT_DOWN; PRESS_EVENT_LONG_START] ++ replicate k PRESS_EVENT_LONG_HOLD ++ [PRESS_EVENT_UP])
  /\ state h' = 0.
Proof using All.
  intros Hh Ha. destruct Hcfg as [_ Hlg]. replace (Z.to_nat LONG_TICKS + 2 + k)%nat with (S (Z.to_nat LONG_TICKS + S k)) by lia.
  cbn [replicate app run]. destruct (step_idle h t r a a Hdb Hh Ha) as (h1 & -> & Hh1). rewrite Z.eqb_refl in Hh1 |- *.
  rewrite replicate_add, <- app_assoc, run_app.
  destruct (wait_pressed h1 0 1 a (Z.to_nat LONG_TICKS) Hh1 Ha) as (h2 & -> & Hh2); [lia|lia|].
  cbn [replicate app run]. destruct (step_pressed h2 (0 + Z.of_nat (Z.to_nat LONG_TICKS)) 1 a a Hdb Hh2 Ha) as (h3 & -> & Hh3); [lia|].
  rewrite Z.eqb_refl in Hh3 |- *. destruct (Z.gtb_spec (0 + Z.of_nat (Z.to_nat LONG_TICKS) + 1) LONG_TICKS); [|lia].
  assert (exists h4, run h3 (replicate k a) = (h4, replicate k PRESS_EVENT_LONG_HOLD) /\ exists t4, settled h4 5 t4 1 a)
    as (h4 & He4 & t4 & Hh4).
  { revert h3 Hh3. generalize (0 + Z.of_nat (Z.to_nat LONG_TICKS) + 1). clear -Hdb Ha. induction k as [|k IH]; intros t3 h3 Hh3.
    - exists h3. split; [done|]. by exists t3.
    - cbn [replicate run]. destruct (handler_settled h3 5 t3 1 a a Hdb Hh3 Ha) as (h' & -> & Hl & [Hs Ht Hr Hc Hac Hcb]).
      unfold state_machine, EVENT_CB. rewrite Hs, Hl, Hac, !Hcb, Z.eqb_refl. cbn [Z.eqb Pos.eqb].
      destruct (IH (u16 (t3 + 1)) (set_event PRESS_EVENT_LONG_HOLD h')) as (h4 & -> & Hh4); [by constructor|].
      by exists h4. }
  rewrite run_app, He4. cbn [run].
  destruct (handler_settled h4 5 t4 1 a (1 - a) Hdb Hh4) as (h5 & -> & Hl & [Hs Ht Hr Hc Hac Hcb]); [lia|].
  unfold state_machine, EVENT_CB. rewrite Hs, Hl, Hac, !Hcb. cbn [Z.eqb Pos.eqb]. destruct (Z.eqb_spec (1 - a) a); [lia|].
  eexists. split; [reflexivity|reflexivity].
Qed.

(** When the second press of a double click is held, the machine falls
    back to idle while the button is still down and reports a new DOWN: two
    DOWN events for one press, without an UP between them. *)
Theorem held_second_press_repeats_down h t r a p : settled h 0 t r a -> 0 <= a < 2 ->
  (0 < p)%nat -> Z.of_nat p <= LONG_TICKS + 1 ->
  exists h', run h (replicate p a ++ [1 - a] ++ replicate (Z.to_nat SHORT_TICKS + 3) a)
    = (h', [PRESS_EVENT_DOWN; PRESS_EVENT_UP; PRESS_EVENT_DOWN; PRESS_EVENT_REPEAT; PRESS_EVENT_DOWN]).
Proof using All.
  intros Hh Ha Hp Hl. destruct Hcfg as [Hsc _]. rewrite app_assoc, run_app.
  destruct (press_release h t r a p Hh Ha Hp Hl) as (h1 & -> & Hh1).
  replace (Z.to_nat SHORT_TICKS + 3)%nat with (S (Z.to_nat SHORT_TICKS + 2)) by lia. cbn [replicate run].
  destruct (step_released h1 0 1 a a Hdb Hh1 Ha) as (h2 & -> & Hh2); [lia|]. rewrite Z.eqb_refl in Hh2 |- *.
  rewrite replicate_add, run_app.
  destruct (wait_repressed h2 0 (bits 4 (1 + 1)) a (Z.to_nat SHORT_TICKS) Hh2 Ha) as (h3 & -> & Hh3); [lia|lia|].
  cbn [replicate run]. destruct (step_repressed h3 (0 + Z.of_nat (Z.to_nat SHORT_TICKS)) _ a a Hdb Hh3 Ha) as (h4 & -> & Hh4); [lia|].
  rewrite Z.eqb_refl in Hh4 |- *. destruct (Z.gtb_spec (0 + Z.of_nat (Z.to_nat SHORT_TICKS) + 1) SHORT_TICKS); [|lia].
  destruct (step_idle h4 _ _ a a Hdb Hh4 Ha) as (h5 & -> & _). rewrite Z.eqb_refl. by exists h5.
Qed.

End spec.

Section debouncing.
Context `{ButtonConfig}.

(** One sample keeps every handle within its bit fields and in one of the
    five states of the machine. *)
Theorem handler_keeps_wf h v : button_wf h -> is_u8 v -> button_wf (fst (button_handler h v)).
Proof.
  intros Hwf Hv. unfold button_handler.
  assert (button_wf (debounce (count_tick h) v)) as Hd.
  { assert (button_wf (count_tick h)) as [Ht Hr Hs Hc Ha Hl].
    { destruct Hwf. unfold count_tick. destruct (state h >? 0); constructor; simpl; try done. apply u16_range. }
    unfold debounce. destruct (negb _); [destruct (_ >=? _)|]; constructor; simpl; try done; try lia.
    - apply (bits_range 1). lia.
    - apply (bits_range 3). lia. }
  destruct Hd as [Ht Hr Hs Hc Ha Hl]. generalize dependent (debounce (count_tick h) v). clear. intros h Ht Hr Hs Hc Ha Hl.
  unfold state_machine. pose proof (bits_range 4 (repeat h + 1) ltac:(lia)).
  assert (is_u16 0) by (widths; lia).
  repeat case_match; constructor; simpl; try done; try lia; tauto.
Qed.

(** Debouncing. With N debounce ticks (N at most 7) a new level is taken
    over at the N-th consecutive sample that shows it, and not before. *)
Theorem debounce_takes_n h v k : 1 <= DEBOUNCE_TICKS <= 7 -> debounce_cnt h = 0 -> 0 <= v < 2 -> v <> button_level h ->
  button_level (Nat.iter k (fun h => debounce h v) h) = (if Z.of_nat k <? DEBOUNCE_TICKS then button_level h else v).
Proof.
  intros HD Hc Hv Hne.
  assert (button_level (Nat.iter k (fun h => debounce h v) h) = (if Z.of_nat k <? DEBOUNCE_TICKS then button_level h else v)
    /\ debounce_cnt (Nat.iter k (fun h => debounce h v) h) = (if Z.of_nat k <? DEBOUNCE_TICKS then Z.of_nat k else 0)) as [Hl _];
    [|done].
  induction k as [|k [IHl IHc]]; [change (Z.of_nat 0) with 0; destruct (Z.ltb_spec 0 DEBOUNCE_TICKS); [by split|lia]|].
  cbn [Nat.iter nat_rect]. change (nat_rect _ _ _ k) with (Nat.iter k (fun h => debounce h v) h).
  set (h1 := Nat.iter k (fun h => debounce h v) h) in *. unfold debounce. rewrite IHl, IHc.
  destruct (Z.ltb_spec (Z.of_nat k) DEBOUNCE_TICKS) as [Hk|Hk].
  - destruct (Z.eqb_spec v (button_level h)); [done|]. cbn [negb]. rewrite bits_id by lia.
    rewrite Z.geb_leb. destruct (Z.leb_spec DEBOUNCE_TICKS (Z.of_nat k + 1)), (Z.ltb_spec (Z.of_nat (S k)) DEBOUNCE_TICKS); try lia; simpl.
    + rewrite bits_id by lia. done.
    + split; [done|lia].
  - rewrite Z.eqb_refl. simpl. destruct (Z.ltb_spec (Z.of_nat (S k)) DEBOUNCE_TICKS); [lia|done].
Qed.

(** With the 8 debounce ticks the header calls the maximum, the 3-bit
    counter wraps before it reaches the limit: no sequence of samples ever
    changes the level of the button. *)
Theorem debounce_eight_stuck h vs : 8 <= DEBOUNCE_TICKS ->
  button_level (fst (run h vs)) = button_level h.
Proof.
  intros HD. revert h. induction vs as [|v vs IH]; intros h; [done|]. cbn [run].
  destruct (button_handler h v) as [h1 e1] eqn:He. specialize (IH h1).
  destruct (run h1 vs) as [h2 e2]. cbn [fst] in *. rewrite IH.
  assert (forall g, button_level (fst (state_machine g)) = button_level g) as Hsm
    by (intros g; unfold state_machine; repeat case_match; done).
  unfold button_handler in He. replace h1 with (fst (state_machine (debounce (count_tick h) v))) by (by rewrite He).
  rewrite Hsm. unfold debounce. pose proof (bits_range 3 (debounce_cnt (count_tick h) + 1) ltac:(lia)).
  rewrite Z.geb_leb. destruct (Z.leb_spec DEBOUNCE_TICKS (bits 3 (debounce_cnt (count_tick h) + 1))); [lia|].
  assert (button_level (count_tick h) = button_level h) as Hct by (unfold count_tick; by destruct (_ >? _)).
  by destruct (negb _).
Qed.

(** [multi_button_ticks] samples every started button exactly once, with
    its own level, and touches no other handle. *)
Theorem ticks_samples_each s levels : NoDup (work s) -> (forall t, t ∈ work s -> is_Some (handles s !! t)) ->
  let s' := fst (multi_button_ticks s levels) in
  work s' = work s /\
  forall t, handles s' !! t = (if decide (t ∈ work s) then (fun h => fst (button_handler h (levels t))) <$> handles s !! t
                              else handles s !! t).
Proof.
  intros Hnd Hv. unfold multi_button_ticks. destruct (ticks_loop (work s) (handles s) levels) as [hs out] eqn:He.
  simpl. split; [done|]. revert He Hv. generalize (handles s) as hs0, out. induction (work s) as [|q l IH]; intros hs0 out0 He Hv t.
  - injection He as <- _. by rewrite decide_False by apply not_elem_of_nil.
  - apply NoDup_cons in Hnd as [Hq Hnd]. destruct (Hv q) as [h Hh]; [by left|]. cbn [ticks_loop] in He. rewrite Hh in He.
    destruct (button_handler h (levels q)) as [h' evs] eqn:Hb. destruct (ticks_loop l (<[q := h']> hs0) levels) as [hs1 out1] eqn:Hl.
    injection He as <- _. rewrite (IH Hnd _ _ Hl).
    + destruct (decide (t = q)) as [->|Hne].
      * rewrite decide_False by done. rewrite lookup_insert_eq, decide_True by (by left). by rewrite Hh; simpl; rewrite Hb.
      * rewrite lookup_insert_ne by done. destruct (decide (t ∈ l)) as [Hi|Hi].
        -- by rewrite decide_True by (by right).
        -- rewrite decide_False; [done|]. by rewrite not_elem_of_cons.
    + intros u Hu. destruct (decide (u = q)) as [->|Hne]; [rewrite lookup_insert_eq; by eexists|].
      rewrite lookup_insert_ne by done. apply Hv. by right.
Qed.

(** Starting and stopping keep every handle in the work list at most once:
    a started button is not started again, and stopping takes it out. *)
Theorem start_stop_work s t : NoDup (work s) ->
  let '(rc, s1) := multi_button_start s t in
  NoDup (work s1) /\ t ∈ work s1 /\ (rc = 0 <-> t ∉ work s)
  /\ NoDup (work (multi_button_stop s1 t)) /\ (t ∉ work (multi_button_stop s1 t))
  /\ (forall q, q <> t -> (q ∈ work (multi_button_stop s1 t) <-> q ∈ work s)).
Proof.
  intros Hnd. assert (forall l, NoDup l -> unlink l t = filter (fun x => x <> t) l) as Hun.
  { clear. induction l as [|q l IH]; intros Hnd; [done|]. apply NoDup_cons in Hnd as [Hq Hnd]. cbn [unlink].
    rewrite filter_cons. destruct (Z.eqb_spec q t) as [->|Hne].
    - rewrite decide_False by (by intros Hx; apply Hx). symmetry.
      clear -Hq. induction l as [|a l IH]; [done|]. apply not_elem_of_cons in Hq as [Ha Hq].
      rewrite filter_cons, decide_True by done. by rewrite IH.
    - rewrite decide_True by done. by rewrite IH. }
  unfold multi_button_start. case_bool_decide as Hin; cbn [work multi_button_stop].
  - rewrite Hun by done. split_and!; [done|done|split; [lia|done]|by apply NoDup_filter| |].
    + rewrite list_elem_of_filter. tauto.
    + intros q Hq. rewrite list_elem_of_filter. tauto.
  - assert (NoDup (t :: work s)) as Hnd' by (by constructor). rewrite Hun by done.
    split_and!; [done|by left|done|by apply NoDup_filter| |].
    + rewrite list_elem_of_filter. tauto.
    + intros q Hq. rewrite list_elem_of_filter, elem_of_cons. tauto.
Qed.

End debouncing.

(** ** The default configuration *)

Definition demo_cfg : ButtonConfig := {| DEBOUNCE_TICKS := 1; SHORT_TICKS := 10; LONG_TICKS := 50 |}.
Definition slow_cfg (n : Z) : ButtonConfig := {| DEBOUNCE_TICKS := n; SHORT_TICKS := 10; LONG_TICKS := 50 |}.

(** An active-low button, released, with all callbacks attached. *)
Definition demo_button : multi_button_t := mk_button 0 0 PRESS_EVENT_NONE 0 0 0 1 (fun _ => true).

Lemma demo_settled : settled demo_button 0 0 0 0.
Proof. by constructor. Defined.

Lemma demo_config_ok : config_ok (H := demo_cfg).
Proof. unfold config_ok. simpl. lia. Defined.

Lemma demo_button_wf : button_wf demo_button.
Proof. constructor; simpl; widths; lia. Defined.

Lemma single_click_witness :
  exists h' t', run (H := demo_cfg) demo_button (replicate 3 0 ++ [1] ++ replicate 11 1)
    = (h', [PRESS_EVENT_DOWN; PRESS_EVENT_UP; PRESS_EVENT_SINGLE_CLICK]) /\ settled h' 0 t' 1 0.
Proof.
  apply (single_click (H := demo_cfg) eq_refl demo_config_ok demo_button 0 0 0 3 demo_settled); [lia|lia|simpl; lia].
Defined.

Lemma double_click_witness :
  exists h' t', run (H := demo_cfg) demo_button (replicate 3 0 ++ [1] ++ replicate 4 1 ++ replicate 5 0 ++ [1] ++ replicate 11 1)
    = (h', [PRESS_EVENT_DOWN; PRESS_EVENT_UP; PRESS_EVENT_DOWN; PRESS_EVENT_REPEAT; PRESS_EVENT_UP;
            PRESS_EVENT_DOUBLE_CLICK]) /\ settled h' 0 t' 2 0.
Proof.
  apply (double_click (H := demo_cfg) eq_refl demo_config_ok demo_button 0 0 0 3 4 5 demo_settled); simpl; lia.
Defined.

Lemma long_press_witness :
  exists h', run (H := demo_cfg) demo_button (replicate 54 0 ++ [1])
    = (h', [PRESS_EVENT_DOWN; PRESS_EVENT_LONG_START] ++ replicate 2 PRESS_EVENT_LONG_HOLD ++ [PRESS_EVENT_UP]) /\ state h' = 0.
Proof. apply (long_press (H := demo_cfg) eq_refl demo_config_ok demo_button 0 0 0 2 demo_settled). lia. Defined.

Lemma held_second_press_repeats_down_witness :
  exists h', run (H := demo_cfg) demo_button (replicate 3 0 ++ [1] ++ replicate 13 0)
    = (h', [PRESS_EVENT_DOWN; PRESS_EVENT_UP; PRESS_EVENT_DOWN; PRESS_EVENT_REPEAT; PRESS_EVENT_DOWN]).
Proof.
  apply (held_second_press_repeats_down (H := demo_cfg) eq_refl demo_config_ok demo_button 0 0 0 3 demo_settled); simpl; lia.
Defined.

Lemma handler_keeps_wf_witness : button_wf (fst (button_handler (H := demo_cfg) demo_button 0)).
Proof. apply (handler_keeps_wf (H := demo_cfg) demo_button 0 demo_button_wf). widths. lia. Defined.

Lemma debounce_takes_n_witness :
  button_level (Nat.iter 2 (fun h => debounce (H := slow_cfg 3) h 0) demo_button) = 1
  /\ button_level (Nat.iter 3 (fun h => debounce (H := slow_cfg 3) h 0) demo_button) = 0.
Proof.
  split.
  - apply (debounce_takes_n (H := slow_cfg 3) demo_button 0 2); simpl; lia.
  - apply (debounce_takes_n (H := slow_cfg 3) demo_button 0 3); simpl; lia.
Defined.

Lemma debounce_eight_stuck_witness :
  button_level (fst (run (H := slow_cfg 8) demo_button (replicate 100 0))) = 1.
Proof. apply (debounce_eight_stuck (H := slow_cfg 8) demo_button (replicate 100 0)). simpl. lia. Defined.

Lemma ticks_samples_each_witness :
  let s := mk_buttons [4] (<[4 := demo_button]> ∅) in
  handles (fst (multi_button_ticks (H := demo_cfg) s (fun _ => 0))) !! 4
  = Some (fst (button_handler (H := demo_cfg) demo_button 0)).
Proof.
  intros s. destruct (ticks_samples_each (H := demo_cfg) s (fun _ => 0)) as [_ Ht].
  - apply (bool_decide_unpack _). vm_compute. exact I.
  - intros t Hi. apply list_elem_of_singleton in Hi as ->. by eexists.
  - rewrite Ht. reflexivity.
Defined.

Lemma start_stop_work_witness :
  4 ∈ work (snd (multi_button_start (mk_buttons [7] ∅) 4))
  /\ (4 ∉ work (multi_button_stop (snd (multi_button_start (mk_buttons [7] ∅) 4)) 4)).
Proof.
  destruct (start_stop_work (mk_buttons [7] ∅) 4) as (_ & Hi & _ & _ & Ho & _).
  - apply (bool_decide_unpack _). vm_compute. exact I.
  - split; [exact Hi|exact Ho].
Defined.

End MultiButton.
