(* ===== verification/QList.v ===== *)
(** * Doubly linked lists (utility/list)

    Nodes live in a store addressed by pointers; the list structure has head,
    tail and length.  [list_wf h self ns] says that the pointers form the
    sequence [ns] of nodes in both directions.  Every dereference of NULL or of
    a freed node is an [OutOfBounds] outcome. *)

From S2P Require Import Prelude Outcome.
Import list_relations.list list_basics.list.

Module QList.

Record qm_list_node_t := mk_node {
  prev : option Z;
  next : option Z;
  val : Z
}.

(** [free]: is a destructor for values installed?  [matchf]: the comparison. *)
Record qm_list_t := mk_list {
  head : option Z;
  tail : option Z;
  len : Z;
  free : bool;
  matchf : option (Z -> Z -> bool)
}.

Inductive qm_list_direction_t := LIST_HEAD | LIST_TAIL.

Record qm_list_iterator_t := mk_iter { it_next : option Z; direction : qm_list_direction_t }.

Abbreviation store := (gmap Z qm_list_node_t).

Definition set_prev (v : option Z) (n : qm_list_node_t) : qm_list_node_t := mk_node v (next n) (val n).
Definition set_next (v : option Z) (n : qm_list_node_t) : qm_list_node_t := mk_node (prev n) v (val n).

Definition set_head (v : option Z) (l : qm_list_t) : qm_list_t := mk_list v (tail l) (len l) (free l) (matchf l).
Definition set_tail (v : option Z) (l : qm_list_t) : qm_list_t := mk_list (head l) v (len l) (free l) (matchf l).
Definition set_len (v : Z) (l : qm_list_t) : qm_list_t := mk_list (head l) (tail l) v (free l) (matchf l).

(** [p->...]: NULL and freed nodes cannot be dereferenced. *)
Definition deref (h : store) (p : option Z) : outcome (Z * qm_list_node_t) :=
  match p with
  | None => OutOfBounds
  | Some a => n ← of_option (h !! a); Ret (a, n)
  end.

Definition write_prev (h : store) (p : option Z) (v : option Z) : outcome store :=
  '(a, n) ← deref h p; Ret (<[a := set_prev v n]> h).
Definition write_next (h : store) (p : option Z) (v : option Z) : outcome store :=
  '(a, n) ← deref h p; Ret (<[a := set_next v n]> h).

(** ** Operations *)

(** [addr]: the result of the allocation. *)
Definition qm_list_new (addr : option Z) : option qm_list_t :=
  match addr with None => None | Some _ => Some (mk_list None None 0 false None) end.

Definition qm_list_node_new (h : store) (addr : option Z) (v : Z) : option Z * store :=
  match addr with
  | None => (None, h)
  | Some a => (Some a, <[a := mk_node None None v]> h)
  end.

(** The value area lies behind the node: three pointers of 4 bytes. *)
Definition qm_list_node_extra_new (h : store) (addr : option Z) : option Z * store :=
  match addr with
  | None => (None, h)
  | Some a => (Some a, <[a := mk_node None None (a + 12)]> h)
  end.

Definition qm_list_node_destroy (h : store) (node : Z) : store := delete node h.

Definition qm_list_node_init (h : store) (node : option Z) (v : Z) : store :=
  match node with None => h | Some a => <[a := mk_node None None v]> h end.

Definition qm_list_len_get (self : option qm_list_t) : Z := match self with None => 0 | Some l => len l end.

Definition qm_list_node_val_get (h : store) (node : option Z) : outcome (option Z) :=
  match node with None => Ret None | Some _ => '(_, n) ← deref h node; Ret (Some (val n)) end.

(** Frees [len] nodes from the head on: the remaining store and the values
    passed to the destructor. *)
Fixpoint destroy_loop (fuel : nat) (h : store) (curr : option Z) (with_free : bool) : outcome (store * list Z) :=
  match fuel with
  | O => Ret (h, [])
  | S fuel' =>
      '(a, n) ← deref h curr;
      '(h', vs) ← destroy_loop fuel' (delete a h) (next n) with_free;
      Ret (h', if with_free then val n :: vs else vs)
  end.

(** The counter is unsigned. *)
Definition qm_list_destroy (h : store) (self : qm_list_t) : outcome (store * list Z) :=
  destroy_loop (Z.to_nat (u32 (len self))) h (head self) (free self).

Definition qm_list_push_before (h : store) (node n : option Z) : outcome store :=
  '(_, d) ← deref h node;
  h1 ← write_next h (prev d) n;
  '(_, d1) ← deref h1 node;
  h2 ← write_prev h1 n (prev d1);
  h3 ← write_prev h2 node n;
  write_next h3 n node.

Definition qm_list_push_after (h : store) (node n : option Z) : outcome store :=
  '(_, d) ← deref h node;
  h1 ← write_prev h (next d) n;
  '(_, d1) ← deref h1 node;
  h2 ← write_next h1 n (next d1);
  h3 ← write_next h2 node n;
  write_prev h3 n node.

Definition qm_list_rpush (h : store) (self : qm_list_t) (node : option Z) : outcome (option Z * store * qm_list_t) :=
  match node with
  | None => Ret (None, h, self)
  | Some _ =>
      '(h1, self1) ←
        (if negb (len self =? 0) then
           h1 ← write_prev h node (tail self); h2 ← write_next h1 node None;
           h3 ← write_next h2 (tail self) node; Ret (h3, set_tail node self)
         else
           h1 ← write_next h node None; h2 ← write_prev h1 node None;
           Ret (h2, set_head node (set_tail node self)));
      Ret (node, h1, set_len (len self1 + 1) self1)
  end.

Definition qm_list_lpush (h : store) (self : qm_list_t) (node : option Z) : outcome (option Z * store * qm_list_t) :=
  match node with
  | None => Ret (None, h, self)
  | Some _ =>
      '(h1, self1) ←
        (if negb (len self =? 0) then
           h1 ← write_next h node (head self); h2 ← write_prev h1 node None;
           h3 ← write_prev h2 (head self) node; Ret (h3, set_head node self)
         else
           h1 ← write_next h node None; h2 ← write_prev h1 node None;
           Ret (h2, set_head node (set_tail node self)));
      Ret (node, h1, set_len (len self1 + 1) self1)
  end.

Definition qm_list_rpop (h : store) (self : qm_list_t) : outcome (option Z * store * qm_list_t) :=
  if len self =? 0 then Ret (None, h, self)
  else
    let node := tail self in
    let self1 := set_len (len self - 1) self in
    '(h2, self2) ←
      (if negb (len self1 =? 0) then
         '(_, d) ← deref h node;
         h1 ← write_next h (prev d) None; Ret (h1, set_tail (prev d) self1)
       else Ret (h, set_tail None (set_head None self1)));
    h3 ← write_prev h2 node None; h4 ← write_next h3 node None;
    Ret (node, h4, self2).

Definition qm_list_lpop (h : store) (self : qm_list_t) : outcome (option Z * store * qm_list_t) :=
  if len self =? 0 then Ret (None, h, self)
  else
    let node := head self in
    let self1 := set_len (len self - 1) self in
    '(h2, self2) ←
      (if negb (len self1 =? 0) then
         '(_, d) ← deref h node;
         h1 ← write_prev h (next d) None; Ret (h1, set_head (next d) self1)
       else Ret (h, set_head None (set_tail None self1)));
    h3 ← write_prev h2 node None; h4 ← write_next h3 node None;
    Ret (node, h4, self2).

(** *** Iterators *)

Definition qm_list_iterator_init (list : qm_list_t) (d : qm_list_direction_t) : qm_list_iterator_t :=
  mk_iter (match d with LIST_HEAD => head list | LIST_TAIL => tail list end) d.

(** [mem]: does the allocation succeed? *)
Definition qm_list_iterator_new_from_node (mem : bool) (node : option Z) (d : qm_list_direction_t)
  : option qm_list_iterator_t := if mem then Some (mk_iter node d) else None.

Definition qm_list_iterator_new (mem : bool) (list : qm_list_t) (d : qm_list_direction_t) : option qm_list_iterator_t :=
  qm_list_iterator_new_from_node mem (match d with LIST_HEAD => head list | LIST_TAIL => tail list end) d.

Definition qm_list_iterator_next (h : store) (self : qm_list_iterator_t) : outcome (option Z * qm_list_iterator_t) :=
  match it_next self with
  | None => Ret (None, self)
  | Some _ =>
      '(_, n) ← deref h (it_next self);
      Ret (it_next self, mk_iter (match direction self with LIST_HEAD => next n | LIST_TAIL => prev n end) (direction self))
  end.

(** The loop of [qm_list_find]: [node] is the node just returned by [it]. *)
Fixpoint find_loop (fuel : nat) (h : store) (self : qm_list_t) (it : qm_list_iterator_t) (node : option Z) (v : Z)
  : outcome (option Z) :=
  match node with
  | None => Ret None
  | Some _ =>
      match fuel with
      | O => NoFuel
      | S fuel' =>
          '(_, n) ← deref h node;
          let hit := match matchf self with Some f => f v (val n) | None => v =? val n end in
          if hit then Ret node
          else '(node', it') ← qm_list_iterator_next h it; find_loop fuel' h self it' node' v
      end
  end.

(** A chain in the store is not longer than the store. *)
Definition qm_list_find (mem : bool) (h : store) (self : qm_list_t) (v : Z) : outcome (option Z) :=
  match qm_list_iterator_new mem self LIST_HEAD with
  | None => Ret None
  | Some it => '(node, it') ← qm_list_iterator_next h it; find_loop (S (size h)) h self it' node v
  end.

Fixpoint advance (k : nat) (h : store) (it : qm_list_iterator_t) (node : option Z) : outcome (option Z) :=
  match k with
  | O => Ret node
  | S k' => '(node', it') ← qm_list_iterator_next h it; advance k' h it' node'
  end.

Definition qm_list_at (mem : bool) (h : store) (self : qm_list_t) (index : Z) : outcome (option Z) :=
  let '(d, index1) := if index <? 0 then (LIST_TAIL, - index - 1) else (LIST_HEAD, index) in
  if u32 index1 <? u32 (len self) then
    match qm_list_iterator_new mem self d with
    | None => Ret None
    | Some it => '(node, it') ← qm_list_iterator_next h it; advance (Z.to_nat index1) h it' node
    end
  else Ret None.

(** The node itself is not freed; the result has the value passed to the destructor. *)
Definition qm_list_remove (h : store) (self : qm_list_t) (node : Z) : outcome (store * qm_list_t * list Z) :=
  '(_, d) ← deref h (Some node);
  '(h1, self1) ←
    match prev d with
    | Some _ => h1 ← write_next h (prev d) (next d); Ret (h1, self)
    | None => Ret (h, set_head (next d) self)
    end;
  '(_, d1) ← deref h1 (Some node);
  '(h2, self2) ←
    match next d1 with
    | Some _ => h2 ← write_prev h1 (next d1) (prev d1); Ret (h2, self1)
    | None => Ret (h1, set_tail (prev d1) self1)
    end;
  Ret (h2, set_len (len self2 - 1) self2, if free self then [val d] else []).

(** The loop of [qm_list_reverse]: swaps the links of the nodes behind the head. *)
Fixpoint reverse_loop (fuel : nat) (h : store) (cur_node : option Z) : outcome store :=
  match cur_node with
  | None => Ret h
  | Some _ =>
      match fuel with
      | O => NoFuel
      | S fuel' =>
          '(a, n) ← deref h cur_node;
          reverse_loop fuel' (<[a := mk_node (next n) (prev n) (val n)]> h) (next n)
      end
  end.

Definition qm_list_reverse (mem : bool) (h : store) (self : qm_list_t) : outcome (store * qm_list_t) :=
  if len self =? 1 then Ret (h, self)
  else
    match qm_list_iterator_new mem self LIST_HEAD with
    | None => Ret (h, self)
    | Some it =>
        '(head_node, it1) ← qm_list_iterator_next h it;
        '(cur_node, _) ← qm_list_iterator_next h it1;
        h1 ← reverse_loop (S (size h)) h cur_node;
        h2 ← write_next h1 head_node None;
        Ret (h2, set_tail (head self) (set_head (tail self) self))
    end.

(** ** The sequence behind the pointers *)

Definition hd_or (ns : list Z) (d : option Z) : option Z := match ns with [] => d | n :: _ => Some n end.
Definition lst_or (ns : list Z) (d : option Z) : option Z := match last ns with None => d | Some n => Some n end.

(** The nodes [ns], with [p] before the first and [q] after the last. *)
Fixpoint dseg (h : store) (p : option Z) (ns : list Z) (q : option Z) : Prop :=
  match ns with
  | [] => True
  | n :: ns' => (exists v, h !! n = Some (mk_node p (hd_or ns' q) v)) /\ dseg h (Some n) ns' q
  end.

Record list_wf (h : store) (self : qm_list_t) (ns : list Z) : Prop := {
  lw_nodup : NoDup ns;
  lw_seg : dseg h None ns None;
  lw_head : head self = hd_or ns None;
  lw_tail : tail self = lst_or ns None;
  lw_len : len self = Z.of_nat (length ns)
}.

(** The values of the nodes. *)
Definition vals (h : store) (ns : list Z) : list Z := (fun n => default 0 (val <$> h !! n)) <$> ns.

(** ** Lemmas *)

Lemma lst_or_cons n ns d : lst_or (n :: ns) d = lst_or ns (Some n).
Proof. unfold lst_or. rewrite last_cons. by destruct (last ns). Qed.

Lemma lst_or_snoc ns n d : lst_or (ns ++ [n]) d = Some n.
Proof. unfold lst_or. by rewrite last_snoc. Qed.

Lemma hd_or_app a b d : hd_or (a ++ b) d = hd_or a (hd_or b d).
Proof. by destruct a. Qed.

Lemma lst_or_app a b d : lst_or (a ++ b) d = lst_or b (lst_or a d).
Proof.
  revert d. induction a as [|n a IH]; intros d; [done|]. cbn [app]. by rewrite !lst_or_cons, IH.
Qed.

Lemma dseg_app h p a b q : dseg h p (a ++ b) q <-> dseg h p a (hd_or b q) /\ dseg h (lst_or a p) b q.
Proof.
  revert p. induction a as [|n a IH]; intros p; simpl.
  - unfold lst_or. simpl. tauto.
  - rewrite IH, hd_or_app, lst_or_cons. tauto.
Qed.

Lemma dseg_frame h h' p ns q : (forall n, n ∈ ns -> h' !! n = h !! n) -> dseg h p ns q -> dseg h' p ns q.
Proof.
  revert p. induction ns as [|n ns IH]; intros p Hf Hs; [done|]. destruct Hs as [[v Hv] Hs]. split.
  - exists v. rewrite Hf; [done|by left].
  - apply IH; [|done]. intros m Hm. apply Hf. by right.
Qed.

Lemma dseg_insert h p ns q n x : n ∉ ns -> dseg h p ns q -> dseg (<[n := x]> h) p ns q.
Proof. intros Hn. apply dseg_frame. intros m Hm. apply lookup_insert_ne. by intros ->. Qed.

Lemma dseg_lookup h p ns q n : dseg h p ns q -> n ∈ ns -> is_Some (h !! n).
Proof.
  revert p. induction ns as [|m ns IH]; intros p Hs Hn; [by apply not_elem_of_nil in Hn|].
  destruct Hs as [[v Hv] Hs]. apply elem_of_cons in Hn as [->|Hn]; [by eexists|by eapply IH].
Qed.

Lemma deref_Some h n nd : h !! n = Some nd -> deref h (Some n) = Ret (n, nd).
Proof. unfold deref. by intros ->. Qed.

Lemma write_prev_Some h n nd v : h !! n = Some nd -> write_prev h (Some n) v = Ret (<[n := set_prev v nd]> h).
Proof. unfold write_prev, deref. by intros ->. Qed.

Lemma write_next_Some h n nd v : h !! n = Some nd -> write_next h (Some n) v = Ret (<[n := set_next v nd]> h).
Proof. unfold write_next, deref. by intros ->. Qed.

(** Redirecting what precedes or follows a segment. *)
Lemma dseg_set_prev h p p' n ns q : n ∉ ns -> dseg h p (n :: ns) q -> exists h',
  write_prev h (Some n) p' = Ret h' /\ dseg h' p' (n :: ns) q
  /\ (forall m, m <> n -> h' !! m = h !! m) /\ val <$> h' !! n = val <$> h !! n.
Proof.
  intros Hn [[v Hv] Hs]. unfold write_prev, deref. rewrite Hv. eexists. split; [done|]. split_and!.
  - split; [exists v; by rewrite lookup_insert_eq|by apply dseg_insert].
  - intros m Hm. by rewrite lookup_insert_ne.
  - by rewrite lookup_insert_eq.
Qed.

Lemma dseg_set_next h p ns n q q' : n ∉ ns -> dseg h p (ns ++ [n]) q -> exists h',
  write_next h (Some n) q' = Ret h' /\ dseg h' p (ns ++ [n]) q'
  /\ (forall m, m <> n -> h' !! m = h !! m) /\ val <$> h' !! n = val <$> h !! n.
Proof.
  intros Hn Hs. apply dseg_app in Hs as [Hs [[v Hv] _]]. unfold write_next, deref. rewrite Hv. eexists. split; [done|]. split_and!.
  - apply dseg_app. split; [by apply dseg_insert|]. split; [exists v; by rewrite lookup_insert_eq|done].
  - intros m Hm. by rewrite lookup_insert_ne.
  - by rewrite lookup_insert_eq.
Qed.

Lemma vals_ext h h' ns : (forall n, n ∈ ns -> val <$> h' !! n = val <$> h !! n) -> vals h' ns = vals h ns.
Proof.
  intros Hv. unfold vals. apply list_fmap_ext. intros i n Hi. rewrite Hv; [done|by eapply list_elem_of_lookup_2].
Qed.

Lemma list_rev_case (ns : list Z) : ns = [] \/ exists l x, ns = l ++ [x].
Proof. destruct ns as [|x l] using rev_ind; [by left|right; by exists l, x]. Qed.

Lemma write_fresh h n nd v w : h !! n = Some nd ->
  (h1 ← write_prev h (Some n) v; write_next h1 (Some n) w) = Ret (<[n := mk_node v w (val nd)]> h)
  /\ (h1 ← write_next h (Some n) w; write_prev h1 (Some n) v) = Ret (<[n := mk_node v w (val nd)]> h).
Proof.
  intros Hn. unfold write_prev, write_next, deref. rewrite Hn. simpl. rewrite !lookup_insert_eq. simpl.
  by rewrite !insert_insert_eq.
Qed.

Lemma bind_assoc {A B C} (m : outcome A) (f : A -> outcome B) (g : B -> outcome C) :
  (m ≫= f) ≫= g = m ≫= (fun x => f x ≫= g).
Proof. by destruct m. Qed.

(** What precedes a removed node gets a new successor; with nothing before
    it, the head moves. *)
Lemma link_next h self a q q' : NoDup a -> dseg h None a q -> exists h',
  match lst_or a None with
  | Some _ => h1 ← write_next h (lst_or a None) q'; Ret (h1, self)
  | None => Ret (h, set_head q' self)
  end = Ret (h', match a with [] => set_head q' self | _ => self end)
  /\ dseg h' None a q' /\ (forall m, m ∉ a -> h' !! m = h !! m) /\ (forall m, val <$> h' !! m = val <$> h !! m).
Proof.
  intros Hnd Hs. destruct (list_rev_case a) as [->|(l & x & ->)]; [by exists h|].
  rewrite lst_or_snoc. apply NoDup_app in Hnd as (_ & Hdis & _).
  assert (x ∉ l) as Hx by (intros Hi; by eapply Hdis, list_elem_of_singleton).
  destruct (dseg_set_next h None l x q q' Hx Hs) as (h' & -> & Hs' & Hf & Hv). exists h'. simpl.
  split; [by destruct l|]. split; [done|]. split.
  - intros m Hm. apply Hf. intros ->. apply Hm, elem_of_app. right. by left.
  - intros m. destruct (decide (m = x)) as [->|Hne]; [done|by rewrite Hf].
Qed.

Lemma link_prev h self b p p' : NoDup b -> dseg h p b None -> exists h',
  match hd_or b None with
  | Some _ => h1 ← write_prev h (hd_or b None) p'; Ret (h1, self)
  | None => Ret (h, set_tail p' self)
  end = Ret (h', match b with [] => set_tail p' self | _ => self end)
  /\ dseg h' p' b None /\ (forall m, m ∉ b -> h' !! m = h !! m) /\ (forall m, val <$> h' !! m = val <$> h !! m).
Proof.
  intros Hnd Hs. destruct b as [|x l]; [by exists h|]. apply NoDup_cons in Hnd as [Hx _].
  destruct (dseg_set_prev h p p' x l None Hx Hs) as (h' & He & Hs' & Hf & Hv). exists h'. cbn [hd_or]. rewrite He.
  split; [done|]. split; [done|]. split.
  - intros m Hm. apply Hf. intros ->. apply Hm. by left.
  - intros m. destruct (decide (m = x)) as [->|Hne]; [done|by rewrite Hf].
Qed.

Lemma NoDup_middle (a b : list Z) n : NoDup (a ++ n :: b) ->
  NoDup a /\ NoDup b /\ NoDup (a ++ b) /\ (n ∉ a) /\ (n ∉ b) /\ (forall x, x ∈ a -> x ∉ b).
Proof.
  intros Hnd. apply NoDup_app in Hnd as (Ha & Hd & Hb). apply NoDup_cons in Hb as [Hn Hb].
  assert (forall x, x ∈ a -> x ∉ b) as Hab by (intros x Hx Hx'; apply (Hd x Hx); by right).
  split_and!; try done.
  - apply NoDup_app. by split_and!.
  - intros Hi. apply (Hd n Hi). by left.
Qed.

Definition val_of (h : store) (n : Z) : Z := default 0 (val <$> h !! n).

Definition hit (self : qm_list_t) (v w : Z) : bool := match matchf self with Some f => f v w | None => v =? w end.

Lemma dseg_length h p ns q : dseg h p ns q -> NoDup ns -> (length ns <= size h)%nat.
Proof.
  intros Hs Hnd. assert (list_to_set ns ⊆ dom h) as Hsub.
  { intros t Ht. apply elem_of_list_to_set in Ht. apply elem_of_dom. by eapply dseg_lookup. }
  apply subseteq_size in Hsub. rewrite size_list_to_set, size_dom in Hsub by done. lia.
Qed.

Lemma find_loop_spec h self v ns : forall fuel p, dseg h p ns None -> (length ns <= fuel)%nat ->
  find_loop fuel h self (mk_iter (hd_or (List.tl ns) None) LIST_HEAD) (hd_or ns None) v
  = Ret (List.find (fun n => hit self v (val_of h n)) ns).
Proof.
  induction ns as [|n ns IH]; intros fuel p Hs Hf; [by destruct fuel|].
  destruct fuel as [|fuel]; [simpl in Hf; lia|]. destruct Hs as [[w Hw] Hs]. cbn [hd_or List.tl find_loop].
  rewrite (deref_Some _ _ _ Hw). cbn [mbind outcome_bind List.find val].
  assert (val_of h n = w) as -> by (unfold val_of; by rewrite Hw). fold (hit self v w). destruct (hit self v w); [done|].
  specialize (IH fuel (Some n) Hs). destruct ns as [|m ns]; [cbn; by destruct fuel|].
  destruct Hs as [[u Hu] Hs]. unfold qm_list_iterator_next. cbn [it_next hd_or]. rewrite (deref_Some _ _ _ Hu).
  cbn [mbind outcome_bind direction next]. apply IH. simpl in *. lia.
Qed.

Lemma advance_forward h ns : forall k p, dseg h p ns None ->
  advance k h (mk_iter (hd_or (List.tl ns) None) LIST_HEAD) (hd_or ns None) = Ret (ns !! k).
Proof.
  induction ns as [|n ns IH]; intros k p Hs.
  - induction k as [|k IHk]; [done|]. cbn in *. by rewrite IHk.
  - destruct Hs as [_ Hs]. destruct k as [|k]; [done|]. cbn [advance List.tl hd_or lookup list_lookup].
    specialize (IH k (Some n) Hs). destruct ns as [|m ns]; [cbn in *; exact IH|].
    destruct Hs as [[u Hu] Hs]. unfold qm_list_iterator_next. cbn [it_next hd_or]. rewrite (deref_Some _ _ _ Hu).
    cbn [mbind outcome_bind direction next]. exact IH.
Qed.

(** The predecessor of the last node. *)
Definition before_last (ns : list Z) : option Z := lst_or (List.removelast ns) None.

Lemma advance_backward h ns : forall k q, dseg h None ns q ->
  advance k h (mk_iter (before_last ns) LIST_TAIL) (lst_or ns None) = Ret (rev ns !! k).
Proof.
  induction ns as [|n ns IH] using rev_ind; intros k q Hs.
  - induction k as [|k IHk]; [done|]. cbn in *. by rewrite IHk.
  - apply dseg_app in Hs as [Hs _]. cbn [hd_or] in Hs. rewrite lst_or_snoc. unfold before_last. rewrite removelast_last, rev_app_distr.
    destruct k as [|k]; [done|]. cbn [advance rev app lookup list_lookup]. specialize (IH k (Some n) Hs).
    destruct (list_rev_case ns) as [->|(l & x & ->)]; [cbn in *; exact IH|].
    rewrite lst_or_snoc in *. unfold before_last in IH. rewrite removelast_last in IH.
    apply dseg_app in Hs as [_ [[u Hu] _]]. unfold qm_list_iterator_next. cbn [it_next]. rewrite (deref_Some _ _ _ Hu).
    cbn [mbind outcome_bind direction prev]. exact IH.
Qed.

Lemma destroy_loop_spec h ns b : forall p, dseg h p ns None -> NoDup ns ->
  exists h', destroy_loop (length ns) h (hd_or ns None) b = Ret (h', if b then vals h ns else [])
  /\ forall n, h' !! n = if decide (n ∈ ns) then None else h !! n.
Proof.
  revert h. induction ns as [|n ns IH]; intros h p Hs Hnd.
  - exists h. split; [by destruct b|]. intros n. by rewrite decide_False by apply not_elem_of_nil.
  - destruct Hs as [[v Hv] Hs]. apply NoDup_cons in Hnd as [Hn Hnd]. cbn [length destroy_loop hd_or].
    rewrite (deref_Some _ _ _ Hv). cbn [mbind outcome_bind next val].
    destruct (IH (delete n h) (Some n)) as (h' & -> & Hl);
      [eapply dseg_frame; [|exact Hs]; intros m Hm; by rewrite lookup_delete_ne by (intros <-; done)|done|].
    exists h'. cbn [mbind outcome_bind]. split.
    + destruct b; [|done]. unfold vals. simpl. rewrite Hv. simpl. do 3 f_equal. apply list_fmap_ext. intros i m Hi.
      apply list_elem_of_lookup_2 in Hi. by rewrite lookup_delete_ne by (intros <-; done).
    + intros m. rewrite Hl. destruct (decide (m = n)) as [->|Hne].
      * rewrite decide_False by done. rewrite lookup_delete_eq, decide_True by (by left). done.
      * rewrite lookup_delete_ne by done. destruct (decide (m ∈ ns)) as [Hi|Hi].
        -- by rewrite decide_True by (by right).
        -- rewrite decide_False; [done|]. by rewrite not_elem_of_cons.
Qed.

Definition swap_links (n : qm_list_node_t) : qm_list_node_t := mk_node (next n) (prev n) (val n).

Lemma reverse_loop_spec b : forall h p fuel, dseg h p b None -> NoDup b -> (length b <= fuel)%nat ->
  exists h', reverse_loop fuel h (hd_or b None) = Ret h'
  /\ forall m, h' !! m = if decide (m ∈ b) then swap_links <$> h !! m else h !! m.
Proof.
  induction b as [|n b IH]; intros h p fuel Hs Hnd Hf.
  - exists h. split; [by destruct fuel|]. intros m. by rewrite decide_False by apply not_elem_of_nil.
  - destruct fuel as [|fuel]; [simpl in Hf; lia|]. destruct Hs as [[v Hv] Hs]. apply NoDup_cons in Hnd as [Hn Hnd].
    cbn [hd_or reverse_loop]. rewrite (deref_Some _ _ _ Hv). cbn [mbind outcome_bind next prev val].
    destruct (IH (<[n := mk_node (hd_or b None) p v]> h) (Some n) fuel) as (h' & -> & Hl);
      [by apply dseg_insert|done|simpl in Hf; lia|].
    exists h'. split; [done|]. intros m. rewrite Hl. destruct (decide (m = n)) as [->|Hne].
    + rewrite decide_False by done. rewrite lookup_insert_eq, decide_True by (by left). by rewrite Hv.
    + rewrite lookup_insert_ne by done. destruct (decide (m ∈ b)) as [Hi|Hi].
      * by rewrite decide_True by (by right).
      * rewrite decide_False; [done|]. by rewrite not_elem_of_cons.
Qed.

(** The nodes reached from [p] along [next]. *)
Fixpoint fwd (h : store) (p : option Z) (ns : list Z) : Prop :=
  match ns with
  | [] => p = None
  | n :: ns' => p = Some n /\ exists nd, h !! n = Some nd /\ fwd h (next nd) ns'
  end.

Lemma fwd_reversed h h' x b : (exists v w, h' !! x = Some (mk_node w None v)) ->
  forall q, dseg h (Some x) b q -> (forall m, m ∈ b -> h' !! m = swap_links <$> h !! m) ->
  fwd h' (lst_or b (Some x)) (rev b ++ [x]).
Proof.
  intros (v & w & Hx). induction b as [|y b IH] using rev_ind; intros q Hs Hsw.
  - split; [done|]. by eexists.
  - rewrite rev_app_distr, lst_or_snoc. cbn [rev app]. split; [done|].
    apply dseg_app in Hs as [Hs [[u Hu] _]]. eexists. split.
    + rewrite Hsw by (apply elem_of_app; right; by left). by rewrite Hu.
    + simpl. eapply IH; [exact Hs|]. intros m Hm. apply Hsw. apply elem_of_app. by left.
Qed.

(** ** Theorems *)

(** [qm_list_rpush] appends the node: the list holds the old sequence
    followed by the node, linked in both directions, and its length grew by
    one; no value changes. *)
Theorem rpush_appends h self ns n nd : list_wf h self ns -> n ∉ ns -> h !! n = Some nd ->
  exists h' self', qm_list_rpush h self (Some n) = Ret (Some n, h', self')
  /\ list_wf h' self' (ns ++ [n]) /\ vals h' (ns ++ [n]) = vals h ns ++ [val nd].
Proof.
  intros [Hnd Hs Hh Ht Hl] Hn Hnn. unfold qm_list_rpush. rewrite Hl, Ht.
  assert (NoDup (ns ++ [n])) as Hnd' by (apply NoDup_app; split_and!; [done| |apply NoDup_singleton]; intros x Hx Hx';
    apply list_elem_of_singleton in Hx'; subst; done).
  destruct (list_rev_case ns) as [->|(l & x & ->)].
  - simpl. destruct (write_fresh h n nd None None Hnn) as [_ Hw]. rewrite <- bind_assoc, Hw. simpl.
    eexists _, _. split; [done|]. split.
    + constructor; simpl; try done; [|by rewrite Hl]. split; [exists (val nd); by rewrite lookup_insert_eq|done].
    + unfold vals. simpl. by rewrite lookup_insert_eq.
  - rewrite length_app. cbn [length]. destruct (Z.eqb_spec (Z.of_nat (length l + 1)) 0); [lia|]. cbn [negb].
    rewrite lst_or_snoc. destruct (write_fresh h n nd (Some x) None Hnn) as [Hw _].
    rewrite <- bind_assoc, Hw. cbn [mbind outcome_bind].
    apply NoDup_app in Hnd as (Hndl & Hdis & _). assert (x ∉ l) as Hxl by (intros Hi; by eapply Hdis, list_elem_of_singleton).
    destruct (dseg_set_next (<[n := mk_node (Some x) None (val nd)]> h) None l x None (Some n) Hxl)
      as (h' & -> & Hs' & Hf & Hv); [by apply dseg_insert|]. cbn [mbind outcome_bind].
    assert (x <> n) as Hxn by (intros ->; apply Hn, elem_of_app; right; by left).
    eexists _, _. split; [done|]. split.
    + constructor; [done| | | |].
      * apply dseg_app. rewrite lst_or_snoc. split; [done|]. split; [|done].
        exists (val nd). rewrite Hf by done. by rewrite lookup_insert_eq.
      * simpl. rewrite Hh, !hd_or_app. by destruct l.
      * simpl. by rewrite lst_or_snoc.
      * simpl. rewrite Hl, !length_app. simpl. lia.
    + unfold vals. rewrite fmap_app. f_equal; [|simpl; by rewrite Hf, lookup_insert_eq].
      apply list_fmap_ext. intros i m Hi. apply list_elem_of_lookup_2 in Hi. f_equal.
      destruct (decide (m = x)) as [->|Hmx]; [rewrite Hv, lookup_insert_ne; done|].
      rewrite Hf by done. rewrite lookup_insert_ne; [done|]. intros <-. done.
Qed.

(** [qm_list_lpush] prepends the node, linked in both directions. *)
Theorem lpush_prepends h self ns n nd : list_wf h self ns -> n ∉ ns -> h !! n = Some nd ->
  exists h' self', qm_list_lpush h self (Some n) = Ret (Some n, h', self')
  /\ list_wf h' self' (n :: ns) /\ vals h' (n :: ns) = val nd :: vals h ns.
Proof.
  intros [Hnd Hs Hh Ht Hl] Hn Hnn. unfold qm_list_lpush. rewrite Hl, Hh.
  assert (NoDup (n :: ns)) as Hnd' by (by constructor). destruct ns as [|x l].
  - simpl. destruct (write_fresh h n nd None None Hnn) as [_ Hw]. rewrite <- bind_assoc, Hw. simpl.
    eexists _, _. split; [done|]. split.
    + constructor; simpl; try done; [|by rewrite Hl]. split; [exists (val nd); by rewrite lookup_insert_eq|done].
    + unfold vals. simpl. by rewrite lookup_insert_eq.
  - destruct (Z.eqb_spec (Z.of_nat (length (x :: l))) 0); [simpl in *; lia|]. cbn [negb hd_or].
    destruct (write_fresh h n nd None (Some x) Hnn) as [_ Hw].
    rewrite <- bind_assoc, Hw. cbn [mbind outcome_bind].
    apply NoDup_cons in Hnd as [Hxl Hndl]. apply not_elem_of_cons in Hn as [Hnx Hnl].
    destruct (dseg_set_prev (<[n := mk_node None (Some x) (val nd)]> h) None (Some n) x l None Hxl)
      as (h' & -> & Hs' & Hf & Hv); [apply dseg_insert; [by apply not_elem_of_cons|done]|]. cbn [mbind outcome_bind].
    eexists _, _. split; [done|]. split.
    + constructor; [done| |done| |].
      * split; [|exact Hs']. exists (val nd). rewrite Hf by done. by rewrite lookup_insert_eq.
      * simpl. by rewrite Ht, !lst_or_cons.
      * simpl in *. lia.
    + change (default 0 (val <$> h' !! n) :: vals h' (x :: l) = val nd :: vals h (x :: l)).
      f_equal; [by rewrite Hf, lookup_insert_eq|]. apply vals_ext. intros m Hi.
      destruct (decide (m = x)) as [->|Hmx]; [rewrite Hv, lookup_insert_ne; done|].
      rewrite Hf by done. rewrite lookup_insert_ne; [done|]. intros <-. by apply elem_of_cons in Hi as [|].
Qed.

(** [qm_list_remove] takes a node out of the middle, front or back of the
    list: the two parts around it are joined in both directions, the length
    drops by one, and the removed value goes to the destructor if there is one. *)
Theorem remove_unlinks h self a n b : list_wf h self (a ++ n :: b) ->
  exists h' self', qm_list_remove h self n = Ret (h', self', if free self then vals h [n] else [])
  /\ list_wf h' self' (a ++ b) /\ vals h' (a ++ b) = vals h (a ++ b).
Proof.
  intros [Hnd Hs Hh Ht Hl]. apply NoDup_middle in Hnd as (Hna & Hnb & Hnab & Hxa & Hxb & Hdis).
  apply dseg_app in Hs as [Hsa [[v Hv] Hsb]]. cbn [hd_or] in Hsa.
  assert (vals h [n] = [v]) as -> by (unfold vals; simpl; by rewrite Hv).
  unfold qm_list_remove. rewrite (deref_Some _ _ _ Hv). cbn [mbind outcome_bind of_option prev next val].
  destruct (link_next h self a (Some n) (hd_or b None) Hna Hsa) as (h1 & -> & Hsa1 & Hf1 & Hv1). cbn [mbind outcome_bind].
  set (self1 := match a with [] => _ | _ => _ end).
  rewrite (deref_Some h1 n _ (eq_trans (Hf1 n Hxa) Hv)). cbn [mbind outcome_bind of_option prev next val].
  assert (dseg h1 (Some n) b None) as Hsb1 by (eapply dseg_frame; [|exact Hsb]; intros m Hm; apply Hf1; intros Hi; by eapply Hdis).
  destruct (link_prev h1 self1 b (Some n) (lst_or a None) Hnb Hsb1) as (h2 & -> & Hsb2 & Hf2 & Hv2). cbn [mbind outcome_bind].
  eexists _, _. split; [done|]. split.
  - constructor; [done| | | |].
    + apply dseg_app. split; [|done]. eapply dseg_frame; [|exact Hsa1]. intros m Hm. apply Hf2. by apply Hdis.
    + unfold self1. rewrite hd_or_app in *. by destruct b, a.
    + unfold self1. rewrite lst_or_app in *. rewrite lst_or_cons in Ht. destruct b; [by destruct a|].
      rewrite lst_or_cons in *. by destruct a.
    + unfold self1. rewrite length_app in *. destruct b, a; simpl in *; lia.
  - apply vals_ext. intros m _. by rewrite Hv2, Hv1.
Qed.

(** [qm_list_rpop] detaches and returns the last node of a non-empty list;
    the rest stays linked and the node's own links are cleared. *)
Theorem rpop_detaches h self ns n : list_wf h self (ns ++ [n]) ->
  exists h' self', qm_list_rpop h self = Ret (Some n, h', self') /\ list_wf h' self' ns
  /\ vals h' ns = vals h ns /\ (exists v, h' !! n = Some (mk_node None None v)).
Proof.
  intros [Hnd Hs Hh Ht Hl]. apply NoDup_app in Hnd as (Hnn & Hdis & _).
  assert (n ∉ ns) as Hn by (intros Hi; by eapply Hdis, list_elem_of_singleton).
  apply dseg_app in Hs as [Hs [[v Hv] _]]. cbn [hd_or] in Hs, Hv. unfold qm_list_rpop.
  rewrite Hl, length_app. cbn [length len set_len]. destruct (Z.eqb_spec (Z.of_nat (length ns + 1)) 0); [lia|].
  rewrite Ht, lst_or_snoc. destruct (list_rev_case ns) as [->|(l & x & ->)].
  - simpl. destruct (write_fresh h n _ None None Hv) as [Hw _]. rewrite <- bind_assoc, Hw. simpl.
    eexists _, _. split; [done|]. split; [by constructor|]. split; [done|]. eexists. by rewrite lookup_insert_eq.
  - rewrite length_app. cbn [length]. destruct (Z.eqb_spec (Z.of_nat (length l + 1 + 1) - 1) 0); [lia|]. cbn [negb].
    rewrite (deref_Some _ _ _ Hv). cbn [mbind outcome_bind of_option prev].
    destruct (link_next h self (l ++ [x]) (Some n) None Hnn Hs) as (h1 & He & Hs1 & Hf1 & Hv1). rewrite lst_or_snoc in He |- *.
    destruct (write_next h (Some x) None) as [h1'| |] eqn:Hw; simpl in He; [|done|done]. injection He as <- _.
    cbn [mbind outcome_bind]. assert (h1' !! n = Some (mk_node (Some x) None v)) as Hn1 by (rewrite Hf1 by done; by rewrite Hv, lst_or_snoc).
    destruct (write_fresh h1' n _ None None Hn1) as [Hw2 _]. rewrite <- bind_assoc, Hw2. cbn [mbind outcome_bind].
    eexists _, _. split; [done|]. split; [|split].
    + constructor; [done|by apply dseg_insert| | |].
      * simpl. rewrite Hh, !hd_or_app. by destruct l.
      * simpl. by rewrite lst_or_snoc.
      * simpl. rewrite length_app. simpl. lia.
    + apply vals_ext. intros m Hm. rewrite lookup_insert_ne by (intros <-; done). apply Hv1.
    + eexists. by rewrite lookup_insert_eq.
Qed.

(** [qm_list_lpop] detaches and returns the first node; with
    [qm_list_rpush] the list is a FIFO queue, with [qm_list_lpush] a stack. *)
Theorem lpop_detaches h self ns n : list_wf h self (n :: ns) ->
  exists h' self', qm_list_lpop h self = Ret (Some n, h', self') /\ list_wf h' self' ns
  /\ vals h' ns = vals h ns /\ (exists v, h' !! n = Some (mk_node None None v)).
Proof.
  intros [Hnd [[v Hv] Hs] Hh Ht Hl]. apply NoDup_cons in Hnd as [Hn Hnn]. unfold qm_list_lpop.
  rewrite Hl, Hh. cbn [length len set_len hd_or]. destruct (Z.eqb_spec (Z.of_nat (S (length ns))) 0); [lia|].
  destruct ns as [|x l].
  - simpl. destruct (write_fresh h n _ None None Hv) as [Hw _]. rewrite <- bind_assoc, Hw. simpl.
    eexists _, _. split; [done|]. split; [by constructor|]. split; [done|]. eexists. by rewrite lookup_insert_eq.
  - destruct (Z.eqb_spec (Z.of_nat (S (length (x :: l))) - 1) 0); [simpl in *; lia|]. cbn [negb].
    rewrite (deref_Some _ _ _ Hv). cbn [mbind outcome_bind of_option next hd_or].
    destruct (link_prev h self (x :: l) (Some n) None Hnn Hs) as (h1 & He & Hs1 & Hf1 & Hv1). cbn [hd_or] in He.
    destruct (write_prev h (Some x) None) as [h1'| |] eqn:Hw; simpl in He; [|done|done]. injection He as <-.
    cbn [mbind outcome_bind]. assert (h1' !! n = Some (mk_node None (Some x) v)) as Hn1 by (rewrite Hf1 by done; by rewrite Hv).
    destruct (write_fresh h1' n _ None None Hn1) as [Hw2 _]. rewrite <- bind_assoc, Hw2. cbn [mbind outcome_bind].
    eexists _, _. split; [done|]. split; [|split].
    + constructor; [done|by apply dseg_insert|done| |].
      * simpl. by rewrite Ht, !lst_or_cons.
      * simpl. lia.
    + apply vals_ext. intros m Hm. rewrite lookup_insert_ne by (intros <-; done). apply Hv1.
    + eexists. by rewrite lookup_insert_eq.
Qed.

(** [qm_list_find] returns the first node whose value matches, with the
    installed comparison or by equality, and NULL when there is none (or no
    memory for the iterator). *)
Theorem find_first h self ns v mem : list_wf h self ns ->
  qm_list_find mem h self v = Ret (if mem then List.find (fun n => hit self v (val_of h n)) ns else None).
Proof.
  intros [Hnd Hs Hh _ _]. unfold qm_list_find, qm_list_iterator_new, qm_list_iterator_new_from_node. destruct mem; [|done].
  pose proof (dseg_length _ _ _ _ Hs Hnd) as Hlen. rewrite Hh. unfold qm_list_iterator_next.
  destruct ns as [|n ns]; [done|]. destruct Hs as [[w Hw] Hs]. cbn [it_next hd_or]. rewrite (deref_Some _ _ _ Hw).
  cbn [mbind outcome_bind direction next]. apply (find_loop_spec h self v (n :: ns) _ None); [by split; [exists w|]|lia].
Qed.

(** [qm_list_at] counts from the head for an index from 0 and from the
    tail for a negative one (-1 is the last node); NULL out of range. *)
Theorem at_index h self ns i : list_wf h self ns -> - 2 ^ 31 <= i < 2 ^ 31 -> Z.of_nat (length ns) < 2 ^ 31 ->
  qm_list_at true h self i = Ret (if i <? 0 then rev ns !! Z.to_nat (- i - 1) else ns !! Z.to_nat i).
Proof.
  intros [Hnd Hs Hh Ht Hl] Hi Hn. unfold qm_list_at, qm_list_iterator_new, qm_list_iterator_new_from_node, qm_list_iterator_next.
  rewrite Hl, Hh, Ht. destruct (Z.ltb_spec i 0) as [Hneg|Hpos].
  - rewrite !u32_id by (widths; lia). destruct (Z.ltb_spec (- i - 1) (Z.of_nat (length ns))) as [Hlt|Hge].
    2: { rewrite lookup_ge_None_2; [done|]. rewrite length_rev. lia. }
    pose proof (advance_backward h ns (Z.to_nat (- i - 1)) None Hs) as Hadv.
    destruct (list_rev_case ns) as [->|(l & x & ->)]; [simpl in Hlt; lia|]. rewrite lst_or_snoc in *. cbn [it_next].
    apply dseg_app in Hs as [_ [[w Hw] _]]. rewrite (deref_Some _ _ _ Hw). cbn [mbind outcome_bind direction prev].
    unfold before_last in Hadv. rewrite removelast_last in Hadv. exact Hadv.
  - rewrite !u32_id by (widths; lia). destruct (Z.ltb_spec i (Z.of_nat (length ns))) as [Hlt|Hge].
    2: { rewrite lookup_ge_None_2; [done|lia]. }
    pose proof (advance_forward h ns (Z.to_nat i) None Hs) as Hadv.
    destruct ns as [|n ns]; [simpl in Hlt; lia|]. destruct Hs as [[w Hw] Hs]. cbn [it_next hd_or]. rewrite (deref_Some _ _ _ Hw).
    exact Hadv.
Qed.

(** [qm_list_destroy] frees exactly the nodes of the list, each once, and
    passes their values to the destructor in list order. *)
Theorem destroy_frees h self ns : list_wf h self ns -> Z.of_nat (length ns) < 2 ^ 31 ->
  exists h', qm_list_destroy h self = Ret (h', if free self then vals h ns else [])
  /\ forall n, h' !! n = if decide (n ∈ ns) then None else h !! n.
Proof.
  intros [Hnd Hs Hh _ Hl] Hn. unfold qm_list_destroy. rewrite Hl, Hh, u32_id by (widths; lia). rewrite Nat2Z.id.
  by apply (destroy_loop_spec h ns (free self) None).
Qed.

(** [qm_list_reverse] on two or more nodes reverses the order along
    [next], but leaves [prev] of the new last node NULL: the next
    [qm_list_rpop] dereferences NULL. *)
Theorem reverse_breaks_rpop h self x b : list_wf h self (x :: b) -> b <> [] ->
  exists h' self', qm_list_reverse true h self = Ret (h', self')
  /\ fwd h' (head self') (rev (x :: b)) /\ tail self' = Some x /\ qm_list_rpop h' self' = OutOfBounds.
Proof.
  intros [Hnd Hs Hh Ht Hl] Hb. unfold qm_list_reverse, qm_list_iterator_new, qm_list_iterator_new_from_node, qm_list_iterator_next.
  assert (0 < length b)%nat as Hlen by (destruct b; [done|simpl; lia]).
  pose proof (dseg_length _ _ _ _ Hs Hnd) as Hsz. rewrite Hl. destruct (Z.eqb_spec (Z.of_nat (length (x :: b))) 1); [simpl in *; lia|].
  destruct Hs as [[v Hv] Hs]. apply NoDup_cons in Hnd as [Hx Hnd]. rewrite Hh. cbn [it_next hd_or]. rewrite (deref_Some _ _ _ Hv).
  cbn [mbind outcome_bind direction next it_next].
  destruct (reverse_loop_spec b h (Some x) (S (size h)) Hs Hnd) as (h1 & He & Hsw); [simpl in Hsz; lia|].
  assert (exists it2, match hd_or b None with
      | Some _ => '(_, n) ← deref h (hd_or b None); Ret (hd_or b None, mk_iter (next n) LIST_HEAD)
      | None => Ret (None, mk_iter (hd_or b None) LIST_HEAD) end = Ret (hd_or b None, it2)) as [it2 ->].
  { destruct b as [|y b]; [done|]. destruct Hs as [[u Hu] _]. cbn [hd_or]. rewrite (deref_Some _ _ _ Hu). by eexists. }
  cbn [mbind outcome_bind]. rewrite He. cbn [mbind outcome_bind].
  assert (h1 !! x = Some (mk_node None (hd_or b None) v)) as Hx1 by (rewrite Hsw, decide_False; done).
  unfold write_next. rewrite (deref_Some _ _ _ Hx1). cbn [mbind outcome_bind].
  set (h2 := <[x := _]> h1). eexists h2, _. split; [done|]. split; [|split; [done|]].
  - simpl. rewrite Ht, lst_or_cons. apply (fwd_reversed h h2 x b) with (q := None).
    + exists v, None. unfold h2. by rewrite lookup_insert_eq.
    + done.
    + intros m Hm. unfold h2. rewrite lookup_insert_ne by (intros <-; done). by rewrite Hsw, decide_True.
  - unfold qm_list_rpop. simpl len. rewrite Hl. destruct (Z.eqb_spec (Z.of_nat (length (x :: b))) 0); [simpl in *; lia|].
    destruct (Z.eqb_spec (Z.of_nat (length (x :: b)) - 1) 0); [simpl in *; lia|]. cbn [negb]. simpl tail. cbn [hd_or].
    assert (h2 !! x = Some (mk_node None None v)) as Hx2 by (unfold h2; by rewrite lookup_insert_eq).
    rewrite (deref_Some _ _ _ Hx2). done.
Qed.

(** [qm_list_push_after] links the node behind an inner node, but the
    length of the list is not updated; behind the last node it dereferences
    NULL. *)
Theorem push_after_stale_length h self a x y b n nd : list_wf h self (a ++ x :: y :: b) ->
  n ∉ a ++ x :: y :: b -> h !! n = Some nd ->
  exists h', qm_list_push_after h (Some x) (Some n) = Ret h'
  /\ dseg h' None (a ++ x :: n :: y :: b) None
  /\ len self = Z.of_nat (length (a ++ x :: n :: y :: b)) - 1
  /\ (forall z, lst_or (x :: y :: b) None = Some z -> qm_list_push_after h (Some z) (Some n) = OutOfBounds).
Proof.
  intros [Hnd Hs _ _ Hl] Hn Hnn. apply NoDup_app in Hnd as (_ & Hdis & Hnd). apply NoDup_cons in Hnd as [Hx Hnd].
  apply NoDup_cons in Hnd as [Hy _]. apply not_elem_of_app in Hn as [Hna Hn]. apply not_elem_of_cons in Hn as [Hnx Hn].
  apply not_elem_of_cons in Hn as [Hny Hnb]. apply not_elem_of_cons in Hx as [Hxy Hxb].
  apply dseg_app in Hs as [Hsa [[vx Hvx] [[vy Hvy] Hsb]]]. cbn [hd_or] in *.
  assert ((x ∉ a) /\ (y ∉ a)) as [Hxa Hya] by (split; intros Hi; apply (Hdis _ Hi); [by left|right; by left]).
  eexists. split; [|split; [|split]].
  - unfold qm_list_push_after. rewrite (deref_Some _ _ _ Hvx). cbn [mbind outcome_bind next].
    rewrite (write_prev_Some _ _ _ _ Hvy). cbn [mbind outcome_bind].
    rewrite (deref_Some _ x (mk_node (lst_or a None) (Some y) vx)) by (rewrite lookup_insert_ne; done). cbn [mbind outcome_bind next].
    rewrite (write_next_Some _ n nd) by (rewrite lookup_insert_ne; done). cbn [mbind outcome_bind].
    rewrite (write_next_Some _ x (mk_node (lst_or a None) (Some y) vx)) by (rewrite !lookup_insert_ne; done).
    cbn [mbind outcome_bind]. rewrite (write_prev_Some _ n (set_next (Some y) nd));
      [reflexivity|rewrite lookup_insert_ne by done; by rewrite lookup_insert_eq].
  - apply dseg_app. split; [|split; [|split; [|split]]].
    + do 4 (apply dseg_insert; [done|]). done.
    + exists vx. rewrite lookup_insert_ne by done. by rewrite lookup_insert_eq.
    + exists (val nd). by rewrite lookup_insert_eq.
    + exists vy. rewrite !lookup_insert_ne by done. by rewrite lookup_insert_eq.
    + do 4 (apply dseg_insert; [done|]). done.
  - rewrite Hl, !length_app. simpl. lia.
  - intros z Hz. rewrite !lst_or_cons in Hz. unfold qm_list_push_after.
    assert (exists w u, h !! z = Some (mk_node w None u)) as (w & u & Hzz).
    { destruct (list_rev_case b) as [->|(l & t & ->)].
      - injection Hz as <-. by exists (Some x), vy.
      - rewrite lst_or_snoc in Hz. injection Hz as <-. apply dseg_app in Hsb as [_ [[ut Hut] _]]. by eexists _, ut. }
    by rewrite (deref_Some _ _ _ Hzz).
Qed.

(** ** A concrete list *)

Definition demo_store : store :=
  <[10 := mk_node None (Some 20) 5]> (<[20 := mk_node (Some 10) None 6]> (<[30 := mk_node None None 7]> ∅)).
Definition demo_list : qm_list_t := mk_list (Some 10) (Some 20) 2 true None.

Lemma demo_list_wf : list_wf demo_store demo_list [10; 20].
Proof.
  constructor; [apply (bool_decide_unpack _); vm_compute; exact I| |reflexivity|reflexivity|reflexivity].
  split; [by exists 5|]. split; [by exists 6|exact I].
Defined.

Lemma demo_fresh : 30 ∉ [10; 20].
Proof. apply (bool_decide_unpack _). vm_compute. exact I. Defined.

Lemma rpush_appends_witness :
  exists h' self', qm_list_rpush demo_store demo_list (Some 30) = Ret (Some 30, h', self')
  /\ list_wf h' self' [10; 20; 30] /\ vals h' [10; 20; 30] = [5; 6; 7].
Proof. exact (rpush_appends demo_store demo_list [10; 20] 30 _ demo_list_wf demo_fresh eq_refl). Defined.

Lemma lpush_prepends_witness :
  exists h' self', qm_list_lpush demo_store demo_list (Some 30) = Ret (Some 30, h', self')
  /\ list_wf h' self' [30; 10; 20] /\ vals h' [30; 10; 20] = [7; 5; 6].
Proof. exact (lpush_prepends demo_store demo_list [10; 20] 30 _ demo_list_wf demo_fresh eq_refl). Defined.

Lemma remove_unlinks_witness :
  exists h' self', qm_list_remove demo_store demo_list 10 = Ret (h', self', [5]) /\ list_wf h' self' [20].
Proof.
  destruct (remove_unlinks demo_store demo_list [] 10 [20] demo_list_wf) as (h' & self' & He & Hw & _).
  exists h', self'. split; [exact He|exact Hw].
Defined.

Lemma rpop_detaches_witness :
  exists h' self', qm_list_rpop demo_store demo_list = Ret (Some 20, h', self') /\ list_wf h' self' [10].
Proof.
  destruct (rpop_detaches demo_store demo_list [10] 20 demo_list_wf) as (h' & self' & He & Hw & _).
  exists h', self'. split; [exact He|exact Hw].
Defined.

Lemma lpop_detaches_witness :
  exists h' self', qm_list_lpop demo_store demo_list = Ret (Some 10, h', self') /\ list_wf h' self' [20].
Proof.
  destruct (lpop_detaches demo_store demo_list [20] 10 demo_list_wf) as (h' & self' & He & Hw & _).
  exists h', self'. split; [exact He|exact Hw].
Defined.

Lemma find_first_witness :
  qm_list_find true demo_store demo_list 6 = Ret (Some 20) /\ qm_list_find true demo_store demo_list 9 = Ret None.
Proof.
  split.
  - exact (find_first demo_store demo_list [10; 20] 6 true demo_list_wf).
  - exact (find_first demo_store demo_list [10; 20] 9 true demo_list_wf).
Defined.

Lemma at_index_witness :
  qm_list_at true demo_store demo_list (-1) = Ret (Some 20) /\ qm_list_at true demo_store demo_list 2 = Ret None.
Proof.
  split.
  - apply (at_index demo_store demo_list [10; 20] (-1) demo_list_wf); simpl; lia.
  - apply (at_index demo_store demo_list [10; 20] 2 demo_list_wf); simpl; lia.
Defined.

Lemma destroy_frees_witness :
  exists h', qm_list_destroy demo_store demo_list = Ret (h', [5; 6]) /\ h' !! 10 = None /\ h' !! 30 = Some (mk_node None None 7).
Proof.
  destruct (destroy_frees demo_store demo_list [10; 20] demo_list_wf) as (h' & He & Hl); [simpl; lia|].
  exists h'. split; [exact He|]. split; rewrite Hl; reflexivity.
Defined.

Lemma reverse_breaks_rpop_witness :
  exists h' self', qm_list_reverse true demo_store demo_list = Ret (h', self') /\ qm_list_rpop h' self' = OutOfBounds.
Proof.
  destruct (reverse_breaks_rpop demo_store demo_list 10 [20] demo_list_wf) as (h' & self' & He & _ & _ & Hr); [discriminate|].
  exists h', self'. split; [exact He|exact Hr].
Defined.

Lemma push_after_stale_length_witness :
  exists h', qm_list_push_after demo_store (Some 10) (Some 30) = Ret h' /\ dseg h' None [10; 30; 20] None.
Proof.
  destruct (push_after_stale_length demo_store demo_list [] 10 20 [] 30 _ demo_list_wf demo_fresh eq_refl) as (h' & He & Hs & _).
  exists h'. split; [exact He|exact Hs].
Defined.

End QList.
