(* ===== verification/StepDelta.v ===== *)
(** * Fixed-point ramps (components/qm_step_delta)

    A ramp goes from a start to an end value in a given number of steps along
    a curve; values are 16-bit light levels.  The arithmetic is Q14 fixed
    point in 32-bit integers, kept at its width: unsigned operations wrap,
    signed ones are undefined when they leave the range ([None]). *)

From S2P Require Import Prelude.

Module StepDelta.

Definition Q14_BASE : Z := 16384.
Definition Q14_SHIFT : Z := 14.

Inductive curve_type_t :=
| STEP_DELTA_CURVE_LINEAR | STEP_DELTA_CURVE_SQUARE | STEP_DELTA_CURVE_CUBIC
| STEP_DELTA_CURVE_HYBRID | STEP_DELTA_CURVE_S | STEP_DELTA_CURVE_SMOOTHERSTEP.

Record qm_step_delta_t := mk_sd {
  start : Z;
  end_ : Z;
  steps : Z;
  current_step : Z;
  curve : curve_type_t;
  error_acc : Z
}.

(** The result of a signed 32-bit operation. *)
Definition int32 (z : Z) : option Z := if (- 2 ^ 31 <=? z) && (z <? 2 ^ 31) then Some z else None.

Definition qm_step_delta_init (dest : option qm_step_delta_t) (start end_ step_cnt : Z) (curve : curve_type_t)
  : Z * option qm_step_delta_t :=
  match dest with
  | None => (-1, None)
  | Some _ =>
      let step_cnt := if step_cnt <=? 0 then 1 else step_cnt in
      let current_step := if start =? end_ then step_cnt else 1 in
      (0, Some (mk_sd start end_ step_cnt current_step curve 0))
  end.

(** The curve, a Q14 fraction of a Q14 progress. *)
Definition curve_q14 (c : curve_type_t) (t : Z) : Z :=
  match c with
  | STEP_DELTA_CURVE_SMOOTHERSTEP =>
      let term1 := u32 (u32 (6 * t) * t) in
      let term2 := u32 (Z.shiftl (u32 (15 * t)) Q14_SHIFT) in
      let term3 := u32 (Z.shiftl 10 28) in
      let poly_q28 := u32 (term1 + term3) in
      let poly_q28 := if poly_q28 >? term2 then poly_q28 - term2 else 0 in
      let poly_q14 := Z.shiftr poly_q28 Q14_SHIFT in
      let t2_q14 := Z.shiftr (u32 (t * t)) Q14_SHIFT in
      let t3_q14 := Z.shiftr (u32 (t2_q14 * t)) Q14_SHIFT in
      Z.shiftr (u32 (t3_q14 * poly_q14)) Q14_SHIFT
  | STEP_DELTA_CURVE_SQUARE => Z.shiftr (u32 (t * t)) Q14_SHIFT
  | STEP_DELTA_CURVE_CUBIC =>
      let t2 := Z.shiftr (u32 (t * t)) Q14_SHIFT in Z.shiftr (u32 (t2 * t)) Q14_SHIFT
  | _ => t
  end.

(** Progress after [current_step] of [steps]. *)
Definition progress_q14 (d : qm_step_delta_t) : Z := u32 (u32 (current_step d) * Q14_BASE) / u32 (steps d).

(** The error-diffusion block: integer part and accumulator. *)
Definition dither (d : qm_step_delta_t) (delta_q14 : Z) : option (Z * Z) :=
  let integer_part := Z.shiftr delta_q14 Q14_SHIFT in
  left ← int32 (steps d - current_step d);
  if left >? 1 then
    acc ← int32 (error_acc d + Z.rem delta_q14 Q14_BASE);
    if acc >=? Q14_BASE then Some (integer_part + 1, acc - Q14_BASE)
    else if acc <=? - Q14_BASE then Some (integer_part - 1, acc + Q14_BASE)
    else Some (integer_part, acc)
  else Some (integer_part, 0).

(** [None] when a signed operation overflows. *)
Definition qm_step_delta_get_next (dest : option qm_step_delta_t) : option (Z * option qm_step_delta_t) :=
  match dest with
  | None => Some (0, None)
  | Some d =>
      if current_step d >=? steps d then Some (end_ d, dest)
      else
        let c := curve_q14 (curve d) (progress_q14 d) in
        total_diff ← int32 (end_ d - start d);
        delta_q14 ← int32 (total_diff * i32 c);
        '(integer_part, acc) ← dither d delta_q14;
        final_val ← int32 (start d + integer_part);
        let final_val := if final_val >? 65535 then 65535 else final_val in
        let final_val := if final_val <? 0 then 0 else final_val in
        Some (final_val, Some (mk_sd (start d) (end_ d) (steps d) (current_step d + 1) (curve d) acc))
  end.

Definition qm_step_delta_get_end (dest : option qm_step_delta_t) : Z :=
  match dest with None => -1 | Some d => end_ d end.

Definition qm_step_delta_left_steps (dest : option qm_step_delta_t) : Z :=
  match dest with
  | None => -1
  | Some d => if current_step d >=? steps d then 0 else steps d - current_step d
  end.

(** ** Specification *)

(** Light levels and a step count below the limit named in the source. *)
Record ramp_ok (d : qm_step_delta_t) : Prop := {
  ro_start : 0 <= start d <= 65535;
  ro_end : 0 <= end_ d <= 65535;
  ro_steps : 1 <= steps d <= 262143;
  ro_current : 1 <= current_step d <= steps d;
  ro_acc : - Q14_BASE < error_acc d < Q14_BASE
}.

(** The exact value of the smootherstep polynomial, scaled by B^5. *)
Definition smoother (t : Z) : Z := t ^ 3 * (6 * t ^ 2 - 15 * t * Q14_BASE + 10 * Q14_BASE ^ 2).

(** The outputs of [n] calls. *)
Fixpoint outputs (n : nat) (d : qm_step_delta_t) : option (list Z) :=
  match n with
  | O => Some []
  | S n' =>
      '(v, d') ← qm_step_delta_get_next (Some d);
      d1 ← d'; vs ← outputs n' d1; Some (v :: vs)
  end.

(** ** Lemmas *)

Lemma int32_Some z : - 2 ^ 31 <= z < 2 ^ 31 -> int32 z = Some z.
Proof.
  intros Hz. unfold int32. destruct (Z.leb_spec (- 2 ^ 31) z), (Z.ltb_spec z (2 ^ 31)); simpl; try done; lia.
Qed.

Lemma progress_spec d : ramp_ok d -> current_step d < steps d ->
  progress_q14 d = current_step d * Q14_BASE / steps d /\ 0 <= progress_q14 d < Q14_BASE.
Proof.
  intros [_ _ Hs Hc _] Hlt. unfold progress_q14, Q14_BASE.
  rewrite (u32_id (current_step d)), (u32_id (steps d)), u32_id by (widths; lia). split; [done|]. split.
  - apply Z.div_pos; lia.
  - apply Z.div_lt_upper_bound; lia.
Qed.

Lemma shiftr_div z : Z.shiftr z Q14_SHIFT = z / Q14_BASE.
Proof. apply Z.shiftr_div_pow2. unfold Q14_SHIFT. lia. Qed.

(** Square and cube stay fractions. *)
Lemma square_bound t : 0 <= t <= Q14_BASE -> 0 <= t * t / Q14_BASE <= t.
Proof.
  unfold Q14_BASE. intros Ht. split; [apply Z.div_pos; nia|]. apply Z.div_le_upper_bound; nia.
Qed.

(** 1 - f(t) = f(1 - t) has a non-negative factorisation. *)
Lemma smoother_le t : 0 <= t <= Q14_BASE -> 0 <= smoother t <= Q14_BASE ^ 5.
Proof.
  unfold smoother. generalize Q14_BASE as B. intros B Ht. split.
  - apply Z.mul_nonneg_nonneg; [apply Z.pow_nonneg; lia|]. nia.
  - assert (B ^ 5 - t ^ 3 * (6 * t ^ 2 - 15 * t * B + 10 * B ^ 2) = (B - t) ^ 3 * (6 * t ^ 2 + 3 * t * B + B ^ 2)) as He by ring.
    assert (0 <= (B - t) ^ 3 * (6 * t ^ 2 + 3 * t * B + B ^ 2)) by
      (apply Z.mul_nonneg_nonneg; [apply Z.pow_nonneg; lia|nia]). lia.
Qed.

(** The curve without wrap-around. *)
Definition ideal_curve (c : curve_type_t) (t : Z) : Z :=
  match c with
  | STEP_DELTA_CURVE_SMOOTHERSTEP =>
      (t * t / Q14_BASE * t / Q14_BASE) * ((6 * t ^ 2 - 15 * t * Q14_BASE + 10 * Q14_BASE ^ 2) / Q14_BASE) / Q14_BASE
  | STEP_DELTA_CURVE_SQUARE => t * t / Q14_BASE
  | STEP_DELTA_CURVE_CUBIC => t * t / Q14_BASE * t / Q14_BASE
  | _ => t
  end.

(** The product of the truncated factors of the smootherstep curve. *)
Lemma smoother_product t : 0 <= t < Q14_BASE ->
  let t3 := t * t / Q14_BASE * t / Q14_BASE in
  let p := (6 * t ^ 2 - 15 * t * Q14_BASE + 10 * Q14_BASE ^ 2) / Q14_BASE in
  0 <= t3 /\ 0 <= p /\ t3 * p < Q14_BASE ^ 2.
Proof.
  intros Ht t3 p. set (B := Q14_BASE) in *. assert (0 < B) as HB by (unfold B, Q14_BASE; lia).
  assert (0 <= t * t / B) as H2 by (apply Z.div_pos; nia).
  assert (t * t / B * B <= t * t) as H2' by (pose proof (Z.mul_div_le (t * t) B HB); lia).
  assert (0 <= t3) as H3 by (apply Z.div_pos; nia).
  assert (t3 * B <= t * t / B * t) as H3' by (unfold t3; pose proof (Z.mul_div_le (t * t / B * t) B HB); lia).
  set (P := 6 * t ^ 2 - 15 * t * B + 10 * B ^ 2) in *. assert (0 <= P) as HP by (unfold P; nia).
  assert (0 <= p) as Hp by (apply Z.div_pos; lia).
  assert (p * B <= P) as Hp' by (unfold p; pose proof (Z.mul_div_le P B HB); lia).
  split; [done|]. split; [done|].
  assert (t3 * B ^ 2 <= t ^ 3) as Hc by (replace (t3 * B ^ 2) with (t3 * B * B) by ring;
    replace (t ^ 3) with (t * t * t) by ring; nia).
  assert (t3 * p * B ^ 3 <= t ^ 3 * P) as Hprod.
  { replace (t3 * p * B ^ 3) with ((t3 * B ^ 2) * (p * B)) by ring.
    apply Z.mul_le_mono_nonneg; [apply Z.mul_nonneg_nonneg; [done|apply Z.pow_nonneg; lia]|done|nia|done]. }
  assert (t ^ 3 * P < B ^ 5) as Hs.
  { assert (B ^ 5 - t ^ 3 * P = (B - t) ^ 3 * (6 * t ^ 2 + 3 * t * B + B ^ 2)) as He by (unfold P; ring).
    assert (0 < (B - t) ^ 3 * (6 * t ^ 2 + 3 * t * B + B ^ 2)); [|lia].
    apply Z.mul_pos_pos; [apply Z.pow_pos_nonneg; lia|nia]. }
  assert (t3 * p * B ^ 3 < B ^ 2 * B ^ 3) as Hlt by (replace (B ^ 2 * B ^ 3) with (B ^ 5) by ring; lia).
  apply Z.mul_lt_mono_pos_r in Hlt; [done|]. apply Z.pow_pos_nonneg; lia.
Qed.

Lemma cube_bound t : 0 <= t < Q14_BASE -> 0 <= t * t / Q14_BASE * t / Q14_BASE <= t.
Proof.
  intros Ht. pose proof (square_bound t ltac:(lia)) as Hs. set (q := t * t / Q14_BASE) in *. unfold Q14_BASE in *.
  split; [apply Z.div_pos; nia|]. apply Z.div_le_upper_bound; nia.
Qed.

(** No unsigned operation of the curve computation wraps: for every progress
    below one, [curve_q14] is the intended polynomial, and the result is a
    fraction below one. *)
Lemma curve_spec c t : 0 <= t < Q14_BASE -> curve_q14 c t = ideal_curve c t /\ 0 <= curve_q14 c t < Q14_BASE.
Proof.
  intros Ht. pose proof (square_bound t ltac:(lia)) as Hs. pose proof (cube_bound t Ht) as Hc.
  assert (curve_q14 c t = ideal_curve c t) as He.
  { assert (u32 (t * t) = t * t) as Hu2 by (apply u32_id; unfold Q14_BASE in *; widths; nia).
    assert (u32 (t * t / Q14_BASE * t) = t * t / Q14_BASE * t) as Hu3 by (apply u32_id; unfold Q14_BASE in *; widths; nia).
    unfold curve_q14, ideal_curve. rewrite !shiftr_div, !Hu2, !Hu3. destruct c; try done.
    pose proof (smoother_product t Ht) as (H3 & Hp & Hlt). cbv zeta in *.
    rewrite !Z.shiftl_mul_pow2 by (unfold Q14_SHIFT; lia). unfold Q14_SHIFT.
    rewrite (u32_id (6 * t)), (u32_id (15 * t)) by (unfold Q14_BASE in *; widths; lia).
    rewrite (u32_id (6 * t * t)), (u32_id (15 * t * 2 ^ 14)), (u32_id (10 * 2 ^ 28)) by (unfold Q14_BASE in *; widths; nia).
    rewrite (u32_id (6 * t * t + 10 * 2 ^ 28)) by (unfold Q14_BASE in *; widths; nia).
    destruct (Z.gtb_spec (6 * t * t + 10 * 2 ^ 28) (15 * t * 2 ^ 14)); [|unfold Q14_BASE in *; nia].
    replace (6 * t * t + 10 * 2 ^ 28 - 15 * t * 2 ^ 14) with (6 * t ^ 2 - 15 * t * Q14_BASE + 10 * Q14_BASE ^ 2)
      by (unfold Q14_BASE; ring).
    rewrite u32_id; [done|]. unfold Q14_BASE in *. widths. nia. }
  split; [done|]. rewrite He. destruct c; simpl; try lia.
  pose proof (smoother_product t Ht) as (H3 & Hp & Hlt). cbv zeta in *. split.
  - apply Z.div_pos; [by apply Z.mul_nonneg_nonneg|unfold Q14_BASE; lia].
  - apply Z.div_lt_upper_bound; [unfold Q14_BASE; lia|]. by replace (Q14_BASE * Q14_BASE) with (Q14_BASE ^ 2) by ring.
Qed.

(** One step: the level is the truncated ideal one, moved by at most one by the
    error diffusion. *)
Lemma step_spec d : ramp_ok d -> current_step d < steps d ->
  exists c ip acc, 0 <= c < Q14_BASE /\ c = ideal_curve (curve d) (current_step d * Q14_BASE / steps d)
  /\ qm_step_delta_get_next (Some d)
     = Some (Z.max 0 (Z.min 65535 (start d + ip)),
             Some (mk_sd (start d) (end_ d) (steps d) (current_step d + 1) (curve d) acc))
  /\ - Q14_BASE < acc < Q14_BASE
  /\ (start d <= end_ d -> 0 <= error_acc d -> 0 <= acc /\ (end_ d - start d) * c / Q14_BASE <= ip
        /\ ip <= (end_ d - start d) * c / Q14_BASE + (if (end_ d - start d) * c mod Q14_BASE =? 0 then 0 else 1)).
Proof.
  intros Hok Hlt. pose proof Hok as [Hs He Hst Hc Ha]. destruct (progress_spec d Hok Hlt) as [Hp Hpr].
  destruct (curve_spec (curve d) (progress_q14 d) Hpr) as [Hcu Hcb].
  set (c := curve_q14 (curve d) (progress_q14 d)) in *. rewrite Hp in Hcu. set (delta := (end_ d - start d) * c).
  assert (- 65535 * Q14_BASE <= delta <= 65535 * Q14_BASE) as Hd by (unfold delta, Q14_BASE in *; nia).
  assert (- Q14_BASE < Z.rem delta Q14_BASE < Q14_BASE) as Hr
    by (pose proof (Z.rem_bound_abs delta Q14_BASE); unfold Q14_BASE in *; lia).
  assert (- 65535 <= delta / Q14_BASE <= 65535) as Hq.
  { unfold Q14_BASE in *. split; [apply Z.div_le_lower_bound; lia|apply Z.div_le_upper_bound; lia]. }
  assert (exists ip acc, dither d delta = Some (ip, acc) /\ - Q14_BASE < acc < Q14_BASE /\ - 65537 <= ip <= 65537
    /\ (start d <= end_ d -> 0 <= error_acc d -> 0 <= acc /\ delta / Q14_BASE <= ip
        /\ ip <= delta / Q14_BASE + (if delta mod Q14_BASE =? 0 then 0 else 1))) as (ip & acc & Hdit & Hacc & Hip & Hup).
  { unfold dither. rewrite shiftr_div. rewrite (int32_Some (steps d - current_step d)) by lia. cbn [mbind option_bind].
    assert (start d <= end_ d -> Z.rem delta Q14_BASE = delta mod Q14_BASE /\ 0 <= delta mod Q14_BASE < Q14_BASE) as Hrem.
    { intros Hle. split; [apply Z.rem_mod_nonneg; unfold delta, Q14_BASE in *; nia|apply Z.mod_pos_bound; unfold Q14_BASE; lia]. }
    destruct (steps d - current_step d >? 1).
    - rewrite int32_Some by (unfold Q14_BASE in *; lia). cbn [mbind option_bind]. rewrite Z.geb_leb.
      destruct (Z.leb_spec Q14_BASE (error_acc d + Z.rem delta Q14_BASE)) as [Hg|Hg];
        [|destruct (Z.leb_spec (error_acc d + Z.rem delta Q14_BASE) (- Q14_BASE)) as [Hm|Hm]];
        eexists _, _; (split; [reflexivity|]); (split; [unfold Q14_BASE in *; lia|]); (split; [lia|]); intros Hle Ha0;
        specialize (Hrem Hle); destruct (Z.eqb_spec (delta mod Q14_BASE) 0); lia.
    - eexists _, _. split; [reflexivity|]. split; [unfold Q14_BASE in *; lia|]. split; [lia|]. intros Hle Ha0.
      specialize (Hrem Hle). destruct (_ =? 0); lia. }
  exists c, ip, acc. split; [done|]. split; [done|]. split; [|by split].
  unfold qm_step_delta_get_next. rewrite Z.geb_leb. destruct (Z.leb_spec (steps d) (current_step d)); [lia|]. fold c.
  rewrite int32_Some by lia. cbn [mbind option_bind]. rewrite i32_id by (unfold Q14_BASE in *; lia). fold delta.
  rewrite int32_Some by (unfold Q14_BASE in *; lia). cbn [mbind option_bind]. rewrite Hdit. cbn [mbind option_bind].
  rewrite int32_Some by lia. cbn [mbind option_bind]. cbv zeta. do 2 f_equal.
  destruct (Z.gtb_spec (start d + ip) 65535).
  - change (65535 <? 0) with false. cbv iota. lia.
  - destruct (Z.ltb_spec (start d + ip) 0); lia.
Qed.

Lemma finished d : current_step d = steps d -> qm_step_delta_get_next (Some d) = Some (end_ d, Some d).
Proof. intros Hc. unfold qm_step_delta_get_next. by rewrite Z.geb_leb, Hc, Z.leb_refl. Qed.

Lemma outputs_finished d n : current_step d = steps d -> outputs n d = Some (replicate n (end_ d)).
Proof. intros Hc. induction n as [|n IH]; [done|]. cbn [outputs]. rewrite finished by done. simpl. by rewrite IH. Qed.

(** The state after one step is a ramp again. *)
Lemma step_ok d acc : ramp_ok d -> current_step d < steps d -> - Q14_BASE < acc < Q14_BASE ->
  ramp_ok (mk_sd (start d) (end_ d) (steps d) (current_step d + 1) (curve d) acc).
Proof. intros [Hs He Hst Hc Ha] Hlt Hacc. constructor; simpl; lia. Qed.

(** ** Theorems *)

(** On light levels and up to 262143 steps no step overflows a signed
    integer; every output is a 16-bit level, exactly the remaining steps are
    used, and from then on every output is the end value. *)
Theorem ramp_reaches_end d k : ramp_ok d ->
  exists vs, outputs (Z.to_nat (qm_step_delta_left_steps (Some d)) + k) d = Some (vs ++ replicate k (end_ d))
  /\ Z.of_nat (length vs) = qm_step_delta_left_steps (Some d) /\ Forall (fun v => 0 <= v <= 65535) vs.
Proof.
  intros Hok. assert (qm_step_delta_left_steps (Some d) = steps d - current_step d) as ->.
  { destruct Hok as [_ _ Hst Hc _]. unfold qm_step_delta_left_steps. rewrite Z.geb_leb.
    destruct (Z.leb_spec (steps d) (current_step d)); lia. }
  remember (Z.to_nat (steps d - current_step d)) as n eqn:Hn. revert d Hok Hn.
  induction n as [|n IH]; intros d Hok Hn; pose proof (ro_current _ Hok) as Hc.
  - exists []. cbn [Nat.add app]. rewrite outputs_finished by lia. split; [done|]. split; [simpl; lia|constructor].
  - destruct (step_spec d Hok) as (c & ip & acc & _ & _ & He & Hacc & _); [lia|]. cbn [Nat.add outputs]. rewrite He.
    cbn [mbind option_bind]. destruct (IH _ (step_ok d acc Hok ltac:(lia) Hacc)) as (vs & Ho & Hl & Hv); [simpl; lia|].
    rewrite Ho. cbn [mbind option_bind]. eexists (_ :: vs). split; [done|]. simpl in Hl. split; [simpl; lia|].
    constructor; [lia|done].
Qed.

(** A rising ramp never leaves the interval between its start and its end
    value: error diffusion does not overshoot. *)
Theorem rising_ramp_within d n : ramp_ok d -> start d <= end_ d -> 0 <= error_acc d ->
  exists vs, outputs n d = Some vs /\ Forall (fun v => start d <= v <= end_ d) vs.
Proof.
  revert d. induction n as [|n IH]; intros d Hok Hle Ha; [by exists []|]. pose proof Hok as [Hs He Hst Hc _].
  destruct (decide (current_step d = steps d)) as [Hf|Hne].
  - exists (replicate (S n) (end_ d)). rewrite outputs_finished by done. split; [done|]. apply Forall_replicate. lia.
  - destruct (step_spec d Hok) as (c & ip & acc & Hcb & _ & Hn & Hacc & Hup); [lia|]. cbn [outputs]. rewrite Hn.
    cbn [mbind option_bind]. destruct (Hup Hle Ha) as (Hacc0 & Hlo & Hhi).
    destruct (IH _ (step_ok d acc Hok ltac:(lia) Hacc)) as (vs & Ho & Hv); [done|done|]. rewrite Ho. simpl in Hv.
    eexists. split; [done|]. constructor; [|done].
    assert (0 <= (end_ d - start d) * c / Q14_BASE) by (apply Z.div_pos; unfold Q14_BASE in *; nia).
    assert (ip <= end_ d - start d); [|lia].
    set (delta := (end_ d - start d) * c) in *. destruct (Z.eqb_spec (delta mod Q14_BASE) 0) as [Hz|Hz].
    + assert (delta / Q14_BASE <= end_ d - start d); [|lia]. apply Z.div_le_upper_bound; unfold delta, Q14_BASE in *; nia.
    + assert (delta / Q14_BASE < end_ d - start d); [|lia]. apply Z.div_lt_upper_bound; [unfold Q14_BASE; lia|].
      assert (end_ d - start d <> 0) by (intros Hx; apply Hz; unfold delta; by rewrite Hx).
      unfold delta, Q14_BASE in *. nia.
Qed.

(** A falling ramp does overshoot: the integer part is rounded down while
    the negative remainder is accumulated as well, so a level below the end
    value can come out before the ramp ends. *)
Theorem falling_ramp_undershoots :
  exists d d1 v, qm_step_delta_init (Some d) 200 100 1000 STEP_DELTA_CURVE_LINEAR = (0, Some d1)
  /\ ramp_ok d1 /\ (exists vs, outputs 999 d1 = Some vs /\ v ∈ vs /\ v < 100).
Proof.
  exists (mk_sd 0 0 1 1 STEP_DELTA_CURVE_LINEAR 0). eexists. exists 99. split; [reflexivity|]. split.
  - constructor; simpl; unfold Q14_BASE; lia.
  - eexists. split; [vm_compute; reflexivity|]. split; [|lia]. apply (bool_decide_unpack _). vm_compute. exact I.
Qed.

(** ** Concrete ramps *)

Definition demo_ramp : qm_step_delta_t := mk_sd 100 60000 50 1 STEP_DELTA_CURVE_SMOOTHERSTEP 0.

Lemma demo_ramp_ok : ramp_ok demo_ramp.
Proof. constructor; simpl; unfold Q14_BASE; lia. Defined.

Lemma ramp_reaches_end_witness :
  exists vs, outputs 51 demo_ramp = Some (vs ++ [60000; 60000]) /\ Z.of_nat (length vs) = 49.
Proof.
  destruct (ramp_reaches_end demo_ramp 2 demo_ramp_ok) as (vs & Ho & Hl & _). exists vs. split; [exact Ho|exact Hl].
Defined.

Lemma rising_ramp_within_witness :
  exists vs, outputs 60 demo_ramp = Some vs /\ Forall (fun v => 100 <= v <= 60000) vs.
Proof. apply (rising_ramp_within demo_ramp 60 demo_ramp_ok); simpl; lia. Defined.

End StepDelta.
