(* ===== verification/QmTime.v ===== *)
(** * Calendar time (components/qm_time)

    Seconds since 1970 to broken-down time and back, the time zone and the
    clock.  A [qm_time_t] is an unsigned 64-bit integer; the fields of
    [struct qm_tm] are [int]s.  The real-time clock is a driver (include/hal),
    a parameter of the functions that use it. *)

From S2P Require Import Prelude Outcome.
Import list_relations.list list_basics.list.

Module QmTime.

Record qm_tm := mk_tm {
  tm_sec : Z; tm_min : Z; tm_hour : Z; tm_mday : Z; tm_mon : Z; tm_year : Z; tm_wday : Z; tm_yday : Z
}.

Definition Days : list Z := [31; 28; 31; 30; 31; 30; 31; 31; 30; 31; 30; 31].

Definition ONE_YEAR_HOURS : Z := 8760.

(** The loop over the at most four years of a cycle; [qm_time] counts hours. *)
Fixpoint year_loop (fuel : nat) (tm_year qm_time : Z) : outcome (Z * Z) :=
  match fuel with
  | O => NoFuel
  | S fuel' =>
      let n32_hpery := if Z.land tm_year 3 =? 0 then ONE_YEAR_HOURS + 24 else ONE_YEAR_HOURS in
      if qm_time <? n32_hpery then Ret (tm_year, qm_time)
      else year_loop fuel' (tm_year + 1) (qm_time - n32_hpery)
  end.

(** The loop over the months; [qm_time] is the day of the year from 1. *)
Fixpoint month_loop (fuel : nat) (tm_mon qm_time : Z) : outcome (Z * Z) :=
  match fuel with
  | O => NoFuel
  | S fuel' =>
      d ← of_option (Days !! Z.to_nat tm_mon);
      if d <? qm_time then month_loop fuel' (tm_mon + 1) (qm_time - d) else Ret (tm_mon, qm_time)
  end.

(** Month and day of the month, with 29 February singled out. *)
Definition month_day (tm_year qm_time : Z) : outcome (Z * Z) :=
  if Z.land tm_year 3 =? 0 then
    if qm_time >? 60 then month_loop 13 0 (qm_time - 1)
    else if qm_time =? 60 then Ret (1, 29)
    else month_loop 13 0 qm_time
  else month_loop 13 0 qm_time.

Definition _qm_gmtime_r (time : Z) : outcome qm_tm :=
  let tm_sec := time mod 60 in
  let qm_time := time / 60 in
  let tm_min := qm_time mod 60 in
  let qm_time := qm_time / 60 in
  let tm_wday := u64 (qm_time / 24 + 4) mod 7 in
  let n32_Pass4year := u32 qm_time / (1461 * 24) in
  let tm_year := i32 (u32 (u32 (Z.shiftl n32_Pass4year 2) + 70)) in
  let qm_time := qm_time mod (1461 * 24) in
  let tm_yday := qm_time / 24 mod 365 in
  '(tm_year, qm_time) ← year_loop 4 tm_year qm_time;
  let tm_hour := qm_time mod 24 in
  let qm_time := qm_time / 24 + 1 in
  '(tm_mon, tm_mday) ← month_day tm_year qm_time;
  Ret (mk_tm tm_sec tm_min tm_hour tm_mday tm_mon tm_year tm_wday tm_yday).

Definition _qm_localtime_r (minuteswest time : Z) : outcome qm_tm :=
  _qm_gmtime_r (u64 (time + i32 (minuteswest * 60))).

(** The argument is read before it is compared with NULL. *)
Definition qm_localtime_r (minuteswest : Z) (time : option Z) (tm : bool) : outcome (option qm_tm) :=
  match time with
  | None => OutOfBounds
  | Some t => if tm then r ← _qm_localtime_r minuteswest t; Ret (Some r) else Ret None
  end.

Definition qm_localtime (minuteswest : Z) (time : option Z) : outcome (option qm_tm) :=
  match time with
  | None => Ret None
  | Some t => r ← _qm_localtime_r minuteswest t; Ret (Some r)
  end.

Definition qm_gmtime (time : option Z) : outcome qm_tm :=
  match time with None => OutOfBounds | Some t => _qm_gmtime_r t end.

Definition qm_gmtime_r (time : option Z) : outcome qm_tm :=
  match time with None => OutOfBounds | Some t => _qm_gmtime_r t end.

(** Months are unsigned; 64-bit arithmetic from the cast on. *)
Definition _qm_mktime (year0 mon0 day hour min sec : Z) : Z :=
  let mon := u32 (mon0 - 2) in
  let '(mon, year) := if 0 >=? i32 mon then (u32 (mon + 12), u32 (year0 - 1)) else (mon, year0) in
  let days := u32 (u32 (u32 (year / 4 - year / 100) + year / 400) + u32 (367 * mon) / 12 + day) in
  u64 (u64 (u64 (u64 (days + u32 (year * 365) - 719499) * 24 + hour) * 60 + min) * 60 + sec).

Definition qm_mktime (tm : option qm_tm) : Z :=
  match tm with
  | None => 0
  | Some t => _qm_mktime (u32 (tm_year t + 1900)) (u32 (tm_mon t + 1)) (u32 (tm_mday t)) (u32 (tm_hour t))
                (u32 (tm_min t)) (u32 (tm_sec t))
  end.

(** ** The clock *)

(** The real-time clock driver and the time zone. *)
Class Rtc (R : Type) := {
  rtc_init : R -> R;
  rtc_get_timestamp : R -> Z * Z;
  rtc_set_timestamp : R -> Z -> Z * R
}.

Section Clock.
Context {R : Type} `{Rtc R}.

Record clock := mk_clock { rtc : R; minuteswest : Z }.

(** CONFIG_QM_TIMEZONE_MINUTESWEST is [8*60] unless configured. *)
Definition CONFIG_QM_TIMEZONE_MINUTESWEST : Z := 8 * 60.

Definition qm_time_init (s : clock) : Z * clock :=
  (QM_EOK, mk_clock (rtc_init (rtc s)) CONFIG_QM_TIMEZONE_MINUTESWEST).

(** [tv] and [tz] say whether the caller passes a buffer; the result has what
    is written into them. *)
Definition qm_gettimeofday (s : clock) (tv tz : bool) : Z * option Z * option Z :=
  if negb tv then (- QM_EINVAL, None, None)
  else
    let '(ret, timestamp) := rtc_get_timestamp (rtc s) in
    if ret =? QM_EOK then (QM_EOK, Some timestamp, if tz then Some (minuteswest s) else None)
    else (0, None, None).

Definition qm_settimeofday (s : clock) (tv tz : option Z) : Z * clock :=
  match tv with
  | None => (- QM_EINVAL, s)
  | Some tv_sec =>
      let '(ret, r) := rtc_set_timestamp (rtc s) (u32 tv_sec) in
      if ret =? QM_EOK then (QM_EOK, mk_clock r (default (minuteswest s) tz))
      else (ret, mk_clock r (minuteswest s))
  end.

Definition qm_settimezone (s : clock) (tz : option Z) : Z * clock :=
  match tz with
  | None => (- QM_EINVAL, s)
  | Some z => (QM_EOK, mk_clock (rtc s) z)
  end.

(** The clock in seconds, 0 when it cannot be read. *)
Definition qm_time (s : clock) : Z :=
  let '(ret, timestamp) := rtc_get_timestamp (rtc s) in
  if ret =? QM_EOK then timestamp else 0.

End Clock.
#[global] Arguments clock : clear implicits.

(** ** Specification: the Gregorian calendar from 1970 *)

Definition leap (y : Z) : bool := ((y mod 4 =? 0) && negb (y mod 100 =? 0)) || (y mod 400 =? 0).

Definition year_len (y : Z) : Z := if leap y then 366 else 365.

Definition month_len (lp : bool) (m : Z) : Z :=
  default 0 (Days !! Z.to_nat m) + (if lp && (m =? 1) then 1 else 0).

(** Days of the [n] years from 1970 on. *)
Fixpoint years_days (n : nat) : Z :=
  match n with O => 0 | S n' => years_days n' + year_len (1970 + Z.of_nat n') end.

Definition days_before_year (y : Z) : Z := years_days (Z.to_nat (y - 1970)).

Definition days_before_month (lp : bool) (m : Z) : Z :=
  foldr Z.add 0 ((fun i => month_len lp (Z.of_nat i)) <$> seq 0 (Z.to_nat m)).

(** Days since 1 January 1970 of a date, months counted from 0. *)
Definition civil_days (y m d : Z) : Z := days_before_year y + days_before_month (leap y) m + d - 1.

Definition civil_seconds (t : qm_tm) : Z :=
  ((civil_days (tm_year t + 1900) (tm_mon t) (tm_mday t) * 24 + tm_hour t) * 60 + tm_min t) * 60 + tm_sec t.

Record valid_tm (t : qm_tm) : Prop := {
  vt_sec : 0 <= tm_sec t < 60;
  vt_min : 0 <= tm_min t < 60;
  vt_hour : 0 <= tm_hour t < 24;
  vt_mon : 0 <= tm_mon t < 12;
  vt_mday : 1 <= tm_mday t <= month_len (leap (tm_year t + 1900)) (tm_mon t);
  vt_year : 1970 <= tm_year t + 1900
}.

(** 1 January and 1 March 2100, 00:00. *)
Definition YEAR_2100 : Z := 4102444800.
Definition MARCH_2100 : Z := 4107542400.

(** ** Years *)

(** The number of leap days before a year, in closed form. *)
Lemma days_before_year_closed y : 1970 <= y ->
  days_before_year y = 365 * (y - 1970) + (y - 1) / 4 - (y - 1) / 100 + (y - 1) / 400 - 477.
Proof.
  intros Hy. unfold days_before_year. remember (Z.to_nat (y - 1970)) as n eqn:Hn. revert y Hy Hn.
  induction n as [|n IH]; intros y Hy Hn.
  - replace y with 1970 by lia. reflexivity.
  - cbn [years_days]. rewrite (IH (y - 1)) by lia. replace (1970 + Z.of_nat n) with (y - 1) by lia.
    unfold year_len, leap. clear IH Hn.
    destruct (Z.eqb_spec ((y - 1) mod 4) 0), (Z.eqb_spec ((y - 1) mod 100) 0), (Z.eqb_spec ((y - 1) mod 400) 0); simpl;
      Z.to_euclidean_division_equations; lia.
Qed.

Lemma days_before_year_next y : 1970 <= y -> days_before_year (y + 1) = days_before_year y + year_len y.
Proof.
  intros Hy. unfold days_before_year. replace (Z.to_nat (y + 1 - 1970)) with (S (Z.to_nat (y - 1970))) by lia.
  cbn [years_days]. by replace (1970 + Z.of_nat (Z.to_nat (y - 1970))) with y by lia.
Qed.

Lemma year_len_pos y : 365 <= year_len y <= 366.
Proof. unfold year_len. destruct (leap y); lia. Qed.

Lemma days_before_year_mono y z : 1970 <= y -> y < z -> days_before_year y + year_len y <= days_before_year z.
Proof.
  intros Hy Hz. rewrite <- days_before_year_next by done. remember (Z.to_nat (z - (y + 1))) as n eqn:Hn. revert z Hz Hn.
  induction n as [|n IH]; intros z Hz Hn.
  - replace z with (y + 1) by lia. lia.
  - specialize (IH (z - 1) ltac:(lia) ltac:(lia)). pose proof (days_before_year_next (z - 1) ltac:(lia)) as Hs.
    replace (z - 1 + 1) with z in Hs by lia. pose proof (year_len_pos (z - 1)). lia.
Qed.

(** Up to 2099 a year is leap exactly when its low two bits are clear. *)
Lemma leap_land y : 70 <= y < 200 -> (Z.land y 3 =? 0) = leap (y + 1900).
Proof.
  intros Hy. change 3 with (Z.ones 2). rewrite Z.land_ones by lia. unfold leap. change (2 ^ 2) with 4.
  destruct (Z.eqb_spec (y mod 4) 0), (Z.eqb_spec ((y + 1900) mod 4) 0), (Z.eqb_spec ((y + 1900) mod 100) 0),
    (Z.eqb_spec ((y + 1900) mod 400) 0); simpl; try done; exfalso; Z.to_euclidean_division_equations; lia.
Qed.

(** ** Months *)

(** A property of the days of a year, checked day by day. *)
Lemma each_day (f : Z -> bool) (n : nat) : forallb f (Z.of_nat <$> seq 1 n) = true -> forall d, 1 <= d <= Z.of_nat n -> f d = true.
Proof.
  intros Hf d Hd. rewrite List.forallb_forall in Hf. apply Hf. apply List.in_map_iff. exists (Z.to_nat d).
  split; [lia|]. apply List.in_seq. lia.
Qed.

(** Month and day of the month of the [d]-th day of a year. *)
Definition day_ok (lp : bool) (yr d : Z) : bool :=
  match month_day yr d with
  | Ret (m, k) => (0 <=? m) && (m <? 12) && (1 <=? k) && (k <=? month_len lp m) && (days_before_month lp m + k =? d)
  | _ => false
  end.

Lemma month_day_leap_free yr d : month_day yr d = if Z.land yr 3 =? 0 then month_day 0 d else month_day 1 d.
Proof. unfold month_day. by destruct (Z.land yr 3 =? 0). Qed.

Lemma month_day_spec yr d : 70 <= yr < 200 -> 1 <= d <= year_len (yr + 1900) ->
  exists m k, month_day yr d = Ret (m, k) /\ 0 <= m < 12 /\ 1 <= k <= month_len (leap (yr + 1900)) m
  /\ days_before_month (leap (yr + 1900)) m + k = d.
Proof.
  intros Hyr Hd. unfold year_len in Hd. rewrite month_day_leap_free, leap_land by done.
  assert ((if leap (yr + 1900) then day_ok true 0 d else day_ok false 1 d) = true) as Hk.
  { destruct (leap (yr + 1900)).
    - apply (each_day (day_ok true 0) 366); [vm_compute; reflexivity|lia].
    - apply (each_day (day_ok false 1) 365); [vm_compute; reflexivity|lia]. }
  unfold day_ok in Hk. destruct (leap (yr + 1900)).
  - destruct (month_day 0 d) as [[m k]| |]; [|done|done]. exists m, k. apply andb_prop in Hk as [Hk ?]. repeat (apply andb_prop in Hk as [Hk ?]).
    repeat split; lia.
  - destruct (month_day 1 d) as [[m k]| |]; [|done|done]. exists m, k. apply andb_prop in Hk as [Hk ?]. repeat (apply andb_prop in Hk as [Hk ?]).
    repeat split; lia.
Qed.

(** ** From seconds to the calendar *)

Lemma land3 q k : Z.land (4 * q + k) 3 = k mod 4.
Proof. change 3 with (Z.ones 2). rewrite Z.land_ones by lia. change (2 ^ 2) with 4. Z.to_euclidean_division_equations; lia. Qed.

(** The year loop stops within the four years of a cycle. *)
Lemma year_loop_spec q r : 0 <= r < 1461 * 24 ->
  exists k, 0 <= k <= 3 /\ year_loop 4 (4 * q + 70) r = Ret (4 * q + 70 + k, r - (8760 * k + if k =? 3 then 24 else 0))
  /\ 0 <= r - (8760 * k + if k =? 3 then 24 else 0) < (if k =? 2 then 8784 else 8760).
Proof.
  intros Hr. cbn [year_loop]. unfold ONE_YEAR_HOURS.
  replace (4 * q + 70 + 1) with (4 * q + 71) by lia. replace (4 * q + 71 + 1) with (4 * q + 72) by lia.
  replace (4 * q + 72 + 1) with (4 * q + 73) by lia. rewrite !land3. change (70 mod 4) with 2. change (71 mod 4) with 3.
  change (72 mod 4) with 0. change (73 mod 4) with 1. cbn [Z.eqb]. change (8760 + 24) with 8784.
  destruct (Z.ltb_spec r 8760); [exists 0; simpl; split; [lia|]; split; [f_equal; f_equal; lia|lia]|].
  destruct (Z.ltb_spec (r - 8760) 8760); [exists 1; simpl; split; [lia|]; split; [f_equal; f_equal; lia|lia]|].
  destruct (Z.ltb_spec (r - 8760 - 8760) 8784); [exists 2; simpl; split; [lia|]; split; [f_equal; f_equal; lia|lia]|].
  destruct (Z.ltb_spec (r - 8760 - 8760 - 8784) 8760); [exists 3; simpl; split; [lia|]; split; [f_equal; f_equal; lia|lia]|].
  lia.
Qed.

(** Hours since 1970 of the [k]-th year of cycle [q]. *)
Lemma cycle_days q k : 0 <= q -> 0 <= k <= 3 -> 4 * q + 70 + k < 200 ->
  days_before_year (4 * q + 70 + k + 1900) = 1461 * q + 365 * k + (if k =? 3 then 1 else 0)
  /\ year_len (4 * q + 70 + k + 1900) = (if k =? 2 then 366 else 365).
Proof.
  intros Hq Hk Hlt. rewrite days_before_year_closed by lia. unfold year_len. rewrite <- leap_land by lia.
  replace (4 * q + 70 + k) with (4 * q + (70 + k)) by lia. rewrite land3.
  assert (k = 0 \/ k = 1 \/ k = 2 \/ k = 3) as [-> | [-> | [-> | ->]]] by lia; (split; [|reflexivity]); simpl;
    Z.to_euclidean_division_equations; lia.
Qed.

Lemma gmtime_spec t : 0 <= t < YEAR_2100 ->
  exists tm, _qm_gmtime_r t = Ret tm /\ valid_tm tm /\ civil_seconds tm = t /\ tm_year tm < 200
  /\ tm_wday tm = (civil_days (tm_year tm + 1900) (tm_mon tm) (tm_mday tm) + 4) mod 7.
Proof.
  unfold YEAR_2100. intros Ht. unfold _qm_gmtime_r.
  set (H := t / 60 / 60). assert (0 <= H < 1139568) as HH by (unfold H; Z.to_euclidean_division_equations; lia).
  rewrite (u32_id H) by (widths; lia). set (q := H / (1461 * 24)). set (r := H mod (1461 * 24)).
  assert (0 <= q <= 32 /\ 0 <= r < 1461 * 24 /\ H = 1461 * 24 * q + r) as (Hq & Hr & Hqr)
    by (unfold q, r; Z.to_euclidean_division_equations; lia).
  rewrite Z.shiftl_mul_pow2 by lia. rewrite (u32_id (q * 2 ^ 2)), (u32_id (q * 2 ^ 2 + 70)), i32_id by (widths; lia).
  replace (q * 2 ^ 2 + 70) with (4 * q + 70) by lia.
  destruct (year_loop_spec q r Hr) as (k & Hk & -> & Hh). set (h := r - (8760 * k + if k =? 3 then 24 else 0)) in *.
  cbn [mbind outcome_bind].
  assert (4 * q + 70 + k < 200) as Hlt by (unfold h in *; destruct (Z.eqb_spec k 3), (Z.eqb_spec k 2); lia).
  destruct (cycle_days q k) as [Hcd Hyl]; [lia|lia|done|].
  destruct (month_day_spec (4 * q + 70 + k) (h / 24 + 1)) as (m & d & -> & Hm & Hd & Hsum);
    [lia|rewrite Hyl; destruct (Z.eqb_spec k 2); Z.to_euclidean_division_equations; lia|].
  cbn [mbind outcome_bind]. eexists. split; [reflexivity|].
  assert (civil_days (4 * q + 70 + k + 1900) m d = H / 24) as Hdays.
  { unfold civil_days. rewrite Hcd. replace (H / 24) with (1461 * q + r / 24) by (Z.to_euclidean_division_equations; lia).
    replace (r / 24) with (365 * k + (if k =? 3 then 1 else 0) + h / 24); [lia|].
    unfold h. destruct (Z.eqb_spec k 3); Z.to_euclidean_division_equations; lia. }
  assert (h mod 24 = H mod 24) as Hmod.
  { unfold h. destruct (Z.eqb_spec k 3); Z.to_euclidean_division_equations; lia. }
  split; [constructor; simpl; try done; try lia; apply Z.mod_pos_bound; lia|].
  split; [|split; [simpl; lia|]].
  - unfold civil_seconds. simpl. rewrite Hdays, Hmod. unfold H. clear. Z.to_euclidean_division_equations; lia.
  - simpl. rewrite Hdays. rewrite u64_id; [done|]. widths. Z.to_euclidean_division_equations; lia.
Qed.

(** ** From the calendar to seconds *)

Lemma month_cases (P : Z -> Prop) m : 0 <= m < 12 -> P 0 -> P 1 -> P 2 -> P 3 -> P 4 -> P 5 -> P 6 -> P 7 -> P 8 ->
  P 9 -> P 10 -> P 11 -> P m.
Proof.
  intros Hm. assert (m = 0 \/ m = 1 \/ m = 2 \/ m = 3 \/ m = 4 \/ m = 5 \/ m = 6 \/ m = 7 \/ m = 8 \/ m = 9 \/ m = 10 \/ m = 11)
    as [-> | [-> | [-> | [-> | [-> | [-> | [-> | [-> | [-> | [-> | [-> | ->]]]]]]]]]]] by lia; tauto.
Qed.

Lemma month_len_bound lp m : 0 <= m < 12 -> 28 <= month_len lp m <= 31.
Proof. intros Hm. apply (month_cases (fun m => 28 <= month_len lp m <= 31) m Hm); destruct lp; vm_compute; split; discriminate. Qed.

(** January and February count as months of the previous year. *)
Lemma month_shift lp m : 0 <= m < 12 ->
  days_before_month lp m = if m <=? 1 then 367 * (m + 11) / 12 - 336 else 367 * (m - 1) / 12 + 29 + (if lp then 1 else 0).
Proof.
  intros Hm. pattern m. apply month_cases; [done|..]; destruct lp; vm_compute; reflexivity.
Qed.

Lemma leap_step y : y / 4 - y / 100 + y / 400 = (y - 1) / 4 - (y - 1) / 100 + (y - 1) / 400 + (if leap y then 1 else 0).
Proof.
  unfold leap. destruct (Z.eqb_spec (y mod 4) 0), (Z.eqb_spec (y mod 100) 0), (Z.eqb_spec (y mod 400) 0); simpl;
    Z.to_euclidean_division_equations; lia.
Qed.

(** The day number of [_qm_mktime], without the wrap-around. *)
Lemma mktime_days y m d : 1970 <= y -> 0 <= m < 12 ->
  civil_days y m d =
    (let yy := if m <=? 1 then y - 1 else y in let mm := if m <=? 1 then m + 11 else m - 1 in
     yy / 4 - yy / 100 + yy / 400 + 367 * mm / 12 + d + yy * 365 - 719499).
Proof.
  intros Hy Hm. unfold civil_days. rewrite days_before_year_closed, month_shift by done. cbv zeta.
  destruct (m <=? 1); [lia|]. pose proof (leap_step y). lia.
Qed.

Lemma leap_days_bound y : 0 <= y -> 0 <= y / 4 - y / 100 /\ 0 <= y / 4 - y / 100 + y / 400 <= y.
Proof. intros Hy. Z.to_euclidean_division_equations; lia. Qed.

Lemma civil_days_bound y m d : 1970 <= y < 2 ^ 20 -> 0 <= m < 12 -> 1 <= d <= 31 -> 0 <= civil_days y m d < 2 ^ 30.
Proof.
  intros Hy Hm Hd. rewrite mktime_days by lia. cbv zeta. set (yy := if m <=? 1 then y - 1 else y).
  assert (1969 <= yy < 2 ^ 20) as Hyy by (unfold yy; destruct (m <=? 1); lia).
  pose proof (leap_days_bound yy ltac:(lia)) as Hl.
  assert (0 <= 367 * (if m <=? 1 then m + 11 else m - 1) / 12 <= 400) as Hmm
    by (destruct (Z.leb_spec m 1); Z.to_euclidean_division_equations; lia).
  assert (336 <= 367 * (if m <=? 1 then m + 11 else m - 1) / 12 \/ 1970 <= yy) as Hlow.
  { unfold yy. destruct (Z.leb_spec m 1); [left; Z.to_euclidean_division_equations; lia|right; lia]. }
  assert (477 <= yy / 4 - yy / 100 + yy / 400) by (clear - Hyy; Z.to_euclidean_division_equations; lia). lia.
Qed.

Lemma mktime_spec t : valid_tm t -> tm_year t + 1900 < 2 ^ 20 -> qm_mktime (Some t) = civil_seconds t.
Proof.
  intros [Hs Hmi Hh Hm Hd Hy] Hlt. pose proof (month_len_bound (leap (tm_year t + 1900)) _ Hm) as Hml.
  unfold qm_mktime, civil_seconds. set (y := tm_year t + 1900) in *. set (m := tm_mon t) in *. set (d := tm_mday t) in *.
  rewrite !(u32_id y), (u32_id (m + 1)), (u32_id d), (u32_id (tm_hour t)), (u32_id (tm_min t)), (u32_id (tm_sec t))
    by (widths; lia).
  unfold _qm_mktime. pose proof (civil_days_bound y m d ltac:(lia) Hm ltac:(lia)) as Hcb.
  pose proof (mktime_days y m d Hy Hm) as Hcd. cbv zeta in Hcd.
  assert ((if 0 >=? i32 (u32 (m + 1 - 2)) then (u32 (u32 (m + 1 - 2) + 12), u32 (y - 1)) else (u32 (m + 1 - 2), y))
    = ((if m <=? 1 then m + 11 else m - 1), (if m <=? 1 then y - 1 else y))) as ->.
  { rewrite Z.geb_leb. destruct (Z.leb_spec m 1).
    - destruct (Z.leb_spec (i32 (u32 (m + 1 - 2))) 0) as [Hc|Hc]; [|exfalso; zsolve]. f_equal; zsolve.
    - destruct (Z.leb_spec (i32 (u32 (m + 1 - 2))) 0) as [Hc|Hc]; [exfalso; zsolve|]. f_equal; zsolve. }
  set (yy := if m <=? 1 then y - 1 else y) in *. set (mm := if m <=? 1 then m + 11 else m - 1) in *.
  assert (1969 <= yy < 2 ^ 20) as Hyy by (unfold yy; destruct (m <=? 1); lia).
  assert (1 <= mm <= 12) as Hmm by (unfold mm; destruct (Z.leb_spec m 1); lia).
  pose proof (leap_days_bound yy ltac:(lia)) as [Hl1 Hl2].
  assert (0 <= 367 * mm / 12 <= 400) as Hmb by (Z.to_euclidean_division_equations; lia).
  assert (0 <= yy / 400) by (apply Z.div_pos; lia).
  rewrite (u32_id (yy / 4 - yy / 100)), (u32_id (367 * mm)) by (widths; lia).
  rewrite (u32_id (yy / 4 - yy / 100 + yy / 400)), (u32_id (yy * 365)) by (widths; lia).
  rewrite (u32_id (_ + 367 * mm / 12 + d)) by (widths; lia). rewrite <- Hcd.
  rewrite (u64_id (civil_days y m d)) by (widths; lia). rewrite (u64_id (civil_days y m d * 24 + tm_hour t)) by (widths; lia).
  rewrite (u64_id ((_ + tm_hour t) * 60 + tm_min t)) by (widths; lia). rewrite u64_id by (widths; lia). done.
Qed.

(** ** The calendar is a bijection *)

Lemma month_mono lp m n : 0 <= m < 12 -> 0 <= n < 12 -> m < n -> days_before_month lp m + month_len lp m <= days_before_month lp n.
Proof.
  intros Hm Hn. pattern n. apply month_cases; [done|..]; pattern m; (apply month_cases; [done|..]); intros Hlt;
    try (exfalso; lia); destruct lp; vm_compute; discriminate.
Qed.

Lemma day_in_year lp m d : 0 <= m < 12 -> 1 <= d <= month_len lp m ->
  0 <= days_before_month lp m + d - 1 < if lp then 366 else 365.
Proof.
  intros Hm Hd.
  assert (0 <= days_before_month lp m /\ days_before_month lp m + month_len lp m <= if lp then 366 else 365) as [H0 H1]
    by (pattern m; apply month_cases; [done|..]; destruct lp; vm_compute; split; discriminate).
  destruct lp; lia.
Qed.

Lemma civil_days_inj y m d y' m' d' : 1970 <= y -> 1970 <= y' -> 0 <= m < 12 -> 0 <= m' < 12 ->
  1 <= d <= month_len (leap y) m -> 1 <= d' <= month_len (leap y') m' -> civil_days y m d = civil_days y' m' d' ->
  y = y' /\ m = m' /\ d = d'.
Proof.
  intros Hy Hy' Hm Hm' Hd Hd' He. unfold civil_days in He.
  pose proof (day_in_year _ m d Hm Hd) as Hb. pose proof (day_in_year _ m' d' Hm' Hd') as Hb'.
  assert (y = y') as <-.
  { unfold year_len in *. destruct (Z.lt_trichotomy y y') as [Hlt|[He'|Hlt]]; [|done|].
    - pose proof (days_before_year_mono y y' Hy Hlt) as Hmo. unfold year_len in Hmo. destruct (leap y), (leap y'); lia.
    - pose proof (days_before_year_mono y' y Hy' Hlt) as Hmo. unfold year_len in Hmo. destruct (leap y), (leap y'); lia. }
  split; [done|]. destruct (Z.lt_trichotomy m m') as [Hlt|[He'|Hlt]].
  - pose proof (month_mono (leap y) m m' Hm Hm' Hlt). lia.
  - subst. split; [done|lia].
  - pose proof (month_mono (leap y) m' m Hm' Hm Hlt). lia.
Qed.

(** The six fields a date is made of. *)
Definition fields (t : qm_tm) : list Z := [tm_year t; tm_mon t; tm_mday t; tm_hour t; tm_min t; tm_sec t].

Lemma civil_seconds_inj t t' : valid_tm t -> valid_tm t' -> civil_seconds t = civil_seconds t' -> fields t = fields t'.
Proof.
  intros [Hs Hmi Hh Hm Hd Hy] [Hs' Hmi' Hh' Hm' Hd' Hy'] He. unfold civil_seconds in He.
  set (c := civil_days (tm_year t + 1900) (tm_mon t) (tm_mday t)) in *.
  set (c' := civil_days (tm_year t' + 1900) (tm_mon t') (tm_mday t')) in *.
  assert (c = c' /\ tm_hour t = tm_hour t' /\ tm_min t = tm_min t' /\ tm_sec t = tm_sec t') as (Hc & H1 & H2 & H3) by lia.
  destruct (civil_days_inj _ _ _ _ _ _ Hy Hy' Hm Hm' Hd Hd' Hc) as (Hyy & H4 & H5).
  assert (tm_year t = tm_year t') by lia. unfold fields. congruence.
Qed.

Lemma civil_seconds_2100 t : valid_tm t -> tm_year t < 200 -> 0 <= civil_seconds t < YEAR_2100.
Proof.
  intros [Hs Hmi Hh Hm Hd Hy] Hlt. unfold civil_seconds, YEAR_2100.
  pose proof (month_len_bound (leap (tm_year t + 1900)) _ Hm) as Hml.
  pose proof (civil_days_bound (tm_year t + 1900) (tm_mon t) (tm_mday t) ltac:(lia) Hm ltac:(lia)) as Hb.
  assert (civil_days (tm_year t + 1900) (tm_mon t) (tm_mday t) < 47482); [|lia].
  pose proof (day_in_year _ _ _ Hm Hd) as Hdy. unfold civil_days.
  pose proof (days_before_year_mono (tm_year t + 1900) 2100 ltac:(lia) ltac:(lia)) as Hmo.
  rewrite (days_before_year_closed 2100) in Hmo by lia. change ((2100 - 1) / 4) with 524 in Hmo.
  change ((2100 - 1) / 100) with 20 in Hmo. change ((2100 - 1) / 400) with 5 in Hmo. unfold year_len in Hmo.
  destruct (leap (tm_year t + 1900)); lia.
Qed.

(** ** Theorems *)

(** For every instant before 2100 the conversion to broken-down time ends
    and gives a date of the Gregorian calendar that stands for this instant,
    with its weekday (1 January 1970 was a Thursday). *)
Theorem gmtime_correct t : 0 <= t < YEAR_2100 ->
  exists tm, qm_gmtime_r (Some t) = Ret tm /\ valid_tm tm /\ civil_seconds tm = t
  /\ tm_wday tm = (civil_days (tm_year tm + 1900) (tm_mon tm) (tm_mday tm) + 4) mod 7.
Proof. intros Ht. destruct (gmtime_spec t Ht) as (tm & He & Hv & Hc & _ & Hw). by exists tm. Qed.

(** [qm_mktime] computes the number of seconds of every Gregorian date from
    1970 on (years up to 2^20), although its arithmetic is unsigned. *)
Theorem mktime_correct t : valid_tm t -> tm_year t + 1900 < 2 ^ 20 -> qm_mktime (Some t) = civil_seconds t.
Proof. apply mktime_spec. Qed.

(** C19: the two conversions are inverse to each other before 2100: seconds
    survive the way through the calendar, and a date survives the way through
    seconds. *)
Theorem calendar_roundtrip :
  (forall t, 0 <= t < YEAR_2100 -> exists tm, qm_gmtime_r (Some t) = Ret tm /\ qm_mktime (Some tm) = t)
  /\ (forall tm, valid_tm tm -> tm_year tm < 200 ->
        exists tm', qm_gmtime_r (Some (qm_mktime (Some tm))) = Ret tm' /\ fields tm' = fields tm).
Proof.
  split.
  - intros t Ht. destruct (gmtime_spec t Ht) as (tm & He & Hv & Hc & Hy & _). exists tm. split; [done|].
    rewrite mktime_spec by (done || lia). done.
  - intros tm Hv Hy. rewrite mktime_spec by (done || lia).
    destruct (gmtime_spec _ (civil_seconds_2100 tm Hv Hy)) as (tm' & He & Hv' & Hc & _ & _). exists tm'. split; [done|].
    by apply civil_seconds_inj.
Qed.

(** The conversion treats every fourth year as a leap year: on 1 March
    2100, within the range of the 32-bit clock, it answers 29 February, a date
    that does not exist, and from the next day on it is a day behind. *)
Theorem gmtime_wrong_after_2100 :
  MARCH_2100 < 2 ^ 32
  /\ (exists tm, qm_gmtime_r (Some MARCH_2100) = Ret tm /\ ~ valid_tm tm)
  /\ (exists tm, qm_gmtime_r (Some (MARCH_2100 + 86400)) = Ret tm /\ qm_mktime (Some tm) = MARCH_2100).
Proof.
  split; [reflexivity|]. split; eexists; (split; [vm_compute; reflexivity|]).
  - intros [_ _ _ _ Hd _]. vm_compute in Hd. destruct Hd as [_ Hd]. by apply Hd.
  - vm_compute. reflexivity.
Qed.

(** The day of the year is computed modulo 365 over the four-year cycle, so
    31 December of a leap year comes out as day 0 and the year after it starts
    with day 1. *)
Theorem yday_wrong_in_leap_cycle :
  (exists tm, qm_gmtime_r (Some 94608000) = Ret tm /\ fields tm = [72; 11; 31; 0; 0; 0] /\ tm_yday tm = 0)
  /\ (exists tm, qm_gmtime_r (Some 94694400) = Ret tm /\ fields tm = [73; 0; 1; 0; 0; 0] /\ tm_yday tm = 1).
Proof. split; eexists; (split; [vm_compute; reflexivity|split; reflexivity]). Qed.

(** Documented behaviour of the clock driver: what is set is read back. *)
Class RtcLaws (R : Type) `{Rtc R} := {
  rtc_set_get r t r' : is_u32 t -> rtc_set_timestamp r t = (QM_EOK, r') -> rtc_get_timestamp r' = (QM_EOK, t)
}.

(** A time that was set is read back by both readers, as its low 32 bits,
    together with the zone that was set with it. *)
Theorem set_get_time {R} `{RtcLaws R} (s s' : clock R) sec tz :
  qm_settimeofday s (Some sec) (Some tz) = (QM_EOK, s') ->
  qm_time s' = u32 sec /\ qm_gettimeofday s' true true = (QM_EOK, Some (u32 sec), Some tz).
Proof.
  unfold qm_settimeofday. destruct (rtc_set_timestamp (rtc s) (u32 sec)) as [ret r] eqn:Hr.
  destruct (Z.eqb_spec ret QM_EOK) as [->|Hne]; [intros [= <-]|by intros [=]].
  apply rtc_set_get in Hr; [|apply u32_range]. unfold qm_time, qm_gettimeofday. simpl. by rewrite Hr.
Qed.

(** ** Concrete dates *)

Lemma gmtime_correct_witness : exists tm, qm_gmtime_r (Some 951782400) = Ret tm /\ fields tm = [100; 1; 29; 0; 0; 0]
  /\ civil_seconds tm = 951782400.
Proof.
  destruct (gmtime_correct 951782400) as (tm & He & _ & Hc & _); [unfold YEAR_2100; lia|].
  exists tm. split; [exact He|]. split; [|exact Hc]. vm_compute in He. injection He as <-. reflexivity.
Defined.

Definition demo_tm : qm_tm := mk_tm 59 58 23 29 1 124 4 59.

Lemma demo_tm_valid : valid_tm demo_tm.
Proof. constructor; vm_compute; try (split; [discriminate|reflexivity]); try (split; discriminate); discriminate. Defined.

Lemma mktime_correct_witness : qm_mktime (Some demo_tm) = 1709251139 /\ civil_seconds demo_tm = 1709251139.
Proof.
  assert (qm_mktime (Some demo_tm) = civil_seconds demo_tm) as He
    by (apply (mktime_correct demo_tm demo_tm_valid); reflexivity).
  split; [vm_compute; reflexivity|rewrite <- He; vm_compute; reflexivity].
Defined.

(** A clock that stores what it is given. *)
Definition cell_rtc : Rtc Z := {| rtc_init r := r; rtc_get_timestamp r := (QM_EOK, r); rtc_set_timestamp r t := (QM_EOK, t) |}.

Lemma cell_rtc_laws : @RtcLaws Z cell_rtc.
Proof. constructor. intros r t r' _ [= <-]. reflexivity. Defined.

Lemma set_get_time_witness :
  @qm_time Z cell_rtc (mk_clock 1700000000 (-300)) = 1700000000
  /\ @qm_gettimeofday Z cell_rtc (mk_clock 1700000000 (-300)) true true = (QM_EOK, Some 1700000000, Some (-300)).
Proof.
  apply (@set_get_time Z cell_rtc cell_rtc_laws (mk_clock 0 480) (mk_clock 1700000000 (-300)) 1700000000 (-300)).
  reflexivity.
Defined.

End QmTime.
