(* ===== verification/WeeklyTimer.v ===== *)
(** * Weekly alarms (components/weekly_timer)

    Groups of times of day that fire once or on selected weekdays.  Times of
    day are turned into seconds with the calendar functions; the alarm itself is
    a kernel timer, of which the model records the calls.  Seconds are 32-bit
    unsigned.  The clock readings of a call are arguments. *)

From S2P Require Import Prelude Outcome QmTime.
Import list_relations.list list_basics.list.

Module WeeklyTimer.
Import QmTime.

Record event_time_t := mk_ev {
  hour : Z; minute : Z; second : Z;
  tm_cb : Z;
  arg : Z;
  en : bool
}.

(** [week_mark] is the byte of the union: bit 0 is Sunday, bit 7 [enable]. *)
Record event_timer_loop_t := mk_loop {
  weekly_loop : bool;
  week_mark : Z;
  nearest_tm : Z;
  nearest_idx : Z;
  time_group : list event_time_t
}.

(** Calls on the kernel timer of a loop. *)
Inductive timer_op := TimerNew | TimerStop | TimerChange (ms : Z) | TimerStart | TimerFree.

Definition SEC_PER_DAY : Z := 86400.
Definition TIMER_NEAREST_INF : Z := 2147483647.

Definition set_nearest (v i : Z) (l : event_timer_loop_t) : event_timer_loop_t :=
  mk_loop (weekly_loop l) (week_mark l) v i (time_group l).
Definition set_enable (b : bool) (l : event_timer_loop_t) : event_timer_loop_t :=
  mk_loop (weekly_loop l) (if b then Z.lor (week_mark l) 128 else Z.land (week_mark l) 127) (nearest_tm l) (nearest_idx l)
    (time_group l).
Definition set_en (b : bool) (e : event_time_t) : event_time_t :=
  mk_ev (hour e) (minute e) (second e) (tm_cb e) (arg e) b.
Definition set_group (g : list event_time_t) (l : event_timer_loop_t) : event_timer_loop_t :=
  mk_loop (weekly_loop l) (week_mark l) (nearest_tm l) (nearest_idx l) g.

(** The search for the next selected weekday. *)
Fixpoint day_loop (fuel : nat) (mask time_loc g_now week_day day_diff : Z) : outcome Z :=
  match fuel with
  | O => NoFuel
  | S fuel' =>
      if day_diff <=? 7 then
        if Z.testbit mask week_day && (u32 (time_loc + u32 (SEC_PER_DAY * day_diff)) >? g_now) then
          Ret (u32 (time_loc + u32 (SEC_PER_DAY * day_diff)))
        else day_loop fuel' mask time_loc g_now ((week_day + 1) mod 7) (day_diff + 1)
      else Ret time_loc
  end.

(** The time of day of an entry on the day of [timeinfo]. *)
Definition event_seconds (timeinfo : qm_tm) (e : event_time_t) : Z :=
  u32 (qm_mktime (Some (mk_tm (second e) (minute e) (hour e) (tm_mday timeinfo) (tm_mon timeinfo) (tm_year timeinfo)
                          (tm_wday timeinfo) (tm_yday timeinfo)))).

(** The next time of entry [i]. *)
Definition event_next (l : event_timer_loop_t) (timeinfo : qm_tm) (g_now old_idx i : Z) (e : event_time_t) : outcome Z :=
  let time_loc := event_seconds timeinfo e in
  if weekly_loop l then
    let week_day := tm_wday timeinfo in
    if i =? old_idx then day_loop 9 (week_mark l) time_loc g_now ((week_day + 1) mod 7) 1
    else day_loop 9 (week_mark l) time_loc g_now week_day 0
  else Ret (if time_loc >? g_now then time_loc else u32 (time_loc + SEC_PER_DAY)).

Fixpoint nearest_loop (g : list event_time_t) (i : Z) (old_idx g_now : Z) (timeinfo : qm_tm) (l : event_timer_loop_t)
  : outcome event_timer_loop_t :=
  match g with
  | [] => Ret l
  | e :: g' =>
      if en e then
        time_loc ← event_next l timeinfo g_now old_idx i e;
        nearest_loop g' (i + 1) old_idx g_now timeinfo (if time_loc <? nearest_tm l then set_nearest time_loc i l else l)
      else nearest_loop g' (i + 1) old_idx g_now timeinfo l
  end.

(** The 32-bit [g_now] is passed as a pointer to a 64-bit time: [hi] is what the
    next four bytes of the stack hold. *)
Definition weekly_timer_loop_get_nearest (zone hi g_now : Z) (l : event_timer_loop_t) : outcome (Z * event_timer_loop_t) :=
  let old_idx := nearest_idx l in
  timeinfo ← _qm_localtime_r zone (g_now + 2 ^ 32 * hi);
  if negb (Z.testbit (week_mark l) 7) then Ret (TIMER_NEAREST_INF, l)
  else
    l' ← nearest_loop (time_group l) 0 old_idx g_now timeinfo (set_nearest TIMER_NEAREST_INF (nearest_idx l) l);
    Ret (nearest_tm l', l').

(** The clock is read twice: [g_now] here and [g_now2] by the callee. *)
Definition weekly_timer_update (zone hi g_now g_now2 : Z) (l : event_timer_loop_t)
  : outcome (Z * event_timer_loop_t * list timer_op) :=
  '(tm_loc, l') ← weekly_timer_loop_get_nearest zone hi g_now2 l;
  let ops := if negb (tm_loc =? TIMER_NEAREST_INF) && (u32 (tm_loc - g_now) >? 0)
             then [TimerStop; TimerChange (u32 (u32 (tm_loc - g_now) * 1000)); TimerStart] else [TimerStop] in
  Ret (QM_EOK, l', ops).

(** The alarm: the callback and argument that are called, then the update. *)
Definition weekly_timer_cb (zone hi g_now g_now2 : Z) (l : event_timer_loop_t)
  : outcome (event_timer_loop_t * (Z * Z) * list timer_op) :=
  e ← of_option (time_group l !! Z.to_nat (nearest_idx l));
  let l1 := if weekly_loop l then l else set_group (<[Z.to_nat (nearest_idx l) := set_en false e]> (time_group l)) l in
  '(_, l2, ops) ← weekly_timer_update zone hi g_now g_now2 l1;
  Ret (l2, (tm_cb e, arg e), ops).

(** [None]: no times, or out of memory. *)
Definition weekly_timer_add (zone hi g_now g_now1 g_now2 : Z) (mem : bool) (weekly_loop : bool) (week_mark : Z)
    (time_group : option (list event_time_t)) : outcome (option (event_timer_loop_t * list timer_op)) :=
  match time_group with
  | None => Ret None
  | Some g =>
      if negb mem then Ret None
      else
        let new_loop := mk_loop weekly_loop week_mark TIMER_NEAREST_INF TIMER_NEAREST_INF g in
        timeinfo ← _qm_localtime_r zone g_now;
        if tm_year timeinfo >=? 2023 - 1900 then
          '(_, l, ops) ← weekly_timer_update zone hi g_now1 g_now2 new_loop;
          Ret (Some (l, TimerNew :: ops))
        else Ret (Some (new_loop, [TimerNew]))
  end.

Definition weekly_timer_delete (timer_handle : option event_timer_loop_t) : Z * list timer_op :=
  match timer_handle with
  | None => (- QM_EINVAL, [])
  | Some _ => (QM_EOK, [TimerStop; TimerFree])
  end.

(** Start and stop: enable flag and all entries, then the update. *)
Definition switch (b : bool) (zone hi g_now g_now2 : Z) (timer_handle : option event_timer_loop_t)
  : outcome (Z * option event_timer_loop_t * list timer_op) :=
  match timer_handle with
  | None => Ret (- QM_EINVAL, None, [])
  | Some l =>
      let l1 := set_group (set_en b <$> time_group l) (set_nearest TIMER_NEAREST_INF TIMER_NEAREST_INF (set_enable b l)) in
      '(_, l2, ops) ← weekly_timer_update zone hi g_now g_now2 l1;
      Ret (QM_EOK, Some l2, ops)
  end.

Definition weekly_timer_start := switch true.
Definition weekly_timer_stop := switch false.

(** ** Specification *)

Definition tod (e : event_time_t) : Z := (hour e * 60 + minute e) * 60 + second e.

Record time_ok (e : event_time_t) : Prop := {
  to_hour : 0 <= hour e < 24;
  to_minute : 0 <= minute e < 60;
  to_second : 0 <= second e < 60
}.

(** Instant [t] is one at which entry [i] is due after [now]: its time of day,
    on a selected weekday for a weekly loop; the entry that fired last is not
    due again on the same day. *)
Definition due (l : event_timer_loop_t) (now old_idx i : Z) (e : event_time_t) (t : Z) : Prop :=
  now < t /\ t mod SEC_PER_DAY = tod e
  /\ (weekly_loop l = true ->
        Z.testbit (week_mark l) ((t / SEC_PER_DAY + 4) mod 7) = true
        /\ (i = old_idx -> now / SEC_PER_DAY < t / SEC_PER_DAY)).

(** The first such instant. *)
Definition next_due (l : event_timer_loop_t) (now old_idx i : Z) (e : event_time_t) (t : Z) : Prop :=
  due l now old_idx i e t /\ forall t', due l now old_idx i e t' -> t <= t'.

(** Some weekday is selected. *)
Definition some_day (l : event_timer_loop_t) : Prop := exists d, 0 <= d < 7 /\ Z.testbit (week_mark l) d = true.

Definition now_ok (now : Z) : Prop := 0 <= now < TIMER_NEAREST_INF - 8 * SEC_PER_DAY.

(** ** Lemmas *)

Lemma next_weekday D k : ((D + k + 4) mod 7 + 1) mod 7 = (D + (k + 1) + 4) mod 7.
Proof. rewrite Zplus_mod_idemp_l. f_equal. lia. Qed.

(** The days from [k] on: the first good one is found. *)
Lemma day_loop_spec mask D td now n k : 0 <= D < 30000 -> 0 <= td < SEC_PER_DAY -> 0 <= k -> (n = Z.to_nat (8 - k)) ->
  (exists j, k <= j <= 7 /\ Z.testbit mask ((D + j + 4) mod 7) = true /\ (D + j) * SEC_PER_DAY + td > now) ->
  exists j, k <= j <= 7 /\ Z.testbit mask ((D + j + 4) mod 7) = true /\ (D + j) * SEC_PER_DAY + td > now
  /\ (forall i, k <= i < j -> Z.testbit mask ((D + i + 4) mod 7) = true -> (D + i) * SEC_PER_DAY + td <= now)
  /\ day_loop (S n) mask (D * SEC_PER_DAY + td) now ((D + k + 4) mod 7) k = Ret ((D + j) * SEC_PER_DAY + td).
Proof.
  intros HD Htd Hk. revert k Hk. induction n as [|n IH]; intros k Hk Hn (j & Hj & Hb & Hgt); [lia|]. cbn [day_loop].
  destruct (Z.leb_spec k 7); [|lia].
  assert (u32 (D * SEC_PER_DAY + td + u32 (SEC_PER_DAY * k)) = (D + k) * SEC_PER_DAY + td) as ->.
  { unfold SEC_PER_DAY in *. rewrite (u32_id (86400 * k)), u32_id by (widths; lia). lia. }
  destruct (Z.testbit mask ((D + k + 4) mod 7)) eqn:Hbit; simpl.
  - destruct (Z.gtb_spec ((D + k) * SEC_PER_DAY + td) now) as [Hg|Hg].
    + exists k. split; [lia|]. split; [done|]. split; [lia|]. split; [intros; lia|done].
    + assert (k <> j) by (intros <-; lia). destruct (IH (k + 1)) as (j' & Hj' & Hb' & Hg' & Hmin & He); [lia|lia|by exists j; split; [lia|]|].
      exists j'. split; [lia|]. split; [done|]. split; [done|]. split.
      * intros i Hi Hbi. destruct (decide (i = k)) as [->|]; [done|apply Hmin; [lia|done]].
      * by rewrite next_weekday.
  - assert (k <> j) by (intros <-; congruence). destruct (IH (k + 1)) as (j' & Hj' & Hb' & Hg' & Hmin & He); [lia|lia|by exists j; split; [lia|]|].
    exists j'. split; [lia|]. split; [done|]. split; [done|]. split.
    + intros i Hi Hbi. destruct (decide (i = k)) as [->|]; [congruence|apply Hmin; [lia|done]].
    + by rewrite next_weekday.
Qed.

Lemma day_loop_fuel n mask tl now wd k r : day_loop n mask tl now wd k = Ret r -> day_loop (S n) mask tl now wd k = Ret r.
Proof.
  revert wd k. induction n as [|n IH]; intros wd k; [done|]. cbn [day_loop]. destruct (k <=? 7); [|done].
  destruct (_ && _); [done|]. apply IH.
Qed.

(** Within a week every weekday occurs. *)
Lemma week_covers D d : 0 <= d < 7 -> exists j, 1 <= j <= 7 /\ (D + j + 4) mod 7 = d.
Proof.
  intros Hd. exists ((d - D - 5) mod 7 + 1). split; [pose proof (Z.mod_pos_bound (d - D - 5) 7); lia|].
  replace (D + ((d - D - 5) mod 7 + 1) + 4) with ((d - D - 5) mod 7 + (D + 5)) by lia. rewrite Zplus_mod_idemp_l.
  replace (d - D - 5 + (D + 5)) with d by lia. apply Z.mod_small. lia.
Qed.

(** The day of [timeinfo] at the time of an entry. *)
Lemma event_seconds_spec now ti e : now_ok now -> valid_tm ti -> civil_seconds ti = now -> tm_year ti < 200 -> time_ok e ->
  civil_days (tm_year ti + 1900) (tm_mon ti) (tm_mday ti) = now / SEC_PER_DAY
  /\ event_seconds ti e = now / SEC_PER_DAY * SEC_PER_DAY + tod e.
Proof.
  intros Hn [Hs Hmi Hh Hm Hd Hy] Hc Hlt [H1 H2 H3]. unfold civil_seconds in Hc.
  set (D := civil_days (tm_year ti + 1900) (tm_mon ti) (tm_mday ti)) in *.
  assert (D = now / SEC_PER_DAY) as HD by (unfold SEC_PER_DAY; Z.to_euclidean_division_equations; lia).
  split; [done|]. unfold event_seconds. rewrite mktime_spec; [|by constructor|simpl; lia].
  unfold civil_seconds. simpl. fold D. unfold tod. rewrite <- HD. unfold now_ok, TIMER_NEAREST_INF, SEC_PER_DAY in *.
  clearbody D. clear HD. rewrite u32_id; [lia|]. widths. lia.
Qed.

Lemma tod_bound e : time_ok e -> 0 <= tod e < SEC_PER_DAY.
Proof. intros [H1 H2 H3]. unfold tod, SEC_PER_DAY. lia. Qed.

(** Instants written as day and time of day. *)
Lemma due_day l now old i e t : time_ok e -> due l now old i e t -> t = t / SEC_PER_DAY * SEC_PER_DAY + tod e.
Proof. intros _ (_ & Ht & _). pose proof (Z.div_mod t SEC_PER_DAY ltac:(unfold SEC_PER_DAY; lia)). lia. Qed.

Lemma day_split D td : 0 <= td < SEC_PER_DAY -> (D * SEC_PER_DAY + td) / SEC_PER_DAY = D /\ (D * SEC_PER_DAY + td) mod SEC_PER_DAY = td.
Proof.
  intros Htd. rewrite Z.add_comm. unfold SEC_PER_DAY in *. rewrite Z.div_add, Z.mod_add by lia.
  rewrite Z.div_small, Z.mod_small by lia. lia.
Qed.

(** The day of [now]. *)
Lemma today now : now_ok now -> let D := now / SEC_PER_DAY in
  0 <= D < 30000 /\ D * SEC_PER_DAY <= now < (D + 1) * SEC_PER_DAY.
Proof. unfold now_ok, TIMER_NEAREST_INF, SEC_PER_DAY. intros Hn. Z.to_euclidean_division_equations; lia. Qed.

Lemma due_not_before l now old i e t : due l now old i e t -> now / SEC_PER_DAY <= t / SEC_PER_DAY.
Proof. intros (Hlt & _). apply Z.div_le_mono; [unfold SEC_PER_DAY; lia|lia]. Qed.

(** The search of a weekly loop, from today or from tomorrow. *)
Lemma weekly_search l now old i e : now_ok now -> time_ok e -> some_day l ->
  let D := now / SEC_PER_DAY in let k := if i =? old then 1 else 0 in
  exists j, k <= j <= 7 /\ Z.testbit (week_mark l) ((D + j + 4) mod 7) = true /\ (D + j) * SEC_PER_DAY + tod e > now
  /\ (forall i, k <= i < j -> Z.testbit (week_mark l) ((D + i + 4) mod 7) = true -> (D + i) * SEC_PER_DAY + tod e <= now)
  /\ (if i =? old then day_loop 9 (week_mark l) (D * SEC_PER_DAY + tod e) now (((D + 4) mod 7 + 1) mod 7) 1
      else day_loop 9 (week_mark l) (D * SEC_PER_DAY + tod e) now ((D + 4) mod 7) 0)
     = Ret ((D + j) * SEC_PER_DAY + tod e).
Proof.
  intros Hn He (d & Hd & Hbit) D k. pose proof (tod_bound e He) as Ht. destruct (today now Hn) as [HDb HDn]. fold D in HDb, HDn.
  assert (exists j, k <= j <= 7 /\ Z.testbit (week_mark l) ((D + j + 4) mod 7) = true /\ (D + j) * SEC_PER_DAY + tod e > now) as Hex.
  { destruct (week_covers D d Hd) as (j & Hj & Hmod). exists j. rewrite Hmod. split; [unfold k; destruct (i =? old); lia|].
    split; [done|]. unfold SEC_PER_DAY in *. lia. }
  unfold k in *. destruct (i =? old).
  - destruct (day_loop_spec (week_mark l) D (tod e) now 7 1 HDb Ht ltac:(lia) eq_refl Hex) as (j & Hj & Hb & Hgt & Hmin & Hr).
    exists j. split; [done|]. split; [done|]. split; [done|]. split; [done|].
    replace (((D + 4) mod 7 + 1) mod 7) with ((D + 1 + 4) mod 7) by (rewrite Zplus_mod_idemp_l; f_equal; lia).
    by apply day_loop_fuel.
  - destruct (day_loop_spec (week_mark l) D (tod e) now 8 0 HDb Ht ltac:(lia) eq_refl Hex) as (j & Hj & Hb & Hgt & Hmin & Hr).
    exists j. split; [done|]. split; [done|]. split; [done|]. split; [done|].
    by replace (D + 0 + 4) with (D + 4) in Hr by lia.
Qed.

(** The first good day is the first due instant. *)
Lemma weekly_next_due l now old i e j : now_ok now -> time_ok e -> weekly_loop l = true ->
  let D := now / SEC_PER_DAY in let k := if i =? old then 1 else 0 in
  k <= j <= 7 -> Z.testbit (week_mark l) ((D + j + 4) mod 7) = true -> (D + j) * SEC_PER_DAY + tod e > now ->
  (forall i, k <= i < j -> Z.testbit (week_mark l) ((D + i + 4) mod 7) = true -> (D + i) * SEC_PER_DAY + tod e <= now) ->
  next_due l now old i e ((D + j) * SEC_PER_DAY + tod e).
Proof.
  intros Hn He Hwl D k Hj Hb Hgt Hmin. destruct (day_split (D + j) (tod e) (tod_bound e He)) as [Hq Hm]. split.
  - split; [lia|]. split; [done|]. intros _. rewrite Hq. split; [done|]. intros ->. unfold k in Hj.
    rewrite Z.eqb_refl in Hj. fold D. lia.
  - intros t' Hdue. pose proof (due_not_before _ _ _ _ _ _ Hdue) as Hl. pose proof (due_day _ _ _ _ _ _ He Hdue) as Ht'.
    destruct Hdue as (Hnow & Hmt & Hsel). destruct (Hsel Hwl) as [Hbt Hold]. fold D in Hl, Hold.
    set (D' := t' / SEC_PER_DAY) in *.
    destruct (Z.le_gt_cases (D + j) D') as [Hle|Hgt']; [rewrite Ht'; unfold SEC_PER_DAY in *; lia|].
    exfalso. pose proof (Hmin (D' - D)) as Hx. replace (D + (D' - D)) with D' in Hx by lia.
    assert (D' * SEC_PER_DAY + tod e <= now); [|lia]. apply Hx; [|done]. split; [|lia].
    unfold k. destruct (Z.eqb_spec i old) as [Heq|]; [|lia]. specialize (Hold Heq). lia.
Qed.

(** One-shot: today or tomorrow. *)
Lemma once_next_due l now old i e : now_ok now -> time_ok e -> weekly_loop l = false ->
  let D := now / SEC_PER_DAY in
  next_due l now old i e (if D * SEC_PER_DAY + tod e >? now then D * SEC_PER_DAY + tod e
                          else D * SEC_PER_DAY + tod e + SEC_PER_DAY).
Proof.
  intros Hn He Hwl D. destruct (today now Hn) as [HDb HDn]. fold D in HDb, HDn. pose proof (tod_bound e He) as Ht.
  assert (forall t', due l now old i e t' -> t' = t' / SEC_PER_DAY * SEC_PER_DAY + tod e /\ D <= t' / SEC_PER_DAY /\ now < t') as Hall.
  { intros t' Hdue. split; [by eapply due_day|]. split; [by eapply due_not_before|by destruct Hdue]. }
  destruct (Z.gtb_spec (D * SEC_PER_DAY + tod e) now) as [Hg|Hg]; split.
  - split; [lia|]. split; [by apply day_split|congruence].
  - intros t' Hdue. specialize (Hall t' Hdue). unfold SEC_PER_DAY in *. lia.
  - split; [unfold SEC_PER_DAY in *; lia|]. split; [|congruence].
    replace (D * SEC_PER_DAY + tod e + SEC_PER_DAY) with ((D + 1) * SEC_PER_DAY + tod e) by lia. by apply day_split.
  - intros t' Hdue. specialize (Hall t' Hdue). unfold SEC_PER_DAY in *.
    destruct (decide (D = t' / 86400)) as [Heq|]; lia.
Qed.

(** The next time of an entry is computed right. *)
Lemma event_next_spec l now old i e ti : now_ok now -> valid_tm ti -> civil_seconds ti = now -> tm_year ti < 200 ->
  tm_wday ti = (civil_days (tm_year ti + 1900) (tm_mon ti) (tm_mday ti) + 4) mod 7 -> time_ok e ->
  (weekly_loop l = true -> some_day l) ->
  exists t, event_next l ti now old i e = Ret t /\ next_due l now old i e t /\ t <= now + 8 * SEC_PER_DAY.
Proof.
  intros Hn Hv Hc Hy Hw He Hday. destruct (event_seconds_spec now ti e Hn Hv Hc Hy He) as [HD Hes].
  pose proof (tod_bound e He) as Ht. unfold event_next. rewrite Hes, Hw, HD. destruct (today now Hn) as [HDb HDn].
  destruct (weekly_loop l) eqn:Hwl.
  - destruct (weekly_search l now old i e Hn He (Hday eq_refl)) as (j & Hj & Hb & Hgt & Hmin & Hr). rewrite Hr.
    eexists. split; [reflexivity|]. split; [by apply weekly_next_due|]. unfold SEC_PER_DAY in *. lia.
  - rewrite (u32_id (_ + SEC_PER_DAY)) by (unfold SEC_PER_DAY in *; widths; lia).
    eexists. split; [reflexivity|]. split; [by apply once_next_due|].
    unfold SEC_PER_DAY in *. destruct (Z.gtb_spec (now / 86400 * 86400 + tod e) now); lia.
Qed.

(** The minimum over the entries, and where it is. *)
Lemma nearest_loop_spec g i old now ti l :
  (forall j e, g !! j = Some e -> en e = true -> exists t, event_next l ti now old (i + Z.of_nat j) e = Ret t) ->
  exists v k, nearest_loop g i old now ti l = Ret (set_nearest v k l) /\ v <= nearest_tm l
  /\ (forall j e t, g !! j = Some e -> en e = true -> event_next l ti now old (i + Z.of_nat j) e = Ret t -> v <= t)
  /\ ((v = nearest_tm l /\ k = nearest_idx l)
      \/ exists j e, g !! j = Some e /\ en e = true /\ k = i + Z.of_nat j /\ event_next l ti now old k e = Ret v).
Proof.
  revert i l. induction g as [|e g IH]; intros i l Hall.
  - exists (nearest_tm l), (nearest_idx l). split; [by destruct l|]. split; [lia|]. split; [done|by left].
  - cbn [nearest_loop].
    assert (forall v k, event_next (set_nearest v k l) = event_next l) as Hpure by done.
    assert (forall v k j x, g !! j = Some x -> en x = true ->
      exists t, event_next (set_nearest v k l) ti now old (i + 1 + Z.of_nat j) x = Ret t) as Htl.
    { intros v k j x Hj Hx. destruct (Hall (S j) x Hj Hx) as (t & Ht). exists t. rewrite Hpure.
      by replace (i + 1 + Z.of_nat j) with (i + Z.of_nat (S j)) by lia. }
    destruct (en e) eqn:Hen.
    + destruct (Hall 0%nat e eq_refl Hen) as (t & Ht). replace (i + Z.of_nat 0) with i in Ht by lia. rewrite Ht. cbn [mbind outcome_bind].
      set (l1 := if t <? nearest_tm l then set_nearest t i l else l).
      assert (exists v k, l1 = set_nearest v k l /\ v <= t /\ v <= nearest_tm l
        /\ ((v = t /\ k = i) \/ (v = nearest_tm l /\ k = nearest_idx l))) as (v1 & k1 & Hl1 & Hv1 & Hv1' & Hor).
      { unfold l1. destruct (Z.ltb_spec t (nearest_tm l)); [exists t, i|exists (nearest_tm l), (nearest_idx l)];
          (split; [first [done | by destruct l]|]); (split; [lia|]); split; [lia|by left|lia|by right]. }
      rewrite Hl1. destruct (IH (i + 1) _ (Htl v1 k1)) as (v & k & -> & Hv & Hmin & Hcase). exists v, k. split; [done|].
      simpl in Hv. split; [lia|]. split.
      * intros [|j] x t' Hx Hex Hn'; [|apply (Hmin j x); [done|done|];
          by replace (i + 1 + Z.of_nat j) with (i + Z.of_nat (S j)) by lia].
        simplify_eq/=. replace (i + Z.of_nat 0) with i in Hn' by lia. rewrite Ht in Hn'. simplify_eq. lia.
      * destruct Hcase as [[-> ->]|(j & x & Hj & Hx & -> & Hn')].
        -- simpl. destruct Hor as [[-> ->]|[-> ->]]; [|by left]. right. exists 0%nat, e. split; [done|]. split; [done|]. split; [lia|done].
        -- right. exists (S j), x. split; [done|]. split; [done|]. split; [lia|done].
    + destruct (IH (i + 1) l (Htl (nearest_tm l) (nearest_idx l))) as (v & k & He & Hv & Hmin & Hcase).
      exists v, k. split; [done|]. split; [done|]. split.
      * intros [|j] x t' Hx Hex Hn'; [simplify_eq/=; congruence|].
        apply (Hmin j x); [done|done|]. by replace (i + 1 + Z.of_nat j) with (i + Z.of_nat (S j)) by lia.
      * destruct Hcase as [Hc|(j & x & Hj & Hx & -> & Hn')]; [by left|].
        right. exists (S j), x. split; [done|]. split; [done|]. split; [lia|done].
Qed.

(** ** Theorems *)

Record loop_ok (l : event_timer_loop_t) : Prop := {
  lo_enable : Z.testbit (week_mark l) 7 = true;
  lo_days : weekly_loop l = true -> some_day l;
  lo_times : forall j e, time_group l !! j = Some e -> en e = true -> time_ok e
}.

Lemma utc_seconds now : 0 <= now < 2 ^ 32 -> u64 (now + 2 ^ 32 * 0 + i32 (0 * 60)) = now.
Proof. intros Hn. change (i32 (0 * 60)) with 0. rewrite u64_id; [lia|widths; lia]. Qed.

(** The result of the search: the earliest of the next times of the enabled
    entries, and the entry it belongs to. *)
Lemma get_nearest_spec l now : loop_ok l -> now_ok now ->
  exists v k, weekly_timer_loop_get_nearest 0 0 now l = Ret (v, set_nearest v k l)
  /\ ((v = TIMER_NEAREST_INF /\ k = nearest_idx l /\ forall j e, time_group l !! j = Some e -> en e = false)
      \/ (now < v <= now + 8 * SEC_PER_DAY
          /\ (exists e, time_group l !! Z.to_nat k = Some e /\ 0 <= k /\ en e = true /\ next_due l now (nearest_idx l) k e v)
          /\ (forall j e t, time_group l !! j = Some e -> en e = true -> due l now (nearest_idx l) (Z.of_nat j) e t -> v <= t))).
Proof.
  intros [Hen Hday Htimes] Hn. unfold weekly_timer_loop_get_nearest, _qm_localtime_r.
  rewrite utc_seconds by (unfold now_ok, TIMER_NEAREST_INF, SEC_PER_DAY in *; lia).
  destruct (gmtime_spec now) as (ti & -> & Hv & Hc & Hy & Hw);
    [unfold now_ok, TIMER_NEAREST_INF, YEAR_2100 in *; unfold SEC_PER_DAY in *; lia|].
  cbn [mbind outcome_bind]. rewrite Hen. cbn [negb]. set (l0 := set_nearest TIMER_NEAREST_INF (nearest_idx l) l).
  assert (forall j e, time_group l !! j = Some e -> en e = true ->
    exists t, event_next l0 ti now (nearest_idx l) (0 + Z.of_nat j) e = Ret t /\ next_due l now (nearest_idx l) (Z.of_nat j) e t
      /\ t <= now + 8 * SEC_PER_DAY) as Hnext.
  { intros j e Hj He. by apply (event_next_spec l0 now (nearest_idx l) (Z.of_nat j) e ti); try done; apply (Htimes j e). }
  destruct (nearest_loop_spec (time_group l) 0 (nearest_idx l) now ti l0) as (v & k & -> & Hle & Hmin & Hcase).
  { intros j e Hj He. destruct (Hnext j e Hj He) as (t & Ht & _). by exists t. }
  cbn [mbind outcome_bind]. exists v, k. split; [done|]. simpl in Hle.
  assert (forall j e t, time_group l !! j = Some e -> en e = true -> due l now (nearest_idx l) (Z.of_nat j) e t -> v <= t) as Hall.
  { intros j e t Hj He Hdue. destruct (Hnext j e Hj He) as (t0 & Ht0 & [_ Hfirst] & _).
    specialize (Hmin j e t0 Hj He Ht0). specialize (Hfirst t Hdue). lia. }
  destruct Hcase as [[-> ->]|(j & e & Hj & He & -> & Ht)].
  - left. split; [done|]. split; [done|]. intros j e Hj. destruct (en e) eqn:Hee; [|done].
    destruct (Hnext j e Hj Hee) as (t & Ht & _ & Hb). specialize (Hmin j e t Hj Hee Ht).
    unfold now_ok in Hn. simpl in Hmin. lia.
  - right. destruct (Hnext j e Hj He) as (t & Ht' & Hnd & Hb). rewrite Ht' in Ht. simplify_eq. split; [|split; [|done]].
    + destruct Hnd as [(Hlt & _) _]. lia.
    + exists e. replace (Z.to_nat (0 + Z.of_nat j)) with j by lia. split; [done|]. split; [lia|]. by split.
Qed.


(** Stopping a group clears its enable flag and its entries and only stops
    the kernel timer (UTC zone, any time before 2100). *)
Theorem stop_disarms l now : 0 <= now < 2 ^ 32 -> 0 <= now < YEAR_2100 ->
  exists l', weekly_timer_stop 0 0 now now (Some l) = Ret (QM_EOK, Some l', [TimerStop])
  /\ Z.testbit (week_mark l') 7 = false /\ Forall (fun e => en e = false) (time_group l').
Proof.
  intros Hn Hy. unfold weekly_timer_stop, switch, weekly_timer_update, weekly_timer_loop_get_nearest, _qm_localtime_r.
  rewrite utc_seconds by done.
  destruct (gmtime_spec now Hy) as (ti & -> & _). cbn [mbind outcome_bind].
  assert (Z.testbit (Z.land (week_mark l) 127) 7 = false) as Hb by (rewrite Z.land_spec; apply andb_false_r).
  cbn [week_mark set_group set_nearest set_enable]. rewrite Hb. cbn. eexists. split; [reflexivity|].
  split; [exact Hb|]. cbn [time_group set_group]. apply Forall_fmap.
  apply Forall_forall. by intros e _.
Qed.

(** Outside the UTC zone the alarm is shifted by the zone: [qm_mktime] reads
    the local date as UTC and the result is compared with UTC seconds.  Eight
    hours east, at 08:00 local time, an alarm for 09:00 is programmed nine hours
    ahead instead of one. *)
Theorem zone_shifts_alarm :
  exists l', weekly_timer_update 480 0 1700006400 1700006400
      (mk_loop true 255 TIMER_NEAREST_INF TIMER_NEAREST_INF [mk_ev 9 0 0 1 0 true])
    = Ret (QM_EOK, l', [TimerStop; TimerChange (9 * 3600 * 1000); TimerStart])
  /\ exists tm, _qm_localtime_r 480 1700006400 = Ret tm /\ fields tm = [123; 10; 15; 8; 0; 0].
Proof. eexists. split; [vm_compute; reflexivity|]. eexists. split; vm_compute; reflexivity. Qed.

(** A weekly group without a selected weekday is not left idle: the search
    falls through with an instant of today that may be past, and the delay wraps
    around: two seconds after midnight an alarm for midnight is programmed 49
    days ahead. *)
Theorem no_weekday_wraps :
  exists l', weekly_timer_update 0 0 1700006402 1700006402
      (mk_loop true 128 TIMER_NEAREST_INF TIMER_NEAREST_INF [mk_ev 0 0 0 1 0 true])
    = Ret (QM_EOK, l', [TimerStop; TimerChange (2 ^ 32 - 1000 * 2); TimerStart]).
Proof. eexists. vm_compute. reflexivity. Qed.

(** ** A concrete group *)

(** Monday to Friday at 07:30 and 18:00, the first of which fired last. *)
Definition demo_loop : event_timer_loop_t :=
  mk_loop true 190 TIMER_NEAREST_INF 0 [mk_ev 7 30 0 1 0 true; mk_ev 18 0 0 2 0 true].

Lemma demo_loop_ok : loop_ok demo_loop.
Proof.
  constructor; [reflexivity|exists 1; split; [lia|reflexivity]|].
  intros [|[|j]] e He Hen; [| |discriminate]; injection He as <-; constructor; simpl; lia.
Defined.


Lemma stop_disarms_witness :
  exists l', weekly_timer_stop 0 0 1700251200 1700251200 (Some demo_loop) = Ret (QM_EOK, Some l', [TimerStop]).
Proof.
  destruct (stop_disarms demo_loop 1700251200) as (l' & He & _); [lia|unfold YEAR_2100; lia|]. exists l'. exact He.
Defined.

End WeeklyTimer.
