(* ===== verification/CountDown.v ===== *)
(** * Wrap-safe deadlines (utility/timer)

    A deadline is an instant of the 32-bit millisecond counter
    [utils_get_timems], which wraps every 49.7 days.  The reading of the counter
    is an argument. *)

From S2P Require Import Prelude.

Module CountDown.

Definition qm_utils_time_start (timer : option Z) (now : Z) : option Z :=
  match timer with None => None | Some _ => Some now end.

Definition qm_utils_time_spend (start : option Z) (now : Z) : Z :=
  match start with None => 0 | Some t => u32 (now - t) end.

Definition qm_utils_time_left (end_ : option Z) (now : Z) : Z :=
  match end_ with
  | None => 0
  | Some t => if u32 (now - t) <? UINT32_MAX / 2 then 0 else u32 (t - now)
  end.

Definition qm_utils_time_is_expired (timer : option Z) (cur_time : Z) : bool :=
  match timer with
  | None => true
  | Some t => u32 (cur_time - t) <? UINT32_MAX / 2
  end.

Definition qm_utils_time_init (timer : option Z) : option Z :=
  match timer with None => None | Some _ => Some 0 end.

Definition qm_utils_time_countdown_ms (timer : option Z) (now millisecond : Z) : option Z :=
  match timer with None => None | Some _ => Some (u32 (now + millisecond)) end.

(** Distance of the counter from a deadline, as the code compares it. *)
Lemma distance now ms e : is_u32 now -> 0 <= ms <= 2 ^ 31 -> 0 <= e < ms + 2 ^ 31 - 1 ->
  u32 (u32 (now + e) - u32 (now + ms)) = if ms <=? e then e - ms else 2 ^ 32 - (ms - e).
Proof.
  intros Hn Hms He. destruct (Z.leb_spec ms e).
  - rewrite <- (u32_id (e - ms)) by (widths; lia). unfold u32. rewrite <- Zminus_mod. f_equal. lia.
  - unfold u32. rewrite <- Zminus_mod. symmetry. apply (Z.mod_unique_pos _ _ (-1)); lia.
Qed.

(** A countdown of at most 2^31 ms started at [now] is reported as expired
    exactly from [ms] elapsed milliseconds on, and the time left is what is
    missing, also when the counter wraps around in between (for the 2^31 - 1 ms
    after the deadline; later the answer turns back). *)
Theorem countdown_exact timer now ms e : is_u32 now -> 0 <= ms <= 2 ^ 31 -> 0 <= e < ms + 2 ^ 31 - 1 ->
  let t := qm_utils_time_countdown_ms (Some timer) now ms in
  qm_utils_time_is_expired t (u32 (now + e)) = (ms <=? e)
  /\ qm_utils_time_left t (u32 (now + e)) = Z.max 0 (ms - e).
Proof.
  intros Hn Hms He t. simpl. rewrite distance by done. change (UINT32_MAX / 2) with 2147483647.
  destruct (Z.leb_spec ms e).
  - split; [lia|]. destruct (Z.ltb_spec (e - ms) 2147483647); lia.
  - split; [lia|]. destruct (Z.ltb_spec (2 ^ 32 - (ms - e)) 2147483647); [lia|]. unfold u32. rewrite <- Zminus_mod.
    replace (now + ms - (now + e)) with (ms - e) by lia. rewrite Z.mod_small by lia. lia.
Qed.

(** The time spent since a start is exact for the whole period of the counter. *)
Theorem spend_exact timer now e : is_u32 now -> 0 <= e < 2 ^ 32 ->
  qm_utils_time_spend (qm_utils_time_start (Some timer) now) (u32 (now + e)) = e.
Proof.
  intros Hn He. simpl. unfold u32. rewrite Zminus_mod_idemp_l. replace (now + e - now) with e by lia.
  rewrite Z.mod_small by lia. done.
Qed.

(** A countdown across the wrap-around. *)
Lemma countdown_exact_witness :
  qm_utils_time_is_expired (qm_utils_time_countdown_ms (Some 0) (2 ^ 32 - 10) 50) 30 = false
  /\ qm_utils_time_left (qm_utils_time_countdown_ms (Some 0) (2 ^ 32 - 10) 50) 30 = 10.
Proof. apply (countdown_exact 0 (2 ^ 32 - 10) 50 40); unfold is_u32; lia. Defined.

End CountDown.
