(* ===== verification/CommBase.v ===== *)
(** * Framed request/response protocol (components/comm_base)

    Bytes from a serial line are collected and cut into frames by a fixed
    sequence of receive steps; commands sent downwards are kept until their
    acknowledgement arrives and are repeated on timeout.

    The functions a user registers (step lengths and checks, frame check,
    command and id extraction, packing) are the methods of [CommClient] over a
    client state.  The lengths are getters: they read the client state.  Calls of
    the send and notify functions and of the delayed-action service are recorded
    as effects.  Command data lives in a heap of blocks, since a record and its
    creator share it.  The list of pending records is a sequence: appending,
    searching and removing are the operations that QList.v shows qm_list_rpush,
    the iterators and qm_list_remove to implement. *)

From S2P Require Import Prelude Outcome CountDown.
Import list_relations.list list_basics.list.

(** The registered functions; [f] is a function pointer. *)
Class CommClient (C : Type) := {
  recv_len_get (f : Z) : C -> Z;
  recv_check (f : Z) : list Z -> C -> Z * C;
  check : list Z -> C -> Z * C;
  cmd_get : list Z -> Z;
  id_get : list Z -> Z;
  unpack (f : Z) : list Z -> C -> Z * C;
  pack_len (f : Z) : Z -> Z * Z;
  pack_data (f : Z) : Z -> Z * list Z
}.

(** Compile-time configuration. *)
Class CommConfig := { CMD_NUM : Z; RECV_BUF_MAX_LEN : Z; RECV_STEP_MAX_NUM : Z }.

Module CommBase.
Import CountDown.

Definition QM_EFULL : Z := 3.

Inductive comm_base_dir_t := COMM_BASE_DIR_DOWN | COMM_BASE_DIR_UP.
Inductive comm_base_event_t := COMM_BASE_EVENT_RESEND | COMM_BASE_EVENT_NO_ACK.

(** What the outside sees: bytes sent, notifications, delayed actions posted for
    and cancelled on the record of a node. *)
Inductive effect :=
| Send (data : list Z)
| Notify (event : comm_base_event_t) (cmd id : Z) (data : list Z)
| Post (node timeout : Z)
| Cancel (node : Z).

(** A record lives in a list node; [r_data] is the address of its block. *)
Record comm_base_record_info_t := mk_rec {
  r_node : Z; r_cmd : Z; r_id : Z; r_data : Z; r_len : Z; r_send_count : Z; r_timeout : Z
}.

Record comm_base_cmd_ops_t := mk_ops { c_cmd : Z; c_dir : comm_base_dir_t; c_unpack : Z; c_pack : Z }.

Record comm_base_recv_t := mk_recv { cur_step : Z; step_num : Z; ops : list (option (Z * Z)) }.

(** Pending commands and the blocks they own. *)
Record tx_t := mk_tx { record_list : list comm_base_record_info_t; heap : gmap Z (list Z) }.

(** [recv_buf] holds the first [recv_len] bytes of the buffer; nothing reads the
    others. *)
Record comm_base_ctx_t := mk_ctx {
  recv_timeout : Z;
  cmd_ops : list comm_base_cmd_ops_t;
  recv : comm_base_recv_t;
  recv_timer : Z;
  need_recv_len : Z;
  read_len : Z;
  recv_buf : list Z;
  tx : tx_t
}.

Definition recv_len (s : comm_base_ctx_t) : Z := Z.of_nat (length (recv_buf s)).

Definition set_cur (v : Z) (r : comm_base_recv_t) : comm_base_recv_t := mk_recv v (step_num r) (ops r).
Definition set_rx (cur need rd : Z) (buf : list Z) (t : tx_t) (s : comm_base_ctx_t) : comm_base_ctx_t :=
  mk_ctx (recv_timeout s) (cmd_ops s) (set_cur cur (recv s)) (recv_timer s) need rd buf t.
Definition set_timer (v : Z) (s : comm_base_ctx_t) : comm_base_ctx_t :=
  mk_ctx (recv_timeout s) (cmd_ops s) (recv s) v (need_recv_len s) (read_len s) (recv_buf s) (tx s).
Definition set_tx (t : tx_t) (s : comm_base_ctx_t) : comm_base_ctx_t :=
  mk_ctx (recv_timeout s) (cmd_ops s) (recv s) (recv_timer s) (need_recv_len s) (read_len s) (recv_buf s) t.

(** [n] bytes from position [a]. *)
Definition slice (buf : list Z) (a n : Z) : outcome (list Z) :=
  if (0 <=? a) && (0 <=? n) && (a + n <=? Z.of_nat (length buf))
  then Ret (take (Z.to_nat n) (drop (Z.to_nat a) buf)) else OutOfBounds.

(** ** Pending commands *)

(** [mem] says whether the iterator can be allocated. *)
Definition comm_base_record_info_find (mem : bool) (t : tx_t) (id : Z) : option comm_base_record_info_t :=
  if mem then List.find (fun r => r_id r =? id) (record_list t) else None.

(** Cancels the action and frees the block; freeing a block twice is an error. *)
Definition comm_base_record_delete (t : tx_t) (r : comm_base_record_info_t) : outcome (tx_t * list effect) :=
  _ ← of_option (heap t !! r_data r);
  Ret (mk_tx (record_list t) (delete (r_data r) (heap t)), [Cancel (r_node r)]).

Definition comm_base_record_info_remove_by_id (mem : bool) (t : tx_t) (id : Z) : outcome (Z * tx_t * list effect) :=
  match comm_base_record_info_find mem t id with
  | None => Ret (- QM_EINVAL, t, [])
  | Some r =>
      '(t1, e) ← comm_base_record_delete t r;
      Ret (QM_EOK, mk_tx (filter (fun x => r_node x <> r_node r) (record_list t1)) (heap t1), e)
  end.

Definition comm_base_record_info_push (t : tx_t) (node : option Z) (r : Z -> comm_base_record_info_t)
  : option (comm_base_record_info_t * tx_t) :=
  match node with
  | None => None
  | Some n => Some (r n, mk_tx (record_list t ++ [r n]) (heap t))
  end.

(** Writing back a changed record. *)
Definition update_record (t : tx_t) (r : comm_base_record_info_t) : tx_t :=
  mk_tx ((fun x => if r_node x =? r_node r then r else x) <$> record_list t) (heap t).

Definition dec_count (r : comm_base_record_info_t) : comm_base_record_info_t :=
  mk_rec (r_node r) (r_cmd r) (r_id r) (r_data r) (r_len r) (u8 (r_send_count r - 1)) (r_timeout r).

(** The bytes of a record. *)
Definition record_bytes (t : tx_t) (r : comm_base_record_info_t) : outcome (list Z) :=
  d ← of_option (heap t !! r_data r); slice d 0 (r_len r).

(** [posted] is the result of [qm_post_delayed_action]. *)
Definition comm_base_generic_resend (t : tx_t) (r : comm_base_record_info_t) (posted : Z) : outcome (Z * tx_t * list effect) :=
  if posted =? QM_EOK then
    d ← record_bytes t r;
    Ret (QM_EOK, update_record t (dec_count r), [Post (r_node r) (r_timeout r); Send d])
  else Ret (posted, t, []).

(** The delayed action of the record in [node]. *)
Definition comm_base_generic_send_timeout (mem : bool) (t : tx_t) (node posted : Z) : outcome (tx_t * list effect) :=
  r ← of_option (List.find (fun r => r_node r =? node) (record_list t));
  d ← record_bytes t r;
  if r_send_count r =? 0 then
    '(_, t1, e) ← comm_base_record_info_remove_by_id mem t (r_id r);
    Ret (t1, Notify COMM_BASE_EVENT_NO_ACK (r_cmd r) (r_id r) d :: e)
  else
    '(ret, t1, e) ← comm_base_generic_resend t r posted;
    if ret =? QM_EOK then Ret (t1, Notify COMM_BASE_EVENT_RESEND (r_cmd r) (r_id r) d :: e)
    else
      '(_, t2, e2) ← comm_base_record_info_remove_by_id mem t1 (r_id r);
      Ret (t2, Notify COMM_BASE_EVENT_RESEND (r_cmd r) (r_id r) d :: e ++ e2).

Section Client.
Context {C : Type} `{CommClient C} `{CommConfig}.

(** [block] and [node] are the addresses the allocator returns.  On failure the
    block is freed, also when a record that refers to it is already listed. *)
Definition serial_generic_send (t : tx_t) (data : list Z) (send_count timeout : Z) (block node : option Z) (posted : Z)
  : Z * tx_t * list effect :=
  match data with
  | [] => (- QM_EINVAL, t, [])
  | _ =>
    match block with
    | None => (- QM_ENOMEM, t, [Cancel 0])
    | Some b =>
        let len := u8 (Z.of_nat (length data)) in
        let t1 := mk_tx (record_list t) (<[b := data]> (heap t)) in
        let rec n := mk_rec n (cmd_get data) (id_get data) b len (u8 send_count) timeout in
        match comm_base_record_info_push t1 node rec with
        | None => (QM_EOK, mk_tx (record_list t1) (delete b (heap t1)), [Cancel 0])
        | Some (r, t2) =>
            if posted =? QM_EOK then
              (QM_EOK, update_record t2 (dec_count r), [Post (r_node r) timeout; Send (take (Z.to_nat len) data)])
            else (posted, mk_tx (record_list t2) (delete b (heap t2)), [Cancel 0])
        end
    end
  end.

Definition serial_generic_ack_send (data : list Z) : Z * list effect := (QM_EOK, [Send data]).

(** ** Registration *)

Definition comm_base_cmd_ops_get (cmds : list comm_base_cmd_ops_t) (cmd : Z) : option comm_base_cmd_ops_t :=
  List.find (fun o => c_cmd o =? cmd) cmds.

(** A direction outside the enumeration is [None]. *)
Definition comm_base_cmd_register (s : comm_base_ctx_t) (cmd : Z) (dir : option comm_base_dir_t) (pack unpack : option Z)
  : Z * comm_base_ctx_t :=
  match pack, unpack, dir with
  | Some p, Some u, Some d =>
      if Z.of_nat (length (cmd_ops s)) >=? CMD_NUM then (- QM_EFULL, s)
      else (QM_EOK, mk_ctx (recv_timeout s) (cmd_ops s ++ [mk_ops cmd d u p]) (recv s) (recv_timer s) (need_recv_len s)
                      (read_len s) (recv_buf s) (tx s))
  | _, _, _ => (- QM_EINVAL, s)
  end.

Definition comm_base_recv_register (s : comm_base_ctx_t) (step : Z) (recv_len recv_check : option Z) : Z * comm_base_ctx_t :=
  match recv_len, recv_check with
  | Some l, Some k =>
      if (step <=? 0) || (step >? RECV_STEP_MAX_NUM) then (- QM_EINVAL, s)
      else
        let r := recv s in
        (QM_EOK, mk_ctx (recv_timeout s) (cmd_ops s)
                   (mk_recv (cur_step r) (step_num r + 1) (<[Z.to_nat (step - 1) := Some (l, k)]> (ops r)))
                   (recv_timer s) (need_recv_len s) (read_len s) (recv_buf s) (tx s))
  | _, _ => (- QM_EINVAL, s)
  end.

(** ** Receiving *)

(** A complete frame: check, command, acknowledgement, unpacking. *)
Definition deliver (mem : bool) (cmds : list comm_base_cmd_ops_t) (t : tx_t) (frame : list Z) (c : C)
  : outcome (tx_t * C * list effect) :=
  let '(ret, c) := check frame c in
  if negb (ret =? QM_EOK) then Ret (t, c, [])
  else
    match comm_base_cmd_ops_get cmds (cmd_get frame) with
    | None => Ret (t, c, [])
    | Some o =>
        match c_dir o with
        | COMM_BASE_DIR_DOWN =>
            '(ret, t, e) ← comm_base_record_info_remove_by_id mem t (id_get frame);
            if ret =? QM_EOK then let '(_, c) := unpack (c_unpack o) frame c in Ret (t, c, e) else Ret (t, c, e)
        | COMM_BASE_DIR_UP => let '(_, c) := unpack (c_unpack o) frame c in Ret (t, c, [])
        end
    end.

(** The label [__init]: the bytes read so far are dropped. *)
Definition reinit (need rd : Z) (t : tx_t) (s : comm_base_ctx_t) : comm_base_ctx_t :=
  set_rx 0 need 0 (drop (Z.to_nat rd) (recv_buf s)) t s.

Fixpoint recv_loop (fuel : nat) (mem : bool) (now : Z) (s : comm_base_ctx_t) (c : C)
  : outcome (comm_base_ctx_t * C * list effect) :=
  match fuel with
  | O => NoFuel
  | S fuel' =>
      o ← of_option (ops (recv s) !! Z.to_nat (cur_step (recv s)));
      '(len_fn, check_fn) ← of_option o;
      let need := recv_len_get len_fn c in
      if need >? recv_len s - read_len s then
        Ret (set_timer (default 0 (qm_utils_time_countdown_ms (Some (recv_timer s)) now (recv_timeout s)))
               (set_rx (cur_step (recv s)) need (read_len s) (recv_buf s) (tx s) s), c, [])
      else
        part ← slice (recv_buf s) (read_len s) need;
        let '(ret, c) := recv_check check_fn part c in
        let rd := read_len s + need in
        if negb (ret =? QM_EOK) then recv_loop fuel' mem now (reinit need rd (tx s) s) c
        else
          let step := cur_step (recv s) + 1 in
          if step =? step_num (recv s) then
            frame ← slice (recv_buf s) 0 rd;
            '(t, c, e) ← deliver mem (cmd_ops s) (tx s) frame c;
            '(s', c', e') ← recv_loop fuel' mem now (reinit need rd t s) c;
            Ret (s', c', e ++ e')
          else recv_loop fuel' mem now (set_rx step need rd (recv_buf s) (tx s) s) c
  end.

(** A frame left half-way for too long is dropped. *)
Definition drop_stale (now : Z) (s : comm_base_ctx_t) : comm_base_ctx_t :=
  if negb (cur_step (recv s) =? 0) && qm_utils_time_is_expired (Some (recv_timer s)) now
  then set_rx 0 (need_recv_len s) 0 [] (tx s) s else s.

Definition append (data : list Z) (s : comm_base_ctx_t) : comm_base_ctx_t :=
  set_rx (cur_step (recv s)) (need_recv_len s) (read_len s) (recv_buf s ++ data) (tx s) s.

Definition comm_base_recv_handler (fuel : nat) (mem : bool) (now : Z) (data : list Z) (s : comm_base_ctx_t) (c : C)
  : outcome (Z * comm_base_ctx_t * C * list effect) :=
  let s := drop_stale now s in
  if recv_len s + Z.of_nat (length data) >? RECV_BUF_MAX_LEN then Ret (- QM_EINVAL, s, c, [])
  else '(s', c', e) ← recv_loop fuel mem now (append data s) c; Ret (QM_EOK, s', c', e).

(** ** Messages of the event queue *)

Inductive message :=
| DataRecv (data : list Z)
| DataSend (send_count timeout : Z) (data : list Z)
| DataAckSend (data : list Z).

Definition comm_base_event_callback (fuel : nat) (mem : bool) (now : Z) (block node : option Z) (posted : Z) (m : message)
    (s : comm_base_ctx_t) (c : C) : outcome (comm_base_ctx_t * C * list effect) :=
  match m with
  | DataRecv data => '(_, s', c', e) ← comm_base_recv_handler fuel mem now data s c; Ret (s', c', e)
  | DataSend n timeout data =>
      let '(_, t, e) := serial_generic_send (tx s) data n timeout block node posted in Ret (set_tx t s, c, e)
  | DataAckSend data => Ret (s, c, (serial_generic_ack_send data).2)
  end.

(** [posted] is the result of posting to the event queue. *)
Definition comm_base_data_push (data : option (list Z)) (posted : Z) : Z * option message :=
  match data with
  | None | Some [] => (- QM_EINVAL, None)
  | Some d => if posted =? QM_EOK then (QM_EOK, Some (DataRecv d)) else (posted, None)
  end.

Definition comm_base_data_push_from_isr (data : option (list Z)) (posted : Z) : Z * option message :=
  match data with
  | None | Some [] => (- QM_EINVAL, None)
  | Some d => if posted =? QM_EOK then (QM_EOK, Some (DataRecv d)) else (posted, None)
  end.

(** The second [pack] writes into the block sized by the first; the message has
    the size asked for first, the rest of the block being unwritten (0 here). *)
Definition comm_base_cmd_send (s : comm_base_ctx_t) (cmd send_count timeout arg : Z) (mem : bool) (posted : Z)
  : outcome (Z * option message) :=
  if (send_count =? 0) || (timeout =? 0) then Ret (- QM_EINVAL, None)
  else
    match comm_base_cmd_ops_get (cmd_ops s) cmd with
    | None => Ret (- QM_EINVAL, None)
    | Some o =>
        let '(ret, len) := pack_len (c_pack o) arg in
        if negb (ret =? QM_EOK) then Ret (ret, None)
        else if negb mem then Ret (- QM_ENOMEM, None)
        else
          let '(ret, data) := pack_data (c_pack o) arg in
          if Z.of_nat (length data) >? len then OutOfBounds
          else if negb (ret =? QM_EOK) then Ret (ret, None)
          else
            let payload := data ++ replicate (Z.to_nat len - length data) 0 in
            let m := match c_dir o with
                     | COMM_BASE_DIR_UP => DataAckSend payload
                     | COMM_BASE_DIR_DOWN => DataSend send_count timeout payload
                     end in
            if posted =? QM_EOK then Ret (QM_EOK, Some m) else Ret (posted, None)
    end.

(** [registered] is the result of registering the event callback; the context is
    zero-initialised storage before. *)
Definition comm_base_init (s : comm_base_ctx_t) (timeout : Z) (registered : Z) (mem : bool) : Z * comm_base_ctx_t :=
  if negb (registered =? QM_EOK) then (registered, s)
  else if negb mem then (- QM_ENOMEM, s)
  else (QM_EOK, mk_ctx timeout (cmd_ops s) (recv s) 0 (need_recv_len s) (read_len s) (recv_buf s)
                  (mk_tx [] (heap (tx s)))).

(** The nodes are freed, not the blocks of the records. *)
Definition comm_base_deinit (s : comm_base_ctx_t) (unregistered : Z) : Z * comm_base_ctx_t :=
  if negb (unregistered =? QM_EOK) then (unregistered, s)
  else (unregistered, set_tx (mk_tx [] (heap (tx s))) s).

(** ** Invariants *)

(** Every listed record owns its block. *)
Record tx_wf (t : tx_t) : Prop := {
  tw_nodes : NoDup (r_node <$> record_list t);
  tw_blocks : NoDup (r_data <$> record_list t);
  tw_owned : forall r, r ∈ record_list t -> exists d, heap t !! r_data r = Some d /\ 0 <= r_len r <= Z.of_nat (length d)
}.

(** Steps [0 .. step_num - 1] are registered; the lengths they ask for are not
    negative, and the first step asks for at least one byte. *)
Record steps_ok (r : comm_base_recv_t) : Prop := {
  so_registered : forall i, 0 <= i < step_num r -> exists l k, ops r !! Z.to_nat i = Some (Some (l, k));
  so_lengths : forall i l k c, ops r !! i = Some (Some (l, k)) -> 0 <= recv_len_get l c /\ (i = 0%nat -> 0 < recv_len_get l c)
}.

Record rx_wf (s : comm_base_ctx_t) : Prop := {
  rw_read : 0 <= read_len s <= recv_len s;
  rw_room : recv_len s <= RECV_BUF_MAX_LEN;
  rw_step : 0 <= cur_step (recv s) < step_num (recv s);
  rw_steps : steps_ok (recv s)
}.

(** Bytes not yet consumed, weighted, plus the steps left of a begun frame. *)
Definition work_left (s : comm_base_ctx_t) : Z :=
  (recv_len s - read_len s) * (step_num (recv s) + 1)
  + (if cur_step (recv s) =? 0 then 0 else step_num (recv s) + 1 - cur_step (recv s)).

(** Enough for a full buffer. *)
Definition recv_fuel (s : comm_base_ctx_t) : nat :=
  S (Z.to_nat (RECV_BUF_MAX_LEN * (step_num (recv s) + 1) + step_num (recv s))).

(** ** Lemmas on pending commands *)

Lemma remove_spec mem t id : tx_wf t ->
  match comm_base_record_info_find mem t id with
  | None => comm_base_record_info_remove_by_id mem t id = Ret (- QM_EINVAL, t, [])
  | Some r => r ∈ record_list t /\ r_id r = id
      /\ comm_base_record_info_remove_by_id mem t id
         = Ret (QM_EOK, mk_tx (filter (fun x => r_node x <> r_node r) (record_list t)) (delete (r_data r) (heap t)),
                [Cancel (r_node r)])
  end.
Proof.
  intros [_ _ Hown]. unfold comm_base_record_info_remove_by_id. destruct (comm_base_record_info_find mem t id) as [r|] eqn:Hf; [|done].
  unfold comm_base_record_info_find in Hf. destruct mem; [|done]. apply List.find_some in Hf as [Hin Hid].
  apply list_elem_of_In in Hin. split; [done|]. split; [lia|]. destruct (Hown r Hin) as (d & Hd & _).
  unfold comm_base_record_delete. by rewrite Hd.
Qed.

(** Two records that share a node or a block are the same. *)
Lemma same_node t r r' : tx_wf t -> r ∈ record_list t -> r' ∈ record_list t -> r_node r = r_node r' -> r = r'.
Proof. intros [Hn _ _] Hr Hr' He. by apply (NoDup_fmap_inj_elem r_node (record_list t)). Qed.

Lemma tx_wf_remove t r : tx_wf t -> r ∈ record_list t ->
  tx_wf (mk_tx (filter (fun x => r_node x <> r_node r) (record_list t)) (delete (r_data r) (heap t))).
Proof.
  intros Hwf Hr. pose proof Hwf as [Hn Hb Ho]. constructor; simpl.
  - by apply NoDup_fmap_filter.
  - by apply NoDup_fmap_filter.
  - intros x [Hne Hx]%list_elem_of_filter. destruct (Ho x Hx) as (d & Hd & Hl). exists d. split; [|done].
    rewrite lookup_delete_ne; [done|]. intros He. apply Hne.
    by rewrite (NoDup_fmap_inj_elem r_data (record_list t) x r Hb Hx Hr (eq_sym He)).
Qed.

Lemma remove_keeps_wf mem t id : tx_wf t ->
  exists ret t' e, comm_base_record_info_remove_by_id mem t id = Ret (ret, t', e) /\ tx_wf t'.
Proof.
  intros Hwf. pose proof (remove_spec mem t id Hwf) as Hs. destruct (comm_base_record_info_find mem t id) as [r|].
  - destruct Hs as (Hin & _ & ->). eexists _, _, _. split; [reflexivity|]. by apply tx_wf_remove.
  - rewrite Hs. by eexists _, _, _.
Qed.

Lemma deliver_total mem cmds t frame (c : C) : tx_wf t ->
  exists t' c' e, deliver mem cmds t frame c = Ret (t', c', e) /\ tx_wf t'.
Proof.
  intros Hwf. unfold deliver. destruct (check frame c) as [ret c1]. destruct (negb (ret =? QM_EOK)); [by eexists _, _, _|].
  destruct (comm_base_cmd_ops_get cmds (cmd_get frame)) as [o|]; [|by eexists _, _, _]. destruct (c_dir o).
  - destruct (remove_keeps_wf mem t (id_get frame) Hwf) as (r & t' & e & -> & Hwf'). cbn [mbind outcome_bind].
    destruct (r =? QM_EOK); [|by eexists _, _, _]. destruct (unpack (c_unpack o) frame c1). by eexists _, _, _.
  - destruct (unpack (c_unpack o) frame c1). by eexists _, _, _.
Qed.

(** ** Lemmas on receiving *)

Lemma slice_ok buf a n : 0 <= a -> 0 <= n -> a + n <= Z.of_nat (length buf) ->
  slice buf a n = Ret (take (Z.to_nat n) (drop (Z.to_nat a) buf)).
Proof.
  intros Ha Hn Hl. unfold slice.
  by rewrite (proj2 (Z.leb_le 0 a) Ha), (proj2 (Z.leb_le 0 n) Hn), (proj2 (Z.leb_le _ _) Hl).
Qed.

(** Dropping the bytes read of a frame. *)
Lemma reinit_wf need rd t s : rx_wf s -> 0 <= rd <= recv_len s ->
  rx_wf (reinit need rd t s) /\ work_left (reinit need rd t s) = (recv_len s - rd) * (step_num (recv s) + 1).
Proof.
  intros [Hr Hroom Hs Hok] Hrd. unfold recv_len in *.
  assert (Z.of_nat (length (drop (Z.to_nat rd) (recv_buf s))) = Z.of_nat (length (recv_buf s)) - rd) as Hl
    by (rewrite length_drop; lia).
  split.
  - constructor; unfold recv_len; simpl; rewrite ?Hl; try lia. destruct Hok as [H1 H2]. by constructor.
  - unfold work_left, recv_len. simpl. rewrite Hl. lia.
Qed.

(** Advancing by one step inside a frame. *)
Lemma advance_wf step need rd s : rx_wf s -> read_len s <= rd <= recv_len s -> 0 <= step < step_num (recv s) ->
  rx_wf (set_rx step need rd (recv_buf s) (tx s) s).
Proof. intros [Hr Hroom Hs [H1 H2]] Hrd Hst. constructor; simpl; unfold recv_len in *; simpl; try lia. by constructor. Qed.

(** One iteration decreases the work left, so the loop ends. *)
Lemma recv_loop_total fuel mem now s (c : C) : rx_wf s -> tx_wf (tx s) -> work_left s < Z.of_nat fuel ->
  exists s' c' e, recv_loop fuel mem now s c = Ret (s', c', e) /\ rx_wf s' /\ tx_wf (tx s')
  /\ step_num (recv s') = step_num (recv s) /\ recv_len s' <= recv_len s.
Proof.
  revert s c. induction fuel as [|fuel IH]; intros s c Hwf Htx Hf.
  - exfalso. destruct Hwf as [Hr _ Hs _]. unfold work_left in Hf. destruct (Z.eqb_spec (cur_step (recv s)) 0); nia.
  - pose proof Hwf as [Hr Hroom Hs Hok]. cbn [recv_loop].
    destruct (so_registered _ Hok _ Hs) as (l & k & Hops). rewrite Hops. cbn [of_option mbind outcome_bind].
    destruct (so_lengths _ Hok _ l k c Hops) as [Hlen Hlen0]. set (need := recv_len_get l c) in *.
    destruct (Z.gtb_spec need (recv_len s - read_len s)) as [Hgt|Hle].
    { eexists _, _, _. split; [reflexivity|]. split; [|split; [done|split; [done|unfold recv_len; simpl; lia]]].
      destruct Hok as [H1 H2]. by constructor. }
    rewrite (slice_ok (recv_buf s) (read_len s) need) by (unfold recv_len in *; lia). cbn [mbind outcome_bind].
    match goal with |- context [recv_check k ?p c] => destruct (recv_check k p c) as [ret c1] end. set (rd := read_len s + need) in *.
    destruct (reinit_wf need rd (tx s) s Hwf ltac:(lia)) as [Hrw Hrm].
    assert (work_left (reinit need rd (tx s) s) < Z.of_nat fuel) as Hrlt.
    { rewrite Hrm. unfold work_left in Hf. destruct (Z.eqb_spec (cur_step (recv s)) 0) as [Hz|Hz].
      - specialize (Hlen0 ltac:(lia)). unfold rd. nia.
      - unfold rd. nia. }
    destruct (negb (ret =? QM_EOK)).
    { destruct (IH _ c1 Hrw Htx Hrlt) as (s' & c' & e & -> & Hw' & Ht' & Hn' & Hl'). eexists _, _, _. split; [reflexivity|].
      split; [done|]. split; [done|]. split; [done|]. unfold recv_len in *. simpl in Hl'. rewrite length_drop in Hl'. lia. }
    destruct (Z.eqb_spec (cur_step (recv s) + 1) (step_num (recv s))) as [Hlast|Hnl].
    + rewrite slice_ok by (unfold recv_len in *; lia). cbn [mbind outcome_bind].
      destruct (deliver_total mem (cmd_ops s) (tx s) (take (Z.to_nat rd) (drop (Z.to_nat 0) (recv_buf s))) c1 Htx)
        as (t & c2 & e & -> & Ht2). cbn [mbind outcome_bind].
      destruct (IH (reinit need rd t s) c2) as (s' & c' & e' & -> & Hw' & Ht' & Hn' & Hl');
        [by apply reinit_wf; [done|lia]|done|done|].
      cbn [mbind outcome_bind]. eexists _, _, _. split; [reflexivity|]. split; [done|]. split; [done|]. split; [done|].
      unfold recv_len in *. simpl in Hl'. rewrite length_drop in Hl'. lia.
    + destruct (IH (set_rx (cur_step (recv s) + 1) need rd (recv_buf s) (tx s) s) c1) as (s' & c' & e & -> & Hw' & Ht' & Hn' & Hl');
        [apply advance_wf; [done|unfold rd; lia|lia]|done| |by eexists _, _, _].
      unfold work_left, recv_len in *. simpl. destruct (Z.eqb_spec (cur_step (recv s) + 1) 0); [lia|].
      destruct (Z.eqb_spec (cur_step (recv s)) 0) as [Hz|Hz]; [specialize (Hlen0 ltac:(lia))|]; unfold rd; nia.
Qed.

Lemma drop_stale_wf now s : rx_wf s -> rx_wf (drop_stale now s) /\ tx (drop_stale now s) = tx s
  /\ step_num (recv (drop_stale now s)) = step_num (recv s).
Proof.
  intros Hwf. unfold drop_stale. destruct (_ && _); [|done]. split; [|done]. destruct Hwf as [Hr Hroom Hs [H1 H2]].
  constructor; unfold recv_len in *; simpl; try lia. by constructor.
Qed.

Lemma append_wf data s : rx_wf s -> recv_len s + Z.of_nat (length data) <= RECV_BUF_MAX_LEN -> rx_wf (append data s).
Proof.
  intros [Hr Hroom Hs [H1 H2]] Hl. constructor; unfold recv_len in *; simpl; rewrite ?length_app; try lia. by constructor.
Qed.

Lemma work_left_bound s : rx_wf s -> work_left s < Z.of_nat (recv_fuel s).
Proof.
  intros [Hr Hroom Hs _]. unfold work_left, recv_fuel. destruct (Z.eqb_spec (cur_step (recv s)) 0); nia.
Qed.


(** ** The stream of frames does not depend on the chunks *)

(** Contexts that differ in the timer and in the length asked for last. *)
Definition same_rx (s s' : comm_base_ctx_t) : Prop :=
  recv_timeout s = recv_timeout s' /\ cmd_ops s = cmd_ops s' /\ recv s = recv s' /\ read_len s = read_len s'
  /\ recv_buf s = recv_buf s' /\ tx s = tx s'.

(** The loop looks at neither of them. *)
Lemma recv_loop_same fuel mem now s s' (c : C) : same_rx s s' -> recv_loop fuel mem now s c = recv_loop fuel mem now s' c.
Proof.
  revert s s' c. induction fuel as [|fuel IH]; intros s s' c Hs; [done|].
  destruct s as [to cmds r tm n rd buf t], s' as [to' cmds' r' tm' n' rd' buf' t'], Hs as (? & ? & ? & ? & ? & ?).
  simplify_eq/=. unfold recv_len. simpl.
  destruct (of_option (ops r' !! Z.to_nat (cur_step r'))) as [o| |]; [|done|done]. simpl.
  destruct (of_option o) as [[l k]| |]; [|done|done]. simpl. destruct (_ >? _); [done|].
  destruct (slice buf' rd' (recv_len_get l c)) as [part| |]; [|done|done]. simpl. destruct (recv_check k part c) as [ret c1].
  destruct (negb _); [by apply IH|]. destruct (_ =? _); [|by apply IH].
  destruct (slice buf' 0 _) as [frame| |]; [|done|done]. simpl.
  destruct (deliver mem cmds' t' frame c1) as [[[t c2] e]| |]; [|done|done]. simpl. by erewrite IH.
Qed.

(** A part of the buffer that does not touch what is appended. *)
Lemma slice_app buf d a n l : slice buf a n = Ret l -> slice (buf ++ d) a n = Ret l.
Proof.
  unfold slice. destruct (Z.leb_spec 0 a), (Z.leb_spec 0 n), (Z.leb_spec (a + n) (Z.of_nat (length buf))); simpl; try done.
  intros [= <-]. rewrite length_app. destruct (Z.leb_spec (a + n) (Z.of_nat (length buf + length d))); [|lia].
  rewrite drop_app_le, take_app_le by (rewrite ?length_drop; lia). done.
Qed.

Lemma slice_inv buf a n l : slice buf a n = Ret l -> 0 <= a /\ 0 <= n /\ a + n <= Z.of_nat (length buf).
Proof.
  unfold slice. by destruct (Z.leb_spec 0 a), (Z.leb_spec 0 n), (Z.leb_spec (a + n) (Z.of_nat (length buf))).
Qed.

(** More fuel does not change a result. *)
Lemma recv_loop_fuel f g mem now s (c : C) r : recv_loop f mem now s c = Ret r -> recv_loop (f + g) mem now s c = Ret r.
Proof.
  revert s c r. induction f as [|f IH]; intros s c r Hr; [done|]. cbn [recv_loop Nat.add] in *.
  destruct (of_option (ops (recv s) !! _)) as [o| |]; [|done|done]. simpl in *.
  destruct (of_option o) as [[l k]| |]; [|done|done]. simpl in *. destruct (_ >? _); [done|].
  destruct (slice _ _ (recv_len_get l c)) as [part| |]; [|done|done]. simpl in *.
  destruct (recv_check k part c) as [ret c1]. destruct (negb _); [by apply IH|]. destruct (_ =? _); [|by apply IH].
  destruct (slice _ 0 _) as [frame| |]; [|done|done]. simpl in *.
  destruct (deliver mem _ _ frame c1) as [[[t c2] e]| |]; [|done|done]. simpl in *.
  destruct (recv_loop f mem now _ c2) as [[[s' c'] e']| |] eqn:Hl; [|done|done]. by rewrite (IH _ _ _ Hl).
Qed.

Lemma reinit_append need rd t d s : 0 <= rd <= recv_len s -> reinit need rd t (append d s) = append d (reinit need rd t s).
Proof. unfold recv_len. intros Hrd. unfold reinit, append, set_rx. simpl. rewrite drop_app_le by lia. done. Qed.

(** Running on a prefix, then on the rest, is running on the whole. *)
Lemma recv_loop_append f1 f2 mem now1 now2 d s s1 s2 (c c1 c2 : C) e1 e2 :
  recv_loop f1 mem now1 s c = Ret (s1, c1, e1) -> recv_loop f2 mem now2 (append d s1) c1 = Ret (s2, c2, e2) ->
  recv_loop (f1 + f2) mem now2 (append d s) c = Ret (s2, c2, e1 ++ e2).
Proof.
  revert s c e1. induction f1 as [|f1 IH]; intros s c e1 H1 H2; [done|]. cbn [recv_loop] in H1.
  destruct (of_option (ops (recv s) !! _)) as [o| |] eqn:Ho; [|done|done]. cbn [mbind outcome_bind] in H1.
  destruct (of_option o) as [[l k]| |] eqn:Hlk; [|done|done]. cbn [mbind outcome_bind] in H1.
  destruct (Z.gtb_spec (recv_len_get l c) (recv_len s - read_len s)) as [Hg|Hg].
  { simplify_eq. rewrite Nat.add_comm. apply recv_loop_fuel. cbn [app]. rewrite <- H2. by apply recv_loop_same. }
  destruct (slice (recv_buf s) (read_len s) _) as [part| |] eqn:Hsl; [|done|done]. cbn [mbind outcome_bind] in H1.
  pose proof (slice_inv _ _ _ _ Hsl) as (Ha & Hn & Hle). fold (recv_len s) in Hle.
  cbn [recv_loop Nat.add]. change (recv (append d s)) with (set_cur (cur_step (recv s)) (recv s)).
  cbn [cur_step set_cur ops step_num]. rewrite Ho. cbn [mbind outcome_bind]. rewrite Hlk. cbn [mbind outcome_bind].
  assert (recv_len (append d s) = recv_len s + Z.of_nat (length d)) as Hla
    by (unfold recv_len; simpl; rewrite length_app; lia).
  change (read_len (append d s)) with (read_len s). rewrite Hla.
  destruct (Z.gtb_spec (recv_len_get l c) (recv_len s + Z.of_nat (length d) - read_len s)); [lia|].
  change (recv_buf (append d s)) with (recv_buf s ++ d). rewrite (slice_app _ d _ _ _ Hsl). cbn [mbind outcome_bind].
  destruct (recv_check k part c) as [ret c']. change (tx (append d s)) with (tx s).
  rewrite (reinit_append _ _ (tx s)) by lia. destruct (negb (ret =? QM_EOK)); [by apply IH|].
  destruct (_ =? step_num (recv s)); [|exact (IH _ _ _ H1 H2)].
  destruct (slice (recv_buf s) 0 _) as [frame| |] eqn:Hfr; [|done|done]. rewrite (slice_app _ d _ _ _ Hfr).
  cbn [mbind outcome_bind] in *. change (cmd_ops (append d s)) with (cmd_ops s).
  destruct (deliver mem (cmd_ops s) (tx s) frame c') as [[[t c3] e]| |]; [|done|done]. cbn [mbind outcome_bind] in *.
  rewrite reinit_append by lia. destruct (recv_loop f1 mem now1 _ c3) as [[[s' c4] e']| |] eqn:Hl; [|done|done].
  cbn [mbind outcome_bind] in H1. simplify_eq. rewrite (IH _ _ _ Hl H2). cbn [mbind outcome_bind]. by rewrite app_assoc.
Qed.

(** The context is not stale: no frame is begun or its timer runs. *)
Definition fresh (now : Z) (s : comm_base_ctx_t) : Prop :=
  cur_step (recv s) = 0 \/ qm_utils_time_is_expired (Some (recv_timer s)) now = false.

Lemma drop_stale_fresh now s : fresh now s -> drop_stale now s = s.
Proof. intros [Hc|Ht]; unfold drop_stale; [by rewrite Hc|]. rewrite Ht. by rewrite andb_false_r. Qed.

Lemma append_app d1 d2 s : append d2 (append d1 s) = append (d1 ++ d2) s.
Proof. unfold append, set_rx. simpl. by rewrite app_assoc. Qed.

(** C16: frames do not depend on how the bytes arrive: handling two chunks one
    after the other, both with success, within the receive timeout and
    together not more than the buffer takes, has the same effects and leads
    to the same context and client state as handling them as one chunk. *)
Theorem recv_chunks f1 f2 mem now1 now2 d1 d2 s s1 s2 (c c1 c2 : C) e1 e2 :
  fresh now1 s -> fresh now2 s -> fresh now2 s1 ->
  recv_len s + Z.of_nat (length (d1 ++ d2)) <= RECV_BUF_MAX_LEN ->
  comm_base_recv_handler f1 mem now1 d1 s c = Ret (QM_EOK, s1, c1, e1) ->
  comm_base_recv_handler f2 mem now2 d2 s1 c1 = Ret (QM_EOK, s2, c2, e2) ->
  comm_base_recv_handler (f1 + f2) mem now2 (d1 ++ d2) s c = Ret (QM_EOK, s2, c2, e1 ++ e2).
Proof.
  intros Hf1 Hf2 Hf3 Hlen H1 H2. unfold comm_base_recv_handler in *. rewrite !drop_stale_fresh in * by done.
  destruct (_ >? _); [done|]. destruct (recv_loop f1 mem now1 _ c) as [[[s' c'] e']| |] eqn:Hl1; [|done|done].
  cbn [mbind outcome_bind] in H1. simplify_eq. destruct (_ >? _); [done|].
  destruct (recv_loop f2 mem now2 _ c1) as [[[s' c'] e']| |] eqn:Hl2; [|done|done]. cbn [mbind outcome_bind] in H2. simplify_eq.
  destruct (Z.gtb_spec (recv_len s + Z.of_nat (length (d1 ++ d2))) RECV_BUF_MAX_LEN); [lia|].
  rewrite <- append_app. by rewrite (recv_loop_append _ _ _ _ _ _ _ _ _ _ _ _ _ _ Hl1 Hl2).
Qed.

(** ** Retransmission *)

(** [k] expirations of the delayed action of a node, none acknowledged. *)
Fixpoint timeouts (k : nat) (t : tx_t) (node : Z) : outcome (tx_t * list effect) :=
  match k with
  | O => Ret (t, [])
  | S k' =>
      '(t1, e1) ← comm_base_generic_send_timeout true t node QM_EOK;
      '(t2, e2) ← timeouts k' t1 node;
      Ret (t2, e1 ++ e2)
  end.

(** What is pending while [data] waits for its acknowledgement. *)
Definition pending (t : tx_t) (data : list Z) (b n timeout j : Z) : tx_t :=
  mk_tx (record_list t ++ [mk_rec n (cmd_get data) (id_get data) b (Z.of_nat (length data)) j timeout]) (<[b := data]> (heap t)).

(** Addresses and id that are not in use. *)
Record unused (t : tx_t) (id b n : Z) : Prop := {
  un_block : heap t !! b = None;
  un_node : Forall (fun r => r_node r <> n) (record_list t);
  un_id : Forall (fun r => r_id r <> id) (record_list t)
}.

Lemma find_app_last {A} (f : A -> bool) l x : Forall (fun y => f y = false) l -> f x = true -> List.find f (l ++ [x]) = Some x.
Proof. intros Hl Hx. induction Hl as [|y l Hy Hl IH]; simpl; [by rewrite Hx|by rewrite Hy]. Qed.

Lemma fmap_fixed {A} (f : A -> A) l : Forall (fun x => f x = x) l -> f <$> l = l.
Proof. intros Hl. induction Hl as [|x l Hx Hl IH]; [done|]. by rewrite fmap_cons, Hx, IH. Qed.

Lemma pending_find mem t data b n timeout j : unused t (id_get data) b n ->
  List.find (fun r => r_node r =? n) (record_list (pending t data b n timeout j))
    = Some (mk_rec n (cmd_get data) (id_get data) b (Z.of_nat (length data)) j timeout)
  /\ (mem = true -> comm_base_record_info_find mem (pending t data b n timeout j) (id_get data)
        = Some (mk_rec n (cmd_get data) (id_get data) b (Z.of_nat (length data)) j timeout)).
Proof.
  intros [_ Hn Hi]. split; [|intros ->]; (apply find_app_last; [|apply Z.eqb_refl]).
  - eapply Forall_impl; [exact Hn|]. intros r Hr. by apply Z.eqb_neq.
  - eapply Forall_impl; [exact Hi|]. intros r Hr. by apply Z.eqb_neq.
Qed.

(** Removing the pending command restores the list and the heap. *)
Lemma pending_remove t data b n timeout j : unused t (id_get data) b n ->
  comm_base_record_info_remove_by_id true (pending t data b n timeout j) (id_get data) = Ret (QM_EOK, t, [Cancel n]).
Proof.
  intros Hu. unfold comm_base_record_info_remove_by_id. rewrite (proj2 (pending_find true t data b n timeout j Hu) eq_refl).
  destruct Hu as [Hb Hn _]. unfold comm_base_record_delete, pending. simpl. rewrite lookup_insert_eq. simpl.
  rewrite delete_insert_id by done. rewrite filter_app, filter_cons_False, filter_nil, app_nil_r by (simpl; tauto).
  rewrite filter_all by done. by destruct t.
Qed.

Lemma pending_bytes t data b n timeout j : record_bytes (pending t data b n timeout j)
    (mk_rec n (cmd_get data) (id_get data) b (Z.of_nat (length data)) j timeout) = Ret data.
Proof.
  unfold record_bytes, pending. simpl. rewrite lookup_insert_eq. simpl. rewrite slice_ok by lia. simpl.
  by rewrite drop_0, Nat2Z.id, firstn_all.
Qed.

(** Decrementing the counter of the pending command. *)
Lemma pending_update t data b n timeout j : unused t (id_get data) b n -> 1 <= j < 256 ->
  update_record (pending t data b n timeout j) (mk_rec n (cmd_get data) (id_get data) b (Z.of_nat (length data)) (u8 (j - 1)) timeout)
  = pending t data b n timeout (j - 1).
Proof.
  intros [_ Hn _] Hj. unfold update_record, pending. simpl. rewrite fmap_app. simpl. rewrite Z.eqb_refl.
  rewrite u8_id by (widths; lia). f_equal. f_equal. apply fmap_fixed.
  eapply Forall_impl; [exact Hn|]. intros r Hr. by rewrite (proj2 (Z.eqb_neq _ _) Hr).
Qed.

Lemma timeout_step t data b n timeout j : unused t (id_get data) b n -> 0 <= j < 256 ->
  comm_base_generic_send_timeout true (pending t data b n timeout j) n QM_EOK
  = if j =? 0 then Ret (t, [Notify COMM_BASE_EVENT_NO_ACK (cmd_get data) (id_get data) data; Cancel n])
    else Ret (pending t data b n timeout (j - 1),
              [Notify COMM_BASE_EVENT_RESEND (cmd_get data) (id_get data) data; Post n timeout; Send data]).
Proof.
  intros Hu Hj. unfold comm_base_generic_send_timeout. rewrite (proj1 (pending_find true t data b n timeout j Hu)).
  cbn [of_option mbind outcome_bind]. rewrite pending_bytes. cbn [mbind outcome_bind r_send_count r_id r_cmd].
  destruct (Z.eqb_spec j 0) as [->|Hne].
  - by rewrite pending_remove.
  - unfold comm_base_generic_resend. change (QM_EOK =? QM_EOK) with true. cbv iota. rewrite pending_bytes.
    cbn [mbind outcome_bind]. change (QM_EOK =? QM_EOK) with true. cbv iota. unfold dec_count. simpl.
    by rewrite pending_update by (done || lia).
Qed.

(** A command sent with a count of [n] that is never acknowledged is
    transmitted exactly [n] times, each repetition announced by a notification;
    then the user is told that no acknowledgement came, the action is cancelled,
    and the list of pending commands and the heap are as before. *)
Theorem retransmits_n_times t data b node timeout n : unused t (id_get data) b node ->
  1 <= n < 256 -> 1 <= Z.of_nat (length data) < 256 ->
  exists t1, serial_generic_send t data n timeout (Some b) (Some node) QM_EOK = (QM_EOK, t1, [Post node timeout; Send data])
  /\ timeouts (Z.to_nat n) t1 node
     = Ret (t, concat (replicate (Z.to_nat (n - 1))
                  [Notify COMM_BASE_EVENT_RESEND (cmd_get data) (id_get data) data; Post node timeout; Send data])
               ++ [Notify COMM_BASE_EVENT_NO_ACK (cmd_get data) (id_get data) data; Cancel node]).
Proof.
  intros Hu Hn Hl. exists (pending t data b node timeout (n - 1)). split.
  - unfold serial_generic_send. destruct data as [|x data]; [simpl in Hl; lia|]. set (d := x :: data) in *. unfold comm_base_record_info_push.
    change (QM_EOK =? QM_EOK) with true. cbv iota. cbn [record_list heap r_node].
    rewrite !(u8_id (Z.of_nat (length d))), (u8_id n) by (widths; lia). rewrite Nat2Z.id, firstn_all.
    pose proof (pending_update t d b node timeout n Hu ltac:(lia)) as Hp. unfold pending, dec_count in *. simpl in *. by rewrite Hp.
  - assert (forall j, 0 <= j < 256 -> timeouts (S (Z.to_nat j)) (pending t data b node timeout j) node
      = Ret (t, concat (replicate (Z.to_nat j)
                   [Notify COMM_BASE_EVENT_RESEND (cmd_get data) (id_get data) data; Post node timeout; Send data])
                ++ [Notify COMM_BASE_EVENT_NO_ACK (cmd_get data) (id_get data) data; Cancel node])) as Hall.
    { intros j. remember (Z.to_nat j) as m eqn:Hm. revert j Hm. induction m as [|m IH]; intros j Hm Hj.
      - cbn [timeouts]. rewrite timeout_step by (done || lia). by replace j with 0 by lia.
      - cbn [timeouts]. rewrite timeout_step by (done || lia). destruct (Z.eqb_spec j 0); [lia|].
        cbn [mbind outcome_bind]. specialize (IH (j - 1) ltac:(lia) ltac:(lia)). cbn [timeouts] in IH. rewrite IH.
        cbn [mbind outcome_bind]. cbn [replicate concat]. by rewrite app_assoc. }
    replace (Z.to_nat n) with (S (Z.to_nat (n - 1))) by lia. apply Hall. lia.
Qed.

(** A frame of a registered downward command whose id is that of the pending
    command acknowledges it: the action is cancelled, record and block are gone,
    and the frame is unpacked once. *)
Theorem ack_completes t data b node timeout j frame o cmds (c c1 c2 : C) ret : unused t (id_get data) b node ->
  id_get frame = id_get data -> check frame c = (QM_EOK, c1) -> comm_base_cmd_ops_get cmds (cmd_get frame) = Some o ->
  c_dir o = COMM_BASE_DIR_DOWN -> unpack (c_unpack o) frame c1 = (ret, c2) ->
  deliver true cmds (pending t data b node timeout j) frame c = Ret (t, c2, [Cancel node]).
Proof.
  intros Hu Hid Hc Ho Hd Hun. unfold deliver. rewrite Hc. change (negb (QM_EOK =? QM_EOK)) with false. cbv iota.
  rewrite Ho, Hd, Hid, pending_remove by done. cbn [mbind outcome_bind]. change (QM_EOK =? QM_EOK) with true. cbv iota.
  by rewrite Hun.
Qed.

(** When the delayed action cannot be posted, the send fails and frees the
    block, but the record stays listed: an acknowledgement for it frees the block
    a second time. *)
Theorem failed_post_double_free t data b node timeout n posted frame : unused t (id_get data) b node -> data <> [] ->
  posted <> QM_EOK -> id_get frame = id_get data ->
  exists t1, serial_generic_send t data n timeout (Some b) (Some node) posted = (posted, t1, [Cancel 0])
  /\ comm_base_record_info_remove_by_id true t1 (id_get frame) = OutOfBounds.
Proof.
  intros Hu Hne Hp Hid. unfold serial_generic_send. destruct data as [|x data]; [done|]. set (d := x :: data) in *.
  unfold comm_base_record_info_push. destruct (Z.eqb_spec posted QM_EOK) as [|_]; [done|]. eexists. split; [reflexivity|].
  unfold comm_base_record_info_remove_by_id, comm_base_record_info_find. cbn [record_list heap]. rewrite Hid.
  rewrite find_app_last; [|eapply Forall_impl; [apply (un_id _ _ _ _ Hu)|]; simpl; intros; by apply Z.eqb_neq|simpl; lia].
  unfold comm_base_record_delete. simpl. by rewrite lookup_delete_eq.
Qed.

(** A first step that asks for no byte and is refused is retried without
    end. *)
Theorem zero_length_step_diverges fuel mem now s (c : C) l k : ops (recv s) !! 0%nat = Some (Some (l, k)) ->
  cur_step (recv s) = 0 -> read_len s = 0 -> (forall c, recv_len_get l c = 0) ->
  (forall c, exists c', recv_check k [] c = (1, c')) -> recv_loop fuel mem now s c = NoFuel.
Proof.
  revert s c. induction fuel as [|fuel IH]; intros s c Ho Hc Hr Hl Hk; [done|]. cbn [recv_loop]. rewrite Hc. change (Z.to_nat 0) with 0%nat.
  rewrite Ho. cbn [of_option mbind outcome_bind]. rewrite Hl, Hr. destruct (Z.gtb_spec 0 (recv_len s - 0)); [unfold recv_len in *; lia|].
  rewrite (slice_ok (recv_buf s) 0 0) by lia. cbn [mbind outcome_bind]. change (take (Z.to_nat 0) (drop (Z.to_nat 0) (recv_buf s))) with (@nil Z).
  destruct (Hk c) as (c' & ->). change (negb (1 =? QM_EOK)) with true. cbv iota. by apply IH.
Qed.

End Client.

(** ** A concrete protocol

    Frames are AA, length, id, command; the length counts the bytes after it.
    The client keeps the length of the frame being received and the frames
    unpacked so far. *)

Definition demo_config : CommConfig := {| CMD_NUM := 5; RECV_BUF_MAX_LEN := 64; RECV_STEP_MAX_NUM := 3 |}.

Definition demo_client : CommClient (Z * list (list Z)) := {|
  recv_len_get f c := if f =? 1 then 2 else Z.max 0 c.1;
  recv_check f d c := if f =? 1 then if nth 0 d 0 =? 170 then (0, (nth 1 d 0, c.2)) else (1, c) else (0, c);
  check d c := (0, c);
  cmd_get d := nth 3 d 0;
  id_get d := nth 2 d 0;
  unpack f d c := (0, (c.1, c.2 ++ [d]));
  pack_len f a := (0, 4);
  pack_data f a := (0, [170; 2; a; f])
|}.

Definition demo_ctx : comm_base_ctx_t :=
  mk_ctx 100 [mk_ops 7 COMM_BASE_DIR_UP 1 7; mk_ops 8 COMM_BASE_DIR_DOWN 1 8] (mk_recv 0 2 [Some (1, 1); Some (2, 2); None])
    0 0 0 [] (mk_tx [] ∅).

Lemma demo_rx_wf : @rx_wf _ demo_client demo_config demo_ctx.
Proof.
  constructor; unfold recv_len; simpl; try lia. constructor; simpl.
  - intros i Hi. assert (i = 0 \/ i = 1) as [-> | ->] by lia; eexists _, _; reflexivity.
  - intros [|[|[|i]]] l k c He; simplify_eq/=; simpl; lia.
Defined.

Lemma demo_tx_wf : tx_wf (mk_tx [] ∅).
Proof. constructor; simpl; [constructor|constructor|intros r Hr; inversion Hr]. Defined.


(** A frame in two chunks. *)
Definition demo_half : comm_base_ctx_t := mk_ctx 100 (cmd_ops demo_ctx) (mk_recv 1 2 (ops (recv demo_ctx))) 110 2 2 [170; 2; 1] (mk_tx [] ∅).
Definition demo_rest : comm_base_ctx_t := mk_ctx 100 (cmd_ops demo_ctx) (recv demo_ctx) 130 2 0 [170] (mk_tx [] ∅).

Lemma recv_chunks_witness :
  @comm_base_recv_handler _ demo_client demo_config 20 true 30 [170; 2; 1; 7; 170] demo_ctx (0, [])
  = Ret (QM_EOK, demo_rest, (2, [[170; 2; 1; 7]]), []).
Proof.
  apply (@recv_chunks _ demo_client demo_config 10 10 true 10 30 [170; 2; 1] [7; 170] demo_ctx demo_half demo_rest
           (0, []) (2, []) (2, [[170; 2; 1; 7]]) [] []).
  - left. reflexivity.
  - left. reflexivity.
  - right. reflexivity.
  - vm_compute. discriminate.
  - vm_compute. reflexivity.
  - vm_compute. reflexivity.
Defined.

Lemma demo_unused : unused (mk_tx [] ∅) 5 100 200.
Proof. constructor; [reflexivity|constructor|constructor]. Defined.

Lemma retransmits_n_times_witness :
  exists t1, @serial_generic_send _ demo_client (mk_tx [] ∅) [170; 2; 5; 8] 3 50 (Some 100) (Some 200) QM_EOK
    = (QM_EOK, t1, [Post 200 50; Send [170; 2; 5; 8]])
  /\ exists e, timeouts 3 t1 200 = Ret (mk_tx [] ∅, e) /\ length e = 8%nat.
Proof.
  destruct (@retransmits_n_times _ demo_client (mk_tx [] ∅) [170; 2; 5; 8] 100 200 50 3 demo_unused) as (t1 & Hs & Ht);
    [lia|simpl; lia|]. exists t1. split; [exact Hs|]. eexists. split; [exact Ht|reflexivity].
Defined.

Lemma ack_completes_witness :
  @deliver _ demo_client true (cmd_ops demo_ctx) (@pending _ demo_client (mk_tx [] ∅) [170; 2; 5; 8] 100 200 50 1) [170; 2; 5; 8] (0, [])
  = Ret (mk_tx [] ∅, (0, [[170; 2; 5; 8]]), [Cancel 200]).
Proof.
  apply (@ack_completes _ demo_client (mk_tx [] ∅) [170; 2; 5; 8] 100 200 50 1 [170; 2; 5; 8] (mk_ops 8 COMM_BASE_DIR_DOWN 1 8)
           (cmd_ops demo_ctx) (0, []) (0, []) (0, [[170; 2; 5; 8]]) 0 demo_unused); reflexivity.
Defined.

Lemma failed_post_double_free_witness :
  exists t1, @serial_generic_send _ demo_client (mk_tx [] ∅) [170; 2; 5; 8] 3 50 (Some 100) (Some 200) (-1) = (-1, t1, [Cancel 0])
  /\ comm_base_record_info_remove_by_id true t1 5 = OutOfBounds.
Proof.
  apply (@failed_post_double_free _ demo_client (mk_tx [] ∅) [170; 2; 5; 8] 100 200 50 3 (-1) [170; 2; 5; 8] demo_unused);
    [discriminate|discriminate|reflexivity].
Defined.

End CommBase.
