(* ===== verification/Base64.v ===== *)
(** * Base64 (utility/base64)

    Encoding and decoding of byte strings.  Lengths are unsigned 32-bit; the
    buffers of the caller have the size passed with them, so the functions return
    what they write.  Characters are their ASCII codes. *)

From S2P Require Import Prelude Outcome.
Import list_relations.list list_basics.list.

Module Base64.

(** A-Z, a-z, 0-9, + and /. *)
Definition g_encodingTable : list Z :=
  [65; 66; 67; 68; 69; 70; 71; 72; 73; 74; 75; 76; 77; 78; 79; 80;
   81; 82; 83; 84; 85; 86; 87; 88; 89; 90; 97; 98; 99; 100; 101; 102;
   103; 104; 105; 106; 107; 108; 109; 110; 111; 112; 113; 114; 115; 116; 117; 118;
   119; 120; 121; 122; 48; 49; 50; 51; 52; 53; 54; 55; 56; 57; 43; 47].

Definition g_modTable : list Z := [0; 2; 1].

Definition PAD : Z := 61.

(** The table is zero-initialised storage filled at the first call. *)
Fixpoint fill_table (i : Z) (cs : list Z) (table : list Z) : list Z :=
  match cs with
  | [] => table
  | c :: cs' => fill_table (i + 1) cs' (<[Z.to_nat (u8 c) := i]> table)
  end.

Definition build_decoding_table : list Z := fill_table 0 g_encodingTable (replicate 256 0).

Definition enc (s : Z) : Z := default 0 (g_encodingTable !! Z.to_nat s).

Definition encode_triple (octet_a octet_b octet_c : Z) : list Z :=
  let triple := u32 (u32 (u32 (Z.shiftl octet_a 16) + u32 (Z.shiftl octet_b 8)) + octet_c) in
  [enc (Z.land (Z.shiftr triple 18) 63); enc (Z.land (Z.shiftr triple 12) 63);
   enc (Z.land (Z.shiftr triple 6) 63); enc (Z.land triple 63)].

(** Three octets at a time; missing ones are 0. *)
Fixpoint encode_loop (data : list Z) : list Z :=
  match data with
  | [] => []
  | [a] => encode_triple a 0 0
  | [a; b] => encode_triple a b 0
  | a :: b :: c :: rest => encode_triple a b c ++ encode_loop rest
  end.

(** The last [k] characters become '='. *)
Fixpoint pad_loop (k : nat) (encodedData : list Z) : list Z :=
  match k with
  | O => encodedData
  | S k' => <[(length encodedData - S k')%nat := PAD]> (pad_loop k' encodedData)
  end.

(** Result, [*outputLength] and the bytes written. *)
Definition qm_utils_base64encode (data : list Z) (outputLenMax : Z) (encodedData : bool) : Z * option Z * list Z :=
  if negb encodedData then (-1, None, [])
  else
    let inputLength := Z.of_nat (length data) in
    let outputLength := u32 (4 * (u32 (inputLength + 2) / 3)) in
    if outputLenMax <? outputLength then (-1, Some outputLength, [])
    else (0, Some outputLength, pad_loop (Z.to_nat (default 0 (g_modTable !! Z.to_nat (inputLength mod 3)))) (encode_loop data)).

Definition sextet (c : Z) : outcome Z :=
  if c =? PAD then Ret 0 else v ← of_option (build_decoding_table !! Z.to_nat c); Ret (u32 (i8 v)).

(** All bytes the loop would write; it stops writing at [*outputLength]. *)
Fixpoint decode_loop (data : list Z) : outcome (list Z) :=
  match data with
  | [] => Ret []
  | c1 :: c2 :: c3 :: c4 :: rest =>
      a ← sextet c1; b ← sextet c2; c ← sextet c3; d ← sextet c4;
      let triple := u32 (u32 (u32 (u32 (Z.shiftl a 18) + u32 (Z.shiftl b 12)) + u32 (Z.shiftl c 6)) + d) in
      out ← decode_loop rest;
      Ret (Z.land (Z.shiftr triple 16) 255 :: Z.land (Z.shiftr triple 8) 255 :: Z.land triple 255 :: out)
  | _ => OutOfBounds
  end.

Definition qm_utils_base64decode (data : list Z) (outputLenMax : Z) : outcome (Z * option Z * list Z) :=
  let inputLength := Z.of_nat (length data) in
  if negb (inputLength mod 4 =? 0) then Ret (-1, None, [])
  else
    let outputLength := u32 (inputLength / 4 * 3) in
    c1 ← of_option (data !! Z.to_nat (u32 (inputLength - 1)));
    let outputLength := if c1 =? PAD then u32 (outputLength - 1) else outputLength in
    c2 ← of_option (data !! Z.to_nat (u32 (inputLength - 2)));
    let outputLength := if c2 =? PAD then u32 (outputLength - 1) else outputLength in
    if outputLenMax <? outputLength then Ret (-1, Some outputLength, [])
    else out ← decode_loop data; Ret (0, Some outputLength, take (Z.to_nat outputLength) out).

(** ** Specification *)

(** The encoding of RFC 4648, with sextets by division. *)
Definition group (a b c : Z) : list Z :=
  [enc (a / 4); enc (a mod 4 * 16 + b / 16); enc (b mod 16 * 4 + c / 64); enc (c mod 64)].

Fixpoint base64 (data : list Z) : list Z :=
  match data with
  | [] => []
  | [a] => [enc (a / 4); enc (a mod 4 * 16); PAD; PAD]
  | [a; b] => [enc (a / 4); enc (a mod 4 * 16 + b / 16); enc (b mod 16 * 4); PAD]
  | a :: b :: c :: rest => group a b c ++ base64 rest
  end.

(** Induction in steps of three. *)
Lemma list_ind3 {A} (P : list A -> Prop) : P [] -> (forall a, P [a]) -> (forall a b, P [a; b]) ->
  (forall a b c l, P l -> P (a :: b :: c :: l)) -> forall l, P l.
Proof.
  intros H0 H1 H2 H3. fix IH 1. intros [|a [|b [|c l]]]; [done|apply H1|apply H2|]. apply H3, IH.
Qed.

(** ** Lemmas *)

Lemma triple_sextets a b c : is_u8 a -> is_u8 b -> is_u8 c -> encode_triple a b c = group a b c.
Proof.
  intros Ha Hb Hc. unfold is_u8 in *. unfold encode_triple, group. rewrite !Z.shiftl_mul_pow2 by lia.
  rewrite (u32_id (a * 2 ^ 16)), (u32_id (b * 2 ^ 8)) by (widths; lia). rewrite (u32_id (a * 2 ^ 16 + b * 2 ^ 8)) by (widths; lia).
  rewrite u32_id by (widths; lia). rewrite !Z.shiftr_div_pow2 by lia.
  change 63 with (Z.ones 6). rewrite !Z.land_ones by lia. set (t := a * 2 ^ 16 + b * 2 ^ 8 + c).
  assert (t / 2 ^ 18 mod 2 ^ 6 = a / 4 /\ t / 2 ^ 12 mod 2 ^ 6 = a mod 4 * 16 + b / 16
    /\ t / 2 ^ 6 mod 2 ^ 6 = b mod 16 * 4 + c / 64 /\ t mod 2 ^ 6 = c mod 64) as (-> & -> & -> & ->); [|done].
  unfold t. Z.to_euclidean_division_equations; lia.
Qed.

(** The two tables are inverse to each other, and '=' is not in them. *)
Lemma sextet_enc s : 0 <= s < 64 -> sextet (enc s) = Ret s.
Proof.
  intros Hs. assert (forallb (fun i => match sextet (enc (Z.of_nat i)) with Ret v => v =? Z.of_nat i | _ => false end) (seq 0 64) = true)
    as Hall by (vm_compute; reflexivity).
  rewrite List.forallb_forall in Hall. specialize (Hall (Z.to_nat s)). rewrite Z2Nat.id in Hall by lia.
  assert (List.In (Z.to_nat s) (seq 0 64)) as Hin by (apply List.in_seq; lia). specialize (Hall Hin).
  destruct (sextet (enc s)) as [v| |]; [|done|done]. f_equal. lia.
Qed.

Lemma enc_not_pad s : 0 <= s < 64 -> enc s <> PAD.
Proof. intros Hs He. pose proof (sextet_enc s Hs) as Hx. rewrite He in Hx. injection Hx as <-. vm_compute in He. discriminate. Qed.

(** Reading back a group of four sextets. *)
Lemma decode_sextets x y z w c1 c2 c3 c4 rest out : 0 <= x < 64 -> 0 <= y < 64 -> 0 <= z < 64 -> 0 <= w < 64 ->
  sextet c1 = Ret x -> sextet c2 = Ret y -> sextet c3 = Ret z -> sextet c4 = Ret w -> decode_loop rest = Ret out ->
  decode_loop (c1 :: c2 :: c3 :: c4 :: rest) = Ret (x * 4 + y / 16 :: y mod 16 * 16 + z / 4 :: z mod 4 * 64 + w :: out).
Proof.
  intros Hx Hy Hz Hw H1 H2 H3 H4 Hr. cbn [decode_loop]. rewrite H1, H2, H3, H4. cbn [mbind outcome_bind]. rewrite Hr.
  cbn [mbind outcome_bind]. rewrite !Z.shiftl_mul_pow2 by lia.
  rewrite (u32_id (x * 2 ^ 18)), (u32_id (y * 2 ^ 12)), (u32_id (z * 2 ^ 6)) by (widths; lia).
  rewrite (u32_id (x * 2 ^ 18 + y * 2 ^ 12)) by (widths; lia). rewrite (u32_id (_ + z * 2 ^ 6)) by (widths; lia).
  rewrite u32_id by (widths; lia). rewrite !Z.shiftr_div_pow2 by lia. change 255 with (Z.ones 8). rewrite !Z.land_ones by lia.
  set (t := x * 2 ^ 18 + y * 2 ^ 12 + z * 2 ^ 6 + w).
  assert (t / 2 ^ 16 mod 2 ^ 8 = x * 4 + y / 16 /\ t / 2 ^ 8 mod 2 ^ 8 = y mod 16 * 16 + z / 4
    /\ t mod 2 ^ 8 = z mod 4 * 64 + w) as (-> & -> & ->); [|done].
  unfold t. Z.to_euclidean_division_equations; lia.
Qed.

(** The encoder computes the specification. *)
Lemma encode_loop_length data : length (encode_loop data) = (4 * ((length data + 2) / 3))%nat.
Proof.
  induction data as [|a|a b|a b c data IH] using list_ind3; [done|done|done|]. cbn [encode_loop]. rewrite length_app, IH.
  cbn [length encode_triple]. replace (S (S (S (length data))) + 2)%nat with (length data + 2 + 1 * 3)%nat by lia.
  rewrite Nat.div_add by lia. lia.
Qed.

Lemma pad_loop_length k l : length (pad_loop k l) = length l.
Proof. induction k as [|k IH]; [done|]. cbn [pad_loop]. by rewrite length_insert. Qed.

Lemma pad_loop_app k l1 l2 : (k <= length l2)%nat -> pad_loop k (l1 ++ l2) = l1 ++ pad_loop k l2.
Proof.
  induction k as [|k IH]; intros Hk; [done|]. cbn [pad_loop]. rewrite IH by lia.
  rewrite insert_app_r_alt by (rewrite length_app; lia). do 2 f_equal. rewrite length_app. lia.
Qed.

(** Number of '=' at the end. *)
Definition padding (n : nat) : nat := Z.to_nat (default 0 (g_modTable !! (n mod 3)%nat)).

Lemma padding_3 n : padding (S (S (S n))) = padding n.
Proof. unfold padding. do 3 f_equal. replace (S (S (S n))) with (n + 1 * 3)%nat by lia. by rewrite Nat.Div0.mod_add. Qed.

Lemma padding_le n : (padding n <= 2)%nat.
Proof.
  unfold padding. pose proof (Nat.mod_upper_bound n 3 ltac:(lia)) as Hm.
  destruct (n mod 3)%nat as [|[|[|k]]]; simpl; lia.
Qed.

Lemma encode_spec data : Forall is_u8 data -> pad_loop (padding (length data)) (encode_loop data) = base64 data.
Proof.
  assert (is_u8 0) as H0 by (unfold is_u8; lia).
  induction data as [|a|a b|a b c data IH] using list_ind3; intros Hd.
  - done.
  - apply Forall_cons in Hd as [Ha _]. cbn [encode_loop base64]. rewrite triple_sextets by done. unfold group. cbn.
    by rewrite Z.add_0_r.
  - apply Forall_cons in Hd as [Ha Hd]. apply Forall_cons in Hd as [Hb _]. cbn [encode_loop base64].
    rewrite triple_sextets by done. unfold group. cbn. by rewrite Z.add_0_r.
  - apply Forall_cons in Hd as [Ha Hd]. apply Forall_cons in Hd as [Hb Hd]. apply Forall_cons in Hd as [Hc Hd].
    cbn [encode_loop base64 length]. rewrite padding_3, triple_sextets by done. rewrite <- (IH Hd).
    destruct data as [|d data]; [done|]. apply pad_loop_app. rewrite encode_loop_length. pose proof (padding_le (length (d :: data))) as Hp.
    cbn [length] in *. replace (S (length data) + 2)%nat with (length data + 1 * 3)%nat by lia. rewrite Nat.div_add by lia. lia.
Qed.

(** Reading back the group of three octets. *)
Lemma decode_group a b c c1 c2 c3 c4 rest out : is_u8 a -> is_u8 b -> is_u8 c ->
  sextet c1 = Ret (a / 4) -> sextet c2 = Ret (a mod 4 * 16 + b / 16) -> sextet c3 = Ret (b mod 16 * 4 + c / 64) ->
  sextet c4 = Ret (c mod 64) -> decode_loop rest = Ret out ->
  decode_loop (c1 :: c2 :: c3 :: c4 :: rest) = Ret (a :: b :: c :: out).
Proof.
  unfold is_u8. intros Ha Hb Hc H1 H2 H3 H4 Hr.
  rewrite (decode_sextets (a / 4) (a mod 4 * 16 + b / 16) (b mod 16 * 4 + c / 64) (c mod 64) c1 c2 c3 c4 rest out);
    try done; try (Z.to_euclidean_division_equations; lia).
  assert (a / 4 * 4 + (a mod 4 * 16 + b / 16) / 16 = a
    /\ (a mod 4 * 16 + b / 16) mod 16 * 16 + (b mod 16 * 4 + c / 64) / 4 = b
    /\ (b mod 16 * 4 + c / 64) mod 4 * 64 + c mod 64 = c) as (-> & -> & ->); [Z.to_euclidean_division_equations; lia|done].
Qed.

(** The sextets of octets. *)
Lemma group_sextets a b c : is_u8 a -> is_u8 b -> is_u8 c ->
  sextet (enc (a / 4)) = Ret (a / 4) /\ sextet (enc (a mod 4 * 16 + b / 16)) = Ret (a mod 4 * 16 + b / 16)
  /\ sextet (enc (b mod 16 * 4 + c / 64)) = Ret (b mod 16 * 4 + c / 64) /\ sextet (enc (c mod 64)) = Ret (c mod 64).
Proof.
  unfold is_u8. intros Ha Hb Hc. repeat split; apply sextet_enc; Z.to_euclidean_division_equations; lia.
Qed.

(** The decoder inverts the specification; what it would write beyond the data
    are the zeros of the padding. *)
Lemma decode_spec data : Forall is_u8 data -> decode_loop (base64 data) = Ret (data ++ replicate (padding (length data)) 0).
Proof.
  assert (is_u8 0) as H0 by (unfold is_u8; lia).
  induction data as [|a|a b|a b c data IH] using list_ind3; intros Hd.
  - done.
  - apply Forall_cons in Hd as [Ha _]. destruct (group_sextets a 0 0 Ha H0 H0) as (H1 & H2 & _). cbn [base64].
    rewrite Z.add_0_r in H2. by apply (decode_group a 0 0); try done; rewrite Z.add_0_r.
  - apply Forall_cons in Hd as [Ha Hd]. apply Forall_cons in Hd as [Hb _].
    destruct (group_sextets a b 0 Ha Hb H0) as (H1 & H2 & H3 & _). cbn [base64].
    rewrite Z.add_0_r in H3. by apply (decode_group a b 0); try done; rewrite Z.add_0_r.
  - apply Forall_cons in Hd as [Ha Hd]. apply Forall_cons in Hd as [Hb Hd]. apply Forall_cons in Hd as [Hc Hd].
    destruct (group_sextets a b c Ha Hb Hc) as (H1 & H2 & H3 & H4). cbn [base64 length]. rewrite padding_3. unfold group. cbn [app].
    by apply (decode_group a b c); try done; apply IH.
Qed.

(** Length and last characters of an encoding. *)
Lemma base64_length data : Forall is_u8 data -> length (base64 data) = (4 * ((length data + 2) / 3))%nat.
Proof. intros Hd. by rewrite <- encode_spec, pad_loop_length, encode_loop_length. Qed.

Lemma base64_ends data : Forall is_u8 data -> data <> [] ->
  exists c2 c1, base64 data !! (length (base64 data) - 2)%nat = Some c2 /\ base64 data !! (length (base64 data) - 1)%nat = Some c1
  /\ (c1 = PAD <-> padding (length data) <> 0%nat) /\ (c2 = PAD <-> padding (length data) = 2%nat).
Proof.
  unfold is_u8. induction data as [|a|a b|a b c data IH] using list_ind3; intros Hd Hne; [done|..].
  - apply Forall_cons in Hd as [Ha _]. exists PAD, PAD. by repeat split.
  - apply Forall_cons in Hd as [Ha Hd]. apply Forall_cons in Hd as [Hb _]. eexists _, _. split; [reflexivity|]. split; [reflexivity|].
    split; [done|]. split; [|done]. intros He. exfalso. apply (enc_not_pad (b mod 16 * 4)); [|done]. Z.to_euclidean_division_equations; lia.
  - apply Forall_cons in Hd as [Ha Hd]. apply Forall_cons in Hd as [Hb Hd]. apply Forall_cons in Hd as [Hc Hd].
    cbn [length]. rewrite padding_3. destruct data as [|d data].
    + eexists _, _. split; [reflexivity|]. split; [reflexivity|]. split; (split; [|done]); intros He; exfalso.
      * apply (enc_not_pad (c mod 64)); [|done]. Z.to_euclidean_division_equations; lia.
      * apply (enc_not_pad (b mod 16 * 4 + c / 64)); [|done]. Z.to_euclidean_division_equations; lia.
    + destruct (IH Hd ltac:(done)) as (c2 & c1 & H2 & H1 & Hp). exists c2, c1. change (base64 (a :: b :: c :: d :: data)) with (group a b c ++ base64 (d :: data)).
      set (r := base64 (d :: data)) in *. assert (2 <= length r)%nat as Hl.
      { unfold r. rewrite base64_length by done. cbn [length].
        replace (S (length data) + 2)%nat with (length data + 1 * 3)%nat by lia. rewrite Nat.div_add by lia. lia. }
      rewrite length_app. change (length (group a b c)) with 4%nat. rewrite !lookup_app_r by (simpl; lia).
      change (length (group a b c)) with 4%nat.
      replace (4 + length r - 2 - 4)%nat with (length r - 2)%nat by lia. replace (4 + length r - 1 - 4)%nat with (length r - 1)%nat by lia.
      by split.
Qed.

Lemma padding_value n : Z.of_nat (padding n) = 3 * ((Z.of_nat n + 2) / 3) - Z.of_nat n.
Proof.
  unfold padding. pose proof (Nat.div_mod_eq n 3) as Hq. pose proof (Nat.mod_upper_bound n 3 ltac:(lia)) as Hm.
  destruct (n mod 3)%nat as [|[|[|k]]]; [..|lia]; simpl; Z.to_euclidean_division_equations; lia.
Qed.

Lemma encode_result data max : Forall is_u8 data -> Z.of_nat (length data) < 2 ^ 31 ->
  let n := 4 * ((Z.of_nat (length data) + 2) / 3) in
  Z.of_nat (length (base64 data)) = n
  /\ qm_utils_base64encode data max true = if max <? n then (-1, Some n, []) else (0, Some n, base64 data).
Proof.
  intros Hd Hlen n. assert (Z.of_nat (length (base64 data)) = n) as Hl.
  { rewrite base64_length by done. unfold n. rewrite Nat2Z.inj_mul, Nat2Z.inj_div, Nat2Z.inj_add. done. }
  split; [done|]. unfold qm_utils_base64encode. cbn [negb].
  rewrite (u32_id (Z.of_nat (length data) + 2)) by (widths; lia).
  assert (0 <= n < 2 ^ 32) as Hn by (unfold n; Z.to_euclidean_division_equations; lia). fold n. rewrite (u32_id n) by (widths; lia).
  destruct (max <? n); [done|]. rewrite <- (encode_spec data Hd). unfold padding.
  do 3 f_equal. by rewrite Z2Nat.inj_mod, Nat2Z.id by lia.
Qed.

(** The output length the decoder computes from the last two characters. *)
Lemma decode_result data max : Forall is_u8 data -> data <> [] -> Z.of_nat (length data) < 2 ^ 31 ->
  Z.of_nat (length data) <= max -> qm_utils_base64decode (base64 data) max = Ret (0, Some (Z.of_nat (length data)), data).
Proof.
  intros Hd Hne Hlen Hmax. destruct (encode_result data 0 Hd Hlen) as [Hl _]. pose proof (padding_value (length data)) as Hp.
  destruct (base64_ends data Hd Hne) as (c2 & c1 & Hc2 & Hc1 & Hp1 & Hp2). set (L := Z.of_nat (length data)) in *.
  assert (1 <= L) as HL by (unfold L; destruct data; [done|simpl; lia]). set (k := (L + 2) / 3) in *.
  assert (1 <= k /\ 3 * k <= L + 2) as [Hk Hk'] by (unfold k; Z.to_euclidean_division_equations; lia).
  unfold qm_utils_base64decode. rewrite Hl. replace (4 * k) with (k * 4) by lia. rewrite Z.mod_mul, Z.div_mul by lia.
  cbn [negb Z.eqb]. change (negb (0 =? 0)) with false. cbv iota.
  rewrite (u32_id (k * 3)), (u32_id (k * 4 - 1)), (u32_id (k * 4 - 2)) by (widths; lia).
  replace (Z.to_nat (k * 4 - 1)) with (length (base64 data) - 1)%nat by lia.
  replace (Z.to_nat (k * 4 - 2)) with (length (base64 data) - 2)%nat by lia.
  rewrite Hc1, Hc2. cbn [of_option mbind outcome_bind]. pose proof (padding_le (length data)) as Hple.
  assert ((if c2 =? PAD then u32 ((if c1 =? PAD then u32 (k * 3 - 1) else k * 3) - 1)
           else (if c1 =? PAD then u32 (k * 3 - 1) else k * 3)) = L) as ->.
  { destruct (Z.eqb_spec c1 PAD) as [H1|H1], (Z.eqb_spec c2 PAD) as [H2|H2];
      rewrite Hp1 in H1; rewrite Hp2 in H2; rewrite ?(u32_id (k * 3 - 1)), ?u32_id by (widths; lia); lia. }
  destruct (Z.ltb_spec max L); [lia|]. rewrite decode_spec by done. cbn [mbind outcome_bind].
  unfold L. by rewrite Nat2Z.id, take_app_length.
Qed.

(** ** Theorems *)

(** The encoder writes the RFC 4648 encoding, 4 characters for every 3
    bytes begun, and refuses a buffer that is too small without writing. *)
Theorem encode_correct data max : Forall is_u8 data -> Z.of_nat (length data) < 2 ^ 31 ->
  let n := 4 * ((Z.of_nat (length data) + 2) / 3) in
  Z.of_nat (length (base64 data)) = n
  /\ qm_utils_base64encode data max true = if max <? n then (-1, Some n, []) else (0, Some n, base64 data).
Proof. apply encode_result. Qed.

(** Decoding what the encoder wrote gives back every non-empty byte string,
    with its length, given a buffer of that size. *)
Theorem base64_roundtrip data max1 max2 out n : Forall is_u8 data -> data <> [] -> Z.of_nat (length data) < 2 ^ 31 ->
  qm_utils_base64encode data max1 true = (0, n, out) -> Z.of_nat (length data) <= max2 ->
  qm_utils_base64decode out max2 = Ret (0, Some (Z.of_nat (length data)), data).
Proof.
  intros Hd Hne Hlen He Hmax. destruct (encode_result data max1 Hd Hlen) as [_ Hr]. cbv zeta in Hr. rewrite Hr in He.
  destruct (max1 <? _); [done|]. injection He as <- <-. by apply decode_result.
Qed.

(** The encoding of the empty string cannot be decoded: the last two characters
    are read although there are none. *)
Theorem empty_decode_out_of_bounds max : qm_utils_base64decode [] max = OutOfBounds.
Proof. reflexivity. Qed.

(** Characters outside the alphabet are not refused but read as zero bits. *)
Theorem invalid_characters_accepted : qm_utils_base64decode [33; 33; 33; 33] 3 = Ret (0, Some 3, [0; 0; 0]).
Proof. vm_compute. reflexivity. Qed.

(** ** Concrete strings *)

(** "light" *)
Lemma encode_correct_witness : qm_utils_base64encode [108; 105; 103; 104; 116] 8 true
  = (0, Some 8, [98; 71; 108; 110; 97; 72; 81; 61]).
Proof.
  assert (Forall is_u8 [108; 105; 103; 104; 116]) as Hd by (repeat constructor; unfold is_u8; lia).
  destruct (encode_correct [108; 105; 103; 104; 116] 8 Hd) as [_ He]; [simpl; lia|]. rewrite He. vm_compute. reflexivity.
Defined.

Lemma base64_roundtrip_witness :
  qm_utils_base64decode [98; 71; 108; 110; 97; 72; 81; 61] 5 = Ret (0, Some 5, [108; 105; 103; 104; 116]).
Proof.
  apply (base64_roundtrip [108; 105; 103; 104; 116] 8 5 [98; 71; 108; 110; 97; 72; 81; 61] (Some 8)).
  - repeat constructor; unfold is_u8; lia.
  - discriminate.
  - simpl; lia.
  - vm_compute. reflexivity.
  - simpl; lia.
Defined.

End Base64.
