(* ===== verification/HashTable.v ===== *)
(** * Hash table (utility/hashtable)

    Byte-string keys to byte-string values; a bucket is a root item in the table
    and a chain of allocated items.  A bucket is the list of its items, root
    first.  Blocks are byte lists; an access outside one is [OutOfBounds].
    [mem] says which of the allocations of a call succeed; [junk] is what a fresh
    block holds. *)

From S2P Require Import Prelude Outcome.
Import list_relations.list list_basics.list.

Module HashTable.

(** [size_val] is a field of its own: it need not be the size of the block. *)
Record ht_item_t := mk_item {
  key : option (list Z);
  len_key : Z;
  val : option (list Z);
  size_val : Z
}.

Record ht_t := mk_ht { cnt : Z; item : list (list ht_item_t) }.

Definition empty_item : ht_item_t := mk_item None 0 None 0.

(** One round of the hash. *)
Definition hash_byte (hash b : Z) : Z :=
  let hash := u32 (hash + b) in
  let hash := u32 (hash + u32 (Z.shiftl hash 10)) in
  Z.lxor hash (Z.shiftr hash 6).

Definition _hash_func (k : list Z) : Z :=
  let hash := foldl hash_byte 0 k in
  let hash := u32 (hash + u32 (Z.shiftl hash 3)) in
  let hash := Z.lxor hash (Z.shiftr hash 11) in
  u32 (hash + u32 (Z.shiftl hash 15)).

(** The size computation is not checked for overflow; [max_count] is small. *)
Definition ht_init (max_count : Z) (mem : bool) : option ht_t :=
  if max_count <=? 0 then None
  else if negb mem then None
  else Some (mk_ht max_count (replicate (Z.to_nat max_count) [empty_item])).

(** Position of the bucket; [None]: invalid arguments. *)
Definition _ht_find (ht : option ht_t) (k : option (list Z)) : option nat :=
  match ht, k with
  | Some h, Some k => if Z.of_nat (length k) <=? 0 then None else Some (Z.to_nat (_hash_func k mod cnt h))
  | _, _ => None
  end.

(** [memcmp] of two blocks of which the first must hold [length b] bytes. *)
Definition same_bytes (a b : list Z) : outcome bool :=
  if (length a <? length b)%nat then OutOfBounds else Ret (bool_decide (take (length b) a = b)).

(** The item has this key: length and bytes agree. *)
Definition has_key (k : list Z) (i : ht_item_t) : bool :=
  match key i with Some k' => (len_key i =? Z.of_nat (length k)) && bool_decide (take (length k) k' = k) | None => false end.

(** The bucket of a position. *)
Definition bucket (h : ht_t) (pos : nat) : list ht_item_t := default [] (item h !! pos).

Definition ht_lookup (ht : option ht_t) (k : option (list Z)) : option ht_item_t :=
  match ht, k, _ht_find ht k with
  | Some h, Some k, Some pos => List.find (has_key k) (bucket h pos)
  | _, _, _ => None
  end.

(** The value found; with a buffer of [cap] bytes also what is copied and the
    size reported. *)
Definition ht_find (ht : option ht_t) (k : option (list Z)) (cap : option Z) : outcome (option (list Z) * option (list Z * Z)) :=
  match ht_lookup ht k with
  | None => Ret (None, None)
  | Some i =>
      match val i, cap with
      | Some v, Some c =>
          let n := if size_val i >? c then c else size_val i in
          if Z.of_nat (length v) <? n then OutOfBounds
          else Ret (Some v, Some (take (Z.to_nat n) v, size_val i))
      | v, _ => Ret (v, None)
      end
  end.

(** Writing a value into a block. *)
Definition write_block (block v : list Z) : outcome (list Z) :=
  if (length block <? length v)%nat then OutOfBounds else Ret (v ++ drop (length v) block).

(** The repeated key at [j]: its value is reallocated, but size and bytes go to
    [p_item], the item before it (itself at the root). *)
Definition update_at (mem : nat -> bool) (junk : Z) (b : list ht_item_t) (j : nat) (v : list Z) : outcome (Z * list ht_item_t) :=
  p_tmp ← of_option (b !! j);
  let fresh := if mem 0%nat then Some (replicate (length v) junk) else None in
  let b1 := <[j := mk_item (key p_tmp) (len_key p_tmp) fresh (size_val p_tmp)]> b in
  let prev := (j - 1)%nat in
  p_item ← of_option (b1 !! prev);
  match val p_item with
  | None => OutOfBounds
  | Some block =>
      block' ← write_block block v;
      Ret (0, <[prev := mk_item (key p_item) (len_key p_item) (Some block') (Z.of_nat (length v))]> b1)
  end.

(** Position of the first item with the key. *)
Fixpoint position (k : list Z) (b : list ht_item_t) : option nat :=
  match b with
  | [] => None
  | i :: b' => if has_key k i then Some 0%nat else S <$> position k b'
  end.

(** [val p_item = None] in [update_at]: the item is freed while it is linked or
    part of the table, an invalid access from then on. *)
Definition add_to_bucket (mem : nat -> bool) (junk : Z) (b : list ht_item_t) (k v : list Z) : outcome (Z * list ht_item_t) :=
  match b with
  | [] => OutOfBounds
  | root :: chain =>
      match key root with
      | None =>
          if negb (mem 0%nat) then Ret (-1, b)
          else if negb (mem 1%nat) then Ret (-1, mk_item None (Z.of_nat (length k)) None (size_val root) :: chain)
          else Ret (0, mk_item (Some k) (Z.of_nat (length k)) (Some v) (Z.of_nat (length v)) :: chain)
      | Some _ =>
          match position k b with
          | Some j => update_at mem junk b j v
          | None =>
              if negb (mem 0%nat) then Ret (-1, b)
              else if negb (mem 1%nat) then Ret (-1, b)
              else if negb (mem 2%nat) then Ret (-1, b)
              else Ret (0, b ++ [mk_item (Some k) (Z.of_nat (length k)) (Some v) (Z.of_nat (length v))])
          end
      end
  end.

Definition ht_add (mem : nat -> bool) (junk : Z) (ht : option ht_t) (k v : option (list Z)) : outcome (Z * option ht_t) :=
  match ht, k, v with
  | Some h, Some k, Some v =>
      if (Z.of_nat (length k) <=? 0) || (Z.of_nat (length v) <=? 0) then Ret (-1, ht)
      else
        let pos := Z.to_nat (_hash_func k mod cnt h) in
        '(r, b) ← add_to_bucket mem junk (bucket h pos) k v;
        Ret (r, Some (mk_ht (cnt h) (<[pos := b]> (item h))))
  | _, _, _ => Ret (-1, ht)
  end.

(** The test of the delete loop: bytes only, without the lengths. *)
Definition del_test (k : option (list Z)) (i : ht_item_t) : outcome bool :=
  match key i, val i with
  | Some k', Some _ => match k with None => Ret true | Some k => same_bytes k' k end
  | _, _ => Ret false
  end.

(** Items of the chain are unlinked and freed. *)
Fixpoint del_chain (k : option (list Z)) (chain : list ht_item_t) : outcome (Z * list ht_item_t) :=
  match chain with
  | [] => Ret (-1, [])
  | i :: chain' =>
      hit ← del_test k i;
      if hit : bool then
        match k with
        | Some _ => Ret (0, chain')
        | None => '(_, rest) ← del_chain k chain'; Ret (0, rest)
        end
      else '(r, rest) ← del_chain k chain'; Ret (r, i :: rest)
  end.

(** The root stays and is emptied. *)
Definition _ht_del_node (b : list ht_item_t) (k : option (list Z)) : outcome (Z * list ht_item_t) :=
  match b with
  | [] => Ret (-1, [])
  | root :: chain =>
      hit ← del_test k root;
      if hit : bool then
        let root' := mk_item None (len_key root) None (size_val root) in
        match k with
        | Some _ => Ret (0, root' :: chain)
        | None => '(_, rest) ← del_chain k chain; Ret (0, root' :: rest)
        end
      else '(r, rest) ← del_chain k chain; Ret (r, root :: rest)
  end.

Definition ht_del (ht : option ht_t) (k : option (list Z)) : outcome (Z * option ht_t) :=
  match ht, _ht_find ht k with
  | Some h, Some pos =>
      '(r, b) ← _ht_del_node (bucket h pos) k;
      Ret (r, Some (mk_ht (cnt h) (<[pos := b]> (item h))))
  | _, _ => Ret (-1, ht)
  end.

Fixpoint clear_loop (bs : list (list ht_item_t)) : outcome (list (list ht_item_t)) :=
  match bs with
  | [] => Ret []
  | b :: bs' => '(_, b') ← _ht_del_node b None; rest ← clear_loop bs'; Ret (b' :: rest)
  end.

Definition ht_clear (ht : option ht_t) : outcome (Z * option ht_t) :=
  match ht with
  | None => Ret (-1, None)
  | Some h => bs ← clear_loop (item h); Ret (0, Some (mk_ht (cnt h) bs))
  end.

Definition ht_deinit (ht : option ht_t) : outcome Z :=
  match ht with
  | None => Ret (-1)
  | Some _ => '(_, _) ← ht_clear ht; Ret 0
  end.

(** The items visited while the callback returns 0; [cb] also gives the client
    state.  A bucket whose root is empty is skipped with its chain. *)
Fixpoint visit {C} (cb : ht_item_t -> C -> Z * C) (b : list ht_item_t) (c : C) : Z * C :=
  match b with
  | [] => (0, c)
  | i :: b' => let '(r, c') := cb i c in if r =? 0 then visit cb b' c' else (r, c')
  end.

Fixpoint traverse_loop {C} (cb : ht_item_t -> C -> Z * C) (bs : list (list ht_item_t)) (c : C) : Z * C :=
  match bs with
  | [] => (0, c)
  | b :: bs' =>
      match b with
      | [] => traverse_loop cb bs' c
      | root :: _ =>
          match key root with
          | None => traverse_loop cb bs' c
          | Some _ => let '(r, c') := visit cb b c in if r =? 0 then traverse_loop cb bs' c' else (r, c')
          end
      end
  end.

Definition ht_traverse {C} (ht : option ht_t) (cb : option (ht_item_t -> C -> Z * C)) (c : C) : Z * C :=
  match ht, cb with
  | Some h, Some f => traverse_loop f (item h) c
  | _, _ => (-1, c)
  end.

(** ** Invariant *)

(** An item in use has a value of the recorded size. *)
Definition item_ok (i : ht_item_t) : Prop :=
  match key i with
  | None => True
  | Some k => len_key i = Z.of_nat (length k) /\ exists v, val i = Some v /\ size_val i = Z.of_nat (length v)
  end.

Record table_ok (h : ht_t) : Prop := {
  to_cnt : 0 < cnt h;
  to_len : Z.of_nat (length (item h)) = cnt h;
  to_buckets : Forall (fun b => b <> [] /\ Forall item_ok b) (item h)
}.

(** ** Lemmas *)

Lemma has_key_spec k i : item_ok i -> has_key k i = bool_decide (key i = Some k).
Proof.
  unfold item_ok, has_key. destruct (key i) as [k'|]; [|done]. intros [Hl _]. rewrite Hl.
  destruct (Z.eqb_spec (Z.of_nat (length k')) (Z.of_nat (length k))) as [He|He]; simpl.
  - apply bool_decide_ext. rewrite take_ge by lia. split; congruence.
  - symmetry. apply bool_decide_eq_false. intros [= ->]. done.
Qed.

Lemma position_None k b : position k b = None <-> List.find (has_key k) b = None.
Proof.
  induction b as [|i b IH]; [done|]. simpl. destruct (has_key k i); [done|]. rewrite <- IH.
  by destruct (position k b).
Qed.

Lemma bucket_in h k : table_ok h ->
  exists b, item h !! Z.to_nat (_hash_func k mod cnt h) = Some b /\ bucket h (Z.to_nat (_hash_func k mod cnt h)) = b
  /\ b <> [] /\ Forall item_ok b.
Proof.
  intros [Hc Hl Hb]. pose proof (Z.mod_pos_bound (_hash_func k) (cnt h) Hc) as Hm.
  destruct (lookup_lt_is_Some_2 (item h) (Z.to_nat (_hash_func k mod cnt h))) as [b Hk]; [lia|].
  exists b. unfold bucket. rewrite Hk. split; [done|]. split; [done|]. by apply (Forall_lookup_1 _ _ _ _ Hb Hk).
Qed.

Lemma lookup_bucket h k : k <> [] -> ht_lookup (Some h) (Some k) = List.find (has_key k) (bucket h (Z.to_nat (_hash_func k mod cnt h))).
Proof. intros Hk. unfold ht_lookup, _ht_find. destruct k as [|x k]; [done|]. by replace (Z.of_nat (length (x :: k)) <=? 0) with false by (symmetry; apply Z.leb_gt; simpl; lia). Qed.

(** Replacing the bucket of a key. *)
Lemma set_bucket_ok h pos b : table_ok h -> b <> [] -> Forall item_ok b -> table_ok (mk_ht (cnt h) (<[pos := b]> (item h))).
Proof. intros [Hc Hl Hb] Hne Hok. constructor; simpl; [done|by rewrite length_insert|]. by apply Forall_insert. Qed.

Lemma set_bucket_lookup h pos b b' k : item h !! pos = Some b -> k <> [] ->
  ht_lookup (Some (mk_ht (cnt h) (<[pos := b']> (item h)))) (Some k)
  = if decide (Z.to_nat (_hash_func k mod cnt h) = pos) then List.find (has_key k) b' else ht_lookup (Some h) (Some k).
Proof.
  intros Hb Hk. rewrite !lookup_bucket by done. cbn [cnt]. unfold bucket. cbn [item].
  pose proof (lookup_lt_Some _ _ _ Hb) as Hlt. case_decide as He.
  - rewrite He. by rewrite list_lookup_insert_eq.
  - by rewrite list_lookup_insert_ne.
Qed.

(** The item a value is stored in. *)
Definition stored (k v : list Z) : ht_item_t := mk_item (Some k) (Z.of_nat (length k)) (Some v) (Z.of_nat (length v)).

Lemma stored_ok k v : item_ok (stored k v).
Proof. split; [done|]. by exists v. Qed.

(** A new key goes into an empty root or to the end of the chain. *)
Lemma add_new_bucket junk b k v : b <> [] -> Forall item_ok b -> List.find (has_key k) b = None ->
  exists b', add_to_bucket (fun _ => true) junk b k v = Ret (0, b') /\ b' <> [] /\ Forall item_ok b'
  /\ List.find (has_key k) b' = Some (stored k v)
  /\ forall k', k' <> k -> List.find (has_key k') b' = List.find (has_key k') b.
Proof.
  intros Hne Hok Hf. destruct b as [|root chain]; [done|]. apply Forall_cons in Hok as [Hr Hok]. unfold add_to_bucket.
  assert (forall k', has_key k' (stored k v) = bool_decide (k = k')) as Hst.
  { intros k'. rewrite has_key_spec by apply stored_ok. simpl. apply bool_decide_ext. split; congruence. }
  destruct (key root) as [kr|] eqn:Hkr.
  - rewrite (proj2 (position_None k (root :: chain)) Hf). cbn [negb]. eexists. split; [reflexivity|]. split; [done|].
    split; [by apply Forall_app; split; [by constructor|]; constructor; [apply stored_ok|constructor]|].
    assert (forall k', List.find (has_key k') ((root :: chain) ++ [stored k v])
      = match List.find (has_key k') (root :: chain) with Some x => Some x | None => if bool_decide (k = k') then Some (stored k v) else None end) as Hfa.
    { intros k'. generalize (root :: chain). intros l. induction l as [|x l IH]; simpl; [by rewrite Hst|]. by destruct (has_key k' x). }
    split; [change (mk_item (Some k) _ _ _) with (stored k v); by rewrite Hfa, Hf, bool_decide_true|].
    intros k' Hk'. change (mk_item (Some k) _ _ _) with (stored k v). rewrite Hfa, bool_decide_false by congruence.
    by destruct (List.find (has_key k') (root :: chain)).
  - cbn [negb]. eexists. split; [reflexivity|]. split; [done|]. split; [by constructor; [apply stored_ok|]|].
    change (mk_item (Some k) _ _ _) with (stored k v). cbn [List.find]. split; [by rewrite Hst, bool_decide_true|].
    intros k' Hk'. rewrite Hst, bool_decide_false by congruence. unfold has_key at 2. by rewrite Hkr.
Qed.

(** Adding a key that is not in the table stores it: it is found with its
    value, every other key is found as before, and the table stays sound. *)
Theorem add_new_key junk h k v cap : table_ok h -> k <> [] -> v <> [] -> ht_lookup (Some h) (Some k) = None ->
  Z.of_nat (length v) <= cap ->
  exists h', ht_add (fun _ => true) junk (Some h) (Some k) (Some v) = Ret (0, Some h') /\ table_ok h'
  /\ ht_find (Some h') (Some k) (Some cap) = Ret (Some v, Some (v, Z.of_nat (length v)))
  /\ forall k', k' <> [] -> k' <> k -> ht_lookup (Some h') (Some k') = ht_lookup (Some h) (Some k').
Proof.
  intros Hok Hk Hv Hf Hcap. destruct (bucket_in h k Hok) as (b & Hb & Hbb & Hne & Hib).
  rewrite lookup_bucket, Hbb in Hf by done. destruct (add_new_bucket junk b k v Hne Hib Hf) as (b' & Ha & Hne' & Hok' & Hfk & Hfo).
  unfold ht_add. destruct k as [|x k]; [done|]. destruct v as [|y v]; [done|]. set (kk := x :: k) in *. set (vv := y :: v) in *.
  replace ((Z.of_nat (length kk) <=? 0) || (Z.of_nat (length vv) <=? 0)) with false
    by (symmetry; apply orb_false_intro; apply Z.leb_gt; simpl; lia).
  rewrite Hbb, Ha. cbn [mbind outcome_bind]. eexists. split; [reflexivity|]. split; [by apply set_bucket_ok|]. split.
  - unfold ht_find. rewrite (set_bucket_lookup _ _ _ _ _ Hb), decide_True, Hfk by done. cbn [val stored size_val].
    destruct (Z.gtb_spec (Z.of_nat (length vv)) cap); [lia|]. rewrite Z.ltb_irrefl. by rewrite Nat2Z.id, firstn_all.
  - intros k' Hk' Hne2. rewrite (set_bucket_lookup _ _ _ _ _ Hb) by done. case_decide as He; [|done].
    rewrite lookup_bucket, He, Hbb by done. by apply Hfo.
Qed.

(** ** Deletion *)

(** Keys of one length, none twice in a bucket. *)
Definition keys_ok (n : nat) (b : list ht_item_t) : Prop :=
  Forall (fun i => forall k, key i = Some k -> length k = n) b /\ NoDup (omap key b).

Lemma del_test_spec k i : item_ok i -> (forall k', key i = Some k' -> length k' = length k) ->
  del_test (Some k) i = Ret (has_key k i).
Proof.
  intros Hok Hn. rewrite has_key_spec by done. unfold del_test, item_ok in *. destruct (key i) as [k'|]; [|done].
  destruct Hok as (_ & v & -> & _). specialize (Hn k' eq_refl). unfold same_bytes.
  destruct (Nat.ltb_spec (length k') (length k)); [lia|]. f_equal. apply bool_decide_ext. rewrite take_ge by lia. split; congruence.
Qed.

(** Without the first item of a key, a chain without repetitions has none. *)
Lemma del_chain_spec k b : Forall item_ok b -> keys_ok (length k) b ->
  exists r b', del_chain (Some k) b = Ret (r, b') /\ (List.find (has_key k) b <> None -> r = 0)
  /\ List.find (has_key k) b' = None /\ Forall item_ok b'
  /\ forall k', k' <> k -> List.find (has_key k') b' = List.find (has_key k') b.
Proof.
  intros Hok [Hlen Hnd]. induction b as [|i b IH].
  - exists (-1), []. repeat split; [done|constructor].
  - apply Forall_cons in Hok as [Hi Hok], Hlen as [Hli Hlen]. cbn [del_chain]. rewrite del_test_spec by done. cbn [mbind outcome_bind].
    assert (forall k', has_key k' i = bool_decide (key i = Some k')) as Hhk by (intros; by apply has_key_spec).
    destruct (has_key k i) eqn:Hh.
    + exists 0, b. split; [done|]. split; [done|]. rewrite Hhk in Hh. apply bool_decide_eq_true in Hh. simpl in Hnd. rewrite Hh in Hnd.
      apply NoDup_cons in Hnd as [Hnk Hnd]. split; [|split; [done|]].
      * destruct (List.find (has_key k) b) as [x|] eqn:Hf; [|done]. exfalso. apply List.find_some in Hf as [Hin Hx].
        apply list_elem_of_In in Hin. rewrite has_key_spec in Hx by (by apply (proj1 (Forall_forall _ _) Hok)).
        apply bool_decide_eq_true in Hx. apply Hnk. apply list_elem_of_omap. by exists x.
      * intros k' Hk'. cbn [List.find]. rewrite Hhk, bool_decide_false by (rewrite Hh; congruence). done.
    + destruct IH as (r & b' & -> & Hr & Hf & Hok' & Ho); [done|done| |].
      { simpl in Hnd. destruct (key i); [by apply NoDup_cons in Hnd as [_ Hnd]|done]. }
      cbn [mbind outcome_bind]. exists r, (i :: b'). split; [done|]. cbn [List.find]. rewrite Hh. split; [done|]. split; [done|].
      split; [by constructor|]. intros k' Hk'. destruct (has_key k' i); [done|by apply Ho].
Qed.

Lemma del_node_spec k b : b <> [] -> Forall item_ok b -> keys_ok (length k) b -> List.find (has_key k) b <> None ->
  exists b', _ht_del_node b (Some k) = Ret (0, b') /\ b' <> [] /\ Forall item_ok b' /\ List.find (has_key k) b' = None
  /\ forall k', k' <> k -> List.find (has_key k') b' = List.find (has_key k') b.
Proof.
  intros Hne Hok Hk Hf. destruct b as [|root chain]; [done|]. pose proof (del_chain_spec k (root :: chain) Hok Hk) as Hall.
  cbn [_ht_del_node del_chain] in *. apply Forall_cons in Hok as [Hr Hok]. destruct Hk as [Hlen Hnd]. apply Forall_cons in Hlen as [Hlr Hlen].
  rewrite del_test_spec in * by done. cbn [mbind outcome_bind] in *. destruct (has_key k root) eqn:Hh.
  - destruct Hall as (r & b' & [= <- <-] & _ & Hfk & _ & Ho). eexists. split; [reflexivity|]. split; [done|].
    split; [by constructor|]. split; [done|]. intros k' Hk'. cbn [List.find]. unfold has_key at 1. cbn [key]. by apply Ho.
  - destruct (del_chain (Some k) chain) as [[r0 rest]| |]; [|by destruct Hall as (? & ? & ? & _)..].
    cbn [mbind outcome_bind] in *. destruct Hall as (r & b' & [= <- <-] & Hr0 & Hfk & Hok' & Ho). rewrite (Hr0 Hf).
    eexists. split; [reflexivity|]. by split.
Qed.

(** With keys of one length, deleting a key that is present removes it and
    no other key. *)
Theorem del_removes_key h k : table_ok h -> Forall (keys_ok (length k)) (item h) -> k <> [] -> ht_lookup (Some h) (Some k) <> None ->
  exists h', ht_del (Some h) (Some k) = Ret (0, Some h') /\ table_ok h' /\ ht_lookup (Some h') (Some k) = None
  /\ forall k', k' <> [] -> k' <> k -> ht_lookup (Some h') (Some k') = ht_lookup (Some h) (Some k').
Proof.
  intros Hok Hks Hk Hf. destruct (bucket_in h k Hok) as (b & Hb & Hbb & Hne & Hib).
  rewrite lookup_bucket, Hbb in Hf by done. pose proof (Forall_lookup_1 _ _ _ _ Hks Hb) as Hkb.
  destruct (del_node_spec k b Hne Hib Hkb Hf) as (b' & Hd & Hne' & Hok' & Hfk & Ho).
  unfold ht_del, _ht_find. destruct k as [|x k]; [done|]. set (kk := x :: k) in *.
  replace (Z.of_nat (length kk) <=? 0) with false by (symmetry; apply Z.leb_gt; simpl; lia).
  rewrite Hbb, Hd. cbn [mbind outcome_bind]. eexists. split; [reflexivity|]. split; [by apply set_bucket_ok|]. split.
  - by rewrite (set_bucket_lookup _ _ _ _ _ Hb), decide_True, Hfk by done.
  - intros k' Hk' Hne2. rewrite (set_bucket_lookup _ _ _ _ _ Hb) by done. case_decide as He; [|done].
    rewrite lookup_bucket, He, Hbb by done. by apply Ho.
Qed.

(** ** What goes wrong *)

(** Updating a key that sits in the chain leaves its own value uninitialised
    and overwrites the value of the item before it. *)
Theorem update_chained_corrupts junk b j k v prev i vp : position k b = Some (S j) -> b !! j = Some prev -> b !! S j = Some i ->
  (exists root chain, b = root :: chain /\ key root <> None) -> val prev = Some vp -> (length v <= length vp)%nat ->
  exists b' p' i', add_to_bucket (fun _ => true) junk b k v = Ret (0, b')
  /\ b' !! j = Some p' /\ key p' = key prev /\ val p' = Some (v ++ drop (length v) vp)
  /\ b' !! S j = Some i' /\ key i' = key i /\ val i' = Some (replicate (length v) junk).
Proof.
  intros Hp Hj Hi (root & chain & -> & Hr) Hv Hl. unfold add_to_bucket. destruct (key root); [|done]. rewrite Hp.
  unfold update_at. rewrite Hi. cbn [of_option mbind outcome_bind]. replace (S j - 1)%nat with j by lia.
  rewrite list_lookup_insert_ne, Hj by lia. cbn [of_option mbind outcome_bind]. rewrite Hv. unfold write_block.
  destruct (Nat.ltb_spec (length vp) (length v)); [lia|]. cbn [mbind outcome_bind].
  pose proof (lookup_lt_Some _ _ _ Hi) as Hlt. eexists _, _, _. split; [reflexivity|].
  rewrite list_lookup_insert_eq by (rewrite length_insert; lia). split; [done|]. split; [done|]. split; [done|].
  rewrite list_lookup_insert_ne, list_lookup_insert_eq by (done || lia). done.
Qed.

(** A table of one bucket with the keys 1 and 2. *)
Definition two_keys : ht_t := mk_ht 1 [[stored [1] [10]; stored [2] [20]]].

(** After the root was deleted a chained key is added a second time instead of
    updated; deleting it brings its old value back. *)
Theorem deleted_value_returns :
  exists h1 h2 h3, ht_del (Some two_keys) (Some [1]) = Ret (0, Some h1)
  /\ ht_add (fun _ => true) 0 (Some h1) (Some [2]) (Some [21]) = Ret (0, Some h2)
  /\ ht_del (Some h2) (Some [2]) = Ret (0, Some h3)
  /\ ht_find (Some h3) (Some [2]) None = Ret (Some [20], None).
Proof. eexists _, _, _. split; [vm_compute; reflexivity|]. repeat split; vm_compute; reflexivity. Qed.

(** Deletion compares bytes without lengths: deleting 1 deletes the key 1 2. *)
Theorem delete_takes_longer_key :
  exists h1, ht_del (Some (mk_ht 1 [[stored [1; 2] [10]]])) (Some [1]) = Ret (0, Some h1)
  /\ ht_find (Some h1) (Some [1; 2]) None = Ret (None, None).
Proof. eexists. split; vm_compute; reflexivity. Qed.

(** A traversal skips the chain of a bucket whose root was deleted. *)
Theorem traverse_skips_chain :
  exists h1, ht_del (Some two_keys) (Some [1]) = Ret (0, Some h1)
  /\ ht_find (Some h1) (Some [2]) None = Ret (Some [20], None)
  /\ ht_traverse (Some h1) (Some (fun i c => (0, i :: c))) [] = (0, []).
Proof. eexists. split; [vm_compute; reflexivity|]. split; vm_compute; reflexivity. Qed.

(** ** A concrete table *)

Lemma two_keys_ok : table_ok two_keys.
Proof.
  constructor; simpl; [lia|done|]. constructor; [|constructor]. split; [discriminate|].
  constructor; [apply stored_ok|constructor; [apply stored_ok|constructor]].
Defined.

Lemma add_new_key_witness :
  exists h', ht_add (fun _ => true) 0 (Some two_keys) (Some [3]) (Some [30; 31]) = Ret (0, Some h')
  /\ ht_find (Some h') (Some [3]) (Some 8) = Ret (Some [30; 31], Some ([30; 31], 2)).
Proof.
  destruct (add_new_key 0 two_keys [3] [30; 31] 8 two_keys_ok) as (h' & Ha & _ & Hf & _);
    [discriminate|discriminate|vm_compute; reflexivity|simpl; lia|]. exists h'. split; [exact Ha|exact Hf].
Defined.

Lemma del_removes_key_witness :
  exists h', ht_del (Some two_keys) (Some [2]) = Ret (0, Some h') /\ ht_lookup (Some h') (Some [2]) = None.
Proof.
  destruct (del_removes_key two_keys [2] two_keys_ok) as (h' & Hd & _ & Hf & _).
  - constructor; [|constructor]. split.
    + constructor; [intros k [= <-]; reflexivity|constructor; [intros k [= <-]; reflexivity|constructor]].
    + simpl. apply NoDup_cons. split; [|apply NoDup_singleton]. rewrite list_elem_of_singleton. discriminate.
  - discriminate.
  - vm_compute. discriminate.
  - exists h'. split; [exact Hd|exact Hf].
Defined.

End HashTable.
