(* ===== verification/Crc.v ===== *)
(** * Checksums (utility/crc and utility/crc32)

    The 21 functions of qm_crc.c and both build variants of qm_utils_crc32
    (bitwise, and table-driven under FAST_CRC32).  The specification is the usual
    parametrised CRC: a shift register that is fed the bits of the message, whose
    parameters are the ones written in the comment above each function, and the
    register is related to division of polynomials over GF(2). *)

From S2P Require Import Prelude Outcome.
Import list_relations.list list_basics.list.

Module Crc.

(** ** The functions *)

(** [while (length--)] over the bytes [*data++]. *)
Fixpoint read_bytes (f : Z -> Z -> Z) (n : nat) (data : list Z) (crc : Z) : outcome Z :=
  match n, data with
  | O, _ => Ret crc
  | S n, b :: data => read_bytes f n data (f crc b)
  | S _, [] => OutOfBounds
  end.

Definition while_length (f : Z -> Z -> Z) (length : Z) : list Z -> Z -> outcome Z :=
  read_bytes f (Z.to_nat length).

(** The inner loop over the bits of a byte. *)
Definition for8 (f : Z -> Z) (crc : Z) : Z := Nat.iter 8 f crc.

Definition lsb_step (poly crc : Z) : Z :=
  if negb (Z.land crc 1 =? 0) then Z.lxor (Z.shiftr crc 1) poly else Z.shiftr crc 1.

(** [cast] is the conversion to the type of [crc]. *)
Definition msb_step (cast : Z -> Z) (top poly crc : Z) : Z :=
  if negb (Z.land crc top =? 0) then cast (Z.lxor (Z.shiftl crc 1) poly) else cast (Z.shiftl crc 1).

Definition qm_crc4_itu (data : list Z) (length : Z) : outcome Z :=
  crc ← while_length (fun crc b => for8 (lsb_step 0x0C) (Z.lxor crc b)) (u16 length) data 0;
  Ret crc.

Definition qm_crc5_epc (data : list Z) (length : Z) : outcome Z :=
  crc ← while_length (fun crc b => for8 (msb_step u8 0x80 0x48) (Z.lxor crc b)) (u16 length) data 0x48;
  Ret (Z.shiftr crc 3).

Definition qm_crc5_itu (data : list Z) (length : Z) : outcome Z :=
  crc ← while_length (fun crc b => for8 (lsb_step 0x15) (Z.lxor crc b)) (u16 length) data 0;
  Ret crc.

Definition qm_crc5_usb (data : list Z) (length : Z) : outcome Z :=
  crc ← while_length (fun crc b => for8 (lsb_step 0x14) (Z.lxor crc b)) (u16 length) data 0x1F;
  Ret (Z.lxor crc 0x1F).

Definition qm_crc6_itu (data : list Z) (length : Z) : outcome Z :=
  crc ← while_length (fun crc b => for8 (lsb_step 0x30) (Z.lxor crc b)) (u16 length) data 0;
  Ret crc.

Definition qm_crc7_mmc (data : list Z) (length : Z) : outcome Z :=
  crc ← while_length (fun crc b => for8 (msb_step u8 0x80 0x12) (Z.lxor crc b)) (u16 length) data 0;
  Ret (Z.shiftr crc 1).

Definition qm_crc8 (data : list Z) (length : Z) : outcome Z :=
  crc ← while_length (fun crc b => for8 (msb_step u8 0x80 0x07) (Z.lxor crc b)) (u16 length) data 0;
  Ret crc.

Definition qm_crc8_itu (data : list Z) (length : Z) : outcome Z :=
  crc ← while_length (fun crc b => for8 (msb_step u8 0x80 0x07) (Z.lxor crc b)) (u16 length) data 0;
  Ret (Z.lxor crc 0x55).

Definition qm_crc8_rohc (data : list Z) (length : Z) : outcome Z :=
  crc ← while_length (fun crc b => for8 (lsb_step 0xE0) (Z.lxor crc b)) (u16 length) data 0xFF;
  Ret crc.

Definition qm_crc8_maxim (data : list Z) (length : Z) : outcome Z :=
  crc ← while_length (fun crc b => for8 (lsb_step 0x8C) (Z.lxor crc b)) (u16 length) data 0;
  Ret crc.

Definition qm_crc16_ibm (data : list Z) (length : Z) : outcome Z :=
  crc ← while_length (fun crc b => for8 (lsb_step 0xA001) (Z.lxor crc b)) (u16 length) data 0;
  Ret crc.

Definition qm_crc16_maxim (data : list Z) (length : Z) : outcome Z :=
  crc ← while_length (fun crc b => for8 (lsb_step 0xA001) (Z.lxor crc b)) (u16 length) data 0;
  Ret (u16 (Z.lnot crc)).

Definition qm_crc16_usb (data : list Z) (length : Z) : outcome Z :=
  crc ← while_length (fun crc b => for8 (lsb_step 0xA001) (Z.lxor crc b)) (u16 length) data 0xffff;
  Ret (u16 (Z.lnot crc)).

Definition qm_crc16_modbus (data : list Z) (length : Z) : outcome Z :=
  crc ← while_length (fun crc b => for8 (lsb_step 0xA001) (Z.lxor crc b)) (u16 length) data 0xffff;
  Ret crc.

Definition qm_crc16_ccitt (data : list Z) (length : Z) : outcome Z :=
  crc ← while_length (fun crc b => for8 (lsb_step 0x8408) (Z.lxor crc b)) (u16 length) data 0;
  Ret crc.

Definition qm_crc16_ccitt_false (data : list Z) (length : Z) : outcome Z :=
  crc ← while_length (fun crc b => for8 (msb_step u16 0x8000 0x1021)
                      (Z.lxor crc (Z.shiftl b 8))) (u16 length) data 0xffff;
  Ret crc.

Definition qm_crc16_x25 (data : list Z) (length : Z) : outcome Z :=
  crc ← while_length (fun crc b => for8 (lsb_step 0x8408) (Z.lxor crc b)) (u16 length) data 0xffff;
  Ret (u16 (Z.lnot crc)).

Definition qm_crc16_xmodem (data : list Z) (length : Z) : outcome Z :=
  crc ← while_length (fun crc b => for8 (msb_step u16 0x8000 0x1021)
                      (Z.lxor crc (Z.shiftl b 8))) (u16 length) data 0;
  Ret crc.

Definition qm_crc16_dnp (data : list Z) (length : Z) : outcome Z :=
  crc ← while_length (fun crc b => for8 (lsb_step 0xA6BC) (Z.lxor crc b)) (u16 length) data 0;
  Ret (u16 (Z.lnot crc)).

Definition qm_ieee_crc32 (data : list Z) (length : Z) : outcome Z :=
  crc ← while_length (fun crc b => for8 (lsb_step 0xEDB88320) (Z.lxor crc b)) (u16 length) data 0xffffffff;
  Ret (u32 (Z.lnot crc)).

Definition qm_crc32_mpeg_2 (data : list Z) (length : Z) : outcome Z :=
  crc ← while_length (fun crc b => for8 (msb_step u32 0x80000000 0x04C11DB7)
                      (Z.lxor crc (Z.shiftl b 24))) (u16 length) data 0xffffffff;
  Ret crc.

(** The bitwise variant. *)
Definition qm_utils_crc32 (p_data : list Z) (size init_crc : Z) : outcome Z :=
  let crc := if init_crc =? 0 then 0xFFFFFFFF else u32 (Z.lnot init_crc) in
  crc ← while_length
          (fun crc b => for8 (fun crc => Z.lxor (Z.shiftr crc 1)
                                           (Z.land 0xEDB88320 (if negb (Z.land crc 1 =? 0) then 0xFFFFFFFF else 0)))
                             (Z.lxor crc b)) size p_data crc;
  Ret (u32 (Z.lnot crc)).

Definition crc32_tab : list Z :=
  [0x00000000; 0x77073096; 0xee0e612c; 0x990951ba; 0x076dc419; 0x706af48f;
   0xe963a535; 0x9e6495a3; 0x0edb8832; 0x79dcb8a4; 0xe0d5e91e; 0x97d2d988;
   0x09b64c2b; 0x7eb17cbd; 0xe7b82d07; 0x90bf1d91; 0x1db71064; 0x6ab020f2;
   0xf3b97148; 0x84be41de; 0x1adad47d; 0x6ddde4eb; 0xf4d4b551; 0x83d385c7;
   0x136c9856; 0x646ba8c0; 0xfd62f97a; 0x8a65c9ec; 0x14015c4f; 0x63066cd9;
   0xfa0f3d63; 0x8d080df5; 0x3b6e20c8; 0x4c69105e; 0xd56041e4; 0xa2677172;
   0x3c03e4d1; 0x4b04d447; 0xd20d85fd; 0xa50ab56b; 0x35b5a8fa; 0x42b2986c;
   0xdbbbc9d6; 0xacbcf940; 0x32d86ce3; 0x45df5c75; 0xdcd60dcf; 0xabd13d59;
   0x26d930ac; 0x51de003a; 0xc8d75180; 0xbfd06116; 0x21b4f4b5; 0x56b3c423;
   0xcfba9599; 0xb8bda50f; 0x2802b89e; 0x5f058808; 0xc60cd9b2; 0xb10be924;
   0x2f6f7c87; 0x58684c11; 0xc1611dab; 0xb6662d3d; 0x76dc4190; 0x01db7106;
   0x98d220bc; 0xefd5102a; 0x71b18589; 0x06b6b51f; 0x9fbfe4a5; 0xe8b8d433;
   0x7807c9a2; 0x0f00f934; 0x9609a88e; 0xe10e9818; 0x7f6a0dbb; 0x086d3d2d;
   0x91646c97; 0xe6635c01; 0x6b6b51f4; 0x1c6c6162; 0x856530d8; 0xf262004e;
   0x6c0695ed; 0x1b01a57b; 0x8208f4c1; 0xf50fc457; 0x65b0d9c6; 0x12b7e950;
   0x8bbeb8ea; 0xfcb9887c; 0x62dd1ddf; 0x15da2d49; 0x8cd37cf3; 0xfbd44c65;
   0x4db26158; 0x3ab551ce; 0xa3bc0074; 0xd4bb30e2; 0x4adfa541; 0x3dd895d7;
   0xa4d1c46d; 0xd3d6f4fb; 0x4369e96a; 0x346ed9fc; 0xad678846; 0xda60b8d0;
   0x44042d73; 0x33031de5; 0xaa0a4c5f; 0xdd0d7cc9; 0x5005713c; 0x270241aa;
   0xbe0b1010; 0xc90c2086; 0x5768b525; 0x206f85b3; 0xb966d409; 0xce61e49f;
   0x5edef90e; 0x29d9c998; 0xb0d09822; 0xc7d7a8b4; 0x59b33d17; 0x2eb40d81;
   0xb7bd5c3b; 0xc0ba6cad; 0xedb88320; 0x9abfb3b6; 0x03b6e20c; 0x74b1d29a;
   0xead54739; 0x9dd277af; 0x04db2615; 0x73dc1683; 0xe3630b12; 0x94643b84;
   0x0d6d6a3e; 0x7a6a5aa8; 0xe40ecf0b; 0x9309ff9d; 0x0a00ae27; 0x7d079eb1;
   0xf00f9344; 0x8708a3d2; 0x1e01f268; 0x6906c2fe; 0xf762575d; 0x806567cb;
   0x196c3671; 0x6e6b06e7; 0xfed41b76; 0x89d32be0; 0x10da7a5a; 0x67dd4acc;
   0xf9b9df6f; 0x8ebeeff9; 0x17b7be43; 0x60b08ed5; 0xd6d6a3e8; 0xa1d1937e;
   0x38d8c2c4; 0x4fdff252; 0xd1bb67f1; 0xa6bc5767; 0x3fb506dd; 0x48b2364b;
   0xd80d2bda; 0xaf0a1b4c; 0x36034af6; 0x41047a60; 0xdf60efc3; 0xa867df55;
   0x316e8eef; 0x4669be79; 0xcb61b38c; 0xbc66831a; 0x256fd2a0; 0x5268e236;
   0xcc0c7795; 0xbb0b4703; 0x220216b9; 0x5505262f; 0xc5ba3bbe; 0xb2bd0b28;
   0x2bb45a92; 0x5cb36a04; 0xc2d7ffa7; 0xb5d0cf31; 0x2cd99e8b; 0x5bdeae1d;
   0x9b64c2b0; 0xec63f226; 0x756aa39c; 0x026d930a; 0x9c0906a9; 0xeb0e363f;
   0x72076785; 0x05005713; 0x95bf4a82; 0xe2b87a14; 0x7bb12bae; 0x0cb61b38;
   0x92d28e9b; 0xe5d5be0d; 0x7cdcefb7; 0x0bdbdf21; 0x86d3d2d4; 0xf1d4e242;
   0x68ddb3f8; 0x1fda836e; 0x81be16cd; 0xf6b9265b; 0x6fb077e1; 0x18b74777;
   0x88085ae6; 0xff0f6a70; 0x66063bca; 0x11010b5c; 0x8f659eff; 0xf862ae69;
   0x616bffd3; 0x166ccf45; 0xa00ae278; 0xd70dd2ee; 0x4e048354; 0x3903b3c2;
   0xa7672661; 0xd06016f7; 0x4969474d; 0x3e6e77db; 0xaed16a4a; 0xd9d65adc;
   0x40df0b66; 0x37d83bf0; 0xa9bcae53; 0xdebb9ec5; 0x47b2cf7f; 0x30b5ffe9;
   0xbdbdf21c; 0xcabac28a; 0x53b39330; 0x24b4a3a6; 0xbad03605; 0xcdd70693;
   0x54de5729; 0x23d967bf; 0xb3667a2e; 0xc4614ab8; 0x5d681b02; 0x2a6f2b94;
   0xb40bbe37; 0xc30c8ea1; 0x5a05df1b; 0x2d02ef8d].

(** The table-driven variant (FAST_CRC32). *)
Definition qm_utils_crc32_fast (buf : list Z) (size init_value : Z) : outcome Z :=
  let init_value := Z.lxor init_value (u32 (Z.lnot 0)) in
  init_value ← while_length
    (fun v b => Z.lxor (default 0 (crc32_tab !! Z.to_nat (Z.land (Z.lxor v b) 0xFF))) (Z.shiftr v 8))
    size buf init_value;
  Ret (Z.lxor init_value (u32 (Z.lnot 0))).

(** ** Specification *)

Record crc_params := mk_params {
  width : Z; poly : Z; init : Z; refin : bool; refout : bool; xorout : Z
}.

(** One bit enters the register at its top. *)
Definition bit_step (w P r : Z) (b : bool) : Z :=
  Z.lxor (Z.shiftl r 1 mod 2 ^ w) (if xorb (Z.testbit r (w - 1)) b then P else 0).

Fixpoint bits_msb (n : nat) (x : Z) : list bool :=
  match n with O => [] | S n => Z.testbit x (Z.of_nat n) :: bits_msb n x end.

Fixpoint bits_lsb (n : nat) (x : Z) : list bool :=
  match n with O => [] | S n => Z.testbit x 0 :: bits_lsb n (Z.shiftr x 1) end.

Definition message_bits (refin : bool) (data : list Z) : list bool :=
  concat ((fun b => if refin then bits_lsb 8 b else bits_msb 8 b) <$> data).

(** The [w] low bits in reverse order. *)
Fixpoint bitrev (w : nat) (x : Z) : Z :=
  match w with
  | O => 0
  | S w => Z.lor (Z.shiftl (Z.b2z (Z.testbit x 0)) (Z.of_nat w)) (bitrev w (Z.shiftr x 1))
  end.

Definition register (p : crc_params) (data : list Z) : Z :=
  foldl (bit_step (width p) (poly p)) (init p) (message_bits (refin p) data).

Definition crc_spec (p : crc_params) (data : list Z) : Z :=
  Z.lxor (if refout p then bitrev (Z.to_nat (width p)) (register p data) else register p data) (xorout p).

Definition CRC_4_ITU : crc_params := mk_params 4 0x03 0x00 true true 0x00.
Definition CRC_5_EPC : crc_params := mk_params 5 0x09 0x09 false false 0x00.
Definition CRC_5_ITU : crc_params := mk_params 5 0x15 0x00 true true 0x00.
Definition CRC_5_USB : crc_params := mk_params 5 0x05 0x1F true true 0x1F.
Definition CRC_6_ITU : crc_params := mk_params 6 0x03 0x00 true true 0x00.
Definition CRC_7_MMC : crc_params := mk_params 7 0x09 0x00 false false 0x00.
Definition CRC_8 : crc_params := mk_params 8 0x07 0x00 false false 0x00.
Definition CRC_8_ITU : crc_params := mk_params 8 0x07 0x00 false false 0x55.
Definition CRC_8_ROHC : crc_params := mk_params 8 0x07 0xFF true true 0x00.
Definition CRC_8_MAXIM : crc_params := mk_params 8 0x31 0x00 true true 0x00.
Definition CRC_16_IBM : crc_params := mk_params 16 0x8005 0x0000 true true 0x0000.
Definition CRC_16_MAXIM : crc_params := mk_params 16 0x8005 0x0000 true true 0xFFFF.
Definition CRC_16_USB : crc_params := mk_params 16 0x8005 0xFFFF true true 0xFFFF.
Definition CRC_16_MODBUS : crc_params := mk_params 16 0x8005 0xFFFF true true 0x0000.
Definition CRC_16_CCITT : crc_params := mk_params 16 0x1021 0x0000 true true 0x0000.
Definition CRC_16_CCITT_FALSE : crc_params := mk_params 16 0x1021 0xFFFF false false 0x0000.
Definition CRC_16_X25 : crc_params := mk_params 16 0x1021 0xFFFF true true 0xFFFF.
Definition CRC_16_XMODEM : crc_params := mk_params 16 0x1021 0x0000 false false 0x0000.
Definition CRC_16_DNP : crc_params := mk_params 16 0x3D65 0x0000 true true 0xFFFF.
Definition CRC_32 : crc_params := mk_params 32 0x04C11DB7 0xFFFFFFFF true true 0xFFFFFFFF.
Definition CRC_32_MPEG_2 : crc_params := mk_params 32 0x04C11DB7 0xFFFFFFFF false false 0x00000000.

(** Every function of qm_crc.c with the parameters of its comment; the comments
    of the two 32-bit functions write seven digits where eight are meant. *)
Definition crc_table : list ((list Z -> Z -> outcome Z) * crc_params) :=
  [(qm_crc4_itu, CRC_4_ITU);
   (qm_crc5_epc, CRC_5_EPC);
   (qm_crc5_itu, CRC_5_ITU);
   (qm_crc5_usb, CRC_5_USB);
   (qm_crc6_itu, CRC_6_ITU);
   (qm_crc7_mmc, CRC_7_MMC);
   (qm_crc8, CRC_8);
   (qm_crc8_itu, CRC_8_ITU);
   (qm_crc8_rohc, CRC_8_ROHC);
   (qm_crc8_maxim, CRC_8_MAXIM);
   (qm_crc16_ibm, CRC_16_IBM);
   (qm_crc16_maxim, CRC_16_MAXIM);
   (qm_crc16_usb, CRC_16_USB);
   (qm_crc16_modbus, CRC_16_MODBUS);
   (qm_crc16_ccitt, CRC_16_CCITT);
   (qm_crc16_ccitt_false, CRC_16_CCITT_FALSE);
   (qm_crc16_x25, CRC_16_X25);
   (qm_crc16_xmodem, CRC_16_XMODEM);
   (qm_crc16_dnp, CRC_16_DNP);
   (qm_ieee_crc32, CRC_32);
   (qm_crc32_mpeg_2, CRC_32_MPEG_2)].

(** ** Bits of the registers *)

(** Evaluate the comparisons that arithmetic settles. *)
Ltac bdec := repeat match goal with
  | |- context [bool_decide ?P] => (rewrite (bool_decide_true P) by lia) || (rewrite (bool_decide_false P) by lia)
  end; cbn [andb orb].

Lemma shiftl_b2z_testbit b n i : 0 <= n -> 0 <= i -> Z.testbit (Z.shiftl (Z.b2z b) n) i = bool_decide (i = n) && b.
Proof.
  intros Hn Hi. rewrite Z.shiftl_spec by done. case_bool_decide as Hin; cbn [andb].
  - subst. replace (n - n) with 0 by lia. apply Z.b2z_bit0.
  - destruct (decide (i < n)); [apply Z.testbit_neg_r; lia|].
    apply (testbit_above 1); [lia|by destruct b|lia].
Qed.

Lemma lxor_split_top n x :
  0 <= n -> 0 <= x < 2 ^ (n + 1) -> x = Z.lxor (Z.shiftl (Z.b2z (Z.testbit x n)) n) (x mod 2 ^ n).
Proof.
  intros Hn Hx. apply Z.bits_inj'. intros i Hi.
  rewrite Z.lxor_spec, shiftl_b2z_testbit by lia. case_bool_decide as Hin; cbn [andb].
  - subst. rewrite Z.mod_pow2_bits_high by lia. by rewrite xorb_false_r.
  - rewrite xorb_false_l. destruct (decide (i < n)); [by rewrite Z.mod_pow2_bits_low by lia|].
    rewrite Z.mod_pow2_bits_high by lia. apply (testbit_above (n + 1)); lia.
Qed.

Lemma lxor_split_bottom x : x = Z.lxor (Z.b2z (Z.testbit x 0)) (Z.shiftl (Z.shiftr x 1) 1).
Proof.
  apply Z.bits_inj'. intros i Hi. rewrite Z.lxor_spec, Z.shiftl_spec by lia.
  destruct (decide (i = 0)) as [->|].
  - rewrite Z.b2z_bit0, (Z.testbit_neg_r _ (0 - 1)) by lia. by rewrite xorb_false_r.
  - rewrite Z.shiftr_spec by lia. replace (i - 1 + 1) with i by lia.
    rewrite (testbit_above 1 (Z.b2z _)); [by rewrite xorb_false_l|lia|by destruct (Z.testbit x 0)|lia].
Qed.

(** *** Shifting to the left *)

Lemma bits_msb_mod n k x : (n <= k)%nat -> bits_msb n (x mod 2 ^ Z.of_nat k) = bits_msb n x.
Proof.
  induction n as [|n IH]; intros Hk; [done|]. cbn [bits_msb].
  rewrite Z.mod_pow2_bits_low, IH by lia. done.
Qed.

Section left.
Context (w P : Z) (Hw : 0 < w) (HP : 0 <= P < 2 ^ w).

Lemma bit_step_testbit r b i :
  0 <= i -> Z.testbit (bit_step w P r b) i =
  xorb (bool_decide (i < w) && (bool_decide (0 < i) && Z.testbit r (i - 1)))
       (xorb (Z.testbit r (w - 1)) b && Z.testbit P i).
Proof using Hw.
  intros Hi. unfold bit_step. rewrite Z.lxor_spec. f_equal.
  - case_bool_decide; cbn [andb].
    + rewrite Z.mod_pow2_bits_low, Z.shiftl_spec by lia.
      case_bool_decide; cbn [andb]; [done|]. apply Z.testbit_neg_r. lia.
    + rewrite Z.mod_pow2_bits_high; [done|lia].
  - destruct (xorb _ b); cbn [andb]; [done|apply Z.testbit_0_l].
Qed.

Lemma bit_step_below r b : 0 <= bit_step w P r b < 2 ^ w.
Proof using Hw HP.
  unfold bit_step. apply lxor_below; [lia|apply Z.mod_pos_bound; lia|].
  destruct (xorb _ _); lia.
Qed.

(** Flipping the top bit is the same as flipping the incoming bit, and the part
    of the register below it is only shifted. *)
Lemma bit_step_lxor r c y b :
  0 <= y < 2 ^ (w - 1) ->
  bit_step w P (Z.lxor (Z.lxor r (Z.shiftl (Z.b2z c) (w - 1))) y) b =
  Z.lxor (bit_step w P r (xorb b c)) (Z.shiftl y 1).
Proof using Hw.
  intros Hy. apply Z.bits_inj'. intros i Hi.
  assert (Z.testbit y (w - 1) = false) as Htop by (apply (testbit_above (w - 1)); lia).
  rewrite Z.lxor_spec, !bit_step_testbit, !Z.lxor_spec, (Z.shiftl_spec y), Htop, xorb_false_r by lia.
  rewrite (shiftl_b2z_testbit c (w - 1) (w - 1)), (bool_decide_true (w - 1 = w - 1)) by lia. cbn [andb].
  destruct (decide (0 < i)); [|rewrite (Z.testbit_neg_r y), (bool_decide_false (0 < i)), andb_false_r by lia].
  - rewrite shiftl_b2z_testbit by lia. rewrite (bool_decide_true (0 < i)) by done. cbn [andb].
    destruct (decide (i < w)); [rewrite (bool_decide_true (i < w)) by done|rewrite (bool_decide_false (i < w)) by done]; cbn [andb].
    + rewrite (bool_decide_false (i - 1 = w - 1)) by lia. cbn [andb].
      by destruct (Z.testbit r (i - 1)), (Z.testbit y (i - 1)), (Z.testbit r (w - 1)), c, b, (Z.testbit P i).
    + rewrite (testbit_above (w - 1) y), xorb_false_r by lia.
      by destruct (Z.testbit r (w - 1)), c, b, (Z.testbit P i).
  - cbn [andb]. rewrite !andb_false_r, !xorb_false_l, xorb_false_r. by destruct (Z.testbit r (w - 1)), c, b, (Z.testbit P i).
Qed.

(** Feeding [n] bits one by one is adding them to the top of the register and
    shifting [n] times. *)
Lemma feed_msb n x r :
  Z.of_nat n <= w -> 0 <= x < 2 ^ Z.of_nat n ->
  Nat.iter n (fun r => bit_step w P r false) (Z.lxor r (Z.shiftl x (w - Z.of_nat n))) =
  foldl (bit_step w P) r (bits_msb n x).
Proof using Hw.
  revert x r. induction n as [|n IH]; intros x r Hn Hx.
  { replace x with 0 by (cbn in Hx; lia). by rewrite Z.shiftl_0_l, Z.lxor_0_r. }
  rewrite Nat.iter_succ_r. cbn [bits_msb foldl].
  rewrite (lxor_split_top (Z.of_nat n) x) at 1 by (rewrite Nat2Z.inj_succ in Hx; lia).
  rewrite Z.shiftl_lxor, Z.shiftl_shiftl by lia.
  replace (Z.of_nat n + (w - Z.of_nat (S n))) with (w - 1) by lia.
  rewrite <- Z.lxor_assoc, bit_step_lxor.
  - rewrite Z.shiftl_shiftl by lia. replace (w - Z.of_nat (S n) + 1) with (w - Z.of_nat n) by lia.
    rewrite IH, bits_msb_mod, xorb_false_l by (try apply Z.mod_pos_bound; lia). done.
  - rewrite Z.shiftl_mul_pow2 by lia. pose proof (Z.mod_pos_bound x (2 ^ Z.of_nat n) ltac:(lia)).
    replace (w - 1) with (Z.of_nat n + (w - Z.of_nat (S n))) by lia. rewrite Z.pow_add_r by lia. nia.
Qed.

(** The same register kept in the upper bits of a wider variable. *)
Lemma bit_step_shifted s r b :
  0 <= s -> 0 <= r < 2 ^ w ->
  bit_step (w + s) (Z.shiftl P s) (Z.shiftl r s) b = Z.shiftl (bit_step w P r b) s.
Proof using Hw.
  intros Hs Hr. unfold bit_step. rewrite Z.shiftl_lxor, Z.shiftl_spec by lia.
  replace (w + s - 1 - s) with (w - 1) by lia. f_equal.
  - rewrite !Z.shiftl_mul_pow2 by lia. rewrite Z.pow_add_r by lia.
    replace (r * 2 ^ s * 2 ^ 1) with (r * 2 ^ 1 * 2 ^ s) by lia. rewrite Zmult_mod_distr_r. done.
  - destruct (xorb _ b); [done|by rewrite Z.shiftl_0_l].
Qed.

End left.

(** *** Shifting to the right *)

Lemma lsb_step_alt Q r : lsb_step Q r = Z.lxor (Z.shiftr r 1) (if Z.testbit r 0 then Q else 0).
Proof.
  unfold lsb_step. 
  assert (Z.land r 1 = Z.b2z (Z.testbit r 0)) as ->.
  { change 1 with (Z.ones 1). rewrite Z.land_ones by lia. rewrite Z.bit0_mod. done. }
  destruct (Z.testbit r 0); cbn; [done|by rewrite Z.lxor_0_r].
Qed.

Lemma lsb_step_lxor Q r y : lsb_step Q (Z.lxor r (Z.shiftl y 1)) = Z.lxor (lsb_step Q r) y.
Proof.
  rewrite !lsb_step_alt, Z.shiftr_lxor, Z.lxor_spec, Z.shiftl_spec, (Z.testbit_neg_r y), xorb_false_r by lia.
  rewrite Z.shiftr_shiftl_l by lia. change (1 - 1) with 0. rewrite Z.shiftl_0_r.
  rewrite !Z.lxor_assoc. f_equal. apply Z.lxor_comm.
Qed.

Definition lsb_bit (Q r : Z) (b : bool) : Z := lsb_step Q (Z.lxor r (Z.b2z b)).

Lemma feed_lsb Q n x r :
  Nat.iter n (lsb_step Q) (Z.lxor r x) = Z.lxor (foldl (lsb_bit Q) r (bits_lsb n x)) (Z.shiftr x (Z.of_nat n)).
Proof.
  revert x r. induction n as [|n IH]; intros x r; [by rewrite Z.shiftr_0_r|].
  rewrite Nat.iter_succ_r. cbn [bits_lsb foldl]. rewrite (lxor_split_bottom x) at 1.
  rewrite <- Z.lxor_assoc, lsb_step_lxor, IH, Z.shiftr_shiftr by lia. fold (lsb_bit Q r (Z.testbit x 0)).
  do 2 f_equal. lia.
Qed.

Lemma bitrev_nonneg n x : 0 <= bitrev n x.
Proof.
  revert x. induction n as [|n IH]; intros x; [done|]. cbn [bitrev].
  apply Z.lor_nonneg. split; [|apply IH]. apply Z.shiftl_nonneg. by destruct (Z.testbit x 0).
Qed.

Lemma bitrev_testbit n x i :
  0 <= i -> Z.testbit (bitrev n x) i = bool_decide (i < Z.of_nat n) && Z.testbit x (Z.of_nat n - 1 - i).
Proof.
  revert x. induction n as [|n IH]; intros x Hi.
  { cbn [bitrev]. rewrite Z.testbit_0_l, bool_decide_false by lia. done. }
  cbn [bitrev]. rewrite Z.lor_spec, shiftl_b2z_testbit, IH by lia.
  destruct (decide (i < Z.of_nat n)); [|destruct (decide (i = Z.of_nat n))]; bdec.
  - rewrite Z.shiftr_spec by lia. f_equal. lia.
  - rewrite orb_false_r. f_equal. lia.
  - done.
Qed.

Lemma bitrev_below n x : 0 <= bitrev n x < 2 ^ Z.of_nat n.
Proof.
  apply below_of_testbit; [lia|apply bitrev_nonneg|]. intros i Hi.
  rewrite bitrev_testbit, bool_decide_false by lia. done.
Qed.

Lemma bitrev_lxor n x y : bitrev n (Z.lxor x y) = Z.lxor (bitrev n x) (bitrev n y).
Proof.
  apply Z.bits_inj'. intros i Hi. rewrite Z.lxor_spec, !bitrev_testbit, Z.lxor_spec by done.
  by destruct (bool_decide _).
Qed.

(** The reflected register makes the mirror image of each step. *)
Lemma bitrev_bit_step n P r b :
  0 <= r < 2 ^ Z.of_nat (S n) ->
  bitrev (S n) (bit_step (Z.of_nat (S n)) P r b) = lsb_bit (bitrev (S n) P) (bitrev (S n) r) b.
Proof.
  intros Hr. unfold lsb_bit. rewrite lsb_step_alt. apply Z.bits_inj'. intros i Hi.
  rewrite bitrev_testbit by done.
  rewrite Z.lxor_spec, Z.shiftr_spec, Z.lxor_spec by lia.
  rewrite (testbit_above 1 (Z.b2z b)), xorb_false_r by (try (by destruct b); lia).
  rewrite Z.lxor_spec, !(bitrev_testbit _ r), Z.b2z_bit0 by lia.
  replace (Z.of_nat (S n) - 1 - 0) with (Z.of_nat (S n) - 1) by lia.
  destruct (decide (i < Z.of_nat (S n))).
  - rewrite bit_step_testbit by lia. destruct (decide (i + 1 < Z.of_nat (S n))); bdec; f_equal.
    + f_equal. lia.
    + destruct (xorb _ b); cbn [andb]; [|by rewrite Z.testbit_0_l]. rewrite bitrev_testbit by lia. by bdec.
    + destruct (xorb _ b); cbn [andb]; [|by rewrite Z.testbit_0_l]. rewrite bitrev_testbit by lia. by bdec.
  - bdec. destruct (xorb _ b); [|by rewrite Z.testbit_0_l]. rewrite bitrev_testbit by lia. by bdec.
Qed.
(** ** The functions feed the register *)

Lemma while_foldl f data crc : while_length f (Z.of_nat (length data)) data crc = Ret (foldl f crc data).
Proof. unfold while_length. rewrite Nat2Z.id. revert crc. induction data as [|b data IH]; intros crc; [done|apply IH]. Qed.

Lemma while_length_foldl f data crc :
  is_u16 (Z.of_nat (length data)) ->
  while_length f (u16 (Z.of_nat (length data))) data crc = Ret (foldl f crc data).
Proof. intros Hl. rewrite u16_id by done. apply while_foldl. Qed.

Lemma foldl_message_bits {A} (g : A -> bool -> A) rf r data :
  foldl g r (message_bits rf data) =
  foldl (fun r b => foldl g r (if rf then bits_lsb 8 b else bits_msb 8 b)) r data.
Proof.
  unfold message_bits. revert r. induction data as [|b data IH]; intros r; [done|].
  rewrite fmap_cons. cbn [concat foldl]. by rewrite foldl_app, IH.
Qed.

Lemma foldl_bit_step_below w P r l :
  0 < w -> 0 <= P < 2 ^ w -> 0 <= r < 2 ^ w -> 0 <= foldl (bit_step w P) r l < 2 ^ w.
Proof.
  intros Hw HP. revert r. induction l as [|b l IH]; intros r Hr; [done|]. apply IH. by apply bit_step_below.
Qed.

(** A foldl through a representation that every step respects. *)
Lemma foldl_simulation {A B C} (f : A -> C -> A) (g : B -> C -> B) (rep : B -> A) (I : B -> Prop) (ok : C -> Prop) l b :
  (forall b c, I b -> ok c -> f (rep b) c = rep (g b c) /\ I (g b c)) ->
  I b -> Forall ok l -> foldl f (rep b) l = rep (foldl g b l).
Proof.
  intros Hstep Hb Hl. revert b Hb. induction Hl as [|c l Hc Hl IH]; intros b Hb; [done|].
  cbn [foldl]. destruct (Hstep b c Hb Hc) as [-> Hg]. by apply IH.
Qed.

Lemma lsb_bits_simulation n P r l :
  0 <= P < 2 ^ Z.of_nat (S n) -> 0 <= r < 2 ^ Z.of_nat (S n) ->
  foldl (lsb_bit (bitrev (S n) P)) (bitrev (S n) r) l =
  bitrev (S n) (foldl (bit_step (Z.of_nat (S n)) P) r l).
Proof.
  intros HP Hr.
  apply (foldl_simulation _ _ (bitrev (S n)) (fun r => 0 <= r < 2 ^ Z.of_nat (S n)) (fun _ => True));
    [|done|by apply Forall_true].
  intros r' b Hr' _. rewrite bitrev_bit_step by done. split; [done|]. apply bit_step_below; [lia|done].
Qed.

Lemma lsb_fold n P r0 Q data :
  0 <= P < 2 ^ Z.of_nat (S n) -> 0 <= r0 < 2 ^ Z.of_nat (S n) -> Q = bitrev (S n) P -> Forall is_u8 data ->
  foldl (fun crc b => for8 (lsb_step Q) (Z.lxor crc b)) (bitrev (S n) r0) data =
  bitrev (S n) (foldl (bit_step (Z.of_nat (S n)) P) r0 (message_bits true data)).
Proof.
  intros HP Hr -> Hd. rewrite foldl_message_bits.
  apply (foldl_simulation _ _ (bitrev (S n)) (fun r => 0 <= r < 2 ^ Z.of_nat (S n)) is_u8); [|done|done].
  intros r b Hr' Hb. unfold for8. rewrite feed_lsb, lsb_bits_simulation by done.
  split; [|apply foldl_bit_step_below; [lia|done|done]].
  rewrite Z.shiftr_div_pow2, Z.div_small, Z.lxor_0_r by (widths; lia). done.
Qed.

Lemma lsb_loop n P r0 Q c0 data :
  0 <= P < 2 ^ Z.of_nat (S n) -> 0 <= r0 < 2 ^ Z.of_nat (S n) ->
  Q = bitrev (S n) P -> c0 = bitrev (S n) r0 -> Forall is_u8 data -> is_u16 (Z.of_nat (length data)) ->
  while_length (fun crc b => for8 (lsb_step Q) (Z.lxor crc b)) (u16 (Z.of_nat (length data))) data c0 =
  Ret (bitrev (S n) (foldl (bit_step (Z.of_nat (S n)) P) r0 (message_bits true data))).
Proof. intros HP Hr HQ -> Hd Hl. rewrite while_length_foldl by done. f_equal. by apply lsb_fold. Qed.

Lemma msb_step_bit_step cast W P r :
  0 < W -> 0 <= P < 2 ^ W -> (forall z, cast z = z mod 2 ^ W) ->
  msb_step cast (2 ^ (W - 1)) P r = bit_step W P r false.
Proof.
  intros HW HP Hcast. unfold msb_step, bit_step. rewrite xorb_false_r, !Hcast.
  assert ((Z.land r (2 ^ (W - 1)) =? 0) = negb (Z.testbit r (W - 1))) as ->.
  { assert (Z.land r (2 ^ (W - 1)) = Z.shiftl (Z.b2z (Z.testbit r (W - 1))) (W - 1)) as ->.
    { apply Z.bits_inj'. intros i Hi. rewrite Z.land_spec, shiftl_b2z_testbit, Z.pow2_bits_eqb by lia.
      destruct (Z.eqb_spec (W - 1) i) as [->|]; bdec; [by rewrite andb_true_r|by rewrite andb_false_r]. }
    destruct (Z.testbit r (W - 1)); cbn [Z.b2z negb]; [|by rewrite Z.shiftl_0_l].
    rewrite Z.shiftl_1_l. apply Z.eqb_neq. pose proof (Z.pow_pos_nonneg 2 (W - 1)). lia. }
  rewrite negb_involutive. destruct (Z.testbit r (W - 1)); [|by rewrite Z.lxor_0_r].
  apply Z.bits_inj'. intros i Hi. rewrite Z.lxor_spec. destruct (decide (i < W)).
  - by rewrite !Z.mod_pow2_bits_low, Z.lxor_spec by lia.
  - rewrite !Z.mod_pow2_bits_high by lia. by rewrite (testbit_above W P) by lia.
Qed.

Lemma iter_ext {A} (f g : A -> A) n x : (forall x, f x = g x) -> Nat.iter n f x = Nat.iter n g x.
Proof. intros Hfg. induction n as [|n IH]; simpl; [done|]. by rewrite IH, Hfg. Qed.

Lemma shiftl_below a x s : 0 <= a -> 0 <= s -> 0 <= x < 2 ^ a -> 0 <= Z.shiftl x s < 2 ^ (a + s).
Proof. intros Ha Hs Hx. rewrite Z.shiftl_mul_pow2, Z.pow_add_r by done. pose proof (Z.pow_pos_nonneg 2 s). nia. Qed.

Lemma msb_loop cast w s P r0 top P' c0 sh data :
  0 < w -> 0 <= s -> 8 <= w + s -> 0 <= P < 2 ^ w -> 0 <= r0 < 2 ^ w ->
  (forall z, cast z = z mod 2 ^ (w + s)) ->
  top = 2 ^ (w + s - 1) -> P' = Z.shiftl P s -> c0 = Z.shiftl r0 s -> sh = w + s - 8 ->
  Forall is_u8 data -> is_u16 (Z.of_nat (length data)) ->
  while_length (fun crc b => for8 (msb_step cast top P') (Z.lxor crc (Z.shiftl b sh)))
    (u16 (Z.of_nat (length data))) data c0 =
  Ret (Z.shiftl (foldl (bit_step w P) r0 (message_bits false data)) s).
Proof.
  intros Hw Hs H8 HP Hr Hcast -> -> -> -> Hd Hl. rewrite while_length_foldl, foldl_message_bits by done. f_equal.
  apply (foldl_simulation _ _ (fun r => Z.shiftl r s) (fun r => 0 <= r < 2 ^ w) is_u8); [|done|done].
  intros r b Hr' Hb. split; [|by apply foldl_bit_step_below].
  transitivity (foldl (bit_step (w + s) (Z.shiftl P s)) (Z.shiftl r s) (bits_msb 8 b)).
  - rewrite <- feed_msb; [|lia|lia|done]. apply iter_ext. intros z.
    apply msb_step_bit_step; [lia|apply shiftl_below; lia|done].
  - apply (foldl_simulation _ _ (fun r => Z.shiftl r s) (fun r => 0 <= r < 2 ^ w) (fun _ => True));
      [|done|by apply Forall_true].
    intros r' b' Hr'' _. split; [by apply bit_step_shifted|by apply bit_step_below].
Qed.

Lemma lnot_mask w x : 0 <= w -> 0 <= x < 2 ^ w -> Z.lnot x mod 2 ^ w = Z.lxor x (Z.ones w).
Proof.
  intros Hw Hx. apply Z.bits_inj'. intros i Hi. rewrite Z.lxor_spec. destruct (decide (i < w)).
  - rewrite Z.mod_pow2_bits_low, Z.lnot_spec, Z.ones_spec_low by lia. by rewrite xorb_true_r.
  - rewrite Z.mod_pow2_bits_high, Z.ones_spec_high, (testbit_above w x) by lia. done.
Qed.

Lemma bitrev_lnot16 x : u16 (Z.lnot (bitrev 16 x)) = Z.lxor (bitrev 16 x) 0xFFFF.
Proof. apply (lnot_mask 16); [lia|apply (bitrev_below 16)]. Qed.
Lemma bitrev_lnot32 x : u32 (Z.lnot (bitrev 32 x)) = Z.lxor (bitrev 32 x) 0xFFFFFFFF.
Proof. apply (lnot_mask 32); [lia|apply (bitrev_below 32)]. Qed.

Ltac crc_lsb n P r0 :=
  unfold crc_spec, register; cbn [width poly init refin refout xorout];
  rewrite (lsb_loop n P r0) by (first [done|lia|vm_compute; done]);
  cbn [mbind outcome_bind]; rewrite ?bitrev_lnot16, ?bitrev_lnot32, ?Z.lxor_0_r; reflexivity.
Ltac crc_msb cast w s P r0 sh :=
  unfold crc_spec, register; cbn [width poly init refin refout xorout];
  match goal with
  | |- context [while_length ?f ?l ?d ?c] =>
      let top := match f with context [msb_step cast ?t _] => t end in
      let Q := match f with context [msb_step cast _ ?q] => q end in
      replace (while_length f l d c) with (while_length
        (fun crc b => for8 (msb_step cast top Q) (Z.lxor crc (Z.shiftl b sh))) l d c) by reflexivity;
      rewrite (msb_loop cast w s P r0 top Q c sh) by (first [done|lia|vm_compute; done])
  end; cbn [mbind outcome_bind]; rewrite ?Z.shiftr_shiftl_l, ?Z.lxor_0_r by lia; reflexivity.
Ltac crc_case :=
  match goal with
  | |- context [mk_params ?w ?P ?r0 true _ _] =>
      let n := eval vm_compute in (Z.to_nat (w - 1)) in crc_lsb n P r0
  | |- context [msb_step u8 _ _] =>
      match goal with |- context [mk_params ?w ?P ?r0 false _ _] =>
        let s := eval vm_compute in (8 - w) in crc_msb u8 w s P r0 0 end
  | |- context [msb_step u16 _ _] =>
      match goal with |- context [mk_params ?w ?P ?r0 false _ _] => crc_msb u16 w 0 P r0 8 end
  | |- context [msb_step u32 _ _] =>
      match goal with |- context [mk_params ?w ?P ?r0 false _ _] => crc_msb u32 w 0 P r0 24 end
  end.

(** The functions compute the CRC of their parameters. *)
Lemma crc_table_spec f p data :
  (f, p) ∈ crc_table -> Forall is_u8 data -> is_u16 (Z.of_nat (length data)) ->
  f data (Z.of_nat (length data)) = Ret (crc_spec p data).
Proof.
  intros Hin Hd Hl. unfold crc_table in Hin. rewrite !elem_of_cons, elem_of_nil in Hin.
  repeat (destruct Hin as [[= -> ->]|Hin]; [
    unfold CRC_4_ITU, CRC_5_EPC, CRC_5_ITU, CRC_5_USB, CRC_6_ITU, CRC_7_MMC, CRC_8, CRC_8_ITU, CRC_8_ROHC, CRC_8_MAXIM, CRC_16_IBM,
      CRC_16_MAXIM, CRC_16_USB, CRC_16_MODBUS, CRC_16_CCITT, CRC_16_CCITT_FALSE, CRC_16_X25, CRC_16_XMODEM, CRC_16_DNP, CRC_32, CRC_32_MPEG_2;
    unfold qm_crc4_itu, qm_crc5_epc, qm_crc5_itu, qm_crc5_usb, qm_crc6_itu, qm_crc7_mmc, qm_crc8, qm_crc8_itu,
      qm_crc8_rohc, qm_crc8_maxim, qm_crc16_ibm, qm_crc16_maxim, qm_crc16_usb, qm_crc16_modbus, qm_crc16_ccitt,
      qm_crc16_ccitt_false, qm_crc16_x25, qm_crc16_xmodem, qm_crc16_dnp, qm_ieee_crc32, qm_crc32_mpeg_2; crc_case|]).
  done.
Qed.
(** ** The register is a remainder

    Bit strings are polynomials over GF(2), most significant bit first. *)

Fixpoint clmul_pos (q : positive) (g : Z) : Z :=
  match q with
  | xH => g
  | xO q => 2 * clmul_pos q g
  | xI q => Z.lxor g (2 * clmul_pos q g)
  end.

(** Product without carries. *)
Definition clmul (q g : Z) : Z := match q with Zpos q => clmul_pos q g | _ => 0 end.

Definition bits_value (l : list bool) : Z := foldl (fun v b => 2 * v + Z.b2z b) 0 l.

Lemma clmul_double q g : 0 <= q -> clmul (2 * q) g = 2 * clmul q g.
Proof. by destruct q. Qed.
Lemma clmul_succ_double q g : 0 <= q -> clmul (2 * q + 1) g = Z.lxor g (2 * clmul q g).
Proof. destruct q; [|done|done]. intros _. cbn. by rewrite Z.lxor_0_r. Qed.

Lemma lxor_double x y : 2 * Z.lxor x y = Z.lxor (2 * x) (2 * y).
Proof. replace 2 with (2 ^ 1) by done. by rewrite !(Z.mul_comm (2 ^ 1)), <- !Z.shiftl_mul_pow2, Z.shiftl_lxor by lia. Qed.

Lemma lxor_add_top w P : 0 <= w -> 0 <= P < 2 ^ w -> 2 ^ w + P = Z.lxor (2 ^ w) P.
Proof.
  intros Hw HP. apply Z.add_nocarry_lxor. apply Z.bits_inj'. intros i Hi.
  rewrite Z.land_spec, Z.pow2_bits_eqb, Z.testbit_0_l by done.
  destruct (Z.eqb_spec w i) as [->|]; [|done]. by rewrite (testbit_above i P) by lia.
Qed.

(** One step divides the register, doubled, with the incoming bit at its top. *)
Lemma bit_step_divides w P r b :
  0 < w -> 0 <= P < 2 ^ w -> 0 <= r < 2 ^ w ->
  Z.lxor (2 * r) (Z.shiftl (Z.b2z b) w) =
  Z.lxor (bit_step w P r b) (if xorb (Z.testbit r (w - 1)) b then 2 ^ w + P else 0).
Proof.
  intros Hw HP Hr. unfold bit_step. rewrite Z.lxor_assoc.
  replace (2 * r) with (Z.shiftl r 1) by (rewrite Z.shiftl_mul_pow2 by lia; lia).
  rewrite (lxor_split_top w (Z.shiftl r 1)) at 1; [|lia|apply shiftl_below; lia].
  rewrite Z.shiftl_spec by lia. rewrite (Z.lxor_comm (Z.shiftl (Z.b2z (Z.testbit r (w - 1))) w)), Z.lxor_assoc.
  f_equal. rewrite <- Z.shiftl_lxor. rewrite lxor_add_top by lia.
  destruct (Z.testbit r (w - 1)), b; cbn [xorb Z.b2z]; rewrite ?Z.lxor_0_l, ?Z.lxor_0_r, ?Z.lxor_nilpotent;
    rewrite ?Z.shiftl_0_l, ?Z.shiftl_1_l; try done.
  - by rewrite (Z.lxor_comm P), Z.lxor_assoc, Z.lxor_nilpotent, Z.lxor_0_r.
  - by rewrite (Z.lxor_comm P), Z.lxor_assoc, Z.lxor_nilpotent, Z.lxor_0_r.
Qed.

Lemma bits_value_snoc l b : bits_value (l ++ [b]) = 2 * bits_value l + Z.b2z b.
Proof. unfold bits_value. by rewrite foldl_app. Qed.

Lemma shiftl_double_add x b w :
  0 <= w -> Z.shiftl (2 * x + Z.b2z b) w = Z.lxor (2 * Z.shiftl x w) (Z.shiftl (Z.b2z b) w).
Proof.
  intros Hw. replace (2 * Z.shiftl x w) with (Z.shiftl (2 * x) w) by (rewrite !Z.shiftl_mul_pow2 by lia; lia).
  rewrite <- Z.shiftl_lxor. f_equal. destruct b; cbn [Z.b2z].
  - rewrite Z.add_nocarry_lxor; [done|]. apply Z.bits_inj'. intros i Hi.
    rewrite Z.land_spec, Z.testbit_0_l. destruct (decide (i = 0)) as [->|].
    + by rewrite Z.testbit_even_0.
    + rewrite (testbit_above 1 1) by lia. apply andb_false_r.
  - by rewrite Z.add_0_r, Z.lxor_0_r.
Qed.

Lemma register_divides w P r0 l :
  0 < w -> 0 <= P < 2 ^ w -> 0 <= r0 < 2 ^ w ->
  exists q, 0 <= q /\
    Z.lxor (Z.shiftl (bits_value l) w) (Z.shiftl r0 (Z.of_nat (length l))) =
    Z.lxor (clmul q (2 ^ w + P)) (foldl (bit_step w P) r0 l).
Proof.
  intros Hw HP Hr. induction l as [|b l IH] using rev_ind.
  { exists 0. split; [done|]. cbn [bits_value foldl length clmul]. by rewrite Z.shiftl_0_l, Z.shiftl_0_r. }
  destruct IH as (q & Hq & IH). rewrite foldl_app, bits_value_snoc, length_app. cbn [foldl length].
  pose proof (foldl_bit_step_below w P r0 l Hw HP Hr) as Hb.
  pose proof (bit_step_divides w P _ b Hw HP Hb) as Hs.
  set (r := foldl (bit_step w P) r0 l) in *.
  assert (Z.lxor (Z.shiftl (2 * bits_value l + Z.b2z b) w) (Z.shiftl r0 (Z.of_nat (length l + 1))) =
          Z.lxor (2 * clmul q (2 ^ w + P)) (Z.lxor (2 * r) (Z.shiftl (Z.b2z b) w))) as ->.
  { rewrite shiftl_double_add by lia.
    replace (Z.shiftl r0 (Z.of_nat (length l + 1))) with (2 * Z.shiftl r0 (Z.of_nat (length l)))
      by (rewrite !Z.shiftl_mul_pow2, Nat2Z.inj_add, Z.pow_add_r by lia; lia).
    rewrite <- Z.lxor_assoc, <- lxor_double, <- IH, lxor_double, !Z.lxor_assoc. f_equal. apply Z.lxor_comm. }
  rewrite Hs. destruct (xorb _ b).
  - exists (2 * q + 1). split; [lia|]. rewrite clmul_succ_double by done.
    rewrite (Z.lxor_comm (2 ^ w + P)), !Z.lxor_assoc. f_equal. apply Z.lxor_comm.
  - exists (2 * q). split; [lia|]. by rewrite clmul_double, Z.lxor_0_r.
Qed.

(** ** Errors are detected *)

(** With an odd polynomial no two registers are merged. *)
Lemma bit_step_inj w P b r r' :
  0 < w -> Z.testbit P 0 = true -> 0 <= r < 2 ^ w -> 0 <= r' < 2 ^ w ->
  bit_step w P r b = bit_step w P r' b -> r = r'.
Proof.
  intros Hw HP Hr Hr' He.
  assert (Z.testbit r (w - 1) = Z.testbit r' (w - 1)) as Htop.
  { pose proof (f_equal (fun z => Z.testbit z 0) He) as H0. cbv beta in H0.
    rewrite !bit_step_testbit in H0 by lia. rewrite HP in H0.
    replace (bool_decide (0 < 0)) with false in H0 by done. rewrite !andb_false_r, !andb_true_r, !xorb_false_l in H0.
    by destruct (Z.testbit r (w - 1)), (Z.testbit r' (w - 1)), b. }
  apply Z.bits_inj'. intros i Hi. destruct (decide (i < w - 1)) as [Hiw|Hiw].
  - pose proof (f_equal (fun z => Z.testbit z (i + 1)) He) as H1. cbv beta in H1.
    rewrite !bit_step_testbit in H1 by lia. rewrite Htop in H1.
    rewrite !(bool_decide_true (i + 1 < w)), !(bool_decide_true (0 < i + 1)) in H1 by lia. cbn [andb] in H1.
    replace (i + 1 - 1) with i in H1 by lia.
    by destruct (Z.testbit r i), (Z.testbit r' i), (xorb _ b && _).
  - destruct (decide (i = w - 1)) as [->|]; [done|]. by rewrite !(testbit_above w) by lia.
Qed.

Lemma foldl_bit_step_inj w P l r r' :
  0 < w -> 0 <= P < 2 ^ w -> Z.testbit P 0 = true -> 0 <= r < 2 ^ w -> 0 <= r' < 2 ^ w ->
  foldl (bit_step w P) r l = foldl (bit_step w P) r' l -> r = r'.
Proof.
  intros Hw HP Hodd. revert r r'. induction l as [|b l IH]; intros r r' Hr Hr' He; [done|].
  apply (bit_step_inj w P b); [done..|]. apply IH; [by apply bit_step_below..|done].
Qed.

Lemma bits_value_below l : 0 <= bits_value l < 2 ^ Z.of_nat (length l).
Proof.
  induction l as [|b l IH] using rev_ind; [done|]. rewrite bits_value_snoc, length_app.
  cbn [length]. rewrite Nat2Z.inj_add, Z.pow_add_r by lia. destruct b; cbn [Z.b2z]; lia.
Qed.

Lemma bits_msb_snoc n x b : bits_msb (S n) (2 * x + Z.b2z b) = bits_msb n x ++ [b].
Proof.
  induction n as [|n IH].
  - cbn [bits_msb app]. f_equal. destruct b; cbn [Z.b2z]; [apply Z.testbit_odd_0|].
    rewrite Z.add_0_r. apply Z.testbit_even_0.
  - change (bits_msb (S n) x) with (Z.testbit x (Z.of_nat n) :: bits_msb n x).
    change (bits_msb (S (S n)) ?y) with (Z.testbit y (Z.of_nat (S n)) :: bits_msb (S n) y).
    rewrite IH. cbn [app]. f_equal. rewrite Nat2Z.inj_succ. destruct b; cbn [Z.b2z].
    + by rewrite Z.testbit_odd_succ by lia.
    + by rewrite Z.add_0_r, Z.testbit_even_succ by lia.
Qed.

Lemma bits_msb_value l : bits_msb (length l) (bits_value l) = l.
Proof.
  induction l as [|b l IH] using rev_ind; [done|]. rewrite bits_value_snoc, length_app.
  cbn [length]. rewrite Nat.add_1_r, bits_msb_snoc, IH. done.
Qed.

(** Different strings of at most [w] bits leave different registers. *)
Lemma window_inj w P r e e' :
  0 < w -> 0 <= P < 2 ^ w -> Z.testbit P 0 = true -> 0 <= r < 2 ^ w ->
  length e = length e' -> Z.of_nat (length e) <= w ->
  foldl (bit_step w P) r e = foldl (bit_step w P) r e' -> e = e'.
Proof.
  intros Hw HP Hodd Hr Hlen He Heq.
  rewrite <- (bits_msb_value e), <- (bits_msb_value e') in Heq |- *. rewrite <- Hlen in *.
  pose proof (bits_value_below e) as Hv. pose proof (bits_value_below e') as Hv'. rewrite <- Hlen in Hv'.
  rewrite <- !feed_msb in Heq by done. f_equal.
  assert (forall v, 0 <= v < 2 ^ Z.of_nat (length e) -> 0 <= Z.lxor r (Z.shiftl v (w - Z.of_nat (length e))) < 2 ^ w) as Hbelow.
  { intros v Hv0. apply lxor_below; [lia|done|].
    pose proof (shiftl_below (Z.of_nat (length e)) v (w - Z.of_nat (length e)) ltac:(lia) ltac:(lia) Hv0) as Hs.
    by replace (Z.of_nat (length e) + (w - Z.of_nat (length e))) with w in Hs by lia. }
  assert (forall n a b, 0 <= a < 2 ^ w -> 0 <= b < 2 ^ w ->
    Nat.iter n (fun r => bit_step w P r false) a = Nat.iter n (fun r => bit_step w P r false) b -> a = b) as Hinj.
  { induction n as [|n IH]; intros a b Ha Hb Hab; [done|]. rewrite !Nat.iter_succ_r in Hab.
    apply (bit_step_inj w P false); [done..|]. apply IH; [by apply bit_step_below..|done]. }
  apply Hinj in Heq; [|by apply Hbelow..]. apply (f_equal (Z.lxor r)) in Heq.
  rewrite <- !Z.lxor_assoc, !Z.lxor_nilpotent, !Z.lxor_0_l in Heq.
  apply (f_equal (fun z => Z.shiftr z (w - Z.of_nat (length e)))) in Heq. cbv beta in Heq.
  rewrite !Z.shiftr_shiftl_l, Z.sub_diag, !Z.shiftl_0_r in Heq by lia. done.
Qed.

Lemma bitrev_involutive n x : 0 <= x < 2 ^ Z.of_nat n -> bitrev n (bitrev n x) = x.
Proof.
  intros Hx. apply Z.bits_inj'. intros i Hi. rewrite bitrev_testbit by done.
  destruct (decide (i < Z.of_nat n)); bdec.
  - rewrite bitrev_testbit by lia. bdec. f_equal. lia.
  - by rewrite (testbit_above (Z.of_nat n)) by lia.
Qed.

(** The parameters of the table are sound: odd polynomials that fit the width. *)
Definition sound_params (p : crc_params) : bool :=
  (0 <? width p) && (0 <=? poly p) && (poly p <? 2 ^ width p) && Z.testbit (poly p) 0 &&
  (0 <=? init p) && (init p <? 2 ^ width p).

Lemma table_sound f p :
  (f, p) ∈ crc_table ->
  0 < width p /\ 0 <= poly p < 2 ^ width p /\ Z.testbit (poly p) 0 = true /\ 0 <= init p < 2 ^ width p.
Proof.
  intros Hin. assert (forallb (fun fp => sound_params (snd fp)) crc_table = true) as Hall by done.
  rewrite forallb_forall in Hall. specialize (Hall (f, p)). rewrite <- list_elem_of_In in Hall.
  specialize (Hall Hin). cbn [snd] in Hall. unfold sound_params in Hall. rewrite !andb_true_iff in Hall.
  destruct_and!. repeat split; first [done|by apply Z.leb_le|by apply Z.ltb_lt].
Qed.

Lemma message_bits_length rf data : length (message_bits rf data) = (8 * length data)%nat.
Proof.
  unfold message_bits. induction data as [|b data IH]; [done|]. rewrite fmap_cons. cbn [concat].
  rewrite length_app, IH. destruct rf; cbn; lia.
Qed.

Lemma register_below f p data : (f, p) ∈ crc_table -> 0 <= register p data < 2 ^ width p.
Proof. intros Hin. apply table_sound in Hin as (?&?&_&?). by apply foldl_bit_step_below. Qed.

Lemma crc_spec_inj p data data' :
  0 < width p -> 0 <= register p data < 2 ^ width p -> 0 <= register p data' < 2 ^ width p ->
  crc_spec p data = crc_spec p data' -> register p data = register p data'.
Proof.
  intros Hw Hr Hr' He. unfold crc_spec in He. apply (f_equal (fun z => Z.lxor z (xorout p))) in He.
  cbv beta in He. rewrite !Z.lxor_assoc, !Z.lxor_nilpotent, !Z.lxor_0_r in He.
  destruct (refout p); [|done]. apply (f_equal (bitrev (Z.to_nat (width p)))) in He.
  by rewrite !bitrev_involutive in He by (rewrite Z2Nat.id by lia; done).
Qed.

(** C21: Each function of qm_crc.c terminates on every input of at most 65535 bytes
    and returns the CRC with the width, polynomial, initial value, reflections and
    final mask of its comment; before reflection and mask, that is the remainder of
    the message, shifted by the width and with the initial value added to its front,
    in the division by the generator polynomial over GF(2). *)
Theorem crc_functions_correct f p data :
  (f, p) ∈ crc_table -> Forall is_u8 data -> is_u16 (Z.of_nat (length data)) ->
  f data (Z.of_nat (length data)) = Ret (crc_spec p data) /\
  0 <= register p data < 2 ^ width p /\
  exists q, 0 <= q /\
    Z.lxor (Z.shiftl (bits_value (message_bits (refin p) data)) (width p))
           (Z.shiftl (init p) (Z.of_nat (8 * length data))) =
    Z.lxor (clmul q (2 ^ width p + poly p)) (register p data).
Proof.
  intros Hin Hd Hl. split; [by apply crc_table_spec|]. split; [by eapply register_below|].
  apply table_sound in Hin as (?&?&_&?). rewrite <- (message_bits_length (refin p)).
  by apply register_divides.
Qed.

(** C35: An error burst that is not longer than the checksum never goes unnoticed:
    when two messages of the same length differ only inside a window of at most
    [width] consecutive bits, in the order in which the function reads them, the
    function returns different values. *)
Theorem crc_detects_bursts f p data data' pre e e' post :
  (f, p) ∈ crc_table ->
  Forall is_u8 data -> Forall is_u8 data' ->
  is_u16 (Z.of_nat (length data)) -> length data' = length data ->
  message_bits (refin p) data = pre ++ e ++ post ->
  message_bits (refin p) data' = pre ++ e' ++ post ->
  length e = length e' -> Z.of_nat (length e) <= width p -> e <> e' ->
  f data (Z.of_nat (length data)) <> f data' (Z.of_nat (length data')).
Proof.
  intros Hin Hd Hd' Hl Hlen Hm Hm' Hle Hew Hne.
  rewrite !(crc_table_spec f p) by (rewrite ?Hlen; done). intros [= He].
  pose proof (register_below f p data Hin). pose proof (register_below f p data' Hin).
  destruct (table_sound f p Hin) as (Hw & HP & Hodd & Hi).
  apply crc_spec_inj in He; [|done..]. unfold register in He. rewrite Hm, Hm', !foldl_app in He.
  apply foldl_bit_step_inj in He; [|by auto using foldl_bit_step_below..].
  apply window_inj in He; [done|by auto using foldl_bit_step_below..].
Qed.

Lemma crc_functions_correct_witness :
  qm_crc16_modbus [1; 3; 0; 0; 0; 10] 6 = Ret (crc_spec CRC_16_MODBUS [1; 3; 0; 0; 0; 10]) /\
  crc_spec CRC_16_MODBUS [1; 3; 0; 0; 0; 10] = 0xCDC5.
Proof.
  split; [|vm_compute; reflexivity].
  apply (crc_functions_correct qm_crc16_modbus CRC_16_MODBUS [1; 3; 0; 0; 0; 10]).
  - unfold crc_table. repeat (apply list_elem_of_here || apply list_elem_of_further).
  - repeat constructor; vm_compute; intros; discriminate.
  - split; vm_compute; [intros; discriminate|reflexivity].
Defined.

Lemma crc_detects_bursts_witness :
  qm_crc8 [0x12; 0x34] 2 <> qm_crc8 [0x12; 0x74] 2.
Proof.
  apply (crc_detects_bursts qm_crc8 CRC_8 [0x12; 0x34] [0x12; 0x74]
           (bits_msb 8 0x12) (bits_msb 8 0x34) (bits_msb 8 0x74) []).
  - unfold crc_table. repeat (apply list_elem_of_here || apply list_elem_of_further).
  - repeat constructor; vm_compute; intros; discriminate.
  - repeat constructor; vm_compute; intros; discriminate.
  - split; vm_compute; [intros; discriminate|reflexivity].
  - reflexivity.
  - reflexivity.
  - reflexivity.
  - reflexivity.
  - vm_compute. intros; discriminate.
  - vm_compute. intros; discriminate.
Defined.

(** ** The two variants of qm_utils_crc32 *)

Lemma read_bytes_ext f g (I : Z -> Prop) n data c :
  (forall c b, I c -> is_u8 b -> f c b = g c b /\ I (g c b)) ->
  Forall is_u8 data -> I c -> read_bytes f n data c = read_bytes g n data c.
Proof.
  intros Hfg. revert data c. induction n as [|n IH]; intros [|b data] c Hd Hc; try done.
  inversion Hd as [|? ? Hb Hd']; subst. cbn [read_bytes]. destruct (Hfg c b Hc Hb) as [-> Hg]. by apply IH.
Qed.

Lemma read_bytes_cong f g n data c :
  (forall c b, f c b = g c b) -> read_bytes f n data c = read_bytes g n data c.
Proof.
  intros Hfg. revert data c. induction n as [|n IH]; intros [|b data] c; [done..|]. cbn [read_bytes].
  by rewrite Hfg, IH.
Qed.

Lemma read_bytes_app f m n a b c c' :
  read_bytes f m a c = Ret c' -> m = length a -> read_bytes f (m + n) (a ++ b) c = read_bytes f n b c'.
Proof.
  intros Hr ->. revert c Hr. induction a as [|x a IH]; intros c Hr; [by injection Hr as ->|].
  cbn [length app read_bytes Nat.add] in *. by apply IH.
Qed.

Definition crc32_byte (crc b : Z) : Z := for8 (lsb_step 0xEDB88320) (Z.lxor crc b).

Lemma lsb_step_masked crc :
  Z.lxor (Z.shiftr crc 1) (Z.land 0xEDB88320 (if negb (Z.land crc 1 =? 0) then 0xFFFFFFFF else 0)) =
  lsb_step 0xEDB88320 crc.
Proof. unfold lsb_step. destruct (Z.land crc 1 =? 0); cbn [negb]; [|done]. by rewrite Z.land_0_r, Z.lxor_0_r. Qed.

Lemma iter_lsb_shiftl Q n x y :
  Nat.iter n (lsb_step Q) (Z.lxor x (Z.shiftl y (Z.of_nat n))) = Z.lxor (Nat.iter n (lsb_step Q) x) y.
Proof.
  revert x y. induction n as [|n IH]; intros x y; [by rewrite Z.shiftl_0_r|].
  rewrite !Nat.iter_succ_r, Nat2Z.inj_succ. unfold Z.succ. rewrite <- Z.shiftl_shiftl by lia.
  by rewrite lsb_step_lxor, IH.
Qed.

Lemma crc32_tab_spec : crc32_tab = (fun i => for8 (lsb_step 0xEDB88320) (Z.of_nat i)) <$> seq 0 256.
Proof. vm_compute. reflexivity. Qed.

Lemma lsb_step_below Q r : is_u32 Q -> is_u32 r -> is_u32 (lsb_step Q r).
Proof.
  intros HQ Hr. rewrite lsb_step_alt. apply (lxor_below 32); [lia| |by destruct (Z.testbit r 0)].
  rewrite Z.shiftr_div_pow2 by lia. zsolve.
Qed.

Lemma crc32_byte_below c b : is_u32 c -> is_u8 b -> is_u32 (crc32_byte c b).
Proof.
  intros Hc Hb. unfold crc32_byte, for8.
  assert (is_u32 (Z.lxor c b)) as Hx by (apply (lxor_below 32); [lia|done|widths; lia]).
  revert Hx. generalize (Z.lxor c b), 8%nat. intros x n. revert x. induction n as [|n IH]; intros x Hx; [done|].
  rewrite Nat.iter_succ_r. apply IH. apply lsb_step_below; [widths; lia|done].
Qed.

Lemma crc32_table_step c b :
  is_u32 c -> is_u8 b ->
  Z.lxor (default 0 (crc32_tab !! Z.to_nat (Z.land (Z.lxor c b) 0xFF))) (Z.shiftr c 8) = crc32_byte c b.
Proof.
  intros Hc Hb. unfold crc32_byte.
  assert (0 <= Z.land (Z.lxor c b) 0xFF < 256) as Hz.
  { change 0xFF with (Z.ones 8). rewrite Z.land_ones by lia. zsolve. }
  rewrite crc32_tab_spec, list_lookup_fmap, lookup_seq_lt by lia. cbn [fmap option_fmap option_map from_option id].
  rewrite Nat.add_0_l, Z2Nat.id by lia. unfold for8.
  rewrite <- (iter_lsb_shiftl _ 8). f_equal. apply Z.bits_inj'. intros i Hi.
  rewrite Z.lxor_spec, Z.land_spec, Z.shiftl_spec, Z.lxor_spec by lia.
  change 0xFF with (Z.ones 8). destruct (decide (i < 8)).
  - rewrite Z.ones_spec_low, andb_true_r, (Z.testbit_neg_r _ (i - _)) by lia. by rewrite xorb_false_r.
  - rewrite Z.ones_spec_high, andb_false_r, xorb_false_l, Z.shiftr_spec by lia.
    rewrite (testbit_above 8 b), xorb_false_r by (widths; lia). f_equal. lia.
Qed.

Lemma lnot32_lxor x : is_u32 x -> u32 (Z.lnot x) = Z.lxor x 0xFFFFFFFF.
Proof. apply (lnot_mask 32). lia. Qed.

Lemma crc32_unfold data size init_crc :
  is_u32 init_crc ->
  qm_utils_crc32 data size init_crc =
  (crc ← while_length crc32_byte size data (Z.lxor init_crc 0xFFFFFFFF); Ret (u32 (Z.lnot crc))).
Proof.
  intros Hi. unfold qm_utils_crc32. f_equal.
  replace (if init_crc =? 0 then 0xFFFFFFFF else u32 (Z.lnot init_crc)) with (Z.lxor init_crc 0xFFFFFFFF).
  - apply read_bytes_cong. intros c b. apply iter_ext, lsb_step_masked.
  - destruct (Z.eqb_spec init_crc 0) as [->|]; [done|]. by rewrite lnot32_lxor.
Qed.

Lemma crc32_result_below size data c v :
  Forall is_u8 data -> is_u32 c -> while_length crc32_byte size data c = Ret v -> is_u32 v.
Proof.
  intros Hd. unfold while_length. revert data Hd c. induction (Z.to_nat size) as [|n IH]; intros [|b data] Hd c Hc Hv;
    try done; try (by injection Hv as <-).
  inversion Hd; subst. cbn [read_bytes] in Hv. eapply IH; [| |exact Hv]; [done|by apply crc32_byte_below].
Qed.

(** The CRC-32 of what was read so far, continued byte by byte. *)
Lemma crc32_fold data : Forall is_u8 data -> crc_spec CRC_32 data = Z.lxor (foldl crc32_byte 0xFFFFFFFF data) 0xFFFFFFFF.
Proof.
  intros Hd. unfold crc32_byte. pose proof (lsb_fold 31 0x04C11DB7 0xFFFFFFFF 0xEDB88320 data) as Hf.
  replace (bitrev 32 0xFFFFFFFF) with 0xFFFFFFFF in Hf by reflexivity. rewrite Hf; [reflexivity|by split|by split|reflexivity|done].
Qed.

Lemma crc32_spec_below data : Forall is_u8 data -> is_u32 (crc_spec CRC_32 data).
Proof.
  intros Hd. rewrite crc32_fold by done. apply (lxor_below 32); [lia| |by split]. assert (is_u32 0xFFFFFFFF) as Hc by by split.
  revert Hc. generalize 0xFFFFFFFF. induction Hd as [|b data Hb Hd IH]; intros c Hc; [done|]. apply IH. by apply crc32_byte_below.
Qed.

Lemma crc32_piece a b : Forall is_u8 a -> Forall is_u8 b -> qm_utils_crc32 b (Z.of_nat (length b)) (crc_spec CRC_32 a) = Ret (crc_spec CRC_32 (a ++ b)).
Proof.
  intros Ha Hb. pose proof (crc32_spec_below (a ++ b) ltac:(by apply Forall_app)) as Hu. rewrite crc32_unfold by (by apply crc32_spec_below).
  rewrite !crc32_fold, foldl_app in * by (done || by apply Forall_app). rewrite Z.lxor_assoc, Z.lxor_nilpotent, Z.lxor_0_r.
  set (c := foldl crc32_byte 0xFFFFFFFF a) in *. assert (is_u32 (foldl crc32_byte c b)) as Hx.
  { replace (foldl crc32_byte c b) with (Z.lxor (Z.lxor (foldl crc32_byte c b) 0xFFFFFFFF) 0xFFFFFFFF) by (by rewrite Z.lxor_assoc, Z.lxor_nilpotent, Z.lxor_0_r).
    apply (lxor_below 32); [lia|done|by split]. }
  rewrite while_foldl. cbn [mbind outcome_bind]. by rewrite lnot32_lxor.
Qed.

(** The two build variants of qm_utils_crc32 are the same function: for every
    buffer, size and start value the table-driven one (FAST_CRC32) returns what the
    bitwise one returns, and both read outside the buffer in the same cases. *)
Theorem crc32_variants_agree data size init_crc :
  Forall is_u8 data -> is_u32 init_crc ->
  qm_utils_crc32_fast data size init_crc = qm_utils_crc32 data size init_crc.
Proof.
  intros Hd Hi. rewrite crc32_unfold by done. unfold qm_utils_crc32_fast.
  change (u32 (Z.lnot 0)) with 0xFFFFFFFF.
  assert (is_u32 (Z.lxor init_crc 0xFFFFFFFF)) as Hx by (apply (lxor_below 32); [lia|done|widths; lia]).
  unfold while_length. rewrite (read_bytes_ext _ crc32_byte is_u32); [|..].
  - destruct (read_bytes crc32_byte _ data _) as [v| |] eqn:Hv; [|done|done]. cbn [mbind outcome_bind].
    rewrite lnot32_lxor; [done|]. by eapply crc32_result_below.
  - intros c b Hc Hb. split; [by apply crc32_table_step|by apply crc32_byte_below].
  - done.
  - done.
Qed.

(** A checksum can be continued: the CRC-32 of a first part, passed as the start
    value for a second part, gives the CRC-32 of both parts together; the result
    for the start value 0 is the one of qm_ieee_crc32. *)
Theorem crc32_continues a b :
  Forall is_u8 a -> Forall is_u8 b -> is_u16 (Z.of_nat (length a + length b)) ->
  exists ca, qm_utils_crc32 a (Z.of_nat (length a)) 0 = Ret ca /\
    qm_utils_crc32 b (Z.of_nat (length b)) ca = Ret (crc_spec CRC_32 (a ++ b)) /\
    qm_ieee_crc32 (a ++ b) (Z.of_nat (length (a ++ b))) = Ret (crc_spec CRC_32 (a ++ b)).
Proof.
  intros Ha Hb Hl.
  assert (qm_ieee_crc32 (a ++ b) (Z.of_nat (length (a ++ b))) = Ret (crc_spec CRC_32 (a ++ b))) as Hall.
  { apply crc_table_spec; [|by apply Forall_app|by rewrite length_app].
    unfold crc_table. repeat (apply list_elem_of_here || apply list_elem_of_further). }
  pose proof (while_foldl crc32_byte a 0xFFFFFFFF) as Hra.
  assert (is_u32 (foldl crc32_byte 0xFFFFFFFF a)) as Hca by (eapply crc32_result_below; [..|exact Hra]; [done|widths; lia]).
  eexists. rewrite crc32_unfold by (widths; lia). rewrite Z.lxor_0_l, Hra. cbn [mbind outcome_bind].
  split; [reflexivity|]. split; [|done]. rewrite <- Hall. rewrite crc32_unfold by apply u32_range.
  rewrite lnot32_lxor, Z.lxor_assoc, Z.lxor_nilpotent, Z.lxor_0_r by done.
  unfold qm_ieee_crc32. f_equal. rewrite length_app, u16_id by done. unfold while_length.
  symmetry. rewrite !Nat2Z.id. apply (read_bytes_app _ (length a) (length b) a b); [|done].
  unfold while_length in Hra. by rewrite Nat2Z.id in Hra.
Qed.

Lemma crc32_variants_agree_witness :
  qm_utils_crc32_fast [0x31; 0x32; 0x33] 3 7 = qm_utils_crc32 [0x31; 0x32; 0x33] 3 7.
Proof.
  apply (crc32_variants_agree [0x31; 0x32; 0x33] 3 7).
  - repeat constructor; vm_compute; intros; discriminate.
  - split; vm_compute; [intros; discriminate|reflexivity].
Defined.

Lemma crc32_continues_witness :
  exists ca, qm_utils_crc32 [0x31; 0x32; 0x33; 0x34] 4 0 = Ret ca /\
    qm_utils_crc32 [0x35; 0x36; 0x37; 0x38; 0x39] 5 ca =
      Ret (crc_spec CRC_32 [0x31; 0x32; 0x33; 0x34; 0x35; 0x36; 0x37; 0x38; 0x39]) /\
    crc_spec CRC_32 [0x31; 0x32; 0x33; 0x34; 0x35; 0x36; 0x37; 0x38; 0x39] = 0xCBF43926.
Proof.
  destruct (crc32_continues [0x31; 0x32; 0x33; 0x34] [0x35; 0x36; 0x37; 0x38; 0x39]) as (ca & H1 & H2 & _).
  - repeat constructor; vm_compute; intros; discriminate.
  - repeat constructor; vm_compute; intros; discriminate.
  - split; vm_compute; [intros; discriminate|reflexivity].
  - exists ca. split; [exact H1|]. split; [exact H2|]. vm_compute. reflexivity.
Defined.

(** The comment of qm_ieee_crc32 gives seven digits for the initial value and the
    final mask; with them the checksum would be another one. *)
Lemma documented_crc32_differs :
  crc_spec (mk_params 32 0x04C11DB7 0xFFFFFFF true true 0xFFFFFFF) [0x31] <> crc_spec CRC_32 [0x31].
Proof. vm_compute. intros; discriminate. Qed.

End Crc.
