(* ===== verification/ThreadPool.v ===== *)
(** * Thread pool (components/threadpool/threadpool.c)

    The pool as a system of threads: clients that add tasks, workers that run
    [threadpool_task], and a thread in [threadpool_destroy].  A step is one part
    of the code between two places where another thread can run; the parts
    under the mutex are functions on the pool, so they are atomic.  The semaphore
    is a counter (the kernel interface gives counting semaphores); a wait without
    timeout may also fail, after which the worker starts over.  The queue is
    allocated memory: a slot that was never written is [None]. *)

From S2P Require Import Prelude Outcome Ring.
From stdpp Require Import relations.
Import list_relations.list list_basics.list.
Open Scope Z_scope.

Module ThreadPool.

Definition QM_EFULL : Z := 3.

Definition THREADPOOL_SHUTDOWN_IMMEDIATE : Z := 1.
Definition THREADPOOL_SHUTDOWN_GRACEFUL : Z := 2.
Definition THREADPOOL_DESTORY_GRACEFUL : Z := 1.

Section pool.
(** A function pointer with its argument. *)
Context {threadpool_task_t : Type}.
Implicit Types (t : threadpool_task_t).

Record threadpool_t := mk_pool {
  queue : list (option threadpool_task_t);
  thread_count : Z;
  queue_size : Z;
  head : Z;
  tail : Z;
  count : Z;
  shutdown : Z;
  started : Z
}.

(** ** The parts under the mutex *)

(** [threadpool_add] between lock and unlock: result and [need_notify]. *)
Definition add_section (p : threadpool_t) t : Z * bool * threadpool_t :=
  let next := (tail p + 1) mod queue_size p in
  if count p =? queue_size p then (- QM_EFULL, false, p)
  else if negb (shutdown p =? 0) then (0, false, p)
  else (0, true, mk_pool (<[Z.to_nat (tail p) := Some t]> (queue p)) (thread_count p) (queue_size p)
                         (head p) next (count p + 1) (shutdown p) (started p)).

(** The first section of the worker: does it set [wait]? *)
Definition must_wait (p : threadpool_t) : bool := (count p =? 0) && (shutdown p =? 0).

(** The second section: leave the loop, or take the task at [head]. *)
Inductive grabbed :=
| Leave (p : threadpool_t)
| Take (t : option threadpool_task_t) (p : threadpool_t).

Definition grab_section (p : threadpool_t) : outcome grabbed :=
  if (shutdown p =? THREADPOOL_SHUTDOWN_IMMEDIATE)
     || ((shutdown p =? THREADPOOL_SHUTDOWN_GRACEFUL) && (count p =? 0))
  then Ret (Leave (mk_pool (queue p) (thread_count p) (queue_size p) (head p) (tail p) (count p)
                           (shutdown p) (started p - 1)))
  else
    task ← of_option (queue p !! Z.to_nat (head p));
    Ret (Take task (mk_pool (queue p) (thread_count p) (queue_size p) ((head p + 1) mod queue_size p)
                            (tail p) (count p - 1) (shutdown p) (started p))).

(** [threadpool_destroy] sets the flag. *)
Definition shutdown_section (p : threadpool_t) (flags : Z) : threadpool_t :=
  mk_pool (queue p) (thread_count p) (queue_size p) (head p) (tail p) (count p)
    (if negb (Z.land flags THREADPOOL_DESTORY_GRACEFUL =? 0) then THREADPOOL_SHUTDOWN_GRACEFUL
     else THREADPOOL_SHUTDOWN_IMMEDIATE) (started p).

(** [threadpool_free]: refused while workers are left. *)
Definition threadpool_free (p : threadpool_t) : Z :=
  if started p >? 0 then - QM_EINVAL else QM_EOK.

(** ** Threads *)

(** Where a worker is in [threadpool_task]; [WNotCreated] is a worker whose
    [qm_task_new] failed, which [threadpool_create] does not check. *)
Inductive wpc :=
| WCheck
| WWait
| WGrab
| WRun (t : option threadpool_task_t)
| WExited
| WNotCreated.

Record worker := mk_worker { pc : wpc; wait : bool }.

(** The thread in [threadpool_destroy]: not called, about to signal, waiting for
    the workers, returned. *)
Inductive dpc := DIdle | DSignal (left : nat) | DPoll | DDone.

#[global] Instance dpc_eq_dec : EqDecision dpc.
Proof. solve_decision. Defined.

(** [unsignalled] counts the clients between unlock and signal in [threadpool_add];
    [locked] is a mutex that is held by no running section.  The two logs are
    bookkeeping: the tasks that were queued, and those that were taken. *)
Record sys := mk_sys {
  pool : threadpool_t;
  notify : nat;
  locked : bool;
  workers : list worker;
  unsignalled : nat;
  destroyer : dpc;
  accepted : list threadpool_task_t;
  taken : list threadpool_task_t
}.

Definition set_pool (p : threadpool_t) (s : sys) : sys :=
  mk_sys p (notify s) (locked s) (workers s) (unsignalled s) (destroyer s) (accepted s) (taken s).
Definition set_worker (i : nat) (w : worker) (s : sys) : sys :=
  mk_sys (pool s) (notify s) (locked s) (<[i := w]> (workers s)) (unsignalled s) (destroyer s) (accepted s) (taken s).
Definition set_notify (n : nat) (s : sys) : sys :=
  mk_sys (pool s) n (locked s) (workers s) (unsignalled s) (destroyer s) (accepted s) (taken s).
Definition set_unsignalled (n : nat) (s : sys) : sys :=
  mk_sys (pool s) (notify s) (locked s) (workers s) n (destroyer s) (accepted s) (taken s).
Definition set_destroyer (d : dpc) (s : sys) : sys :=
  mk_sys (pool s) (notify s) (locked s) (workers s) (unsignalled s) d (accepted s) (taken s).
Definition set_locked (b : bool) (s : sys) : sys :=
  mk_sys (pool s) (notify s) b (workers s) (unsignalled s) (destroyer s) (accepted s) (taken s).
Definition log_accepted t (s : sys) : sys :=
  mk_sys (pool s) (notify s) (locked s) (workers s) (unsignalled s) (destroyer s) (accepted s ++ [t]) (taken s).
Definition log_taken (o : option threadpool_task_t) (s : sys) : sys :=
  mk_sys (pool s) (notify s) (locked s) (workers s) (unsignalled s) (destroyer s) (accepted s)
    (taken s ++ match o with Some t => [t] | None => [] end).

(** ** threadpool_create *)

(** [allocs] are the results of the four allocations, [mutex_ok] and [sem_ok] of
    creating the mutex and the semaphore, [tasks_ok] of creating the threads. *)
Definition threadpool_create (allocs : list bool) (mutex_ok sem_ok : bool) (tasks_ok : list bool)
    (thread_count queue_size : Z) : option sys :=
  if (thread_count <=? 0) || (queue_size <=? 0) then None
  else if negb (forallb id allocs) || negb mutex_ok || negb sem_ok then None
  else
    let n := Z.to_nat thread_count in
    Some (mk_sys (mk_pool (replicate (Z.to_nat queue_size) None) thread_count queue_size 0 0 0 0 thread_count)
            0 false ((fun ok : bool => mk_worker (if ok then WCheck else WNotCreated) false) <$> take n tasks_ok)
            0 DIdle [] []).

(** ** Steps *)

(** [threadpool_add] up to the unlock, with its result. *)
Definition threadpool_add (s : sys) t : Z * sys :=
  let '(ret, need_notify, p) := add_section (pool s) t in
  (ret, if need_notify : bool then log_accepted t (set_unsignalled (S (unsignalled s)) (set_pool p s))
        else set_pool p s).

(** The worker [i] runs to its next scheduling point. *)
Definition worker_step (s : sys) (i : nat) (w : worker) : outcome sys :=
  match pc w with
  | WCheck =>
      let wt := wait w || must_wait (pool s) in
      Ret (set_worker i (mk_worker (if wt then WWait else WGrab) wt) s)
  | WGrab =>
      g ← grab_section (pool s);
      Ret (match g with
           | Leave p => set_worker i (mk_worker WExited (wait w)) (set_pool p s)
           | Take t p => log_taken t (set_worker i (mk_worker (WRun t) (wait w)) (set_pool p s))
           end)
  | WRun _ => Ret (set_worker i (mk_worker WCheck (wait w)) s)
  | _ => Ret s
  end.

Inductive step : sys -> sys -> Prop :=
| step_add s t :
    locked s = false -> destroyer s <> DDone ->
    step s (snd (threadpool_add s t))
| step_signal s n :
    unsignalled s = S n ->
    step s (set_notify (S (notify s)) (set_unsignalled n s))
| step_worker s s' i w :
    workers s !! i = Some w ->
    match pc w with
    | WCheck | WGrab => locked s = false
    | WRun (Some _) => True
    | _ => False
    end ->
    worker_step s i w = Ret s' -> step s s'
| step_wait s i w n :
    workers s !! i = Some w -> pc w = WWait -> notify s = S n ->
    step s (set_notify n (set_worker i (mk_worker WGrab (wait w)) s))
| step_wait_fails s i w :
    workers s !! i = Some w -> pc w = WWait ->
    step s (set_worker i (mk_worker WCheck (wait w)) s)
| step_destroy s flags :
    locked s = false -> destroyer s = DIdle -> shutdown (pool s) = 0 ->
    step s (set_destroyer (DSignal (Z.to_nat (thread_count (pool s)))) (set_pool (shutdown_section (pool s) flags) s))
| step_destroy_signal s n :
    destroyer s = DSignal (S n) ->
    step s (set_destroyer (DSignal n) (set_notify (S (notify s)) s))
| step_destroy_signalled s :
    destroyer s = DSignal 0 -> step s (set_destroyer DPoll s)
| step_destroy_poll s :
    locked s = false -> destroyer s = DPoll -> started (pool s) = 0 ->
    threadpool_free (pool s) = QM_EOK ->
    step s (set_destroyer DDone s)
| step_destroy_again s :
    (* a second call: the loop is left with the mutex locked, and freeing is refused *)
    locked s = false -> destroyer s <> DIdle -> destroyer s <> DDone ->
    shutdown (pool s) <> 0 -> threadpool_free (pool s) <> QM_EOK ->
    step s (set_locked true s).

(** ** Invariant *)

(** Every worker has seen the empty queue and waits for the first task.  The pool that
    [threadpool_create] returns becomes this one when its threads run before the first
    task is added and all of them could be created ([created_pool_settles]); the
    invariant holds from here on, and [startup_race] shows that it does not before. *)
Definition idle_pool (n : nat) (size : Z) : sys :=
  mk_sys (mk_pool (replicate (Z.to_nat size) None) (Z.of_nat n) size 0 0 0 0 (Z.of_nat n))
    0 false (replicate n (mk_worker WWait true)) 0 DIdle [] [].

Definition total (f : worker -> nat) (ws : list worker) : nat := sum_list_with f ws.

Definition alive (w : worker) : nat := match pc w with WExited => 0 | _ => 1 end.
Definition grabbing (w : worker) : nat := match pc w with WGrab => 1 | _ => 0 end.
Definition signals_left (d : dpc) : nat := match d with DSignal n => n | _ => 0 end.

(** A worker that always waits, and that runs no slot that was not written. *)
Definition worker_ok (w : worker) : Prop :=
  wait w = true /\ match pc w with WRun None => False | WNotCreated => False | _ => True end.

Record queue_ok (p : threadpool_t) (pending : list threadpool_task_t) : Prop := {
  qo_size : 0 < queue_size p;
  qo_len : Z.of_nat (length (queue p)) = queue_size p;
  qo_head : 0 <= head p < queue_size p;
  qo_tail : tail p = (head p + count p) mod queue_size p;
  qo_count : count p = Z.of_nat (length pending);
  qo_full : count p <= queue_size p;
  qo_slots : ring_read (queue p) (queue_size p) (head p) (length pending) = Some <$> pending
}.

(** Every unit of the semaphore, sent or about to be sent, stands for a queued
    task or, once the pool shuts down, for a worker that has to leave. *)
Definition tokens (s : sys) : nat :=
  (notify s + unsignalled s + total grabbing (workers s) + signals_left (destroyer s))%nat.

Definition leavers (s : sys) : nat :=
  if shutdown (pool s) =? 0 then 0%nat else total alive (workers s).

Record pool_inv (s : sys) (pending : list threadpool_task_t) : Prop := {
  pi_queue : queue_ok (pool s) pending;
  pi_log : accepted s = taken s ++ pending;
  pi_workers : Forall worker_ok (workers s);
  pi_threads : thread_count (pool s) = Z.of_nat (length (workers s));
  pi_started : started (pool s) = Z.of_nat (total alive (workers s));
  pi_alive : shutdown (pool s) = 0 -> total alive (workers s) = length (workers s);
  pi_drained : shutdown (pool s) = THREADPOOL_SHUTDOWN_GRACEFUL ->
               (total alive (workers s) < length (workers s))%nat -> pending = [];
  pi_shutdown : shutdown (pool s) = 0 \/ shutdown (pool s) = THREADPOOL_SHUTDOWN_IMMEDIATE
                \/ shutdown (pool s) = THREADPOOL_SHUTDOWN_GRACEFUL;
  pi_destroyer : shutdown (pool s) = 0 <-> destroyer s = DIdle;
  pi_done : destroyer s = DDone -> started (pool s) = 0;
  pi_tokens : tokens s = (length pending + leavers s)%nat
}.

Lemma total_insert f ws i w w' :
  ws !! i = Some w -> (total f (<[i := w']> ws) + f w = total f ws + f w')%nat.
Proof.
  unfold total. revert i. induction ws as [|x ws IH]; intros [|i] Hi; try done; simpl in *.
  - injection Hi as ->. lia.
  - specialize (IH i Hi). lia.
Qed.

Lemma total_lookup f ws i w : ws !! i = Some w -> (f w <= total f ws)%nat.
Proof.
  unfold total. revert i. induction ws as [|x ws IH]; intros [|i] Hi; try done; simpl in *.
  - injection Hi as ->. lia.
  - specialize (IH i Hi). lia.
Qed.

Lemma total_zero f ws : total f ws = 0%nat <-> Forall (fun w => f w = 0%nat) ws.
Proof.
  unfold total. induction ws as [|x ws IH]; simpl; [by split|]. rewrite Forall_cons, <- IH. lia.
Qed.

Lemma idle_inv n size : 0 < size -> pool_inv (idle_pool n size) [].
Proof.
  intros Hs. assert (total alive (replicate n (mk_worker WWait true)) = n /\
                     total grabbing (replicate n (mk_worker WWait true)) = 0%nat) as [Ha Hg].
  { unfold total. induction n; simpl; [done|]. simpl in *. lia. }
  constructor; simpl; rewrite ?length_replicate, ?Ha, ?Hg; try done.
  - constructor; simpl; rewrite ?length_replicate; try done; lia.
  - by apply Forall_replicate.
  - by left.
  - unfold tokens. simpl. by rewrite Hg.
Qed.

(** *** The sections keep the queue *)

Lemma add_section_ok p pending t ret need p' :
  queue_ok p pending -> add_section p t = (ret, need, p') ->
  if need then ret = 0 /\ shutdown p = 0 /\ queue_ok p' (pending ++ [t]) /\ shutdown p' = shutdown p
               /\ thread_count p' = thread_count p /\ started p' = started p
  else p' = p /\ ((ret = - QM_EFULL /\ count p = queue_size p) \/ (ret = 0 /\ shutdown p <> 0)).
Proof.
  intros [Hs Hl Hh Ht Hc Hf Hr]. unfold add_section.
  destruct (Z.eqb_spec (count p) (queue_size p)) as [|Hne]; [intros [= <- <- <-]; by auto|].
  destruct (Z.eqb_spec (shutdown p) 0) as [Hsd|]; cbn [negb]; intros [= <- <- <-]; [|by auto].
  split_and!; try done. constructor; simpl; rewrite ?length_insert, ?length_app; simpl; try lia.
  - rewrite Ht, Zplus_mod_idemp_l. f_equal. lia.
  - rewrite fmap_app. simpl. rewrite <- Hr, Ht, Hc.
    apply (ring_read_extend (queue_size p) Hs (queue p) (head p) (length pending) [Some t]); simpl; lia.
Qed.

Lemma grab_section_take p t pending :
  queue_ok p (t :: pending) -> shutdown p <> THREADPOOL_SHUTDOWN_IMMEDIATE ->
  exists p', grab_section p = Ret (Take (Some t) p') /\ queue_ok p' pending /\
    shutdown p' = shutdown p /\ thread_count p' = thread_count p /\ started p' = started p.
Proof.
  intros [Hs Hl Hh Ht Hc Hf Hr] Hi. unfold grab_section.
  destruct (Z.eqb_spec (shutdown p) THREADPOOL_SHUTDOWN_IMMEDIATE); [done|].
  destruct (Z.eqb_spec (count p) 0) as [|_]; [simpl in Hc; lia|]. rewrite andb_false_r. cbn [orb].
  simpl in Hr. injection Hr as Hh0 Hr. rewrite Z.mod_small in Hh0 by lia.
  destruct (queue p !! Z.to_nat (head p)) as [o|] eqn:Hq; [|apply lookup_ge_None in Hq; lia].
  rewrite (list_lookup_total_correct _ _ _ Hq) in Hh0. subst o.
  eexists. split; [reflexivity|]. split_and!; try done. simpl in Hc.
  constructor; simpl; try lia.
  - apply Z.mod_pos_bound. lia.
  - rewrite Ht, Zplus_mod_idemp_l. f_equal. lia.
  - by rewrite ring_read_mod.
Qed.

Lemma grab_section_leave p pending :
  queue_ok p pending -> shutdown p = THREADPOOL_SHUTDOWN_IMMEDIATE \/
    (shutdown p = THREADPOOL_SHUTDOWN_GRACEFUL /\ pending = []) ->
  exists p', grab_section p = Ret (Leave p') /\ queue_ok p' pending /\ shutdown p' = shutdown p /\
    thread_count p' = thread_count p /\ started p' = started p - 1.
Proof.
  intros Hq Hsd. unfold grab_section. rewrite (qo_count _ _ Hq).
  assert ((shutdown p =? THREADPOOL_SHUTDOWN_IMMEDIATE)
     || ((shutdown p =? THREADPOOL_SHUTDOWN_GRACEFUL) && (Z.of_nat (length pending) =? 0)) = true) as ->.
  { by destruct Hsd as [->|[-> ->]]. }
  eexists. split; [reflexivity|]. split_and!; try done.
  destruct Hq as [? ? ? ? Hc ? ?]. constructor; simpl; try done. all: by rewrite <- Hc.
Qed.

(** *** Every step keeps the invariant *)

Lemma wait_true (s : sys) pending i w : pool_inv s pending -> workers s !! i = Some w -> wait w = true.
Proof. intros Hi Hw. by destruct (Forall_lookup_1 _ _ _ _ (pi_workers _ _ Hi) Hw). Qed.

Lemma at_queue w : pc w = WGrab -> alive w = 1%nat /\ grabbing w = 1%nat.
Proof. unfold alive, grabbing. by intros ->. Qed.

(** A worker changes place without touching the pool; [g] and [n] units move
    between the semaphore and the workers. *)
Lemma move_worker_inv s pending i w w' n :
  pool_inv s pending -> workers s !! i = Some w -> worker_ok w' ->
  alive w = 1%nat -> alive w' = 1%nat ->
  (n + grabbing w' = notify s + grabbing w)%nat ->
  pool_inv (set_notify n (set_worker i w' s)) pending.
Proof.
  intros [Hq Hlog Hw Ht Hst Hal0 Hdr Hsd Hd Hdone Htok] Hi Hok Ha Ha' Hn.
  pose proof (total_insert alive _ _ _ w' Hi) as Hal. pose proof (total_insert grabbing _ _ _ w' Hi) as Hg.
  constructor; simpl; try done.
  - by apply Forall_insert.
  - by rewrite length_insert.
  - rewrite Hst. lia.
  - intros H0. rewrite length_insert. specialize (Hal0 H0). lia.
  - intros H0. rewrite length_insert. intros Hlt. apply (Hdr H0). lia.
  - unfold tokens, leavers in *. simpl in *. case_match; lia.
Qed.

Lemma take_inv s t pending i w :
  pool_inv s (t :: pending) -> workers s !! i = Some w -> pc w = WGrab ->
  shutdown (pool s) <> THREADPOOL_SHUTDOWN_IMMEDIATE ->
  exists s', worker_step s i w = Ret s' /\ pool_inv s' pending.
Proof.
  intros Hi Hl Hpc Hsd. pose proof (wait_true _ _ _ _ Hi Hl) as Hwt.
  destruct Hi as [Hq Hlog Hw Ht Hst Hal0 Hdr Hsd' Hd Hdone Htok].
  destruct (grab_section_take _ _ _ Hq Hsd) as (p' & Hgs & Hq' & Hs1 & Hs2 & Hs3).
  unfold worker_step. rewrite Hpc, Hgs. cbn [mbind outcome_bind]. eexists. split; [reflexivity|].
  pose proof (total_insert alive _ _ _ (mk_worker (WRun (Some t)) (wait w)) Hl) as Hal.
  pose proof (total_insert grabbing _ _ _ (mk_worker (WRun (Some t)) (wait w)) Hl) as Hg.
  destruct (at_queue w Hpc) as [Ha1 Hg1]. rewrite Ha1 in Hal. rewrite Hg1 in Hg. cbn [alive grabbing pc] in Hal, Hg.
  constructor; simpl; rewrite ?Hs1, ?Hs2, ?Hs3; try done.
  - rewrite Hlog. by rewrite <- app_assoc.
  - apply Forall_insert; [done|]. by split.
  - by rewrite length_insert.
  - rewrite Hst. lia.
  - intros H0. rewrite length_insert. specialize (Hal0 H0). lia.
  - intros H0. rewrite length_insert. intros Hlt. discriminate (Hdr H0 ltac:(lia)).
  - unfold tokens, leavers in *. simpl in *. rewrite Hs1. case_match; lia.
Qed.

Lemma leave_inv s pending i w :
  pool_inv s pending -> workers s !! i = Some w -> pc w = WGrab ->
  shutdown (pool s) = THREADPOOL_SHUTDOWN_IMMEDIATE \/
    (shutdown (pool s) = THREADPOOL_SHUTDOWN_GRACEFUL /\ pending = []) ->
  exists s', worker_step s i w = Ret s' /\ pool_inv s' pending.
Proof.
  intros Hi Hl Hpc Hsd. pose proof (wait_true _ _ _ _ Hi Hl) as Hwt.
  destruct Hi as [Hq Hlog Hw Ht Hst Hal0 Hdr Hsd' Hd Hdone Htok].
  destruct (grab_section_leave _ _ Hq Hsd) as (p' & Hgs & Hq' & Hs1 & Hs2 & Hs3).
  unfold worker_step. rewrite Hpc, Hgs. cbn [mbind outcome_bind]. eexists. split; [reflexivity|].
  pose proof (total_insert alive _ _ _ (mk_worker WExited (wait w)) Hl) as Hal.
  pose proof (total_insert grabbing _ _ _ (mk_worker WExited (wait w)) Hl) as Hg.
  destruct (at_queue w Hpc) as [Ha1 Hg1]. rewrite Ha1 in Hal. rewrite Hg1 in Hg. cbn [alive grabbing pc] in Hal, Hg.
  assert (shutdown (pool s) <> 0) as Hne by (destruct Hsd as [->|[-> _]]; done).
  constructor; simpl; rewrite ?Hs1, ?Hs2, ?Hs3; try done.
  - apply Forall_insert; [done|]. by split.
  - by rewrite length_insert.
  - rewrite Hst. lia.
  - intros H0. by destruct Hsd as [H1|[_ ->]]; [rewrite H0 in H1|].
  - intros Hdn. specialize (Hdone Hdn). lia.
  - unfold tokens, leavers in *. simpl in *. rewrite Hs1.
    destruct (Z.eqb_spec (shutdown (pool s)) 0); [done|lia].
Qed.

(** A worker at the queue finds a task, or has to leave. *)
Lemma grab_inv s pending i w :
  pool_inv s pending -> workers s !! i = Some w -> pc w = WGrab ->
  exists s' pending', worker_step s i w = Ret s' /\ pool_inv s' pending'.
Proof.
  intros Hi Hl Hpc.
  assert (shutdown (pool s) = 0 -> pending <> []) as Hne.
  { intros H0 ->. pose proof (pi_tokens _ _ Hi) as Htok. unfold tokens, leavers in Htok. rewrite H0 in Htok.
    pose proof (total_lookup grabbing _ _ _ Hl) as Hg. unfold grabbing at 1 in Hg. rewrite Hpc in Hg. simpl in Htok. lia. }
  destruct (pi_shutdown _ _ Hi) as [H0|[H0|H0]], pending as [|t pending]; try (by specialize (Hne H0)).
  - destruct (take_inv _ _ _ _ _ Hi Hl Hpc) as (s' & ? & ?); [by rewrite H0|eauto].
  - destruct (leave_inv _ _ _ _ Hi Hl Hpc) as (s' & ? & ?); [by left|eauto].
  - destruct (leave_inv _ _ _ _ Hi Hl Hpc) as (s' & ? & ?); [by left|eauto].
  - destruct (leave_inv _ _ _ _ Hi Hl Hpc) as (s' & ? & ?); [by right|eauto].
  - destruct (take_inv _ _ _ _ _ Hi Hl Hpc) as (s' & ? & ?); [by rewrite H0|eauto].
Qed.

Lemma set_notify_id (s : sys) : set_notify (notify s) s = s.
Proof. by destruct s. Qed.

Lemma worker_step_inv s s' pending i w :
  pool_inv s pending -> workers s !! i = Some w ->
  match pc w with WCheck | WGrab => True | WRun (Some _) => True | _ => False end ->
  worker_step s i w = Ret s' -> exists pending', pool_inv s' pending'.
Proof.
  intros Hi Hl Hpc Hs. pose proof (wait_true _ _ _ _ Hi Hl) as Hwt.
  destruct (pc w) as [| | |[t|]| |] eqn:Hp; try done.
  - exists pending. unfold worker_step in Hs. rewrite Hp, Hwt in Hs. injection Hs as <-.
    rewrite <- (set_notify_id (set_worker _ _ _)). cbn [notify set_worker]. apply (move_worker_inv s pending i w);
      try done; unfold alive, grabbing; by rewrite Hp.
  - destruct (grab_inv _ _ _ _ Hi Hl Hp) as (s1 & pd & Hs1 & Hi1). rewrite Hs1 in Hs. injection Hs as <-. eauto.
  - exists pending. unfold worker_step in Hs. rewrite Hp in Hs. injection Hs as <-.
    rewrite <- (set_notify_id (set_worker _ _ _)). cbn [notify set_worker]. apply (move_worker_inv s pending i w);
      try done; unfold alive, grabbing; by rewrite Hp.
Qed.

Lemma add_inv s pending t : pool_inv s pending -> exists pending', pool_inv (snd (threadpool_add s t)) pending'.
Proof.
  intros [Hq Hlog Hw Ht Hst Hal0 Hdr Hsd Hd Hdone Htok]. unfold threadpool_add.
  destruct (add_section (pool s) t) as [[ret need] p'] eqn:Ha.
  pose proof (add_section_ok _ _ _ _ _ _ Hq Ha) as Hok. destruct need; simpl.
  - destruct Hok as (-> & H0 & Hq' & Hs1 & Hs2 & Hs3). exists (pending ++ [t]).
    constructor; simpl; rewrite ?Hs1, ?Hs2, ?Hs3; try done.
    + by rewrite Hlog, app_assoc.
    + intros H1. by rewrite H0 in H1.
    + unfold tokens, leavers in *. simpl. rewrite Hs1, length_app. rewrite H0 in Htok |- *. simpl in *. lia.
  - destruct Hok as [-> _]. exists pending. by destruct s; constructor.
Qed.

Lemma step_inv s s' pending : pool_inv s pending -> step s s' -> exists pending', pool_inv s' pending'.
Proof.
  intros Hi Hs. destruct Hs as [s t _ _|s n Hu|s s' i w Hl Hpc Hs|s i w n Hl Hpc Hn|s i w Hl Hpc|s flags _ Hd0 Hsd0
    |s n Hds|s Hds|s _ Hds H0 _|s _ _ _ _ _].
  - by eapply add_inv.
  - exists pending. destruct Hi. constructor; simpl; try done. unfold tokens, leavers in *. simpl. lia.
  - eapply worker_step_inv; [done|done| |done]. by destruct (pc w) as [| | |[?|]| |].
  - exists pending. pose proof (wait_true _ _ _ _ Hi Hl) as Hwt.
    apply (move_worker_inv s pending i w); try done; unfold alive, grabbing; rewrite ?Hpc; simpl; try done. lia.
  - exists pending. rewrite <- (set_notify_id (set_worker _ _ _)). pose proof (wait_true _ _ _ _ Hi Hl) as Hwt.
    apply (move_worker_inv s pending i w); try done; unfold alive, grabbing; rewrite ?Hpc; simpl; done.
  - exists pending. destruct Hi as [Hq Hlog Hw Ht Hst Hal0 Hdr Hsd Hd Hdone Htok].
    assert (shutdown (shutdown_section (pool s) flags) = THREADPOOL_SHUTDOWN_IMMEDIATE \/
            shutdown (shutdown_section (pool s) flags) = THREADPOOL_SHUTDOWN_GRACEFUL) as Hf.
    { simpl. destruct (negb _); auto. }
    assert (shutdown (shutdown_section (pool s) flags) <> 0) as Hne by (by destruct Hf as [->| ->]).
    constructor; simpl; try done.
    + by destruct Hq.
    + intros _ Hlt. specialize (Hal0 Hsd0). lia.
    + by right.
    + unfold tokens, leavers in *. rewrite Hd0, Hsd0 in Htok. simpl in Htok.
      cbn [pool set_pool set_destroyer workers notify unsignalled destroyer signals_left].
      rewrite (proj2 (Z.eqb_neq _ _) Hne), Ht, Nat2Z.id. specialize (Hal0 Hsd0). lia.
  - exists pending. destruct Hi as [Hq Hlog Hw Ht Hst Hal0 Hdr Hsd Hd Hdone Htok].
    constructor; simpl; try done; [by rewrite Hd, Hds|].
    unfold tokens, leavers in *. rewrite Hds in Htok. simpl in *. lia.
  - exists pending. destruct Hi as [Hq Hlog Hw Ht Hst Hal0 Hdr Hsd Hd Hdone Htok].
    constructor; simpl; try done; [by rewrite Hd, Hds|].
    unfold tokens, leavers in *. rewrite Hds in Htok. simpl in *. lia.
  - exists pending. destruct Hi as [Hq Hlog Hw Ht Hst Hal0 Hdr Hsd Hd Hdone Htok].
    constructor; simpl; try done; [by rewrite Hd, Hds|].
    unfold tokens, leavers in *. rewrite Hds in Htok. simpl in *. lia.
  - exists pending. by destruct Hi.
Qed.


Lemma reachable_inv n size s :
  0 < size -> rtc step (idle_pool n size) s -> exists pending, pool_inv s pending.
Proof.
  intros Hs Hr. revert s Hr. apply rtc_ind_r; [eauto using idle_inv|].
  intros s s' _ Hstep [pending Hi]. by eapply step_inv.
Qed.

Lemma step_length s s' : step s s' -> length (workers s') = length (workers s).
Proof.
  destruct 1 as [s t _ _|s n Hu|s s' i w Hl Hpc Hs|s i w n Hl Hpc Hn|s i w Hl Hpc|s flags _ Hd0 Hsd0
    |s n Hds|s Hds|s _ Hds H0 _|s _ _ _ _ _]; simpl; rewrite ?length_insert; try done.
  - unfold threadpool_add, add_section. by repeat case_match; simplify_eq.
  - unfold worker_step, grab_section in Hs.
    destruct (pc w); try (injection Hs as <-; simpl; by rewrite ?length_insert).
    case_match; simpl in Hs; [injection Hs as <-; simpl; by rewrite length_insert|].
    destruct (queue (pool s) !! _); [|done]. simpl in Hs. injection Hs as <-. simpl. by rewrite length_insert.
Qed.

Lemma reachable_length n size s : rtc step (idle_pool n size) s -> length (workers s) = n.
Proof.
  revert s. apply rtc_ind_r; [simpl; by rewrite length_replicate|].
  intros s s' _ Hst <-. by apply step_length.
Qed.

(** *** Shutting down makes progress *)

Definition weight (w : worker) : nat :=
  match pc w with WExited => 0 | WGrab => 2 | WWait => 3 | WCheck => 4 | WRun _ => 5 | WNotCreated => 0 end.

Definition dweight (d : dpc) : nat := match d with DIdle => 0 | DSignal n => n + 2 | DPoll => 1 | DDone => 0 end.

(** What is left to do until [threadpool_destroy] returns. *)
Definition shutdown_work (s : sys) : nat :=
  (unsignalled s + dweight (destroyer s) + 4 * Z.to_nat (count (pool s)) + total weight (workers s))%nat.

Ltac weigh w Hp H :=
  let k := fresh in
  assert (weight w = match pc w with WExited => 0 | WGrab => 2 | WWait => 3 | WCheck => 4 | WRun _ => 5 | WNotCreated => 0 end)%nat
    as k by reflexivity; rewrite Hp in k; rewrite k in H; clear k; cbn [weight pc] in H.

Lemma worker_progress s pending i w :
  pool_inv s pending -> workers s !! i = Some w -> locked s = false ->
  match pc w with WCheck | WGrab | WRun _ => True | _ => False end ->
  exists s', step s s' /\ (shutdown_work s' < shutdown_work s)%nat /\ locked s' = false /\ destroyer s' = destroyer s.
Proof.
  intros Hi Hl Hlk Hpc. pose proof (wait_true _ _ _ _ Hi Hl) as Hwt.
  destruct (Forall_lookup_1 _ _ _ _ (pi_workers _ _ Hi) Hl) as [_ Hok].
  pose proof (fun w' => total_insert weight _ _ _ w' Hl) as Hwg.
  assert (forall s', worker_step s i w = Ret s' -> step s s') as Hstep.
  { intros s' Hs'. eapply (step_worker s _ i w Hl); [|done]. by destruct (pc w) as [| | |[]| |]. }
  unfold worker_step in Hstep. destruct (pc w) as [| | |o| |] eqn:Hp; try done.
  - exists (set_worker i (mk_worker WWait true) s). split; [apply Hstep; by rewrite Hwt|]. split; [|by split].
    specialize (Hwg (mk_worker WWait true)). weigh w Hp Hwg.
    unfold shutdown_work. simpl. lia.
  - destruct (grab_inv _ _ _ _ Hi Hl Hp) as (s1 & pd & Hs1 & Hi1).
    unfold worker_step in Hs1. rewrite Hp in Hs1. exists s1. split; [by apply Hstep|].
    pose proof (qo_count _ _ (pi_queue _ _ Hi)) as Hc. pose proof (qo_count _ _ (pi_queue _ _ Hi1)) as Hc1.
    unfold grab_section in Hs1. case_match eqn:Hb; simpl in Hs1.
    + injection Hs1 as <-. split; [|by split]. specialize (Hwg (mk_worker WExited (wait w))).
      weigh w Hp Hwg. unfold shutdown_work. simpl in *. lia.
    + destruct (queue (pool s) !! Z.to_nat (head (pool s))) as [o|]; [|done]. simpl in Hs1. injection Hs1 as <-.
      split; [|by split]. specialize (Hwg (mk_worker (WRun o) (wait w))).
      weigh w Hp Hwg. unfold shutdown_work. simpl in *. lia.
  - exists (set_worker i (mk_worker WCheck (wait w)) s). split; [by apply Hstep|]. split; [|by split].
    specialize (Hwg (mk_worker WCheck (wait w))). weigh w Hp Hwg.
    unfold shutdown_work. simpl. lia.
Qed.

(** A worker that can run, or all have left, or one waits and nobody can run. *)
Lemma workers_cases (ws : list worker) :
  Forall worker_ok ws ->
  (exists i w, ws !! i = Some w /\ match pc w with WCheck | WGrab | WRun _ => True | _ => False end)
  \/ total alive ws = 0%nat
  \/ (total grabbing ws = 0%nat /\ (0 < total alive ws)%nat /\ exists i w, ws !! i = Some w /\ pc w = WWait).
Proof.
  intros Hok. induction Hok as [|w ws [_ Hw] Hws IH]; [by right; left|].
  destruct IH as [(i & w' & Hi & Hp)|IH]; [left; exists (S i), w'; by split|].
  destruct (pc w) as [| | |o| |] eqn:Hp; try done; try (left; exists 0%nat, w; rewrite Hp; by split).
  - right. right. unfold total in *. simpl. unfold alive at 1, grabbing at 1. rewrite Hp. simpl.
    split; [|split; [lia|by exists 0%nat, w]]. destruct IH as [H0|(H0 & _)]; [|done].
    apply (total_zero alive) in H0. apply (total_zero grabbing). eapply Forall_impl; [exact H0|].
    intros x. simpl. unfold alive, grabbing. by destruct (pc x).
  - destruct IH as [H0|(H0 & H1 & i & w' & Hi & Hp')].
    + right. left. unfold total in *. simpl. unfold alive at 1. by rewrite Hp.
    + right. right. unfold total in *. simpl. unfold alive at 1, grabbing at 1. rewrite Hp.
      split; [done|]. split; [done|]. by exists (S i), w'.
Qed.

Lemma shutdown_progress s pending :
  pool_inv s pending -> locked s = false -> destroyer s <> DIdle -> destroyer s <> DDone ->
  exists s', step s s' /\ (shutdown_work s' < shutdown_work s)%nat /\ locked s' = false /\ destroyer s' <> DIdle.
Proof.
  intros Hi Hlk Hd Hdn. destruct (unsignalled s) as [|u] eqn:Hu.
  2:{ eexists. split; [by eapply step_signal|]. unfold shutdown_work. simpl. split; [lia|done]. }
  destruct (destroyer s) as [|[|n]| |] eqn:Hds; try done.
  - eexists. split; [by eapply step_destroy_signalled|]. unfold shutdown_work. simpl. rewrite Hds. simpl. split; [lia|done].
  - eexists. split; [by eapply step_destroy_signal|]. unfold shutdown_work. simpl. rewrite Hds. simpl. split; [lia|done].
  - destruct (workers_cases _ (pi_workers _ _ Hi)) as [(i & w & Hl & Hp)|[H0|(Hg & Ha & i & w & Hl & Hp)]].
    + destruct (worker_progress _ _ _ _ Hi Hl Hlk Hp) as (s' & ? & ? & ? & He). exists s'. by rewrite He, Hds.
    + assert (started (pool s) = 0) as Hst by (rewrite (pi_started _ _ Hi), H0; done).
      exists (set_destroyer DDone s). split; [apply step_destroy_poll; try done|].
      * unfold threadpool_free. by rewrite Hst.
      * unfold shutdown_work. simpl. rewrite Hds. simpl. split; [lia|done].
    + pose proof (pi_tokens _ _ Hi) as Htok. unfold tokens, leavers in Htok. rewrite Hds, Hu, Hg in Htok. simpl in Htok.
      assert (shutdown (pool s) <> 0) as Hne by (rewrite (pi_destroyer _ _ Hi), Hds; done).
      rewrite (proj2 (Z.eqb_neq _ _) Hne) in Htok.
      destruct (notify s) as [|n] eqn:Hn; [lia|]. eexists. split; [by eapply step_wait|].
      pose proof (total_insert weight _ _ _ (mk_worker WGrab (wait w)) Hl) as Hwg.
      weigh w Hp Hwg. unfold shutdown_work. simpl. rewrite Hds. split; [lia|done].
Qed.

Lemma shutdown_runs k s pending :
  (shutdown_work s <= k)%nat -> pool_inv s pending -> locked s = false -> destroyer s <> DIdle ->
  exists m s', (m <= shutdown_work s)%nat /\ nsteps step m s s' /\ destroyer s' = DDone.
Proof.
  revert s pending. induction k as [|k IH]; intros s pending Hk Hi Hlk Hd.
  all: destruct (decide (destroyer s = DDone)) as [He|He];
    [exists 0%nat, s; split; [lia|]; split; [constructor|done]|].
  all: destruct (shutdown_progress _ _ Hi Hlk Hd He) as (s1 & Hst & Hlt & Hlk1 & Hd1); [lia || idtac].
  destruct (step_inv _ _ _ Hi Hst) as [p1 Hi1].
  destruct (IH s1 p1) as (m & s' & Hm & Hs' & Hdone); [lia|done..|].
  exists (S m), s'. split; [lia|]. split; [|done]. by econstructor.
Qed.

(** *** Threads that were never created *)

Lemma worker_step_keeps s s' i w :
  worker_step s i w = Ret s' -> workers s !! i = Some w ->
  match pc w with WCheck | WGrab | WRun (Some _) => True | _ => False end ->
  started (pool s) = Z.of_nat (total alive (workers s)) ->
  started (pool s') = Z.of_nat (total alive (workers s')) /\ destroyer s' = destroyer s /\
  exists w', workers s' = <[i := w']> (workers s).
Proof.
  intros Hs Hl Hpc Hst. pose proof (fun w' => total_insert alive _ _ _ w' Hl) as Hal.
  assert (alive w = 1%nat) as Ha by (unfold alive; by destruct (pc w) as [| | |[]| |]).
  unfold worker_step in Hs. destruct (pc w) as [| | |[t|]| |]; try done.
  - injection Hs as <-. split; [|by eauto]. simpl.
    specialize (Hal (mk_worker (if wait w || must_wait (pool s) then WWait else WGrab) (wait w || must_wait (pool s)))).
    unfold alive at 4 in Hal. simpl in Hal. destruct (wait w || must_wait (pool s)); lia.
  - unfold grab_section in Hs. case_match; simpl in Hs.
    + injection Hs as <-. split; [|by eauto]. simpl. specialize (Hal (mk_worker WExited (wait w))).
      cbn [alive pc] in Hal. lia.
    + destruct (queue (pool s) !! Z.to_nat (head (pool s))) as [o|]; [|done]. simpl in Hs. injection Hs as <-.
      split; [|by eauto]. simpl. specialize (Hal (mk_worker (WRun o) (wait w))). cbn [alive pc] in Hal. lia.
  - injection Hs as <-. split; [|by eauto]. simpl. specialize (Hal (mk_worker WCheck (wait w))).
    cbn [alive pc] in Hal. lia.
Qed.

(** A worker that does not exist keeps the pool from being freed. *)
Definition stillborn (i : nat) (s : sys) : Prop :=
  (exists w, workers s !! i = Some w /\ pc w = WNotCreated) /\
  started (pool s) = Z.of_nat (total alive (workers s)) /\ destroyer s <> DDone.

Lemma stillborn_step i s s' : stillborn i s -> step s s' -> stillborn i s'.
Proof.
  intros ((w0 & Hl0 & Hp0) & Hst & Hdn) Hs. destruct Hs as [s t _ _|s n Hu|s s' j w Hl Hpc Hs|s j w n Hl Hpc Hn|s j w Hl Hpc
    |s flags _ Hd0 Hsd0|s n Hds|s Hds|s _ Hds H0 _|s _ _ _ _ _]; unfold stillborn in *; simpl; try (by eauto).
  - unfold threadpool_add, add_section. repeat case_match; simplify_eq; simpl; by eauto.
  - destruct (worker_step_keeps _ _ _ _ Hs Hl) as (Hst' & -> & w' & Hws); [by repeat case_match|done|].
    split; [|done]. exists w0. rewrite Hws. split; [|done]. rewrite list_lookup_insert_ne; [done|].
    intros ->. rewrite Hl in Hl0. injection Hl0 as ->. rewrite Hp0 in Hpc. done.
  - pose proof (total_insert alive _ _ _ (mk_worker WGrab (wait w)) Hl) as Hal.
    assert (alive w = 1%nat) as Ha by (unfold alive; by rewrite Hpc). cbn [alive pc] in Hal.
    split; [exists w0; split; [|done]|split; [lia|done]]. rewrite list_lookup_insert_ne; [done|]. intros ->. congruence.
  - pose proof (total_insert alive _ _ _ (mk_worker WCheck (wait w)) Hl) as Hal.
    assert (alive w = 1%nat) as Ha by (unfold alive; by rewrite Hpc). cbn [alive pc] in Hal.
    split; [exists w0; split; [|done]|split; [lia|done]]. rewrite list_lookup_insert_ne; [done|]. intros ->. congruence.
  - exfalso. pose proof (total_lookup alive _ _ _ Hl0) as Hal. unfold alive at 1 in Hal. rewrite Hp0 in Hal. lia.
Qed.

(** ** Theorems *)

(** C3: Once every worker waits for work, no schedule of clients, workers and a
    shutdown loses, repeats or reorders a task: the tasks taken by workers are
    the accepted ones in order, up to those that are still queued; the counter
    stays within the queue, and no worker runs a slot that holds no task. *)
Theorem pool_takes_each_task_once n size s :
  0 < size -> rtc step (idle_pool n size) s ->
  exists pending, accepted s = taken s ++ pending /\ count (pool s) = Z.of_nat (length pending) /\
    0 <= count (pool s) <= queue_size (pool s) /\
    forall i w, workers s !! i = Some w -> pc w <> WRun None.
Proof.
  intros Hs Hr. destruct (reachable_inv _ _ _ Hs Hr) as [pending Hi]. exists pending.
  pose proof (pi_queue _ _ Hi) as Hq. pose proof (qo_count _ _ Hq). pose proof (qo_full _ _ Hq).
  split; [apply Hi|]. split; [done|]. split; [lia|]. intros i w Hl Hp.
  destruct (Forall_lookup_1 _ _ _ _ (pi_workers _ _ Hi) Hl) as [_ Hok]. by rewrite Hp in Hok.
Qed.


(** C23: A shutdown ends: from every state, reached from a pool whose workers all
    wait, in which [threadpool_destroy] is under way and the mutex is free, at most
    [shutdown_work] steps of the threads lead to its return, provided the tasks
    return.  A created pool comes to wait when its threads run first
    ([created_pool_settles]); [startup_race] and [failed_thread_blocks_destroy] show
    what happens else. *)
Theorem shutdown_completes n size s :
  0 < size -> rtc step (idle_pool n size) s -> locked s = false -> destroyer s <> DIdle ->
  exists m s', (m <= shutdown_work s)%nat /\ nsteps step m s s' /\ destroyer s' = DDone.
Proof.
  intros Hs Hr Hlk Hd. destruct (reachable_inv _ _ _ Hs Hr) as [pending Hi].
  by eapply (shutdown_runs (shutdown_work s)).
Qed.

(** [threadpool_add] queues the task, or reports a full queue; while the pool
    shuts down the task is dropped and the result is still 0. *)
Theorem add_result n size s t :
  0 < size -> rtc step (idle_pool n size) s ->
  let '(ret, s') := threadpool_add s t in
  if count (pool s) =? queue_size (pool s) then ret = - QM_EFULL /\ accepted s' = accepted s
  else if shutdown (pool s) =? 0 then ret = 0 /\ accepted s' = accepted s ++ [t]
  else ret = 0 /\ accepted s' = accepted s.
Proof.
  intros Hs Hr. unfold threadpool_add, add_section.
  destruct (count (pool s) =? queue_size (pool s)); [done|]. by destruct (shutdown (pool s) =? 0).
Qed.

(** A second call of [threadpool_destroy] while workers are left keeps the mutex
    for ever: the first call never returns. *)
Theorem second_destroy_deadlocks s s' :
  locked s = true -> destroyer s <> DDone -> rtc step s s' -> destroyer s' <> DDone.
Proof.
  intros Hlk Hd Hr. cut (locked s' = true /\ destroyer s' <> DDone); [by intros []|].
  revert s' Hr. apply rtc_ind_r; [done|]. intros s1 s2 _ Hst [Hlk1 Hd1].
  destruct Hst as [s1 t Hx _|s1 n Hu|s1 s2 i w Hl Hpc Hst|s1 i w n Hl Hpc Hn|s1 i w Hl Hpc|s1 flags Hx _ _
    |s1 n Hds|s1 Hds|s1 Hx _ _ _|s1 Hx _ _ _ _]; simpl; try (congruence || done).
  unfold worker_step in Hst. destruct (pc w) as [| | |[]| |]; try (congruence || done).
  by injection Hst as <-.
Qed.

(** When [qm_task_new] fails for one worker, which [threadpool_create] ignores,
    [threadpool_destroy] never returns. *)
Theorem failed_thread_blocks_destroy s s' i :
  stillborn i s -> rtc step s s' -> destroyer s' <> DDone.
Proof.
  intros Hb Hr. cut (stillborn i s'); [by intros (_ & _ & ?)|]. revert s' Hr.
  apply rtc_ind_r; [done|]. intros s1 s2 _ Hst Hb1. by eapply stillborn_step.
Qed.

(** ** Schedules

    The steps as a function of the choices of the scheduler and of the clients. *)

Inductive action :=
| AAdd t
| ASignal
| AWorker (i : nat)
| AWait (i : nat)
| AWaitFails (i : nat)
| ADestroy (flags : Z)
| ADestroySignal
| ADestroyPoll
| ADestroyAgain.

Definition exec (s : sys) (a : action) : option sys :=
  match a with
  | AAdd t =>
      if locked s || bool_decide (destroyer s = DDone) then None else Some (snd (threadpool_add s t))
  | ASignal =>
      match unsignalled s with S n => Some (set_notify (S (notify s)) (set_unsignalled n s)) | O => None end
  | AWorker i =>
      w ← workers s !! i;
      let go := match worker_step s i w with Ret s' => Some s' | _ => None end in
      match pc w with
      | WCheck | WGrab => if locked s then None else go
      | WRun (Some _) => go
      | _ => None
      end
  | AWait i =>
      w ← workers s !! i;
      match pc w, notify s with
      | WWait, S n => Some (set_notify n (set_worker i (mk_worker WGrab (wait w)) s))
      | _, _ => None
      end
  | AWaitFails i =>
      w ← workers s !! i;
      match pc w with WWait => Some (set_worker i (mk_worker WCheck (wait w)) s) | _ => None end
  | ADestroy flags =>
      if negb (locked s) && bool_decide (destroyer s = DIdle) && (shutdown (pool s) =? 0)
      then Some (set_destroyer (DSignal (Z.to_nat (thread_count (pool s))))
                               (set_pool (shutdown_section (pool s) flags) s))
      else None
  | ADestroySignal =>
      match destroyer s with
      | DSignal (S n) => Some (set_destroyer (DSignal n) (set_notify (S (notify s)) s))
      | DSignal O => Some (set_destroyer DPoll s)
      | _ => None
      end
  | ADestroyPoll =>
      if negb (locked s) && bool_decide (destroyer s = DPoll) && (started (pool s) =? 0)
         && (threadpool_free (pool s) =? QM_EOK)
      then Some (set_destroyer DDone s) else None
  | ADestroyAgain =>
      if negb (locked s) && negb (bool_decide (destroyer s = DIdle)) && negb (bool_decide (destroyer s = DDone))
         && negb (shutdown (pool s) =? 0) && negb (threadpool_free (pool s) =? QM_EOK)
      then Some (set_locked true s) else None
  end.

Fixpoint run (s : sys) (l : list action) : option sys :=
  match l with
  | [] => Some s
  | a :: l => s' ← exec s a; run s' l
  end.

Lemma exec_step s a s' : exec s a = Some s' -> step s s'.
Proof.
  destruct a; simpl; intros He.
  - destruct (locked s) eqn:Hlk; [done|]. simpl in He. case_bool_decide; [done|]. injection He as <-. by constructor.
  - destruct (unsignalled s) as [|n] eqn:Hu; [done|]. injection He as <-. by constructor.
  - destruct (workers s !! i) as [w|] eqn:Hw; [|done]. simpl in He.
    destruct (worker_step s i w) as [s1| |] eqn:Hs; [|by repeat case_match..].
    assert (s1 = s') as -> by (repeat case_match; congruence).
    eapply step_worker; [done| |done]. by destruct (pc w) as [| | |[]| |], (locked s).
  - destruct (workers s !! i) as [w|] eqn:Hw; [|done]. simpl in He.
    destruct (pc w) eqn:Hp; try done. destruct (notify s) as [|n] eqn:Hn; [done|]. injection He as <-. by constructor.
  - destruct (workers s !! i) as [w|] eqn:Hw; [|done]. simpl in He.
    destruct (pc w) eqn:Hp; try done. injection He as <-. by constructor.
  - case_match eqn:Hc; [|done]. injection He as <-. rewrite !andb_true_iff, negb_true_iff, bool_decide_eq_true, Z.eqb_eq in Hc.
    destruct_and!. by constructor.
  - destruct (destroyer s) as [|[|n]| |] eqn:Hd; try done; injection He as <-; by constructor.
  - case_match eqn:Hc; [|done]. injection He as <-.
    rewrite !andb_true_iff, negb_true_iff, bool_decide_eq_true, !Z.eqb_eq in Hc. destruct_and!. by constructor.
  - case_match eqn:Hc; [|done]. injection He as <-.
    rewrite !andb_true_iff, !negb_true_iff, !bool_decide_eq_false, !Z.eqb_neq in Hc. destruct_and!. by constructor.
Qed.

Lemma run_rtc s l s' : run s l = Some s' -> rtc step s s'.
Proof.
  revert s. induction l as [|a l IH]; intros s; cbn [run]; [intros [= <-]; constructor|].
  destruct (exec s a) as [s1|] eqn:He; [|done]. cbn. intros Hr. econstructor; [by eapply exec_step|by apply IH].
Qed.

(** ** From creation to the idle pool *)

Lemma settle p k m :
  must_wait p = true ->
  rtc step (mk_sys p 0 false (replicate k (mk_worker WWait true) ++ replicate m (mk_worker WCheck false)) 0 DIdle [] [])
           (mk_sys p 0 false (replicate (k + m) (mk_worker WWait true)) 0 DIdle [] []).
Proof.
  intros Hp. revert k. induction m as [|m IH]; intros k.
  { simpl. rewrite app_nil_r, Nat.add_0_r. constructor. }
  econstructor; [eapply (step_worker _ _ k (mk_worker WCheck false))|].
  - simpl. rewrite lookup_app_r; rewrite length_replicate; [by rewrite Nat.sub_diag|done].
  - done.
  - unfold worker_step. simpl. rewrite Hp. reflexivity.
  - simpl. unfold set_worker. simpl.
    replace (<[k:=mk_worker WWait true]>
        (replicate k (mk_worker WWait true) ++ mk_worker WCheck false :: replicate m (mk_worker WCheck false)))
      with (replicate (S k) (mk_worker WWait true) ++ replicate m (mk_worker WCheck false)).
    + replace (k + S m)%nat with (S k + m)%nat by lia. apply IH.
    + rewrite insert_app_r_alt by (by rewrite length_replicate). rewrite length_replicate, Nat.sub_diag.
      rewrite replicate_S_end, <- app_assoc. done.
Qed.

(** A pool whose threads were all created becomes idle when they run first. *)
Theorem created_pool_settles n size :
  0 < Z.of_nat n -> 0 < size ->
  exists s, threadpool_create [true; true; true; true] true true (replicate n true) (Z.of_nat n) size = Some s
    /\ rtc step s (idle_pool n size).
Proof.
  intros Hn Hs. unfold threadpool_create.
  destruct (Z.leb_spec (Z.of_nat n) 0); [lia|]. destruct (Z.leb_spec size 0); [lia|]. cbn [orb forallb id andb negb].
  eexists. split; [reflexivity|].
  rewrite Nat2Z.id, take_ge, fmap_replicate by (by rewrite length_replicate).
  by apply (settle _ 0 n).
Qed.

End pool.
Arguments threadpool_t : clear implicits.
Arguments worker : clear implicits.
Arguments wpc : clear implicits.
Arguments sys : clear implicits.

(** ** Schedules of a small pool, with numbers as tasks *)

Definition demo_schedule : list (action (threadpool_task_t := Z)) :=
  [AAdd 7; ASignal; AAdd 8; AWait 0; AWorker 0; ASignal; AAdd 9; ADestroy 1; AWorker 0; ADestroySignal; ADestroySignal;
   AWaitFails 1; ADestroySignal].

Definition demo_rest : list (action (threadpool_task_t := Z)) :=
  [ASignal; AWorker 1; AWait 1; AWorker 1; AWorker 1; AWorker 0; AWait 0; AWorker 0; AWorker 0; AWorker 0; AWait 0;
   AWorker 0; AWorker 1; AWait 1; AWorker 1; ADestroyPoll].

(** The states are computed from the schedules. *)
Definition after (s : sys Z) (l : list (action (threadpool_task_t := Z))) : sys Z := default s (run s l).

Definition demo_mid : sys Z := after (idle_pool 2 3) demo_schedule.
Definition demo_end : sys Z := after demo_mid demo_rest.

Lemma demo_mid_reachable : rtc step (idle_pool 2 3) demo_mid.
Proof. apply (run_rtc _ demo_schedule). vm_compute. reflexivity. Defined.

Lemma demo_end_reachable : rtc step (idle_pool 2 3) demo_end.
Proof. apply (run_rtc _ (demo_schedule ++ demo_rest)). vm_compute. reflexivity. Defined.

Lemma pool_takes_each_task_once_witness :
  taken demo_mid = [7] /\ accepted demo_mid = [7; 8; 9] /\
  exists pending, accepted demo_mid = taken demo_mid ++ pending /\ count (pool demo_mid) = Z.of_nat (length pending) /\
    0 <= count (pool demo_mid) <= queue_size (pool demo_mid) /\
    forall i w, workers demo_mid !! i = Some w -> pc w <> WRun None.
Proof.
  split; [vm_compute; reflexivity|]. split; [vm_compute; reflexivity|].
  exact (pool_takes_each_task_once 2 3 demo_mid eq_refl demo_mid_reachable).
Defined.


Lemma shutdown_completes_witness :
  exists m s', (m <= shutdown_work demo_mid)%nat /\ nsteps step m demo_mid s' /\ destroyer s' = DDone.
Proof.
  apply (shutdown_completes 2 3 demo_mid); [lia|exact demo_mid_reachable|vm_compute; reflexivity|].
  vm_compute. intros; discriminate.
Defined.

(** A task that is added before the worker first looks at the queue is taken
    without waiting, so its signal wakes the worker once more: it takes a slot that
    was never written and the counter becomes negative. *)
Definition startup : sys Z :=
  default (idle_pool 1 2) (threadpool_create [true; true; true; true] true true [true] 1 2).

Theorem startup_race :
  exists s, rtc step startup s /\ taken s = accepted s /\ count (pool s) = -1 /\
    workers s !! 0%nat = Some (mk_worker (WRun None) true).
Proof.
  set (l := [AAdd 7; ASignal; AWorker 0; AWorker 0; AWorker 0; AWorker 0; AWait 0; AWorker 0]).
  exists (after startup l). split; [apply (run_rtc _ l); vm_compute; reflexivity|]. by vm_compute.
Qed.

(** An immediate shutdown can free the pool while a client is between the mutex
    and the semaphore. *)
Theorem immediate_destroy_races_add :
  exists s, rtc step (idle_pool (threadpool_task_t := Z) 1 2) s /\ destroyer s = DDone /\ unsignalled s = 1%nat.
Proof.
  set (l := [AAdd 7; ADestroy 0; ADestroySignal; AWait 0; AWorker 0; ADestroySignal; ADestroyPoll]).
  exists (after (idle_pool 1 2) l). split; [apply (run_rtc _ l); vm_compute; reflexivity|]. by vm_compute.
Qed.

(** The situations of the two blocking theorems arise. *)
Lemma second_destroy_reachable :
  let s := after (idle_pool 1 2) [ADestroy 1; ADestroyAgain] in
  rtc step (idle_pool 1 2) s /\ forall s', rtc step s s' -> destroyer s' <> DDone.
Proof.
  split; [apply (run_rtc _ [ADestroy 1; ADestroyAgain]); vm_compute; reflexivity|].
  intros s'. apply second_destroy_deadlocks; vm_compute; [reflexivity|intros; discriminate].
Qed.

Lemma failed_thread_reachable :
  let s := default (idle_pool 1 2) (threadpool_create [true; true; true; true] true true [true; false] 2 2) in
  forall s' : sys Z, rtc step s s' -> destroyer s' <> DDone.
Proof.
  intros s s'. apply (failed_thread_blocks_destroy _ _ 1).
  split; [eexists; split; [vm_compute; reflexivity|reflexivity]|]. split; vm_compute; [reflexivity|intros; discriminate].
Qed.

End ThreadPool.
