(* ===== verification/Future.v ===== *)
(** * Futures (components/future/qm_future.c)

    A future lives in allocated memory; an access after it was freed is
    [OutOfBounds].  Pointers are numbers, 0 is NULL.  The semaphore is [None]
    for an immediate future, which has none.  A wait that finds no unit ends by its
    timeout with the error that the kernel reports. *)

From S2P Require Import Prelude Outcome.
Import list_relations.list list_basics.list.

Module Future.

Definition QM_EBUSY : Z := 7.

Record qm_future_t := mk_future {
  ready_can_be_called : Z;
  sem : option Z;
  result : Z;
  arg : Z
}.

(** The memory behind a handle. *)
Inductive cell := Null | Live (f : qm_future_t) | Freed.

Definition qm_future_new (alloc_ok sem_ok : bool) (a : Z) : cell :=
  if alloc_ok && sem_ok then Live (mk_future 1 (Some 0) 0 a) else Null.

Definition qm_future_new_immediate (alloc_ok : bool) (value a : Z) : cell :=
  if alloc_ok then Live (mk_future 0 None value a) else Null.

(** Result and [*arg]; [out] says whether the caller passes a place for it. *)
Definition qm_future_arg_get (c : cell) (out : bool) : outcome (Z * option Z) :=
  match c with
  | Null => Ret (- QM_EINVAL, None)
  | Live f => Ret (if out then (QM_EOK, Some (arg f)) else (- QM_EINVAL, None))
  | Freed => if out then OutOfBounds else Ret (- QM_EINVAL, None)
  end.

Definition qm_future_ready (c : cell) (value : Z) : outcome (Z * cell) :=
  match c with
  | Null => Ret (- QM_EINVAL, Null)
  | Freed => OutOfBounds
  | Live f =>
      if ready_can_be_called f =? 0 then Ret (- QM_EBUSY, c)
      else Ret (QM_EOK, Live (mk_future 0 ((fun n => n + 1) <$> sem f) value (arg f)))
  end.

Definition qm_future_free (c : cell) : outcome (Z * cell) :=
  match c with
  | Null => Ret (- QM_EINVAL, Null)
  | Live _ => Ret (QM_EOK, Freed)
  | Freed => OutOfBounds
  end.

(** [expired] is the result of a wait that ends by its timeout. *)
Definition qm_future_wait (c : cell) (out : bool) (expired : Z) : outcome (Z * option Z * cell) :=
  match c with
  | Null => Ret (- QM_EINVAL, None, Null)
  | Freed => if out then OutOfBounds else Ret (- QM_EINVAL, None, Freed)
  | Live f =>
      if negb out then Ret (- QM_EINVAL, None, c)
      else
        let ret := match sem f with
                   | Some n => if n >? 0 then QM_EOK else expired
                   | None => QM_EOK
                   end in
        '(_, c') ← qm_future_free c;
        Ret (ret, Some (result f), c')
  end.

(** ** Theorems *)

(** Several threads may complete the future; each gets a result. *)
Fixpoint ready_all (c : cell) (values : list Z) : outcome (list Z * cell) :=
  match values with
  | [] => Ret ([], c)
  | v :: values =>
      '(r, c1) ← qm_future_ready c v;
      '(rs, c2) ← ready_all c1 values;
      Ret (r :: rs, c2)
  end.

Lemma ready_all_busy f values :
  ready_can_be_called f = 0 -> ready_all (Live f) values = Ret ((fun _ => - QM_EBUSY) <$> values, Live f).
Proof. intros H0. induction values as [|v values IH]; simpl; [done|]. rewrite H0. simpl. by rewrite IH. Qed.

(** The first value given to a future is the one that the waiter gets, with
    [QM_EOK], whatever is given later; all later attempts are refused with
    [-QM_EBUSY], and waiting frees the future. *)
Theorem future_first_value_wins a v values expired :
  exists rs c, ready_all (qm_future_new true true a) (v :: values) = Ret (rs, c) /\
    rs = QM_EOK :: ((fun _ => - QM_EBUSY) <$> values) /\
    qm_future_wait c true expired = Ret (QM_EOK, Some v, Freed).
Proof.
  exists (QM_EOK :: ((fun _ => - QM_EBUSY) <$> values)), (Live (mk_future 0 (Some 1) v a)).
  split; [|by split]. simpl. by rewrite ready_all_busy.
Qed.

(** An immediate future gives its value at once and cannot be completed. *)
Theorem immediate_future_value v a w expired :
  qm_future_ready (qm_future_new_immediate true v a) w = Ret (- QM_EBUSY, qm_future_new_immediate true v a) /\
  qm_future_wait (qm_future_new_immediate true v a) true expired = Ret (QM_EOK, Some v, Freed).
Proof. done. Qed.

(** A wait that ends by its timeout frees the future all the same: the producer
    that completes it afterwards writes to freed memory. *)
Theorem timeout_leaves_dangling_future a v expired :
  exists c, qm_future_wait (qm_future_new true true a) true expired = Ret (expired, Some 0, c) /\
    qm_future_ready c v = OutOfBounds.
Proof. by exists Freed. Qed.

End Future.
