(* ===== verification/Noos.v ===== *)
(** * Threadless kernel (components/qm_noos)

    The queues and the task table that replace an operating system: qm_noos.c and
    the queue and task functions of qm_noos_adapter.c, which only unwrap the handle.
    A queue keeps its messages in a byte ring buffer (RingBuf); tasks are functions
    that [qm_noos_task_yield] calls in turn.  A handle is the index of a slot, [None]
    is NULL.  Allocation results are arguments. *)

From S2P Require Import Prelude Ring RingBuf.
Import list_relations.list list_basics.list.

Module Noos.
Import RingBuf.

Definition QM_EFULL : Z := 3.
Definition QM_EEMPTY : Z := 4.

(** ** Queues *)

Record qm_noos_queue_t := mk_queue {
  ringbuf : qm_ringbuf_t;
  queue_size : Z;    (* bytes of a message, uint32_t *)
  queue_len : Z;     (* messages, uint32_t *)
  data : bool        (* is [data] allocated? *)
}.

Definition CONFIG_QM_NOOS_QUEUE_NUM : nat := 5.

Definition empty_queue : qm_noos_queue_t := mk_queue (mk_ringbuf 0 0 0 None 0) 0 0 false.

(** The slot search of [qm_noos_generic_queue_new], from slot [i] on. *)
Fixpoint new_loop (alloc_ok : bool) (len size : Z) (i : nat) (qs : list qm_noos_queue_t)
  : Z * option nat * list qm_noos_queue_t :=
  match qs with
  | [] => (- QM_EFULL, None, [])
  | q :: qs =>
      if data q then
        let '(r, h, qs') := new_loop alloc_ok len size (S i) qs in (r, h, q :: qs')
      else
        let sz := if negb (size =? 0) then u32 (len * size) else len in
        if alloc_ok then
          let rb := snd (qm_ringbuf_init (Some (ringbuf q)) (Some (zero_bytes sz)) sz) in
          (QM_EOK, Some i, mk_queue (default (ringbuf q) rb) size len true :: qs)
        else (- QM_ENOMEM, None, mk_queue (ringbuf q) size len false :: qs)
  end.

Definition qm_noos_generic_queue_new (alloc_ok : bool) (qs : list qm_noos_queue_t) (len size : Z)
  : Z * option nat * list qm_noos_queue_t :=
  if len =? 0 then (- QM_EINVAL, None, qs) else new_loop alloc_ok len size 0 qs.

Definition qm_noos_generic_queue_free (qs : list qm_noos_queue_t) (queue : option nat) : Z * list qm_noos_queue_t :=
  match queue with
  | None => (- QM_EINVAL, qs)
  | Some i =>
      match qs !! i with
      | Some q => (QM_EOK, if data q then <[i := mk_queue (ringbuf q) (queue_size q) (queue_len q) false]> qs else qs)
      | None => (- QM_EINVAL, qs)
      end
  end.

(** Send and receive on the slot of a handle. *)
Definition qm_noos_generic_queue_send (q : option qm_noos_queue_t) (msg : option (list Z)) (size : Z)
  : Z * option qm_noos_queue_t :=
  match q, msg with
  | Some nq, Some m =>
      if size =? 0 then (- QM_EINVAL, q)
      else if negb (size =? queue_size nq) then (- QM_EINVAL, q)
      else if negb (data nq) then (- QM_EINVAL, q)
      else
        let '(ret, rb) := qm_ringbuf_push (Some (ringbuf nq)) (Some m) (i32 (queue_size nq)) in
        (if negb (ret =? 0) then QM_EOK else - QM_EFULL,
         Some (mk_queue (default (ringbuf nq) rb) (queue_size nq) (queue_len nq) (data nq)))
  | _, _ => (- QM_EINVAL, q)
  end.

(** Result, the bytes stored in [msg] (their number is [*size]), and the queue. *)
Definition qm_noos_generic_queue_recv (q : option qm_noos_queue_t) : Z * list Z * option qm_noos_queue_t :=
  match q with
  | Some nq =>
      if negb (data nq) then (- QM_EINVAL, [], q)
      else
        let '(out, rb) := qm_ringbuf_pop (ringbuf nq) (i32 (queue_size nq)) in
        (if negb (length out =? 0)%nat then QM_EOK else - QM_EEMPTY, out,
         Some (mk_queue rb (queue_size nq) (queue_len nq) (data nq)))
  | None => (- QM_EINVAL, [], None)
  end.

Definition qm_noos_generic_queue_is_empty (q : option qm_noos_queue_t) : Z :=
  match q with
  | Some nq => if data nq then qm_ringbuf_isempty (ringbuf nq) else 0
  | None => 0
  end.

Definition qm_noos_generic_queue_is_valid (q : option qm_noos_queue_t) : Z :=
  match q with Some nq => Z.b2z (data nq) | None => 0 end.

(** ** Tasks *)

Definition CONFIG_QM_NOOS_TASK_MIN_PRIO : Z := 0.
Definition CONFIG_QM_NOOS_TASK_MAX_PRIO : Z := 30.
Definition CONFIG_QM_NOOS_TASK_NUM : nat := 5.

Section tasks.
(** Functions and arguments are identified by numbers; 0 is NULL. *)
Record qm_noos_task_t := mk_task { prio : Z; fn : Z; targ : Z }.

(** Result, handle and the table. *)
Fixpoint task_new_loop (f arg prio : Z) (i : nat) (ts : list qm_noos_task_t) : Z * option nat * list qm_noos_task_t :=
  match ts with
  | [] => (- QM_EFULL, None, [])
  | t :: ts =>
      if negb (fn t =? 0) then
        let '(r, h, ts') := task_new_loop f arg prio (S i) ts in (r, h, t :: ts')
      else (QM_EOK, Some i, mk_task (u8 prio) f arg :: ts)
  end.

Definition qm_noos_task_new (ts : list qm_noos_task_t) (f arg prio : Z) : Z * option nat * list qm_noos_task_t :=
  if f =? 0 then (- QM_EINVAL, None, ts)
  else if negb ((CONFIG_QM_NOOS_TASK_MIN_PRIO <=? prio) && (prio <=? CONFIG_QM_NOOS_TASK_MAX_PRIO))
  then (- QM_EINVAL, None, ts)
  else task_new_loop f arg prio 0 ts.

Definition qm_noos_task_exit (ts : list qm_noos_task_t) (task : option nat) : Z * list qm_noos_task_t :=
  match task with
  | None => (- QM_EINVAL, ts)
  | Some i => (QM_EOK, alter (fun t => mk_task (prio t) 0 (targ t)) i ts)
  end.

(** A task runs on the table, since it may create and end tasks, and on the rest
    of the system [W]. *)
Context {W : Type} (call : Z -> Z -> list qm_noos_task_t * W -> list qm_noos_task_t * W).

Fixpoint yield_loop (n i : nat) (s : list qm_noos_task_t * W) : list qm_noos_task_t * W :=
  match n with
  | O => s
  | S n =>
      yield_loop n (S i)
        (match fst s !! i with
         | Some t => if fn t =? 0 then s else call (fn t) (targ t) s
         | None => s
         end)
  end.

Definition qm_noos_task_yield (s : list qm_noos_task_t * W) : Z * (list qm_noos_task_t * W) :=
  (QM_EOK, yield_loop CONFIG_QM_NOOS_TASK_NUM 0 s).

(** The main loop body: the tasks, then the timers when they are configured. *)
Definition qm_os_yield (timers : option (W -> W)) (s : list qm_noos_task_t * W) : Z * (list qm_noos_task_t * W) :=
  let s1 := snd (qm_noos_task_yield s) in
  (QM_EOK, match timers with Some f => (fst s1, f (snd s1)) | None => s1 end).

End tasks.

(** The queue stores whole messages. *)
Record queue_inv (q : qm_noos_queue_t) (msgs : list (list Z)) : Prop := {
  ni_rb : rb_inv (ringbuf q);
  ni_data : data q = true;
  ni_msg : 0 < queue_size q < 2 ^ 31;
  ni_len : 0 < queue_len q;
  ni_size : RingBuf.size (ringbuf q) = queue_len q * queue_size q;
  ni_msgs : Forall (fun m => Z.of_nat (length m) = queue_size q) msgs;
  ni_contents : contents (ringbuf q) = concat msgs
}.

(** Capacity in messages: one less than the length asked for. *)
Definition room (q : qm_noos_queue_t) (msgs : list (list Z)) : Prop :=
  Z.of_nat (length msgs) < queue_len q - 1.

Lemma concat_length_uniform (k : Z) (msgs : list (list Z)) :
  Forall (fun m => Z.of_nat (length m) = k) msgs ->
  Z.of_nat (length (concat msgs)) = Z.of_nat (length msgs) * k.
Proof. induction 1 as [|m msgs Hm _ IH]; [done|]. cbn [concat length]. rewrite length_app. lia. Qed.

Lemma queue_used q msgs :
  queue_inv q msgs -> used (ringbuf q) = Z.of_nat (length msgs) * queue_size q.
Proof.
  intros []. rewrite <- contents_length, ni_contents0 by done. by apply concat_length_uniform.
Qed.

Lemma queue_room q msgs :
  queue_inv q msgs -> capacity (ringbuf q) - used (ringbuf q) =
    (queue_len q - Z.of_nat (length msgs)) * queue_size q - 1.
Proof. intros Hq. rewrite (queue_used _ _ Hq). unfold capacity. rewrite (ni_size _ _ Hq). lia. Qed.

(** A push of a message that leaves [free] bytes of room. *)
Lemma send_push q msgs m :
  queue_inv q msgs -> Z.of_nat (length m) = queue_size q ->
  let k := Z.to_nat (Z.min (queue_size q) ((queue_len q - Z.of_nat (length msgs)) * queue_size q - 1)) in
  exists q', qm_noos_generic_queue_send (Some q) (Some m) (queue_size q) =
    (if (k =? 0)%nat then - QM_EFULL else QM_EOK, Some q') /\
    rb_inv (ringbuf q') /\ contents (ringbuf q') = concat msgs ++ take k m /\
    RingBuf.size (ringbuf q') = RingBuf.size (ringbuf q) /\
    queue_size q' = queue_size q /\ queue_len q' = queue_len q /\ data q' = true.
Proof.
  intros Hq Hm k. pose proof Hq as [Hrb Hd Hms Hl Hsz Hall Hc]. unfold qm_noos_generic_queue_send.
  destruct (Z.eqb_spec (queue_size q) 0); [lia|]. rewrite Z.eqb_refl, Hd. cbn [negb].
  rewrite i32_id by lia.
  destruct (push_spec (ringbuf q) m (queue_size q) Hrb) as (rb' & Hp & Hrb' & Hs' & Hc' & _); [nia|lia|].
  rewrite (queue_room q msgs Hq) in Hp, Hc'. fold k in Hp, Hc'. rewrite Hp. eexists. split.
  - f_equal. destruct (Nat.eqb_spec k 0) as [->|]; [done|]. destruct (Z.eqb_spec (Z.of_nat k) 0); [lia|done].
  - cbn. by rewrite Hc', Hc.
Qed.

Lemma new_loop_free len size i q qs :
  0 < len -> 0 < size < 2 ^ 31 -> len * size < 2 ^ 32 -> data q = false ->
  exists q', new_loop true len size i (q :: qs) = (QM_EOK, Some i, q' :: qs) /\ queue_inv q' [] /\
    queue_len q' = len /\ queue_size q' = size.
Proof.
  intros Hl Hs Hb Hq. cbn [new_loop]. rewrite Hq. destruct (Z.eqb_spec size 0); [lia|]. cbn [negb].
  rewrite u32_id by (widths; nia). unfold qm_ringbuf_init. destruct (Z.eqb_spec (len * size) 0); [nia|].
  cbn [snd default from_option id]. eexists. split; [reflexivity|]. split; [|done].
  constructor; cbn; try done; try lia. constructor; cbn; try lia; try nia.
  eexists. split; [done|]. unfold zero_bytes. rewrite length_replicate. nia.
Qed.

Lemma new_loop_spec len size i qs :
  0 < len -> 0 < size < 2 ^ 31 -> len * size < 2 ^ 32 ->
  Exists (fun q => data q = false) qs ->
  exists h q qs', new_loop true len size i qs = (QM_EOK, Some (i + h)%nat, qs') /\ qs' !! h = Some q /\ queue_inv q [] /\
    queue_len q = len /\ queue_size q = size /\ forall j, j <> h -> qs' !! j = qs !! j.
Proof.
  intros Hl Hs Hb Hex. revert i. induction qs as [|q qs IH]; intros i; [by inversion Hex|].
  destruct (data q) eqn:Hd.
  - apply Exists_cons in Hex as [Hx|Hex]; [congruence|]. cbn [new_loop]. rewrite Hd.
    destruct (IH Hex (S i)) as (h & q1 & qs1 & -> & Hh & Hi & ? & ? & Hj). exists (S h), q1, (q :: qs1).
    rewrite <- Nat.add_succ_comm. do 5 (split; [done|]). intros [|j] Hne; [done|]. apply Hj. lia.
  - destruct (new_loop_free len size i q qs Hl Hs Hb Hd) as (q' & Hn & Hi & ? & ?).
    exists 0%nat, q', (q' :: qs). rewrite Nat.add_0_r. do 5 (split; [done|]). by intros [|j].
Qed.

(** While a queue holds fewer than [queue_len - 1] messages, sending stores the
    message behind the others; receiving gives the oldest message back unchanged and
    removes it, or reports [-QM_EEMPTY] when there is none. *)
Theorem noos_queue_fifo q msgs m :
  queue_inv q msgs -> Z.of_nat (length m) = queue_size q ->
  (room q msgs -> exists q', qm_noos_generic_queue_send (Some q) (Some m) (queue_size q) = (QM_EOK, Some q')
      /\ queue_inv q' (msgs ++ [m]) /\ queue_len q' = queue_len q /\ queue_size q' = queue_size q) /\
  (exists q', qm_noos_generic_queue_recv (Some q) =
      (match msgs with [] => - QM_EEMPTY | _ => QM_EOK end, default [] (head msgs), Some q')
      /\ queue_inv q' (tail msgs) /\ queue_len q' = queue_len q /\ queue_size q' = queue_size q).
Proof.
  intros Hq Hm. pose proof Hq as [Hrb Hd Hms Hl Hsz Hall Hc]. split.
  - intros Hr. unfold room in Hr. destruct (send_push q msgs m Hq Hm) as (q' & Hs & Hrb' & Hc' & Hs' & ? & ? & ?).
    rewrite Z.min_l in Hs, Hc' by nia. exists q'. split; [rewrite Hs; destruct (Nat.eqb_spec (Z.to_nat (queue_size q)) 0); [lia|done]|].
    split; [|done]. constructor; try done; try lia; try congruence.
    + replace (queue_size q') with (queue_size q) by done. apply Forall_app. split; [done|]. by constructor.
    + rewrite Hc', take_ge, concat_app by lia. cbn. by rewrite app_nil_r.
  - unfold qm_noos_generic_queue_recv. rewrite Hd. cbn [negb]. rewrite i32_id by lia.
    pose proof (pop_spec (ringbuf q) (queue_size q) Hrb) as Hp. destruct (qm_ringbuf_pop _ _) as [out rb'].
    destruct Hp as (Ho & Hc' & Hrb' & Hs'). rewrite Hc in Ho, Hc'. destruct msgs as [|m0 msgs]; cbn [concat] in *.
    + rewrite take_nil in Ho. rewrite drop_nil in Hc'. subst out. cbn. eexists. split; [reflexivity|].
      split; [|done]. constructor; cbn; try done. by rewrite Hs'.
    + apply Forall_cons in Hall as [Hm0 Hall'].
      rewrite take_app_length' in Ho by lia. rewrite drop_app_length' in Hc' by lia. subst m0. eexists.
      split; [destruct (Nat.eqb_spec (length out) 0); [lia|cbn; reflexivity]|].
      split; [|done]. constructor; cbn; try done. by rewrite Hs'.
Qed.

(** A message that arrives when [queue_len - 1] messages are queued is accepted
    without its last byte: the header promises [queue_len] messages. *)
Theorem noos_send_truncates q msgs m :
  queue_inv q msgs -> Z.of_nat (length m) = queue_size q -> 1 < queue_size q ->
  Z.of_nat (length msgs) = queue_len q - 1 ->
  exists q', qm_noos_generic_queue_send (Some q) (Some m) (queue_size q) = (QM_EOK, Some q') /\
    contents (ringbuf q') = concat msgs ++ take (Z.to_nat (queue_size q - 1)) m.
Proof.
  intros Hq Hm H1 Hlen. destruct (send_push q msgs m Hq Hm) as (q' & Hs & _ & Hc & _). exists q'.
  rewrite Hlen in Hs, Hc.
  replace (Z.min (queue_size q) ((queue_len q - (queue_len q - 1)) * queue_size q - 1)) with (queue_size q - 1) in Hs, Hc by lia.
  split; [rewrite Hs; destruct (Nat.eqb_spec (Z.to_nat (queue_size q - 1)) 0); [lia|done]|done].
Qed.

(** A free slot gives a new, empty queue with the parameters asked for and leaves
    the other queues alone. *)
Theorem noos_queue_new_empty len size qs :
  0 < len -> 0 < size < 2 ^ 31 -> len * size < 2 ^ 32 -> Exists (fun q => data q = false) qs ->
  exists h q qs', qm_noos_generic_queue_new true qs len size = (QM_EOK, Some h, qs') /\ qs' !! h = Some q /\
    queue_inv q [] /\ queue_len q = len /\ queue_size q = size /\ forall j, j <> h -> qs' !! j = qs !! j.
Proof.
  intros Hl Hs Hb Hex. unfold qm_noos_generic_queue_new. destruct (Z.eqb_spec len 0); [lia|].
  by apply (new_loop_spec len size 0).
Qed.

(** A yield calls every task of the table once, in the order of the slots, when
    the tasks do not change the table. *)
Theorem noos_yield_calls_all {W} (run : Z -> Z -> W -> W) ts w :
  length ts = CONFIG_QM_NOOS_TASK_NUM ->
  qm_noos_task_yield (fun f a s => (fst s, run f a (snd s))) (ts, w) =
  (QM_EOK, (ts, foldl (fun w t => run (fn t) (targ t) w) w (filter (fun t => fn t <> 0) ts))).
Proof.
  intros Hl. unfold qm_noos_task_yield. f_equal. rewrite <- Hl. clear Hl.
  assert (forall done rest w, yield_loop (fun f a s => (fst s, run f a (snd s))) (length rest) (length done) (done ++ rest, w) =
    (done ++ rest, foldl (fun w t => run (fn t) (targ t) w) w (filter (fun t => fn t <> 0) rest))) as Hgen.
  { intros done rest. revert done. induction rest as [|t rest IH]; intros done w'; [by rewrite app_nil_r|].
    cbn [length yield_loop fst]. rewrite lookup_app_r, Nat.sub_diag by done. cbn [lookup list_lookup].
    replace (S (length done)) with (length (done ++ [t])) by (rewrite length_app; cbn; lia).
    replace (done ++ t :: rest) with ((done ++ [t]) ++ rest) by (by rewrite <- app_assoc).
    rewrite filter_cons. destruct (Z.eqb_spec (fn t) 0) as [H0|H0]; cbn [fst snd].
    - rewrite IH. rewrite decide_False by (intros Hx; by apply Hx). done.
    - rewrite IH. by rewrite decide_True by done. }
  apply (Hgen [] ts w).
Qed.

(** ** Instances *)

Definition nq_demo : qm_noos_queue_t :=
  mk_queue (mk_ringbuf 6 0 2 (Some [0; 1; 2; 0; 0; 0]) 0) 2 3 true.

Lemma nq_demo_inv : queue_inv nq_demo [[1; 2]].
Proof.
  constructor; cbn; try done; try lia.
  - constructor; cbn; try lia. eexists; by split.
  - by repeat constructor.
Defined.

Lemma noos_queue_fifo_witness :
  (room nq_demo [[1; 2]] ->
   exists q', qm_noos_generic_queue_send (Some nq_demo) (Some [3; 4]) 2 = (QM_EOK, Some q')
      /\ queue_inv q' [[1; 2]; [3; 4]] /\ queue_len q' = 3 /\ queue_size q' = 2) /\
  (exists q', qm_noos_generic_queue_recv (Some nq_demo) = (QM_EOK, [1; 2], Some q')
      /\ queue_inv q' [] /\ queue_len q' = 3 /\ queue_size q' = 2).
Proof. exact (noos_queue_fifo nq_demo [[1; 2]] [3; 4] nq_demo_inv eq_refl). Defined.

Lemma noos_yield_calls_all_witness :
  qm_noos_task_yield (fun f a s => (fst s, snd s ++ [(f, a)]))
    ([mk_task 0 5 1; mk_task 0 0 2; mk_task 0 6 3; mk_task 0 0 0; mk_task 0 7 4], []) =
  (QM_EOK, ([mk_task 0 5 1; mk_task 0 0 2; mk_task 0 6 3; mk_task 0 0 0; mk_task 0 7 4], [(5, 1); (6, 3); (7, 4)])).
Proof.
  apply (noos_yield_calls_all (fun f a l => l ++ [(f, a)])
    [mk_task 0 5 1; mk_task 0 0 2; mk_task 0 6 3; mk_task 0 0 0; mk_task 0 7 4] []). reflexivity.
Defined.

End Noos.
