(* ===== verification/VirtualChannel.v ===== *)
(** * Virtual channels (components/virtual_channel/virtual_channel.c)

    Sockets inside one device: a server accepts connections on listening nodes, and
    the two nodes of a connection hold the bytes sent to them in ring buffers.  The
    tables are lists; a pointer to a node is its place ([loc]).  An index outside a
    table is [OutOfBounds], and so is an access to the bytes of a ring whose buffer
    is freed or was never allocated ([buf] is false).  Semaphores are counters,
    [None] when not created or freed; a wait without a unit ends by its timeout with
    the result [expired], also when the semaphore was freed meanwhile.  Where a call
    waits, [during] is what other threads do meanwhile. *)

From S2P Require Import Prelude Outcome Ring RingBuf.
Import list_relations.list list_basics.list.

Module VirtualChannel.

Definition QM_EFULL : Z := 3.
Definition QM_EIO : Z := 8.

Definition VC_ROLE_NONE : Z := 0.
Definition VC_ROLE_CLIENT : Z := 1.
Definition VC_ROLE_LISTEN : Z := 2.
Definition VC_ROLE_SERVER : Z := 3.

Definition VC_HOST_MAX_LEN : nat := 16.
Definition CONFIG_VC_SERVER_NUM : Z := 4.
Definition CONFIG_VC_LISTEN_NUM : Z := 8.
Definition CONFIG_VC_CLIENT_NUM : Z := 8.

(** The sizes of a node are never used.  [buf] tells whether the node has a buffer
    that is allocated; the bytes themselves are those of the ring. *)
Record vc_node_t := mk_node {
  role : Z;
  fd : Z;
  err_code : Z;
  server_fd : Z;
  client_fd : Z;
  buf : bool;
  signal : option Z;
  ringbuf : RingBuf.qm_ringbuf_t
}.

Record vc_server_t := mk_server {
  sfd : Z;
  host : list Z;       (* 17 characters *)
  port : Z;
  rd_size : Z;
  wr_size : Z;
  accept : option Z;
  vc_node : list vc_node_t
}.

Record vc_state := mk_vc { g_vc_server : list vc_server_t; g_vc_node : list vc_node_t }.

(** Static memory, and what [memset] leaves. *)
Definition zero_node : vc_node_t := mk_node 0 0 0 0 0 false None (RingBuf.mk_ringbuf 0 0 0 None 0).
Definition zero_server : vc_server_t :=
  mk_server 0 (replicate (S VC_HOST_MAX_LEN) 0) 0 0 0 None (replicate (Z.to_nat CONFIG_VC_LISTEN_NUM) zero_node).
Definition vc_init : vc_state :=
  mk_vc (replicate (Z.to_nat CONFIG_VC_SERVER_NUM) zero_server) (replicate (Z.to_nat CONFIG_VC_CLIENT_NUM) zero_node).

(** ** Places *)

Inductive loc := LClient (i : nat) | LListen (s i : nat).

Definition node_at (st : vc_state) (l : loc) : option vc_node_t :=
  match l with
  | LClient i => g_vc_node st !! i
  | LListen s i => sv ← g_vc_server st !! s; vc_node sv !! i
  end.

Definition set_nodes (ns : list vc_node_t) (sv : vc_server_t) : vc_server_t :=
  mk_server (sfd sv) (host sv) (port sv) (rd_size sv) (wr_size sv) (accept sv) ns.
Definition set_sfd (f : Z) (sv : vc_server_t) : vc_server_t :=
  mk_server f (host sv) (port sv) (rd_size sv) (wr_size sv) (accept sv) (vc_node sv).
Definition set_accept (a : option Z) (sv : vc_server_t) : vc_server_t :=
  mk_server (sfd sv) (host sv) (port sv) (rd_size sv) (wr_size sv) a (vc_node sv).

Definition on_server (s : nat) (f : vc_server_t -> vc_server_t) (st : vc_state) : vc_state :=
  mk_vc (alter f s (g_vc_server st)) (g_vc_node st).

Definition on_node (l : loc) (f : vc_node_t -> vc_node_t) (st : vc_state) : vc_state :=
  match l with
  | LClient i => mk_vc (g_vc_server st) (alter f i (g_vc_node st))
  | LListen s i => on_server s (fun sv => set_nodes (alter f i (vc_node sv)) sv) st
  end.

Definition set_fd (f : Z) (n : vc_node_t) : vc_node_t :=
  mk_node (role n) f (err_code n) (server_fd n) (client_fd n) (buf n) (signal n) (ringbuf n).
Definition set_err (e : Z) (n : vc_node_t) : vc_node_t :=
  mk_node (role n) (fd n) e (server_fd n) (client_fd n) (buf n) (signal n) (ringbuf n).
Definition set_client_fd (f : Z) (n : vc_node_t) : vc_node_t :=
  mk_node (role n) (fd n) (err_code n) (server_fd n) f (buf n) (signal n) (ringbuf n).
Definition set_server_fd (f : Z) (n : vc_node_t) : vc_node_t :=
  mk_node (role n) (fd n) (err_code n) f (client_fd n) (buf n) (signal n) (ringbuf n).
Definition set_signal (s : option Z) (n : vc_node_t) : vc_node_t :=
  mk_node (role n) (fd n) (err_code n) (server_fd n) (client_fd n) (buf n) s (ringbuf n).
Definition set_ringbuf (rb : RingBuf.qm_ringbuf_t) (n : vc_node_t) : vc_node_t :=
  mk_node (role n) (fd n) (err_code n) (server_fd n) (client_fd n) (buf n) (signal n) rb.
Definition set_buf (b : bool) (n : vc_node_t) : vc_node_t :=
  mk_node (role n) (fd n) (err_code n) (server_fd n) (client_fd n) b (signal n) (ringbuf n).
Definition set_role (r : Z) (n : vc_node_t) : vc_node_t :=
  mk_node r (fd n) (err_code n) (server_fd n) (client_fd n) (buf n) (signal n) (ringbuf n).

(** Index of an array by a C integer. *)
Definition index {A} (l : list A) (i : Z) : outcome A :=
  if i <? 0 then OutOfBounds else of_option (l !! Z.to_nat i).

Definition sem_signal (s : option Z) : option Z := (fun n => n + 1) <$> s.
(** Is there a unit to take? *)
Definition sem_ready (s : option Z) : bool := match s with Some n => n >? 0 | None => false end.
Definition sem_take (s : option Z) : option Z := (fun n => n - 1) <$> s.

(** The bytes of a ring are reached through the buffer of its node. *)
Definition buffer_access (n : vc_node_t) : outcome unit := if buf n then Ret tt else OutOfBounds.

(** First place of a list with a property, in the order of the loops. *)
Fixpoint find_from {A} (P : A -> bool) (i : nat) (l : list A) : option nat :=
  match l with
  | [] => None
  | x :: l => if P x then Some i else find_from P (S i) l
  end.

(** ** Descriptors *)

Definition vc_server_fd_new (st : vc_state) : Z * vc_state :=
  match find_from (fun sv => sfd sv =? 0) 0 (g_vc_server st) with
  | Some i => let f := Z.shiftl (Z.of_nat i + 1) 8 in (f, on_server i (set_sfd f) st)
  | None => (0, st)
  end.

Definition vc_server_fd_del (st : vc_state) (fd : Z) : outcome (Z * vc_state) :=
  let fd := Z.shiftr fd 8 in
  if (fd >? CONFIG_VC_SERVER_NUM) || (fd =? 0) then Ret (- QM_EINVAL, st)
  else
    _ ← index (g_vc_server st) (fd - 1);
    Ret (QM_EOK, on_server (Z.to_nat (fd - 1)) (set_sfd 0) st).

Definition vc_server_fd_is_valid (fd : Z) : bool :=
  if negb (u8 fd =? 0) then false
  else
    let fd := Z.shiftr fd 8 in
    negb ((fd >? CONFIG_VC_SERVER_NUM) || (fd =? 0)).

Definition vc_server_get (st : vc_state) (fd : Z) : outcome (option nat) :=
  if negb (vc_server_fd_is_valid fd) then Ret None
  else
    let fd := Z.shiftr fd 8 in
    sv ← index (g_vc_server st) (fd - 1);
    Ret (if sfd sv =? 0 then None else Some (Z.to_nat (fd - 1))).

Definition vc_listen_fd_is_valid (fd : Z) : bool :=
  if u8 fd =? 0 then false
  else
    let server_fd := Z.shiftr fd 8 in
    let listen_fd := u8 fd in
    if (server_fd >? CONFIG_VC_SERVER_NUM) || (server_fd =? 0) then false
    else if (listen_fd >? CONFIG_VC_LISTEN_NUM) || (listen_fd =? 0) then false
    else true.

Definition vc_listen_get (st : vc_state) (f : Z) : outcome (option loc) :=
  if negb (vc_listen_fd_is_valid f) then Ret None
  else
    let s := Z.shiftr f 8 in
    let l := u8 f in
    sv ← index (g_vc_server st) (s - 1);
    if sfd sv =? 0 then Ret None
    else
      n ← index (vc_node sv) (l - 1);
      Ret (if fd n =? 0 then None else Some (LListen (Z.to_nat (s - 1)) (Z.to_nat (l - 1)))).

Definition vc_listen_fd_del (st : vc_state) (fd : Z) : outcome (Z * vc_state) :=
  if negb (vc_listen_fd_is_valid fd) then Ret (- QM_EINVAL, st)
  else
    let s := Z.shiftr fd 8 in
    let l := u8 fd in
    sv ← index (g_vc_server st) (s - 1);
    _ ← index (vc_node sv) (l - 1);
    Ret (QM_EOK, on_node (LListen (Z.to_nat (s - 1)) (Z.to_nat (l - 1))) (set_fd 0) st).

Definition vc_client_get (st : vc_state) (f : Z) : outcome (option loc) :=
  if (f >? CONFIG_VC_CLIENT_NUM) || (f =? 0) then Ret None
  else
    n ← index (g_vc_node st) (f - 1);
    Ret (if fd n =? 0 then None else Some (LClient (Z.to_nat (f - 1)))).

Definition vc_client_fd_new (st : vc_state) : Z * vc_state :=
  match find_from (fun n => fd n =? 0) 0 (g_vc_node st) with
  | Some i => (Z.of_nat i + 1, on_node (LClient i) (set_fd (Z.of_nat i + 1)) st)
  | None => (0, st)
  end.

Definition vc_client_fd_del (st : vc_state) (fd : Z) : outcome (Z * vc_state) :=
  if (fd >? CONFIG_VC_CLIENT_NUM) || (fd =? 0) then Ret (- QM_EINVAL, st)
  else
    _ ← index (g_vc_node st) (fd - 1);
    Ret (QM_EOK, on_node (LClient (Z.to_nat (fd - 1))) (set_fd 0) st).

(** Characters before the terminator. *)
Fixpoint cstr (l : list Z) : list Z :=
  match l with [] => [] | c :: l => if c =? 0 then [] else c :: cstr l end.

Definition host_matches (sv : vc_server_t) (h : option (list Z)) (p : Z) : bool :=
  negb (sfd sv =? 0) && (port sv =? p) &&
  match h with
  | Some h => negb (length (cstr (host sv)) =? 0)%nat && bool_decide (cstr (host sv) = h)
  | None => (length (cstr (host sv)) =? 0)%nat
  end.

Definition vc_server_fd_find (st : vc_state) (h : option (list Z)) (p : Z) : Z :=
  match find_from (fun sv => host_matches sv h p) 0 (g_vc_server st) with
  | Some i => Z.shiftl (Z.of_nat i + 1) 8
  | None => 0
  end.

(** ** Connections *)

Definition vc_client_connect_set (st : vc_state) (server_fd client : Z) : outcome (Z * vc_state) :=
  o ← vc_server_get st server_fd;
  match o with
  | None => Ret (- QM_EINVAL, st)
  | Some s =>
      sv ← index (g_vc_server st) (Z.of_nat s);
      match find_from (fun n => (fd n =? 0) && (client_fd n =? 0)) 0 (vc_node sv) with
      | Some i => Ret (QM_EOK, on_node (LListen s i) (fun n => set_client_fd client (set_server_fd server_fd n)) st)
      | None => Ret (- QM_EIO, st)
      end
  end.

Definition vc_server_fd_accept (st : vc_state) (f : Z) : outcome (Z * vc_state) :=
  if negb (vc_server_fd_is_valid f) then Ret (0, st)
  else
    o ← vc_server_get st f;
    match o with
    | None => Ret (0, st)
    | Some s =>
        sv ← index (g_vc_server st) (Z.of_nat s);
        match find_from (fun n => fd n =? 0) 0 (vc_node sv) with
        | Some i =>
            let lfd := f + (Z.of_nat i + 1) in
            Ret (lfd, on_node (LListen s i) (fun n => set_fd lfd (set_server_fd f n)) st)
        | None => Ret (0, st)
        end
    end.

(** [memcpy] of a host name over the old one. *)
Definition copy_host (h old : list Z) : list Z := h ++ drop (length h) old.

(** [sem_ok] and [mutex_ok]: results of creating the semaphore and the mutex; a
    negative result is passed on. *)
Definition virtual_channel_server_creat (sem_ret mutex_ret : Z) (st : vc_state) (h : option (list Z))
    (p rd wr : Z) : outcome (Z * vc_state) :=
  if (rd =? 0) || (wr =? 0) then Ret (- QM_EINVAL, st)
  else if match h with Some h => (VC_HOST_MAX_LEN <? length h)%nat | None => false end then Ret (- QM_EINVAL, st)
  else
    let '(f, st1) := vc_server_fd_new st in
    if f =? 0 then Ret (- QM_EFULL, st1)
    else
      o ← vc_server_get st1 f;
      match o with
      | None => OutOfBounds
      | Some s =>
          let fill sv := mk_server (sfd sv) (match h with Some h => copy_host h (host sv) | None => host sv end)
                           p rd wr (accept sv) (vc_node sv) in
          let st2 := on_server s fill st1 in
          if negb (sem_ret =? QM_EOK) then
            '(_, st3) ← vc_server_fd_del st2 f; Ret (sem_ret, st3)
          else
            let st3 := on_server s (set_accept (Some 0)) st2 in
            if negb (mutex_ret =? QM_EOK) then
              '(_, st4) ← vc_server_fd_del (on_server s (set_accept None) st3) f; Ret (mutex_ret, st4)
            else Ret (f, st3)
      end.

(** Buffer, semaphore and mutex of a node; [Some ret] when one of them fails. *)
Definition node_setup (alloc_ok : bool) (sem_ret mutex_ret : Z) (l : loc) (rd : Z) (rl : Z) (st : vc_state)
  : option Z * vc_state :=
  if negb alloc_ok then (Some (- QM_ENOMEM), on_node l (fun n => set_buf false (set_signal None n)) st)
  else
    let st1 := on_node l (fun n => set_buf true
      (set_ringbuf (default (ringbuf n)
         (snd (RingBuf.qm_ringbuf_init (Some (ringbuf n)) (Some (RingBuf.zero_bytes rd)) rd))) n)) st in
    if negb (sem_ret =? QM_EOK) then (Some sem_ret, on_node l (fun n => set_buf false (set_signal None n)) st1)
    else if negb (mutex_ret =? QM_EOK) then (Some mutex_ret, on_node l (fun n => set_buf false (set_signal None n)) st1)
    else (None, on_node l (fun n => set_role rl (set_signal (Some 0) n)) st1).

Definition virtual_channel_listen_creat (alloc_ok : bool) (sem_ret mutex_ret : Z) (st : vc_state) (f rd wr : Z)
  : outcome (Z * vc_state) :=
  if (rd =? 0) || (wr =? 0) then Ret (- QM_EINVAL, st)
  else
    '(lfd, st1) ← vc_server_fd_accept st f;
    if lfd =? 0 then Ret (0, st1)
    else
      o ← vc_listen_get st1 lfd;
      match o with
      | None => Ret (0, st1)
      | Some l =>
          match node_setup alloc_ok sem_ret mutex_ret l rd VC_ROLE_LISTEN st1 with
          | (None, st2) => Ret (lfd, st2)
          | (Some _, st2) => '(_, st3) ← vc_listen_fd_del st2 lfd; Ret (0, st3)
          end
      end.

Definition virtual_channel_client_creat (alloc_ok : bool) (sem_ret mutex_ret : Z) (st : vc_state) (rd wr : Z)
  : outcome (Z * vc_state) :=
  if (rd =? 0) || (wr =? 0) then Ret (- QM_EINVAL, st)
  else
    let '(f, st1) := vc_client_fd_new st in
    if f =? 0 then Ret (- QM_EFULL, st1)
    else
      o ← vc_client_get st1 f;
      match o with
      | None => OutOfBounds
      | Some l =>
          match node_setup alloc_ok sem_ret mutex_ret l rd VC_ROLE_CLIENT st1 with
          | (None, st2) => Ret (f, st2)
          | (Some ret, st2) => '(_, st3) ← vc_client_fd_del st2 f; Ret (ret, st3)
          end
      end.

Definition signal_of (st : vc_state) (l : loc) : option Z := n ← node_at st l; signal n.

Definition virtual_channel_connect (during : vc_state -> outcome vc_state) (expired : Z) (st : vc_state) (f : Z)
    (h : option (list Z)) (p : Z) : outcome (Z * vc_state) :=
  if (f >? CONFIG_VC_CLIENT_NUM) || (f =? 0) then Ret (- QM_EINVAL, st)
  else
    let server_fd := vc_server_fd_find st h p in
    if server_fd =? 0 then Ret (- QM_EIO, st)
    else
      '(ret, st1) ← vc_client_connect_set st server_fd f;
      if negb (ret =? QM_EOK) then Ret (ret, st1)
      else
        o ← vc_server_get st1 server_fd;
        match o with
        | None => Ret (- QM_EIO, st1)
        | Some s =>
            c ← vc_client_get st1 f;
            match c with
            | None => Ret (- QM_EIO, st1)
            | Some l =>
                st2 ← during (on_server s (fun sv => set_accept (sem_signal (accept sv)) sv) st1);
                if sem_ready (signal_of st2 l)
                then Ret (QM_EOK, on_node l (fun n => set_signal (sem_take (signal n)) n) st2)
                else Ret (expired, st2)
            end
        end.

(** The wait for a connection has no timeout: [None] while there is none. *)
Definition virtual_channel_accept (alloc_ok : bool) (sem_ret mutex_ret : Z) (st : vc_state) (f : Z)
  : outcome (option (Z * vc_state)) :=
  o ← vc_server_get st f;
  match o with
  | None => Ret (Some (- QM_EINVAL, st))
  | Some s =>
      sv ← index (g_vc_server st) (Z.of_nat s);
      if negb (sem_ready (accept sv)) then Ret None
      else
        let st1 := on_server s (fun sv => set_accept (sem_take (accept sv)) sv) st in
        '(afd, st2) ← virtual_channel_listen_creat alloc_ok sem_ret mutex_ret st1 f (rd_size sv) (wr_size sv);
        if afd =? 0 then Ret (Some (0, st2))
        else
          l ← vc_listen_get st2 afd;
          match l with
          | None => Ret (Some (0, st2))
          | Some l =>
              n ← of_option (node_at st2 l);
              c ← vc_client_get st2 (client_fd n);
              match c with
              | None => Ret (Some (0, st2))
              | Some c =>
                  Ret (Some (afd, on_node c (fun n => set_signal (sem_signal (signal n)) (set_client_fd afd n)) st2))
              end
          end
  end.

Definition vc_role_get (f : Z) : Z :=
  if Z.shiftr f 8 >? 0 then if u8 f >? 0 then VC_ROLE_LISTEN else VC_ROLE_SERVER
  else if u8 f >? 0 then VC_ROLE_CLIENT
  else VC_ROLE_NONE.

Definition vc_node_write_get (st : vc_state) (f : Z) : outcome (option loc) :=
  let role := vc_role_get f in
  if role =? VC_ROLE_CLIENT then
    c ← vc_client_get st f;
    match c with
    | None => Ret None
    | Some l => n ← of_option (node_at st l); vc_listen_get st (client_fd n)
    end
  else if role =? VC_ROLE_LISTEN then
    c ← vc_listen_get st f;
    match c with
    | None => Ret None
    | Some l => n ← of_option (node_at st l); vc_client_get st (client_fd n)
    end
  else Ret None.

Definition vc_node_read_get (st : vc_state) (f : Z) : outcome (option loc) :=
  let role := vc_role_get f in
  if role =? VC_ROLE_CLIENT then vc_client_get st f
  else if role =? VC_ROLE_LISTEN then vc_listen_get st f
  else Ret None.

Definition virtual_channel_write (st : vc_state) (f : Z) (data : option (list Z)) (len : Z) : outcome (Z * vc_state) :=
  match data with
  | None => Ret (- QM_EINVAL, st)
  | Some d =>
      if (f =? 0) || (len =? 0) then Ret (- QM_EINVAL, st)
      else
        o ← vc_node_write_get st f;
        match o with
        | None => Ret (- QM_EIO, st)
        | Some l =>
            n ← of_option (node_at st l);
            _ ← buffer_access n;
            let '(w, rb) := RingBuf.qm_ringbuf_push (Some (ringbuf n)) (Some d) (i32 len) in
            Ret (w, on_node l (fun n => set_signal (sem_signal (signal n))
                                          (set_ringbuf (default (ringbuf n) rb) n)) st)
        end
  end.

(** The bytes read; a negative result has none. *)
Definition virtual_channel_read (during : vc_state -> outcome vc_state) (st : vc_state) (f len : Z) (has_data : bool)
  : outcome (Z * list Z * vc_state) :=
  if (f =? 0) || negb has_data || (len =? 0) then Ret (- QM_EINVAL, [], st)
  else
    o ← vc_node_read_get st f;
    match o with
    | None => Ret (- QM_EIO, [], st)
    | Some l =>
        n ← of_option (node_at st l);
        if negb (err_code n =? QM_EOK) then Ret (- QM_EIO, [], st)
        else
          '(out, st1) ← (
            if RingBuf.qm_ringbuf_isempty (ringbuf n) =? 0 then
              _ ← buffer_access n;
              let '(out, rb) := RingBuf.qm_ringbuf_pop (ringbuf n) (i32 len) in
              Ret (out, on_node l (set_ringbuf rb) st)
            else Ret ([], st));
          let read_len := Z.of_nat (length out) in
          if (RingBuf.qm_ringbuf_isempty (ringbuf n) =? 0) && (read_len =? len) then Ret (read_len, out, st1)
          else
            st2 ← during st1;
            if sem_ready (signal_of st2 l) then
              let st3 := on_node l (fun n => set_signal (sem_take (signal n)) n) st2 in
              n3 ← of_option (node_at st3 l);
              _ ← buffer_access n3;
              let '(out3, rb3) := RingBuf.qm_ringbuf_pop (ringbuf n3) (i32 (u32 (len - read_len))) in
              Ret (read_len + Z.of_nat (length out3), out ++ out3, on_node l (set_ringbuf rb3) st3)
            else Ret (read_len, out, st2)
    end.

Definition vc_client_destroy (st : vc_state) (f : Z) : outcome (Z * vc_state) :=
  if (f >? CONFIG_VC_CLIENT_NUM) || (f =? 0) then Ret (- QM_EINVAL, st)
  else
    o ← vc_client_get st f;
    match o with
    | None => Ret (- QM_EINVAL, st)
    | Some l =>
        n ← of_option (node_at st l);
        '(_, st1) ← vc_client_fd_del st f;
        st2 ← (if err_code n =? QM_EOK then
                 p ← vc_listen_get st1 (client_fd n);
                 Ret (match p with Some pl => on_node pl (set_err (- QM_EIO)) st1 | None => st1 end)
               else Ret st1);
        Ret (QM_EOK, on_node l (fun _ => zero_node) st2)
    end.

Definition vc_listen_destroy (st : vc_state) (f : Z) : outcome (Z * vc_state) :=
  o ← vc_listen_get st f;
  match o with
  | None => Ret (- QM_EINVAL, st)
  | Some l =>
      n ← of_option (node_at st l);
      '(_, st1) ← vc_listen_fd_del st f;
      st2 ← (if err_code n =? QM_EOK then
               p ← vc_client_get st1 (client_fd n);
               Ret (match p with Some pl => on_node pl (set_err (- QM_EIO)) st1 | None => st1 end)
             else Ret st1);
      Ret (QM_EOK, on_node l (fun _ => zero_node) st2)
  end.

(** The loop over the nodes of a server, from node [i] on. *)
Fixpoint destroy_loop (k i s : nat) (st : vc_state) : outcome vc_state :=
  match k with
  | O => Ret st
  | S k =>
      n ← of_option (node_at st (LListen s i));
      '(_, st1) ← (if fd n >? 0 then vc_listen_destroy st (fd n) else Ret (0, st));
      destroy_loop k (S i) s st1
  end.

Definition vc_server_destroy (st : vc_state) (f : Z) : outcome (Z * vc_state) :=
  o ← vc_server_get st f;
  match o with
  | None => Ret (- QM_EINVAL, st)
  | Some s =>
      '(_, st1) ← vc_server_fd_del st f;
      st2 ← destroy_loop (Z.to_nat CONFIG_VC_LISTEN_NUM) 0 s st1;
      Ret (QM_EOK, on_server s (fun _ => zero_server) st2)
  end.

Definition virtual_channel_destroy (st : vc_state) (f : Z) : outcome (Z * vc_state) :=
  let role := vc_role_get f in
  if role =? VC_ROLE_NONE then Ret (- QM_EINVAL, st)
  else if role =? VC_ROLE_CLIENT then vc_client_destroy st f
  else if role =? VC_ROLE_LISTEN then vc_listen_destroy st f
  else if role =? VC_ROLE_SERVER then vc_server_destroy st f
  else Ret (QM_EOK, st).

(** ** Well-formed tables *)

(** The descriptor of a place. *)
Definition fd_of (l : loc) : Z :=
  match l with
  | LClient i => Z.of_nat i + 1
  | LListen s i => (Z.of_nat s + 1) * 256 + (Z.of_nat i + 1)
  end.

Definition in_table (l : loc) : Prop :=
  match l with
  | LClient i => Z.of_nat i < CONFIG_VC_CLIENT_NUM
  | LListen s i => Z.of_nat s < CONFIG_VC_SERVER_NUM /\ Z.of_nat i < CONFIG_VC_LISTEN_NUM
  end.

(** A node that a descriptor or a waiting thread can reach. *)
Definition in_use (n : vc_node_t) : Prop := fd n <> 0 \/ is_Some (signal n).

(** [X] is the place of a node under construction, which may have a descriptor
    before it has a buffer. *)
Definition node_ok (X : option loc) (l : loc) (n : vc_node_t) : Prop :=
  (fd n = 0 \/ fd n = fd_of l) /\ 0 <= client_fd n /\ (X <> Some l -> in_use n -> buf n = true).

Definition server_ok (X : option loc) (s : nat) (sv : vc_server_t) : Prop :=
  (sfd sv = 0 \/ sfd sv = (Z.of_nat s + 1) * 256) /\ length (host sv) = S VC_HOST_MAX_LEN /\
  Z.of_nat (length (vc_node sv)) = CONFIG_VC_LISTEN_NUM /\
  forall i n, vc_node sv !! i = Some n -> node_ok X (LListen s i) n.

Record wf_but (X : option loc) (st : vc_state) : Prop := {
  wf_servers : Z.of_nat (length (g_vc_server st)) = CONFIG_VC_SERVER_NUM;
  wf_server : forall s sv, g_vc_server st !! s = Some sv -> server_ok X s sv;
  wf_clients : Z.of_nat (length (g_vc_node st)) = CONFIG_VC_CLIENT_NUM;
  wf_client : forall i n, g_vc_node st !! i = Some n -> node_ok X (LClient i) n
}.
Arguments wf_servers {X st}.
Arguments wf_server {X st}.
Arguments wf_clients {X st}.
Arguments wf_client {X st}.

(** Between calls every node in use has its buffer. *)
Abbreviation wf := (wf_but None).

Lemma zero_node_ok X l : node_ok X l zero_node.
Proof. split; [by left|]. split; [done|]. intros _ [?|[? ?]]; done. Qed.

Lemma wf_init : wf vc_init.
Proof.
  constructor; simpl; try done.
  - intros s sv Hs. change (replicate (Z.to_nat CONFIG_VC_SERVER_NUM) zero_server !! s = Some sv) in Hs.
    apply lookup_replicate in Hs as [-> _]. split; [by left|]. do 2 (split; [done|]).
    intros i n Hn. change (replicate (Z.to_nat CONFIG_VC_LISTEN_NUM) zero_node !! i = Some n) in Hn.
    apply lookup_replicate in Hn as [-> _]. apply zero_node_ok.
  - intros i n Hn. change (replicate (Z.to_nat CONFIG_VC_CLIENT_NUM) zero_node !! i = Some n) in Hn.
    apply lookup_replicate in Hn as [-> _]. apply zero_node_ok.
Qed.

Lemma wf_on_server X s f st :
  wf_but X st -> (forall sv, g_vc_server st !! s = Some sv -> server_ok X s sv -> server_ok X s (f sv)) -> wf_but X (on_server s f st).
Proof.
  intros [Hl Hs Hc Hn] Hf. constructor; simpl; try done.
  - by rewrite length_alter.
  - intros s' sv' Hl'. destruct (decide (s' = s)) as [->|].
    + rewrite list_lookup_alter_eq in Hl'. apply fmap_Some in Hl' as (sv & Hsv & ->). by auto.
    + rewrite list_lookup_alter_ne in Hl' by done. by auto.
Qed.

Lemma node_ok_mono X Y l n : (Y <> Some l -> X <> Some l) -> node_ok X l n -> node_ok Y l n.
Proof. intros HXY (H1 & H2 & H3). split; [done|]. split; [done|]. by auto. Qed.

(** Changing the node at [l]; the exemption may come or go there. *)
Lemma wf_on_node_but X Y l f st :
  wf_but X st -> (forall l', l' <> l -> Y <> Some l' -> X <> Some l') ->
  (forall n, node_at st l = Some n -> node_ok X l n -> node_ok Y l (f n)) -> wf_but Y (on_node l f st).
Proof.
  intros [Hl Hs Hc Hn] HXY Hf. destruct l as [i|s i]; cbn [on_node].
  - constructor; simpl; try done.
    + intros s sv Hsv. destruct (Hs s sv Hsv) as (H1 & H2 & H3 & H4). do 3 (split; [done|]).
      intros j n Hj. apply (node_ok_mono X); [by apply HXY|by auto].
    + by rewrite length_alter.
    + intros j n Hj. destruct (decide (j = i)) as [->|].
      * rewrite list_lookup_alter_eq in Hj. apply fmap_Some in Hj as (n0 & Hn0 & ->). by auto.
      * rewrite list_lookup_alter_ne in Hj by done. apply (node_ok_mono X); [apply HXY; congruence|by auto].
  - constructor; simpl; try done.
    + by rewrite length_alter.
    + intros s' sv' Hl'. destruct (decide (s' = s)) as [->|].
      * rewrite list_lookup_alter_eq in Hl'. apply fmap_Some in Hl' as (sv & Hsv & ->).
        destruct (Hs s sv Hsv) as (H1 & H2 & H3 & H4). do 2 (split; [done|]).
        simpl. split; [by rewrite length_alter|]. intros j n Hj. destruct (decide (j = i)) as [->|].
        -- rewrite list_lookup_alter_eq in Hj. apply fmap_Some in Hj as (n0 & Hn0 & ->). apply Hf; [|by auto].
           simpl. by rewrite Hsv.
        -- rewrite list_lookup_alter_ne in Hj by done. apply (node_ok_mono X); [apply HXY; congruence|by auto].
      * rewrite list_lookup_alter_ne in Hl' by done. destruct (Hs s' sv' Hl') as (H1 & H2 & H3 & H4).
        do 3 (split; [done|]). intros j nd Hj. apply (node_ok_mono X); [apply HXY; congruence|by auto].
    + intros j nd Hj. apply (node_ok_mono X); [by apply HXY|by auto].
Qed.

Lemma wf_on_node X l f st :
  wf_but X st -> (forall n, node_at st l = Some n -> node_ok X l n -> node_ok X l (f n)) -> wf_but X (on_node l f st).
Proof. intros Hwf Hf. by apply (wf_on_node_but X). Qed.

Lemma node_at_wf X st l : wf_but X st -> in_table l -> exists n, node_at st l = Some n /\ node_ok X l n.
Proof.
  intros Hwf Hl. destruct l as [i|s i]; simpl in *.
  - destruct (g_vc_node st !! i) as [n|] eqn:Hn.
    + exists n. split; [done|]. by apply Hwf.
    + apply lookup_ge_None in Hn. pose proof (wf_clients Hwf). lia.
  - destruct Hl as [Hs Hi]. destruct (g_vc_server st !! s) as [sv|] eqn:Hsv.
    + simpl. destruct (wf_server Hwf _ _ Hsv) as (_ & _ & Hlen & Hok).
      destruct (vc_node sv !! i) as [n|] eqn:Hn; [eauto|]. apply lookup_ge_None in Hn. lia.
    + apply lookup_ge_None in Hsv. pose proof (wf_servers Hwf). lia.
Qed.

Lemma index_in {A} (l : list A) i : 0 <= i < Z.of_nat (length l) -> exists x, index l i = Ret x /\ l !! Z.to_nat i = Some x.
Proof.
  intros Hi. unfold index. destruct (Z.ltb_spec i 0); [lia|].
  destruct (l !! Z.to_nat i) as [x|] eqn:Hx; [by exists x|]. apply lookup_ge_None in Hx. lia.
Qed.

Lemma vc_find_from_spec {A} (P : A -> bool) k l i :
  find_from P k l = Some i -> (k <= i)%nat /\ exists x, l !! (i - k)%nat = Some x /\ P x = true.
Proof.
  revert k. induction l as [|x l IH]; intros k Hf; simpl in Hf; [done|]. destruct (P x) eqn:Hp.
  - injection Hf as ->. rewrite Nat.sub_diag. split; [done|]. by exists x.
  - apply IH in Hf as [Hk (y & Hy & Hpy)]. split; [lia|]. exists y. split; [|done].
    by replace (i - k)%nat with (S (i - S k)) by lia.
Qed.

Lemma vc_find_first {A} (P : A -> bool) l i : find_from P 0 l = Some i -> exists x, l !! i = Some x /\ P x = true.
Proof. intros Hf. apply vc_find_from_spec in Hf as [_ (x & Hx & Hp)]. rewrite Nat.sub_0_r in Hx. eauto. Qed.

(** *** Looking up descriptors *)

Lemma shiftr8 f : Z.shiftr f 8 = f / 256.
Proof. by rewrite Z.shiftr_div_pow2. Qed.

Lemma server_get_wf X st f :
  wf_but X st -> 0 <= f -> exists o, vc_server_get st f = Ret o /\
    (forall s, o = Some s -> Z.of_nat s < CONFIG_VC_SERVER_NUM /\ f = (Z.of_nat s + 1) * 256 /\
       exists sv, g_vc_server st !! s = Some sv /\ sfd sv <> 0).
Proof.
  intros Hwf Hf. unfold vc_server_get, vc_server_fd_is_valid. rewrite !shiftr8.
  destruct (Z.eqb_spec (u8 f) 0) as [H8|]; cbn [negb]; [|by eexists].
  destruct (Z.gtb_spec (f / 256) CONFIG_VC_SERVER_NUM) as [|Hs]; cbn [orb negb]; [by eexists|].
  destruct (Z.eqb_spec (f / 256) 0) as [|H0]; cbn [negb]; [by eexists|].
  pose proof (wf_servers Hwf) as Hl. unfold CONFIG_VC_SERVER_NUM in *.
  assert (0 <= f / 256) by (apply Z.div_pos; lia).
  destruct (index_in (g_vc_server st) (f / 256 - 1)) as (sv & -> & Hsv); [lia|]. cbn [mbind outcome_bind].
  eexists. split; [reflexivity|]. intros s Hs'. destruct (Z.eqb_spec (sfd sv) 0); [done|]. injection Hs' as <-.
  split; [lia|]. split; [rewrite Z2Nat.id by lia; zsolve|eauto].
Qed.

Lemma listen_get_wf X st f :
  wf_but X st -> 0 <= f -> exists o, vc_listen_get st f = Ret o /\
    (forall l, o = Some l -> in_table l /\ fd_of l = f /\ vc_listen_fd_is_valid f = true /\ (exists s i, l = LListen s i) /\
       exists n, node_at st l = Some n /\ fd n = f).
Proof.
  intros Hwf Hf. unfold vc_listen_get. destruct (vc_listen_fd_is_valid f) eqn:Hv; [cbn [negb]|by eexists].
  unfold vc_listen_fd_is_valid in Hv. rewrite shiftr8 in *.
  destruct (Z.eqb_spec (u8 f) 0) as [|H8]; [done|].
  destruct (Z.gtb_spec (f / 256) CONFIG_VC_SERVER_NUM) as [|Hs]; cbn [orb] in Hv; [done|].
  destruct (Z.eqb_spec (f / 256) 0) as [|H0]; cbn [negb] in Hv; [done|].
  destruct (Z.gtb_spec (u8 f) CONFIG_VC_LISTEN_NUM) as [|Hi]; cbn [orb] in Hv; [done|].
  pose proof (wf_servers Hwf) as Hl. unfold CONFIG_VC_SERVER_NUM, CONFIG_VC_LISTEN_NUM in *.
  assert (0 <= f / 256) by (apply Z.div_pos; lia). pose proof (u8_range f) as Hu. unfold is_u8 in Hu.
  destruct (index_in (g_vc_server st) (f / 256 - 1)) as (sv & -> & Hsv); [lia|]. cbn [mbind outcome_bind].
  destruct (Z.eqb_spec (sfd sv) 0) as [|Hsfd]; [by eexists|].
  destruct (wf_server Hwf _ _ Hsv) as (_ & _ & Hlen & Hok). unfold CONFIG_VC_LISTEN_NUM in Hlen.
  destruct (index_in (vc_node sv) (u8 f - 1)) as (n & -> & Hn); [lia|]. cbn [mbind outcome_bind].
  eexists. split; [reflexivity|]. intros l Hl'. destruct (Z.eqb_spec (fd n) 0) as [|Hfd]; [done|]. injection Hl' as <-.
  assert (fd_of (LListen (Z.to_nat (f / 256 - 1)) (Z.to_nat (u8 f - 1))) = f) as Hfo.
  { simpl. rewrite !Z2Nat.id by lia. zsolve. }
  split; [simpl; unfold CONFIG_VC_SERVER_NUM, CONFIG_VC_LISTEN_NUM; lia|]. split; [done|]. split; [done|]. split; [eauto|].
  exists n. split; [simpl; by rewrite Hsv|]. destruct (Hok _ _ Hn) as [[?|Hx] _]; [done|]. congruence.
Qed.

Lemma client_get_wf X st f :
  wf_but X st -> 0 <= f -> exists o, vc_client_get st f = Ret o /\
    (forall l, o = Some l -> in_table l /\ fd_of l = f /\ l = LClient (Z.to_nat (f - 1)) /\
       exists n, node_at st l = Some n /\ fd n = f).
Proof.
  intros Hwf Hf. unfold vc_client_get.
  destruct (Z.gtb_spec f CONFIG_VC_CLIENT_NUM) as [|Hs]; cbn [orb]; [by eexists|].
  destruct (Z.eqb_spec f 0) as [|H0]; [by eexists|].
  pose proof (wf_clients Hwf) as Hl. unfold CONFIG_VC_CLIENT_NUM in *.
  destruct (index_in (g_vc_node st) (f - 1)) as (n & -> & Hn); [lia|]. cbn [mbind outcome_bind].
  eexists. split; [reflexivity|]. intros l Hl'. destruct (Z.eqb_spec (fd n) 0) as [|Hfd]; [done|]. injection Hl' as <-.
  assert (fd_of (LClient (Z.to_nat (f - 1))) = f) as Hfo by (simpl; lia).
  split; [simpl; unfold CONFIG_VC_CLIENT_NUM; lia|]. split; [done|]. split; [done|].
  exists n. split; [done|]. destruct (wf_client Hwf _ _ Hn) as [[?|Hx] _]; [done|]. congruence.
Qed.
(** *** Open descriptors *)

Lemma fd_of_client i : Z.of_nat i < CONFIG_VC_CLIENT_NUM -> vc_role_get (fd_of (LClient i)) = VC_ROLE_CLIENT.
Proof.
  unfold CONFIG_VC_CLIENT_NUM. intros Hi. unfold vc_role_get, fd_of. rewrite shiftr8, Z.div_small by lia. cbn [Z.gtb Z.compare].
  rewrite u8_id by (widths; lia). by destruct (Z.gtb_spec (Z.of_nat i + 1) 0); [|lia].
Qed.

Lemma fd_of_listen s i :
  Z.of_nat i < CONFIG_VC_LISTEN_NUM ->
  Z.shiftr (fd_of (LListen s i)) 8 = Z.of_nat s + 1 /\ u8 (fd_of (LListen s i)) = Z.of_nat i + 1.
Proof. unfold CONFIG_VC_LISTEN_NUM. intros Hi. rewrite shiftr8. simpl. split; zsolve. Qed.

Lemma role_listen s i : Z.of_nat i < CONFIG_VC_LISTEN_NUM -> vc_role_get (fd_of (LListen s i)) = VC_ROLE_LISTEN.
Proof.
  intros Hi. unfold vc_role_get. destruct (fd_of_listen s i Hi) as [-> ->].
  destruct (Z.gtb_spec (Z.of_nat s + 1) 0); [|lia]. by destruct (Z.gtb_spec (Z.of_nat i + 1) 0); [|lia].
Qed.

Lemma client_get_open st i n :
  Z.of_nat i < CONFIG_VC_CLIENT_NUM -> g_vc_node st !! i = Some n -> fd n <> 0 ->
  vc_client_get st (fd_of (LClient i)) = Ret (Some (LClient i)).
Proof.
  intros Hi Hn Hf. unfold vc_client_get, fd_of. destruct (Z.gtb_spec (Z.of_nat i + 1) CONFIG_VC_CLIENT_NUM); [lia|].
  destruct (Z.eqb_spec (Z.of_nat i + 1) 0); [lia|]. cbn [orb]. replace (Z.of_nat i + 1 - 1) with (Z.of_nat i) by lia.
  unfold index. destruct (Z.ltb_spec (Z.of_nat i) 0); [lia|]. rewrite Nat2Z.id, Hn. cbn [of_option mbind outcome_bind].
  by destruct (Z.eqb_spec (fd n) 0).
Qed.

Lemma listen_get_open st s i sv n :
  in_table (LListen s i) -> g_vc_server st !! s = Some sv -> sfd sv <> 0 -> vc_node sv !! i = Some n -> fd n <> 0 ->
  vc_listen_get st (fd_of (LListen s i)) = Ret (Some (LListen s i)).
Proof.
  intros [Hs Hi] Hsv Hsf Hn Hf. unfold vc_listen_get, vc_listen_fd_is_valid.
  destruct (fd_of_listen s i Hi) as [-> ->].
  destruct (Z.eqb_spec (Z.of_nat i + 1) 0); [lia|].
  destruct (Z.gtb_spec (Z.of_nat s + 1) CONFIG_VC_SERVER_NUM); [lia|]. destruct (Z.eqb_spec (Z.of_nat s + 1) 0); [lia|].
  destruct (Z.gtb_spec (Z.of_nat i + 1) CONFIG_VC_LISTEN_NUM); [lia|]. cbn [orb negb].
  replace (Z.of_nat s + 1 - 1) with (Z.of_nat s) by lia. replace (Z.of_nat i + 1 - 1) with (Z.of_nat i) by lia.
  unfold index. destruct (Z.ltb_spec (Z.of_nat s) 0); [lia|]. rewrite Nat2Z.id, Hsv. cbn [of_option mbind outcome_bind].
  destruct (Z.eqb_spec (sfd sv) 0); [done|]. destruct (Z.ltb_spec (Z.of_nat i) 0); [lia|].
  rewrite Nat2Z.id, Hn. cbn [of_option mbind outcome_bind]. by destruct (Z.eqb_spec (fd n) 0).
Qed.

Lemma fd_of_pos l : 0 < fd_of l.
Proof. destruct l; simpl; lia. Qed.

Lemma node_at_on_node st l f n : node_at st l = Some n -> node_at (on_node l f st) l = Some (f n).
Proof.
  destruct l as [i|s i]; simpl.
  - intros Hn. by rewrite list_lookup_alter_eq, Hn.
  - destruct (g_vc_server st !! s) as [sv|] eqn:Hsv; [|done]. simpl. intros Hn.
    rewrite list_lookup_alter_eq, Hsv. simpl. by rewrite list_lookup_alter_eq, Hn.
Qed.

Lemma node_at_on_node_ne st l l' f : l <> l' -> node_at (on_node l f st) l' = node_at st l'.
Proof.
  intros Hne. destruct l as [i|s i], l' as [j|t j]; simpl; try done.
  - rewrite list_lookup_alter_ne; [done|congruence].
  - destruct (decide (s = t)) as [->|].
    + rewrite list_lookup_alter_eq. destruct (g_vc_server st !! t); [|done]. simpl.
      rewrite list_lookup_alter_ne; [done|congruence].
    + by rewrite list_lookup_alter_ne.
Qed.

Lemma on_node_twice l f g st : on_node l f (on_node l g st) = on_node l (fun n => f (g n)) st.
Proof.
  destruct l as [i|s i], st as [svs ns]; unfold on_node, on_server; simpl; f_equal.
  - by rewrite list_alter_alter_eq.
  - rewrite list_alter_alter_eq. apply list_alter_ext; [|done]. intros sv _. simpl.
    unfold set_nodes. simpl. f_equal. by rewrite list_alter_alter_eq.
Qed.

Lemma server_on_server st s f sv :
  g_vc_server st !! s = Some sv -> g_vc_server (on_server s f st) !! s = Some (f sv).
Proof. intros Hs. simpl. by rewrite list_lookup_alter_eq, Hs. Qed.

Lemma server_on_listen st s i f sv :
  g_vc_server st !! s = Some sv -> g_vc_server (on_node (LListen s i) f st) !! s = Some (set_nodes (alter f i (vc_node sv)) sv).
Proof. intros Hs. by apply (server_on_server st s (fun sv => set_nodes (alter f i (vc_node sv)) sv)). Qed.

(** *** Every call keeps the tables *)

(** A call returns, and leaves well-formed tables. *)
Definition keeps {A} (o : outcome (A * vc_state)) : Prop := exists a st', o = Ret (a, st') /\ wf st'.

Lemma keeps_ret {A} (a : A) st : wf st -> keeps (Ret (a, st)).
Proof. intros Hwf. by exists a, st. Qed.

Lemma keeps_bind {A B} (o : outcome (A * vc_state)) (k : A * vc_state -> outcome (B * vc_state)) :
  keeps o -> (forall a st, wf st -> keeps (k (a, st))) -> keeps (o ≫= k).
Proof. intros (a & st & -> & Hwf) Hk. by apply Hk. Qed.

#[local] Hint Resolve keeps_ret : core.

(** Changes that do not touch the descriptors nor the buffer, and create no
    semaphore. *)
Definition same_node (f : vc_node_t -> vc_node_t) : Prop :=
  forall n, fd (f n) = fd n /\ client_fd (f n) = client_fd n /\ buf (f n) = buf n /\ (is_Some (signal (f n)) -> is_Some (signal n)).

Lemma same_set_err e : same_node (set_err e).
Proof. by intros n. Qed.
Lemma same_set_ringbuf rb : same_node (set_ringbuf rb).
Proof. by intros n. Qed.
Lemma same_signalled : same_node (fun n => set_signal (sem_signal (signal n)) n).
Proof. intros n. do 3 (split; [done|]). by destruct n as [? ? ? ? ? ? []]; intros []. Qed.
Lemma same_taken : same_node (fun n => set_signal (sem_take (signal n)) n).
Proof. intros n. do 3 (split; [done|]). by destruct n as [? ? ? ? ? ? []]; intros []. Qed.
#[local] Hint Resolve same_set_err same_set_ringbuf same_signalled same_taken : core.

Lemma node_ok_same X l f n : same_node f -> node_ok X l n -> node_ok X l (f n).
Proof.
  intros Hf (H1 & H2 & H3). destruct (Hf n) as (E1 & E2 & E3 & E4). unfold node_ok, in_use. rewrite E1, E2, E3.
  split; [done|]. split; [done|]. intros HX [?|?]; apply H3; unfold in_use; auto.
Qed.

Lemma wf_on_node_same X l f st : wf_but X st -> same_node f -> wf_but X (on_node l f st).
Proof. intros Hwf Hf. apply wf_on_node; [done|]. intros n _. by apply node_ok_same. Qed.

Lemma wf_set_fd0 X l st : wf_but X st -> wf_but X (on_node l (set_fd 0) st).
Proof.
  intros Hwf. apply wf_on_node; [done|]. intros n _ (_ & H2 & H3). split; [by left|]. split; [done|].
  intros HX [?|?]; [done|]. apply H3; [done|]. by right.
Qed.

Lemma wf_zero_node X l st : wf_but X st -> wf_but X (on_node l (fun _ => zero_node) st).
Proof. intros Hwf. apply wf_on_node; [done|]. intros n _ _. apply zero_node_ok. Qed.

Lemma wf_on_server_same X s f st :
  wf_but X st -> (forall sv, sfd (f sv) = sfd sv /\ length (host (f sv)) = length (host sv) /\ vc_node (f sv) = vc_node sv) ->
  wf_but X (on_server s f st).
Proof.
  intros Hwf Hf. apply wf_on_server; [done|]. intros sv _ (H1 & H2 & H3 & H4).
  destruct (Hf sv) as (E1 & E2 & E3). unfold server_ok. by rewrite E1, E2, E3.
Qed.

Lemma wf_set_sfd s st : wf st -> wf (on_server s (set_sfd 0) st).
Proof. intros Hwf. apply wf_on_server; [done|]. intros sv _ (_ & H). split; [by left|done]. Qed.

#[local] Hint Resolve wf_set_fd0 wf_zero_node wf_set_sfd : core.

Lemma server_fd_new_wf st :
  wf st -> let '(f, st') := vc_server_fd_new st in
    wf st' /\ 0 <= f /\ (f <> 0 -> exists s, vc_server_get st' f = Ret (Some s)).
Proof.
  intros Hwf. unfold vc_server_fd_new. destruct (find_from _ 0 _) as [i|] eqn:Hf; [|by split].
  apply vc_find_first in Hf as (sv & Hsv & _). rewrite Z.shiftl_mul_pow2 by lia.
  pose proof (lookup_lt_Some _ _ _ Hsv) as Hlt. pose proof (wf_servers Hwf) as Hl. unfold CONFIG_VC_SERVER_NUM in *.
  assert (wf (on_server i (set_sfd ((Z.of_nat i + 1) * 2 ^ 8)) st)) as Hwf'.
  { apply wf_on_server; [done|]. intros sv0 _ (_ & H). split; [by right|done]. }
  split; [done|]. split; [lia|]. intros _. exists i. unfold vc_server_get, vc_server_fd_is_valid. rewrite !shiftr8.
  replace (u8 _ =? 0) with true by (symmetry; apply Z.eqb_eq; zsolve). cbn [negb].
  replace ((Z.of_nat i + 1) * 2 ^ 8 / 256) with (Z.of_nat i + 1) by (symmetry; apply Z.div_mul; lia).
  destruct (Z.gtb_spec (Z.of_nat i + 1) CONFIG_VC_SERVER_NUM) as [|_]; [unfold CONFIG_VC_SERVER_NUM in *; lia|].
  destruct (Z.eqb_spec (Z.of_nat i + 1) 0); [lia|]. cbn [orb negb].
  replace (Z.of_nat i + 1 - 1) with (Z.of_nat i) by lia. unfold index.
  destruct (Z.ltb_spec (Z.of_nat i) 0); [lia|]. rewrite Nat2Z.id. simpl. rewrite list_lookup_alter_eq, Hsv. simpl.
  destruct (Z.eqb_spec ((Z.of_nat i + 1) * 2 ^ 8) 0); [lia|done].
Qed.

Lemma server_fd_del_keeps st f : wf st -> 0 <= f -> keeps (vc_server_fd_del st f).
Proof.
  intros Hwf Hf. unfold vc_server_fd_del. rewrite shiftr8.
  destruct (Z.gtb_spec (f / 256) CONFIG_VC_SERVER_NUM); cbn [orb]; [by auto|].
  destruct (Z.eqb_spec (f / 256) 0); [by auto|].
  assert (0 <= f / 256) by (apply Z.div_pos; lia).
  destruct (index_in (g_vc_server st) (f / 256 - 1)) as (sv & -> & _); [rewrite (wf_servers Hwf); lia|]. apply keeps_ret. by auto.
Qed.

Lemma listen_fd_del_keeps st f : wf st -> 0 <= f -> keeps (vc_listen_fd_del st f).
Proof.
  intros Hwf Hf. unfold vc_listen_fd_del. destruct (vc_listen_fd_is_valid f) eqn:Hv; [cbn [negb]|by apply keeps_ret].
  unfold vc_listen_fd_is_valid in Hv. rewrite shiftr8 in *. destruct (Z.eqb_spec (u8 f) 0); [done|].
  destruct (Z.gtb_spec (f / 256) CONFIG_VC_SERVER_NUM); cbn [orb] in Hv; [done|].
  destruct (Z.eqb_spec (f / 256) 0); [done|].
  destruct (Z.gtb_spec (u8 f) CONFIG_VC_LISTEN_NUM); cbn [orb] in Hv; [done|].
  assert (0 <= f / 256) by (apply Z.div_pos; lia). pose proof (u8_range f) as Hu. unfold is_u8 in Hu.
  destruct (index_in (g_vc_server st) (f / 256 - 1)) as (sv & -> & Hsv); [rewrite (wf_servers Hwf); lia|].
  destruct (wf_server Hwf _ _ Hsv) as (_ & _ & Hlen & _). cbn [mbind outcome_bind].
  destruct (index_in (vc_node sv) (u8 f - 1)) as (nd & -> & _); [lia|]. apply keeps_ret. by auto.
Qed.

Lemma client_fd_del_keeps st f : wf st -> 0 <= f -> keeps (vc_client_fd_del st f).
Proof.
  intros Hwf Hf. unfold vc_client_fd_del.
  destruct (Z.gtb_spec f CONFIG_VC_CLIENT_NUM); cbn [orb]; [by auto|]. destruct (Z.eqb_spec f 0); [by auto|].
  destruct (index_in (g_vc_node st) (f - 1)) as (nd & -> & _); [rewrite (wf_clients Hwf); lia|]. apply keeps_ret. by auto.
Qed.

Lemma client_fd_del_at X st i :
  wf_but X st -> in_table (LClient i) ->
  vc_client_fd_del st (fd_of (LClient i)) = Ret (QM_EOK, on_node (LClient i) (set_fd 0) st).
Proof.
  intros Hwf Hi. simpl in Hi. unfold vc_client_fd_del, fd_of. destruct (Z.gtb_spec (Z.of_nat i + 1) CONFIG_VC_CLIENT_NUM); [lia|].
  destruct (Z.eqb_spec (Z.of_nat i + 1) 0); [lia|]. cbn [orb]. replace (Z.of_nat i + 1 - 1) with (Z.of_nat i) by lia.
  destruct (index_in (g_vc_node st) (Z.of_nat i)) as (nd & -> & _); [rewrite (wf_clients Hwf); lia|]. by rewrite Nat2Z.id.
Qed.

Lemma listen_fd_del_at X st s i :
  wf_but X st -> in_table (LListen s i) ->
  vc_listen_fd_del st (fd_of (LListen s i)) = Ret (QM_EOK, on_node (LListen s i) (set_fd 0) st).
Proof.
  intros Hwf [Hs Hi]. unfold vc_listen_fd_del, vc_listen_fd_is_valid. destruct (fd_of_listen s i Hi) as [-> ->].
  destruct (Z.eqb_spec (Z.of_nat i + 1) 0); [lia|].
  destruct (Z.gtb_spec (Z.of_nat s + 1) CONFIG_VC_SERVER_NUM); [lia|]. destruct (Z.eqb_spec (Z.of_nat s + 1) 0); [lia|].
  destruct (Z.gtb_spec (Z.of_nat i + 1) CONFIG_VC_LISTEN_NUM); [lia|]. cbn [orb negb].
  replace (Z.of_nat s + 1 - 1) with (Z.of_nat s) by lia. replace (Z.of_nat i + 1 - 1) with (Z.of_nat i) by lia.
  destruct (index_in (g_vc_server st) (Z.of_nat s)) as (sv & -> & Hsv); [rewrite (wf_servers Hwf); lia|].
  destruct (wf_server Hwf _ _ Hsv) as (_ & _ & Hlen & _). cbn [mbind outcome_bind].
  destruct (index_in (vc_node sv) (Z.of_nat i)) as (nd & -> & _); [lia|]. by rewrite !Nat2Z.id.
Qed.

(** A new descriptor names a node that has no buffer yet. *)
Lemma client_fd_new_wf st :
  wf st -> let '(f, st') := vc_client_fd_new st in
    (f = 0 /\ st' = st) \/
    exists i, f = fd_of (LClient i) /\ in_table (LClient i) /\ wf_but (Some (LClient i)) st' /\ vc_client_get st' f = Ret (Some (LClient i)).
Proof.
  intros Hwf. unfold vc_client_fd_new. destruct (find_from _ 0 _) as [i|] eqn:Hf; [|by left].
  apply vc_find_first in Hf as (n & Hn & _). right. exists i.
  pose proof (lookup_lt_Some _ _ _ Hn) as Hlt. pose proof (wf_clients Hwf) as Hl.
  assert (in_table (LClient i)) as Hin by (simpl; lia). split; [done|]. split; [done|]. split.
  - apply (wf_on_node_but None); [done|congruence|]. intros n0 _ (_ & H2 & _). split; [by right|done].
  - apply (client_get_open _ i (set_fd (Z.of_nat i + 1) n)); [done|simpl; by rewrite list_lookup_alter_eq, Hn|simpl; lia].
Qed.

(** The node gets its buffer, or nothing that a descriptor or a waiting thread
    could use is left after the descriptor is deleted. *)
Lemma node_setup_wf a sr mr l rd rl st :
  wf_but (Some l) st ->
  match node_setup a sr mr l rd rl st with
  | (None, st') => wf st'
  | (Some _, st') => wf_but (Some l) st' /\ wf (on_node l (set_fd 0) st')
  end.
Proof.
  intros Hwf. unfold node_setup.
  destruct a; cbn [negb]; [destruct (sr =? QM_EOK); cbn [negb]; [destruct (mr =? QM_EOK); cbn [negb]|]|];
    rewrite !on_node_twice; repeat (lazymatch goal with |- _ /\ _ => split end);
    (apply (wf_on_node_but (Some l)); [done|congruence|]); intros n _ (H1 & H2 & _);
    (split; [first [done|by left]|]); (split; [done|]); intros HX [?|[? ?]]; done.
Qed.

Lemma server_creat_keeps sr mr st h p rd wr : wf st -> keeps (virtual_channel_server_creat sr mr st h p rd wr).
Proof.
  intros Hwf. unfold virtual_channel_server_creat. destruct (_ || _); [by auto|].
  destruct (match h with Some _ => _ | None => _ end) eqn:Hh; [by auto|].
  pose proof (server_fd_new_wf st Hwf) as Hn. destruct (vc_server_fd_new st) as [f st1]. destruct Hn as (Hwf1 & Hf & Hg).
  destruct (Z.eqb_spec f 0); [by auto|]. destruct (Hg ltac:(done)) as [s ->]. cbn [mbind outcome_bind].
  match goal with |- context [on_server s ?g st1] => assert (wf (on_server s g st1)) as Hwf2 end.
  { apply wf_on_server; [done|]. intros sv _ (H1 & H2 & H3 & H4). split; [done|]. split; [|done]. simpl.
    destruct h as [h|]; [|done]. apply Nat.ltb_ge in Hh. unfold copy_host. rewrite length_app, length_drop. lia. }
  destruct (sr =? QM_EOK); cbn [negb].
  - destruct (mr =? QM_EOK); cbn [negb]; [apply keeps_ret; by apply wf_on_server_same|].
    apply keeps_bind; [|by auto]. apply server_fd_del_keeps; [|done]. by repeat (apply wf_on_server_same; [|done]).
  - apply keeps_bind; [by apply server_fd_del_keeps|by auto].
Qed.

Lemma client_creat_keeps a sr mr st rd wr : wf st -> keeps (virtual_channel_client_creat a sr mr st rd wr).
Proof.
  intros Hwf. unfold virtual_channel_client_creat. destruct (_ || _); [by auto|].
  pose proof (client_fd_new_wf st Hwf) as Hn. destruct (vc_client_fd_new st) as [f st1].
  destruct Hn as [[-> ->]|(i & -> & Hi & Hwf1 & ->)]; [by apply keeps_ret|].
  pose proof (fd_of_pos (LClient i)). destruct (Z.eqb_spec (fd_of (LClient i)) 0); [lia|]. cbn [mbind outcome_bind].
  pose proof (node_setup_wf a sr mr (LClient i) rd VC_ROLE_CLIENT st1 Hwf1) as Hwf2.
  destruct (node_setup _ _ _ _ _ _ _) as [[r|] st2]; [|by auto]. destruct Hwf2 as [Hwf2 Hwf3].
  rewrite (client_fd_del_at _ st2 i Hwf2 Hi). by apply keeps_ret.
Qed.

Lemma server_fd_accept_wf st f :
  wf st -> 0 <= f -> exists lfd st', vc_server_fd_accept st f = Ret (lfd, st') /\
    ((lfd = 0 /\ st' = st) \/
     exists s i, lfd = fd_of (LListen s i) /\ in_table (LListen s i) /\ wf_but (Some (LListen s i)) st' /\
       vc_listen_get st' lfd = Ret (Some (LListen s i))).
Proof.
  intros Hwf Hf. unfold vc_server_fd_accept. destruct (vc_server_fd_is_valid f); cbn [negb]; [|exists 0, st; by auto].
  destruct (server_get_wf _ st f Hwf Hf) as (o & -> & Ho). cbn [mbind outcome_bind]. destruct o as [s|]; [|exists 0, st; by auto].
  destruct (Ho s eq_refl) as (Hs & Hfs & sv & Hsv & Hsf). unfold index.
  destruct (Z.ltb_spec (Z.of_nat s) 0); [lia|]. rewrite Nat2Z.id, Hsv. cbn [of_option mbind outcome_bind].
  destruct (find_from _ 0 _) as [i|] eqn:Hfi; [|exists 0, st; by auto]. apply vc_find_first in Hfi as (n & Hn & _).
  pose proof (lookup_lt_Some _ _ _ Hn) as Hlt. destruct (wf_server Hwf _ _ Hsv) as (_ & _ & Hlen & _).
  assert (in_table (LListen s i)) as Hin by (simpl; lia).
  assert (f + (Z.of_nat i + 1) = fd_of (LListen s i)) as -> by (simpl; lia). pose proof (fd_of_pos (LListen s i)).
  eexists _, _. split; [reflexivity|]. right. exists s, i. split; [done|]. split; [done|]. split.
  - apply (wf_on_node_but None); [done|congruence|]. intros n0 _ (_ & H2 & _). split; [by right|done].
  - eapply (listen_get_open _ s i); [done|by apply server_on_listen|done|simpl; by rewrite list_lookup_alter_eq, Hn|simpl in *; lia].
Qed.

Lemma listen_creat_wf a sr mr st f rd wr :
  wf st -> 0 <= f -> exists lfd st',
    virtual_channel_listen_creat a sr mr st f rd wr = Ret (lfd, st') /\ wf st' /\ (0 <= lfd \/ lfd = - QM_EINVAL).
Proof.
  intros Hwf Hf. unfold virtual_channel_listen_creat.
  destruct (_ || _); [exists (- QM_EINVAL), st; auto|].
  destruct (server_fd_accept_wf st f Hwf Hf) as (lfd & st1 & -> & H1). cbn [mbind outcome_bind].
  destruct H1 as [[-> ->]|(s & i & -> & Hi & Hwf1 & Hg)]; [exists 0, st; auto with lia|].
  pose proof (fd_of_pos (LListen s i)). destruct (Z.eqb_spec (fd_of (LListen s i)) 0); [lia|]. rewrite Hg. cbn [mbind outcome_bind].
  pose proof (node_setup_wf a sr mr (LListen s i) rd VC_ROLE_LISTEN st1 Hwf1) as Hwf2.
  destruct (node_setup _ _ _ _ _ _ _) as [[r|] st2]; [|exists (fd_of (LListen s i)), st2; auto with lia].
  destruct Hwf2 as [Hwf2 Hwf3]. rewrite (listen_fd_del_at _ st2 s i Hwf2 Hi). eexists 0, _. split; [reflexivity|]. auto with lia.
Qed.

Lemma listen_get_refused st : vc_listen_get st (- QM_EINVAL) = Ret None.
Proof. done. Qed.

(** Finding a node from an open descriptor of either side. *)
Lemma get_client_fd st l n : wf st -> node_at st l = Some n -> in_table l -> 0 <= client_fd n.
Proof.
  intros Hwf Hn Hl. destruct (node_at_wf _ st l Hwf Hl) as (n' & Hn' & (_ & Hc & _)). congruence.
Qed.

Lemma accept_keeps a sr mr st f :
  wf st -> 0 <= f -> exists o, virtual_channel_accept a sr mr st f = Ret o /\ forall r st', o = Some (r, st') -> wf st'.
Proof.
  intros Hwf Hf. unfold virtual_channel_accept.
  destruct (server_get_wf _ st f Hwf Hf) as (o & -> & Ho). cbn [mbind outcome_bind].
  destruct o as [s|]; [|eexists; split; [reflexivity|]; by intros ? ? [= <- <-]].
  destruct (Ho s eq_refl) as (Hs & Hfs & sv & Hsv & _). unfold index.
  destruct (Z.ltb_spec (Z.of_nat s) 0); [lia|]. rewrite Nat2Z.id, Hsv. cbn [of_option mbind outcome_bind].
  destruct (sem_ready _); cbn [negb]; [|by eexists].
  match goal with |- context [virtual_channel_listen_creat _ _ _ ?st1] => assert (wf st1) as Hwf1 by (by apply wf_on_server_same) end.
  edestruct (listen_creat_wf a sr mr _ f (rd_size sv) (wr_size sv) Hwf1 Hf) as (afd & st2 & -> & Hwf2 & Ha).
  cbn [mbind outcome_bind]. destruct (Z.eqb_spec afd 0) as [|Hne]; [eexists; split; [reflexivity|]; by intros ? ? [= <- <-]|].
  destruct Ha as [Ha| ->]; [|rewrite listen_get_refused; eexists; split; [reflexivity|]; by intros ? ? [= <- <-]].
  destruct (listen_get_wf _ st2 afd Hwf2 Ha) as (ol & -> & Hol). cbn [mbind outcome_bind].
  destruct ol as [l|]; [|eexists; split; [reflexivity|]; by intros ? ? [= <- <-]].
  destruct (Hol l eq_refl) as (Hin & _ & _ & _ & n & Hn & _). rewrite Hn. cbn [of_option mbind outcome_bind].
  pose proof (get_client_fd _ _ _ Hwf2 Hn Hin) as Hc.
  destruct (client_get_wf _ st2 (client_fd n) Hwf2 Hc) as (oc & -> & Hoc). cbn [mbind outcome_bind].
  destruct oc as [c|]; eexists; (split; [reflexivity|]); intros ? ? [= <- <-]; [|done].
  apply wf_on_node; [done|]. intros n0 _ Hn0. apply (node_ok_same None c _ n0 same_signalled) in Hn0 as (H1 & _ & H3).
  split; [exact H1|]. split; [exact Ha|exact H3].
Qed.

Lemma connect_keeps during e st f h p :
  wf st -> 0 <= f -> (forall s, wf s -> exists s', during s = Ret s' /\ wf s') -> keeps (virtual_channel_connect during e st f h p).
Proof.
  intros Hwf Hf Hd. unfold virtual_channel_connect. destruct (_ || _); [by auto|].
  destruct (_ =? 0) eqn:Hz; [by auto|].
  assert (0 <= vc_server_fd_find st h p) as Hsf.
  { unfold vc_server_fd_find. case_match; [|done]. rewrite Z.shiftl_mul_pow2; lia. }
  set (sf := vc_server_fd_find st h p) in *.
  assert (keeps (vc_client_connect_set st sf f)) as Hk.
  { unfold vc_client_connect_set. destruct (server_get_wf _ st sf Hwf Hsf) as (o & -> & Ho). cbn [mbind outcome_bind].
    destruct o as [s|]; [|by auto]. destruct (Ho s eq_refl) as (_ & _ & sv & Hsv & _). unfold index.
    destruct (Z.ltb_spec (Z.of_nat s) 0); [lia|]. rewrite Nat2Z.id, Hsv. cbn [of_option mbind outcome_bind].
    destruct (find_from _ 0 _); [|by auto]. apply keeps_ret. apply wf_on_node; [done|].
    intros nd _ (H1 & _ & H3). split; [done|]. split; [exact Hf|exact H3]. }
  apply keeps_bind; [done|]. intros ret st1 Hwf1. destruct (_ =? QM_EOK); cbn [negb]; [|by auto].
  destruct (server_get_wf _ st1 sf Hwf1 Hsf) as (o & -> & _). cbn [mbind outcome_bind]. destruct o as [s|]; [|by auto].
  destruct (client_get_wf _ st1 f Hwf1 Hf) as (c & -> & _). cbn [mbind outcome_bind]. destruct c as [l|]; [|by auto].
  match goal with |- context [during ?x] => destruct (Hd x) as (st2 & -> & Hwf2); [by apply wf_on_server_same|] end.
  cbn [mbind outcome_bind].
  destruct (sem_ready _); [|by auto]. apply keeps_ret. apply wf_on_node_same; auto.
Qed.

(** A node that has a descriptor has its buffer, and so has one with a semaphore. *)
Lemma found_buffer st l n : wf st -> in_table l -> node_at st l = Some n -> in_use n -> buf n = true.
Proof.
  intros Hwf Hl Hn Hu. destruct (node_at_wf _ st l Hwf Hl) as (n' & Hn' & (_ & _ & Hb)).
  rewrite Hn in Hn'. injection Hn' as <-. by apply Hb.
Qed.

Lemma client_get_buffer st f :
  wf st -> 0 <= f -> exists o, vc_client_get st f = Ret o /\
    (forall l, o = Some l -> in_table l /\ exists n, node_at st l = Some n /\ buf n = true).
Proof.
  intros Hwf Hf. destruct (client_get_wf _ st f Hwf Hf) as (o & -> & Ho). exists o. split; [done|]. intros l Hl.
  destruct (Ho l Hl) as (Hin & Hfo & _ & n & Hn & Hfd). pose proof (fd_of_pos l). split; [done|]. exists n. split; [done|].
  apply (found_buffer st l n Hwf Hin Hn). left. lia.
Qed.

Lemma listen_get_buffer st f :
  wf st -> 0 <= f -> exists o, vc_listen_get st f = Ret o /\
    (forall l, o = Some l -> in_table l /\ exists n, node_at st l = Some n /\ buf n = true).
Proof.
  intros Hwf Hf. destruct (listen_get_wf _ st f Hwf Hf) as (o & -> & Ho). exists o. split; [done|]. intros l Hl.
  destruct (Ho l Hl) as (Hin & Hfo & _ & _ & n & Hn & Hfd). pose proof (fd_of_pos l). split; [done|]. exists n. split; [done|].
  apply (found_buffer st l n Hwf Hin Hn). left. lia.
Qed.

Lemma write_get_wf st f :
  wf st -> 0 <= f -> exists o, vc_node_write_get st f = Ret o /\ (forall l, o = Some l -> exists n, node_at st l = Some n /\ buf n = true).
Proof.
  intros Hwf Hf. unfold vc_node_write_get. destruct (_ =? VC_ROLE_CLIENT).
  - destruct (client_get_wf _ st f Hwf Hf) as (o & -> & Ho). cbn [mbind outcome_bind]. destruct o as [l|]; [|by exists None].
    destruct (Ho l eq_refl) as (Hin & _ & _ & n & Hn & _). rewrite Hn. cbn [of_option mbind outcome_bind].
    destruct (listen_get_buffer st (client_fd n) Hwf (get_client_fd _ _ _ Hwf Hn Hin)) as (o & -> & Ho').
    exists o. split; [done|]. intros l' Hl'. by apply Ho'.
  - destruct (_ =? VC_ROLE_LISTEN); [|by exists None].
    destruct (listen_get_wf _ st f Hwf Hf) as (o & -> & Ho). cbn [mbind outcome_bind]. destruct o as [l|]; [|by exists None].
    destruct (Ho l eq_refl) as (Hin & _ & _ & _ & n & Hn & _). rewrite Hn. cbn [of_option mbind outcome_bind].
    destruct (client_get_buffer st (client_fd n) Hwf (get_client_fd _ _ _ Hwf Hn Hin)) as (o & -> & Ho').
    exists o. split; [done|]. intros l' Hl'. by apply Ho'.
Qed.

Lemma read_get_wf st f :
  wf st -> 0 <= f -> exists o, vc_node_read_get st f = Ret o /\ (forall l, o = Some l -> in_table l /\ exists n, node_at st l = Some n /\ buf n = true).
Proof.
  intros Hwf Hf. unfold vc_node_read_get. destruct (_ =? VC_ROLE_CLIENT); [|destruct (_ =? VC_ROLE_LISTEN); [|by exists None]].
  - by apply client_get_buffer.
  - by apply listen_get_buffer.
Qed.

Lemma write_keeps st f d len : wf st -> 0 <= f -> keeps (virtual_channel_write st f d len).
Proof.
  intros Hwf Hf. unfold virtual_channel_write. destruct d as [d|]; [|by auto]. destruct (_ || _); [by auto|].
  destruct (write_get_wf st f Hwf Hf) as (o & -> & Ho). cbn [mbind outcome_bind]. destruct o as [l|]; [|by auto].
  destruct (Ho l eq_refl) as (n & -> & Hb). cbn [of_option mbind outcome_bind]. unfold buffer_access. rewrite Hb.
  cbn [mbind outcome_bind]. destruct (RingBuf.qm_ringbuf_push _ _ _) as [w rb]. apply keeps_ret.
  apply wf_on_node; [done|]. intros n0 _ Hn0.
  exact (node_ok_same None l _ _ same_signalled (node_ok_same None l _ _ (same_set_ringbuf (default (ringbuf n0) rb)) Hn0)).
Qed.

Lemma read_keeps during st f len hd :
  wf st -> 0 <= f -> (forall s, wf s -> exists s', during s = Ret s' /\ wf s') -> keeps (virtual_channel_read during st f len hd).
Proof.
  intros Hwf Hf Hd. unfold virtual_channel_read. destruct (_ || _ || _); [by auto|].
  destruct (read_get_wf st f Hwf Hf) as (o & -> & Ho). cbn [mbind outcome_bind]. destruct o as [l|]; [|by auto].
  destruct (Ho l eq_refl) as (Hin & n & -> & Hb). cbn [of_option mbind outcome_bind].
  destruct (err_code n =? QM_EOK); cbn [negb]; [|by auto].
  set (e := RingBuf.qm_ringbuf_isempty (ringbuf n) =? 0).
  match goal with |- keeps (?x ≫= _) => assert (exists out st1, x = Ret (out, st1) /\ wf st1) as (out & st1 & -> & Hwf1) end.
  { destruct e; [|by eauto]. unfold buffer_access. rewrite Hb. cbn [mbind outcome_bind]. destruct (RingBuf.qm_ringbuf_pop _ _). eexists _, _. split; [done|]. apply wf_on_node_same; auto. }
  cbn [mbind outcome_bind]. destruct (e && _); [by auto|]. destruct (Hd _ Hwf1) as (st2 & -> & Hwf2). cbn [mbind outcome_bind].
  destruct (sem_ready _) eqn:Hr; [|by auto]. destruct (node_at_wf _ st2 l Hwf2 Hin) as (n2 & Hn2 & _).
  assert (buf n2 = true) as Hb2.
  { apply (found_buffer st2 l n2 Hwf2 Hin Hn2). right. unfold signal_of in Hr. rewrite Hn2 in Hr. cbn in Hr. by destruct (signal n2). }
  rewrite (node_at_on_node st2 l _ n2 Hn2). cbn [of_option mbind outcome_bind buf set_signal]. unfold buffer_access. cbn [buf set_signal].
  rewrite Hb2. cbn [mbind outcome_bind].
  destruct (RingBuf.qm_ringbuf_pop _ _) as [out3 rb3]. apply keeps_ret. repeat (apply wf_on_node_same; [|by auto]). done.
Qed.

Lemma client_destroy_keeps st f : wf st -> 0 <= f -> keeps (vc_client_destroy st f).
Proof.
  intros Hwf Hf. unfold vc_client_destroy. destruct (_ || _); [by auto|].
  destruct (client_get_wf _ st f Hwf Hf) as (o & -> & Ho). cbn [mbind outcome_bind]. destruct o as [l|]; [|by auto].
  destruct (Ho l eq_refl) as (Hin & _ & _ & n & Hn & _). rewrite Hn. cbn [of_option mbind outcome_bind].
  apply keeps_bind; [by apply client_fd_del_keeps|]. intros r st1 Hwf1.
  destruct (err_code n =? QM_EOK); [|apply keeps_ret; by auto].
  destruct (listen_get_wf _ st1 (client_fd n) Hwf1 (get_client_fd _ _ _ Hwf Hn Hin)) as (p & -> & _).
  cbn [mbind outcome_bind]. apply keeps_ret. destruct p; [|by auto]. apply wf_zero_node. apply wf_on_node_same; auto.
Qed.

Lemma listen_destroy_keeps st f : wf st -> 0 <= f -> keeps (vc_listen_destroy st f).
Proof.
  intros Hwf Hf. unfold vc_listen_destroy.
  destruct (listen_get_wf _ st f Hwf Hf) as (o & -> & Ho). cbn [mbind outcome_bind]. destruct o as [l|]; [|by auto].
  destruct (Ho l eq_refl) as (Hin & _ & _ & _ & n & Hn & _). rewrite Hn. cbn [of_option mbind outcome_bind].
  apply keeps_bind; [by apply listen_fd_del_keeps|]. intros r st1 Hwf1.
  destruct (err_code n =? QM_EOK); [|apply keeps_ret; by auto].
  destruct (client_get_wf _ st1 (client_fd n) Hwf1 (get_client_fd _ _ _ Hwf Hn Hin)) as (p & -> & _).
  cbn [mbind outcome_bind]. apply keeps_ret. destruct p; [|by auto]. apply wf_zero_node. apply wf_on_node_same; auto.
Qed.

Lemma destroy_loop_wf k i s st :
  wf st -> Z.of_nat s < CONFIG_VC_SERVER_NUM -> Z.of_nat (i + k) <= CONFIG_VC_LISTEN_NUM ->
  exists st', destroy_loop k i s st = Ret st' /\ wf st'.
Proof.
  revert i st. induction k as [|k IH]; intros i st Hwf Hs Hi; [by eauto|]. cbn [destroy_loop].
  destruct (node_at_wf _ st (LListen s i) Hwf) as (n & -> & _); [simpl; lia|]. cbn [of_option mbind outcome_bind].
  destruct (Z.gtb_spec (fd n) 0).
  - destruct (listen_destroy_keeps st (fd n) Hwf ltac:(lia)) as (r & st1 & -> & Hwf1). cbn. apply IH; [done|done|lia].
  - cbn. apply IH; [done|done|lia].
Qed.

Lemma destroy_keeps st f : wf st -> 0 <= f -> keeps (virtual_channel_destroy st f).
Proof.
  intros Hwf Hf. unfold virtual_channel_destroy.
  destruct (_ =? VC_ROLE_NONE); [by auto|]. destruct (_ =? VC_ROLE_CLIENT); [by apply client_destroy_keeps|].
  destruct (_ =? VC_ROLE_LISTEN); [by apply listen_destroy_keeps|]. destruct (_ =? VC_ROLE_SERVER); [|by auto].
  unfold vc_server_destroy. destruct (server_get_wf _ st f Hwf Hf) as (o & -> & Ho). cbn [mbind outcome_bind].
  destruct o as [s|]; [|by auto]. destruct (Ho s eq_refl) as (Hs & _).
  apply keeps_bind; [by apply server_fd_del_keeps|]. intros r st1 Hwf1.
  destruct (destroy_loop_wf (Z.to_nat CONFIG_VC_LISTEN_NUM) 0 s st1 Hwf1 Hs) as (st2 & -> & Hwf2); [done|].
  cbn [mbind outcome_bind]. apply keeps_ret. apply wf_on_server; [done|]. intros sv _ _.
  split; [by left|]. do 2 (split; [done|]). intros i n Hn.
  change (replicate (Z.to_nat CONFIG_VC_LISTEN_NUM) zero_node !! i = Some n) in Hn.
  apply lookup_replicate in Hn as [-> _]. apply zero_node_ok.
Qed.

(** ** Sequences of calls

    A call that waits carries the calls that other threads make meanwhile. *)

#[warnings="-register-all"]
Inductive vc_call :=
| CServer (sem_ret mutex_ret : Z) (h : option (list Z)) (p rd wr : Z)
| CClient (alloc_ok : bool) (sem_ret mutex_ret rd wr : Z)
| CConnect (during : list vc_call) (expired f : Z) (h : option (list Z)) (p : Z)
| CAccept (alloc_ok : bool) (sem_ret mutex_ret f : Z)
| CWrite (f : Z) (data : option (list Z)) (len : Z)
| CRead (during : list vc_call) (f len : Z) (has_data : bool)
| CDestroy (f : Z).

Definition state_of {A} (o : outcome (A * vc_state)) : outcome vc_state := '(_, st) ← o; Ret st.

Fixpoint do_call (c : vc_call) (st : vc_state) : outcome vc_state :=
  let do_all := fix go cs s := match cs with [] => Ret s | c :: cs => s' ← do_call c s; go cs s' end in
  match c with
  | CServer sr mr h p rd wr => state_of (virtual_channel_server_creat sr mr st h p rd wr)
  | CClient a sr mr rd wr => state_of (virtual_channel_client_creat a sr mr st rd wr)
  | CConnect cs e f h p => state_of (virtual_channel_connect (do_all cs) e st f h p)
  | CAccept a sr mr f =>
      o ← virtual_channel_accept a sr mr st f; Ret (match o with Some (_, st') => st' | None => st end)
  | CWrite f d len => state_of (virtual_channel_write st f d len)
  | CRead cs f len hd => state_of (virtual_channel_read (do_all cs) st f len hd)
  | CDestroy f => state_of (virtual_channel_destroy st f)
  end.

Fixpoint do_calls (cs : list vc_call) (st : vc_state) : outcome vc_state :=
  match cs with [] => Ret st | c :: cs => s' ← do_call c st; do_calls cs s' end.

(** The descriptors passed are not negative. *)
Fixpoint call_ok (c : vc_call) : bool :=
  match c with
  | CServer _ _ _ _ _ _ | CClient _ _ _ _ _ => true
  | CConnect cs _ f _ _ => (0 <=? f) && forallb call_ok cs
  | CRead cs f _ _ => (0 <=? f) && forallb call_ok cs
  | CAccept _ _ _ f | CWrite f _ _ | CDestroy f => 0 <=? f
  end.

Fixpoint call_size (c : vc_call) : nat :=
  match c with
  | CConnect cs _ _ _ _ | CRead cs _ _ _ => S (sum_list_with call_size cs)
  | _ => 1
  end.

Lemma keeps_state_of {A} (o : outcome (A * vc_state)) : keeps o -> exists st', state_of o = Ret st' /\ wf st'.
Proof. intros (a & st & -> & Hwf). by exists st. Qed.

Lemma do_call_wf k c st :
  (call_size c <= k)%nat -> call_ok c = true -> wf st -> exists st', do_call c st = Ret st' /\ wf st'.
Proof.
  revert c st. induction k as [|k IH]; intros c st Hk Hok Hwf; [destruct c; simpl in Hk; lia|].
  assert (forall cs s, (sum_list_with call_size cs <= k)%nat -> forallb call_ok cs = true -> wf s ->
    exists s', (fix go cs s := match cs with [] => Ret s | c :: cs => s' ← do_call c s; go cs s' end) cs s = Ret s' /\ wf s') as Hothers.
  { intros cs. induction cs as [|c' cs IHcs]; intros s Hs Hcs Hw; [by exists s|]. simpl in Hs, Hcs.
    apply andb_true_iff in Hcs as [Hc' Hcs]. destruct (IH c' s) as (s1 & -> & Hw1); [lia|done|done|].
    cbn [mbind outcome_bind]. apply IHcs; [lia|done|done]. }
  destruct c; simpl in Hk, Hok; rewrite ?andb_true_iff, ?Z.leb_le in Hok; cbn [do_call].
  - apply keeps_state_of. by apply server_creat_keeps.
  - apply keeps_state_of. by apply client_creat_keeps.
  - destruct Hok. apply keeps_state_of. apply connect_keeps; [done|done|]. intros s Hs. apply Hothers; [lia|done|done].
  - destruct (accept_keeps alloc_ok sem_ret mutex_ret st f Hwf Hok) as (o & -> & Ho). cbn [mbind outcome_bind].
    eexists. split; [reflexivity|]. destruct o as [[r st']|]; [|done]. by eapply Ho.
  - apply keeps_state_of. by apply write_keeps.
  - destruct Hok. apply keeps_state_of. apply read_keeps; [done|done|]. intros s Hs. apply Hothers; [lia|done|done].
  - apply keeps_state_of. by apply destroy_keeps.
Qed.

(** ** Connections carry bytes *)

(** The places [a] and [b] are the two ends of a connection. *)
Record connected (st : vc_state) (a b : loc) (na nb : vc_node_t) : Prop := {
  co_a : node_at st a = Some na;
  co_b : node_at st b = Some nb;
  co_fda : fd na = fd_of a;
  co_fdb : fd nb = fd_of b;
  co_ab : client_fd na = fd_of b;
  co_ba : client_fd nb = fd_of a;
  co_in : in_table a /\ in_table b;
  co_ends : match a, b with
            | LClient _, LListen s _ | LListen s _, LClient _ => exists sv, g_vc_server st !! s = Some sv /\ sfd sv <> 0
            | _, _ => False
            end;
  co_rba : RingBuf.rb_inv (ringbuf na);
  co_rbb : RingBuf.rb_inv (ringbuf nb);
  co_bufs : buf na = true /\ buf nb = true
}.

Lemma connected_sym st a b na nb : connected st a b na nb -> connected st b a nb na.
Proof. intros [? ? ? ? ? ? [? ?] He ? ? [? ?]]. constructor; try done. by destruct a, b. Qed.

(** The descriptor of an end finds its own node for reading and the other end
    for writing. *)
Lemma connected_get st a b na nb :
  connected st a b na nb -> vc_node_read_get st (fd_of a) = Ret (Some a) /\ vc_node_write_get st (fd_of a) = Ret (Some b).
Proof.
  intros [Ha Hb Hfa Hfb Hab Hba [Hia Hib] He _ _ _]. pose proof (fd_of_pos a). pose proof (fd_of_pos b).
  unfold vc_node_read_get, vc_node_write_get. destruct a as [i|s i], b as [j|t j]; try done.
  - destruct He as (sv & Hsv & Hsf). rewrite fd_of_client by done. cbn [Z.eqb VC_ROLE_CLIENT Pos.eqb].
    simpl in Ha, Hb. rewrite Hsv in Hb. simpl in Hb.
    rewrite (client_get_open st i na) by (done || lia). split; [done|].
    cbn [mbind outcome_bind node_at]. rewrite Ha. cbn [of_option mbind outcome_bind]. rewrite Hab.
    apply (listen_get_open st t j sv nb); done || lia.
  - destruct He as (sv & Hsv & Hsf). destruct Hia as [Hs Hi]. rewrite role_listen by done. cbn [Z.eqb VC_ROLE_CLIENT VC_ROLE_LISTEN Pos.eqb].
    simpl in Ha, Hb. rewrite Hsv in Ha. simpl in Ha.
    rewrite (listen_get_open st s i sv na) by (done || lia). split; [done|].
    cbn [mbind outcome_bind node_at]. rewrite Hsv. cbn [mbind option_bind]. rewrite Ha. cbn [of_option mbind outcome_bind].
    rewrite Hab. apply (client_get_open st j nb); done || lia.
Qed.

(** Changing the buffer or the semaphore of one end keeps the connection. *)
Lemma connected_on_node st a b na nb f :
  connected st a b na nb ->
  fd (f nb) = fd nb -> client_fd (f nb) = client_fd nb -> buf (f nb) = buf nb -> RingBuf.rb_inv (ringbuf (f nb)) ->
  connected (on_node b f st) a b na (f nb).
Proof.
  intros [Ha Hb Hfa Hfb Hab Hba Hin He Hra Hrb [Hbfa Hbfb]] H1 H2 H4 H3.
  assert (b <> a) as Hne by (destruct a, b; done).
  constructor; try done.
  - by rewrite node_at_on_node_ne.
  - by apply node_at_on_node.
  - by rewrite H1.
  - by rewrite H2.
  - destruct a as [i|s i], b as [j|t j]; try done. destruct He as (sv & Hsv & Hsf).
    simpl. rewrite list_lookup_alter_eq, Hsv. simpl. eexists. split; [reflexivity|done].
  - by rewrite H4.
Qed.

Definition stream (n : vc_node_t) : list Z := RingBuf.contents (ringbuf n).

(** ** Theorems *)


(** Writing to one end of a connection appends to what the other end will read
    the longest prefix for which there is room, returns its length, and changes
    neither the connection nor the other direction. *)
Theorem vc_write_appends st a b na nb d len :
  connected st a b na nb -> 0 < len <= RingBuf.size (ringbuf nb) -> len < 2 ^ 31 -> len <= Z.of_nat (length d) ->
  let k := Z.to_nat (Z.min len (RingBuf.capacity (ringbuf nb) - RingBuf.used (ringbuf nb))) in
  exists nb' st', virtual_channel_write st (fd_of a) (Some d) len = Ret (Z.of_nat k, st') /\
    connected st' a b na nb' /\ stream nb' = stream nb ++ take k d.
Proof.
  intros Hc Hlen Hlen' Hd k. destruct (connected_get _ _ _ _ _ Hc) as [_ Hg]. pose proof (fd_of_pos a).
  unfold virtual_channel_write. destruct (Z.eqb_spec (fd_of a) 0); [lia|]. destruct (Z.eqb_spec len 0); [lia|]. cbn [orb].
  rewrite Hg. cbn [mbind outcome_bind]. rewrite (co_b _ _ _ _ _ Hc). cbn [of_option mbind outcome_bind]. unfold buffer_access.
  rewrite (proj2 (co_bufs _ _ _ _ _ Hc)). cbn [mbind outcome_bind]. rewrite i32_id by lia.
  destruct (RingBuf.push_spec (ringbuf nb) d len (co_rbb _ _ _ _ _ Hc) Hlen Hd) as (rb' & -> & Hrb & _ & Hcont & _).
  eexists _, _. split; [reflexivity|]. split; [by apply connected_on_node|done].
Qed.

(** The second half of a read, after the wait: on a node without bytes it changes
    nothing but the semaphore. *)
Definition read_rest (a : loc) (len : Z) (out : list Z) (st2 : vc_state) : outcome (Z * list Z * vc_state) :=
  if sem_ready (signal_of st2 a) then
    let st3 := on_node a (fun n => set_signal (sem_take (signal n)) n) st2 in
    n3 ← of_option (node_at st3 a);
    _ ← buffer_access n3;
    let '(out3, rb3) := RingBuf.qm_ringbuf_pop (ringbuf n3) (i32 (u32 (len - Z.of_nat (length out)))) in
    Ret (Z.of_nat (length out) + Z.of_nat (length out3), out ++ out3, on_node a (set_ringbuf rb3) st3)
  else Ret (Z.of_nat (length out), out, st2).

Lemma read_rest_empty a b nb len out n2 st2 :
  connected st2 a b n2 nb -> stream n2 = [] ->
  exists n3 st3, read_rest a len out st2 = Ret (Z.of_nat (length out), out, st3) /\
    connected st3 a b n3 nb /\ stream n3 = [].
Proof.
  intros Hc2 Hs2. unfold read_rest. destruct (sem_ready _); [|by eauto]. apply connected_sym in Hc2.
  pose proof (connected_on_node _ _ _ _ _ (fun n => set_signal (sem_take (signal n)) n) Hc2 eq_refl eq_refl eq_refl
    (co_rbb _ _ _ _ _ Hc2)) as Hc3. cbv zeta.
  rewrite (co_b _ _ _ _ _ Hc3). cbn [of_option mbind outcome_bind]. unfold buffer_access.
  rewrite (proj2 (co_bufs _ _ _ _ _ Hc3)). cbn [mbind outcome_bind].
  pose proof (RingBuf.pop_spec (ringbuf n2) (i32 (u32 (len - Z.of_nat (length out)))) (co_rbb _ _ _ _ _ Hc2)) as Hp2.
  cbn [ringbuf set_signal]. destruct (RingBuf.qm_ringbuf_pop _ _) as [out3 rb3]. destruct Hp2 as (Ho3 & Hd3 & Hrb3 & _).
  fold (stream n2) in Ho3, Hd3. rewrite Hs2, take_nil in Ho3. rewrite Hs2, drop_nil in Hd3. subst out3.
  rewrite app_nil_r, Z.add_0_r. eexists _, _. split; [reflexivity|].
  split; [apply connected_sym; by apply connected_on_node|done].
Qed.

(** Reading at one end of a connection, when no other thread runs, returns the
    oldest bytes in order, all of them when fewer than [len] are there, and removes
    exactly these. *)
Theorem vc_read_takes st a b na nb len :
  connected st a b na nb -> err_code na = QM_EOK -> 0 < len < 2 ^ 31 ->
  exists na' st', virtual_channel_read Ret st (fd_of a) len true =
      Ret (Z.of_nat (length (take (Z.to_nat len) (stream na))), take (Z.to_nat len) (stream na), st') /\
    connected st' a b na' nb /\ stream na' = drop (Z.to_nat len) (stream na).
Proof.
  intros Hc Herr Hlen. destruct (connected_get _ _ _ _ _ Hc) as [Hg _]. pose proof (fd_of_pos a).
  pose proof (co_rba _ _ _ _ _ Hc) as Hrb.
  unfold virtual_channel_read. destruct (Z.eqb_spec (fd_of a) 0); [lia|]. destruct (Z.eqb_spec len 0); [lia|]. cbn [orb negb].
  rewrite Hg. cbn [mbind outcome_bind]. rewrite (co_a _ _ _ _ _ Hc). cbn [of_option mbind outcome_bind].
  rewrite Herr. cbn [negb Z.eqb QM_EOK]. rewrite i32_id by lia. unfold buffer_access. rewrite (proj1 (co_bufs _ _ _ _ _ Hc)).
  cbn [mbind outcome_bind].
  pose proof (RingBuf.pop_spec (ringbuf na) len Hrb) as Hp.
  destruct (RingBuf.qm_ringbuf_pop (ringbuf na) len) as [out rb]. destruct Hp as (Ho & Hd & Hrb' & _).
  fold (stream na) in Ho, Hd. change (RingBuf.contents rb) with (stream (set_ringbuf rb na)) in Hd.
  destruct (RingBuf.qm_ringbuf_isempty (ringbuf na) =? 0) eqn:Hem; cbn [andb mbind outcome_bind].
  - assert (connected (on_node a (set_ringbuf rb) st) a b (set_ringbuf rb na) nb) as Hc1
      by (apply connected_sym, connected_on_node; [by apply connected_sym|done..]).
    rewrite <- Ho. destruct (Z.eqb_spec (Z.of_nat (length out)) len) as [Hl|Hl].
    + eexists _, _. split; [reflexivity|]. by split.
    + assert (drop (Z.to_nat len) (stream na) = []) as Hnil by (apply drop_ge; rewrite Ho, length_take in Hl; lia).
      rewrite Hnil in *. destruct (read_rest_empty _ _ _ len out _ _ Hc1 Hd) as (n3 & st3 & He & Hc3 & Hs3).
      unfold read_rest, buffer_access in He. rewrite He. eauto.
  - assert (stream na = []) as Hnil by (by apply RingBuf.isempty_contents).
    rewrite Hnil, take_nil, drop_nil.
    destruct (read_rest_empty _ _ _ len [] _ _ Hc Hnil) as (n3 & st3 & He & Hc3 & Hs3).
    unfold read_rest, buffer_access in He. cbn [length] in He |- *. rewrite He. eauto.
Qed.

(** *** Setting up a connection *)

Lemma find_from_alter {A} (P : A -> bool) (f : A -> A) i k l :
  (forall x, P (f x) = P x) -> find_from P k (alter f i l) = find_from P k l.
Proof.
  intros Hf. revert i k. induction l as [|x l IH]; intros [|i] k; try done.
  - cbn. by rewrite Hf.
  - change (alter f (S i) (x :: l)) with (x :: alter f i l). cbn [find_from]. by rewrite IH.
Qed.

Lemma server_get_open st s sv :
  Z.of_nat s < CONFIG_VC_SERVER_NUM -> g_vc_server st !! s = Some sv -> sfd sv <> 0 ->
  vc_server_fd_is_valid ((Z.of_nat s + 1) * 256) = true /\
  vc_server_get st ((Z.of_nat s + 1) * 256) = Ret (Some s) /\ index (g_vc_server st) (Z.of_nat s) = Ret sv.
Proof.
  intros Hs Hsv Hsf.
  assert (vc_server_fd_is_valid ((Z.of_nat s + 1) * 256) = true) as Hv.
  { unfold vc_server_fd_is_valid. rewrite shiftr8, Z.div_mul by lia.
    replace (u8 ((Z.of_nat s + 1) * 256)) with 0 by zsolve. cbn [negb Z.eqb].
    destruct (Z.gtb_spec (Z.of_nat s + 1) CONFIG_VC_SERVER_NUM); [lia|]. by destruct (Z.eqb_spec (Z.of_nat s + 1) 0); [lia|]. }
  assert (index (g_vc_server st) (Z.of_nat s) = Ret sv) as Hi.
  { unfold index. destruct (Z.ltb_spec (Z.of_nat s) 0); [lia|]. by rewrite Nat2Z.id, Hsv. }
  split; [done|]. split; [|done]. unfold vc_server_get. rewrite Hv. cbn [negb]. rewrite shiftr8, Z.div_mul by lia.
  replace (Z.of_nat s + 1 - 1) with (Z.of_nat s) by lia. rewrite Hi. cbn [mbind outcome_bind].
  destruct (Z.eqb_spec (sfd sv) 0); [done|]. by rewrite Nat2Z.id.
Qed.

Lemma fresh_ring rb0 rd :
  0 < rd < 2 ^ 32 ->
  let rb := default rb0 (snd (RingBuf.qm_ringbuf_init (Some rb0) (Some (RingBuf.zero_bytes rd)) rd)) in
  RingBuf.rb_inv rb /\ RingBuf.contents rb = [].
Proof.
  intros Hrd. unfold RingBuf.qm_ringbuf_init. destruct (Z.eqb_spec rd 0); [lia|]. cbn [snd default from_option id].
  split; [|done]. constructor; cbn; try lia. eexists. split; [done|].
  unfold RingBuf.zero_bytes. rewrite length_replicate. lia.
Qed.

(** The listening node that the server takes, and what it becomes. *)
Definition accepted_node (s i : nat) (rd : Z) (n : vc_node_t) : vc_node_t :=
  mk_node VC_ROLE_LISTEN (fd_of (LListen s i)) (err_code n) ((Z.of_nat s + 1) * 256) (client_fd n) true (Some 0)
    (default (ringbuf n) (snd (RingBuf.qm_ringbuf_init (Some (ringbuf n)) (Some (RingBuf.zero_bytes rd)) rd))).

Lemma listen_creat_ok st s i sv n :
  in_table (LListen s i) -> g_vc_server st !! s = Some sv -> sfd sv <> 0 ->
  0 < rd_size sv < 2 ^ 32 -> wr_size sv <> 0 ->
  find_from (fun n => fd n =? 0) 0 (vc_node sv) = Some i -> vc_node sv !! i = Some n ->
  virtual_channel_listen_creat true QM_EOK QM_EOK st ((Z.of_nat s + 1) * 256) (rd_size sv) (wr_size sv) =
    Ret (fd_of (LListen s i), on_node (LListen s i) (accepted_node s i (rd_size sv)) st).
Proof.
  intros Hin Hsv Hsf Hrd Hwr Hf Hn. unfold virtual_channel_listen_creat.
  destruct (Z.eqb_spec (rd_size sv) 0); [lia|]. destruct (Z.eqb_spec (wr_size sv) 0); [done|]. cbn [orb].
  destruct (server_get_open st s sv (proj1 Hin) Hsv Hsf) as (Hv & Hg & Hi).
  unfold vc_server_fd_accept. rewrite Hv. cbn [negb]. rewrite Hg. cbn [mbind outcome_bind]. rewrite Hi.
  cbn [mbind outcome_bind]. rewrite Hf. cbn [mbind outcome_bind]. change ((Z.of_nat s + 1) * 256 + (Z.of_nat i + 1)) with (fd_of (LListen s i)).
  pose proof (fd_of_pos (LListen s i)). destruct (Z.eqb_spec (fd_of (LListen s i)) 0); [lia|].
  rewrite (listen_get_open _ s i _ (set_fd (fd_of (LListen s i)) (set_server_fd ((Z.of_nat s + 1) * 256) n)) Hin (server_on_listen _ _ _ _ _ Hsv));
    [|done|simpl; by rewrite list_lookup_alter_eq, Hn|simpl; lia].
  cbn [mbind outcome_bind node_setup negb Z.eqb QM_EOK]. by rewrite !on_node_twice.
Qed.

Lemma accept_links st c s i sv nc n :
  in_table (LClient c) -> in_table (LListen s i) ->
  g_vc_server st !! s = Some sv -> sfd sv <> 0 -> sem_ready (accept sv) = true ->
  0 < rd_size sv < 2 ^ 32 -> wr_size sv <> 0 ->
  find_from (fun n => fd n =? 0) 0 (vc_node sv) = Some i -> vc_node sv !! i = Some n -> client_fd n = fd_of (LClient c) ->
  g_vc_node st !! c = Some nc -> fd nc = fd_of (LClient c) -> buf nc = true -> RingBuf.rb_inv (ringbuf nc) ->
  exists na nb st', virtual_channel_accept true QM_EOK QM_EOK st ((Z.of_nat s + 1) * 256) = Ret (Some (fd_of (LListen s i), st'))
    /\ connected st' (LClient c) (LListen s i) na nb /\ stream nb = [] /\ stream na = stream nc
    /\ signal na = sem_signal (signal nc) /\ err_code na = err_code nc /\ err_code nb = err_code n.
Proof.
  intros Hc Hin Hsv Hsf Hacc Hrd Hwr Hf Hn Hcf Hnc Hfc Hbf Hrb. pose proof (fd_of_pos (LClient c)). pose proof (fd_of_pos (LListen s i)).
  unfold virtual_channel_accept. destruct (server_get_open st s sv (proj1 Hin) Hsv Hsf) as (_ & -> & Hi).
  cbn [mbind outcome_bind]. rewrite Hi. cbn [mbind outcome_bind]. rewrite Hacc. cbn [negb].
  set (st1 := on_server s (fun sv => set_accept (sem_take (accept sv)) sv) st).
  pose proof (server_on_server st s (fun sv => set_accept (sem_take (accept sv)) sv) sv Hsv) as Hsv1. fold st1 in Hsv1.
  pose proof (listen_creat_ok st1 s i (set_accept (sem_take (accept sv)) sv) n Hin Hsv1 Hsf Hrd Hwr Hf Hn) as Hlc.
  cbn [rd_size wr_size set_accept] in Hlc. rewrite Hlc.
  cbn [mbind outcome_bind]. destruct (Z.eqb_spec (fd_of (LListen s i)) 0); [lia|].
  set (g := accepted_node s i (rd_size sv)). set (st2 := on_node (LListen s i) g st1).
  pose proof (server_on_listen st1 s i g _ Hsv1) as Hsv2. fold st2 in Hsv2.
  assert (node_at st2 (LListen s i) = Some (g n)) as Hl2 by (apply node_at_on_node; cbn [node_at]; by rewrite Hsv1).
  assert (g_vc_node st2 !! c = Some nc) as Hc2 by done.
  rewrite (listen_get_open st2 s i _ (g n) Hin Hsv2); [|done|simpl; by rewrite list_lookup_alter_eq, Hn|simpl; lia].
  cbn [mbind outcome_bind]. rewrite Hl2. cbn [of_option mbind outcome_bind]. change (client_fd (g n)) with (client_fd n).
  rewrite Hcf, (client_get_open st2 c nc Hc Hc2) by lia. cbn [mbind outcome_bind].
  destruct (fresh_ring (ringbuf n) (rd_size sv) Hrd) as [Hring Hcont].
  set (h := fun n0 => set_signal (sem_signal (signal n0)) (set_client_fd (fd_of (LListen s i)) n0)).
  exists (h nc), (g n). eexists. split; [reflexivity|]. split; [|done].
  constructor; try done.
  - apply (node_at_on_node st2 (LClient c) h nc Hc2).
  - by exists (set_nodes (alter g i (vc_node (set_accept (sem_take (accept sv)) sv))) (set_accept (sem_take (accept sv)) sv)).
Qed.

(** A client that connects while the server accepts gets through: when the first
    free node of the server is not reserved by another client, [connect] returns
    [QM_EOK], and the two descriptors are the ends of a fresh connection. *)
Theorem vc_connect_accept st c s i sv nc n h p expired :
  in_table (LClient c) -> in_table (LListen s i) ->
  vc_server_fd_find st h p = (Z.of_nat s + 1) * 256 ->
  g_vc_server st !! s = Some sv -> sfd sv <> 0 -> accept sv = Some 0 -> 0 < rd_size sv < 2 ^ 32 -> wr_size sv <> 0 ->
  find_from (fun n => (fd n =? 0) && (client_fd n =? 0)) 0 (vc_node sv) = Some i ->
  find_from (fun n => fd n =? 0) 0 (vc_node sv) = Some i -> vc_node sv !! i = Some n ->
  g_vc_node st !! c = Some nc -> fd nc = fd_of (LClient c) -> signal nc = Some 0 -> buf nc = true -> RingBuf.rb_inv (ringbuf nc) ->
  let server_thread s1 := o ← virtual_channel_accept true QM_EOK QM_EOK s1 ((Z.of_nat s + 1) * 256);
                          Ret (match o with Some (_, s2) => s2 | None => s1 end) in
  exists na nb st', virtual_channel_connect server_thread expired st (fd_of (LClient c)) h p = Ret (QM_EOK, st') /\
    connected st' (LClient c) (LListen s i) na nb /\ stream nb = [] /\ stream na = stream nc.
Proof.
  intros Hc Hin Hff Hsv Hsf Hacc Hrd Hwr Hf1 Hf2 Hn Hnc Hfc Hsig Hbf Hrb server_thread. pose proof (fd_of_pos (LClient c)) as Hpos.
  unfold virtual_channel_connect. destruct (Z.gtb_spec (fd_of (LClient c)) CONFIG_VC_CLIENT_NUM); [simpl in *; lia|].
  destruct (Z.eqb_spec (fd_of (LClient c)) 0); [lia|]. cbn [orb]. rewrite Hff.
  destruct (Z.eqb_spec ((Z.of_nat s + 1) * 256) 0); [lia|]. unfold vc_client_connect_set.
  destruct (server_get_open st s sv (proj1 Hin) Hsv Hsf) as (_ & Hg & Hi). rewrite Hg. cbn [mbind outcome_bind]. rewrite Hi.
  cbn [mbind outcome_bind]. rewrite Hf1. cbn [mbind outcome_bind Z.eqb QM_EOK negb].
  set (g := fun n => set_client_fd (fd_of (LClient c)) (set_server_fd ((Z.of_nat s + 1) * 256) n)).
  set (st1 := on_node (LListen s i) g st). pose proof (server_on_listen st s i g sv Hsv) as Hsv1. fold st1 in Hsv1.
  destruct (server_get_open st1 s _ (proj1 Hin) Hsv1 Hsf) as (_ & -> & _). cbn [mbind outcome_bind].
  assert (g_vc_node st1 !! c = Some nc) as Hnc1 by done.
  rewrite (client_get_open st1 c nc Hc Hnc1) by lia. cbn [mbind outcome_bind].
  set (a := fun sv => set_accept (sem_signal (accept sv)) sv). set (st2 := on_server s a st1).
  pose proof (server_on_server st1 s a _ Hsv1) as Hsv2. fold st2 in Hsv2.
  destruct (accept_links st2 c s i _ nc (g n) Hc Hin Hsv2) as (na & nb & st3 & Ha & Hco & Hnb & Hna & Hsg & _);
    try done; [cbn; by rewrite Hacc|cbn; by rewrite find_from_alter|simpl; by rewrite list_lookup_alter_eq, Hn|].
  unfold server_thread. rewrite Ha. cbn [mbind outcome_bind signal_of]. unfold signal_of. rewrite (co_a _ _ _ _ _ Hco).
  cbn [mbind option_bind]. rewrite Hsg, Hsig. cbn [sem_ready sem_signal fmap option_fmap option_map].
  eexists _, nb, _. split; [reflexivity|]. split; [|split; [done|]].
  - apply connected_sym, connected_on_node; [by apply connected_sym|done|done|done|]. apply (co_rba _ _ _ _ _ Hco).
  - done.
Qed.

(** ** A session, and what goes wrong *)

Definition after (cs : list vc_call) : vc_state := match do_calls cs vc_init with Ret st => st | _ => vc_init end.

Definition open_calls : list vc_call := [CServer 0 0 (Some [97]) 80 16 16; CClient true 0 0 8 8].
Definition session : list vc_call := open_calls ++ [CConnect [CAccept true 0 0 256] (-2) 1 (Some [97]) 80].

Definition demo_client : vc_node_t := default zero_node (node_at (after session) (LClient 0)).
Definition demo_listen : vc_node_t := default zero_node (node_at (after session) (LListen 0 0)).

(** Bytes go over the connection; the client is closed while the server waits for
    more, and the server writes to it afterwards. *)
Definition closed_in_wait : list vc_call :=
  session ++ [CWrite 1 (Some [5; 6]) 2; CRead [CDestroy 1] 257 4 true; CWrite 257 (Some [7]) 1; CDestroy 256].


Lemma fresh_rb_inv sz : 0 < sz < 2 ^ 32 -> RingBuf.rb_inv (RingBuf.mk_ringbuf sz 0 0 (Some (RingBuf.zero_bytes sz)) 0).
Proof.
  intros Hs. constructor; cbn; try lia. eexists. split; [done|]. unfold RingBuf.zero_bytes. rewrite length_replicate. lia.
Qed.

Lemma demo_connected : connected (after session) (LClient 0) (LListen 0 0) demo_client demo_listen.
Proof.
  constructor; try (vm_compute; reflexivity).
  - split; [reflexivity|]. split; reflexivity.
  - eexists. split; [vm_compute; reflexivity|]. cbn. lia.
  - apply (fresh_rb_inv 8). lia.
  - apply (fresh_rb_inv 16). lia.
  - split; vm_compute; reflexivity.
Defined.

Lemma vc_write_appends_witness :
  exists nb' st', virtual_channel_write (after session) 1 (Some [5; 6; 7]) 3 = Ret (3, st') /\
    connected st' (LClient 0) (LListen 0 0) demo_client nb' /\ stream nb' = [5; 6; 7].
Proof.
  apply (vc_write_appends (after session) (LClient 0) (LListen 0 0) demo_client demo_listen [5; 6; 7] 3 demo_connected);
    vm_compute; intuition discriminate.
Defined.

Lemma vc_read_takes_witness :
  exists na' st', virtual_channel_read Ret (after session) 1 4 true = Ret (0, [], st') /\
    connected st' (LClient 0) (LListen 0 0) na' demo_listen /\ stream na' = [].
Proof.
  apply (vc_read_takes (after session) (LClient 0) (LListen 0 0) demo_client demo_listen 4 demo_connected);
    vm_compute; intuition discriminate.
Defined.

Lemma vc_connect_accept_witness :
  let server_thread s1 := o ← virtual_channel_accept true QM_EOK QM_EOK s1 256;
                          Ret (match o with Some (_, s2) => s2 | None => s1 end) in
  exists na nb st', virtual_channel_connect server_thread (-2) (after open_calls) 1 (Some [97]) 80 = Ret (QM_EOK, st') /\
    connected st' (LClient 0) (LListen 0 0) na nb /\ stream nb = [] /\
    stream na = stream (default zero_node (g_vc_node (after open_calls) !! 0%nat)).
Proof.
  apply (vc_connect_accept (after open_calls) 0 0 0
    (default zero_server (g_vc_server (after open_calls) !! 0%nat)) (default zero_node (g_vc_node (after open_calls) !! 0%nat))
    zero_node (Some [97]) 80 (-2)); try (vm_compute; reflexivity).
  - split; reflexivity.
  - vm_compute. discriminate.
  - vm_compute. split; reflexivity.
  - vm_compute. discriminate.
  - apply (fresh_rb_inv 8). lia.
Defined.

(** A negative descriptor, for example an error code of [virtual_channel_client_creat],
    is taken for a client and indexes before the table. *)
Theorem negative_fd_out_of_bounds d : virtual_channel_write vc_init (- QM_EFULL) (Some [d]) 1 = OutOfBounds.
Proof. reflexivity. Qed.

(** A server takes the first free node, although a later one is reserved for the
    client that waits: the connection fails and a node is lost. *)
Definition crossed : list vc_call :=
  session ++ [CClient true 0 0 8 8; CConnect [] (-2) 2 (Some [97]) 80; CDestroy 257].

Theorem accept_takes_wrong_node :
  exists st, virtual_channel_accept true 0 0 (after crossed) 256 = Ret (Some (0, st)) /\
    (client_fd <$> node_at (after crossed) (LListen 0 1)) = Some 2 /\ (fd <$> node_at st (LListen 0 0)) = Some 257.
Proof. eexists. split; [vm_compute; reflexivity|]. by vm_compute. Qed.

(** Destroying a server closes its own descriptor first, so that its nodes are no
    longer found: the clients are not told, and after the server and the node have
    been opened again a client of the old connection writes into the new one. *)
Definition stale : list vc_call :=
  session ++ [CDestroy 256; CServer 0 0 (Some [98]) 81 16 16; CClient true 0 0 8 8;
              CConnect [CAccept true 0 0 256] (-2) 2 (Some [98]) 81].

Theorem stale_client_writes_into_new_connection :
  (err_code <$> node_at (after (session ++ [CDestroy 256])) (LClient 0)) = Some QM_EOK /\
  exists st, virtual_channel_write (after stale) 1 (Some [66]) 1 = Ret (1, st) /\
    (stream <$> node_at st (LListen 0 0)) = Some [66] /\ (client_fd <$> node_at st (LListen 0 0)) = Some 2.
Proof. split; [vm_compute; reflexivity|]. eexists. split; [vm_compute; reflexivity|]. by vm_compute. Qed.

End VirtualChannel.
