(* ===== verification/DataChannel.v ===== *)
(** * Data channels (components/data_channel/data_channel.c)

    A server owns two ring buffers, a connected client points to the same two with
    the directions exchanged.  Handles index a heap of objects; an access to freed
    memory or through a NULL pointer is [OutOfBounds].  The build with an operating
    system is modelled: a read that finds fewer bytes than asked for waits for the
    semaphore, and [during] is what other threads do meanwhile. *)

From S2P Require Import Prelude Outcome Ring RingBuf.
Import list_relations.list list_basics.list.

Module DataChannel.
Import RingBuf.

(** One direction: ring buffer, whether its memory is allocated, semaphore. *)
Record side := mk_side { ring : qm_ringbuf_t; mem : bool; sem : option Z }.

Inductive obj :=
| Server (rd wr : side)
| Client (server : option nat)    (* the server that the four pointers point into *)
| Freed.

Abbreviation heap := (list obj).

(** A place of a ring buffer: [true] is the [rd] side of the server. *)
Definition get_side (hp : heap) (h : nat) (d : bool) : outcome side :=
  match hp !! h with
  | Some (Server rd wr) => let s := if d then rd else wr in if mem s then Ret s else OutOfBounds
  | _ => OutOfBounds
  end.

Definition set_side (h : nat) (d : bool) (s : side) (hp : heap) : heap :=
  alter (fun o => match o with
                  | Server rd wr => if d then Server s wr else Server rd s
                  | _ => o
                  end) h hp.

(** ** Life cycle *)

(** [allocs]: results of the three allocations in order; [inits]: results of the
    semaphores and mutexes in order.  On failure after the first buffer the server
    is destroyed, which keeps the structure itself. *)
Definition zero_side : side := mk_side (mk_ringbuf 0 0 0 None 0) false None.

Definition new_side (size : Z) : side :=
  mk_side (default (ring zero_side) (snd (qm_ringbuf_init (Some (ring zero_side)) (Some (zero_bytes size)) size))) true (Some 0).

(** Frees the two buffers and the semaphores; a buffer that was freed before is freed twice. *)
Definition data_channel_server_destroy (hp : heap) (h : nat) : outcome (Z * heap) :=
  match hp !! h with
  | Some (Server rd wr) =>
      let gone (s : side) := match buffer (ring s), mem s with Some _, false => true | _, _ => false end in
      if gone rd || gone wr then OutOfBounds
      else Ret (QM_EOK, <[h := Server (mk_side (ring rd) false None) (mk_side (ring wr) false None)]> hp)
  | _ => OutOfBounds
  end.

Definition data_channel_server_creat (alloc rd_alloc wr_alloc rd_sync wr_sync : bool) (hp : heap) (rd_size wr_size : Z)
  : outcome (option nat * heap) :=
  if negb alloc then Ret (None, hp)
  else
    let h := length hp in
    if negb rd_alloc then Ret (None, hp ++ [Server zero_side zero_side])
    else if negb rd_sync || negb wr_alloc then
      '(_, hp') ← data_channel_server_destroy (hp ++ [Server (new_side rd_size) zero_side]) h; Ret (None, hp')
    else if negb wr_sync then
      '(_, hp') ← data_channel_server_destroy (hp ++ [Server (new_side rd_size) (new_side wr_size)]) h; Ret (None, hp')
    else Ret (Some h, hp ++ [Server (new_side rd_size) (new_side wr_size)]).

Definition data_channel_client_creat (alloc : bool) (hp : heap) : option nat * heap :=
  if alloc then (Some (length hp), hp ++ [Client None]) else (None, hp).

Definition data_channel_connect (hp : heap) (server client : option nat) : outcome (Z * heap) :=
  match server, client with
  | Some s, Some c =>
      match hp !! c, hp !! s with
      | Some (Client _), Some (Server _ _) => Ret (QM_EOK, <[c := Client (Some s)]> hp)
      | _, _ => OutOfBounds
      end
  | _, _ => Ret (- QM_EINVAL, hp)
  end.

Definition data_channel_client_destroy (hp : heap) (h : nat) : outcome (Z * heap) := Ret (QM_EOK, <[h := Freed]> hp).

Definition data_channel_destroy (hp : heap) (handle : option nat) : outcome (Z * heap) :=
  match handle with
  | None => Ret (- QM_EINVAL, hp)
  | Some h =>
      match hp !! h with
      | Some (Server _ _) => data_channel_server_destroy hp h
      | Some (Client _) => data_channel_client_destroy hp h
      | _ => OutOfBounds
      end
  end.

(** ** Transfer *)

Definition push_side (hp : heap) (h : nat) (d : bool) (data : list Z) (len : Z) : outcome (Z * heap) :=
  s ← get_side hp h d;
  let '(w, rb) := qm_ringbuf_push (Some (ring s)) (Some data) (i32 len) in
  Ret (w, set_side h d (mk_side (default (ring s) rb) (mem s) ((fun n => n + 1) <$> sem s)) hp).

Definition data_channel_client_write (hp : heap) (c : nat) (data : list Z) (len : Z) : outcome (Z * heap) :=
  match hp !! c with
  | Some (Client (Some h)) => push_side hp h true data len
  | _ => OutOfBounds
  end.

Definition data_channel_server_write (hp : heap) (h : nat) (data : list Z) (len : Z) : outcome (Z * heap) :=
  push_side hp h false data len.

Definition data_channel_write (hp : heap) (handle : option nat) (data : option (list Z)) (len : Z) : outcome (Z * heap) :=
  match handle, data with
  | Some h, Some d =>
      if len =? 0 then Ret (- QM_EINVAL, hp)
      else match hp !! h with
           | Some (Server _ _) => data_channel_server_write hp h d len
           | Some (Client _) => data_channel_client_write hp h d len
           | _ => OutOfBounds
           end
  | _, _ => Ret (- QM_EINVAL, hp)
  end.

(** Take what is there; when it is less than [len], wait and take the rest. *)
Definition pop_side (during : heap -> heap) (hp : heap) (h : nat) (d : bool) (len : Z) : outcome (Z * list Z * heap) :=
  s ← get_side hp h d;
  let '(out, hp1) :=
    if qm_ringbuf_isempty (ring s) =? 0 then
      let '(out, rb) := qm_ringbuf_pop (ring s) (i32 len) in
      (out, set_side h d (mk_side rb (mem s) (sem s)) hp)
    else ([], hp) in
  let read_len := Z.of_nat (length out) in
  if (qm_ringbuf_isempty (ring s) =? 0) && (read_len =? len) then Ret (read_len, out, hp1)
  else
    let hp2 := during hp1 in
    s2 ← get_side hp2 h d;
    match sem s2 with
    | Some n =>
        if n >? 0 then
          let '(out2, rb2) := qm_ringbuf_pop (ring s2) (i32 (u32 (len - read_len))) in
          Ret (read_len + Z.of_nat (length out2), out ++ out2, set_side h d (mk_side rb2 (mem s2) (Some (n - 1))) hp2)
        else Ret (read_len, out, hp2)
    | None => Ret (read_len, out, hp2)
    end.

Definition data_channel_client_read (during : heap -> heap) (hp : heap) (c : nat) (len : Z) : outcome (Z * list Z * heap) :=
  match hp !! c with
  | Some (Client (Some h)) => pop_side during hp h false len
  | _ => OutOfBounds
  end.

Definition data_channel_server_read (during : heap -> heap) (hp : heap) (h : nat) (len : Z) : outcome (Z * list Z * heap) :=
  pop_side during hp h true len.

Definition data_channel_read (during : heap -> heap) (hp : heap) (handle : option nat) (has_data : bool) (len : Z)
  : outcome (Z * list Z * heap) :=
  match handle with
  | Some h =>
      if negb has_data || (len =? 0) then Ret (- QM_EINVAL, [], hp)
      else match hp !! h with
           | Some (Server _ _) => data_channel_server_read during hp h len
           | Some (Client _) => data_channel_client_read during hp h len
           | _ => OutOfBounds
           end
  | None => Ret (- QM_EINVAL, [], hp)
  end.

(** ** Specification: two byte streams *)

Definition side_ok (s : side) : Prop := rb_inv (ring s) /\ mem s = true.

(** Client [c] is connected to server [h], whose directions hold [rd] and [wr]. *)
Definition channel (hp : heap) (h c : nat) (rd wr : side) : Prop :=
  hp !! h = Some (Server rd wr) /\ hp !! c = Some (Client (Some h)) /\ side_ok rd /\ side_ok wr.

Definition bytes (s : side) : list Z := contents (ring s).
Definition free_space (s : side) : Z := capacity (ring s) - used (ring s).

(** The direction of a channel. *)
Definition dir (d : bool) (rd wr : side) : side := if d then rd else wr.

Lemma set_side_channel hp h c rd wr d s :
  channel hp h c rd wr -> side_ok s ->
  channel (set_side h d s hp) h c (if d then s else rd) (if d then wr else s).
Proof.
  intros (Hh & Hc & Hr & Hw) Hs. assert (h <> c) as Hne by (intros ->; congruence). unfold channel, set_side.
  rewrite list_lookup_alter_eq, Hh, list_lookup_alter_ne, Hc by done. simpl. by destruct d.
Qed.

Lemma get_side_channel hp h c rd wr d : channel hp h c rd wr -> get_side hp h d = Ret (dir d rd wr) /\ side_ok (dir d rd wr).
Proof. intros (Hh & Hc & [? Hr] & [? Hw]). unfold get_side. rewrite Hh. destruct d; simpl; rewrite ?Hr, ?Hw; done. Qed.

Lemma push_side_channel hp h c rd wr d data len :
  channel hp h c rd wr -> 0 < len <= size (ring (dir d rd wr)) -> len < 2 ^ 31 -> len <= Z.of_nat (length data) ->
  let k := Z.to_nat (Z.min len (free_space (dir d rd wr))) in
  exists hp' s', push_side hp h d data len = Ret (Z.of_nat k, hp') /\
    channel hp' h c (if d then s' else rd) (if d then wr else s') /\
    bytes s' = bytes (dir d rd wr) ++ take k data.
Proof.
  intros Hch Hlen Hl Hd k. destruct (get_side_channel _ _ _ _ _ d Hch) as [Hg [Hi Hm]].
  unfold push_side. rewrite Hg. cbn [mbind outcome_bind]. rewrite i32_id by lia.
  destruct (push_spec _ data len Hi Hlen Hd) as (rb' & -> & Hrb & _ & Hc & _).
  exists (set_side h d (mk_side rb' (mem (dir d rd wr)) ((fun n => n + 1) <$> sem (dir d rd wr))) hp),
    (mk_side rb' (mem (dir d rd wr)) ((fun n => n + 1) <$> sem (dir d rd wr))).
  split; [reflexivity|]. split; [by apply set_side_channel|exact Hc].
Qed.

Lemma pop_side_channel hp h c rd wr d len :
  channel hp h c rd wr -> 0 < len < 2 ^ 31 ->
  exists hp' s', pop_side (fun hp => hp) hp h d len =
      Ret (Z.of_nat (length (take (Z.to_nat len) (bytes (dir d rd wr)))), take (Z.to_nat len) (bytes (dir d rd wr)), hp') /\
    channel hp' h c (if d then s' else rd) (if d then wr else s') /\
    bytes s' = drop (Z.to_nat len) (bytes (dir d rd wr)).
Proof.
  intros Hch Hlen. destruct (get_side_channel _ _ _ _ _ d Hch) as [Hg [Hi Hm]]. set (s := dir d rd wr) in *.
  unfold pop_side. rewrite Hg. cbn [mbind outcome_bind]. rewrite i32_id by lia.
  pose proof (pop_spec (ring s) len Hi) as Hp. destruct (qm_ringbuf_pop (ring s) len) as [out rb] eqn:Hpop.
  destruct Hp as (Ho & Hd & Hrb & _). fold (bytes s) in Ho, Hd.
  (* the state of the side after the first part: nothing left, or everything read *)
  assert (exists hp1 s1, (if qm_ringbuf_isempty (ring s) =? 0 then (out, set_side h d (mk_side rb (mem s) (sem s)) hp)
                     else ([], hp)) = (out, hp1) /\
    channel hp1 h c (if d then s1 else rd) (if d then wr else s1) /\ bytes s1 = drop (Z.to_nat len) (bytes s) /\
    ((qm_ringbuf_isempty (ring s) =? 0) = false -> out = [])) as (hp1 & s1 & -> & Hch1 & Hb1 & Hem).
  { destruct (qm_ringbuf_isempty (ring s) =? 0) eqn:He.
    - eexists _, (mk_side rb (mem s) (sem s)). split; [reflexivity|]. split; [by apply set_side_channel|done].
    - assert (bytes s = []) as Hnil by (by apply isempty_contents).
      rewrite Hnil, take_nil in Ho. subst out. exists hp, s. split; [done|].
      split; [by destruct d|]. by rewrite Hnil, drop_nil. }
  rewrite <- Ho. destruct (_ && _) eqn:Hfull; [by eauto|].
  assert (drop (Z.to_nat len) (bytes s) = []) as Hnil.
  { apply drop_ge. destruct (qm_ringbuf_isempty (ring s) =? 0); [|rewrite (Hem eq_refl) in Ho].
    - apply Z.eqb_neq in Hfull. rewrite Ho, length_take in Hfull. lia.
    - symmetry in Ho. apply (f_equal length) in Ho. rewrite length_take in Ho. simpl in Ho. lia. }
  destruct (get_side_channel _ _ _ _ _ d Hch1) as [Hg1 [Hi1 Hm1]].
  replace (dir d (if d then s1 else rd) (if d then wr else s1)) with s1 in * by (by destruct d).
  rewrite Hg1. cbn [mbind outcome_bind]. destruct (sem s1) as [n|] eqn:Hs1; [|by eauto].
  destruct (n >? 0); [|by eauto].
  pose proof (pop_spec (ring s1) (i32 (u32 (len - Z.of_nat (length out)))) Hi1) as Hp1.
  destruct (qm_ringbuf_pop (ring s1) _) as [out2 rb2]. destruct Hp1 as (Ho2 & Hd2 & Hrb2 & _).
  fold (bytes s1) in Ho2, Hd2. rewrite Hb1, Hnil, take_nil in Ho2. rewrite Hb1, Hnil, drop_nil in Hd2. subst out2.
  rewrite app_nil_r, Z.add_0_r. eexists _, (mk_side rb2 (mem s1) (Some (n - 1))). split; [reflexivity|].
  split; [|by rewrite Hnil].
  pose proof (set_side_channel _ _ _ _ _ d (mk_side rb2 (mem s1) (Some (n - 1))) Hch1) as Hch2.
  destruct d; by apply Hch2.
Qed.

(** ** Theorems *)

(** The handle of an end and the direction it writes to: the client writes what the
    server reads. *)
Definition end_of (client : bool) (h c : nat) : option nat := Some (if client then c else h).

(** A connected channel is two independent byte streams.  What one end writes,
    cut to the room that is left, is appended to what the other end reads, and the
    written length is returned; the other direction does not change. *)
Theorem dc_write_appends hp h c rd wr (client : bool) data len :
  channel hp h c rd wr ->
  0 < len <= size (ring (dir client rd wr)) -> len < 2 ^ 31 -> len <= Z.of_nat (length data) ->
  let k := Z.to_nat (Z.min len (free_space (dir client rd wr))) in
  exists hp' s', data_channel_write hp (end_of client h c) (Some data) len = Ret (Z.of_nat k, hp') /\
    channel hp' h c (if client then s' else rd) (if client then wr else s') /\
    bytes s' = bytes (dir client rd wr) ++ take k data.
Proof.
  intros Hch Hlen Hl Hd k.
  destruct (push_side_channel _ _ _ _ _ client data len Hch Hlen Hl Hd) as (hp' & s' & Hp & Hch' & Hb).
  exists hp', s'. split; [|done]. destruct Hch as (Hh & Hc & _). unfold data_channel_write, end_of.
  destruct (Z.eqb_spec len 0); [lia|]. destruct client.
  - rewrite Hc. unfold data_channel_client_write. by rewrite Hc.
  - rewrite Hh. exact Hp.
Qed.

(** Reading an end of a channel, when no other thread runs, returns the oldest
    bytes that the other end wrote, at most [len] of them, and removes exactly
    these. *)
Theorem dc_read_takes hp h c rd wr (client : bool) len :
  channel hp h c rd wr -> 0 < len < 2 ^ 31 ->
  let s := dir (negb client) rd wr in
  exists hp' s', data_channel_read (fun hp => hp) hp (end_of client h c) true len =
      Ret (Z.of_nat (length (take (Z.to_nat len) (bytes s))), take (Z.to_nat len) (bytes s), hp') /\
    channel hp' h c (if client then rd else s') (if client then s' else wr) /\
    bytes s' = drop (Z.to_nat len) (bytes s).
Proof.
  intros Hch Hlen s.
  destruct (pop_side_channel _ _ _ _ _ (negb client) len Hch Hlen) as (hp' & s' & Hp & Hch' & Hb).
  exists hp', s'. destruct Hch as (Hh & Hc & _). unfold data_channel_read, end_of. cbn [negb orb].
  destruct (Z.eqb_spec len 0); [lia|]. destruct client; cbn [negb] in *.
  - split; [|done]. rewrite Hc. unfold data_channel_client_read. by rewrite Hc.
  - split; [|done]. rewrite Hh. exact Hp.
Qed.

(** Creating a server and a client and connecting them gives an empty channel. *)
Theorem dc_connect_opens hp rd_size wr_size :
  0 < rd_size < 2 ^ 32 -> 0 < wr_size < 2 ^ 32 ->
  exists h c hp1 hp2 hp3 rd wr,
    data_channel_server_creat true true true true true hp rd_size wr_size = Ret (Some h, hp1) /\
    data_channel_client_creat true hp1 = (Some c, hp2) /\
    data_channel_connect hp2 (Some h) (Some c) = Ret (QM_EOK, hp3) /\
    channel hp3 h c rd wr /\ bytes rd = [] /\ bytes wr = [].
Proof.
  intros Hr Hw. assert (forall sz, 0 < sz < 2 ^ 32 -> side_ok (new_side sz) /\ bytes (new_side sz) = []) as Hnew.
  { intros sz Hs. unfold side_ok, bytes, new_side, qm_ringbuf_init. destruct (Z.eqb_spec sz 0); [lia|]. cbn.
    split; [|done]. split; [|done]. constructor; cbn; try lia. eexists. split; [done|].
    unfold zero_bytes. rewrite length_replicate. lia. }
  destruct (Hnew _ Hr) as [Hr1 Hr2], (Hnew _ Hw) as [Hw1 Hw2].
  set (hp1 := hp ++ [Server (new_side rd_size) (new_side wr_size)]).
  assert (hp1 !! length hp = Some (Server (new_side rd_size) (new_side wr_size))) as Hh by (apply list_lookup_middle; done).
  exists (length hp), (length hp1), hp1, (hp1 ++ [Client None]). eexists _, (new_side rd_size), (new_side wr_size).
  split; [done|]. split; [done|].
  assert ((hp1 ++ [Client None]) !! length hp1 = Some (Client None)) as Hc by (apply list_lookup_middle; done).
  assert (length hp1 = S (length hp)) as Hl by (unfold hp1; rewrite length_app; simpl; lia).
  assert ((hp1 ++ [Client None]) !! length hp = Some (Server (new_side rd_size) (new_side wr_size))) as Hh'.
  { rewrite lookup_app_l; [done|lia]. }
  split; [unfold data_channel_connect; rewrite Hc, Hh'; reflexivity|]. split; [|done].
  split; [rewrite list_lookup_insert_ne by lia; done|]. split; [|done].
  apply list_lookup_insert_eq. rewrite length_app. simpl. lia.
Qed.

(** ** Instances and misbehaviour *)

Definition demo_heap : heap := [Server (new_side 8) (new_side 4); Client (Some 0%nat)].

Lemma demo_channel : channel demo_heap 0 1 (new_side 8) (new_side 4).
Proof.
  split; [done|]. split; [done|]. split; (split; [|done]); constructor; cbn; try lia; eexists; (split; [reflexivity|done]).
Defined.

Lemma dc_write_appends_witness :
  exists hp' s', data_channel_write demo_heap (end_of true 0 1) (Some [1; 2; 3]) 3 = Ret (3, hp') /\
    channel hp' 0 1 s' (new_side 4) /\ bytes s' = [1; 2; 3].
Proof.
  apply (dc_write_appends demo_heap 0 1 (new_side 8) (new_side 4) true [1; 2; 3] 3 demo_channel);
    vm_compute; intuition discriminate.
Defined.

Lemma dc_read_takes_witness :
  exists hp' s', data_channel_read (fun hp => hp) demo_heap (end_of true 0 1) true 2 = Ret (0, [], hp') /\
    channel hp' 0 1 (new_side 8) s' /\ bytes s' = [].
Proof.
  apply (dc_read_takes demo_heap 0 1 (new_side 8) (new_side 4) true 2 demo_channel); vm_compute; intuition discriminate.
Defined.

(** Destroying the server leaves the client with pointers into freed buffers, and a
    second destruction frees them twice; the structure itself is never freed. *)
Theorem dc_destroy_dangles :
  exists hp', data_channel_destroy demo_heap (Some 0%nat) = Ret (QM_EOK, hp') /\
    data_channel_write hp' (Some 1%nat) (Some [1]) 1 = OutOfBounds /\
    data_channel_destroy hp' (Some 0%nat) = OutOfBounds /\ hp' !! 0%nat <> Some Freed.
Proof. eexists. split; [reflexivity|]. done. Qed.

(** A client that was not connected is read and written through NULL pointers. *)
Theorem dc_unconnected_client :
  data_channel_write [Client None] (Some 0%nat) (Some [1]) 1 = OutOfBounds /\
  data_channel_read (fun hp => hp) [Client None] (Some 0%nat) true 1 = OutOfBounds.
Proof. done. Qed.

End DataChannel.
