(* ===== verification/WorkQueue.v ===== *)
(** * Events and delayed actions (components/qm_work)

    The event table (qm_eventqueue.c), the work queue with its timers
    (qm_workqueue.c) and the delayed actions (qm_work.c) over one kernel queue.
    The kernel queue is an interface ([KernelQueue]): the ports implement it over
    their operating systems, and a list is its instance.  Kernel timers are one-shot;
    their expiry is a step of its own.  Pointers are numbers, 0 is NULL.  Callbacks
    are the sequences of calls they make into the component; a trace records what is
    accepted, taken and called. *)

From S2P Require Import Prelude Outcome.
From stdpp Require Import relations.
Import list_relations.list list_basics.list.
Open Scope Z_scope.

Definition CONFIG_QM_WORKQUEUE_NUM : nat := 10.

(** What the component relies on: a FIFO with room for [CONFIG_QM_WORKQUEUE_NUM]
    messages.  The flag of [kq_send] selects [qm_queue_send_from_isr].  The comments of
    qm_kernel.h say that a message goes to the front of the queue; the port sends with
    [xQueueSend] and [xQueueSendFromISR], which append, and without waiting, so that a
    full queue refuses. *)
Class KernelQueue (A Q : Type) := {
  kq_items : Q -> list A;
  kq_new : Q;
  kq_send : bool -> Q -> A -> Z * Q;
  kq_recv : Q -> option (A * Q);
  kq_new_empty : kq_items kq_new = [];
  kq_send_ok isr q a : (length (kq_items q) < CONFIG_QM_WORKQUEUE_NUM)%nat ->
    exists q', kq_send isr q a = (QM_EOK, q') /\ kq_items q' = kq_items q ++ [a];
  kq_send_full isr q a : (CONFIG_QM_WORKQUEUE_NUM <= length (kq_items q))%nat ->
    exists e, e <> QM_EOK /\ kq_send isr q a = (e, q);
  kq_recv_none q : kq_items q = [] -> kq_recv q = None;
  kq_recv_some q a l : kq_items q = a :: l -> exists q', kq_recv q = Some (a, q') /\ kq_items q' = l
}.

(** A list of at most [CONFIG_QM_WORKQUEUE_NUM] messages is such a queue. *)
Definition list_send {A} (isr : bool) (q : list A) (a : A) : Z * list A :=
  if (length q <? CONFIG_QM_WORKQUEUE_NUM)%nat then (QM_EOK, q ++ [a]) else (-1, q).

#[export] Instance list_queue A : KernelQueue A (list A).
Proof.
  refine {| kq_items := id; kq_new := []; kq_send := list_send;
            kq_recv q := match q with [] => None | a :: q => Some (a, q) end |}; unfold id, list_send.
  - done.
  - intros _ q a Hq. destruct (Nat.ltb_spec (length q) CONFIG_QM_WORKQUEUE_NUM) as [_|H]; [by eexists|lia].
  - intros _ q a Hq. destruct (Nat.ltb_spec (length q) CONFIG_QM_WORKQUEUE_NUM) as [H|_]; [lia|by exists (-1)].
  - by intros q ->.
  - intros q a l ->. by exists l.
Defined.

Module WorkQueue.

Definition QM_EFULL : Z := 3.
Definition CONFIG_QM_EVENT_NUM : nat := 16.

(** ** Data *)

Record qm_event_node_t := mk_node { used : Z; event : Z; cb : Z; node_arg : Z }.

Record qm_input_event_t := mk_event {
  time : Z; ev : Z; sub_event : Z; value : Z; size : Z; ev_arg : Z
}.

Record qm_work_t := mk_work { work_arg : Z; work_fn : Z; dly : Z; timer : Z; wq : bool }.

(** A kernel timer calls [work_timer_cb] with a work. *)
Record ktimer := mk_timer { kt_work : Z; kt_running : bool }.

Inductive qm_queue_info_t := IEvent (e : qm_input_event_t) | IWork (work : Z).

#[global] Instance qm_queue_info_eq_dec : EqDecision qm_queue_info_t.
Proof. assert (EqDecision qm_input_event_t) by solve_decision. solve_decision. Defined.

(** What is observed: a message accepted by the queue, a message taken by the worker,
    a call of an event handler and a call of the function of a work. *)
Inductive obs :=
| Sent (i : qm_queue_info_t)
| Taken (i : qm_queue_info_t)
| CallEvent (c : Z) (e : qm_input_event_t) (a : Z)
| CallWork (w f a : Z).

(** Calls of the clients.  [src] are the bytes at [v]; [isr] selects the variant for
    interrupt handlers. *)
Inductive op :=
| ORegister (evt c a : Z)
| OUnregister (evt c a : Z)
| OPost (isr : bool) (now evt sub v : Z) (src : list Z) (sz : Z)
| OExtPost (isr : bool) (now evt sub v : Z) (src : list Z) (sz a : Z)
| ODelayed (w f a ms : Z)
| OCancel (w : Z).

(** Where the allocators put new blocks and timers, and what the callbacks do. *)
Record env := mk_env {
  malloc : gmap Z (list Z) -> option Z;
  timer_new : gmap Z ktimer -> option Z;
  event_prog : Z -> qm_input_event_t -> Z -> list op;
  work_prog : Z -> Z -> list op
}.

Section work.
Context {Q : Type} `{KQ : !KernelQueue qm_queue_info_t Q} (E : env).

Record state := mk_state {
  event_node : list qm_event_node_t;
  queue : Q;
  works : gmap Z qm_work_t;
  timers : gmap Z ktimer;
  heap : gmap Z (list Z);
  trace : list obs
}.

Definition set_event_node (ns : list qm_event_node_t) (s : state) : state :=
  mk_state ns (queue s) (works s) (timers s) (heap s) (trace s).
Definition set_queue (q : Q) (s : state) : state :=
  mk_state (event_node s) q (works s) (timers s) (heap s) (trace s).
Definition set_work (w : Z) (x : qm_work_t) (s : state) : state :=
  mk_state (event_node s) (queue s) (<[w := x]> (works s)) (timers s) (heap s) (trace s).
Definition set_timers (ts : gmap Z ktimer) (s : state) : state :=
  mk_state (event_node s) (queue s) (works s) ts (heap s) (trace s).
Definition set_heap (h : gmap Z (list Z)) (s : state) : state :=
  mk_state (event_node s) (queue s) (works s) (timers s) h (trace s).
Definition observe (o : obs) (s : state) : state :=
  mk_state (event_node s) (queue s) (works s) (timers s) (heap s) (trace s ++ [o]).

(** The works of the clients are static objects: zero until they are initialised. *)
Definition zero_work : qm_work_t := mk_work 0 0 0 0 false.
Definition get_work (w : Z) (s : state) : qm_work_t := default zero_work (works s !! w).

(** ** The event table *)

Definition zero_node : qm_event_node_t := mk_node 0 0 0 0.

Definition qm_eventqueue_init (mutex_ret : Z) (s : state) : Z * state :=
  (mutex_ret, set_event_node (replicate CONFIG_QM_EVENT_NUM zero_node) s).

(** The first loop of [qm_event_register] only changes the result, which the second
    loop overwrites when it finds a free node. *)
Definition event_known (evt : Z) (ns : list qm_event_node_t) : bool :=
  existsb (fun n => negb (used n =? 0) && (event n =? evt)) ns.

Fixpoint take_node (n' : qm_event_node_t) (ns : list qm_event_node_t) : option (list qm_event_node_t) :=
  match ns with
  | [] => None
  | n :: ns => if used n =? 0 then Some (n' :: ns) else cons n <$> take_node n' ns
  end.

Definition qm_event_register (evt c a : Z) (s : state) : Z * state :=
  if c =? 0 then (- QM_EINVAL, s)
  else
    let ret := if event_known evt (event_node s) then - QM_EINVAL else - QM_EFULL in
    match take_node (mk_node 1 evt c a) (event_node s) with
    | Some ns => (QM_EOK, set_event_node ns s)
    | None => (ret, s)
    end.

Fixpoint drop_node (evt c a : Z) (ns : list qm_event_node_t) : list qm_event_node_t :=
  match ns with
  | [] => []
  | n :: ns =>
      if (used n =? 1) && ((event n =? evt) && (cb n =? c) && (node_arg n =? a))
      then mk_node 0 (event n) (cb n) (node_arg n) :: ns
      else n :: drop_node evt c a ns
  end.

Definition qm_event_unregister (evt c a : Z) (s : state) : Z * state :=
  if c =? 0 then (- QM_EINVAL, s) else (QM_EOK, set_event_node (drop_node evt c a (event_node s)) s).

(** ** Posting *)

Definition qm_input_event_set (now evt sub v : Z) (src : list Z) (sz a : Z) (s : state)
  : Z * option qm_input_event_t * state :=
  if negb (v =? 0) then
    if negb (sz =? 0) then
      match malloc E (heap s) with
      | None => (- QM_ENOMEM, None, s)
      | Some p => (QM_EOK, Some (mk_event now evt sub p sz a), set_heap (<[p := take (Z.to_nat sz) src]> (heap s)) s)
      end
    else (QM_EOK, Some (mk_event now evt sub v sz a), s)
  else (QM_EOK, Some (mk_event now evt sub 0 sz a), s).

Definition qm_queue_info_generic_send (isr : bool) (info : qm_queue_info_t) (s : state) : Z * state :=
  let '(ret, q) := kq_send isr (queue s) info in
  (ret, if ret =? QM_EOK then observe (Sent info) (set_queue q s) else set_queue q s).

Definition qm_event_generic_post (isr : bool) (now evt sub v : Z) (src : list Z) (sz a : Z) (s : state) : Z * state :=
  match qm_input_event_set now evt sub v src sz a s with
  | (_, Some e, s1) => qm_queue_info_generic_send isr (IEvent e) s1
  | (ret, None, s1) => (ret, s1)
  end.

Definition qm_event_post (isr : bool) (now evt sub v : Z) (src : list Z) (sz : Z) (s : state) : Z * state :=
  qm_event_generic_post isr now evt sub v src sz 0 s.

Definition qm_event_ext_post (isr : bool) (now evt sub v : Z) (src : list Z) (sz a : Z) (s : state) : Z * state :=
  if a =? 0 then (- QM_EINVAL, s) else qm_event_generic_post isr now evt sub v src sz a s.

(** ** Works *)

(** [qm_timer_new] writes the handle into the work, and leaves it when it fails. *)
Definition qm_work_init (w f a d : Z) (s : state) : Z * state :=
  if (w =? 0) || (f =? 0) then (- QM_EINVAL, s)
  else
    let d := u32 d in
    let s1 := set_work w (mk_work a f d (timer (get_work w s)) false) s in
    if d >? 0 then
      match timer_new E (timers s1) with
      | Some t => (QM_EOK, set_timers (<[t := mk_timer w false]> (timers s1)) (set_work w (mk_work a f d t false) s1))
      | None => (- QM_ENOMEM, s1)
      end
    else (QM_EOK, s1).

(** Kernel calls on a handle that is not a timer are undefined. *)
Definition qm_timer_start (t : Z) (s : state) : outcome (Z * state) :=
  k ← of_option (timers s !! t);
  Ret (QM_EOK, set_timers (<[t := mk_timer (kt_work k) true]> (timers s)) s).

Definition qm_timer_stop_free (t : Z) (s : state) : outcome state :=
  k ← of_option (timers s !! t);
  Ret (set_timers (delete t (timers s)) s).

Definition qm_work_sched (w : Z) (s : state) : outcome (Z * state) :=
  if w =? 0 then Ret (- QM_EINVAL, s)
  else
    let x := get_work w s in
    let s1 := set_work w (mk_work (work_arg x) (work_fn x) (dly x) (timer x) true) s in
    if dly x =? 0 then Ret (qm_queue_info_generic_send false (IWork w) s1)
    else qm_timer_start (timer x) s1.

(** The part [qm_work_handle] and [qm_work_cancel] share. *)
Definition drop_timer (w : Z) (s : state) : outcome state :=
  let x := get_work w s in
  if dly x >? 0 then
    qm_timer_stop_free (timer x) (set_work w (mk_work (work_arg x) (work_fn x) 0 (timer x) (wq x)) s)
  else Ret s.

Definition qm_work_cancel (w : Z) (s : state) : outcome (Z * state) :=
  if w =? 0 then Ret (- QM_EINVAL, s) else s1 ← drop_timer w s; Ret (QM_EOK, s1).

(** The result of the send is ignored. *)
Definition work_timer_cb (w : Z) (s : state) : outcome state :=
  if wq (get_work w s) then Ret (snd (qm_queue_info_generic_send false (IWork w) s)) else OutOfBounds.

(** A running timer expires once. *)
Definition timer_expires (t : Z) (s : state) : outcome state :=
  match timers s !! t with
  | Some (mk_timer w true) => work_timer_cb w (set_timers (<[t := mk_timer w false]> (timers s)) s)
  | _ => Ret s
  end.

Definition qm_post_delayed_action (w f a ms : Z) (s : state) : outcome (Z * state) :=
  if (w =? 0) || (f =? 0) then Ret (- QM_EINVAL, s)
  else
    let '(ret, s1) := qm_work_init w f a ms s in
    if negb (ret =? QM_EOK) then Ret (ret, s1) else qm_work_sched w s1.

Definition qm_cancel_delayed_action (w : Z) (s : state) : outcome (Z * state) :=
  if w =? 0 then Ret (- QM_EINVAL, s) else qm_work_cancel w s.

(** ** Clients and callbacks *)

Definition exec_op (o : op) (s : state) : outcome (Z * state) :=
  match o with
  | ORegister evt c a => Ret (qm_event_register evt c a s)
  | OUnregister evt c a => Ret (qm_event_unregister evt c a s)
  | OPost isr now evt sub v src sz => Ret (qm_event_post isr now evt sub v src sz s)
  | OExtPost isr now evt sub v src sz a => Ret (qm_event_ext_post isr now evt sub v src sz a s)
  | ODelayed w f a ms => qm_post_delayed_action w f a ms s
  | OCancel w => qm_cancel_delayed_action w s
  end.

Fixpoint exec_ops (os : list op) (s : state) : outcome state :=
  match os with
  | [] => Ret s
  | o :: os => r ← exec_op o s; exec_ops os (snd r)
  end.

(** ** The worker *)

Definition node_matches (e : qm_input_event_t) (n : qm_event_node_t) : bool :=
  negb (used n =? 0) && (event n =? ev e) && negb (negb (ev_arg e =? 0) && negb (node_arg n =? ev_arg e)).

Fixpoint handle_loop (k i : nat) (e : qm_input_event_t) (s : state) : outcome state :=
  match k with
  | O => Ret s
  | S k =>
      n ← of_option (event_node s !! i);
      s1 ← (if node_matches e n
            then exec_ops (event_prog E (cb n) e (node_arg n)) (observe (CallEvent (cb n) e (node_arg n)) s)
            else Ret s);
      handle_loop k (S i) e s1
  end.

(** [qm_free] of a block that is not allocated is undefined. *)
Definition qm_free (p : Z) (s : state) : outcome state :=
  b ← of_option (heap s !! p); Ret (set_heap (delete p (heap s)) s).

Definition qm_event_handle (e : qm_input_event_t) (s : state) : outcome state :=
  s1 ← handle_loop CONFIG_QM_EVENT_NUM 0 e s;
  if negb (value e =? 0) && negb (size e =? 0) then qm_free (value e) s1 else Ret s1.

(** Calling NULL is undefined. *)
Definition qm_work_handle (w : Z) (s : state) : outcome state :=
  s1 ← drop_timer w s;
  let x := get_work w s1 in
  if work_fn x =? 0 then OutOfBounds
  else exec_ops (work_prog E (work_fn x) (work_arg x)) (observe (CallWork w (work_fn x) (work_arg x)) s1).

Definition handle_info (i : qm_queue_info_t) (s : state) : outcome state :=
  match i with
  | IEvent e => qm_event_handle e s
  | IWork w => qm_work_handle w s
  end.

(** One round of the worker task; it waits on an empty queue. *)
Definition worker_task (s : state) : outcome state :=
  match kq_recv (queue s) with
  | None => Ret s
  | Some (i, q) => handle_info i (observe (Taken i) (set_queue q s))
  end.

(** Without a task: until the queue is empty. *)
Fixpoint qm_workqueue_process (fuel : nat) (s : state) : outcome state :=
  match fuel with
  | O => NoFuel
  | S fuel =>
      match kq_recv (queue s) with
      | None => Ret s
      | Some (i, q) =>
          s1 ← handle_info i (observe (Taken i) (set_queue q s)); qm_workqueue_process fuel s1
      end
  end.

(** ** Start *)

Definition qm_workqueue_create (queue_ret task_ret stack_size : Z) (s : state) : Z * state :=
  if stack_size =? 0 then (- QM_EINVAL, s)
  else if negb (queue_ret =? QM_EOK) then (queue_ret, s)
  else (task_ret, set_queue kq_new s).

Definition CONFIG_QM_WORKQUEUE_TASK_SIZE : Z := 5 * 1024.

Definition qm_work_on_init (mutex_ret queue_ret task_ret : Z) (s : state) : Z * state :=
  let '(ret, s1) := qm_eventqueue_init mutex_ret s in
  if negb (ret =? QM_EOK) then (ret, s1)
  else qm_workqueue_create queue_ret task_ret CONFIG_QM_WORKQUEUE_TASK_SIZE s1.

(** The static objects before [qm_work_on_init]. *)
Definition static_state : state := mk_state [] kq_new ∅ ∅ ∅ [].

(** What can happen: a call of a client, the expiry of a timer, a round of the worker. *)
Inductive action := AOp (o : op) | AExpire (t : Z) | AWorker.

Definition step (a : action) (s : state) : outcome state :=
  match a with
  | AOp o => r ← exec_op o s; Ret (snd r)
  | AExpire t => timer_expires t s
  | AWorker => worker_task s
  end.

Fixpoint run (acts : list action) (s : state) : outcome state :=
  match acts with
  | [] => Ret s
  | a :: acts => s1 ← step a s; run acts s1
  end.

End work.
Arguments state : clear implicits.

(** ** The invariant *)

(** The block a queued message owns. *)
Definition owned (i : qm_queue_info_t) : list Z :=
  match i with
  | IEvent e => if negb (value e =? 0) && negb (size e =? 0) then [value e] else []
  | IWork _ => []
  end.

(** Messages accepted and messages taken, in order. *)
Definition sent (tr : list obs) : list qm_queue_info_t := omap (fun o => match o with Sent i => Some i | _ => None end) tr.
Definition taken (tr : list obs) : list qm_queue_info_t := omap (fun o => match o with Taken i => Some i | _ => None end) tr.

Lemma sent_app t1 t2 : sent (t1 ++ t2) = sent t1 ++ sent t2.
Proof. apply omap_app. Qed.
Lemma taken_app t1 t2 : taken (t1 ++ t2) = taken t1 ++ taken t2.
Proof. apply omap_app. Qed.

Section safety.
Context {Q : Type} `{KQ : !KernelQueue qm_queue_info_t Q} (E : env).

(** The allocators return new blocks and new timers, and timers do not run out.  The last
    is a limit of the theorems: a port has finitely many timers (the one for the ESP32
    QM_TIMER_MAX_NUM, 20), and [failed_repost_crashes] and [cancel_failed_post_crashes]
    show what happens without one. *)
Hypothesis malloc_new : forall h p, malloc E h = Some p -> p <> 0 /\ h !! p = None.
Hypothesis timer_new_new : forall ts t, timer_new E ts = Some t -> ts !! t = None.
Hypothesis timers_left : forall ts, timer_new E ts <> None.

Abbreviation state := (state Q).
Implicit Types s : state.

(** [held] is the block of the message the worker handles. *)
Record inv (held : list Z) s : Prop := {
  inv_table : length (event_node s) = CONFIG_QM_EVENT_NUM;
  inv_owned : base.NoDup (held ++ (kq_items (queue s) ≫= owned));
  inv_live : forall p, p ∈ held ++ (kq_items (queue s) ≫= owned) -> is_Some (heap s !! p);
  inv_queued : forall w, IWork w ∈ kq_items (queue s) -> work_fn (get_work w s) <> 0;
  inv_timers : forall t k, timers s !! t = Some k ->
    work_fn (get_work (kt_work k) s) <> 0 /\ wq (get_work (kt_work k) s) = true;
  inv_armed : forall w, 0 <= dly (get_work w s) /\
    (0 < dly (get_work w s) -> exists r, timers s !! timer (get_work w s) = Some (mk_timer w r));
  inv_fifo : sent (trace s) = taken (trace s) ++ kq_items (queue s)
}.

Lemma get_work_set w x s w' : get_work w' (set_work w x s) = if decide (w = w') then x else get_work w' s.
Proof.
  unfold get_work, set_work. simpl. destruct (decide (w = w')) as [->|Hw].
  - by rewrite lookup_insert_eq.
  - by rewrite lookup_insert_ne.
Qed.

Lemma send_cases isr i s :
  (exists q, qm_queue_info_generic_send isr i s = (QM_EOK, observe (Sent i) (set_queue q s)) /\
     kq_items q = kq_items (queue s) ++ [i] /\ (length (kq_items (queue s)) < CONFIG_QM_WORKQUEUE_NUM)%nat) \/
  (exists e, e <> QM_EOK /\ qm_queue_info_generic_send isr i s = (e, s) /\
     (CONFIG_QM_WORKQUEUE_NUM <= length (kq_items (queue s)))%nat).
Proof.
  unfold qm_queue_info_generic_send.
  destruct (decide (length (kq_items (queue s)) < CONFIG_QM_WORKQUEUE_NUM)%nat) as [Hn|Hn].
  - left. destruct (kq_send_ok isr (queue s) i Hn) as (q & -> & Hq). by exists q.
  - right. destruct (kq_send_full isr (queue s) i ltac:(lia)) as (e & He & ->). exists e.
    destruct (Z.eqb_spec e QM_EOK); [done|]. destruct s. split_and!; [done..|lia].
Qed.

Lemma send_inv held isr i s :
  inv held s ->
  base.NoDup (held ++ (kq_items (queue s) ≫= owned) ++ owned i) ->
  (forall p, p ∈ owned i -> is_Some (heap s !! p)) ->
  (forall w, i = IWork w -> work_fn (get_work w s) <> 0) ->
  inv held (snd (qm_queue_info_generic_send isr i s)).
Proof.
  intros [H1 H2 H3 H4 H5 H6 H7] Hn Hl Hw.
  destruct (send_cases isr i s) as [(q & -> & Hq & _)|(e & _ & -> & _)]; [|done].
  split; simpl; rewrite ?Hq, ?bind_app; simpl; rewrite ?app_nil_r; try done.
  - intros p. rewrite !elem_of_app. intros [Hp|[Hp|Hp]]; [apply H3, elem_of_app; auto..|by apply Hl].
  - intros w. rewrite elem_of_app, list_elem_of_singleton. intros [?|?]; [by apply H4|by apply Hw].
  - by rewrite sent_app, taken_app, H7, <- app_assoc, app_nil_r.
Qed.

Lemma heap_grow_inv held p b s : inv held s -> inv held (set_heap (<[p := b]> (heap s)) s).
Proof.
  intros [H1 H2 H3 H4 H5 H6 H7]. split; try done. intros p' Hp. simpl. apply lookup_insert_is_Some'. right. by apply H3.
Qed.

Lemma generic_post_inv held isr now evt sub v src sz a s :
  inv held s -> inv held (snd (qm_event_generic_post E isr now evt sub v src sz a s)).
Proof using malloc_new.
  intros Hs. unfold qm_event_generic_post, qm_input_event_set.
  destruct (Z.eqb_spec v 0) as [->|Hv]; simpl;
    [|destruct (Z.eqb_spec sz 0) as [->|Hsz]; simpl; [|destruct (malloc E (heap s)) as [p|] eqn:Hp; [|done]]].
  - apply send_inv; simpl; try done; [rewrite app_nil_r; apply Hs|intros ? []%elem_of_nil].
  - apply send_inv; simpl; rewrite ?andb_false_r; try done; [rewrite app_nil_r; apply Hs|intros ? []%elem_of_nil].
  - destruct (malloc_new _ _ Hp) as [Hp0 Hfresh].
    apply send_inv; [by apply heap_grow_inv|..|done]; simpl;
      rewrite (proj2 (Z.eqb_neq p 0)), (proj2 (Z.eqb_neq sz 0)) by done; simpl.
    + rewrite app_assoc. apply list.NoDup_app. split_and!; [apply Hs| |apply NoDup_singleton].
      intros q Hq ->%list_elem_of_singleton. destruct (inv_live _ _ Hs _ Hq) as [? Hx]. congruence.
    + intros q ->%list_elem_of_singleton. rewrite lookup_insert_eq. eauto.
Qed.

Lemma register_inv held evt c a s : inv held s -> inv held (snd (qm_event_register evt c a s)).
Proof.
  intros Hs. unfold qm_event_register. destruct (c =? 0); [done|].
  destruct (take_node _ _) as [ns|] eqn:Hns; [|done]. destruct Hs. split; try done. simpl.
  rewrite <- inv_table0. clear -Hns. revert ns Hns.
  induction (event_node s) as [|n l IH]; intros ns; simpl; [done|]. destruct (used n =? 0); [by intros [= <-]|].
  destruct (take_node _ l) as [l'|]; [|done]. intros [= <-]. simpl. by rewrite (IH l').
Qed.

Lemma unregister_inv held evt c a s : inv held s -> inv held (snd (qm_event_unregister evt c a s)).
Proof.
  intros Hs. unfold qm_event_unregister. destruct (c =? 0); [done|].
  destruct Hs. split; try done. simpl. rewrite <- inv_table0. clear.
  induction (event_node s) as [|n l IH]; simpl; [done|]. destruct (_ && _); simpl; by rewrite ?IH.
Qed.

(** A change of a work that keeps its function, its queue and what is armed. *)
Lemma set_work_inv held w x s :
  inv held s -> work_fn x <> 0 -> wq x = true -> dly x = 0 -> inv held (set_work w x s).
Proof.
  intros [H1 H2 H3 H4 H5 H6 H7] Hf Hq Hd. split; try done.
  - intros w' Hw. rewrite get_work_set. destruct (decide _); [done|by apply H4].
  - intros t k Ht. rewrite get_work_set. destruct (decide _); [done|by apply (H5 t)].
  - intros w'. rewrite get_work_set. destruct (decide _); [split; [lia|intros; lia]|by apply H6].
Qed.

(** [qm_post_delayed_action] as one change of the state. *)
Lemma post_delayed_eq w f a ms s :
  w <> 0 -> f <> 0 ->
  qm_post_delayed_action E w f a ms s =
    if u32 ms =? 0 then Ret (qm_queue_info_generic_send false (IWork w) (set_work w (mk_work a f 0 (timer (get_work w s)) true) s))
    else match timer_new E (timers s) with
         | Some t => Ret (QM_EOK, set_timers (<[t := mk_timer w true]> (timers s)) (set_work w (mk_work a f (u32 ms) t true) s))
         | None => Ret (- QM_ENOMEM, set_work w (mk_work a f (u32 ms) (timer (get_work w s)) false) s)
         end.
Proof.
  intros Hw Hf. pose proof (u32_range ms) as Hr. unfold qm_post_delayed_action, qm_work_init.
  rewrite (proj2 (Z.eqb_neq w 0)), (proj2 (Z.eqb_neq f 0)) by done. simpl. unfold is_u32 in Hr.
  destruct (Z.eqb_spec (u32 ms) 0) as [->|Hm]; simpl.
  - unfold qm_work_sched. rewrite (proj2 (Z.eqb_neq w 0)), !get_work_set, !decide_True by done. simpl.
    unfold set_work. simpl. by rewrite insert_insert_eq.
  - rewrite (proj2 (Z.gtb_lt (u32 ms) 0)) by lia. destruct (timer_new E (timers s)) as [t|]; [|done]. simpl.
    unfold qm_work_sched, qm_timer_start. rewrite (proj2 (Z.eqb_neq w 0)) by done.
    assert (Hg : forall s', get_work w (set_timers (<[t := mk_timer w false]> (timers s)) (set_work w (mk_work a f (u32 ms) t false) s')) =
      mk_work a f (u32 ms) t false).
    { intros s'. unfold get_work. simpl. by rewrite lookup_insert_eq. }
    rewrite Hg. simpl. rewrite (proj2 (Z.eqb_neq (u32 ms) 0)), lookup_insert_eq by done. simpl.
    unfold set_work, set_timers. simpl. by rewrite !insert_insert_eq.
Qed.

Lemma delayed_inv held w f a ms s :
  inv held s -> exists r s', qm_post_delayed_action E w f a ms s = Ret (r, s') /\ inv held s'.
Proof using timer_new_new timers_left.
  intros Hs. destruct (decide (w = 0 \/ f = 0)) as [Hz|Hz].
  { exists (- QM_EINVAL), s. split; [|done]. unfold qm_post_delayed_action. by destruct Hz as [->| ->]; simpl; rewrite ?orb_true_r. }
  rewrite post_delayed_eq by tauto. pose proof (u32_range ms) as Hr. unfold is_u32 in Hr.
  destruct (Z.eqb_spec (u32 ms) 0) as [Hm|Hm].
  { eexists _, _. rewrite <- surjective_pairing. split; [done|].
    apply send_inv; [apply set_work_inv; simpl; tauto|simpl; rewrite app_nil_r; apply Hs|intros ? []%elem_of_nil|].
    intros ? [= <-]. rewrite get_work_set, decide_True by done. simpl. tauto. }
  destruct (timer_new E (timers s)) as [t|] eqn:Ht; [|by apply timers_left in Ht]. eexists _, _. split; [done|].
  pose proof (timer_new_new _ _ Ht) as Hnew. destruct Hs as [H1 H2 H3 H4 H5 H6 H7].
  assert (Hg : forall w', get_work w' (set_timers (<[t := mk_timer w true]> (timers s)) (set_work w (mk_work a f (u32 ms) t true) s)) =
    if decide (w = w') then mk_work a f (u32 ms) t true else get_work w' s) by (intros; apply get_work_set).
  split; try done.
  - intros w' Hw. rewrite Hg. destruct (decide _); simpl; [tauto|by apply H4].
  - simpl. intros t' k. rewrite lookup_insert_Some. intros [[<- <-]|[Htt Hk]]; simpl; rewrite Hg.
    + rewrite decide_True by done. simpl. tauto.
    + destruct (decide _); simpl; [tauto|by apply (H5 t')].
  - intros w'. rewrite Hg. destruct (decide _) as [<-|Hw]; simpl.
    + split; [lia|]. intros _. exists true. by rewrite lookup_insert_eq.
    + destruct (H6 w') as [Ha Hb]. split; [done|]. intros Hd. destruct (Hb Hd) as [r Hr']. exists r.
      rewrite lookup_insert_ne; [done|congruence].
Qed.

Lemma drop_timer_inv held w s : inv held s -> exists s', drop_timer w s = Ret s' /\ inv held s' /\
  work_fn (get_work w s') = work_fn (get_work w s) /\ work_arg (get_work w s') = work_arg (get_work w s).
Proof.
  intros [H1 H2 H3 H4 H5 H6 H7]. unfold drop_timer. destruct (Z.gtb_spec (dly (get_work w s)) 0) as [Hd|Hd].
  2: { exists s. split_and!; done. }
  destruct (H6 w) as [_ [r Hr]]; [lia|]. unfold qm_timer_stop_free. simpl. rewrite Hr. simpl.
  assert (Hg : forall ts w', get_work w' (set_timers ts (set_work w
      (mk_work (work_arg (get_work w s)) (work_fn (get_work w s)) 0 (timer (get_work w s)) (wq (get_work w s))) s)) =
    if decide (w = w') then mk_work (work_arg (get_work w s)) (work_fn (get_work w s)) 0 (timer (get_work w s)) (wq (get_work w s)) else get_work w' s) by (intros; apply get_work_set).
  eexists. split; [done|]. rewrite !Hg, !decide_True by done. split; [|done]. split; try done.
  - intros w' Hw. rewrite Hg. destruct (decide _) as [<-|]; by apply H4.
  - simpl. intros t k. rewrite lookup_delete_Some. intros [_ Hk]. rewrite Hg. destruct (decide _) as [->|]; by apply (H5 t).
  - intros w'. rewrite Hg. destruct (decide _) as [<-|Hw]; simpl; [split; [lia|intros; lia]|].
    destruct (H6 w') as [Ha Hb]. split; [done|]. intros Hd'. destruct (Hb Hd') as [r' Hr']. exists r'.
    rewrite lookup_delete_ne; [done|]. congruence.
Qed.

Lemma cancel_inv held w s : inv held s -> exists r s', qm_cancel_delayed_action w s = Ret (r, s') /\ inv held s'.
Proof.
  intros Hs. unfold qm_cancel_delayed_action, qm_work_cancel. destruct (w =? 0); [by eexists _, _|].
  destruct (drop_timer_inv held w s Hs) as (s' & -> & Hs' & _). by eexists _, _.
Qed.

Lemma exec_op_inv held o s : inv held s -> exists r s', exec_op E o s = Ret (r, s') /\ inv held s'.
Proof using malloc_new timer_new_new timers_left.
  intros Hs. destruct o; simpl; [| | | |by apply delayed_inv|by apply cancel_inv];
    (eexists _, _; rewrite <- surjective_pairing; split; [done|]).
  - by apply register_inv.
  - by apply unregister_inv.
  - by apply generic_post_inv.
  - unfold qm_event_ext_post. destruct (_ =? 0); [done|]. by apply generic_post_inv.
Qed.

Lemma exec_ops_inv held os s : inv held s -> exists s', exec_ops E os s = Ret s' /\ inv held s'.
Proof using malloc_new timer_new_new timers_left.
  revert s. induction os as [|o os IH]; intros s Hs; simpl; [by exists s|].
  destruct (exec_op_inv held o s Hs) as (r & s1 & -> & Hs1). by apply IH.
Qed.

Lemma observe_call_inv held o s :
  inv held s -> match o with CallEvent _ _ _ | CallWork _ _ _ => True | _ => False end -> inv held (observe o s).
Proof.
  intros [H1 H2 H3 H4 H5 H6 H7] Ho. split; try done. simpl. rewrite sent_app, taken_app, H7.
  destruct o; try done; simpl; by rewrite !app_nil_r.
Qed.

Lemma handle_loop_inv held e k i s :
  inv held s -> (i + k <= CONFIG_QM_EVENT_NUM)%nat -> exists s', handle_loop E k i e s = Ret s' /\ inv held s'.
Proof using malloc_new timer_new_new timers_left.
  revert i s. induction k as [|k IH]; intros i s Hs Hi; simpl; [by exists s|].
  destruct (lookup_lt_is_Some_2 (event_node s) i) as [n Hn]; [rewrite (inv_table _ _ Hs); lia|]. rewrite Hn. simpl.
  destruct (node_matches e n); simpl; [|apply IH; [done|lia]].
  destruct (exec_ops_inv held (event_prog E (cb n) e (node_arg n)) (observe (CallEvent (cb n) e (node_arg n)) s))
    as (s1 & -> & Hs1); [by apply observe_call_inv|]. simpl. apply IH; [done|lia].
Qed.

Lemma free_inv e s : inv (owned (IEvent e)) s -> exists s', 
  (if negb (value e =? 0) && negb (size e =? 0) then qm_free (value e) s else Ret s) = Ret s' /\ inv [] s'.
Proof.
  simpl. destruct (_ && _); intros Hs; [|by exists s]. destruct Hs as [H1 H2 H3 H4 H5 H6 H7]. simpl in *.
  unfold qm_free. destruct (H3 (value e)) as [b Hb]; [apply elem_of_cons; by left|]. rewrite Hb. simpl.
  eexists. split; [done|]. apply NoDup_cons in H2 as [Hv H2]. split; try done.
  simpl. intros p Hp. rewrite lookup_delete_ne; [|by intros <-]. apply H3, elem_of_cons. by right.
Qed.

Lemma handle_info_inv i s :
  inv (owned i) s -> (forall w, i = IWork w -> work_fn (get_work w s) <> 0) ->
  exists s', handle_info E i s = Ret s' /\ inv [] s'.
Proof using malloc_new timer_new_new timers_left.
  intros Hs Hw. destruct i as [e|w]; simpl.
  - unfold qm_event_handle. destruct (handle_loop_inv _ e CONFIG_QM_EVENT_NUM 0 s Hs) as (s1 & -> & Hs1); [lia|].
    by apply free_inv.
  - unfold qm_work_handle. destruct (drop_timer_inv _ w s Hs) as (s1 & -> & Hs1 & Hf & Ha). simpl.
    rewrite (proj2 (Z.eqb_neq (work_fn (get_work w s1)) 0)) by (rewrite Hf; by apply Hw).
    apply exec_ops_inv. by apply observe_call_inv.
Qed.

Lemma wq_take_inv i l q s :
  inv [] s -> kq_items (queue s) = i :: l -> kq_items q = l -> inv (owned i) (observe (Taken i) (set_queue q s)).
Proof.
  intros [H1 H2 H3 H4 H5 H6 H7] Hi Hq. simpl in *. rewrite Hi in *. simpl in *.
  split; simpl; rewrite ?Hq; try done.
  - intros w Hw. apply H4, elem_of_cons. by right.
  - rewrite sent_app, taken_app, H7. simpl. by rewrite app_nil_r, <- app_assoc.
Qed.

Lemma worker_inv s : inv [] s -> exists s', worker_task E s = Ret s' /\ inv [] s'.
Proof using malloc_new timer_new_new timers_left.
  intros Hs. unfold worker_task. destruct (kq_items (queue s)) as [|i l] eqn:Hi.
  - rewrite (kq_recv_none _ Hi). by exists s.
  - destruct (kq_recv_some _ _ _ Hi) as (q & -> & Hq). apply handle_info_inv; [by apply (wq_take_inv i l)|].
    intros w ->. apply (inv_queued _ _ Hs). rewrite Hi. by left.
Qed.

Lemma expires_inv t s : inv [] s -> exists s', timer_expires t s = Ret s' /\ inv [] s'.
Proof.
  intros Hs. unfold timer_expires. destruct (timers s !! t) as [[w [|]]|] eqn:Ht; [|by exists s..].
  destruct (inv_timers _ _ Hs _ _ Ht) as [Hf Hq]. simpl in *. unfold work_timer_cb.
  change (get_work w (set_timers (<[t:=mk_timer w false]> (timers s)) s)) with (get_work w s). rewrite Hq.
  eexists. split; [done|]. apply send_inv; [|simpl; rewrite app_nil_r; apply Hs|intros ? []%elem_of_nil|by intros ? [= <-]].
  destruct Hs as [H1 H2 H3 H4 H5 H6 H7]. split; try done.
  - simpl. intros t' k. rewrite lookup_insert_Some. intros [[<- <-]|[_ Hk]]; [done|by apply (H5 t')].
  - simpl. intros w'. destruct (H6 w') as [Ha Hb]. split; [done|]. intros Hd. destruct (Hb Hd) as [r Hr].
    destruct (decide (t = timer (get_work w' s))) as [->|Hn].
    + exists false. assert (w = w') as -> by congruence. by rewrite lookup_insert_eq.
    + exists r. by rewrite lookup_insert_ne.
Qed.

Lemma wq_step_inv a s : inv [] s -> exists s', step E a s = Ret s' /\ inv [] s'.
Proof using malloc_new timer_new_new timers_left.
  intros Hs. destruct a as [o|t|]; simpl; [|by apply expires_inv|by apply worker_inv].
  destruct (exec_op_inv [] o s Hs) as (r & s' & -> & Hs'). by exists s'.
Qed.

Lemma run_inv acts s : inv [] s -> exists s', run E acts s = Ret s' /\ inv [] s'.
Proof using malloc_new timer_new_new timers_left.
  revert s. induction acts as [|a acts IH]; intros s Hs; simpl; [by exists s|].
  destruct (wq_step_inv a s Hs) as (s1 & -> & Hs1). by apply IH.
Qed.

Definition started : state := snd (qm_work_on_init QM_EOK QM_EOK QM_EOK static_state).

Lemma started_inv : inv [] started.
Proof.
  split; simpl; rewrite ?kq_new_empty; simpl; try done.
  - apply NoDup_nil_2.
  - by intros p []%elem_of_nil.
  - by intros w []%elem_of_nil.
Qed.


(** ** Cancelling *)

Definition op_posts (w : Z) (o : op) : bool := match o with ODelayed w' _ _ _ => w' =? w | _ => false end.
Definition posts_none (w : Z) (os : list op) : Prop := List.Forall (fun o => op_posts w o = false) os.

(** The calls of the function of a work. *)
Definition runs (w : Z) (tr : list obs) : list (Z * Z) :=
  omap (fun o => match o with CallWork w' f a => if w' =? w then Some (f, a) else None | _ => None end) tr.

Lemma runs_app w t1 t2 : runs w (t1 ++ t2) = runs w t1 ++ runs w t2.
Proof. apply omap_app. Qed.

(** Nothing is left that would run [w]. *)
Definition quiet (w : Z) s : Prop :=
  (IWork w ∉ kq_items (queue s)) /\ forall t, timers s !! t <> Some (mk_timer w true).

(** [s'] still does not run [w], and has not run it since [s]. *)
Definition still (w : Z) s s' : Prop := quiet w s' /\ runs w (trace s') = runs w (trace s).

Lemma still_refl w s : quiet w s -> still w s s.
Proof. done. Qed.
Lemma still_trans w s1 s2 s3 : still w s1 s2 -> still w s2 s3 -> still w s1 s3.
Proof. intros [_ H1] [H2 H3]. split; [done|congruence]. Qed.

Lemma send_still w isr i s s' : still w s s' -> i <> IWork w -> still w s (snd (qm_queue_info_generic_send isr i s')).
Proof.
  intros [[Hq Ht] Hr] Hi. destruct (send_cases isr i s') as [(q & -> & Hq' & _)|(e & _ & -> & _)]; [|done].
  split; [split|]; simpl; [|done|by rewrite runs_app, Hr, app_nil_r].
  rewrite Hq', elem_of_app, list_elem_of_singleton. by intros [?|<-].
Qed.

Lemma drop_timer_still w w' s s' : quiet w s -> drop_timer w' s = Ret s' -> still w s s'.
Proof.
  intros [Hq Ht]. unfold drop_timer, qm_timer_stop_free. destruct (_ >? 0); [|by intros [= <-]]. simpl.
  destruct (timers s !! _); [|done]. intros [= <-]. split; [split|]; simpl; [done| |done].
  intros t'. rewrite lookup_delete_Some. intros [_ ?]. by apply (Ht t').
Qed.

Lemma generic_post_still w isr now evt sub v src sz a s :
  quiet w s -> still w s (snd (qm_event_generic_post E isr now evt sub v src sz a s)).
Proof.
  intros Hs. unfold qm_event_generic_post, qm_input_event_set.
  destruct (v =? 0); simpl; [by apply send_still|]. destruct (sz =? 0); simpl; [by apply send_still|].
  destruct (malloc E (heap s)) as [p|]; [|done]. by apply send_still.
Qed.

Lemma exec_op_still w o s r s' : quiet w s -> op_posts w o = false -> exec_op E o s = Ret (r, s') -> still w s s'.
Proof.
  intros Hs Ho. destruct o as [evt c a|evt c a|isr now evt sub v src sz|isr now evt sub v src sz a|w' f a ms|w']; simpl in *.
  - intros [= Hr]. replace s' with (snd (r, s')) by done. rewrite <- Hr. unfold qm_event_register.
    destruct (c =? 0); [done|]. by destruct (take_node _ _).
  - intros [= Hr]. replace s' with (snd (r, s')) by done. rewrite <- Hr. unfold qm_event_unregister. by destruct (c =? 0).
  - intros [= Hr]. replace s' with (snd (r, s')) by done. rewrite <- Hr. by apply generic_post_still.
  - intros [= Hr]. replace s' with (snd (r, s')) by done. rewrite <- Hr. unfold qm_event_ext_post.
    destruct (a =? 0); [done|]. by apply generic_post_still.
  - apply Z.eqb_neq in Ho. destruct (decide (w' = 0 \/ f = 0)) as [Hz|Hz].
    { unfold qm_post_delayed_action. intros Hr. replace ((w' =? 0) || (f =? 0)) with true in Hr; [by injection Hr as _ <-|].
      by destruct Hz as [->| ->]; simpl; rewrite ?orb_true_r. }
    rewrite post_delayed_eq by tauto. destruct (u32 ms =? 0).
    { intros [= Hr]. replace s' with (snd (r, s')) by done. rewrite <- Hr. apply send_still; [done|congruence]. }
    destruct (timer_new E (timers s)) as [t|]; intros [= _ <-]; [|done].
    split; [split|]; simpl; [apply Hs| |done]. intros t'. rewrite lookup_insert_Some.
    intros [[_ ?]|[_ ?]]; [congruence|by apply (proj2 Hs t')].
  - unfold qm_cancel_delayed_action, qm_work_cancel. destruct (w' =? 0); [by intros [= _ <-]|].
    destruct (drop_timer w' s) as [s1| |] eqn:Hd; simpl; [|done..]. intros [= _ <-]. by apply (drop_timer_still w w').
Qed.

Lemma exec_ops_still w os s s' : quiet w s -> posts_none w os -> exec_ops E os s = Ret s' -> still w s s'.
Proof.
  intros Hs Hos. revert s Hs. induction Hos as [|o os Ho Hos IH]; intros s Hs; simpl; [by intros [= <-]|].
  intros ([r s1] & Hr & Hrest)%bind_Ret. apply (exec_op_still w) in Hr; [|done..].
  eapply still_trans; [done|]. apply IH; [apply Hr|done].
Qed.

(** Callbacks do not post [w]. *)
Definition callbacks_leave (w : Z) : Prop :=
  (forall c e a, posts_none w (event_prog E c e a)) /\ (forall f a, posts_none w (work_prog E f a)).

Lemma handle_loop_still w e k i s s' :
  callbacks_leave w -> quiet w s -> handle_loop E k i e s = Ret s' -> still w s s'.
Proof.
  intros [Hp _]. revert i s. induction k as [|k IH]; intros i s Hs; simpl; [by intros [= <-]|].
  destruct (event_node s !! i) as [n|]; [|done]. simpl. destruct (node_matches e n); simpl; [|by apply IH].
  intros (s1 & Hs1 & Hrest)%bind_Ret.
  apply (exec_ops_still w) in Hs1; [|done|by apply Hp].
  destruct Hs1 as [Hq1 Hr1]. simpl in Hr1. rewrite runs_app, app_nil_r in Hr1.
  eapply still_trans; [by split|]. by eapply IH.
Qed.

Lemma handle_info_still w i s s' :
  callbacks_leave w -> quiet w s -> i <> IWork w -> handle_info E i s = Ret s' -> still w s s'.
Proof.
  intros Hp Hs Hi. destruct i as [e|w']; simpl.
  - unfold qm_event_handle, qm_free. intros (s1 & Hs1 & Hrest)%bind_Ret. apply (handle_loop_still w) in Hs1; [|done..].
    eapply still_trans; [done|]. destruct (_ && _); [|by injection Hrest as <-; apply still_refl, Hs1].
    apply bind_Ret in Hrest as (b & _ & [= <-]). split; [apply Hs1|done].
  - unfold qm_work_handle. intros (s1 & Hs1 & Hrest)%bind_Ret. apply (drop_timer_still w) in Hs1; [|done..].
    eapply still_trans; [done|]. destruct (_ =? 0); [done|].
    apply (exec_ops_still w) in Hrest; [|apply Hs1|by apply Hp].
    destruct Hrest as [Hq Hr]. split; [done|]. rewrite Hr. simpl. rewrite runs_app. simpl.
    rewrite (proj2 (Z.eqb_neq w' w)) by congruence. by rewrite app_nil_r.
Qed.

Lemma step_still w a s s' :
  callbacks_leave w -> quiet w s -> (forall o, a = AOp o -> op_posts w o = false) -> step E a s = Ret s' -> still w s s'.
Proof.
  intros Hp Hs Ha. destruct a as [o|t|]; simpl.
  - intros ([r s1] & Hr & [= <-])%bind_Ret. eapply exec_op_still; eauto.
  - unfold timer_expires. destruct (timers s !! t) as [[w' [|]]|] eqn:Ht; [|by intros [= <-]..].
    unfold work_timer_cb. destruct (wq _); [|done]. intros [= <-].
    apply send_still; [|intros [= ->]; by apply Hs in Ht]. split; [split|]; simpl; [apply Hs| |done].
    intros t'. rewrite lookup_insert_Some. intros [[_ ?]|[_ ?]]; [congruence|by apply (proj2 Hs t')].
  - unfold worker_task. destruct (kq_items (queue s)) as [|i l] eqn:Hi.
    { rewrite (kq_recv_none _ Hi). by intros [= <-]. }
    destruct (kq_recv_some _ _ _ Hi) as (q & -> & Hq). destruct Hs as [Hn Ht]. rewrite Hi in Hn.
    intros Hr. apply (handle_info_still w) in Hr; [|done|split; simpl; [rewrite Hq; intros ?; apply Hn; by right|done]|intros ->; apply Hn; by left].
    destruct Hr as [Hr1 Hr2]. split; [done|]. rewrite Hr2. simpl. by rewrite runs_app, app_nil_r.
Qed.

Lemma run_still w acts s s' :
  callbacks_leave w -> quiet w s -> List.Forall (fun a => forall o, a = AOp o -> op_posts w o = false) acts ->
  run E acts s = Ret s' -> still w s s'.
Proof.
  intros Hp Hs Ha. revert s Hs. induction Ha as [|a acts Ha Hacts IH]; intros s Hs; simpl; [by intros [= <-]|].
  intros (s1 & Hs1 & Hr)%bind_Ret. apply (step_still w) in Hs1; [|done..]. eapply still_trans; [done|]. apply IH; [apply Hs1|done].
Qed.


(** ** Draining the queue *)

(** The calls that handling a message makes. *)
Definition calls_of (i : qm_queue_info_t) s : list obs :=
  match i with
  | IEvent e => (fun n => CallEvent (cb n) e (node_arg n)) <$> filter (fun n => node_matches e n) (event_node s)
  | IWork w => [CallWork w (work_fn (get_work w s)) (work_arg (get_work w s))]
  end.

(** [s'] has the table, the functions of the works and the queue of [s]. *)
Definition same_calls s s' : Prop :=
  event_node s' = event_node s /\ queue s' = queue s /\
  forall w, work_fn (get_work w s') = work_fn (get_work w s) /\ work_arg (get_work w s') = work_arg (get_work w s).

Lemma same_calls_of i s s' : same_calls s s' -> calls_of i s' = calls_of i s.
Proof. intros (Hn & _ & Hw). destruct i as [e|w]; simpl; [by rewrite Hn|]. destruct (Hw w) as [-> ->]. done. Qed.

(** Callbacks that make no calls of their own. *)
Definition callbacks_silent : Prop := (forall c e a, event_prog E c e a = []) /\ (forall f a, work_prog E f a = []).

Lemma handle_loop_silent e k i s :
  callbacks_silent -> (i + k = length (event_node s))%nat ->
  handle_loop E k i e s = Ret (mk_state (event_node s) (queue s) (works s) (timers s) (heap s)
    (trace s ++ ((fun n => CallEvent (cb n) e (node_arg n)) <$> filter (fun n => node_matches e n) (drop i (event_node s))))).
Proof.
  intros [Hp _]. revert i s. induction k as [|k IH]; intros i s Hi; simpl.
  { rewrite drop_ge by lia. simpl. rewrite app_nil_r. by destruct s. }
  destruct (lookup_lt_is_Some_2 (event_node s) i) as [n Hn]; [lia|]. rewrite Hn. simpl. rewrite (drop_S _ _ _ Hn).
  rewrite filter_cons. destruct (node_matches e n) eqn:Hm; simpl.
  - rewrite Hp. simpl. rewrite IH by (simpl; lia). simpl. by rewrite <- app_assoc.
  - by rewrite IH by lia.
Qed.

Lemma drop_timer_same w s s' :
  drop_timer w s = Ret s' -> same_calls s s' /\ trace s' = trace s /\ heap s' = heap s.
Proof.
  unfold drop_timer, qm_timer_stop_free. destruct (_ >? 0); [|by intros [= <-]]. simpl.
  destruct (timers s !! _) as [k|]; [|done]. intros [= <-]. split; [|done]. split_and!; [done..|]. intros w'.
  match goal with |- context [get_work w' (set_timers ?ts ?s1)] =>
    change (get_work w' (set_timers ts s1)) with (get_work w' s1) end.
  rewrite get_work_set. by destruct (decide _) as [<-|].
Qed.

Lemma handle_info_silent i s s' :
  callbacks_silent -> length (event_node s) = CONFIG_QM_EVENT_NUM -> handle_info E i s = Ret s' ->
  same_calls s s' /\ trace s' = trace s ++ calls_of i s /\ heap s' = foldr delete (heap s) (owned i).
Proof.
  intros Hp Hl. destruct i as [e|w]; simpl.
  - unfold qm_event_handle. rewrite handle_loop_silent by done. simpl. unfold qm_free.
    destruct (_ && _); simpl; [|by intros [= <-]]. destruct (heap s !! value e); [|done]. by intros [= <-].
  - unfold qm_work_handle. intros (s1 & Hd & Hr)%bind_Ret. destruct (drop_timer_same _ _ _ Hd) as (Hsame & Ht & Hh).
    destruct (_ =? 0); [done|]. rewrite (proj2 Hp) in Hr. injection Hr as <-. simpl.
    split; [done|]. split; [|done]. rewrite Ht. destruct Hsame as (_ & _ & Hw). destruct (Hw w) as [-> ->]. done.
Qed.

Lemma process_drains l s :
  callbacks_silent -> inv [] s -> kq_items (queue s) = l ->
  exists s', qm_workqueue_process E (S (length l)) s = Ret s' /\ inv [] s' /\ kq_items (queue s') = [] /\
    trace s' = trace s ++ (l ≫= fun i => Taken i :: calls_of i s) /\
    heap s' = foldr delete (heap s) (rev (l ≫= owned)).
Proof using malloc_new timer_new_new timers_left.
  intros Hp. revert s. induction l as [|i l IH]; intros s Hs Hi.
  { exists s. simpl. rewrite (kq_recv_none _ Hi), app_nil_r. by split_and!. }
  cbn [length qm_workqueue_process]. destruct (kq_recv_some _ _ _ Hi) as (q & -> & Hq).
  destruct (handle_info_inv i (observe (Taken i) (set_queue q s))) as (s1 & Hr & Hs1).
  { by apply (wq_take_inv i l). }
  { intros w ->. apply (inv_queued _ _ Hs). rewrite Hi. by left. }
  rewrite Hr. cbn [mbind outcome_bind].
  apply handle_info_silent in Hr as (Hsame & Ht & Hh); [|done|apply Hs]. cbn [heap trace observe set_queue] in *.
  destruct (IH s1) as (s' & Hr' & Hinv & He & Ht' & Hh'); [done|by rewrite (proj1 (proj2 Hsame))|].
  exists s'. split_and!; [done..| |].
  - rewrite Ht', Ht. simpl. rewrite <- !app_assoc. simpl.
    replace (calls_of i (observe (Taken i) (set_queue q s))) with (calls_of i s) by done.
    do 3 f_equal. apply list_bind_ext; [|done]. intros i'. by rewrite (same_calls_of i' _ _ Hsame).
  - rewrite Hh', Hh. simpl. rewrite rev_app_distr, foldr_app. f_equal. clear. destruct i as [e|w]; simpl; [|done].
    by destruct (_ && _).
Qed.

(** C25: with callbacks that make no calls, [qm_workqueue_process] returns once the
    queue is empty, after one round per message: in the order of posting, every event
    is given to the registered handlers that match it, in the order of the table, and
    every work runs its function; the copies of the handled events are freed. *)
Theorem process_handles_all acts s :
  callbacks_silent -> run E acts started = Ret s ->
  let l := kq_items (queue s) in
  exists s', qm_workqueue_process E (S (length l)) s = Ret s' /\ kq_items (queue s') = [] /\
    trace s' = trace s ++ (l ≫= fun i => Taken i :: calls_of i s) /\
    heap s' = foldr delete (heap s) (rev (l ≫= owned)).
Proof using malloc_new timer_new_new timers_left.
  intros Hp Hr. destruct (run_inv acts started started_inv) as (s1 & Hr' & Hs1).
  assert (s1 = s) as -> by congruence.
  destruct (process_drains _ s Hp Hs1 eq_refl) as (s' & H1 & _ & H2 & H3 & H4). by exists s'.
Qed.
End safety.

(** ** Concrete runs *)

(** The first free number above the used ones. *)
Definition next_key {A} (h : gmap Z A) : Z := 1 + foldr Z.max 0 (map_to_list h).*1.

Lemma next_key_new {A} (h : gmap Z A) : next_key h <> 0 /\ h !! next_key h = None.
Proof.
  assert (Hmax : forall l k, k ∈ l -> 0 <= foldr Z.max 0 l /\ k <= foldr Z.max 0 l).
  { intros l k. induction l as [|a l IH]; [by intros []%elem_of_nil|]. rewrite elem_of_cons. simpl.
    assert (0 <= foldr Z.max 0 l) by (clear; induction l; simpl; lia). intros [->|Hk]; [lia|]. apply IH in Hk. lia. }
  assert (Hpos : 0 <= foldr Z.max 0 (map_to_list h).*1) by (induction (map_to_list h).*1; simpl; lia).
  unfold next_key. split; [lia|]. destruct (h !! _) as [x|] eqn:Hx; [|done].
  apply elem_of_map_to_list in Hx. apply (list_elem_of_fmap_2 fst), Hmax in Hx. simpl in Hx. lia.
Qed.

(** Handler 70 posts event 2; function 80 cancels work 5. *)
Definition env1 : env := mk_env (fun h => Some (next_key h)) (fun ts => Some (next_key ts))
  (fun c _ _ => if c =? 70 then [OPost false 0 2 0 0 [] 0] else [])
  (fun f _ => if f =? 80 then [OCancel 5] else []).

(** Callbacks without calls. *)
Definition env2 : env := mk_env (fun h => Some (next_key h)) (fun ts => Some (next_key ts)) (fun _ _ _ => []) (fun _ _ => []).

Lemma next_key_env {A} (h : gmap Z A) p : Some (next_key h) = Some p -> p <> 0 /\ h !! p = None.
Proof. intros [= <-]. apply next_key_new. Qed.

Abbreviation start1 := (@started (list qm_queue_info_t) _).
Abbreviation run1 E := (@run (list qm_queue_info_t) _ E).

Definition acts1 : list action :=
  [AOp (ORegister 1 70 0); AOp (ORegister 2 71 9); AOp (OPost false 100 1 0 4096 [7; 8; 9] 2);
   AOp (ODelayed 5 80 0 50); AOp (ODelayed 6 81 3 0); AExpire 1; AWorker; AWorker; AWorker; AWorker].


(** The delayed action 5 of 50 ms is cancelled while its timer runs. *)
Definition acts2 : list action := [AOp (ODelayed 5 80 0 50); AOp (ODelayed 6 81 3 10)].
Definition acts3 : list action := [AExpire 1; AExpire 2; AWorker; AWorker].


Lemma process_handles_all_witness :
  exists s s', run1 env2 (take 5 acts1) start1 = Ret s /\ qm_workqueue_process env2 3 s = Ret s' /\
    kq_items (queue s') = [] /\ heap s' = ∅.
Proof.
  destruct (run1 env2 (take 5 acts1) start1) as [s| |] eqn:Hr; [|by vm_compute in Hr..]. exists s.
  destruct (process_handles_all env2 (fun h p => next_key_env h p) (fun ts t H => proj2 (next_key_env ts t H)) (fun ts H => ltac:(discriminate H))
    (take 5 acts1) s) as (s' & H1 & H2 & H3 & H4); [done|done|].
  exists s'. vm_compute in Hr. injection Hr as <-. split_and!; [done|exact H1|exact H2|]. rewrite H4. by vm_compute.
Defined.

(** ** Where the code does not do what its callers expect *)

(** A work whose timer has expired is queued; cancelling it returns [QM_EOK] and it
    runs nevertheless. *)
Lemma cancel_after_expiry_runs :
  exists s, run1 env2 [AOp (ODelayed 5 80 7 50); AExpire 1; AOp (OCancel 5); AWorker] start1 = Ret s /\
    runs 5 (trace s) = [(80, 7)].
Proof. eexists. split; [by vm_compute|done]. Qed.

(** Posting a work again does not stop its first timer: it runs twice. *)
Lemma repost_runs_twice :
  exists s, run1 env2 [AOp (ODelayed 5 80 7 50); AOp (ODelayed 5 80 7 50); AExpire 1; AExpire 2; AWorker; AWorker] start1 = Ret s /\
    runs 5 (trace s) = [(80, 7); (80, 7)].
Proof. eexists. split; [by vm_compute|done]. Qed.

(** When the second post finds no timer, the first one still expires, in a work whose
    queue was reset to NULL. *)
Lemma failed_repost_crashes :
  run1 (mk_env (fun h => Some (next_key h)) (fun ts => if decide (ts = ∅) then Some 1 else None) (fun _ _ _ => []) (fun _ _ => []))
    [AOp (ODelayed 5 80 7 50); AOp (ODelayed 5 80 7 50); AExpire 1] start1 = OutOfBounds.
Proof. by vm_compute. Qed.

(** Cancelling a work whose post failed for want of a timer stops a handle that was
    never created. *)
Lemma cancel_failed_post_crashes :
  run1 (mk_env (fun h => Some (next_key h)) (fun _ => None) (fun _ _ _ => []) (fun _ _ => []))
    [AOp (ODelayed 5 80 7 50); AOp (OCancel 5)] start1 = OutOfBounds.
Proof. by vm_compute. Qed.

(** An event that is already registered is registered again, although the first loop
    of [qm_event_register] looks for this. *)
Lemma register_again :
  exists s, run1 env2 [AOp (ORegister 1 70 0)] start1 = Ret s /\ fst (qm_event_register 1 70 0 s) = QM_EOK.
Proof. eexists. split; by vm_compute. Qed.

(** The copy of an event that does not fit in the queue stays allocated: no message
    owns it. *)
Lemma full_queue_leaks :
  exists s, run1 env2 (replicate 11 (AOp (OPost false 0 1 0 4096 [7] 1))) start1 = Ret s /\
    (kq_items (queue s) ≫= owned) = [1; 2; 3; 4; 5; 6; 7; 8; 9; 10] /\ heap s !! 11 = Some [7].
Proof. eexists. split; by vm_compute. Qed.

(** A timer that expires while the queue is full loses its work. *)
Lemma full_queue_loses_work :
  exists s, run1 env2 (AOp (ODelayed 5 80 7 50) :: replicate 10 (AOp (OPost false 0 1 0 0 [] 0)) ++ [AExpire 1] ++ replicate 12 AWorker) start1 = Ret s /\
    runs 5 (trace s) = [] /\ kq_items (queue s) = [] /\ timers s !! 1 = Some (mk_timer 5 false).
Proof. eexists. split; by vm_compute. Qed.

End WorkQueue.
