(* ===== verification/Flash.v ===== *)
(** * NOR flash

    What the key-value store relies on: the flash driver of the vendor reads bytes,
    clears bits when it writes, and sets a whole sector when it erases.  [SpiFlash] is
    this interface; a finite map of the bytes that are not erased is an instance, and a
    flash with the journal of its past states another one.
    The lemmas say what a read returns after a write or an erase. *)

From S2P Require Import Prelude.
Import list_relations.list list_basics.list.
Open Scope Z_scope.

Definition SPI_FLASH_SEC_SIZE : Z := 4096.

Class SpiFlash (F : Type) := {
  fl_byte : F -> Z -> Z;
  spi_flash_read : F -> Z -> Z -> list Z;
  spi_flash_write : F -> Z -> list Z -> F;
  spi_flash_erase_sector : F -> Z -> F;
  fl_read f a n : spi_flash_read f a n = fl_byte f <$> seqZ a n;
  fl_write f a d x : fl_byte (spi_flash_write f a d) x =
    match d !! Z.to_nat (x - a) with
    | Some b => if a <=? x then Z.land (fl_byte f x) b else fl_byte f x
    | None => fl_byte f x
    end;
  fl_erase f s x : fl_byte (spi_flash_erase_sector f s) x =
    if (s * SPI_FLASH_SEC_SIZE <=? x) && (x <? (s + 1) * SPI_FLASH_SEC_SIZE) then 255 else fl_byte f x
}.

Module Flash.

Section lemmas.
Context {F : Type} `{!SpiFlash F}.
Implicit Types f : F.

Lemma length_read f a n : length (spi_flash_read f a n) = Z.to_nat n.
Proof. by rewrite fl_read, length_fmap, length_seqZ. Qed.

Lemma read_nil f a n : n <= 0 -> spi_flash_read f a n = [].
Proof. intros Hn. apply nil_length_inv. rewrite length_read. lia. Qed.

Lemma read_app f a n m : 0 <= n -> 0 <= m ->
  spi_flash_read f a (n + m) = spi_flash_read f a n ++ spi_flash_read f (a + n) m.
Proof. intros Hn Hm. by rewrite !fl_read, seqZ_app, fmap_app by lia. Qed.

(** A read inside a known region. *)
Lemma read_sub f a n l o m : spi_flash_read f a n = l -> 0 <= o -> 0 <= m -> o + m <= n ->
  spi_flash_read f (a + o) m = take (Z.to_nat m) (drop (Z.to_nat o) l).
Proof.
  intros <- Ho Hm Hn. replace n with (o + (m + (n - o - m))) by lia.
  rewrite !read_app by lia. rewrite drop_app_length' by (rewrite length_read; lia).
  by rewrite take_app_length' by (rewrite length_read; lia).
Qed.

Lemma read_ext f f' a n : (forall x, a <= x < a + n -> fl_byte f' x = fl_byte f x) ->
  spi_flash_read f' a n = spi_flash_read f a n.
Proof.
  intros Hx. rewrite !fl_read. apply list_fmap_ext. intros i x Hi. apply lookup_seqZ in Hi. apply Hx. lia.
Qed.

Lemma write_out f a d x : x < a \/ a + Z.of_nat (length d) <= x -> fl_byte (spi_flash_write f a d) x = fl_byte f x.
Proof.
  intros Hx. rewrite fl_write. destruct (d !! Z.to_nat (x - a)) as [b|] eqn:Hb; [|done].
  destruct (Z.leb_spec a x) as [Ha|Ha]; [|done]. apply lookup_lt_Some in Hb. lia.
Qed.

Lemma read_write_out f a d b n :
  b + n <= a \/ a + Z.of_nat (length d) <= b -> spi_flash_read (spi_flash_write f a d) b n = spi_flash_read f b n.
Proof. intros Hb. apply read_ext. intros x Hx. apply write_out. lia. Qed.

Lemma read_write_same f a d n :
  n = Z.of_nat (length d) ->
  spi_flash_read (spi_flash_write f a d) a n = zip_with Z.land (spi_flash_read f a n) d.
Proof.
  intros ->. apply list_eq. intros i. rewrite lookup_zip_with, !fl_read, !list_lookup_fmap.
  destruct (decide (i < length d)%nat) as [Hi|Hi].
  - rewrite !lookup_seqZ_lt by lia. simpl. rewrite fl_write.
    replace (Z.to_nat (a + Z.of_nat i - a)) with i by lia. rewrite (proj2 (Z.leb_le a (a + Z.of_nat i))) by lia.
    destruct (lookup_lt_is_Some_2 d i Hi) as [b ->]. done.
  - rewrite !lookup_seqZ_ge by lia. done.
Qed.

Lemma land_255_l b : is_u8 b -> Z.land 255 b = b.
Proof. intros Hb. rewrite Z.land_comm. change 255 with (Z.ones 8). rewrite Z.land_ones by lia. by apply u8_id. Qed.

(** Writing into an erased region stores the data. *)
Lemma read_write_erased f a d n :
  n = Z.of_nat (length d) -> spi_flash_read f a n = replicate (length d) 255 -> List.Forall is_u8 d ->
  spi_flash_read (spi_flash_write f a d) a n = d.
Proof.
  intros Hn He Hd. rewrite read_write_same, He by done. clear -Hd.
  induction Hd as [|b d Hb Hd IH]; simpl; [done|]. by rewrite land_255_l, IH.
Qed.

Lemma erase_out f s b n :
  b + n <= s * SPI_FLASH_SEC_SIZE \/ (s + 1) * SPI_FLASH_SEC_SIZE <= b ->
  spi_flash_read (spi_flash_erase_sector f s) b n = spi_flash_read f b n.
Proof.
  intros Hb. apply read_ext. intros x Hx. rewrite fl_erase.
  destruct (Z.leb_spec (s * SPI_FLASH_SEC_SIZE) x); destruct (Z.ltb_spec x ((s + 1) * SPI_FLASH_SEC_SIZE)); simpl; (done || (exfalso; lia)).
Qed.

Lemma erase_in f s b n :
  s * SPI_FLASH_SEC_SIZE <= b -> b + n <= (s + 1) * SPI_FLASH_SEC_SIZE ->
  spi_flash_read (spi_flash_erase_sector f s) b n = replicate (Z.to_nat n) 255.
Proof.
  intros Hb Hn. apply list_eq. intros i. rewrite fl_read, list_lookup_fmap.
  destruct (decide (Z.of_nat i < n)) as [Hi|Hi].
  - rewrite lookup_seqZ_lt, lookup_replicate_2 by lia. simpl. rewrite fl_erase.
    rewrite (proj2 (Z.leb_le _ (b + Z.of_nat i))), (proj2 (Z.ltb_lt (b + Z.of_nat i) _)) by lia. done.
  - rewrite lookup_seqZ_ge by lia. symmetry. apply lookup_ge_None. rewrite length_replicate. lia.
Qed.

End lemmas.

(** ** Instance: the bytes that are not erased *)

Fixpoint map_write (f : gmap Z Z) (a : Z) (d : list Z) : gmap Z Z :=
  match d with
  | [] => f
  | b :: d => map_write (<[a := Z.land (default 255 (f !! a)) b]> f) (a + 1) d
  end.

Fixpoint map_erase (f : gmap Z Z) (a : Z) (n : nat) : gmap Z Z :=
  match n with
  | O => f
  | S n => map_erase (delete a f) (a + 1) n
  end.

Lemma map_write_spec d : forall f a x, default 255 (map_write f a d !! x) =
  match d !! Z.to_nat (x - a) with
  | Some b => if a <=? x then Z.land (default 255 (f !! x)) b else default 255 (f !! x)
  | None => default 255 (f !! x)
  end.
Proof.
  induction d as [|b d IH]; intros f a x; simpl; [done|]. rewrite IH.
  destruct (Z.leb_spec a x) as [Ha|Ha].
  - destruct (decide (x = a)) as [->|Hne].
    + rewrite Z.sub_diag, (proj2 (Z.leb_gt (a + 1) a)) by lia. simpl. rewrite lookup_insert_eq. simpl.
      by destruct (d !! _).
    + rewrite lookup_insert_ne, (proj2 (Z.leb_le (a + 1) x)) by lia.
      replace (Z.to_nat (x - a)) with (S (Z.to_nat (x - (a + 1)))) by lia. done.
  - rewrite lookup_insert_ne, (proj2 (Z.leb_gt (a + 1) x)) by lia.
    by destruct (d !! _), (_ !! Z.to_nat (x - a)).
Qed.

Lemma map_erase_spec n : forall f a x, default 255 (map_erase f a n !! x) =
  if (a <=? x) && (x <? a + Z.of_nat n) then 255 else default 255 (f !! x).
Proof.
  induction n as [|n IH]; intros f a x; simpl.
  - rewrite Z.add_0_r. destruct (Z.leb_spec a x), (Z.ltb_spec x a); simpl; (done || (exfalso; lia)).
  - rewrite IH. destruct (decide (x = a)) as [->|Hne].
    + rewrite lookup_delete_eq, Z.leb_refl, (proj2 (Z.ltb_lt a (a + Z.of_nat (S n)))) by lia. by destruct (_ && _).
    + rewrite lookup_delete_ne by done.
      destruct (Z.leb_spec (a + 1) x), (Z.leb_spec a x), (Z.ltb_spec x (a + 1 + Z.of_nat n)),
        (Z.ltb_spec x (a + Z.of_nat (S n))); simpl; (done || (exfalso; lia)).
Qed.

#[export] Instance map_flash : SpiFlash (gmap Z Z).
Proof.
  refine {| fl_byte f x := default 255 (f !! x);
            spi_flash_read f a n := (fun x => default 255 (f !! x)) <$> seqZ a n;
            spi_flash_write := map_write;
            spi_flash_erase_sector f s := map_erase f (s * SPI_FLASH_SEC_SIZE) (Z.to_nat SPI_FLASH_SEC_SIZE) |}.
  - done.
  - intros f a d x. apply map_write_spec.
  - intros f s x. rewrite map_erase_spec. unfold SPI_FLASH_SEC_SIZE. rewrite Z2Nat.id by lia.
    by replace ((s + 1) * 4096) with (s * 4096 + 4096) by lia.
Defined.

(** ** Instance: a flash that remembers its past

    Every write and every erase first records the flash; these are the states in which a
    loss of power between two calls of the driver leaves it. *)

Record journal (F : Type) := mk_journal { j_now : F; j_past : list F }.
Arguments mk_journal {F}. Arguments j_now {F}. Arguments j_past {F}.

Definition record {F} (f : journal F) (f' : F) : journal F := mk_journal f' (j_now f :: j_past f).

#[global] Program Instance journal_flash {F} `{!SpiFlash F} : SpiFlash (journal F) := {|
  fl_byte f := fl_byte (j_now f);
  spi_flash_read f := spi_flash_read (j_now f);
  spi_flash_write f a d := record f (spi_flash_write (j_now f) a d);
  spi_flash_erase_sector f s := record f (spi_flash_erase_sector (j_now f) s)
|}.
Next Obligation. intros. apply fl_read. Qed.
Next Obligation. intros. apply fl_write. Qed.
Next Obligation. intros. apply fl_erase. Qed.

End Flash.
