(* ===== verification/KvMgr.v ===== *)
(** * Key-value store: the code (utility/kv/qm_kvmgr.c)

    Items are appended to blocks of flash; an update writes a new item and then
    marks the old one as deleted; garbage collection copies the live items of a
    dirty block into the reserved clean block and erases the dirty one.  A computation
    is a function on the world: the manager [g_kv_mgr], the flash, and the results of
    the coming allocations.  The flash driver is the class [SpiFlash]; the functions
    [raw_read], [raw_write] and [raw_erase] always return 0, so the branches of the
    callers for flash errors are never taken and are left out. *)

From S2P Require Import Prelude Outcome Flash.
Import list_relations.list list_basics.list Flash.
Open Scope Z_scope.

Module KvMgr.

(** ** Constants *)

Definition RES_OK : Z := 0.
Definition RES_CONT : Z := -11.
Definition RES_NO_SPACE : Z := -28.
Definition RES_INVALID_PARAM : Z := -22.
Definition RES_MALLOC_FAILED : Z := -12.
Definition RES_ITEM_NOT_FOUND : Z := -2.

Definition BLK_BITS : Z := 12.
Definition BLK_SIZE : Z := 4096.
Definition BLK_OFF_MASK : Z := Z.lnot (BLK_SIZE - 1).
Definition BLK_STATE_USED : Z := 0xCC.
Definition BLK_STATE_CLEAN : Z := 0xEE.
Definition BLK_STATE_DIRTY : Z := 0x44.
Definition BLK_HEADER_SIZE : Z := 4.

Definition INVALID_BLK_STATE (state : Z) : bool :=
  negb (state =? BLK_STATE_USED) && negb (state =? BLK_STATE_CLEAN) && negb (state =? BLK_STATE_DIRTY).

Definition ITEM_HEADER_SIZE : Z := 8.
Definition ITEM_STATE_NORMAL : Z := 0xEE.
Definition ITEM_STATE_DELETE : Z := 0.
Definition ITEM_MAX_KEY_LEN : Z := 128.
Definition ITEM_MAX_VAL_LEN : Z := 768.
Definition ITEM_MAX_LEN : Z := ITEM_HEADER_SIZE + ITEM_MAX_KEY_LEN + ITEM_MAX_VAL_LEN.

Definition KV_STATE_OFF : Z := 1.
(** On a 32-bit CPU. *)
Definition KV_ALIGN_MASK : Z := Z.lnot (4 - 1).
Definition KV_GC_RESERVED : Z := 1.

Definition BLK_MAGIC_NUM : Z := 75.
Definition ITEM_MAGIC_NUM : Z := 73.
Definition KV_PARAM_START_ADDRESS : Z := 0xFA000.
Definition KV_PARAM_START_SECTOR : Z := KV_PARAM_START_ADDRESS / SPI_FLASH_SEC_SIZE.

(** ** Data *)

Record item_hdr_t := mk_hdr {
  magic : Z; state : Z; crc : Z; key_len : Z; val_len : Z; origin_off : Z
}.

Record kv_item_t := mk_item { hdr : item_hdr_t; store : list Z; len : Z; pos : Z }.

Record block_info_t := mk_info { space : Z; bstate : Z }.

Record kv_mgr_t := mk_mgr {
  kv_initialize : Z;
  gc_triggered : Z;
  gc_waiter : Z;
  clean_blk_nums : Z;
  write_pos : Z;
  block_info : list block_info_t
}.

(** The packed header in memory, on a little-endian CPU. *)
Definition enc_hdr (h : item_hdr_t) : list Z :=
  [magic h; state h; crc h; key_len h; Z.land (val_len h) 255; Z.shiftr (val_len h) 8;
   Z.land (origin_off h) 255; Z.shiftr (origin_off h) 8].

Definition dec_hdr (l : list Z) : item_hdr_t :=
  match l with
  | [m; s; c; k; v0; v1; o0; o1] => mk_hdr m s c k (v0 + 256 * v1) (o0 + 256 * o1)
  | _ => mk_hdr 0 0 0 0 0 0
  end.

(** Rounding up to the alignment. *)
Definition align (z : Z) : Z := u16 (Z.land (z + Z.lnot KV_ALIGN_MASK) KV_ALIGN_MASK).

Fixpoint crc8_bits (n : nat) (crc : Z) : Z :=
  match n with
  | O => crc
  | S n => crc8_bits n (if negb (Z.land crc 0x80 =? 0) then u8 (Z.lxor (Z.shiftl crc 1) 0x31) else u8 (Z.shiftl crc 1))
  end.

Definition utils_crc8 (buf : list Z) : Z := foldl (fun crc b => crc8_bits 8 (Z.lxor crc b)) 0 buf.

Section kv.
(** [N] is BLK_NUMS; [search_fuel] bounds the rounds of the search for a free block. *)
Context {F : Type} `{!SpiFlash F} (N : nat) (search_fuel : nat).

Record world := mk_world { mgr : kv_mgr_t; flash : F; oom : list bool }.

Definition M (A : Type) : Type := world -> outcome (A * world).

#[global] Instance M_ret : MRet M := fun A a w => Ret (a, w).
#[global] Instance M_bind : MBind M := fun A B k m w =>
  match m w with Ret (a, w1) => k a w1 | OutOfBounds => OutOfBounds | NoFuel => NoFuel end.

(** ** Access to the world *)

Definition get_mgr : M kv_mgr_t := fun w => Ret (mgr w, w).
Definition set_mgr (g : kv_mgr_t) : M unit := fun w => Ret (tt, mk_world g (flash w) (oom w)).

(** The next allocation fails when [oom] says so. *)
Definition qm_malloc : M bool := fun w =>
  match oom w with
  | [] => Ret (true, w)
  | b :: l => Ret (negb b, mk_world (mgr w) (flash w) l)
  end.

Definition raw_read (offset n : Z) : M (list Z) := fun w =>
  Ret (spi_flash_read (flash w) (KV_PARAM_START_ADDRESS + offset) n, w).
Definition raw_write (offset : Z) (d : list Z) : M unit := fun w =>
  Ret (tt, mk_world (mgr w) (spi_flash_write (flash w) (KV_PARAM_START_ADDRESS + offset) d) (oom w)).
Definition raw_erase (offset : Z) : M unit := fun w =>
  Ret (tt, mk_world (mgr w)
    (spi_flash_erase_sector (flash w) (KV_PARAM_START_SECTOR + offset / SPI_FLASH_SEC_SIZE)) (oom w)).

Definition upd_info (bi : list block_info_t) (g : kv_mgr_t) : kv_mgr_t :=
  mk_mgr (kv_initialize g) (gc_triggered g) (gc_waiter g) (clean_blk_nums g) (write_pos g) bi.
Definition upd_clean (c : Z) (g : kv_mgr_t) : kv_mgr_t :=
  mk_mgr (kv_initialize g) (gc_triggered g) (gc_waiter g) c (write_pos g) (block_info g).
Definition upd_write_pos (p : Z) (g : kv_mgr_t) : kv_mgr_t :=
  mk_mgr (kv_initialize g) (gc_triggered g) (gc_waiter g) (clean_blk_nums g) p (block_info g).
Definition upd_gc (t n : Z) (g : kv_mgr_t) : kv_mgr_t :=
  mk_mgr (kv_initialize g) t n (clean_blk_nums g) (write_pos g) (block_info g).
Definition upd_initialize (z : Z) (g : kv_mgr_t) : kv_mgr_t :=
  mk_mgr z (gc_triggered g) (gc_waiter g) (clean_blk_nums g) (write_pos g) (block_info g).

Definition modify (f : kv_mgr_t -> kv_mgr_t) : M unit := g ← get_mgr; set_mgr (f g).

(** Accesses to the array [block_info]. *)
Definition get_info (i : Z) : M block_info_t := fun w =>
  match block_info (mgr w) !! Z.to_nat i with Some b => Ret (b, w) | None => OutOfBounds end.
Definition set_info (i : Z) (b : block_info_t) : M unit := fun w =>
  match block_info (mgr w) !! Z.to_nat i with
  | Some _ => Ret (tt, mk_world (upd_info (<[Z.to_nat i := b]> (block_info (mgr w))) (mgr w)) (flash w) (oom w))
  | None => OutOfBounds
  end.
Definition set_bstate (i s : Z) : M unit := b ← get_info i; set_info i (mk_info (space b) s).
Definition set_space (i s : Z) : M unit := b ← get_info i; set_info i (mk_info s (bstate b)).

(** ** Blocks *)

(** The task that runs [qm_kv_gc] is started; it runs later. *)
Definition trigger_gc : M unit :=
  g ← get_mgr; if negb (gc_triggered g =? 0) then mret tt else set_mgr (upd_gc 1 0 g).

Definition kv_state_set (pos s : Z) : M unit := raw_write (pos + KV_STATE_OFF) [s].

Definition kv_block_format (index : Z) : M Z :=
  let pos := u16 (Z.shiftl index BLK_BITS) in
  raw_erase pos;;
  raw_write pos [BLK_MAGIC_NUM; BLK_STATE_CLEAN; 0; 0];;
  set_info index (mk_info (BLK_SIZE - BLK_HEADER_SIZE) BLK_STATE_CLEAN);;
  modify (fun g => upd_clean (u8 (clean_blk_nums g + 1)) g);;
  mret RES_OK.

(** The search of [kv_item_calc_pos]: from [i] on, until [i] is [blk_index] again. *)
Fixpoint search_loop (fuel : nat) (blk_index i length : Z) : M Z :=
  match fuel with
  | O => fun _ => NoFuel
  | S fuel =>
      if i =? blk_index then trigger_gc;; mret 0
      else
        let i := if i =? Z.of_nat N then 0 else i in
        b ← get_info i;
        if space b >? length then
          modify (upd_write_pos (u16 (Z.shiftl i BLK_BITS + BLK_SIZE - space b)));;
          (if bstate b =? BLK_STATE_CLEAN then
             kv_state_set (Z.shiftl i BLK_BITS) BLK_STATE_USED;;
             set_bstate i BLK_STATE_USED;;
             modify (fun g => upd_clean (u8 (clean_blk_nums g - 1)) g)
           else mret tt);;
          g ← get_mgr; mret (write_pos g)
        else search_loop fuel blk_index (u8 (i + 1)) length
  end.

Definition kv_item_calc_pos (length : Z) : M Z :=
  g ← get_mgr;
  let blk_index := u8 (Z.shiftr (write_pos g) BLK_BITS) in
  b ← get_info blk_index;
  if space b >? length then
    (if (space b - length <? ITEM_MAX_LEN) && (clean_blk_nums g <=? KV_GC_RESERVED) then trigger_gc else mret tt);;
    mret (write_pos g)
  else if Z.of_nat N >? KV_GC_RESERVED + 1 then search_loop search_fuel blk_index (u8 (blk_index + 1)) length
  else trigger_gc;; mret 0.

(** ** Items *)

(** Marks the item at [offset] and its block. *)
Definition mark_deleted (offset : Z) : M Z :=
  kv_state_set offset ITEM_STATE_DELETE;;
  let i := u8 (Z.shiftr offset BLK_BITS) in
  b ← get_info i;
  (if bstate b =? BLK_STATE_USED then
     kv_state_set (Z.land offset BLK_OFF_MASK) BLK_STATE_DIRTY;; set_bstate i BLK_STATE_DIRTY
   else mret tt);;
  mret RES_OK.

(** [KV_SELF_REMOVE] *)
Definition kv_item_del_self (item : kv_item_t) : M Z := mark_deleted (pos item).

(** [KV_ORIG_REMOVE]: the item this one replaced, when it is still there. *)
Definition kv_item_del_orig (item : kv_item_t) : M Z :=
  let offset := origin_off (hdr item) in
  l ← raw_read offset ITEM_HEADER_SIZE;
  let h := dec_hdr l in
  if negb (magic h =? ITEM_MAGIC_NUM) || negb (state h =? ITEM_STATE_NORMAL)
     || negb (key_len h =? key_len (hdr item))
  then mret RES_OK
  else
    ok ← qm_malloc;
    if negb ok then mret RES_MALLOC_FAILED
    else
      ok ← qm_malloc;
      if negb ok then mret RES_MALLOC_FAILED
      else
        origin_key ← raw_read (offset + ITEM_HEADER_SIZE) (key_len h);
        new_key ← raw_read (pos item + ITEM_HEADER_SIZE) (key_len h);
        if bool_decide (origin_key = new_key) then mark_deleted offset else mret RES_OK.

(** Callbacks of the traversal: a result, and the item with its [store]. *)
Definition item_func : Type := kv_item_t -> M (Z * kv_item_t).

Definition item_recovery_cb : item_func := fun item =>
  ok ← qm_malloc;
  if negb ok then mret (RES_MALLOC_FAILED, item)
  else
    p ← raw_read (pos item + ITEM_HEADER_SIZE) (len item);
    (if crc (hdr item) =? utils_crc8 p then
       if negb (origin_off (hdr item) =? 0) && negb (pos item =? origin_off (hdr item))
       then kv_item_del_orig item else mret RES_OK
     else kv_item_del_self item);;
    mret (RES_CONT, item).

Definition item_find_cb (key : list Z) : item_func := fun item =>
  if negb (key_len (hdr item) =? Z.of_nat (length key)) then mret (RES_CONT, item)
  else
    ok ← qm_malloc;
    if negb ok then mret (RES_MALLOC_FAILED, item)
    else
      st ← raw_read (pos item + ITEM_HEADER_SIZE) (len item);
      let item := mk_item (hdr item) st (len item) (pos item) in
      mret (if bool_decide (take (length key) st = key) then RES_OK else RES_CONT, item).

Definition item_gc_cb : item_func := fun item =>
  let n := align (ITEM_HEADER_SIZE + len item) in
  ok ← qm_malloc;
  if negb ok then mret (RES_MALLOC_FAILED, item)
  else
    p ← raw_read (pos item) n;
    g ← get_mgr;
    raw_write (write_pos g) p;;
    modify (fun g => upd_write_pos (u16 (write_pos g + n)) g);;
    g ← get_mgr;
    let index := u8 (Z.shiftr (write_pos g) BLK_BITS) in
    b ← get_info index;
    set_space index (u16 (space b - n));;
    mret (RES_CONT, item).

Definition item_del_by_prefix_cb (prefix : list Z) : item_func := fun item =>
  if key_len (hdr item) <? Z.of_nat (length prefix) then mret (RES_CONT, item)
  else
    ok ← qm_malloc;
    if negb ok then mret (RES_MALLOC_FAILED, item)
    else
      key ← raw_read (pos item + ITEM_HEADER_SIZE) (key_len (hdr item));
      (if bool_decide (take (length prefix) key = prefix) then kv_item_del_self item else mret RES_OK);;
      mret (RES_CONT, item).

Definition item_del_all_cb : item_func := fun item =>
  (if key_len (hdr item) >? 0 then kv_item_del_self item else mret RES_OK);; mret (RES_CONT, item).

(** ** Traversal *)

Definition mark_dirty (blk_index : Z) : M unit :=
  b ← get_info blk_index;
  if bstate b =? BLK_STATE_USED then
    kv_state_set (Z.shiftl blk_index BLK_BITS) BLK_STATE_DIRTY;; set_bstate blk_index BLK_STATE_DIRTY
  else mret tt.

(** After the loop of [kv_item_traverse]. *)
Definition traverse_end (blk_index p e : Z) : M (option kv_item_t) :=
  set_space blk_index (if e >? p then u16 (e - p) else ITEM_HEADER_SIZE);; mret None.

Definition bad_lengths (h : item_hdr_t) : bool :=
  (val_len h >? ITEM_MAX_VAL_LEN) || (key_len h >? ITEM_MAX_KEY_LEN) || (val_len h =? 0) || (key_len h =? 0).

(** The loop; every round moves [p] by at least [ITEM_HEADER_SIZE]. *)
Fixpoint traverse_loop (fuel : nat) (func : item_func) (blk_index p e : Z) : M (option kv_item_t) :=
  match fuel with
  | O => fun _ => NoFuel
  | S fuel =>
      let next (p : Z) : M (option kv_item_t) :=
        if e >? p + ITEM_HEADER_SIZE then traverse_loop fuel func blk_index p e else traverse_end blk_index p e in
      ok ← qm_malloc;
      if negb ok then mret None
      else
        l ← raw_read p ITEM_HEADER_SIZE;
        let h := dec_hdr l in
        if negb (magic h =? ITEM_MAGIC_NUM) && ((magic h =? 0xFF) && (state h =? 0xFF))
        then traverse_end blk_index p e
        else if negb (magic h =? ITEM_MAGIC_NUM) || bad_lengths h
        then mark_dirty blk_index;; next (u16 (p + ITEM_HEADER_SIZE))
        else
          let n := align (ITEM_HEADER_SIZE + key_len h + val_len h) in
          if state h =? ITEM_STATE_NORMAL then
            r ← func (mk_item h [] (u16 (key_len h + val_len h)) p);
            if r.1 =? RES_OK then mret (Some r.2)
            else if negb (r.1 =? RES_CONT) then mret None
            else next (u16 (p + n))
          else mark_dirty blk_index;; next (u16 (p + n))
  end.

Definition TRAVERSE_FUEL : nat := 520.

Definition kv_item_traverse (func : item_func) (blk_index : Z) : M (option kv_item_t) :=
  traverse_loop TRAVERSE_FUEL func blk_index
    (u16 (Z.shiftl blk_index BLK_BITS + BLK_HEADER_SIZE)) (u16 (Z.shiftl blk_index BLK_BITS + BLK_SIZE)).

(** [n] blocks from [i] on. *)
Fixpoint get_loop (n : nat) (i : Z) (key : list Z) : M (option kv_item_t) :=
  match n with
  | O => mret None
  | S n =>
      b ← get_info i;
      if negb (bstate b =? BLK_STATE_CLEAN) then
        item ← kv_item_traverse (item_find_cb key) i;
        match item with
        | Some x => mret (Some x)
        | None => get_loop n (i + 1) key
        end
      else get_loop n (i + 1) key
  end.

Definition kv_item_get (key : list Z) : M (option kv_item_t) := get_loop N 0 key.

(** ** Storing *)

Definition item_bytes (key val : list Z) (origin : Z) : list Z :=
  let kl := u8 (Z.of_nat (length key)) in
  let vl := u16 (Z.of_nat (length val)) in
  let n := align (ITEM_HEADER_SIZE + kl + vl) in
  let d := take (Z.to_nat kl) key ++ take (Z.to_nat vl) val in
  let h := mk_hdr ITEM_MAGIC_NUM ITEM_STATE_NORMAL (utils_crc8 d) kl vl origin in
  enc_hdr h ++ d ++ replicate (Z.to_nat n - Z.to_nat ITEM_HEADER_SIZE - length d) 0.

Definition kv_item_store (key val : list Z) (origin : Z) : M Z :=
  let p := item_bytes key val origin in
  let n := align (ITEM_HEADER_SIZE + u8 (Z.of_nat (length key)) + u16 (Z.of_nat (length val))) in
  ok ← qm_malloc;
  if negb ok then mret RES_MALLOC_FAILED
  else
    at_ ← kv_item_calc_pos n;
    if at_ >? 0 then
      raw_write at_ p;;
      modify (upd_write_pos (u16 (at_ + n)));;
      g ← get_mgr;
      let index := u8 (Z.shiftr (write_pos g) BLK_BITS) in
      b ← get_info index;
      set_space index (u16 (space b - n));;
      mret RES_OK
    else mret RES_NO_SPACE.

Definition kv_item_update (item : kv_item_t) (key val : list Z) : M Z :=
  if (val_len (hdr item) =? Z.of_nat (length val)) &&
     bool_decide (take (length val) (drop (Z.to_nat (key_len (hdr item))) (store item)) = val)
  then mret RES_OK
  else
    ret ← kv_item_store key val (pos item);
    if negb (ret =? RES_OK) then mret ret else kv_item_del_self item.

(** ** Garbage collection *)

Fixpoint find_clean (n : nat) (i : Z) : M (option Z) :=
  match n with
  | O => mret None
  | S n => b ← get_info i; if bstate b =? BLK_STATE_CLEAN then mret (Some i) else find_clean n (i + 1)
  end.

(** The loop over the blocks, from [i] to the block of the old write position; was a
    block collected? *)
Fixpoint gc_loop (n : nat) (i last gc_index : Z) : M bool :=
  match n with
  | O => fun _ => NoFuel
  | S n =>
      let i := if i =? Z.of_nat N then 0 else i in
      b ← get_info i;
      if bstate b =? BLK_STATE_DIRTY then
        kv_item_traverse item_gc_cb i;;
        kv_block_format i;;
        g ← get_mgr;
        kv_state_set (Z.land (write_pos g) BLK_OFF_MASK) BLK_STATE_USED;;
        set_bstate gc_index BLK_STATE_USED;;
        modify (fun g => upd_clean (u8 (clean_blk_nums g - 1)) g);;
        mret true
      else if i =? last then mret false
      else gc_loop n (u8 (i + 1)) last gc_index
  end.

Definition gc_exit : M unit := modify (fun g => upd_gc 0 (gc_waiter g) g).

Definition qm_kv_gc : M unit :=
  g ← get_mgr;
  let origin_pos := write_pos g in
  if clean_blk_nums g =? 0 then gc_exit
  else
    c ← find_clean N 0;
    match c with
    | None => gc_exit
    | Some gc_index =>
        modify (upd_write_pos (u16 (Z.shiftl gc_index BLK_BITS + BLK_HEADER_SIZE)));;
        copied ← gc_loop (S N) (u8 (Z.shiftr origin_pos BLK_BITS + 1)) (Z.shiftr origin_pos BLK_BITS) gc_index;
        (if copied : bool then mret tt else modify (upd_write_pos origin_pos));;
        gc_exit
    end.

(** ** The interface; a key is a C string, [None] is NULL *)

Definition qm_kv_set (key val : option (list Z)) (length_ : Z) : M Z :=
  match key, val with
  | Some key, Some val =>
      if (length_ <=? 0) || (Z.of_nat (length key) >? ITEM_MAX_KEY_LEN) || (length_ >? ITEM_MAX_VAL_LEN)
      then mret RES_INVALID_PARAM
      else
        let v := take (Z.to_nat length_) val in
        g ← get_mgr;
        (* the caller waits until the task has run *)
        (if negb (gc_triggered g =? 0) then
           modify (fun g => upd_gc (gc_triggered g) (u8 (gc_waiter g + 1)) g);; qm_kv_gc
         else mret tt);;
        item ← kv_item_get key;
        match item with
        | Some x => kv_item_update x key v
        | None => kv_item_store key v 0
        end
  | _, _ => mret RES_INVALID_PARAM
  end.

(** Result, bytes copied to the buffer and new length. *)
Definition qm_kv_get (key : option (list Z)) (buffer_len : Z) : M (Z * list Z * Z) :=
  match key with
  | Some key =>
      if buffer_len <=? 0 then mret (RES_INVALID_PARAM, [], buffer_len)
      else
        item ← kv_item_get key;
        match item with
        | None => mret (RES_ITEM_NOT_FOUND, [], buffer_len)
        | Some x =>
            let vl := val_len (hdr x) in
            if buffer_len <? vl then mret (RES_NO_SPACE, [], vl)
            else mret (RES_OK, take (Z.to_nat vl) (drop (Z.to_nat (key_len (hdr x))) (store x)), vl)
        end
  | None => mret (RES_INVALID_PARAM, [], buffer_len)
  end.

Definition qm_kv_del (key : list Z) : M Z :=
  item ← kv_item_get key;
  match item with
  | None => mret RES_ITEM_NOT_FOUND
  | Some x => kv_item_del_self x
  end.

Fixpoint each_block (n : nat) (i : Z) (func : item_func) : M Z :=
  match n with
  | O => mret RES_OK
  | S n => kv_item_traverse func i;; each_block n (i + 1) func
  end.

Definition qm_kv_del_by_prefix (prefix : list Z) : M Z := each_block N 0 (item_del_by_prefix_cb prefix).
Definition qm_kv_del_all : M Z := each_block N 0 item_del_all_cb.

(** ** Start *)

(** The first loop of [kv_init]; [unclean] are blocks that claim to be clean and are not,
    the last one found first. *)
Fixpoint scan_loop (n : nat) (i : Z) (unclean : list Z) : M (list Z) :=
  match n with
  | O => mret unclean
  | S n =>
      l ← raw_read (Z.shiftl i BLK_BITS) BLK_HEADER_SIZE;
      let m := l !!! 0%nat in
      let s := l !!! 1%nat in
      if m =? BLK_MAGIC_NUM then
        if INVALID_BLK_STATE s then kv_block_format i;; scan_loop n (i + 1) unclean
        else
          set_bstate i s;;
          kv_item_traverse item_recovery_cb i;;
          if s =? BLK_STATE_CLEAN then
            b ← get_info i;
            if negb (space b =? BLK_SIZE - BLK_HEADER_SIZE) then scan_loop n (i + 1) (i :: unclean)
            else modify (fun g => upd_clean (u8 (clean_blk_nums g + 1)) g);; scan_loop n (i + 1) unclean
          else scan_loop n (i + 1) unclean
      else kv_block_format i;; scan_loop n (i + 1) unclean
  end.

Fixpoint unclean_loop (unclean : list Z) : M unit :=
  match unclean with
  | [] => mret tt
  | i :: l =>
      g ← get_mgr;
      (if KV_GC_RESERVED <=? clean_blk_nums g then
         kv_state_set (Z.shiftl i BLK_BITS) BLK_STATE_DIRTY;; set_bstate i BLK_STATE_DIRTY
       else kv_block_format i;; mret tt);;
      unclean_loop l
  end.

(** The write position is in the first block in use that a clean one follows. *)
Fixpoint pick_loop (n : nat) (i : Z) : M unit :=
  match n with
  | O => mret tt
  | S n =>
      b ← get_info i;
      if (bstate b =? BLK_STATE_USED) || (bstate b =? BLK_STATE_DIRTY) then
        let next := if i + 1 =? Z.of_nat N then 0 else i + 1 in
        c ← get_info next;
        if bstate c =? BLK_STATE_CLEAN then modify (upd_write_pos (u16 (Z.shiftl i BLK_BITS + BLK_SIZE - space b)))
        else pick_loop n (i + 1)
      else pick_loop n (i + 1)
  end.

Definition kv_init : M Z :=
  unclean ← scan_loop N 0 [];
  unclean_loop unclean;;
  g ← get_mgr;
  (if clean_blk_nums g =? 0 then kv_block_format 0;; mret tt else mret tt);;
  g ← get_mgr;
  (if clean_blk_nums g =? Z.of_nat N then
     modify (upd_write_pos BLK_HEADER_SIZE);;
     kv_state_set (Z.land BLK_HEADER_SIZE BLK_OFF_MASK) BLK_STATE_USED;;
     set_bstate 0 BLK_STATE_USED;;
     modify (fun g => upd_clean (u8 (clean_blk_nums g - 1)) g)
   else pick_loop N 0);;
  mret RES_OK.

(** [EINVAL] of the C library. *)
Definition EINVAL : Z := 22.

Definition zero_mgr : kv_mgr_t := mk_mgr 0 0 0 0 0 (replicate N (mk_info 0 0)).

(** [mutex_ret] and [sem_ret] are the results of creating the mutex and the semaphore. *)
Definition qm_kv_init (mutex_ret sem_ret : Z) : M Z :=
  g ← get_mgr;
  if negb (kv_initialize g =? 0) then mret RES_OK
  else if Z.of_nat N <=? KV_GC_RESERVED then mret (- EINVAL)
  else
    set_mgr zero_mgr;;
    if negb (mutex_ret =? 0) then mret mutex_ret
    else
      ret ← kv_init;
      if negb (ret =? RES_OK) then mret ret
      else if negb (sem_ret =? RES_OK) then mret sem_ret
      else
        modify (upd_initialize 1);;
        g ← get_mgr;
        b ← get_info (u8 (Z.shiftr (write_pos g) BLK_BITS));
        (if (space b <? ITEM_MAX_LEN) && (clean_blk_nums g <? KV_GC_RESERVED + 1) then trigger_gc else mret tt);;
        mret RES_OK.

Definition qm_kv_deinit : M unit := modify (upd_initialize 0).

End kv.

Arguments world : clear implicits.

End KvMgr.
