(* ===== verification/KvStore.v ===== *)
(** * Key-value store: correctness (utility/kv/qm_kvmgr.c)

    A store is described by its blocks, each a state and a list of entries; [laid]
    says how a block looks in flash, [wf] how the manager describes the blocks.  The
    abstract store is the finite map of the live entries.  Reading, setting, deleting
    and collecting garbage are proved to implement lookup, insertion, deletion and the
    identity on this map. *)

From S2P Require Import Prelude Outcome Flash KvMgr.
Import list_relations.list list_basics.list Flash KvMgr.
Open Scope Z_scope.

Module KvStore.

(** ** Entries and blocks *)

Record entry := mk_entry { e_key : list Z; e_val : list Z; e_origin : Z; e_live : bool }.

Definition data_of (x : entry) : list Z := e_key x ++ e_val x.
Definition hdr_of (x : entry) : item_hdr_t :=
  mk_hdr ITEM_MAGIC_NUM (if e_live x then ITEM_STATE_NORMAL else ITEM_STATE_DELETE) (utils_crc8 (data_of x))
    (Z.of_nat (length (e_key x))) (Z.of_nat (length (e_val x))) (e_origin x).

(** Bytes an entry takes. *)
Definition elen (x : entry) : Z := align (ITEM_HEADER_SIZE + Z.of_nat (length (e_key x)) + Z.of_nat (length (e_val x))).

Definition enc_entry (x : entry) : list Z :=
  enc_hdr (hdr_of x) ++ data_of x ++
  replicate (Z.to_nat (elen x) - Z.to_nat ITEM_HEADER_SIZE - length (data_of x)) 0.

Record entry_ok (x : entry) : Prop := {
  ok_key : 0 < Z.of_nat (length (e_key x)) <= ITEM_MAX_KEY_LEN;
  ok_val : 0 < Z.of_nat (length (e_val x)) <= ITEM_MAX_VAL_LEN;
  ok_bytes : List.Forall is_u8 (data_of x);
  ok_origin : is_u16 (e_origin x)
}.

Definition kill (x : entry) : entry := mk_entry (e_key x) (e_val x) (e_origin x) false.

Definition total (es : list entry) : Z := foldr (fun x t => elen x + t) 0 es.

(** ** Arithmetic of sizes *)

Lemma align_eq z : 0 <= z < 2 ^ 15 -> align z = 4 * ((z + 3) / 4).
Proof.
  intros Hz. unfold align, KV_ALIGN_MASK. rewrite Z.lnot_involutive. change (Z.lnot (4 - 1)) with (Z.lnot (Z.ones 2)).
  rewrite <- Z.ldiff_land, Z.ldiff_ones_r by lia. rewrite Z.shiftl_mul_pow2, Z.shiftr_div_pow2 by lia.
  change (2 ^ 2) with 4. change (4 - 1) with 3. rewrite u16_id; [lia|]. zsolve.
Qed.

Lemma elen_bounds x : entry_ok x ->
  elen x = 4 * ((ITEM_HEADER_SIZE + Z.of_nat (length (e_key x)) + Z.of_nat (length (e_val x)) + 3) / 4) /\
  ITEM_HEADER_SIZE + Z.of_nat (length (data_of x)) <= elen x /\ 12 <= elen x <= ITEM_MAX_LEN.
Proof.
  intros [Hk Hv _ _]. unfold elen, data_of. rewrite length_app.
  unfold ITEM_MAX_LEN, ITEM_HEADER_SIZE, ITEM_MAX_KEY_LEN, ITEM_MAX_VAL_LEN in *.
  rewrite align_eq by lia. split; [done|]. Z.to_euclidean_division_equations; lia.
Qed.

Lemma elen_kill x : elen (kill x) = elen x.
Proof. done. Qed.

Lemma total_app es1 es2 : total (es1 ++ es2) = total es1 + total es2.
Proof. induction es1 as [|x es1 IH]; simpl; [done|]. unfold total in *. lia. Qed.

Lemma total_mod4 es : List.Forall entry_ok es -> total es mod 4 = 0.
Proof.
  induction 1 as [|x es Hx Hes IH]; simpl; [done|]. destruct (elen_bounds x Hx) as [He _].
  unfold total in IH |- *. rewrite He. Z.to_euclidean_division_equations; lia.
Qed.

Lemma total_nonneg es : List.Forall entry_ok es -> 0 <= total es.
Proof.
  induction 1 as [|x es Hx Hes IH]; simpl; [done|]. destruct (elen_bounds x Hx) as (_ & _ & ?). unfold total in *. lia.
Qed.

(** ** Encoding *)

Lemma dec_enc_hdr h : is_u16 (val_len h) -> is_u16 (origin_off h) -> dec_hdr (enc_hdr h) = h.
Proof.
  intros Hv Ho. destruct h as [m s c k v o]. simpl in *.
  assert (Hb : forall z, is_u16 z -> Z.land z 255 + 256 * Z.shiftr z 8 = z).
  { intros z Hz. change 255 with (Z.ones 8). rewrite Z.land_ones, Z.shiftr_div_pow2 by lia. zsolve. }
  by rewrite !Hb.
Qed.

Lemma length_enc_hdr h : length (enc_hdr h) = 8%nat.
Proof. done. Qed.

Lemma length_enc_entry x : entry_ok x -> length (enc_entry x) = Z.to_nat (elen x).
Proof.
  intros Hx. destruct (elen_bounds x Hx) as (_ & He & _). unfold enc_entry, ITEM_HEADER_SIZE in *.
  rewrite !length_app, length_enc_hdr, length_replicate. lia.
Qed.

Lemma crc8_bits_u8 n c : is_u8 c -> is_u8 (crc8_bits n c).
Proof. revert c. induction n as [|n IH]; intros c Hc; simpl; [done|]. apply IH. destruct (negb _); apply u8_range. Qed.

Lemma utils_crc8_u8 l : List.Forall is_u8 l -> is_u8 (utils_crc8 l).
Proof.
  intros Hl. unfold utils_crc8. assert (Hc : is_u8 0) by (unfold is_u8; lia). revert Hc. generalize 0 as c.
  induction Hl as [|b l Hb Hl IH]; intros c Hc; cbn [foldl]; [exact Hc|].
  apply IH, crc8_bits_u8. exact (lxor_below 8 c b ltac:(lia) Hc Hb).
Qed.

Lemma enc_hdr_u8 x : entry_ok x -> List.Forall is_u8 (enc_hdr (hdr_of x)).
Proof.
  intros [Hk Hv Hb Ho]. unfold enc_hdr, hdr_of, ITEM_MAGIC_NUM, ITEM_MAX_KEY_LEN, ITEM_MAX_VAL_LEN in *. simpl.
  pose proof (utils_crc8_u8 _ Hb) as Hc.
  assert (Hl : forall z, is_u8 (Z.land z 255)) by (intros z; change 255 with (Z.ones 8); rewrite Z.land_ones by lia; zsolve).
  assert (Hh : forall z, is_u16 z -> is_u8 (Z.shiftr z 8)) by (intros z Hz; rewrite Z.shiftr_div_pow2 by lia; zsolve).
  apply Forall_cons_2; [unfold is_u8; lia|].
  apply Forall_cons_2; [destruct (e_live x); unfold is_u8, ITEM_STATE_NORMAL, ITEM_STATE_DELETE; lia|].
  apply Forall_cons_2; [exact Hc|].
  apply Forall_cons_2; [unfold is_u8; lia|].
  apply Forall_cons_2; [apply Hl|].
  apply Forall_cons_2; [apply Hh; unfold is_u16; lia|].
  apply Forall_cons_2; [apply Hl|].
  apply Forall_cons_2; [by apply Hh|constructor].
Qed.

Lemma enc_entry_u8 x : entry_ok x -> List.Forall is_u8 (enc_entry x).
Proof.
  intros Hx. unfold enc_entry. rewrite !Forall_app. split_and!; [by apply enc_hdr_u8|apply Hx|].
  apply Forall_replicate. unfold is_u8. lia.
Qed.

(** ** Layout in flash *)

(** Linear arithmetic with the constants of the store. *)
Ltac kvlia := unfold ITEM_MAX_LEN, BLK_SIZE, BLK_HEADER_SIZE, ITEM_HEADER_SIZE, ITEM_MAX_KEY_LEN, ITEM_MAX_VAL_LEN, is_u16, is_u8 in *; lia.

Section store.
Context {F : Type} `{!SpiFlash F} (N : nat) (search_fuel : nat).
Implicit Types (f : F) (w : world F).

(** The bytes of the partition. *)
Definition rd f (p n : Z) : list Z := spi_flash_read f (KV_PARAM_START_ADDRESS + p) n.

(** Entries from [p] on, erased up to [e]. *)
Fixpoint entries_at f (p e : Z) (es : list entry) : Prop :=
  match es with
  | [] => rd f p (e - p) = replicate (Z.to_nat (e - p)) 255
  | x :: es => rd f p (elen x) = enc_entry x /\ entries_at f (p + elen x) e es
  end.

Definition base (i : nat) : Z := Z.of_nat i * BLK_SIZE.

(** Block [i] has state [s] and the entries [es]; at least one byte stays free. *)
Record laid f (i : nat) (s : Z) (es : list entry) : Prop := {
  laid_hdr : rd f (base i) BLK_HEADER_SIZE = [BLK_MAGIC_NUM; s; 0; 0];
  laid_entries : entries_at f (base i + BLK_HEADER_SIZE) (base i + BLK_SIZE) es;
  laid_ok : List.Forall entry_ok es;
  laid_fits : BLK_HEADER_SIZE + total es < BLK_SIZE
}.

Lemma rd_sub f p n l o m : rd f p n = l -> 0 <= o -> 0 <= m -> o + m <= n ->
  rd f (p + o) m = take (Z.to_nat m) (drop (Z.to_nat o) l).
Proof. intros Hl Ho Hm Hn. unfold rd. rewrite Z.add_assoc. by apply (read_sub f _ n l). Qed.

Lemma rd_ext f f' p n : (forall x, p <= x < p + n -> fl_byte f' (KV_PARAM_START_ADDRESS + x) = fl_byte f (KV_PARAM_START_ADDRESS + x)) ->
  rd f' p n = rd f p n.
Proof.
  intros Hx. apply read_ext. intros x Hr. replace x with (KV_PARAM_START_ADDRESS + (x - KV_PARAM_START_ADDRESS)) by lia.
  apply Hx. lia.
Qed.

(** The flash is the same between two positions. *)
Definition same_on f f' (a b : Z) : Prop := forall p n, a <= p -> p + n <= b -> rd f' p n = rd f p n.

Lemma entries_at_ext f f' p e es : 
  same_on f f' p e -> List.Forall entry_ok es -> p + total es <= e -> entries_at f p e es -> entries_at f' p e es.
Proof.
  intros Hs Hok. revert p Hs. induction Hok as [|x es Hx Hes IH]; intros p Hs; simpl.
  - intros _ <-. apply Hs; lia.
  - destruct (elen_bounds x Hx) as (_ & _ & Hb). pose proof (total_nonneg es Hes) as Hn. unfold total in *.
    intros Ht [He Hr]. split; [rewrite <- He; apply Hs; lia|]. apply IH; [|lia|done].
    intros q n Hq1 Hq2. apply Hs; lia.
Qed.

Lemma laid_ext f f' i s es : same_on f f' (base i) (base i + BLK_SIZE) -> laid f i s es -> laid f' i s es.
Proof.
  intros Hs [H1 H2 H3 H4]. split; [|..|done|done].
  - rewrite <- H1. apply Hs; kvlia.
  - apply (entries_at_ext f); [|done|kvlia|done]. intros p n Hp1 Hp2. apply Hs; kvlia.
Qed.

Lemma same_on_write f p d a b :
  b <= p \/ p + Z.of_nat (length d) <= a -> same_on f (spi_flash_write f (KV_PARAM_START_ADDRESS + p) d) a b.
Proof. intros Hp q n Hq1 Hq2. apply read_write_out. lia. Qed.

Lemma same_on_trans f1 f2 f3 a b : same_on f1 f2 a b -> same_on f2 f3 a b -> same_on f1 f3 a b.
Proof. intros H12 H23 p n Hp Hn. rewrite <- H12 by done. by apply H23. Qed.

Lemma entries_at_app f p e es1 es2 :
  entries_at f p e (es1 ++ es2) <->
  (forall l x r, es1 = l ++ x :: r -> rd f (p + total l) (elen x) = enc_entry x) /\ entries_at f (p + total es1) e es2.
Proof.
  revert p. induction es1 as [|x es1 IH]; intros p; simpl.
  - rewrite Z.add_0_r. split; [intros He; split; [by intros []|done]|by intros [_ He]].
  - rewrite IH. unfold total in *. simpl. replace (p + elen x + foldr (fun x0 t => elen x0 + t) 0 es1) with (p + (elen x + foldr (fun x0 t => elen x0 + t) 0 es1)) by lia.
    split.
    + intros (H1 & H2 & H3). split; [|done]. intros [|y l] z r [= -> ->]; simpl; [by rewrite Z.add_0_r|].
      rewrite Z.add_assoc. by eapply H2.
    + intros [H1 H2]. split_and!; [specialize (H1 [] x es1 eq_refl); simpl in H1; by rewrite Z.add_0_r in H1| |done].
      intros l y r ->. specialize (H1 (x :: l) y r eq_refl). simpl in H1. by rewrite <- Z.add_assoc.
Qed.

(** ** What the traversal reads *)

Definition item_of (x : entry) (p : Z) : kv_item_t := mk_item (hdr_of x) [] (Z.of_nat (length (data_of x))) p.

Lemma rd_hdr f p x : entry_ok x -> rd f p (elen x) = enc_entry x -> dec_hdr (rd f p ITEM_HEADER_SIZE) = hdr_of x.
Proof.
  intros Hx He. destruct (elen_bounds x Hx) as (_ & _ & Hb). unfold ITEM_HEADER_SIZE.
  replace p with (p + 0) by lia. rewrite (rd_sub _ _ _ _ _ _ He) by lia. change (Z.to_nat 0) with 0%nat. rewrite drop_0. unfold enc_entry.
  rewrite take_app_length' by (rewrite length_enc_hdr; lia). apply dec_enc_hdr; [|apply Hx].
  simpl. destruct (ok_val x Hx). unfold is_u16, ITEM_MAX_VAL_LEN in *. lia.
Qed.

Lemma rd_data f p x : entry_ok x -> rd f p (elen x) = enc_entry x ->
  rd f (p + ITEM_HEADER_SIZE) (Z.of_nat (length (data_of x))) = data_of x.
Proof.
  intros Hx He. destruct (elen_bounds x Hx) as (_ & Hb & _). unfold ITEM_HEADER_SIZE in *.
  rewrite (rd_sub _ _ _ _ _ _ He) by lia. unfold enc_entry.
  rewrite drop_app_length' by (rewrite length_enc_hdr; lia). by rewrite take_app_length' by lia.
Qed.

Lemma rd_key f p x : entry_ok x -> rd f p (elen x) = enc_entry x ->
  rd f (p + ITEM_HEADER_SIZE) (Z.of_nat (length (e_key x))) = e_key x.
Proof.
  intros Hx He. pose proof (rd_data f p x Hx He) as Hd.
  replace (p + ITEM_HEADER_SIZE) with (p + ITEM_HEADER_SIZE + 0) by lia.
  rewrite (rd_sub _ _ _ _ _ _ Hd) by (unfold data_of; rewrite ?length_app; lia).
  change (Z.to_nat 0) with 0%nat. rewrite drop_0. unfold data_of. by rewrite take_app_length' by lia.
Qed.

(** ** Monad steps *)

Lemma bind_step {A B} (m : M A) (k : A -> M B) w a w1 : m w = Ret (a, w1) -> (m ≫= k) w = k a w1.
Proof. intros Hm. unfold mbind, M_bind. by rewrite Hm. Qed.

Lemma malloc_ok w : oom w = [] -> qm_malloc w = Ret (true, w).
Proof. intros Ho. unfold qm_malloc. by rewrite Ho. Qed.

Lemma get_info_eq i w b : block_info (mgr w) !! Z.to_nat i = Some b -> get_info i w = Ret (b, w).
Proof. intros Hb. unfold get_info. by rewrite Hb. Qed.

Lemma set_info_eq i w b c : block_info (mgr w) !! Z.to_nat i = Some b ->
  set_info i c w = Ret (tt, mk_world (upd_info (<[Z.to_nat i := c]> (block_info (mgr w))) (mgr w)) (flash w) (oom w)).
Proof. intros Hb. unfold set_info. by rewrite Hb. Qed.

Lemma set_bstate_eq i s w b : block_info (mgr w) !! Z.to_nat i = Some b ->
  set_bstate i s w = Ret (tt, mk_world (upd_info (<[Z.to_nat i := mk_info (space b) s]> (block_info (mgr w))) (mgr w)) (flash w) (oom w)).
Proof. intros Hb. unfold set_bstate. rewrite (bind_step _ _ _ _ _ (get_info_eq _ _ _ Hb)). by apply (set_info_eq _ _ b). Qed.

Lemma set_space_eq i s w b : block_info (mgr w) !! Z.to_nat i = Some b ->
  set_space i s w = Ret (tt, mk_world (upd_info (<[Z.to_nat i := mk_info s (bstate b)]> (block_info (mgr w))) (mgr w)) (flash w) (oom w)).
Proof. intros Hb. unfold set_space. rewrite (bind_step _ _ _ _ _ (get_info_eq _ _ _ Hb)). by apply (set_info_eq _ _ b). Qed.

(** Setting what is already there changes nothing. *)
Lemma set_space_id i w b : block_info (mgr w) !! Z.to_nat i = Some b -> set_space i (space b) w = Ret (tt, w).
Proof.
  intros Hb. rewrite (set_space_eq _ _ _ _ Hb). do 2 f_equal. destruct w as [[] ? ?], b. simpl in *. unfold upd_info. simpl. by rewrite list_insert_id.
Qed.

(** ** Rounds of the traversal *)

(** The test at the end of a round. *)
Definition next_round (fuel : nat) (func : item_func) (i p e : Z) : M (option kv_item_t) :=
  if e >? p + ITEM_HEADER_SIZE then traverse_loop fuel func i p e else traverse_end i p e.

Lemma bad_lengths_ok x : entry_ok x -> bad_lengths (hdr_of x) = false.
Proof.
  intros [Hk Hv _ _]. unfold bad_lengths, hdr_of. cbn [KvMgr.key_len KvMgr.val_len].
  destruct (Z.gtb_spec (Z.of_nat (length (e_val x))) ITEM_MAX_VAL_LEN), (Z.gtb_spec (Z.of_nat (length (e_key x))) ITEM_MAX_KEY_LEN),
    (Z.eqb_spec (Z.of_nat (length (e_val x))) 0), (Z.eqb_spec (Z.of_nat (length (e_key x))) 0); simpl; (done || (exfalso; lia)).
Qed.

(** A round at an entry. *)
Lemma loop_entry fuel func i p e w x es :
  oom w = [] -> entries_at (flash w) p e (x :: es) -> entry_ok x -> 0 <= p -> p + elen x < 2 ^ 16 ->
  traverse_loop (S fuel) func i p e w =
    (if e_live x then
       r ← func (item_of x p);
       if r.1 =? RES_OK then mret (Some r.2)
       else if negb (r.1 =? RES_CONT) then mret None
       else next_round fuel func i (p + elen x) e
     else mark_dirty i;; next_round fuel func i (p + elen x) e) w.
Proof.
  intros Ho [He _] Hx Hp Hpe. cbn [traverse_loop]. rewrite (bind_step _ _ _ _ _ (malloc_ok _ Ho)). cbn [negb].
  assert (Hr : raw_read p ITEM_HEADER_SIZE w = Ret (rd (flash w) p ITEM_HEADER_SIZE, w)) by done.
  rewrite (bind_step _ _ _ _ _ Hr). rewrite (rd_hdr _ _ x), (bad_lengths_ok x) by done.
  destruct (elen_bounds x Hx) as (_ & Hlen & Hb).
  assert (Hd : u16 (KvMgr.key_len (hdr_of x) + KvMgr.val_len (hdr_of x)) = Z.of_nat (length (data_of x))).
  { unfold data_of. rewrite length_app, Nat2Z.inj_add. apply u16_id. destruct Hx. simpl. kvlia. }
  rewrite Hd. change (magic (hdr_of x)) with ITEM_MAGIC_NUM. rewrite Z.eqb_refl. cbn [negb andb orb].
  change (align (ITEM_HEADER_SIZE + KvMgr.key_len (hdr_of x) + KvMgr.val_len (hdr_of x))) with (elen x).
  rewrite (u16_id (p + elen x)) by kvlia.
  change (state (hdr_of x)) with (if e_live x then ITEM_STATE_NORMAL else ITEM_STATE_DELETE).
  by destruct (e_live x).
Qed.

Lemma mark_dirty_id i w b :
  block_info (mgr w) !! Z.to_nat i = Some b -> bstate b <> BLK_STATE_USED -> mark_dirty i w = Ret (tt, w).
Proof.
  intros Hi Hb. unfold mark_dirty. rewrite (bind_step _ _ _ _ _ (get_info_eq _ _ _ Hi)). by rewrite (proj2 (Z.eqb_neq _ _) Hb).
Qed.

(** The end of the entries. *)
Lemma next_round_free fuel func i p e w :
  oom w = [] -> entries_at (flash w) p e [] -> next_round (S fuel) func i p e w = traverse_end i p e w.
Proof.
  intros Ho He. unfold next_round. destruct (Z.gtb_spec e (p + ITEM_HEADER_SIZE)) as [Hp|Hp]; [|done].
  cbn [traverse_loop]. rewrite (bind_step _ _ _ _ _ (malloc_ok _ Ho)). cbn [negb].
  assert (Hr : raw_read p ITEM_HEADER_SIZE w = Ret (rd (flash w) p ITEM_HEADER_SIZE, w)) by done.
  assert (Hh : rd (flash w) p ITEM_HEADER_SIZE = replicate 8 255).
  { rewrite <- (Z.add_0_r p). rewrite (rd_sub _ _ _ _ _ _ He) by kvlia. change (Z.to_nat 0) with 0%nat.
    rewrite drop_0, take_replicate. f_equal. kvlia. }
  rewrite (bind_step _ _ _ _ _ Hr). by rewrite Hh.
Qed.

(** ** Finding *)

Fixpoint find_live (key : list Z) (es : list entry) (p : Z) : option (entry * Z) :=
  match es with
  | [] => None
  | x :: es => if e_live x && bool_decide (e_key x = key) then Some (x, p) else find_live key es (p + elen x)
  end.

Definition found_item (xp : entry * Z) : kv_item_t :=
  mk_item (hdr_of xp.1) (data_of xp.1) (Z.of_nat (length (data_of xp.1))) xp.2.

Lemma find_cb_eq key x p w :
  oom w = [] -> entry_ok x -> rd (flash w) p (elen x) = enc_entry x ->
  exists it, item_find_cb key (item_of x p) w =
    Ret (if bool_decide (e_key x = key) then (RES_OK, found_item (x, p)) else (RES_CONT, it), w).
Proof.
  intros Ho Hx He. unfold item_find_cb. change (KvMgr.key_len (hdr (item_of x p))) with (Z.of_nat (length (e_key x))).
  destruct (Z.eqb_spec (Z.of_nat (length (e_key x))) (Z.of_nat (length key))) as [Hl|Hl]; cbn [negb].
  - rewrite (bind_step _ _ _ _ _ (malloc_ok _ Ho)). cbn [negb].
    assert (Hr : raw_read (pos (item_of x p) + ITEM_HEADER_SIZE) (len (item_of x p)) w = Ret (data_of x, w)).
    { unfold raw_read. simpl. do 2 f_equal. by apply rd_data. }
    rewrite (bind_step _ _ _ _ _ Hr). replace (take (length key) (data_of x)) with (e_key x)
      by (unfold data_of; rewrite take_app_length' by lia; done).
    eexists. case_bool_decide; done.
  - eexists. rewrite bool_decide_false; [done|]. intros Heq. rewrite Heq in Hl. done.
Qed.

Lemma traverse_end_id i p e w b :
  block_info (mgr w) !! Z.to_nat i = Some b -> p < e -> e - p < 2 ^ 16 -> space b = e - p ->
  traverse_end i p e w = Ret (None, w).
Proof.
  intros Hi Hp He Hs. unfold traverse_end. destruct (Z.gtb_spec e p) as [_|?]; [|lia].
  rewrite u16_id, <- Hs by kvlia. by rewrite (bind_step _ _ _ _ _ (set_space_id _ _ _ Hi)).
Qed.

Lemma next_find fuel key i p e w es b :
  oom w = [] -> entries_at (flash w) p e es -> List.Forall entry_ok es -> 0 <= p -> p + total es < e -> e < 2 ^ 16 ->
  block_info (mgr w) !! Z.to_nat i = Some b -> space b = e - (p + total es) ->
  (bstate b = BLK_STATE_USED -> List.Forall (fun x => e_live x = true) es) ->
  e - p <= 8 * Z.of_nat fuel ->
  next_round fuel (item_find_cb key) i p e w = Ret (found_item <$> find_live key es p, w).
Proof.
  intros Ho He Hok. revert fuel p He. induction Hok as [|x es Hx Hes IH]; intros fuel p He Hp Ht Hlt Hi Hs Hu Hf.
  - simpl in *. rewrite Z.add_0_r in *. destruct fuel as [|fuel]; [lia|]. rewrite next_round_free by done.
    by apply (traverse_end_id _ _ _ _ b); [..|lia|].
  - destruct (elen_bounds x Hx) as (_ & _ & Hb). pose proof (total_nonneg es Hes) as Hn.
    change (total (x :: es)) with (elen x + total es) in *. destruct fuel as [|fuel]; [kvlia|].
    unfold next_round. destruct (Z.gtb_spec e (p + ITEM_HEADER_SIZE)) as [_|?]; [|kvlia].
    rewrite (loop_entry _ _ _ _ _ _ x es) by (done || kvlia). destruct He as [He Hrest]. simpl.
    assert (Hnext : next_round fuel (item_find_cb key) i (p + elen x) e w = Ret (found_item <$> find_live key es (p + elen x), w)).
    { apply IH; try done; try kvlia. intros HU. by apply Hu, Forall_cons in HU as [_ ?]. }
    destruct (e_live x) eqn:Hl; cbn [andb].
    + destruct (find_cb_eq key x p w Ho Hx He) as [it Hc]. rewrite (bind_step _ _ _ _ _ Hc).
      case_bool_decide; [done|]. exact Hnext.
    + assert (bstate b <> BLK_STATE_USED) as HU.
      { intros HU. apply Hu, Forall_cons in HU as [HU _]. congruence. }
      by rewrite (bind_step _ _ _ _ _ (mark_dirty_id _ _ _ Hi HU)).
Qed.

(** ** Well-formed stores *)

Record blk := mk_blk { b_state : Z; b_entries : list entry }.

Record blk_ok f (bi : list block_info_t) (i : nat) (b : blk) : Prop := {
  bo_laid : laid f i (b_state b) (b_entries b);
  bo_info : bi !! i = Some (mk_info (BLK_SIZE - BLK_HEADER_SIZE - total (b_entries b)) (b_state b));
  bo_state : INVALID_BLK_STATE (b_state b) = false;
  bo_clean : b_state b = BLK_STATE_CLEAN -> b_entries b = [];
  bo_used : b_state b = BLK_STATE_USED -> List.Forall (fun x => e_live x = true) (b_entries b)
}.

Definition is_clean (b : blk) : bool := b_state b =? BLK_STATE_CLEAN.
Definition cleans (bs : list blk) : Z := Z.of_nat (length (List.filter is_clean bs)).

Definition live_of (b : blk) : list (list Z * list Z) :=
  (fun x => (e_key x, e_val x)) <$> List.filter e_live (b_entries b).

(** The pairs of the store, and the map they are. *)
Definition pairs (bs : list blk) : list (list Z * list Z) := bs ≫= live_of.
Definition contents (bs : list blk) : gmap (list Z) (list Z) := list_to_map (pairs bs).

(** A store with the blocks [bs].  [wf_oom] says that no allocation fails, so that no
    theorem about a well-formed store covers one that does; [gc_out_of_memory_loses]
    shows what the collector does then. *)
Record wf w (bs : list blk) : Prop := {
  wf_num : length bs = N /\ (2 <= N <= 15)%nat;
  wf_infos : length (block_info (mgr w)) = N;
  wf_blocks : forall i b, bs !! i = Some b -> blk_ok (flash w) (block_info (mgr w)) i b;
  wf_oom : oom w = [];
  wf_clean : clean_blk_nums (mgr w) = cleans bs;
  wf_write : exists j b, bs !! j = Some b /\ b_state b <> BLK_STATE_CLEAN /\
    write_pos (mgr w) = base j + BLK_HEADER_SIZE + total (b_entries b)
}.

(** No key is live twice. *)
Definition uniq (bs : list blk) : Prop := base.NoDup (pairs bs).*1.

(** The first live entry with this key. *)
Fixpoint find_blocks (key : list Z) (i : nat) (bs : list blk) : option (entry * Z) :=
  match bs with
  | [] => None
  | b :: bs =>
      match find_live key (b_entries b) (base i + BLK_HEADER_SIZE) with
      | Some r => Some r
      | None => find_blocks key (S i) bs
      end
  end.

Lemma shiftl_base i : (i < 16)%nat -> Z.shiftl (Z.of_nat i) BLK_BITS = base i.
Proof. intros Hi. unfold BLK_BITS, base, BLK_SIZE. rewrite Z.shiftl_mul_pow2 by lia. lia. Qed.

Lemma traverse_start func i w : (i < 15)%nat ->
  kv_item_traverse func (Z.of_nat i) w =
  next_round TRAVERSE_FUEL func (Z.of_nat i) (base i + BLK_HEADER_SIZE) (base i + BLK_SIZE) w.
Proof.
  intros Hi. unfold kv_item_traverse, next_round. rewrite shiftl_base by lia.
  rewrite !u16_id by (unfold base; kvlia). destruct (Z.gtb_spec (base i + BLK_SIZE) (base i + BLK_HEADER_SIZE + ITEM_HEADER_SIZE)) as [_|?]; [done|kvlia].
Qed.

Lemma traverse_find key i b w :
  oom w = [] -> (i < 15)%nat -> blk_ok (flash w) (block_info (mgr w)) i b ->
  kv_item_traverse (item_find_cb key) (Z.of_nat i) w =
    Ret (found_item <$> find_live key (b_entries b) (base i + BLK_HEADER_SIZE), w).
Proof.
  intros Ho Hi [[H1 H2 H3 H4] H5 H6 H7 H8]. rewrite traverse_start by done.
  apply (next_find _ _ _ _ _ _ _ (mk_info (BLK_SIZE - BLK_HEADER_SIZE - total (b_entries b)) (b_state b))); try done.
  - unfold base. kvlia.
  - kvlia.
  - unfold base. kvlia.
  - by rewrite Nat2Z.id.
  - simpl. lia.
  - unfold TRAVERSE_FUEL. kvlia.
Qed.

Lemma get_loop_eq key bs0 bs i w :
  oom w = [] -> (i + length bs <= 15)%nat ->
  (forall j b, bs0 !! j = Some b -> blk_ok (flash w) (block_info (mgr w)) j b) ->
  bs = drop i bs0 -> get_loop (length bs) (Z.of_nat i) key w = Ret (found_item <$> find_blocks key i bs, w).
Proof.
  intros Ho Hl Hb. revert i Hl. induction bs as [|b bs IH]; intros i Hl Hd; [done|].
  assert (Hi : bs0 !! i = Some b) by (rewrite <- (Nat.add_0_r i), <- lookup_drop, <- Hd; done).
  simpl in Hl. cbn [length get_loop find_blocks]. pose proof (Hb i b Hi) as Hok.
  assert (Hinfo : get_info (Z.of_nat i) w = Ret (mk_info (BLK_SIZE - BLK_HEADER_SIZE - total (b_entries b)) (b_state b), w)).
  { apply get_info_eq. rewrite Nat2Z.id. apply Hok. }
  rewrite (bind_step _ _ _ _ _ Hinfo). cbn [bstate].
  assert (Hrest : get_loop (length bs) (Z.of_nat i + 1) key w = Ret (found_item <$> find_blocks key (S i) bs, w)).
  { replace (Z.of_nat i + 1) with (Z.of_nat (S i)) by lia. apply IH; [lia|].
    rewrite (drop_S _ _ _ Hi) in Hd. by injection Hd. }
  destruct (Z.eqb_spec (b_state b) BLK_STATE_CLEAN) as [Hc|Hc]; cbn [negb].
  - by rewrite (bo_clean _ _ _ _ Hok Hc).
  - rewrite (bind_step _ _ _ _ _ (traverse_find key i b w Ho ltac:(lia) Hok)).
    by destruct (find_live key (b_entries b) (base i + BLK_HEADER_SIZE)).
Qed.

Lemma item_get_eq key w bs : wf w bs -> kv_item_get N key w = Ret (found_item <$> find_blocks key 0 bs, w).
Proof.
  intros Hw. destruct (wf_num _ _ Hw) as [Hn HN]. unfold kv_item_get. rewrite <- Hn at 1.
  apply (get_loop_eq key bs bs 0); [apply Hw|lia|apply Hw|done].
Qed.

Lemma find_live_lookup key es p :
  (fun r : entry * Z => e_val r.1) <$> find_live key es p =
  (list_to_map ((fun x => (e_key x, e_val x)) <$> List.filter e_live es) : gmap (list Z) (list Z)) !! key.
Proof.
  revert p. induction es as [|x es IH]; intros p; simpl; [done|]. destruct (e_live x); simpl; [|apply IH].
  case_bool_decide as Hk; simpl; [by rewrite Hk, lookup_insert_eq|]. by rewrite lookup_insert_ne.
Qed.

Lemma find_blocks_lookup key i bs : (fun r : entry * Z => e_val r.1) <$> find_blocks key i bs = contents bs !! key.
Proof.
  revert i. induction bs as [|b bs IH]; intros i; [done|]. unfold contents, pairs in *. simpl.
  rewrite list_to_map_app, lookup_union. unfold live_of at 1. rewrite <- (find_live_lookup key (b_entries b) (base i + BLK_HEADER_SIZE)).
  destruct (find_live _ _ _) as [r|]; simpl; [by destruct (_ !! key)|]. rewrite IH. by destruct (_ !! key).
Qed.

Lemma find_live_spec key es p x q : find_live key es p = Some (x, q) ->
  exists es1 es2, es = es1 ++ x :: es2 /\ q = p + total es1 /\ e_live x = true /\ e_key x = key.
Proof.
  revert p. induction es as [|y es IH]; intros p; simpl; [done|]. destruct (e_live y && bool_decide (e_key y = key)) eqn:Hc.
  - intros [= <- <-]. apply andb_true_iff in Hc as [Hl Hk%bool_decide_eq_true]. exists [], es. simpl. split_and!; [done|lia|done..].
  - intros (es1 & es2 & -> & -> & Hl & Hk)%IH. exists (y :: es1), es2. split_and!; [done| |done..].
    change (total (y :: es1)) with (elen y + total es1). lia.
Qed.

Lemma find_blocks_spec key i bs x q : find_blocks key i bs = Some (x, q) ->
  exists j b es1 es2, bs !! j = Some b /\ b_entries b = es1 ++ x :: es2 /\
    q = base (i + j) + BLK_HEADER_SIZE + total es1 /\ e_live x = true /\ e_key x = key.
Proof.
  revert i. induction bs as [|b bs IH]; intros i; simpl; [done|]. destruct (find_live _ _ _) as [[y q']|] eqn:Hf.
  - intros [= -> ->]. apply find_live_spec in Hf as (es1 & es2 & He & -> & Hl & Hk).
    exists 0%nat, b, es1, es2. rewrite Nat.add_0_r. split_and!; done.
  - intros (j & c & es1 & es2 & Hj & He & -> & Hl & Hk)%IH. exists (S j), c, es1, es2.
    rewrite Nat.add_succ_r. split_and!; done.
Qed.

(** ** Positions *)

Lemma pos_block j o : (j < 16)%nat -> 0 <= o < BLK_SIZE ->
  u8 (Z.shiftr (base j + o) BLK_BITS) = Z.of_nat j /\ Z.land (base j + o) BLK_OFF_MASK = base j.
Proof.
  intros Hj Ho. unfold base, BLK_BITS, BLK_OFF_MASK, BLK_SIZE in *. split.
  - rewrite Z.shiftr_div_pow2 by lia. change (2 ^ 12) with 4096. rewrite Z.div_add_l, Z.div_small, Z.add_0_r by lia. apply u8_id. kvlia.
  - change (Z.lnot (4096 - 1)) with (Z.lnot (Z.ones 12)). rewrite <- Z.ldiff_land, Z.ldiff_ones_r by lia.
    rewrite Z.shiftl_mul_pow2, Z.shiftr_div_pow2 by lia. change (2 ^ 12) with 4096. rewrite Z.div_add_l, Z.div_small by lia. lia.
Qed.

(** ** Writing one byte *)

Lemma rd_write_byte f a n o b : 0 <= o < n ->
  rd (spi_flash_write f (KV_PARAM_START_ADDRESS + (a + o)) [b]) a n = alter (fun c => Z.land c b) (Z.to_nat o) (rd f a n).
Proof.
  intros Ho. unfold rd. rewrite Z.add_assoc. set (s := KV_PARAM_START_ADDRESS + a). replace n with (o + (1 + (n - o - 1))) by lia.
  rewrite !read_app by lia.
  rewrite read_write_out by lia. rewrite read_write_same by done.
  rewrite (read_write_out f (s + o) [b] (s + o + 1)) by (simpl; lia).
  assert (Hl : length (spi_flash_read f s o) = Z.to_nat o) by apply length_read.
  rewrite alter_app_r_alt by lia. rewrite Hl, Nat.sub_diag. f_equal.
  assert (H1 : length (spi_flash_read f (s + o) 1) = 1%nat) by apply length_read.
  by destruct (spi_flash_read f (s + o) 1) as [|c [|]].
Qed.

Lemma enc_kill x : alter (fun c => Z.land c ITEM_STATE_DELETE) 1%nat (enc_entry x) = enc_entry (kill x).
Proof. unfold enc_entry, hdr_of. simpl. by rewrite Z.land_0_r. Qed.

Lemma kill_ok x : entry_ok x -> entry_ok (kill x).
Proof. by intros [H1 H2 H3 H4]. Qed.

Lemma laid_kill f j s es1 x es2 : laid f j s (es1 ++ x :: es2) ->
  laid (spi_flash_write f (KV_PARAM_START_ADDRESS + (base j + BLK_HEADER_SIZE + total es1 + KV_STATE_OFF)) [ITEM_STATE_DELETE])
    j s (es1 ++ kill x :: es2).
Proof.
  intros [H1 H2 H3 H4]. apply Forall_app in H3 as [H31 H3]. apply Forall_cons in H3 as [Hx H32].
  destruct (elen_bounds x Hx) as (_ & _ & Hb). pose proof (total_nonneg _ H31). pose proof (total_nonneg _ H32).
  rewrite total_app in H4. change (total (x :: es2)) with (elen x + total es2) in H4.
  apply entries_at_app in H2 as [Hes [He Hes2]]. unfold KV_STATE_OFF. split.
  - rewrite <- H1. apply same_on_write with (a := base j) (b := base j + BLK_HEADER_SIZE); simpl; kvlia.
  - apply entries_at_app. split.
    + intros l y r ->. rewrite <- (Hes l y r eq_refl). apply Forall_app in H31 as [Hl Hr]. apply Forall_cons in Hr as [Hy Hr].
      pose proof (total_nonneg _ Hl). pose proof (total_nonneg _ Hr). destruct (elen_bounds y Hy) as (_ & _ & Hyb).
      rewrite total_app. change (total (y :: r)) with (elen y + total r).
      apply same_on_write with (a := base j) (b := base j + BLK_HEADER_SIZE + total l + elen y); simpl; kvlia.
    + split.
      * rewrite elen_kill, rd_write_byte, He by kvlia. apply enc_kill.
      * rewrite elen_kill. apply (entries_at_ext f); [|done|kvlia|done]. apply same_on_write. simpl. kvlia.
  - apply Forall_app. split; [done|]. by apply Forall_cons_2; [apply kill_ok|].
  - rewrite total_app. change (total (kill x :: es2)) with (elen x + total es2). lia.
Qed.

Lemma laid_set_state f j s es s' : laid f j s es ->
  laid (spi_flash_write f (KV_PARAM_START_ADDRESS + (base j + KV_STATE_OFF)) [s']) j (Z.land s s') es.
Proof.
  intros [H1 H2 H3 H4]. pose proof (total_nonneg _ H3). split; [| |done..].
  - unfold KV_STATE_OFF. rewrite rd_write_byte, H1 by kvlia. done.
  - apply (entries_at_ext f); [|done|kvlia|done]. apply same_on_write. unfold KV_STATE_OFF. simpl. kvlia.
Qed.

(** ** Reading: qm_kv_get *)

(** C28: [qm_kv_get] reads the abstract map: the value and its length, a short buffer is
    refused with the length needed, a missing key is reported; the store is unchanged. *)
Theorem kv_get_refines w bs key cap :
  wf w bs -> 0 < cap ->
  qm_kv_get N (Some key) cap w =
    Ret (match contents bs !! key with
         | None => (RES_ITEM_NOT_FOUND, [], cap)
         | Some v => if cap <? Z.of_nat (length v) then (RES_NO_SPACE, [], Z.of_nat (length v))
                     else (RES_OK, v, Z.of_nat (length v))
         end, w).
Proof.
  intros Hw Hc. unfold qm_kv_get. destruct (Z.leb_spec cap 0) as [?|_]; [lia|].
  rewrite (bind_step _ _ _ _ _ (item_get_eq key w bs Hw)). rewrite <- (find_blocks_lookup key 0).
  destruct (find_blocks key 0 bs) as [[x p]|]; simpl; [|done].
  destruct (cap <? _); [done|]. unfold data_of. by rewrite !Nat2Z.id, drop_app_length, take_ge.
Qed.

(** ** Changing one block *)

Definition info_of (b : blk) : block_info_t := mk_info (BLK_SIZE - BLK_HEADER_SIZE - total (b_entries b)) (b_state b).

(** The flash outside block [j] is the same. *)
Definition same_but f f' (j : nat) : Prop :=
  forall i, i <> j -> same_on f f' (base i) (base i + BLK_SIZE).

Lemma same_but_write f j o d : 0 <= o -> o + Z.of_nat (length d) <= BLK_SIZE ->
  same_but f (spi_flash_write f (KV_PARAM_START_ADDRESS + (base j + o)) d) j.
Proof. intros Ho Hd i Hi. apply same_on_write. unfold base. destruct (decide (i < j)%nat); kvlia. Qed.

Lemma same_but_trans f1 f2 f3 j : same_but f1 f2 j -> same_but f2 f3 j -> same_but f1 f3 j.
Proof. intros H12 H23 i Hi. eapply same_on_trans; [by apply H12|by apply H23]. Qed.

Lemma same_but_refl f j : same_but f f j.
Proof. by intros i _ p n _ _. Qed.

(** What a block has to satisfy by itself. *)
Record blk_good (b : blk) : Prop := {
  bg_state : INVALID_BLK_STATE (b_state b) = false;
  bg_clean : b_state b = BLK_STATE_CLEAN -> b_entries b = [];
  bg_used : b_state b = BLK_STATE_USED -> List.Forall (fun x => e_live x = true) (b_entries b)
}.

Lemma cleans_insert bs j b b' : bs !! j = Some b ->
  cleans (<[j := b']> bs) = cleans bs - Z.b2z (is_clean b) + Z.b2z (is_clean b').
Proof.
  intros Hj. unfold cleans. rewrite (insert_take_drop _ _ _ (lookup_lt_Some _ _ _ Hj)).
  rewrite <- (take_drop_middle _ _ _ Hj) at 3. rewrite !List.filter_app. simpl.
  destruct (is_clean b), (is_clean b'); rewrite !length_app; simpl; lia.
Qed.

Lemma pairs_insert bs j b b' : bs !! j = Some b -> pairs (<[j := b']> bs) ++ live_of b ≡ₚ pairs bs ++ live_of b'.
Proof.
  intros Hj. unfold pairs. rewrite (insert_take_drop _ _ _ (lookup_lt_Some _ _ _ Hj)).
  rewrite <- (take_drop_middle _ _ _ Hj) at 3. rewrite !bind_app. simpl. solve_Permutation.
Qed.

Lemma wf_update w w' bs j b b' :
  wf w bs -> bs !! j = Some b -> same_but (flash w) (flash w') j ->
  block_info (mgr w') = <[j := info_of b']> (block_info (mgr w)) ->
  laid (flash w') j (b_state b') (b_entries b') -> blk_good b' -> oom w' = [] ->
  clean_blk_nums (mgr w') = cleans (<[j := b']> bs) ->
  (exists k c, <[j := b']> bs !! k = Some c /\ b_state c <> BLK_STATE_CLEAN /\
    write_pos (mgr w') = base k + BLK_HEADER_SIZE + total (b_entries c)) ->
  wf w' (<[j := b']> bs).
Proof.
  intros [[Hn HN] Hi Hb Ho Hc Hp] Hj Hs Hinfo Hlaid [G1 G2 G3] Ho' Hc' Hp'. split; try done.
  - by rewrite length_insert.
  - by rewrite Hinfo, length_insert.
  - intros i c. rewrite list_lookup_insert_Some. intros [(-> & <- & Hl)|[Hne Hc0]].
    + split; try done. rewrite Hinfo. apply list_lookup_insert_eq. rewrite Hi. lia.
    + destruct (Hb i c Hc0) as [B1 B2 B3 B4 B5]. split; try done.
      * apply (laid_ext (flash w)); [|done]. by apply Hs.
      * rewrite Hinfo. by rewrite list_lookup_insert_ne.
Qed.

(** ** Marking an entry as deleted *)

(** The flash after [kv_state_set]. *)
Definition set_state f (p s : Z) : F := spi_flash_write f (KV_PARAM_START_ADDRESS + (p + KV_STATE_OFF)) [s].

Definition killed (b : blk) (es1 : list entry) (x : entry) (es2 : list entry) : blk :=
  mk_blk (if b_state b =? BLK_STATE_USED then BLK_STATE_DIRTY else b_state b) (es1 ++ kill x :: es2).

Lemma live_killed b es1 x es2 : b_entries b = es1 ++ x :: es2 -> e_live x = true ->
  (e_key x, e_val x) :: live_of (killed b es1 x es2) ≡ₚ live_of b.
Proof.
  intros He Hl. unfold live_of. rewrite He. simpl. rewrite !List.filter_app. simpl. rewrite Hl, !fmap_app. simpl. solve_Permutation.
Qed.

Lemma mark_deleted_wf w bs j b es1 x es2 p :
  wf w bs -> bs !! j = Some b -> b_entries b = es1 ++ x :: es2 -> e_live x = true ->
  p = base j + BLK_HEADER_SIZE + total es1 ->
  exists w', mark_deleted p w = Ret (RES_OK, w') /\ wf w' (<[j := killed b es1 x es2]> bs) /\
    (e_key x, e_val x) :: pairs (<[j := killed b es1 x es2]> bs) ≡ₚ pairs bs /\
    flash w' = if b_state b =? BLK_STATE_USED then set_state (set_state (flash w) p ITEM_STATE_DELETE) (base j) BLK_STATE_DIRTY
               else set_state (flash w) p ITEM_STATE_DELETE.
Proof.
  intros Hw Hj He Hl ->. destruct (wf_blocks _ _ Hw j b Hj) as [B1 B2 B3 B4 B5].
  destruct (wf_num _ _ Hw) as [Hn HN]. pose proof (lookup_lt_Some _ _ _ Hj) as Hjn.
  pose proof B1 as [_ _ Hok Hfit]. rewrite He in Hok, Hfit. apply Forall_app in Hok as [Hok1 Hok]. apply Forall_cons in Hok as [Hx Hok2].
  pose proof (total_nonneg _ Hok1). pose proof (total_nonneg _ Hok2). destruct (elen_bounds x Hx) as (_ & _ & Hbx).
  rewrite total_app in Hfit. change (total (x :: es2)) with (elen x + total es2) in Hfit.
  assert (Htot : total (es1 ++ kill x :: es2) = total (b_entries b)) by (rewrite He, !total_app; done).
  assert (Hns : b_state b <> BLK_STATE_CLEAN) by (intros Hc; rewrite (B4 Hc) in He; by destruct es1).
  destruct (pos_block j (BLK_HEADER_SIZE + total es1)) as [Hsh Hla]; [lia|kvlia|]. rewrite Z.add_assoc in Hsh, Hla.
  assert (Hperm : (e_key x, e_val x) :: pairs (<[j := killed b es1 x es2]> bs) ≡ₚ pairs bs).
  { pose proof (pairs_insert bs j b (killed b es1 x es2) Hj) as Hp. rewrite <- (live_killed b es1 x es2) in Hp by done.
    apply (Permutation_app_inv_r (live_of (killed b es1 x es2))). rewrite <- Hp. solve_Permutation. }
  set (f1 := spi_flash_write (flash w) (KV_PARAM_START_ADDRESS + (base j + BLK_HEADER_SIZE + total es1 + KV_STATE_OFF)) [ITEM_STATE_DELETE]).
  assert (Hl1 : laid f1 j (b_state b) (es1 ++ kill x :: es2)) by (apply laid_kill; by rewrite <- He).
  assert (Hs1 : same_but (flash w) f1 j).
  { unfold f1. rewrite <- !Z.add_assoc, (Z.add_assoc KV_PARAM_START_ADDRESS (base j)), <- (Z.add_assoc KV_PARAM_START_ADDRESS).
    apply same_but_write; unfold KV_STATE_OFF; simpl; kvlia. }
  set (w1 := mk_world (mgr w) f1 (oom w)).
  assert (Hi : get_info (Z.of_nat j) w1 = Ret (info_of b, w1)) by (apply get_info_eq; rewrite Nat2Z.id; apply B2).
  unfold mark_deleted. assert (Hst : kv_state_set (base j + BLK_HEADER_SIZE + total es1) ITEM_STATE_DELETE w = Ret (tt, w1)) by done.
  rewrite (bind_step _ _ _ _ _ Hst), Hsh, (bind_step _ _ _ _ _ Hi), Hla. cbn [bstate info_of].
  assert (Hcl : is_clean (killed b es1 x es2) = is_clean b).
  { unfold is_clean, killed. simpl. destruct (Z.eqb_spec (b_state b) BLK_STATE_USED) as [->|]; done. }
  assert (Hclean : clean_blk_nums (mgr w) = cleans (<[j := killed b es1 x es2]> bs)).
  { rewrite (wf_clean _ _ Hw), (cleans_insert _ _ _ _ Hj), Hcl. lia. }
  assert (Hwp : exists k c, <[j := killed b es1 x es2]> bs !! k = Some c /\ b_state c <> BLK_STATE_CLEAN /\
    write_pos (mgr w) = base k + BLK_HEADER_SIZE + total (b_entries c)).
  { destruct (wf_write _ _ Hw) as (k & c & Hk & Hc & ->). destruct (decide (j = k)) as [<-|Hne].
    - exists j, (killed b es1 x es2). rewrite list_lookup_insert_eq by done. assert (c = b) as -> by congruence.
      split_and!; [done| |simpl; by rewrite Htot]. unfold killed. simpl. by destruct (b_state b =? BLK_STATE_USED).
    - exists k, c. by rewrite list_lookup_insert_ne. }
  destruct (Z.eqb_spec (b_state b) BLK_STATE_USED) as [Hu|Hu].
  - set (f2 := spi_flash_write f1 (KV_PARAM_START_ADDRESS + (base j + KV_STATE_OFF)) [BLK_STATE_DIRTY]).
    set (w2 := mk_world (upd_info (<[j := mk_info (space (info_of b)) BLK_STATE_DIRTY]> (block_info (mgr w))) (mgr w)) f2 (oom w)).
    assert (Hw2 : (kv_state_set (base j) BLK_STATE_DIRTY;; set_bstate (Z.of_nat j) BLK_STATE_DIRTY) w1 = Ret (tt, w2)).
    { assert (Hs2 : kv_state_set (base j) BLK_STATE_DIRTY w1 = Ret (tt, mk_world (mgr w) f2 (oom w))) by done.
      rewrite (bind_step _ _ _ _ _ Hs2). rewrite (set_bstate_eq _ _ _ (info_of b)); rewrite Nat2Z.id; done. }
    exists w2. rewrite (bind_step _ _ _ _ _ Hw2). split; [done|]. split; [|done].
    apply (wf_update w _ _ _ b); try done.
    + apply (same_but_trans _ f1); [done|]. apply same_but_write; unfold KV_STATE_OFF; simpl; kvlia.
    + simpl. f_equal. unfold info_of, killed. simpl. by rewrite Hu, Z.eqb_refl, Htot.
    + unfold killed. simpl. rewrite Hu, Z.eqb_refl. rewrite Hu in Hl1. exact (laid_set_state _ _ _ _ BLK_STATE_DIRTY Hl1).
    + unfold killed. rewrite Hu, Z.eqb_refl. by split.
    + apply Hw.
  - exists w1. split; [done|]. split; [|done]. apply (wf_update w _ _ _ b); try done.
    + simpl. unfold killed, info_of. simpl. rewrite (proj2 (Z.eqb_neq _ _) Hu), Htot. symmetry. apply list_insert_id, B2.
    + unfold killed. simpl. by rewrite (proj2 (Z.eqb_neq _ _) Hu).
    + unfold killed. rewrite (proj2 (Z.eqb_neq _ _) Hu). by split.
    + apply Hw.
Qed.

(** ** Deleting: qm_kv_del *)

Lemma contents_perm bs bs' : uniq bs -> pairs bs' ≡ₚ pairs bs -> contents bs' = contents bs /\ uniq bs'.
Proof.
  intros Hu Hp. split; [|unfold uniq; by rewrite Hp]. unfold contents. symmetry. by apply list_to_map_proper.
Qed.

Lemma contents_delete bs bs' k v : uniq bs -> (k, v) :: pairs bs' ≡ₚ pairs bs ->
  contents bs' = delete k (contents bs) /\ contents bs !! k = Some v /\ uniq bs'.
Proof.
  intros Hu Hp. assert (Hn : base.NoDup ((k, v) :: pairs bs').*1) by (unfold uniq in Hu; by rewrite Hp).
  simpl in Hn. apply NoDup_cons in Hn as [Hk Hn].
  assert (Hc : contents bs = <[k := v]> (contents bs')).
  { unfold contents. rewrite <- (list_to_map_proper (M := gmap (list Z)) ((k, v) :: pairs bs') (pairs bs)); [done| |done].
    simpl. by apply NoDup_cons_2. }
  rewrite Hc, lookup_insert_eq, delete_insert_id; [done|]. by apply not_elem_of_list_to_map_1.
Qed.

(** [qm_kv_del] removes the key and nothing else, or reports that it is not there. *)
Theorem kv_del_refines w bs key :
  wf w bs -> uniq bs ->
  exists r w' bs', qm_kv_del N key w = Ret (r, w') /\ wf w' bs' /\ uniq bs' /\ contents bs' = delete key (contents bs) /\
    r = match contents bs !! key with Some _ => RES_OK | None => RES_ITEM_NOT_FOUND end.
Proof.
  intros Hw Hu. unfold qm_kv_del. rewrite (bind_step _ _ _ _ _ (item_get_eq key w bs Hw)).
  destruct (find_blocks key 0 bs) as [[x p]|] eqn:Hf.
  - apply find_blocks_spec in Hf as (j & b & es1 & es2 & Hj & He & -> & Hl & <-).
    destruct (mark_deleted_wf w bs j b es1 x es2 _ Hw Hj He Hl eq_refl) as (w' & Hr & Hw' & Hp & _).
    destruct (contents_delete _ _ _ _ Hu Hp) as (Hc & Hv & Hu'). rewrite Hv. by eexists _, w', _.
  - pose proof (find_blocks_lookup key 0 bs) as Hv. rewrite Hf in Hv. simpl in Hv. rewrite <- Hv.
    exists RES_ITEM_NOT_FOUND, w, bs. split_and!; try done. by rewrite delete_id.
Qed.

(** ** Storing *)

(** Only the flags of the garbage collector differ. *)
Lemma wf_ext w w' bs :
  wf w bs -> flash w' = flash w -> oom w' = [] -> block_info (mgr w') = block_info (mgr w) ->
  clean_blk_nums (mgr w') = clean_blk_nums (mgr w) -> write_pos (mgr w') = write_pos (mgr w) -> wf w' bs.
Proof.
  intros [H1 H2 H3 H4 H5 H6] Hf Ho Hb Hc Hp. split; [done|by rewrite Hb| |done|by rewrite Hc|by rewrite Hp].
  rewrite Hf, Hb. done.
Qed.

Lemma trigger_gc_eq w : exists w', trigger_gc w = Ret (tt, w') /\ flash w' = flash w /\ oom w' = oom w /\
  block_info (mgr w') = block_info (mgr w) /\ clean_blk_nums (mgr w') = clean_blk_nums (mgr w) /\
  write_pos (mgr w') = write_pos (mgr w) /\ gc_triggered (mgr w') <> 0.
Proof.
  unfold trigger_gc, get_mgr, mbind, M_bind. destruct (Z.eqb_spec (gc_triggered (mgr w)) 0) as [Hg|Hg]; simpl.
  - eexists. split_and!; [done..|]. simpl. lia.
  - eexists. split_and!; done.
Qed.

Lemma trigger_gc_wf w bs : wf w bs -> exists w', trigger_gc w = Ret (tt, w') /\ wf w' bs /\
  write_pos (mgr w') = write_pos (mgr w) /\ gc_triggered (mgr w') <> 0 /\ flash w' = flash w.
Proof.
  intros Hw. destruct (trigger_gc_eq w) as (w' & Hr & Hf & Ho & Hb & Hc & Hp & Hg). exists w'. split_and!; try done.
  apply (wf_ext w); try done. by rewrite Ho, (wf_oom _ _ Hw).
Qed.

Lemma laid_append f j s es x : laid f j s es -> entry_ok x -> BLK_HEADER_SIZE + total es + elen x < BLK_SIZE ->
  laid (spi_flash_write f (KV_PARAM_START_ADDRESS + (base j + BLK_HEADER_SIZE + total es)) (enc_entry x)) j s (es ++ [x]).
Proof.
  intros [H1 H2 H3 H4] Hx Hfit. pose proof (total_nonneg _ H3) as Hn. destruct (elen_bounds x Hx) as (_ & _ & Hb).
  pose proof (length_enc_entry x Hx) as Hlen.
  rewrite <- (app_nil_r es) in H2. apply entries_at_app in H2 as [Hes Hfree]. simpl in Hfree.
  split.
  - rewrite <- H1. apply same_on_write with (a := base j) (b := base j + BLK_HEADER_SIZE); kvlia.
  - apply entries_at_app. split.
    + intros l y r ->. rewrite <- (Hes l y r eq_refl). apply Forall_app in H3 as [Hl Hr]. apply Forall_cons in Hr as [Hy Hr].
      pose proof (total_nonneg _ Hl). pose proof (total_nonneg _ Hr). destruct (elen_bounds y Hy) as (_ & _ & Hyb).
      rewrite total_app. change (total (y :: r)) with (elen y + total r).
      apply same_on_write with (a := base j) (b := base j + BLK_HEADER_SIZE + total l + elen y); kvlia.
    + simpl. split.
      * unfold rd. rewrite read_write_erased; [done|kvlia| |by apply enc_entry_u8].
        fold (rd f (base j + BLK_HEADER_SIZE + total es) (elen x)). rewrite <- (Z.add_0_r (_ + total es)).
        rewrite (rd_sub _ _ _ _ _ _ Hfree) by kvlia. change (Z.to_nat 0) with 0%nat. rewrite drop_0, take_replicate. f_equal. kvlia.
      * unfold rd. rewrite read_write_out by kvlia.
        replace (base j + BLK_HEADER_SIZE + total es + elen x) with ((base j + BLK_HEADER_SIZE + total es) + elen x) by lia.
        fold (rd f (base j + BLK_HEADER_SIZE + total es + elen x) (base j + BLK_SIZE - (base j + BLK_HEADER_SIZE + total es + elen x))).
        rewrite (rd_sub _ _ _ _ _ _ Hfree) by kvlia. rewrite drop_replicate, take_replicate. f_equal. kvlia.
  - apply Forall_app. split; [done|]. by apply Forall_cons_2.
  - rewrite total_app. simpl. kvlia.
Qed.

(** Where the next item goes: the same pairs, and a block in use with room at the write
    position, or 0 with the garbage collector started, and then [full] holds. *)
Definition fits (n : Z) (b : blk) : Prop := BLK_HEADER_SIZE + total (b_entries b) + n < BLK_SIZE.

Definition keeps_entries (bs bs1 : list blk) : Prop :=
  forall i b, bs !! i = Some b -> b_entries b <> [] -> bs1 !! i = Some b.

(** At most one clean block was opened. *)
Definition opened (bs : list blk) f (bs1 : list blk) f1 : Prop :=
  (bs1 = bs /\ f1 = f) \/
  (exists i b, (2 < N)%nat /\ bs !! i = Some b /\ b_state b = BLK_STATE_CLEAN /\ bs1 = <[i := mk_blk BLK_STATE_USED []]> bs /\
     f1 = set_state f (base i) BLK_STATE_USED).

Definition placed (n : Z) (bs : list blk) f (full : Prop) (r : outcome (Z * world F)) : Prop :=
  exists p w1 bs1, r = Ret (p, w1) /\ wf w1 bs1 /\ opened bs f bs1 (flash w1) /\
    ((p = 0 /\ gc_triggered (mgr w1) <> 0 /\ full) \/
     (exists j b, bs1 !! j = Some b /\ b_state b <> BLK_STATE_CLEAN /\ p = base j + BLK_HEADER_SIZE + total (b_entries b) /\
        write_pos (mgr w1) = p /\ BLK_HEADER_SIZE + total (b_entries b) + n < BLK_SIZE)).

Lemma opened_pairs w bs bs1 f1 : wf w bs -> opened bs (flash w) bs1 f1 -> pairs bs1 ≡ₚ pairs bs.
Proof.
  intros Hw [[-> _]|(i & b & _ & Hi & Hc & -> & _)]; [done|].
  pose proof (pairs_insert bs i b (mk_blk BLK_STATE_USED []) Hi) as Hp.
  unfold live_of in Hp. rewrite (bo_clean _ _ _ _ (wf_blocks _ _ Hw i b Hi) Hc) in Hp. simpl in Hp. by rewrite !app_nil_r in Hp.
Qed.

Lemma opened_keeps w bs bs1 f1 : wf w bs -> opened bs (flash w) bs1 f1 -> keeps_entries bs bs1.
Proof.
  intros Hw [[-> _]|(i & b & _ & Hi & Hc & -> & _)] k c Hk Hne; [done|].
  destruct (decide (i = k)) as [<-|]; [|by rewrite list_lookup_insert_ne].
  destruct Hne. replace c with b by congruence. apply (bo_clean _ _ _ _ (wf_blocks _ _ Hw i b Hi) Hc).
Qed.

Lemma modify_eq g w : modify g w = Ret (tt, mk_world (g (mgr w)) (flash w) (oom w)).
Proof. done. Qed.

(** The block the search stops at. *)
Lemma search_hit n fuel blk i b w bs full :
  (2 < N)%nat -> wf w bs -> bs !! i = Some b -> Z.of_nat i <> blk -> BLK_HEADER_SIZE + total (b_entries b) + n < BLK_SIZE ->
  placed n bs (flash w) full (search_loop N (S fuel) blk (Z.of_nat i) n w).
Proof.
  intros H2 Hw Hi Hne Hn. destruct (wf_blocks _ _ Hw i b Hi) as [B1 B2 B3 B4 B5]. destruct (wf_num _ _ Hw) as [Hlen HN].
  pose proof (lookup_lt_Some _ _ _ Hi) as Hin. pose proof (total_nonneg _ (laid_ok _ _ _ _ B1)) as Ht.
  pose proof (laid_fits _ _ _ _ B1) as Hfit.
  cbn [search_loop]. rewrite (proj2 (Z.eqb_neq _ _) Hne). replace (Z.of_nat i =? Z.of_nat N) with false by (symmetry; apply Z.eqb_neq; lia).
  assert (Hg : get_info (Z.of_nat i) w = Ret (info_of b, w)) by (apply get_info_eq; rewrite Nat2Z.id; apply B2).
  rewrite (bind_step _ _ _ _ _ Hg). unfold info_of at 1. cbn [space].
  destruct (Z.gtb_spec (BLK_SIZE - BLK_HEADER_SIZE - total (b_entries b)) n) as [_|?]; [|kvlia].
  rewrite (bind_step _ _ _ _ _ (modify_eq _ _)). rewrite shiftl_base by lia.
  unfold info_of at 1 2. cbn [space bstate]. rewrite u16_id by (unfold base; kvlia).
  replace (base i + BLK_SIZE - (BLK_SIZE - BLK_HEADER_SIZE - total (b_entries b))) with (base i + BLK_HEADER_SIZE + total (b_entries b)) by lia.
  set (p := base i + BLK_HEADER_SIZE + total (b_entries b)).
  destruct (Z.eqb_spec (b_state b) BLK_STATE_CLEAN) as [Hc|Hc].
  - pose proof (B4 Hc) as He. set (b1 := mk_blk BLK_STATE_USED []).
    set (f1 := spi_flash_write (flash w) (KV_PARAM_START_ADDRESS + (base i + KV_STATE_OFF)) [BLK_STATE_USED]).
    set (g1 := upd_info (<[i := info_of b1]> (block_info (mgr w))) (upd_write_pos p (mgr w))).
    set (w1 := mk_world (upd_clean (u8 (clean_blk_nums g1 - 1)) g1) f1 (oom w)).
    assert (Hr : (kv_state_set (base i) BLK_STATE_USED;; set_bstate (Z.of_nat i) BLK_STATE_USED;;
      modify (fun g => upd_clean (u8 (clean_blk_nums g - 1)) g)) (mk_world (upd_write_pos p (mgr w)) (flash w) (oom w)) = Ret (tt, w1)).
    { assert (Hs : kv_state_set (base i) BLK_STATE_USED (mk_world (upd_write_pos p (mgr w)) (flash w) (oom w)) =
        Ret (tt, mk_world (upd_write_pos p (mgr w)) f1 (oom w))) by done. rewrite (bind_step _ _ _ _ _ Hs).
      rewrite (bind_step _ _ _ _ _ (set_bstate_eq (Z.of_nat i) BLK_STATE_USED (mk_world (upd_write_pos p (mgr w)) f1 (oom w)) (info_of b) ltac:(rewrite Nat2Z.id; exact B2))).
      rewrite modify_eq. unfold w1, g1, info_of. simpl. rewrite Nat2Z.id, He. done. }
    rewrite (bind_step _ _ _ _ _ Hr). exists p, w1, (<[i := b1]> bs). split; [done|].
    assert (Hin' : <[i := b1]> bs !! i = Some b1) by (apply list_lookup_insert_eq; lia).
    assert (Hwf1 : wf w1 (<[i := b1]> bs)).
    { apply (wf_update w _ _ _ b); try done.
      - apply same_but_write; unfold KV_STATE_OFF; simpl; kvlia.
      - rewrite Hc, He in B1. exact (laid_set_state _ _ _ _ BLK_STATE_USED B1).
      - apply Hw.
      - rewrite (cleans_insert _ _ _ _ Hi). unfold is_clean at 1. rewrite Hc. simpl. rewrite (wf_clean _ _ Hw).
        assert (0 < cleans bs <= Z.of_nat N).
        { unfold cleans. assert (Hin2 : b ∈ bs) by (by apply list_elem_of_lookup_2 in Hi).
          assert (Hin3 : List.In b (List.filter is_clean bs)) by (apply List.filter_In; split; [by apply list_elem_of_In|unfold is_clean; by rewrite Hc]).
          pose proof (List.filter_length_le is_clean bs). destruct (List.filter is_clean bs); [done|simpl in *; lia]. }
        rewrite u8_id by kvlia. lia.
      - exists i, b1. split_and!; [done|done|]. simpl. unfold p. by rewrite He. }
    split; [done|]. split.
    + right. by exists i, b.
    + right. exists i, b1. unfold p. rewrite He in *. split_and!; try done. unfold w1, g1, p. simpl. by rewrite ?He.
  - exists p, (mk_world (upd_write_pos p (mgr w)) (flash w) (oom w)), bs. split; [done|]. split.
    + destruct Hw as [W1 W2 W3 W4 W5 W6]. split; try done. by exists i, b.
    + split; [by left|]. right. by exists i, b.
Qed.

(** The search does not find room in block [i]. *)
Lemma search_miss n fuel blk i b w bs :
  wf w bs -> bs !! i = Some b -> Z.of_nat i <> blk -> BLK_SIZE <= BLK_HEADER_SIZE + total (b_entries b) + n ->
  search_loop N (S fuel) blk (Z.of_nat i) n w = search_loop N fuel blk (Z.of_nat (S i)) n w.
Proof.
  intros Hw Hi Hne Hn. destruct (wf_blocks _ _ Hw i b Hi) as [B1 B2 _ _ _]. destruct (wf_num _ _ Hw) as [Hlen HN].
  pose proof (lookup_lt_Some _ _ _ Hi) as Hin. cbn [search_loop]. rewrite (proj2 (Z.eqb_neq _ _) Hne).
  replace (Z.of_nat i =? Z.of_nat N) with false by (symmetry; apply Z.eqb_neq; lia).
  assert (Hg : get_info (Z.of_nat i) w = Ret (info_of b, w)) by (apply get_info_eq; rewrite Nat2Z.id; apply B2).
  rewrite (bind_step _ _ _ _ _ Hg). unfold info_of. cbn [space].
  destruct (Z.gtb_spec (BLK_SIZE - BLK_HEADER_SIZE - total (b_entries b)) n) as [?|_]; [kvlia|].
  rewrite u8_id by kvlia. by replace (Z.of_nat i + 1) with (Z.of_nat (S i)) by lia.
Qed.

(** Behind the last block the search goes on at block 0. *)
Lemma search_wrap n fuel blk w : 0 < blk < Z.of_nat N ->
  search_loop N (S fuel) blk (Z.of_nat N) n w = search_loop N (S fuel) blk (Z.of_nat 0) n w.
Proof.
  intros Hb. cbn [search_loop]. rewrite Z.eqb_refl.
  replace (Z.of_nat N =? blk) with false by (symmetry; apply Z.eqb_neq; lia).
  replace (Z.of_nat 0 =? blk) with false by (symmetry; apply Z.eqb_neq; lia).
  by replace (Z.of_nat 0 =? Z.of_nat N) with false by (symmetry; apply Z.eqb_neq; lia).
Qed.

(** Rounds from [i] until the search is back at [j]. *)
Definition rounds (j i : nat) : nat := if (j <? i)%nat then N - i + j else j - i.

Lemma search_placed n fuel i j w bs :
  (2 < N)%nat -> wf w bs -> (0 < j < N)%nat -> (i <= N)%nat -> (rounds j i < fuel)%nat ->
  placed n bs (flash w) (forall k b, bs !! k = Some b -> (0 < rounds j k <= rounds j i)%nat -> ~ fits n b)
    (search_loop N fuel (Z.of_nat j) (Z.of_nat i) n w).
Proof.
  intros H2 Hw Hj. revert i. induction fuel as [|fuel IH]; intros i Hi Hm; [lia|]. destruct (wf_num _ _ Hw) as [Hlen HN].
  assert (Hlt : forall i, (i < N)%nat -> (rounds j i < S fuel)%nat ->
    placed n bs (flash w) (forall k b, bs !! k = Some b -> (0 < rounds j k <= rounds j i)%nat -> ~ fits n b)
      (search_loop N (S fuel) (Z.of_nat j) (Z.of_nat i) n w)).
  { clear i Hi Hm. intros i Hi Hm. destruct (decide (i = j)) as [->|Hne].
    - cbn [search_loop]. rewrite Z.eqb_refl. destruct (trigger_gc_wf w bs Hw) as (w' & Hr & Hw' & _ & Hg & Hfl).
      rewrite (bind_step _ _ _ _ _ Hr). exists 0, w', bs. split_and!; [done..|by left|left]. split_and!; [done..|].
      intros k b _ Hk. unfold rounds in Hk. rewrite Nat.ltb_irrefl in Hk. lia.
    - destruct (lookup_lt_is_Some_2 bs i) as [b Hb]; [lia|].
      destruct (decide (BLK_HEADER_SIZE + total (b_entries b) + n < BLK_SIZE)) as [Hf|Hf].
      + apply (search_hit _ _ _ _ b); [done..|lia|done].
      + rewrite (search_miss _ _ _ _ b w bs) by (done || lia).
        assert (Hstep : rounds j i = S (rounds j (S i))).
        { unfold rounds. destruct (Nat.ltb_spec j i), (Nat.ltb_spec j (S i)); lia. }
        destruct (IH (S i)) as (p & w1 & bs1 & Hr & Hw1 & Hop & Hcase); [lia|lia|]. exists p, w1, bs1. split_and!; try done.
        destruct Hcase as [(-> & Hg & Hfull)|Hcase]; [left|by right]. split_and!; [done..|]. intros k c Hk Hkr.
        destruct (decide (k = i)) as [->|Hki]; [assert (c = b) as -> by congruence; done|]. apply (Hfull k c Hk).
        pose proof (lookup_lt_Some _ _ _ Hk). unfold rounds in *.
        destruct (Nat.ltb_spec j i), (Nat.ltb_spec j (S i)), (Nat.ltb_spec j k); lia. }
  destruct (decide (i = N)) as [->|Hne]; [|apply Hlt; [lia|done]].
  assert (H0 : rounds j N = rounds j 0) by (unfold rounds; destruct (Nat.ltb_spec j N), (Nat.ltb_spec j 0); lia).
  rewrite search_wrap by lia. rewrite H0 in *. apply Hlt; [lia|done].
Qed.

Lemma search_up n fuel i k b w bs full :
  (2 < N)%nat -> wf w bs -> (0 < i <= k)%nat -> bs !! k = Some b -> fits n b ->
  (k - i < fuel)%nat -> placed n bs (flash w) full (search_loop N fuel 0 (Z.of_nat i) n w).
Proof.
  intros H2 Hw Hik Hk Hf. revert i Hik. induction fuel as [|fuel IH]; intros i Hik Hm; [lia|].
  destruct (decide (i = k)) as [->|Hne]; [apply (search_hit _ _ _ _ b); [done..|lia|done]|].
  pose proof (lookup_lt_Some _ _ _ Hk) as Hkl. destruct (lookup_lt_is_Some_2 bs i) as [c Hc]; [lia|].
  destruct (decide (BLK_HEADER_SIZE + total (b_entries c) + n < BLK_SIZE)) as [Hf'|Hf'].
  - apply (search_hit _ _ _ _ c); [done..|lia|done].
  - rewrite (search_miss _ _ _ _ c w bs) by (done || lia). apply IH; lia.
Qed.

(** The search ends: there are two blocks, the write position is not in block 0, or
    some block has room. *)
Definition can_place (n : Z) w (bs : list blk) : Prop :=
  N = 2%nat \/ BLK_SIZE <= write_pos (mgr w) \/
  exists k b, bs !! k = Some b /\ fits n b.

(** No room for [n] bytes: not in the block of the write position and, with more than
    two blocks, in no block. *)
Definition no_room (n : Z) w (bs : list blk) : Prop :=
  (forall j b, bs !! j = Some b -> write_pos (mgr w) = base j + BLK_HEADER_SIZE + total (b_entries b) -> ~ fits n b) /\
  ((2 < N)%nat -> forall k b, bs !! k = Some b -> ~ fits n b).

Lemma calc_pos_placed n w bs :
  wf w bs -> (N < search_fuel)%nat -> can_place n w bs -> placed n bs (flash w) (no_room n w bs) (kv_item_calc_pos N search_fuel n w).
Proof.
  intros Hw Hfuel Hcan. destruct (wf_write _ _ Hw) as (j & b & Hj & Hnc & Hp).
  destruct (wf_blocks _ _ Hw j b Hj) as [B1 B2 _ _ _]. destruct (wf_num _ _ Hw) as [Hlen HN].
  pose proof (lookup_lt_Some _ _ _ Hj) as Hjn. pose proof (total_nonneg _ (laid_ok _ _ _ _ B1)) as Ht.
  pose proof (laid_fits _ _ _ _ B1) as Hfit.
  destruct (pos_block j (BLK_HEADER_SIZE + total (b_entries b))) as [Hsh _]; [lia|kvlia|]. rewrite Z.add_assoc, <- Hp in Hsh.
  unfold kv_item_calc_pos. assert (Hgm : get_mgr w = Ret (mgr w, w)) by done. rewrite (bind_step _ _ _ _ _ Hgm), Hsh.
  assert (Hg : get_info (Z.of_nat j) w = Ret (info_of b, w)) by (apply get_info_eq; rewrite Nat2Z.id; apply B2).
  rewrite (bind_step _ _ _ _ _ Hg). unfold info_of at 1 2. cbn [space].
  destruct (Z.gtb_spec (BLK_SIZE - BLK_HEADER_SIZE - total (b_entries b)) n) as [Hroom|Hroom].
  - assert (Hplace : forall w1, wf w1 bs -> write_pos (mgr w1) = write_pos (mgr w) -> flash w1 = flash w ->
      placed n bs (flash w) (no_room n w bs) (Ret (write_pos (mgr w), w1))).
    { intros w1 Hw1 Hp1 Hf1. exists (write_pos (mgr w)), w1, bs. split_and!; [done..|by left|right]. exists j, b. split_and!; try done. kvlia. }
    destruct (_ && _).
    + destruct (trigger_gc_wf w bs Hw) as (w' & Hr & Hw' & Hp' & _ & Hf'). rewrite (bind_step _ _ _ _ _ Hr). by apply Hplace.
    + by apply Hplace.
  - assert (Hnot : ~ fits n b) by (unfold fits; kvlia).
    assert (Hfirst : forall i c, bs !! i = Some c -> write_pos (mgr w) = base i + BLK_HEADER_SIZE + total (b_entries c) -> ~ fits n c).
    { intros i c Hi Hpi. destruct (wf_blocks _ _ Hw i c Hi) as [[_ _ C3 C4] _ _ _ _]. pose proof (total_nonneg _ C3).
      assert (i = j) as -> by (rewrite Hp in Hpi; unfold base in Hpi; kvlia). by assert (c = b) as -> by congruence. }
    destruct (Z.gtb_spec (Z.of_nat N) (KV_GC_RESERVED + 1)) as [HN3|HN2]; unfold KV_GC_RESERVED in *.
    + rewrite u8_id by kvlia. replace (Z.of_nat j + 1) with (Z.of_nat (S j)) by lia.
      destruct (decide (j = 0%nat)) as [->|Hj0].
      * destruct Hcan as [?|[Hbad|(k & c & Hk & Hc)]]; [lia|unfold base in Hp; kvlia|].
        destruct (decide (k = 0%nat)) as [->|Hk0]; [by assert (c = b) as -> by congruence|].
        pose proof (lookup_lt_Some _ _ _ Hk). apply (search_up _ _ _ k c); [lia|done|lia|done|done|lia].
      * destruct (search_placed n search_fuel (S j) j w bs) as (p & w1 & bs1 & Hr & Hw1 & Hop & Hcase);
          [lia|done|lia|lia|unfold rounds; destruct (Nat.ltb_spec j (S j)); lia|].
        exists p, w1, bs1. split_and!; try done. destruct Hcase as [(-> & Hg' & Hfull)|Hcase]; [left|by right]. split_and!; [done..|].
        split; [done|]. intros _ k c Hk. destruct (decide (k = j)) as [->|Hkj]; [by assert (c = b) as -> by congruence|].
        apply (Hfull k c Hk). pose proof (lookup_lt_Some _ _ _ Hk). unfold rounds. destruct (Nat.ltb_spec j k), (Nat.ltb_spec j (S j)); lia.
    + destruct (trigger_gc_wf w bs Hw) as (w' & Hr & Hw' & _ & Hg' & Hf'). rewrite (bind_step _ _ _ _ _ Hr).
      exists 0, w', bs. split_and!; [done..|by left|left]. split_and!; [done..|]. split; [done|lia].
Qed.

(** Entries stay where they are; others may follow them. *)
Definition grows (bs bs' : list blk) : Prop :=
  forall j b es1 x es2, bs !! j = Some b -> b_entries b = es1 ++ x :: es2 ->
    exists b' es3, bs' !! j = Some b' /\ b_entries b' = es1 ++ x :: es2 ++ es3.

(** The entry [x] was appended to a block in use. *)
Definition appended (bs : list blk) f (x : entry) (bs' : list blk) f' : Prop :=
  exists j b, bs !! j = Some b /\ b_state b <> BLK_STATE_CLEAN /\ fits (elen x) b /\
    bs' = <[j := mk_blk (b_state b) (b_entries b ++ [x])]> bs /\
    f' = spi_flash_write f (KV_PARAM_START_ADDRESS + (base j + BLK_HEADER_SIZE + total (b_entries b))) (enc_entry x).

Lemma item_bytes_eq key val origin :
  entry_ok (mk_entry key val origin true) -> item_bytes key val origin = enc_entry (mk_entry key val origin true).
Proof.
  intros [Hk Hv _ _]. simpl in *. unfold item_bytes, enc_entry, hdr_of, elen, data_of. simpl.
  rewrite u8_id, u16_id by kvlia. rewrite !Nat2Z.id. by rewrite !take_ge by lia.
Qed.

Lemma item_store_refines key val origin w bs :
  wf w bs -> (N < search_fuel)%nat -> entry_ok (mk_entry key val origin true) ->
  can_place (elen (mk_entry key val origin true)) w bs ->
  exists r w' bs' bs1 f1, kv_item_store N search_fuel key val origin w = Ret (r, w') /\ wf w' bs' /\ grows bs bs' /\
    opened bs (flash w) bs1 f1 /\
    ((r = RES_OK /\ pairs bs' ≡ₚ (key, val) :: pairs bs /\ appended bs1 f1 (mk_entry key val origin true) bs' (flash w')) \/
     (r = RES_NO_SPACE /\ pairs bs' ≡ₚ pairs bs /\ bs' = bs1 /\ flash w' = f1 /\ gc_triggered (mgr w') <> 0 /\
        no_room (elen (mk_entry key val origin true)) w bs)).
Proof.
  intros Hw Hfuel Hx Hcan. unfold kv_item_store. rewrite item_bytes_eq by done. set (x := mk_entry key val origin true) in *.
  assert (Hlen : align (ITEM_HEADER_SIZE + u8 (Z.of_nat (length key)) + u16 (Z.of_nat (length val))) = elen x).
  { destruct Hx as [Hk Hv _ _]. simpl in *. rewrite u8_id, u16_id by kvlia. done. }
  rewrite Hlen, (bind_step _ _ _ _ _ (malloc_ok _ (wf_oom _ _ Hw))). cbn [negb].
  destruct (calc_pos_placed _ w bs Hw Hfuel Hcan) as (p & w1 & bs1 & Hr & Hw1 & Hop & Hcase).
  pose proof (opened_pairs _ _ _ _ Hw Hop) as Hp1. pose proof (opened_keeps _ _ _ _ Hw Hop) as Hk1.
  rewrite (bind_step _ _ _ _ _ Hr). destruct Hcase as [(-> & Hg & Hfull)|(j & b & Hj & Hnc & -> & Hwp & Hfit)].
  - exists RES_NO_SPACE, w1, bs1, bs1, (flash w1). split; [done|]. split; [done|]. split; [|split; [done|by right]].
    intros k c es1 y es2 Hk He. exists c, []. rewrite app_nil_r. split; [|done]. apply Hk1; [done|]. rewrite He. by destruct es1.
  - destruct (wf_blocks _ _ Hw1 j b Hj) as [B1 B2 B3 B4 B5]. destruct (wf_num _ _ Hw1) as [Hl HN].
    pose proof (lookup_lt_Some _ _ _ Hj) as Hjn. pose proof (total_nonneg _ (laid_ok _ _ _ _ B1)) as Ht.
    destruct (elen_bounds x Hx) as (_ & _ & Hb). set (p := base j + BLK_HEADER_SIZE + total (b_entries b)) in *.
    destruct (Z.gtb_spec p 0) as [_|?]; [|unfold p, base in *; kvlia].
    set (f2 := spi_flash_write (flash w1) (KV_PARAM_START_ADDRESS + p) (enc_entry x)).
    assert (Hr2 : raw_write p (enc_entry x) w1 = Ret (tt, mk_world (mgr w1) f2 (oom w1))) by done.
    rewrite (bind_step _ _ _ _ _ Hr2), (bind_step _ _ _ _ _ (modify_eq _ _)). cbn [mgr flash oom].
    assert (Hp16 : u16 (p + elen x) = p + elen x) by (apply u16_id; unfold p, base; kvlia).
    destruct (pos_block j (BLK_HEADER_SIZE + total (b_entries b) + elen x)) as [Hsh _]; [lia|kvlia|].
    replace (base j + (BLK_HEADER_SIZE + total (b_entries b) + elen x)) with (p + elen x) in Hsh by (unfold p; lia).
    set (w2 := mk_world (upd_write_pos (u16 (p + elen x)) (mgr w1)) f2 (oom w1)).
    assert (Hgm : get_mgr w2 = Ret (mgr w2, w2)) by done. rewrite (bind_step _ _ _ _ _ Hgm).
    change (write_pos (mgr w2)) with (u16 (p + elen x)). rewrite Hp16, Hsh.
    assert (Hg : get_info (Z.of_nat j) w2 = Ret (info_of b, w2)) by (apply get_info_eq; rewrite Nat2Z.id; apply B2).
    rewrite (bind_step _ _ _ _ _ Hg). unfold info_of at 1. cbn [space].
    rewrite u16_id by kvlia.
    rewrite (bind_step _ _ _ _ _ (set_space_eq (Z.of_nat j) _ w2 (info_of b) ltac:(rewrite Nat2Z.id; exact B2))).
    rewrite Nat2Z.id. set (b' := mk_blk (b_state b) (b_entries b ++ [x])).
    assert (Htot : total (b_entries b') = total (b_entries b) + elen x) by (simpl; rewrite total_app; simpl; lia).
    eexists RES_OK, _, (<[j := b']> bs1), bs1, (flash w1). split; [done|]. split.
    + apply (wf_update w1 _ _ _ b); try done.
      * simpl. unfold f2, p. rewrite <- Z.add_assoc. apply same_but_write; rewrite ?length_enc_entry by done; kvlia.
      * simpl. f_equal. unfold info_of. rewrite Htot. f_equal. lia.
      * simpl. apply laid_append; [done|done|kvlia].
      * split; [done|done|]. simpl. intros Hu. apply Forall_app. split; [by apply B5|by repeat constructor].
      * apply Hw1.
      * simpl. rewrite (wf_clean _ _ Hw1), (cleans_insert _ _ _ _ Hj). change (is_clean b') with (is_clean b). lia.
      * exists j, b'. rewrite list_lookup_insert_eq by done. split_and!; [done|done|]. simpl. rewrite Hp16, total_app. simpl. unfold p. lia.
    + split.
      * intros k c es1 y es2 Hk He. assert (Hk' : bs1 !! k = Some c) by (apply Hk1; [done|]; rewrite He; by destruct es1).
        destruct (decide (j = k)) as [<-|Hne].
        -- exists b', [x]. rewrite list_lookup_insert_eq by done. split; [done|]. simpl. assert (c = b) as -> by congruence.
           rewrite He, <- app_assoc. done.
        -- exists c, []. rewrite list_lookup_insert_ne, app_nil_r by done. done.
      * split; [done|]. left. split; [done|]. split; [|by exists j, b]. rewrite <- Hp1. pose proof (pairs_insert bs1 j b b' Hj) as Hpp.
        apply (Permutation_app_inv_r (live_of b)). rewrite Hpp. unfold b', live_of. simpl.
        rewrite List.filter_app. simpl. rewrite fmap_app. simpl. solve_Permutation.
Qed.

(** ** Garbage collection *)

Definition live_entries (es : list entry) : list entry := List.filter e_live es.

Lemma total_live es : List.Forall entry_ok es -> total (live_entries es) <= total es.
Proof.
  induction 1 as [|x es Hx Hes IH]; [done|]. destruct (elen_bounds x Hx) as (_ & _ & Hb). simpl. unfold total in *.
  destruct (e_live x); simpl; lia.
Qed.

Lemma live_entries_ok es : List.Forall entry_ok es -> List.Forall entry_ok (live_entries es).
Proof. intros H. induction H as [|x es Hx Hes IH]; simpl; [constructor|]. destruct (e_live x); [by constructor|done]. Qed.

(** The entries [es] were written to the empty block [g], one after the other. *)
Inductive copied f (g : nat) : list entry -> F -> Prop :=
| copied_nil : copied f g [] f
| copied_snoc es f1 x : copied f g es f1 -> entry_ok x -> BLK_HEADER_SIZE + total es + elen x < BLK_SIZE ->
    copied f g (es ++ [x]) (spi_flash_write f1 (KV_PARAM_START_ADDRESS + (base g + BLK_HEADER_SIZE + total es)) (enc_entry x)).

(** The copy so far: [es] are in block [g], nothing else has changed since [w0]. *)
Record copying (w0 w : world F) (g : nat) (es : list entry) : Prop := {
  cp_copied : copied (flash w0) g es (flash w);
  cp_flash : same_but (flash w0) (flash w) g;
  cp_laid : laid (flash w) g BLK_STATE_CLEAN es;
  cp_mgr : mgr w = upd_write_pos (base g + BLK_HEADER_SIZE + total es)
    (upd_info (<[g := mk_info (BLK_SIZE - BLK_HEADER_SIZE - total es) BLK_STATE_CLEAN]> (block_info (mgr w0))) (mgr w0));
  cp_oom : oom w = []
}.

Lemma gc_cb_copies w0 w g es x p :
  copying w0 w g es -> (g < 15)%nat -> (g < length (block_info (mgr w0)))%nat ->
  entry_ok x -> rd (flash w) p (elen x) = enc_entry x ->
  BLK_HEADER_SIZE + total es + elen x < BLK_SIZE ->
  exists w', item_gc_cb (item_of x p) w = Ret ((RES_CONT, item_of x p), w') /\ copying w0 w' g (es ++ [x]).
Proof.
  intros [C0 C1 C2 C3 C4] Hg Hgl Hx He Hfit. destruct (elen_bounds x Hx) as (_ & _ & Hb). pose proof (total_nonneg _ (laid_ok _ _ _ _ C2)) as Ht.
  unfold item_gc_cb. assert (Hn : align (ITEM_HEADER_SIZE + len (item_of x p)) = elen x).
  { unfold elen, item_of, data_of. simpl. rewrite length_app, Nat2Z.inj_add. f_equal. lia. }
  rewrite Hn, (bind_step _ _ _ _ _ (malloc_ok _ C4)). cbn [negb].
  assert (Hr : raw_read (pos (item_of x p)) (elen x) w = Ret (enc_entry x, w)) by (unfold raw_read; do 2 f_equal; exact He).
  rewrite (bind_step _ _ _ _ _ Hr). assert (Hgm : get_mgr w = Ret (mgr w, w)) by done. rewrite (bind_step _ _ _ _ _ Hgm).
  set (q := base g + BLK_HEADER_SIZE + total es). assert (Hq : write_pos (mgr w) = q) by (by rewrite C3). rewrite Hq.
  set (f1 := spi_flash_write (flash w) (KV_PARAM_START_ADDRESS + q) (enc_entry x)).
  assert (Hw1 : raw_write q (enc_entry x) w = Ret (tt, mk_world (mgr w) f1 (oom w))) by done. rewrite (bind_step _ _ _ _ _ Hw1).
  rewrite (bind_step _ _ _ _ _ (modify_eq _ _)). cbn [mgr flash oom]. rewrite Hq, (u16_id (q + elen x)) by (unfold q, base; kvlia).
  set (w2 := mk_world (upd_write_pos (q + elen x) (mgr w)) f1 (oom w)).
  assert (Hgm2 : get_mgr w2 = Ret (mgr w2, w2)) by done. rewrite (bind_step _ _ _ _ _ Hgm2).
  change (write_pos (mgr w2)) with (q + elen x).
  destruct (pos_block g (BLK_HEADER_SIZE + total es + elen x)) as [Hsh _]; [lia|kvlia|].
  replace (base g + (BLK_HEADER_SIZE + total es + elen x)) with (q + elen x) in Hsh by (unfold q; lia). rewrite Hsh.
  set (ig := mk_info (BLK_SIZE - BLK_HEADER_SIZE - total es) BLK_STATE_CLEAN).
  assert (Hbi : block_info (mgr w) !! g = Some ig) by (rewrite C3; by apply list_lookup_insert_eq).
  rewrite (bind_step _ _ _ _ _ (get_info_eq (Z.of_nat g) w2 ig ltac:(rewrite Nat2Z.id; exact Hbi))). cbn [space ig].
  rewrite u16_id by kvlia.
  rewrite (bind_step _ _ _ _ _ (set_space_eq (Z.of_nat g) _ w2 ig ltac:(rewrite Nat2Z.id; exact Hbi))).
  eexists. split; [done|]. rewrite Nat2Z.id. split.
  - by constructor.
  - simpl. apply (same_but_trans _ (flash w)); [done|]. unfold f1, q. rewrite <- Z.add_assoc.
    apply same_but_write; rewrite ?length_enc_entry by done; kvlia.
  - simpl. by apply laid_append.
  - simpl. rewrite C3. unfold upd_info, upd_write_pos. simpl. rewrite list_insert_insert_eq, total_app. simpl. f_equal; [unfold q; lia|].
    f_equal. f_equal. lia.
  - done.
Qed.

Lemma next_gc fuel w0 w g i b p e es done :
  copying w0 w g done -> (g < 15)%nat -> (g < length (block_info (mgr w0)))%nat -> i <> g ->
  entries_at (flash w0) p e es -> List.Forall entry_ok es -> base i <= p -> e = base i + BLK_SIZE -> p + total es < e -> (i < 15)%nat ->
  block_info (mgr w0) !! i = Some b -> bstate b <> BLK_STATE_USED -> space b = e - (p + total es) ->
  BLK_HEADER_SIZE + total done + total (live_entries es) < BLK_SIZE -> e - p <= 8 * Z.of_nat fuel ->
  exists w', next_round fuel item_gc_cb (Z.of_nat i) p e w = Ret (None, w') /\ copying w0 w' g (done ++ live_entries es).
Proof.
  intros Hc Hg Hgl Hig He Hok. revert fuel w p done Hc He. induction Hok as [|x es Hx Hes IH]; intros fuel w p done Hc He Hp Hee Ht Hi Hb Hu Hs Hfit Hf.
  - simpl in *. rewrite Z.add_0_r in *. rewrite app_nil_r. destruct fuel as [|fuel]; [lia|]. exists w. split; [|done].
    destruct Hc as [_ C1 C2 C3 C4].
    rewrite next_round_free; [|done|simpl; rewrite <- He; apply (C1 i Hig); lia].
    apply (traverse_end_id _ _ _ _ b); [|lia|kvlia|done]. rewrite C3, Nat2Z.id. simpl. by rewrite list_lookup_insert_ne.
  - destruct (elen_bounds x Hx) as (_ & _ & Hbx). pose proof (total_nonneg es Hes) as Hn.
    change (total (x :: es)) with (elen x + total es) in *. destruct fuel as [|fuel]; [kvlia|].
    pose proof (live_entries_ok es Hes) as Hlok. pose proof (total_nonneg _ Hlok) as Hln.
    unfold next_round. destruct (Z.gtb_spec e (p + ITEM_HEADER_SIZE)) as [_|?]; [|kvlia].
    assert (He' : entries_at (flash w) p e (x :: es)).
    { apply (entries_at_ext (flash w0)); [|by constructor|change (total (x :: es)) with (elen x + total es); lia|done].
      intros a n Ha Hn'. apply (cp_flash _ _ _ _ Hc i Hig); lia. }
    rewrite (loop_entry _ _ _ _ _ _ x es); [|apply Hc|done|done|unfold base in Hp; kvlia|unfold base in *; kvlia].
    destruct He as [He Hrest]. unfold live_entries in Hfit |- *. cbn [List.filter] in Hfit |- *.
    fold (live_entries es) in Hfit |- *. destruct (e_live x) eqn:Hl.
    + change (total (x :: live_entries es)) with (elen x + total (live_entries es)) in Hfit.
      destruct (gc_cb_copies w0 w g done x p Hc Hg Hgl Hx (proj1 He')) as (w1 & Hr & Hc1); [lia|].
      rewrite (bind_step _ _ _ _ _ Hr). cbn [fst snd].
      destruct (IH fuel w1 (p + elen x) (done ++ [x])) as (w' & Hr' & Hc'); try done; try kvlia.
      { rewrite total_app. simpl. kvlia. }
      exists w'. split; [done|]. by rewrite <- app_assoc in Hc'.
    + assert (Hm : block_info (mgr w) !! Z.to_nat (Z.of_nat i) = Some b).
      { rewrite (cp_mgr _ _ _ _ Hc), Nat2Z.id. simpl. by rewrite list_lookup_insert_ne. }
      rewrite (bind_step _ _ _ _ _ (mark_dirty_id _ _ _ Hm Hu)).
      apply IH; try done; kvlia.
Qed.

Lemma same_on_bytes f f' a b :
  same_on f f' a b <-> forall x, a <= x < b -> fl_byte f' (KV_PARAM_START_ADDRESS + x) = fl_byte f (KV_PARAM_START_ADDRESS + x).
Proof.
  split.
  - intros Hs x Hx. specialize (Hs x 1 ltac:(lia) ltac:(lia)). unfold rd in Hs. rewrite !fl_read in Hs. by injection Hs.
  - intros Hb p n Hp Hn. apply rd_ext. intros x Hx. apply Hb. lia.
Qed.

(** The same write on both sides. *)
Lemma same_but_write_both f f' j p d :
  same_but f f' j -> same_but (spi_flash_write f p d) (spi_flash_write f' p d) j.
Proof.
  intros Hs i Hi. apply same_on_bytes. intros x Hx. rewrite !fl_write.
  by rewrite (proj1 (same_on_bytes _ _ _ _) (Hs i Hi) x Hx).
Qed.

Definition formatted f (i : nat) : F :=
  spi_flash_write (spi_flash_erase_sector f (KV_PARAM_START_SECTOR + base i / SPI_FLASH_SEC_SIZE))
    (KV_PARAM_START_ADDRESS + base i) [BLK_MAGIC_NUM; BLK_STATE_CLEAN; 0; 0].

Lemma sector_of i : KV_PARAM_START_SECTOR + base i / SPI_FLASH_SEC_SIZE = KV_PARAM_START_SECTOR + Z.of_nat i /\
  (KV_PARAM_START_SECTOR + Z.of_nat i) * SPI_FLASH_SEC_SIZE = KV_PARAM_START_ADDRESS + base i /\
  (KV_PARAM_START_SECTOR + Z.of_nat i + 1) * SPI_FLASH_SEC_SIZE = KV_PARAM_START_ADDRESS + base i + BLK_SIZE.
Proof.
  unfold KV_PARAM_START_SECTOR, KV_PARAM_START_ADDRESS, SPI_FLASH_SEC_SIZE, base, BLK_SIZE. rewrite Z.div_mul by lia. change (0xFA000 / 4096) with 250. lia.
Qed.

Lemma formatted_same f i : same_but f (formatted f i) i.
Proof.
  intros k Hk p n Hp Hn. unfold formatted. destruct (sector_of i) as (-> & Hs1 & Hs2).
  assert (Hki : base k + BLK_SIZE <= base i \/ base i + BLK_SIZE <= base k) by (unfold base; destruct (decide (k < i)%nat); kvlia).
  unfold rd. rewrite read_write_out by (cbn [length]; kvlia). apply erase_out. lia.
Qed.

Lemma formatted_laid f i : laid (formatted f i) i BLK_STATE_CLEAN [].
Proof.
  unfold formatted. destruct (sector_of i) as (-> & Hs1 & Hs2). split.
  - unfold rd. apply read_write_erased; [done| |repeat constructor; unfold is_u8, BLK_MAGIC_NUM, BLK_STATE_CLEAN; lia].
    apply erase_in; kvlia.
  - simpl. unfold rd. rewrite read_write_out by (simpl; kvlia).
    rewrite erase_in; [f_equal; kvlia|kvlia|kvlia].
  - constructor.
  - simpl. kvlia.
Qed.

Lemma block_format_eq i w : (i < 15)%nat -> (i < length (block_info (mgr w)))%nat ->
  kv_block_format (Z.of_nat i) w = Ret (RES_OK, mk_world
    (upd_clean (u8 (clean_blk_nums (mgr w) + 1))
       (upd_info (<[i := mk_info (BLK_SIZE - BLK_HEADER_SIZE) BLK_STATE_CLEAN]> (block_info (mgr w))) (mgr w)))
    (formatted (flash w) i) (oom w)).
Proof.
  intros Hi Hl. unfold kv_block_format. rewrite shiftl_base, u16_id by (unfold base; kvlia).
  set (fe := spi_flash_erase_sector (flash w) (KV_PARAM_START_SECTOR + base i / SPI_FLASH_SEC_SIZE)).
  assert (H1 : raw_erase (base i) w = Ret (tt, mk_world (mgr w) fe (oom w))) by done. rewrite (bind_step _ _ _ _ _ H1).
  assert (H2 : raw_write (base i) [BLK_MAGIC_NUM; BLK_STATE_CLEAN; 0; 0] (mk_world (mgr w) fe (oom w)) =
    Ret (tt, mk_world (mgr w) (formatted (flash w) i) (oom w))) by done. rewrite (bind_step _ _ _ _ _ H2).
  destruct (lookup_lt_is_Some_2 _ _ Hl) as [b Hb].
  rewrite (bind_step _ _ _ _ _ (set_info_eq (Z.of_nat i) (mk_world (mgr w) (formatted (flash w) i) (oom w)) b _ ltac:(rewrite Nat2Z.id; exact Hb))).
  rewrite (bind_step _ _ _ _ _ (modify_eq _ _)). by rewrite Nat2Z.id.
Qed.

(** One dirty block collected: its live entries move to the clean block [g]. *)
Definition collected (bs : list blk) (i g : nat) (b : blk) : list blk :=
  <[i := mk_blk BLK_STATE_CLEAN []]> (<[g := mk_blk BLK_STATE_USED (live_entries (b_entries b))]> bs).

Lemma live_entries_live es : List.Forall (fun x => e_live x = true) (live_entries es).
Proof. induction es as [|x es IH]; simpl; [constructor|]. destruct (e_live x) eqn:Hl; [by constructor|done]. Qed.

Lemma live_of_live s es : live_of (mk_blk s (live_entries es)) = live_of (mk_blk s es).
Proof.
  unfold live_of, live_entries. simpl. f_equal. induction es as [|x es IH]; simpl; [done|].
  destruct (e_live x) eqn:Hl; simpl; [by rewrite Hl, IH|done].
Qed.

Lemma collected_pairs bs i g b : bs !! i = Some b -> bs !! g = Some (mk_blk BLK_STATE_CLEAN []) -> i <> g ->
  pairs (collected bs i g b) ≡ₚ pairs bs.
Proof.
  intros Hi Hg Hne. unfold collected. set (bs1 := <[g := mk_blk BLK_STATE_USED (live_entries (b_entries b))]> bs).
  assert (Hi1 : bs1 !! i = Some b) by (unfold bs1; by rewrite list_lookup_insert_ne).
  pose proof (pairs_insert bs1 i b (mk_blk BLK_STATE_CLEAN []) Hi1) as P1.
  pose proof (pairs_insert bs g _ (mk_blk BLK_STATE_USED (live_entries (b_entries b))) Hg) as P2. fold bs1 in P2.
  rewrite live_of_live in P2. change (live_of (mk_blk BLK_STATE_USED (b_entries b))) with (live_of b) in P2.
  change (live_of (mk_blk BLK_STATE_CLEAN [])) with (@nil (list Z * list Z)) in *. rewrite app_nil_r in P1, P2.
  apply (Permutation_app_inv_r (live_of b)). by rewrite P1, P2.
Qed.

(** What this does to the flash. *)
Definition moved f (i g : nat) (b : blk) f' : Prop :=
  exists f1, copied f g (live_entries (b_entries b)) f1 /\ f' = set_state (formatted f1 i) (base g) BLK_STATE_USED.

(** The part of [gc_loop] that handles a dirty block. *)
Lemma collect_wf w0 w bs i g b :
  wf w0 bs -> bs !! i = Some b -> b_state b = BLK_STATE_DIRTY -> bs !! g = Some (mk_blk BLK_STATE_CLEAN []) ->
  copying w0 w g [] ->
  exists w', (kv_item_traverse item_gc_cb (Z.of_nat i);; kv_block_format (Z.of_nat i);;
     g' ← get_mgr; kv_state_set (Z.land (write_pos g') BLK_OFF_MASK) BLK_STATE_USED;;
     set_bstate (Z.of_nat g) BLK_STATE_USED;; modify (fun g => upd_clean (u8 (clean_blk_nums g - 1)) g);; mret true) w = Ret (true, w') /\
    wf w' (collected bs i g b) /\ moved (flash w0) i g b (flash w').
Proof.
  intros Hw Hi Hd Hg Hc. destruct (wf_num _ _ Hw) as [Hn HN]. pose proof (wf_infos _ _ Hw) as Hinf.
  pose proof (lookup_lt_Some _ _ _ Hi) as Hil. pose proof (lookup_lt_Some _ _ _ Hg) as Hgl.
  assert (Hig : i <> g) by (intros ->; assert (b = mk_blk BLK_STATE_CLEAN []) as -> by congruence; done).
  destruct (wf_blocks _ _ Hw i b Hi) as [[L1 L2 L3 L4] B2 B3 B4 B5]. destruct (wf_blocks _ _ Hw g _ Hg) as [G1 G2 _ _ _].
  set (es := live_entries (b_entries b)). pose proof (total_live _ L3) as Htl. pose proof (live_entries_ok _ L3) as Hlok.
  pose proof (total_nonneg _ Hlok) as Hnn. fold es in Htl, Hlok, Hnn.
  destruct (next_gc TRAVERSE_FUEL w0 w g i (info_of b) (base i + BLK_HEADER_SIZE) (base i + BLK_SIZE) (b_entries b) [] Hc)
    as (w1 & Hr1 & [C0 C1 C2 C3 C4]); try done; try kvlia.
  { unfold info_of. simpl. rewrite Hd. done. }
  { unfold info_of. simpl. lia. }
  { fold es. simpl. kvlia. }
  { unfold TRAVERSE_FUEL. kvlia. }
  simpl in C0, C2, C3. fold es in C0, C2, C3.
  assert (Hr1' : kv_item_traverse item_gc_cb (Z.of_nat i) w = Ret (None, w1)) by (rewrite traverse_start by lia; done).
  rewrite (bind_step _ _ _ _ _ Hr1'). assert (Hl1 : length (block_info (mgr w1)) = N) by (rewrite C3; simpl; by rewrite length_insert).
  rewrite (bind_step _ _ _ _ _ (block_format_eq i w1 ltac:(lia) ltac:(lia))).
  set (q := base g + BLK_HEADER_SIZE + total es).
  set (f2 := formatted (flash w1) i).
  match goal with |- context [mk_world ?g0 f2 (oom w1)] => set (w2 := mk_world g0 f2 (oom w1)) end.
  assert (Hgm : get_mgr w2 = Ret (mgr w2, w2)) by done. rewrite (bind_step _ _ _ _ _ Hgm).
  assert (Hq : write_pos (mgr w2) = q) by (unfold w2; simpl; by rewrite C3). rewrite Hq.
  destruct (pos_block g (BLK_HEADER_SIZE + total es)) as [_ Hla]; [lia|kvlia|]. rewrite Z.add_assoc in Hla. fold q in Hla. rewrite Hla.
  set (f3 := spi_flash_write f2 (KV_PARAM_START_ADDRESS + (base g + KV_STATE_OFF)) [BLK_STATE_USED]).
  assert (Hst : kv_state_set (base g) BLK_STATE_USED w2 = Ret (tt, mk_world (mgr w2) f3 (oom w2))) by done. rewrite (bind_step _ _ _ _ _ Hst).
  set (bg := mk_blk BLK_STATE_USED es).
  assert (Hbi : block_info (mgr w2) !! g = Some (mk_info (BLK_SIZE - BLK_HEADER_SIZE - total es) BLK_STATE_CLEAN)).
  { unfold w2. simpl. rewrite list_lookup_insert_ne by done. rewrite C3. simpl. apply list_lookup_insert_eq. lia. }
  rewrite (bind_step _ _ _ _ _ (set_bstate_eq (Z.of_nat g) BLK_STATE_USED (mk_world (mgr w2) f3 (oom w2)) _ ltac:(rewrite Nat2Z.id; exact Hbi))).
  rewrite (bind_step _ _ _ _ _ (modify_eq _ _)). cbn [mgr flash oom]. rewrite Nat2Z.id.
  eexists. split; [done|]. split; [|by exists (flash w1)]. unfold collected. fold es bg.
  set (fa := spi_flash_write (flash w1) (KV_PARAM_START_ADDRESS + (base g + KV_STATE_OFF)) [BLK_STATE_USED]).
  set (wA := mk_world (upd_clean (cleans (<[g := bg]> bs)) (upd_write_pos q (upd_info (<[g := info_of bg]> (block_info (mgr w0))) (mgr w0)))) fa []).
  assert (HA : wf wA (<[g := bg]> bs)).
  { apply (wf_update w0 _ _ _ (mk_blk BLK_STATE_CLEAN [])); try done.
    - apply (same_but_trans _ (flash w1)); [done|]. apply same_but_write; unfold KV_STATE_OFF; simpl; kvlia.
    - exact (laid_set_state _ _ _ _ BLK_STATE_USED C2).
    - split; [done|done|]. intros _. apply live_entries_live.
    - exists g, bg. rewrite list_lookup_insert_eq by done. done. }
  assert (HiA : <[g := bg]> bs !! i = Some b) by (by rewrite list_lookup_insert_ne).
  apply (wf_update wA _ _ _ b); try done.
  - apply same_but_write_both, formatted_same.
  - simpl. rewrite C3. simpl. rewrite (list_insert_insert_ne _ g i) by done. by rewrite list_insert_insert_eq.
  - apply (laid_ext f2); [|apply formatted_laid]. apply same_on_write. unfold KV_STATE_OFF, base. simpl. destruct (decide (g < i)%nat); kvlia.
  - simpl. rewrite C3. simpl. rewrite (wf_clean _ _ Hw). 
    rewrite (cleans_insert _ _ _ _ HiA), (cleans_insert _ _ _ _ Hg). unfold is_clean. simpl. rewrite Hd. simpl.
    assert (0 <= cleans bs <= 15). { unfold cleans. pose proof (List.filter_length_le is_clean bs). lia. }
    rewrite (u8_id (cleans bs + 1)) by kvlia. rewrite u8_id by kvlia. lia.
  - exists g, bg. rewrite list_lookup_insert_ne, list_lookup_insert_eq by done. split_and!; [done|done|]. simpl. exact Hq.
Qed.

Lemma wf_get_info w bs i b : wf w bs -> bs !! i = Some b -> get_info (Z.of_nat i) w = Ret (info_of b, w).
Proof. intros Hw Hi. apply get_info_eq. rewrite Nat2Z.id. apply (wf_blocks _ _ Hw i b Hi). Qed.

(** The first clean block. *)
Lemma find_clean_spec w bs n i :
  wf w bs -> (i + n = N)%nat ->
  (exists g, (i <= g)%nat /\ bs !! g = Some (mk_blk BLK_STATE_CLEAN []) /\ find_clean n (Z.of_nat i) w = Ret (Some (Z.of_nat g), w)) \/
  (find_clean n (Z.of_nat i) w = Ret (None, w) /\ forall g b, (i <= g)%nat -> bs !! g = Some b -> b_state b <> BLK_STATE_CLEAN).
Proof.
  intros Hw. destruct (wf_num _ _ Hw) as [Hn HN]. revert i. induction n as [|n IH]; intros i Hi.
  - right. split; [done|]. intros g b Hg Hb. apply lookup_lt_Some in Hb. lia.
  - destruct (lookup_lt_is_Some_2 bs i) as [b Hb]; [lia|]. cbn [find_clean].
    rewrite (bind_step _ _ _ _ _ (wf_get_info w bs i b Hw Hb)). cbn [bstate info_of].
    destruct (Z.eqb_spec (b_state b) BLK_STATE_CLEAN) as [Hc|Hc].
    + left. exists i. split; [lia|]. split; [|done]. rewrite Hb. f_equal. destruct b as [s es]. simpl in *.
      pose proof (bo_clean _ _ _ _ (wf_blocks _ _ Hw i _ Hb) Hc) as He. simpl in He. by subst.
    + replace (Z.of_nat i + 1) with (Z.of_nat (S i)) by lia. destruct (IH (S i)) as [(g & Hg & Hgb & Hr)|[Hr Hall]]; [lia| |].
      * left. exists g. split; [lia|done].
      * right. split; [done|]. intros g c Hg Hgc. destruct (decide (i = g)) as [<-|]; [congruence|]. apply (Hall g); [lia|done].
Qed.

Lemma cleans_pos bs : 0 < cleans bs -> exists g b, bs !! g = Some b /\ b_state b = BLK_STATE_CLEAN.
Proof.
  unfold cleans. intros Hc. destruct (List.filter is_clean bs) as [|b l] eqn:Hf; [simpl in Hc; lia|].
  assert (Hin : List.In b (List.filter is_clean bs)) by (rewrite Hf; by left). apply List.filter_In in Hin as [Hin Hb].
  apply list_elem_of_In, list_elem_of_lookup in Hin as [g Hg]. exists g, b. split; [done|]. by apply Z.eqb_eq.
Qed.

(** The loop over the blocks: it collects a dirty block, or there is none on its way. *)
Lemma gc_loop_spec w0 w bs g n i j :
  wf w0 bs -> bs !! g = Some (mk_blk BLK_STATE_CLEAN []) -> copying w0 w g [] ->
  (j < N)%nat -> (i <= N)%nat -> (rounds j i < n)%nat ->
  (exists k b w', bs !! k = Some b /\ b_state b = BLK_STATE_DIRTY /\
     gc_loop N n (Z.of_nat i) (Z.of_nat j) (Z.of_nat g) w = Ret (true, w') /\ wf w' (collected bs k g b) /\
     moved (flash w0) k g b (flash w')) \/
  (gc_loop N n (Z.of_nat i) (Z.of_nat j) (Z.of_nat g) w = Ret (false, w)).
Proof.
  intros Hw Hg Hc Hj. destruct (wf_num _ _ Hw) as [Hn HN]. revert i. induction n as [|n IH]; intros i Hi Hm; [lia|].
  cbn [gc_loop]. set (k := if decide (i = N) then 0%nat else i).
  replace (if Z.of_nat i =? Z.of_nat N then 0 else Z.of_nat i) with (Z.of_nat k).
  2: { unfold k. destruct (decide (i = N)) as [->|]; [by rewrite Z.eqb_refl|]. by rewrite (proj2 (Z.eqb_neq _ _)) by lia. }
  assert (Hk : (k < N)%nat) by (unfold k; destruct (decide (i = N)); lia).
  destruct (lookup_lt_is_Some_2 bs k) as [b Hb]; [lia|].
  assert (Hgi : exists s, get_info (Z.of_nat k) w = Ret (mk_info s (b_state b), w)).
  { destruct Hc as [_ _ _ C3 _]. unfold get_info. rewrite Nat2Z.id, C3. simpl. destruct (decide (g = k)) as [<-|Hne].
    - rewrite list_lookup_insert_eq by (rewrite (wf_infos _ _ Hw); lia). assert (b = mk_blk BLK_STATE_CLEAN []) as -> by congruence. eauto.
    - rewrite list_lookup_insert_ne by done. rewrite (bo_info _ _ _ _ (wf_blocks _ _ Hw k b Hb)). eauto. }
  destruct Hgi as [s Hgi]. rewrite (bind_step _ _ _ _ _ Hgi). cbn [bstate].
  destruct (Z.eqb_spec (b_state b) BLK_STATE_DIRTY) as [Hd|Hd].
  - left. destruct (collect_wf w0 w bs k g b Hw Hb Hd Hg Hc) as (w' & Hr & Hw' & Hm'). by exists k, b, w'.
  - destruct (Z.eqb_spec (Z.of_nat k) (Z.of_nat j)) as [Hkj|Hkj]; [by right|].
    rewrite u8_id by kvlia. replace (Z.of_nat k + 1) with (Z.of_nat (S k)) by lia. apply IH; [lia|].
    unfold rounds, k in *. destruct (decide (i = N)) as [->|].
    + destruct (Nat.ltb_spec j N), (Nat.ltb_spec j 1); lia.
    + destruct (Nat.ltb_spec j i), (Nat.ltb_spec j (S i)); lia.
Qed.

Lemma gc_exit_wf w bs : wf w bs ->
  exists w', gc_exit w = Ret (tt, w') /\ wf w' bs /\ gc_triggered (mgr w') = 0 /\ write_pos (mgr w') = write_pos (mgr w) /\ flash w' = flash w.
Proof. intros Hw. eexists. split; [apply modify_eq|]. split; [|done]. apply (wf_ext w); try done. apply Hw. Qed.

(** The store after a collection. *)
Definition gc_result (bs bs' : list blk) : Prop :=
  bs' = bs \/ exists i g b, bs !! i = Some b /\ b_state b = BLK_STATE_DIRTY /\
    bs !! g = Some (mk_blk BLK_STATE_CLEAN []) /\ bs' = collected bs i g b.

(** The same with the flash. *)
Definition gc_traced (bs : list blk) f (bs' : list blk) f' : Prop :=
  (bs' = bs /\ f' = f) \/ exists i g b, bs !! i = Some b /\ b_state b = BLK_STATE_DIRTY /\
    bs !! g = Some (mk_blk BLK_STATE_CLEAN []) /\ bs' = collected bs i g b /\ moved f i g b f'.

Lemma gc_traced_result bs f bs' f' : gc_traced bs f bs' f' -> gc_result bs bs'.
Proof. intros [[-> _]|(i & g & b & Hi & Hd & Hg & -> & _)]; [by left|right; by exists i, g, b]. Qed.

Lemma kv_gc_spec w bs : wf w bs ->
  exists w' bs', qm_kv_gc N w = Ret (tt, w') /\ wf w' bs' /\ gc_traced bs (flash w) bs' (flash w') /\ pairs bs' ≡ₚ pairs bs /\
    gc_triggered (mgr w') = 0.
Proof.
  intros Hw. destruct (wf_num _ _ Hw) as [Hn HN]. unfold qm_kv_gc.
  assert (Hgm : get_mgr w = Ret (mgr w, w)) by done. rewrite (bind_step _ _ _ _ _ Hgm).
  destruct (gc_exit_wf w bs Hw) as (w' & He & Hw' & Hg' & _ & Hf').
  destruct (clean_blk_nums (mgr w) =? 0); [exists w', bs; split_and!; try done; by left|].
  destruct (find_clean_spec w bs N 0 Hw eq_refl) as [(g & _ & Hg & Hr)|[Hr _]]; change (Z.of_nat 0) with 0 in Hr; rewrite (bind_step _ _ _ _ _ Hr).
  2: { exists w', bs. split_and!; try done. by left. }
  pose proof (lookup_lt_Some _ _ _ Hg) as Hgl. rewrite (bind_step _ _ _ _ _ (modify_eq _ _)), shiftl_base by lia.
  rewrite (u16_id (base g + BLK_HEADER_SIZE)) by (unfold base; kvlia).
  set (w1 := mk_world (upd_write_pos (base g + BLK_HEADER_SIZE) (mgr w)) (flash w) (oom w)).
  destruct (wf_blocks _ _ Hw g _ Hg) as [G1 G2 _ _ _].
  assert (Hc : copying w w1 g []).
  { split; [constructor|apply same_but_refl|done| |apply Hw]. unfold w1. simpl. rewrite Z.add_0_r. f_equal.
    unfold upd_info. destruct (mgr w). simpl in *. f_equal. symmetry. by apply list_insert_id. }
  destruct (wf_write _ _ Hw) as (j & b & Hj & Hnc & Hp). destruct (wf_blocks _ _ Hw j b Hj) as [[_ _ L3 L4] _ _ _ _].
  pose proof (lookup_lt_Some _ _ _ Hj) as Hjn. pose proof (total_nonneg _ L3) as Ht.
  assert (Hsh : Z.shiftr (write_pos (mgr w)) BLK_BITS = Z.of_nat j).
  { rewrite Hp. unfold BLK_BITS, base. rewrite Z.shiftr_div_pow2 by lia. change (2 ^ 12) with 4096.
    unfold BLK_SIZE, BLK_HEADER_SIZE in *. rewrite <- Z.add_assoc, Z.div_add_l, Z.div_small by lia. lia. }
  rewrite Hsh, u8_id by kvlia. replace (Z.of_nat j + 1) with (Z.of_nat (S j)) by lia.
  destruct (gc_loop_spec w w1 bs g (S N) (S j) j Hw Hg Hc) as [(k & c & w2 & Hk & Hd & Hr2 & Hw2 & Hm2)|Hr2];
    [lia|lia|unfold rounds; destruct (Nat.ltb_spec j (S j)); lia|..]; rewrite (bind_step _ _ _ _ _ Hr2).
  - destruct (gc_exit_wf w2 _ Hw2) as (w3 & He3 & Hw3 & Hg3 & _ & Hf3).
    exists w3, (collected bs k g c). split; [exact He3|]. split; [done|]. split; [right; exists k, g, c; by rewrite Hf3|]. split; [|done].
    apply collected_pairs; [done..|]. intros ->. assert (c = mk_blk BLK_STATE_CLEAN []) as -> by congruence. done.
  - rewrite (bind_step _ _ _ _ _ (modify_eq _ _)). cbn [mgr flash oom w1].
    match goal with |- context [gc_exit ?w3] => destruct (gc_exit_wf w3 bs) as (w4 & He4 & Hw4 & Hg4 & _ & Hf4) end.
    { apply (wf_ext w); try done. apply Hw. }
    exists w4, bs. split; [exact He4|]. split_and!; try done. by left.
Qed.

(** C5: When no allocation fails (part of [wf]), garbage collection keeps the abstract map.
    It empties one dirty block, whose live entries move to a clean one, or changes
    nothing; the number of clean blocks stays the same. *)
Theorem kv_gc_refines w bs :
  wf w bs -> uniq bs ->
  exists w' bs', qm_kv_gc N w = Ret (tt, w') /\ wf w' bs' /\ uniq bs' /\ contents bs' = contents bs /\
    gc_result bs bs' /\ gc_triggered (mgr w') = 0.
Proof.
  intros Hw Hu. destruct (kv_gc_spec w bs Hw) as (w' & bs' & Hr & Hw' & Hres%gc_traced_result & Hp & Hg).
  destruct (contents_perm bs bs' Hu Hp) as [Hc Hu']. by exists w', bs'.
Qed.

(** ** Setting: qm_kv_set *)

Lemma pairs_killed bs j b es1 x es2 :
  bs !! j = Some b -> b_entries b = es1 ++ x :: es2 -> e_live x = true ->
  (e_key x, e_val x) :: pairs (<[j := killed b es1 x es2]> bs) ≡ₚ pairs bs.
Proof.
  intros Hj He Hl. pose proof (pairs_insert bs j b (killed b es1 x es2) Hj) as Hp. rewrite <- (live_killed b es1 x es2) in Hp by done.
  apply (Permutation_app_inv_r (live_of (killed b es1 x es2))). rewrite <- Hp. solve_Permutation.
Qed.

Lemma contents_add bs bs' k v : uniq bs -> contents bs !! k = None -> pairs bs' ≡ₚ (k, v) :: pairs bs ->
  contents bs' = <[k := v]> (contents bs) /\ uniq bs'.
Proof.
  intros Hu Hk Hp. assert (Hn : base.NoDup ((k, v) :: pairs bs).*1).
  { simpl. apply NoDup_cons_2; [|done]. by apply not_elem_of_list_to_map_2 in Hk. }
  assert (Hu' : uniq bs') by (unfold uniq; by rewrite Hp). split; [|done].
  unfold contents. by rewrite (list_to_map_proper (M := gmap (list Z)) (pairs bs') ((k, v) :: pairs bs)).
Qed.

(** Storing the value once the collector is done. *)
Definition set_now (key val : list Z) : M Z :=
  item ← kv_item_get N key;
  match item with
  | Some x => kv_item_update N search_fuel x key val
  | None => kv_item_store N search_fuel key val 0
  end.

Definition set_result (key val : list Z) (bs : list blk) (full : Prop) (r : outcome (Z * world F)) : Prop :=
  exists ret w' bs', r = Ret (ret, w') /\ wf w' bs' /\ uniq bs' /\
    ((ret = RES_OK /\ contents bs' = <[key := val]> (contents bs)) \/
     (ret = RES_NO_SPACE /\ contents bs' = contents bs /\ gc_triggered (mgr w') <> 0 /\ full)).

(** Writing the new item and deleting the old one. *)
Lemma update_refines w bs j b es1 x es2 val :
  wf w bs -> uniq bs -> (N < search_fuel)%nat -> entry_ok (mk_entry (e_key x) val 0 true) ->
  can_place (elen (mk_entry (e_key x) val 0 true)) w bs ->
  bs !! j = Some b -> b_entries b = es1 ++ x :: es2 -> e_live x = true ->
  let q := base j + BLK_HEADER_SIZE + total es1 in
  set_result (e_key x) val bs (no_room (elen (mk_entry (e_key x) val 0 true)) w bs)
    ((ret ← kv_item_store N search_fuel (e_key x) val q;
      if negb (ret =? RES_OK) then mret ret else kv_item_del_self (found_item (x, q))) w).
Proof.
  intros Hw Hu Hf Hok Hcan Hj He Hl q. destruct (wf_num _ _ Hw) as [Hn HN]. pose proof (lookup_lt_Some _ _ _ Hj) as Hjn.
  destruct (wf_blocks _ _ Hw j b Hj) as [[_ _ L3 L4] _ _ _ _]. rewrite He in L3, L4.
  apply Forall_app in L3 as [Hok1 Hok2]. apply Forall_cons in Hok2 as [Hx Hok2].
  pose proof (total_nonneg _ Hok1). pose proof (total_nonneg _ Hok2). destruct (elen_bounds x Hx) as (_ & _ & Hbx).
  rewrite total_app in L4. change (total (x :: es2)) with (elen x + total es2) in L4.
  assert (Hokq : entry_ok (mk_entry (e_key x) val q true)).
  { destruct Hok as [K1 K2 K3 _]. split; [done..|]. simpl. unfold q, base. kvlia. }
  destruct (item_store_refines (e_key x) val q w bs Hw Hf Hokq Hcan) as (r & w1 & bs1 & bs0 & f0 & Hr & Hw1 & Hgr & _ & Hcase).
  rewrite (bind_step _ _ _ _ _ Hr). pose proof (pairs_killed bs j b es1 x es2 Hj He Hl) as Hold.
  set (rest := pairs (<[j := killed b es1 x es2]> bs)) in *.
  destruct Hcase as [(-> & Hp & _)|(-> & Hp & _ & _ & Hg & Hfull)]; cbn [negb Z.eqb RES_OK RES_NO_SPACE].
  - destruct (Hgr j b es1 x es2 Hj He) as (b1 & es3 & Hj1 & He1).
    destruct (mark_deleted_wf w1 bs1 j b1 es1 x (es2 ++ es3) q Hw1 Hj1 He1 Hl eq_refl) as (w2 & Hr2 & Hw2 & Hp2 & _).
    set (bs2 := <[j := killed b1 es1 x (es2 ++ es3)]> bs1) in *.
    assert (Hfin : pairs bs2 ≡ₚ (e_key x, val) :: rest).
    { apply (Permutation_cons_inv (a := (e_key x, e_val x))). rewrite Hp2, Hp, <- Hold. apply Permutation_swap. }
    assert (Hun : base.NoDup ((e_key x, e_val x) :: rest).*1) by (unfold uniq in Hu; by rewrite Hold).
    assert (Hu2 : uniq bs2) by (unfold uniq; by rewrite Hfin).
    exists RES_OK, w2, bs2. split; [exact Hr2|]. split; [done|]. split; [done|]. left. split; [done|].
    unfold contents. rewrite (list_to_map_proper (M := gmap (list Z)) (pairs bs2) ((e_key x, val) :: rest)) by done.
    rewrite <- (list_to_map_proper (M := gmap (list Z)) ((e_key x, e_val x) :: rest) (pairs bs)) by done.
    simpl. by rewrite insert_insert_eq.
  - destruct (contents_perm bs bs1 Hu Hp) as [Hc Hu']. exists RES_NO_SPACE, w1, bs1. split_and!; try done. by right.
Qed.

Lemma set_now_refines key val w bs :
  wf w bs -> uniq bs -> (N < search_fuel)%nat -> entry_ok (mk_entry key val 0 true) ->
  can_place (elen (mk_entry key val 0 true)) w bs ->
  set_result key val bs (no_room (elen (mk_entry key val 0 true)) w bs) (set_now key val w).
Proof.
  intros Hw Hu Hf Hok Hcan. unfold set_now. rewrite (bind_step _ _ _ _ _ (item_get_eq key w bs Hw)).
  pose proof (find_blocks_lookup key 0 bs) as Hlk. destruct (find_blocks key 0 bs) as [[x p]|] eqn:Hfind; simpl in Hlk |- *.
  - apply find_blocks_spec in Hfind as (j & b & es1 & es2 & Hj & He & -> & Hl & <-). simpl.
    unfold kv_item_update. set (q := base j + BLK_HEADER_SIZE + total es1).
    change (KvMgr.val_len (KvMgr.hdr (found_item (x, q)))) with (Z.of_nat (length (e_val x))).
    destruct (Z.eqb_spec (Z.of_nat (length (e_val x))) (Z.of_nat (length val))) as [Hlen|Hlen]; cbn [andb];
      [case_bool_decide as Hv|].
    + exists RES_OK, w, bs. split_and!; try done. left. split; [done|]. rewrite insert_id; [done|]. rewrite <- Hlk, <- Hv. simpl. unfold data_of.
      by rewrite Nat2Z.id, drop_app_length, take_ge by lia.
    + by apply (update_refines w bs j b es1 x es2 val).
    + by apply (update_refines w bs j b es1 x es2 val).
  - destruct (item_store_refines key val 0 w bs Hw Hf Hok Hcan) as (r & w' & bs' & bs1 & f1 & Hr & Hw' & _ & _ & Hcase).
    exists r, w', bs'. split; [done|]. split; [done|]. destruct Hcase as [(-> & Hp & _)|(-> & Hp & _ & _ & Hg & Hfull)].
    + destruct (contents_add bs bs' key val Hu (eq_sym Hlk) Hp) as [Hc Hu']. split; [done|by left].
    + destruct (contents_perm bs bs' Hu Hp) as [Hc Hu']. split; [done|by right].
Qed.

Lemma clean_can_place n w bs g : n <= ITEM_MAX_LEN -> bs !! g = Some (mk_blk BLK_STATE_CLEAN []) -> can_place n w bs.
Proof. intros Hn Hg. right. right. exists g, (mk_blk BLK_STATE_CLEAN []). split; [done|]. unfold fits. change (total (b_entries (mk_blk BLK_STATE_CLEAN []))) with 0. kvlia. Qed.

(** The search still ends after a collection. *)
Lemma gc_can_place n w bs : n <= ITEM_MAX_LEN -> wf w bs -> can_place n w bs ->
  exists w1 bs1, qm_kv_gc N w = Ret (tt, w1) /\ wf w1 bs1 /\ gc_result bs bs1 /\ pairs bs1 ≡ₚ pairs bs /\ can_place n w1 bs1.
Proof.
  intros Hn Hw Hcan. destruct (Z.eqb_spec (clean_blk_nums (mgr w)) 0) as [H0|H0].
  - destruct (gc_exit_wf w bs Hw) as (w1 & He & Hw1 & _ & Hp & _). exists w1, bs. split.
    { unfold qm_kv_gc. assert (Hgm : get_mgr w = Ret (mgr w, w)) by done. rewrite (bind_step _ _ _ _ _ Hgm), H0. exact He. }
    split_and!; [done|by left|done|]. unfold can_place. by rewrite Hp.
  - destruct (kv_gc_spec w bs Hw) as (w1 & bs1 & Hr & Hw1 & Hres%gc_traced_result & Hp & _). exists w1, bs1. split_and!; try done.
    destruct Hres as [->|(i & g & b & Hi & _ & Hg & ->)].
    + rewrite (wf_clean _ _ Hw) in H0. destruct (cleans_pos bs) as (g & b & Hg & Hb); [unfold cleans in *; lia|].
      apply (clean_can_place n w1 bs g Hn). rewrite Hg. f_equal. destruct b as [s es]. simpl in Hb. subst s. f_equal.
      apply (bo_clean _ _ _ _ (wf_blocks _ _ Hw g _ Hg)). done.
    + apply (clean_can_place n w1 _ i Hn). unfold collected. apply list_lookup_insert_eq. rewrite length_insert.
      by apply (lookup_lt_Some _ _ _ Hi).
Qed.

(** C4: [qm_kv_set] puts the pair into the abstract map, or returns [RES_NO_SPACE], leaves
    the map as it is and starts the collector; the latter only when there is no room
    after the pending collection.  A collection that is pending is waited for.  No
    allocation fails (part of [wf]), the lengths are in range, and the search for a
    place ends ([can_place]): with more than two blocks, the write position in block 0
    and no room anywhere the call never returns ([full_store_hangs]). *)
Theorem kv_set_refines w bs key val n :
  wf w bs -> uniq bs -> (N < search_fuel)%nat ->
  0 < Z.of_nat (length key) <= ITEM_MAX_KEY_LEN -> 0 < n <= ITEM_MAX_VAL_LEN -> n <= Z.of_nat (length val) ->
  List.Forall is_u8 key -> List.Forall is_u8 val ->
  let v := take (Z.to_nat n) val in
  let size := elen (mk_entry key v 0 true) in
  can_place size w bs ->
  set_result key v bs (exists w1 bs1, wf w1 bs1 /\ gc_result bs bs1 /\ (gc_triggered (mgr w) = 0 -> bs1 = bs) /\ no_room size w1 bs1)
    (qm_kv_set N search_fuel (Some key) (Some val) n w).
Proof.
  intros Hw Hu Hf Hk Hn Hnv Hku Hvu v size Hcan.
  assert (Hok : entry_ok (mk_entry key v 0 true)).
  { assert (Hlv : length v = Z.to_nat n) by (unfold v; rewrite length_take; lia). split; simpl; [done|lia| |by compute].
    apply Forall_app. split; [done|]. by apply Forall_take. }
  destruct (elen_bounds _ Hok) as (_ & _ & Hsize). fold size in Hsize.
  unfold qm_kv_set. destruct (Z.leb_spec n 0), (Z.gtb_spec (Z.of_nat (length key)) ITEM_MAX_KEY_LEN), (Z.gtb_spec n ITEM_MAX_VAL_LEN); try lia.
  cbn [orb]. assert (Hgm : get_mgr w = Ret (mgr w, w)) by done. rewrite (bind_step _ _ _ _ _ Hgm). fold v.
  assert (Hgc : exists w1 bs1, (if negb (gc_triggered (mgr w) =? 0) then
      modify (fun g => upd_gc (gc_triggered g) (u8 (gc_waiter g + 1)) g);; qm_kv_gc N else mret tt) w = Ret (tt, w1) /\
    wf w1 bs1 /\ gc_result bs bs1 /\ (gc_triggered (mgr w) = 0 -> bs1 = bs) /\ pairs bs1 ≡ₚ pairs bs /\ can_place size w1 bs1).
  { destruct (Z.eqb_spec (gc_triggered (mgr w)) 0) as [Hg0|Hg0]; cbn [negb].
    - exists w, bs. split_and!; try done. by left.
    - rewrite (bind_step _ _ _ _ _ (modify_eq _ _)).
      match goal with |- context [qm_kv_gc N ?w0] => destruct (gc_can_place size w0 bs) as (w1 & bs1 & Hr & Hw1 & Hres & Hp & Hc1) end;
        [lia|apply (wf_ext w); try done; apply Hw|done|]. by exists w1, bs1. }
  destruct Hgc as (w1 & bs1 & Hr & Hw1 & Hres & Hsame & Hp & Hc1). rewrite (bind_step _ _ _ _ _ Hr).
  destruct (contents_perm bs bs1 Hu Hp) as [Hcont Hu1].
  destruct (set_now_refines key v w1 bs1 Hw1 Hu1 Hf Hok Hc1) as (ret & w' & bs' & Hset & Hw' & Hu' & Hcase).
  exists ret, w', bs'. split; [exact Hset|]. split; [done|]. split; [done|]. rewrite <- Hcont.
  destruct Hcase as [Hcase|(-> & Hc & Hg & Hfull)]; [by left|right]. split_and!; try done. by exists w1, bs1.
Qed.

(** ** Deleting many keys *)

(** A callback that may delete the entry it is called with. *)
Definition deletes (func : item_func) (P : entry -> bool) : Prop :=
  forall w x p, oom w = [] -> entry_ok x -> rd (flash w) p (elen x) = enc_entry x ->
    func (item_of x p) w =
    ((if P x then kv_item_del_self (item_of x p) else mret RES_OK);; mret (RES_CONT, item_of x p)) w.

Lemma del_all_deletes : deletes item_del_all_cb (fun _ => true).
Proof.
  intros w x p Ho Hx He. unfold item_del_all_cb. change (KvMgr.key_len (hdr (item_of x p))) with (Z.of_nat (length (e_key x))).
  destruct (Z.gtb_spec (Z.of_nat (length (e_key x))) 0) as [_|?]; [done|]. destruct Hx. lia.
Qed.

Lemma prefix_deletes prefix : deletes (item_del_by_prefix_cb prefix) (fun x => bool_decide (take (length prefix) (e_key x) = prefix)).
Proof.
  intros w x p Ho Hx He. unfold item_del_by_prefix_cb. change (KvMgr.key_len (hdr (item_of x p))) with (Z.of_nat (length (e_key x))).
  destruct (Z.ltb_spec (Z.of_nat (length (e_key x))) (Z.of_nat (length prefix))) as [Hl|Hl].
  - rewrite bool_decide_false; [done|]. intros Heq. apply (f_equal length) in Heq. rewrite length_take in Heq. lia.
  - rewrite (bind_step _ _ _ _ _ (malloc_ok _ Ho)). cbn [negb].
    assert (Hr : raw_read (pos (item_of x p) + ITEM_HEADER_SIZE) (Z.of_nat (length (e_key x))) w = Ret (e_key x, w)).
    { unfold raw_read. do 2 f_equal. by apply rd_key. }
    by rewrite (bind_step _ _ _ _ _ Hr).
Qed.

(** An entry after the traversal. *)
Definition kill_if (P : entry -> bool) (x : entry) : entry := if e_live x && P x then kill x else x.

Lemma total_kill_if P es : total (kill_if P <$> es) = total es.
Proof.
  induction es as [|x es IH]; [done|]. rewrite fmap_cons.
  change (elen (kill_if P x) + total (kill_if P <$> es) = elen x + total es). rewrite IH. unfold kill_if. by destruct (_ && _).
Qed.

Lemma next_del fuel func P w bs j b es1 es2 :
  deletes func P -> wf w bs -> bs !! j = Some b -> b_entries b = es1 ++ es2 ->
  let p := base j + BLK_HEADER_SIZE + total es1 in
  base j + BLK_SIZE - p <= 8 * Z.of_nat fuel ->
  exists w' b', next_round fuel func (Z.of_nat j) p (base j + BLK_SIZE) w = Ret (None, w') /\
    wf w' (<[j := b']> bs) /\ b_entries b' = es1 ++ (kill_if P <$> es2).
Proof.
  intros Hd. revert fuel w bs b es1. induction es2 as [|x es2 IH]; intros fuel w bs b es1 Hw Hj He p Hf;
    destruct (wf_blocks _ _ Hw j b Hj) as [B1 B2 B3 B4 B5]; destruct (wf_num _ _ Hw) as [Hn HN];
    pose proof (lookup_lt_Some _ _ _ Hj) as Hjn; destruct B1 as [L1 L2 L3 L4]; rewrite He in L2, L3, L4;
    apply Forall_app in L3 as [Hok1 Hok2]; pose proof (total_nonneg _ Hok1) as Ht1; rewrite total_app in L4.
  - simpl in *. rewrite app_nil_r in *. change (total []) with 0 in L4. destruct fuel as [|fuel]; [unfold p in Hf; kvlia|]. exists w, b.
    rewrite list_insert_id by done. split; [|done].
    rewrite <- (app_nil_r es1) in L2. apply entries_at_app in L2 as [_ L2].
    rewrite next_round_free; [|apply Hw|done]. apply (traverse_end_id _ _ _ _ (info_of b)); [by rewrite Nat2Z.id|unfold p; kvlia|unfold p; kvlia|].
    unfold info_of, p. simpl. rewrite He. lia.
  - apply Forall_cons in Hok2 as [Hx Hok2]. destruct (elen_bounds x Hx) as (_ & _ & Hbx). pose proof (total_nonneg _ Hok2) as Ht2.
    change (total (x :: es2)) with (elen x + total es2) in L4. destruct fuel as [|fuel]; [unfold p in Hf; kvlia|].
    apply entries_at_app in L2 as [_ L2]. unfold next_round. fold p in L2.
    destruct (Z.gtb_spec (base j + BLK_SIZE) (p + ITEM_HEADER_SIZE)) as [_|?]; [|unfold p in *; kvlia].
    rewrite (loop_entry _ _ _ _ _ _ x es2); [|apply Hw|done|done|unfold p, base; kvlia|unfold p, base; kvlia].
    assert (Hp : p + elen x = base j + BLK_HEADER_SIZE + total (es1 ++ [x])) by (rewrite total_app; unfold p; simpl; lia).
    destruct (e_live x) eqn:Hl.
    + rewrite (bind_step (func (item_of x p)) _ w (RES_CONT, item_of x p)
        (match (if P x then mark_deleted p w else Ret (RES_OK, w)) with Ret (_, w1) => w1 | _ => w end)).
      2: { rewrite (Hd w x p (wf_oom _ _ Hw) Hx (proj1 L2)). destruct (P x) eqn:HP; [|done].
           destruct (mark_deleted_wf w bs j b es1 x es2 p Hw Hj He Hl eq_refl) as (w1 & Hr & _).
           unfold kv_item_del_self. change (pos (item_of x p)) with p. rewrite (bind_step _ _ _ _ _ Hr), Hr. done. }
      cbn [fst snd]. change (RES_CONT =? RES_OK) with false. change (negb (RES_CONT =? RES_CONT)) with false. cbn match.
      destruct (P x) eqn:HP.
      * destruct (mark_deleted_wf w bs j b es1 x es2 p Hw Hj He Hl eq_refl) as (w1 & -> & Hw1 & _ & _).
        destruct (IH fuel w1 _ (killed b es1 x es2) (es1 ++ [kill x]) Hw1) as (w' & b' & Hr & Hw' & He').
        { apply list_lookup_insert_eq. lia. }
        { simpl. by rewrite <- app_assoc. }
        { rewrite total_app. simpl. rewrite elen_kill. unfold p in Hf. kvlia. }
        rewrite list_insert_insert_eq in Hw'. exists w', b'. split_and!; [|done|].
        -- rewrite Hp. rewrite !total_app in *. exact Hr.
        -- rewrite He', <- app_assoc. simpl. unfold kill_if at 2. by rewrite Hl, HP.
      * destruct (IH fuel w bs b (es1 ++ [x]) Hw Hj) as (w' & b' & Hr & Hw' & He').
        { by rewrite <- app_assoc. }
        { rewrite <- Hp. unfold p in *. kvlia. }
        exists w', b'. split_and!; [by rewrite Hp|done|]. rewrite He', <- app_assoc. simpl. unfold kill_if at 2. by rewrite Hl, HP.
    + assert (Hu : b_state b <> BLK_STATE_USED).
      { intros HU. apply B5 in HU. rewrite He in HU. apply Forall_app in HU as [_ HU]. apply Forall_cons in HU as [HU _]. congruence. }
      rewrite (bind_step _ _ _ _ _ (mark_dirty_id (Z.of_nat j) w (info_of b) ltac:(rewrite Nat2Z.id; exact B2) Hu)).
      destruct (IH fuel w bs b (es1 ++ [x]) Hw Hj) as (w' & b' & Hr & Hw' & He').
      { by rewrite <- app_assoc. }
      { rewrite <- Hp. unfold p in *. kvlia. }
      exists w', b'. split_and!; [by rewrite Hp|done|]. rewrite He', <- app_assoc. simpl. unfold kill_if at 2. by rewrite Hl.
Qed.

Lemma each_block_del func P n i w bs :
  deletes func P -> wf w bs -> (i + n = N)%nat ->
  exists w' bs', each_block n (Z.of_nat i) func w = Ret (RES_OK, w') /\ wf w' bs' /\
    forall k b, bs !! k = Some b -> exists b', bs' !! k = Some b' /\
      b_entries b' = if (k <? i)%nat then b_entries b else kill_if P <$> b_entries b.
Proof.
  intros Hd. revert i w bs. induction n as [|n IH]; intros i w bs Hw Hi; destruct (wf_num _ _ Hw) as [Hn HN].
  - exists w, bs. split_and!; [done..|]. intros k b Hk. exists b. split; [done|]. apply lookup_lt_Some in Hk.
    by destruct (Nat.ltb_spec k i); [|lia].
  - destruct (lookup_lt_is_Some_2 bs i) as [b Hb]; [lia|]. cbn [each_block].
    destruct (next_del TRAVERSE_FUEL func P w bs i b [] (b_entries b) Hd Hw Hb eq_refl) as (w1 & b1 & Hr & Hw1 & He1);
      [change (total []) with 0; unfold TRAVERSE_FUEL; kvlia|].
    change (total []) with 0 in Hr. rewrite Z.add_0_r in Hr.
    assert (Ht : kv_item_traverse func (Z.of_nat i) w = Ret (None, w1)) by (rewrite traverse_start by lia; done).
    rewrite (bind_step _ _ _ _ _ Ht). replace (Z.of_nat i + 1) with (Z.of_nat (S i)) by lia.
    destruct (IH (S i) w1 _ Hw1) as (w' & bs' & Hr' & Hw' & Hall); [lia|]. exists w', bs'. split_and!; [done..|].
    intros k c Hk. destruct (decide (i = k)) as [<-|Hne].
    + destruct (Hall i b1) as (b' & Hb' & He'); [apply list_lookup_insert_eq; lia|]. exists b'. split; [done|].
      rewrite He'. destruct (Nat.ltb_spec i (S i)), (Nat.ltb_spec i i); try lia. rewrite He1. by assert (c = b) as -> by congruence.
    + destruct (Hall k c) as (b' & Hb' & He'); [by rewrite list_lookup_insert_ne|]. exists b'. split; [done|].
      rewrite He'. destruct (Nat.ltb_spec k i), (Nat.ltb_spec k (S i)); (done || lia).
Qed.

Lemma live_kill_if (Pk : list Z -> bool) s s' es :
  live_of (mk_blk s' (kill_if (fun x => Pk (e_key x)) <$> es)) = filter (fun kv => Pk kv.1 = false) (live_of (mk_blk s es)).
Proof.
  unfold live_of. cbn [b_entries]. induction es as [|x es IH]; [done|]. rewrite fmap_cons.
  assert (Hk : kill_if (fun y => Pk (e_key y)) x = if e_live x && Pk (e_key x) then kill x else x) by done. rewrite Hk. clear Hk.
  destruct (e_live x) eqn:Hl, (Pk (e_key x)) eqn:HP; cbn [andb List.filter kill e_live]; rewrite ?Hl, ?fmap_cons.
  - rewrite filter_cons_False by (simpl; congruence). done.
  - rewrite filter_cons_True by done. by rewrite IH.
  - done.
  - done.
Qed.

Lemma map_filter_list (Pk : list Z -> bool) (l : list (list Z * list Z)) :
  (list_to_map (filter (fun kv => Pk kv.1 = false) l) : gmap (list Z) (list Z)) = filter (fun kv => Pk kv.1 = false) (list_to_map l : gmap (list Z) (list Z)).
Proof.
  induction l as [|[k v] l IH]; [done|]. destruct (Pk k) eqn:HP.
  - rewrite filter_cons_False by (simpl; congruence). simpl. rewrite map_filter_insert_False by (simpl; congruence).
    rewrite IH. apply map_eq. intros k'. rewrite !map_lookup_filter. destruct (decide (k = k')) as [<-|Hne].
    + rewrite lookup_delete_eq. simpl. destruct (list_to_map l !! k) as [u|]; simpl; [|done]. rewrite HP. done.
    + by rewrite lookup_delete_ne.
  - rewrite filter_cons_True by done. simpl. rewrite map_filter_insert_True by done. by rewrite IH.
Qed.

Lemma pairs_kill_if (Pk : list Z -> bool) bs bs' :
  length bs' = length bs ->
  (forall k b, bs !! k = Some b -> exists b', bs' !! k = Some b' /\ b_entries b' = kill_if (fun x => Pk (e_key x)) <$> b_entries b) ->
  pairs bs' = filter (fun kv => Pk kv.1 = false) (pairs bs).
Proof.
  revert bs'. induction bs as [|b bs IH]; intros [|b' bs'] Hl Hall; try done. unfold pairs in *. simpl.
  rewrite filter_app. f_equal.
  - destruct (Hall 0%nat b eq_refl) as (c & [= <-] & He). destruct b as [s es], b' as [s' es']. simpl in He. subst es'. apply live_kill_if.
  - apply IH; [simpl in Hl; lia|]. intros k c Hk. by apply (Hall (S k)).
Qed.

Lemma del_many func (Pk : list Z -> bool) w bs :
  deletes func (fun x => Pk (e_key x)) -> wf w bs -> uniq bs ->
  exists w' bs', each_block N 0 func w = Ret (RES_OK, w') /\ wf w' bs' /\ uniq bs' /\
    contents bs' = filter (fun kv => Pk kv.1 = false) (contents bs).
Proof.
  intros Hd Hw Hu. destruct (each_block_del func _ N 0 w bs Hd Hw eq_refl) as (w' & bs' & Hr & Hw' & Hall). exists w', bs'.
  assert (Hp : pairs bs' = filter (fun kv => Pk kv.1 = false) (pairs bs)).
  { apply pairs_kill_if; [|exact Hall]. by rewrite (proj1 (wf_num _ _ Hw')), (proj1 (wf_num _ _ Hw)). }
  split_and!; try done.
  - unfold uniq. rewrite Hp. by apply NoDup_fmap_filter.
  - unfold contents. rewrite Hp. apply map_filter_list.
Qed.

(** [qm_kv_del_by_prefix] removes exactly the keys that begin with the prefix, and
    [qm_kv_del_all] all keys. *)
Theorem kv_del_many_refines w bs prefix :
  wf w bs -> uniq bs ->
  (exists w' bs', qm_kv_del_by_prefix N prefix w = Ret (RES_OK, w') /\ wf w' bs' /\ uniq bs' /\
     contents bs' = filter (fun kv => bool_decide (take (length prefix) kv.1 = prefix) = false) (contents bs)) /\
  (exists w' bs', qm_kv_del_all N w = Ret (RES_OK, w') /\ wf w' bs' /\ contents bs' = ∅).
Proof.
  intros Hw Hu. split.
  - exact (del_many (item_del_by_prefix_cb prefix) (fun k : list Z => bool_decide (take (length prefix) k = prefix)) w bs
      (prefix_deletes prefix) Hw Hu).
  - destruct (del_many _ (fun _ => true) w bs del_all_deletes Hw Hu) as (w' & bs' & Hr & Hw' & _ & Hc). exists w', bs'.
    split_and!; try done. rewrite Hc. apply map_eq. intros k. rewrite map_lookup_filter, lookup_empty.
    by destruct (contents bs !! k).
Qed.

End store.

End KvStore.
