(* ===== verification/KvRecover.v ===== *)
(** * Key-value store: recovery (utility/kv/qm_kvmgr.c)

    [qm_kv_init] scans the blocks of a flash on which the store was shut down or was
    interrupted.  An entry whose origin is still live replaced it and deletes it; a
    block marked clean that holds entries was the target of a collection that did not
    end.  The theorems here say which store the scan leaves. *)

From S2P Require Import Prelude Outcome Flash KvMgr KvStore.
Import list_relations.list list_basics.list Flash KvMgr KvStore.
Open Scope Z_scope.

Module KvRecover.

Section recover.
Context {F : Type} `{!SpiFlash F} (N : nat).
Implicit Types (f : F) (w : world F).

(** ** Positions *)

(** Where entry [n] of block [k] is. *)
Definition epos (k : nat) (b : blk) (n : nat) : Z := base k + BLK_HEADER_SIZE + total (take n (b_entries b)).

Lemma laid_at f k s es n x : laid f k s es -> es !! n = Some x ->
  entry_ok x /\ rd f (base k + BLK_HEADER_SIZE + total (take n es)) (elen x) = enc_entry x /\
  entries_at f (base k + BLK_HEADER_SIZE + total (take n es)) (base k + BLK_SIZE) (drop n es) /\
  0 <= total (take n es) /\ 0 <= total (drop (S n) es) /\ BLK_HEADER_SIZE + total (take n es) + elen x + total (drop (S n) es) < BLK_SIZE.
Proof.
  intros [_ L2 L3 L4] Hn. pose proof (take_drop_middle _ _ _ Hn) as Hsplit. rewrite <- Hsplit in L2, L3, L4.
  apply entries_at_app in L2 as [_ L2]. apply Forall_app in L3 as [L3a L3b]. apply Forall_cons in L3b as [Hx L3b].
  rewrite total_app in L4. change (total (x :: drop (S n) es)) with (elen x + total (drop (S n) es)) in L4.
  split_and!; [done|apply L2|by rewrite (drop_S _ _ _ Hn)|by apply total_nonneg|by apply total_nonneg|lia].
Qed.

(** An entry may be deleted by the scan. *)
Definition fade (x x' : entry) : Prop := x' = x \/ x' = kill x.
Definition fades (bs bs' : list blk) : Prop := Forall2 (fun b b' => Forall2 fade (b_entries b) (b_entries b')) bs bs'.

#[global] Instance fade_refl : Reflexive fade.
Proof. by left. Qed.
#[global] Instance fades_refl : Reflexive fades.
Proof. intros bs. apply Forall_Forall2_diag, Forall_true. intros b. reflexivity. Qed.

Lemma fade_total es es' : Forall2 fade es es' -> total es' = total es.
Proof. induction 1 as [|x x' es es' [->| ->] _ IH]; simpl; [done|unfold total in *; by rewrite IH..]. Qed.

Lemma fade_epos k b b' n : Forall2 fade (b_entries b) (b_entries b') -> epos k b' n = epos k b n.
Proof. intros H. unfold epos. f_equal. by apply fade_total, Forall2_take. Qed.

Lemma fade_kill es n x : es !! n = Some x -> Forall2 fade es (<[n := kill x]> es).
Proof.
  intros Hn. rewrite <- (take_drop_middle _ _ _ Hn) at 1. rewrite (insert_take_drop _ _ _ (lookup_lt_Some _ _ _ Hn)).
  apply Forall2_app; [reflexivity|]. constructor; [by right|reflexivity].
Qed.

Lemma fades_insert bs k b b' : bs !! k = Some b -> Forall2 fade (b_entries b) (b_entries b') -> fades bs (<[k := b']> bs).
Proof.
  intros Hk Hf. rewrite <- (take_drop_middle _ _ _ Hk) at 1. rewrite (insert_take_drop _ _ _ (lookup_lt_Some _ _ _ Hk)).
  apply Forall2_app; [apply fades_refl|]. constructor; [done|apply fades_refl].
Qed.

(** ** Origins *)

(** No byte became the start of an item. *)
Definition calm f f' : Prop := forall a, fl_byte f' a = ITEM_MAGIC_NUM -> fl_byte f a = ITEM_MAGIC_NUM.

Lemma calm_trans f1 f2 f3 : calm f1 f2 -> calm f2 f3 -> calm f1 f3.
Proof. intros H1 H2 a Ha. by apply H1, H2. Qed.

Lemma calm_set_state f p s : Z.testbit s 0 = false -> calm f (set_state f p s).
Proof.
  intros Hs a. unfold set_state. rewrite fl_write. destruct ([s] !! _) as [b|] eqn:Hb; [|done].
  destruct (Z.leb_spec (KV_PARAM_START_ADDRESS + (p + KV_STATE_OFF)) a); [|done]. intros Ha. exfalso.
  apply list_lookup_singleton_Some in Hb as [_ <-]. apply (f_equal (fun z => Z.testbit z 0)) in Ha.
  by rewrite Z.land_spec, Hs, andb_false_r in Ha.
Qed.

Lemma calm_formatted f i : calm f (formatted f i).
Proof.
  intros a. unfold formatted. rewrite fl_write, fl_erase. destruct ((_ <=? a) && _) eqn:Hin.
  - destruct (_ !! _) as [b|] eqn:Hb; [|done]. destruct (KV_PARAM_START_ADDRESS + base i <=? a); [|done].
    apply list_elem_of_lookup_2 in Hb. rewrite !elem_of_cons in Hb.
    destruct Hb as [->|[->|[->|[->|Hb]]]]; [vm_compute; discriminate..|by apply elem_of_nil in Hb].
  - destruct (_ !! _) as [b|] eqn:Hb; [|done]. destruct (Z.leb_spec (KV_PARAM_START_ADDRESS + base i) a) as [Hle|]; [|done]. exfalso.
    apply lookup_lt_Some in Hb. simpl in Hb. destruct (sector_of i) as (He & Hs1 & Hs2). rewrite He in Hin.
    apply andb_false_iff in Hin as [Hin|Hin]; [apply Z.leb_gt in Hin|apply Z.ltb_ge in Hin]; kvlia.
Qed.

(** The recovery has nothing to delete for the live entry [x] at [p]: it is new, was moved
    to the place of its origin, or there is no live item with its key at its origin. *)
Definition quiet f (bs : list blk) (p : Z) (x : entry) : Prop :=
  e_origin x = 0 \/ e_origin x = p \/ fl_byte f (KV_PARAM_START_ADDRESS + e_origin x) <> ITEM_MAGIC_NUM \/
  exists k b n y, bs !! k = Some b /\ b_entries b !! n = Some y /\ e_origin x = epos k b n /\ (e_live y = false \/ e_key y <> e_key x).

Lemma quiet_fades f f' bs bs' p x : calm f f' -> fades bs bs' -> quiet f bs p x -> quiet f' bs' p x.
Proof.
  intros Hc Hf [H|[H|[H|(k & b & n & y & Hk & Hn & Ho & Hy)]]]; [by left|by right; left| |].
  - right. right. left. intros Hm. by apply H, Hc.
  - right. right. right. destruct (Forall2_lookup_l _ _ _ _ _ Hf Hk) as (b' & Hk' & Hb').
    destruct (Forall2_lookup_l _ _ _ _ _ Hb' Hn) as (y' & Hn' & Hy').
    exists k, b', n, y'. rewrite (fade_epos k b b' n) by done. split_and!; [done..|]. destruct Hy' as [->| ->]; [done|by left].
Qed.

(** All live entries are quiet, or all but entry [n] of block [k]. *)
Definition all_quiet f (bs : list blk) : Prop :=
  forall k b n x, bs !! k = Some b -> b_entries b !! n = Some x -> e_live x = true -> quiet f bs (epos k b n) x.

Definition others_quiet f (bs : list blk) (k0 n0 : nat) : Prop :=
  forall k b n x, bs !! k = Some b -> b_entries b !! n = Some x -> e_live x = true -> (k, n) <> (k0, n0) -> quiet f bs (epos k b n) x.

Lemma fades_live bs bs' k b' n x : fades bs bs' -> bs' !! k = Some b' -> b_entries b' !! n = Some x -> e_live x = true ->
  exists b, bs !! k = Some b /\ b_entries b !! n = Some x /\ epos k b' n = epos k b n.
Proof.
  intros Hf Hk Hn Hl. destruct (Forall2_lookup_r _ _ _ _ _ Hf Hk) as (b & Hk' & Hb).
  destruct (Forall2_lookup_r _ _ _ _ _ Hb Hn) as (x0 & Hn' & [->| ->]); [|done].
  exists b. split_and!; [done..|]. by apply fade_epos.
Qed.

Lemma all_quiet_fades f f' bs bs' : calm f f' -> fades bs bs' -> all_quiet f bs -> all_quiet f' bs'.
Proof.
  intros Hc Hf Hq k b' n x Hk Hn Hl. destruct (fades_live _ _ _ _ _ _ Hf Hk Hn Hl) as (b & Hk' & Hn' & ->).
  apply (quiet_fades f _ bs); [done..|]. by apply Hq.
Qed.

Lemma others_quiet_fades f f' bs bs' k0 n0 : calm f f' -> fades bs bs' -> others_quiet f bs k0 n0 -> others_quiet f' bs' k0 n0.
Proof.
  intros Hc Hf Hq k b' n x Hk Hn Hl Hne. destruct (fades_live _ _ _ _ _ _ Hf Hk Hn Hl) as (b & Hk' & Hn' & ->).
  apply (quiet_fades f _ bs); [done..|]. by apply Hq.
Qed.

(** Entry [n] of block [k] replaced the live entry [n1] of block [k1], and this is
    all there is to recover. *)
Record pending f (bs : list blk) (k n k1 n1 : nat) (x : entry) : Prop := {
  pd_new : exists b y, bs !! k = Some b /\ b_entries b !! n = Some y /\ e_live y = true /\ e_key y = e_key x /\
    (exists c, bs !! k1 = Some c /\ b_entries c !! n1 = Some x /\ e_live x = true /\ e_origin y = epos k1 c n1) /\
    e_origin y <> 0 /\ e_origin y <> epos k b n;
  pd_order : k1 = k -> (n1 < n)%nat;
  pd_others : others_quiet f bs k n
}.

(** ** Blocks during the scan *)

(** Stands for the state of a block that has no header. *)
Definition BLANK : Z := 255.

Definition here f (k : nat) (b : blk) : Prop :=
  (b_state b = BLANK /\ b_entries b = [] /\ rd f (base k) BLK_HEADER_SIZE !!! 0%nat <> BLK_MAGIC_NUM) \/
  (INVALID_BLK_STATE (b_state b) = false /\ laid f k (b_state b) (b_entries b)).

Record core w (bs : list blk) : Prop := {
  co_num : length bs = N /\ (2 <= N <= 15)%nat;
  co_oom : oom w = [];
  co_infos : length (block_info (mgr w)) = N;
  co_here : forall k b, bs !! k = Some b -> here (flash w) k b
}.

Lemma here_entry f k b n x : here f k b -> b_entries b !! n = Some x ->
  INVALID_BLK_STATE (b_state b) = false /\ laid f k (b_state b) (b_entries b).
Proof. intros [(_ & He & _)|H] Hn; [|done]. by rewrite He in Hn. Qed.

Lemma here_ext f f' k b : same_on f f' (base k) (base k + BLK_SIZE) -> here f k b -> here f' k b.
Proof.
  intros Hs [(H1 & H2 & H3)|[H1 H2]]; [left|right].
  - split_and!; [done..|]. by rewrite (Hs (base k) BLK_HEADER_SIZE) by kvlia.
  - split; [done|]. by apply (laid_ext f).
Qed.

Lemma here_insert f f' (bs : list blk) j b' : (forall k b, bs !! k = Some b -> here f k b) -> same_but f f' j -> here f' j b' ->
  forall k b, <[j := b']> bs !! k = Some b -> here f' k b.
Proof.
  intros Hh Hs Hj k b. rewrite list_lookup_insert_Some. intros [(-> & <- & _)|[Hne Hk]]; [done|].
  apply (here_ext f); [|by apply Hh]. by apply Hs.
Qed.

Lemma set_state_same_but f k o s : 0 <= o -> o + KV_STATE_OFF < BLK_SIZE -> same_but f (set_state f (base k + o) s) k.
Proof.
  intros Ho Hs. unfold set_state. rewrite <- Z.add_assoc. apply same_but_write; unfold KV_STATE_OFF in *; simpl; kvlia.
Qed.

(** A block in use becomes dirty. *)
Lemma here_dirty f k es : here f k (mk_blk BLK_STATE_USED es) -> here (set_state f (base k) BLK_STATE_DIRTY) k (mk_blk BLK_STATE_DIRTY es).
Proof. intros [(H & _)|[_ H]]; [done|]. right. split; [done|]. exact (laid_set_state _ _ _ _ BLK_STATE_DIRTY H). Qed.

(** ** Callbacks of the recovery *)

Lemma recovery_read x p w : oom w = [] -> entry_ok x -> rd (flash w) p (elen x) = enc_entry x ->
  item_recovery_cb (item_of x p) w =
    ((if negb (e_origin x =? 0) && negb (p =? e_origin x) then kv_item_del_orig (item_of x p) else mret RES_OK);;
     mret (RES_CONT, item_of x p)) w.
Proof.
  intros Ho Hx Hr. unfold item_recovery_cb. rewrite (bind_step _ _ _ _ _ (malloc_ok _ Ho)). cbn [negb].
  assert (Hd : raw_read (pos (item_of x p) + ITEM_HEADER_SIZE) (len (item_of x p)) w = Ret (data_of x, w)).
  { unfold raw_read. simpl. do 2 f_equal. by apply rd_data. }
  rewrite (bind_step _ _ _ _ _ Hd). change (crc (hdr (item_of x p))) with (utils_crc8 (data_of x)). by rewrite Z.eqb_refl.
Qed.

Lemma del_orig_header x p w : 
  kv_item_del_orig (item_of x p) w =
  (let h := dec_hdr (rd (flash w) (e_origin x) ITEM_HEADER_SIZE) in
   if negb (magic h =? ITEM_MAGIC_NUM) || negb (state h =? ITEM_STATE_NORMAL) || negb (key_len h =? Z.of_nat (length (e_key x)))
   then mret RES_OK
   else
     ok ← qm_malloc;
     if negb ok then mret RES_MALLOC_FAILED
     else
       ok ← qm_malloc;
       if negb ok then mret RES_MALLOC_FAILED
       else
         origin_key ← raw_read (e_origin x + ITEM_HEADER_SIZE) (key_len h);
         new_key ← raw_read (p + ITEM_HEADER_SIZE) (key_len h);
         if bool_decide (origin_key = new_key) then mark_deleted (e_origin x) else mret RES_OK) w.
Proof. done. Qed.

(** The origin is an entry: it is deleted when it is live and has the same key. *)
Lemma del_orig_entry x p y w : oom w = [] -> entry_ok x -> rd (flash w) p (elen x) = enc_entry x ->
  entry_ok y -> rd (flash w) (e_origin x) (elen y) = enc_entry y ->
  kv_item_del_orig (item_of x p) w =
    (if bool_decide (e_live y = true /\ e_key y = e_key x) then mark_deleted (e_origin x) else mret RES_OK) w.
Proof.
  intros Ho Hx Hr Hy Hry. rewrite del_orig_header, (rd_hdr _ _ y) by done. cbv zeta.
  change (magic (hdr_of y) =? ITEM_MAGIC_NUM) with true.
  change (state (hdr_of y)) with (if e_live y then ITEM_STATE_NORMAL else ITEM_STATE_DELETE).
  change (key_len (hdr_of y)) with (Z.of_nat (length (e_key y))). cbn [negb orb].
  destruct (e_live y); [|by rewrite bool_decide_false by (intros [? _]; done)].
  change (negb (ITEM_STATE_NORMAL =? ITEM_STATE_NORMAL)) with false. cbn [orb].
  destruct (Z.eqb_spec (Z.of_nat (length (e_key y))) (Z.of_nat (length (e_key x)))) as [Hl|Hl]; cbn [negb].
  2: { rewrite bool_decide_false; [done|]. intros [_ He]. by rewrite He in Hl. }
  do 2 (rewrite (bind_step _ _ _ _ _ (malloc_ok _ Ho)); cbn [negb]).
  assert (H1 : raw_read (e_origin x + ITEM_HEADER_SIZE) (Z.of_nat (length (e_key y))) w = Ret (e_key y, w)).
  { unfold raw_read. do 2 f_equal. by apply rd_key. }
  assert (H2 : raw_read (p + ITEM_HEADER_SIZE) (Z.of_nat (length (e_key y))) w = Ret (e_key x, w)).
  { unfold raw_read. do 2 f_equal. rewrite Hl. by apply rd_key. }
  rewrite (bind_step _ _ _ _ _ H1), (bind_step _ _ _ _ _ H2). by rewrite (bool_decide_ext (e_key y = e_key x) (true = true /\ e_key y = e_key x)) by tauto.
Qed.

Lemma recovery_quiet w bs k b n x : core w bs -> bs !! k = Some b -> b_entries b !! n = Some x ->
  quiet (flash w) bs (epos k b n) x ->
  item_recovery_cb (item_of x (epos k b n)) w = Ret ((RES_CONT, item_of x (epos k b n)), w).
Proof.
  intros Hco Hk Hn Hq. destruct (here_entry _ _ _ _ _ (co_here _ _ Hco k b Hk) Hn) as [_ Hl].
  destruct (laid_at _ _ _ _ _ _ Hl Hn) as (Hx & Hr & _). fold (epos k b n) in Hr.
  rewrite recovery_read by (done || apply Hco).
  destruct Hq as [Hz|[Hs|Hq]]; [by rewrite Hz|by rewrite Hs, Z.eqb_refl, andb_false_r|].
  destruct (_ && _); [|done].
  assert (Hdel : kv_item_del_orig (item_of x (epos k b n)) w = Ret (RES_OK, w)).
  { destruct Hq as [Hm|(k1 & c & n1 & y & Hk1 & Hn1 & Ho & Hy)].
    - rewrite del_orig_header. cbv zeta.
      assert (Hb : magic (dec_hdr (rd (flash w) (e_origin x) ITEM_HEADER_SIZE)) = fl_byte (flash w) (KV_PARAM_START_ADDRESS + e_origin x)).
      { unfold rd. rewrite fl_read. unfold ITEM_HEADER_SIZE. by rewrite (seqZ_cons _ 8) by lia. }
      rewrite Hb. by rewrite (proj2 (Z.eqb_neq _ _) Hm).
    - destruct (here_entry _ _ _ _ _ (co_here _ _ Hco k1 c Hk1) Hn1) as [_ Hl1].
      destruct (laid_at _ _ _ _ _ _ Hl1 Hn1) as (Hy1 & Hr1 & _). fold (epos k1 c n1) in Hr1. rewrite <- Ho in Hr1.
      rewrite (del_orig_entry _ _ y) by (done || apply Hco). rewrite bool_decide_false; [done|]. intros [H1 H2]. destruct Hy; congruence. }
  by rewrite (bind_step _ _ _ _ _ Hdel).
Qed.

(** ** Changes made by the scan *)

(** Block [k] with entry [n], which is [x], deleted. *)
Definition without (b : blk) (s : Z) (n : nat) (x : entry) : blk := mk_blk s (<[n := kill x]> (b_entries b)).

Lemma live_without b s n x : b_entries b !! n = Some x -> e_live x = true ->
  (e_key x, e_val x) :: live_of (without b s n x) ≡ₚ live_of b.
Proof.
  intros Hn Hl. unfold without, live_of. simpl. rewrite (insert_take_drop _ _ _ (lookup_lt_Some _ _ _ Hn)).
  rewrite <- (take_drop_middle _ _ _ Hn) at 3. rewrite !List.filter_app. simpl. rewrite Hl, !fmap_app. simpl. solve_Permutation.
Qed.

Lemma laid_without f k s es n x : laid f k s es -> es !! n = Some x -> e_live x = true ->
  laid (set_state f (base k + BLK_HEADER_SIZE + total (take n es)) ITEM_STATE_DELETE) k s (<[n := kill x]> es).
Proof.
  intros Hl Hn Hx. rewrite <- (take_drop_middle _ _ _ Hn) in Hl. rewrite (insert_take_drop _ _ _ (lookup_lt_Some _ _ _ Hn)). by apply laid_kill.
Qed.

(** Deleting an entry: its block becomes dirty when the manager has it as used. *)
Lemma kill_at w bs k b n x i0 :
  core w bs -> bs !! k = Some b -> b_entries b !! n = Some x -> e_live x = true ->
  block_info (mgr w) !! k = Some i0 -> (bstate i0 = BLK_STATE_USED -> b_state b = BLK_STATE_USED) ->
  let u := bstate i0 =? BLK_STATE_USED in
  exists w', mark_deleted (epos k b n) w = Ret (RES_OK, w') /\
    core w' (<[k := without b (if u then BLK_STATE_DIRTY else b_state b) n x]> bs) /\ calm (flash w) (flash w') /\
    mgr w' = upd_info (<[k := mk_info (space i0) (if u then BLK_STATE_DIRTY else bstate i0)]> (block_info (mgr w))) (mgr w).
Proof.
  intros Hco Hk Hn Hl Hi Hu u. destruct (co_num _ _ Hco) as [Hlen HN]. pose proof (lookup_lt_Some _ _ _ Hk) as Hkl.
  destruct (here_entry _ _ _ _ _ (co_here _ _ Hco k b Hk) Hn) as [Hst Hlaid].
  destruct (laid_at _ _ _ _ _ _ Hlaid Hn) as (Hx & _ & _ & Ht1 & Ht2 & Hfit). destruct (elen_bounds x Hx) as (_ & _ & Hbx).
  set (o := BLK_HEADER_SIZE + total (take n (b_entries b))) in *.
  assert (Hp : epos k b n = base k + o) by (unfold epos, o; lia).
  destruct (pos_block k o) as [Hsh Hla]; [lia|unfold o; kvlia|]. rewrite <- Hp in Hsh, Hla.
  set (f1 := set_state (flash w) (epos k b n) ITEM_STATE_DELETE). set (w1 := mk_world (mgr w) f1 (oom w)).
  assert (Hl1 : laid f1 k (b_state b) (<[n := kill x]> (b_entries b))) by (by apply laid_without).
  assert (Hs1 : same_but (flash w) f1 k).
  { unfold f1. rewrite Hp. apply set_state_same_but; unfold o, KV_STATE_OFF; kvlia. }
  assert (Hc1 : calm (flash w) f1) by (by apply calm_set_state).
  unfold mark_deleted. assert (Hr1 : kv_state_set (epos k b n) ITEM_STATE_DELETE w = Ret (tt, w1)) by done.
  rewrite (bind_step _ _ _ _ _ Hr1), Hsh, Hla.
  rewrite (bind_step _ _ _ _ _ (get_info_eq (Z.of_nat k) w1 i0 ltac:(rewrite Nat2Z.id; exact Hi))).
  destruct (Z.eqb_spec (bstate i0) BLK_STATE_USED) as [HU|HU]; unfold u.
  - rewrite Hu in * by done. set (f2 := set_state f1 (base k) BLK_STATE_DIRTY).
    set (w2 := mk_world (upd_info (<[k := mk_info (space i0) BLK_STATE_DIRTY]> (block_info (mgr w))) (mgr w)) f2 (oom w)).
    assert (Hr2 : (kv_state_set (base k) BLK_STATE_DIRTY;; set_bstate (Z.of_nat k) BLK_STATE_DIRTY) w1 = Ret (tt, w2)).
    { assert (Hs2 : kv_state_set (base k) BLK_STATE_DIRTY w1 = Ret (tt, mk_world (mgr w) f2 (oom w))) by done.
      rewrite (bind_step _ _ _ _ _ Hs2). rewrite (set_bstate_eq _ _ _ i0); rewrite Nat2Z.id; done. }
    exists w2. rewrite (bind_step _ _ _ _ _ Hr2). split; [done|]. split.
    + split; [by rewrite length_insert|apply Hco|simpl; rewrite length_insert; apply Hco|].
      apply (here_insert (flash w)); [apply Hco| |].
      * apply (same_but_trans _ f1); [done|]. unfold w2, f2. simpl. rewrite <- (Z.add_0_r (base k)). apply set_state_same_but; unfold KV_STATE_OFF; kvlia.
      * right. split; [done|]. exact (laid_set_state _ _ _ _ BLK_STATE_DIRTY Hl1).
    + split; [|done]. apply (calm_trans _ f1); [done|]. by apply calm_set_state.
  - exists w1. split; [done|]. split.
    + split; [by rewrite length_insert|apply Hco|apply Hco|]. apply (here_insert (flash w)); [apply Hco|done|by right].
    + split; [done|]. destruct i0 as [sp st]. simpl. rewrite list_insert_id by done. by destruct (mgr w).
Qed.

Lemma dirty_at w bs k b i0 :
  core w bs -> bs !! k = Some b -> block_info (mgr w) !! k = Some i0 -> bstate i0 = b_state b ->
  let s := if b_state b =? BLK_STATE_USED then BLK_STATE_DIRTY else b_state b in
  exists w', mark_dirty (Z.of_nat k) w = Ret (tt, w') /\ core w' (<[k := mk_blk s (b_entries b)]> bs) /\ calm (flash w) (flash w') /\
    mgr w' = upd_info (<[k := mk_info (space i0) s]> (block_info (mgr w))) (mgr w).
Proof.
  intros Hco Hk Hi He s. destruct (co_num _ _ Hco) as [Hlen HN]. pose proof (lookup_lt_Some _ _ _ Hk) as Hkl. unfold mark_dirty.
  rewrite (bind_step _ _ _ _ _ (get_info_eq (Z.of_nat k) w i0 ltac:(rewrite Nat2Z.id; exact Hi))), He. unfold s.
  destruct (Z.eqb_spec (b_state b) BLK_STATE_USED) as [HU|HU].
  - rewrite shiftl_base by lia. set (f1 := set_state (flash w) (base k) BLK_STATE_DIRTY).
    assert (Hs1 : kv_state_set (base k) BLK_STATE_DIRTY w = Ret (tt, mk_world (mgr w) f1 (oom w))) by done.
    rewrite (bind_step _ _ _ _ _ Hs1), (set_bstate_eq _ _ _ i0) by (rewrite Nat2Z.id; exact Hi). rewrite Nat2Z.id.
    eexists. split; [done|]. split.
    + split; [by rewrite length_insert|apply Hco|simpl; rewrite length_insert; apply Hco|].
      apply (here_insert (flash w)); [apply Hco| |].
      * simpl. unfold f1. rewrite <- (Z.add_0_r (base k)). apply set_state_same_but; unfold KV_STATE_OFF; kvlia.
      * simpl. apply here_dirty. rewrite <- HU. pose proof (co_here _ _ Hco k b Hk) as Hh. by destruct b.
    + split; [by apply calm_set_state|done].
  - exists w. split; [done|]. split; [|split; [by intros a|]].
    + replace (mk_blk (b_state b) (b_entries b)) with b by (by destruct b). by rewrite list_insert_id.
    + destruct i0 as [sp st]. simpl in *. subst st. rewrite list_insert_id by done. by destruct (mgr w).
Qed.

(** ** One block *)

Definition fine (b : blk) : Prop :=
  INVALID_BLK_STATE (b_state b) = false /\ (b_state b = BLK_STATE_USED -> List.Forall (fun x => e_live x = true) (b_entries b)).

(** What may change during the scan. *)
Definition drift (bs bs' : list blk) : Prop :=
  Forall2 (fun b b' => Forall2 fade (b_entries b) (b_entries b') /\
    (b_state b' = b_state b \/ (b_state b = BLK_STATE_USED /\ b_state b' = BLK_STATE_DIRTY) \/
     (b_state b = BLANK /\ b_state b' = BLK_STATE_CLEAN))) bs bs'.

#[global] Instance drift_refl : Reflexive drift.
Proof. intros bs. apply Forall_Forall2_diag, Forall_true. intros b. split; [reflexivity|by left]. Qed.

Lemma fade_trans es1 es2 es3 : Forall2 fade es1 es2 -> Forall2 fade es2 es3 -> Forall2 fade es1 es3.
Proof. apply Forall2_trans. intros x y z [->| ->] [->| ->]; [by left|by right..]. Qed.

#[global] Instance drift_trans : Transitive drift.
Proof.
  intros bs1 bs2 bs3. apply Forall2_trans. intros b1 b2 b3 [H1 S1] [H2 S2]. split; [by eapply fade_trans|].
  destruct S1 as [S1|[[S1 S1']|[S1 S1']]], S2 as [S2|[[S2 S2']|[S2 S2']]]; rewrite ?S1, ?S1', ?S2 in *; try done; auto.
Qed.

Lemma drift_insert bs k b b' : bs !! k = Some b -> Forall2 fade (b_entries b) (b_entries b') ->
  (b_state b' = b_state b \/ (b_state b = BLK_STATE_USED /\ b_state b' = BLK_STATE_DIRTY) \/
   (b_state b = BLANK /\ b_state b' = BLK_STATE_CLEAN)) -> drift bs (<[k := b']> bs).
Proof.
  intros Hk Hf Hs. rewrite <- (take_drop_middle _ _ _ Hk) at 1. rewrite (insert_take_drop _ _ _ (lookup_lt_Some _ _ _ Hk)).
  apply Forall2_app; [apply drift_refl|]. constructor; [done|apply drift_refl].
Qed.

Lemma drift_fades bs bs' : drift bs bs' -> fades bs bs'.
Proof. intros H. eapply Forall2_impl; [exact H|]. by intros b b' [? _]. Qed.

(** Blocks below [i] are done; entries before [n] of block [i] too. *)
Record in_block (i n : nat) (s0 : Z) w (bs : list blk) (b : blk) : Prop := {
  ib_core : core w bs;
  ib_blk : bs !! i = Some b;
  ib_state : INVALID_BLK_STATE (b_state b) = false;
  ib_info : block_info (mgr w) !! i = Some (mk_info s0 (b_state b));
  ib_used : b_state b = BLK_STATE_USED -> List.Forall (fun x => e_live x = true) (take n (b_entries b));
  ib_done : forall k c, (k < i)%nat -> bs !! k = Some c -> block_info (mgr w) !! k = Some (info_of c) /\ fine c;
  ib_todo : forall k, (i < k < N)%nat -> block_info (mgr w) !! k = Some (mk_info 0 0)
}.

(** Before entry [n] of block [k] the scan has nothing left to delete, or one entry; [rest]
    are the pairs in the end. *)
Definition phase w (bs : list blk) (k n : nat) (rest : list (list Z * list Z)) : Prop :=
  (all_quiet (flash w) bs /\ pairs bs ≡ₚ rest) \/
  exists ky ny k1 n1 x, pending (flash w) bs ky ny k1 n1 x /\ ((k < ky)%nat \/ (k = ky /\ n <= ny)%nat) /\
    pairs bs ≡ₚ (e_key x, e_val x) :: rest.

(** Only the states of blocks change. *)
Lemma phase_same w w' bs i b b' k n rest :
  calm (flash w) (flash w') -> bs !! i = Some b -> b_entries b' = b_entries b -> phase w bs k n rest -> phase w' (<[i := b']> bs) k n rest.
Proof.
  intros Hc Hi He Hph.
  assert (Hf : fades bs (<[i := b']> bs)) by (apply (fades_insert _ _ b); [done|by rewrite He]).
  assert (Hpp : pairs (<[i := b']> bs) ≡ₚ pairs bs).
  { pose proof (pairs_insert bs i b b' Hi) as Hp. unfold live_of in Hp. rewrite He in Hp. by apply Permutation_app_inv_r in Hp. }
  destruct Hph as [[Hq Hp]|(ky & ny & k1 & n1 & x1 & Hpd & Hpos & Hp)].
  - left. split; [|by rewrite Hpp]. by apply (all_quiet_fades (flash w) _ bs).
  - right. exists ky, ny, k1, n1, x1. rewrite Hpp. split; [|done].
    destruct Hpd as [(c & y & Hk & Hy & Hly & Hkey & (d & Hd & Hx1 & Hlx & Ho) & Ho0 & Hop) Hord Hoth].
    split; [|done|by apply (others_quiet_fades (flash w) _ bs)].
    assert (Hat : forall k c, bs !! k = Some c -> exists c', <[i := b']> bs !! k = Some c' /\ b_entries c' = b_entries c).
    { intros j c0 Hj. pose proof (lookup_lt_Some _ _ _ Hj). destruct (decide (i = j)) as [<-|]; [|exists c0; by rewrite list_lookup_insert_ne].
      exists b'. rewrite list_lookup_insert_eq by done. split; [done|]. by assert (c0 = b) as -> by congruence. }
    destruct (Hat ky c Hk) as (c' & Hc' & Ec). destruct (Hat k1 d Hd) as (d' & Hd' & Ed).
    exists c', y. unfold epos. rewrite Ec. split_and!; try done. exists d'. by rewrite Ed.
Qed.

Definition only_infos w w' : Prop := exists bi, mgr w' = upd_info bi (mgr w).

Lemma only_infos_trans w1 w2 w3 : only_infos w1 w2 -> only_infos w2 w3 -> only_infos w1 w3.
Proof. intros [bi H] [bi' H']. exists bi'. by rewrite H', H. Qed.

Lemma pairs_without bs k b s n x : bs !! k = Some b -> b_entries b !! n = Some x -> e_live x = true ->
  (e_key x, e_val x) :: pairs (<[k := without b s n x]> bs) ≡ₚ pairs bs.
Proof.
  intros Hk Hn Hl. pose proof (pairs_insert bs k b (without b s n x) Hk) as Hp. rewrite <- (live_without b s n x) in Hp by done.
  apply (Permutation_app_inv_r (live_of (without b s n x))). rewrite <- Hp. solve_Permutation.
Qed.

(** The victim of the pending entry is deleted. *)
Lemma pending_done f f' bs k n k1 n1 x c s : pending f bs k n k1 n1 x -> calm f f' ->
  bs !! k1 = Some c -> all_quiet f' (<[k1 := without c s n1 x]> bs).
Proof.
  intros [(b & y & Hk & Hn & Hly & Hky & (c' & Hk1 & Hn1 & Hlx & Ho) & _ & _) Hord Hoth] Hc Hk1'.
  assert (c' = c) as -> by congruence.
  assert (Hf : fades bs (<[k1 := without c s n1 x]> bs)) by (apply (fades_insert _ _ c); [done|by apply fade_kill]).
  pose proof (others_quiet_fades _ _ _ _ _ _ Hc Hf Hoth) as Hoth'. intros k0 b0 n0 x0 Hk0 Hn0 Hl0.
  destruct (decide ((k0, n0) = (k, n))) as [[= -> ->]|Hne]; [|by apply Hoth'].
  destruct (fades_live _ _ _ _ _ _ Hf Hk0 Hn0 Hl0) as (b1 & Hb1 & Hn1' & _). assert (x0 = y) as -> by congruence.
  right. right. right. exists k1, (without c s n1 x), n1, (kill x).
  rewrite list_lookup_insert_eq by (by apply lookup_lt_Some in Hk1). split; [done|]. split.
  { simpl. apply list_lookup_insert_eq. by apply lookup_lt_Some in Hn1. }
  rewrite (fade_epos k1 c) by (by apply fade_kill). split; [done|by left].
Qed.

Lemma info_without c n x s sp : b_entries c !! n = Some x -> sp = space (info_of c) -> mk_info sp s = info_of (without c s n x).
Proof. intros Hn ->. unfold info_of. simpl. f_equal. f_equal. symmetry. apply fade_total. by apply fade_kill. Qed.

(** A live entry. *)
Lemma recover_live i n s0 w bs b x rest :
  in_block i n s0 w bs b -> b_entries b !! n = Some x -> e_live x = true -> phase w bs i n rest ->
  exists w' bs' b', item_recovery_cb (item_of x (epos i b n)) w = Ret ((RES_CONT, item_of x (epos i b n)), w') /\
    in_block i (S n) s0 w' bs' b' /\ phase w' bs' i (S n) rest /\ drift bs bs' /\ only_infos w w' /\
    Forall2 fade (b_entries b) (b_entries b') /\ drop (S n) (b_entries b') = drop (S n) (b_entries b).
Proof.
  intros [Ico Ib Is Ii Iu Id It] Hn Hl Hph.
  assert (Hlive : b_state b = BLK_STATE_USED -> List.Forall (fun x => e_live x = true) (take (S n) (b_entries b))).
  { intros HU. rewrite (take_S_r _ _ _ Hn). apply Forall_app. split; [by apply Iu|by repeat constructor]. }
  assert (Hstay : quiet (flash w) bs (epos i b n) x -> phase w bs i (S n) rest ->
    exists w' bs' b', item_recovery_cb (item_of x (epos i b n)) w = Ret ((RES_CONT, item_of x (epos i b n)), w') /\
      in_block i (S n) s0 w' bs' b' /\ phase w' bs' i (S n) rest /\ drift bs bs' /\ only_infos w w' /\
      Forall2 fade (b_entries b) (b_entries b') /\ drop (S n) (b_entries b') = drop (S n) (b_entries b)).
  { intros Hq Hph'. exists w, bs, b. split; [by apply (recovery_quiet _ bs)|]. split; [by split|]. split; [done|].
    split; [reflexivity|]. split; [|split; [reflexivity|done]]. exists (block_info (mgr w)). by destruct (mgr w). }
  destruct Hph as [[Hq Hp]|(ky & ny & k1 & n1 & x1 & Hpd & Hpos & Hp)]; [apply Hstay; [by apply Hq|by left]|].
  destruct (decide ((ky, ny) = (i, n))) as [[= -> ->]|Hne].
  2: { apply Hstay; [apply (pd_others _ _ _ _ _ _ _ Hpd); congruence|]. right. exists ky, ny, k1, n1, x1. split_and!; try done.
       destruct Hpos as [?|[-> Hle]]; [by left|right]. split; [done|]. assert (n <> ny) by congruence. lia. }
  clear Hstay Hpos. pose proof Hpd as [(b0 & y & Hb0 & Hy & Hly & Hkey & (c & Hk1 & Hn1 & Hlx & Ho) & Ho0 & Hop) Hord Hoth].
  assert (b0 = b) as -> by congruence. assert (y = x) as -> by congruence.
  destruct (co_num _ _ Ico) as [Hlen HN]. pose proof (lookup_lt_Some _ _ _ Hk1) as Hk1l. pose proof (lookup_lt_Some _ _ _ Ib) as Hil.
  assert (Hi1 : exists i1, block_info (mgr w) !! k1 = Some i1 /\ (bstate i1 = BLK_STATE_USED -> b_state c = BLK_STATE_USED) /\
    ((k1 <= i)%nat -> bstate i1 = b_state c) /\ ((k1 < i)%nat -> space i1 = space (info_of c)) /\ (k1 = i -> space i1 = s0) /\ ((i < k1)%nat -> i1 = mk_info 0 0)).
  { destruct (lt_eq_lt_dec k1 i) as [[Hlt|Heq]|Hgt].
    - exists (info_of c). split; [by apply Id|]. split_and!; try done; intros; lia.
    - subst k1. assert (c = b) as -> by congruence. exists (mk_info s0 (b_state b)). split_and!; try done; intros; lia.
    - exists (mk_info 0 0). split; [apply It; lia|]. split_and!; try done; intros; lia. }
  destruct Hi1 as (i1 & Hi1 & Hus & Hst & Hsp & Hs0 & Hz).
  destruct (kill_at w bs k1 c n1 x1 i1 Ico Hk1 Hn1 Hlx Hi1 Hus) as (w' & Hr & Hco' & Hcalm & Hmgr).
  set (u := bstate i1 =? BLK_STATE_USED) in *. set (c' := without c (if u then BLK_STATE_DIRTY else b_state c) n1 x1) in *.
  destruct (here_entry _ _ _ _ _ (co_here _ _ Ico k1 c Hk1) Hn1) as [Hcv Hlc]. destruct (laid_at _ _ _ _ _ _ Hlc Hn1) as (Hx1 & Hr1 & _).
  destruct (here_entry _ _ _ _ _ (co_here _ _ Ico i b Ib) Hn) as [_ Hlb]. destruct (laid_at _ _ _ _ _ _ Hlb Hn) as (Hx & Hrx & _).
  assert (Hcb : item_recovery_cb (item_of x (epos i b n)) w = Ret ((RES_CONT, item_of x (epos i b n)), w')).
  { rewrite recovery_read by (done || apply Ico). rewrite (proj2 (Z.eqb_neq _ _) Ho0), (proj2 (Z.eqb_neq (epos i b n) _)) by congruence.
    cbn [negb andb]. assert (Hd : kv_item_del_orig (item_of x (epos i b n)) w = Ret (RES_OK, w')).
    { rewrite (del_orig_entry _ _ x1) by (done || apply Ico || by rewrite Ho). rewrite bool_decide_true by done. by rewrite Ho. }
    by rewrite (bind_step _ _ _ _ _ Hd). }
  assert (Hfc : Forall2 fade (b_entries c) (b_entries c')) by (by apply fade_kill).
  assert (Hcs : b_state c' = b_state c \/ (b_state c = BLK_STATE_USED /\ b_state c' = BLK_STATE_DIRTY) \/ (b_state c = BLANK /\ b_state c' = BLK_STATE_CLEAN)).
  { unfold c'. simpl. unfold u. destruct (Z.eqb_spec (bstate i1) BLK_STATE_USED); [right; left; by split; [apply Hus|]|by left]. }
  assert (Hcfine : (k1 <= i)%nat -> INVALID_BLK_STATE (b_state c') = false /\ b_state c' <> BLK_STATE_USED /\ bstate (mk_info 0 (if u then BLK_STATE_DIRTY else bstate i1)) = b_state c').
  { intros Hle. unfold c', u. simpl. rewrite Hst by done. destruct (Z.eqb_spec (b_state c) BLK_STATE_USED); done. }
  set (b' := if decide (k1 = i) then c' else b).
  assert (Hib : <[k1 := c']> bs !! i = Some b').
  { unfold b'. destruct (decide (k1 = i)) as [->|]; [by apply list_lookup_insert_eq|by rewrite list_lookup_insert_ne]. }
  assert (Hfb : Forall2 fade (b_entries b) (b_entries b')).
  { unfold b'. destruct (decide (k1 = i)) as [->|]; [by assert (c = b) as <- by congruence|reflexivity]. }
  exists w', (<[k1 := c']> bs), b'. split; [done|]. split.
  - split; [done|done| | | | |].
    + unfold b'. destruct (decide (k1 = i)) as [->|]; [by apply Hcfine|done].
    + rewrite Hmgr. simpl. unfold b'. destruct (decide (k1 = i)) as [->|].
      * rewrite list_lookup_insert_eq by (rewrite (co_infos _ _ Ico); lia). do 2 f_equal; [by apply Hs0|by apply Hcfine].
      * by rewrite list_lookup_insert_ne.
    + unfold b'. destruct (decide (k1 = i)) as [->|]; [|done]. intros HU. by apply Hcfine in HU.
    + intros k d Hki. rewrite list_lookup_insert_Some. rewrite Hmgr. simpl. intros [(<- & <- & _)|[Hne Hd]].
      * rewrite list_lookup_insert_eq by (rewrite (co_infos _ _ Ico); lia). destruct (Hcfine ltac:(lia)) as (Hv & Hnu & Hbs). simpl in Hbs.
        split; [|by split]. f_equal. rewrite Hbs. apply info_without; [done|by apply Hsp].
      * rewrite list_lookup_insert_ne by done. by apply Id.
    + intros k Hk. rewrite Hmgr. simpl. destruct (decide (k1 = k)) as [->|]; [|rewrite list_lookup_insert_ne by done; by apply It].
      rewrite list_lookup_insert_eq by (rewrite (co_infos _ _ Ico); lia). unfold u. by rewrite Hz by lia.
  - split_and!; [|by apply (drift_insert _ _ c)|by eexists|done|].
    + left. split; [by apply (pending_done (flash w) _ _ i n)|].
      apply (Permutation_cons_inv (a := (e_key x1, e_val x1))). rewrite <- Hp. by apply pairs_without.
    + unfold b'. destruct (decide (k1 = i)) as [->|]; [|done]. assert (c = b) as -> by congruence. simpl.
      apply drop_insert_lt. pose proof (Hord eq_refl). lia.
Qed.

(** A deleted entry. *)
Lemma recover_dead i n s0 w bs b x rest :
  in_block i n s0 w bs b -> b_entries b !! n = Some x -> e_live x = false -> phase w bs i n rest ->
  exists w' bs' b', mark_dirty (Z.of_nat i) w = Ret (tt, w') /\
    in_block i (S n) s0 w' bs' b' /\ phase w' bs' i (S n) rest /\ drift bs bs' /\ only_infos w w' /\
    b_entries b' = b_entries b.
Proof.
  intros [Ico Ib Is Ii Iu Id It] Hn Hl Hph. destruct (co_num _ _ Ico) as [Hlen HN]. pose proof (lookup_lt_Some _ _ _ Ib) as Hil.
  destruct (dirty_at w bs i b _ Ico Ib Ii eq_refl) as (w' & Hr & Hco' & Hcalm & Hmgr).
  set (s := if b_state b =? BLK_STATE_USED then BLK_STATE_DIRTY else b_state b) in *. set (b' := mk_blk s (b_entries b)) in *.
  assert (Hs : s <> BLK_STATE_USED /\ INVALID_BLK_STATE s = false /\
    (s = b_state b \/ (b_state b = BLK_STATE_USED /\ s = BLK_STATE_DIRTY) \/ (b_state b = BLANK /\ s = BLK_STATE_CLEAN))).
  { unfold s. destruct (Z.eqb_spec (b_state b) BLK_STATE_USED); split_and!; try done; [by right; left|by left]. }
  destruct Hs as (Hnu & Hv & Hst). assert (Hdr : drift bs (<[i := b']> bs)) by (by apply (drift_insert _ _ b)).
  assert (Hib : <[i := b']> bs !! i = Some b') by (by apply list_lookup_insert_eq).
  exists w', (<[i := b']> bs), b'. split; [done|]. split.
  - split; [done|done|done| |done| |].
    + rewrite Hmgr. simpl. by apply list_lookup_insert_eq; rewrite (co_infos _ _ Ico); lia.
    + intros k c Hk. rewrite list_lookup_insert_ne by lia. rewrite Hmgr. simpl. rewrite list_lookup_insert_ne by lia. by apply Id.
    + intros k Hk. rewrite Hmgr. simpl. rewrite list_lookup_insert_ne by lia. by apply It.
  - split_and!; [|done|by eexists|done].
    pose proof (phase_same w w' bs i b b' i n rest Hcalm Ib eq_refl Hph) as [?|(ky & ny & k1 & n1 & x1 & Hpd & Hpos & Hp)]; [by left|].
    right. exists ky, ny, k1, n1, x1. split; [done|]. split; [|done]. destruct Hpos as [?|[-> Hle]]; [by left|right]. split; [done|].
    assert (n <> ny); [|lia]. intros ->. destruct (pd_new _ _ _ _ _ _ _ Hpd) as (c & y & Hc & Hy & Hly & _).
    assert (c = b') as -> by congruence. simpl in Hy. congruence.
Qed.

(** The entries of a block from [n] on. *)
Lemma recover_entries fuel m i n s0 w bs b rest :
  in_block i n s0 w bs b -> phase w bs i n rest -> length (drop n (b_entries b)) = m -> (i < 15)%nat ->
  base i + BLK_SIZE - epos i b n <= 8 * Z.of_nat fuel ->
  exists w' bs', next_round fuel item_recovery_cb (Z.of_nat i) (epos i b n) (base i + BLK_SIZE) w = Ret (None, w') /\
    phase w' bs' (S i) 0 rest /\ drift bs bs' /\ only_infos w w' /\ core w' bs' /\
    (forall k c, (k <= i)%nat -> bs' !! k = Some c -> block_info (mgr w') !! k = Some (info_of c) /\ fine c) /\
    (forall k, (i < k < N)%nat -> block_info (mgr w') !! k = Some (mk_info 0 0)).
Proof.
  revert fuel n w bs b. induction m as [|m IH]; intros fuel n w bs b Hib Hph Hm Hi Hf; pose proof Hib as [Ico Ib Is Ii Iu Id It];
    (destruct (co_here _ _ Ico i b Ib) as [(Hbl & _)|[_ Hlaid]]; [by rewrite Hbl in Is|]).
  - apply nil_length_inv, drop_nil_inv in Hm. pose proof Hlaid as [L1 L2 L3 L4]. pose proof (total_nonneg _ L3) as Ht.
    assert (Hp : epos i b n = base i + BLK_HEADER_SIZE + total (b_entries b)) by (unfold epos; by rewrite take_ge).
    rewrite <- (app_nil_r (b_entries b)) in L2. apply entries_at_app in L2 as [_ L2]. rewrite <- Hp in L2.
    destruct fuel as [|fuel]; [kvlia|]. rewrite next_round_free; [|apply Ico|done].
    unfold traverse_end. destruct (Z.gtb_spec (base i + BLK_SIZE) (epos i b n)) as [_|?]; [|kvlia]. rewrite u16_id by kvlia.
    rewrite (bind_step _ _ _ _ _ (set_space_eq (Z.of_nat i) _ w _ ltac:(rewrite Nat2Z.id; exact Ii))). rewrite Nat2Z.id. simpl bstate.
    replace (mk_info (base i + BLK_SIZE - epos i b n) (b_state b)) with (info_of b) by (unfold info_of; f_equal; lia).
    rewrite take_ge in Iu by done. pose proof (lookup_lt_Some _ _ _ Ib) as Hil. destruct (co_num _ _ Ico) as [Hlen HN].
    eexists _, bs. split; [done|]. split_and!.
    + destruct Hph as [Hq|(ky & ny & k1 & n1 & x & Hpd & Hpos & Hp')]; [by left|right]. exists ky, ny, k1, n1, x. split_and!; try done.
      destruct Hpos as [?|[-> Hle]]; [lia|exfalso]. destruct (pd_new _ _ _ _ _ _ _ Hpd) as (c & y & Hc & Hy & _).
      assert (c = b) as -> by congruence. apply lookup_lt_Some in Hy. lia.
    + reflexivity.
    + by eexists.
    + split; [apply Ico|apply Ico|simpl; rewrite length_insert; apply Ico|apply Ico].
    + intros k c Hk Hc. simpl. destruct (decide (i = k)) as [<-|Hne].
      * assert (c = b) as -> by congruence. rewrite list_lookup_insert_eq by (rewrite (co_infos _ _ Ico); lia). by split.
      * rewrite list_lookup_insert_ne by done. apply Id; [lia|done].
    + intros k Hk. simpl. rewrite list_lookup_insert_ne by lia. by apply It.
  - destruct (lookup_lt_is_Some_2 (b_entries b) n) as [x Hx]; [rewrite length_drop in Hm; lia|].
    destruct (laid_at _ _ _ _ _ _ Hlaid Hx) as (Hok & Hr & He & Ht1 & Ht2 & Hfit). destruct (elen_bounds x Hok) as (_ & _ & Hbx).
    fold (epos i b n) in Hr, He. assert (Hpb : epos i b n = base i + BLK_HEADER_SIZE + total (take n (b_entries b))) by done.
    destruct fuel as [|fuel]; [kvlia|]. unfold next_round.
    destruct (Z.gtb_spec (base i + BLK_SIZE) (epos i b n + ITEM_HEADER_SIZE)) as [_|?]; [|kvlia].
    rewrite (drop_S _ _ _ Hx) in He. rewrite (loop_entry _ _ _ _ _ _ x _ (co_oom _ _ Ico) He Hok); [|unfold base in *; kvlia..].
    assert (Hnext : forall b', Forall2 fade (b_entries b) (b_entries b') -> epos i b' (S n) = epos i b n + elen x).
    { intros b' Hb'. rewrite (fade_epos i b b') by done. unfold epos. rewrite (take_S_r _ _ _ Hx), total_app. simpl. lia. }
    assert (Hlen : length (drop (S n) (b_entries b)) = m) by (rewrite length_drop in *; lia).
    destruct (e_live x) eqn:Hlx.
    + destruct (recover_live i n s0 w bs b x rest Hib Hx Hlx Hph) as (w1 & bs1 & b1 & Hr1 & Hib1 & Hph1 & Hdr1 & Ho1 & Hfd & Hdp).
      rewrite (bind_step _ _ _ _ _ Hr1). cbn [fst snd Z.eqb negb RES_CONT RES_OK]. change (-11 =? 0) with false. change (-11 =? -11) with true. cbn [negb].
      destruct (IH fuel (S n) w1 bs1 b1 Hib1 Hph1) as (w' & bs' & Hr' & Hph' & Hdr' & Ho' & Hrest); [by rewrite Hdp|done|rewrite Hnext by done; kvlia|].
      rewrite Hnext in Hr' by done. exists w', bs'. split; [exact Hr'|]. split; [done|]. split; [by transitivity bs1|].
      split; [by eapply only_infos_trans|done].
    + destruct (recover_dead i n s0 w bs b x rest Hib Hx Hlx Hph) as (w1 & bs1 & b1 & Hr1 & Hib1 & Hph1 & Hdr1 & Ho1 & Heq).
      rewrite (bind_step _ _ _ _ _ Hr1).
      assert (Hfd : Forall2 fade (b_entries b) (b_entries b1)) by (by rewrite Heq).
      destruct (IH fuel (S n) w1 bs1 b1 Hib1 Hph1) as (w' & bs' & Hr' & Hph' & Hdr' & Ho' & Hrest); [by rewrite Heq|done|rewrite Hnext by done; kvlia|].
      rewrite Hnext in Hr' by done. exists w', bs'. split; [exact Hr'|]. split; [done|]. split; [by transitivity bs1|].
      split; [by eapply only_infos_trans|done].
Qed.

(** ** All blocks *)

Definition unwritten (b : blk) : bool := (b_state b =? BLK_STATE_CLEAN) || (b_state b =? BLANK).
Definition is_free (b : blk) : bool := unwritten b && match b_entries b with [] => true | _ => false end.
Definition is_stale (b : blk) : bool := unwritten b && match b_entries b with [] => false | _ => true end.
Definition frees (bs : list blk) : Z := Z.of_nat (length (List.filter is_free bs)).

Lemma frees_app l1 l2 : frees (l1 ++ l2) = frees l1 + frees l2.
Proof. unfold frees. rewrite List.filter_app, length_app. lia. Qed.

Lemma frees_bound bs : 0 <= frees bs <= Z.of_nat (length bs).
Proof. unfold frees. pose proof (List.filter_length_le is_free bs). lia. Qed.

Lemma frees_take_S bs i b : bs !! i = Some b -> frees (take (S i) bs) = frees (take i bs) + Z.b2z (is_free b).
Proof. intros Hi. rewrite (take_S_r _ _ _ Hi), frees_app. f_equal. unfold frees. simpl. by destruct (is_free b). Qed.

Lemma drift_kinds bs bs' k b' : drift bs bs' -> bs' !! k = Some b' ->
  exists b, bs !! k = Some b /\ is_free b' = is_free b /\ is_stale b' = is_stale b.
Proof.
  intros Hd Hk. destruct (Forall2_lookup_r _ _ _ _ _ Hd Hk) as (b & Hb & Hf & Hs). exists b. split; [done|].
  apply Forall2_length in Hf. unfold is_free, is_stale, unwritten.
  destruct (b_entries b), (b_entries b'); try done; destruct Hs as [->|[[-> ->]|[-> ->]]]; done.
Qed.

Lemma drift_frees bs bs' : drift bs bs' -> frees bs' = frees bs.
Proof.
  intros Hd. unfold frees. f_equal. induction Hd as [|b b' bs bs' Hb Hd IH]; [done|]. simpl.
  destruct (drift_kinds [b] [b'] 0 b') as (b0 & [= <-] & -> & _); [constructor; [done|constructor]|done|]. by destruct (is_free b); simpl; rewrite ?IH.
Qed.

(** [st] is the block that claims to be clean and is not. *)
Definition stale_at (st : option nat) (bs : list blk) : Prop := forall k b, bs !! k = Some b -> (is_stale b = true <-> st = Some k).

Lemma drift_stale st bs bs' : drift bs bs' -> stale_at st bs -> stale_at st bs'.
Proof. intros Hd Hs k b' Hk. destruct (drift_kinds _ _ _ _ Hd Hk) as (b & Hb & _ & ->). by apply Hs. Qed.

Record scanning (i : nat) w (bs : list blk) : Prop := {
  sn_core : core w bs;
  sn_done : forall k c, (k < i)%nat -> bs !! k = Some c -> block_info (mgr w) !! k = Some (info_of c) /\ fine c;
  sn_todo : forall k, (i <= k < N)%nat -> block_info (mgr w) !! k = Some (mk_info 0 0);
  sn_frees : clean_blk_nums (mgr w) = frees (take i bs)
}.

(** A block without header is formatted. *)
Lemma scan_blank i w bs b rest : scanning i w bs -> bs !! i = Some b -> b_state b = BLANK -> phase w bs i 0 rest ->
  exists w' bs', kv_block_format (Z.of_nat i) w = Ret (RES_OK, w') /\ scanning (S i) w' bs' /\ phase w' bs' (S i) 0 rest /\ drift bs bs'.
Proof.
  intros [Sco Sd St Sf] Hi Hb Hph. destruct (co_num _ _ Sco) as [Hlen HN]. pose proof (lookup_lt_Some _ _ _ Hi) as Hil.
  destruct (co_here _ _ Sco i b Hi) as [(_ & He & _)|[Hv _]]; [|by rewrite Hb in Hv].
  set (b' := mk_blk BLK_STATE_CLEAN []). assert (Hdr : drift bs (<[i := b']> bs)).
  { apply (drift_insert _ _ b); [done|by rewrite He|by right; right]. }
  rewrite block_format_eq by (rewrite ?(co_infos _ _ Sco); lia). eexists _, (<[i := b']> bs). split; [done|]. split; [split|split; [|done]].
  - split; [by rewrite length_insert|apply Sco|simpl; rewrite length_insert; apply Sco|].
    apply (here_insert (flash w)); [apply Sco|apply formatted_same|]. right. split; [done|]. apply formatted_laid.
  - intros k c Hk. simpl. rewrite list_lookup_insert_Some. intros [(<- & <- & _)|[Hne Hc]].
    + rewrite list_lookup_insert_eq by (rewrite (co_infos _ _ Sco); lia). done.
    + rewrite list_lookup_insert_ne by done. apply Sd; [lia|done].
  - intros k Hk. simpl. rewrite list_lookup_insert_ne by lia. apply St. lia.
  - simpl. rewrite Sf. pose proof (frees_bound (take i bs)) as Hbd. rewrite length_take in Hbd. rewrite u8_id by kvlia.
    assert (Hib : <[i := b']> bs !! i = Some b') by (by apply list_lookup_insert_eq).
    rewrite (frees_take_S _ _ _ Hib). f_equal. rewrite take_insert_ge by lia. done.
  - pose proof (phase_same w (mk_world (mgr w) (formatted (flash w) i) []) bs i b b' i 0 rest (calm_formatted _ _) Hi (eq_sym He) Hph) as
      [Hq|(ky & ny & k1 & n1 & x1 & Hpd & Hpos & Hp)]; [by left|right]. exists ky, ny, k1, n1, x1. split; [done|]. split; [|done].
    destruct Hpos as [?|[<- _]]; [lia|exfalso]. destruct (pd_new _ _ _ _ _ _ _ Hpd) as (c & y & Hc & Hy & _).
    rewrite list_lookup_insert_eq in Hc by done. injection Hc as <-. done.
Qed.

(** A block with header is traversed. *)
Lemma scan_laid i w bs b rest : scanning i w bs -> bs !! i = Some b -> INVALID_BLK_STATE (b_state b) = false -> phase w bs i 0 rest ->
  exists w1 w' bs' b', set_bstate (Z.of_nat i) (b_state b) w = Ret (tt, w1) /\
    kv_item_traverse item_recovery_cb (Z.of_nat i) w1 = Ret (None, w') /\
    phase w' bs' (S i) 0 rest /\ drift bs bs' /\ core w' bs' /\ bs' !! i = Some b' /\
    (forall k c, (k < S i)%nat -> bs' !! k = Some c -> block_info (mgr w') !! k = Some (info_of c) /\ fine c) /\
    (forall k, (S i <= k < N)%nat -> block_info (mgr w') !! k = Some (mk_info 0 0)) /\
    clean_blk_nums (mgr w') = frees (take i bs').
Proof.
  intros [Sco Sd St Sf] Hi Hv Hph. destruct (co_num _ _ Sco) as [Hlen HN]. pose proof (lookup_lt_Some _ _ _ Hi) as Hil.
  assert (Hi0 : block_info (mgr w) !! Z.to_nat (Z.of_nat i) = Some (mk_info 0 0)) by (rewrite Nat2Z.id; apply St; lia).
  pose proof (set_bstate_eq _ (b_state b) _ _ Hi0) as Hr1. rewrite Nat2Z.id in Hr1. cbn [space] in Hr1.
  match type of Hr1 with _ = Ret (tt, ?w2) => set (w1 := w2) in Hr1 end.
  assert (Hib : in_block i 0 0 w1 bs b).
  { split; try done.
    - split; [apply Sco|apply Sco|simpl; rewrite length_insert; apply Sco|apply Sco].
    - simpl. apply list_lookup_insert_eq. rewrite (co_infos _ _ Sco). lia.
    - intros k c Hk Hc. simpl. rewrite list_lookup_insert_ne by lia. by apply Sd.
    - intros k Hk. simpl. rewrite list_lookup_insert_ne by lia. apply St. lia. }
  assert (Hp0 : epos i b 0 = base i + BLK_HEADER_SIZE) by (unfold epos; rewrite take_0; simpl; lia).
  destruct (recover_entries TRAVERSE_FUEL _ i 0 0 w1 bs b rest Hib Hph eq_refl) as (w' & bs' & Hr & Hph' & Hdr & [bi Ho] & Hco & Hd & Ht);
    [lia|rewrite Hp0; unfold TRAVERSE_FUEL; kvlia|]. rewrite Hp0 in Hr.
  destruct (Forall2_lookup_l _ _ _ _ _ Hdr Hi) as (b' & Hb' & _). exists w1, w', bs', b'. rewrite traverse_start by lia. split_and!; try done.
  - intros k c Hk. apply Hd. lia.
  - rewrite Ho. simpl. rewrite Sf. symmetry. apply drift_frees. by apply Forall2_take.
Qed.

(** The blocks below [i] that the scan has to come back to. *)
Definition to_do (st : option nat) (i : nat) : list Z :=
  match st with Some g => if (g <? i)%nat then [Z.of_nat g] else [] | None => [] end.

Lemma to_do_S st i : to_do st (S i) = if decide (st = Some i) then Z.of_nat i :: to_do st i else to_do st i.
Proof.
  unfold to_do. destruct st as [g|]; [|by rewrite decide_False]. destruct (decide (Some g = Some i)) as [[= ->]|Hne].
  - rewrite (proj2 (Nat.ltb_lt i (S i))), (proj2 (Nat.ltb_ge i i)) by lia. done.
  - assert (g <> i) by congruence. destruct (Nat.ltb_spec g (S i)), (Nat.ltb_spec g i); (done || lia).
Qed.

Lemma entries_total f k b : laid f k (b_state b) (b_entries b) ->
  (total (b_entries b) = 0 <-> b_entries b = []) /\ 0 <= total (b_entries b) < BLK_SIZE - BLK_HEADER_SIZE.
Proof.
  intros [_ _ L3 L4]. pose proof (total_nonneg _ L3) as Ht. split; [|lia]. split; [|by intros ->].
  destruct L3 as [|x es Hx Hes]; [done|]. destruct (elen_bounds x Hx) as (_ & _ & Hb). pose proof (total_nonneg _ Hes).
  change (total (x :: es)) with (elen x + total es). lia.
Qed.

Lemma scan_recover st n i w bs rest :
  (i + n = N)%nat -> scanning i w bs -> phase w bs i 0 rest -> stale_at st bs ->
  exists w' bs', scan_loop n (Z.of_nat i) (to_do st i) w = Ret (to_do st N, w') /\ scanning N w' bs' /\ phase w' bs' N 0 rest /\ drift bs bs'.
Proof.
  revert i w bs. induction n as [|n IH]; intros i w bs Hin Hsn Hph Hst.
  { replace i with N in * by lia. exists w, bs. split_and!; done. }
  pose proof Hsn as [Sco Sd St Sf]. destruct (co_num _ _ Sco) as [Hlen HN].
  destruct (lookup_lt_is_Some_2 bs i) as [b Hi]; [lia|].
  assert (Hgo : forall w1 bs1 u, scanning (S i) w1 bs1 -> phase w1 bs1 (S i) 0 rest -> drift bs bs1 -> u = to_do st (S i) ->
    exists w' bs', scan_loop n (Z.of_nat i + 1) u w1 = Ret (to_do st N, w') /\ scanning N w' bs' /\ phase w' bs' N 0 rest /\ drift bs bs').
  { intros w1 bs1 u Hsn1 Hph1 Hdr1 ->. replace (Z.of_nat i + 1) with (Z.of_nat (S i)) by lia.
    destruct (IH (S i) w1 bs1) as (w' & bs' & Hr & H1 & H2 & H3); [lia|done|done|by apply (drift_stale st bs)|].
    exists w', bs'. split_and!; try done. by transitivity bs1. }
  assert (Hfree : is_stale b = false -> to_do st i = to_do st (S i)).
  { intros Hs. rewrite to_do_S, decide_False; [done|]. intros Heq. apply (Hst i b Hi) in Heq. congruence. }
  cbn [scan_loop]. rewrite shiftl_base by lia.
  assert (Hr : raw_read (base i) BLK_HEADER_SIZE w = Ret (rd (flash w) (base i) BLK_HEADER_SIZE, w)) by done. rewrite (bind_step _ _ _ _ _ Hr).
  destruct (co_here _ _ Sco i b Hi) as [(Hb & He & Hm)|[Hv Hlaid]].
  - rewrite (proj2 (Z.eqb_neq _ _) Hm). destruct (scan_blank i w bs b rest Hsn Hi Hb Hph) as (w1 & bs1 & Hr1 & Hsn1 & Hph1 & Hdr1).
    rewrite (bind_step _ _ _ _ _ Hr1). apply (Hgo w1 bs1); try done. apply Hfree. unfold is_stale. rewrite He. by rewrite andb_false_r.
  - rewrite (laid_hdr _ _ _ _ Hlaid). change ([BLK_MAGIC_NUM; b_state b; 0; 0] !!! 0%nat =? BLK_MAGIC_NUM) with true.
    change ([BLK_MAGIC_NUM; b_state b; 0; 0] !!! 1%nat) with (b_state b). cbv zeta. rewrite Hv.
    destruct (scan_laid i w bs b rest Hsn Hi Hv Hph) as (wa & w1 & bs1 & b1 & Ha & Hr1 & Hph1 & Hdr1 & Hco1 & Hb1 & Hd1 & Ht1 & Hf1).
    rewrite (bind_step _ _ _ _ _ Ha), (bind_step _ _ _ _ _ Hr1).
    destruct (drift_kinds _ _ _ _ Hdr1 Hb1) as (b0 & Hb0 & Hfr & Hsl). assert (b0 = b) as -> by congruence.
    destruct (Forall2_lookup_lr _ _ _ _ _ _ Hdr1 Hi Hb1) as [Hfd Hs1]. destruct (Hd1 i b1 ltac:(lia) Hb1) as [Hi1 [Hv1 Hu1]].
    destruct (co_here _ _ Hco1 i b1 Hb1) as [(Hbad & _)|[_ Hlaid1]]; [by rewrite Hbad in Hv1|].
    destruct (entries_total _ _ _ Hlaid1) as [Htot _].
    assert (Hcl : b_state b1 = BLK_STATE_CLEAN <-> b_state b = BLK_STATE_CLEAN).
    { destruct Hs1 as [->|[[-> ->]|[Hx _]]]; [done|done|]. by rewrite Hx in Hv. }
    destruct (Z.eqb_spec (b_state b) BLK_STATE_CLEAN) as [Hc|Hc].
    + rewrite (bind_step _ _ _ _ _ (get_info_eq (Z.of_nat i) w1 (info_of b1) ltac:(rewrite Nat2Z.id; exact Hi1))).
      unfold info_of at 1. cbn [space]. apply Hcl in Hc.
      destruct (Z.eqb_spec (BLK_SIZE - BLK_HEADER_SIZE - total (b_entries b1)) (BLK_SIZE - BLK_HEADER_SIZE)) as [Heq|Hne]; cbn [negb].
      * assert (He1 : b_entries b1 = []) by (apply Htot; lia).
        assert (Hfr1 : is_free b1 = true) by (unfold is_free, unwritten; by rewrite Hc, He1).
        rewrite (bind_step _ _ _ _ _ (modify_eq _ _)). apply (Hgo _ bs1); try done.
        -- split; [|done|done|].
           ++ split; apply Hco1.
           ++ simpl. rewrite (frees_take_S _ _ _ Hb1), Hfr1, Hf1. pose proof (frees_bound (take i bs1)) as Hbd. rewrite length_take in Hbd.
              rewrite u8_id by (simpl; kvlia). done.
        -- apply Hfree. rewrite <- Hsl. unfold is_stale. by rewrite He1, andb_false_r.
      * assert (Hne1 : b_entries b1 <> []) by (intros He1; apply Hne; apply Htot in He1; lia).
        assert (Hstale : is_stale b1 = true) by (unfold is_stale, unwritten; rewrite Hc; by destruct (b_entries b1)).
        apply (Hgo _ bs1); try done.
        -- split; try done. rewrite (frees_take_S _ _ _ Hb1), Hf1. unfold is_free. destruct (b_entries b1); [done|]. rewrite andb_false_r. simpl. lia.
        -- rewrite to_do_S, decide_True; [done|]. apply (Hst i b Hi). congruence.
    + assert (Hun : unwritten b = false).
      { unfold unwritten. rewrite (proj2 (Z.eqb_neq _ _) Hc). destruct (Z.eqb_spec (b_state b) BLANK) as [Hx|]; [by rewrite Hx in Hv|done]. }
      apply (Hgo _ bs1); try done.
      * split; try done. rewrite (frees_take_S _ _ _ Hb1), Hf1, Hfr. unfold is_free. rewrite Hun. simpl. lia.
      * apply Hfree. unfold is_stale. by rewrite Hun.
Qed.

Lemma cleans_app l1 l2 : cleans (l1 ++ l2) = cleans l1 + cleans l2.
Proof. unfold cleans. rewrite List.filter_app, length_app. lia. Qed.

Lemma cleans_bound bs : 0 <= cleans bs <= Z.of_nat (length bs).
Proof. unfold cleans. pose proof (List.filter_length_le is_clean bs). lia. Qed.

(** ** The write position *)

Definition next_of (k : nat) : nat := if (S k =? N)%nat then 0 else S k.

(** Some block in use is followed by a clean one. *)
Lemma boundary (bs : list blk) :
  length bs = N -> (0 < N)%nat ->
  (exists j b, bs !! j = Some b /\ b_state b <> BLK_STATE_CLEAN) -> (exists g c, bs !! g = Some c /\ b_state c = BLK_STATE_CLEAN) ->
  ~ (forall k b c, bs !! k = Some b -> b_state b <> BLK_STATE_CLEAN -> bs !! next_of k = Some c -> b_state c <> BLK_STATE_CLEAN).
Proof.
  intros Hlen HN (j & b & Hj & Hb) (g & c & Hg & Hc) Hall.
  assert (Hrun : forall m d, bs !! ((j + m) mod N)%nat = Some d -> b_state d <> BLK_STATE_CLEAN).
  { induction m as [|m IH]; intros d Hd.
    - pose proof (lookup_lt_Some _ _ _ Hj). rewrite Nat.add_0_r, Nat.mod_small in Hd by lia. congruence.
    - destruct (lookup_lt_is_Some_2 bs ((j + m) mod N)) as [d' Hd']; [rewrite Hlen; apply Nat.mod_upper_bound; lia|].
      apply (Hall ((j + m) mod N)%nat d' d Hd' (IH d' Hd')). rewrite <- Hd. f_equal. unfold next_of.
      replace (j + S m)%nat with (j + m + 1)%nat by lia. rewrite <- (Nat.Div0.add_mod_idemp_l (j + m) 1 N).
      pose proof (Nat.mod_upper_bound (j + m) N ltac:(lia)) as Hr. set (r := ((j + m) mod N)%nat) in *. clearbody r.
      destruct (Nat.eqb_spec (S r) N) as [He|He].
      + replace (r + 1)%nat with N by lia. symmetry. apply Nat.Div0.mod_same.
      + rewrite Nat.mod_small by lia. lia. }
  pose proof (lookup_lt_Some _ _ _ Hj) as Hjl. pose proof (lookup_lt_Some _ _ _ Hg) as Hgl.
  apply (Hrun (N - j + g)%nat c); [|done]. replace (j + (N - j + g))%nat with (g + 1 * N)%nat by lia.
  by rewrite Nat.Div0.mod_add, Nat.mod_small by lia.
Qed.

Lemma pick_spec n i w (bs : list blk) :
  length bs = N -> (2 <= N <= 15)%nat -> (i + n = N)%nat ->
  (forall k b, bs !! k = Some b -> INVALID_BLK_STATE (b_state b) = false /\ 0 <= total (b_entries b) < BLK_SIZE - BLK_HEADER_SIZE) ->
  (forall k b, bs !! k = Some b -> block_info (mgr w) !! k = Some (info_of b)) ->
  (exists k b, bs !! k = Some b /\ b_state b <> BLK_STATE_CLEAN /\
     pick_loop N n (Z.of_nat i) w = Ret (tt, mk_world (upd_write_pos (base k + BLK_HEADER_SIZE + total (b_entries b)) (mgr w)) (flash w) (oom w))) \/
  (forall k b c, (i <= k)%nat -> bs !! k = Some b -> b_state b <> BLK_STATE_CLEAN -> bs !! next_of k = Some c -> b_state c <> BLK_STATE_CLEAN).
Proof.
  intros Hlen HN Hin Hst Hinfo. revert i Hin. induction n as [|n IH]; intros i Hin.
  { right. intros k b c Hk Hb. apply lookup_lt_Some in Hb. lia. }
  destruct (lookup_lt_is_Some_2 bs i) as [b Hb]; [lia|]. destruct (Hst i b Hb) as [Hv Ht]. cbn [pick_loop].
  rewrite (bind_step _ _ _ _ _ (get_info_eq (Z.of_nat i) w (info_of b) ltac:(rewrite Nat2Z.id; by apply Hinfo))).
  cbn [bstate info_of]. replace (Z.of_nat i + 1) with (Z.of_nat (S i)) by lia.
  assert (Hcl : (b_state b =? BLK_STATE_USED) || (b_state b =? BLK_STATE_DIRTY) = negb (b_state b =? BLK_STATE_CLEAN)).
  { unfold INVALID_BLK_STATE, BLK_STATE_USED, BLK_STATE_DIRTY, BLK_STATE_CLEAN in *.
    destruct (Z.eqb_spec (b_state b) 0xCC), (Z.eqb_spec (b_state b) 0x44), (Z.eqb_spec (b_state b) 0xEE); simpl in *; (done || (exfalso; lia)). }
  rewrite Hcl. destruct (Z.eqb_spec (b_state b) BLK_STATE_CLEAN) as [Hc|Hc]; cbn [negb].
  - destruct (IH (S i)) as [Hl|Hr]; [lia|by left|]. right. intros k d c Hk Hd Hnc Hn.
    destruct (decide (k = i)) as [->|]; [congruence|]. apply (Hr k d c); [lia|done..].
  - assert (Hnx : (if Z.of_nat (S i) =? Z.of_nat N then 0 else Z.of_nat (S i)) = Z.of_nat (next_of i)).
    { unfold next_of. destruct (Nat.eqb_spec (S i) N) as [->|]; [by rewrite Z.eqb_refl|]. by rewrite (proj2 (Z.eqb_neq _ _)) by lia. }
    cbv zeta. rewrite Hnx. destruct (lookup_lt_is_Some_2 bs (next_of i)) as [c Hcn]; [unfold next_of; destruct (Nat.eqb_spec (S i) N); lia|].
    rewrite (bind_step _ _ _ _ _ (get_info_eq (Z.of_nat (next_of i)) w (info_of c) ltac:(rewrite Nat2Z.id; by apply Hinfo))).
    cbn [bstate info_of]. destruct (Z.eqb_spec (b_state c) BLK_STATE_CLEAN) as [Hcc|Hcc].
    + left. exists i, b. split_and!; [done..|]. rewrite modify_eq, shiftl_base by lia. unfold info_of. cbn [space].
      rewrite u16_id by (unfold base; kvlia). do 4 f_equal. lia.
    + destruct (IH (S i)) as [Hl|Hr]; [lia|by left|]. right. intros k d e Hk Hd Hnc Hn.
      destruct (decide (k = i)) as [->|]; [by assert (e = c) as -> by congruence|]. apply (Hr k d e); [lia|done..].
Qed.

(** The end of [qm_kv_init], once the blocks are known. *)
Lemma init_end w bs : wf N w bs ->
  exists w', (modify (upd_initialize 1);; g ← get_mgr; b ← get_info (u8 (Z.shiftr (write_pos g) BLK_BITS));
    (if (space b <? ITEM_MAX_LEN) && (clean_blk_nums g <? KV_GC_RESERVED + 1) then trigger_gc else mret tt);; mret RES_OK) w = Ret (RES_OK, w') /\
    wf N w' bs.
Proof.
  intros Hw. rewrite (bind_step _ _ _ _ _ (modify_eq _ _)). set (w1 := mk_world _ _ _).
  assert (Hw1 : wf N w1 bs) by (apply (wf_ext N w); try done; apply Hw).
  assert (Hgm : get_mgr w1 = Ret (mgr w1, w1)) by done. rewrite (bind_step _ _ _ _ _ Hgm).
  destruct (wf_write _ _ _ Hw1) as (j & b & Hj & Hnc & Hp). destruct (wf_num _ _ _ Hw1) as [Hlen HN]. pose proof (lookup_lt_Some _ _ _ Hj) as Hjl.
  destruct (wf_blocks _ _ _ Hw1 j b Hj) as [[_ _ L3 L4] _ _ _ _]. pose proof (total_nonneg _ L3).
  destruct (pos_block j (BLK_HEADER_SIZE + total (b_entries b))) as [Hsh _]; [lia|kvlia|]. rewrite Z.add_assoc, <- Hp in Hsh. rewrite Hsh.
  rewrite (bind_step _ _ _ _ _ (wf_get_info N w1 bs j b Hw1 Hj)). destruct (_ && _).
  - destruct (trigger_gc_wf N w1 bs Hw1) as (w2 & Hr & Hw2 & _). rewrite (bind_step _ _ _ _ _ Hr). by exists w2.
  - by exists w1.
Qed.


(** ** After the scan *)

(** Every block is described by the manager and no block waits for the scan. *)
Record swept w (bs : list blk) : Prop := {
  sw_core : core w bs;
  sw_info : forall k c, bs !! k = Some c -> block_info (mgr w) !! k = Some (info_of c) /\ fine c;
  sw_clean : forall k c, bs !! k = Some c -> b_state c = BLK_STATE_CLEAN -> b_entries c = [];
  sw_count : clean_blk_nums (mgr w) = cleans bs
}.

Lemma swept_wf w bs : swept w bs ->
  (exists k b, bs !! k = Some b /\ b_state b <> BLK_STATE_CLEAN /\ write_pos (mgr w) = base k + BLK_HEADER_SIZE + total (b_entries b)) -> wf N w bs.
Proof.
  intros [Sco Si Sc Sn] Hp. split; [apply Sco|apply Sco| |apply Sco|done|done]. intros i b Hi. destruct (Si i b Hi) as [Hinf [Hv Hu]].
  destruct (co_here _ _ Sco i b Hi) as [(Hb & _)|[_ Hl]]; [by rewrite Hb in Hv|]. split; try done. by apply (Sc i).
Qed.

Lemma swept_pos w bs p : swept w bs -> swept (mk_world (upd_write_pos p (mgr w)) (flash w) (oom w)) bs.
Proof. intros [Sco Si Sc Sn]. split; try done. split; apply Sco. Qed.

Definition finish : M (F := F) Z :=
  g ← get_mgr;
  (if clean_blk_nums g =? Z.of_nat N then
     modify (upd_write_pos BLK_HEADER_SIZE);;
     kv_state_set (Z.land BLK_HEADER_SIZE BLK_OFF_MASK) BLK_STATE_USED;;
     set_bstate 0 BLK_STATE_USED;;
     modify (fun g => upd_clean (u8 (clean_blk_nums g - 1)) g)
   else pick_loop N N 0);;
  mret RES_OK.

(** All blocks are clean: the first one is opened. *)
Lemma finish_all_clean w bs : swept w bs -> cleans bs = Z.of_nat N ->
  exists w' bs', finish w = Ret (RES_OK, w') /\ wf N w' bs' /\ bs' = <[0%nat := mk_blk BLK_STATE_USED []]> bs /\
    (exists b, bs !! 0%nat = Some b /\ b_entries b = [] /\ b_state b = BLK_STATE_CLEAN).
Proof.
  intros Hsw Hcl. pose proof Hsw as [Sco Si Sc Sn]. destruct (co_num _ _ Sco) as [Hlen HN].
  destruct (lookup_lt_is_Some_2 bs 0) as [b Hb]; [lia|].
  assert (Hbc : b_state b = BLK_STATE_CLEAN).
  { destruct (Z.eqb_spec (b_state b) BLK_STATE_CLEAN) as [|Hne]; [done|exfalso].
    pose proof (cleans_insert bs 0 b (mk_blk BLK_STATE_CLEAN []) Hb) as Hci. unfold is_clean in Hci.
    rewrite (proj2 (Z.eqb_neq _ _) Hne) in Hci. simpl in Hci.
    pose proof (cleans_bound (<[0%nat := mk_blk BLK_STATE_CLEAN []]> bs)) as Hbd. rewrite length_insert in Hbd. lia. }
  pose proof (Sc 0%nat b Hb Hbc) as Hbe. destruct (Si 0%nat b Hb) as [Hi0 _]. unfold finish.
  assert (Hgm : get_mgr w = Ret (mgr w, w)) by done. rewrite (bind_step _ _ _ _ _ Hgm), Sn, Hcl, Z.eqb_refl.
  set (b1 := mk_blk BLK_STATE_USED []). set (w1 := mk_world (upd_write_pos BLK_HEADER_SIZE (mgr w)) (flash w) (oom w)).
  set (f1 := set_state (flash w) (base 0) BLK_STATE_USED).
  set (w2 := mk_world (upd_info (<[0%nat := info_of b1]> (block_info (mgr w))) (upd_write_pos BLK_HEADER_SIZE (mgr w))) f1 (oom w)).
  set (w3 := mk_world (upd_clean (u8 (clean_blk_nums (mgr w) - 1)) (mgr w2)) f1 (oom w)).
  assert (Hr : (modify (upd_write_pos BLK_HEADER_SIZE);; kv_state_set (Z.land BLK_HEADER_SIZE BLK_OFF_MASK) BLK_STATE_USED;;
     set_bstate 0 BLK_STATE_USED;; modify (fun g => upd_clean (u8 (clean_blk_nums g - 1)) g)) w = Ret (tt, w3)).
  { rewrite (bind_step _ _ _ _ _ (modify_eq _ _)).
    assert (Hs : kv_state_set (Z.land BLK_HEADER_SIZE BLK_OFF_MASK) BLK_STATE_USED w1 = Ret (tt, mk_world (mgr w1) f1 (oom w1))) by done.
    rewrite (bind_step _ _ _ _ _ Hs).
    rewrite (bind_step _ _ _ _ _ (set_bstate_eq 0 BLK_STATE_USED (mk_world (mgr w1) f1 (oom w1)) (info_of b) Hi0)).
    rewrite modify_eq. unfold w3, w2, info_of. simpl. by rewrite Hbe. }
  rewrite (bind_step _ _ _ _ _ Hr). eexists w3, _. split; [done|]. split; [|split; [done|by exists b]].
  assert (Hcount : cleans (<[0%nat := b1]> bs) = Z.of_nat N - 1).
  { rewrite (cleans_insert _ _ _ _ Hb). unfold is_clean. rewrite Hbc. simpl. lia. }
  apply swept_wf; [split|].
  - split; [by rewrite length_insert|apply Sco|simpl; rewrite length_insert; apply Sco|].
    apply (here_insert (flash w)); [apply Sco| |].
    + simpl. unfold f1. rewrite <- (Z.add_0_r (base 0)). apply set_state_same_but; unfold KV_STATE_OFF; kvlia.
    + destruct (co_here _ _ Sco 0%nat b Hb) as [(Hx & _)|[_ Hl]]; [by rewrite Hx in Hbc|]. right. split; [done|].
      rewrite Hbc, Hbe in Hl. exact (laid_set_state _ _ _ _ BLK_STATE_USED Hl).
  - intros k c. simpl. rewrite list_lookup_insert_Some. intros [(<- & <- & _)|[Hne Hc]].
    + rewrite list_lookup_insert_eq by (rewrite (co_infos _ _ Sco); lia). split; [done|]. split; [done|by intros _].
    + rewrite list_lookup_insert_ne by done. by apply Si.
  - intros k c. rewrite list_lookup_insert_Some. intros [(<- & <- & _)|[Hne Hc]]; [done|by apply (Sc k)].
  - simpl. rewrite Sn, Hcount, Hcl. apply u8_id. kvlia.
  - exists 0%nat, b1. rewrite list_lookup_insert_eq by lia. done.
Qed.

(** Otherwise the write position goes behind the entries of a block in use. *)
Lemma finish_pick w bs : swept w bs -> 0 < cleans bs < Z.of_nat N ->
  exists w', finish w = Ret (RES_OK, w') /\ wf N w' bs.
Proof.
  intros Hsw Hcl. pose proof Hsw as [Sco Si Sc Sn]. destruct (co_num _ _ Sco) as [Hlen HN]. unfold finish.
  assert (Hgm : get_mgr w = Ret (mgr w, w)) by done. rewrite (bind_step _ _ _ _ _ Hgm), Sn, (proj2 (Z.eqb_neq _ _)) by lia.
  destruct (pick_spec N 0 w bs Hlen HN eq_refl) as [(k & b & Hk & Hb & Hr)|Hnone].
  - intros k b Hk. destruct (Si k b Hk) as [_ [Hv _]]. split; [done|].
    destruct (co_here _ _ Sco k b Hk) as [(Hx & _)|[_ Hl]]; [by rewrite Hx in Hv|]. by apply (entries_total (flash w) k).
  - intros k b Hk. by apply Si.
  - change (Z.of_nat 0) with 0 in Hr. rewrite (bind_step _ _ _ _ _ Hr). eexists. split; [done|].
    apply swept_wf; [by apply swept_pos|]. by exists k, b.
  - exfalso. apply (boundary bs Hlen ltac:(lia)).
    + destruct (decide (List.Forall (fun b => b_state b = BLK_STATE_CLEAN) bs)) as [Hall|Hnot].
      * assert (cleans bs = Z.of_nat N); [|lia]. unfold cleans. rewrite <- Hlen. f_equal. clear -Hall.
        induction Hall as [|b l Hb Hl IH]; [done|]. simpl. unfold is_clean at 1. rewrite Hb. simpl. by rewrite IH.
      * apply not_Forall_Exists in Hnot; [|apply _]. apply Exists_exists in Hnot as (b & Hb & Hne).
        apply list_elem_of_lookup in Hb as [j Hj]. by exists j, b.
    + apply cleans_pos. lia.
    + intros k b c Hk. apply Hnone; [lia|done].
Qed.

Lemma frees_insert bs j b b' : bs !! j = Some b ->
  frees (<[j := b']> bs) = frees bs - Z.b2z (is_free b) + Z.b2z (is_free b').
Proof.
  intros Hj. rewrite (insert_take_drop _ _ _ (lookup_lt_Some _ _ _ Hj)). rewrite <- (take_drop_middle _ _ _ Hj) at 3.
  rewrite !frees_app. unfold frees. simpl. destruct (is_free b), (is_free b'); simpl; lia.
Qed.

Lemma cleans_frees bs : List.Forall (fun b => b_state b <> BLANK /\ is_stale b = false) bs -> cleans bs = frees bs.
Proof.
  unfold cleans, frees. intros H. f_equal. induction H as [|b l [Hb Hs] Hl IH]; [done|]. simpl.
  assert (Heq : is_clean b = is_free b).
  { unfold is_clean, is_free, is_stale, unwritten in *. rewrite (proj2 (Z.eqb_neq _ _) Hb) in *.
    destruct (b_state b =? BLK_STATE_CLEAN), (b_entries b); done. }
  rewrite Heq. destruct (is_free b); simpl; by rewrite IH.
Qed.

Lemma scanned_swept w bs : scanning N w bs -> (forall k b, bs !! k = Some b -> is_stale b = false) -> swept w bs.
Proof.
  intros [Sco Sd St Sf] Hns. destruct (co_num _ _ Sco) as [Hlen HN].
  assert (Hd : forall k c, bs !! k = Some c -> block_info (mgr w) !! k = Some (info_of c) /\ fine c).
  { intros k c Hk. apply Sd; [by apply lookup_lt_Some in Hk as ?; lia|done]. }
  split; [done|done| |].
  - intros k c Hk Hc. pose proof (Hns k c Hk) as Hs. unfold is_stale, unwritten in Hs. rewrite Hc in Hs. by destruct (b_entries c).
  - rewrite Sf, take_ge by lia. symmetry. apply cleans_frees, Forall_lookup. intros k c Hk. split; [|by apply (Hns k)].
    destruct (Hd k c Hk) as [_ [Hv _]]. intros Hx. by rewrite Hx in Hv.
Qed.

(** Changing the stale block. *)
Lemma swept_stale g w bs w' b b' :
  scanning N w bs -> stale_at (Some g) bs -> bs !! g = Some b -> core w' (<[g := b']> bs) -> is_stale b' = false -> fine b' ->
  block_info (mgr w') = <[g := info_of b']> (block_info (mgr w)) ->
  clean_blk_nums (mgr w') = frees bs + Z.b2z (is_free b') -> swept w' (<[g := b']> bs).
Proof.
  intros [Sco Sd St Sf] Hst Hg Hco Hs Hf Hi Hc. destruct (co_num _ _ Sco) as [Hlen HN]. pose proof (lookup_lt_Some _ _ _ Hg) as Hgl.
  apply scanned_swept.
  - split; [done| |intros; lia|].
    + intros k c Hk. rewrite Hi, list_lookup_insert_Some. intros [(<- & <- & _)|[Hne Hc0]].
      * by rewrite list_lookup_insert_eq by (rewrite (co_infos _ _ Sco); lia).
      * rewrite list_lookup_insert_ne by done. by apply Sd.
    + rewrite take_ge by (rewrite length_insert; lia). rewrite Hc, (frees_insert _ _ _ _ Hg).
      assert (Hb : is_stale b = true) by (by apply (Hst g b Hg)). unfold is_stale, is_free in *. destruct (b_entries b); [by rewrite andb_false_r in Hb|].
      rewrite andb_false_r. simpl. lia.
  - intros k c. rewrite list_lookup_insert_Some. intros [(<- & <- & _)|[Hne Hc0]]; [done|].
    destruct (is_stale c) eqn:Hsc; [|done]. apply (Hst k c Hc0) in Hsc. congruence.
Qed.

(** A block that was not clean after all: kept as dirty when there is a clean block. *)
Lemma unclean_one g w bs b : scanning N w bs -> stale_at (Some g) bs -> bs !! g = Some b ->
  exists w' b', unclean_loop [Z.of_nat g] w = Ret (tt, w') /\ swept w' (<[g := b']> bs) /\ 0 < clean_blk_nums (mgr w') /\
    b' = (if frees bs =? 0 then mk_blk BLK_STATE_CLEAN [] else mk_blk BLK_STATE_DIRTY (b_entries b)).
Proof.
  intros Hsn Hst Hg. pose proof Hsn as [Sco Sd St Sf]. destruct (co_num _ _ Sco) as [Hlen HN]. pose proof (lookup_lt_Some _ _ _ Hg) as Hgl.
  assert (Hsb : is_stale b = true) by (by apply (Hst g b Hg)).
  rewrite take_ge in Sf by lia. destruct (Sd g b ltac:(lia) Hg) as [Hi [Hv _]].
  assert (Hbc : b_state b = BLK_STATE_CLEAN).
  { unfold is_stale, unwritten in Hsb. destruct (Z.eqb_spec (b_state b) BLK_STATE_CLEAN); [done|].
    destruct (Z.eqb_spec (b_state b) BLANK) as [Hx|]; [by rewrite Hx in Hv|done]. }
  destruct (co_here _ _ Sco g b Hg) as [(Hx & _)|[_ Hl]]; [by rewrite Hx in Hbc|]. pose proof (frees_bound bs) as Hfb.
  cbn [unclean_loop]. assert (Hgm : get_mgr w = Ret (mgr w, w)) by done. rewrite (bind_step _ _ _ _ _ Hgm), Sf. unfold KV_GC_RESERVED.
  destruct (Z.leb_spec 1 (frees bs)) as [Hf|Hf].
  - rewrite (proj2 (Z.eqb_neq (frees bs) 0)), shiftl_base by lia. set (b' := mk_blk BLK_STATE_DIRTY (b_entries b)).
    set (f1 := set_state (flash w) (base g) BLK_STATE_DIRTY).
    set (w1 := mk_world (upd_info (<[g := info_of b']> (block_info (mgr w))) (mgr w)) f1 (oom w)).
    assert (Hr : (kv_state_set (base g) BLK_STATE_DIRTY;; set_bstate (Z.of_nat g) BLK_STATE_DIRTY) w = Ret (tt, w1)).
    { assert (Hs : kv_state_set (base g) BLK_STATE_DIRTY w = Ret (tt, mk_world (mgr w) f1 (oom w))) by done.
      rewrite (bind_step _ _ _ _ _ Hs), (set_bstate_eq _ _ _ (info_of b)); rewrite Nat2Z.id; done. }
    exists w1, b'. rewrite (bind_step _ _ _ _ _ Hr). split; [done|]. split; [|split; [simpl; lia|done]].
    apply (swept_stale g w bs w1 b); try done; [|by simpl; rewrite Sf; lia].
    split; [by rewrite length_insert|apply Sco|simpl; rewrite length_insert; apply Sco|].
    apply (here_insert (flash w)); [apply Sco| |].
    + simpl. unfold f1. rewrite <- (Z.add_0_r (base g)). apply set_state_same_but; unfold KV_STATE_OFF; kvlia.
    + right. split; [done|]. rewrite Hbc in Hl. exact (laid_set_state _ _ _ _ BLK_STATE_DIRTY Hl).
  - rewrite (proj2 (Z.eqb_eq (frees bs) 0)) by lia.
    pose proof (block_format_eq g w ltac:(lia) ltac:(rewrite (co_infos _ _ Sco); lia)) as Hbf.
    match type of Hbf with _ = Ret (_, ?w1) => assert (Hr : (kv_block_format (Z.of_nat g);; mret tt) w = Ret (tt, w1)) by (by rewrite (bind_step _ _ _ _ _ Hbf)) end.
    rewrite (bind_step _ _ _ _ _ Hr).
    eexists _, _. split; [done|]. split; [|split; [simpl; rewrite Sf, u8_id by kvlia; lia|done]]. apply (swept_stale g w bs _ b); try done.
    + split; [by rewrite length_insert|apply Sco|simpl; rewrite length_insert; apply Sco|].
      apply (here_insert (flash w)); [apply Sco|apply formatted_same|]. right. split; [done|]. apply formatted_laid.
    + simpl. rewrite Sf. rewrite u8_id by kvlia. done.
Qed.

(** ** The store after a start *)

Lemma kv_init_finish w w1 bs1 unclean : scan_loop N 0 [] w = Ret (unclean, w1) ->
  (exists w2, unclean_loop unclean w1 = Ret (tt, w2) /\ swept w2 bs1 /\ 0 < clean_blk_nums (mgr w2)) ->
  exists w' bs', kv_init N w = Ret (RES_OK, w') /\ wf N w' bs' /\ pairs bs' ≡ₚ pairs bs1 /\ fades bs1 bs' /\
    cleans bs' = if cleans bs1 =? Z.of_nat N then Z.of_nat N - 1 else cleans bs1.
Proof.
  intros Hscan (w2 & Hu & Hsw & Hpos). unfold kv_init. rewrite (bind_step _ _ _ _ _ Hscan), (bind_step _ _ _ _ _ Hu).
  assert (Hgm : get_mgr w2 = Ret (mgr w2, w2)) by done. rewrite (bind_step _ _ _ _ _ Hgm).
  rewrite (sw_count _ _ Hsw) in Hpos |- *. rewrite (proj2 (Z.eqb_neq (cleans bs1) 0)) by lia.
  assert (Hm : (mret tt : M (F := F) unit) w2 = Ret (tt, w2)) by done. rewrite (bind_step _ _ _ _ _ Hm).
  destruct (co_num _ _ (sw_core _ _ Hsw)) as [Hlen HN]. pose proof (cleans_bound bs1) as Hbd.
  destruct (Z.eqb_spec (cleans bs1) (Z.of_nat N)) as [Heq|Hne].
  - destruct (finish_all_clean w2 bs1 Hsw Heq) as (w' & bs' & Hr & Hw' & -> & b & Hb & He & Hc). exists w', (<[0%nat := mk_blk BLK_STATE_USED []]> bs1).
    split; [exact Hr|]. split; [done|]. split_and!.
    + pose proof (pairs_insert bs1 0 b (mk_blk BLK_STATE_USED []) Hb) as Hp. unfold live_of in Hp. rewrite He in Hp. by apply Permutation_app_inv_r in Hp.
    + apply (fades_insert _ _ b); [done|]. by rewrite He.
    + rewrite (cleans_insert _ _ _ _ Hb). unfold is_clean. rewrite Hc. simpl. lia.
  - destruct (finish_pick w2 bs1 Hsw) as (w' & Hr & Hw'); [lia|]. exists w', bs1. split_and!; done.
Qed.

(** A flash before the start: the blocks, the pairs after the recovery, and the block of an
    interrupted collection. *)
Record stopped f (bs : list blk) (rest : list (list Z * list Z)) (st : option nat) : Prop := {
  sp_num : length bs = N /\ (2 <= N <= 15)%nat;
  sp_here : forall k b, bs !! k = Some b -> here f k b;
  sp_phase : forall g, phase (mk_world g f []) bs 0 0 rest;
  sp_stale : stale_at st bs;
  sp_target : forall g, st = Some g -> (g < N)%nat
}.

Lemma kv_init_scan f bs rest st : stopped f bs rest st ->
  exists w1 bs1, scan_loop N 0 [] (mk_world (zero_mgr N) f []) = Ret (to_do st N, w1) /\ scanning N w1 bs1 /\
    all_quiet (flash w1) bs1 /\ pairs bs1 ≡ₚ rest /\ drift bs bs1.
Proof.
  intros [Hn Hh Hp Hs _]. destruct (scan_recover st N 0 (mk_world (zero_mgr N) f []) bs rest) as (w1 & bs1 & Hr & Hsn & Hph & Hdr);
    [lia| |apply Hp|done|].
  - split; [split; [done|done|by apply length_replicate|done]|intros; lia| |done].
    intros k Hk. simpl. apply lookup_replicate_2. lia.
  - assert (Ht0 : to_do st 0 = []) by (by destruct st). rewrite Ht0 in Hr. exists w1, bs1. split; [done|]. split; [done|].
    destruct Hph as [[Hq Hp1]|(ky & ny & k1 & n1 & x & Hpd & Hpos & _)]; [by split_and!|exfalso].
    destruct (pd_new _ _ _ _ _ _ _ Hpd) as (b & y & Hb & _). apply lookup_lt_Some in Hb.
    destruct (co_num _ _ (sn_core _ _ _ Hsn)). lia.
Qed.

(** No interrupted collection. *)
Lemma kv_init_none f bs rest : stopped f bs rest None -> 0 < frees bs ->
  exists w' bs', kv_init N (mk_world (zero_mgr N) f []) = Ret (RES_OK, w') /\ wf N w' bs' /\ pairs bs' ≡ₚ rest /\ fades bs bs' /\
    cleans bs' = if frees bs =? Z.of_nat N then Z.of_nat N - 1 else frees bs.
Proof.
  intros Hst Hf. destruct (kv_init_scan f bs rest None Hst) as (w1 & bs1 & Hr & Hsn & _ & Hp & Hdr).
  pose proof (drift_stale _ _ _ Hdr (sp_stale _ _ _ _ Hst)) as Hs1.
  assert (Hsw : swept w1 bs1).
  { apply scanned_swept; [done|]. intros k b Hk. destruct (is_stale b) eqn:Hb; [|done]. by apply (Hs1 k b Hk) in Hb. }
  assert (Hcl : cleans bs1 = frees bs).
  { rewrite <- (sw_count _ _ Hsw), (sn_frees _ _ _ Hsn), take_ge by (destruct (co_num _ _ (sn_core _ _ _ Hsn)); lia). by apply drift_frees. }
  destruct (kv_init_finish _ w1 bs1 _ Hr) as (w' & bs' & Hr' & Hw' & Hp' & Hf' & Hc').
  { exists w1. split; [done|]. split; [done|]. rewrite (sw_count _ _ Hsw). lia. }
  exists w', bs'. split_and!; [done|done|by rewrite Hp'| |by rewrite <- Hcl].
  eapply Forall2_trans; [|by apply drift_fades|exact Hf']. intros b1 b2 b3. apply fade_trans.
Qed.

(** An interrupted collection into block [g]. *)
Lemma kv_init_some f bs rest g : stopped f bs rest (Some g) -> 
  exists w' bs' bs1 b1, kv_init N (mk_world (zero_mgr N) f []) = Ret (RES_OK, w') /\ wf N w' bs' /\ pairs bs1 ≡ₚ rest /\ fades bs bs1 /\ bs1 !! g = Some b1 /\
    if frees bs =? 0 then pairs bs' ++ live_of b1 ≡ₚ rest else pairs bs' ≡ₚ rest.
Proof.
  intros Hst. destruct (kv_init_scan f bs rest (Some g) Hst) as (w1 & bs1 & Hr & Hsn & _ & Hp & Hdr).
  pose proof (drift_stale _ _ _ Hdr (sp_stale _ _ _ _ Hst)) as Hs1. pose proof (sp_target _ _ _ _ Hst g eq_refl) as HgN.
  destruct (co_num _ _ (sn_core _ _ _ Hsn)) as [Hlen HN]. destruct (lookup_lt_is_Some_2 bs1 g) as [b1 Hg]; [lia|].
  simpl in Hr. rewrite (proj2 (Nat.ltb_lt g N) HgN) in Hr. pose proof (frees_bound bs) as Hfb.
  destruct (unclean_one g w1 bs1 b1 Hsn Hs1 Hg) as (w2 & b' & Hu & Hsw & Hpos & Hb'). rewrite (drift_frees _ _ Hdr) in Hb'.
  destruct (kv_init_finish _ w1 (<[g := b']> bs1) _ Hr) as (w' & bs' & Hr' & Hw' & Hp' & _); [by exists w2|].
  exists w', bs', bs1, b1. split_and!; try done; [by apply drift_fades|]. pose proof (pairs_insert bs1 g b1 b' Hg) as Hpi.
  destruct (frees bs =? 0); subst b'; rewrite Hp', <- Hp.
  - change (live_of (mk_blk BLK_STATE_CLEAN [])) with (@nil (list Z * list Z)) in Hpi. by rewrite app_nil_r in Hpi.
  - change (live_of (mk_blk BLK_STATE_DIRTY (b_entries b1))) with (live_of b1) in Hpi. by apply Permutation_app_inv_r in Hpi.
Qed.

(** [qm_kv_init] itself. *)
Lemma qm_kv_init_ok f g0 w' bs' :
  (2 <= N)%nat -> kv_initialize g0 = 0 -> kv_init N (mk_world (zero_mgr N) f []) = Ret (RES_OK, w') -> wf N w' bs' ->
  exists w2, qm_kv_init N 0 0 (mk_world g0 f []) = Ret (RES_OK, w2) /\ wf N w2 bs'.
Proof.
  intros HN Hg0 Hr Hw'. unfold qm_kv_init. set (w0 := mk_world g0 f []).
  assert (Hgm : get_mgr w0 = Ret (mgr w0, w0)) by done. rewrite (bind_step _ _ _ _ _ Hgm).
  cbn [mgr w0]. rewrite Hg0. cbn [negb Z.eqb]. unfold KV_GC_RESERVED. destruct (Z.leb_spec (Z.of_nat N) 1) as [?|_]; [lia|].
  assert (Hset : set_mgr (zero_mgr N) w0 = Ret (tt, mk_world (zero_mgr N) f [])) by done.
  rewrite (bind_step _ _ _ _ _ Hset). cbn [Z.eqb negb]. rewrite (bind_step _ _ _ _ _ Hr). cbn [Z.eqb negb RES_OK].
  destruct (init_end w' bs' Hw') as (w2 & Hr2 & Hw2). by exists w2.
Qed.

(** ** Stores that were shut down *)

Lemma wf_here w bs k b : wf N w bs -> bs !! k = Some b -> here (flash w) k b.
Proof. intros Hw Hk. destruct (wf_blocks _ _ _ Hw k b Hk) as [B1 _ B3 _ _]. by right. Qed.

Lemma wf_not_stale w bs k b : wf N w bs -> bs !! k = Some b -> b_state b <> BLANK /\ is_stale b = false.
Proof.
  intros Hw Hk. destruct (wf_blocks _ _ _ Hw k b Hk) as [_ _ B3 B4 _]. split; [intros Hx; by rewrite Hx in B3|].
  unfold is_stale, unwritten. destruct (Z.eqb_spec (b_state b) BLK_STATE_CLEAN) as [Hc|_]; [by rewrite (B4 Hc)|].
  destruct (Z.eqb_spec (b_state b) BLANK) as [Hx|_]; [by rewrite Hx in B3|done].
Qed.

Lemma wf_stopped w bs : wf N w bs -> all_quiet (flash w) bs -> stopped (flash w) bs (pairs bs) None.
Proof.
  intros Hw Hq. split; [apply Hw|intros k b; by apply wf_here|intros g; by left| |done].
  intros k b Hk. split; [|done]. intros Hs. by rewrite (proj2 (wf_not_stale w bs k b Hw Hk)) in Hs.
Qed.

Lemma wf_frees w bs : wf N w bs -> frees bs = cleans bs.
Proof. intros Hw. symmetry. apply cleans_frees, Forall_lookup. intros k b. by apply (wf_not_stale w). Qed.

(** The start of a stopped store without interrupted collection. *)
Lemma start_none f bs rest g0 : stopped f bs rest None -> 0 < frees bs -> kv_initialize g0 = 0 ->
  exists w' bs', qm_kv_init N 0 0 (mk_world g0 f []) = Ret (RES_OK, w') /\ wf N w' bs' /\ pairs bs' ≡ₚ rest /\ fades bs bs' /\
    cleans bs' = if frees bs =? Z.of_nat N then Z.of_nat N - 1 else frees bs.
Proof.
  intros Hst Hf Hg. destruct (kv_init_none f bs rest Hst Hf) as (w1 & bs' & Hr & Hw & Hp & Hfd & Hc).
  destruct (qm_kv_init_ok f g0 w1 bs') as (w' & Hr' & Hw'); [apply (sp_num _ _ _ _ Hst)|done..|]. by exists w', bs'.
Qed.

End recover.

End KvRecover.
