(* ===== verification/KvInit.v ===== *)
(** * Key-value store: starting, and limits (utility/kv/qm_kvmgr.c)

    [qm_kv_init] on a flash that was never formatted gives the empty store; on a store
    that was shut down it gives the same abstract map again.  Then concrete sessions, on
    which the theorems of KvStore are applied, and the inputs on which the store
    loses data, hangs or accepts what it cannot read back. *)

From S2P Require Import Prelude Outcome Flash KvMgr KvStore KvRecover.
Import list_relations.list list_basics.list Flash KvMgr KvStore KvRecover.
Open Scope Z_scope.

Module KvInit.

Section init.
Context {F : Type} `{!SpiFlash F} (N : nat) (search_fuel : nat).
Implicit Types (f : F) (w : world F).


(** ** A flash that was never formatted *)

Definition blank f : Prop := forall i, (i < N)%nat -> rd f (base i) BLK_HEADER_SIZE !!! 0%nat <> BLK_MAGIC_NUM.

Lemma pairs_empty bs : List.Forall (fun c => b_entries c = []) bs -> pairs bs = [].
Proof.
  induction 1 as [|c l Hc Hl IH]; [done|]. change (live_of c ++ pairs l = []). rewrite IH. unfold live_of. by rewrite Hc.
Qed.

Lemma init_blank f g0 :
  (2 <= N <= 15)%nat -> blank f -> kv_initialize g0 = 0 ->
  exists w' bs, qm_kv_init N 0 0 (mk_world g0 f []) = Ret (RES_OK, w') /\ wf N w' bs /\ uniq bs /\ contents bs = ∅ /\
    cleans bs = Z.of_nat N - 1 /\ (forall i c, bs !! i = Some c -> b_entries c = []).
Proof.
  intros HN Hb Hg0. set (bs0 := replicate N (mk_blk BLANK [])).
  assert (Hat : forall k b, bs0 !! k = Some b -> (k < N)%nat /\ b = mk_blk BLANK []).
  { intros k b Hk. apply lookup_replicate in Hk as [-> Hk]. done. }
  assert (Hst : stopped N f bs0 [] None).
  { split; [split; [apply length_replicate|done]| | | |done].
    - intros k b Hk. destruct (Hat k b Hk) as [HkN ->]. left. split_and!; [done..|by apply Hb].
    - intros g. left. split; [|by rewrite pairs_empty by (by apply Forall_replicate)].
      intros k b n x Hk Hn. destruct (Hat k b Hk) as [_ ->]. done.
    - intros k b Hk. by destruct (Hat k b Hk) as [_ ->]. }
  assert (Hfr : frees bs0 = Z.of_nat N).
  { unfold frees, bs0. f_equal. clear. induction N as [|n IH]; simpl; [done|by rewrite IH]. }
  destruct (start_none N f bs0 [] g0 Hst) as (w' & bs & Hr & Hw & Hp & Hf & Hc); [lia|done|]. rewrite Hfr, Z.eqb_refl in Hc.
  apply Permutation_nil_r in Hp. exists w', bs. unfold uniq, contents. rewrite Hp. split_and!; [done..|by constructor|done|done|].
  intros i c Hi. destruct (Forall2_lookup_r _ _ _ _ _ Hf Hi) as (b & Hbi & Hfd). destruct (Hat i b Hbi) as [_ ->]. simpl in Hfd.
  by apply Forall2_nil_inv_l in Hfd.
Qed.

(** On a flash without block headers [qm_kv_init] formats all blocks, opens the first
    one for writing, and the store is empty. *)
Theorem kv_init_blank f g0 :
  (2 <= N <= 15)%nat -> blank f -> kv_initialize g0 = 0 ->
  exists w' bs, qm_kv_init N 0 0 (mk_world g0 f []) = Ret (RES_OK, w') /\ wf N w' bs /\ uniq bs /\ contents bs = ∅ /\
    cleans bs = Z.of_nat N - 1.
Proof.
  intros HN Hb Hg. destruct (init_blank f g0 HN Hb Hg) as (w' & bs & H1 & H2 & H3 & H4 & H5 & _). by exists w', bs.
Qed.

(** ** A full store *)

(** With more than two blocks, the write position in block 0 and no room anywhere, the
    search for a free block does not end: the index is set to 0 inside the loop and
    incremented before it is compared with 0. *)
Theorem full_store_hangs w bs n fuel :
  wf N w bs -> (2 < N)%nat -> write_pos (mgr w) < BLK_SIZE -> (forall k b, bs !! k = Some b -> ~ fits n b) ->
  kv_item_calc_pos N fuel n w = NoFuel.
Proof.
  intros Hw HN3 Hwp Hfull. destruct (wf_num _ _ _ Hw) as [Hlen HN]. destruct (wf_write _ _ _ Hw) as (j & b & Hj & Hnc & Hp).
  destruct (wf_blocks _ _ _ Hw j b Hj) as [[_ _ L3 L4] B2 _ _ _]. pose proof (total_nonneg _ L3) as Ht.
  assert (j = 0%nat) as -> by (unfold base in Hp; kvlia).
  assert (Hloop : forall fuel i, (0 < i <= N)%nat -> search_loop N fuel 0 (Z.of_nat i) n w = NoFuel).
  { clear fuel. induction fuel as [|fuel IH]; intros i Hi; [done|]. destruct (decide (i = N)) as [->|Hne].
    - cbn [search_loop]. rewrite (proj2 (Z.eqb_neq (Z.of_nat N) 0)), Z.eqb_refl by lia.
      rewrite (bind_step _ _ _ _ _ (wf_get_info N w bs 0 b Hw Hj)). unfold info_of. cbn [space].
      destruct (Z.gtb_spec (BLK_SIZE - BLK_HEADER_SIZE - total (b_entries b)) n) as [Hr|_].
      + exfalso. apply (Hfull 0%nat b Hj). unfold fits. kvlia.
      + apply (IH 1%nat). lia.
    - destruct (lookup_lt_is_Some_2 bs i) as [c Hc]; [lia|]. pose proof (Hfull i c Hc) as Hf. unfold fits in Hf.
      rewrite (search_miss N n fuel 0 i c w bs) by (done || kvlia). apply IH. lia. }
  destruct (pos_block 0 (BLK_HEADER_SIZE + total (b_entries b))) as [Hsh _]; [lia|kvlia|]. rewrite Z.add_assoc, <- Hp in Hsh.
  unfold kv_item_calc_pos. assert (Hgm : get_mgr w = Ret (mgr w, w)) by done. rewrite (bind_step _ _ _ _ _ Hgm), Hsh.
  rewrite (bind_step _ _ _ _ _ (wf_get_info N w bs 0 b Hw Hj)). unfold info_of at 1. cbn [space].
  destruct (Z.gtb_spec (BLK_SIZE - BLK_HEADER_SIZE - total (b_entries b)) n) as [Hr|_].
  { exfalso. apply (Hfull 0%nat b Hj). unfold fits. kvlia. }
  unfold KV_GC_RESERVED. destruct (Z.gtb_spec (Z.of_nat N) (1 + 1)) as [_|?]; [|lia].
  apply (Hloop fuel 1%nat). lia.
Qed.

End init.

(** ** Concrete stores *)

Definition off : world (gmap Z Z) := mk_world (mk_mgr 0 0 0 0 0 []) ∅ [].

Lemma off_blank : blank 2 (∅ : gmap Z Z).
Proof. intros [|[|i]] Hi; [vm_compute; done|vm_compute; done|lia]. Qed.

(** A store of two blocks with the pair "a", [1; 2]. *)
Lemma demo_store : exists (w : world (gmap Z Z)) bs, wf 2 w bs /\ uniq bs /\ contents bs = {[ [97] := [1; 2] ]}.
Proof.
  destruct (init_blank 2 ∅ (mk_mgr 0 0 0 0 0 [])) as (w & bs & _ & Hw & Hu & Hc & _ & Hbs); [lia|apply off_blank|done|].
  assert (Hok : entry_ok (mk_entry [97] [1; 2] 0 true)).
  { split; [by compute..| |by compute]. repeat constructor; by compute. }
  destruct (item_store_refines 2 3 [97] [1; 2] 0 w bs Hw) as (r & w' & bs' & bs1 & f1 & _ & Hw' & _ & _ & [(-> & Hp & _)|(_ & _ & _ & _ & _ & Hfull & _)]);
    [lia|done|by left| |].
  - destruct (contents_add bs bs' [97] [1; 2] Hu) as [Hc' Hu']; [by rewrite Hc|done|]. exists w', bs'. split_and!; try done.
    rewrite Hc', Hc. done.
  - exfalso. destruct (wf_write _ _ _ Hw) as (j & b & Hj & Hnc & Hp). apply (Hfull j b Hj Hp). unfold fits. rewrite (Hbs j b Hj). by compute.
Qed.

Lemma kv_get_refines_witness :
  exists w : world (gmap Z Z), qm_kv_get 2 (Some [97]) 10 w = Ret ((RES_OK, [1; 2], 2), w) /\
    qm_kv_get 2 (Some [97]) 1 w = Ret ((RES_NO_SPACE, [], 2), w) /\ qm_kv_get 2 (Some [98]) 10 w = Ret ((RES_ITEM_NOT_FOUND, [], 10), w).
Proof.
  destruct demo_store as (w & bs & Hw & _ & Hc). exists w.
  rewrite (kv_get_refines 2 w bs [97] 10 Hw ltac:(lia)), (kv_get_refines 2 w bs [97] 1 Hw ltac:(lia)), (kv_get_refines 2 w bs [98] 10 Hw ltac:(lia)).
  rewrite Hc. by vm_compute.
Defined.

Lemma kv_del_refines_witness :
  exists (w w' : world (gmap Z Z)) bs', qm_kv_del 2 [97] w = Ret (RES_OK, w') /\ wf 2 w' bs' /\ contents bs' = ∅.
Proof.
  destruct demo_store as (w & bs & Hw & Hu & Hc).
  destruct (kv_del_refines 2 w bs [97] Hw Hu) as (r & w' & bs' & Hr & Hw' & _ & Hc' & ->).
  exists w, w', bs'. rewrite Hc in Hr, Hc'. split_and!; [exact Hr|done|]. by rewrite Hc'.
Defined.

Lemma kv_set_refines_witness :
  exists (w : world (gmap Z Z)) ret w' bs', qm_kv_set 2 3 (Some [97]) (Some [7; 8; 9]) 3 w = Ret (ret, w') /\ wf 2 w' bs' /\
    ((ret = RES_OK /\ contents bs' = {[ [97] := [7; 8; 9] ]}) \/ (ret = RES_NO_SPACE /\ contents bs' = {[ [97] := [1; 2] ]})).
Proof.
  destruct demo_store as (w & bs & Hw & Hu & Hc). exists w.
  destruct (kv_set_refines 2 3 w bs [97] [7; 8; 9] 3 Hw Hu) as (ret & w' & bs' & Hr & Hw' & _ & Hcase);
    [lia|by compute|by compute|by compute|repeat constructor; by compute|repeat constructor; by compute|by left|].
  exists ret, w', bs'. split; [exact Hr|]. split; [done|]. rewrite Hc in Hcase.
  destruct Hcase as [[-> ->]|(-> & -> & _)]; [left|right]; done.
Defined.

(** A store with something to collect: "a" was set and deleted, "b" is live behind it in the
    same block, and the second block is clean. *)
Section worn.
Context {F : Type} `{!SpiFlash F}.

Definition wear : M (F := F) unit :=
  qm_kv_init 2 0 0;; qm_kv_set 2 3 (Some [97]) (Some [1; 2]) 2;; qm_kv_set 2 3 (Some [98]) (Some [7]) 1;; qm_kv_del 2 [97];; mret tt.

Definition worn_blocks : list blk :=
  [mk_blk BLK_STATE_DIRTY [mk_entry [97] [1; 2] 0 false; mk_entry [98] [7] 0 true]; mk_blk BLK_STATE_CLEAN []].

Definition worn (w : world F) : Prop :=
  mgr w = mk_mgr 1 0 0 1 28 [mk_info 4068 BLK_STATE_DIRTY; mk_info 4092 BLK_STATE_CLEAN] /\ oom w = [] /\
  forall i b, worn_blocks !! i = Some b -> rd (flash w) (base i) BLK_HEADER_SIZE = [BLK_MAGIC_NUM; b_state b; 0; 0] /\
    entries_at (flash w) (base i + BLK_HEADER_SIZE) (base i + BLK_SIZE) (b_entries b).

Lemma worn_wf w : worn w -> wf 2 w worn_blocks /\ uniq worn_blocks /\ contents worn_blocks = {[ [98] := [7] ]}.
Proof.
  intros (Hm & Ho & Hl). split; [|split; [repeat constructor; set_solver|by vm_compute]].
  split; [split; [done|lia]|by rewrite Hm| |done|by rewrite Hm|].
  - intros i b Hb. destruct (Hl i b Hb) as [H1 H2]. rewrite Hm. destruct i as [|[|i]]; [| |done]; injection Hb as <-.
    + split; [split; [done|done| |done]|done|done|done|done]. repeat (apply Forall_cons_2; [split; [by compute..| |by compute]; repeat constructor; by compute|]). constructor.
    + split; [split; [done|done|constructor|done]|done|done|done|constructor].
  - rewrite Hm. eexists 0%nat, _. split; [reflexivity|]. split; done.
Qed.
End worn.

Ltac check_worn :=
  split; [vm_compute; reflexivity|]; split; [vm_compute; reflexivity|];
  intros [|[|i]] b Hb; [| |done]; injection Hb as <-; (split; [vm_compute; reflexivity|]);
  repeat (split; [vm_compute; reflexivity|]); vm_compute; reflexivity.

Definition worn_world : world (gmap Z Z) := match wear off with Ret (_, w) => w | _ => off end.
Lemma worn_store : worn worn_world.
Proof. check_worn. Qed.

Lemma kv_gc_refines_witness :
  exists (w' : world (gmap Z Z)) bs', qm_kv_gc 2 worn_world = Ret (tt, w') /\ wf 2 w' bs' /\ contents bs' = {[ [98] := [7] ]} /\
    block_info (mgr worn_world) = [mk_info 4068 BLK_STATE_DIRTY; mk_info 4092 BLK_STATE_CLEAN] /\
    block_info (mgr w') = [mk_info 4092 BLK_STATE_CLEAN; mk_info 4080 BLK_STATE_USED].
Proof.
  destruct (worn_wf worn_world worn_store) as (Hw & Hu & Hc).
  destruct (kv_gc_refines 2 worn_world worn_blocks Hw Hu) as (w' & bs' & Hr & Hw' & _ & Hc' & _). exists w', bs'.
  assert (Hb : (match qm_kv_gc 2 worn_world with Ret (_, w) => block_info (mgr w) | _ => [] end) = [mk_info 4092 BLK_STATE_CLEAN; mk_info 4080 BLK_STATE_USED])
    by (vm_compute; reflexivity).
  rewrite Hr in Hb. split; [exact Hr|]. split; [exact Hw'|]. split; [by rewrite Hc', Hc|]. split; [vm_compute; reflexivity|exact Hb].
Defined.

Lemma kv_del_many_refines_witness :
  exists (w w' : world (gmap Z Z)) bs', qm_kv_del_by_prefix 2 [98] w = Ret (RES_OK, w') /\ wf 2 w' bs' /\ contents bs' = {[ [97] := [1; 2] ]}.
Proof.
  destruct demo_store as (w & bs & Hw & Hu & Hc).
  destruct (kv_del_many_refines 2 w bs [98] Hw Hu) as [(w' & bs' & Hr & Hw' & _ & Hc') _]. exists w, w', bs'.
  split_and!; [done..|]. rewrite Hc', Hc. by vm_compute.
Defined.


Lemma kv_init_blank_witness :
  exists (w' : world (gmap Z Z)) bs, qm_kv_init 2 0 0 off = Ret (RES_OK, w') /\ wf 2 w' bs /\ contents bs = ∅.
Proof.
  destruct (kv_init_blank 2 ∅ (mk_mgr 0 0 0 0 0 [])) as (w' & bs & H1 & H2 & _ & H4 & _); [lia|apply off_blank|done|]. exists w', bs. exact (conj H1 (conj H2 H4)).
Defined.

(** ** Where the store does not do what its callers expect *)

(** Sets key [k] to 768 bytes, with three blocks. *)
Definition big (k : Z) : M Z := qm_kv_set (F := gmap Z Z) 3 50 (Some [k]) (Some (replicate 768 k)) 768.
Fixpoint bigs (ks : list Z) : M (list Z) :=
  match ks with [] => mret [] | k :: ks => r ← big k; rs ← bigs ks; mret (r :: rs) end.

(** Three blocks full of live items, the write position back in block 0. *)
Definition fill : M (list Z) :=
  qm_kv_init 3 0 0;; bigs [1; 2; 3; 4; 5; 6; 7; 8; 9];; qm_kv_del 3 [1];; bigs [10; 11; 12; 13; 14; 15; 16].

(** The reserved block is used for items, so the collector has no block left; then
    setting one more key hangs, with the mutex locked. *)
Theorem full_store_reached :
  match fill off with
  | Ret (rs, w) => rs = replicate 7 RES_OK /\ clean_blk_nums (mgr w) = 0 /\ write_pos (mgr w) < BLK_SIZE /\ big 17 w = NoFuel
  | _ => False
  end.
Proof. vm_compute. done. Qed.

(** An item for which the collector gets no memory is not copied, and its block is formatted all
    the same: the pair is lost. *)
Theorem gc_out_of_memory_loses :
  let get_b w := match qm_kv_get 2 (Some [98]) 10 w with Ret (r, _) => Some r | _ => None end in
  get_b worn_world = Some (RES_OK, [7], 1) /\
  match qm_kv_gc 2 (mk_world (mgr worn_world) (flash worn_world) [true]) with
  | Ret (_, w) => oom w = [] /\ get_b w = Some (RES_ITEM_NOT_FOUND, [], 10)
  | _ => False
  end.
Proof. split; vm_compute; [reflexivity|]. split; reflexivity. Qed.

(** Starting again formats block 0 when no block is clean: the pairs in it are lost. *)
Theorem restart_loses_block :
  match (fill;; r1 ← qm_kv_get 3 (Some [16]) 768; qm_kv_deinit;; r ← qm_kv_init 3 0 0; r2 ← qm_kv_get 3 (Some [16]) 768; mret (r1.1.1, r, r2.1.1)) off with
  | Ret (r, _) => r = (RES_OK, RES_OK, RES_ITEM_NOT_FOUND)
  | _ => False
  end.
Proof. vm_compute. done. Qed.

(** The empty key is accepted but not found again, and its value is then read as items:
    here as the item "x" with value 9. *)
Theorem empty_key_forges :
  match (qm_kv_init 2 0 0;; r ← qm_kv_set 2 3 (Some []) (Some (enc_entry (mk_entry [120] [9] 0 true))) 12;
         r1 ← qm_kv_get 2 (Some []) 20; r2 ← qm_kv_get 2 (Some [120]) 20; mret (r, r1.1.1, r2)) off with
  | Ret (r, _) => r = (RES_OK, RES_ITEM_NOT_FOUND, (RES_OK, [9], 1))
  | _ => False
  end.
Proof. vm_compute. done. Qed.

(** Out of memory while looking for the key counts as not found: the key is stored a
    second time with result 0, and the old value is still the one that is read. *)
Theorem no_memory_keeps_old_value :
  match (qm_kv_init 2 0 0;; qm_kv_set 2 3 (Some [97]) (Some [1]) 1) off with
  | Ret (_, w) =>
      match (r ← qm_kv_set 2 3 (Some [97]) (Some [2]) 1; r1 ← qm_kv_get 2 (Some [97]) 20; mret (r, r1)) (mk_world (mgr w) (flash w) [true]) with
      | Ret (r, _) => r = (RES_OK, (RES_OK, [1], 1))
      | _ => False
      end
  | _ => False
  end.
Proof. vm_compute. done. Qed.

(** A session on an erased flash. *)
Example kv_session :
  let w0 := mk_world (mk_mgr 0 0 0 0 0 []) (∅ : gmap Z Z) [] in
  let m := (qm_kv_init 2 0 0;; qm_kv_set 2 5 (Some [97; 98]) (Some [1; 2; 3]) 3;;
            qm_kv_set 2 5 (Some [99]) (Some [4]) 1;; qm_kv_set 2 5 (Some [97; 98]) (Some [5; 6]) 2;;
            qm_kv_gc 2;; qm_kv_del 2 [99];; qm_kv_get 2 (Some [97; 98]) 10) in
  match m w0 with Ret (r, _) => r = (0, [5; 6], 2) | _ => False end.
Proof. vm_compute. reflexivity. Qed.

End KvInit.
