(* ===== verification/KvCrash.v ===== *)
(** * Key-value store: loss of power (utility/kv/qm_kvmgr.c)

    The operations run on a flash that remembers its past.  Whatever call of the flash
    driver was the last one before the power was lost, [qm_kv_init] on the flash that is
    left gives a store whose abstract map is the one before the operation or the one
    after it.  A call of the driver itself is not interrupted. *)

From S2P Require Import Prelude Outcome Flash KvMgr KvStore KvRecover KvInit.
Import list_relations.list list_basics.list Flash KvMgr KvStore KvRecover KvInit.
Open Scope Z_scope.

Module KvCrash.

Section crash.
Context {F : Type} `{!SpiFlash F} (N : nat).
Implicit Types (f : F) (w : world F).

(** Every start on this flash gives the map [m]. *)
Definition recovers f (m : gmap (list Z) (list Z)) : Prop :=
  forall g0, kv_initialize g0 = 0 ->
  exists w' bs', qm_kv_init N 0 0 (mk_world g0 f []) = Ret (RES_OK, w') /\ wf N w' bs' /\ uniq bs' /\ contents bs' = m.

(** Every live entry is new, or its origin is a deleted entry or one with another key. *)
Definition settled (bs : list blk) : Prop :=
  forall k b n x, bs !! k = Some b -> b_entries b !! n = Some x -> e_live x = true ->
    e_origin x = 0 \/
    exists k1 c n1 y, bs !! k1 = Some c /\ b_entries c !! n1 = Some y /\ e_origin x = epos k1 c n1 /\ (e_live y = false \/ e_key y <> e_key x).

Lemma settled_quiet f bs : settled bs -> all_quiet f bs.
Proof.
  intros Hs k b n x Hk Hn Hl. destruct (Hs k b n x Hk Hn Hl) as [H0|H]; [by left|]. by right; right; right.
Qed.

(** The blocks without the manager. *)
Record sound f (bs : list blk) : Prop := {
  so_num : length bs = N /\ (2 <= N <= 15)%nat;
  so_laid : forall k b, bs !! k = Some b -> INVALID_BLK_STATE (b_state b) = false /\ laid f k (b_state b) (b_entries b);
  so_clean : forall k b, bs !! k = Some b -> b_state b = BLK_STATE_CLEAN -> b_entries b = []
}.

Lemma wf_sound w bs : wf N w bs -> sound (flash w) bs.
Proof. intros Hw. split; [apply Hw| |]; intros k b Hk; by destruct (wf_blocks _ _ _ Hw k b Hk). Qed.

Lemma sound_not_stale f bs k b : sound f bs -> bs !! k = Some b -> b_state b <> BLANK /\ is_stale b = false.
Proof.
  intros [_ Hl Hc] Hk. destruct (Hl k b Hk) as [Hv _]. split; [intros Hx; by rewrite Hx in Hv|].
  unfold is_stale, unwritten. destruct (Z.eqb_spec (b_state b) BLK_STATE_CLEAN) as [Hx|_]; [by rewrite (Hc k b Hk Hx)|].
  destruct (Z.eqb_spec (b_state b) BLANK) as [Hx|_]; [by rewrite Hx in Hv|done].
Qed.

Lemma sound_frees f bs : sound f bs -> frees bs = cleans bs.
Proof. intros Hs. symmetry. apply cleans_frees, Forall_lookup. intros k b. by apply (sound_not_stale f). Qed.

Lemma sound_recovers f bs rest m :
  sound f bs -> (forall g, phase (mk_world g f []) bs 0 0 rest) -> 0 < cleans bs -> base.NoDup rest.*1 -> list_to_map rest = m -> recovers f m.
Proof.
  intros Hs Hph Hcl Hnd Hm g0 Hg0. destruct (start_none N f bs rest g0) as (w' & bs' & Hr & Hw' & Hp & _).
  - split; [apply Hs| |done| |done].
    + intros k b Hk. right. by apply Hs.
    + intros k b Hk. split; [|done]. intros Hx. by rewrite (proj2 (sound_not_stale f bs k b Hs Hk)) in Hx.
  - by rewrite (sound_frees f).
  - done.
  - exists w', bs'. split_and!; [done..|unfold uniq; by rewrite Hp|]. unfold contents. rewrite <- Hm. apply list_to_map_proper; [|done].
    by rewrite Hp.
Qed.

Lemma settled_recovers f bs : sound f bs -> all_quiet f bs -> uniq bs -> 0 < cleans bs -> recovers f (contents bs).
Proof. intros Hs Hq Hu Hc. apply (sound_recovers f bs (pairs bs)); try done. intros g. by left. Qed.

Lemma sound_update f f' bs j b' :
  sound f bs -> same_but f f' j -> INVALID_BLK_STATE (b_state b') = false -> laid f' j (b_state b') (b_entries b') ->
  (b_state b' = BLK_STATE_CLEAN -> b_entries b' = []) -> sound f' (<[j := b']> bs).
Proof.
  intros [Hn Hl Hc] Hs Hv Hlj Hcj. split; [by rewrite length_insert| |]; intros k b; rewrite list_lookup_insert_Some; intros [(-> & <- & _)|[Hne Hk]]; [done| |done|by apply (Hc k)].
  destruct (Hl k b Hk) as [H1 H2]. split; [done|]. apply (laid_ext f); [by apply Hs|done].
Qed.

(** ** Steps of an update *)

Lemma sound_opened f bs bs1 f1 : sound f bs -> opened N bs f bs1 f1 -> sound f1 bs1.
Proof.
  intros Hs [[-> ->]|(i & b & _ & Hi & Hc & -> & ->)]; [done|]. destruct (so_laid _ _ Hs i b Hi) as [_ Hl].
  rewrite Hc, (so_clean _ _ Hs i b Hi Hc) in Hl. apply (sound_update f); try done.
  - rewrite <- (Z.add_0_r (base i)). apply set_state_same_but; unfold KV_STATE_OFF; kvlia.
  - exact (laid_set_state _ _ _ _ BLK_STATE_USED Hl).
Qed.

Lemma sound_appended f bs x bs' f' : sound f bs -> entry_ok x -> appended bs f x bs' f' -> sound f' bs'.
Proof.
  intros Hs Hx (j & b & Hj & Hnc & Hfit & -> & ->). destruct (so_laid _ _ Hs j b Hj) as [Hv Hl].
  pose proof (total_nonneg _ (laid_ok _ _ _ _ Hl)) as Ht. destruct (elen_bounds x Hx) as (_ & _ & Hb). unfold fits in Hfit.
  apply (sound_update f); [done| |done|by apply laid_append|done].
  rewrite <- Z.add_assoc. apply same_but_write; rewrite ?length_enc_entry by done; kvlia.
Qed.

Lemma sound_without f bs k b n x : sound f bs -> bs !! k = Some b -> b_entries b !! n = Some x -> e_live x = true ->
  sound (set_state f (epos k b n) ITEM_STATE_DELETE) (<[k := without b (b_state b) n x]> bs).
Proof.
  intros Hs Hk Hn Hl. destruct (so_laid _ _ Hs k b Hk) as [Hv Hla]. destruct (laid_at _ _ _ _ _ _ Hla Hn) as (Hx & _ & _ & H1 & H2 & H3).
  destruct (elen_bounds x Hx) as (_ & _ & Hb). apply (sound_update f); [done| |done|by apply laid_without|].
  - unfold epos. rewrite <- Z.add_assoc. apply set_state_same_but; unfold KV_STATE_OFF; kvlia.
  - simpl. intros Hc. by rewrite (so_clean _ _ Hs k b Hk Hc) in Hn.
Qed.

Lemma sound_dirty f bs k es : sound f bs -> bs !! k = Some (mk_blk BLK_STATE_USED es) ->
  sound (set_state f (base k) BLK_STATE_DIRTY) (<[k := mk_blk BLK_STATE_DIRTY es]> bs).
Proof.
  intros Hs Hk. destruct (so_laid _ _ Hs k _ Hk) as [_ Hl]. apply (sound_update f); try done.
  - rewrite <- (Z.add_0_r (base k)). apply set_state_same_but; unfold KV_STATE_OFF; kvlia.
  - exact (laid_set_state _ _ _ _ BLK_STATE_DIRTY Hl).
Qed.

(** ** Origins *)

Definition origin_ok (bs : list blk) (x : entry) : Prop :=
  e_origin x = 0 \/
  exists k c n y, bs !! k = Some c /\ b_entries c !! n = Some y /\ e_origin x = epos k c n /\ (e_live y = false \/ e_key y <> e_key x).

(** Entries stay where they are. *)
Definition extends (bs bs' : list blk) : Prop :=
  forall k b, bs !! k = Some b -> exists b', bs' !! k = Some b' /\ b_entries b `prefix_of` b_entries b'.

Lemma epos_prefix k b b' n x : b_entries b `prefix_of` b_entries b' -> b_entries b !! n = Some x ->
  b_entries b' !! n = Some x /\ epos k b' n = epos k b n.
Proof.
  intros [l Hl] Hn. pose proof (lookup_lt_Some _ _ _ Hn). unfold epos. by rewrite Hl, lookup_app_l, take_app_le by lia.
Qed.

Lemma origin_extends bs bs' x : extends bs bs' -> origin_ok bs x -> origin_ok bs' x.
Proof.
  intros He [H|(k & c & n & y & Hk & Hn & Ho & Hy)]; [by left|right]. destruct (He k c Hk) as (c' & Hk' & Hp).
  destruct (epos_prefix k c c' n y Hp Hn) as [Hn' Hep]. exists k, c', n, y. by rewrite Hep.
Qed.

Lemma origin_fades bs bs' x : fades bs bs' -> origin_ok bs x -> origin_ok bs' x.
Proof.
  intros Hf [H|(k & b & n & y & Hk & Hn & Ho & Hy)]; [by left|right].
  destruct (Forall2_lookup_l _ _ _ _ _ Hf Hk) as (b' & Hk' & Hb'). destruct (Forall2_lookup_l _ _ _ _ _ Hb' Hn) as (y' & Hn' & Hy').
  exists k, b', n, y'. rewrite (fade_epos k b b' n) by done. split_and!; [done..|]. destruct Hy' as [->| ->]; [done|by left].
Qed.

Lemma settled_fades bs bs' : fades bs bs' -> settled bs -> settled bs'.
Proof.
  intros Hf Hs k b' n x Hk Hn Hl. destruct (fades_live _ _ _ _ _ _ Hf Hk Hn Hl) as (b & Hk' & Hn' & _).
  apply (origin_fades bs); [done|]. by apply (Hs k b n).
Qed.

Lemma opened_fades f bs bs1 f1 : sound f bs -> opened N bs f bs1 f1 -> fades bs bs1.
Proof.
  intros Hs [[-> _]|(i & b & _ & Hi & Hc & -> & _)]; [reflexivity|]. apply (fades_insert _ _ b); [done|].
  by rewrite (so_clean _ _ Hs i b Hi Hc).
Qed.

(** Where the entries of the store are after an entry was appended. *)
Lemma appended_at bs f x bs' f' k b' n y : appended bs f x bs' f' -> bs' !! k = Some b' -> b_entries b' !! n = Some y ->
  (exists b, bs !! k = Some b /\ b_entries b !! n = Some y /\ b_entries b `prefix_of` b_entries b') \/
  (y = x /\ exists b, bs !! k = Some b /\ b_entries b' = b_entries b ++ [x] /\ n = length (b_entries b)).
Proof.
  intros (j & b & Hj & _ & _ & -> & _). rewrite list_lookup_insert_Some. intros [(<- & <- & _)|[Hne Hk]] Hn.
  - simpl in *. apply lookup_app_Some in Hn as [Hn|[Hle Hn]]; [left; exists b; split_and!; [done..|by apply prefix_app_r]|right].
    apply list_lookup_singleton_Some in Hn as [Hn <-]. split; [done|]. exists b. split_and!; [done..|lia].
  - left. by exists b'.
Qed.

Lemma appended_extends bs f x bs' f' : appended bs f x bs' f' -> extends bs bs'.
Proof.
  intros (j & b & Hj & _ & _ & -> & _) k c Hk. pose proof (lookup_lt_Some _ _ _ Hk). destruct (decide (j = k)) as [<-|Hne].
  - assert (c = b) as -> by congruence. eexists. rewrite list_lookup_insert_eq by done. split; [done|]. by apply prefix_app_r.
  - exists c. by rewrite list_lookup_insert_ne.
Qed.

Lemma appended_pairs bs f x bs' f' : appended bs f x bs' f' -> e_live x = true -> pairs bs' ≡ₚ (e_key x, e_val x) :: pairs bs.
Proof.
  intros (j & b & Hj & _ & _ & -> & _) Hl. set (b' := mk_blk (b_state b) (b_entries b ++ [x])).
  pose proof (pairs_insert bs j b b' Hj) as Hp. apply (Permutation_app_inv_r (live_of b)). rewrite Hp. unfold b', live_of. simpl.
  rewrite List.filter_app. simpl. rewrite Hl, fmap_app. simpl. solve_Permutation.
Qed.

Lemma appended_cleans bs f x bs' f' : appended bs f x bs' f' -> cleans bs' = cleans bs.
Proof. intros (j & b & Hj & _ & _ & -> & _). rewrite (cleans_insert _ _ _ _ Hj). change (is_clean (mk_blk _ _)) with (is_clean b). lia. Qed.

(** A new key. *)
Lemma settled_appended bs f x bs' f' : settled bs -> appended bs f x bs' f' -> e_origin x = 0 -> settled bs'.
Proof.
  intros Hs Ha H0 k b' n y Hk Hn Hl. destruct (appended_at _ _ _ _ _ _ _ _ _ Ha Hk Hn) as [(b & Hb & Hnb & _)|[-> _]]; [|by left].
  apply (origin_extends bs bs'); [by eapply appended_extends|]. by apply (Hs k b n).
Qed.

(** An update: the old entry is still there. *)
Lemma pending_appended bs f x bs' f' k1 c n1 y : sound f bs -> settled bs -> entry_ok x -> appended bs f x bs' f' -> e_live x = true ->
  bs !! k1 = Some c -> b_entries c !! n1 = Some y -> e_live y = true -> e_key y = e_key x -> e_origin x = epos k1 c n1 ->
  exists k n, pending f' bs' k n k1 n1 y.
Proof.
  intros Hs Hset Hx Ha Hlx Hk1 Hn1 Hly Hkey Ho. pose proof (appended_extends _ _ _ _ _ Ha) as He.
  pose proof Ha as (j & b & Hj & Hnc & Hfit & Hbs' & _). exists j, (length (b_entries b)).
  set (b' := mk_blk (b_state b) (b_entries b ++ [x])) in *. pose proof (lookup_lt_Some _ _ _ Hj) as Hjl.
  assert (Hj' : bs' !! j = Some b') by (rewrite Hbs'; by apply list_lookup_insert_eq).
  destruct (so_laid _ _ Hs k1 c Hk1) as [_ Hl1]. destruct (laid_at _ _ _ _ _ _ Hl1 Hn1) as (Hy & _ & _ & T1 & T2 & T3).
  destruct (elen_bounds y Hy) as (_ & _ & Hby). destruct (so_laid _ _ Hs j b Hj) as [_ Hlj].
  pose proof (total_nonneg _ (laid_ok _ _ _ _ Hlj)) as Htj. pose proof (laid_fits _ _ _ _ Hlj) as Hfj.
  assert (Hpos : epos j b' (length (b_entries b)) = base j + BLK_HEADER_SIZE + total (b_entries b)) by (unfold epos; simpl; by rewrite take_app_length).
  split.
  - exists b', x. destruct (He k1 c Hk1) as (c' & Hk1' & Hp). destruct (epos_prefix k1 c c' n1 y Hp Hn1) as [Hn1' Hep].
    split; [done|]. split; [simpl; by rewrite lookup_app_r, Nat.sub_diag by lia|]. split_and!; [done..|by exists c'; rewrite Hep| |].
    + rewrite Ho. unfold epos, base. kvlia.
    + rewrite Hpos, Ho. unfold epos. intros Heq. assert (k1 = j) as -> by (unfold base in Heq; kvlia).
      assert (c = b) as -> by congruence. rewrite <- (take_drop_middle _ _ _ Hn1) in Heq at 2. rewrite total_app in Heq.
      change (total (y :: drop (S n1) (b_entries b))) with (elen y + total (drop (S n1) (b_entries b))) in Heq. lia.
  - intros ->. assert (c = b) as -> by congruence. by apply lookup_lt_Some in Hn1.
  - intros k d n z Hk Hn Hlz Hne. destruct (appended_at _ _ _ _ _ _ _ _ _ Ha Hk Hn) as [(d0 & Hd0 & Hnd & _)|[-> (d0 & Hd0 & Hent & ->)]].
    + destruct (origin_extends bs bs' z He (Hset k d0 n z Hd0 Hnd Hlz)) as [H0|H]; [by left|by right; right; right].
    + exfalso. apply Hne. f_equal; [|destruct (decide (k = j)) as [->|Hkj]; [by assert (d0 = b) as -> by congruence|]].
      all: destruct (decide (k = j)) as [->|Hkj']; [done|exfalso].
      all: rewrite Hbs', list_lookup_insert_ne in Hk by done; assert (d = d0) as -> by congruence.
      all: apply (f_equal length) in Hent; rewrite length_app in Hent; simpl in Hent; lia.
Qed.

(** ** Deleting an entry *)

Lemma without_cleans bs k b n x : bs !! k = Some b -> b_entries b !! n = Some x -> cleans (<[k := without b (b_state b) n x]> bs) = cleans bs.
Proof. intros Hk Hn. rewrite (cleans_insert _ _ _ _ Hk). change (is_clean (without b (b_state b) n x)) with (is_clean b). lia. Qed.

Lemma crash_kill f bs k b n x rest :
  sound f bs -> bs !! k = Some b -> b_entries b !! n = Some x -> e_live x = true -> 0 < cleans bs ->
  settled (<[k := without b (b_state b) n x]> bs) -> (e_key x, e_val x) :: rest ≡ₚ pairs bs -> base.NoDup rest.*1 ->
  let f1 := set_state f (epos k b n) ITEM_STATE_DELETE in
  recovers f1 (list_to_map rest) /\
  recovers (if b_state b =? BLK_STATE_USED then set_state f1 (base k) BLK_STATE_DIRTY else f1) (list_to_map rest).
Proof.
  intros Hs Hk Hn Hl Hc Hset Hp Hnd f1. pose proof (sound_without f bs k b n x Hs Hk Hn Hl) as Hs1. fold f1 in Hs1.
  set (bs1 := <[k := without b (b_state b) n x]> bs) in *. pose proof (lookup_lt_Some _ _ _ Hk) as Hkl.
  assert (Hp1 : pairs bs1 ≡ₚ rest) by (apply (Permutation_cons_inv (a := (e_key x, e_val x))); rewrite Hp; by apply pairs_without).
  assert (Hc1 : cleans bs1 = cleans bs) by (by apply without_cleans).
  assert (H1 : recovers f1 (list_to_map rest)).
  { apply (sound_recovers f1 bs1 rest); [done| |lia|done|done]. intros g. left. split; [by apply settled_quiet|done]. }
  split; [done|]. destruct (Z.eqb_spec (b_state b) BLK_STATE_USED) as [HU|]; [|done].
  assert (Hk1 : bs1 !! k = Some (mk_blk BLK_STATE_USED (<[n := kill x]> (b_entries b)))).
  { unfold bs1. rewrite list_lookup_insert_eq by done. unfold without. by rewrite HU. }
  set (es := <[n := kill x]> (b_entries b)) in *. set (bs2 := <[k := mk_blk BLK_STATE_DIRTY es]> bs1).
  assert (Hf2 : fades bs1 bs2) by (apply (fades_insert _ _ _ _ Hk1); reflexivity).
  apply (sound_recovers _ bs2 rest); [by apply sound_dirty| | |done|done].
  - intros g. left. split; [by apply settled_quiet, (settled_fades bs1)|].
    pose proof (pairs_insert bs1 k _ (mk_blk BLK_STATE_DIRTY es) Hk1) as Hpi. apply Permutation_app_inv_r in Hpi. by rewrite <- Hp1.
  - unfold bs2. rewrite (cleans_insert _ _ _ _ Hk1). unfold is_clean. simpl. lia.
Qed.

(** ** Setting a new key *)

Lemma opened_cleans f bs bs1 f1 : opened N bs f bs1 f1 -> (N = 2%nat /\ 0 < cleans bs) \/ 1 < cleans bs -> 0 < cleans bs1.
Proof.
  intros [[-> _]|(i & b & HN & Hi & Hc & -> & _)] Hr; [destruct Hr as [[_ ?]|?]; lia|].
  destruct Hr as [[? _]|Hr]; [lia|]. rewrite (cleans_insert _ _ _ _ Hi). unfold is_clean. rewrite Hc. simpl. lia.
Qed.

Lemma crash_opened f bs bs1 f1 : sound f bs -> settled bs -> uniq bs -> opened N bs f bs1 f1 -> pairs bs1 ≡ₚ pairs bs -> 0 < cleans bs1 ->
  recovers f1 (contents bs).
Proof.
  intros Hs Hset Hu Hop Hp Hc. destruct (contents_perm bs bs1 Hu Hp) as [<- Hu1].
  apply settled_recovers; [by eapply sound_opened|apply settled_quiet; apply (settled_fades bs); [by eapply opened_fades|done]|done|done].
Qed.

Lemma crash_new f bs x bs' f' : sound f bs -> settled bs -> uniq bs -> entry_ok x -> e_live x = true -> e_origin x = 0 ->
  appended bs f x bs' f' -> contents bs !! e_key x = None -> 0 < cleans bs -> recovers f' (<[e_key x := e_val x]> (contents bs)).
Proof.
  intros Hs Hset Hu Hx Hl H0 Ha Hnone Hc. destruct (contents_add bs bs' (e_key x) (e_val x) Hu Hnone (appended_pairs _ _ _ _ _ Ha Hl)) as [<- Hu'].
  apply settled_recovers; [by eapply sound_appended|apply settled_quiet; by eapply settled_appended|done|].
  by rewrite (appended_cleans _ _ _ _ _ Ha).
Qed.

(** ** Updating a key *)

Lemma update_rest bs k v0 v rest0 : uniq bs -> pairs bs ≡ₚ (k, v0) :: rest0 ->
  base.NoDup ((k, v) :: rest0).*1 /\ list_to_map ((k, v) :: rest0) = <[k := v]> (contents bs).
Proof.
  intros Hu Hp. assert (Hn : base.NoDup ((k, v0) :: rest0).*1) by (unfold uniq in Hu; by rewrite <- Hp). split; [done|].
  unfold contents. rewrite (list_to_map_proper (M := gmap (list Z)) (pairs bs) ((k, v0) :: rest0)) by done. simpl. by rewrite insert_insert_eq.
Qed.

Lemma crash_update f bs x bs' f' k c n y :
  sound f bs -> settled bs -> uniq bs -> entry_ok x -> e_live x = true -> appended bs f x bs' f' -> 0 < cleans bs ->
  bs !! k = Some c -> b_entries c !! n = Some y -> e_live y = true -> e_key y = e_key x -> e_origin x = epos k c n ->
  let m := <[e_key x := e_val x]> (contents bs) in
  let f3 := set_state f' (epos k c n) ITEM_STATE_DELETE in
  recovers f' m /\ recovers f3 m /\ recovers (if b_state c =? BLK_STATE_USED then set_state f3 (base k) BLK_STATE_DIRTY else f3) m.
Proof.
  intros Hs Hset Hu Hx Hlx Ha Hc Hk Hn Hly Hkey Ho m f3.
  pose proof (sound_appended _ _ _ _ _ Hs Hx Ha) as Hs'. pose proof (appended_pairs _ _ _ _ _ Ha Hlx) as Hp'.
  pose proof (appended_cleans _ _ _ _ _ Ha) as Hc'. pose proof (pairs_without bs k c (b_state c) n y Hk Hn Hly) as Hp0.
  set (rest0 := pairs (<[k := without c (b_state c) n y]> bs)) in *.
  destruct (update_rest bs (e_key x) (e_val y) (e_val x) rest0 Hu) as [Hnd Hm]; [by rewrite <- Hkey|]. fold m in Hm.
  destruct (pending_appended bs f x bs' f' k c n y) as (kp & np & Hpd); try done.
  assert (Hrec : recovers f' m).
  { apply (sound_recovers f' bs' ((e_key x, e_val x) :: rest0)); [done| |lia|done|done]. intros g. right.
    exists kp, np, k, n, y. split; [done|]. split; [destruct kp; [right; lia|left; lia]|]. rewrite Hp', <- Hp0. apply Permutation_swap. }
  split; [done|]. pose proof (appended_extends _ _ _ _ _ Ha) as He. destruct (He k c Hk) as (c' & Hk' & Hpre).
  destruct (epos_prefix k c c' n y Hpre Hn) as [Hn' Hep].
  assert (Hst : b_state c' = b_state c).
  { destruct Ha as (j & b & Hj & _ & _ & -> & _). apply list_lookup_insert_Some in Hk' as [(-> & <- & _)|[_ ?]]; [simpl; congruence|congruence]. }
  destruct (crash_kill f' bs' k c' n y ((e_key x, e_val x) :: rest0) Hs' Hk' Hn' Hly) as [H1 H2]; [lia| | |done|].
  - intros k0 d m0 z Hk0 Hm0 Hlz.
    assert (Hf : fades bs' (<[k := without c' (b_state c') n y]> bs')) by (apply (fades_insert _ _ c'); [done|by apply fade_kill]).
    destruct (fades_live _ _ _ _ _ _ Hf Hk0 Hm0 Hlz) as (d0 & Hd0 & Hmd & _).
    destruct (appended_at _ _ _ _ _ _ _ _ _ Ha Hd0 Hmd) as [(d1 & Hd1 & Hn1 & _)|[-> _]].
    + apply (origin_fades bs'); [done|]. apply (origin_extends bs); [done|]. by apply (Hset k0 d1 m0).
    + right. exists k, (without c' (b_state c') n y), n, (kill y). rewrite list_lookup_insert_eq by (by apply lookup_lt_Some in Hk').
      split; [done|]. split; [simpl; apply list_lookup_insert_eq; by apply lookup_lt_Some in Hn'|].
      rewrite (fade_epos k c') by (by apply fade_kill). rewrite Hep. split; [done|by left].
  - rewrite Hp', <- Hp0. apply Permutation_swap.
  - rewrite Hep, Hst, Hm in *. done.
Qed.

(** Deleting nothing leaves the live entries of every block. *)
Lemma fade_live es es' : Forall2 fade es es' ->
  ((fun x => (e_key x, e_val x)) <$> List.filter e_live es') ⊆+ ((fun x => (e_key x, e_val x)) <$> List.filter e_live es).
Proof.
  induction 1 as [|x x' es es' [->| ->] _ IH]; simpl; [done|destruct (e_live x); simpl; [by apply submseteq_skip|done]|].
  destruct (e_live x); simpl; [by apply submseteq_cons|done].
Qed.

Lemma fades_pairs bs bs' : fades bs bs' -> pairs bs' ⊆+ pairs bs.
Proof. induction 1 as [|b b' bs bs' Hb Hf IH]; [done|]. apply (submseteq_app (live_of b')); [by apply fade_live|done]. Qed.

Lemma fades_live_of bs bs' g b b' : fades bs bs' -> pairs bs' ≡ₚ pairs bs -> bs !! g = Some b -> bs' !! g = Some b' -> live_of b' ≡ₚ live_of b.
Proof.
  intros Hf. revert g. induction Hf as [|c c' bs bs' Hc Hf IH]; intros g Hp Hg Hg'; [done|].
  change (live_of c' ++ pairs bs' ≡ₚ live_of c ++ pairs bs) in Hp.
  pose proof (fade_live _ _ Hc : live_of c' ⊆+ live_of c) as Hl. pose proof (fades_pairs _ _ Hf) as Hps.
  pose proof (submseteq_length _ _ Hl). pose proof (submseteq_length _ _ Hps). apply Permutation_length in Hp as Hlen. rewrite !length_app in Hlen.
  destruct g as [|g]; simpl in *.
  - injection Hg as ->. injection Hg' as ->. apply submseteq_length_Permutation; [done|lia].
  - apply (IH g); [|done..]. apply submseteq_length_Permutation; [done|lia].
Qed.

(** ** Collecting garbage *)

(** Entries copied to the clean block [g]. *)
Definition with_copies (bs : list blk) (g : nat) (es : list entry) : list blk := <[g := mk_blk BLK_STATE_CLEAN es]> bs.

Lemma copied_laid f g es f1 : laid f g BLK_STATE_CLEAN [] -> copied f g es f1 -> laid f1 g BLK_STATE_CLEAN es /\ same_but f f1 g.
Proof.
  intros Hl H. induction H as [|es f1 x Hc [IH1 IH2] Hx Hfit]; [split; [done|apply same_but_refl]|].
  pose proof (total_nonneg _ (laid_ok _ _ _ _ IH1)) as Ht. destruct (elen_bounds x Hx) as (_ & _ & Hb). split; [by apply laid_append|].
  apply (same_but_trans _ f1); [done|]. rewrite <- Z.add_assoc. apply same_but_write; rewrite ?length_enc_entry by done; kvlia.
Qed.

Section gc.
Context (w : world F) (bs : list blk) (i g : nat) (b : blk).
Hypotheses (Hw : wf N w bs) (Hset : settled bs) (Hun : uniq bs) (Hone : cleans bs = 1)
  (Hi : bs !! i = Some b) (Hd : b_state b = BLK_STATE_DIRTY) (Hg : bs !! g = Some (mk_blk BLK_STATE_CLEAN [])).

Lemma gc_ne : i <> g.
Proof using Hi Hd Hg. intros ->. rewrite Hi in Hg. injection Hg as ->. done. Qed.

Lemma gc_pairs_copies es : List.Forall (fun x => e_live x = true) es ->
  pairs (with_copies bs g es) ≡ₚ pairs bs ++ live_of (mk_blk BLK_STATE_CLEAN es).
Proof using Hg.
  intros Hl. unfold with_copies. pose proof (pairs_insert bs g _ (mk_blk BLK_STATE_CLEAN es) Hg) as Hp. by rewrite app_nil_r in Hp.
Qed.

(** An entry of the blocks during the collection comes from the store. *)
Lemma copies_origin (bs' : list blk) k c n x : (forall k c, bs' !! k = Some c -> b_entries c = [] \/ k = g /\ b_entries c `prefix_of` live_entries (b_entries b) \/
    bs !! k = Some c) ->
  bs' !! k = Some c -> b_entries c !! n = Some x -> e_live x = true -> origin_ok bs x.
Proof using Hset Hi.
  intros Hb' Hk Hn Hl. destruct (Hb' k c Hk) as [He|[[-> Hp]|Hk']]; [by rewrite He in Hn| |by apply (Hset k c n)].
  assert (Hin : x ∈ live_entries (b_entries b)).
  { destruct Hp as [l ->]. apply elem_of_app. left. by apply list_elem_of_lookup_2 in Hn. }
  apply list_elem_of_In, List.filter_In in Hin as [Hin _]. apply list_elem_of_In, list_elem_of_lookup in Hin as [m Hm].
  by apply (Hset i b m).
Qed.

(** The part of the store the collection does not touch. *)
Lemma origin_elsewhere f' (bs' : list blk) p x : (forall k c, k <> g -> k <> i -> bs !! k = Some c -> bs' !! k = Some c) ->
  (bs' !! i = Some b \/ forall o, BLK_HEADER_SIZE <= o < BLK_SIZE -> fl_byte f' (KV_PARAM_START_ADDRESS + (base i + o)) = 255) ->
  origin_ok bs x -> quiet f' bs' p x.
Proof using Hi Hg Hw.
  intros Hk Hib [H0|(k & c & n & y & Hkc & Hn & Ho & Hy)]; [by left|]. right. right.
  destruct (decide (k = g)) as [->|Hkg]; [rewrite Hg in Hkc; by injection Hkc as <-|].
  destruct (decide (k = i)) as [->|Hki]; [|right; exists k, c, n, y; split; [by apply Hk|done]].
  destruct Hib as [Hib|Hbyte]; [right; exists i, b, n, y; by assert (c = b) as -> by congruence|left].
  destruct (wf_blocks _ _ _ Hw i c Hkc) as [B1 _ _ _ _]. destruct (laid_at _ _ _ _ _ _ B1 Hn) as (Hyok & _ & _ & T1 & T2 & T3).
  destruct (elen_bounds y Hyok) as (_ & _ & Hbd). rewrite Ho. unfold epos. rewrite <- !Z.add_assoc, Hbyte; [done|kvlia].
Qed.

(** While entries are copied the old block is complete: the copies are dropped. *)
Lemma crash_copying es f1 : copied (flash w) g es f1 -> es `prefix_of` live_entries (b_entries b) -> recovers f1 (contents bs).
Proof using Hw Hset Hun Hone Hi Hd Hg.
  intros Hc Hpre. destruct (wf_blocks _ _ _ Hw g _ Hg) as [G1 _ _ _ _]. destruct (copied_laid _ _ _ _ G1 Hc) as [Hl1 Hs1].
  pose proof (lookup_lt_Some _ _ _ Hg) as Hgl. destruct (wf_num _ _ _ Hw) as [Hlen HN].
  assert (Hlive : List.Forall (fun x => e_live x = true) es).
  { destruct Hpre as [l Hl]. pose proof (live_entries_live (b_entries b)) as Ha. rewrite Hl in Ha. by apply Forall_app in Ha as [? _]. }
  set (bs1 := with_copies bs g es). assert (Hg1 : bs1 !! g = Some (mk_blk BLK_STATE_CLEAN es)) by (by apply list_lookup_insert_eq).
  assert (Hhere : forall k c, bs1 !! k = Some c -> here f1 k c).
  { intros k c. unfold bs1, with_copies. rewrite list_lookup_insert_Some. intros [(<- & <- & _)|[Hne Hk]]; [by right|].
    apply (here_ext (flash w)); [by apply Hs1|by apply (wf_here N w bs)]. }
  assert (Hq : all_quiet f1 bs1).
  { intros k c n x Hk Hn Hl. apply origin_elsewhere.
    - intros k' c' H1 _ H2. unfold bs1, with_copies. by rewrite list_lookup_insert_ne.
    - left. unfold bs1, with_copies. rewrite list_lookup_insert_ne; [done|]. intros Heq. by apply gc_ne.
    - apply (copies_origin bs1 k c n); try done. intros k' c'. unfold bs1, with_copies. rewrite list_lookup_insert_Some.
      intros [(<- & <- & _)|[_ ?]]; [right; by left|by right; right]. }
  pose proof (gc_pairs_copies es Hlive) as Hpc. fold bs1 in Hpc.
  destruct es as [|x es]; [|set (es' := x :: es) in *].
  - (* nothing was copied yet *)
    assert (bs1 = bs) as Hbs1 by (by apply list_insert_id). rewrite Hbs1 in *.
    apply settled_recovers; [|done|done|lia]. split; [done| |intros k c Hk; apply (wf_blocks _ _ _ Hw k c Hk)].
    intros k c Hk. destruct (Hhere k c Hk) as [(Hb & _)|?]; [|done]. destruct (wf_blocks _ _ _ Hw k c Hk) as [_ _ B3 _ _]. by rewrite Hb in B3.
  - assert (Hst : stopped N f1 bs1 (pairs bs1) (Some g)).
    { split; [by unfold bs1, with_copies; rewrite length_insert|done|intros g1; by left| |intros k [= <-]; lia].
      intros k c. unfold bs1, with_copies. rewrite list_lookup_insert_Some. intros [(<- & <- & _)|[Hne Hk]]; [done|].
      rewrite (proj2 (wf_not_stale N w bs k c Hw Hk)). split; [done|congruence]. }
    assert (Hfr : frees bs1 = 0).
    { unfold bs1, with_copies. rewrite (frees_insert _ _ _ _ Hg), (wf_frees N w bs Hw), Hone. done. }
    intros g0 Hg0. destruct (kv_init_some N f1 bs1 (pairs bs1) g Hst) as (w' & bs' & bs2 & b2 & Hr & Hw' & Hp2 & Hf2 & Hb2 & Hcase).
    rewrite Hfr in Hcase. simpl in Hcase.
    destruct (qm_kv_init_ok N f1 g0 w' bs') as (w2 & Hr2 & Hw2); [lia|done..|].
    assert (Hlb : live_of b2 ≡ₚ live_of (mk_blk BLK_STATE_CLEAN es')) by (by apply (fades_live_of bs1 bs2 g)).
    destruct (contents_perm bs bs' Hun) as [Hcont Hu']; [|by exists w2, bs'].
    apply (Permutation_app_inv_r (live_of b2)). by rewrite Hcase, Hlb.
Qed.

(** The blocks once the dirty block was erased; [s] and [s'] are the states of the two blocks. *)
Definition with_moved (s s' : Z) : list blk := <[i := mk_blk s []]> (<[g := mk_blk s' (live_entries (b_entries b))]> bs).

Lemma moved_at s s' k c : with_moved s s' !! k = Some c ->
  (k = i /\ c = mk_blk s []) \/ (k = g /\ c = mk_blk s' (live_entries (b_entries b))) \/ (k <> i /\ k <> g /\ bs !! k = Some c).
Proof.
  unfold with_moved. rewrite !list_lookup_insert_Some. intros [(<- & <- & _)|[H1 [(<- & <- & _)|[H2 H3]]]]; [by left|right; by left|by right; right].
Qed.

Lemma moved_pairs s s' : pairs (with_moved s s') ≡ₚ pairs bs.
Proof using Hi Hg Hd.
  pose proof (collected_pairs bs i g b Hi Hg gc_ne) as Hp. rewrite <- Hp. unfold collected, with_moved. pose proof gc_ne as Hne.
  set (l := live_entries (b_entries b)).
  pose proof (pairs_insert bs g _ (mk_blk BLK_STATE_USED l) Hg) as P1. pose proof (pairs_insert bs g _ (mk_blk s' l) Hg) as P2.
  assert (Hi1 : forall c, <[g := c]> bs !! i = Some b) by (intros c; by rewrite list_lookup_insert_ne).
  pose proof (pairs_insert _ i b (mk_blk BLK_STATE_CLEAN []) (Hi1 (mk_blk BLK_STATE_USED l))) as P3.
  pose proof (pairs_insert _ i b (mk_blk s []) (Hi1 (mk_blk s' l))) as P4.
  change (live_of (mk_blk s [])) with (@nil (list Z * list Z)) in P4. change (live_of (mk_blk BLK_STATE_CLEAN [])) with (@nil (list Z * list Z)) in *.
  change (live_of (mk_blk s' l)) with (live_of (mk_blk BLK_STATE_USED l)) in P2. rewrite !app_nil_r in *.
  apply (Permutation_app_inv_r (live_of b)). by rewrite P4, P3, P1, P2.
Qed.

Lemma moved_quiet f' s s' :
  (forall o, BLK_HEADER_SIZE <= o < BLK_SIZE -> fl_byte f' (KV_PARAM_START_ADDRESS + (base i + o)) = 255) -> all_quiet f' (with_moved s s').
Proof using Hw Hset Hi Hd Hg.
  intros Hbyte k c n x Hk Hn Hl. pose proof gc_ne as Hne. apply origin_elsewhere; [|by right|].
  - intros k' c' H1 H2 H3. unfold with_moved. by rewrite !list_lookup_insert_ne.
  - apply (copies_origin (with_moved s s') k c n); try done. intros k' c' Hk'.
    destruct (moved_at _ _ _ _ Hk') as [[-> ->]|[[-> ->]|(_ & _ & ?)]]; [by left|right; left; by split|by right; right].
Qed.

Lemma moved_here f1 f' s c : copied (flash w) g (live_entries (b_entries b)) f1 -> same_but f1 f' i -> here f' i (mk_blk s []) ->
  forall k, with_moved s BLK_STATE_CLEAN !! k = Some c -> here f' k c.
Proof using Hw Hi Hd Hg.
  intros Hc Hs Hh k Hk. destruct (wf_blocks _ _ _ Hw g _ Hg) as [G1 _ _ _ _]. destruct (copied_laid _ _ _ _ G1 Hc) as [Hl1 Hs1].
  destruct (moved_at _ _ _ _ Hk) as [[-> ->]|[[-> ->]|(Hki & Hkg & Hk0)]]; [done| |].
  - apply (here_ext f1); [apply Hs; intros Heq; by apply gc_ne|by right].
  - apply (here_ext f1); [by apply Hs|]. apply (here_ext (flash w)); [by apply Hs1|]. by apply (wf_here N w bs).
Qed.

(** The dirty block is erased, with or without its new header: the copies are kept. *)
Lemma crash_erased f1 f' s : copied (flash w) g (live_entries (b_entries b)) f1 -> same_but f1 f' i -> here f' i (mk_blk s []) ->
  unwritten (mk_blk s []) = true ->
  (forall o, BLK_HEADER_SIZE <= o < BLK_SIZE -> fl_byte f' (KV_PARAM_START_ADDRESS + (base i + o)) = 255) -> recovers f' (contents bs).
Proof using Hw Hset Hun Hone Hi Hd Hg.
  intros Hc Hs Hh Hs0 Hbyte g0 Hg0. destruct (wf_num _ _ _ Hw) as [Hlen HN]. pose proof gc_ne as Hne. set (bs1 := with_moved s BLK_STATE_CLEAN).
  pose proof (lookup_lt_Some _ _ _ Hg) as Hgl. pose proof (lookup_lt_Some _ _ _ Hi) as Hil.
  assert (Hi1 : forall c, <[g := c]> bs !! i = Some b) by (intros c; by rewrite list_lookup_insert_ne).
  set (l := live_entries (b_entries b)) in *.
  set (st := match l with [] => None | _ => Some g end).
  assert (Hst : stopped N f' bs1 (pairs bs1) st).
  { split; [unfold bs1, with_moved; by rewrite !length_insert|intros k c; by apply (moved_here f1)|intros g1; left; split; [by apply moved_quiet|done]| |].
    - intros k c Hk. destruct (moved_at _ _ _ _ Hk) as [[-> ->]|[[-> ->]|(Hki & Hkg & Hk0)]].
      + unfold is_stale. simpl. rewrite andb_false_r. unfold st. destruct l; split; congruence.
      + unfold is_stale, st. fold l. simpl. by destruct l.
      + rewrite (proj2 (wf_not_stale N w bs k c Hw Hk0)). unfold st. destruct l; split; congruence.
    - unfold st. destruct l; intros k Hk; [done|]. injection Hk as <-. lia. }
  assert (Hfr : 0 < frees bs1).
  { unfold bs1, with_moved. rewrite (frees_insert _ _ _ _ (Hi1 _)), (frees_insert _ _ _ _ Hg), (wf_frees N w bs Hw), Hone.
    assert (Hf1 : is_free (mk_blk s []) = true) by (unfold is_free; by rewrite Hs0). rewrite Hf1.
    assert (Hf2 : is_free b = false) by (unfold is_free, unwritten; by rewrite Hd). rewrite Hf2. fold l.
    destruct (is_free (mk_blk BLK_STATE_CLEAN l)); simpl; lia. }
  assert (Hend : exists w' bs', kv_init N (mk_world (zero_mgr N) f' []) = Ret (RES_OK, w') /\ wf N w' bs' /\ pairs bs' ≡ₚ pairs bs1).
  { unfold st in Hst. destruct l eqn:El.
    - destruct (kv_init_none N f' bs1 _ Hst Hfr) as (w' & bs' & Hr & Hw' & Hp & _). by exists w', bs'.
    - destruct (kv_init_some N f' bs1 _ g Hst) as (w' & bs' & bs2 & b2 & Hr & Hw' & _ & _ & _ & Hp).
      rewrite (proj2 (Z.eqb_neq (frees bs1) 0)) in Hp by lia. by exists w', bs'. }
  destruct Hend as (w' & bs' & Hr & Hw' & Hp). destruct (qm_kv_init_ok N f' g0 w' bs') as (w2 & Hr2 & Hw2); [lia|done..|].
  destruct (contents_perm bs bs' Hun) as [Hcont Hu']; [rewrite Hp; apply moved_pairs|by exists w2, bs'].
Qed.

(** The collection is complete. *)
Lemma crash_collected w' : wf N w' (collected bs i g b) ->
  (forall o, BLK_HEADER_SIZE <= o < BLK_SIZE -> fl_byte (flash w') (KV_PARAM_START_ADDRESS + (base i + o)) = 255) ->
  recovers (flash w') (contents bs).
Proof using Hw Hset Hun Hone Hi Hd Hg.
  intros Hw' Hbyte. change (collected bs i g b) with (with_moved BLK_STATE_CLEAN BLK_STATE_USED) in *.
  destruct (contents_perm bs (with_moved BLK_STATE_CLEAN BLK_STATE_USED) Hun (moved_pairs _ _)) as [<- Hu'].
  apply settled_recovers; [by apply wf_sound|by apply moved_quiet|done|]. unfold with_moved.
  assert (Hi1 : <[g := mk_blk BLK_STATE_USED (live_entries (b_entries b))]> bs !! i = Some b) by (rewrite list_lookup_insert_ne; [done|]; intros Heq; by apply gc_ne).
  rewrite (cleans_insert _ _ _ _ Hi1), (cleans_insert _ _ _ _ Hg), Hone. unfold is_clean. simpl. rewrite Hd. simpl. lia.
Qed.

End gc.

(** ** What setting a key writes *)

Definition killed_flash f (k : nat) (c : blk) (n : nat) : F :=
  let f1 := set_state f (epos k c n) ITEM_STATE_DELETE in
  if b_state c =? BLK_STATE_USED then set_state f1 (base k) BLK_STATE_DIRTY else f1.

Inductive set_trace (key val : list Z) (bs : list blk) f : F -> Prop :=
| trace_same : contents bs !! key = Some val -> set_trace key val bs f f
| trace_full bs1 f1 : opened N bs f bs1 f1 -> set_trace key val bs f f1
| trace_new bs1 f1 bs2 f2 : contents bs !! key = None -> opened N bs f bs1 f1 ->
    appended bs1 f1 (mk_entry key val 0 true) bs2 f2 -> set_trace key val bs f f2
| trace_update bs1 f1 bs2 f2 k c n y : opened N bs f bs1 f1 -> bs1 !! k = Some c -> b_entries c !! n = Some y ->
    e_live y = true -> e_key y = key -> entry_ok (mk_entry key val (epos k c n) true) ->
    appended bs1 f1 (mk_entry key val (epos k c n) true) bs2 f2 -> set_trace key val bs f (killed_flash f2 k c n).

Lemma update_trace search_fuel w bs j b es1 x es2 val :
  wf N w bs -> (N < search_fuel)%nat -> entry_ok (mk_entry (e_key x) val 0 true) ->
  can_place N (elen (mk_entry (e_key x) val 0 true)) w bs ->
  bs !! j = Some b -> b_entries b = es1 ++ x :: es2 -> e_live x = true ->
  let q := base j + BLK_HEADER_SIZE + total es1 in
  exists r w', (ret ← kv_item_store N search_fuel (e_key x) val q;
      if negb (ret =? RES_OK) then mret ret else kv_item_del_self (found_item (x, q))) w = Ret (r, w') /\
    set_trace (e_key x) val bs (flash w) (flash w').
Proof.
  intros Hw Hf Hok Hcan Hj He Hl q. destruct (wf_num _ _ _ Hw) as [Hn HN]. pose proof (lookup_lt_Some _ _ _ Hj) as Hjn.
  assert (Hx : b_entries b !! length es1 = Some x) by (rewrite He; by apply list_lookup_middle).
  destruct (wf_blocks _ _ _ Hw j b Hj) as [Hla _ _ _ _]. destruct (laid_at _ _ _ _ _ _ Hla Hx) as (Hxok & _ & _ & T1 & T2 & T3).
  destruct (elen_bounds x Hxok) as (_ & _ & Hbx).
  assert (Htake : take (length es1) (b_entries b) = es1) by (by rewrite He, take_app_length).
  assert (Hq : forall c, b_entries c = b_entries b -> epos j c (length es1) = q) by (intros c Hc; unfold epos, q; by rewrite Hc, Htake).
  rewrite Htake in T1, T3.
  assert (Hokq : entry_ok (mk_entry (e_key x) val q true)).
  { destruct Hok as [K1 K2 K3 _]. split; [done..|]. simpl. unfold q, base. kvlia. }
  destruct (item_store_refines N search_fuel (e_key x) val q w bs Hw Hf Hokq Hcan) as (r & w1 & bs' & bs1 & f1 & Hr & Hw1 & _ & Hop & Hcase).
  rewrite (bind_step _ _ _ _ _ Hr). destruct Hcase as [(-> & _ & Ha)|(-> & _ & _ & Hf1 & _)].
  2: { exists RES_NO_SPACE, w1. split; [done|]. rewrite Hf1. by apply (trace_full _ _ _ _ bs1). }
  cbn [negb Z.eqb RES_OK]. pose proof (opened_keeps N w bs bs1 f1 Hw Hop j b Hj) as Hj1.
  assert (Hne : b_entries b <> []) by (rewrite He; by destruct es1). specialize (Hj1 Hne).
  destruct (appended_extends _ _ _ _ _ Ha j b Hj1) as (c & Hc & [es3 Hpre]).
  assert (Hst : b_state c = b_state b).
  { destruct Ha as (k & d & Hk & _ & _ & -> & _). apply list_lookup_insert_Some in Hc as [(-> & <- & _)|[_ ?]]; [simpl; congruence|congruence]. }
  assert (Hec : b_entries c = es1 ++ x :: (es2 ++ es3)) by (rewrite Hpre, He, <- app_assoc; done).
  destruct (mark_deleted_wf N w1 bs' j c es1 x (es2 ++ es3) q Hw1 Hc Hec Hl eq_refl) as (w2 & Hr2 & _ & _ & Hfl).
  exists RES_OK, w2. split; [exact Hr2|]. rewrite Hfl, Hst.
  pose proof (trace_update (e_key x) val bs (flash w) bs1 f1 bs' (flash w1) j b (length es1) x Hop Hj1 Hx Hl eq_refl) as Ht.
  unfold killed_flash in Ht. rewrite (Hq b eq_refl) in Ht. by apply Ht.
Qed.

Lemma set_now_trace search_fuel key val w bs :
  wf N w bs -> uniq bs -> (N < search_fuel)%nat -> entry_ok (mk_entry key val 0 true) ->
  can_place N (elen (mk_entry key val 0 true)) w bs ->
  exists r w', set_now N search_fuel key val w = Ret (r, w') /\ set_trace key val bs (flash w) (flash w').
Proof.
  intros Hw Hu Hf Hok Hcan. unfold set_now. rewrite (bind_step _ _ _ _ _ (item_get_eq N key w bs Hw)).
  pose proof (find_blocks_lookup key 0 bs) as Hlk. destruct (find_blocks key 0 bs) as [[x p]|] eqn:Hfind; simpl in Hlk |- *.
  - apply find_blocks_spec in Hfind as (j & b & es1 & es2 & Hj & He & -> & Hl & <-). simpl.
    unfold kv_item_update. set (q := base j + BLK_HEADER_SIZE + total es1).
    change (KvMgr.val_len (KvMgr.hdr (found_item (x, q)))) with (Z.of_nat (length (e_val x))).
    destruct (Z.eqb_spec (Z.of_nat (length (e_val x))) (Z.of_nat (length val))) as [Hlen|Hlen]; cbn [andb];
      [case_bool_decide as Hv|].
    + exists RES_OK, w. split; [done|]. apply trace_same. rewrite <- Hlk, <- Hv. simpl. unfold data_of.
      by rewrite Nat2Z.id, drop_app_length, take_ge by lia.
    + by apply (update_trace search_fuel w bs j b es1 x es2 val).
    + by apply (update_trace search_fuel w bs j b es1 x es2 val).
  - destruct (item_store_refines N search_fuel key val 0 w bs Hw Hf Hok Hcan) as (r & w' & bs' & bs1 & f1 & Hr & Hw' & _ & Hop & Hcase).
    exists r, w'. split; [done|]. destruct Hcase as [(-> & _ & Ha)|(-> & _ & _ & Hf1 & _)].
    + by apply (trace_new _ _ _ _ bs1 f1 bs').
    + rewrite Hf1. by apply (trace_full _ _ _ _ bs1).
Qed.

End crash.

(** ** Loss of power *)

Section power.
Context {F : Type} `{!SpiFlash F} (N : nat) (search_fuel : nat).
Implicit Types (w : world (journal F)).

Lemma laid_now (f : journal F) k s es : laid f k s es -> laid (j_now f) k s es.
Proof.
  intros [L1 L2 L3 L4]. split; [exact L1| |done|done]. clear -L2. revert L2. generalize (base k + BLK_HEADER_SIZE).
  induction es as [|x es IH]; intros p; simpl; [done|]. intros [H1 H2]. split; [exact H1|by apply IH].
Qed.

Definition now w : world F := mk_world (mgr w) (j_now (flash w)) (oom w).

Lemma wf_now w bs : wf N w bs -> wf N (now w) bs.
Proof.
  intros [H1 H2 H3 H4 H5 H6]. split; try done. intros i b Hi. destruct (H3 i b Hi) as [B1 B2 B3 B4 B5].
  split; try done. by apply laid_now.
Qed.

(** From [f] to [f'] the flash went only through states with [P], the last one included. *)
Definition survives (f f' : journal F) (P : F -> Prop) : Prop :=
  exists l, j_past f' = l ++ j_past f /\ List.Forall P (j_now f' :: l).

Lemma opened_now bs (f : journal F) bs1 f1 : opened N bs f bs1 f1 ->
  opened N bs (j_now f) bs1 (j_now f1) /\ exists l, j_past f1 = l ++ j_past f /\ (l = [] \/ l = [j_now f]).
Proof.
  intros [[-> ->]|(i & b & HN & Hi & Hc & -> & ->)]; (split; [|]).
  - by left.
  - exists []. by split; [|left].
  - right. by exists i, b.
  - exists [j_now f]. by split; [|right].
Qed.

Lemma appended_now bs (f : journal F) x bs' f' : appended bs f x bs' f' ->
  appended bs (j_now f) x bs' (j_now f') /\ j_past f' = j_now f :: j_past f.
Proof. intros (j & b & Hj & Hc & Hf & -> & ->). split; [by exists j, b|done]. Qed.

Lemma killed_now (f : journal F) k c n :
  j_now (killed_flash f k c n) = killed_flash (j_now f) k c n /\
  exists l, j_past (killed_flash f k c n) = l ++ [j_now f] ++ j_past f /\
    (l = [] \/ l = [set_state (j_now f) (epos k c n) ITEM_STATE_DELETE]).
Proof.
  unfold killed_flash. destruct (b_state c =? BLK_STATE_USED); (split; [done|]).
  - eexists. split; [|by right]. done.
  - exists []. split; [done|by left].
Qed.

(** What the states during [qm_kv_set] recover to. *)
Lemma trace_survives key val w bs f' :
  wf N w bs -> uniq bs -> settled bs -> entry_ok (mk_entry key val 0 true) ->
  (N = 2%nat /\ 0 < cleans bs) \/ 1 < cleans bs -> set_trace N key val bs (flash w) f' ->
  survives (flash w) f' (fun f => recovers N f (contents bs) \/ recovers N f (<[key := val]> (contents bs))).
Proof.
  intros Hw Hu Hset Hok Hres Htr. pose proof (wf_now w bs Hw) as Hwn. pose proof (wf_sound N (now w) bs Hwn) as Hs. simpl in Hs.
  assert (Hcl : 0 < cleans bs) by (destruct Hres as [[_ ?]|?]; lia).
  assert (H0 : recovers N (j_now (flash w)) (contents bs)) by (apply settled_recovers; [done|by apply settled_quiet|done|done]).
  set (P f := recovers N f (contents bs) \/ recovers N f (<[key := val]> (contents bs))).
  assert (Hopen : forall bs1 f1, opened N bs (flash w) bs1 f1 ->
    sound N (j_now f1) bs1 /\ settled bs1 /\ uniq bs1 /\ contents bs1 = contents bs /\ 0 < cleans bs1 /\
    exists l, j_past f1 = l ++ j_past (flash w) /\ List.Forall P (j_now f1 :: l)).
  { intros bs1 f1 Hop. destruct (opened_now bs (flash w) bs1 f1 Hop) as [Hop' (l & Hl & Hcase)].
    pose proof (opened_pairs N (now w) bs bs1 (j_now f1) Hwn Hop') as Hp. pose proof (opened_cleans N (j_now (flash w)) bs bs1 (j_now f1) Hop' Hres) as Hc1.
    destruct (contents_perm bs bs1 Hu Hp) as [Hc Hu1].
    split_and!; [by eapply sound_opened|apply (settled_fades bs); [by eapply opened_fades|done]|done..|]. exists l. split; [done|].
    constructor; [left; by eapply crash_opened|]. destruct Hcase as [->| ->]; [constructor|constructor; [by left|constructor]]. }
  destruct Htr as [Hsame|bs1 f1 Hop|bs1 f1 bs2 f2 Hnone Hop Ha|bs1 f1 bs2 f2 k c n y Hop Hk Hn Hly Hkey Hokx Ha].
  - exists []. split; [done|]. constructor; [by left|constructor].
  - by destruct (Hopen bs1 f1 Hop) as (_ & _ & _ & _ & _ & Hl).
  - destruct (Hopen bs1 f1 Hop) as (Hs1 & Hset1 & Hu1 & Hc1 & Hcl1 & l & Hl & Hall). destruct (appended_now _ _ _ _ _ Ha) as [Ha' Hpast].
    exists (j_now f1 :: l). rewrite Hpast, Hl. split; [done|]. constructor; [right|done]. rewrite <- Hc1 in *.
    by apply (crash_new N (j_now f1) bs1 (mk_entry key val 0 true) bs2).
  - destruct (Hopen bs1 f1 Hop) as (Hs1 & Hset1 & Hu1 & Hc1 & Hcl1 & l & Hl & Hall). destruct (appended_now _ _ _ _ _ Ha) as [Ha' Hpast].
    destruct (killed_now f2 k c n) as [Hnow (l2 & Hl2 & Hcase)].
    destruct (crash_update N (j_now f1) bs1 (mk_entry key val (epos k c n) true) bs2 (j_now f2) k c n y) as (R1 & R2 & R3); try done.
    simpl in R1, R2, R3. rewrite Hc1 in R1, R2, R3.
    exists (l2 ++ j_now f2 :: j_now f1 :: l). rewrite Hl2, Hpast, Hl. split; [by rewrite <- app_assoc|]. rewrite Hnow.
    constructor; [by right|]. apply Forall_app. split; [destruct Hcase as [->| ->]; [constructor|constructor; [by right|constructor]]|].
    constructor; [by right|done].
Qed.


(** When the power is lost at any time during [qm_kv_del], the next start gives the map
    before the call or the map without the key, provided a block is clean. *)
Theorem kv_del_survives w bs key :
  wf N w bs -> uniq bs -> settled bs -> 0 < cleans bs ->
  exists r w', qm_kv_del N key w = Ret (r, w') /\
    survives (flash w) (flash w') (fun f => recovers N f (contents bs) \/ recovers N f (delete key (contents bs))).
Proof.
  intros Hw Hu Hset Hcl. pose proof (wf_sound N (now w) bs (wf_now w bs Hw)) as Hs. simpl in Hs.
  assert (H0 : recovers N (j_now (flash w)) (contents bs)) by (apply settled_recovers; [done|by apply settled_quiet|done|done]).
  unfold qm_kv_del. rewrite (bind_step _ _ _ _ _ (item_get_eq N key w bs Hw)).
  destruct (find_blocks key 0 bs) as [[x p]|] eqn:Hf.
  2: { exists RES_ITEM_NOT_FOUND, w. split; [done|]. exists []. split; [done|]. constructor; [by left|constructor]. }
  apply find_blocks_spec in Hf as (j & b & es1 & es2 & Hj & He & -> & Hl & <-).
  destruct (mark_deleted_wf N w bs j b es1 x es2 _ Hw Hj He Hl eq_refl) as (w' & Hr & _ & Hp & Hfl).
  exists RES_OK, w'. split; [exact Hr|].
  assert (Hx : b_entries b !! length es1 = Some x) by (rewrite He; by apply list_lookup_middle).
  assert (Hq : epos j b (length es1) = base j + BLK_HEADER_SIZE + total es1) by (unfold epos; by rewrite He, take_app_length).
  assert (Hfl' : flash w' = killed_flash (flash w) j b (length es1)) by (unfold killed_flash; by rewrite Hq).
  destruct (killed_now (flash w) j b (length es1)) as [Hnow (l & Hl2 & Hcase)].
  set (rest := pairs (<[j := without b (b_state b) (length es1) x]> bs)).
  pose proof (pairs_without bs j b (b_state b) (length es1) x Hj Hx Hl) as Hrest. fold rest in Hrest.
  destruct (contents_delete bs (<[j := without b (b_state b) (length es1) x]> bs) _ _ Hu Hrest) as (Hc & _ & Hu').
  destruct (crash_kill N (j_now (flash w)) bs j b (length es1) x rest) as [R1 R2]; try done.
  { apply (settled_fades bs); [|done]. apply (fades_insert _ _ b); [done|by apply fade_kill]. }
  change (list_to_map rest) with (contents (<[j := without b (b_state b) (length es1) x]> bs)) in R1, R2. rewrite Hc in R1, R2.
  exists (l ++ [j_now (flash w)]). rewrite Hfl', Hl2, Hnow. split; [by rewrite <- app_assoc|].
  constructor; [by right|]. apply Forall_app. split; [|constructor; [by left|constructor]].
  destruct Hcase as [->| ->]; [constructor|constructor; [by right|constructor]].
Qed.

Lemma copied_now (f : journal F) g es f1 : copied f g es f1 ->
  copied (j_now f) g es (j_now f1) /\ exists l, j_past f1 = l ++ j_past f /\
    List.Forall (fun f0 => exists es0, es0 `prefix_of` es /\ copied (j_now f) g es0 f0) l.
Proof.
  induction 1 as [|es f1 x Hc [IH (l & Hl & Hall)] Hx Hfit]; [split; [constructor|by exists []; split; [|constructor]]|].
  split; [by constructor|]. exists (j_now f1 :: l). simpl. rewrite Hl. split; [done|]. constructor.
  - exists es. split; [by apply prefix_app_r|done].
  - eapply Forall_impl; [exact Hall|]. intros f0 (es0 & Hp & Hc0). exists es0. split; [by apply prefix_app_r|done].
Qed.

(** Erased bytes stay erased. *)
Lemma erased_bytes (f1 : F) i : forall o, BLK_HEADER_SIZE <= o < BLK_SIZE ->
  fl_byte (formatted f1 i) (KV_PARAM_START_ADDRESS + (base i + o)) = 255 /\
  fl_byte (spi_flash_erase_sector f1 (KV_PARAM_START_SECTOR + base i / SPI_FLASH_SEC_SIZE)) (KV_PARAM_START_ADDRESS + (base i + o)) = 255.
Proof.
  intros o Ho. unfold formatted. destruct (sector_of i) as (-> & Hs1 & Hs2).
  assert (He : fl_byte (spi_flash_erase_sector f1 (KV_PARAM_START_SECTOR + Z.of_nat i)) (KV_PARAM_START_ADDRESS + (base i + o)) = 255).
  { rewrite fl_erase, (proj2 (Z.leb_le _ _)), (proj2 (Z.ltb_lt _ _)) by kvlia. done. }
  split; [|done]. rewrite write_out; [done|]. simpl. kvlia.
Qed.


End power.

(** ** Concrete stores *)

Definition off_journal : world (journal (gmap Z Z)) := mk_world (mk_mgr 0 0 0 0 0 []) (mk_journal ∅ []) [].

Lemma off_journal_blank : blank 2 (mk_journal ∅ [] : journal (gmap Z Z)).
Proof. intros [|[|i]] Hi; [vm_compute; done|vm_compute; done|lia]. Qed.

(** A fresh store of two blocks. *)
Lemma fresh_store : exists (w : world (journal (gmap Z Z))) bs, wf 2 w bs /\ uniq bs /\ contents bs = ∅ /\ settled bs /\ cleans bs = 1 /\
  gc_triggered (mgr w) = 0.
Proof.
  destruct (init_blank 2 (mk_journal ∅ [] : journal (gmap Z Z)) (mk_mgr 0 0 0 0 0 [])) as (w & bs & Hr & Hw & Hu & Hc & Hcl & Hbs); [lia|apply off_journal_blank|done|].
  exists w, bs. split; [exact Hw|]. split; [exact Hu|]. split; [exact Hc|]. split; [|split; [exact Hcl|]].
  - intros k b n x Hk Hn. by rewrite (Hbs k b Hk) in Hn.
  - assert (H0 : match qm_kv_init 2 0 0 off_journal with Ret (_, w) => gc_triggered (mgr w) | _ => 1 end = 0) by (vm_compute; reflexivity).
    unfold off_journal in H0. rewrite Hr in H0. exact H0.
Qed.

(** The store of two blocks in which "a" was deleted and "b" is live. *)
Definition worn_journal : world (journal (gmap Z Z)) := match wear off_journal with Ret (_, w) => w | _ => off_journal end.

Lemma worn_journal_store : worn worn_journal.
Proof. check_worn. Qed.

Lemma worn_settled : settled worn_blocks.
Proof.
  intros k b n x Hk Hn _. left. destruct k as [|[|k]]; [| |done]; injection Hk as <-; [|done].
  by destruct n as [|[|n]]; [injection Hn as <-|injection Hn as <-|].
Qed.


Lemma kv_del_survives_witness :
  exists (w : world (journal (gmap Z Z))) r w', qm_kv_del 2 [97] w = Ret (r, w') /\
    survives (flash w) (flash w') (fun f => recovers 2 f ∅ \/ recovers 2 f (delete [97] ∅)).
Proof.
  destruct fresh_store as (w & bs & Hw & Hu & Hc & Hs & Hcl & Hg).
  destruct (kv_del_survives 2 w bs [97] Hw Hu Hs) as (r & w' & Hr & Hsv); [lia|]. rewrite Hc in Hsv. by exists w, r, w'.
Defined.


(** The collector copies origins as they are.  Here the entry of "a" comes to lie at its
    own origin; in the next collection its copy takes the original for an entry it
    replaced, and when the power is lost after copying, the start deletes the
    original and then drops the copy: "a" is lost. *)
Definition pair_at (k : Z) : M (F := journal (gmap Z Z)) unit := qm_kv_set 2 3 (Some [k]) (Some [1]) 1;; mret tt.

Definition moved_twice : M (F := journal (gmap Z Z)) (Z * list Z * Z) :=
  qm_kv_init 2 0 0;; pair_at 97;; qm_kv_set 2 3 (Some [97]) (Some [2]) 1;; qm_kv_gc 2;;
  pair_at 98;; qm_kv_del 2 [98];; qm_kv_gc 2;; pair_at 99;; qm_kv_del 2 [99];; r ← qm_kv_get 2 (Some [97]) 8; qm_kv_gc 2;; mret r.

Theorem collected_entry_lost :
  match moved_twice off_journal with
  | Ret (r, w) =>
      r = (RES_OK, [2], 1) /\
      match j_past (flash w) !! 2%nat with
      | Some f => match (qm_kv_init 2 0 0;; qm_kv_get 2 (Some [97]) 8) (mk_world (mk_mgr 0 0 0 0 0 []) f []) with
                  | Ret (r, _) => r = (RES_ITEM_NOT_FOUND, [], 8)
                  | _ => False
                  end
      | None => False
      end
  | _ => False
  end.
Proof. vm_compute. done. Qed.
End KvCrash.
