(* ===== verification/Memory.v ===== *)
(** * The memory pool (utility/memory/qm_memory.c)

    A first-fit allocator.  Every block starts with a link of two words, the next free
    block and the size, whose top bit marks a block in use; the free blocks are linked in
    the order of their addresses.  Memory is a function from the addresses of 32-bit words
    to their values, with the bounds of the area; the links live in it, so that a link
    written over another one would be seen.  [xStart] is a variable outside of the area,
    and a pointer that may designate it is [None] for [&xStart].

    Abstractly the pool is the list of its blocks from the lowest address on, each with
    its size and whether it is in use; the operations are shown to refine first-fit
    allocation, splitting and coalescing on this list. *)

From S2P Require Import Prelude Outcome Endian.
Import list_relations.list list_basics.list.
Open Scope Z_scope.

Module Memory.

(** CONFIG_QM_MEM_BYTE_ALIGNMENT: 4 by default, or 8.  The header also allows 2 and 1,
    with which the two words in front of a block may lie at addresses that are no
    multiple of 4; memory is a map of such words here, and these two are left out. *)
Class MemConfig := CONFIG_QM_MEM_BYTE_ALIGNMENT : Z.
Class MemConfigOk (c : MemConfig) : Prop := alignment_ok : CONFIG_QM_MEM_BYTE_ALIGNMENT = 4 \/ CONFIG_QM_MEM_BYTE_ALIGNMENT = 8.

Section pool.
Context {cfg : MemConfig}.

Definition CONFIG_QM_MEM_BYTE_ALIGNMENT_MASK : Z := CONFIG_QM_MEM_BYTE_ALIGNMENT - 1.
Definition sizeof_BlockLink_t : Z := 8.
Definition xHeapStructSize : Z :=
  Z.land (sizeof_BlockLink_t + (CONFIG_QM_MEM_BYTE_ALIGNMENT - 1)) (Z.lnot CONFIG_QM_MEM_BYTE_ALIGNMENT_MASK).
Definition CONFIG_QM_MEM_MINI_BLOCK_SIZE : Z := u32 (xHeapStructSize * 2).

(** The static variables, and the words of the area [lo, hi). *)
Record pool_t := mk_pool {
  words : Z -> Z;
  lo : Z;
  hi : Z;
  xStart_next : Z;                       (* xStart.pxNextFreeBlock; its size is 0 *)
  pxEnd : Z;
  xFreeBytesRemaining : Z;
  xMinimumEverFreeBytesRemaining : Z;
  xBlockAllocatedBit : Z
}.

Definition M (A : Type) : Type := pool_t -> outcome (A * pool_t).
#[global] Instance M_ret : MRet M := fun A a s => Ret (a, s).
#[global] Instance M_bind : MBind M := fun A B k m s =>
  match m s with Ret (a, s1) => k a s1 | OutOfBounds => OutOfBounds | NoFuel => NoFuel end.

Definition get : M pool_t := fun s => Ret (s, s).
Definition put (s : pool_t) : M unit := fun _ => Ret (tt, s).

Definition set_words (w : Z -> Z) (s : pool_t) : pool_t :=
  mk_pool w (lo s) (hi s) (xStart_next s) (pxEnd s) (xFreeBytesRemaining s) (xMinimumEverFreeBytesRemaining s) (xBlockAllocatedBit s).
Definition set_start (a : Z) (s : pool_t) : pool_t :=
  mk_pool (words s) (lo s) (hi s) a (pxEnd s) (xFreeBytesRemaining s) (xMinimumEverFreeBytesRemaining s) (xBlockAllocatedBit s).
Definition set_free (n : Z) (s : pool_t) : pool_t :=
  mk_pool (words s) (lo s) (hi s) (xStart_next s) (pxEnd s) n (xMinimumEverFreeBytesRemaining s) (xBlockAllocatedBit s).
Definition set_min (n : Z) (s : pool_t) : pool_t :=
  mk_pool (words s) (lo s) (hi s) (xStart_next s) (pxEnd s) (xFreeBytesRemaining s) n (xBlockAllocatedBit s).

(** ** Accesses *)

Definition in_area (s : pool_t) (a : Z) : bool := (lo s <=? a) && (a + 4 <=? hi s).
Definition upd (a v : Z) (w : Z -> Z) : Z -> Z := fun x => if x =? a then v else w x.

Definition rd (a : Z) : M Z := fun s => if in_area s a then Ret (words s a, s) else OutOfBounds.
Definition wr (a v : Z) : M unit := fun s => if in_area s a then Ret (tt, set_words (upd a v (words s)) s) else OutOfBounds.

(** The members [pxNextFreeBlock] and [xBlockSize] of a link. *)
Definition next_of (p : option Z) : M Z := match p with None => s ← get; mret (xStart_next s) | Some a => rd a end.
Definition set_next (p : option Z) (v : Z) : M unit :=
  match p with None => s ← get; put (set_start v s) | Some a => wr a v end.
Definition size_of (a : Z) : M Z := rd (a + 4).
Definition set_size (a v : Z) : M unit := wr (a + 4) v.

(** ** Operations *)

(** Loops along the free list get one round for every word of the area. *)
Definition walk_fuel (s : pool_t) : nat := Z.to_nat (hi s - lo s).

Fixpoint insert_position (fuel : nat) (it : option Z) (blk : Z) : M (option Z) :=
  match fuel with
  | O => fun _ => NoFuel
  | S fuel => n ← next_of it; if n <? blk then insert_position fuel (Some n) blk else mret it
  end.

(** The block is joined to the one before it; the result is the block to be linked. *)
Definition join_left (it : option Z) (blk : Z) : M Z :=
  match it with
  | None => mret blk
  | Some i =>
      si ← size_of i;
      if u32 (i + si) =? blk then
        sb ← size_of blk;
        set_size i (u32 (si + sb));;
        mret i
      else mret blk
  end.

(** The block is joined to the one behind it, and its link is set. *)
Definition join_right (it : option Z) (b : Z) : M unit :=
  sb ← size_of b;
  n ← next_of it;
  s ← get;
  if u32 (b + sb) =? n then
    if negb (n =? pxEnd s) then
      sn ← size_of n;
      set_size b (u32 (sb + sn));;
      nn ← next_of (Some n);
      set_next (Some b) nn
    else set_next (Some b) (pxEnd s)
  else set_next (Some b) n.

Definition prvInsertBlockIntoFreeList (blk : Z) : M unit :=
  s ← get;
  it ← insert_position (walk_fuel s) None blk;
  b ← join_left it blk;
  join_right it b;;
  if bool_decide (it = Some b) then mret tt else set_next it b.

Fixpoint find_block (fuel : nat) (prev : option Z) (blk : Z) (wanted : Z) : M (option Z * Z) :=
  match fuel with
  | O => fun _ => NoFuel
  | S fuel =>
      sb ← size_of blk;
      if sb <? wanted then
        n ← next_of (Some blk);
        if negb (n =? 0) then find_block fuel (Some blk) n wanted else mret (prev, blk)
      else mret (prev, blk)
  end.

(** The request with its link, rounded up to the alignment. *)
Definition round_up (n : Z) : Z :=
  if n >? 0 then
    let n := u32 (n + xHeapStructSize) in
    if negb (Z.land n CONFIG_QM_MEM_BYTE_ALIGNMENT_MASK =? 0)
    then u32 (n + (CONFIG_QM_MEM_BYTE_ALIGNMENT - Z.land n CONFIG_QM_MEM_BYTE_ALIGNMENT_MASK)) else n
  else n.

(** The block is accounted for and marked. *)
Definition claim_block (blk : Z) : M unit :=
  sb ← size_of blk;
  s ← get;
  put (set_free (u32 (xFreeBytesRemaining s - sb)) s);;
  s ← get;
  put (if xFreeBytesRemaining s <? xMinimumEverFreeBytesRemaining s then set_min (xFreeBytesRemaining s) s else s);;
  set_size blk (Z.lor sb (xBlockAllocatedBit s));;
  set_next (Some blk) 0.

(** A block is taken out of the free list, split, and marked. *)
Definition take_block (prev : option Z) (blk wanted : Z) : M unit :=
  n ← next_of (Some blk);
  set_next prev n;;
  sb ← size_of blk;
  (if u32 (sb - wanted) >? CONFIG_QM_MEM_MINI_BLOCK_SIZE then
     let link := u32 (blk + wanted) in
     set_size link (u32 (sb - wanted));;
     set_size blk wanted;;
     prvInsertBlockIntoFreeList link
   else mret tt);;
  claim_block blk.

Definition qm_malloc (xWantedSize : Z) : M Z :=
  s ← get;
  if negb (Z.land xWantedSize (xBlockAllocatedBit s) =? 0) then mret 0
  else
    let wanted := round_up xWantedSize in
    if (wanted >? 0) && (wanted <=? xFreeBytesRemaining s) then
      '(prev, blk) ← find_block (walk_fuel s) None (xStart_next s) wanted;
      if negb (blk =? pxEnd s) then
        n ← next_of prev;
        take_block prev blk wanted;;
        mret (u32 (n + xHeapStructSize))
      else mret 0
    else mret 0.

Definition qm_free (pv : Z) : M unit :=
  if pv =? 0 then mret tt
  else
    let link := u32 (pv - xHeapStructSize) in
    s ← get;
    sz ← size_of link;
    if negb (Z.land sz (xBlockAllocatedBit s) =? 0) then
      n ← next_of (Some link);
      if n =? 0 then
        let sz' := Z.land sz (Z.lnot (xBlockAllocatedBit s)) in
        set_size link sz';;
        s ← get;
        put (set_free (u32 (xFreeBytesRemaining s + sz')) s);;
        prvInsertBlockIntoFreeList link
      else mret tt
    else mret tt.

Definition qm_free_mem_get (s : pool_t) : Z := xFreeBytesRemaining s.
Definition qm_GetMinimumEverFreeqmMemSize (s : pool_t) : Z := xMinimumEverFreeBytesRemaining s.

(** memset(p, 0, n) on whole words and on the first bytes of the last one. *)
Definition memset0 (p n : Z) : M unit := fun s =>
  if n =? 0 then Ret (tt, s)
  else if (lo s <=? p) && (p + n <=? hi s) then
    Ret (tt, set_words (fun x =>
      if (p <=? x) && (x <? p + n) then
        if x + 4 <=? p + n then 0 else words s x / 256 ^ (p + n - x) * 256 ^ (p + n - x)
      else words s x) s)
  else OutOfBounds.

Definition qm_calloc (num size : Z) : M Z :=
  if (num =? 0) || (size =? 0) then mret 0
  else
    p ← qm_malloc (u32 (num * size));
    if negb (p =? 0) then memset0 p (u32 (num * size));; mret p else mret p.

(** The aligned start of the area and the bytes left. *)
Definition aligned_area (heap heap_len : Z) : Z * Z :=
  if negb (Z.land heap CONFIG_QM_MEM_BYTE_ALIGNMENT_MASK =? 0) then
    let a := Z.land (u32 (heap + (CONFIG_QM_MEM_BYTE_ALIGNMENT - 1))) (Z.lnot CONFIG_QM_MEM_BYTE_ALIGNMENT_MASK) in
    (a, u32 (heap_len - u32 (a - heap)))
  else (heap, heap_len).

(** The area of [heap_len] bytes at the address [heap]; the variables before the call
    are those of the state. *)
Definition qm_heap_init (heap heap_len : Z) : M unit :=
  if (heap =? 0) || (heap_len =? 0) then mret tt
  else
    let '(aligned, total) := aligned_area heap heap_len in
    let e := Z.land (u32 (u32 (aligned + total) - xHeapStructSize)) (Z.lnot CONFIG_QM_MEM_BYTE_ALIGNMENT_MASK) in
    s ← get;
    put (mk_pool (words s) (lo s) (hi s) aligned e (xFreeBytesRemaining s) (xMinimumEverFreeBytesRemaining s) (xBlockAllocatedBit s));;
    set_size e 0;;
    set_next (Some e) 0;;
    set_size aligned (u32 (e - aligned));;
    set_next (Some aligned) e;;
    n ← size_of aligned;
    s ← get;
    put (mk_pool (words s) (lo s) (hi s) (xStart_next s) (pxEnd s) n n (Z.shiftl 1 (4 * 8 - 1))).
End pool.

(** ** Blocks

    A block is its size, link included, and whether it is in use. *)
Abbreviation block := (Z * bool)%type.

Definition total (bs : list block) : Z := foldr (fun b n => b.1 + n) 0 bs.
Definition free_bytes (bs : list block) : Z := total (filter (fun b => b.2 = false) bs).

(** The first free block of [bs], which starts at [a], or [n]. *)
Fixpoint ff (a : Z) (bs : list block) (n : Z) : Z :=
  match bs with
  | [] => n
  | (s, true) :: r => ff (a + s) r n
  | (s, false) :: _ => a
  end.

(** The last free block of [bs], or [it]. *)
Fixpoint lastf (it : option Z) (a : Z) (bs : list block) : option Z :=
  match bs with
  | [] => it
  | (s, true) :: r => lastf it (a + s) r
  | (s, false) :: r => lastf (Some a) (a + s) r
  end.

Definition USED : Z := 2 ^ 31.

(** A block that is being taken: it is in no list any more and not yet marked. *)
Class Hole := hole : Z.

(** The links of the blocks at [a]; the last free one points to [n]. *)
Fixpoint seg `{Hole} (w : Z -> Z) (a : Z) (bs : list block) (n : Z) : Prop :=
  match bs with
  | [] => True
  | (s, u) :: r =>
      (if u then a = hole \/ (w a = 0 /\ w (a + 4) = s + USED) else w a = ff (a + s) r n /\ w (a + 4) = s) /\ seg w (a + s) r n
  end.

Definition size_ok `{MemConfig} (b : block) : Prop := 8 <= b.1 /\ b.1 mod CONFIG_QM_MEM_BYTE_ALIGNMENT = 0.

(** The address lies in a block in use. *)
Fixpoint in_used (a : Z) (bs : list block) (x : Z) : Prop :=
  match bs with
  | [] => False
  | (s, u) :: r => (u = true /\ a <= x < a + s) \/ in_used (a + s) r x
  end.

(** No two free blocks touch. *)
Fixpoint joined (bs : list block) : Prop :=
  match bs with
  | (_, false) :: (((_, false) :: _)) => False
  | _ :: r => joined r
  | [] => True
  end.

Definition used (b : block) : Prop := b.2 = true.

Record wf `{MemConfig} (s : pool_t) (base : Z) (bs : list block) : Prop := {
  wf_seg : @seg 0 (words s) base bs (pxEnd s);
  wf_start : xStart_next s = ff base bs (pxEnd s);
  wf_end : pxEnd s = base + total bs;
  wf_mark : words s (pxEnd s) = 0 /\ words s (pxEnd s + 4) = 0;
  wf_sizes : List.Forall size_ok bs;
  wf_area : lo s <= base /\ 0 < base /\ base mod CONFIG_QM_MEM_BYTE_ALIGNMENT = 0 /\ pxEnd s + 8 <= hi s < 2 ^ 32;
  wf_total : total bs < 2 ^ 31;
  wf_joined : joined bs;
  wf_free : xFreeBytesRemaining s = free_bytes bs;
  wf_bit : xBlockAllocatedBit s = USED
}.

(** ** Lemmas on blocks *)

Lemma blocks_total_app l r : total (l ++ r) = total l + total r.
Proof. induction l as [|b l IH]; simpl; [done|]. rewrite IH. lia. Qed.

Section lists.
Context `{MemConfig} {ho : Hole}.

Lemma total_pos bs : List.Forall size_ok bs -> 8 * Z.of_nat (length bs) <= total bs.
Proof. induction 1 as [|[s u] bs [Hs _] _ IH]; simpl in *; lia. Qed.

Lemma ff_app a l r n : ff a (l ++ r) n = ff a l (ff (a + total l) r n).
Proof.
  revert a. induction l as [|[s []] l IH]; intros a; simpl; [by rewrite Z.add_0_r| |done].
  rewrite IH. by rewrite Z.add_assoc.
Qed.

Lemma seg_app w a l r n : seg w a (l ++ r) n <-> seg w a l (ff (a + total l) r n) /\ seg w (a + total l) r n.
Proof.
  revert a. induction l as [|[s u] l IH]; intros a; simpl; [rewrite Z.add_0_r; tauto|].
  rewrite IH, ff_app, Z.add_assoc. tauto.
Qed.

Lemma lastf_app it a l r : lastf it a (l ++ r) = lastf (lastf it a l) (a + total l) r.
Proof.
  revert it a. induction l as [|[s []] l IH]; intros it a; simpl; [by rewrite Z.add_0_r| |]; rewrite IH; by rewrite Z.add_assoc.
Qed.

Lemma ff_used a l n : List.Forall used l -> ff a l n = n.
Proof. intros Hu. revert a. induction Hu as [|[s u] l Hx _ IH]; intros a; [done|]. unfold used in Hx. simpl in *. subst u. apply IH. Qed.

Lemma lastf_used it a l : List.Forall used l -> lastf it a l = it.
Proof. intros Hu. revert a. induction Hu as [|[s u] l Hx _ IH]; intros a; [done|]. unfold used in Hx. simpl in *. subst u. apply IH. Qed.

Lemma seg_used w a l n n' : List.Forall used l -> seg w a l n -> seg w a l n'.
Proof.
  intros Hu. revert a. induction Hu as [|[s u] l Hx _ IH]; intros a; [done|]. unfold used in Hx. simpl in *. subst u.
  intros [? ?]. split; [done|]. by apply IH.
Qed.

Lemma ff_bounds a l n : List.Forall size_ok l -> a + total l <= n -> a <= ff a l n <= n.
Proof.
  intros Hs. revert a. induction Hs as [|[s []] l [Hs _] Hl IH]; intros a Ha; simpl in *; [lia| |].
  - assert (a + s <= ff (a + s) l n <= n) by (apply IH; lia). lia.
  - pose proof (total_pos l Hl). lia.
Qed.

(** Links lie inside their blocks. *)
Lemma seg_ext w w' a l n : List.Forall size_ok l -> (forall x, a <= x < a + total l -> w' x = w x) -> seg w a l n -> seg w' a l n.
Proof.
  intros Hs. revert a. induction Hs as [|[s u] l [Hs _] Hl IH]; intros a Hw; [done|]. pose proof (total_pos l Hl). simpl in *.
  intros [Hb Hr]. split; [|apply IH; [intros x Hx; apply Hw; lia|done]].
  destruct u; rewrite !Hw by lia; done.
Qed.

Lemma in_used_app a l r x : in_used a (l ++ r) x <-> in_used a l x \/ in_used (a + total l) r x.
Proof.
  revert a. induction l as [|[s u] l IH]; intros a; simpl; [rewrite Z.add_0_r; tauto|]. rewrite IH, Z.add_assoc. tauto.
Qed.

Lemma in_used_range a l x : List.Forall size_ok l -> in_used a l x -> a <= x < a + total l.
Proof.
  intros Hs. revert a. induction Hs as [|[s u] l [Hs _] Hl IH]; intros a; simpl; [done|]. pose proof (total_pos l Hl). simpl in Hs.
  intros [[_ Hx]|Hx]; [lia|]. apply IH in Hx. lia.
Qed.

(** A list has no free block, or a last one. *)
Lemma last_free_cases l : List.Forall used l \/ exists l1 s l2, l = l1 ++ (s, false) :: l2 /\ List.Forall used l2.
Proof.
  induction l as [|[s u] l IH]; [by left|]. destruct IH as [Hu|(l1 & s1 & l2 & -> & Hu)].
  - destruct u; [left; by constructor|right]. by exists [], s, l.
  - right. by exists ((s, u) :: l1), s1, l2.
Qed.
End lists.

(** ** Steps on well-placed links *)

#[global] Arguments set_next : simpl never.
#[global] Arguments next_of : simpl never.

Section steps.
Context {cfg : MemConfig} {ok : MemConfigOk cfg} {ho : Hole}.

Lemma pool_bind_step {A B} (m : M A) (k : A -> M B) s a s1 : m s = Ret (a, s1) -> (m ≫= k) s = k a s1.
Proof. intros Hm. unfold mbind, M_bind. by rewrite Hm. Qed.

Lemma header_eight : xHeapStructSize = 8.
Proof using ok. pose proof alignment_ok as Ha. unfold xHeapStructSize, sizeof_BlockLink_t, CONFIG_QM_MEM_BYTE_ALIGNMENT_MASK. destruct Ha as [->| ->]; done. Qed.

Lemma mini_sixteen : CONFIG_QM_MEM_MINI_BLOCK_SIZE = 16.
Proof using ok. unfold CONFIG_QM_MEM_MINI_BLOCK_SIZE. by rewrite header_eight. Qed.

Definition placed (s : pool_t) (a : Z) : Prop := lo s <= a /\ a + 8 <= hi s.

Lemma in_area_true s a : lo s <= a -> a + 4 <= hi s -> in_area s a = true.
Proof. intros. unfold in_area. rewrite (proj2 (Z.leb_le _ _)), (proj2 (Z.leb_le _ _)); done || lia. Qed.

Lemma size_step s a : placed s a -> size_of a s = Ret (words s (a + 4), s).
Proof. intros [? ?]. unfold size_of, rd. by rewrite in_area_true by lia. Qed.
Lemma next_step s a : placed s a -> next_of (Some a) s = Ret (words s a, s).
Proof. intros [? ?]. unfold next_of, rd. by rewrite in_area_true by lia. Qed.
Lemma set_size_step s a v : placed s a -> set_size a v s = Ret (tt, set_words (upd (a + 4) v (words s)) s).
Proof. intros [? ?]. unfold set_size, wr. by rewrite in_area_true by lia. Qed.
Lemma set_next_step s a v : placed s a -> set_next (Some a) v s = Ret (tt, set_words (upd a v (words s)) s).
Proof. intros [? ?]. unfold set_next, wr. by rewrite in_area_true by lia. Qed.

Lemma upd_eq a v w : upd a v w a = v.
Proof. unfold upd. by rewrite Z.eqb_refl. Qed.
Lemma upd_ne a v w x : x <> a -> upd a v w x = w x.
Proof. intros Hx. unfold upd. by rewrite (proj2 (Z.eqb_neq _ _) Hx). Qed.

(** A block with the free blocks it touches behind it. *)
Definition absorb (sb : Z) (r : list block) : list block :=
  match r with
  | (s2, false) :: r' => (sb + s2, false) :: r'
  | _ => (sb, false) :: r
  end.

Lemma join_right_spec s it b sb r :
  placed s b -> words s (b + 4) = sb -> next_of it s = Ret (ff (b + sb) r (pxEnd s), s) ->
  seg (words s) (b + sb) r (pxEnd s) -> pxEnd s = b + sb + total r -> List.Forall size_ok r -> 8 <= sb -> 0 <= b -> pxEnd s + 8 <= hi s < 2 ^ 32 ->
  exists w', join_right it b s = Ret (tt, set_words w' s) /\ seg w' b (absorb sb r) (pxEnd s) /\ (forall x, x <> b -> x <> b + 4 -> w' x = words s x).
Proof.
  intros Hp Hsb Hn Hseg He Hs H8 Hb0 Hhi. unfold join_right.
  rewrite (pool_bind_step _ _ _ _ _ (size_step s b Hp)), Hsb, (pool_bind_step _ _ _ _ _ Hn), (pool_bind_step get _ s s s eq_refl).
  pose proof (total_pos r Hs) as Ht. assert (u32 (b + sb) = b + sb) as -> by (apply u32_id; widths; lia).
  destruct r as [|[s2 []] r]; simpl in *.
  - rewrite (proj2 (Z.eqb_eq _ _)) by lia. rewrite Z.eqb_refl. simpl. rewrite set_next_step by done.
    eexists. split; [done|]. split; [|intros x H1 H2; by apply upd_ne].
    rewrite upd_eq, upd_ne by lia. by rewrite Hsb.
  - inversion Hs as [|? ? [H2 _] Hr]; subst. simpl in *. pose proof (total_pos r Hr).
    assert (b + words s (b + 4) + s2 <= ff (b + words s (b + 4) + s2) r (pxEnd s) <= pxEnd s) by (apply ff_bounds; [done|lia]).
    rewrite (proj2 (Z.eqb_neq _ _)) by lia. rewrite set_next_step by done. eexists. split; [done|].
    split; [|intros x H1' H2'; by apply upd_ne]. rewrite upd_eq, !upd_ne by lia. split; [done|]. destruct Hseg as [Hu Hg]. split; [done|].
    apply (seg_ext (words s)); [done| |done]. intros x Hx. apply upd_ne. lia.
  - inversion Hs as [|? ? [H2 _] Hr]; subst. simpl in *. pose proof (total_pos r Hr). destruct Hseg as [[Hw1 Hw2] Hg].
    rewrite Z.eqb_refl, (proj2 (Z.eqb_neq _ _)) by lia. simpl. set (sb := words s (b + 4)) in *.
    assert (placed s (b + sb)) as Hp2 by (unfold placed in *; lia).
    rewrite (pool_bind_step _ _ _ _ _ (size_step s _ Hp2)), Hw2, (pool_bind_step _ _ _ _ _ (set_size_step s b _ Hp)).
    rewrite (pool_bind_step _ _ _ _ _ (next_step (set_words _ s) (b + sb) Hp2)), set_next_step by done. simpl. eexists. split; [done|].
    rewrite (upd_ne (b + 4) _ _ (b + sb)) by lia. assert (u32 (sb + s2) = sb + s2) as -> by (apply u32_id; widths; lia).
    split; [|intros x H1' H2'; rewrite !upd_ne by lia; done].
    rewrite upd_eq, upd_ne, upd_eq by lia. rewrite Z.add_assoc. split; [done|].
    apply (seg_ext (words s)); [done| |done]. intros x Hx. rewrite !upd_ne by lia. done.
Qed.

(** The walk to the place of a block. *)
Lemma insert_position_spec s X blk l : forall fuel it a,
  next_of it s = Ret (ff a l X, s) -> seg (words s) a l X -> List.Forall size_ok l -> lo s <= a -> a + total l <= blk -> blk <= X -> blk + 8 <= hi s ->
  (length l < fuel)%nat -> insert_position fuel it blk s = Ret (lastf it a l, s).
Proof.
  induction l as [|[sz u] l IH]; intros [|fuel] it a Hn Hseg Hs Hlo Ha HX Hhi Hf; simpl in Hf; try lia.
  - simpl. rewrite (pool_bind_step _ _ _ _ _ Hn). simpl. by rewrite (proj2 (Z.ltb_ge _ _)) by lia.
  - inversion Hs as [|? ? [H8 _] Hl]; subst. simpl in *. pose proof (total_pos l Hl). destruct u.
    + apply (IH (S fuel)); try done; [by destruct Hseg|lia|lia|lia].
    + rewrite (pool_bind_step _ _ _ _ _ Hn). rewrite (proj2 (Z.ltb_lt _ _)) by lia. destruct Hseg as [[Hw _] Hg].
      apply IH; try done; [|lia..]. rewrite next_step by (unfold placed; lia). by rewrite Hw.
Qed.

(** Relinking the last free block of a list. *)
Lemma relink_spec l2 : forall s base l1 sz n n', List.Forall used l2 ->
  seg (words s) base (l1 ++ (sz, false) :: l2) n -> List.Forall size_ok (l1 ++ (sz, false) :: l2) -> lo s <= base -> base + total (l1 ++ (sz, false) :: l2) <= hi s ->
  exists w', set_next (Some (base + total l1)) n' s = Ret (tt, set_words w' s) /\
    seg w' base (l1 ++ (sz, false) :: l2) n' /\ (forall x, x <> base + total l1 -> w' x = words s x).
Proof.
  intros s base l1 sz n n' Hu Hseg Hs Hlo Hhi. apply Forall_app in Hs as [Hs1 Hs2]. inversion Hs2 as [|? ? [H8 _] Hs3]; subst. simpl in H8.
  pose proof (total_pos l1 Hs1). pose proof (total_pos l2 Hs3). rewrite blocks_total_app in Hhi. simpl in Hhi.
  exists (upd (base + total l1) n' (words s)). rewrite set_next_step by (unfold placed; lia). split; [done|]. split; [|intros x Hx; by apply upd_ne].
  apply seg_app in Hseg as [Hg1 Hg2]. apply seg_app. simpl in *. split.
  - apply (seg_ext (words s)); [done| |done]. intros x Hx. apply upd_ne. lia.
  - destruct Hg2 as [[_ Hw] Hg]. rewrite upd_eq, upd_ne by lia. split; [split; [by rewrite ff_used|done]|].
    apply (seg_ext (words s)); [done| |by apply (seg_used _ _ _ n)]. intros x Hx. apply upd_ne. lia.
Qed.
End steps.

(** ** Insertion into the free list *)

Section insertion.
Context {cfg : MemConfig} {ok : MemConfigOk cfg} {ho : Hole}.

(** A block of size [sz] between [l] and [r] becomes free. *)
Definition coalesce (l : list block) (sz : Z) (r : list block) : list block :=
  match last l with
  | Some (s0, false) => removelast l ++ absorb (s0 + sz) r
  | _ => l ++ absorb sz r
  end.

Lemma coalesce_snoc l s0 sz r : coalesce (l ++ [(s0, false)]) sz r = l ++ absorb (s0 + sz) r.
Proof. unfold coalesce. by rewrite last_snoc, removelast_last. Qed.

Lemma coalesce_used l l2 sz r : List.Forall used l2 -> l2 <> [] \/ l = [] -> coalesce (l ++ l2) sz r = (l ++ l2) ++ absorb sz r.
Proof.
  intros Hu Hne. unfold coalesce. destruct l2 as [|b l2 _] using rev_ind.
  - destruct Hne as [Hne|Hl]; [by destruct Hne|]. by subst l.
  - apply Forall_app in Hu as [_ Hb]. inversion Hb as [|? ? Hx _]; subst. destruct b as [s u]. unfold used in Hx. simpl in Hx. subst u.
    by rewrite app_assoc, last_snoc.
Qed.

Lemma total_absorb sz r : total (absorb sz r) = sz + total r.
Proof. destruct r as [|[s2 []] r]; simpl; lia. Qed.

Lemma total_coalesce l sz r : total (coalesce l sz r) = total l + sz + total r.
Proof.
  unfold coalesce. destruct l as [|[s0 []] l _] using rev_ind; [simpl; by rewrite total_absorb| |]; rewrite last_snoc; [|rewrite removelast_last];
    rewrite !blocks_total_app, total_absorb; simpl; lia.
Qed.

Lemma size_ok_add s1 s2 u1 u2 u : size_ok (s1, u1) -> size_ok (s2, u2) -> size_ok (s1 + s2, u).
Proof using ok.
  intros [H1 H2] [H3 H4]. split; simpl in *; [lia|]. rewrite Z.add_mod, H2, H4 by (destruct alignment_ok; lia). simpl. apply Z.mod_0_l. destruct alignment_ok; lia.
Qed.

Lemma absorb_sizes sz r : size_ok (sz, false) -> List.Forall size_ok r -> List.Forall size_ok (absorb sz r).
Proof using ok.
  intros Hs Hr. destruct r as [|[s2 []] r]; simpl; [by constructor|by constructor|]. inversion Hr; subst. constructor; [by eapply size_ok_add|done].
Qed.

Lemma coalesce_sizes l sz r : size_ok (sz, false) -> List.Forall size_ok l -> List.Forall size_ok r -> List.Forall size_ok (coalesce l sz r).
Proof using ok.
  intros Hs Hl Hr. unfold coalesce. destruct l as [|[s0 u] l _] using rev_ind; [by apply absorb_sizes|]. rewrite last_snoc. apply Forall_app in Hl as [Hl H0].
  inversion H0; subst. destruct u; [|rewrite removelast_last]; rewrite ?Forall_app; split_and?; try done; apply absorb_sizes; try done. by eapply size_ok_add.
Qed.

Lemma ff_absorb b sz r n : ff b (absorb sz r) n = b.
Proof. by destruct r as [|[s2 []] r]. Qed.

(** The state before a block at [blk] is linked: the free blocks on both sides are
    linked to each other over it. *)
Record open_at (s : pool_t) (base : Z) (l : list block) (sz : Z) (r : list block) : Prop := {
  oa_left : seg (words s) base l (ff (base + total l + sz) r (pxEnd s));
  oa_start : xStart_next s = ff base l (ff (base + total l + sz) r (pxEnd s));
  oa_right : seg (words s) (base + total l + sz) r (pxEnd s);
  oa_size : words s (base + total l + 4) = sz;
  oa_end : pxEnd s = base + total l + sz + total r;
  oa_sizes : List.Forall size_ok l /\ size_ok (sz, false) /\ List.Forall size_ok r;
  oa_area : lo s <= base /\ 0 <= base /\ pxEnd s + 8 <= hi s < 2 ^ 32
}.

Definition untouched (s s' : pool_t) (base : Z) (l : list block) (sz : Z) (r : list block) : Prop :=
  forall x, in_used base l x \/ in_used (base + total l + sz) r x \/ pxEnd s <= x -> words s' x = words s x.

Definition linked_as (s s' : pool_t) (base : Z) (l : list block) (sz : Z) (r bs : list block) : Prop :=
  seg (words s') base bs (pxEnd s) /\ xStart_next s' = ff base bs (pxEnd s) /\ untouched s s' base l sz r /\
  exists w a, s' = set_start a (set_words w s).

Lemma find_position s base l sz r : open_at s base l sz r ->
  insert_position (walk_fuel s) None (base + total l) s = Ret (lastf None base l, s).
Proof using ok.
  intros [Hl Hst Hr Hsz He (Hs1 & [H8 Hal] & Hs2) Ha]. simpl in H8. pose proof (total_pos l Hs1). pose proof (total_pos r Hs2).
  assert (base + total l + sz <= ff (base + total l + sz) r (pxEnd s) <= pxEnd s) by (apply ff_bounds; [done|lia]).
  eapply insert_position_spec; try done; [|lia..|]; [|unfold walk_fuel; lia].
  unfold next_of. rewrite (pool_bind_step get _ s s s eq_refl). by rewrite Hst.
Qed.

(** No free block before it. *)
Lemma insert_first s base l sz r : open_at s base l sz r -> List.Forall used l ->
  exists s', prvInsertBlockIntoFreeList (base + total l) s = Ret (tt, s') /\ linked_as s s' base l sz r (l ++ absorb sz r).
Proof using ok.
  intros Ho Hu. pose proof (find_position _ _ _ _ _ Ho) as Hpos. destruct Ho as [Hl Hst Hr Hsz He (Hs1 & [H8 Hal] & Hs2) Ha]. simpl in H8.
  pose proof (total_pos l Hs1). pose proof (total_pos r Hs2). unfold prvInsertBlockIntoFreeList.
  rewrite (pool_bind_step get _ s s s eq_refl), (pool_bind_step _ _ _ _ _ Hpos), (lastf_used _ _ _ Hu). rewrite (ff_used _ _ _ Hu) in Hst.
  unfold join_left. rewrite (pool_bind_step (mret (base + total l)) _ s _ s eq_refl).
  destruct (join_right_spec s None (base + total l) sz r) as (w' & Hj & Hg & Hfr); try done; try (unfold placed; simpl in *; lia).
  { unfold next_of. rewrite (pool_bind_step get _ s s s eq_refl). by rewrite Hst. }
  rewrite (pool_bind_step _ _ _ _ _ Hj). eexists. split; [by rewrite bool_decide_false by done; unfold set_next; rewrite (pool_bind_step get _ _ _ _ eq_refl)|].
  split_and!; simpl.
  - apply seg_app. split; [|done]. apply (seg_used _ _ _ (ff (base + total l + sz) r (pxEnd s))); [done|]. apply (seg_ext (words s)); [done| |done].
    intros x Hx. apply Hfr; lia.
  - by rewrite ff_app, (ff_used _ _ _ Hu), ff_absorb.
  - intros x [Hx%in_used_range|[Hx%in_used_range|Hx]]; try done; apply Hfr; lia.
  - by eexists _, _.
Qed.

(** A free block before it that it touches. *)
Lemma insert_joined s base l1 s0 sz r : open_at s base (l1 ++ [(s0, false)]) sz r ->
  exists s', prvInsertBlockIntoFreeList (base + total (l1 ++ [(s0, false)])) s = Ret (tt, s') /\ linked_as s s' base (l1 ++ [(s0, false)]) sz r (l1 ++ absorb (s0 + sz) r).
Proof using ok.
  intros Ho. pose proof (find_position _ _ _ _ _ Ho) as Hpos. destruct Ho as [Hl Hst Hr Hsz He (Hs1 & [H8 Hal] & Hs2) Ha]. simpl in H8.
  rewrite blocks_total_app, ?lastf_app in *. simpl in *. rewrite Z.add_0_r in *. apply Forall_app in Hs1 as [Hs1 Hs0].
  inversion Hs0 as [|? ? [H0 _] _]; subst. simpl in H0. pose proof (total_pos l1 Hs1). pose proof (total_pos r Hs2).
  apply seg_app in Hl as [Hl [[Hw1 Hw2] _]]. simpl in Hl, Hw1, Hw2. rewrite ff_app in Hst. simpl in Hst. rewrite ?Z.add_assoc in *. set (i := base + total l1) in *.
  set (blk := i + s0) in *. set (sz := words s (blk + 4)) in *.
  assert (placed s i) as Hpi by (unfold placed; lia). assert (placed s blk) as Hpb by (unfold placed; lia).
  unfold prvInsertBlockIntoFreeList. rewrite (pool_bind_step get _ s s s eq_refl), (pool_bind_step _ _ _ _ _ Hpos).
  assert (Hjl : join_left (Some i) blk s = Ret (i, set_words (upd (i + 4) (s0 + sz) (words s)) s)).
  { unfold join_left. rewrite (pool_bind_step _ _ _ _ _ (size_step s i Hpi)), Hw2. assert (u32 (i + s0) = blk) as -> by (apply u32_id; widths; lia).
    rewrite Z.eqb_refl, (pool_bind_step _ _ _ _ _ (size_step s blk Hpb)), (pool_bind_step _ _ _ _ _ (set_size_step s i _ Hpi)). fold sz.
    assert (u32 (s0 + sz) = s0 + sz) as -> by (apply u32_id; widths; lia). done. }
  rewrite (pool_bind_step _ _ _ _ _ Hjl). set (s1 := set_words _ s).
  destruct (join_right_spec s1 (Some i) i (s0 + sz) r) as (w' & Hj & Hg & Hfr); try done; simpl; try lia.
  - apply upd_eq.
  - rewrite next_step by done. simpl. rewrite upd_ne by lia. by rewrite Hw1, Z.add_assoc.
  - rewrite Z.add_assoc. apply (seg_ext (words s)); [done| |done]. intros x Hx. apply upd_ne. lia.
  - rewrite (pool_bind_step _ _ _ _ _ Hj). rewrite bool_decide_true by done. eexists. split; [done|]. split_and!; simpl in *.
    + apply seg_app. fold i. rewrite ff_absorb. split; [|done]. apply (seg_ext (words s)); [done| |done].
      intros x Hx. rewrite Hfr by lia. apply upd_ne. lia.
    + rewrite ff_app. fold i. by rewrite ff_absorb.
    + unfold untouched. rewrite blocks_total_app. intros x Hx. assert (x < i \/ i + 8 <= x).
      { destruct Hx as [Hx|[Hx|Hx]]; [|apply in_used_range in Hx; [simpl in Hx; lia|done]|lia].
        apply in_used_app in Hx as [Hx|[[? _]|[]]]; [apply in_used_range in Hx; [lia|done]|done]. }
      simpl. rewrite Hfr by lia. apply upd_ne. lia.
    + exists w', (xStart_next s). by destruct s.
Qed.

(** A free block before it, with blocks in use between. *)
Lemma insert_behind s base l1 s0 l2 sz r : let l := l1 ++ (s0, false) :: l2 in open_at s base l sz r -> List.Forall used l2 -> l2 <> [] ->
  exists s', prvInsertBlockIntoFreeList (base + total l) s = Ret (tt, s') /\ linked_as s s' base l sz r (l ++ absorb sz r).
Proof using ok.
  intros l Ho Hu Hne. pose proof (find_position _ _ _ _ _ Ho) as Hpos. destruct Ho as [Hl Hst Hr Hsz He (Hs1 & [H8 Hal] & Hs2) Ha]. simpl in H8.
  assert (Hlast : lastf None base l = Some (base + total l1)) by (unfold l; rewrite lastf_app; simpl; by apply lastf_used).
  assert (Hst' : xStart_next s = ff base l (base + total l)) by (rewrite Hst; unfold l; rewrite !ff_app; done).
  set (blk := base + total l) in *. set (i := base + total l1) in *.
  assert (Hi : base <= i /\ i + s0 + 8 <= blk /\ 8 <= s0 /\ blk + 8 <= pxEnd s).
  { unfold l in Hs1. apply Forall_app in Hs1 as [Hq1 Hq2]. inversion Hq2 as [|? ? [H0 _] Hq3]; subst. simpl in H0. pose proof (total_pos l1 Hq1). pose proof (total_pos r Hs2).
    inversion Hq3 as [|b l3 [Hb _] Hq4]; subst; [done|]. pose proof (total_pos l3 Hq4). unfold blk, l, i in *. rewrite blocks_total_app in *. simpl in *. lia. }
  assert (Hw : words s i = ff (blk + sz) r (pxEnd s) /\ words s (i + 4) = s0).
  { unfold l in Hl. apply seg_app in Hl as [_ [[Hw1 Hw2] _]]. fold i in Hw1, Hw2. by rewrite ff_used in Hw1. }
  destruct Hw as [Hw1 Hw2].
  assert (placed s i) as Hpi by (unfold placed; lia). unfold prvInsertBlockIntoFreeList.
  rewrite (pool_bind_step get _ s s s eq_refl), (pool_bind_step _ _ _ _ _ Hpos), Hlast.
  assert (Hjl : join_left (Some i) blk s = Ret (blk, s)).
  { unfold join_left. rewrite (pool_bind_step _ _ _ _ _ (size_step s i Hpi)), Hw2, u32_id by (widths; lia). by rewrite (proj2 (Z.eqb_neq _ _)) by lia. }
  rewrite (pool_bind_step _ _ _ _ _ Hjl).
  destruct (join_right_spec s (Some i) blk sz r) as (w' & Hj & Hg & Hfr); try done; try (unfold placed; lia).
  { rewrite next_step by done. by rewrite Hw1. }
  rewrite (pool_bind_step _ _ _ _ _ Hj), bool_decide_false by (intros [=]; lia).
  destruct (relink_spec l2 (set_words w' s) base l1 s0 (ff (blk + sz) r (pxEnd s)) blk) as (w2 & Hw & Hg2 & Hfr2); try done; simpl; try lia.
  { apply (seg_ext (words s)); [done| |done]. fold l. fold blk. intros x Hx. apply Hfr; lia. }
  { fold l. fold blk. lia. }
  fold i in Hw. rewrite Hw. eexists. split; [done|]. simpl in Hfr2. fold i in Hfr2. split_and!; simpl.
  - apply seg_app. fold blk. rewrite ff_absorb. split; [done|]. apply (seg_ext w'); [by apply absorb_sizes| |done].
    rewrite total_absorb. intros x Hx. apply Hfr2. lia.
  - rewrite ff_app. fold blk. by rewrite ff_absorb.
  - intros x Hx. fold blk in Hx. assert (x < i \/ i + s0 <= x < blk \/ blk + sz <= x).
    { destruct Hx as [Hx|[Hx|Hx]]; [|apply in_used_range in Hx; [lia|done]|pose proof (total_pos r Hs2); lia]. pose proof (in_used_range _ _ _ Hs1 Hx) as Hx'. fold blk in Hx'. unfold l in Hs1, Hx.
      apply Forall_app in Hs1 as [Hq1 Hq2]. apply in_used_app in Hx as [Hx|[[? _]|Hx]]; [apply in_used_range in Hx; [lia|done]|done|].
      inversion Hq2; subst. apply in_used_range in Hx; [|done]. fold i in Hx. lia. }
    simpl. rewrite Hfr2 by lia. apply Hfr; lia.
  - eexists w2, _. by destruct s.
Qed.

(** Linking a block coalesces it with its free neighbours. *)
Lemma insert_spec s base l sz r : open_at s base l sz r ->
  exists s', prvInsertBlockIntoFreeList (base + total l) s = Ret (tt, s') /\ linked_as s s' base l sz r (coalesce l sz r).
Proof using ok.
  intros Ho. destruct (last_free_cases l) as [Hu|(l1 & s0 & l2 & -> & Hu)].
  - rewrite <- (app_nil_l l), coalesce_used by (done || by right). by apply insert_first.
  - destruct (decide (l2 = [])) as [->|Hne].
    + rewrite coalesce_snoc. by apply insert_joined.
    + assert (coalesce (l1 ++ (s0, false) :: l2) sz r = (l1 ++ (s0, false) :: l2) ++ absorb sz r) as ->; [|by apply insert_behind].
      change (l1 ++ (s0, false) :: l2) with (l1 ++ [(s0, false)] ++ l2). rewrite app_assoc. apply coalesce_used; [done|by left].
Qed.
End insertion.

(** ** Allocation *)

Section allocation.
Context {cfg : MemConfig} {ok : MemConfigOk cfg}.

(** The first free block of at least [w] bytes, with the blocks on both sides. *)
Fixpoint first_fit (w : Z) (bs : list block) : option (list block * Z * list block) :=
  match bs with
  | [] => None
  | (s, u) :: r =>
      if negb u && (w <=? s) then Some ([], s, r)
      else '(l, s1, r1) ← first_fit w r; Some ((s, u) :: l, s1, r1)
  end.

Definition too_small (w : Z) (b : block) : Prop := b.2 = true \/ b.1 < w.

Lemma first_fit_spec w bs :
  match first_fit w bs with
  | Some (l, s, r) => bs = l ++ (s, false) :: r /\ w <= s /\ List.Forall (too_small w) l
  | None => List.Forall (too_small w) bs
  end.
Proof.
  induction bs as [|[s u] bs IH]; simpl; [constructor|]. destruct u; simpl; [|destruct (Z.leb_spec w s)]; try done.
  - destruct (first_fit w bs) as [[[l s1] r1]|]; simpl; [|by constructor; [left|]]. destruct IH as (-> & ? & ?). split_and!; try done. by constructor; [left|].
  - destruct (first_fit w bs) as [[[l s1] r1]|]; simpl; [|by constructor; [right|]]. destruct IH as (-> & ? & ?). split_and!; try done. by constructor; [right|].
Qed.

Lemma find_block_spec `{Hole} s X wanted l : forall fuel prev a,
  seg (words s) a l X -> List.Forall size_ok l -> List.Forall (too_small wanted) l -> (wanted <= words s (X + 4) \/ words s X = 0) ->
  placed s X -> lo s <= a -> 0 < a -> a + total l <= X -> (length l < fuel)%nat ->
  find_block fuel prev (ff a l X) wanted s = Ret (lastf prev a l, X, s).
Proof.
  induction l as [|[sz u] l IH]; intros [|fuel] prev a Hseg Hs Ht Hstop Hp Hlo Ha HX Hf; simpl in Hf; try lia.
  - simpl. rewrite (pool_bind_step _ _ _ _ _ (size_step s X Hp)). destruct (Z.ltb_spec (words s (X + 4)) wanted) as [Hlt|]; [|done].
    rewrite (pool_bind_step _ _ _ _ _ (next_step s X Hp)). destruct Hstop as [?|Hx]; [lia|]. by rewrite Hx.
  - inversion Hs as [|? ? [H8 _] Hl]; inversion Ht as [|? ? Hb Htl]; subst. simpl in *. pose proof (total_pos l Hl). destruct Hseg as [Hw Hg]. destruct u.
    + apply (IH (S fuel)); try done; lia.
    + destruct Hb as [?|Hb]; [done|]. destruct Hw as [Hw1 Hw2]. simpl in Hb. assert (placed s a) as Hpa by (unfold placed in *; lia).
      rewrite (pool_bind_step _ _ _ _ _ (size_step s a Hpa)), Hw2, (proj2 (Z.ltb_lt _ _)) by lia. rewrite (pool_bind_step _ _ _ _ _ (next_step s a Hpa)), Hw1.
      assert (a + sz <= ff (a + sz) l X <= X) by (apply ff_bounds; [done|lia]). rewrite (proj2 (Z.eqb_neq _ _)) by lia. simpl.
      apply IH; try done; lia.
Qed.

(** Outside of the segment the hole does not matter. *)
Lemma seg_hole h1 h2 w a l n : List.Forall size_ok l -> h1 < a \/ a + total l <= h1 -> @seg h1 w a l n -> @seg h2 w a l n.
Proof.
  intros Hs. revert a. induction Hs as [|[s u] l [Hs _] Hl IH]; intros a Ha; [done|]. pose proof (total_pos l Hl). simpl in *.
  intros [Hb Hr]. split; [|apply IH; [lia|done]]. destruct u; [|done]. destruct Hb as [Hb|Hb]; [|by right].
  unfold hole in Hb. exfalso. lia.
Qed.

Lemma seg_close h w a l s r n : List.Forall size_ok l -> List.Forall size_ok r -> 8 <= s -> h = a + total l -> 0 < a ->
  w h = 0 -> w (h + 4) = s + USED -> @seg h w a (l ++ (s, true) :: r) n -> @seg 0 w a (l ++ (s, true) :: r) n.
Proof.
  intros Hl Hr Hs -> Ha H1 H2 [Hg1 [_ Hg2]]%seg_app. pose proof (total_pos l Hl). apply seg_app. split; [|split].
  - apply (seg_hole (a + total l) 0); [done|lia|done].
  - by right.
  - apply (seg_hole (a + total l) 0); [done|lia|done].
Qed.

(** The block is taken out of the list: its neighbours are linked over it. *)
Lemma pool_unlink_spec s base l sz r : wf s base (l ++ (sz, false) :: r) ->
  exists s', set_next (lastf None base l) (ff (base + total l + sz) r (pxEnd s)) s = Ret (tt, s') /\
    (exists w a, s' = set_start a (set_words w s)) /\
    @open_at _ (base + total l) s' base l sz r /\ (forall x, in_used base (l ++ (sz, false) :: r) x \/ base + total l <= x -> words s' x = words s x).
Proof using ok.
  intros [Hseg Hst He Hm Hsz Ha Ht _ _ _]. set (n := ff (base + total l + sz) r (pxEnd s)). apply seg_app in Hseg as [Hg1 [[Hw1 Hw2] Hg2]].
  apply Forall_app in Hsz as [Hl [[H8 Hal] Hr']%list.Forall_cons]. rewrite blocks_total_app in He, Ht. simpl in He, Ht, H8. pose proof (total_pos l Hl). pose proof (total_pos r Hr').
  rewrite ff_app in Hst. simpl in Hst, Hg1. set (h := base + total l) in *.
  assert (Hopen : forall w a, @seg 0 w base l n -> a = ff base l n -> (forall x, h <= x -> w x = words s x) ->
    @open_at _ h (set_start a (set_words w s)) base l sz r).
  { intros w a Hg Hx Hfr. split; simpl; try fold h; try lia; try done.
    - apply (seg_hole 0); [done|lia|done].
    - apply (seg_ext (words s)); [done|intros x Hx'; apply Hfr; lia|]. apply (seg_hole 0); [done|lia|done].
    - rewrite Hfr by lia. done. }
  destruct (last_free_cases l) as [Hu|(l1 & s0 & l2 & -> & Hu)].
  - rewrite lastf_used by done. eexists. split; [done|]. split; [by exists (words s), n; destruct s|]. split; [|done].
    specialize (Hopen (words s) n). apply Hopen; [by apply (seg_used _ _ _ h)|by rewrite ff_used|done].
  - rewrite lastf_app. simpl. rewrite (lastf_used _ _ l2) by done.
    destruct (@relink_spec _ 0 l2 s base l1 s0 h n) as (w' & Hw & Hg & Hfr); try done; [lia|fold h; lia|]. rewrite Hw.
    eexists. split; [done|]. split; [by exists w', (xStart_next s); destruct s|]. apply Forall_app in Hl as [Hl1 Hl2]. apply list.Forall_cons in Hl2 as [[Hs0 _] Hl3]. simpl in Hs0.
    pose proof (total_pos l1 Hl1). pose proof (total_pos l2 Hl3). unfold h in *. rewrite blocks_total_app in *. simpl in *. split.
    + specialize (Hopen w' (xStart_next s)). destruct s. apply Hopen; [done|simpl in *; rewrite Hst, !ff_app; done|]. intros x Hx. apply Hfr. lia.
    + intros x Hx. apply Hfr. intros ->. destruct Hx as [Hx|Hx]; [|lia]. rewrite <- app_assoc in Hx. simpl in Hx.
      apply in_used_app in Hx as [Hx|[[? _]|Hx]]; [apply in_used_range in Hx; [lia|done]|done|]. apply in_used_range in Hx; [lia|].
      apply Forall_app. split; [done|by constructor].
Qed.

Lemma free_bytes_app l r : free_bytes (l ++ r) = free_bytes l + free_bytes r.
Proof. unfold free_bytes. by rewrite filter_app, blocks_total_app. Qed.
Lemma free_bytes_used s r : free_bytes ((s, true) :: r) = free_bytes r.
Proof. done. Qed.
Lemma free_bytes_free s r : free_bytes ((s, false) :: r) = s + free_bytes r.
Proof. done. Qed.
Lemma free_bytes_le bs : List.Forall size_ok bs -> 0 <= free_bytes bs <= total bs.
Proof.
  induction 1 as [|[s []] bs [Hs _] _ IH]; [done| |]; rewrite ?free_bytes_used, ?free_bytes_free; simpl in *; lia.
Qed.

Lemma lor_used x : 0 <= x < USED -> Z.lor x USED = x + USED.
Proof.
  intros Hx. rewrite Z.lor_comm. change USED with (Z.shiftl 1 31) at 1. unfold USED in Hx.
  rewrite lor_add by lia. unfold USED. lia.
Qed.

(** The last steps of an allocation. *)
Lemma claim_spec s base l w r blk : blk = base + total l -> let bs := l ++ (w, true) :: r in
  @seg blk (words s) base bs (pxEnd s) -> xStart_next s = ff base bs (pxEnd s) -> words s (blk + 4) = w ->
  pxEnd s = base + total bs -> words s (pxEnd s) = 0 /\ words s (pxEnd s + 4) = 0 -> List.Forall size_ok bs ->
  lo s <= base /\ 0 < base /\ base mod CONFIG_QM_MEM_BYTE_ALIGNMENT = 0 /\ pxEnd s + 8 <= hi s < 2 ^ 32 -> total bs < 2 ^ 31 -> joined bs ->
  xFreeBytesRemaining s = free_bytes bs + w -> xBlockAllocatedBit s = USED ->
  exists s', claim_block blk s = Ret (tt, s') /\ wf s' base bs /\ lo s' = lo s /\ hi s' = hi s /\ (forall x, x <> blk -> x <> blk + 4 -> words s' x = words s x).
Proof.
  intros Hblk bs Hseg Hst Hw He Hm Hsz Ha Ht Hj Hf Hbit. pose proof (free_bytes_le bs Hsz) as Hfb.
  assert (Hb : 8 <= w /\ 0 <= total l /\ 0 <= total r /\ total bs = total l + w + total r).
  { unfold bs in *. apply Forall_app in Hsz as [Hl [[H8 _] Hr]%list.Forall_cons]. rewrite blocks_total_app. simpl in *. pose proof (total_pos l Hl). pose proof (total_pos r Hr). lia. }
  assert (placed s blk) as Hp by (unfold placed; lia). unfold claim_block.
  rewrite (pool_bind_step _ _ _ _ _ (size_step s blk Hp)), Hw, !(pool_bind_step get _ _ _ _ eq_refl), (pool_bind_step (put _) _ _ _ _ eq_refl), !(pool_bind_step get _ _ _ _ eq_refl), (pool_bind_step (put _) _ _ _ _ eq_refl).
  set (s1 := if _ <? _ then _ else _). assert (Hs1 : exists m, s1 = set_min m (set_free (free_bytes bs) s)).
  { unfold s1. rewrite Hf, u32_id by (widths; lia). replace (free_bytes bs + w - w) with (free_bytes bs) by lia.
    case_match; [by exists (free_bytes bs)|]. exists (xMinimumEverFreeBytesRemaining s). by destruct s. }
  destruct Hs1 as [m ->]. rewrite (pool_bind_step _ _ _ _ _ (set_size_step (set_min m (set_free (free_bytes bs) s)) blk _ Hp)), set_next_step by done. simpl.
  rewrite Hbit, lor_used by (unfold USED; lia). eexists. split; [done|].
  set (w' := upd blk 0 _). assert (Hfr : forall x, x <> blk -> x <> blk + 4 -> w' x = words s x) by (intros x H1 H2; unfold w'; by rewrite !upd_ne).
  assert (Hh : w' blk = 0 /\ w' (blk + 4) = w + USED) by (unfold w'; rewrite upd_eq, upd_ne, upd_eq by lia; done). clearbody w'.
  split; [|done]. split; try done; simpl; [|rewrite !Hfr by lia; done]. apply Forall_app in Hsz as [Hl [[H8 _] Hr]%list.Forall_cons].
  apply (seg_close blk w'); try done; try lia. apply seg_app in Hseg as [Hg1 [_ Hg2]]. apply seg_app. rewrite <- Hblk in *. split; [|split; [by left|]].
  - apply (seg_ext (words s)); [done| |done]. intros x Hx. apply Hfr; lia.
  - apply (seg_ext (words s)); [done| |done]. intros x Hx. apply Hfr; lia.
Qed.

Definition starts_free (r : list block) : bool := match r with (_, false) :: _ => true | _ => false end.
Definition ends_free (l : list block) : bool := match last l with Some (_, false) => true | _ => false end.

Lemma joined_cons s u r : joined ((s, u) :: r) <-> joined r /\ (u = false -> starts_free r = false).
Proof. destruct u, r as [|[s2 []] r]; simpl; try tauto; split; try tauto; intros [? Hx]; by specialize (Hx eq_refl). Qed.

Lemma ends_free_cons b l : l <> [] -> ends_free (b :: l) = ends_free l.
Proof. intros Hl. unfold ends_free. by destruct l. Qed.

Lemma joined_app l r : joined (l ++ r) <-> joined l /\ joined r /\ (ends_free l = true -> starts_free r = false).
Proof.
  induction l as [|[s u] l IH]; [simpl; split; [|tauto]; intros Hj; split_and!; try done|].
  simpl app. rewrite !joined_cons, IH. destruct l as [|b l]; simpl.
  - unfold ends_free. simpl. destruct u; simpl; intuition done.
  - rewrite (ends_free_cons (s, u) (b :: l)) by done. destruct b as [? []]; tauto.
Qed.

Lemma joined_free l s r : joined (l ++ (s, false) :: r) <-> joined l /\ joined r /\ starts_free r = false /\ ends_free l = false.
Proof. rewrite joined_app, joined_cons. simpl. destruct (ends_free l); intuition done. Qed.

Lemma joined_used l s r : joined (l ++ (s, true) :: r) <-> joined l /\ joined r.
Proof. rewrite joined_app, joined_cons. simpl. intuition done. Qed.

Lemma absorb_plain sz r : starts_free r = false -> absorb sz r = (sz, false) :: r.
Proof. by destruct r as [|[s []] r]. Qed.

(** The block [sz] between [l] and [r] is used for a request of [w] bytes. *)
Definition carve (l : list block) (sz w : Z) (r : list block) : list block :=
  if sz - w >? 16 then l ++ (w, true) :: (sz - w, false) :: r else l ++ (sz, true) :: r.

(** Nothing in use changes. *)
Definition preserves (s s' : pool_t) (base : Z) (bs : list block) : Prop :=
  lo s' = lo s /\ hi s' = hi s /\ (forall x, in_used base bs x -> words s' x = words s x).

(** A block in use with the parts around it. *)
Lemma in_used_around base l sz r x : List.Forall size_ok (l ++ (sz, false) :: r) -> in_used base (l ++ (sz, false) :: r) x ->
  (in_used base l x /\ x < base + total l) \/ (in_used (base + total l + sz) r x /\ base + total l + sz <= x).
Proof.
  intros [Hl [_ Hr]%list.Forall_cons]%Forall_app [Hx|[[? _]|Hx]]%in_used_app; [|done|].
  - left. split; [done|]. apply in_used_range in Hx; [lia|done].
  - right. split; [done|]. apply in_used_range in Hx; [lia|done].
Qed.

Lemma take_whole s base l sz r w : wf s base (l ++ (sz, false) :: r) -> 0 <= w <= sz -> sz - w <= 16 ->
  exists s', take_block (lastf None base l) (base + total l) w s = Ret (tt, s') /\ wf s' base (l ++ (sz, true) :: r) /\ preserves s s' base (l ++ (sz, false) :: r).
Proof using ok.
  intros Hw Hsz Hsm. destruct (pool_unlink_spec s base l sz r Hw) as (s1 & Hr1 & (w1 & a1 & Hs1) & Ho & Hfr1). destruct Hw as [Hseg Hst He Hm Hs Ha Ht Hj Hf Hbit].
  pose proof (in_used_around base l sz r) as Hin. pose proof Hs as [Hl [[H8 Hal] Hr]%list.Forall_cons]%Forall_app. simpl in H8, Hal. apply joined_free in Hj as (Hj1 & Hj2 & _).
  rewrite free_bytes_app, free_bytes_free in Hf. rewrite blocks_total_app in He, Ht. simpl in He, Ht. pose proof (total_pos l Hl). pose proof (total_pos r Hr).
  set (blk := base + total l) in *. assert (placed s blk) as Hp by (unfold placed; lia). apply seg_app in Hseg as [_ [[Hw1 Hw2] _]]. fold blk in Hw1, Hw2.
  unfold take_block. rewrite (pool_bind_step _ _ _ _ _ (next_step s blk Hp)), Hw1, (pool_bind_step _ _ _ _ _ Hr1).
  assert (placed s1 blk) as Hp1 by (subst s1; done). rewrite (pool_bind_step _ _ _ _ _ (size_step s1 blk Hp1)), Hfr1, Hw2 by lia.
  rewrite mini_sixteen, u32_id by (widths; lia). destruct (Z.gtb_spec (sz - w) 16); [lia|]. rewrite (pool_bind_step (mret tt) _ s1 _ s1 eq_refl).
  destruct Ho as [O1 O2 O3 O4 O5 _ _]. fold blk in O1, O2, O3, O4, O5.
  destruct (claim_spec s1 base l sz r blk eq_refl) as (s' & Hc & Hw' & Hlo & Hhi & Hfr); try (subst s1; simpl in *; done).
  - apply seg_app. fold blk. split; [done|]. split; [by left|done].
  - by rewrite ff_app.
  - rewrite O5, blocks_total_app. simpl. lia.
  - assert (pxEnd s1 = pxEnd s) as -> by (by subst s1). rewrite !Hfr1 by lia. done.
  - apply Forall_app. split; [done|]. by constructor.
  - rewrite blocks_total_app. simpl. lia.
  - by apply joined_used.
  - rewrite free_bytes_app, free_bytes_used. subst s1. simpl. lia.
  - exists s'. split; [done|]. split; [done|]. split; [by subst s1|]. split; [by subst s1|]. intros x Hx.
    rewrite Hfr; [apply Hfr1; by left|..]; apply Hin in Hx; [|done| |done]; fold blk in Hx; lia.
Qed.

(** After the split the rest of the block waits to be linked. *)
Lemma split_open s base l sz w r : let blk := base + total l in @open_at _ blk s base l sz r -> size_ok (w, true) -> 16 < sz - w ->
  let s2 := set_words (upd (blk + 4) w (upd (blk + w + 4) (sz - w) (words s))) s in
  set_size (blk + w) (sz - w) s = Ret (tt, set_words (upd (blk + w + 4) (sz - w) (words s)) s) /\
  set_size blk w (set_words (upd (blk + w + 4) (sz - w) (words s)) s) = Ret (tt, s2) /\
  @open_at _ blk s2 base (l ++ [(w, true)]) (sz - w) r.
Proof using ok.
  intros blk [O1 O2 O3 O4 O5 (Hl & [H8 Hal] & Hr) Ha] [Hw8 Hwal] Hbig s2. simpl in *. fold blk in O1, O2, O3, O4, O5. pose proof (total_pos l Hl). pose proof (total_pos r Hr).
  assert (placed s blk /\ placed s (blk + w)) as [Hp1 Hp2] by (unfold placed, blk in *; lia).
  split; [by apply set_size_step|]. split; [by apply (set_size_step (set_words _ s))|].
  assert (Hq : base + total (l ++ [(w, true)]) = blk + w) by (rewrite blocks_total_app; unfold blk; simpl; lia).
  assert (Hfr : forall x, x <> blk + 4 -> x <> blk + w + 4 -> words s2 x = words s x) by (intros x H1 H2; unfold s2; simpl; rewrite !upd_ne by done; done).
  split; rewrite ?Hq; replace (blk + w + (sz - w)) with (blk + sz) by lia; simpl pxEnd.
  - apply seg_app. fold blk. split; [|split; [by left|done]]. simpl. apply (seg_ext (words s)); [done| |done]. intros x Hx. apply Hfr; unfold blk in *; lia.
  - simpl. rewrite ff_app. simpl. done.
  - apply (seg_ext (words s)); [done| |done]. intros x Hx. apply Hfr; lia.
  - unfold s2. simpl. rewrite upd_ne, upd_eq by lia. done.
  - done.
  - split_and!; [apply Forall_app; split; [done|by constructor]| |done]. split; simpl; [lia|].
    rewrite Zminus_mod, Hal, Hwal. done.
  - done.
Qed.

Lemma coalesce_used_snoc l w sz r : coalesce (l ++ [(w, true)]) sz r = l ++ (w, true) :: absorb sz r.
Proof. rewrite (coalesce_used l [(w, true)]); [by rewrite <- app_assoc|by constructor|by left]. Qed.

(** Relinking changes no other variable. *)
Definition keeps (s s' : pool_t) : Prop :=
  lo s' = lo s /\ hi s' = hi s /\ pxEnd s' = pxEnd s /\ xFreeBytesRemaining s' = xFreeBytesRemaining s /\ xBlockAllocatedBit s' = xBlockAllocatedBit s.

Lemma relinked_keeps s s' : (exists w a, s' = set_start a (set_words w s)) -> keeps s s'.
Proof. by intros (w & a & ->). Qed.

Lemma take_split s base l sz r w : wf s base (l ++ (sz, false) :: r) -> size_ok (w, true) -> 16 < sz - w ->
  exists s', take_block (lastf None base l) (base + total l) w s = Ret (tt, s') /\
    wf s' base (l ++ (w, true) :: (sz - w, false) :: r) /\ preserves s s' base (l ++ (sz, false) :: r).
Proof using ok.
  intros Hw Hwo Hbig. destruct (pool_unlink_spec s base l sz r Hw) as (s1 & Hr1 & Hk1%relinked_keeps & Ho & Hfr1). destruct Hw as [Hseg Hst He Hm Hs Ha Ht Hj Hf Hbit].
  pose proof (in_used_around base l sz r) as Hin. pose proof Hs as [Hl [[H8 Hal] Hr]%list.Forall_cons]%Forall_app. simpl in H8, Hal. apply joined_free in Hj as (Hj1 & Hj2 & Hj3 & _).
  rewrite free_bytes_app, free_bytes_free in Hf. rewrite blocks_total_app in He, Ht. simpl in He, Ht. pose proof (total_pos l Hl). pose proof (total_pos r Hr). destruct (Hwo) as [Hw8 _]. simpl in Hw8.
  destruct (split_open s1 base l sz w r Ho Hwo Hbig) as (Hz1 & Hz2 & Ho2). set (s2 := set_words (upd _ w _) s1) in *.
  destruct (insert_spec s2 base (l ++ [(w, true)]) (sz - w) r Ho2) as (s3 & Hr3 & Hg3 & Hx3 & Hfr3 & Hk3%relinked_keeps).
  assert (Hw2' : words s2 (base + total l + 4) = w) by (unfold s2; simpl; apply upd_eq).
  assert (Hfr2 : forall x, x <> base + total l + 4 -> x <> base + total l + w + 4 -> words s2 x = words s1 x) by (intros x H1 H2; unfold s2; simpl; by rewrite !upd_ne).
  assert (Hk2 : keeps s1 s2) by done. clearbody s2. unfold untouched in Hfr3. rewrite blocks_total_app in Hfr3, Hr3. simpl in Hfr3, Hr3.
  unfold keeps in *. destruct Hk1 as (K1 & K2 & K3 & K4 & K5), Hk2 as (L1 & L2 & L3 & L4 & L5), Hk3 as (N1 & N2 & N3 & N4 & N5). rewrite L1, K1 in N1. rewrite L2, K2 in N2. rewrite L3, K3 in *. rewrite L4, K4 in N4. rewrite L5, K5 in N5.
  set (blk := base + total l) in *. replace (base + (total l + (w + 0))) with (blk + w) in * by (unfold blk; lia). replace (blk + w + (sz - w)) with (blk + sz) in Hfr3 by lia.
  assert (placed s blk) as Hp by (unfold placed; lia). apply seg_app in Hseg as [_ [[Hw1 Hw2] _]]. fold blk in Hw1, Hw2.
  rewrite coalesce_used_snoc, (absorb_plain _ _ Hj3) in Hg3, Hx3. pose proof (oa_sizes _ _ _ _ _ Ho2) as (_ & Hso & _).
  unfold take_block. rewrite (pool_bind_step _ _ _ _ _ (next_step s blk Hp)), Hw1, (pool_bind_step _ _ _ _ _ Hr1).
  assert (placed s1 blk) as Hp1 by (unfold placed; rewrite K1, K2; done). rewrite (pool_bind_step _ _ _ _ _ (size_step s1 blk Hp1)), Hfr1, Hw2 by lia.
  rewrite mini_sixteen, !u32_id by (widths; lia). destruct (Z.gtb_spec (sz - w) 16); [|lia].
  unfold mbind at 1, M_bind at 1. rewrite (pool_bind_step _ _ _ _ _ Hz1), (pool_bind_step _ _ _ _ _ Hz2), Hr3.
  assert (Hun : forall x, (in_used base (l ++ (sz, false) :: r) x \/ pxEnd s <= x) -> words s3 x = words s x).
  { intros x Hx. assert (Hx' : (in_used base l x /\ x < blk) \/ (in_used (blk + sz) r x /\ blk + sz <= x) \/ pxEnd s <= x).
    { destruct Hx as [Hx|Hx]; [|tauto]. apply Hin in Hx; [|done]. fold blk in Hx. tauto. }
    rewrite Hfr3, Hfr2, Hfr1; [done|destruct Hx; [by left|right; lia]|lia..|]. rewrite in_used_app. tauto. }
  destruct (claim_spec s3 base l w ((sz - w, false) :: r) blk eq_refl) as (s' & Hc & Hw' & Hlo & Hhi & Hfr); rewrite ?N1, ?N2, ?N3, ?N4, ?N5; try done.
  - rewrite Hfr3; [done|]. left. apply in_used_app. right. left. split; [done|]. fold blk. lia.
  - rewrite blocks_total_app. simpl. lia.
  - rewrite !Hun by (right; lia). done.
  - apply Forall_app. split; [done|]. constructor; [done|]. by constructor.
  - rewrite blocks_total_app. simpl. lia.
  - apply joined_used. by rewrite joined_cons.
  - rewrite free_bytes_app, free_bytes_used, free_bytes_free. lia.
  - exists s'. split; [done|]. split; [done|]. split; [by rewrite Hlo|]. split; [by rewrite Hhi|]. intros x Hx.
    rewrite Hfr; [apply Hun; by left|..]; apply Hin in Hx; [|done| |done]; fold blk in Hx; lia.
Qed.

(** The bytes a request takes: with its link, rounded up to the alignment. *)
Definition request (n : Z) : Z := (n + 8 + (CONFIG_QM_MEM_BYTE_ALIGNMENT - 1)) / CONFIG_QM_MEM_BYTE_ALIGNMENT * CONFIG_QM_MEM_BYTE_ALIGNMENT.

Lemma land_mask n : Z.land n CONFIG_QM_MEM_BYTE_ALIGNMENT_MASK = n mod CONFIG_QM_MEM_BYTE_ALIGNMENT.
Proof using ok.
  unfold CONFIG_QM_MEM_BYTE_ALIGNMENT_MASK. destruct alignment_ok as [->| ->]; [apply (Z.land_ones n 2)|apply (Z.land_ones n 3)]; lia.
Qed.

Lemma request_spec n : n + 8 <= request n < n + 8 + CONFIG_QM_MEM_BYTE_ALIGNMENT /\ request n mod CONFIG_QM_MEM_BYTE_ALIGNMENT = 0.
Proof using ok.
  unfold request. split; [|apply Z_mod_mult]. destruct alignment_ok as [->| ->]; zsolve.
Qed.

Lemma round_up_spec n : 0 < n < 2 ^ 31 -> round_up n = request n.
Proof using ok.
  intros Hn. unfold round_up, request. rewrite header_eight, (proj2 (Z.gtb_lt _ _)) by lia. rewrite (u32_id (n + 8)) by (widths; lia). rewrite land_mask.
  destruct alignment_ok as [->| ->]; [destruct (Z.eqb_spec ((n + 8) mod 4) 0)|destruct (Z.eqb_spec ((n + 8) mod 8) 0)]; simpl; zsolve.
Qed.

Lemma land_used n : is_u32 n -> (Z.land n USED =? 0) = (n <? 2 ^ 31).
Proof.
  intros Hn. assert (Hb : forall i, 0 <= i -> Z.testbit (Z.land n USED) i = Z.testbit n i && (31 =? i)) by (intros i Hi; unfold USED; by rewrite Z.land_spec, Z.pow2_bits_eqb by lia).
  destruct (Z.ltb_spec n (2 ^ 31)).
  - apply Z.eqb_eq, Z.bits_inj_iff'. intros i Hi. rewrite Hb, Z.bits_0 by done. destruct (Z.eqb_spec 31 i) as [<-|]; [|by rewrite andb_false_r].
    by rewrite (testbit_above 31 n 31) by (widths; lia).
  - apply Z.eqb_neq. intros Hz. specialize (Hb 31 ltac:(lia)). rewrite Hz, Z.bits_0 in Hb. assert (Ht : Z.testbit n 31 = true); [|by rewrite Ht in Hb].
    apply Z.testbit_true; [lia|]. widths. rewrite <- (Z.div_unique n (2 ^ 31) 1 (n - 2 ^ 31)); [done|lia|lia].
Qed.

(** A free block is not larger than the free bytes. *)
Lemma fit_le_free l sz r : List.Forall size_ok (l ++ (sz, false) :: r) -> sz <= free_bytes (l ++ (sz, false) :: r).
Proof.
  intros [Hl [_ Hr]%list.Forall_cons]%Forall_app. rewrite free_bytes_app, free_bytes_free.
  pose proof (free_bytes_le l Hl). pose proof (free_bytes_le r Hr). lia.
Qed.

Lemma take_spec s base l sz r w : wf s base (l ++ (sz, false) :: r) -> size_ok (w, true) -> w <= sz ->
  exists s', take_block (lastf None base l) (base + total l) w s = Ret (tt, s') /\ wf s' base (carve l sz w r) /\ preserves s s' base (l ++ (sz, false) :: r).
Proof using ok.
  intros Hw Hwo Hle. unfold carve. destruct (Z.gtb_spec (sz - w) 16); [by apply take_split|]. apply take_whole; [done| |lia].
  destruct Hwo. simpl in *. lia.
Qed.

(** What is allocated for a request, abstractly. *)
Definition serve (n : Z) (bs : list block) : option (list block * Z * list block) :=
  if (n =? 0) || (2 ^ 31 <=? n) then None else first_fit (request n) bs.

Lemma search_spec s base bs w : wf s base bs -> 0 < w ->
  find_block (walk_fuel s) None (xStart_next s) w s =
  match first_fit w bs with
  | Some (l, sz, r) => Ret (lastf None base l, base + total l, s)
  | None => Ret (lastf None base bs, pxEnd s, s)
  end.
Proof using ok.
  intros Hw Hw0. pose proof (first_fit_spec w bs) as Hff. destruct Hw as [Hseg Hst He Hm Hs Ha Ht Hj Hf Hbit].
  pose proof (total_pos bs Hs) as Htp. rewrite Hst. destruct (first_fit w bs) as [[[l sz] r]|].
  - destruct Hff as (-> & Hle & Hts). apply seg_app in Hseg as [Hg1 [[Hw1 Hw2] _]]. apply Forall_app in Hs as [Hl [[H8 _] Hr]%list.Forall_cons]. simpl in H8.
    pose proof (total_pos l Hl). pose proof (total_pos r Hr). rewrite blocks_total_app, length_app in *. simpl in *. rewrite ff_app. simpl.
    eapply find_block_spec; try done; try (unfold placed; lia); unfold walk_fuel; lia.
  - eapply find_block_spec; try done; try (unfold placed; lia); unfold walk_fuel; lia.
Qed.

(** The last free block before a free block points to it. *)
Lemma next_of_last s base l sz r : seg (H := 0) (words s) base (l ++ (sz, false) :: r) (pxEnd s) -> xStart_next s = ff base (l ++ (sz, false) :: r) (pxEnd s) ->
  List.Forall size_ok (l ++ (sz, false) :: r) -> lo s <= base -> base + total (l ++ (sz, false) :: r) <= hi s ->
  next_of (lastf None base l) s = Ret (base + total l, s).
Proof.
  intros [Hg _]%seg_app Hst [Hl [[H8 _] Hr]%list.Forall_cons]%Forall_app Hlo Hhi. simpl in *. pose proof (total_pos r Hr). rewrite blocks_total_app in Hhi. simpl in Hhi.
  destruct (last_free_cases l) as [Hu|(l1 & s0 & l2 & -> & Hu)].
  - rewrite lastf_used by done. unfold next_of. rewrite (pool_bind_step get _ s s s eq_refl), Hst, ff_app, ff_used by done. done.
  - rewrite lastf_app. simpl. rewrite lastf_used by done. apply seg_app in Hg as [_ [[Hw _] _]]. apply Forall_app in Hl as [Hl1 [[Hs0 _] Hl2]%list.Forall_cons]. simpl in Hs0.
    pose proof (total_pos l1 Hl1). pose proof (total_pos l2 Hl2). rewrite blocks_total_app in *. simpl in *.
    rewrite next_step by (unfold placed; lia). rewrite Hw, ff_used by done. done.
Qed.

Lemma malloc_spec s base bs n : wf s base bs -> is_u32 n ->
  match serve n bs with
  | Some (l, sz, r) =>
      bs = l ++ (sz, false) :: r /\ request n <= sz /\
      exists s', qm_malloc n s = Ret (base + total l + 8, s') /\ wf s' base (carve l sz (request n) r) /\ preserves s s' base bs
  | None => qm_malloc n s = Ret (0, s)
  end.
Proof using ok.
  intros Hw Hn. unfold serve, qm_malloc. rewrite (pool_bind_step get _ s s s eq_refl), (wf_bit _ _ _ Hw), (land_used n Hn).
  destruct (Z.eqb_spec n 0) as [->|Hn0]; [by simpl; rewrite ?(pool_bind_step _ _ _ _ _ eq_refl)|]. simpl.
  destruct (Z.leb_spec (2 ^ 31) n) as [Hbig|Hsm]; [by rewrite (proj2 (Z.ltb_ge _ _)) by lia|]. rewrite (proj2 (Z.ltb_lt _ _)) by lia. simpl.
  assert (0 < n) by (widths; lia). rewrite round_up_spec by lia. destruct (request_spec n) as [Hrq Hral]. set (w := request n) in *. rewrite (proj2 (Z.gtb_lt _ _)) by lia. simpl.
  pose proof (search_spec s base bs w Hw ltac:(lia)) as Hse. pose proof (first_fit_spec w bs) as Hff. destruct (first_fit w bs) as [[[l sz] r]|] eqn:Hfit.
  - destruct Hff as (-> & Hle & _). split; [done|]. split; [done|]. pose proof (fit_le_free l sz r (wf_sizes _ _ _ Hw)) as Hfree. rewrite (wf_free _ _ _ Hw), (proj2 (Z.leb_le _ _)) by lia.
    assert (Hnx : next_of (lastf None base l) s = Ret (base + total l, s)) by (destruct Hw; apply (next_of_last s base l sz r); try done; lia).
    rewrite (pool_bind_step _ _ _ _ _ Hse). destruct (take_spec s base l sz r w Hw) as (s' & Ht & Hw' & Hp); [split; simpl; [lia|done]|lia|].
    destruct Hw as [Hseg Hst He Hm Hs Ha Htt Hj Hf Hbit]. apply Forall_app in Hs as [Hl [[H8 _] Hr]%list.Forall_cons]. simpl in H8. pose proof (total_pos l Hl). pose proof (total_pos r Hr).
    rewrite blocks_total_app in He. simpl in He. rewrite (proj2 (Z.eqb_neq _ _)) by lia. simpl.
    rewrite (pool_bind_step _ _ _ _ _ Hnx), (pool_bind_step _ _ _ _ _ Ht), header_eight. exists s'. split; [|done]. rewrite u32_id by (widths; lia). done.
  - destruct (_ <=? _); [|done]. rewrite (pool_bind_step _ _ _ _ _ Hse). by rewrite Z.eqb_refl.
Qed.
End allocation.

(** ** Release *)

Section release.
Context {cfg : MemConfig} {ok : MemConfigOk cfg}.

Lemma absorb_joined sz r : joined r -> joined (absorb sz r).
Proof.
  destruct r as [|[s2 []] r]; [done|by intros Hj; apply joined_cons|]. intros [Hj Hs]%joined_cons. apply joined_cons. split; [done|]. intros _. by apply Hs.
Qed.

Lemma coalesce_joined l sz r : joined l -> joined r -> joined (coalesce l sz r).
Proof.
  intros Hl Hr. unfold coalesce. destruct l as [|[s0 u] l _] using rev_ind; [by apply absorb_joined|]. rewrite last_snoc. destruct u.
  - apply joined_used in Hl as [Hl _]. rewrite <- app_assoc. apply joined_used. split; [done|by apply absorb_joined].
  - rewrite removelast_last. apply joined_free in Hl as (Hl & _ & _ & He). apply joined_app. split; [done|]. split; [by apply absorb_joined|]. by rewrite He.
Qed.

Lemma free_bytes_absorb sz r : free_bytes (absorb sz r) = sz + free_bytes r.
Proof. destruct r as [|[s2 []] r]; [done|done|]. unfold absorb. rewrite !free_bytes_free. lia. Qed.

Lemma free_bytes_coalesce l sz r : free_bytes (coalesce l sz r) = free_bytes l + sz + free_bytes r.
Proof.
  unfold coalesce. destruct l as [|[s0 u] l _] using rev_ind; [simpl; by rewrite free_bytes_absorb|]. rewrite last_snoc.
  destruct u; [|rewrite removelast_last]; rewrite !free_bytes_app, free_bytes_absorb, ?free_bytes_free, ?free_bytes_used; unfold free_bytes; simpl; lia.
Qed.

Lemma clear_used sz : 0 <= sz < USED -> Z.land (sz + USED) (Z.lnot USED) = sz.
Proof.
  intros Hs. rewrite <- (lor_used sz Hs), <- Z.ldiff_land. apply Z.bits_inj_iff'. intros i Hi.
  rewrite Z.ldiff_spec, Z.lor_spec. assert (Hb : Z.testbit USED i = (31 =? i)) by (unfold USED; by rewrite Z.pow2_bits_eqb by lia). rewrite Hb.
  destruct (Z.eqb_spec 31 i) as [<-|]; [|by rewrite orb_false_r, andb_true_r].
  rewrite andb_false_r. symmetry. apply (testbit_above 31 sz 31); [lia|exact Hs|lia].
Qed.

Lemma free_spec s base l sz r : wf s base (l ++ (sz, true) :: r) ->
  exists s', qm_free (base + total l + 8) s = Ret (tt, s') /\ wf s' base (coalesce l sz r) /\ lo s' = lo s /\ hi s' = hi s /\
    (forall x, in_used base l x \/ in_used (base + total l + sz) r x -> words s' x = words s x).
Proof using ok.
  intros [Hseg Hst He Hm Hs Ha Ht Hj Hf Hbit]. apply seg_app in Hseg as [Hg1 [Hh Hg2]]. pose proof Hs as [Hl [[H8 Hal] Hr]%list.Forall_cons]%Forall_app. simpl in H8, Hal, Hg1.
  apply joined_used in Hj as [Hj1 Hj2]. rewrite free_bytes_app, free_bytes_used in Hf. rewrite blocks_total_app in He, Ht. rewrite ff_app in Hst. simpl in He, Ht, Hst. pose proof (total_pos l Hl). pose proof (total_pos r Hr).
  pose proof (free_bytes_le l Hl). pose proof (free_bytes_le r Hr). destruct Hh as [Hh|[Hw1 Hw2]]; [unfold hole in Hh; lia|].
  set (blk := base + total l) in *. assert (placed s blk) as Hp by (unfold placed; lia).
  unfold qm_free. rewrite (proj2 (Z.eqb_neq _ _)) by lia. rewrite header_eight, (u32_id (blk + 8 - 8)) by (widths; lia). replace (blk + 8 - 8) with blk by lia.
  rewrite (pool_bind_step get _ s s s eq_refl), (pool_bind_step _ _ _ _ _ (size_step s blk Hp)), Hw2, Hbit, land_used by (unfold USED; widths; lia).
  rewrite (proj2 (Z.ltb_ge _ _)) by (unfold USED; lia). simpl. rewrite (pool_bind_step _ _ _ _ _ (next_step s blk Hp)), Hw1. simpl.
  rewrite clear_used by (unfold USED; lia). rewrite (pool_bind_step _ _ _ _ _ (set_size_step s blk sz Hp)), !(pool_bind_step get _ _ _ _ eq_refl), (pool_bind_step (put _) _ _ _ _ eq_refl). simpl.
  set (s1 := set_free _ _). assert (Hfr : forall x, x <> blk + 4 -> words s1 x = words s x) by (intros x Hx; unfold s1; simpl; by apply upd_ne).
  destruct (@insert_spec _ _ 0 s1 base l sz r) as (s' & Hr' & Hg & Hx & Hun & Hk%relinked_keeps).
  { split; fold blk; simpl; try done; try lia.
    - apply (seg_ext (words s)); [done| |done]. intros x Hx. apply upd_ne. unfold blk in *. lia.
    - apply (seg_ext (words s)); [done| |done]. intros x Hx. apply upd_ne. lia.
    - apply upd_eq. }
  exists s'. split; [exact Hr'|]. destruct Hk as (K1 & K2 & K3 & K4 & K5). unfold untouched in Hun. simpl in *. fold blk in Hun. split; [|split; [done|split; [done|]]].
  - split; rewrite ?K1, ?K2, ?K3, ?K4, ?K5; try done.
    + rewrite total_coalesce. lia.
    + rewrite !Hun by (right; right; lia). rewrite !upd_ne by lia. done.
    + by apply coalesce_sizes.
    + rewrite total_coalesce. lia.
    + by apply coalesce_joined.
    + rewrite free_bytes_coalesce, Hf. rewrite u32_id by (widths; lia). lia.
  - intros x Hx'. rewrite Hun by tauto. apply upd_ne. destruct Hx' as [Hx'|Hx']; apply in_used_range in Hx'; try done; unfold blk in *; lia.
Qed.
End release.

(** ** Start *)

Section start.
Context {cfg : MemConfig} {ok : MemConfigOk cfg}.
Abbreviation al := CONFIG_QM_MEM_BYTE_ALIGNMENT.

Lemma land_not_mask x : Z.land x (Z.lnot CONFIG_QM_MEM_BYTE_ALIGNMENT_MASK) = x / al * al.
Proof using ok.
  rewrite <- Z.ldiff_land. unfold CONFIG_QM_MEM_BYTE_ALIGNMENT_MASK.
  destruct alignment_ok as [->| ->]; [change (4 - 1) with (Z.ones 2); change 4 with (2 ^ 2)|change (8 - 1) with (Z.ones 3); change 8 with (2 ^ 3)];
    rewrite Z.ldiff_ones_r, Z.shiftr_div_pow2, Z.shiftl_mul_pow2 by lia; done.
Qed.

Definition pool_base (heap : Z) : Z := (heap + (al - 1)) / al * al.
Definition pool_end (heap len : Z) : Z := (heap + len - 8) / al * al.

Lemma pool_layout heap len : 0 < heap -> 32 <= len ->
  heap <= pool_base heap < heap + al /\ heap + len - 8 - al < pool_end heap len <= heap + len - 8 /\
  (pool_base heap) mod al = 0 /\ (pool_end heap len - pool_base heap) mod al = 0 /\ 8 <= pool_end heap len - pool_base heap.
Proof using ok.
  intros H0 Hl. unfold pool_base, pool_end. split_and!; try (destruct alignment_ok as [->| ->]; zsolve).
Qed.

Lemma set_words_twice w w' s : set_words w (set_words w' s) = set_words w s.
Proof. done. Qed.

Lemma init_spec s heap len : 0 < heap -> 32 <= len < 2 ^ 31 -> lo s <= heap -> heap + len <= hi s < 2 ^ 32 ->
  exists s', qm_heap_init heap len s = Ret (tt, s') /\ wf s' (pool_base heap) [(pool_end heap len - pool_base heap, false)] /\ lo s' = lo s /\ hi s' = hi s.
Proof using ok.
  intros H0 Hlen Hlo Hhi. destruct (pool_layout heap len) as (L1 & L2 & L3 & L4 & L5); [lia..|]. unfold qm_heap_init.
  rewrite (proj2 (Z.eqb_neq heap 0)), (proj2 (Z.eqb_neq len 0)) by lia. cbn [orb]. rewrite header_eight.
  set (b := pool_base heap) in *. set (e := pool_end heap len) in *. assert (Hal : al = 4 \/ al = 8) by apply alignment_ok.
  assert (Hpair : aligned_area heap len = (b, heap + len - b)).
  { unfold aligned_area. rewrite land_mask. destruct (Z.eqb_spec (heap mod al) 0) as [Hz|Hz]; simpl.
    - assert (b = heap) as -> by (unfold b, pool_base; destruct Hal as [Hq|Hq]; rewrite Hq in *; zsolve). f_equal. lia.
    - rewrite (u32_id (heap + (al - 1))) by (widths; lia). rewrite land_not_mask. fold (pool_base heap). fold b. rewrite (u32_id (b - heap)) by (widths; lia).
      rewrite u32_id by (widths; lia). f_equal. lia. }
  rewrite Hpair. rewrite land_not_mask, (u32_id (b + _)), (u32_id (b + (heap + len - b) - 8)) by (widths; lia).
  replace (b + (heap + len - b) - 8) with (heap + len - 8) by lia. fold (pool_end heap len). fold e. rewrite (u32_id (e - b)) by (widths; lia).
  rewrite (pool_bind_step get _ s s s eq_refl), (pool_bind_step (put _) _ _ _ _ eq_refl). set (s0 := mk_pool _ _ _ _ _ _ _ _).
  assert (He : forall w, placed (set_words w s0) e) by (intros w; unfold placed; simpl; lia). assert (Hb : forall w, placed (set_words w s0) b) by (intros w; unfold placed; simpl; lia).
  pose proof (set_size_step s0 e 0 (He (words s0))) as E1. rewrite (pool_bind_step _ _ _ _ _ E1), (pool_bind_step _ _ _ _ _ (set_next_step (set_words _ s0) e 0 (He _))), set_words_twice.
  rewrite (pool_bind_step _ _ _ _ _ (set_size_step (set_words _ s0) b _ (Hb _))), set_words_twice, (pool_bind_step _ _ _ _ _ (set_next_step (set_words _ s0) b _ (Hb _))), set_words_twice.
  rewrite (pool_bind_step _ _ _ _ _ (size_step (set_words _ s0) b (Hb _))), (pool_bind_step get _ _ _ _ eq_refl). simpl. eexists. split; [done|]. split; [|done].
  rewrite (upd_ne b _ _ (b + 4)), upd_eq by lia. split; simpl; rewrite ?Z.add_0_r; try done; try lia.
  - rewrite upd_eq, upd_ne, upd_eq by lia. done.
  - rewrite !(upd_ne b), !(upd_ne (b + 4)), upd_eq, (upd_ne e), upd_eq by lia. done.
  - constructor; [split; [done|done]|constructor].
  - rewrite free_bytes_free. unfold free_bytes. simpl. lia.
Qed.
End start.

(** ** Clients

    A client allocates, writes words into its blocks and frees them; [live] are the
    pointers it holds, with the sizes it asked for. *)

Inductive op :=
| Alloc (n : Z)
| Release (i : nat)
| Poke (i : nat) (off v : Z).

Section clients.
Context {cfg : MemConfig} {ok : MemConfigOk cfg}.

Definition exec (o : op) (live : list (Z * Z)) : M (list (Z * Z)) :=
  match o with
  | Alloc n => p ← qm_malloc n; mret (if p =? 0 then live else live ++ [(p, n)])
  | Release i =>
      match live !! i with
      | Some (p, _) => qm_free p;; mret (delete i live)
      | None => mret live
      end
  | Poke i off v =>
      match live !! i with
      | Some (p, n) => if (0 <=? off) && (off + 4 <=? n) && (off mod 4 =? 0) then wr (p + off) v;; mret live else mret live
      | None => mret live
      end
  end.

Fixpoint run (os : list op) (live : list (Z * Z)) : M (list (Z * Z)) :=
  match os with
  | [] => mret live
  | o :: os => live ← exec o live; run os live
  end.

Definition op_ok (o : op) : Prop := match o with Alloc n => is_u32 n | _ => True end.

(** Addresses and sizes of the blocks in use. *)
Fixpoint used_at (a : Z) (bs : list block) : list (Z * Z) :=
  match bs with
  | [] => []
  | (s, true) :: r => (a, s) :: used_at (a + s) r
  | (s, false) :: r => used_at (a + s) r
  end.

Lemma used_at_app a l r : used_at a (l ++ r) = used_at a l ++ used_at (a + total l) r.
Proof.
  revert a. induction l as [|[s []] l IH]; intros a; simpl; [by rewrite Z.add_0_r| |]; rewrite IH; by rewrite Z.add_assoc.
Qed.

Lemma used_at_absorb a sz r : used_at a (absorb sz r) = used_at (a + sz) r.
Proof. destruct r as [|[s2 []] r]; simpl; [done|done|]. by rewrite Z.add_assoc. Qed.

Lemma used_at_coalesce a l sz r : used_at a (coalesce l sz r) = used_at a l ++ used_at (a + total l + sz) r.
Proof.
  unfold coalesce. destruct l as [|[s0 u] l _] using rev_ind; [simpl; by rewrite used_at_absorb, Z.add_0_r|]. rewrite last_snoc.
  destruct u; [|rewrite removelast_last]; rewrite ?used_at_app, ?used_at_absorb, ?blocks_total_app; simpl; rewrite ?app_nil_r, ?Z.add_0_r, ?Z.add_assoc; done.
Qed.

Lemma used_at_carve a l sz w r : exists sz', w <= sz -> (w <= sz' /\ used_at a (carve l sz w r) = used_at a l ++ (a + total l, sz') :: used_at (a + total l + sz) r).
Proof.
  unfold carve. destruct (Z.gtb_spec (sz - w) 16); [exists w|exists sz]; intros Hw; (split; [lia|]); rewrite used_at_app; simpl; [|done].
  do 3 f_equal. lia.
Qed.

Lemma used_at_split a bs U1 p sz U2 : used_at a bs = U1 ++ (p, sz) :: U2 ->
  exists l r, bs = l ++ (sz, true) :: r /\ p = a + total l /\ U1 = used_at a l /\ U2 = used_at (p + sz) r.
Proof.
  revert a U1. induction bs as [|[s u] bs IH]; intros a U1; simpl; [by destruct U1|]. destruct u.
  - destruct U1 as [|u1 U1]; simpl; intros [= H1 H2].
    + exists [], bs. simpl. subst. split_and!; try done. lia.
    + destruct (IH _ _ H2) as (l & r & -> & -> & -> & ->). exists ((s, true) :: l), r. simpl. subst. rewrite ?Z.add_assoc. done.
  - intros Hu. destruct (IH _ _ Hu) as (l & r & -> & -> & -> & ->). exists ((s, false) :: l), r. simpl. rewrite ?Z.add_assoc. done.
Qed.

Lemma used_at_range a bs i p s : List.Forall size_ok bs -> used_at a bs !! i = Some (p, s) ->
  a <= p /\ p + s <= a + total bs /\ 8 <= s /\ (a mod CONFIG_QM_MEM_BYTE_ALIGNMENT = 0 -> p mod CONFIG_QM_MEM_BYTE_ALIGNMENT = 0).
Proof using ok.
  intros Hs. revert a i. induction Hs as [|[s0 u] bs [H8 Hal] Hb IH]; intros a i; simpl; [done|]. pose proof (total_pos bs Hb). simpl in H8, Hal.
  assert (Hm : a mod CONFIG_QM_MEM_BYTE_ALIGNMENT = 0 -> (a + s0) mod CONFIG_QM_MEM_BYTE_ALIGNMENT = 0).
  { intros Ha. rewrite Z.add_mod, Ha, Hal by (destruct alignment_ok; lia). apply Z.mod_0_l. destruct alignment_ok; lia. }
  destruct u; [destruct i as [|i]; simpl; [intros [= -> ->]; lia|]|]; intros Hi; destruct (IH _ _ Hi) as (? & ? & ? & ?); (split_and!; [lia..|tauto]).
Qed.

Lemma used_at_order a bs i j p s q t : List.Forall size_ok bs -> (i < j)%nat -> used_at a bs !! i = Some (p, s) -> used_at a bs !! j = Some (q, t) -> p + s <= q.
Proof using ok.
  intros Hs. revert a i j. induction Hs as [|[s0 u] bs [H8 Hal] Hb IH]; intros a i j Hij; simpl; [done|].
  destruct u; [|by apply IH]. destruct j as [|j]; [lia|]. destruct i as [|i]; simpl; [|apply IH; lia].
  intros [= -> ->] Hj. by apply used_at_range in Hj as [? _].
Qed.

Lemma total_carve l sz w r : total (carve l sz w r) = total (l ++ (sz, false) :: r).
Proof. unfold carve. destruct (sz - w >? 16); rewrite !blocks_total_app; simpl; lia. Qed.

Definition holds (pn as' : Z * Z) : Prop := pn.1 = as'.1 + 8 /\ 0 <= pn.2 /\ pn.2 + 8 <= as'.2.

(** The client holds exactly the blocks in use. *)
Definition inv (base t : Z) (live : list (Z * Z)) (s : pool_t) : Prop :=
  exists bs L, wf s base bs /\ total bs = t /\ live ≡ₚ L /\ Forall2 holds L (used_at base bs).

(** The payloads lie in the area and do not overlap. *)
Definition separate (live : list (Z * Z)) (s : pool_t) : Prop :=
  (forall i p n, live !! i = Some (p, n) -> lo s <= p /\ p + n <= hi s /\ p mod CONFIG_QM_MEM_BYTE_ALIGNMENT = 0) /\
  (forall i j p n q m, i <> j -> live !! i = Some (p, n) -> live !! j = Some (q, m) -> p + n <= q \/ q + m <= p).

Lemma exec_alloc base t n live s : is_u32 n -> inv base t live s -> exists live' s', exec (Alloc n) live s = Ret (live', s') /\ inv base t live' s' /\ lo s' = lo s /\ hi s' = hi s.
Proof using ok.
  intros Hn (bs & L & Hw & Ht & HL & HF). pose proof (malloc_spec s base bs n Hw Hn) as Hm. unfold exec. unfold serve in Hm.
  destruct (((n =? 0) || (2 ^ 31 <=? n))) eqn:Hz; [|destruct (first_fit (request n) bs) as [[[l sz] r]|] eqn:Hff].
  1,3: rewrite (pool_bind_step _ _ _ _ _ Hm); exists live, s; split; [done|]; split; [by exists bs, L|done].
  destruct Hm as (-> & Hle & s' & Hr & Hw' & Hlo & Hhi & _). rewrite (pool_bind_step _ _ _ _ _ Hr).
  destruct (wf_area _ _ _ Hw) as (_ & Hb0 & _). pose proof (wf_sizes _ _ _ Hw) as [Hl _]%Forall_app. pose proof (total_pos l Hl).
  rewrite (proj2 (Z.eqb_neq _ _)) by lia. exists (live ++ [(base + total l + 8, n)]), s'. split; [done|]. split; [|done].
  destruct (used_at_carve base l sz (request n) r) as (sz' & Hu). destruct (Hu Hle) as [Hsz' Hu']. rewrite used_at_app in HF. simpl in HF.
  apply Forall2_app_inv_r in HF as (L1 & L2 & HF1 & HF2 & ->). exists (carve l sz (request n) r), (L1 ++ (base + total l + 8, n) :: L2).
  split; [done|]. split; [by rewrite total_carve|]. split; [rewrite HL; by rewrite <- app_assoc, (Permutation_app_comm L2)|]. rewrite Hu'. apply Forall2_app; [done|]. constructor; [|done].
  destruct (request_spec n) as [Hq _]. unfold holds. simpl. widths. lia.
Qed.

Lemma inv_pick base t live s i p n : inv base t live s -> live !! i = Some (p, n) ->
  exists l sz r L1 L2, wf s base (l ++ (sz, true) :: r) /\ total (l ++ (sz, true) :: r) = t /\ p = base + total l + 8 /\ 0 <= n /\ n + 8 <= sz /\ live ≡ₚ L1 ++ (p, n) :: L2 /\
    Forall2 holds L1 (used_at base l) /\ Forall2 holds L2 (used_at (base + total l + sz) r).
Proof.
  intros (bs & L & Hw & Ht & HL & HF) Hi. assert (Hin : (p, n) ∈ L) by (rewrite <- HL; by eapply list_elem_of_lookup_2).
  apply list_elem_of_split in Hin as (L1 & L2 & ->). apply Forall2_app_inv_l in HF as (U1 & U2' & HF1 & HF2 & Hu).
  apply Forall2_cons_inv_l in HF2 as ([a sz] & U2 & (Ha & Hn0 & Hn) & HF2 & ->). apply used_at_split in Hu as (l & r & -> & -> & -> & ->). simpl in *.
  exists l, sz, r, L1, L2. done.
Qed.

Lemma exec_release base t i live s : inv base t live s -> exists live' s', exec (Release i) live s = Ret (live', s') /\ inv base t live' s' /\ lo s' = lo s /\ hi s' = hi s.
Proof using ok.
  intros Hv. unfold exec. destruct (live !! i) as [[p n]|] eqn:Hi; [|by exists live, s].
  destruct (inv_pick _ _ _ _ _ _ _ Hv Hi) as (l & sz & r & L1 & L2 & Hw & Ht & -> & _ & _ & HL & HF1 & HF2).
  destruct (free_spec s base l sz r Hw) as (s' & Hr & Hw' & Hlo & Hhi & _). rewrite (pool_bind_step _ _ _ _ _ Hr). exists (delete i live), s'.
  split; [done|]. split; [|done]. exists (coalesce l sz r), (L1 ++ L2). split; [done|]. split; [rewrite total_coalesce, <- Ht, blocks_total_app; simpl; lia|]. split.
  - apply (Permutation_cons_inv (a := (base + total l + 8, n))). rewrite <- (delete_Permutation _ _ _ Hi), HL. by rewrite Permutation_middle.
  - rewrite used_at_coalesce. by apply Forall2_app.
Qed.

(** Writing inside of a block in use does not touch the links. *)
Lemma poke_wf s base l sz r x v : wf s base (l ++ (sz, true) :: r) -> base + total l + 8 <= x -> x + 4 <= base + total l + sz ->
  wr x v s = Ret (tt, set_words (upd x v (words s)) s) /\ wf (set_words (upd x v (words s)) s) base (l ++ (sz, true) :: r).
Proof.
  intros [Hseg Hst He Hm Hs Ha Ht Hj Hf Hbit] H1 H2. pose proof Hs as [Hl [[H8 _] Hr]%list.Forall_cons]%Forall_app. simpl in H8. pose proof (total_pos l Hl). pose proof (total_pos r Hr).
  rewrite blocks_total_app in He. simpl in He. split; [unfold wr; rewrite in_area_true by lia; done|]. split; simpl; try done.
  - apply seg_app in Hseg as [Hg1 [Hh Hg2]]. apply seg_app. split; [|split].
    + apply (seg_ext (words s)); [done| |done]. intros y Hy. apply upd_ne. lia.
    + destruct Hh as [Hh|Hh]; [by left|right]. rewrite !upd_ne by lia. done.
    + apply (seg_ext (words s)); [done| |done]. intros y Hy. apply upd_ne. lia.
  - rewrite blocks_total_app. simpl. lia.
  - rewrite !upd_ne by lia. done.
Qed.

Lemma exec_poke base t i off v live s : inv base t live s -> exists live' s', exec (Poke i off v) live s = Ret (live', s') /\ inv base t live' s' /\ lo s' = lo s /\ hi s' = hi s.
Proof using ok.
  intros Hv. unfold exec. destruct (live !! i) as [[p n]|] eqn:Hi; [|by exists live, s].
  destruct (Z.leb_spec 0 off), (Z.leb_spec (off + 4) n), (Z.eqb_spec (off mod 4) 0); simpl; try by exists live, s.
  destruct (inv_pick _ _ _ _ _ _ _ Hv Hi) as (l & sz & r & L1 & L2 & Hw & Ht & -> & Hn0 & Hn & HL & HF1 & HF2).
  destruct (poke_wf s base l sz r (base + total l + 8 + off) v Hw) as [Hr Hw']; [lia..|]. rewrite (pool_bind_step _ _ _ _ _ Hr). exists live. eexists. split; [done|].
  split; [|done]. exists (l ++ (sz, true) :: r), (L1 ++ (base + total l + 8, n) :: L2). split; [done|]. split; [done|]. split; [done|].
  rewrite used_at_app. apply Forall2_app; [done|]. simpl. constructor; [done|done].
Qed.

Lemma pool_run_inv base t os : List.Forall op_ok os -> forall live s, inv base t live s -> exists live' s', run os live s = Ret (live', s') /\ inv base t live' s' /\ lo s' = lo s /\ hi s' = hi s.
Proof using ok.
  induction 1 as [|o os Ho Hos IH]; intros live s Hv; simpl; [by exists live, s|].
  assert (exists live' s', exec o live s = Ret (live', s') /\ inv base t live' s' /\ lo s' = lo s /\ hi s' = hi s) as (live1 & s1 & Hr & Hv1 & Hlo & Hhi).
  { destruct o; [by apply exec_alloc|by apply exec_release|by apply exec_poke]. }
  rewrite (pool_bind_step _ _ _ _ _ Hr). destruct (IH live1 s1 Hv1) as (live2 & s2 & Hr2 & Hv2 & Hlo2 & Hhi2). exists live2, s2. rewrite Hlo2, Hhi2. done.
Qed.

Lemma inv_separate base t live s : inv base t live s -> separate live s.
Proof using ok.
  intros (bs & L & Hw & _ & (_ & f & Hinj & Hf)%Permutation_inj & HF). destruct (wf_area _ _ _ Hw) as (A1 & A2 & A3 & A4). pose proof (wf_end _ _ _ Hw) as He.
  assert (Hat : forall i p n, live !! i = Some (p, n) -> exists sz, used_at base bs !! f i = Some (p - 8, sz) /\ 0 <= n /\ n + 8 <= sz).
  { intros i p n Hi. rewrite Hf in Hi. destruct (Forall2_lookup_l _ _ _ _ _ HF Hi) as ([a sz] & Hu & Hp & Hn0 & Hn). simpl in *. exists sz. split; [|done]. rewrite Hu. do 2 f_equal. lia. }
  pose proof (wf_sizes _ _ _ Hw) as Hs. split.
  - intros i p n Hi. destruct (Hat _ _ _ Hi) as (sz & Hu & Hn0 & Hn). destruct (used_at_range _ _ _ _ _ Hs Hu) as (R1 & R2 & R3 & R4). split_and!; [lia..|].
    specialize (R4 A3). destruct alignment_ok as [Hq|Hq]; rewrite Hq in *; zsolve.
  - intros i j p n q m Hij Hi Hj. destruct (Hat _ _ _ Hi) as (sz & Hu & _ & Hn). destruct (Hat _ _ _ Hj) as (sz2 & Hu2 & _ & Hn2).
    assert (f i <> f j) by (intros Heq; by apply Hij, Hinj). destruct (decide (f i < f j)%nat).
    + pose proof (used_at_order _ _ _ _ _ _ _ _ Hs l Hu Hu2). lia.
    + pose proof (used_at_order _ _ (f j) (f i) _ _ _ _ Hs ltac:(lia) Hu2 Hu). lia.
Qed.
End clients.

(** ** Theorems *)

Section theorems.
Context {cfg : MemConfig} {ok : MemConfigOk cfg}.

(** C29: An allocation takes the first free block that is large enough, splits it when more
    than the smallest block is left, and changes no word of a block in use; it returns
    NULL, with nothing changed, when the size is zero or has the top bit, or when no free
    block is large enough. *)
Theorem malloc_refines s base bs n : wf s base bs -> is_u32 n ->
  (exists l sz r s', bs = l ++ (sz, false) :: r /\ List.Forall (too_small (request n)) l /\ request n <= sz /\
     qm_malloc n s = Ret (base + total l + 8, s') /\ wf s' base (carve l sz (request n) r) /\ preserves s s' base bs) \/
  (qm_malloc n s = Ret (0, s) /\ (n = 0 \/ 2 ^ 31 <= n \/ List.Forall (too_small (request n)) bs)).
Proof using ok.
  intros Hw Hn. pose proof (malloc_spec s base bs n Hw Hn) as Hm. unfold serve in Hm. pose proof (first_fit_spec (request n) bs) as Hff.
  destruct (Z.eqb_spec n 0) as [->|]; [right; split; [done|by left]|]. simpl in Hm. destruct (Z.leb_spec (2 ^ 31) n); [right; split; [done|by right; left]|].
  destruct (first_fit (request n) bs) as [[[l sz] r]|]; [left|right; split; [done|by right; right]].
  destruct Hff as (-> & Hle & Hts), Hm as (_ & _ & s' & Hr & Hw' & Hp). by exists l, sz, r, s'.
Qed.

(** Freeing a block in use makes it free and joins it to the free blocks it touches; no
    word of another block in use changes. *)
Theorem free_refines s base l sz r : wf s base (l ++ (sz, true) :: r) ->
  exists s', qm_free (base + total l + 8) s = Ret (tt, s') /\ wf s' base (coalesce l sz r) /\
    (forall x, in_used base l x \/ in_used (base + total l + sz) r x -> words s' x = words s x).
Proof using ok. intros Hw. destruct (free_spec s base l sz r Hw) as (s' & Hr & Hw' & _ & _ & Hx). by exists s'. Qed.

Lemma coalesce_plain l sz r : ends_free l = false -> coalesce l sz r = l ++ absorb sz r.
Proof. unfold coalesce, ends_free. by destruct (last l) as [[s0 []]|]. Qed.

(** Freeing what was just allocated restores the pool: the same blocks, and the same
    number of free bytes. *)
Theorem malloc_free_restores s base bs n p s' : wf s base bs -> is_u32 n -> qm_malloc n s = Ret (p, s') -> p <> 0 ->
  exists s'', qm_free p s' = Ret (tt, s'') /\ wf s'' base bs /\ xFreeBytesRemaining s'' = xFreeBytesRemaining s.
Proof using ok.
  intros Hw Hn Hr Hp. pose proof (malloc_spec s base bs n Hw Hn) as Hm. destruct (serve n bs) as [[[l sz] r]|]; [|by rewrite Hm in Hr; injection Hr; intros; congruence].
  destruct Hm as (-> & Hle & s1 & Hm & Hw1 & _). rewrite Hm in Hr. injection Hr as <- <-.
  pose proof (wf_joined _ _ _ Hw) as (_ & _ & Hst & Hen)%joined_free.
  assert (Hback : exists s'', qm_free (base + total l + 8) s1 = Ret (tt, s'') /\ wf s'' base (l ++ (sz, false) :: r)).
  { unfold carve in Hw1. destruct (sz - request n >? 16); destruct (free_spec _ _ _ _ _ Hw1) as (s'' & Hf & Hw2 & _); exists s''; (split; [done|]).
    - rewrite (coalesce_plain _ _ _ Hen) in Hw2. simpl in Hw2. by rewrite Zplus_minus in Hw2.
    - by rewrite (coalesce_plain _ _ _ Hen), (absorb_plain _ _ Hst) in Hw2. }
  destruct Hback as (s'' & Hf & Hw2). exists s''. split; [done|]. split; [done|]. by rewrite (wf_free _ _ _ Hw2), (wf_free _ _ _ Hw).
Qed.

Lemma fresh_inv s base n : wf s base [(n, false)] -> inv base (total [(n, false)]) [] s.
Proof. intros Hw. exists [(n, false)], []. split_and!; [done|done|done|constructor]. Qed.

(** C9: Whatever sequence of allocations, releases and writes into its blocks a client
    makes on a fresh pool, no call leaves the area or loops, and the blocks it holds are
    aligned, lie in the area and do not overlap. *)
Theorem pool_runs_safe s heap len os : 0 < heap -> 32 <= len < 2 ^ 31 -> lo s <= heap -> heap + len <= hi s < 2 ^ 32 -> List.Forall op_ok os ->
  exists live s', (qm_heap_init heap len;; run os []) s = Ret (live, s') /\ separate live s'.
Proof using ok.
  intros H0 Hl Hlo Hhi Hos. destruct (init_spec s heap len H0 Hl Hlo Hhi) as (s1 & Hr & Hw & _). rewrite (pool_bind_step _ _ _ _ _ Hr).
  destruct (pool_run_inv _ _ os Hos [] s1 (fresh_inv _ _ _ Hw)) as (live & s' & Hr' & Hv & _).
  exists live, s'. split; [done|]. by eapply inv_separate.
Qed.

Lemma all_free base bs : used_at base bs = [] -> joined bs -> bs = [] \/ exists n, bs = [(n, false)].
Proof.
  destruct bs as [|[n []] [|[m []] bs]]; simpl; try done; [by left|by right; exists n].
Qed.

(** The pool does not fragment for good: when a client has freed all of its blocks, the
    pool is one free block again, whatever happened before. *)
Theorem pool_drains s heap len os s' : 0 < heap -> 32 <= len < 2 ^ 31 -> lo s <= heap -> heap + len <= hi s < 2 ^ 32 -> List.Forall op_ok os ->
  (qm_heap_init heap len;; run os []) s = Ret ([], s') ->
  wf s' (pool_base heap) [(pool_end heap len - pool_base heap, false)] /\ xFreeBytesRemaining s' = pool_end heap len - pool_base heap.
Proof using ok.
  intros H0 Hl Hlo Hhi Hos Hrun. destruct (init_spec s heap len H0 Hl Hlo Hhi) as (s1 & Hr & Hw & _). rewrite (pool_bind_step _ _ _ _ _ Hr) in Hrun.
  destruct (pool_layout heap len H0 ltac:(lia)) as (_ & _ & _ & _ & L5).
  destruct (pool_run_inv _ _ os Hos [] s1 (fresh_inv _ _ _ Hw)) as (live & s2 & Hr' & Hv & _).
  rewrite Hrun in Hr'. injection Hr' as <- <-. destruct Hv as (bs & L & Hw' & Ht & HL & HF). apply Permutation_nil_l in HL. subst L. apply Forall2_nil_inv_l in HF as Hx.
  simpl in Ht. destruct (all_free _ _ Hx (wf_joined _ _ _ Hw')) as [->|[n ->]]; simpl in Ht; [lia|]. assert (n = pool_end heap len - pool_base heap) as -> by lia.
  split; [done|]. rewrite (wf_free _ _ _ Hw'), free_bytes_free. unfold free_bytes. simpl. lia.
Qed.
End theorems.

(** ** A pool of 400 bytes *)

#[local] Instance default_config : MemConfig := 4.
#[local] Instance default_config_ok : MemConfigOk default_config.
Proof. by left. Qed.

Definition area (a n : Z) : pool_t := mk_pool (fun _ => 0) a (a + n) 0 0 0 0 0.

Definition fresh_pool : pool_t := match qm_heap_init 1001 400 (area 1001 400) with Ret (_, s) => s | _ => area 0 0 end.

Lemma fresh_pool_wf : wf fresh_pool 1004 [(388, false)].
Proof.
  destruct (init_spec (area 1001 400) 1001 400) as (s' & Hr & Hw & _); [done..|]. unfold fresh_pool. rewrite Hr. exact Hw.
Qed.

(** A pool with a block of 16 bytes in use before one of 32 bytes. *)
Definition two_blocks : pool_t := match (qm_malloc 5;; qm_malloc 24) fresh_pool with Ret (_, s) => s | _ => area 0 0 end.

Lemma two_blocks_wf : wf two_blocks 1004 [(16, true); (32, true); (340, false)].
Proof.
  pose proof (malloc_spec fresh_pool 1004 _ 5 fresh_pool_wf ltac:(widths; lia)) as H1. change (serve 5 [(388, false)]) with (Some ([] : list block, 388, [] : list block)) in H1.
  destruct H1 as (_ & _ & s1 & H1 & Hw1 & _).
  pose proof (malloc_spec s1 1004 _ 24 Hw1 ltac:(widths; lia)) as H2. change (serve 24 (carve [] 388 (request 5) [])) with (Some ([(16, true)], 372, [] : list block)) in H2.
  destruct H2 as (_ & _ & s2 & H2 & Hw2 & _). unfold two_blocks. rewrite (pool_bind_step _ _ _ _ _ H1), H2. exact Hw2.
Qed.

Lemma malloc_refines_witness :
  exists s', qm_malloc 10 two_blocks = Ret (1060, s') /\ wf s' 1004 [(16, true); (32, true); (20, true); (320, false)].
Proof.
  destruct (malloc_refines two_blocks 1004 _ 10 two_blocks_wf) as [(l & sz & r & s' & Hb & Hts & Hle & Hr & Hw & _)|[Hr _]]; [by compute| |].
  - assert (l = [(16, true); (32, true)] /\ sz = 340 /\ r = []) as (-> & -> & ->) by (clear -Hb; by destruct l as [|? [|? [|? [|]]]]; simplify_eq/=).
    change (1004 + total [(16, true); (32, true)] + 8) with 1060 in Hr. exists s'. split; [exact Hr|exact Hw].
  - exfalso. assert (Hn : match qm_malloc 10 two_blocks with Ret (p, _) => p | _ => 0 end = 1060) by (vm_compute; done). by rewrite Hr in Hn.
Defined.

Lemma free_refines_witness : exists s', qm_free 1028 two_blocks = Ret (tt, s') /\ wf s' 1004 [(16, true); (372, false)].
Proof.
  destruct (free_refines two_blocks 1004 [(16, true)] 32 [(340, false)] two_blocks_wf) as (s' & Hr & Hw & _).
  change (1004 + total [(16, true)] + 8) with 1028 in Hr. exists s'. split; [exact Hr|exact Hw].
Defined.

Lemma malloc_free_restores_witness :
  exists s' s'', qm_malloc 10 two_blocks = Ret (1060, s') /\ qm_free 1060 s' = Ret (tt, s'') /\ wf s'' 1004 [(16, true); (32, true); (340, false)].
Proof.
  assert (Hn : match qm_malloc 10 two_blocks with Ret (p, _) => p | _ => 0 end = 1060) by (vm_compute; done).
  destruct (qm_malloc 10 two_blocks) as [[p s']| |] eqn:Hr; [|discriminate Hn|discriminate Hn]. subst p.
  assert (H10 : is_u32 10) by (widths; lia). assert (Hp : 1060 <> 0) by lia.
  destruct (malloc_free_restores two_blocks 1004 _ 10 1060 s' two_blocks_wf H10 Hr Hp) as (s'' & Hf & Hw & _).
  exists s', s''. split; [reflexivity|]. split; [exact Hf|exact Hw].
Defined.

Lemma pool_runs_safe_witness :
  exists live s', (qm_heap_init 1001 400;; run [Alloc 10; Alloc 20; Poke 1 4 7; Release 0; Alloc 6; Alloc 1000] []) (area 1001 400) = Ret (live, s') /\ separate live s'.
Proof.
  apply (pool_runs_safe (area 1001 400) 1001 400); [lia|lia|simpl; lia|simpl; lia|]. repeat constructor; by compute.
Defined.

Lemma pool_drains_witness :
  exists s', (qm_heap_init 1001 400;; run [Alloc 10; Alloc 20; Alloc 30; Release 1; Release 0; Release 0] []) (area 1001 400) = Ret ([], s') /\ xFreeBytesRemaining s' = 388.
Proof.
  set (m := (qm_heap_init 1001 400;; run _ []) (area 1001 400)).
  assert (Hn : match m with Ret (live, _) => live = [] | _ => False end) by (vm_compute; done).
  destruct m as [[live s']| |] eqn:Hr; [|destruct Hn|destruct Hn]. subst live. exists s'. split; [reflexivity|].
  assert (Hos : List.Forall op_ok [Alloc 10; Alloc 20; Alloc 30; Release 1; Release 0; Release 0]) by (repeat constructor; by compute).
  destruct (pool_drains (area 1001 400) 1001 400 _ s' ltac:(lia) ltac:(lia) ltac:(simpl; lia) ltac:(simpl; lia) Hos Hr) as [_ Hx]. exact Hx.
Defined.

(** The product of [qm_calloc] is reduced modulo 2^32: a request of 4 GiB and 16 bytes is
    served with 16 bytes. *)
Theorem calloc_wraps :
  match qm_calloc (2 ^ 30 + 4) 4 two_blocks with
  | Ret (p, s') => p = 1060 /\ words s' 1056 = 24 + USED
  | _ => False
  end.
Proof. vm_compute. done. Qed.

(** An area smaller than a link: the end mark is written before it. *)
Theorem small_area_out_of_bounds : qm_heap_init 1000 7 (area 1000 7) = OutOfBounds.
Proof. vm_compute. done. Qed.
End Memory.
