(* ===== verification/Heap.v ===== *)
(** * The heap (include/qmos/qm_kernel.h: qm_malloc and qm_free)

    Components whose buffers come and go run in a state monad over a heap of byte
    blocks.  Accesses outside a block, through NULL or into a freed block, and
    freeing what is not allocated, are [OutOfBounds].  The allocator is a class: it
    hands out unused 32-bit addresses, and as long as fewer than [capacity] blocks
    are in use it does not fail. *)

From S2P Require Import Prelude Outcome.
Import list_relations.list list_basics.list.

Module Heap.

Abbreviation heap := (gmap Z (list Z)).

Class Allocator := {
  alloc : heap -> Z -> option Z;
  capacity : nat;
  alloc_fresh h n a : alloc h n = Some a -> h !! a = None;
  alloc_range h n a : alloc h n = Some a -> 0 < a < 2 ^ 32;
  alloc_room h n : (size h < capacity)%nat -> is_Some (alloc h n)
}.

Definition M (A : Type) : Type := heap -> outcome (A * heap).

#[global] Instance M_ret : MRet M := fun A a h => Ret (a, h).
#[global] Instance M_bind : MBind M := fun A B k m h =>
  match m h with Ret (a, h1) => k a h1 | OutOfBounds => OutOfBounds | NoFuel => NoFuel end.

(** An access that does not exist. *)
Definition crash {A} : M A := fun _ => OutOfBounds.
Definition out_of_fuel {A} : M A := fun _ => NoFuel.

Section ops.
Context {A : Allocator}.

(** malloc followed by memset(0); NULL is 0. *)
Definition zalloc (n : Z) : M Z := fun h =>
  match alloc h n with
  | None => Ret (0, h)
  | Some a => Ret (a, <[a := replicate (Z.to_nat n) 0]> h)
  end.

Definition qm_free (a : Z) : M unit := fun h =>
  if a =? 0 then Ret (tt, h)
  else match h !! a with
       | Some _ => Ret (tt, delete a h)
       | None => OutOfBounds
       end.

(** [n] bytes at offset [off] of a block. *)
Definition slice (bs : list Z) (off n : Z) : option (list Z) :=
  if (0 <=? off) && (0 <=? n) && (off + n <=? Z.of_nat (length bs))
  then Some (take (Z.to_nat n) (drop (Z.to_nat off) bs)) else None.

Definition splice (bs : list Z) (off : Z) (d : list Z) : option (list Z) :=
  if (0 <=? off) && (off + Z.of_nat (length d) <=? Z.of_nat (length bs))
  then Some (take (Z.to_nat off) bs ++ d ++ drop (Z.to_nat off + length d) bs) else None.

(** A copy of no byte touches no memory. *)
Definition load (a off n : Z) : M (list Z) := fun h =>
  if n =? 0 then Ret ([], h)
  else match h !! a ≫= (fun bs => slice bs off n) with
       | Some d => Ret (d, h)
       | None => OutOfBounds
       end.

Definition store (a off : Z) (d : list Z) : M unit := fun h =>
  match d with
  | [] => Ret (tt, h)
  | _ => match h !! a ≫= (fun bs => splice bs off d) with
         | Some bs => Ret (tt, <[a := bs]> h)
         | None => OutOfBounds
         end
  end.
End ops.

(** ** Lemmas *)

Lemma heap_bind_step {A B} (m : M A) (k : A -> M B) h a h1 : m h = Ret (a, h1) -> (m ≫= k) h = k a h1.
Proof. intros Hm. unfold mbind, M_bind. by rewrite Hm. Qed.

Lemma heap_slice_app pre d post : slice (pre ++ d ++ post) (Z.of_nat (length pre)) (Z.of_nat (length d)) = Some d.
Proof.
  unfold slice. rewrite !length_app, (proj2 (Z.leb_le _ _)), (proj2 (Z.leb_le 0 (Z.of_nat (length d)))), (proj2 (Z.leb_le _ _)) by lia.
  simpl. by rewrite !Nat2Z.id, drop_app_length, take_app_length.
Qed.

Lemma splice_app pre old d post : length old = length d ->
  splice (pre ++ old ++ post) (Z.of_nat (length pre)) d = Some (pre ++ d ++ post).
Proof.
  intros Ho. unfold splice. rewrite !length_app, Ho, (proj2 (Z.leb_le _ _)), (proj2 (Z.leb_le _ _)) by lia.
  simpl. by rewrite Nat2Z.id, take_app_length, <- Ho, drop_app_add, drop_app_length.
Qed.

Lemma heap_slice_inv bs off n d : slice bs off n = Some d -> 0 <= off /\ 0 <= n /\ off + n <= Z.of_nat (length bs) /\ length d = Z.to_nat n.
Proof.
  unfold slice. destruct (Z.leb_spec 0 off), (Z.leb_spec 0 n), (Z.leb_spec (off + n) (Z.of_nat (length bs))); try done.
  simpl. intros [= <-]. rewrite length_take, length_drop. lia.
Qed.

Section specs.
Context {A : Allocator}.

Lemma zalloc_some h n : (size h < capacity)%nat -> exists a, 0 < a < 2 ^ 32 /\ h !! a = None /\ zalloc n h = Ret (a, <[a := replicate (Z.to_nat n) 0]> h).
Proof.
  intros Hc. destruct (alloc_room h n Hc) as [a Ha]. exists a. split; [by apply (alloc_range h n)|].
  split; [by apply (alloc_fresh h n)|]. unfold zalloc. by rewrite Ha.
Qed.

Lemma zalloc_cases h n :
  zalloc n h = Ret (0, h) \/ exists a, 0 < a < 2 ^ 32 /\ h !! a = None /\ zalloc n h = Ret (a, <[a := replicate (Z.to_nat n) 0]> h).
Proof.
  unfold zalloc. destruct (alloc h n) as [a|] eqn:Ha; [right|by left].
  exists a. split; [by apply (alloc_range h n)|]. split; [by apply (alloc_fresh h n)|done].
Qed.

Lemma free_step h a bs : a <> 0 -> h !! a = Some bs -> qm_free a h = Ret (tt, delete a h).
Proof. intros Ha Hb. unfold qm_free. rewrite (proj2 (Z.eqb_neq _ _) Ha). by rewrite Hb. Qed.

Lemma load_step h a bs off n d : h !! a = Some bs -> slice bs off n = Some d -> load a off n h = Ret (d, h).
Proof.
  intros Hb Hs. unfold load. rewrite Hb. simpl. destruct (Z.eqb_spec n 0) as [->|]; [|by rewrite Hs].
  apply heap_slice_inv in Hs as (_ & _ & _ & Hd). by destruct d.
Qed.

Lemma store_step h a bs off d bs' : h !! a = Some bs -> splice bs off d = Some bs' -> store a off d h = Ret (tt, <[a := bs']> h).
Proof.
  intros Hb Hs. unfold store. destruct d as [|x d]; [|rewrite Hb; simpl; by rewrite Hs].
  rewrite insert_id; [done|]. rewrite Hb. f_equal. unfold splice in Hs.
  destruct (Z.leb_spec 0 off), (Z.leb_spec (off + Z.of_nat (length (@nil Z))) (Z.of_nat (length bs))); try done.
  simpl in Hs. injection Hs as <-. rewrite Nat.add_0_r. by rewrite take_drop.
Qed.

(** Writing a field into a block of known layout. *)
Lemma store_field h a pre old d post : h !! a = Some (pre ++ old ++ post) -> length old = length d ->
  store a (Z.of_nat (length pre)) d h = Ret (tt, <[a := pre ++ d ++ post]> h).
Proof. intros Hb Ho. eapply store_step; [done|]. by apply splice_app. Qed.

Lemma load_field h a pre d post : h !! a = Some (pre ++ d ++ post) ->
  load a (Z.of_nat (length pre)) (Z.of_nat (length d)) h = Ret (d, h).
Proof. intros Hb. eapply load_step; [done|]. apply heap_slice_app. Qed.
End specs.

(** ** An allocator with 4096 blocks *)

Fixpoint first_unused (n : nat) (a : Z) (h : heap) : option Z :=
  match n with
  | O => None
  | S n => match h !! a with None => Some a | Some _ => first_unused n (a + 256) h end
  end.

Lemma first_unused_spec n a h x : first_unused n a h = Some x -> h !! x = None /\ a <= x < a + 256 * Z.of_nat n.
Proof.
  revert a. induction n as [|n IH]; simpl; [done|]. intros a. destruct (h !! a) eqn:Ha.
  - intros Hx. destruct (IH _ Hx). split; [done|lia].
  - intros [= ->]. split; [done|lia].
Qed.

Lemma first_unused_none n a h : first_unused n a h = None -> (n <= size (filter (fun '(k, _) => (a <= k)%Z) h))%nat.
Proof.
  revert a. induction n as [|n IH]; simpl; [lia|]. intros a. destruct (h !! a) as [b|] eqn:Ha; [|done].
  intros Hx. apply IH in Hx. etrans; [apply le_n_S, Hx|].
  assert (Hs : <[a := b]> (filter (fun '(k, _) => a + 256 <= k) h) ⊆ filter (fun '(k, _) => a <= k) h).
  { apply map_subseteq_spec. intros k v. rewrite lookup_insert_Some, !map_lookup_filter_Some.
    intros [[<- <-]|[Hne [Hk Hle]]]; (split; [done|lia]). }
  apply map_subseteq_size in Hs. rewrite map_size_insert_None in Hs; [done|].
  apply map_lookup_filter_None. right. intros x _. lia.
Qed.

#[export] Program Instance table_allocator : Allocator := {
  alloc h n := first_unused 4096 256 h;
  capacity := 4096
}.
Next Obligation. intros h n a Ha. by apply first_unused_spec in Ha as [Ha _]. Qed.
Next Obligation. intros h n a Ha. apply first_unused_spec in Ha as [_ Ha]. lia. Qed.
Next Obligation.
  intros h n Hs. destruct (first_unused 4096 256 h) as [a|] eqn:Ha; [by exists a|].
  apply first_unused_none in Ha. pose proof (map_subseteq_size _ _ (map_filter_subseteq (fun '(k, _) => 256 <= k) h)). lia.
Qed.
End Heap.
