(* ===== verification/SpecApi.v ===== *)
(** * Device model: properties and property operations (components/qm_spec/src/qm_spec_api.c)

    A property carries a value of up to 7 bytes in itself and a longer one in a heap
    buffer; both share a union of 8 bytes whose first 4 are the pointer on the 32-bit
    targets.  A property operation is a list of properties with distinct service and
    property identifiers.  Nodes and buffers are allocated in the heap of Heap.v, so that
    leaks, double frees and dangling pointers are visible; the list of nodes is a list of
    records, each with the address of its node.  The JSON formats are enabled
    (CONFIG_CANCEL_QM_SPEC_CJSON_SUPPORT is not set), so a property has a device id. *)

From S2P Require Import Prelude Outcome Endian Heap.
Import list_relations.list list_basics.list Heap.
Open Scope Z_scope.

Module SpecApi.

Definition CONFIG_QM_SPEC_BUFF_SIZE : Z := 8.

(** qm_spec_property_format_t *)
Definition QM_SPEC_PROPERTY_FORMAT_BOOL : Z := 0.
Definition QM_SPEC_PROPERTY_FORMAT_INT8 : Z := 1.
Definition QM_SPEC_PROPERTY_FORMAT_UINT8 : Z := 2.
Definition QM_SPEC_PROPERTY_FORMAT_INT16 : Z := 3.
Definition QM_SPEC_PROPERTY_FORMAT_UINT16 : Z := 4.
Definition QM_SPEC_PROPERTY_FORMAT_INT32 : Z := 5.
Definition QM_SPEC_PROPERTY_FORMAT_UINT32 : Z := 6.
Definition QM_SPEC_PROPERTY_FORMAT_INT64 : Z := 7.
Definition QM_SPEC_PROPERTY_FORMAT_UINT64 : Z := 8.
Definition QM_SPEC_PROPERTY_FORMAT_FLOAT32 : Z := 9.
Definition QM_SPEC_PROPERTY_FORMAT_FLOAT64 : Z := 10.
Definition QM_SPEC_PROPERTY_FORMAT_STRING : Z := 11.
Definition QM_SPEC_PROPERTY_FORMAT_ARRAY : Z := 14.
Definition QM_SPEC_PROPERTY_FORMAT_FLOAT_ONE_UINT16 : Z := 15.
Definition QM_SPEC_PROPERTY_FORMAT_FLOAT_TWO_UINT16 : Z := 16.
Definition QM_SPEC_PROPERTY_FORMAT_FLOAT_ONE_UINT32 : Z := 17.
Definition QM_SPEC_PROPERTY_FORMAT_FLOAT_TWO_UINT32 : Z := 18.
Definition QM_SPEC_PROPERTY_FORMAT_FLOAT_ONE_INT16 : Z := 19.
Definition QM_SPEC_PROPERTY_FORMAT_FLOAT_TWO_INT16 : Z := 20.
Definition QM_SPEC_PROPERTY_FORMAT_FLOAT_ONE_INT32 : Z := 21.
Definition QM_SPEC_PROPERTY_FORMAT_FLOAT_TWO_INT32 : Z := 22.
Definition QM_SPEC_PROPERTY_FORMAT_GROUP : Z := 23.
Definition QM_SPEC_PROPERTY_FORMAT_STRING_ARRAY : Z := 24.
Definition QM_SPEC_PROPERTY_FORMAT_NUMBER : Z := 25.
Definition QM_SPEC_PROPERTY_FORMAT_NONE : Z := 255.

Record qm_spec_property_value_t := mk_value {
  len : Z;                 (* uint16_t *)
  property_format : Z;     (* uint8_t *)
  raw : list Z             (* the 8 bytes of the union *)
}.

Record qm_spec_property_t := mk_property {
  did : Z;                 (* uint32_t *)
  siid : Z;                (* uint8_t *)
  piid : Z;                (* uint16_t *)
  code : Z;                (* int8_t *)
  value : qm_spec_property_value_t;
  addr : Z                 (* the address of the node *)
}.

Record qm_spec_property_operation_t := mk_operation {
  element_num : Z;                       (* uint16_t *)
  property : list qm_spec_property_t;    (* along [next] *)
  op_addr : Z
}.

Definition sizeof_property : Z := 28.
Definition sizeof_operation : Z := 8.

(** The union read as a pointer. *)
Definition pdata (v : qm_spec_property_value_t) : Z := load_le (take 4 (raw v)).
Definition set_pdata (a : Z) (v : qm_spec_property_value_t) : qm_spec_property_value_t :=
  mk_value (len v) (property_format v) (store_le 4 a ++ drop 4 (raw v)).
Definition set_raw (l : list Z) (v : qm_spec_property_value_t) : qm_spec_property_value_t := mk_value (len v) (property_format v) l.
Definition set_len (n : Z) (v : qm_spec_property_value_t) : qm_spec_property_value_t := mk_value n (property_format v) (raw v).
Definition set_value (v : qm_spec_property_value_t) (p : qm_spec_property_t) : qm_spec_property_t :=
  mk_property (did p) (siid p) (piid p) (code p) v (addr p).
Definition set_format (f : Z) (p : qm_spec_property_t) : qm_spec_property_t :=
  set_value (mk_value (len (value p)) f (raw (value p))) p.
Definition set_ids (d s i : Z) (p : qm_spec_property_t) : qm_spec_property_t :=
  mk_property d s i (code p) (value p) (addr p).

(** A pointer to bytes: NULL, into memory that is only read here, or a heap block. *)
Inductive bytes_ptr :=
| Null
| Buf (mem : list Z) (off : Z)
| Cell (a : Z).

Definition ptr_of (a : Z) : bytes_ptr := if a =? 0 then Null else Cell a.

(** Reading [n] bytes behind a pointer. *)
Definition read_ptr (p : bytes_ptr) (n : Z) : M (list Z) :=
  if n =? 0 then mret []
  else match p with
       | Null => crash
       | Buf mem off => match slice mem off n with Some d => mret d | None => crash end
       | Cell a => load a 0 n
       end.

Section api.
Context {A : Allocator}.

(** ** Creation *)

Definition qm_spec_property_operation_creat : M (option qm_spec_property_operation_t) :=
  a ← zalloc sizeof_operation;
  mret (if a =? 0 then None else Some (mk_operation 0 [] a)).

Definition qm_spec_property_creat : M (option qm_spec_property_t) :=
  a ← zalloc sizeof_property;
  mret (if a =? 0 then None else Some (mk_property 0 0 0 0 (mk_value 0 0 (replicate 8 0)) a)).

(** ** Values *)

(** A value that was in the heap is released. *)
Definition release_pdata (v : qm_spec_property_value_t) : M qm_spec_property_value_t :=
  if len v >? CONFIG_QM_SPEC_BUFF_SIZE then
    if negb (pdata v =? 0) then qm_free (pdata v);; mret (set_pdata 0 v) else mret v
  else mret v.

(** memset of the 8 bytes followed by memcpy. *)
Definition fill_raw (d : list Z) : list Z := d ++ replicate (8 - length d) 0.

Definition qm_spec_property_pack_uint8 (p : option qm_spec_property_t) (x : Z) : M (Z * option qm_spec_property_t) :=
  match p with
  | None => mret (- QM_EINVAL, None)
  | Some p =>
      let p := set_format QM_SPEC_PROPERTY_FORMAT_UINT8 p in
      v ← release_pdata (value p);
      mret (QM_EOK, Some (set_value (set_len 1 (set_raw (<[0%nat := u8 x]> (raw v)) v)) p))
  end.

(** The common body of the 16-bit, 32-bit and float variants: [d] are the bytes in memory order. *)
Definition pack_scalar (format : Z) (p : option qm_spec_property_t) (d : list Z) : M (Z * option qm_spec_property_t) :=
  match p with
  | None => mret (- QM_EINVAL, None)
  | Some p =>
      let p := set_format format p in
      v ← release_pdata (value p);
      mret (QM_EOK, Some (set_value (set_len (Z.of_nat (length d)) (set_raw (fill_raw d) v)) p))
  end.

Definition qm_spec_property_pack_uint16 (p : option qm_spec_property_t) (x : Z) : M (Z * option qm_spec_property_t) :=
  pack_scalar QM_SPEC_PROPERTY_FORMAT_UINT16 p (store_le 2 (cpu_to_be16 (u16 x))).
Definition qm_spec_property_pack_uint32 (p : option qm_spec_property_t) (x : Z) : M (Z * option qm_spec_property_t) :=
  pack_scalar QM_SPEC_PROPERTY_FORMAT_UINT32 p (store_le 4 (cpu_to_be32 (u32 x))).
(** [bits] are those of the float; they are stored without a change of the byte order. *)
Definition qm_spec_property_pack_float32 (p : option qm_spec_property_t) (bits : Z) : M (Z * option qm_spec_property_t) :=
  pack_scalar QM_SPEC_PROPERTY_FORMAT_FLOAT32 p (store_le 4 (u32 bits)).

(** The variants that only change the format afterwards, without a check of the pointer. *)
Definition with_format (format : Z) (m : M (Z * option qm_spec_property_t)) : M (Z * option qm_spec_property_t) :=
  '(_, p) ← m;
  match p with
  | None => crash
  | Some p => mret (QM_EOK, Some (set_format format p))
  end.

Definition qm_spec_property_pack_int8 p x := with_format QM_SPEC_PROPERTY_FORMAT_INT8 (qm_spec_property_pack_uint8 p (u8 x)).
Definition qm_spec_property_pack_bool p x := with_format QM_SPEC_PROPERTY_FORMAT_BOOL (qm_spec_property_pack_uint8 p (u8 x)).
Definition qm_spec_property_pack_int16 p x := with_format QM_SPEC_PROPERTY_FORMAT_INT16 (qm_spec_property_pack_uint16 p (u16 x)).
Definition qm_spec_property_pack_int32 p x := with_format QM_SPEC_PROPERTY_FORMAT_INT32 (qm_spec_property_pack_uint32 p (u32 x)).
Definition qm_spec_property_pack_number p x := with_format QM_SPEC_PROPERTY_FORMAT_NUMBER (qm_spec_property_pack_int32 p x).

Definition qm_spec_property_pack_bytes (p : option qm_spec_property_t) (bytes : bytes_ptr) (size : Z) : M (Z * option qm_spec_property_t) :=
  match p, bytes with
  | None, _ | _, Null => mret (- QM_EINVAL, p)
  | Some q, _ =>
      if size =? 0 then mret (- QM_EINVAL, p)
      else
        v ← release_pdata (value q);
        if size <? CONFIG_QM_SPEC_BUFF_SIZE then
          d ← read_ptr bytes size;
          mret (QM_EOK, Some (set_value (set_len (u16 size) (set_raw (fill_raw d) v)) q))
        else
          a ← zalloc (size + 1);
          if a =? 0 then mret (- QM_ENOMEM, Some (set_value (set_pdata 0 v) q))
          else
            d ← read_ptr bytes size;
            store a 0 d;;
            mret (QM_EOK, Some (set_value (set_len (u16 size) (set_pdata a v)) q))
  end.

Definition qm_spec_property_pack_string p str size := with_format QM_SPEC_PROPERTY_FORMAT_STRING (qm_spec_property_pack_bytes p str size).

(** Result and the value stored through the pointer. *)
Definition qm_spec_property_unpack_uint8 (p : option qm_spec_property_t) (value_null : bool) : Z * option Z :=
  match p with
  | Some p => if value_null then (- QM_EINVAL, None) else (QM_EOK, Some (u8 (raw (value p) !!! 0%nat)))
  | None => (- QM_EINVAL, None)
  end.
Definition qm_spec_property_unpack_bool := qm_spec_property_unpack_uint8.
Definition qm_spec_property_value_unpack_bool := qm_spec_property_unpack_uint8.
Definition qm_spec_property_unpack_int8 (p : option qm_spec_property_t) (value_null : bool) : Z * option Z :=
  let '(r, v) := qm_spec_property_unpack_uint8 p value_null in (r, i8 <$> v).

Definition qm_spec_property_unpack_uint16 (p : option qm_spec_property_t) (value_null : bool) : Z * option Z :=
  match p with
  | Some p => if value_null then (- QM_EINVAL, None) else (QM_EOK, Some (be16_to_cpu (load_le (take 2 (raw (value p))))))
  | None => (- QM_EINVAL, None)
  end.
Definition qm_spec_property_unpack_int16 (p : option qm_spec_property_t) (value_null : bool) : Z * option Z :=
  let '(r, v) := qm_spec_property_unpack_uint16 p value_null in (r, i16 <$> v).

Definition qm_spec_property_unpack_uint32 (p : option qm_spec_property_t) (value_null : bool) : Z * option Z :=
  match p with
  | Some p => if value_null then (- QM_EINVAL, None) else (QM_EOK, Some (be32_to_cpu (load_le (take 4 (raw (value p))))))
  | None => (- QM_EINVAL, None)
  end.
Definition qm_spec_property_unpack_int32 (p : option qm_spec_property_t) (value_null : bool) : Z * option Z :=
  let '(r, v) := qm_spec_property_unpack_uint32 p value_null in (r, i32 <$> v).
Definition qm_spec_property_unpack_number := qm_spec_property_unpack_int32.

Definition qm_spec_property_unpack_float32 (p : option qm_spec_property_t) (value_null : bool) : Z * option Z :=
  match p with
  | Some p => if value_null then (- QM_EINVAL, None) else (QM_EOK, Some (load_le (take 4 (raw (value p)))))
  | None => (- QM_EINVAL, None)
  end.

(** Result, the new value of [*size] (which is overwritten before it is compared), and
    the bytes copied to the caller. *)
Definition qm_spec_property_unpack_bytes (p : option qm_spec_property_t) (bytes_null size_null : bool) : M (Z * option Z * list Z) :=
  match p with
  | None => mret (- QM_EINVAL, None, [])
  | Some p =>
      if size_null then mret (- QM_EINVAL, None, [])
      else
        let v := value p in
        let size := len v in
        if bytes_null then mret (QM_EOK, Some size, [])
        else if size <? len v then mret (- QM_EINVAL, Some size, [])
        else
          d ← (if len v <=? CONFIG_QM_SPEC_BUFF_SIZE then read_ptr (Buf (raw v) 0) (len v) else read_ptr (ptr_of (pdata v)) (len v));
          mret (QM_EOK, Some size, d)
  end.

Definition qm_spec_property_unpack_string (p : option qm_spec_property_t) (str_null size_null : bool) : M (Z * option Z * list Z) :=
  match p with
  | None => mret (- QM_EINVAL, None, [])
  | Some p =>
      if size_null then mret (- QM_EINVAL, None, [])
      else
        let v := value p in
        let size := len v + 1 in
        if str_null then mret (QM_EOK, Some size, [])
        else if size <? len v + 1 then mret (- QM_EINVAL, Some size, [])
        else
          d ← (if len v <? CONFIG_QM_SPEC_BUFF_SIZE then read_ptr (Buf (raw v) 0) (len v) else read_ptr (ptr_of (pdata v)) (len v));
          mret (QM_EOK, Some size, d ++ [0])
  end.

(** The pointer and the size. *)
Definition direct (p : qm_spec_property_t) : bytes_ptr * Z :=
  let v := value p in
  (if len v <? CONFIG_QM_SPEC_BUFF_SIZE then Buf (raw v) 0 else ptr_of (pdata v), len v).

Definition qm_spec_property_unpack_bytes_direct (p : option qm_spec_property_t) (bytes_null size_null : bool) : Z * option (bytes_ptr * Z) :=
  match p with
  | None => (- QM_EINVAL, None)
  | Some p => if bytes_null || size_null then (- QM_EINVAL, None) else (QM_EOK, Some (direct p))
  end.
Definition qm_spec_property_unpack_string_direct := qm_spec_property_unpack_bytes_direct.

Definition qm_spec_property_pack_xiid (p : option qm_spec_property_t) (s i : Z) : Z * option qm_spec_property_t :=
  match p with
  | None => (- QM_EINVAL, None)
  | Some p => (QM_EOK, Some (set_ids (did p) (u8 s) (u16 i) p))
  end.

(** [*siid] and [*piid]; they are stored without a check of the pointers. *)
Definition qm_spec_property_unpack_xiid (p : option qm_spec_property_t) (siid_null piid_null : bool) : outcome (Z * option (Z * Z)) :=
  match p with
  | None => Ret (- QM_EINVAL, None)
  | Some p => if siid_null || piid_null then OutOfBounds else Ret (QM_EOK, Some (siid p, piid p))
  end.

Definition SPEC_REAL_TYPE_ID (type_id : Z) : Z := Z.land type_id 0x7F.

Definition qm_spec_property_data_format_len (format : Z) : Z :=
  let format := SPEC_REAL_TYPE_ID format in
  if format <=? QM_SPEC_PROPERTY_FORMAT_UINT8 then 1
  else if ((QM_SPEC_PROPERTY_FORMAT_INT16 <=? format) && (format <=? QM_SPEC_PROPERTY_FORMAT_UINT16))
       || ((QM_SPEC_PROPERTY_FORMAT_FLOAT_ONE_UINT16 <=? format) && (format <=? QM_SPEC_PROPERTY_FORMAT_FLOAT_TWO_UINT16))
       || ((QM_SPEC_PROPERTY_FORMAT_FLOAT_ONE_INT16 <=? format) && (format <=? QM_SPEC_PROPERTY_FORMAT_FLOAT_TWO_INT16)) then 2
  else if (format =? QM_SPEC_PROPERTY_FORMAT_NUMBER)
       || ((QM_SPEC_PROPERTY_FORMAT_INT32 <=? format) && (format <=? QM_SPEC_PROPERTY_FORMAT_UINT32))
       || ((QM_SPEC_PROPERTY_FORMAT_FLOAT_ONE_UINT32 <=? format) && (format <=? QM_SPEC_PROPERTY_FORMAT_FLOAT_TWO_UINT32))
       || ((QM_SPEC_PROPERTY_FORMAT_FLOAT_ONE_INT32 <=? format) && (format <=? QM_SPEC_PROPERTY_FORMAT_FLOAT_TWO_INT32)) then 4
  else if (QM_SPEC_PROPERTY_FORMAT_INT64 <=? format) && (format <=? QM_SPEC_PROPERTY_FORMAT_UINT64) then 8
  else if format =? QM_SPEC_PROPERTY_FORMAT_FLOAT32 then 4
  else if format =? QM_SPEC_PROPERTY_FORMAT_FLOAT64 then 8
  else if ((QM_SPEC_PROPERTY_FORMAT_STRING <=? format) && (format <=? QM_SPEC_PROPERTY_FORMAT_ARRAY))
       || ((QM_SPEC_PROPERTY_FORMAT_GROUP <=? format) && (format <=? QM_SPEC_PROPERTY_FORMAT_STRING_ARRAY)) then 0
  else -1.

(** ** Lists of properties *)

(** The property behind the one at the address, or the first one for NULL. *)
Fixpoint next_after (ps : list qm_spec_property_t) (a : Z) : option qm_spec_property_t :=
  match ps with
  | [] => None
  | p :: rest => if addr p =? a then head rest else next_after rest a
  end.

Definition qm_spec_property_next (op : option qm_spec_property_operation_t) (p : option Z) : option qm_spec_property_t :=
  match op with
  | None => None
  | Some o => match p with None => head (property o) | Some a => next_after (property o) a end
  end.

Definition same_ids (s i : Z) (p : qm_spec_property_t) : bool := (siid p =? s) && (piid p =? i).

(** The loop with [qm_spec_property_next]. *)
Fixpoint ids_in (ps : list qm_spec_property_t) (s i : Z) : bool :=
  match ps with
  | [] => false
  | p :: rest => if same_ids s i p then true else ids_in rest s i
  end.
Definition qm_spec_property_check (op : qm_spec_property_operation_t) (p : qm_spec_property_t) : bool := ids_in (property op) (siid p) (piid p).

Definition qm_spec_property_add (op : option qm_spec_property_operation_t) (p : option qm_spec_property_t) : Z * option qm_spec_property_operation_t :=
  match op, p with
  | Some o, Some p =>
      match property o with
      | [] => (QM_EOK, Some (mk_operation (u16 (element_num o + 1)) [p] (op_addr o)))
      | _ =>
          if qm_spec_property_check o p then (- QM_EINVAL, op)
          else (QM_EOK, Some (mk_operation (u16 (element_num o + 1)) (property o ++ [p]) (op_addr o)))
      end
  | _, _ => (- QM_EINVAL, op)
  end.

Fixpoint find_from (ps : list qm_spec_property_t) (s i : Z) (k : nat) : option (nat * qm_spec_property_t) :=
  match ps with
  | [] => None
  | p :: rest => if same_ids s i p then Some (k, p) else find_from rest s i (S k)
  end.

(** The position and the property. *)
Definition qm_spec_property_find (op : option qm_spec_property_operation_t) (s i : Z) : option (nat * qm_spec_property_t) :=
  match op with
  | None => None
  | Some o => find_from (property o) (u8 s) (u16 i) 0
  end.

Definition qm_spec_property_delete (p : option qm_spec_property_t) : M Z :=
  match p with
  | None => mret (- QM_EINVAL)
  | Some p =>
      (if len (value p) >? CONFIG_QM_SPEC_BUFF_SIZE then qm_free (pdata (value p)) else mret tt);;
      qm_free (addr p);;
      mret QM_EOK
  end.

Fixpoint unlink (ps : list qm_spec_property_t) (a : Z) : option (qm_spec_property_t * list qm_spec_property_t) :=
  match ps with
  | [] => None
  | p :: rest => if addr p =? a then Some (p, rest) else '(q, ps') ← unlink rest a; Some (q, p :: ps')
  end.

Definition qm_spec_property_remove (op : option qm_spec_property_operation_t) (p : option Z) : M (Z * option qm_spec_property_operation_t) :=
  match op, p with
  | Some o, Some a =>
      match unlink (property o) a with
      | Some (q, ps) =>
          qm_spec_property_delete (Some q);;
          mret (QM_EOK, Some (mk_operation (u16 (element_num o - 1)) ps (op_addr o)))
      | None => mret (QM_EOK, op)
      end
  | _, _ => mret (- QM_EINVAL, op)
  end.

Fixpoint delete_loop (ps : list qm_spec_property_t) : M unit :=
  match ps with
  | [] => mret tt
  | p :: rest =>
      (if len (value p) >? CONFIG_QM_SPEC_BUFF_SIZE then qm_free (pdata (value p)) else mret tt);;
      qm_free (addr p);;
      delete_loop rest
  end.

Definition qm_spec_property_operation_delete (op : option qm_spec_property_operation_t) : M Z :=
  match op with
  | None => mret (- QM_EINVAL)
  | Some o => delete_loop (property o);; qm_free (op_addr o);; mret QM_EOK
  end.

(** The results of [qm_spec_property_pack_bytes] are ignored. *)
Definition qm_spec_property_copy (dst src : option qm_spec_property_t) : M (Z * option qm_spec_property_t) :=
  match dst, src with
  | Some d, Some s =>
      let d := set_format (property_format (value s)) (set_ids (did s) (siid s) (piid s) d) in
      let '(dest_bytes, dest_size) := direct d in
      let '(src_bytes, src_size) := direct s in
      if dest_size =? src_size then
        x ← read_ptr dest_bytes dest_size;
        y ← read_ptr src_bytes dest_size;
        if bool_decide (x = y) then mret (QM_EOK, Some d)
        else '(_, d) ← qm_spec_property_pack_bytes (Some d) src_bytes src_size; mret (QM_EOK, d)
      else '(_, d) ← qm_spec_property_pack_bytes (Some d) src_bytes src_size; mret (QM_EOK, d)
  | _, _ => mret (- QM_EINVAL, dst)
  end.

Definition put_property (o : qm_spec_property_operation_t) (k : nat) (p : qm_spec_property_t) : qm_spec_property_operation_t :=
  mk_operation (element_num o) (<[k := p]> (property o)) (op_addr o).

Fixpoint merge_loop (dst : qm_spec_property_operation_t) (src : list qm_spec_property_t) : M (Z * qm_spec_property_operation_t) :=
  match src with
  | [] => mret (QM_EOK, dst)
  | p :: rest =>
      match qm_spec_property_find (Some dst) (siid p) (piid p) with
      | Some (k, q) =>
          '(ret, q') ← qm_spec_property_copy (Some q) (Some p);
          let dst := put_property dst k (default q q') in
          if negb (ret =? QM_EOK) then mret (ret, dst) else merge_loop dst rest
      | None =>
          q ← qm_spec_property_creat;
          match q with
          | None => mret (- QM_ENOMEM, dst)
          | Some q =>
              '(ret, q') ← qm_spec_property_copy (Some q) (Some p);
              if negb (ret =? QM_EOK) then mret (ret, dst)
              else
                let '(ret, dst') := qm_spec_property_add (Some dst) q' in
                let dst := default dst dst' in
                if negb (ret =? QM_EOK) then mret (ret, dst) else merge_loop dst rest
          end
      end
  end.

Definition qm_spec_property_operation_merge (dst src : option qm_spec_property_operation_t) : M (Z * option qm_spec_property_operation_t) :=
  match dst, src with
  | Some d, Some s => '(ret, d) ← merge_loop d (property s); mret (ret, Some d)
  | _, _ => mret (- QM_EINVAL, dst)
  end.
End api.

(** ** Values and what they own

    The length 8 is excluded: the source treats it once as a heap value and once as an
    inline one (see [eight_bytes_are_lost] below). *)

Definition long (v : qm_spec_property_value_t) : bool := CONFIG_QM_SPEC_BUFF_SIZE <? len v.

Record value_wf (h : heap) (v : qm_spec_property_value_t) : Prop := {
  vw_len : 0 <= len v < 2 ^ 16 /\ len v <> CONFIG_QM_SPEC_BUFF_SIZE;
  vw_raw : length (raw v) = 8%nat /\ List.Forall is_u8 (raw v);
  vw_buf : long v = true -> pdata v <> 0 /\ exists d, h !! pdata v = Some (d ++ [0]) /\ Z.of_nat (length d) = len v /\ List.Forall is_u8 d
}.

(** The bytes of a value. *)
Definition data (h : heap) (v : qm_spec_property_value_t) : list Z :=
  take (Z.to_nat (len v)) (if long v then default [] (h !! pdata v) else raw v).

(** The heap blocks of a value and of a property. *)
Definition bufs (v : qm_spec_property_value_t) : list Z := if long v then [pdata v] else [].
Definition foot (p : qm_spec_property_t) : list Z := addr p :: bufs (value p).
Definition feet (ps : list qm_spec_property_t) : list Z := ps ≫= foot.

(** Frees the blocks of a list. *)
Definition dispose (l : list Z) (h : heap) : heap := foldr delete h l.

Lemma long_spec v : len v <> CONFIG_QM_SPEC_BUFF_SIZE ->
  (len v >? CONFIG_QM_SPEC_BUFF_SIZE) = long v /\ (len v <? CONFIG_QM_SPEC_BUFF_SIZE) = negb (long v) /\ (len v <=? CONFIG_QM_SPEC_BUFF_SIZE) = negb (long v).
Proof.
  intros Hl. unfold long, CONFIG_QM_SPEC_BUFF_SIZE in *.
  destruct (Z.gtb_spec (len v) 8), (Z.ltb_spec (len v) 8), (Z.leb_spec (len v) 8), (Z.ltb_spec 8 (len v)); try done; lia.
Qed.

Lemma store_le_u8 n z : List.Forall is_u8 (store_le n z).
Proof. revert z. induction n as [|n IH]; intros z; simpl; constructor; [widths; zsolve|apply IH]. Qed.

Section values.
Context {A : Allocator}.

(** The heap without the buffer of a value. *)
Definition released (h : heap) (v : qm_spec_property_value_t) : heap := dispose (bufs v) h.

Lemma release_spec h v : value_wf h v -> exists r, release_pdata v h = Ret (set_raw r v, released h v) /\ length r = 8%nat /\ List.Forall is_u8 r.
Proof.
  intros [[_ Hl] [Hr Hu] Hb]. unfold release_pdata, released, bufs. destruct (long_spec v Hl) as (-> & _ & _). destruct (long v) eqn:Hlong.
  - destruct (Hb eq_refl) as (Hp & d & Hd & _). rewrite (proj2 (Z.eqb_neq _ _) Hp). simpl. rewrite (heap_bind_step _ _ _ _ _ (free_step h _ _ Hp Hd)).
    exists (store_le 4 0 ++ drop 4 (raw v)). split; [done|]. split; [rewrite length_app, length_drop, store_le_length; lia|].
    apply Forall_app. split; [apply (store_le_u8 4)|by apply Forall_drop].
  - exists (raw v). split; [by destruct v|done].
Qed.

Lemma fill_raw_ok d : (length d <= 8)%nat -> List.Forall is_u8 d -> length (fill_raw d) = 8%nat /\ List.Forall is_u8 (fill_raw d).
Proof.
  intros Hd Hu. unfold fill_raw. split; [rewrite length_app, length_replicate; lia|]. apply Forall_app. split; [done|]. apply Forall_replicate. widths. lia.
Qed.

Lemma read_ptr_mono p n h d h2 : read_ptr p n h = Ret (d, h) -> h ⊆ h2 -> read_ptr p n h2 = Ret (d, h2).
Proof.
  unfold read_ptr. destruct (n =? 0) eqn:Hn; [intros Hx _; injection Hx as <-; reflexivity|]. destruct p as [|mem off|a]; [done| |].
  - destruct (slice mem off n); [|done]. intros Hx _. injection Hx as <-. reflexivity.
  - intros Hl Hs. unfold load in *. rewrite Hn in *. destruct (h !! a) as [bs|] eqn:Hb; [|done]. simpl in Hl.
    rewrite (lookup_weaken _ _ _ _ Hb Hs). simpl. destruct (slice bs 0 n); [|done]. by injection Hl as ->.
Qed.

Lemma read_ptr_length p n h d : read_ptr p n h = Ret (d, h) -> 0 <= n -> length d = Z.to_nat n.
Proof.
  unfold read_ptr. destruct (Z.eqb_spec n 0) as [->|Hn]; [intros [= <-] _; done|]. intros Hr H0. destruct p as [|mem off|a]; [done| |].
  - destruct (slice mem off n) eqn:Hs; [|done]. injection Hr as <-. by apply heap_slice_inv in Hs as (_ & _ & _ & Hs).
  - unfold load in Hr. rewrite (proj2 (Z.eqb_neq _ _) Hn) in Hr. destruct (h !! a ≫= _) as [d'|] eqn:Hs; [|done]. injection Hr as <-.
    destruct (h !! a); [|done]. by apply heap_slice_inv in Hs as (_ & _ & _ & Hs).
Qed.

Lemma set_pdata_ok a v : 0 < a < 2 ^ 32 -> length (raw v) = 8%nat -> List.Forall is_u8 (raw v) ->
  pdata (set_pdata a v) = a /\ length (raw (set_pdata a v)) = 8%nat /\ List.Forall is_u8 (raw (set_pdata a v)).
Proof.
  intros Ha Hl Hu. unfold pdata, set_pdata. cbn [raw]. split_and!.
  - rewrite take_app_le by (rewrite store_le_length; lia). rewrite take_ge by (rewrite store_le_length; lia). apply load_store_le. lia.
  - rewrite length_app, store_le_length, length_drop. lia.
  - apply Forall_app. split; [apply (store_le_u8 4)|by apply Forall_drop].
Qed.
End values.

Section packing.
Context {A : Allocator}.

Lemma data_inline h v d : (length d < 8)%nat -> len v = Z.of_nat (length d) -> raw v = fill_raw d -> long v = false /\ data h v = d.
Proof.
  intros Hd Hl Hr. assert (long v = false) as Hlong by (unfold long, CONFIG_QM_SPEC_BUFF_SIZE; apply Z.ltb_ge; lia).
  split; [done|]. unfold data. rewrite Hlong, Hr, Hl. unfold fill_raw. by rewrite Nat2Z.id, take_app_length.
Qed.

Lemma data_buffer h v d : long v = true -> h !! pdata v = Some (d ++ [0]) -> len v = Z.of_nat (length d) -> data h v = d.
Proof. intros Hlong Hd Hl. unfold data. rewrite Hlong, Hd, Hl. simpl. by rewrite Nat2Z.id, take_app_length. Qed.

(** What a value looks like after [d] was stored into it. *)
Definition stores (h : heap) (v : qm_spec_property_value_t) (d : list Z) (v' : qm_spec_property_value_t) (h' : heap) : Prop :=
  value_wf h' v' /\ data h' v' = d /\ len v' = Z.of_nat (length d) /\ property_format v' = property_format v /\
  ((bufs v' = [] /\ h' = released h v) \/
   exists a, bufs v' = [a] /\ released h v !! a = None /\ h' = <[a := d ++ [0]]> (released h v)).

Lemma store_all h a n d : h !! a = Some (replicate (S n) 0) -> length d = n -> store a 0 d h = Ret (tt, <[a := d ++ [0]]> h).
Proof.
  intros Ha <-. apply (store_field h a [] (replicate (length d) 0) d [0]); [|by rewrite length_replicate].
  rewrite Ha. f_equal. simpl. by rewrite <- (replicate_S_end (length d)).
Qed.

(** The value a property gets: inline or in a new block. *)
Definition place_bytes (v : qm_spec_property_value_t) (bytes : bytes_ptr) (size : Z) : M (Z * qm_spec_property_value_t) :=
  if size <? CONFIG_QM_SPEC_BUFF_SIZE then
    d ← read_ptr bytes size;
    mret (QM_EOK, set_len (u16 size) (set_raw (fill_raw d) v))
  else
    a ← zalloc (size + 1);
    if a =? 0 then mret (- QM_ENOMEM, set_pdata 0 v)
    else d ← read_ptr bytes size; store a 0 d;; mret (QM_EOK, set_len (u16 size) (set_pdata a v)).

Lemma pack_bytes_place h p bytes size v h1 : bytes <> Null -> size <> 0 -> release_pdata (value p) h = Ret (v, h1) ->
  qm_spec_property_pack_bytes (Some p) bytes size h = ('(r, v') ← place_bytes v bytes size; mret (r, Some (set_value v' p))) h1.
Proof.
  intros Hb Hs Hr. unfold qm_spec_property_pack_bytes, place_bytes.
  destruct bytes as [|mem off|b]; [done| |]; rewrite (proj2 (Z.eqb_neq _ _) Hs), (heap_bind_step _ _ _ _ _ Hr); (destruct (size <? _);
    [unfold mbind, M_bind; by destruct (read_ptr _ _ _) as [[d h2]| |]|]; unfold mbind, M_bind; destruct (zalloc _ _) as [[a h2]| |]; try done;
    destruct (a =? 0); [done|]; destruct (read_ptr _ _ _) as [[d h3]| |]; try done; by destruct (store _ _ _ _) as [[? h4]| |]).
Qed.

Lemma place_short h v bytes d : read_ptr bytes (Z.of_nat (length d)) h = Ret (d, h) -> (0 < length d < 8)%nat -> List.Forall is_u8 d ->
  exists v', place_bytes v bytes (Z.of_nat (length d)) h = Ret ((QM_EOK, v'), h) /\ value_wf h v' /\ data h v' = d /\ len v' = Z.of_nat (length d) /\ property_format v' = property_format v /\ bufs v' = [].
Proof.
  intros Hr Hd Hu. unfold place_bytes, CONFIG_QM_SPEC_BUFF_SIZE. rewrite (proj2 (Z.ltb_lt _ _)) by lia. rewrite (heap_bind_step _ _ _ _ _ Hr), u16_id by (widths; lia).
  eexists. split; [done|]. set (v' := set_len _ _). destruct (data_inline h v' d) as [Hlong Hdata]; [lia|done|done|]. destruct (fill_raw_ok d); [lia|done|].
  split_and!; try done; [|unfold bufs; by rewrite Hlong]. split; [unfold CONFIG_QM_SPEC_BUFF_SIZE; simpl; lia|done|by rewrite Hlong].
Qed.

Lemma place_long h v bytes d : length (raw v) = 8%nat -> List.Forall is_u8 (raw v) -> read_ptr bytes (Z.of_nat (length d)) h = Ret (d, h) ->
  (8 < length d)%nat -> Z.of_nat (length d) < 2 ^ 16 -> List.Forall is_u8 d -> (size h < capacity)%nat ->
  exists v' a, place_bytes v bytes (Z.of_nat (length d)) h = Ret ((QM_EOK, v'), <[a := d ++ [0]]> h) /\ h !! a = None /\
    value_wf (<[a := d ++ [0]]> h) v' /\ data (<[a := d ++ [0]]> h) v' = d /\ len v' = Z.of_nat (length d) /\ property_format v' = property_format v /\ bufs v' = [a].
Proof.
  intros Hv8 Hvu Hr Hd Hn Hu Hc. unfold place_bytes, CONFIG_QM_SPEC_BUFF_SIZE. rewrite (proj2 (Z.ltb_ge _ _)) by lia.
  destruct (zalloc_some h (Z.of_nat (length d) + 1) Hc) as (a & Ha & Hfr & Hz). replace (Z.to_nat (Z.of_nat (length d) + 1)) with (S (length d)) in Hz by lia.
  rewrite (heap_bind_step _ _ _ _ _ Hz), (proj2 (Z.eqb_neq a 0)) by lia.
  rewrite (heap_bind_step _ _ _ _ _ (read_ptr_mono _ _ _ _ _ Hr (insert_subseteq _ _ _ Hfr))).
  rewrite (heap_bind_step _ _ _ _ _ (store_all _ a (length d) d (lookup_insert_eq _ _ _) eq_refl)), insert_insert_eq, u16_id by (widths; lia).
  destruct (set_pdata_ok a v) as (Hpd & Hp8 & Hpu); [done..|]. eexists _, a. split; [done|]. split; [done|]. set (v' := set_len _ _).
  assert (Hlong : long v' = true) by (unfold long, CONFIG_QM_SPEC_BUFF_SIZE; simpl; apply Z.ltb_lt; lia). assert (Hpv : pdata v' = a) by done.
  assert (Hbuf : <[a := d ++ [0]]> h !! pdata v' = Some (d ++ [0])) by (rewrite Hpv; apply lookup_insert_eq).
  split_and!; try done; [|by apply (data_buffer _ _ d)|unfold bufs; by rewrite Hlong, Hpv].
  split; [unfold CONFIG_QM_SPEC_BUFF_SIZE; simpl; lia|done|]. intros _. split; [rewrite Hpv; lia|by exists d].
Qed.

(** Storing bytes into a property. *)
Lemma property_pack_bytes_spec h p bytes d : value_wf h (value p) -> bytes <> Null -> read_ptr bytes (Z.of_nat (length d)) (released h (value p)) = Ret (d, released h (value p)) ->
  0 < Z.of_nat (length d) < 2 ^ 16 -> length d <> 8%nat -> List.Forall is_u8 d -> (size h < capacity)%nat ->
  exists v' h', qm_spec_property_pack_bytes (Some p) bytes (Z.of_nat (length d)) h = Ret ((QM_EOK, Some (set_value v' p)), h') /\ stores h (value p) d v' h'.
Proof.
  intros Hw Hb Hr Hn H8 Hu Hc. destruct (release_spec h _ Hw) as (r & Hrel & Hr8 & Hru). rewrite (pack_bytes_place _ _ bytes (Z.of_nat (length d)) _ _ Hb ltac:(lia) Hrel).
  assert (size (released h (value p)) <= size h)%nat as Hs1. { unfold released, dispose, bufs. destruct (long (value p)); [|done]. apply map_subseteq_size, delete_subseteq. }
  destruct (decide (length d < 8)%nat).
  - destruct (place_short _ (set_raw r (value p)) bytes d Hr) as (v' & Hp & Hw' & Hd & Hl & Hf & Hbu); [lia|done|].
    rewrite (heap_bind_step _ _ _ _ _ Hp). eexists v', _. split; [done|]. split_and!; try done. by left.
  - destruct (place_long _ (set_raw r (value p)) bytes d Hr8 Hru Hr) as (v' & a & Hp & Hfr & Hw' & Hd & Hl & Hf & Hbu); [lia|lia|done|lia|].
    rewrite (heap_bind_step _ _ _ _ _ Hp). eexists v', _. split; [done|]. split_and!; try done. right. by exists a.
Qed.
End packing.

(** ** Property operations *)

Definition ids (p : qm_spec_property_t) : Z * Z := (siid p, piid p).
Definition entry (h : heap) (p : qm_spec_property_t) : Z * Z * (Z * list Z) := (ids p, (property_format (value p), data h (value p))).
Definition contents (h : heap) (o : qm_spec_property_operation_t) : gmap (Z * Z) (Z * list Z) := list_to_map (entry h <$> property o).

Record prop_wf (h : heap) (p : qm_spec_property_t) : Prop := {
  pw_value : value_wf h (value p);
  pw_addr : addr p <> 0 /\ is_Some (h !! addr p);
  pw_ids : is_u8 (siid p) /\ is_u16 (piid p)
}.

Definition op_foot (o : qm_spec_property_operation_t) : list Z := op_addr o :: feet (property o).

Record op_wf (h : heap) (o : qm_spec_property_operation_t) : Prop := {
  ow_num : element_num o = Z.of_nat (length (property o)) /\ element_num o < 2 ^ 16;
  ow_props : List.Forall (prop_wf h) (property o);
  ow_ids : base.NoDup (ids <$> property o);
  ow_foot : base.NoDup (op_foot o);
  ow_addr : op_addr o <> 0 /\ is_Some (h !! op_addr o)
}.

(** The blocks [l] are exchanged for [l']; new ones were unused, dropped ones are free. *)
Record reown (h : heap) (l : list Z) (h' : heap) (l' : list Z) : Prop := {
  ro_same : forall a, a ∉ l -> a ∉ l' -> h' !! a = h !! a;
  ro_new : forall a, a ∈ l' -> a ∈ l \/ h !! a = None;
  ro_gone : forall a, a ∈ l -> a ∉ l' -> h' !! a = None;
  ro_size : (size h' <= size h + 1)%nat;
  ro_nodup : base.NoDup l'
}.

(** *** Heap lemmas *)

Lemma dispose_out l h a : a ∉ l -> dispose l h !! a = h !! a.
Proof.
  induction l as [|b l IH]; intros Ha; [done|]. apply not_elem_of_cons in Ha as [Hne Ha]. simpl. rewrite lookup_delete_ne by congruence. by apply IH.
Qed.

Lemma dispose_in l h a : a ∈ l -> dispose l h !! a = None.
Proof.
  induction l as [|b l IH]; intros Ha; [by apply elem_of_nil in Ha|]. simpl. destruct (decide (b = a)) as [->|Hne]; [apply lookup_delete_eq|].
  rewrite lookup_delete_ne by done. apply IH. by apply elem_of_cons in Ha as [?|?].
Qed.

Lemma dispose_delete l a h : delete a (dispose l h) = dispose l (delete a h).
Proof. induction l as [|b l IH]; [done|]. simpl. rewrite delete_delete. by rewrite IH. Qed.

Lemma dispose_app l1 l2 h : dispose l2 (dispose l1 h) = dispose (l1 ++ l2) h.
Proof.
  induction l1 as [|a l1 IH]; [done|]. simpl. rewrite <- IH. by rewrite <- dispose_delete.
Qed.

Lemma bufs_wf h v a : value_wf h v -> a ∈ bufs v -> is_Some (h !! a) /\ a <> 0.
Proof.
  intros [_ _ Hb]. unfold bufs. destruct (long v); [|by intros ?%elem_of_nil]. intros ->%list_elem_of_singleton.
  destruct (Hb eq_refl) as (Hp & d & Hd & _). split; [by exists (d ++ [0])|done].
Qed.

Lemma value_wf_frame h h' v : (forall a, a ∈ bufs v -> h' !! a = h !! a) -> value_wf h v -> value_wf h' v /\ data h' v = data h v.
Proof.
  intros Hf [Hl Hr Hb]. split.
  - split; [done|done|]. intros Hlong. destruct (Hb Hlong) as (Hp & d & Hd & He). split; [done|]. exists d. split; [|done].
    rewrite Hf; [done|]. unfold bufs. rewrite Hlong. by apply list_elem_of_singleton.
  - unfold data. destruct (long v) eqn:Hlong; [|done]. rewrite Hf; [done|]. unfold bufs. rewrite Hlong. by apply list_elem_of_singleton.
Qed.

Lemma prop_wf_frame h h' p : (forall a, a ∈ foot p -> h' !! a = h !! a) -> prop_wf h p -> prop_wf h' p /\ entry h' p = entry h p.
Proof.
  intros Hf [Hv [Ha Hs] Hi]. destruct (value_wf_frame h h' (value p)) as [Hv' Hd]; [intros a Hin; apply Hf; by right|done|].
  split; [split; [done| |done]|unfold entry; by rewrite Hd]. split; [done|]. rewrite Hf; [done|]. by left.
Qed.

Lemma foot_wf h p a : prop_wf h p -> a ∈ foot p -> is_Some (h !! a) /\ a <> 0.
Proof. intros [Hv Ha _] [->|Hin]%elem_of_cons; [by destruct Ha|]. by apply (bufs_wf h (value p)). Qed.

Lemma feet_in ps a : a ∈ feet ps <-> exists p, p ∈ ps /\ a ∈ foot p.
Proof. unfold feet. rewrite list_elem_of_bind. split; intros (p & H1 & H2); exists p; done. Qed.

Lemma feet_wf h ps a : List.Forall (prop_wf h) ps -> a ∈ feet ps -> is_Some (h !! a) /\ a <> 0.
Proof. intros Hp (p & Hin & Ha)%feet_in. rewrite Forall_forall in Hp. by apply (foot_wf h p); [apply Hp|]. Qed.

Lemma props_frame h h' ps : (forall a, a ∈ feet ps -> h' !! a = h !! a) -> List.Forall (prop_wf h) ps ->
  List.Forall (prop_wf h') ps /\ entry h' <$> ps = entry h <$> ps.
Proof.
  intros Hf Hp. rewrite Forall_forall in *. split.
  - intros p Hin. apply (prop_wf_frame h); [|by apply Hp]. intros a Ha. apply Hf, feet_in. by exists p.
  - apply list_fmap_ext. intros i p Hi. assert (p ∈ ps) by (by eapply list_elem_of_lookup_2). apply (prop_wf_frame h); [|by apply Hp]. intros a Ha. apply Hf, feet_in. by exists p.
Qed.

Lemma op_wf_frame h h' o : (forall a, a ∈ op_foot o -> h' !! a = h !! a) -> op_wf h o -> op_wf h' o /\ contents h' o = contents h o.
Proof.
  intros Hf [Hn Hp Hi Hft [Ha Hs]]. destruct (props_frame h h' (property o)) as [Hp' He]; [intros a Hin; apply Hf; by right|done|].
  split; [split; try done; split; [done|]; rewrite Hf; [done|by left]|]. unfold contents. by rewrite He.
Qed.

#[global] Arguments dispose : simpl never.

Section operations.
Context {A : Allocator}.

(** *** Deletion *)

Lemma free_buf_spec h v : value_wf h v ->
  (if len v >? CONFIG_QM_SPEC_BUFF_SIZE then qm_free (pdata v) else mret tt) h = Ret (tt, dispose (bufs v) h).
Proof.
  intros [[_ Hl] _ Hb]. destruct (long_spec v Hl) as (-> & _ & _). unfold bufs. destruct (long v); [|done].
  destruct (Hb eq_refl) as (Hp & d & Hd & _). by rewrite (free_step h _ _ Hp Hd).
Qed.

Lemma delete_spec h p : prop_wf h p -> base.NoDup (foot p) -> qm_spec_property_delete (Some p) h = Ret (QM_EOK, dispose (foot p) h).
Proof.
  intros [Hv [Ha [b Hb]] _] [Hn _]%list.NoDup_cons. unfold qm_spec_property_delete. rewrite (heap_bind_step _ _ _ _ _ (free_buf_spec h _ Hv)).
  rewrite (heap_bind_step _ _ _ _ _ (free_step _ (addr p) b Ha ltac:(by rewrite dispose_out))). done.
Qed.

Lemma feet_cons p ps : feet (p :: ps) = foot p ++ feet ps.
Proof. done. Qed.
Lemma feet_app l r : feet (l ++ r) = feet l ++ feet r.
Proof. apply bind_app. Qed.

Lemma delete_loop_spec ps : forall h, List.Forall (prop_wf h) ps -> base.NoDup (feet ps) -> delete_loop ps h = Ret (tt, dispose (feet ps) h).
Proof.
  induction ps as [|p ps IH]; intros h Hp Hn; [done|]. apply list.Forall_cons in Hp as [Hp Hps]. rewrite feet_cons in Hn. apply list.NoDup_app in Hn as (Hn1 & Hd & Hn2).
  simpl delete_loop. destruct Hp as [Hv [Ha [b Hb]] Hi]. rewrite (heap_bind_step _ _ _ _ _ (free_buf_spec h _ Hv)).
  apply list.NoDup_cons in Hn1 as [Hna _]. rewrite (heap_bind_step _ _ _ _ _ (free_step _ (addr p) b Ha ltac:(by rewrite dispose_out))).
  change (delete (addr p) (dispose (bufs (value p)) h)) with (dispose (foot p) h). rewrite IH, feet_cons, dispose_app; [done| |done].
  apply (props_frame h); [|done]. intros a Hin. apply dispose_out. intros Hx. by apply (Hd a).
Qed.

(** *** Search and insertion *)

Lemma same_ids_spec s i p : same_ids s i p = bool_decide (ids p = (s, i)).
Proof. unfold same_ids, ids. destruct (Z.eqb_spec (siid p) s), (Z.eqb_spec (piid p) i); simpl; symmetry; [apply bool_decide_eq_true|..|apply bool_decide_eq_false]; try apply bool_decide_eq_false; congruence. Qed.

Lemma ids_in_spec ps s i : ids_in ps s i = bool_decide ((s, i) ∈ ids <$> ps).
Proof.
  induction ps as [|p ps IH]; [done|]. simpl. rewrite same_ids_spec, IH. destruct (decide (ids p = (s, i))) as [H1|H1]; [rewrite (bool_decide_true _ H1)|rewrite (bool_decide_false _ H1)].
  - symmetry. apply bool_decide_eq_true. rewrite H1. by left.
  - apply bool_decide_ext. rewrite elem_of_cons. split; [by right|]. by intros [?|?].
Qed.

Lemma property_find_from_spec ps s i k :
  match find_from ps s i k with
  | Some (j, p) => (k <= j)%nat /\ ps !! (j - k)%nat = Some p /\ ids p = (s, i)
  | None => (s, i) ∉ ids <$> ps
  end.
Proof.
  revert k. induction ps as [|p ps IH]; intros k; simpl; [by intros ?%elem_of_nil|]. rewrite same_ids_spec. case_bool_decide as H1; [by rewrite Nat.sub_diag|].
  specialize (IH (S k)). destruct (find_from ps s i (S k)) as [[j q]|].
  - destruct IH as (Hj & Hl & Hi). split; [lia|]. replace (j - k)%nat with (S (j - S k)) by lia. done.
  - rewrite not_elem_of_cons. split; [congruence|done].
Qed.

(** The property found is the one with these identifiers. *)
Lemma find_spec o s i : is_u8 s -> is_u16 i ->
  match qm_spec_property_find (Some o) s i with
  | Some (k, p) => property o !! k = Some p /\ ids p = (s, i)
  | None => (s, i) ∉ ids <$> property o
  end.
Proof.
  intros Hs Hi. unfold qm_spec_property_find. rewrite u8_id, u16_id by done. pose proof (property_find_from_spec (property o) s i 0) as Hf.
  destruct (find_from (property o) s i 0) as [[k p]|]; [|done]. rewrite Nat.sub_0_r in Hf. by destruct Hf as (_ & ? & ?).
Qed.

Lemma property_add_eq o p : qm_spec_property_add (Some o) (Some p) =
  if bool_decide (ids p ∈ ids <$> property o) then (- QM_EINVAL, Some o)
  else (QM_EOK, Some (mk_operation (u16 (element_num o + 1)) (property o ++ [p]) (op_addr o))).
Proof.
  unfold qm_spec_property_add, qm_spec_property_check. rewrite ids_in_spec. by destruct (property o).
Qed.

Lemma contents_snoc h o n p : ids p ∉ ids <$> property o ->
  contents h (mk_operation n (property o ++ [p]) (op_addr o)) = <[ids p := (property_format (value p), data h (value p))]> (contents h o).
Proof.
  intros Hn. unfold contents. simpl. rewrite fmap_app. change (entry h <$> [p]) with [(ids p, (property_format (value p), data h (value p)))]. rewrite list_to_map_snoc; [done|]. rewrite <- list_fmap_compose. exact Hn.
Qed.

Lemma property_add_wf h o p : op_wf h o -> prop_wf h p -> base.NoDup (foot p) -> (forall a, a ∈ foot p -> a ∉ op_foot o) -> ids p ∉ ids <$> property o -> element_num o + 1 < 2 ^ 16 ->
  op_wf h (mk_operation (u16 (element_num o + 1)) (property o ++ [p]) (op_addr o)).
Proof.
  intros [[Hn Hn2] Hp Hi Hft Ha] Hw Hnd Hdis Hid Hlt. split; simpl.
  - rewrite u16_id by (widths; lia). rewrite length_app. simpl. lia.
  - apply Forall_app. split; [done|]. by constructor.
  - rewrite fmap_app. apply list.NoDup_app. split; [done|]. split; [|apply NoDup_singleton]. intros x Hx Hx2%list_elem_of_singleton. by subst x.
  - unfold op_foot in *. simpl in *. rewrite feet_app. apply list.NoDup_cons in Hft as [Hft1 Hft2]. apply list.NoDup_cons.
    change (feet [p]) with (foot p ++ []). rewrite app_nil_r. rewrite elem_of_app. split.
    + intros [?|Hx]; [done|]. apply (Hdis _ Hx). by left.
    + apply list.NoDup_app. split; [done|]. split; [|done]. intros a Ha1 Ha2. apply (Hdis _ Ha2). by right.
  - done.
Qed.

(** *** Removal *)

Lemma property_unlink_spec ps a :
  match unlink ps a with
  | Some (q, ps') => exists l r, ps = l ++ q :: r /\ ps' = l ++ r /\ addr q = a
  | None => a ∉ addr <$> ps
  end.
Proof.
  induction ps as [|p ps IH]; simpl; [by intros ?%elem_of_nil|]. destruct (Z.eqb_spec (addr p) a) as [He|Hne]; [by exists [], ps|].
  destruct (unlink ps a) as [[q ps']|]; simpl.
  - destruct IH as (l & r & -> & -> & Ha). by exists (p :: l), r.
  - rewrite not_elem_of_cons. split; [congruence|done].
Qed.

Lemma remove_wf h o l q r : op_wf h o -> property o = l ++ q :: r ->
  let o' := mk_operation (u16 (element_num o - 1)) (l ++ r) (op_addr o) in
  op_wf (dispose (foot q) h) o' /\ contents (dispose (foot q) h) o' = delete (ids q) (contents h o).
Proof.
  intros [[Hn Hn2] Hp Hi Hft [Ha Hs]] Ho o'. rewrite Ho in *. apply Forall_app in Hp as [Hpl [Hpq Hpr]%list.Forall_cons].
  unfold op_foot in Hft. rewrite Ho, feet_app, feet_cons in Hft. apply list.NoDup_cons in Hft as [Hf1 Hft]. rewrite !elem_of_app in Hf1.
  apply list.NoDup_app in Hft as (Hnl & Hdl & Hft). apply list.NoDup_app in Hft as (Hnq & Hdq & Hnr).
  assert (Hout : forall a, a ∈ feet (l ++ r) -> a ∉ foot q).
  { intros a. rewrite feet_app, elem_of_app. intros [Hx|Hx] Hq; [apply (Hdl a Hx); rewrite elem_of_app; by left|by apply (Hdq a Hq)]. }
  destruct (props_frame h (dispose (foot q) h) (l ++ r)) as [Hp' He]; [intros a Hx; apply dispose_out; by apply Hout|by apply Forall_app|].
  rewrite fmap_app, fmap_cons in Hi. apply list.NoDup_app in Hi as (Hil & Hid & [Hiq Hir]%list.NoDup_cons). split.
  - rewrite length_app in Hn. simpl in Hn. split; simpl.
    + rewrite u16_id by (widths; lia). rewrite length_app. lia.
    + done.
    + rewrite fmap_app. apply list.NoDup_app. split; [done|]. split; [|done]. intros x Hx Hx2. apply (Hid x Hx). by right.
    + unfold op_foot. simpl. rewrite feet_app. apply list.NoDup_cons. rewrite elem_of_app. split; [tauto|]. apply list.NoDup_app. split; [done|]. split; [|done].
      intros x Hx Hx2. apply (Hdl x Hx). rewrite elem_of_app. by right.
    + split; [done|]. rewrite dispose_out; [done|]. tauto.
  - unfold contents, o'. simpl. rewrite He, Ho, !fmap_app, fmap_cons. rewrite !list_to_map_app. simpl.
    rewrite delete_union, delete_insert_id, delete_id; [done| |]; apply not_elem_of_list_to_map; rewrite <- list_fmap_compose; [|done].
    intros Hx. apply (Hid (ids q) Hx). by left.
Qed.

(** *** Copies *)

Lemma data_length h v : value_wf h v -> Z.of_nat (length (data h v)) = len v.
Proof.
  intros [[Hl Hl8] [Hr _] Hb]. unfold data. destruct (long v) eqn:Hlong.
  - destruct (Hb eq_refl) as (_ & d & -> & Hd & _). simpl. rewrite length_take, length_app. simpl. lia.
  - rewrite length_take, Hr. unfold long, CONFIG_QM_SPEC_BUFF_SIZE in *. apply Z.ltb_ge in Hlong. lia.
Qed.

Lemma data_u8 h v : value_wf h v -> List.Forall is_u8 (data h v).
Proof.
  intros [[Hl Hl8] [Hr Hu] Hb]. unfold data. destruct (long v) eqn:Hlong; [|by apply Forall_take].
  destruct (Hb eq_refl) as (_ & d & -> & Hd & Hdu). simpl. rewrite take_app_le by lia. by apply Forall_take.
Qed.

Lemma read_direct h p : value_wf h (value p) -> (direct p).1 <> Null /\ read_ptr (direct p).1 (len (value p)) h = Ret (data h (value p), h).
Proof.
  intros [[Hl Hl8] [Hr _] Hb]. unfold direct. cbn [fst]. destruct (long_spec _ Hl8) as (_ & -> & _). unfold read_ptr, data. destruct (long (value p)) eqn:Hlong; simpl.
  - destruct (Hb eq_refl) as (Hp & d & Hd & Hlen & _). unfold ptr_of. rewrite (proj2 (Z.eqb_neq _ _) Hp). split; [done|]. rewrite Hd. simpl. rewrite take_app_le, take_ge by lia.
    destruct (Z.eqb_spec (len (value p)) 0) as [H0|]; [unfold long, CONFIG_QM_SPEC_BUFF_SIZE in Hlong; apply Z.ltb_lt in Hlong; lia|]. rewrite <- Hlen. apply (load_field h (pdata (value p)) [] d [0]). by rewrite Hd.
  - split; [done|]. destruct (Z.eqb_spec (len (value p)) 0) as [->|]; [reflexivity|]. unfold slice, long, CONFIG_QM_SPEC_BUFF_SIZE in *. apply Z.ltb_ge in Hlong.
    rewrite Hr, (proj2 (Z.leb_le 0 (len (value p)))), (proj2 (Z.leb_le (0 + _) _)) by lia. reflexivity.
Qed.

Lemma bufs_released h v v0 : (forall a, a ∈ bufs v0 -> a ∉ bufs v) -> forall a, a ∈ bufs v0 -> released h v !! a = h !! a.
Proof. intros Hd a Ha. apply dispose_out. by apply Hd. Qed.

Lemma stores_reown h v d v' h' : stores h v d v' h' -> reown h (bufs v) h' (bufs v').
Proof.
  intros (_ & _ & _ & _ & Hc). assert (Hsz : (size (released h v) <= size h)%nat).
  { unfold released, bufs. destruct (long v); [|done]. apply map_subseteq_size, delete_subseteq. }
  destruct Hc as [[-> ->]|(a & -> & Hfr & ->)].
  - split; [intros a H1 _; by apply dispose_out|by intros a ?%elem_of_nil|intros a H1 _; by apply dispose_in|lia|constructor].
  - split.
    + intros b H1 H2. rewrite list_elem_of_singleton in H2. rewrite lookup_insert_ne by congruence. by apply dispose_out.
    + intros b ->%list_elem_of_singleton. destruct (decide (a ∈ bufs v)) as [Hin|Hin]; [by left|right]. unfold released in Hfr. by rewrite dispose_out in Hfr.
    + intros b H1 H2. rewrite list_elem_of_singleton in H2. rewrite lookup_insert_ne by congruence. by apply dispose_in.
    + rewrite map_size_insert_None by done. lia.
    + apply NoDup_singleton.
Qed.

Lemma reown_refl h l : base.NoDup l -> reown h l h l.
Proof. intros Hn. split; [done|by left|done|lia|done]. Qed.

Lemma bufs_nodup v : base.NoDup (bufs v).
Proof. unfold bufs. destruct (long v); [apply NoDup_singleton|constructor]. Qed.

(** The copied property: identifiers, format and bytes of the source. *)
Lemma property_copy_spec h d s : value_wf h (value d) -> value_wf h (value s) -> (forall a, a ∈ bufs (value s) -> a ∉ bufs (value d)) -> 0 < len (value s) -> (size h < capacity)%nat ->
  exists v' h', qm_spec_property_copy (Some d) (Some s) h = Ret ((QM_EOK, Some (set_value v' (set_ids (did s) (siid s) (piid s) d))), h') /\
    value_wf h' v' /\ property_format v' = property_format (value s) /\ data h' v' = data h (value s) /\ reown h (bufs (value d)) h' (bufs v').
Proof.
  intros Hd Hs Hdis H0 Hc. unfold qm_spec_property_copy. set (d1 := set_format _ _). destruct (direct d1) as [db dn] eqn:Hdd. destruct (direct s) as [sb sn] eqn:Hsd.
  assert (Hd1 : value_wf h (value d1) /\ data h (value d1) = data h (value d) /\ bufs (value d1) = bufs (value d)).
  { destruct Hd as [H1 H2 H3]. split; [|done]. split; [exact H1|exact H2|exact H3]. }
  destruct Hd1 as (Hd1 & Hdat & Hbuf). destruct (read_direct h d1 Hd1) as [_ Hr1]. destruct (read_direct h s Hs) as [Hnn Hr2]. rewrite Hdd in Hr1. rewrite Hsd in Hr2, Hnn. simpl in Hr1, Hr2, Hnn.
  assert (dn = len (value d1)) as -> by (unfold direct in Hdd; by injection Hdd). assert (sn = len (value s)) as -> by (unfold direct in Hsd; by injection Hsd).
  assert (Hpack : exists v' h', qm_spec_property_pack_bytes (Some d1) sb (len (value s)) h = Ret ((QM_EOK, Some (set_value v' d1)), h') /\ stores h (value d1) (data h (value s)) v' h').
  { rewrite <- (data_length h _ Hs). pose proof (vw_len _ _ Hs) as [Hl1 Hl2]. unfold CONFIG_QM_SPEC_BUFF_SIZE in Hl2. apply property_pack_bytes_spec; try done; [|rewrite data_length by done; lia|rewrite <- Nat2Z.inj_iff, data_length by done; lia|by apply data_u8].
    rewrite (data_length h _ Hs). destruct (value_wf_frame h (released h (value d1)) (value s)) as [Hs' Hds]; [apply bufs_released; by rewrite Hbuf|done|].
    rewrite <- Hds. destruct (read_direct _ s Hs') as [_ Hr]. by rewrite Hsd in Hr. }
  destruct Hpack as (v' & h' & Hp & Hst). pose proof (stores_reown _ _ _ _ _ Hst) as Hro. rewrite Hbuf in Hro. destruct Hst as (Hw' & Hda & Hle & Hfo & _).
  destruct (len (value d1) =? len (value s)) eqn:Hlen.
  - rewrite (heap_bind_step _ _ _ _ _ Hr1). apply Z.eqb_eq in Hlen. rewrite Hlen, (heap_bind_step _ _ _ _ _ Hr2). case_bool_decide as Heq.
    + exists (value d1), h. split; [done|]. split; [done|]. split; [done|]. split; [by rewrite <- Heq|]. rewrite Hbuf. apply reown_refl, bufs_nodup.
    + rewrite (heap_bind_step _ _ _ _ _ Hp). by exists v', h'.
  - rewrite (heap_bind_step _ _ _ _ _ Hp). by exists v', h'.
Qed.

(** *** Merging *)

(** What is allocated elsewhere stays as it is. *)
Definition others_kept (h : heap) (o : qm_spec_property_operation_t) (h' : heap) (o' : qm_spec_property_operation_t) : Prop :=
  forall a, is_Some (h !! a) -> a ∉ op_foot o -> h' !! a = h !! a /\ a ∉ op_foot o'.

Lemma others_kept_trans h1 o1 h2 o2 h3 o3 : others_kept h1 o1 h2 o2 -> others_kept h2 o2 h3 o3 -> others_kept h1 o1 h3 o3.
Proof. intros H12 H23 a Ha Hn. destruct (H12 a Ha Hn) as [He Hn2]. rewrite <- He in Ha. destruct (H23 a Ha Hn2) as [He2 Hn3]. by rewrite He2. Qed.

Lemma contents_replace h h' o l q r q' : property o = l ++ q :: r -> base.NoDup (ids <$> property o) -> ids q' = ids q ->
  entry h' <$> l = entry h <$> l -> entry h' <$> r = entry h <$> r ->
  list_to_map (M := gmap (Z * Z) (Z * list Z)) (entry h' <$> (l ++ q' :: r)) = <[ids q := (property_format (value q'), data h' (value q'))]> (contents h o).
Proof.
  intros Ho Hn Hi Hl Hr. unfold contents. rewrite Ho in *. rewrite !fmap_app, !fmap_cons, Hl, Hr, !list_to_map_app. simpl. rewrite Hi.
  rewrite fmap_app, fmap_cons in Hn. apply list.NoDup_app in Hn as (_ & Hd & _).
  rewrite insert_union_r, insert_insert_eq; [done|]. apply not_elem_of_list_to_map. rewrite <- list_fmap_compose. intros Hx. apply (Hd (ids q) Hx). by left.
Qed.

(** The blocks of an operation besides the buffer of one property. *)
Definition rest_foot (o : qm_spec_property_operation_t) (l : list qm_spec_property_t) (q : qm_spec_property_t) (r : list qm_spec_property_t) : list Z :=
  op_addr o :: addr q :: feet (l ++ r).

Lemma op_foot_split o l q r : property o = l ++ q :: r -> op_foot o ≡ₚ bufs (value q) ++ rest_foot o l q r.
Proof.
  intros Ho. unfold op_foot, rest_foot. rewrite Ho, !feet_app, feet_cons. unfold foot. simpl.
  rewrite <- (Permutation_middle (bufs (value q)) (addr q :: feet l ++ feet r) (op_addr o)). apply Permutation_skip.
  rewrite <- (Permutation_middle (bufs (value q)) (feet l ++ feet r) (addr q)), <- (Permutation_middle (feet l) (bufs (value q) ++ feet r) (addr q)). apply Permutation_skip.
  rewrite !app_assoc. apply Permutation_app_tail, Permutation_app_comm.
Qed.

Lemma rest_foot_wf h o l q r a : op_wf h o -> property o = l ++ q :: r -> a ∈ rest_foot o l q r -> is_Some (h !! a) /\ a ∉ bufs (value q).
Proof.
  intros Hw Ho Ha. pose proof (ow_foot _ _ Hw) as Hn. rewrite (op_foot_split _ _ _ _ Ho) in Hn. apply list.NoDup_app in Hn as (_ & Hd & _).
  split; [|intros Hb; by apply (Hd a Hb)]. destruct Hw as [_ Hp _ _ [_ Hs]]. rewrite Ho in Hp. apply Forall_app in Hp as [Hpl [Hpq Hpr]%list.Forall_cons].
  unfold rest_foot in Ha. apply elem_of_cons in Ha as [->|Ha]; [done|]. apply elem_of_cons in Ha as [->|Ha]; [apply Hpq|]. apply (feet_wf h (l ++ r)); [by apply Forall_app|done].
Qed.

(** A property whose value was exchanged. *)
Lemma put_spec h h' o k q q' : op_wf h o -> property o !! k = Some q -> ids q' = ids q -> addr q' = addr q -> value_wf h' (value q') -> reown h (bufs (value q)) h' (bufs (value q')) ->
  op_wf h' (put_property o k q') /\ contents h' (put_property o k q') = <[ids q := (property_format (value q'), data h' (value q'))]> (contents h o) /\ others_kept h o h' (put_property o k q').
Proof.
  intros Hw Hk Hid Had Hv [R1 R2 R3 R4 R5]. apply list_elem_of_split_length in Hk as (l & r & Ho & Hlen).
  assert (Hput : property (put_property o k q') = l ++ q' :: r).
  { unfold put_property. simpl. rewrite Ho, insert_app_r_alt by lia. by rewrite Hlen, Nat.sub_diag. }
  pose proof (op_foot_split o l q r Ho) as Hof. pose proof (op_foot_split (put_property o k q') l q' r Hput) as Hof'. unfold rest_foot in Hof'. rewrite Had in Hof'. change (op_addr (put_property o k q')) with (op_addr o) in Hof'. fold (rest_foot o l q r) in Hof'.
  assert (Hnew : forall a, a ∈ rest_foot o l q r -> (a ∉ bufs (value q')) /\ h' !! a = h !! a).
  { intros a Hx. destruct (rest_foot_wf h o l q r a Hw Ho Hx) as [[b Hb] Hq].
    assert (Hnq : a ∉ bufs (value q')) by (intros Hx2; destruct (R2 a Hx2) as [?|Hx3]; [done|by rewrite Hb in Hx3]). split; [done|]. by apply R1. }
  destruct Hw as [[Hn Hn2] Hp Hi Hft [Ha Hs]]. rewrite Ho in Hp. apply Forall_app in Hp as [Hpl [Hpq Hpr]%list.Forall_cons].
  destruct (props_frame h h' l) as [Hpl' Hel]; [intros a Hx; apply Hnew; right; right; rewrite feet_app, elem_of_app; by left|done|].
  destruct (props_frame h h' r) as [Hpr' Her]; [intros a Hx; apply Hnew; right; right; rewrite feet_app, elem_of_app; by right|done|].
  split; [split|split].
  - unfold put_property. simpl. by rewrite length_insert.
  - rewrite Hput. apply Forall_app. split; [done|]. constructor; [|done]. destruct Hpq as [_ [Hq1 Hq2] Hq3]. split; [done| |unfold ids in Hid; injection Hid as -> ->; done].
    rewrite Had. split; [done|]. destruct (Hnew (addr q)) as [_ ->]; [right; by left|done].
  - rewrite Hput, fmap_app, fmap_cons, Hid. by rewrite Ho, fmap_app, fmap_cons in Hi.
  - rewrite Hof'. rewrite Hof in Hft. apply list.NoDup_app in Hft as (_ & _ & Hft). apply list.NoDup_app. split; [done|]. split; [|done].
    intros a Hx Hy. by apply (Hnew a Hy).
  - destruct (Hnew (op_addr o)) as [_ He]; [by left|]. simpl. by rewrite He.
  - unfold contents at 1. rewrite Hput. by apply (contents_replace h h' o l q r q').
  - intros a [b Hsb] Hx. rewrite Hof'. rewrite Hof in Hx. rewrite elem_of_app in *.
    assert (Hnb : a ∉ bufs (value q')) by (intros Hb; destruct (R2 a Hb) as [?|He]; [tauto|by rewrite Hsb in He]). split; [apply R1; tauto|tauto].
Qed.

(** A property in a new node, whose value was stored after the node was created. *)
Lemma fresh_add h o a bs h' q : op_wf h o -> h !! a = None -> a <> 0 -> addr q = a -> value_wf h' (value q) -> reown (<[a := bs]> h) [] h' (bufs (value q)) ->
  is_u8 (siid q) /\ is_u16 (piid q) -> ids q ∉ ids <$> property o -> element_num o + 1 < 2 ^ 16 ->
  exists o', qm_spec_property_add (Some o) (Some q) = (QM_EOK, Some o') /\ op_wf h' o' /\ others_kept h o h' o' /\ element_num o' = element_num o + 1 /\ (size h' <= size h + 2)%nat /\
    contents h' o' = <[ids q := (property_format (value q), data h' (value q))]> (contents h o) /\ ids <$> property o' = (ids <$> property o) ++ [ids q].
Proof.
  intros Hw Hfr Ha0 Haq Hv [R1 R2 R3 R4 R5] Hir Hid Hnum. set (h1 := <[a := bs]> h) in *.
  assert (Hh1 : forall b, is_Some (h !! b) -> h1 !! b = h !! b) by (intros b [x Hx]; unfold h1; rewrite lookup_insert_ne; [done|congruence]).
  assert (Hs1 : (size h1 <= size h + 1)%nat) by (unfold h1; rewrite map_size_insert_None by done; lia).
  assert (Hhk : forall b, is_Some (h !! b) -> (b ∉ bufs (value q)) /\ h' !! b = h !! b).
  { intros b Hb. assert (Hnb : b ∉ bufs (value q)) by (intros Hx; destruct (R2 b Hx) as [?%elem_of_nil|Hy]; [done|]; rewrite (Hh1 b Hb) in Hy; rewrite Hy in Hb; by destruct Hb).
    split; [done|]. rewrite R1; [by apply Hh1|by intros ?%elem_of_nil|done]. }
  assert (Hav : a ∉ bufs (value q)) by (intros Hx; destruct (R2 a Hx) as [?%elem_of_nil|Hy]; [done|]; unfold h1 in Hy; by rewrite lookup_insert_eq in Hy).
  assert (Hin : forall b, b ∈ op_foot o -> is_Some (h !! b)).
  { intros b [->|Hb]%elem_of_cons; [by apply Hw|]. by apply (feet_wf h (property o)); [apply Hw|]. }
  rewrite property_add_eq, bool_decide_false by done. eexists. split; [done|].
  destruct (op_wf_frame h h' o) as [Hw' Hco]; [intros b Hb; by apply Hhk, Hin|done|].
  assert (Hfresh : forall b, b ∈ foot q -> h !! b = None).
  { intros b [->|Hb]%elem_of_cons; [by rewrite Haq|]. destruct (h !! b) eqn:Hx; [|done]. exfalso. by apply (Hhk b). }
  assert (Hdis' : forall b, b ∈ foot q -> b ∉ op_foot o) by (intros b Hb Hx; destruct (Hin b Hx) as [x Hy]; by rewrite (Hfresh b Hb) in Hy).
  split; [|split; [|split; [|split; [|split]]]].
  - apply property_add_wf; try done; [|apply list.NoDup_cons; by rewrite Haq]. split; [done| |done]. rewrite Haq. split; [done|]. rewrite R1; [|by intros ?%elem_of_nil|done]. unfold h1. by rewrite lookup_insert_eq.
  - intros b Hb Hx. split; [by apply Hhk|]. unfold op_foot. simpl. rewrite feet_app. change (feet [q]) with (foot q ++ []). rewrite app_nil_r, elem_of_cons, elem_of_app.
    intros [->|[Hy|Hy]]; [apply Hx; by left|apply Hx; by right|]. rewrite (Hfresh b Hy) in Hb. by destruct Hb.
  - simpl. rewrite u16_id; [done|]. destruct (ow_num _ _ Hw). widths. lia.
  - lia.
  - rewrite contents_snoc by done. by rewrite Hco.
  - simpl. by rewrite fmap_app.
Qed.

Definition blank_property (a : Z) : qm_spec_property_t := mk_property 0 0 0 0 (mk_value 0 0 (replicate 8 0)) a.

Lemma creat_spec h : (size h < capacity)%nat -> exists a, let h1 := <[a := replicate (Z.to_nat sizeof_property) 0]> h in
  qm_spec_property_creat h = Ret (Some (blank_property a), h1) /\ h !! a = None /\ a <> 0 /\ value_wf h1 (value (blank_property a)) /\ (size h1 <= size h + 1)%nat /\
  (forall b, is_Some (h !! b) -> h1 !! b = h !! b).
Proof.
  intros Hc. destruct (zalloc_some h sizeof_property Hc) as (a & Ha & Hfr & Hz). exists a. unfold qm_spec_property_creat. rewrite (heap_bind_step _ _ _ _ _ Hz), (proj2 (Z.eqb_neq a 0)) by lia.
  split; [done|]. split; [done|]. split; [lia|]. split; [|split; [rewrite map_size_insert_None by done; lia|intros b [x Hx]; rewrite lookup_insert_ne; [done|congruence]]].
  assert (Hz8 : List.Forall is_u8 (replicate 8 0)) by (apply Forall_replicate; widths; lia). split; [unfold CONFIG_QM_SPEC_BUFF_SIZE; cbn; lia|split; [done|exact Hz8]|done].
Qed.

(** One round for a property that is not there yet. *)
Lemma append_spec h o p : op_wf h o -> prop_wf h p -> 0 < len (value p) -> ids p ∉ ids <$> property o ->
  element_num o + 1 < 2 ^ 16 -> (size h + 2 <= capacity)%nat ->
  exists q q' h1 h' o', qm_spec_property_creat h = Ret (Some q, h1) /\ qm_spec_property_copy (Some q) (Some p) h1 = Ret ((QM_EOK, Some q'), h') /\
    qm_spec_property_add (Some o) (Some q') = (QM_EOK, Some o') /\ op_wf h' o' /\ others_kept h o h' o' /\ element_num o' = element_num o + 1 /\ (size h' <= size h + 2)%nat /\
    contents h' o' = <[ids p := (property_format (value p), data h (value p))]> (contents h o).
Proof.
  intros Hw Hp Hlp Hid Hnum Hc. destruct (creat_spec h) as (a & Hcr & Hfr & Ha0 & Hq & Hs1 & Hh1); [lia|]. set (h1 := <[a := _]> h) in *.
  destruct (value_wf_frame h h1 (value p)) as [Hvp Hdp]; [intros b Hb; apply Hh1; by apply (bufs_wf h (value p)); [apply Hp|]|apply Hp|].
  destruct (property_copy_spec h1 (blank_property a) p Hq Hvp) as (v' & h' & Hcp & Hv' & Hf' & Hd' & Hro); [by intros b _ ?%elem_of_nil|done|lia|].
  set (q' := set_value v' (set_ids (did p) (siid p) (piid p) (blank_property a))) in *.
  destruct (fresh_add h o a (replicate (Z.to_nat sizeof_property) 0) h' q' Hw Hfr Ha0 eq_refl Hv' Hro (pw_ids _ _ Hp) Hid Hnum) as (o' & Had & Hw' & Hk & Hn & Hs & Hct & _).
  exists (blank_property a), q', h1, h', o'. split_and!; try done. rewrite Hct. simpl. by rewrite Hf', Hd', Hdp.
Qed.

Definition put_entry (h : heap) (m : gmap (Z * Z) (Z * list Z)) (p : qm_spec_property_t) : gmap (Z * Z) (Z * list Z) :=
  <[ids p := (property_format (value p), data h (value p))]> m.

Lemma property_merge_loop_spec src : forall h dst, op_wf h dst -> List.Forall (prop_wf h) src -> List.Forall (fun p => 0 < len (value p)) src ->
  (forall a, a ∈ feet src -> a ∉ op_foot dst) -> element_num dst + Z.of_nat (length src) < 2 ^ 16 -> (size h + 2 * length src <= capacity)%nat ->
  exists dst' h', merge_loop dst src h = Ret ((QM_EOK, dst'), h') /\ op_wf h' dst' /\ contents h' dst' = foldl (put_entry h) (contents h dst) src /\ others_kept h dst h' dst'.
Proof.
  induction src as [|p src IH]; intros h dst Hw Hp Hl Hdis Hnum Hc; simpl in Hnum, Hc; [exists dst, h; by split_and!|].
  apply list.Forall_cons in Hp as [Hp Hps], Hl as [Hlp Hls].
  assert (Hdp : forall a, a ∈ foot p -> a ∉ op_foot dst) by (intros a Ha; apply Hdis; rewrite feet_cons, elem_of_app; by left).
  assert (Hnext : forall h1 d1, op_wf h1 d1 -> others_kept h dst h1 d1 -> (size h1 <= size h + 2)%nat -> element_num d1 <= element_num dst + 1 ->
    contents h1 d1 = put_entry h (contents h dst) p ->
    exists dst' h', merge_loop d1 src h1 = Ret ((QM_EOK, dst'), h') /\ op_wf h' dst' /\ contents h' dst' = foldl (put_entry h) (contents h dst) (p :: src) /\ others_kept h dst h' dst').
  { intros h1 d1 Hw1 Hk1 Hs1 Hn1 Hc1. assert (Hfr : forall a, a ∈ feet src -> h1 !! a = h !! a /\ a ∉ op_foot d1).
    { intros a Ha. apply Hk1; [by apply (feet_wf h src)|]. apply Hdis. rewrite feet_cons, elem_of_app. by right. }
    destruct (props_frame h h1 src) as [Hps1 He]; [intros a Ha; by apply Hfr|done|].
    destruct (IH h1 d1 Hw1 Hps1 Hls) as (dst' & h' & Hr & Hw' & Hct & Hk); [intros a Ha; by apply Hfr|lia|lia|].
    exists dst', h'. split; [done|]. split; [done|]. split; [|by eapply others_kept_trans]. rewrite Hct, Hc1. simpl. clear -He. generalize (put_entry h (contents h dst) p).
    revert He. induction src as [|q src IH]; [done|]. intros [= He1 He2] m. simpl. rewrite IH by done. unfold put_entry at 2 4. by rewrite He1. }
  cbn [merge_loop]. destruct (pw_ids _ _ Hp) as [Hi1 Hi2]. pose proof (find_spec dst (siid p) (piid p) Hi1 Hi2) as Hf.
  destruct (qm_spec_property_find (Some dst) (siid p) (piid p)) as [[k q]|].
  - destruct Hf as [Hk Hid]. assert (Hq : prop_wf h q) by (pose proof (ow_props _ _ Hw) as Hx; rewrite Forall_forall in Hx; apply Hx; by eapply list_elem_of_lookup_2).
    destruct (property_copy_spec h q p) as (v' & h1 & Hcp & Hv' & Hf' & Hd' & Hro); [apply Hq|apply Hp| |done|lia|].
    { intros a Ha Hb. apply (Hdp a); [by right|]. right. apply feet_in. exists q. split; [by eapply list_elem_of_lookup_2|by right]. }
    rewrite (heap_bind_step _ _ _ _ _ Hcp). simpl. set (q' := set_value v' _).
    destruct (put_spec h h1 dst k q q' Hw Hk) as (Hw1 & Hct & Hkp); [by rewrite Hid|done|done|done|].
    apply Hnext; try done; [pose proof (ro_size _ _ _ _ Hro); lia|simpl; lia|]. rewrite Hct, Hid. unfold put_entry. simpl. by rewrite Hf', Hd'.
  - destruct (append_spec h dst p Hw Hp Hlp Hf) as (q & q' & h1 & h2 & o' & E1 & E2 & E3 & Hw' & Hk' & Hn' & Hs' & Hct'); [lia|lia|].
    rewrite (heap_bind_step _ _ _ _ _ E1), (heap_bind_step _ _ _ _ _ E2). cbv beta iota. rewrite E3. simpl. apply Hnext; try done. lia.
Qed.

Lemma foldl_put h src m : base.NoDup (ids <$> src) -> foldl (put_entry h) m src = list_to_map (entry h <$> src) ∪ m.
Proof.
  revert m. induction src as [|p src IH]; intros m Hn; simpl; [by rewrite (left_id_L ∅ (∪))|]. apply list.NoDup_cons in Hn as [Hn1 Hn2].
  rewrite IH by done. unfold put_entry. rewrite <- insert_union_r, insert_union_l; [done|]. apply not_elem_of_list_to_map. by rewrite <- list_fmap_compose.
Qed.

(** ** Theorems *)

(** C32: Merging gives the union of the two operations, in which the properties of the source
    win; the source and everything else in the heap is unchanged.  The values of the source are
    not empty ([copy_empty_keeps_bytes]), no value has eight bytes ([op_wf]), the operations
    share no memory, and the memory is enough. *)
Theorem operation_merge_refines h dst src : op_wf h dst -> op_wf h src -> List.Forall (fun p => 0 < len (value p)) (property src) ->
  (forall a, a ∈ op_foot src -> a ∉ op_foot dst) -> element_num dst + element_num src < 2 ^ 16 -> (size h + 2 * length (property src) <= capacity)%nat ->
  exists dst' h', qm_spec_property_operation_merge (Some dst) (Some src) h = Ret ((QM_EOK, Some dst'), h') /\
    op_wf h' dst' /\ contents h' dst' = contents h src ∪ contents h dst /\ op_wf h' src /\ contents h' src = contents h src /\ others_kept h dst h' dst'.
Proof.
  intros Hd Hs Hl Hdis Hnum Hc. destruct (property_merge_loop_spec (property src) h dst) as (dst' & h' & Hr & Hw & Hct & Hk); try done; [apply Hs|intros a Ha; apply Hdis; by right|destruct (ow_num _ _ Hs); lia|].
  exists dst', h'. unfold qm_spec_property_operation_merge. rewrite (heap_bind_step _ _ _ _ _ Hr). split; [done|]. split; [done|].
  split; [rewrite Hct; apply foldl_put, Hs|]. destruct (op_wf_frame h h' src) as [Hs' Hcs]; [|done|done]. intros a Ha. apply Hk; [|by apply Hdis].
  apply elem_of_cons in Ha as [->|Ha]; [apply Hs|]. by apply (feet_wf h (property src)); [apply Hs|].
Qed.

(** Deleting an operation frees its nodes and buffers, each once, and nothing else. *)
Theorem operation_delete_frees_all h o : op_wf h o ->
  qm_spec_property_operation_delete (Some o) h = Ret (QM_EOK, dispose (op_foot o) h).
Proof.
  intros [_ Hp _ Hft [Ha [b Hs]]]. apply list.NoDup_cons in Hft as [Hn Hft]. unfold qm_spec_property_operation_delete. rewrite (heap_bind_step _ _ _ _ _ (delete_loop_spec _ _ Hp Hft)).
  rewrite (heap_bind_step _ _ _ _ _ (free_step _ (op_addr o) b Ha ltac:(by rewrite dispose_out))). done.
Qed.

Lemma addr_nodup h o : op_wf h o -> base.NoDup (addr <$> property o).
Proof.
  intros Hw. pose proof (ow_foot _ _ Hw) as Hn. apply list.NoDup_cons in Hn as [_ Hn]. revert Hn. induction (property o) as [|p ps IH]; [constructor|].
  rewrite feet_cons, fmap_cons. intros (H1 & H2 & H3)%list.NoDup_app. apply list.NoDup_cons. split; [|by apply IH].
  intros (q & Hq & Hin)%list_elem_of_fmap. apply (H2 (addr p)); [by left|]. apply feet_in. exists q. split; [done|]. rewrite Hq. by left.
Qed.

(** Removing a property frees it and deletes it from the abstract map. *)
Theorem property_remove_refines h o p : op_wf h o -> p ∈ property o ->
  exists o', qm_spec_property_remove (Some o) (Some (addr p)) h = Ret ((QM_EOK, Some o'), dispose (foot p) h) /\
    op_wf (dispose (foot p) h) o' /\ contents (dispose (foot p) h) o' = delete (ids p) (contents h o).
Proof.
  intros Hw Hin. unfold qm_spec_property_remove. pose proof (property_unlink_spec (property o) (addr p)) as Hu. destruct (unlink (property o) (addr p)) as [[q ps]|].
  - destruct Hu as (l & r & Ho & -> & Hq). assert (q = p) as ->.
    { apply (NoDup_fmap_inj_elem addr (property o)); [by apply (addr_nodup h)|rewrite Ho, elem_of_app; right; by left|done|done]. }
    destruct (remove_wf h o l p r Hw Ho) as [Hw' Hc']. assert (Hd : qm_spec_property_delete (Some p) h = Ret (QM_EOK, dispose (foot p) h)).
    { apply delete_spec; [pose proof (ow_props _ _ Hw) as Hx; rewrite Forall_forall in Hx; by apply Hx|]. pose proof (ow_foot _ _ Hw) as Hn. unfold op_foot in Hn. rewrite Ho, feet_app, feet_cons in Hn.
      apply list.NoDup_cons in Hn as [_ Hn]. apply list.NoDup_app in Hn as (_ & _ & Hn). by apply list.NoDup_app in Hn as (Hn & _). }
    rewrite (heap_bind_step _ _ _ _ _ Hd). by eexists.
  - exfalso. apply Hu. apply list_elem_of_fmap. by exists p.
Qed.

Lemma pack_scalar_spec h p f d : value_wf h (value p) -> (length d < 8)%nat -> List.Forall is_u8 d ->
  exists p', pack_scalar f (Some p) d h = Ret ((QM_EOK, Some p'), released h (value p)) /\ property_format (value p') = f /\ len (value p') = Z.of_nat (length d) /\
    raw (value p') = fill_raw d /\ ids p' = ids p.
Proof.
  intros Hw Hd Hu. unfold pack_scalar. assert (Hw' : value_wf h (value (set_format f p))) by (destruct Hw as [W1 W2 W3]; split; [exact W1|exact W2|exact W3]).
  destruct (release_spec h _ Hw') as (r & Hr & _). rewrite (heap_bind_step _ _ _ _ _ Hr). by eexists.
Qed.

Lemma pack_uint8_spec h p x : value_wf h (value p) ->
  exists p', qm_spec_property_pack_uint8 (Some p) x h = Ret ((QM_EOK, Some p'), released h (value p)) /\ property_format (value p') = QM_SPEC_PROPERTY_FORMAT_UINT8 /\
    len (value p') = 1 /\ raw (value p') !!! 0%nat = u8 x /\ ids p' = ids p.
Proof.
  intros Hw. unfold qm_spec_property_pack_uint8. assert (Hw' : value_wf h (value (set_format QM_SPEC_PROPERTY_FORMAT_UINT8 p))) by (destruct Hw as [W1 W2 W3]; split; [exact W1|exact W2|exact W3]).
  destruct (release_spec h _ Hw') as (r & Hr & H8 & _). rewrite (heap_bind_step _ _ _ _ _ Hr). eexists. split_and!; try done. simpl. by destruct r.
Qed.

(** A value packed with [pack] is read back by [unpack], with the announced length. *)
Definition reads_back (h : heap) (p : qm_spec_property_t) (pack : option qm_spec_property_t -> Z -> M (Z * option qm_spec_property_t))
    (unpack : option qm_spec_property_t -> bool -> Z * option Z) (x : Z) : Prop :=
  exists p' h', pack (Some p) x h = Ret ((QM_EOK, Some p'), h') /\ unpack (Some p') false = (QM_EOK, Some x) /\
    qm_spec_property_data_format_len (property_format (value p')) = len (value p') /\ ids p' = ids p.

Lemma reads_back_format h p pack unpack f x n : (forall q g, unpack (Some (set_format g q)) false = unpack (Some q) false) ->
  qm_spec_property_data_format_len f = n ->
  (exists p' h', pack (Some p) x h = Ret ((QM_EOK, Some p'), h') /\ unpack (Some p') false = (QM_EOK, Some x) /\ len (value p') = n /\ ids p' = ids p) ->
  reads_back h p (fun q y => with_format f (pack q y)) unpack x.
Proof.
  intros Hun Hf (p' & h' & Hr & Hu & Hl & Hi). exists (set_format f p'), h'. unfold with_format. rewrite (heap_bind_step _ _ _ _ _ Hr). split; [done|]. split; [by rewrite Hun|]. split; [simpl; by rewrite Hl|done].
Qed.

Lemma uint8_back h p x : value_wf h (value p) ->
  exists p' h', qm_spec_property_pack_uint8 (Some p) x h = Ret ((QM_EOK, Some p'), h') /\ qm_spec_property_unpack_uint8 (Some p') false = (QM_EOK, Some (u8 x)) /\
    property_format (value p') = QM_SPEC_PROPERTY_FORMAT_UINT8 /\ len (value p') = 1 /\ ids p' = ids p.
Proof.
  intros Hw. destruct (pack_uint8_spec h p x Hw) as (p' & Hr & Hf & Hl & Hx & Hi). exists p', (released h (value p)). split_and!; try done.
  unfold qm_spec_property_unpack_uint8. rewrite Hx. do 2 f_equal. widths. zsolve.
Qed.

Lemma uint16_back h p x : value_wf h (value p) -> is_u16 x ->
  exists p' h', qm_spec_property_pack_uint16 (Some p) x h = Ret ((QM_EOK, Some p'), h') /\ qm_spec_property_unpack_uint16 (Some p') false = (QM_EOK, Some x) /\
    property_format (value p') = QM_SPEC_PROPERTY_FORMAT_UINT16 /\ len (value p') = 2 /\ ids p' = ids p.
Proof.
  intros Hw Hx. destruct (pack_scalar_spec h p QM_SPEC_PROPERTY_FORMAT_UINT16 (store_le 2 (cpu_to_be16 (u16 x))) Hw) as (p' & Hr & Hf & Hl & Hraw & Hi); [rewrite store_le_length; lia|apply store_le_u8|].
  exists p', (released h (value p)). split_and!; try done. unfold qm_spec_property_unpack_uint16. rewrite Hraw. unfold fill_raw. rewrite take_app_length'; [|by rewrite store_le_length].
  pose proof (swab16_range x). rewrite u16_id, load_store_le by (done || (widths; unfold cpu_to_be16; lia)). do 2 f_equal. by apply swab16_involutive.
Qed.

Lemma uint32_back h p x : value_wf h (value p) -> is_u32 x ->
  exists p' h', qm_spec_property_pack_uint32 (Some p) x h = Ret ((QM_EOK, Some p'), h') /\ qm_spec_property_unpack_uint32 (Some p') false = (QM_EOK, Some x) /\
    property_format (value p') = QM_SPEC_PROPERTY_FORMAT_UINT32 /\ len (value p') = 4 /\ ids p' = ids p.
Proof.
  intros Hw Hx. destruct (pack_scalar_spec h p QM_SPEC_PROPERTY_FORMAT_UINT32 (store_le 4 (cpu_to_be32 (u32 x))) Hw) as (p' & Hr & Hf & Hl & Hraw & Hi); [rewrite store_le_length; lia|apply store_le_u8|].
  exists p', (released h (value p)). split_and!; try done. unfold qm_spec_property_unpack_uint32. rewrite Hraw. unfold fill_raw. rewrite take_app_length'; [|by rewrite store_le_length].
  pose proof (swab32_range x). rewrite u32_id, load_store_le by (done || (widths; unfold cpu_to_be32; lia)). do 2 f_equal. by apply swab32_involutive.
Qed.

Lemma signed_back (w : Z) x c : 0 <= w -> - 2 ^ w <= x < 2 ^ w -> c = x mod (2 * 2 ^ w) -> (c + 2 ^ w) mod (2 * 2 ^ w) - 2 ^ w = x.
Proof.
  intros Hw Hx ->. rewrite Zplus_mod_idemp_l, Z.mod_small by lia. lia.
Qed.

Lemma int32_back h p x : value_wf h (value p) -> - 2 ^ 31 <= x < 2 ^ 31 ->
  exists p' h', qm_spec_property_pack_uint32 (Some p) (u32 x) h = Ret ((QM_EOK, Some p'), h') /\ qm_spec_property_unpack_int32 (Some p') false = (QM_EOK, Some x) /\
    len (value p') = 4 /\ ids p' = ids p.
Proof.
  intros Hw Hx. destruct (uint32_back h p (u32 x) Hw (u32_range x)) as (p' & h' & Hr & Hu & _ & Hl & Hi). exists p', h'. split_and!; try done.
  unfold qm_spec_property_unpack_int32. rewrite Hu. simpl. do 2 f_equal. apply (signed_back 31); [lia|done|done].
Qed.

(** Every scalar packed into a property is unpacked unchanged, and the length stored is
    the one announced for its format. *)
Theorem scalars_roundtrip h p : value_wf h (value p) ->
  (forall x, is_u8 x -> reads_back h p qm_spec_property_pack_uint8 qm_spec_property_unpack_uint8 x) /\
  (forall x, is_u8 x -> reads_back h p qm_spec_property_pack_bool qm_spec_property_unpack_bool x) /\
  (forall x, - 2 ^ 7 <= x < 2 ^ 7 -> reads_back h p qm_spec_property_pack_int8 qm_spec_property_unpack_int8 x) /\
  (forall x, is_u16 x -> reads_back h p qm_spec_property_pack_uint16 qm_spec_property_unpack_uint16 x) /\
  (forall x, - 2 ^ 15 <= x < 2 ^ 15 -> reads_back h p qm_spec_property_pack_int16 qm_spec_property_unpack_int16 x) /\
  (forall x, is_u32 x -> reads_back h p qm_spec_property_pack_uint32 qm_spec_property_unpack_uint32 x) /\
  (forall x, - 2 ^ 31 <= x < 2 ^ 31 -> reads_back h p qm_spec_property_pack_int32 qm_spec_property_unpack_int32 x) /\
  (forall x, - 2 ^ 31 <= x < 2 ^ 31 -> reads_back h p qm_spec_property_pack_number qm_spec_property_unpack_number x).
Proof.
  intros Hw.
  split_and!; intros x Hx.
  - destruct (uint8_back h p x Hw) as (p' & h' & Hr & Hu & Hf & Hl & Hi). exists p', h'. rewrite Hu, Hf, Hl, u8_id by done. done.
  - apply (reads_back_format h p (fun q y => qm_spec_property_pack_uint8 q (u8 y)) _ QM_SPEC_PROPERTY_FORMAT_BOOL x 1); [done|done|].
    destruct (uint8_back h p (u8 x) Hw) as (p' & h' & Hr & Hu & Hf & Hl & Hi). exists p', h'. cbv beta. split; [done|]. split; [|done].
    unfold qm_spec_property_unpack_bool. rewrite Hu. do 2 f_equal. by rewrite !u8_id by (rewrite ?u8_id; done).
  - apply (reads_back_format h p (fun q y => qm_spec_property_pack_uint8 q (u8 y)) _ QM_SPEC_PROPERTY_FORMAT_INT8 x 1); [done|done|].
    destruct (uint8_back h p (u8 x) Hw) as (p' & h' & Hr & Hu & _ & Hl & Hi). exists p', h'. split_and!; try done. unfold qm_spec_property_unpack_int8. rewrite Hu. simpl. do 2 f_equal.
    apply (signed_back 7); [lia|done|]. widths. by rewrite Zmod_mod.
  - destruct (uint16_back h p x Hw Hx) as (p' & h' & Hr & Hu & Hf & Hl & Hi). exists p', h'. by rewrite Hu, Hf, Hl.
  - apply (reads_back_format h p (fun q y => qm_spec_property_pack_uint16 q (u16 y)) _ QM_SPEC_PROPERTY_FORMAT_INT16 x 2); [done|done|].
    destruct (uint16_back h p (u16 x) Hw (u16_range x)) as (p' & h' & Hr & Hu & _ & Hl & Hi). exists p', h'. split_and!; try done. unfold qm_spec_property_unpack_int16. rewrite Hu. simpl. do 2 f_equal.
    apply (signed_back 15); [lia|done|done].
  - destruct (uint32_back h p x Hw Hx) as (p' & h' & Hr & Hu & Hf & Hl & Hi). exists p', h'. by rewrite Hu, Hf, Hl.
  - apply (reads_back_format h p (fun q y => qm_spec_property_pack_uint32 q (u32 y)) _ QM_SPEC_PROPERTY_FORMAT_INT32 x 4); [done|done|]. by apply int32_back.
  - apply (reads_back_format h p qm_spec_property_pack_int32 _ QM_SPEC_PROPERTY_FORMAT_NUMBER x 4); [done|done|].
    destruct (int32_back h p x Hw Hx) as (p' & h' & Hr & Hu & Hl & Hi). exists (set_format QM_SPEC_PROPERTY_FORMAT_INT32 p'), h'. split; [|done].
    unfold qm_spec_property_pack_int32, with_format. by rewrite (heap_bind_step _ _ _ _ _ Hr).
Qed.

(** A byte string of any length but 8, packed into a property, is unpacked unchanged, as
    bytes, as a string with its final zero, and through the direct pointer. *)
Theorem property_bytes_roundtrip h p mem off d : value_wf h (value p) -> slice mem off (Z.of_nat (length d)) = Some d ->
  0 < Z.of_nat (length d) < 2 ^ 16 -> length d <> 8%nat -> List.Forall is_u8 d -> (size h < capacity)%nat ->
  exists p' h', qm_spec_property_pack_bytes (Some p) (Buf mem off) (Z.of_nat (length d)) h = Ret ((QM_EOK, Some p'), h') /\
    qm_spec_property_unpack_bytes (Some p') false false h' = Ret ((QM_EOK, Some (Z.of_nat (length d)), d), h') /\
    qm_spec_property_unpack_string (Some p') false false h' = Ret ((QM_EOK, Some (Z.of_nat (length d) + 1), d ++ [0]), h') /\
    read_ptr (direct p').1 (len (value p')) h' = Ret (d, h').
Proof.
  intros Hw Hs Hn H8 Hu Hc. destruct (property_pack_bytes_spec h p (Buf mem off) d) as (v' & h' & Hr & Hst); try done.
  { unfold read_ptr. rewrite (proj2 (Z.eqb_neq _ _)) by lia. by rewrite Hs. }
  destruct Hst as (Hw' & Hd & Hl & _). exists (set_value v' p), h'. split; [done|]. destruct (read_direct h' (set_value v' p) Hw') as [_ Hrd]. simpl value in Hrd. rewrite Hd in Hrd.
  destruct (long_spec v' (proj2 (vw_len _ _ Hw'))) as (_ & E1 & E2). unfold direct in Hrd. cbn [value set_value fst] in Hrd. rewrite E1 in Hrd.
  split; [|split].
  - unfold qm_spec_property_unpack_bytes. cbn [value set_value]. rewrite Z.ltb_irrefl, E2. destruct (long v'); cbn [negb] in *; rewrite (heap_bind_step _ _ _ _ _ Hrd), Hl; done.
  - unfold qm_spec_property_unpack_string. cbn [value set_value]. rewrite Z.ltb_irrefl, E1. destruct (long v'); cbn [negb] in *; rewrite (heap_bind_step _ _ _ _ _ Hrd), Hl; done.
  - unfold direct. cbn [value set_value fst]. by rewrite E1.
Qed.

(** Adding a property appends it to the abstract map, or refuses identifiers that are present. *)
Theorem property_add_refines h o p : op_wf h o -> prop_wf h p -> base.NoDup (foot p) -> (forall a, a ∈ foot p -> a ∉ op_foot o) -> element_num o + 1 < 2 ^ 16 ->
  match contents h o !! ids p with
  | Some _ => qm_spec_property_add (Some o) (Some p) = (- QM_EINVAL, Some o)
  | None => exists o', qm_spec_property_add (Some o) (Some p) = (QM_EOK, Some o') /\ op_wf h o' /\
              contents h o' = <[ids p := (property_format (value p), data h (value p))]> (contents h o)
  end.
Proof.
  intros Hw Hp Hn Hd Hlt. rewrite property_add_eq. assert (Hin : contents h o !! ids p = None <-> ids p ∉ ids <$> property o).
  { unfold contents. rewrite <- not_elem_of_list_to_map, <- list_fmap_compose. done. }
  destruct (contents h o !! ids p) eqn:Hc.
  - rewrite bool_decide_true; [done|]. destruct (decide (ids p ∈ ids <$> property o)) as [|Hx]; [done|]. by apply Hin in Hx.
  - assert (ids p ∉ ids <$> property o) by (by apply Hin). rewrite bool_decide_false by done. eexists. split; [done|]. split; [by apply property_add_wf|by apply contents_snoc].
Qed.

(** Search returns the property with the identifiers, when there is one. *)
Theorem property_find_refines h o s i : op_wf h o -> is_u8 s -> is_u16 i ->
  contents h o !! (s, i) = (fun kp => (property_format (value kp.2), data h (value kp.2))) <$> qm_spec_property_find (Some o) s i.
Proof.
  intros Hw Hs Hi. pose proof (find_spec o s i Hs Hi) as Hf. unfold contents. destruct (qm_spec_property_find (Some o) s i) as [[k p]|]; simpl.
  - destruct Hf as [Hk Hid]. apply elem_of_list_to_map_1; [rewrite <- list_fmap_compose; apply Hw|]. apply list_elem_of_fmap. exists p. split; [by rewrite <- Hid|by eapply list_elem_of_lookup_2].
  - apply not_elem_of_list_to_map. by rewrite <- list_fmap_compose.
Qed.
End operations.

(** ** Concrete operations *)

#[local] Existing Instance table_allocator.

(** An operation with the property (1, 2) as a number and (1, 3) as a string of ten bytes. *)
Definition hello : list Z := [104; 101; 108; 108; 111; 32; 115; 112; 101; 99].
Definition build : M (option qm_spec_property_operation_t) :=
  op ← qm_spec_property_operation_creat;
  p ← qm_spec_property_creat;
  let '(_, p) := qm_spec_property_pack_xiid p 1 2 in
  '(_, p) ← qm_spec_property_pack_number p (-5);
  q ← qm_spec_property_creat;
  let '(_, q) := qm_spec_property_pack_xiid q 1 3 in
  '(_, q) ← qm_spec_property_pack_string q (Buf hello 0) 10;
  let '(_, op) := qm_spec_property_add op p in
  let '(_, op) := qm_spec_property_add op q in
  mret op.
Definition built : option qm_spec_property_operation_t * heap := match build ∅ with Ret r => r | _ => (None, ∅) end.

Definition eight : list Z := [1; 2; 3; 4; 5; 6; 7; 8].

(** A value of 8 bytes is stored in the heap, but read back from the union: the first four
    bytes are the pointer.  Deleting the property does not free the buffer. *)
Theorem eight_bytes_are_lost :
  match (p ← qm_spec_property_creat; '(r, p) ← qm_spec_property_pack_bytes p (Buf eight 0) 8;
         d ← qm_spec_property_unpack_bytes p false false; qm_spec_property_delete p;; mret (r, d)) ∅ with
  | Ret ((r, d), h) => r = QM_EOK /\ d = (QM_EOK, Some 8, [0; 2; 0; 0; 0; 0; 0; 0]) /\ h !! 512 = Some (eight ++ [0])
  | _ => False
  end.
Proof. vm_compute. done. Qed.

(** Copying an empty value keeps the old bytes under the new format. *)
Theorem copy_empty_keeps_bytes :
  match (p ← qm_spec_property_creat; '(_, p) ← qm_spec_property_pack_uint16 p 0x1234; q ← qm_spec_property_creat;
         '(r, p) ← qm_spec_property_copy p (set_format QM_SPEC_PROPERTY_FORMAT_STRING <$> q); d ← qm_spec_property_unpack_bytes p false false; mret (r, d, property_format ∘ value <$> p)) ∅ with
  | Ret (r, _) => r = (QM_EOK, (QM_EOK, Some 2, [0x12; 0x34]), Some QM_SPEC_PROPERTY_FORMAT_STRING)
  | _ => False
  end.
Proof. vm_compute. done. Qed.

Definition zeros (n : nat) : list Z := replicate n 0.
Definition p12 : qm_spec_property_t := mk_property 0 1 2 0 (mk_value 4 QM_SPEC_PROPERTY_FORMAT_NUMBER [255; 255; 255; 251; 0; 0; 0; 0]) 512.
Definition p13 : qm_spec_property_t := mk_property 0 1 3 0 (mk_value 10 QM_SPEC_PROPERTY_FORMAT_STRING [0; 4; 0; 0; 0; 0; 0; 0]) 768.
Definition q13 : qm_spec_property_t := mk_property 0 1 3 0 (mk_value 2 QM_SPEC_PROPERTY_FORMAT_UINT16 [18; 52; 0; 0; 0; 0; 0; 0]) 1536.
Definition op1 : qm_spec_property_operation_t := mk_operation 2 [p12; p13] 256.
Definition op2 : qm_spec_property_operation_t := mk_operation 1 [q13] 1280.
Definition heap1 : heap := {[256 := zeros 8; 512 := zeros 28; 768 := zeros 28; 1024 := hello ++ [0]; 1280 := zeros 8; 1536 := zeros 28]}.

Lemma built_op1 : built = (Some op1, delete 1280 (delete 1536 heap1)).
Proof. vm_compute. done. Qed.

Ltac u8_check := repeat (constructor; [widths; lia|]); constructor.

Lemma p12_wf : prop_wf heap1 p12.
Proof.
  split; [split; [unfold CONFIG_QM_SPEC_BUFF_SIZE; simpl; lia|split; [done|u8_check]|by intros Hx]|split; [done|vm_compute; by eexists]|simpl; widths; lia].
Qed.
Lemma q13_wf : prop_wf heap1 q13.
Proof.
  split; [split; [unfold CONFIG_QM_SPEC_BUFF_SIZE; simpl; lia|split; [done|u8_check]|by intros Hx]|split; [done|vm_compute; by eexists]|simpl; widths; lia].
Qed.
Lemma p13_wf : prop_wf heap1 p13.
Proof.
  split; [split; [unfold CONFIG_QM_SPEC_BUFF_SIZE; simpl; lia|split; [done|u8_check]|]|split; [done|vm_compute; by eexists]|simpl; widths; lia].
  intros _. split; [done|]. exists hello. split; [done|]. split; [done|]. u8_check.
Qed.

Lemma op1_wf : op_wf heap1 op1.
Proof.
  split; [by compute|constructor; [apply p12_wf|]; constructor; [apply p13_wf|constructor]|apply (bool_decide_unpack _); vm_compute; done|apply (bool_decide_unpack _); vm_compute; done|].
  split; [done|vm_compute; by eexists].
Qed.
Lemma op2_wf : op_wf heap1 op2.
Proof.
  split; [by compute|constructor; [apply q13_wf|constructor]|apply (bool_decide_unpack _); vm_compute; done|apply (bool_decide_unpack _); vm_compute; done|].
  split; [done|vm_compute; by eexists].
Qed.

Lemma operation_merge_refines_witness :
  exists dst' h', qm_spec_property_operation_merge (Some op1) (Some op2) heap1 = Ret ((QM_EOK, Some dst'), h') /\
    contents h' dst' = {[(1, 2) := (QM_SPEC_PROPERTY_FORMAT_NUMBER, [255; 255; 255; 251]); (1, 3) := (QM_SPEC_PROPERTY_FORMAT_UINT16, [18; 52])]}.
Proof.
  destruct (operation_merge_refines heap1 op1 op2 op1_wf op2_wf) as (dst' & h' & Hr & _ & Hc & _).
  - constructor; [simpl; lia|constructor].
  - apply (proj1 (Forall_forall (fun a => a ∉ op_foot op1) (op_foot op2))), (bool_decide_unpack _). vm_compute. done.
  - simpl. lia.
  - apply Nat.leb_le. vm_compute. done.
  - exists dst', h'. split; [done|]. rewrite Hc. vm_compute. done.
Defined.

Lemma operation_delete_frees_all_witness :
  qm_spec_property_operation_delete (Some op1) heap1 = Ret (QM_EOK, {[1280 := zeros 8; 1536 := zeros 28]}).
Proof. rewrite (operation_delete_frees_all heap1 op1 op1_wf). vm_compute. done. Defined.

Lemma property_remove_refines_witness :
  exists o', qm_spec_property_remove (Some op1) (Some 768) heap1 = Ret ((QM_EOK, Some o'), dispose [768; 1024] heap1) /\
    contents (dispose [768; 1024] heap1) o' = {[(1, 2) := (QM_SPEC_PROPERTY_FORMAT_NUMBER, [255; 255; 255; 251])]}.
Proof.
  destruct (property_remove_refines heap1 op1 p13 op1_wf) as (o' & Hr & _ & Hc); [right; by left|]. exists o'. split; [exact Hr|].
  change (dispose [768; 1024] heap1) with (dispose (foot p13) heap1). rewrite Hc. vm_compute. done.
Defined.

Lemma scalars_roundtrip_witness : reads_back heap1 p13 qm_spec_property_pack_int32 qm_spec_property_unpack_int32 (-7).
Proof. destruct (scalars_roundtrip heap1 p13 (pw_value _ _ p13_wf)) as (_ & _ & _ & _ & _ & _ & H32 & _). apply H32. lia. Defined.

Lemma property_bytes_roundtrip_witness :
  exists p' h', qm_spec_property_pack_bytes (Some p13) (Buf hello 0) 9 heap1 = Ret ((QM_EOK, Some p'), h') /\
    qm_spec_property_unpack_bytes (Some p') false false h' = Ret ((QM_EOK, Some 9, take 9 hello), h').
Proof.
  destruct (property_bytes_roundtrip heap1 p13 hello 0 (take 9 hello) (pw_value _ _ p13_wf)) as (p' & h' & Hr & Hu & _); [done|simpl; lia|simpl; lia|u8_check|apply Nat.ltb_lt; vm_compute; done|].
  exists p', h'. split; [exact Hr|exact Hu].
Defined.

Lemma property_add_refines_witness : qm_spec_property_add (Some op1) (Some q13) = (- QM_EINVAL, Some op1).
Proof.
  pose proof (property_add_refines heap1 op1 q13 op1_wf q13_wf) as Ha. assert (Hc : contents heap1 op1 !! ids q13 = Some (QM_SPEC_PROPERTY_FORMAT_STRING, hello)) by (vm_compute; done).
  rewrite Hc in Ha. apply Ha; [apply (bool_decide_unpack _); vm_compute; done| |simpl; lia].
  apply (proj1 (Forall_forall (fun a => a ∉ op_foot op1) (foot q13))), (bool_decide_unpack _). vm_compute. done.
Defined.

Lemma property_find_refines_witness : contents heap1 op1 !! (1, 3) = Some (QM_SPEC_PROPERTY_FORMAT_STRING, hello).
Proof. rewrite (property_find_refines heap1 op1 1 3 op1_wf); [vm_compute; done|widths; lia|widths; lia]. Defined.
End SpecApi.
