(* ===== verification/SpecHex.v ===== *)
(** * Device model: the binary message formats (components/qm_spec/src/qm_spec_core.c)

    Packing and unpacking of the messages in the HEX format: set, get and report.  The
    packed structures are written field by field at their offsets into a heap buffer, and
    received frames are read from the memory of the caller; both with their bounds. *)

From S2P Require Import Prelude Outcome Endian Heap SpecApi.
Import list_relations.list list_basics.list Heap SpecApi.
Open Scope Z_scope.

Module SpecHex.

Record qm_spec_data_info_t := mk_info {
  updata_len : Z;
  updata : Z;                                                       (* a heap block or NULL *)
  property_operation : option qm_spec_property_operation_t
}.

(** Sizes of the packed structures without the value. *)
Definition sizeof_set_request_frame : Z := 6.     (* siid, piid, len, format *)
Definition sizeof_set_response_frame : Z := 4.    (* siid, piid, code *)
Definition sizeof_get_request_frame : Z := 3.     (* siid, piid *)
Definition sizeof_get_response_frame : Z := 7.    (* siid, piid, code, len, format *)
Definition sizeof_report_frame : Z := 6.          (* siid, piid, len, format *)

Definition QM_SPEC_DATA_TYPE_HEX : Z := 0.
Definition QM_SPEC_MSG_TYPE_GET : Z := 0.
Definition QM_SPEC_MSG_TYPE_SET : Z := 1.
Definition QM_SPEC_MSG_TYPE_REPORT : Z := 2.
Definition QM_SPEC_MSG_TYPE_SERVICE : Z := 5.

Section hex.
Context {A : Allocator}.

(** The first loop of the packers: the length of the message. *)
Fixpoint length_loop (hdr : Z) (prop_num : nat) (ps : list qm_spec_property_t) (malloc_len : Z) : Z :=
  match prop_num, ps with
  | S n, p :: rest => length_loop hdr n rest (malloc_len + (hdr + len (value p)))
  | _, _ => malloc_len
  end.

Definition message_length (hdr : Z) (o : qm_spec_property_operation_t) : Z :=
  length_loop hdr (Z.to_nat (u8 (element_num o))) (property o) 1.

Fixpoint report_loop (buf : Z) (ps : list qm_spec_property_t) (index : Z) : M unit :=
  match ps with
  | [] => mret tt
  | p :: rest =>
      store buf index [siid p];;
      store buf (index + 1) (store_le 2 (cpu_to_be16 (piid p)));;
      store buf (index + 5) [property_format (value p)];;
      '(_, size, d) ← qm_spec_property_unpack_bytes (Some p) false false;
      store buf (index + 6) d;;
      let n := default 0 size in
      store buf (index + 3) (store_le 2 (cpu_to_be16 (u16 n)));;
      report_loop buf rest (index + (sizeof_report_frame + n))
  end.

Definition qm_spec_hex_report_pack (i : qm_spec_data_info_t) : M (Z * qm_spec_data_info_t) :=
  match property_operation i with
  | None => crash
  | Some o =>
      let malloc_len := message_length sizeof_report_frame o in
      buf ← zalloc (malloc_len + 1);
      if buf =? 0 then mret (- QM_ENOMEM, i)
      else
        store buf 0 [u8 (element_num o)];;
        report_loop buf (property o) 1;;
        mret (QM_EOK, mk_info malloc_len buf (Some o))
  end.

Definition qm_spec_hex_report_unpack (data : list Z) (n : Z) (i : qm_spec_data_info_t) : M (Z * qm_spec_data_info_t) := mret (QM_EOK, i).

(** The length of a response is stored as an [int] over the length, the format and the first byte
    of the value, and read back as 16 bits. *)
Fixpoint get_pack_loop (buf : Z) (ps : list qm_spec_property_t) (index : Z) : M unit :=
  match ps with
  | [] => mret tt
  | p :: rest =>
      store buf index [siid p];;
      store buf (index + 1) (store_le 2 (cpu_to_be16 (piid p)));;
      store buf (index + 3) [u8 (code p)];;
      store buf (index + 6) [property_format (value p)];;
      '(_, size, d) ← qm_spec_property_unpack_bytes (Some p) false false;
      store buf (index + 4) (store_le 4 (default 0 size));;
      store buf (index + 7) d;;
      l ← load buf (index + 4) 2;
      let n := load_le l in
      store buf (index + 4) (store_le 2 (cpu_to_be16 n));;
      get_pack_loop buf rest (index + (sizeof_get_response_frame + n))
  end.

Definition qm_spec_hex_get_pack (i : qm_spec_data_info_t) : M (Z * qm_spec_data_info_t) :=
  match property_operation i with
  | None => crash
  | Some o =>
      let malloc_len := message_length sizeof_get_response_frame o in
      buf ← zalloc (malloc_len + 1);
      if buf =? 0 then mret (- QM_ENOMEM, i)
      else
        store buf 0 [u8 (element_num o)];;
        get_pack_loop buf (property o) 1;;
        mret (QM_EOK, mk_info malloc_len buf (Some o))
  end.

(** The result of [qm_spec_property_add] is ignored: a property it refuses is lost. *)
Definition add_ignoring (o : qm_spec_property_operation_t) (p : qm_spec_property_t) : qm_spec_property_operation_t :=
  default o (snd (qm_spec_property_add (Some o) (Some p))).

Fixpoint get_unpack_loop (prop_num : nat) (o : qm_spec_property_operation_t) (data : list Z) (index : Z) : M qm_spec_property_operation_t :=
  match prop_num with
  | O => mret o
  | S n =>
      p ← qm_spec_property_creat;
      match p with
      | None => mret o
      | Some p =>
          s ← read_ptr (Buf data index) 1;
          i ← read_ptr (Buf data (index + 1)) 2;
          get_unpack_loop n (add_ignoring o (set_ids (did p) (load_le s) (load_le i) p)) data (index + sizeof_get_request_frame)
      end
  end.

Definition qm_spec_hex_get_unpack (data : list Z) (n : Z) (i : qm_spec_data_info_t) : M (Z * qm_spec_data_info_t) :=
  o ← qm_spec_property_operation_creat;
  match o with
  | None => mret (- QM_ENOMEM, mk_info (updata_len i) (updata i) None)
  | Some o =>
      c ← read_ptr (Buf data 0) 1;
      o ← get_unpack_loop (Z.to_nat (load_le c)) o data 1;
      mret (QM_EOK, mk_info (updata_len i) (updata i) (Some o))
  end.

(** A round moves at least 6 bytes on; the fuel is the number of bytes. *)
Fixpoint set_unpack_loop (fuel : nat) (o : qm_spec_property_operation_t) (data : list Z) (n index : Z) : M qm_spec_property_operation_t :=
  match fuel with
  | O => out_of_fuel
  | S fuel =>
      if negb (index <? n) then mret o
      else
        p ← qm_spec_property_creat;
        match p with
        | None => mret o
        | Some p =>
            l ← read_ptr (Buf data (index + 3)) 2;
            if load_le l =? 0 then mret o
            else
              s ← read_ptr (Buf data index) 1;
              f ← read_ptr (Buf data (index + 5)) 1;
              i ← read_ptr (Buf data (index + 1)) 2;
              let pro_len := be16_to_cpu (load_le l) in
              let p := set_format (load_le f) (set_ids (did p) (load_le s) (be16_to_cpu (load_le i)) p) in
              '(_, p') ← qm_spec_property_pack_bytes (Some p) (Buf data (index + 6)) pro_len;
              set_unpack_loop fuel (add_ignoring o (default p p')) data n (index + (sizeof_set_request_frame + pro_len))
        end
  end.

Definition qm_spec_hex_set_unpack (data : list Z) (n : Z) (i : qm_spec_data_info_t) : M (Z * qm_spec_data_info_t) :=
  o ← match property_operation i with
      | Some o => mret (Some o)
      | None => qm_spec_property_operation_creat
      end;
  match o with
  | None => mret (- QM_ENOMEM, mk_info (updata_len i) (updata i) None)
  | Some o =>
      o ← set_unpack_loop (S (Z.to_nat n)) o data n 1;
      mret (QM_EOK, mk_info (updata_len i) (updata i) (Some o))
  end.

Fixpoint set_pack_loop (buf : Z) (ps : list qm_spec_property_t) (index : Z) : M unit :=
  match ps with
  | [] => mret tt
  | p :: rest =>
      let at_ := 1 + sizeof_set_response_frame * index in
      store buf (at_ + 3) [u8 (code p)];;
      store buf at_ [siid p];;
      store buf (at_ + 1) (store_le 2 (cpu_to_be16 (piid p)));;
      set_pack_loop buf rest (index + 1)
  end.

(** The byte for the number of elements is counted first and then overwritten. *)
Definition qm_spec_hex_set_pack (i : qm_spec_data_info_t) : M (Z * qm_spec_data_info_t) :=
  match property_operation i with
  | None => crash
  | Some o =>
      let malloc_len := sizeof_set_response_frame * element_num o in
      buf ← zalloc (malloc_len + 1);
      if buf =? 0 then mret (- QM_ENOMEM, i)
      else
        store buf 0 [u8 (element_num o)];;
        set_pack_loop buf (property o) 0;;
        mret (QM_EOK, mk_info malloc_len buf (Some o))
  end.

(** The destroy functions of all formats have the same body. *)
Definition destroy (i : qm_spec_data_info_t) : M (Z * qm_spec_data_info_t) :=
  i ← (if negb (updata i =? 0) then qm_free (updata i);; mret (mk_info 0 0 (property_operation i)) else mret i);
  match property_operation i with
  | Some o => qm_spec_property_operation_delete (Some o);; mret (QM_EOK, mk_info (updata_len i) (updata i) None)
  | None => mret (QM_EOK, i)
  end.
Definition qm_spec_hex_report_destroy := destroy.
Definition qm_spec_hex_get_destroy := destroy.
Definition qm_spec_hex_set_destroy := destroy.

(** *** Dispatch

    The table as it is built with CONFIG_CANCEL_QM_SPEC_CJSON_SUPPORT, without the entries of
    the JSON formats.  Those have other data types, so they do not affect the binary format. *)

Record qm_spec_core_data_handle_t := mk_handle {
  data_type : Z;
  msg_type : Z;
  unpack : list Z -> Z -> qm_spec_data_info_t -> M (Z * qm_spec_data_info_t);
  pack : qm_spec_data_info_t -> M (Z * qm_spec_data_info_t);
  destroy_ : qm_spec_data_info_t -> M (Z * qm_spec_data_info_t)
}.

Definition g_qm_spec_data_handle : list qm_spec_core_data_handle_t := [
  mk_handle QM_SPEC_DATA_TYPE_HEX QM_SPEC_MSG_TYPE_SET qm_spec_hex_set_unpack qm_spec_hex_set_pack qm_spec_hex_set_destroy;
  mk_handle QM_SPEC_DATA_TYPE_HEX QM_SPEC_MSG_TYPE_GET qm_spec_hex_get_unpack qm_spec_hex_get_pack qm_spec_hex_get_destroy;
  mk_handle QM_SPEC_DATA_TYPE_HEX QM_SPEC_MSG_TYPE_REPORT qm_spec_hex_report_unpack qm_spec_hex_report_pack qm_spec_hex_report_destroy;
  mk_handle QM_SPEC_DATA_TYPE_HEX QM_SPEC_MSG_TYPE_SERVICE qm_spec_hex_set_unpack qm_spec_hex_set_pack qm_spec_hex_set_destroy].

Fixpoint handle_from (dt mt : Z) (l : list qm_spec_core_data_handle_t) : option qm_spec_core_data_handle_t :=
  match l with
  | [] => None
  | x :: rest => if (mt =? msg_type x) && (dt =? data_type x) then Some x else handle_from dt mt rest
  end.
Definition qm_spec_data_handle_get (dt mt : Z) : option qm_spec_core_data_handle_t := handle_from dt mt g_qm_spec_data_handle.

(** No handler of the table is NULL; [None] stands for a NULL argument. *)
Definition qm_spec_data_unpack (dt mt : Z) (data : option (list Z)) (n : Z) (i : option qm_spec_data_info_t) : M (Z * option qm_spec_data_info_t) :=
  match data, i with
  | Some data, Some i =>
      if n =? 0 then mret (- QM_EINVAL, Some i)
      else match qm_spec_data_handle_get dt mt with
           | None => mret (- QM_EINVAL, Some i)
           | Some x => '(r, i) ← unpack x data n i; mret (r, Some i)
           end
  | _, _ => mret (- QM_EINVAL, i)
  end.

Definition qm_spec_data_pack (dt mt : Z) (i : option qm_spec_data_info_t) : M (Z * option qm_spec_data_info_t) :=
  match i with
  | None => mret (- QM_EINVAL, i)
  | Some i =>
      match qm_spec_data_handle_get dt mt with
      | None => mret (- QM_EINVAL, Some i)
      | Some x => '(r, i) ← pack x i; mret (r, Some i)
      end
  end.

Definition qm_spec_data_destroy (dt mt : Z) (i : option qm_spec_data_info_t) : M (Z * option qm_spec_data_info_t) :=
  match i with
  | None => mret (- QM_EINVAL, i)
  | Some i =>
      match qm_spec_data_handle_get dt mt with
      | None => mret (- QM_EINVAL, Some i)
      | Some x => '(r, i) ← destroy_ x i; mret (r, Some i)
      end
  end.

(** The result is the operation the caller passed, as the handler leaves it; one that the
    handler creates is lost with the local information record. *)
Definition qm_spec_standard_service_unpack (dt : Z) (o : option qm_spec_property_operation_t) (msg : option (list Z)) (n : Z) : M (Z * option qm_spec_property_operation_t) :=
  '(r, i) ← qm_spec_data_unpack dt QM_SPEC_MSG_TYPE_SERVICE msg n (Some (mk_info 0 0 o));
  mret (r, match o, i with Some _, Some i => property_operation i | _, _ => None end).
End hex.

(** ** Frames *)

Section frames.
Context {A : Allocator}.

Definition be16 (x : Z) : list Z := [x / 256; x mod 256].

(** A property as it is sent: identifiers, length, format and bytes. *)
Definition frame (s i f : Z) (d : list Z) : list Z := s :: be16 i ++ be16 (Z.of_nat (length d)) ++ [f] ++ d.
Definition frame_of (h : heap) (p : qm_spec_property_t) : list Z := frame (siid p) (piid p) (property_format (value p)) (data h (value p)).
Definition frames (h : heap) (ps : list qm_spec_property_t) : list Z := ps ≫= frame_of h.

(** Writing a field of a block whose contents are known. *)
Lemma store_at h a bs pre old d post off : h !! a = Some bs -> bs = pre ++ old ++ post -> off = Z.of_nat (length pre) -> length old = length d ->
  store a off d h = Ret (tt, <[a := pre ++ d ++ post]> h).
Proof. intros Hb -> -> Ho. by apply (store_field h a pre old). Qed.

Lemma unpack_spec h p : value_wf h (value p) -> qm_spec_property_unpack_bytes (Some p) false false h = Ret ((QM_EOK, Some (len (value p)), data h (value p)), h).
Proof.
  intros Hw. destruct (read_direct h p Hw) as [_ Hr]. destruct (long_spec _ (proj2 (vw_len _ _ Hw))) as (_ & E1 & E2).
  unfold qm_spec_property_unpack_bytes. rewrite Z.ltb_irrefl, E2. unfold direct in Hr. cbn [fst] in Hr. rewrite E1 in Hr.
  destruct (long (value p)); cbn [negb] in *; by rewrite (heap_bind_step _ _ _ _ _ Hr).
Qed.

(** The other blocks of the heap are not affected. *)
Lemma data_insert h v a bs : value_wf h v -> a ∉ bufs v -> value_wf (<[a := bs]> h) v /\ data (<[a := bs]> h) v = data h v.
Proof. intros Hw Ha. apply value_wf_frame; [|done]. intros b Hb. apply lookup_insert_ne. by intros ->. Qed.

Lemma frame_length s i f d : length (frame s i f d) = (6 + length d)%nat.
Proof. done. Qed.

(** Runs the next store into the block that was written last. *)
Ltac put_field pre old post :=
  match goal with
  | |- context [(store ?a ?off ?d ≫= ?k) (<[?a := ?bs]> ?h)] =>
      let H := fresh in
      assert (H : store a off d (<[a := bs]> h) = Ret (tt, <[a := pre ++ d ++ post]> (<[a := bs]> h)));
      [apply (store_at _ _ bs pre old); [apply lookup_insert_eq|rewrite <- ?app_assoc; reflexivity|rewrite ?length_app; simpl; lia|first [reflexivity|subst old; rewrite length_replicate; reflexivity]]|];
      rewrite (heap_bind_step _ _ _ _ _ H), insert_insert_eq; clear H
  end.

(** One round of the report. *)
Lemma report_round h buf pre p post : h !! buf = Some (pre ++ replicate (6 + length (data h (value p))) 0 ++ post) ->
  prop_wf h p -> buf ∉ bufs (value p) -> forall rest,
  report_loop buf (p :: rest) (Z.of_nat (length pre)) h =
  report_loop buf rest (Z.of_nat (length (pre ++ frame_of h p))) (<[buf := (pre ++ frame_of h p) ++ post]> h).
Proof.
  intros Hb [Hv _ [_ Hi]] Hn rest. set (d := data h (value p)) in *. pose proof (data_length h _ Hv) as Hl. fold d in Hl. destruct (vw_len _ _ Hv) as [Hl16 _].
  set (n := Z.of_nat (length pre)). cbn [report_loop]. rewrite replicate_add in Hb. set (z := replicate (length d) 0) in *. simpl in Hb.
  rewrite (heap_bind_step _ _ _ _ _ (store_at h buf _ pre [0] [siid p] ([0; 0; 0; 0; 0] ++ z ++ post) n Hb eq_refl eq_refl eq_refl)).
  put_field (pre ++ [siid p]) [0; 0] ([0; 0; 0] ++ z ++ post). rewrite store_be16 by done. fold (be16 (piid p)).
  put_field (pre ++ [siid p] ++ be16 (piid p) ++ [0; 0]) [0] (z ++ post).
  match goal with |- context [<[buf := ?bs]> h] => destruct (data_insert h (value p) buf bs Hv Hn) as [Hv3 Hd3] end. fold d in Hd3.
  rewrite (heap_bind_step _ _ _ _ _ (unpack_spec _ p Hv3)), Hd3. change (default 0 (Some (len (value p)))) with (len (value p)).
  put_field (pre ++ [siid p] ++ be16 (piid p) ++ [0; 0] ++ [property_format (value p)]) z post.
  rewrite u16_id by (widths; lia). put_field (pre ++ [siid p] ++ be16 (piid p)) [0; 0] ([property_format (value p)] ++ d ++ post).
  rewrite store_be16 by (widths; lia). unfold frame_of, frame. fold d. rewrite !length_app, Hl. fold (be16 (len (value p))). simpl length.
  f_equal; [unfold sizeof_report_frame; subst n; lia|]. f_equal. by rewrite <- !app_assoc.
Qed.

Lemma frames_cons h p ps : frames h (p :: ps) = frame_of h p ++ frames h ps.
Proof. done. Qed.

Lemma frames_insert h ps buf bs : List.Forall (prop_wf h) ps -> buf ∉ feet ps ->
  List.Forall (prop_wf (<[buf := bs]> h)) ps /\ frames (<[buf := bs]> h) ps = frames h ps.
Proof.
  intros Hp Hn. destruct (props_frame h (<[buf := bs]> h) ps) as [Hp' He]; [intros a Ha; apply lookup_insert_ne; by intros ->|done|].
  split; [done|]. clear Hp Hn Hp'. revert He. induction ps as [|p ps IH]; [done|]. intros [= He1 He2]. rewrite !frames_cons, IH by done. f_equal. unfold frame_of. by rewrite He1.
Qed.

Lemma report_loop_spec buf post ps : forall h pre, h !! buf = Some (pre ++ replicate (length (frames h ps)) 0 ++ post) -> List.Forall (prop_wf h) ps -> buf ∉ feet ps ->
  report_loop buf ps (Z.of_nat (length pre)) h = Ret (tt, <[buf := pre ++ frames h ps ++ post]> h).
Proof.
  induction ps as [|p ps IH]; intros h pre Hb Hp Hn; [simpl in *; by rewrite insert_id|].
  apply list.Forall_cons in Hp as [Hp Hps]. rewrite feet_cons in Hn. apply not_elem_of_app in Hn as [Hn1 Hn2].
  change (frames h (p :: ps)) with (frame_of h p ++ frames h ps) in *. rewrite length_app, replicate_add, <- app_assoc in Hb.
  rewrite (report_round h buf pre p _ Hb Hp); [|intros Hx; apply Hn1; by right].
  destruct (frames_insert h ps buf ((pre ++ frame_of h p) ++ replicate (length (frames h ps)) 0 ++ post) Hps Hn2) as [Hps' Hf]. rewrite IH; [|by rewrite Hf, lookup_insert_eq|done|done].
  rewrite Hf, insert_insert_eq. by rewrite <- !app_assoc.
Qed.

Lemma length_loop_spec hdr ps n acc : (length ps <= n)%nat -> length_loop hdr n ps acc = acc + foldr (fun p m => hdr + len (value p) + m) 0 ps.
Proof.
  revert n acc. induction ps as [|p ps IH]; intros n acc Hn; [destruct n; simpl; lia|]. destruct n as [|n]; [simpl in Hn; lia|]. simpl. rewrite IH by (simpl in Hn; lia). lia.
Qed.

Lemma frames_length h ps : List.Forall (prop_wf h) ps -> Z.of_nat (length (frames h ps)) = foldr (fun p m => 6 + len (value p) + m) 0 ps.
Proof.
  induction 1 as [|p ps Hp _ IH]; [done|]. change (frames h (p :: ps)) with (frame_of h p ++ frames h ps). rewrite length_app, Nat2Z.inj_add, IH. unfold frame_of. rewrite frame_length.
  pose proof (data_length h _ (pw_value _ _ Hp)). simpl foldr. lia.
Qed.

Lemma message_length_spec h o : op_wf h o -> element_num o < 256 -> message_length sizeof_report_frame o = 1 + Z.of_nat (length (frames h (property o))).
Proof.
  intros [[Hn _] Hp _ _ _] Hlt. unfold message_length, sizeof_report_frame. rewrite length_loop_spec, (frames_length h) by (done || (rewrite u8_id by (widths; lia); lia)). done.
Qed.

(** The message of a report, with its final zero. *)
Lemma report_pack_spec h n u o : op_wf h o -> element_num o < 256 -> (size h < capacity)%nat ->
  exists buf, h !! buf = None /\ buf <> 0 /\
    qm_spec_hex_report_pack (mk_info n u (Some o)) h =
      Ret ((QM_EOK, mk_info (1 + Z.of_nat (length (frames h (property o)))) buf (Some o)), <[buf := (element_num o :: frames h (property o)) ++ [0]]> h).
Proof.
  intros Hw Hlt Hc. unfold qm_spec_hex_report_pack. cbn [property_operation]. rewrite (message_length_spec h o Hw Hlt). set (fs := frames h (property o)).
  destruct (zalloc_some h (1 + Z.of_nat (length fs) + 1) Hc) as (buf & Ha & Hfr & Hz). exists buf. split; [done|]. split; [lia|].
  rewrite (heap_bind_step _ _ _ _ _ Hz), (proj2 (Z.eqb_neq _ _)) by lia. replace (Z.to_nat (1 + Z.of_nat (length fs) + 1)) with (1 + (length fs + 1))%nat by lia. rewrite !replicate_add.
  pose proof Hw as [[Hn _] Hp _ _ _]. rewrite u8_id by (widths; lia). put_field (@nil Z) [0] (replicate (length fs) 0 ++ [0]).
  assert (Hnf : buf ∉ feet (property o)) by (intros Hx; destruct (feet_wf h _ _ Hp Hx) as [[b Hb] _]; by rewrite Hfr in Hb).
  simpl app. match goal with |- context [<[buf := ?bs]> h] => destruct (frames_insert h (property o) buf bs Hp Hnf) as [Hp1 Hf1] end. fold fs in Hf1.
  rewrite (heap_bind_step _ _ _ _ _ (report_loop_spec buf [0] (property o) _ [element_num o] ltac:(rewrite lookup_insert_eq, Hf1; done) Hp1 Hnf)). by rewrite Hf1, insert_insert_eq.
Qed.

(** ** Received frames *)

(** Identifiers, format and bytes. *)
Abbreviation received := (Z * Z * Z * list Z)%type.
Definition r_ids (x : received) : Z * Z := x.1.1.
Definition r_entry (x : received) : Z * Z * (Z * list Z) := let '(s, i, f, d) := x in ((s, i), (f, d)).
Definition wire (x : received) : list Z := let '(s, i, f, d) := x in frame s i f d.
Definition received_ok (x : received) : Prop :=
  let '(s, i, f, d) := x in is_u8 s /\ is_u16 i /\ is_u8 f /\ 0 < Z.of_nat (length d) < 2 ^ 16 /\ length d <> 8%nat /\ List.Forall is_u8 d.

Lemma read_at pre d post n off (h : heap) : n = Z.of_nat (length d) -> off = Z.of_nat (length pre) -> n <> 0 -> read_ptr (Buf (pre ++ d ++ post) off) n h = Ret (d, h).
Proof. intros -> -> Hn. unfold read_ptr. rewrite (proj2 (Z.eqb_neq _ _) Hn). by rewrite heap_slice_app. Qed.

Ltac read_field pre d post :=
  match goal with
  | |- context [(read_ptr (Buf ?data ?off) ?n ≫= ?k) ?h] =>
      let H := fresh in
      assert (H : read_ptr (Buf data off) n h = Ret (d, h));
      [replace data with (pre ++ d ++ post) by (rewrite <- ?app_assoc; reflexivity); apply read_at; [simpl; lia|rewrite ?length_app; simpl; lia|lia]|];
      rewrite (heap_bind_step _ _ _ _ _ H); clear H
  end.

Lemma load_one (x : Z) : load_le [x] = x.
Proof. change (x + 256 * 0 = x). lia. Qed.

Lemma load_frame16 x : is_u16 x -> be16_to_cpu (load_le (be16 x)) = x.
Proof. intros Hx. unfold be16. rewrite load_be16 by zsolve. zsolve. Qed.

Lemma load_frame16_pos x : is_u16 x -> 0 < x -> (load_le (be16 x) =? 0) = false.
Proof. intros Hx Hp. apply Z.eqb_neq. change (x / 256 + 256 * (x mod 256 + 256 * 0) <> 0). zsolve. Qed.

(** One round of the set request. *)
Lemma set_round fuel o h pre x post n : received_ok x -> op_wf h o -> r_ids x ∉ ids <$> property o -> element_num o + 1 < 2 ^ 16 -> (size h + 2 <= capacity)%nat ->
  Z.of_nat (length pre) < n ->
  exists o' h', set_unpack_loop (S fuel) o (pre ++ wire x ++ post) n (Z.of_nat (length pre)) h =
      set_unpack_loop fuel o' (pre ++ wire x ++ post) n (Z.of_nat (length (pre ++ wire x))) h' /\
    op_wf h' o' /\ others_kept h o h' o' /\ element_num o' = element_num o + 1 /\ (size h' <= size h + 2)%nat /\
    contents h' o' = <[r_ids x := (r_entry x).2]> (contents h o) /\ ids <$> property o' = (ids <$> property o) ++ [r_ids x].
Proof.
  destruct x as [[[s i] f] d]. intros (Hs & Hi & Hf & Hd & H8 & Hu) Hw Hid Hnum Hc Hlt. cbn [wire r_ids r_entry fst snd] in *.
  destruct (creat_spec h) as (a & Hcr & Hfr & Ha0 & Hv & Hs1 & _); [lia|]. set (h1 := <[a := _]> h) in *. set (data := pre ++ frame s i f d ++ post).
  assert (Hdata : data = pre ++ [s] ++ be16 i ++ be16 (Z.of_nat (length d)) ++ [f] ++ d ++ post) by done.
  set (p := set_format f (set_ids 0 s i (blank_property a))).
  assert (Hvp : value_wf h1 (value p)) by (destruct Hv as [V1 V2 V3]; split; [exact V1|exact V2|exact V3]).
  assert (Hrd : read_ptr (Buf data (Z.of_nat (length pre) + 6)) (Z.of_nat (length d)) (released h1 (value p)) = Ret (d, released h1 (value p))).
  { rewrite Hdata. replace (pre ++ [s] ++ be16 i ++ be16 (Z.of_nat (length d)) ++ [f] ++ d ++ post) with ((pre ++ [s] ++ be16 i ++ be16 (Z.of_nat (length d)) ++ [f]) ++ d ++ post) by (by rewrite <- !app_assoc).
    apply read_at; [done|rewrite length_app; simpl; lia|lia]. }
  destruct (property_pack_bytes_spec h1 p (Buf data (Z.of_nat (length pre) + 6)) d Hvp ltac:(done) Hrd Hd H8 Hu) as (v' & h' & Hpk & Hst); [lia|]. pose proof (stores_reown _ _ _ _ _ Hst) as Hro. destruct Hst as (Hv' & Hdv & Hlv & Hfv & _).
  destruct (fresh_add h o a (replicate (Z.to_nat sizeof_property) 0) h' (set_value v' p) Hw Hfr Ha0 eq_refl Hv' Hro ltac:(done) Hid Hnum) as (o' & Had & Hw' & Hk & Hn & Hsz & Hct & Hids).
  exists o', h'. split; [|split_and!; try done; rewrite Hct; cbn [set_value value]; by rewrite Hdv, Hfv].
  cbn [set_unpack_loop]. rewrite (proj2 (Z.ltb_lt _ _) Hlt). cbn [negb]. rewrite (heap_bind_step _ _ _ _ _ Hcr). rewrite Hdata.
  read_field (pre ++ [s] ++ be16 i) (be16 (Z.of_nat (length d))) ([f] ++ d ++ post).
  rewrite load_frame16_pos by (widths; lia).
  read_field pre [s] (be16 i ++ be16 (Z.of_nat (length d)) ++ [f] ++ d ++ post).
  read_field (pre ++ [s] ++ be16 i ++ be16 (Z.of_nat (length d))) [f] (d ++ post). read_field (pre ++ [s]) (be16 i) (be16 (Z.of_nat (length d)) ++ [f] ++ d ++ post).
  rewrite !load_one, !load_frame16 by first [done | widths; lia]. cbv zeta. fold p. rewrite <- Hdata. rewrite (heap_bind_step _ _ _ _ _ Hpk).
  assert (Hai : add_ignoring o (set_value v' p) = o') by (unfold add_ignoring; by rewrite Had). cbn [from_option]. unfold id. rewrite Hai. f_equal. unfold sizeof_set_request_frame. rewrite length_app, frame_length. lia.
Qed.

Definition wires (xs : list received) : list Z := xs ≫= wire.
Lemma wires_cons x xs : wires (x :: xs) = wire x ++ wires xs.
Proof. done. Qed.

(** A whole set request: the received values are added. *)
Lemma set_loop_spec post xs : forall fuel o h pre, List.Forall received_ok xs -> op_wf h o -> base.NoDup (r_ids <$> xs) -> (forall x, x ∈ xs -> r_ids x ∉ ids <$> property o) ->
  element_num o + Z.of_nat (length xs) < 2 ^ 16 -> (size h + 2 * length xs <= capacity)%nat -> (length xs < fuel)%nat ->
  exists (o' : qm_spec_property_operation_t) (h' : heap), set_unpack_loop fuel o (pre ++ wires xs ++ post) (Z.of_nat (length (pre ++ wires xs))) (Z.of_nat (length pre)) h = Ret (o', h') /\
    op_wf h' o' /\ others_kept h o h' o' /\ contents h' o' = list_to_map (r_entry <$> xs) ∪ contents h o.
Proof.
  induction xs as [|x xs IH]; intros fuel o h pre Hx Hw Hnd Hid Hnum Hc Hf.
  - destruct fuel; [simpl in Hf; lia|]. exists o, h. cbn [set_unpack_loop]. rewrite app_nil_r, Z.ltb_irrefl. split; [done|]. split; [done|]. split; [by intros a Ha Hna|]. symmetry. apply (left_id_L ∅ (∪)).
  - destruct fuel as [|fuel]; [lia|]. apply list.Forall_cons in Hx as [Hx Hxs]. rewrite fmap_cons in Hnd. apply list.NoDup_cons in Hnd as [Hxn Hnd]. cbn [length] in *.
    rewrite wires_cons, <- app_assoc.
    destruct (set_round fuel o h pre x (wires xs ++ post) (Z.of_nat (length (pre ++ wire x ++ wires xs)))) as (o1 & h1 & Hr & Hw1 & Hk1 & Hn1 & Hs1 & Hc1 & Hi1); [done|done|apply Hid; by left|lia|lia|rewrite !length_app; destruct x as [[[? ?] ?] ?]; cbn [wire]; rewrite frame_length; lia|].
    rewrite Hr. destruct (IH fuel o1 h1 (pre ++ wire x)) as (o2 & h2 & Hl & Hw2 & Hk2 & Hc2); [done|done|done| |lia|lia|lia|].
    { intros y Hy. rewrite Hi1, elem_of_app, list_elem_of_singleton. intros [Hin|He]; [by apply (Hid y); [right|]|]. apply Hxn. rewrite <- He. by apply list_elem_of_fmap_2. }
    exists o2, h2. split; [by rewrite <- !app_assoc in Hl|]. split; [done|]. split; [by eapply others_kept_trans|].
    rewrite Hc2, Hc1, fmap_cons. destruct x as [[[s i] f] d]. cbn [r_ids r_entry fst snd] in *. rewrite list_to_map_cons, <- insert_union_l, <- insert_union_r; [done|].
    apply not_elem_of_list_to_map_1. rewrite <- list_fmap_compose. intros Hin. apply Hxn. apply list_elem_of_fmap in Hin as ([[[s' i'] f'] d'] & He & Hy). apply list_elem_of_fmap. by exists (s', i', f', d').
Qed.

(** ** Responses *)

(** The response to a get: the upper 16 bits of the length are written over the format. *)
Definition response_of (h : heap) (p : qm_spec_property_t) : list Z :=
  siid p :: be16 (piid p) ++ [u8 (code p)] ++ be16 (Z.of_nat (length (data h (value p)))) ++ [0] ++ data h (value p).
Definition responses (h : heap) (ps : list qm_spec_property_t) : list Z := ps ≫= response_of h.
Lemma responses_cons h p ps : responses h (p :: ps) = response_of h p ++ responses h ps.
Proof. done. Qed.

Lemma store_short x : 0 <= x < 2 ^ 16 -> store_le 4 x = store_le 2 x ++ [0; 0].
Proof. intros Hx. change (2 ^ 16) with 65536 in Hx. unfold store_le, app. rewrite (Z.div_div x 256 256), (Z.div_small x (256 * 256)) by lia. done. Qed.

Lemma load_at h a bs pre d post off n : h !! a = Some bs -> bs = pre ++ d ++ post -> off = Z.of_nat (length pre) -> n = Z.of_nat (length d) -> load a off n h = Ret (d, h).
Proof. intros Hb -> -> ->. by apply (load_field h a pre d post). Qed.

Lemma get_round h buf pre p post : h !! buf = Some (pre ++ replicate (7 + length (data h (value p))) 0 ++ 0 :: post) ->
  prop_wf h p -> buf ∉ bufs (value p) -> forall rest,
  get_pack_loop buf (p :: rest) (Z.of_nat (length pre)) h =
  get_pack_loop buf rest (Z.of_nat (length (pre ++ response_of h p))) (<[buf := (pre ++ response_of h p) ++ 0 :: post]> h).
Proof.
  intros Hb [Hv _ [_ Hi]] Hn rest. set (d := data h (value p)) in *. pose proof (data_length h _ Hv) as Hl. fold d in Hl. destruct (vw_len _ _ Hv) as [Hl16 _].
  set (n := Z.of_nat (length pre)). cbn [get_pack_loop]. rewrite replicate_add in Hb. set (z := replicate (length d) 0) in *. simpl in Hb.
  rewrite (heap_bind_step _ _ _ _ _ (store_at h buf _ pre [0] [siid p] ([0; 0; 0; 0; 0; 0] ++ z ++ 0 :: post) n Hb eq_refl eq_refl eq_refl)).
  put_field (pre ++ [siid p]) [0; 0] ([0; 0; 0; 0] ++ z ++ 0 :: post). rewrite store_be16 by done. fold (be16 (piid p)).
  put_field (pre ++ [siid p] ++ be16 (piid p)) [0] ([0; 0; 0] ++ z ++ 0 :: post). put_field (pre ++ [siid p] ++ be16 (piid p) ++ [u8 (code p)] ++ [0; 0]) [0] (z ++ 0 :: post).
  match goal with |- context [<[buf := ?bs]> h] => destruct (data_insert h (value p) buf bs Hv Hn) as [Hv3 Hd3] end. fold d in Hd3.
  rewrite (heap_bind_step _ _ _ _ _ (unpack_spec _ p Hv3)), Hd3. change (default 0 (Some (len (value p)))) with (len (value p)). rewrite store_short by done.
  assert (Hz : z ++ 0 :: post = [0] ++ z ++ post). { unfold z. rewrite cons_middle, app_assoc, <- replicate_S_end. done. }
  rewrite Hz. put_field (pre ++ [siid p] ++ be16 (piid p) ++ [u8 (code p)]) [0; 0; property_format (value p); 0] (z ++ post).
  rewrite <- (app_assoc (store_le 2 _)). change ([0; 0] ++ z ++ post) with ([0] ++ [0] ++ z ++ post). rewrite <- Hz.
  put_field (pre ++ [siid p] ++ be16 (piid p) ++ [u8 (code p)] ++ store_le 2 (len (value p)) ++ [0]) z (0 :: post).
  match goal with |- context [(load ?a ?o ?c ≫= _) (<[_ := ?bs]> h)] => assert (Hld : load a o c (<[buf := bs]> h) = Ret (store_le 2 (len (value p)), <[buf := bs]> h)) end.
  { eapply (load_at _ _ _ (pre ++ [siid p] ++ be16 (piid p) ++ [u8 (code p)]) _ ([0] ++ d ++ 0 :: post)); [apply lookup_insert_eq|by rewrite <- !app_assoc|rewrite !length_app; simpl; lia|by rewrite store_le_length]. }
  rewrite (heap_bind_step _ _ _ _ _ Hld), load_store_le by (change (256 ^ Z.of_nat 2) with (2 ^ 16); lia).
  put_field (pre ++ [siid p] ++ be16 (piid p) ++ [u8 (code p)]) (store_le 2 (len (value p))) ([0] ++ d ++ 0 :: post).
  rewrite store_be16 by (widths; lia). unfold response_of. fold d. rewrite !length_app, Hl. fold (be16 (len (value p))).
  f_equal; [unfold sizeof_get_response_frame; subst n; simpl length; lia|]. f_equal. by rewrite <- !app_assoc.
Qed.

Lemma responses_insert h ps buf bs : List.Forall (prop_wf h) ps -> buf ∉ feet ps ->
  List.Forall (prop_wf (<[buf := bs]> h)) ps /\ responses (<[buf := bs]> h) ps = responses h ps.
Proof.
  intros Hp Hn. destruct (props_frame h (<[buf := bs]> h) ps) as [Hp' He]; [intros a Ha; apply lookup_insert_ne; by intros ->|done|].
  split; [done|]. clear Hp Hn Hp'. revert He. induction ps as [|p ps IH]; [done|]. intros [= He1 He2]. rewrite !responses_cons, IH by done. f_equal. unfold response_of. by rewrite He1.
Qed.

Lemma get_loop_spec buf ps : forall h pre, h !! buf = Some (pre ++ replicate (length (responses h ps)) 0 ++ [0]) -> List.Forall (prop_wf h) ps -> buf ∉ feet ps ->
  get_pack_loop buf ps (Z.of_nat (length pre)) h = Ret (tt, <[buf := pre ++ responses h ps ++ [0]]> h).
Proof.
  induction ps as [|p ps IH]; intros h pre Hb Hp Hn; [simpl in *; by rewrite insert_id|].
  apply list.Forall_cons in Hp as [Hp Hps]. rewrite feet_cons in Hn. apply not_elem_of_app in Hn as [Hn1 Hn2].
  rewrite responses_cons in *. rewrite length_app, replicate_add, <- app_assoc, <- replicate_S_end in Hb. cbn [replicate] in Hb.
  rewrite (get_round h buf pre p _ Hb Hp) by (intros Hx; apply Hn1; by right).
  destruct (responses_insert h ps buf ((pre ++ response_of h p) ++ 0 :: replicate (length (responses h ps)) 0) Hps Hn2) as [Hps' Hf]. rewrite IH; [|by rewrite Hf, lookup_insert_eq, <- replicate_S_end|done|done].
  rewrite Hf, insert_insert_eq. by rewrite <- !app_assoc.
Qed.

Lemma responses_length h ps : List.Forall (prop_wf h) ps -> Z.of_nat (length (responses h ps)) = foldr (fun p m => 7 + len (value p) + m) 0 ps.
Proof.
  induction 1 as [|p ps Hp _ IH]; [done|]. rewrite responses_cons, length_app, Nat2Z.inj_add, IH. pose proof (data_length h _ (pw_value _ _ Hp)). simpl foldr. unfold response_of. simpl length. lia.
Qed.

Lemma get_pack_spec h n u o : op_wf h o -> element_num o < 256 -> (size h < capacity)%nat ->
  exists buf, h !! buf = None /\ buf <> 0 /\
    qm_spec_hex_get_pack (mk_info n u (Some o)) h =
      Ret ((QM_EOK, mk_info (1 + Z.of_nat (length (responses h (property o)))) buf (Some o)), <[buf := (element_num o :: responses h (property o)) ++ [0]]> h).
Proof.
  intros Hw Hlt Hc. pose proof Hw as [[Hn _] Hp _ _ _].
  assert (Hml : message_length sizeof_get_response_frame o = 1 + Z.of_nat (length (responses h (property o)))).
  { unfold message_length, sizeof_get_response_frame. rewrite length_loop_spec, (responses_length h) by (done || (rewrite u8_id by (widths; lia); lia)). done. }
  unfold qm_spec_hex_get_pack. cbn [property_operation]. rewrite Hml. set (fs := responses h (property o)).
  destruct (zalloc_some h (1 + Z.of_nat (length fs) + 1) Hc) as (buf & Ha & Hfr & Hz). exists buf. split; [done|]. split; [lia|].
  rewrite (heap_bind_step _ _ _ _ _ Hz), (proj2 (Z.eqb_neq _ _)) by lia. replace (Z.to_nat (1 + Z.of_nat (length fs) + 1)) with (1 + (length fs + 1))%nat by lia. rewrite !replicate_add.
  rewrite u8_id by (widths; lia). put_field (@nil Z) [0] (replicate (length fs) 0 ++ [0]).
  assert (Hnf : buf ∉ feet (property o)) by (intros Hx; destruct (feet_wf h _ _ Hp Hx) as [[b Hb] _]; by rewrite Hfr in Hb).
  simpl app. match goal with |- context [<[buf := ?bs]> h] => destruct (responses_insert h (property o) buf bs Hp Hnf) as [Hp1 Hf1] end. fold fs in Hf1.
  rewrite (heap_bind_step _ _ _ _ _ (get_loop_spec buf (property o) _ [element_num o] ltac:(rewrite lookup_insert_eq, Hf1; done) Hp1 Hnf)). by rewrite Hf1, insert_insert_eq.
Qed.

(** The response to a set. *)
Definition ack_of (p : qm_spec_property_t) : list Z := siid p :: be16 (piid p) ++ [u8 (code p)].
Definition acks (ps : list qm_spec_property_t) : list Z := ps ≫= ack_of.
Lemma acks_cons p ps : acks (p :: ps) = ack_of p ++ acks ps.
Proof. done. Qed.
Lemma acks_length ps : length (acks ps) = (4 * length ps)%nat.
Proof. induction ps as [|p ps IH]; [done|]. rewrite acks_cons, length_app, IH. simpl. lia. Qed.

Lemma set_pack_loop_spec buf ps : forall h pre k, h !! buf = Some (pre ++ replicate (length (acks ps)) 0) -> Z.of_nat (length pre) = 1 + 4 * k -> List.Forall (prop_wf h) ps ->
  buf ∉ feet ps -> set_pack_loop buf ps k h = Ret (tt, <[buf := pre ++ acks ps]> h).
Proof.
  induction ps as [|p ps IH]; intros h pre k Hb Hk Hp Hn; [simpl in *; by rewrite insert_id|].
  apply list.Forall_cons in Hp as [Hp Hps]. rewrite feet_cons in Hn. apply not_elem_of_app in Hn as [_ Hn2]. destruct (pw_ids _ _ Hp) as [_ Hi].
  rewrite acks_cons, length_app, replicate_add in Hb. set (z := replicate (length (acks ps)) 0) in *. change (length (ack_of p)) with 4%nat in Hb. cbn [replicate] in Hb.
  cbn [set_pack_loop]. unfold sizeof_set_response_frame. cbv zeta. rewrite <- Hk.
  rewrite (heap_bind_step _ _ _ _ _ (store_at h buf _ (pre ++ [0; 0; 0]) [0] [u8 (code p)] z (Z.of_nat (length pre) + 3) Hb ltac:(by rewrite <- app_assoc) ltac:(rewrite length_app; simpl; lia) eq_refl)).
  put_field pre [0] ([0; 0] ++ [u8 (code p)] ++ z). put_field (pre ++ [siid p]) [0; 0] ([u8 (code p)] ++ z). rewrite store_be16 by done. fold (be16 (piid p)).
  replace ((pre ++ [siid p]) ++ be16 (piid p) ++ [u8 (code p)] ++ z) with ((pre ++ ack_of p) ++ z) by (by rewrite <- !app_assoc).
  destruct (props_frame h (<[buf := (pre ++ ack_of p) ++ z]> h) ps) as [Hps' _]; [intros a Ha; apply lookup_insert_ne; by intros ->|done|].
  rewrite (IH _ (pre ++ ack_of p)); [by rewrite insert_insert_eq, acks_cons, app_assoc|by rewrite lookup_insert_eq|rewrite length_app; simpl; lia|done|done].
Qed.

Lemma set_pack_spec h n u o : op_wf h o -> element_num o < 256 -> (size h < capacity)%nat ->
  exists buf, h !! buf = None /\ buf <> 0 /\
    qm_spec_hex_set_pack (mk_info n u (Some o)) h = Ret ((QM_EOK, mk_info (Z.of_nat (length (acks (property o)))) buf (Some o)), <[buf := element_num o :: acks (property o)]> h).
Proof.
  intros Hw Hlt Hc. pose proof Hw as [[Hn _] Hp _ _ _]. unfold qm_spec_hex_set_pack, sizeof_set_response_frame. cbn [property_operation]. set (fs := acks (property o)).
  assert (Hml : 4 * element_num o = Z.of_nat (length fs)) by (unfold fs; rewrite acks_length; lia). rewrite Hml.
  destruct (zalloc_some h (Z.of_nat (length fs) + 1) Hc) as (buf & Ha & Hfr & Hz). exists buf. split; [done|]. split; [lia|].
  rewrite (heap_bind_step _ _ _ _ _ Hz), (proj2 (Z.eqb_neq _ _)) by lia. replace (Z.to_nat (Z.of_nat (length fs) + 1)) with (1 + length fs)%nat by lia. rewrite replicate_add.
  rewrite u8_id by (widths; lia). put_field (@nil Z) [0] (replicate (length fs) 0). simpl app.
  assert (Hnf : buf ∉ feet (property o)) by (intros Hx; destruct (feet_wf h _ _ Hp Hx) as [[b Hb] _]; by rewrite Hfr in Hb).
  match goal with |- context [<[buf := ?bs]> h] => destruct (props_frame h (<[buf := bs]> h) (property o)) as [Hp1 _]; [intros a Hx; apply lookup_insert_ne; by intros ->|done|] end.
  rewrite (heap_bind_step _ _ _ _ _ (set_pack_loop_spec buf (property o) _ [element_num o] 0 ltac:(by rewrite lookup_insert_eq) eq_refl Hp1 Hnf)). by rewrite insert_insert_eq.
Qed.

(** ** Releasing a message *)

Lemma destroy_spec h buf bs n o : op_wf h o -> h !! buf = None -> buf <> 0 ->
  destroy (mk_info n buf (Some o)) (<[buf := bs]> h) = Ret ((QM_EOK, mk_info 0 0 None), dispose (op_foot o) h).
Proof.
  intros Hw Hf Hb. unfold destroy. cbn [updata property_operation]. rewrite (proj2 (Z.eqb_neq _ _) Hb). cbn [negb].
  rewrite (heap_bind_step _ _ _ (mk_info 0 0 (Some o)) h); [|rewrite (heap_bind_step _ _ _ _ _ (free_step _ buf bs Hb ltac:(apply lookup_insert_eq))), delete_insert_id; done].
  cbn [property_operation]. by rewrite (heap_bind_step _ _ _ _ _ (operation_delete_frees_all h o Hw)).
Qed.

Lemma op_creat_spec h : (size h < capacity)%nat ->
  exists a, let o := mk_operation 0 [] a in let h1 := <[a := replicate (Z.to_nat sizeof_operation) 0]> h in
    qm_spec_property_operation_creat h = Ret (Some o, h1) /\ h !! a = None /\ op_wf h1 o /\ contents h1 o = ∅ /\ size h1 = S (size h).
Proof.
  intros Hc. destruct (zalloc_some h sizeof_operation Hc) as (a & Ha & Hfr & Hz). exists a. unfold qm_spec_property_operation_creat. rewrite (heap_bind_step _ _ _ _ _ Hz), (proj2 (Z.eqb_neq a 0)) by lia.
  cbv zeta. split; [done|]. split; [done|]. split; [|split; [done|by rewrite map_size_insert_None]].
  split; [done|constructor|constructor| |split; [cbn; lia|by rewrite lookup_insert_eq]]. apply list.NoDup_singleton.
Qed.

Lemma set_unpack_spec h n u c xs post o : List.Forall received_ok xs -> op_wf h o -> base.NoDup (r_ids <$> xs) -> (forall x, x ∈ xs -> r_ids x ∉ ids <$> property o) ->
  element_num o + Z.of_nat (length xs) < 2 ^ 16 -> (size h + 2 * length xs <= capacity)%nat ->
  exists o' h', qm_spec_hex_set_unpack (c :: wires xs ++ post) (1 + Z.of_nat (length (wires xs))) (mk_info n u (Some o)) h = Ret ((QM_EOK, mk_info n u (Some o')), h') /\
    op_wf h' o' /\ others_kept h o h' o' /\ contents h' o' = list_to_map (r_entry <$> xs) ∪ contents h o.
Proof.
  intros Hx Hw Hnd Hid Hnum Hc.
  assert (Hle : (length xs <= length (wires xs))%nat).
  { clear. induction xs as [|[[[s i] f] d] xs IH]; [done|]. rewrite wires_cons, length_app. cbn [wire length]. rewrite frame_length. lia. }
  destruct (set_loop_spec post xs (S (Z.to_nat (1 + Z.of_nat (length (wires xs))))) o h [c] Hx Hw Hnd Hid Hnum Hc) as (o' & h' & Hl & Hr); [lia|].
  exists o', h'. split; [|done]. unfold qm_spec_hex_set_unpack. cbn [property_operation]. rewrite (heap_bind_step _ _ h (Some o) h) by done.
  replace (1 + Z.of_nat (length (wires xs))) with (Z.of_nat (length ([c] ++ wires xs))) in * by (simpl; lia).
  by rewrite (heap_bind_step _ _ _ _ _ Hl).
Qed.

(** What a property looks like to the receiver. *)
Definition received_of (h : heap) (p : qm_spec_property_t) : received := (siid p, piid p, property_format (value p), data h (value p)).

Lemma wires_frames h ps : wires (received_of h <$> ps) = frames h ps.
Proof. induction ps as [|p ps IH]; [done|]. rewrite fmap_cons, wires_cons, IH. done. Qed.

Lemma received_of_ok h p : prop_wf h p -> is_u8 (property_format (value p)) -> 0 < len (value p) -> received_ok (received_of h p).
Proof.
  intros [Hv _ [Hs Hi]] Hf Hl. pose proof (data_length h _ Hv) as Hd. destruct (vw_len _ _ Hv) as [Hr H8]. unfold CONFIG_QM_SPEC_BUFF_SIZE in H8.
  split_and!; try done; [lia|lia|lia|by apply data_u8].
Qed.

Lemma size_insert_le (h : heap) (a : Z) (b : list Z) : (size (<[a := b]> h) <= S (size h))%nat.
Proof. destruct (h !! a) eqn:E; [rewrite map_size_insert_Some by done; lia|by rewrite map_size_insert_None]. Qed.

(** A message that arrives without an operation builds a new one. *)
Lemma set_unpack_fresh h n u c xs post : List.Forall received_ok xs -> base.NoDup (r_ids <$> xs) -> Z.of_nat (length xs) < 2 ^ 16 -> (size h + 1 + 2 * length xs <= capacity)%nat ->
  exists o' h', qm_spec_hex_set_unpack (c :: wires xs ++ post) (1 + Z.of_nat (length (wires xs))) (mk_info n u None) h = Ret ((QM_EOK, mk_info n u (Some o')), h') /\
    op_wf h' o' /\ contents h' o' = list_to_map (r_entry <$> xs) /\ (forall a, is_Some (h !! a) -> h' !! a = h !! a).
Proof.
  intros Hx Hnd Hnum Hc. destruct (op_creat_spec h) as (a & Hcr & Hfa & Hwa & Hca & Hsa); [lia|]. set (h1 := <[a := _]> h) in *.
  destruct (set_unpack_spec h1 n u c xs post (mk_operation 0 [] a)) as (o' & h' & Hun & Hw & Hk & Hct); [done|done|done|intros x _; apply not_elem_of_nil|cbn [element_num]; lia|lia|].
  exists o', h'. split; [|split; [done|split]].
  - unfold qm_spec_hex_set_unpack in *. cbn [property_operation] in *. by rewrite (heap_bind_step _ _ _ _ _ Hcr).
  - by rewrite Hct, Hca, (right_id_L ∅ (∪)).
  - intros b Hb. assert (Hba : b <> a) by (intros ->; rewrite Hfa in Hb; by destruct Hb). assert (Hh1 : h1 !! b = h !! b) by (by apply lookup_insert_ne).
    rewrite <- Hh1. apply Hk; [by rewrite Hh1|]. unfold op_foot. cbn. by rewrite list_elem_of_singleton.
Qed.
End frames.

(** ** Theorems *)

Section theorems.
Context {A : Allocator}.

(** C10: A report that is packed and given to the set handler of a receiver builds an operation
    with the same properties, formats and bytes.  There are less than 256 properties, the formats
    are bytes, no value is empty or has eight bytes ([op_wf]), and the memory is enough. *)
Theorem hex_roundtrip h o : op_wf h o -> element_num o < 256 -> List.Forall (fun p => is_u8 (property_format (value p)) /\ 0 < len (value p)) (property o) ->
  (size h + 2 + 2 * length (property o) <= capacity)%nat ->
  exists n buf msg h1, qm_spec_data_pack QM_SPEC_DATA_TYPE_HEX QM_SPEC_MSG_TYPE_REPORT (Some (mk_info 0 0 (Some o))) h = Ret ((QM_EOK, Some (mk_info n buf (Some o))), h1) /\
    h1 !! buf = Some msg /\
    exists o' h2, qm_spec_data_unpack QM_SPEC_DATA_TYPE_HEX QM_SPEC_MSG_TYPE_SET (Some msg) n (Some (mk_info 0 0 None)) h1 = Ret ((QM_EOK, Some (mk_info 0 0 (Some o'))), h2) /\
      op_wf h2 o' /\ contents h2 o' = contents h o /\ op_wf h2 o /\ contents h2 o = contents h o.
Proof.
  intros Hw Hlt Hf Hc. destruct (report_pack_spec h 0 0 o Hw Hlt) as (buf & Hfr & Hb0 & Hpk); [lia|]. pose proof Hw as [[Hn Hn2] Hp Hnd Hft [Ha Hop]].
  set (msg := (element_num o :: frames h (property o)) ++ [0]) in *. set (h1 := <[buf := msg]> h) in *.
  exists (1 + Z.of_nat (length (frames h (property o)))), buf, msg, h1.
  split; [change (qm_spec_data_pack _ _ _ h) with ((qm_spec_hex_report_pack (mk_info 0 0 (Some o)) ≫= fun '(r, i) => mret (r, Some i)) h); by rewrite (heap_bind_step _ _ _ _ _ Hpk)|].
  split; [by apply lookup_insert_eq|].
  assert (Hs1 : (size h1 <= S (size h))%nat) by apply size_insert_le. set (xs := received_of h <$> property o). assert (Hlx : length xs = length (property o)) by apply length_fmap.
  destruct (set_unpack_fresh h1 0 0 (element_num o) xs [0]) as (o' & h2 & Hun & Hw2 & Hc2 & Hk2); [|unfold xs; rewrite <- list_fmap_compose; exact Hnd|lia|lia|].
  { apply Forall_fmap, (Forall_impl _ _ _ (proj2 (Forall_and _ _) (conj Hp Hf))). intros p [Hpw [Hpf Hpl]]. by apply received_of_ok. }
  unfold xs in Hun, Hc2. rewrite wires_frames in Hun. rewrite <- list_fmap_compose in Hc2.
  destruct (op_wf_frame h h2 o) as [Hwo Hco]; [|done|].
  { intros b Hb. assert (Hbs : is_Some (h !! b)) by (apply elem_of_cons in Hb as [->|Hb]; [done|by apply (feet_wf h (property o))]).
    assert (Hbb : h1 !! b = h !! b) by (apply lookup_insert_ne; intros ->; rewrite Hfr in Hbs; by destruct Hbs). by rewrite <- Hbb, Hk2 by (by rewrite Hbb). }
  exists o', h2. split; [|done]. unfold qm_spec_data_unpack. rewrite (proj2 (Z.eqb_neq _ _)) by lia.
  change (qm_spec_data_handle_get _ _) with (Some (mk_handle QM_SPEC_DATA_TYPE_HEX QM_SPEC_MSG_TYPE_SET qm_spec_hex_set_unpack qm_spec_hex_set_pack qm_spec_hex_set_destroy)). cbn [unpack].
  by rewrite (heap_bind_step _ _ _ _ _ Hun).
Qed.

(** A set or service message adds its properties to the operation it is given; the other
    properties and blocks stay. *)
Theorem set_unpack_refines h mt c xs post o : mt = QM_SPEC_MSG_TYPE_SET \/ mt = QM_SPEC_MSG_TYPE_SERVICE ->
  List.Forall received_ok xs -> op_wf h o -> base.NoDup (r_ids <$> xs) -> (forall x, x ∈ xs -> r_ids x ∉ ids <$> property o) ->
  element_num o + Z.of_nat (length xs) < 2 ^ 16 -> (size h + 2 * length xs <= capacity)%nat ->
  exists o' h', qm_spec_data_unpack QM_SPEC_DATA_TYPE_HEX mt (Some (c :: wires xs ++ post)) (1 + Z.of_nat (length (wires xs))) (Some (mk_info 0 0 (Some o))) h =
      Ret ((QM_EOK, Some (mk_info 0 0 (Some o'))), h') /\
    op_wf h' o' /\ others_kept h o h' o' /\ contents h' o' = list_to_map (r_entry <$> xs) ∪ contents h o.
Proof.
  intros Hmt Hx Hw Hnd Hid Hnum Hc. destruct (set_unpack_spec h 0 0 c xs post o Hx Hw Hnd Hid Hnum Hc) as (o' & h' & Hun & Hr).
  exists o', h'. split; [|done]. unfold qm_spec_data_unpack. rewrite (proj2 (Z.eqb_neq _ _)) by lia.
  assert (Hg : exists x, qm_spec_data_handle_get QM_SPEC_DATA_TYPE_HEX mt = Some x /\ unpack x = qm_spec_hex_set_unpack) by (destruct Hmt as [-> | ->]; by eexists).
  destruct Hg as (x & -> & ->). by rewrite (heap_bind_step _ _ _ _ _ Hun).
Qed.

Lemma pack_all h mt n u o : mt ∈ [QM_SPEC_MSG_TYPE_SET; QM_SPEC_MSG_TYPE_GET; QM_SPEC_MSG_TYPE_REPORT; QM_SPEC_MSG_TYPE_SERVICE] ->
  op_wf h o -> element_num o < 256 -> (size h < capacity)%nat ->
  exists k buf msg, h !! buf = None /\ buf <> 0 /\
    qm_spec_data_pack QM_SPEC_DATA_TYPE_HEX mt (Some (mk_info n u (Some o))) h = Ret ((QM_EOK, Some (mk_info k buf (Some o))), <[buf := msg]> h) /\
    forall i, qm_spec_data_destroy QM_SPEC_DATA_TYPE_HEX mt (Some i) = ('(r, i) ← destroy i; mret (r, Some i)).
Proof.
  intros Hmt Hw Hlt Hc. rewrite !elem_of_cons, elem_of_nil in Hmt.
  destruct (set_pack_spec h n u o Hw Hlt Hc) as (b1 & H1 & N1 & P1). destruct (get_pack_spec h n u o Hw Hlt Hc) as (b2 & H2 & N2 & P2).
  destruct (report_pack_spec h n u o Hw Hlt Hc) as (b3 & H3 & N3 & P3).
  destruct Hmt as [-> | [-> | [-> | [-> | []]]]]; [eexists _, b1, _|eexists _, b2, _|eexists _, b3, _|eexists _, b1, _]; (split; [done|]; split; [done|]; split; [|done]).
  - exact (heap_bind_step _ _ _ _ _ P1).
  - exact (heap_bind_step _ _ _ _ _ P2).
  - exact (heap_bind_step _ _ _ _ _ P3).
  - exact (heap_bind_step _ _ _ _ _ P1).
Qed.

(** Packing a message and destroying it frees the message, the operation and every
    property of it, and nothing else. *)
Theorem message_released h mt n u o : mt ∈ [QM_SPEC_MSG_TYPE_SET; QM_SPEC_MSG_TYPE_GET; QM_SPEC_MSG_TYPE_REPORT; QM_SPEC_MSG_TYPE_SERVICE] ->
  op_wf h o -> element_num o < 256 -> (size h < capacity)%nat ->
  exists i h1, qm_spec_data_pack QM_SPEC_DATA_TYPE_HEX mt (Some (mk_info n u (Some o))) h = Ret ((QM_EOK, Some i), h1) /\
    qm_spec_data_destroy QM_SPEC_DATA_TYPE_HEX mt (Some i) h1 = Ret ((QM_EOK, Some (mk_info 0 0 None)), dispose (op_foot o) h).
Proof.
  intros Hmt Hw Hlt Hc. destruct (pack_all h mt n u o Hmt Hw Hlt Hc) as (k & buf & msg & Hf & Hb & Hp & Hd).
  exists (mk_info k buf (Some o)), (<[buf := msg]> h). split; [done|]. rewrite Hd. by rewrite (heap_bind_step _ _ _ _ _ (destroy_spec h buf msg k o Hw Hf Hb)).
Qed.

(** The messages sent in response to a get and to a set, byte by byte.  The length given
    for the set response leaves its last byte out, and the get response carries format 0. *)
Theorem responses_on_the_wire h o : op_wf h o -> element_num o < 256 -> (size h < capacity)%nat ->
  (exists buf, qm_spec_data_pack QM_SPEC_DATA_TYPE_HEX QM_SPEC_MSG_TYPE_GET (Some (mk_info 0 0 (Some o))) h =
     Ret ((QM_EOK, Some (mk_info (1 + Z.of_nat (length (responses h (property o)))) buf (Some o))), <[buf := (element_num o :: responses h (property o)) ++ [0]]> h)) /\
  (exists buf, qm_spec_data_pack QM_SPEC_DATA_TYPE_HEX QM_SPEC_MSG_TYPE_SET (Some (mk_info 0 0 (Some o))) h =
     Ret ((QM_EOK, Some (mk_info (Z.of_nat (length (acks (property o)))) buf (Some o))), <[buf := element_num o :: acks (property o)]> h)).
Proof.
  intros Hw Hlt Hc. destruct (set_pack_spec h 0 0 o Hw Hlt Hc) as (b1 & _ & _ & P1). destruct (get_pack_spec h 0 0 o Hw Hlt Hc) as (b2 & _ & _ & P2).
  split; [exists b2; exact (heap_bind_step _ _ _ _ _ P2)|exists b1; exact (heap_bind_step _ _ _ _ _ P1)].
Qed.

(** A message kind without a handler, a NULL argument or an empty message is refused with
    -QM_EINVAL and changes nothing. *)
Theorem dispatch_refuses dt mt data n i h : ~ (dt = QM_SPEC_DATA_TYPE_HEX /\ mt ∈ [QM_SPEC_MSG_TYPE_SET; QM_SPEC_MSG_TYPE_GET; QM_SPEC_MSG_TYPE_REPORT; QM_SPEC_MSG_TYPE_SERVICE]) ->
  qm_spec_data_unpack dt mt data n i h = Ret ((- QM_EINVAL, i), h) /\ qm_spec_data_pack dt mt i h = Ret ((- QM_EINVAL, i), h) /\
  qm_spec_data_destroy dt mt i h = Ret ((- QM_EINVAL, i), h) /\
  forall dt' mt', qm_spec_data_unpack dt' mt' None n i h = Ret ((- QM_EINVAL, i), h) /\ qm_spec_data_unpack dt' mt' data 0 i h = Ret ((- QM_EINVAL, i), h).
Proof.
  intros Hno. assert (Hg : qm_spec_data_handle_get dt mt = None).
  { unfold qm_spec_data_handle_get, g_qm_spec_data_handle. cbn [handle_from msg_type data_type].
    destruct (dt =? QM_SPEC_DATA_TYPE_HEX) eqn:E; rewrite ?andb_false_r; [|done]. apply Z.eqb_eq in E. rewrite !andb_true_r.
    assert (Hne : forall k, k ∈ [QM_SPEC_MSG_TYPE_SET; QM_SPEC_MSG_TYPE_GET; QM_SPEC_MSG_TYPE_REPORT; QM_SPEC_MSG_TYPE_SERVICE] -> (mt =? k) = false).
    { intros k Hk. apply Z.eqb_neq. intros ->. by apply Hno. }
    rewrite !Hne by (rewrite !elem_of_cons; tauto). done. }
  unfold qm_spec_data_unpack, qm_spec_data_pack, qm_spec_data_destroy. rewrite Hg. split_and!; [destruct data, i; try done; by case_match|by destruct i|by destruct i|].
  intros dt' mt'. split; [by destruct i|by destruct data, i].
Qed.
End theorems.

(** ** Behaviour on particular inputs *)

#[local] Existing Instance table_allocator.

Definition known (i : option qm_spec_data_info_t) : list (Z * Z) :=
  match i with Some (mk_info _ _ (Some o)) => ids <$> property o | _ => [] end.

(** The property of a get request is looked up under its number with the bytes swapped; the
    set request with the same number has it right. *)
Theorem get_request_swapped :
  match qm_spec_data_unpack QM_SPEC_DATA_TYPE_HEX QM_SPEC_MSG_TYPE_GET (Some [1; 1; 0; 2]) 4 (Some (mk_info 0 0 None)) ∅,
        qm_spec_data_unpack QM_SPEC_DATA_TYPE_HEX QM_SPEC_MSG_TYPE_SET (Some [1; 1; 0; 2; 0; 1; 0; 7]) 8 (Some (mk_info 0 0 None)) ∅ with
  | Ret ((r1, i1), _), Ret ((r2, i2), _) =>
      r1 = QM_EOK /\ known i1 = [(1, 512)] /\
      r2 = QM_EOK /\ known i2 = [(1, 2)]
  | _, _ => False
  end.
Proof. vm_compute. done. Qed.

(** The handlers trust the counts in the message: a short one is read past its end. *)
Theorem short_message_overread :
  qm_spec_data_unpack QM_SPEC_DATA_TYPE_HEX QM_SPEC_MSG_TYPE_GET (Some [2; 1; 0; 2]) 4 (Some (mk_info 0 0 None)) ∅ = OutOfBounds /\
  qm_spec_data_unpack QM_SPEC_DATA_TYPE_HEX QM_SPEC_MSG_TYPE_SET (Some [1; 1; 0; 2; 0; 9; 0; 7]) 8 (Some (mk_info 0 0 None)) ∅ = OutOfBounds.
Proof. vm_compute. done. Qed.

(** A property that is sent twice is allocated twice and kept once; its second node is never
    freed.  The node of a property of length 0 is lost in the same way. *)
Theorem refused_property_leaks :
  match ('(_, i) ← qm_spec_data_unpack QM_SPEC_DATA_TYPE_HEX QM_SPEC_MSG_TYPE_SET (Some [2; 1; 0; 2; 0; 1; 0; 7; 1; 0; 2; 0; 1; 0; 8]) 15 (Some (mk_info 0 0 None));
         qm_spec_data_destroy QM_SPEC_DATA_TYPE_HEX QM_SPEC_MSG_TYPE_SET i) ∅,
        ('(_, i) ← qm_spec_data_unpack QM_SPEC_DATA_TYPE_HEX QM_SPEC_MSG_TYPE_SET (Some [1; 1; 0; 2; 0; 0; 0]) 7 (Some (mk_info 0 0 None));
         qm_spec_data_destroy QM_SPEC_DATA_TYPE_HEX QM_SPEC_MSG_TYPE_SET i) ∅ with
  | Ret ((r1, _), h1), Ret ((r2, _), h2) => r1 = QM_EOK /\ r2 = QM_EOK /\ size h1 = 1%nat /\ size h2 = 1%nat
  | _, _ => False
  end.
Proof. vm_compute. done. Qed.

(** The number of properties is counted in 8 bits: with 256 of them the buffer has 2 bytes. *)
Definition many : qm_spec_property_operation_t :=
  mk_operation 256 ((fun k => mk_property 0 1 (Z.of_nat k) 0 (mk_value 1 QM_SPEC_PROPERTY_FORMAT_UINT8 (replicate 8 0)) 1) <$> seq 0 256) 1.
Theorem report_overflows : qm_spec_data_pack QM_SPEC_DATA_TYPE_HEX QM_SPEC_MSG_TYPE_REPORT (Some (mk_info 0 0 (Some many))) ∅ = OutOfBounds.
Proof. vm_compute. done. Qed.

(** ** Witnesses *)

Lemma hex_roundtrip_witness :
  exists o' h2, contents h2 o' = {[(1, 2) := (QM_SPEC_PROPERTY_FORMAT_NUMBER, [255; 255; 255; 251]); (1, 3) := (QM_SPEC_PROPERTY_FORMAT_STRING, hello)]}.
Proof.
  destruct (hex_roundtrip heap1 op1 op1_wf) as (n & buf & msg & h1 & _ & _ & o' & h2 & _ & _ & Hc & _); [simpl; lia| |apply Nat.leb_le; vm_compute; done|].
  - repeat (constructor; [split; [by vm_compute|simpl; lia]|]). constructor.
  - exists o', h2. rewrite Hc. vm_compute. done.
Defined.

Lemma set_unpack_refines_witness :
  exists o' h', qm_spec_data_unpack QM_SPEC_DATA_TYPE_HEX QM_SPEC_MSG_TYPE_SERVICE (Some [1; 2; 1; 0; 0; 2; 5; 9; 8]) 9 (Some (mk_info 0 0 (Some op2))) heap1 =
      Ret ((QM_EOK, Some (mk_info 0 0 (Some o'))), h') /\ contents h' o' = {[(2, 256) := (5, [9; 8]); (1, 3) := (QM_SPEC_PROPERTY_FORMAT_UINT16, [18; 52])]}.
Proof.
  destruct (set_unpack_refines heap1 QM_SPEC_MSG_TYPE_SERVICE 1 [(2, 256, 5, [9; 8])] [] op2) as (o' & h' & Hr & _ & _ & Hc); [by right| |exact op2_wf| | |simpl; lia|apply Nat.leb_le; vm_compute; done|].
  - constructor; [|constructor]. repeat split; try (widths; simpl; lia). u8_check.
  - apply list.NoDup_singleton.
  - apply (proj1 (Forall_forall (fun x => r_ids x ∉ ids <$> property op2) _)), (bool_decide_unpack _). vm_compute. done.
  - exists o', h'. split; [exact Hr|]. rewrite Hc. vm_compute. done.
Defined.

Lemma message_released_witness :
  exists i h1, qm_spec_data_pack QM_SPEC_DATA_TYPE_HEX QM_SPEC_MSG_TYPE_REPORT (Some (mk_info 0 0 (Some op1))) heap1 = Ret ((QM_EOK, Some i), h1) /\
    qm_spec_data_destroy QM_SPEC_DATA_TYPE_HEX QM_SPEC_MSG_TYPE_REPORT (Some i) h1 = Ret ((QM_EOK, Some (mk_info 0 0 None)), {[1280 := zeros 8; 1536 := zeros 28]}).
Proof.
  destruct (message_released heap1 QM_SPEC_MSG_TYPE_REPORT 0 0 op1) as (i & h1 & Hp & Hd); [right; right; by left|exact op1_wf|simpl; lia|apply Nat.ltb_lt; vm_compute; done|].
  exists i, h1. split; [exact Hp|]. rewrite Hd. vm_compute. done.
Defined.

Lemma responses_on_the_wire_witness :
  exists buf, qm_spec_data_pack QM_SPEC_DATA_TYPE_HEX QM_SPEC_MSG_TYPE_SET (Some (mk_info 0 0 (Some op1))) heap1 =
    Ret ((QM_EOK, Some (mk_info 8 buf (Some op1))), <[buf := [2; 1; 0; 2; 0; 1; 0; 3; 0]]> heap1).
Proof.
  destruct (responses_on_the_wire heap1 op1 op1_wf) as [_ [buf Hs]]; [simpl; lia|apply Nat.ltb_lt; vm_compute; done|]. exists buf. exact Hs.
Defined.

Lemma dispatch_refuses_witness :
  qm_spec_data_pack QM_SPEC_DATA_TYPE_HEX 3 (Some (mk_info 0 0 (Some op1))) heap1 = Ret ((- QM_EINVAL, Some (mk_info 0 0 (Some op1))), heap1).
Proof.
  destruct (dispatch_refuses QM_SPEC_DATA_TYPE_HEX 3 None 0 (Some (mk_info 0 0 (Some op1))) heap1) as (_ & Hp & _); [|exact Hp].
  intros [_ H3]. revert H3. apply (bool_decide_unpack _). vm_compute. done.
Defined.
End SpecHex.
