(* ===== verification/Words.v ===== *)
(** * Words and bytes

    Bits of 8 and 32-bit values: the bytes of a word, words in little-endian memory, and
    facts on all bytes by evaluation.  The ciphers and hashes of utility/ share them. *)

From Stdlib Require Import Btauto.
From S2P Require Import Prelude.
Import list_relations.list list_basics.list.
Open Scope Z_scope.

Module Words.

(** A table entry; the index is a byte. *)
Definition at_ (t : list Z) (i : Z) : Z := default 0 (t !! Z.to_nat i).

(** Byte [i] of a word: [( w >> 8*i ) & 0xFF]. *)
Definition B (i : Z) (w : Z) : Z := Z.land (Z.shiftr w (8 * i)) 0xFF.

(** The word at offset [i] of a little-endian memory, and the bytes of a word. *)
Definition load_le (b : list Z) (i : nat) : Z :=
  Z.lor (Z.lor (Z.lor (at_ b (Z.of_nat i)) (Z.shiftl (at_ b (Z.of_nat (i + 1))) 8)) (Z.shiftl (at_ b (Z.of_nat (i + 2))) 16)) (Z.shiftl (at_ b (Z.of_nat (i + 3))) 24).
Definition store_le (n : Z) : list Z := [u8 n; u8 (Z.shiftr n 8); u8 (Z.shiftr n 16); u8 (Z.shiftr n 24)].

(** ** Words as four bytes *)

Definition W (a b c d : Z) : Z := Z.lxor (Z.lxor (Z.lxor a (Z.shiftl b 8)) (Z.shiftl c 16)) (Z.shiftl d 24).

Lemma byte_high x n : is_u8 x -> 8 <= n -> Z.testbit x n = false.
Proof.
  intros [H0 H1] Hn. destruct (Z.eq_dec x 0) as [->|]; [apply Z.bits_0|].
  apply Z.bits_above_log2; [done|]. apply Z.log2_lt_pow2; [lia|]. apply Z.lt_le_trans with (2 ^ 8); [done|]. apply Z.pow_le_mono_r; lia.
Qed.

Lemma word_high x n : is_u32 x -> 32 <= n -> Z.testbit x n = false.
Proof.
  intros [H0 H1] Hn. destruct (Z.eq_dec x 0) as [->|]; [apply Z.bits_0|].
  apply Z.bits_above_log2; [done|]. apply Z.log2_lt_pow2; [lia|]. apply Z.lt_le_trans with (2 ^ 32); [done|]. apply Z.pow_le_mono_r; lia.
Qed.

Lemma below_bits x k : 0 <= k -> 0 <= x -> (forall n, k <= n -> Z.testbit x n = false) -> 0 <= x < 2 ^ k.
Proof.
  intros Hk Hx H. split; [done|]. destruct (Z.eq_dec x 0) as [->|]; [apply Z.pow_pos_nonneg; lia|].
  apply Z.log2_lt_pow2; [lia|]. destruct (Z.lt_ge_cases (Z.log2 x) k) as [|Hge]; [done|].
  specialize (H _ Hge). rewrite Z.bit_log2 in H; [done|lia].
Qed.

Lemma lxor_u32 a b : is_u32 a -> is_u32 b -> is_u32 (Z.lxor a b).
Proof.
  intros Ha Hb. apply below_bits; [lia|apply Z.lxor_nonneg; unfold is_u32 in *; lia|].
  intros n Hn. rewrite Z.lxor_spec, !word_high; done.
Qed.
Lemma lxor_u8 a b : is_u8 a -> is_u8 b -> is_u8 (Z.lxor a b).
Proof.
  intros Ha Hb. apply below_bits; [lia|apply Z.lxor_nonneg; unfold is_u8 in *; lia|].
  intros n Hn. rewrite Z.lxor_spec, !byte_high; done.
Qed.

Lemma B_spec i w n : 0 <= i -> 0 <= n -> Z.testbit (B i w) n = Z.testbit w (n + 8 * i) && (n <? 8).
Proof.
  intros Hi Hn. unfold B. change 0xFF with (Z.ones 8). rewrite Z.land_spec, Z.shiftr_spec by lia.
  destruct (Z.ltb_spec n 8); [rewrite Z.ones_spec_low by lia|rewrite Z.ones_spec_high by lia]; done.
Qed.

Lemma B_u8 i w : is_u8 (B i w).
Proof. unfold B. change 0xFF with (Z.ones 8). rewrite Z.land_ones by lia. apply Z.mod_pos_bound. lia. Qed.

Lemma B_lxor i a b : 0 <= i -> B i (Z.lxor a b) = Z.lxor (B i a) (B i b).
Proof.
  intros Hi. apply Z.bits_inj'. intros n Hn. rewrite Z.lxor_spec, !B_spec, Z.lxor_spec by lia.
  destruct (n <? 8), (Z.testbit a (n + 8 * i)), (Z.testbit b (n + 8 * i)); done.
Qed.

Lemma W_spec a b c d n : is_u8 a -> is_u8 b -> is_u8 c -> is_u8 d -> 0 <= n ->
  Z.testbit (W a b c d) n = if n <? 8 then Z.testbit a n else if n <? 16 then Z.testbit b (n - 8) else if n <? 24 then Z.testbit c (n - 16) else Z.testbit d (n - 24).
Proof.
  intros Ha Hb Hc Hd Hn. unfold W. rewrite !Z.lxor_spec, !Z.shiftl_spec by lia.
  destruct (Z.ltb_spec n 8); [rewrite !(Z.testbit_neg_r _ (n - _)) by lia; by rewrite !xorb_false_r|].
  rewrite (byte_high a) by (done || lia). rewrite xorb_false_l.
  destruct (Z.ltb_spec n 16); [rewrite (Z.testbit_neg_r c), (Z.testbit_neg_r d) by lia; by rewrite !xorb_false_r|].
  rewrite (byte_high b) by (done || lia). rewrite xorb_false_l.
  destruct (Z.ltb_spec n 24); [rewrite (Z.testbit_neg_r d) by lia; by rewrite !xorb_false_r|].
  rewrite (byte_high c) by (done || lia). by rewrite xorb_false_l.
Qed.

Lemma W_nonneg a b c d : is_u8 a -> is_u8 b -> is_u8 c -> is_u8 d -> 0 <= W a b c d.
Proof. unfold is_u8, W. intros. rewrite !Z.lxor_nonneg, !Z.shiftl_nonneg. tauto. Qed.

Lemma W_u32 a b c d : is_u8 a -> is_u8 b -> is_u8 c -> is_u8 d -> is_u32 (W a b c d).
Proof.
  intros. apply below_bits; [lia|by apply W_nonneg|]. intros n Hn. rewrite W_spec by (done || lia).
  destruct (Z.ltb_spec n 8); [lia|]. destruct (Z.ltb_spec n 16); [lia|]. destruct (Z.ltb_spec n 24); [lia|]. apply byte_high; [done|lia].
Qed.

(** The bytes of a word put together, and a word taken apart. *)
Lemma B_W a b c d : is_u8 a -> is_u8 b -> is_u8 c -> is_u8 d ->
  B 0 (W a b c d) = a /\ B 1 (W a b c d) = b /\ B 2 (W a b c d) = c /\ B 3 (W a b c d) = d.
Proof.
  intros Ha Hb Hc Hd. repeat split; apply Z.bits_inj'; intros n Hn; rewrite B_spec, W_spec by (done || lia);
    (destruct (Z.ltb_spec n 8) as [H8|H8]; [rewrite andb_true_r|rewrite andb_false_r; symmetry; by apply byte_high]);
    repeat match goal with |- context [if ?x <? ?y then _ else _] => destruct (Z.ltb_spec x y); [try lia|try lia] end; f_equal; lia.
Qed.

Lemma W_B w : is_u32 w -> W (B 0 w) (B 1 w) (B 2 w) (B 3 w) = w.
Proof.
  intros Hw. apply Z.bits_inj'. intros n Hn. rewrite W_spec by (apply B_u8 || lia).
  destruct (Z.ltb_spec n 8) as [H|H]; [|destruct (Z.ltb_spec n 16); [|destruct (Z.ltb_spec n 24)]];
    rewrite B_spec by lia;
    match goal with |- _ && (?m <? 8) = _ => destruct (Z.ltb_spec m 8) end; rewrite ?andb_true_r, ?andb_false_r; try lia; try (f_equal; lia).
  symmetry. apply word_high; [done|lia].
Qed.

Lemma W_lxor a b c d a' b' c' d' : Z.lxor (W a b c d) (W a' b' c' d') = W (Z.lxor a a') (Z.lxor b b') (Z.lxor c c') (Z.lxor d d').
Proof.
  unfold W. apply Z.bits_inj'. intros n Hn. rewrite !Z.lxor_spec, !Z.shiftl_spec, !Z.lxor_spec by lia.
  repeat match goal with |- context [Z.testbit ?x ?k] => destruct (Z.testbit x k) end; done.
Qed.

Lemma W_inj w w' : is_u32 w -> is_u32 w' -> (forall i, 0 <= i < 4 -> B i w = B i w') -> w = w'.
Proof. intros Hw Hw' H. rewrite <- (W_B w), <- (W_B w') by done. rewrite !H by lia. done. Qed.

(** Equations between xors. *)
Ltac xor_ac :=
  apply Z.bits_inj'; let n := fresh "n" in intros n ?; rewrite ?Z.lxor_spec;
  repeat match goal with |- context [Z.testbit ?x n] => let t := fresh "t" in set (t := Z.testbit x n) in *; clearbody t end; btauto.

(** Equations between combinations of bits. *)
Ltac bits_ac :=
  apply Z.bits_inj'; let n := fresh "n" in intros n ?; rewrite ?Z.lxor_spec, ?Z.lor_spec, ?Z.land_spec, ?Z.lxor_spec, ?Z.lor_spec, ?Z.land_spec, ?Z.lxor_spec, ?Z.lnot_spec by lia;
  repeat match goal with |- context [Z.testbit ?x n] => let t := fresh "t" in set (t := Z.testbit x n) in *; clearbody t end; btauto.

(** A fact on every byte, checked by evaluation. *)
Definition all_bytes (p : Z -> bool) : bool := forallb (fun n => p (Z.of_nat n)) (seq 0 256).
Lemma all_bytes_spec p b : all_bytes p = true -> is_u8 b -> p b = true.
Proof.
  intros H [H0 H1]. unfold all_bytes in H. rewrite forallb_forall in H. specialize (H (Z.to_nat b)).
  rewrite Z2Nat.id in H by done. apply H, in_seq. change (2 ^ 8) with 256 in H1. lia.
Qed.
(** The check of [p], by evaluation. *)
Ltac on_bytes p b H := refine (all_bytes_spec p b _ H); vm_compute; reflexivity.
Definition u8b (x : Z) : bool := (0 <=? x) && (x <? 256).
Lemma u8b_spec x : u8b x = true -> is_u8 x.
Proof. unfold u8b, is_u8. intros [H0%Z.leb_le H1%Z.ltb_lt]%andb_prop. change (2 ^ 8) with 256. lia. Qed.

Lemma u8b_list l : forallb u8b l = true -> List.Forall is_u8 l.
Proof. intros H. rewrite forallb_forall in H. apply List.Forall_forall. intros x Hx. by apply u8b_spec, H. Qed.

Definition u32b (x : Z) : bool := (0 <=? x) && (x <? 2 ^ 32).
Lemma u32b_spec x : u32b x = true -> is_u32 x.
Proof. unfold u32b, is_u32. intros [H0%Z.leb_le H1%Z.ltb_lt]%andb_prop. done. Qed.

Lemma u32b_list l : forallb u32b l = true -> List.Forall is_u32 l.
Proof. intros H. rewrite forallb_forall in H. apply List.Forall_forall. intros x Hx. by apply u32b_spec, H. Qed.

(** Bytes in memory. *)
Lemma load_W b i : List.Forall is_u8 b ->
  load_le b i = W (at_ b (Z.of_nat i)) (at_ b (Z.of_nat (i + 1))) (at_ b (Z.of_nat (i + 2))) (at_ b (Z.of_nat (i + 3))).
Proof.
  intros H. assert (forall j, is_u8 (at_ b j)) as Hb.
  { intros j. unfold at_. destruct (b !! Z.to_nat j) as [x|] eqn:E; [|by split]. cbn. rewrite list.Forall_forall in H. apply H. by eapply list_elem_of_lookup_2. }
  unfold load_le. apply Z.bits_inj'. intros n Hn. rewrite W_spec, !Z.lor_spec, !Z.shiftl_spec by (done || lia).
  destruct (Z.ltb_spec n 8); [rewrite !(Z.testbit_neg_r _ (n - _)) by lia; by rewrite !orb_false_r|].
  rewrite (byte_high (at_ b (Z.of_nat i))) by (done || lia). rewrite orb_false_l.
  destruct (Z.ltb_spec n 16); [rewrite !(Z.testbit_neg_r _ (n - 16)), !(Z.testbit_neg_r _ (n - 24)) by lia; by rewrite !orb_false_r|].
  rewrite (byte_high (at_ b (Z.of_nat (i + 1)))) by (done || lia). rewrite orb_false_l.
  destruct (Z.ltb_spec n 24); [rewrite !(Z.testbit_neg_r _ (n - 24)) by lia; by rewrite !orb_false_r|].
  rewrite (byte_high (at_ b (Z.of_nat (i + 2)))) by (done || lia). by rewrite orb_false_l.
Qed.

Lemma at_u8 b j : List.Forall is_u8 b -> is_u8 (at_ b j).
Proof.
  intros H. unfold at_. destruct (b !! Z.to_nat j) as [x|] eqn:E; [|by split]. cbn. rewrite list.Forall_forall in H. apply H. by eapply list_elem_of_lookup_2.
Qed.

Lemma load_u32 b i : List.Forall is_u8 b -> is_u32 (load_le b i).
Proof. intros H. rewrite load_W by done. apply W_u32; by apply at_u8. Qed.

Lemma store_B n : store_le n = [B 0 n; B 1 n; B 2 n; B 3 n].
Proof.
  unfold store_le, B, u8. change 0xFF with (Z.ones 8). rewrite !Z.land_ones by lia. by rewrite Z.shiftr_0_r.
Qed.

Lemma B_div i w : 0 <= i -> B i w = w / 2 ^ (8 * i) mod 256.
Proof. intros Hi. unfold B. change 0xFF with (Z.ones 8). by rewrite Z.land_ones, Z.shiftr_div_pow2 by lia. Qed.

Lemma W_sum a b c d : is_u8 a -> is_u8 b -> is_u8 c -> is_u8 d -> W a b c d = a + 2 ^ 8 * b + 2 ^ 16 * c + 2 ^ 24 * d.
Proof.
  unfold is_u8. intros Ha Hb Hc Hd. change (2 ^ 8) with 256 in *. change (2 ^ 16) with 65536. change (2 ^ 24) with 16777216.
  apply W_inj; [apply W_u32; done|unfold is_u32; change (2 ^ 32) with 4294967296; lia|].
  intros i Hi. destruct (B_W a b c d Ha Hb Hc Hd) as (B0 & B1 & B2 & B3).
  assert (i = 0 \/ i = 1 \/ i = 2 \/ i = 3) as [-> | [-> | [-> | ->]]] by lia; rewrite ?B0, ?B1, ?B2, ?B3, B_div by lia; cbn [Z.mul]; 
    [change (2 ^ 0) with 1|change (2 ^ 8) with 256|change (2 ^ 16) with 65536|change (2 ^ 24) with 16777216]; Z.div_mod_to_equations; lia.
Qed.

(** Sums and complements modulo 2^32. *)
Lemma u32_add_l a b : u32 (u32 a + b) = u32 (a + b).
Proof. apply Zplus_mod_idemp_l. Qed.
Lemma u32_add_r a b : u32 (a + u32 b) = u32 (a + b).
Proof. apply Zplus_mod_idemp_r. Qed.
Lemma lnot_u32 x : is_u32 x -> u32 (Z.lnot x) = 2 ^ 32 - 1 - x.
Proof.
  intros Hx. unfold u32, is_u32, Z.lnot in *. replace (Z.pred (- x)) with (2 ^ 32 - 1 - x + (-1) * 2 ^ 32) by lia. rewrite Z.mod_add by lia. apply Z.mod_small. lia.
Qed.

(** An element of a list by its position. *)
Definition at_n (l : list Z) (i : nat) : Z := default 0 (l !! i).
Lemma at_n_app_l (l x : list Z) i : (i < length l)%nat -> at_n (l ++ x) i = at_n l i.
Proof. intros H. unfold at_n. by rewrite lookup_app_l. Qed.

End Words.
