(* ===== verification/Merkle.v ===== *)
(** * Iterated hashes

    What MD5, SHA-1 and SHA-256 share: a message is padded to whole blocks of 64 bytes, and
    a compression function takes one block after the other.  The first part is the
    definition of the standards; the second, the buffering of a context that is given the
    message piece by piece, and the proof that it takes the same blocks. *)

From S2P Require Import Prelude Words.
Import list_relations.list list_basics.list Words.
Open Scope Z_scope.

Module Merkle.

(** ** The iteration *)

Section iteration.
Context {St : Type} (compress : St -> list Z -> St).

Fixpoint absorb_n (n : nat) (s : St) (m : list Z) : St :=
  match n with
  | O => s
  | S n => absorb_n n (compress s (take 64 m)) (drop 64 m)
  end.
(** The whole blocks of [m], and what is left of it. *)
Definition absorb (s : St) (m : list Z) : St := absorb_n (length m / 64) s m.
Definition rest (m : list Z) : list Z := drop (64 * (length m / 64)) m.

(** The padding of a message of [n] bytes: a one bit, zeros, and the length. *)
Definition padding (n : nat) (len : list Z) : list Z := 0x80 :: replicate (Z.to_nat ((55 - Z.of_nat n) mod 64)) 0 ++ len.

Definition iterate (s0 : St) (len : nat -> list Z) (m : list Z) : St := absorb s0 (m ++ padding (length m) (len (length m))).

Lemma padding_length n len : length len = 8%nat -> (length (padding n len) = 64 - n mod 64 \/ length (padding n len) = 128 - n mod 64)%nat /\ ((n + length (padding n len)) mod 64 = 0)%nat.
Proof.
  intros Hl. unfold padding. cbn [length]. rewrite length_app, length_replicate, Hl.
  pose proof (Nat.div_mod_eq n 64) as Hn. pose proof (Nat.mod_upper_bound n 64 ltac:(lia)) as Hm.
  assert (((55 - Z.of_nat n) mod 64 = (55 - Z.of_nat (n mod 64)) mod 64)%Z) as ->.
  { rewrite Hn at 1. rewrite Nat2Z.inj_add, Nat2Z.inj_mul. replace (55 - (Z.of_nat 64 * Z.of_nat (n / 64) + Z.of_nat (n mod 64)))%Z with (55 - Z.of_nat (n mod 64) + (- Z.of_nat (n / 64)) * 64)%Z by lia. by rewrite Z.mod_add. }
  destruct (Nat.le_gt_cases (n mod 64) 55) as [H|H].
  - rewrite Z.mod_small by lia. split; [lia|]. replace (n + S (Z.to_nat (55 - Z.of_nat (n mod 64)) + 8))%nat with ((n / 64 + 1) * 64)%nat by lia. by rewrite Nat.Div0.mod_mul.
  - replace (55 - Z.of_nat (n mod 64))%Z with (119 - Z.of_nat (n mod 64) + (-1) * 64)%Z by lia. rewrite Z.mod_add, Z.mod_small by lia.
    split; [lia|]. replace (n + S (Z.to_nat (119 - Z.of_nat (n mod 64)) + 8))%nat with ((n / 64 + 2) * 64)%nat by lia. by rewrite Nat.Div0.mod_mul.
Qed.

(** What every compression keeps. *)
Lemma absorb_keeps (P : St -> Prop) s m : P s -> (forall s b, P s -> P (compress s b)) -> P (absorb s m).
Proof. intros Hs Hc. unfold absorb. generalize (length m / 64)%nat as n. intros n. revert s m Hs. induction n as [|n IH]; intros s m Hs; [done|]. cbn [absorb_n]. by apply IH, Hc. Qed.

Lemma rest_length m : length (rest m) = (length m mod 64)%nat.
Proof. unfold rest. rewrite length_drop. pose proof (Nat.div_mod_eq (length m) 64). lia. Qed.

Lemma rest_short m : (length m < 64)%nat -> rest m = m.
Proof. intros H. unfold rest. by rewrite Nat.div_small, Nat.mul_0_r, drop_0. Qed.
Lemma absorb_short s m : (length m < 64)%nat -> absorb s m = s.
Proof. intros H. unfold absorb. by rewrite Nat.div_small. Qed.

Lemma blocks_cons (b x : list Z) : length b = 64%nat -> (length (b ++ x) / 64 = S (length x / 64))%nat.
Proof. intros H. rewrite length_app, H. replace (64 + length x)%nat with (length x + 1 * 64)%nat by lia. rewrite Nat.div_add by lia. lia. Qed.

Lemma absorb_block s b x : length b = 64%nat -> absorb s (b ++ x) = absorb (compress s b) x.
Proof. intros H. unfold absorb. rewrite blocks_cons by done. cbn [absorb_n]. by rewrite take_app_length', drop_app_length' by done. Qed.
Lemma rest_block b x : length b = 64%nat -> rest (b ++ x) = rest x.
Proof.
  intros H. unfold rest. rewrite blocks_cons by done. replace (64 * S (length x / 64))%nat with (length b + 64 * (length x / 64))%nat by lia.
  rewrite <- (drop_drop (b ++ x) _ (length b)), drop_app_length. done.
Qed.

Lemma absorb_one s b : length b = 64%nat -> absorb s b = compress s b.
Proof. intros H. rewrite <- (app_nil_r b) at 1. rewrite absorb_block by done. apply absorb_short. cbn. lia. Qed.
Lemma rest_one b : length b = 64%nat -> rest b = [].
Proof. intros H. rewrite <- (app_nil_r b), rest_block by done. done. Qed.

(** A message is its whole blocks and its rest; what follows is taken behind the rest. *)
Lemma absorb_rest s m x : absorb s (m ++ x) = absorb (absorb s m) (rest m ++ x) /\ rest (m ++ x) = rest (rest m ++ x).
Proof.
  remember (length m / 64)%nat as n eqn:En. revert s m En. induction n as [|n IH]; intros s m En.
  - assert (length m < 64)%nat by (apply Nat.div_small_iff; lia). by rewrite (absorb_short s m), (rest_short m).
  - assert (64 <= length m)%nat as Hm by (destruct (Nat.lt_ge_cases (length m) 64); [rewrite Nat.div_small in En; lia|done]).
    assert (length (take 64 m) = 64%nat) as Ht by (rewrite length_take; lia).
    assert (n = (length (drop 64 m) / 64)%nat) as En'.
    { rewrite length_drop. replace (length m) with (length m - 64 + 1 * 64)%nat in En by lia. rewrite Nat.div_add in En by lia. lia. }
    specialize (IH (compress s (take 64 m)) (drop 64 m) En'). rewrite <- (take_drop 64 m) at 1 2 3 4 5. revert IH Ht. generalize (take 64 m) as b, (drop 64 m) as d.
    intros b d IH Hb. rewrite <- app_assoc, (absorb_block s b (d ++ x)), (absorb_block s b d), (rest_block b (d ++ x)), (rest_block b d) by done. exact IH.
Qed.
End iteration.

(** ** A context with a buffer *)

(** [process] takes a block into the state; it may use the buffer as working memory. *)
Record context (St : Type) := mk_context { state : St; buffer : list Z }.
#[global] Arguments mk_context {_} _ _.
#[global] Arguments state {_} _.
#[global] Arguments buffer {_} _.

(** [memcpy] into the buffer. *)
Definition copy_at (b : list Z) (i : nat) (l : list Z) : list Z := take i b ++ l ++ drop (i + length l) b.

Lemma copy_at_length b i l : (i + length l <= length b)%nat -> length (copy_at b i l) = length b.
Proof. intros H. unfold copy_at. rewrite !length_app, length_take, length_drop. lia. Qed.
Lemma copy_at_take b i l : (i + length l <= length b)%nat -> take (i + length l) (copy_at b i l) = take i b ++ l.
Proof. intros H. unfold copy_at. rewrite app_assoc, take_app_length'; [done|]. rewrite length_app, length_take. lia. Qed.
Lemma copy_at_u8 b i l : List.Forall is_u8 b -> List.Forall is_u8 l -> List.Forall is_u8 (copy_at b i l).
Proof. intros Hb Hl. unfold copy_at. apply Forall_app. split; [by apply Forall_take|]. apply Forall_app. split; [done|by apply Forall_drop]. Qed.

Lemma take_copy_at b i l k : (i + length l = k)%nat -> (k <= length b)%nat -> take k (copy_at b i l) = take i b ++ l.
Proof. intros <- H. by apply copy_at_take. Qed.
Lemma copy_at_full b i l : (i + length l = length b)%nat -> copy_at b i l = take i b ++ l.
Proof. intros H. rewrite <- (take_copy_at b i l (length b)) by lia. symmetry. apply take_ge. rewrite copy_at_length; lia. Qed.

Section streaming.
Context {St : Type} (process : context St -> list Z -> context St).

Fixpoint whole_blocks (n : nat) (c : context St) (input : list Z) : context St :=
  match n with
  | O => c
  | S n => whole_blocks n (process c (take 64 input)) (drop 64 input)
  end.

(** The buffering of the update functions; [used] bytes are in the buffer. *)
Definition feed (c : context St) (used : nat) (input : list Z) : context St :=
  let fill := (64 - used)%nat in
  let '(c, used, input) :=
    if (0 <? used)%nat && (fill <=? length input)%nat then
      let c := mk_context (state c) (copy_at (buffer c) used (take fill input)) in
      (process c (buffer c), 0%nat, drop fill input)
    else (c, used, input) in
  let n := (length input / 64)%nat in
  let c := whole_blocks n c input in
  let input := drop (64 * n) input in
  if (0 <? length input)%nat then mk_context (state c) (copy_at (buffer c) used input) else c.

(** *** The blocks that a context has taken *)

Context (compress : St -> list Z -> St) (ok : St -> Prop).
Context (process_state : forall c d, ok (state c) -> length d = 64%nat -> List.Forall is_u8 d -> state (process c d) = compress (state c) d /\ ok (state (process c d))).
Context (process_buffer : forall c d, length d = 64%nat -> length (buffer c) = 64%nat -> List.Forall is_u8 (buffer c) -> length (buffer (process c d)) = 64%nat /\ List.Forall is_u8 (buffer (process c d))).

(** The context has been given [m] since the state was [s0]. *)
Definition holds (s0 : St) (c : context St) (m : list Z) : Prop :=
  state c = absorb compress s0 m /\ ok (state c) /\ length (buffer c) = 64%nat /\ List.Forall is_u8 (buffer c) /\ take (length m mod 64) (buffer c) = rest m.

Lemma whole_blocks_holds n s0 c m input : state c = absorb compress s0 m -> rest m = [] -> ok (state c) -> length (buffer c) = 64%nat -> List.Forall is_u8 (buffer c) ->
  length input = (64 * n)%nat -> List.Forall is_u8 input ->
  let c' := whole_blocks n c input in
  state c' = absorb compress s0 (m ++ input) /\ rest (m ++ input) = [] /\ ok (state c') /\ length (buffer c') = 64%nat /\ List.Forall is_u8 (buffer c').
Proof using process_state process_buffer.
  revert c m input. induction n as [|n IH]; intros c m input Hs Hr Ho Hb Hu Hl Hi; cbn [whole_blocks].
  { destruct input; [|done]. by rewrite app_nil_r. }
  assert (length (take 64 input) = 64%nat) as Ht by (rewrite length_take; lia).
  destruct (process_state c (take 64 input) Ho Ht (Forall_take _ _ _ Hi)) as [P1 P2]. destruct (process_buffer c (take 64 input) Ht Hb Hu) as [P3 P4].
  destruct (absorb_rest compress s0 m (take 64 input)) as [A1 A2]. rewrite Hr, app_nil_l in A1, A2.
  replace (m ++ input) with ((m ++ take 64 input) ++ drop 64 input) by (by rewrite <- app_assoc, take_drop). apply IH.
  - rewrite P1, A1, Hs. symmetry. by apply absorb_one.
  - by rewrite A2, rest_one.
  - done.
  - done.
  - done.
  - rewrite length_drop. lia.
  - by apply Forall_drop.
Qed.

(** Bytes behind the rest that leave the block open. *)
Lemma store_holds s0 c m input : holds s0 c m -> List.Forall is_u8 input -> (length m mod 64 + length input < 64)%nat ->
  holds s0 (mk_context (state c) (copy_at (buffer c) (length m mod 64) input)) (m ++ input).
Proof.
  intros (Hs & Ho & Hb & Hu & Hr) Hi Hl. destruct (absorb_rest compress s0 m input) as [A1 A2].
  assert (length (rest m ++ input) < 64)%nat as Hlt by (rewrite length_app, rest_length; lia).
  assert ((length (m ++ input)) mod 64 = length m mod 64 + length input)%nat as Hmod.
  { rewrite length_app, Nat.Div0.add_mod, (Nat.mod_small (length input)) by lia. apply Nat.mod_small. lia. }
  unfold holds. cbn [state buffer]. rewrite A1, A2, (absorb_short compress _ (rest m ++ input)), rest_short, Hmod, copy_at_take, copy_at_length, Hr by (done || lia).
  split_and!; auto using copy_at_u8.
Qed.

Lemma mod_div_blocks (l : list Z) : length (take (64 * (length l / 64)) l) = (64 * (length l / 64))%nat /\ length (drop (64 * (length l / 64)) l) = (length l mod 64)%nat.
Proof. rewrite length_take, length_drop. pose proof (Nat.div_mod_eq (length l) 64). lia. Qed.

(** Whole blocks and the bytes behind them, from an empty buffer. *)
Lemma tail_holds s0 c m input : state c = absorb compress s0 m -> rest m = [] -> ok (state c) -> length (buffer c) = 64%nat -> List.Forall is_u8 (buffer c) -> List.Forall is_u8 input ->
  let n := (length input / 64)%nat in let c' := whole_blocks n c (take (64 * n) input) in let x := drop (64 * n) input in
  holds s0 (if (0 <? length x)%nat then mk_context (state c') (copy_at (buffer c') 0 x) else c') (m ++ input).
Proof using process_state process_buffer.
  intros Hs Hr Ho Hb Hu Hi n c' x. destruct (mod_div_blocks input) as [D1 D2]. fold n in D1, D2. fold x in D2.
  destruct (whole_blocks_holds n s0 c m (take (64 * n) input) Hs Hr Ho Hb Hu D1 (Forall_take _ _ _ Hi)) as (W1 & W2 & W3 & W4 & W5). fold c' in W1, W3, W4, W5.
  assert (holds s0 c' (m ++ take (64 * n) input)) as Hh.
  { split; [done|]. split; [done|]. split; [done|]. split; [done|]. rewrite W2, <- rest_length, W2. done. }
  assert (length (m ++ take (64 * n) input) mod 64 = 0)%nat as H0 by by rewrite <- rest_length, W2.
  replace (m ++ input) with ((m ++ take (64 * n) input) ++ x) by (unfold x; by rewrite <- app_assoc, take_drop).
  destruct (Nat.ltb_spec 0 (length x)) as [Hx|Hx].
  - pose proof (store_holds s0 c' _ x Hh (Forall_drop _ _ _ Hi)) as S1. rewrite H0 in S1. apply S1. rewrite D2. apply Nat.mod_upper_bound. lia.
  - destruct x; [|cbn in Hx; lia]. by rewrite app_nil_r.
Qed.

Lemma whole_blocks_take n c input : (64 * n <= length input)%nat -> whole_blocks n c input = whole_blocks n c (take (64 * n) input).
Proof.
  revert c input. induction n as [|n IH]; intros c input Hl; [done|]. cbn [whole_blocks]. rewrite take_take, Nat.min_l by lia.
  rewrite IH by (rewrite length_drop; lia). f_equal. rewrite skipn_firstn_comm. f_equal. lia.
Qed.

(** What was given is taken up, however it is cut. *)
Lemma feed_holds s0 c m input : holds s0 c m -> List.Forall is_u8 input -> holds s0 (feed c (length m mod 64) input) (m ++ input).
Proof using process_state process_buffer.
  intros Hh Hi. pose proof Hh as (Hs & Ho & Hb & Hu & Hr). unfold feed.
  pose proof (Nat.mod_upper_bound (length m) 64 ltac:(lia)) as Hm. set (used := (length m mod 64)%nat) in *.
  destruct (Nat.ltb_spec 0 used) as [Hused|Hused]; cbn [andb].
  - destruct (Nat.leb_spec (64 - used) (length input)) as [Hf|Hf].
    + (* the buffer is filled *)
      set (c1 := mk_context (state c) (copy_at (buffer c) used (take (64 - used) input))).
      assert (length (take (64 - used) input) = (64 - used)%nat) as Ht by (rewrite length_take; lia).
      assert (buffer c1 = rest m ++ take (64 - used) input) as Eb.
      { pose proof (copy_at_take (buffer c) used (take (64 - used) input) ltac:(lia)) as E1. rewrite Hr, take_ge in E1 by (rewrite copy_at_length; lia). exact E1. }
      assert (length (buffer c1) = 64%nat) as Hl1 by (rewrite Eb, length_app, rest_length; fold used; lia).
      assert (List.Forall is_u8 (buffer c1)) as Hu1 by (apply copy_at_u8; [done|by apply Forall_take]).
      destruct (process_state c1 (buffer c1) Ho Hl1 Hu1) as [P1 P2]. destruct (process_buffer c1 (buffer c1) Hl1 Hl1 Hu1) as [P3 P4].
      destruct (absorb_rest compress s0 m (take (64 - used) input)) as [A1 A2]. rewrite <- Eb in A1, A2.
      rewrite (absorb_one _ (absorb compress s0 m)) in A1 by done. rewrite (rest_one (buffer c1)) in A2 by done.
      replace (m ++ input) with ((m ++ take (64 - used) input) ++ drop (64 - used) input) by (by rewrite <- app_assoc, take_drop).
      rewrite whole_blocks_take by (pose proof (Nat.div_mod_eq (length (drop (64 - used) input)) 64); lia).
      apply tail_holds; [by rewrite P1, A1, <- Hs|done|done|done|done|by apply Forall_drop].
    + (* it is not *)
      rewrite Nat.div_small, Nat.mul_0_r, drop_0 by lia. cbn [whole_blocks].
      destruct (Nat.ltb_spec 0 (length input)); [by apply store_holds; [| |lia]|]. destruct input; [by rewrite app_nil_r|cbn in *; lia].
  - assert (used = 0%nat) as E by lia. assert (rest m = []) as Hr0 by (rewrite <- Hr, E; done). rewrite E.
    rewrite whole_blocks_take by (pose proof (Nat.div_mod_eq (length input) 64); lia). by apply tail_holds.
Qed.
End streaming.
Lemma zeros_u8 n : List.Forall is_u8 (replicate n 0).
Proof. apply list.Forall_replicate. by split. Qed.

Lemma padding_zeros n : (n mod 64 < 64)%nat -> Z.to_nat ((55 - Z.of_nat n) mod 64) = (if (n mod 64 <=? 55)%nat then 55 - n mod 64 else 119 - n mod 64)%nat.
Proof.
  intros Hm. pose proof (proj1 (padding_length n (replicate 8 0) eq_refl)) as H. unfold padding in H. cbn [length] in H. rewrite length_app, !length_replicate in H.
  pose proof (Z.mod_pos_bound (55 - Z.of_nat n) 64 ltac:(lia)). destruct (Nat.leb_spec (n mod 64) 55); lia.
Qed.

(** ** Message schedules *)

(** Sixteen words of a block and [n] words that follow from the ones before them. *)
Section schedule.
Context (next : list Z -> nat -> Z) (base : list Z).
Fixpoint extend (n : nat) : list Z :=
  match n with
  | O => base
  | S t => let ws := extend t in ws ++ [next ws t]
  end.

Context (base_length : length base = 16%nat).
Context (next_local : forall ws ws' t, (forall i, (i < t + 16)%nat -> at_n ws i = at_n ws' i) -> next ws t = next ws' t).

Lemma extend_length n : length (extend n) = (16 + n)%nat.
Proof using base_length. induction n as [|n IH]; [done|]. cbn [extend]. rewrite length_app, IH. cbn. lia. Qed.

Lemma extend_prefix n k i : (i < 16 + n)%nat -> at_n (extend (n + k)) i = at_n (extend n) i.
Proof using base_length.
  intros Hi. induction k as [|k IH]; [by rewrite Nat.add_0_r|]. rewrite Nat.add_succ_r. cbn [extend].
  rewrite at_n_app_l by (rewrite extend_length; lia). apply IH.
Qed.

Lemma extend_first n i : (i < 16)%nat -> at_n (extend n) i = at_n base i.
Proof using base_length. intros Hi. by apply (extend_prefix 0 n). Qed.

Lemma extend_next n t : (t < n)%nat -> at_n (extend n) (t + 16) = next (extend n) t.
Proof using base_length next_local.
  intros Ht. replace n with (S t + (n - S t))%nat by lia. rewrite extend_prefix by lia. cbn [extend]. unfold at_n at 1.
  rewrite list_lookup_middle by (rewrite extend_length; lia). cbn [default]. apply next_local. intros i Hi. symmetry. replace (S t + (n - S t))%nat with (t + (n - t))%nat by lia. apply extend_prefix. lia.
Qed.

Lemma extend_u32 n : List.Forall is_u32 base -> (forall ws t, List.Forall is_u32 ws -> is_u32 (next ws t)) -> List.Forall is_u32 (extend n).
Proof. intros Hb Hn. induction n as [|n IH]; [done|]. cbn [extend]. apply Forall_app. split; [done|]. apply List.Forall_cons; [by apply Hn|apply List.Forall_nil]. Qed.
End schedule.

(** ** Schedules in a window of sixteen words *)

(** The window holds the last sixteen words. *)
Definition window (ws W256 : list Z) (j : nat) : Prop := length W256 = 16%nat /\ forall k, (k < j <= k + 16)%nat -> W256 !! (k mod 16)%nat = Some (at_n ws k).

Lemma window_at ws W256 j k : window ws W256 j -> (k < j <= k + 16)%nat -> at_n W256 (k mod 16) = at_n ws k.
Proof. intros [_ H] Hk. unfold at_n at 1. by rewrite H. Qed.

Lemma window_next ws W256 j : window ws W256 j -> window ws (<[(j mod 16)%nat := at_n ws j]> W256) (j + 1).
Proof.
  intros [Hl H]. split; [by rewrite length_insert|]. intros k Hk. destruct (Nat.eq_dec k j) as [->|Hne].
  - apply list_lookup_insert_eq. rewrite Hl. apply Nat.mod_upper_bound. lia.
  - rewrite list_lookup_insert_ne; [apply H; lia|]. intros E. pose proof (Nat.div_mod_eq k 16). pose proof (Nat.div_mod_eq j 16). lia.
Qed.
End Merkle.
