(* ===== verification/Ble.v ===== *)
(** * Bluetooth link: service, transport, authentication and core (components/qm_ble)

    Messages are cut into frames of at most the packet size, encrypted when a key is set,
    and handed to the Bluetooth stack as notifications or indications; received frames are
    put together and dispatched.  The file follows core/qm_ble_service.c,
    qm_ble_transport.c, qm_ble_auth.c, qm_ble_core.c and qm_ble_utils.c.

    Parameters: the build configuration; the stack, whose [n]-th call succeeds or not; the
    AES functions of the platform (hal/include/qm_ble_hal_sec.h) and the hash as classes;
    and the registered event handler, which may change the whole state.  Timers are
    flags: started or not.  The mutex around an indication is left out. *)

From S2P Require Import Prelude Outcome Heap.
Import list_relations.list list_basics.list Heap(slice, splice).
Open Scope Z_scope.

(** ** Parameters *)

(** Options of qm_kconfig: long MTU, BLE 4.2, version and the number of frames (5 to 20). *)
Class BleConfig := {
  EN_LONG_MTU : bool;
  BLE_4_2 : bool;
  QB_VERSION : Z;
  QB_MAX_FRAME_NUMBER : Z;
  frame_number_range : 5 <= QB_MAX_FRAME_NUMBER <= 20
}.

(** AES-128 in CBC mode on whole blocks of 16 bytes; every call starts from the
    initialisation vector of the context. *)
Class BleAes := {
  aes_ctx : Type;
  qm_ble_aes128_init : list Z -> list Z -> option aes_ctx;        (* None: no memory *)
  qm_ble_aes128_cbc_encrypt : aes_ctx -> list Z -> list Z;
  qm_ble_aes128_cbc_decrypt : aes_ctx -> list Z -> list Z;
  cbc_encrypt_length c k d : length d = (16 * k)%nat -> List.Forall is_u8 d ->
    length (qm_ble_aes128_cbc_encrypt c d) = (16 * k)%nat /\ List.Forall is_u8 (qm_ble_aes128_cbc_encrypt c d);
  cbc_decrypt_length c k d : length d = (16 * k)%nat -> List.Forall is_u8 d ->
    length (qm_ble_aes128_cbc_decrypt c d) = (16 * k)%nat /\ List.Forall is_u8 (qm_ble_aes128_cbc_decrypt c d);
  cbc_roundtrip c k d : length d = (16 * k)%nat -> List.Forall is_u8 d -> qm_ble_aes128_cbc_decrypt c (qm_ble_aes128_cbc_encrypt c d) = d
}.

(** The hash that derives the key; 32 bytes. *)
Class BleHash := {
  qm_sha256 : list Z -> list Z;
  qm_sha256_length d : length (qm_sha256 d) = 32%nat;
  qm_sha256_bytes d : List.Forall is_u8 d -> List.Forall is_u8 (qm_sha256 d)
}.

Module Ble.

(** *** Constants (qm_ble_common.h, qm_ble_bzopt.h, qm_ble_auth.h) *)

Definition QM_BLE_CMD_AUTH : Z := 0x01.
Definition QM_BLE_CMD_INIT : Z := 0x02.
Definition QM_BLE_CMD_REPORT : Z := 0x03.
Definition QM_BLE_CMD_SET : Z := 0x81.
Definition QM_BLE_CMD_GET : Z := 0x82.
Definition QM_BLE_CMD_ENTER_BACKGROUD : Z := 0x83.
Definition QM_BLE_CMD_GET_SNAPSHOT : Z := 0x84.
Definition QM_BLE_CMD_APINFO : Z := 0x85.
Definition QM_BLE_CMD_SET_RAND : Z := 0x86.
Definition QM_BLE_CMD_BIND_NOTIFY : Z := 0x87.
Definition QM_BLE_CMD_OTA_QUERY_VER : Z := 0xA0.
Definition QM_BLE_CMD_OTA_REQUEST : Z := 0xA1.
Definition QM_BLE_CMD_OTA_DATA : Z := 0xA2.
Definition QM_BLE_CMD_OTA_VERIFY : Z := 0xA3.
Definition QM_BLE_CMD_PRODTST : Z := 0xB0.

Definition QB_SUCCESS : Z := 0.
Definition QB_EDATASIZE : Z := 2.
Definition QB_EINVALIDSTATE : Z := 3.
Definition QB_EGATTNOTIFY : Z := 4.
Definition QB_EGATTINDICATE : Z := 5.
Definition QB_ETIMEOUT : Z := 6.
Definition QB_EBUSY : Z := 7.
Definition QB_EINVALIDDATA : Z := 8.
Definition QB_EINTERNAL : Z := 9.
Definition QB_ENOMEM : Z := 12.
Definition QB_EFORBIDDEN : Z := 13.
Definition QB_ENULL : Z := 14.

Definition QB_ERR_MASK : Z := 0xf0.
Definition QB_TRANS_ERR : Z := 0x10.
Definition QM_ERROR_SRC_TRANSPORT_TX_TIMER : Z := 0x10.
Definition QM_ERROR_SRC_TRANSPORT_1ST_FRAME : Z := 0x12.
Definition QM_ERROR_SRC_TRANSPORT_OTHER_FRAMES : Z := 0x13.
Definition QM_ERROR_SRC_TRANSPORT_ENCRYPTED : Z := 0x14.
Definition QM_ERROR_SRC_TRANSPORT_RX_BUFF_SIZE : Z := 0x15.
Definition QM_ERROR_SRC_TRANSPORT_PKT_CFM_SENT : Z := 0x16.
Definition QM_ERROR_SRC_TRANSPORT_FW_DATA_DISC : Z := 0x17.
Definition QB_AUTH_ERR : Z := 0x20.
Definition QM_ERROR_AUTH_CIPHER_RPT : Z := 0x20.
Definition QM_ERROR_SRC_AUTH_PROC_TIMER_0 : Z := 0x21.
Definition QM_ERROR_SRC_AUTH_PROC_TIMER_2 : Z := 0x23.

Definition HEADER_SIZE : Z := 4.
Definition AES_BLK_SIZE : Z := 16.
Definition QB_TRANSPORT_VER : Z := 0.
Definition QB_ATT_HDR_SIZE : Z := 3.
Definition QB_FRAME_HDR_SIZE : Z := 4.
Definition QB_ENCRY_BLOCK_LENGTH : Z := 16.
Definition QB_GATT_MTU_SIZE_DEFAULT : Z := 23.
Definition QB_GATT_MTU_SIZE_MAX : Z := 247.
Definition QB_FRAME_SIZE_DEFAULT : Z := QB_GATT_MTU_SIZE_DEFAULT - QB_ATT_HDR_SIZE - QB_FRAME_HDR_SIZE.
Definition QB_FRAME_SIZE_MAX : Z := QB_GATT_MTU_SIZE_MAX - QB_ATT_HDR_SIZE - QB_FRAME_HDR_SIZE.
Definition BLE_CONN_HANDLE_INVALID : Z := 0xffff.
Definition BLE_CONN_HANDLE_MAGIC : Z := 0x1234.

Definition RANDOM_SEQ_LEN : Z := 16.
Definition QB_PID_STR_LEN : Z := 8.
Definition MAX_OKM_LEN : Z := 16.
Definition MAX_IKM_LEN : Z := 72.
Definition QB_BT_MAC_LEN : Z := 6.
Definition QB_DEV_PRODUCT_KEY_LEN : Z := 11.
Definition QB_DEV_PRODUCT_SECRET_LEN : Z := 32.
Definition QB_DEV_DEVICE_SECRET_LEN : Z := 32.
Definition QB_DEV_MAX_DEVICE_NAME_LEN : Z := 32.
Definition QB_MAX_ADV_DATA_LEN : Z := 16.
Definition QB_MAX_LOCAL_NAME_LEN : Z := 24.

(** ** State *)

Record tx_t := mk_tx {
  tx_buff : list Z;
  tx_data : option (list Z);       (* the memory of the caller *)
  tx_len : Z;
  bytes_sent : Z;
  encrypted : Z;
  tx_id : Z;                       (* tx.msg_id *)
  tx_cmd : Z;
  tx_total_frame : Z;
  tx_frame_seq : Z;
  pad_len : Z;
  pkt_req : Z;
  pkt_cfm : Z;
  active_indication : bool;        (* active_func: the indication or the notification function *)
  tx_timer : bool
}.

Record rx_t := mk_rx {
  rx_buff : list Z;
  bytes_received : Z;
  rx_id : Z;
  rx_cmd : Z;
  rx_total_frame : Z;
  rx_frame_seq : Z;
  rx_timer : bool
}.

Inductive auth_state := QB_AUTH_STATE_IDLE | QB_AUTH_STATE_CONNECTED | QB_AUTH_STATE_SVC_ENABLED | QB_AUTH_STATE_VERIFY | QB_AUTH_STATE_DONE | QB_AUTH_STATE_FAILED.
Inductive auth_kind := QB_AUTH_TYPE_NONE | QB_AUTH_TYPE_PER_PK | QB_AUTH_TYPE_PER_DEV.

Record qm_ble_auth_t := mk_auth {
  state : auth_state;
  auth_timer : bool;
  ikm : list Z;
  ikm_len : Z;
  okm : list Z;
  auth_type : auth_kind
}.

Record qm_ble_service_t := mk_service {
  conn_handle : Z;
  is_indication_enabled : bool;
  is_notification_enabled : bool;
  svc_max_pkt_size : Z
}.

Record qm_ble_core_t := mk_core {
  adv_data : list Z;
  adv_data_len : Z;
  local_name : list Z;
  product_id : Z;
  adv_mac : list Z;
  product_key : list Z;
  product_key_len : Z;
  product_secret : list Z;
  product_secret_len : Z;
  device_id : list Z;
  device_id_len : Z;
  device_secret : list Z;
  device_secret_len : Z
}.

(** Events for the application.  [QB_EVENT_RX_INFO] carries the identifier, the command,
    the number of frames and the bytes of the message. *)
Inductive qm_ble_event_info_t :=
| QB_EVENT_CONNECTED
| QB_EVENT_DISCONNECTED
| QB_EVENT_AUTHENTICATED
| QB_EVENT_TX_DONE
| QB_EVENT_TX_DONE_TIMEOUT
| QB_EVENT_RX_INFO (msg_id cmd frames : Z) (bytes : list Z).

(** Calls of the stack. *)
Inductive air_op :=
| Notification (packet : list Z)
| Indication (packet : list Z)
| Disconnect.

#[global] Instance auth_state_eq : EqDecision auth_state.
Proof. solve_decision. Defined.
#[global] Instance auth_kind_eq : EqDecision auth_kind.
Proof. solve_decision. Defined.

Definition is_Some_b {A} (o : option A) : bool := match o with Some _ => true | None => false end.

Section ble.
Context {cfg : BleConfig} {aes : BleAes} {hash : BleHash} {C : Type}.

Definition QB_MAX_SUPPORTED_MTU : Z := if BLE_4_2 then 247 else 23.
Definition QB_MAX_PAYLOAD_SIZE : Z := (if EN_LONG_MTU then QB_FRAME_SIZE_MAX else QB_FRAME_SIZE_DEFAULT) * QB_MAX_FRAME_NUMBER.
Definition TX_BUFF_LEN : Z := QB_MAX_SUPPORTED_MTU - 3.
Definition RX_BUFF_LEN : Z := QB_MAX_PAYLOAD_SIZE.

(** [g_qm_transport], [g_qms], [g_am_auth] and [g_qm_core], the calls of the stack so far
    and the state of the application. *)
Record world := mk_world {
  tx : tx_t;
  rx : rx_t;
  tx_msg_id : Z;
  max_pkt_size : Z;
  p_key : option (list Z);
  timeout : Z;
  p_aes_ctx : option aes_ctx;
  svc : qm_ble_service_t;
  auth : qm_ble_auth_t;
  core : qm_ble_core_t;
  air : list air_op;
  stack_calls : nat;
  app : C
}.

(** The stack accepts its [n]-th packet; the registered handler. *)
Context (accepts : nat -> bool) (event_handler : qm_ble_event_info_t -> world -> outcome world).

Definition M (A : Type) : Type := world -> outcome (A * world).
#[global] Instance M_ret : MRet M := fun A a w => Ret (a, w).
#[global] Instance M_bind : MBind M := fun A B k m w =>
  match m w with Ret (a, w') => k a w' | OutOfBounds => OutOfBounds | NoFuel => NoFuel end.
Definition get : M world := fun w => Ret (w, w).
Definition put (w : world) : M unit := fun _ => Ret (tt, w).
Definition lift {A} (o : outcome A) : M A := fun w => match o with Ret a => Ret (a, w) | OutOfBounds => OutOfBounds | NoFuel => NoFuel end.

Definition with_tx (t : tx_t) (w : world) : world := mk_world t (rx w) (tx_msg_id w) (max_pkt_size w) (p_key w) (timeout w) (p_aes_ctx w) (svc w) (auth w) (core w) (air w) (stack_calls w) (app w).
Definition with_rx (r : rx_t) (w : world) : world := mk_world (tx w) r (tx_msg_id w) (max_pkt_size w) (p_key w) (timeout w) (p_aes_ctx w) (svc w) (auth w) (core w) (air w) (stack_calls w) (app w).
Definition with_msg_id (n : Z) (w : world) : world := mk_world (tx w) (rx w) n (max_pkt_size w) (p_key w) (timeout w) (p_aes_ctx w) (svc w) (auth w) (core w) (air w) (stack_calls w) (app w).
Definition with_max_pkt (n : Z) (w : world) : world := mk_world (tx w) (rx w) (tx_msg_id w) n (p_key w) (timeout w) (p_aes_ctx w) (svc w) (auth w) (core w) (air w) (stack_calls w) (app w).
Definition with_key (k : option (list Z)) (c : option aes_ctx) (w : world) : world := mk_world (tx w) (rx w) (tx_msg_id w) (max_pkt_size w) k (timeout w) c (svc w) (auth w) (core w) (air w) (stack_calls w) (app w).
Definition with_svc (s : qm_ble_service_t) (w : world) : world := mk_world (tx w) (rx w) (tx_msg_id w) (max_pkt_size w) (p_key w) (timeout w) (p_aes_ctx w) s (auth w) (core w) (air w) (stack_calls w) (app w).
Definition with_auth (a : qm_ble_auth_t) (w : world) : world := mk_world (tx w) (rx w) (tx_msg_id w) (max_pkt_size w) (p_key w) (timeout w) (p_aes_ctx w) (svc w) a (core w) (air w) (stack_calls w) (app w).
Definition with_core (c : qm_ble_core_t) (w : world) : world := mk_world (tx w) (rx w) (tx_msg_id w) (max_pkt_size w) (p_key w) (timeout w) (p_aes_ctx w) (svc w) (auth w) c (air w) (stack_calls w) (app w).
Definition with_air (l : list air_op) (n : nat) (w : world) : world := mk_world (tx w) (rx w) (tx_msg_id w) (max_pkt_size w) (p_key w) (timeout w) (p_aes_ctx w) (svc w) (auth w) (core w) l n (app w).

Definition upd_tx (f : tx_t -> tx_t) : M unit := fun w => Ret (tt, with_tx (f (tx w)) w).
Definition upd_rx (f : rx_t -> rx_t) : M unit := fun w => Ret (tt, with_rx (f (rx w)) w).
Definition upd_auth (f : qm_ble_auth_t -> qm_ble_auth_t) : M unit := fun w => Ret (tt, with_auth (f (auth w)) w).

(** ** Core: events and errors *)

Definition qm_ble_core_event_notify (e : qm_ble_event_info_t) : M unit := fun w =>
  match event_handler e w with Ret w' => Ret (tt, w') | OutOfBounds => OutOfBounds | NoFuel => NoFuel end.

Definition qm_ble_disconnect : M unit := fun w => Ret (tt, with_air (air w ++ [Disconnect]) (stack_calls w) w).

Definition set_auth_state (s : auth_state) (a : qm_ble_auth_t) : qm_ble_auth_t := mk_auth s (auth_timer a) (ikm a) (ikm_len a) (okm a) (auth_type a).
Definition set_auth_timer (b : bool) (a : qm_ble_auth_t) : qm_ble_auth_t := mk_auth (state a) b (ikm a) (ikm_len a) (okm a) (auth_type a).
Definition set_ikm (l : list Z) (n : Z) (a : qm_ble_auth_t) : qm_ble_auth_t := mk_auth (state a) (auth_timer a) l n (okm a) (auth_type a).
Definition set_okm (l : list Z) (a : qm_ble_auth_t) : qm_ble_auth_t := mk_auth (state a) (auth_timer a) (ikm a) (ikm_len a) l (auth_type a).
Definition set_auth_type (k : auth_kind) (a : qm_ble_auth_t) : qm_ble_auth_t := mk_auth (state a) (auth_timer a) (ikm a) (ikm_len a) (okm a) k.

Definition qm_ble_auth_reset : M unit :=
  upd_auth (set_auth_state QB_AUTH_STATE_IDLE);;
  upd_auth (set_auth_timer false).

Definition qm_ble_core_handle_err (src code : Z) : M unit :=
  let kind := Z.land src QB_ERR_MASK in
  if kind =? QB_TRANS_ERR then
    if negb (code =? QB_EINTERNAL) then
      (if src =? QM_ERROR_SRC_TRANSPORT_FW_DATA_DISC then qm_ble_core_event_notify QB_EVENT_DISCONNECTED else mret tt);;
      (if src =? QM_ERROR_SRC_TRANSPORT_TX_TIMER then qm_ble_core_event_notify QB_EVENT_TX_DONE_TIMEOUT else mret tt)
    else mret tt
  else if kind =? QB_AUTH_ERR then
    qm_ble_auth_reset;;
    (if code =? QB_ETIMEOUT then qm_ble_disconnect else mret tt)
  else mret tt.

(** ** Service: packets to the stack (qm_ble_service.c) *)

Definition hand_over (op : air_op) (err : Z) : M Z := fun w =>
  let n := stack_calls w in
  if accepts n then Ret (QB_SUCCESS, with_air (air w ++ [op]) (S n) w) else Ret (err, with_air (air w) (S n) w).

Definition qm_ble_service_send_notification (p : list Z) : M Z :=
  w ← get;
  let s := svc w in
  if (conn_handle s =? BLE_CONN_HANDLE_INVALID) || negb (is_notification_enabled s) then mret QB_EINVALIDSTATE
  else if Z.of_nat (length p) >? svc_max_pkt_size s then mret QB_EDATASIZE
  else hand_over (Notification p) QB_EGATTNOTIFY.

Definition qm_ble_service_send_indication (p : list Z) : M Z :=
  w ← get;
  let s := svc w in
  if (conn_handle s =? BLE_CONN_HANDLE_INVALID) || negb (is_indication_enabled s) then mret QB_EINVALIDSTATE
  else if Z.of_nat (length p) >? svc_max_pkt_size s then mret QB_EDATASIZE
  else hand_over (Indication p) QB_EGATTINDICATE.

(** ** Transport: sending (qm_ble_transport.c) *)

Definition set_tx_timer (b : bool) (t : tx_t) : tx_t :=
  mk_tx (tx_buff t) (tx_data t) (tx_len t) (bytes_sent t) (encrypted t) (tx_id t) (tx_cmd t) (tx_total_frame t) (tx_frame_seq t) (pad_len t) (pkt_req t) (pkt_cfm t) (active_indication t) b.
Definition set_tx_buff (l : list Z) (t : tx_t) : tx_t :=
  mk_tx l (tx_data t) (tx_len t) (bytes_sent t) (encrypted t) (tx_id t) (tx_cmd t) (tx_total_frame t) (tx_frame_seq t) (pad_len t) (pkt_req t) (pkt_cfm t) (active_indication t) (tx_timer t).
Definition set_pad_len (n : Z) (t : tx_t) : tx_t :=
  mk_tx (tx_buff t) (tx_data t) (tx_len t) (bytes_sent t) (encrypted t) (tx_id t) (tx_cmd t) (tx_total_frame t) (tx_frame_seq t) n (pkt_req t) (pkt_cfm t) (active_indication t) (tx_timer t).
Definition set_encrypted (n : Z) (t : tx_t) : tx_t :=
  mk_tx (tx_buff t) (tx_data t) (tx_len t) (bytes_sent t) n (tx_id t) (tx_cmd t) (tx_total_frame t) (tx_frame_seq t) (pad_len t) (pkt_req t) (pkt_cfm t) (active_indication t) (tx_timer t).
Definition set_cfm (n : Z) (t : tx_t) : tx_t :=
  mk_tx (tx_buff t) (tx_data t) (tx_len t) (bytes_sent t) (encrypted t) (tx_id t) (tx_cmd t) (tx_total_frame t) (tx_frame_seq t) (pad_len t) (pkt_req t) n (active_indication t) (tx_timer t).
Definition set_tx_id (n : Z) (t : tx_t) : tx_t :=
  mk_tx (tx_buff t) (tx_data t) (tx_len t) (bytes_sent t) (encrypted t) n (tx_cmd t) (tx_total_frame t) (tx_frame_seq t) (pad_len t) (pkt_req t) (pkt_cfm t) (active_indication t) (tx_timer t).
Definition set_tx_total (n : Z) (t : tx_t) : tx_t :=
  mk_tx (tx_buff t) (tx_data t) (tx_len t) (bytes_sent t) (encrypted t) (tx_id t) (tx_cmd t) n (tx_frame_seq t) (pad_len t) (pkt_req t) (pkt_cfm t) (active_indication t) (tx_timer t).
Definition set_active (b : bool) (t : tx_t) : tx_t :=
  mk_tx (tx_buff t) (tx_data t) (tx_len t) (bytes_sent t) (encrypted t) (tx_id t) (tx_cmd t) (tx_total_frame t) (tx_frame_seq t) (pad_len t) (pkt_req t) (pkt_cfm t) b (tx_timer t).

(** The fields that [reset_tx] clears. *)
Definition clear_tx (t : tx_t) : tx_t :=
  mk_tx (tx_buff t) (tx_data t) 0 0 (encrypted t) 0 0 0 0 (pad_len t) 0 0 (active_indication t) (tx_timer t).
(** The fields that a new message sets first. *)
Definition load_tx (d : option (list Z)) (n cmd : Z) (t : tx_t) : tx_t :=
  mk_tx (tx_buff t) d n 0 (encrypted t) (tx_id t) cmd (tx_total_frame t) 0 (pad_len t) 0 0 (active_indication t) (tx_timer t).
(** A packet of [n] bytes was accepted. *)
Definition advance_tx (n : Z) (t : tx_t) : tx_t :=
  mk_tx (tx_buff t) (tx_data t) (tx_len t) (u16 (bytes_sent t + n)) (encrypted t) (tx_id t) (tx_cmd t) (tx_total_frame t) (u8 (tx_frame_seq t + 1)) (pad_len t) (u16 (pkt_req t + 1)) (pkt_cfm t) (active_indication t) (tx_timer t).

Definition reset_tx : M unit :=
  upd_tx clear_tx;;
  w ← get;
  if negb (timeout w =? 0) then upd_tx (set_tx_timer false) else mret tt.

Definition on_tx_timeout : M unit :=
  reset_tx;;
  qm_ble_core_handle_err QM_ERROR_SRC_TRANSPORT_TX_TIMER QB_ETIMEOUT.

Definition is_valid_tx_command (cmd : Z) : bool :=
  (cmd =? QM_BLE_CMD_AUTH) || (cmd =? QM_BLE_CMD_INIT) || (cmd =? QM_BLE_CMD_SET) || (cmd =? QM_BLE_CMD_REPORT) || (cmd =? QM_BLE_CMD_GET) ||
  (cmd =? QM_BLE_CMD_ENTER_BACKGROUD) || (cmd =? QM_BLE_CMD_GET_SNAPSHOT) || (cmd =? QM_BLE_CMD_BIND_NOTIFY) || (cmd =? QM_BLE_CMD_APINFO) ||
  (cmd =? QM_BLE_CMD_OTA_QUERY_VER) || (cmd =? QM_BLE_CMD_OTA_REQUEST) || (cmd =? QM_BLE_CMD_OTA_DATA) || (cmd =? QM_BLE_CMD_OTA_VERIFY) || (cmd =? QM_BLE_CMD_PRODTST).

(** The padding of [do_encrypt]: none when the length is a multiple of the block. *)
Definition bytes_to_pad (n : Z) : Z := (AES_BLK_SIZE - n mod AES_BLK_SIZE) mod AES_BLK_SIZE.

(** Encrypts [n] bytes of the packet behind the header.  Without a context the platform writes
    nothing, and uninitialised memory would be copied into the packet. *)
Definition do_encrypt (n : Z) : M unit :=
  let blk_num := Z.shiftr n 4 in
  if n >? QB_FRAME_SIZE_MAX then mret tt
  else
    let pad := bytes_to_pad n in
    blk_num ← (if negb (pad =? 0) then
                 w ← get;
                 b ← lift (of_option (splice (tx_buff (tx w)) (HEADER_SIZE + n) (replicate (Z.to_nat pad) pad)));
                 l ← lift (of_option (b !! 3%nat));
                 b ← lift (of_option (splice b 3 [u8 (l + pad)]));
                 upd_tx (set_tx_buff b);;
                 upd_tx (set_pad_len pad);;
                 mret (u16 (blk_num + 1))
               else mret blk_num);
    w ← get;
    src ← lift (of_option (slice (tx_buff (tx w)) HEADER_SIZE (Z.shiftl blk_num 4)));
    c ← lift (of_option (p_aes_ctx w));
    b ← lift (of_option (splice (tx_buff (tx w)) HEADER_SIZE (qm_ble_aes128_cbc_encrypt c src)));
    upd_tx (set_tx_buff b).

Definition header (t : tx_t) (n : Z) : list Z :=
  [u8 (Z.lor (Z.lor (Z.shiftl (Z.land QB_TRANSPORT_VER 0x7) 5) (Z.shiftl (Z.land (encrypted t) 0x1) 4)) (Z.land (tx_id t) 0xF));
   tx_cmd t;
   u8 (Z.lor (Z.shiftl (Z.land (tx_total_frame t) 0x0F) 4) (Z.land (tx_frame_seq t) 0x0F));
   u8 n].

(** The packet with the [n] bytes behind those that were sent. *)
Definition build_packet (n : Z) : M unit :=
  upd_tx (set_pad_len 0);;
  w ← get;
  b ← lift (of_option (splice (tx_buff (tx w)) 0 (header (tx w) n)));
  upd_tx (set_tx_buff b);;
  if negb (n =? 0) then
    w ← get;
    src ← lift (of_option (tx_data (tx w)));
    d ← lift (of_option (slice src (bytes_sent (tx w)) n));
    b ← lift (of_option (splice (tx_buff (tx w)) HEADER_SIZE d));
    upd_tx (set_tx_buff b);;
    if negb (encrypted (tx w) =? 0) then do_encrypt n else mret tt
  else mret tt.

Definition tx_bytes_left (w : world) : Z := u16 (tx_len (tx w) - bytes_sent (tx w)).

Definition active_func (p : list Z) : M Z :=
  w ← get;
  if active_indication (tx w) then qm_ble_service_send_indication p else qm_ble_service_send_notification p.

(** The loop of [send_fragment]; the result and the number of packets. *)
Fixpoint send_loop (fuel : nat) (payload_max_len bytes_left pkt_sent : Z) : M (Z * Z) :=
  match fuel with
  | O => lift NoFuel
  | S fuel =>
      let n := if bytes_left <? payload_max_len then bytes_left else payload_max_len in
      build_packet n;;
      w ← get;
      let pkt_len := u16 (n + pad_len (tx w) + HEADER_SIZE) in
      p ← lift (of_option (slice (tx_buff (tx w)) 0 pkt_len));
      ret ← active_func p;
      if ret =? QB_SUCCESS then
        upd_tx (advance_tx n);;
        w ← get;
        let bytes_left := tx_bytes_left w in
        if active_indication (tx w) || negb (bytes_left >? 0) then mret (ret, u16 (pkt_sent + 1))
        else send_loop fuel payload_max_len bytes_left (u16 (pkt_sent + 1))
      else mret (ret, pkt_sent)
  end.

Definition payload_max (w : world) : Z :=
  let n := u16 (max_pkt_size w - HEADER_SIZE) in
  if negb (encrypted (tx w) =? 0) then u16 (u16 (Z.land n (Z.lnot (AES_BLK_SIZE - 1))) - 1) else n.

(** [qm_ble_transport_txdone], with the call of [send_fragment] as a parameter. *)
Definition txdone (send_fragment : M Z) (pkt_sent : Z) : M unit :=
  w ← get;
  upd_tx (set_cfm (u16 (pkt_cfm (tx w) + pkt_sent)));;
  w ← get;
  if negb (tx_bytes_left w =? 0) then _ ← send_fragment; mret tt
  else if (pkt_req (tx w) =? pkt_cfm (tx w)) && negb (pkt_req (tx w) =? 0) then
    if negb (is_valid_tx_command (tx_cmd (tx w))) then mret tt
    else reset_tx;; qm_ble_core_event_notify QB_EVENT_TX_DONE
  else if pkt_req (tx w) <? pkt_cfm (tx w) then
    reset_tx;; qm_ble_core_handle_err QM_ERROR_SRC_TRANSPORT_PKT_CFM_SENT QB_EINTERNAL
  else mret tt.

(** The fuel bounds the calls of [send_fragment] from [qm_ble_transport_txdone]. *)
Fixpoint send_fragment (fuel : nat) : M Z :=
  match fuel with
  | O => lift NoFuel
  | S fuel =>
      w ← get;
      let bytes_left := tx_bytes_left w in
      '(ret, pkt_sent) ← send_loop (S (Z.to_nat bytes_left)) (payload_max w) bytes_left 0;
      w ← get;
      (if negb (timeout w =? 0) then upd_tx (set_tx_timer true) else mret tt);;
      (if negb (active_indication (tx w)) then txdone (send_fragment fuel) pkt_sent else mret tt);;
      mret ret
  end.

Definition qm_ble_transport_txdone (fuel : nat) (pkt_sent : Z) : M unit := txdone (send_fragment fuel) pkt_sent.

(** Called by the stack when an indication was confirmed. *)
Definition send_indication_done (fuel : nat) (res : Z) : M unit :=
  if res =? QB_SUCCESS then qm_ble_transport_txdone fuel 1 else mret tt.

Definition qm_ble_tx_msg_id_get : M Z :=
  w ← get;
  let n := u8 (tx_msg_id w + 1) in
  let n := if n =? 16 then 1 else n in
  put (with_msg_id n w);;
  mret n.

Definition QB_TX_NOTIFICATION : Z := 0.
Definition QB_TX_INDICATION : Z := 1.

(** The payload of a frame, from which the number of frames is computed. *)
Definition pkt_payload_len (enc : bool) (w : world) : Z :=
  if enc && negb EN_LONG_MTU then u16 (u16 (Z.land (max_pkt_size w - HEADER_SIZE) (Z.lnot (AES_BLK_SIZE - 1))) - 1)
  else u16 (max_pkt_size w - HEADER_SIZE).

(** [None] is a NULL pointer; the result is the return code and [*msg_id].  A frame without payload
    would be a division by zero. *)
Definition qm_ble_transport_tx (fuel : nat) (tx_type msg_id cmd : Z) (p_data : option (list Z)) (n : Z) : M (Z * Z) :=
  if negb (is_Some_b p_data) && negb (n =? 0) then mret (QB_ENULL, msg_id)
  else if n >? QB_MAX_PAYLOAD_SIZE then mret (QB_EDATASIZE, msg_id)
  else
    w ← get;
    let enc := is_Some_b (p_key w) && negb (cmd =? QM_BLE_CMD_AUTH) in
    upd_tx (set_encrypted (if enc then 1 else 0));;
    let payload := pkt_payload_len enc w in
    w ← get;
    if negb (tx_bytes_left w =? 0) || negb (pkt_req (tx w) =? pkt_cfm (tx w)) then mret (QB_EBUSY, msg_id)
    else
      upd_tx (load_tx p_data n cmd);;
      id ← (if ((cmd =? QM_BLE_CMD_AUTH) || (cmd =? QM_BLE_CMD_INIT) || (cmd =? QM_BLE_CMD_REPORT)) && (msg_id =? 0)
            then qm_ble_tx_msg_id_get else mret msg_id);
      upd_tx (set_tx_id id);;
      (if is_Some_b p_data && negb (n =? 0) then
         q ← lift (of_option (if payload =? 0 then None else Some (n / payload)));
         let total := u8 q in
         upd_tx (set_tx_total (if total * payload =? n then u8 (total - 1) else total))
       else mret tt);;
      upd_tx (set_active (negb (tx_type =? QB_TX_NOTIFICATION)));;
      _ ← send_fragment fuel;
      mret (QB_SUCCESS, id).

(** ** Key update and authentication (qm_ble_auth.c) *)

Definition iv : list Z := [48; 49; 50; 51; 52; 53; 54; 55; 56; 57; 65; 66; 67; 68; 69; 70].      (* "0123456789ABCDEF" *)

Definition qm_ble_transport_update_key (key : list Z) : M Z :=
  w ← get;
  put (with_key (Some key) (qm_ble_aes128_init key iv) w);;
  mret QB_SUCCESS.

Definition tx_func_indicate (fuel : nat) (cmd : Z) (p_data : list Z) (n : Z) : M Z :=
  '(r, _) ← qm_ble_transport_tx fuel QB_TX_INDICATION 0 cmd (Some p_data) n; mret r.

(** The expiry of the authentication timer. *)
Definition on_timeout : M unit := qm_ble_core_handle_err QM_ERROR_SRC_AUTH_PROC_TIMER_2 QB_ETIMEOUT.

Definition update_aes_key : M unit :=
  w ← get;
  d ← lift (of_option (slice (ikm (auth w)) 0 (ikm_len (auth w))));
  let k := take (Z.to_nat MAX_OKM_LEN) (qm_sha256 d) in
  upd_auth (set_okm k);;
  _ ← qm_ble_transport_update_key k;
  mret tt.

Definition qm_ble_hex2ascii (digit : Z) : Z := if digit <=? 9 then u8 (digit + 48) else u8 (digit - 10 + 65).
Definition qm_ble_hex2string (hex : list Z) : list Z :=
  hex ≫= fun b => [qm_ble_hex2ascii (Z.land (Z.shiftr b 4) 0x0f); qm_ble_hex2ascii (Z.land b 0x0f)].

Definition set_u32_be (x : Z) : list Z :=
  [u8 (Z.land (Z.shiftr x 24) 0xFF); u8 (Z.land (Z.shiftr x 16) 0xFF); u8 (Z.land (Z.shiftr x 8) 0xFF); u8 (Z.land x 0xFF)].

(** [memcpy(ikm + ikm_len, d, ..); ikm_len += n;] *)
Definition append_ikm (d : list Z) (n : Z) : M unit :=
  w ← get;
  b ← lift (of_option (splice (ikm (auth w)) (ikm_len (auth w)) d));
  upd_auth (set_ikm b (u16 (ikm_len (auth w) + n))).
Definition comma : M unit := append_ikm [44] 1.
Definition terminate : M unit := append_ikm [0] 0.

(** The text of the device identifier in version 3 goes through a local array of 33 bytes, filled from twice as
    many bytes as the identifier has; the text has an even length and no zero, so it ends inside the array. *)
Definition append_device_id : M unit :=
  w ← get;
  let c := core w in
  if QB_VERSION =? 3 then
    d ← lift (of_option (slice (device_id c) 0 (device_id_len c * 2)));
    _ ← lift (of_option (splice (replicate 33 0) 0 (qm_ble_hex2string d)));
    append_ikm (qm_ble_hex2string d) (device_id_len c * 2)
  else
    d ← lift (of_option (slice (device_id c) 0 (device_id_len c)));
    append_ikm d (device_id_len c).

(** What the key is derived from: the random number, the product and the secret. *)
Definition collect_ikm : M unit :=
  w ← get;
  append_ikm (qm_ble_hex2string (set_u32_be (product_id (core w)))) QB_PID_STR_LEN;;
  comma;;
  match auth_type (auth w) with
  | QB_AUTH_TYPE_PER_DEV =>
      append_device_id;;
      comma;;
      d ← lift (of_option (slice (device_secret (core w)) 0 (device_secret_len (core w))));
      append_ikm d (device_secret_len (core w));;
      terminate
  | _ =>
      d ← lift (of_option (slice (product_secret (core w)) 0 (product_secret_len (core w))));
      append_ikm d (product_secret_len (core w));;
      terminate
  end.

(** What happens when the handshake has ended. *)
Definition auth_finish : M unit :=
  w ← get;
  match state (auth w) with
  | QB_AUTH_STATE_DONE => qm_ble_core_event_notify QB_EVENT_AUTHENTICATED;; upd_auth (set_auth_timer false)
  | QB_AUTH_STATE_FAILED => upd_auth (set_auth_timer false);; qm_ble_disconnect
  | _ => mret tt
  end.

(** [p_data] are the bytes that were received.  Without a context the cipher stays zero. *)
Definition qm_ble_auth_rx_command (fuel : nat) (cmd : Z) (p_data : list Z) : M unit :=
  if Z.of_nat (length p_data) =? 0 then mret tt
  else
    w ← get;
    match state (auth w) with
    | QB_AUTH_STATE_SVC_ENABLED =>
        if cmd =? QM_BLE_CMD_SET_RAND then
          if negb (Z.of_nat (length p_data) =? RANDOM_SEQ_LEN) then mret tt
          else
            append_ikm p_data RANDOM_SEQ_LEN;;
            comma;;
            upd_auth (set_auth_state QB_AUTH_STATE_VERIFY);;
            collect_ikm;;
            update_aes_key;;
            w ← get;
            let cipher := match p_aes_ctx w with Some c => qm_ble_aes128_cbc_encrypt c p_data | None => replicate 16 0 end in
            err ← tx_func_indicate fuel QM_BLE_CMD_AUTH cipher RANDOM_SEQ_LEN;
            if negb (err =? QB_SUCCESS) then qm_ble_core_handle_err QM_ERROR_AUTH_CIPHER_RPT err else auth_finish
        else upd_auth (set_auth_state QB_AUTH_STATE_FAILED);; auth_finish
    | QB_AUTH_STATE_VERIFY =>
        (if (cmd =? QM_BLE_CMD_AUTH) && (Z.of_nat (length p_data) =? 1) then
           r ← lift (of_option (p_data !! 0%nat));
           upd_auth (set_auth_state (if r =? 0 then QB_AUTH_STATE_DONE else QB_AUTH_STATE_FAILED))
         else mret tt);;
        auth_finish
    | _ => auth_finish
    end.

(** [err] is the result of starting the timer. *)
Definition qm_ble_auth_connected (err : Z) : M unit :=
  if negb (err =? QB_SUCCESS) then qm_ble_core_handle_err QM_ERROR_SRC_AUTH_PROC_TIMER_0 (u8 err)
  else upd_auth (set_auth_timer true);; upd_auth (set_auth_state QB_AUTH_STATE_CONNECTED).

Definition qm_ble_auth_service_enabled : M unit :=
  upd_auth (set_auth_state QB_AUTH_STATE_SVC_ENABLED);;
  upd_auth (set_ikm (replicate (Z.to_nat MAX_IKM_LEN) 0) 0).

Definition qm_ble_auth_is_authdone (w : world) : bool := bool_decide (state (auth w) = QB_AUTH_STATE_DONE).

(** ** Transport: receiving *)

Definition IS_ENC (d0 : Z) : bool := negb (Z.land d0 0x10 =? 0).
Definition MSG_ID (d0 : Z) : Z := Z.land d0 0xf.
Definition TOTAL_FRAME (d2 : Z) : Z := Z.land (Z.shiftr d2 4) 0x0f.
Definition FRAME_SEQ (d2 : Z) : Z := Z.land d2 0x0f.

Definition set_rx_timer (b : bool) (r : rx_t) : rx_t := mk_rx (rx_buff r) (bytes_received r) (rx_id r) (rx_cmd r) (rx_total_frame r) (rx_frame_seq r) b.
Definition clear_rx (r : rx_t) : rx_t := mk_rx (rx_buff r) 0 (rx_id r) 0 0 0 (rx_timer r).
Definition open_rx (id cmd total : Z) (r : rx_t) : rx_t := mk_rx (rx_buff r) 0 id cmd total 0 (rx_timer r).
Definition set_rx_seq (n : Z) (r : rx_t) : rx_t := mk_rx (rx_buff r) (bytes_received r) (rx_id r) (rx_cmd r) (rx_total_frame r) n (rx_timer r).
Definition store_rx (b : list Z) (n : Z) (r : rx_t) : rx_t := mk_rx b n (rx_id r) (rx_cmd r) (rx_total_frame r) (rx_frame_seq r) (rx_timer r).

Definition reset_rx : M unit :=
  upd_rx clear_rx;;
  w ← get;
  if negb (timeout w =? 0) then upd_rx (set_rx_timer false) else mret tt.

Definition on_rx_timeout : M unit := reset_rx.

Definition is_valid_rx_command (cmd : Z) : bool :=
  (cmd =? QM_BLE_CMD_AUTH) || (cmd =? QM_BLE_CMD_INIT) || (cmd =? QM_BLE_CMD_SET) || (cmd =? QM_BLE_CMD_GET) || (cmd =? QM_BLE_CMD_ENTER_BACKGROUD) ||
  (cmd =? QM_BLE_CMD_GET_SNAPSHOT) || (cmd =? QM_BLE_CMD_REPORT) || (cmd =? QM_BLE_CMD_SET_RAND) || (cmd =? QM_BLE_CMD_BIND_NOTIFY) || (cmd =? QM_BLE_CMD_APINFO) ||
  (cmd =? QM_BLE_CMD_OTA_QUERY_VER) || (cmd =? QM_BLE_CMD_OTA_REQUEST) || (cmd =? QM_BLE_CMD_OTA_DATA) || (cmd =? QM_BLE_CMD_OTA_VERIFY) || (cmd =? QM_BLE_CMD_PRODTST).

(** Decrypts [n] bytes and gives the bytes that are left; without a context the result is zero. *)
Definition do_decrypt (ctx : option aes_ctx) (d : list Z) : option (list Z) :=
  let n := Z.of_nat (length d) in
  let blk_num := Z.shiftr n 4 in
  if n >? QB_FRAME_SIZE_MAX then Some d
  else
    let plain := match ctx with Some c => qm_ble_aes128_cbc_decrypt c (take (Z.to_nat (Z.shiftl blk_num 4)) d) | None => [] end in
    b ← splice (replicate (Z.to_nat QB_FRAME_SIZE_MAX) 0) 0 plain;
    pad ← b !! Z.to_nat (n - 1);
    Some (take (Z.to_nat (if (pad <? 1) || (pad >? 16) then n else u16 (n - pad))) b).

Definition rx_frames_left (w : world) : bool := negb (rx_total_frame (rx w) =? rx_frame_seq (rx w)).

Definition trans_rx_dispatcher (fuel : nat) : M unit :=
  w ← get;
  let r := rx w in
  if negb (is_valid_rx_command (rx_cmd r)) then mret tt
  else
    d ← lift (of_option (slice (rx_buff r) 0 (bytes_received r)));
    if (rx_cmd r =? QM_BLE_CMD_AUTH) || (rx_cmd r =? QM_BLE_CMD_SET_RAND) then qm_ble_auth_rx_command fuel (rx_cmd r) d
    else qm_ble_core_event_notify (QB_EVENT_RX_INFO (rx_id r) (rx_cmd r) (u8 (rx_frame_seq r + 1)) d).

Definition rx_refuse (src code : Z) : M unit := qm_ble_core_handle_err src code;; reset_rx.

Definition byte (p_data : list Z) (k : nat) : M Z := lift (of_option (p_data !! k)).

(** The frame continues the message; the fields are compared in this order, up to the first difference. *)
Definition continues (r : rx_t) (p_data : list Z) : M bool :=
  d0 ← byte p_data 0;
  if negb (rx_id r =? MSG_ID d0) then mret false
  else
    d1 ← byte p_data 1;
    if negb (rx_cmd r =? d1) then mret false
    else
      d2 ← byte p_data 2;
      mret ((rx_total_frame r =? TOTAL_FRAME d2) && (Z.land (rx_frame_seq r + 1) 0xF =? FRAME_SEQ d2)).

(** The check of the header: the first frame of a message opens it, the others must continue it. *)
Definition rx_header (p_data : list Z) : M bool :=
  w ← get;
  if negb (rx_frames_left w) then
    d2 ← byte p_data 2;
    if negb (FRAME_SEQ d2 =? 0) then rx_refuse QM_ERROR_SRC_TRANSPORT_1ST_FRAME QB_EINVALIDDATA;; mret false
    else
      d0 ← byte p_data 0; d1 ← byte p_data 1;
      upd_rx (open_rx (MSG_ID d0) d1 (TOTAL_FRAME d2));; mret true
  else
    ok ← continues (rx w) p_data;
    if negb ok then rx_refuse QM_ERROR_SRC_TRANSPORT_OTHER_FRAMES QB_EINVALIDDATA;; mret false
    else d2 ← byte p_data 2; upd_rx (set_rx_seq (FRAME_SEQ d2));; mret true.

(** The payload is copied, decrypted if necessary, behind the bytes received so far. *)
Definition rx_payload (p_data : list Z) (enc : bool) (frame_len : Z) : M unit :=
  w ← get;
  let buff_left := u16 (RX_BUFF_LEN - bytes_received (rx w)) in
  let n := if buff_left <? frame_len then buff_left else frame_len in
  if n >? 0 then
    d ← lift (of_option (slice p_data HEADER_SIZE n));
    d ← lift (of_option (if enc then do_decrypt (p_aes_ctx w) d else Some d));
    b ← lift (of_option (splice (rx_buff (rx w)) (bytes_received (rx w)) d));
    upd_rx (store_rx b (u16 (bytes_received (rx w) + Z.of_nat (length d))))
  else mret tt.

Definition rx_complete (fuel : nat) : M unit :=
  w ← get;
  if negb (rx_frames_left w) then trans_rx_dispatcher fuel;; reset_rx
  else if negb (timeout w =? 0) then upd_rx (set_rx_timer true) else mret tt.

(** The header is read before the length is compared with its size. *)
Definition qm_ble_transport_rx (fuel : nat) (p_data : list Z) : M unit :=
  let n := Z.of_nat (length p_data) in
  w ← get;
  if n =? 0 then mret tt
  else if n - HEADER_SIZE + bytes_received (rx w) >? RX_BUFF_LEN then rx_refuse QM_ERROR_SRC_TRANSPORT_RX_BUFF_SIZE QB_EDATASIZE
  else
    ok ← rx_header p_data;
    if negb ok then mret tt
    else
      d0 ← byte p_data 0;
      if IS_ENC d0 && negb (Z.rem (n - HEADER_SIZE) 16 =? 0) then rx_refuse QM_ERROR_SRC_TRANSPORT_ENCRYPTED QB_EINVALIDDATA
      else if IS_ENC d0 && negb (is_Some_b (p_key w)) then rx_refuse QM_ERROR_SRC_TRANSPORT_ENCRYPTED QB_EFORBIDDEN
      else
        frame_len ← byte p_data 3;
        if (negb (n =? HEADER_SIZE + frame_len) && negb (IS_ENC d0)) || ((n <? HEADER_SIZE + frame_len) && IS_ENC d0)
        then rx_refuse QM_ERROR_SRC_TRANSPORT_OTHER_FRAMES QB_EDATASIZE
        else rx_payload p_data (IS_ENC d0) frame_len;; rx_complete fuel.

(** ** Service: connection and subscriptions (qm_ble_service.c) *)

(** [mtu] is what the stack reports. *)
Definition qm_ble_trans_update_mtu (mtu : Z) : M unit :=
  let max_payload_len := u16 (mtu - QB_ATT_HDR_SIZE - QB_FRAME_HDR_SIZE) in
  w ← get;
  put (with_max_pkt (u16 (max_payload_len / QB_ENCRY_BLOCK_LENGTH * QB_ENCRY_BLOCK_LENGTH + QB_FRAME_HDR_SIZE)) w).

Definition service_enabled (mtu : Z) : M unit :=
  w ← get;
  if is_indication_enabled (svc w) && is_notification_enabled (svc w) then
    (if EN_LONG_MTU then qm_ble_trans_update_mtu mtu else mret tt);;
    (if negb (bool_decide (auth_type (auth w) = QB_AUTH_TYPE_NONE)) then qm_ble_auth_service_enabled
     else qm_ble_core_event_notify QB_EVENT_AUTHENTICATED)
  else mret tt.

Definition upd_svc (f : qm_ble_service_t -> qm_ble_service_t) : M unit := fun w => Ret (tt, with_svc (f (svc w)) w).

Definition connected (timer_err : Z) : M unit :=
  upd_svc (fun s => mk_service BLE_CONN_HANDLE_MAGIC false false (svc_max_pkt_size s));;
  w ← get;
  (if negb (bool_decide (auth_type (auth w) = QB_AUTH_TYPE_NONE)) then qm_ble_auth_connected timer_err else mret tt);;
  qm_ble_core_event_notify QB_EVENT_CONNECTED.

Definition disconnected : M unit :=
  upd_svc (fun s => mk_service BLE_CONN_HANDLE_INVALID false false (svc_max_pkt_size s));;
  qm_ble_core_event_notify QB_EVENT_DISCONNECTED.

(** The values of the subscription are 1 (notify) and 2 (indicate). *)
Definition QMS_CCC_VALUE_NOTIFY : Z := 1.
Definition QMS_CCC_VALUE_INDICATE : Z := 2.

Definition ic_ccc_handler (mtu val : Z) : M unit :=
  let on := val =? QMS_CCC_VALUE_INDICATE in
  upd_svc (fun s => mk_service (conn_handle s) on (is_notification_enabled s) (svc_max_pkt_size s));;
  if on then service_enabled mtu else mret tt.

Definition nc_ccc_handler (mtu val : Z) : M unit :=
  let on := val =? QMS_CCC_VALUE_NOTIFY in
  upd_svc (fun s => mk_service (conn_handle s) (is_indication_enabled s) on (svc_max_pkt_size s));;
  if on then service_enabled mtu else mret tt.

Definition wc_write_handler (fuel : nat) (buf : list Z) : M Z := qm_ble_transport_rx fuel buf;; mret (Z.of_nat (length buf)).
Definition wwnrc_write_handler (fuel : nat) (buf : list Z) : M Z := qm_ble_transport_rx fuel buf;; mret (Z.of_nat (length buf)).

Definition qm_ble_service_init (mtu : Z) : M unit := upd_svc (fun _ => mk_service BLE_CONN_HANDLE_INVALID false false (u16 (mtu - 3))).

(** ** Core (qm_ble_core.c) *)

Definition zeros (n : Z) : list Z := replicate (Z.to_nat n) 0.

Definition blank_tx : tx_t := mk_tx (zeros TX_BUFF_LEN) None 0 0 0 0 0 0 0 0 0 0 false false.
Definition blank_rx : rx_t := mk_rx (zeros RX_BUFF_LEN) 0 0 0 0 0 false.

Definition qm_ble_transport_init (transport_timeout : Z) : M unit := fun w =>
  Ret (tt, mk_world blank_tx blank_rx 0 (QB_GATT_MTU_SIZE_DEFAULT - 3) None (u16 transport_timeout) None (svc w) (auth w) (core w) (air w) (stack_calls w) (app w)).

Definition qm_ble_transport_reset : M unit :=
  reset_tx;;
  reset_rx;;
  w ← get;
  put (with_key (p_key w) None w).

(** The timers, the mutex and the cipher context are released. *)
Definition qm_ble_transport_deinit : M Z :=
  w ← get;
  put (with_key (p_key w) None (with_tx (set_tx_timer false (tx w)) (with_rx (set_rx_timer false (rx w)) w)));;
  mret QB_SUCCESS.

(** The state is cleared; the pointers to the secrets in the core are not used elsewhere. *)
Definition qm_ble_auth_init : M unit := upd_auth (fun _ => mk_auth QB_AUTH_STATE_IDLE false (zeros MAX_IKM_LEN) 0 (zeros MAX_OKM_LEN) QB_AUTH_TYPE_NONE).
Definition qm_ble_auth_deinit : M Z := upd_auth (set_auth_timer false);; mret QB_SUCCESS.

Record qm_ble_init_t := mk_init {
  i_product_id : Z;
  i_product_key : option (list Z);
  i_product_secret : option (list Z);
  i_device_id : option (list Z);
  i_device_secret : option (list Z);
  i_adv_mac : list Z;
  i_transport_timeout : Z;
  i_max_mtu : Z
}.

(** A member of [cap] bytes and its length; the length is kept in 8 bits. *)
Definition init_field (cap : Z) (d : option (list Z)) : outcome (list Z * Z) :=
  match d with
  | Some d =>
      let n := u16 (Z.of_nat (length d)) in
      if n >? 0 then
        d ← of_option (slice d 0 (u8 n));
        b ← of_option (splice (zeros cap) 0 d);
        Ret (b, u8 n)
      else Ret (zeros cap, 0)
  | None => Ret (zeros cap, 0)
  end.

Definition qm_ble_core_init (i : qm_ble_init_t) : M Z :=
  mac ← lift (of_option (slice (i_adv_mac i) 0 QB_BT_MAC_LEN));
  '(pk, pkn) ← lift (init_field QB_DEV_PRODUCT_KEY_LEN (i_product_key i));
  '(ps, psn) ← lift (init_field QB_DEV_PRODUCT_SECRET_LEN (i_product_secret i));
  '(di, din) ← lift (init_field QB_DEV_MAX_DEVICE_NAME_LEN (i_device_id i));
  '(ds, dsn) ← lift (init_field QB_DEV_DEVICE_SECRET_LEN (i_device_secret i));
  w ← get;
  put (with_core (mk_core (zeros QB_MAX_ADV_DATA_LEN) 0 (zeros (QB_MAX_LOCAL_NAME_LEN + 1)) (i_product_id i) mac pk pkn ps psn di din ds dsn) w);;
  qm_ble_service_init (i_max_mtu i);;
  qm_ble_transport_init (i_transport_timeout i);;
  qm_ble_auth_init;;
  mret QB_SUCCESS.

(** The check-in marks that are cleared here are not used. *)
Definition qm_ble_core_reset : M unit := qm_ble_auth_reset;; qm_ble_transport_reset.

Definition upd_core (f : qm_ble_core_t -> qm_ble_core_t) : M unit := fun w => Ret (tt, with_core (f (core w)) w).

Definition qm_ble_core_pid_set (pid : Z) : M unit :=
  upd_core (fun c => mk_core (adv_data c) (adv_data_len c) (local_name c) pid (adv_mac c) (product_key c) (product_key_len c) (product_secret c) (product_secret_len c) (device_id c) (device_id_len c) (device_secret c) (device_secret_len c)).

Definition qm_ble_core_device_id_set (d : option (list Z)) (n : Z) : M unit :=
  match d with
  | None => mret tt
  | Some d =>
      if n >=? QB_DEV_MAX_DEVICE_NAME_LEN then mret tt
      else
        w ← get;
        d ← lift (of_option (slice d 0 n));
        b ← lift (of_option (splice (device_id (core w)) 0 d));
        upd_core (fun c => mk_core (adv_data c) (adv_data_len c) (local_name c) (product_id c) (adv_mac c) (product_key c) (product_key_len c) (product_secret c) (product_secret_len c) b n (device_secret c) (device_secret_len c))
  end.

(** Advertising: company, version and type, function mask, product and the device identifier backwards.
    [ver] is the Bluetooth version, [ota] the option of the same name; advertising is not signed. *)
Definition adv_mask (ver : Z) (ota : bool) (sec_type : auth_kind) (bind_state : bool) : Z :=
  let f := u8 ver in
  let f := if ota then Z.lor f (Z.shiftl 1 2) else f in
  let f := match sec_type with QB_AUTH_TYPE_NONE => f | _ => Z.lor f (Z.shiftl 1 3) end in
  let f := match sec_type with
           | QB_AUTH_TYPE_PER_DEV => Z.lor f (Z.shiftl 1 4)
           | QB_AUTH_TYPE_PER_PK => Z.land f (u8 (Z.lnot (Z.shiftl 1 4)))
           | QB_AUTH_TYPE_NONE => f
           end in
  if bind_state then Z.lor f (Z.shiftl 1 6) else Z.land f (u8 (Z.lnot (Z.shiftl 1 6))).

Definition QB_BLUETOOTH_VER : Z := if BLE_4_2 then 0x01 else 0x00.

Definition set_u16_le (x : Z) : list Z := [u8 (Z.land x 0xFF); u8 (Z.land (Z.shiftr x 8) 0xFF)].
Definition set_u32_le (x : Z) : list Z := [u8 (Z.land x 0xFF); u8 (Z.land (Z.shiftr x 8) 0xFF); u8 (Z.land (Z.shiftr x 16) 0xFF); u8 (Z.land (Z.shiftr x 24) 0xFF)].

Definition qm_ble_core_create_bz_adv_data (company : Z) (ota : bool) (sub_type : Z) (sec_type : auth_kind) (bind_state : bool) : M unit :=
  w ← get;
  let c := core w in
  upd_auth (set_auth_type sec_type);;
  d ← lift (of_option (slice (device_id c) 0 6));
  b ← lift (of_option (splice (adv_data c) 0
        (set_u16_le company ++ [u8 (Z.lor (Z.shiftl QB_VERSION 0) (Z.shiftl sub_type 4)); u8 (adv_mask QB_BLUETOOTH_VER ota sec_type bind_state)] ++
         set_u32_le (product_id c) ++ rev d)));
  upd_core (fun c => mk_core b 14 (local_name c) (product_id c) (adv_mac c) (product_key c) (product_key_len c) (product_secret c) (product_secret_len c) (device_id c) (device_id_len c) (device_secret c) (device_secret_len c)).

(** [n] is the room of the caller; the result is the code and the bytes written. *)
Definition qm_ble_core_get_bz_adv_data (n : Z) (w : world) : outcome (Z * list Z) :=
  let c := core w in
  if n <? adv_data_len c then Ret (QB_ENOMEM, [])
  else d ← of_option (slice (adv_data c) 0 (adv_data_len c)); Ret (QB_SUCCESS, d).
End ble.
Arguments world {_} _.
End Ble.
