(* ===== verification/Sha256.v ===== *)
(** * SHA-256 (utility/sha256/qm_utils_sha256.c)

    The hash of the standard, computed piece by piece on a little-endian machine.  The
    context's buffer is also the working memory of [qm_utils_sha256_process]. *)

From S2P Require Import Prelude Words Merkle Ble.
Import list_relations.list list_basics.list Words Merkle.
Open Scope Z_scope.

Module Sha256.

Definition SHA256_BLOCK_LENGTH : Z := 64.
Definition SHA256_SHORT_BLOCK_LENGTH : Z := 56.

Definition R (b x : Z) : Z := Z.shiftr x b.
Definition S32 (b x : Z) : Z := Z.lor (Z.shiftr x b) (u32 (Z.shiftl x (32 - b))).
Definition Ch (x y z : Z) : Z := Z.lxor (Z.land x y) (Z.land (u32 (Z.lnot x)) z).
Definition Maj (x y z : Z) : Z := Z.lxor (Z.lxor (Z.land x y) (Z.land x z)) (Z.land y z).
Definition Sigma0_256 (x : Z) : Z := Z.lxor (Z.lxor (S32 2 x) (S32 13 x)) (S32 22 x).
Definition Sigma1_256 (x : Z) : Z := Z.lxor (Z.lxor (S32 6 x) (S32 11 x)) (S32 25 x).
Definition sigma0_256 (x : Z) : Z := Z.lxor (Z.lxor (S32 7 x) (S32 18 x)) (R 3 x).
Definition sigma1_256 (x : Z) : Z := Z.lxor (Z.lxor (S32 17 x) (S32 19 x)) (R 10 x).

Definition K256 : list Z := concat [
  [0x428a2f98; 0x71374491; 0xb5c0fbcf; 0xe9b5dba5]; [0x3956c25b; 0x59f111f1; 0x923f82a4; 0xab1c5ed5];
  [0xd807aa98; 0x12835b01; 0x243185be; 0x550c7dc3]; [0x72be5d74; 0x80deb1fe; 0x9bdc06a7; 0xc19bf174];
  [0xe49b69c1; 0xefbe4786; 0x0fc19dc6; 0x240ca1cc]; [0x2de92c6f; 0x4a7484aa; 0x5cb0a9dc; 0x76f988da];
  [0x983e5152; 0xa831c66d; 0xb00327c8; 0xbf597fc7]; [0xc6e00bf3; 0xd5a79147; 0x06ca6351; 0x14292967];
  [0x27b70a85; 0x2e1b2138; 0x4d2c6dfc; 0x53380d13]; [0x650a7354; 0x766a0abb; 0x81c2c92e; 0x92722c85];
  [0xa2bfe8a1; 0xa81a664b; 0xc24b8b70; 0xc76c51a3]; [0xd192e819; 0xd6990624; 0xf40e3585; 0x106aa070];
  [0x19a4c116; 0x1e376c08; 0x2748774c; 0x34b0bcb5]; [0x391c0cb3; 0x4ed8aa4a; 0x5b9cca4f; 0x682e6ff3];
  [0x748f82ee; 0x78a5636f; 0x84c87814; 0x8cc70208]; [0x90befffa; 0xa4506ceb; 0xbef9a3f7; 0xc67178f2]].
Definition sha256_initial_hash_value : list Z := [
  0x6a09e667; 0xbb67ae85; 0x3c6ef372; 0xa54ff53a; 0x510e527f; 0x9b05688c; 0x1f83d9ab; 0x5be0cd19].

(** The machine is little-endian: [os_htobe32], [os_be32toh] and [os_htobe64] reverse the bytes. *)
Definition reverse_32bit (data : Z) : Z :=
  let data := Z.lor (Z.shiftr data 16) (u32 (Z.shiftl data 16)) in
  Z.lor (Z.shiftr (Z.land data 0xff00ff00) 8) (u32 (Z.shiftl (Z.land data 0x00ff00ff) 8)).
Definition os_htobe32 (data : Z) : Z := reverse_32bit data.
Definition os_be32toh (data : Z) : Z := os_htobe32 data.
Definition reverse_64bit (data : Z) : Z :=
  let data := Z.lor (Z.shiftr data 32) (u64 (Z.shiftl data 32)) in
  let data := Z.lor (Z.shiftr (Z.land data 0xff00ff00ff00ff00) 8) (u64 (Z.shiftl (Z.land data 0x00ff00ff00ff00ff) 8)) in
  Z.lor (Z.shiftr (Z.land data 0xffff0000ffff0000) 16) (u64 (Z.shiftl (Z.land data 0x0000ffff0000ffff) 16)).
Definition os_htobe64 (data : Z) : Z := reverse_64bit data.

(** [state] and [buffer] are the [context] of Merkle. *)
Record qm_sha256_context := mk_sha256 { ctx : context (list Z); bitcount : Z }.

Definition qm_utils_sha256_init : qm_sha256_context := mk_sha256 (mk_context (replicate 8 0) (replicate 64 0)) 0.
Definition qm_utils_sha256_starts : qm_sha256_context := mk_sha256 (mk_context sha256_initial_hash_value (replicate 64 0)) 0.

(** The registers a to h. *)
Definition regs : Type := Z * Z * Z * Z * Z * Z * Z * Z.

Definition round (k w : Z) (r : regs) : regs :=
  let '(a, b, c, d, e, f, g, h) := r in
  let T1 := u32 (h + Sigma1_256 e + Ch e f g + k + w) in
  let T2 := u32 (Sigma0_256 a + Maj a b c) in
  (u32 (T1 + T2), a, b, c, u32 (d + T1), e, f, g).

(** The first loop: sixteen words of the data, converted. *)
Fixpoint first_rounds (n j : nat) (data W256 : list Z) (r : regs) : list Z * regs :=
  match n with
  | O => (W256, r)
  | S n =>
      let w := os_htobe32 (load_le data (4 * j)) in
      first_rounds n (j + 1) data (<[j := w]> W256) (round (at_n K256 j) w r)
  end.

(** The second loop: a window of sixteen words. *)
Definition slot (j : nat) : nat := Z.to_nat (Z.land (Z.of_nat j) 0x0f).
Fixpoint second_rounds (n j : nat) (W256 : list Z) (r : regs) : list Z * regs :=
  match n with
  | O => (W256, r)
  | S n =>
      let s0 := sigma0_256 (at_n W256 (slot (j + 1))) in
      let s1 := sigma1_256 (at_n W256 (slot (j + 14))) in
      let w := u32 (at_n W256 (slot j) + (s1 + at_n W256 (slot (j + 9)) + s0)) in
      second_rounds n (j + 1) (<[slot j := w]> W256) (round (at_n K256 j) w r)
  end.

Definition regs_of (s : list Z) : regs := (at_n s 0, at_n s 1, at_n s 2, at_n s 3, at_n s 4, at_n s 5, at_n s 6, at_n s 7).
Definition add_regs (s : list Z) (r : regs) : list Z :=
  let '(a, b, c, d, e, f, g, h) := r in
  [u32 (at_n s 0 + a); u32 (at_n s 1 + b); u32 (at_n s 2 + c); u32 (at_n s 3 + d); u32 (at_n s 4 + e); u32 (at_n s 5 + f); u32 (at_n s 6 + g); u32 (at_n s 7 + h)].

(** The words of the buffer, as a little-endian machine stores them.  When the data are the
    buffer itself, every word is read before it is overwritten. *)
Definition words_of (b : list Z) : list Z := (fun i => load_le b (4 * i)) <$> seq 0 16.
Definition bytes_of (ws : list Z) : list Z := concat (store_le <$> ws).

Definition qm_utils_sha256_process (c : context (list Z)) (data : list Z) : context (list Z) :=
  let '(W256, r) := first_rounds 16 0 data (words_of (buffer c)) (regs_of (state c)) in
  let '(W256, r) := second_rounds 48 16 W256 r in
  mk_context (add_regs (state c) r) (bytes_of W256).

(** The loop over whole blocks; the result has the bytes that are left. *)
Fixpoint update_blocks (n : nat) (x : qm_sha256_context) (input : list Z) : qm_sha256_context * list Z :=
  match n with
  | O => (x, input)
  | S n => update_blocks n (mk_sha256 (qm_utils_sha256_process (ctx x) (take 64 input)) (u64 (bitcount x + Z.shiftl SHA256_BLOCK_LENGTH 3))) (drop 64 input)
  end.

Definition used_space (x : qm_sha256_context) : nat := Z.to_nat (Z.shiftr (bitcount x) 3 mod SHA256_BLOCK_LENGTH).

(** The input is copied behind the bytes in the buffer. *)
Definition save (x : qm_sha256_context) (used : nat) (input : list Z) : qm_sha256_context :=
  mk_sha256 (mk_context (state (ctx x)) (copy_at (buffer (ctx x)) used input)) (u64 (bitcount x + Z.shiftl (Z.of_nat (length input)) 3)).

Definition qm_utils_sha256_update (x : qm_sha256_context) (input : list Z) : qm_sha256_context :=
  if (length input =? 0)%nat then x
  else
    let usedspace := used_space x in
    let freespace := (64 - usedspace)%nat in
    if (0 <? usedspace)%nat && negb (freespace <=? length input)%nat then save x usedspace input
    else
      let '(x, input) :=
        if (0 <? usedspace)%nat then
          let x := save x usedspace (take freespace input) in
          (mk_sha256 (qm_utils_sha256_process (ctx x) (buffer (ctx x))) (bitcount x), drop freespace input)
        else (x, input) in
      let '(x, input) := update_blocks (length input / 64) x input in
      if (0 <? length input)%nat then save x 0 input else x.

(** [memset] of the buffer from [i], [n] bytes. *)
Definition clear_at (b : list Z) (i n : nat) : list Z := copy_at b i (replicate n 0).

Definition bytes64 (x : Z) : list Z := store_le (u32 x) ++ store_le (Z.shiftr x 32).

(** The padding, built in the buffer up to the place of the length; [process] is
    [qm_utils_sha256_process]. *)
Definition last_buffer (process : context (list Z) -> list Z -> context (list Z)) (c : context (list Z)) (usedspace : nat) : context (list Z) :=
  if (0 <? usedspace)%nat then
    let b := copy_at (buffer c) usedspace [0x80] in
    let usedspace := (usedspace + 1)%nat in
    if (usedspace <=? 56)%nat then mk_context (state c) (clear_at b usedspace (56 - usedspace))
    else
      let b := if (usedspace <? 64)%nat then clear_at b usedspace (64 - usedspace) else b in
      let c := process (mk_context (state c) b) b in
      mk_context (state c) (clear_at (buffer c) 0 56)
  else mk_context (state c) (copy_at (clear_at (buffer c) 0 56) 0 [0x80]).

(** The result is the digest; the context is cleared. *)
Definition qm_utils_sha256_finish (x : qm_sha256_context) : list Z * qm_sha256_context :=
  let usedspace := used_space x in
  let bits := os_htobe64 (bitcount x) in
  let c := last_buffer qm_utils_sha256_process (ctx x) usedspace in
  let c := mk_context (state c) (copy_at (buffer c) 56 (bytes64 bits)) in
  let c := qm_utils_sha256_process c (buffer c) in
  (bytes_of (os_be32toh <$> state c), qm_utils_sha256_init).

Definition qm_utils_sha256 (input : list Z) : list Z := fst (qm_utils_sha256_finish (qm_utils_sha256_update qm_utils_sha256_starts input)).

(** ** The standard (FIPS 180-4) *)

Module Fips180.

Definition ROTR (n x : Z) : Z := Z.lor (Z.shiftr x n) (u32 (Z.shiftl x (32 - n))).
Definition Sigma0 (x : Z) : Z := Z.lxor (Z.lxor (ROTR 2 x) (ROTR 13 x)) (ROTR 22 x).
Definition Sigma1 (x : Z) : Z := Z.lxor (Z.lxor (ROTR 6 x) (ROTR 11 x)) (ROTR 25 x).
Definition sigma0 (x : Z) : Z := Z.lxor (Z.lxor (ROTR 7 x) (ROTR 18 x)) (Z.shiftr x 3).
Definition sigma1 (x : Z) : Z := Z.lxor (Z.lxor (ROTR 17 x) (ROTR 19 x)) (Z.shiftr x 10).

(** The constants: the first 32 bits of the fractional parts of the cube roots of the first
    64 primes, and of the square roots of the first eight. *)
Definition is_prime (n : Z) : bool := (1 <? n) && forallb (fun d => (Z.of_nat d <=? 1) || (n <=? Z.of_nat d) || negb (n mod Z.of_nat d =? 0)) (seq 2 30).
Definition primes : list Z := List.filter is_prime (Z.of_nat <$> seq 0 312).

(** The greatest [r] with [r^3 <= n], bit by bit. *)
Fixpoint cube_root (k : nat) (r n : Z) : Z :=
  match k with
  | O => r
  | S k => let r' := r + 2 ^ Z.of_nat k in cube_root k (if r' * r' * r' <=? n then r' else r) n
  end.
Definition K : list Z := (fun p => u32 (cube_root 36 0 (p * 2 ^ 96))) <$> primes.
Definition H0 : list Z := (fun p => u32 (Z.sqrt (p * 2 ^ 64))) <$> take 8 primes.

(** Sixteen words of a block, the high byte first, and the words that follow them. *)
Definition word (a b c d : Z) : Z := 2 ^ 24 * a + 2 ^ 16 * b + 2 ^ 8 * c + d.
Definition block_word (m : list Z) (i : nat) : Z := word (at_n m (4 * i)) (at_n m (4 * i + 1)) (at_n m (4 * i + 2)) (at_n m (4 * i + 3)).
Definition next_word (ws : list Z) (t : nat) : Z := u32 (sigma1 (at_n ws (t + 14)) + at_n ws (t + 9) + sigma0 (at_n ws (t + 1)) + at_n ws t).
Definition schedule (m : list Z) (n : nat) : list Z := extend next_word (block_word m <$> seq 0 16) n.

Definition step (ws : list Z) (r : regs) (t : nat) : regs :=
  let '(a, b, c, d, e, f, g, h) := r in
  let T1 := h + Sigma1 e + Z.lxor (Z.land e f) (Z.land (2 ^ 32 - 1 - e) g) + at_n K t + at_n ws t in
  let T2 := Sigma0 a + Z.lxor (Z.lxor (Z.land a b) (Z.land a c)) (Z.land b c) in
  (u32 (T1 + T2), a, b, c, u32 (d + T1), e, f, g).

Definition compress (H m : list Z) : list Z := add_regs H (foldl (step (schedule m 48)) (regs_of H) (seq 0 64)).

Definition be_bytes (w : Z) : list Z := [u8 (w / 2 ^ 24); u8 (w / 2 ^ 16); u8 (w / 2 ^ 8); u8 w].
(** The number of bits of a message of [n] bytes, in eight bytes. *)
Definition length_bytes (n : nat) : list Z := (fun i => u8 (8 * Z.of_nat n / 2 ^ (56 - 8 * Z.of_nat i))) <$> seq 0 8.

Definition sha256 (m : list Z) : list Z := concat (be_bytes <$> iterate compress H0 length_bytes m).

End Fips180.
Import Fips180.

Lemma constants : K = K256 /\ H0 = sha256_initial_hash_value.
Proof. split; vm_compute; reflexivity. Qed.

(** ** Words in memory *)

(** Bits at constant positions. *)
Ltac norm_bits :=
  repeat match goal with
  | |- context [Z.testbit ?x ?k] =>
      progress (let k' := eval vm_compute in k in change (Z.testbit x k) with (Z.testbit x k'))
  end.
Ltac bits_step :=
  first [rewrite Z.lor_spec | rewrite Z.land_spec | rewrite Z.shiftr_spec by lia | rewrite Z.shiftl_spec by lia
        | rewrite Z.mod_pow2_bits_low by lia | rewrite Z.mod_pow2_bits_high by lia | rewrite Z.testbit_neg_r by lia].
Ltac const_bits :=
  repeat (bits_step; norm_bits);
  repeat match goal with |- context [Z.testbit (Zpos ?p) ?k] => let b := eval vm_compute in (Z.testbit (Zpos p) k) in change (Z.testbit (Zpos p) k) with b end;
  rewrite ?andb_true_r, ?andb_false_r, ?orb_false_r, ?orb_false_l; try reflexivity.
(** [n] below 8, [i] below a constant. *)
Ltac eight n := let H := fresh in assert (n = 0 \/ n = 1 \/ n = 2 \/ n = 3 \/ n = 4 \/ n = 5 \/ n = 6 \/ n = 7) as H by lia; destruct H as [-> | [-> | [-> | [-> | [-> | [-> | [-> | ->]]]]]]].

Lemma reverse_32bit_B w i : is_u32 w -> 0 <= i < 4 -> B i (reverse_32bit w) = B (3 - i) w.
Proof.
  intros Hw Hi. apply Z.bits_inj'. intros n Hn. rewrite !B_spec by lia. destruct (Z.ltb_spec n 8) as [H8|H8]; [|by rewrite !andb_false_r].
  rewrite !andb_true_r. unfold reverse_32bit, u32. assert (i = 0 \/ i = 1 \/ i = 2 \/ i = 3) as [-> | [-> | [-> | ->]]] by lia; eight n; norm_bits; const_bits; rewrite ?(word_high w) by (done || lia); rewrite ?orb_false_r, ?orb_false_l; done.
Qed.

Lemma reverse_64bit_B x i : 0 <= x < 2 ^ 64 -> 0 <= i < 8 -> B i (reverse_64bit x) = B (7 - i) x.
Proof.
  intros Hx Hi. assert (forall k, 64 <= k -> Z.testbit x k = false) as Hh.
  { intros k Hk. destruct (Z.eq_dec x 0) as [->|]; [apply Z.bits_0|]. apply Z.bits_above_log2; [lia|]. apply Z.lt_le_trans with 64; [apply Z.log2_lt_pow2; lia|done]. }
  apply Z.bits_inj'. intros n Hn. rewrite !B_spec by lia. destruct (Z.ltb_spec n 8) as [H8|H8]; [|by rewrite !andb_false_r].
  rewrite !andb_true_r. unfold reverse_64bit, u64. eight i; eight n; norm_bits; const_bits; rewrite ?Hh by lia; rewrite ?orb_false_r, ?orb_false_l; done.
Qed.

(** Differences and sums of constants. *)
Ltac consts :=
  repeat match goal with
  | |- context [B (?a - ?b) _] => let r := eval vm_compute in (a - b)%Z in change (a - b) with r
  | |- context [B (?a + ?b) _] => let r := eval vm_compute in (a + b)%Z in change (a + b) with r
  end.

(** A nonnegative value is in 32 bits when its higher bits are clear. *)
Lemma reverse_32bit_u32 w : is_u32 w -> is_u32 (reverse_32bit w).
Proof.
  intros Hw. unfold reverse_32bit. assert (0 <= w) by (unfold is_u32 in Hw; lia).
  set (x := Z.lor (Z.shiftr w 16) (u32 (Z.shiftl w 16))).
  assert (is_u32 x) as Hx.
  { apply below_bits; [lia|apply Z.lor_nonneg; split; [by apply Z.shiftr_nonneg|apply u32_range]|]. intros n Hn. unfold x, u32.
    rewrite Z.lor_spec, Z.shiftr_spec, Z.mod_pow2_bits_high, (word_high w) by (done || lia). done. }
  clearbody x. apply below_bits; [lia|apply Z.lor_nonneg; split; [apply Z.shiftr_nonneg, Z.land_nonneg; unfold is_u32 in Hx; lia|apply u32_range]|].
  intros n Hn. unfold u32. rewrite Z.lor_spec, Z.shiftr_spec, Z.land_spec, Z.mod_pow2_bits_high, (word_high x) by (done || lia). done.
Qed.

(** A word of the data, read by the machine and reversed, is the word of the standard. *)
Lemma load_be b i : List.Forall is_u8 b -> os_htobe32 (load_le b (4 * i)) = block_word b i.
Proof.
  intros Hb. unfold os_htobe32. rewrite load_W by done. unfold block_word, word, at_n.
  assert (forall j, default 0 (b !! j) = at_ b (Z.of_nat j)) as E by (intros j; unfold at_; by rewrite Nat2Z.id).
  rewrite !E. pose proof (fun j => at_u8 b j Hb) as Hu.
  set (a0 := at_ b (Z.of_nat (4 * i))) in *. set (a1 := at_ b (Z.of_nat (4 * i + 1))). set (a2 := at_ b (Z.of_nat (4 * i + 2))). set (a3 := at_ b (Z.of_nat (4 * i + 3))).
  assert (is_u8 a0 /\ is_u8 a1 /\ is_u8 a2 /\ is_u8 a3) as (H0 & H1 & H2 & H3) by (split_and!; apply Hu). clearbody a0 a1 a2 a3.
  destruct (B_W a0 a1 a2 a3 H0 H1 H2 H3) as (B0 & B1 & B2 & B3).
  rewrite <- (W_B (reverse_32bit _)) by (apply reverse_32bit_u32, W_u32; done).
  rewrite !reverse_32bit_B by (done || lia || (apply W_u32; done)). consts. rewrite B0, B1, B2, B3, W_sum by done. lia.
Qed.

Lemma store_be w : is_u32 w -> store_le (os_be32toh w) = be_bytes w.
Proof.
  intros Hw. unfold os_be32toh, os_htobe32. rewrite store_B, !reverse_32bit_B by (done || lia). consts.
  rewrite !B_div by lia. cbn [Z.mul]. unfold be_bytes, u8. change (2 ^ 0) with 1. by rewrite Z.div_1_r.
Qed.

(** The length, reversed and stored, is the length of the standard. *)
Lemma store_length n : 8 * Z.of_nat n < 2 ^ 64 -> bytes64 (os_htobe64 (8 * Z.of_nat n)) = length_bytes n.
Proof.
  intros Hn. unfold bytes64, os_htobe64. rewrite !store_B.
  assert (forall x i, 0 <= i < 4 -> B i (u32 x) = B i x) as E1.
  { intros x i Hi. apply Z.bits_inj'. intros k Hk. rewrite !B_spec by lia. destruct (Z.ltb_spec k 8); [|by rewrite !andb_false_r]. unfold u32. by rewrite Z.mod_pow2_bits_low by lia. }
  assert (forall x i, 0 <= i -> B i (Z.shiftr x 32) = B (i + 4) x) as E2.
  { intros x i Hi. apply Z.bits_inj'. intros k Hk. rewrite !B_spec, Z.shiftr_spec by lia. do 2 f_equal. lia. }
  rewrite !E1, !E2, !reverse_64bit_B by lia. consts.
  rewrite !B_div by lia. reflexivity.
Qed.

(** ** One block *)

Lemma slot_mod j : slot j = (j mod 16)%nat.
Proof. unfold slot. change 0x0f with (Z.ones 4). rewrite Z.land_ones by lia. change (2 ^ 4) with (Z.of_nat 16). rewrite <- Nat2Z.inj_mod. apply Nat2Z.id. Qed.

Lemma block_words_length m : length (block_word m <$> seq 0 16) = 16%nat.
Proof. by rewrite length_fmap, length_seq. Qed.

Lemma schedule_first m i : (i < 16)%nat -> at_n (schedule m 48) i = block_word m i.
Proof. intros Hi. unfold schedule. rewrite extend_first by (done || apply block_words_length). unfold at_n. by rewrite list_lookup_fmap, lookup_seq_lt. Qed.

Lemma schedule_next m t : (t < 48)%nat -> at_n (schedule m 48) (t + 16) = next_word (schedule m 48) t.
Proof.
  apply extend_next; [apply block_words_length|]. intros ws ws' s H. unfold next_word. by rewrite !H by lia.
Qed.

(** A round of the code is a step of the standard. *)
Definition reg_e (r : regs) : Z := let '(_, _, _, _, e, _, _, _) := r in e.

Lemma round_step ws t r : is_u32 (reg_e r) -> round (at_n K256 t) (at_n ws t) r = step ws r t /\ is_u32 (reg_e (round (at_n K256 t) (at_n ws t) r)).
Proof.
  destruct r as [[[[[[[a b] c] d] e] f] g] h]. intros He. cbn [reg_e] in He. split; [|apply u32_range].
  unfold round, step. rewrite u32_add_l, !u32_add_r. unfold Ch. rewrite lnot_u32, (proj1 constants) by done. reflexivity.
Qed.

Lemma first_rounds_spec n j data W256 r : List.Forall is_u8 data -> (j + n = 16)%nat -> length W256 = 16%nat -> is_u32 (reg_e r) ->
  (forall k, (k < j)%nat -> W256 !! k = Some (at_n (schedule data 48) k)) ->
  let '(W', r') := first_rounds n j data W256 r in
  r' = foldl (step (schedule data 48)) r (seq j n) /\ is_u32 (reg_e r') /\ length W' = 16%nat /\ forall k, (k < 16)%nat -> W' !! k = Some (at_n (schedule data 48) k).
Proof.
  intros Hd. revert j W256 r. induction n as [|n IH]; intros j W256 r Hj Hl He Hw; cbn [first_rounds].
  { split; [done|]. split; [done|]. split; [done|]. intros k Hk. apply Hw. lia. }
  rewrite load_be, <- schedule_first by (done || lia). destruct (round_step (schedule data 48) j r He) as [E Hu].
  rewrite E in Hu |- *.
  specialize (IH (j + 1)%nat (<[j := at_n (schedule data 48) j]> W256) (step (schedule data 48) r j) ltac:(lia) ltac:(by rewrite length_insert) Hu).
  rewrite Nat.add_1_r in IH |- *. apply IH. intros k Hk. destruct (Nat.eq_dec k j) as [->|Hne].
  - apply list_lookup_insert_eq. lia.
  - rewrite list_lookup_insert_ne by done. apply Hw. lia.
Qed.

Lemma second_rounds_spec ws n t W256 r :
  (forall t, (t < 48)%nat -> at_n ws (t + 16) = next_word ws t) ->
  (t + n = 48)%nat -> is_u32 (reg_e r) -> window ws W256 (t + 16) ->
  let '(W', r') := second_rounds n (t + 16) W256 r in r' = foldl (step ws) r (seq (t + 16) n) /\ length W' = 16%nat.
Proof.
  intros Hnext. revert t W256 r. induction n as [|n IH]; intros t W256 r Ht He Hw; cbn [second_rounds]; [by destruct Hw|].
  rewrite !slot_mod.
  assert (forall k, (k < t + 16 <= k + 16)%nat -> forall i, (i = k + 16 \/ i = k)%nat -> at_n W256 (i mod 16) = at_n ws k) as Hat.
  { intros k Hk i [-> | ->]; [replace (k + 16)%nat with (k + 1 * 16)%nat by lia; rewrite Nat.Div0.mod_add|]; by apply (window_at ws W256 (t + 16)). }
  rewrite (Hat (t + 1)%nat ltac:(lia) (t + 16 + 1)%nat), (Hat (t + 14)%nat ltac:(lia) (t + 16 + 14)%nat), (Hat t ltac:(lia) (t + 16)%nat), (Hat (t + 9)%nat ltac:(lia) (t + 16 + 9)%nat) by lia.
  assert (u32 (at_n ws t + (sigma1_256 (at_n ws (t + 14)) + at_n ws (t + 9) + sigma0_256 (at_n ws (t + 1)))) = at_n ws (t + 16)) as ->.
  { rewrite (Hnext t) by lia. unfold next_word. f_equal. change sigma1_256 with sigma1. change sigma0_256 with sigma0. lia. }
  destruct (round_step ws (t + 16) r He) as [E Hu]. rewrite E in Hu |- *. apply window_next in Hw.
  specialize (IH (t + 1)%nat (<[((t + 16) mod 16)%nat := at_n ws (t + 16)]> W256) (step ws r (t + 16)) ltac:(lia) Hu).
  replace (t + 1 + 16)%nat with (t + 16 + 1)%nat in IH by lia. replace (S (t + 16)) with (t + 16 + 1)%nat by lia. cbn [seq foldl].
  replace (S (t + 16)) with (t + 16 + 1)%nat by lia. by apply IH.
Qed.

Lemma bytes_of_ok ws : List.Forall is_u8 (bytes_of ws) /\ length (bytes_of ws) = (4 * length ws)%nat.
Proof.
  unfold bytes_of. induction ws as [|w ws [IH1 IH2]]; [split; [apply List.Forall_nil|done]|]. rewrite fmap_cons. cbn [concat length].
  rewrite store_B, length_app, IH2. split; [|cbn; lia]. apply Forall_app. split; [|done]. repeat (apply List.Forall_cons; [apply B_u8|]). apply List.Forall_nil.
Qed.

(** The state: eight words. *)
Definition state_ok (s : list Z) : Prop := length s = 8%nat /\ List.Forall is_u32 s.

Lemma add_regs_ok s r : state_ok (add_regs s r).
Proof.
  destruct r as [[[[[[[a b] c] d] e] f] g] h]. split; [done|]. cbn [add_regs]. repeat (apply List.Forall_cons; [apply u32_range|]). apply List.Forall_nil.
Qed.

(** A block goes into the state as the standard says; the buffer keeps its size. *)
Lemma process_spec c d : state_ok (state c) -> length d = 64%nat -> List.Forall is_u8 d ->
  state (qm_utils_sha256_process c d) = compress (state c) d /\ state_ok (state (qm_utils_sha256_process c d)).
Proof.
  intros [Hl Hs] Hd Hu. unfold qm_utils_sha256_process, compress.
  assert (is_u32 (reg_e (regs_of (state c)))) as He.
  { cbn [reg_e regs_of]. unfold at_n. destruct (state c !! 4%nat) as [x|] eqn:E; [|by split]. rewrite list.Forall_forall in Hs. apply Hs. by eapply list_elem_of_lookup_2. }
  pose proof (first_rounds_spec 16 0 d (words_of (buffer c)) (regs_of (state c)) Hu eq_refl) as F.
  destruct (first_rounds 16 0 d (words_of (buffer c)) (regs_of (state c))) as [W1 r1].
  destruct F as (E1 & Hu1 & L1 & W1ok); [unfold words_of; by rewrite length_fmap, length_seq|done|intros k Hk; lia|].
  pose proof (second_rounds_spec (schedule d 48) 48 0 W1 r1 (schedule_next d) eq_refl Hu1) as S2. cbn [Nat.add] in S2. destruct (second_rounds 48 16 W1 r1) as [W2 r2].
  destruct S2 as [E2 L2]; [split; [done|]; intros k Hk; rewrite Nat.mod_small by lia; apply W1ok; lia|].
  cbn [state]. split; [|apply add_regs_ok]. f_equal. rewrite E2, E1, <- foldl_app. f_equal.
Qed.

Lemma process_words c d : state_ok (state (qm_utils_sha256_process c d)).
Proof.
  unfold qm_utils_sha256_process. destruct (first_rounds 16 0 d (words_of (buffer c)) (regs_of (state c))) as [W1 r1]. destruct (second_rounds 48 16 W1 r1) as [W2 r2]. apply add_regs_ok.
Qed.

Lemma rounds_length n j data W256 r : length (fst (first_rounds n j data W256 r)) = length W256 /\ length (fst (second_rounds n j W256 r)) = length W256.
Proof.
  revert j W256 r. induction n as [|n IH]; intros j W256 r; [done|]. cbn [first_rounds second_rounds].
  split; [rewrite (proj1 (IH _ _ _))|rewrite (proj2 (IH _ _ _))]; apply length_insert.
Qed.

Lemma process_buffer c d : length (buffer (qm_utils_sha256_process c d)) = 64%nat /\ List.Forall is_u8 (buffer (qm_utils_sha256_process c d)).
Proof.
  unfold qm_utils_sha256_process. pose proof (proj1 (rounds_length 16 0 d (words_of (buffer c)) (regs_of (state c)))) as L1.
  destruct (first_rounds 16 0 d (words_of (buffer c)) (regs_of (state c))) as [W1 r1]. pose proof (proj2 (rounds_length 48 16 d W1 r1)) as L2.
  destruct (second_rounds 48 16 W1 r1) as [W2 r2]. cbn [fst buffer] in *. destruct (bytes_of_ok W2) as [H1 H2]. split; [|done].
  rewrite H2, L2, L1. unfold words_of. by rewrite length_fmap, length_seq.
Qed.

(** ** Messages in pieces *)

#[local] Opaque qm_utils_sha256_process compress.

(** The context has been given [m] since it was started. *)
Definition given (x : qm_sha256_context) (m : list Z) : Prop :=
  holds compress state_ok sha256_initial_hash_value (ctx x) m /\ bitcount x = u64 (8 * Z.of_nat (length m)).

Lemma used_space_spec x (m : list Z) : bitcount x = u64 (8 * Z.of_nat (length m)) -> used_space x = (length m mod 64)%nat.
Proof.
  intros H. unfold used_space, SHA256_BLOCK_LENGTH. rewrite H, Z.shiftr_div_pow2 by lia. unfold u64. change (2 ^ 64) with (2 ^ 3 * 2 ^ 61). change 8 with (2 ^ 3) at 1.
  rewrite Zmult_mod_distr_l, Z.mul_comm, Z.div_mul by lia. change (2 ^ 61) with (64 * 2 ^ 55). rewrite Z.mod_mod_divide by (exists (2 ^ 55); lia).
  change 64 with (Z.of_nat 64). rewrite <- Nat2Z.inj_mod. apply Nat2Z.id.
Qed.

Lemma update_blocks_eq n x input : (64 * n <= length input)%nat ->
  update_blocks n x input = (mk_sha256 (whole_blocks qm_utils_sha256_process n (ctx x) input) (if (n =? 0)%nat then bitcount x else u64 (bitcount x + 8 * Z.of_nat (64 * n))), drop (64 * n) input).
Proof.
  revert x input. induction n as [|n IH]; intros x input Hl; [by destruct x|]. cbn [update_blocks whole_blocks]. rewrite IH by (rewrite length_drop; lia).
  cbn [ctx bitcount Nat.eqb]. rewrite drop_drop. replace (64 + 64 * n)%nat with (64 * S n)%nat by lia. f_equal. f_equal.
  change (Z.shiftl SHA256_BLOCK_LENGTH 3) with 512. destruct n as [|n]; [done|]. cbn [Nat.eqb]. unfold u64. rewrite Zplus_mod_idemp_l. f_equal. lia.
Qed.

Lemma u64_add_l a b : u64 (u64 a + b) = u64 (a + b).
Proof. apply Zplus_mod_idemp_l. Qed.
Lemma shiftl3 n : Z.shiftl n 3 = 8 * n.
Proof. rewrite Z.shiftl_mul_pow2 by lia. change (2 ^ 3) with 8. lia. Qed.

Lemma update_feed x (m input : list Z) : bitcount x = u64 (8 * Z.of_nat (length m)) ->
  ctx (qm_utils_sha256_update x input) = feed qm_utils_sha256_process (ctx x) (length m mod 64) input /\
  bitcount (qm_utils_sha256_update x input) = u64 (8 * Z.of_nat (length (m ++ input))).
Proof.
  intros Hb. unfold qm_utils_sha256_update. rewrite (used_space_spec x m Hb). pose proof (Nat.mod_upper_bound (length m) 64 ltac:(lia)) as Hm.
  set (used := (length m mod 64)%nat) in *. clearbody used. rewrite length_app.
  destruct (Nat.eqb_spec (length input) 0) as [H0|H0].
  { destruct input; [|done]. cbn [length]. rewrite Nat.add_0_r. split; [|done]. unfold feed. cbn [length]. rewrite (proj2 (Nat.leb_gt (64 - used) 0)), andb_false_r by lia. reflexivity. }
  unfold feed. destruct (Nat.ltb_spec 0 used) as [Hu|Hu]; cbn [andb].
  - destruct (Nat.leb_spec (64 - used) (length input)) as [Hf|Hf]; cbn [negb].
    + set (i2 := drop (64 - used) input). set (n := (length i2 / 64)%nat). pose proof (Nat.div_mod_eq (length i2) 64) as Hd. fold n in Hd.
      rewrite update_blocks_eq by lia. cbn [ctx bitcount save state buffer]. rewrite length_take, Nat.min_l, !shiftl3 by lia.
      assert (length i2 = (length input - (64 - used))%nat) as Hi2 by (unfold i2; by rewrite length_drop).
      destruct (Nat.ltb_spec 0 (length (drop (64 * n) i2))) as [Hr|Hr]; rewrite length_drop in Hr; cbn [ctx bitcount save state buffer]; (split; [done|]); rewrite ?shiftl3, ?length_drop;
        destruct (Nat.eqb_spec n 0) as [En|En]; rewrite ?Hb, ?u64_add_l, <- ?Z.add_assoc, ?u64_add_l, <- ?Z.add_assoc, ?u64_add_l; apply (f_equal u64); lia.
    + rewrite Nat.div_small, Nat.mul_0_r, drop_0 by lia. cbn [whole_blocks]. destruct (Nat.ltb_spec 0 (length input)); [|lia]. cbn [save ctx bitcount].
      split; [done|]. rewrite Hb, shiftl3, u64_add_l. f_equal. lia.
  - assert (used = 0%nat) as -> by lia. set (n := (length input / 64)%nat). pose proof (Nat.div_mod_eq (length input) 64) as Hd. fold n in Hd.
    rewrite update_blocks_eq by lia. destruct (Nat.ltb_spec 0 (length (drop (64 * n) input))) as [Hr|Hr]; rewrite length_drop in Hr; cbn [ctx bitcount save state buffer]; (split; [done|]); rewrite ?shiftl3, ?length_drop;
      destruct (Nat.eqb_spec n 0) as [En|En]; rewrite ?Hb, ?u64_add_l, <- ?Z.add_assoc, ?u64_add_l, <- ?Z.add_assoc, ?u64_add_l; apply (f_equal u64); lia.
Qed.

Lemma update_given x m input : given x m -> List.Forall is_u8 input -> given (qm_utils_sha256_update x input) (m ++ input).
Proof.
  intros [Hh Hb] Hi. destruct (update_feed x m input Hb) as [E1 E2]. split; [|done]. rewrite E1. apply feed_holds; [apply process_spec|intros; apply process_buffer|done|done].
Qed.

Lemma starts_given : given qm_utils_sha256_starts [].
Proof.
  split; [|done]. split; [done|]. split; [split; [done|]; repeat (apply List.Forall_cons; [by split|]); apply List.Forall_nil|]. split; [done|]. split; [|done].
  apply list.Forall_replicate. by split.
Qed.

(** ** The digest *)

Lemma length_bytes_ok n : length (length_bytes n) = 8%nat /\ List.Forall is_u8 (length_bytes n).
Proof.
  unfold length_bytes. split; [by rewrite length_fmap, length_seq|]. apply list.Forall_fmap, list.Forall_forall. intros i _. apply u8_range.
Qed.

(** The last block or the last two, as the code builds them in the buffer, are the rest of
    the message and its padding. *)
Section last_blocks.
Context (process : context (list Z) -> list Z -> context (list Z)) (compress : list Z -> list Z -> list Z) (ok : list Z -> Prop).
Context (process_state : forall c d, ok (state c) -> length d = 64%nat -> List.Forall is_u8 d -> state (process c d) = compress (state c) d /\ ok (state (process c d))).
Context (process_size : forall c d, length (buffer (process c d)) = 64%nat).

(** [b], with the length, is the last block behind [before]. *)
Definition closes (c : context (list Z)) (used : nat) (len : list Z) : Prop :=
  let c1 := last_buffer process c used in let b := copy_at (buffer c1) 56 len in
  ok (state c1) /\ length b = 64%nat /\ List.Forall is_u8 b /\
  compress (state c1) b = absorb compress (state c) (take used (buffer c) ++ 0x80 :: replicate (if (used <=? 55)%nat then 55 - used else 119 - used)%nat 0 ++ len).

Context (c : context (list Z)) (len : list Z).
Context (Ho : ok (state c)) (Hb : length (buffer c) = 64%nat) (Hu : List.Forall is_u8 (buffer c)) (Ll : length len = 8%nat) (Lu : List.Forall is_u8 len).

Lemma closes_empty : closes c 0 len.
Proof using Ho Hb Ll Lu.
  unfold closes, last_buffer. cbn [Nat.ltb Nat.leb state buffer Nat.sub take app].
  assert (length (copy_at (clear_at (buffer c) 0 56) 0 [128]) = 64%nat) as L1 by (unfold clear_at; rewrite !copy_at_length; rewrite ?copy_at_length, ?length_replicate; cbn; lia).
  assert (copy_at (copy_at (clear_at (buffer c) 0 56) 0 [128]) 56 len = 128 :: replicate 55 0 ++ len) as ->.
  { rewrite copy_at_full by lia. unfold copy_at at 1. rewrite take_0. cbn [app length Nat.add]. change (take 56 (128 :: ?x)) with (128 :: take 55 x).
    unfold clear_at, copy_at. cbn [take app]. rewrite length_replicate. reflexivity. }
  split; [done|]. split; [cbn [length]; rewrite length_app, length_replicate; lia|]. split; [apply List.Forall_cons; [by split|]; apply Forall_app; split; [apply zeros_u8|done]|].
  symmetry. apply absorb_one. cbn [length]. rewrite length_app, length_replicate. lia.
Qed.

Lemma closes_short used : (0 < used <= 55)%nat -> closes c used len.
Proof using Ho Hb Hu Ll Lu.
  intros H. unfold closes, last_buffer. rewrite (proj2 (Nat.ltb_lt 0 used)), (proj2 (Nat.leb_le (used + 1) 56)), (proj2 (Nat.leb_le used 55)) by lia. cbn [state buffer].
  assert (length (clear_at (copy_at (buffer c) used [0x80]) (used + 1) (56 - (used + 1))) = 64%nat) as L2 by (unfold clear_at; rewrite !copy_at_length; rewrite ?length_replicate, ?copy_at_length; cbn; lia).
  assert (copy_at (clear_at (copy_at (buffer c) used [0x80]) (used + 1) (56 - (used + 1))) 56 len = take used (buffer c) ++ 0x80 :: replicate (55 - used) 0 ++ len) as E.
  { rewrite copy_at_full by lia. unfold clear_at. rewrite take_copy_at by (rewrite ?length_replicate, ?copy_at_length; cbn; lia).
    rewrite take_copy_at by (cbn; lia). rewrite <- !app_assoc. cbn [app]. by replace (56 - (used + 1))%nat with (55 - used)%nat by lia. }
  rewrite <- E. split; [done|].
  assert (length (copy_at (clear_at (copy_at (buffer c) used [0x80]) (used + 1) (56 - (used + 1))) 56 len) = 64%nat) as L3 by (rewrite copy_at_length; lia).
  split; [done|]. split; [unfold clear_at; repeat apply copy_at_u8; auto using zeros_u8; by apply List.Forall_cons; [by split|apply List.Forall_nil]|].
  symmetry. by apply absorb_one.
Qed.

Lemma closes_long used : (55 < used < 64)%nat -> closes c used len.
Proof using process_state process_size Ho Hb Hu Ll Lu.
  intros H. unfold closes, last_buffer. rewrite (proj2 (Nat.ltb_lt 0 used)), (proj2 (Nat.leb_gt (used + 1) 56)), (proj2 (Nat.leb_gt used 55)) by lia. cbn [state buffer].
  set (b1 := if (used + 1 <? 64)%nat then clear_at (copy_at (buffer c) used [0x80]) (used + 1) (64 - (used + 1)) else copy_at (buffer c) used [0x80]).
  assert (b1 = take used (buffer c) ++ 0x80 :: replicate (63 - used) 0) as E1.
  { unfold b1, clear_at. destruct (Nat.ltb_spec (used + 1) 64).
    - rewrite copy_at_full by (rewrite length_replicate, copy_at_length; cbn; lia). rewrite take_copy_at by (cbn; lia). rewrite <- app_assoc. cbn [app]. by replace (64 - (used + 1))%nat with (63 - used)%nat by lia.
    - rewrite copy_at_full by (cbn; lia). by replace (63 - used)%nat with 0%nat by lia. }
  assert (length b1 = 64%nat) as L1 by (rewrite E1, length_app, length_take; cbn [length]; rewrite length_replicate; lia).
  assert (List.Forall is_u8 b1) as U1 by (rewrite E1; apply Forall_app; split; [by apply Forall_take|]; apply List.Forall_cons; [by split|apply zeros_u8]).
  clearbody b1. destruct (process_state (mk_context (state c) b1) b1 Ho L1 U1) as [P1 P2]. pose proof (process_size (mk_context (state c) b1) b1) as P3.
  set (c2 := process (mk_context (state c) b1) b1) in *. clearbody c2. cbn [state] in P1.
  assert (copy_at (clear_at (buffer c2) 0 56) 56 len = replicate 56 0 ++ len) as ->.
  { unfold clear_at. rewrite copy_at_full by (rewrite copy_at_length; rewrite ?length_replicate; lia). rewrite take_copy_at by (rewrite ?length_replicate; lia). done. }
  split; [done|]. split; [rewrite length_app, length_replicate; lia|]. split; [apply Forall_app; split; [apply zeros_u8|done]|].
  replace (119 - used)%nat with (63 - used + 56)%nat by lia. rewrite replicate_add, <- app_assoc, (app_comm_cons _ _ 0x80), app_assoc, <- E1.
  rewrite absorb_block, absorb_one by (rewrite ?length_app, ?length_replicate; lia). by rewrite P1.
Qed.
End last_blocks.

Lemma bytes_of_be s : List.Forall is_u32 s -> bytes_of (os_be32toh <$> s) = concat (be_bytes <$> s).
Proof. intros H. unfold bytes_of. induction H as [|w s Hw H IH]; [done|]. rewrite !fmap_cons. cbn [concat]. by rewrite store_be, IH. Qed.

Lemma closes_given x m : given x m -> 8 * Z.of_nat (length m) < 2 ^ 64 ->
  closes qm_utils_sha256_process compress state_ok (ctx x) (length m mod 64) (length_bytes (length m)).
Proof.
  intros [(Hs & Ho & Hb & Hu & Hr) Hbits] Hlen. destruct (length_bytes_ok (length m)) as [Ll Lu].
  pose proof (Nat.mod_upper_bound (length m) 64 ltac:(lia)) as Hm.
  destruct (decide (length m mod 64 = 0)%nat) as [E|E]; [rewrite E; by apply closes_empty|].
  destruct (decide (length m mod 64 <= 55)%nat) as [H55|H55].
  - apply closes_short; try done. lia.
  - apply (closes_long qm_utils_sha256_process compress state_ok process_spec (fun c d => proj1 (process_buffer c d))); try done. lia.
Qed.

Lemma finish_given x m : given x m -> 8 * Z.of_nat (length m) < 2 ^ 64 -> fst (qm_utils_sha256_finish x) = sha256 m.
Proof.
  intros Hg Hlen. pose proof (closes_given x m Hg Hlen) as (C1 & C2 & C3 & C4). destruct Hg as [(Hs & _ & _ & _ & Hr) Hbits].
  unfold qm_utils_sha256_finish. rewrite (used_space_spec x m Hbits), Hbits. unfold u64. rewrite (Z.mod_small (8 * Z.of_nat (length m))), store_length by lia. cbn [fst].
  set (c1 := last_buffer qm_utils_sha256_process (ctx x) (length m mod 64)) in *. set (b := copy_at (buffer c1) 56 (length_bytes (length m))) in *. cbn [buffer].
  destruct (process_spec (mk_context (state c1) b) b C1 C2 C3) as [P1 [_ P2]]. rewrite bytes_of_be by done. rewrite P1. cbn [state]. rewrite C4.
  unfold sha256, iterate. rewrite (proj2 constants). destruct (absorb_rest compress sha256_initial_hash_value m (padding (length m) (length_bytes (length m)))) as [A1 _].
  rewrite A1, <- Hs, <- Hr. unfold padding. rewrite padding_zeros by (apply Nat.mod_upper_bound; lia). done.
Qed.

Lemma finish_clears x : snd (qm_utils_sha256_finish x) = qm_utils_sha256_init.
Proof. reflexivity. Qed.

Lemma updates_given x m pieces : given x m -> List.Forall (List.Forall is_u8) pieces -> given (foldl qm_utils_sha256_update x pieces) (m ++ concat pieces).
Proof.
  intros Hg Hp. revert x m Hg. induction Hp as [|p pieces Hp Hps IH]; intros x m Hg; cbn [foldl concat]; [by rewrite app_nil_r|].
  rewrite app_assoc. apply IH. by apply update_given.
Qed.

(** C12: a message hashed piece by piece, however it is cut, gives the digest of FIPS 180-4 of the whole
    message, although every block leaves its schedule in the buffer; the context is cleared. *)
Theorem sha256_pieces pieces : List.Forall (List.Forall is_u8) pieces -> 8 * Z.of_nat (length (concat pieces)) < 2 ^ 64 ->
  qm_utils_sha256_finish (foldl qm_utils_sha256_update qm_utils_sha256_starts pieces) = (sha256 (concat pieces), qm_utils_sha256_init).
Proof.
  intros Hp Hl. rewrite (surjective_pairing (qm_utils_sha256_finish _)), finish_clears. f_equal.
  exact (finish_given _ _ (updates_given _ [] pieces starts_given Hp) Hl).
Qed.

Lemma sha256_whole d : List.Forall is_u8 d -> 8 * Z.of_nat (length d) < 2 ^ 64 -> qm_utils_sha256 d = sha256 d.
Proof. intros Hu Hl. apply finish_given; [|done]. exact (update_given _ [] d starts_given Hu). Qed.

(** The hash the Bluetooth link asks for. *)
Lemma finish_ok x : length (fst (qm_utils_sha256_finish x)) = 32%nat /\ List.Forall is_u8 (fst (qm_utils_sha256_finish x)).
Proof.
  unfold qm_utils_sha256_finish. cbn [fst]. generalize (mk_context (state (last_buffer qm_utils_sha256_process (ctx x) (used_space x)))
    (copy_at (buffer (last_buffer qm_utils_sha256_process (ctx x) (used_space x))) 56 (bytes64 (os_htobe64 (bitcount x))))) as c. intros c.
  destruct (bytes_of_ok (os_be32toh <$> state (qm_utils_sha256_process c (buffer c)))) as [H1 H2]. split; [|exact H1].
  rewrite H2, length_fmap, (proj1 (process_words c (buffer c))). done.
Qed.

#[export] Instance sha256_hash : BleHash := {
  qm_sha256 := qm_utils_sha256;
  qm_sha256_length d := proj1 (finish_ok _);
  qm_sha256_bytes d _ := proj2 (finish_ok _)
}.

Lemma sha256_pieces_witness :
  qm_utils_sha256_finish (foldl qm_utils_sha256_update qm_utils_sha256_starts [[0x61]; [0x62; 0x63]]) = (sha256 [0x61; 0x62; 0x63], qm_utils_sha256_init).
Proof.
  apply (sha256_pieces [[0x61]; [0x62; 0x63]]); [|by vm_compute].
  repeat (apply List.Forall_cons; [repeat (apply List.Forall_cons; [by split|]); apply List.Forall_nil|]). apply List.Forall_nil.
Defined.

(** The digest of "abc". *)
Example sha256_abc : qm_utils_sha256 [0x61; 0x62; 0x63] = [0xBA;0x78;0x16;0xBF;0x8F;0x01;0xCF;0xEA;0x41;0x41;0x40;0xDE;0x5D;0xAE;0x22;0x23;0xB0;0x03;0x61;0xA3;0x96;0x17;0x7A;0x9C;0xB4;0x10;0xFF;0x61;0xF2;0x00;0x15;0xAD].
Proof. vm_compute. reflexivity. Qed.
End Sha256.
