(* ===== verification/Aes.v ===== *)
(** * AES (utility/aes/qm_utils_aes.c)

    Key schedules, the block cipher by tables, and the CBC and CFB modes; and the AES
    functions of the Bluetooth link on the ESP32 (platform/mcu/esp32/qm_ble/qm_ble_hal_sec.c).
    The tables are those compiled in (POLARSSL_AES_ROM_TABLES).  Words are 32 bits. *)

From Stdlib Require Import Btauto.
From S2P Require Import Prelude Words Ble.
Import list_relations.list list_basics.list Words.
Open Scope Z_scope.

Module Aes.

(** Forward S-box. *)
Definition FSb : list Z := [
  0x63; 0x7C; 0x77; 0x7B; 0xF2; 0x6B; 0x6F; 0xC5; 0x30; 0x01; 0x67; 0x2B; 0xFE; 0xD7; 0xAB; 0x76;
  0xCA; 0x82; 0xC9; 0x7D; 0xFA; 0x59; 0x47; 0xF0; 0xAD; 0xD4; 0xA2; 0xAF; 0x9C; 0xA4; 0x72; 0xC0;
  0xB7; 0xFD; 0x93; 0x26; 0x36; 0x3F; 0xF7; 0xCC; 0x34; 0xA5; 0xE5; 0xF1; 0x71; 0xD8; 0x31; 0x15;
  0x04; 0xC7; 0x23; 0xC3; 0x18; 0x96; 0x05; 0x9A; 0x07; 0x12; 0x80; 0xE2; 0xEB; 0x27; 0xB2; 0x75;
  0x09; 0x83; 0x2C; 0x1A; 0x1B; 0x6E; 0x5A; 0xA0; 0x52; 0x3B; 0xD6; 0xB3; 0x29; 0xE3; 0x2F; 0x84;
  0x53; 0xD1; 0x00; 0xED; 0x20; 0xFC; 0xB1; 0x5B; 0x6A; 0xCB; 0xBE; 0x39; 0x4A; 0x4C; 0x58; 0xCF;
  0xD0; 0xEF; 0xAA; 0xFB; 0x43; 0x4D; 0x33; 0x85; 0x45; 0xF9; 0x02; 0x7F; 0x50; 0x3C; 0x9F; 0xA8;
  0x51; 0xA3; 0x40; 0x8F; 0x92; 0x9D; 0x38; 0xF5; 0xBC; 0xB6; 0xDA; 0x21; 0x10; 0xFF; 0xF3; 0xD2;
  0xCD; 0x0C; 0x13; 0xEC; 0x5F; 0x97; 0x44; 0x17; 0xC4; 0xA7; 0x7E; 0x3D; 0x64; 0x5D; 0x19; 0x73;
  0x60; 0x81; 0x4F; 0xDC; 0x22; 0x2A; 0x90; 0x88; 0x46; 0xEE; 0xB8; 0x14; 0xDE; 0x5E; 0x0B; 0xDB;
  0xE0; 0x32; 0x3A; 0x0A; 0x49; 0x06; 0x24; 0x5C; 0xC2; 0xD3; 0xAC; 0x62; 0x91; 0x95; 0xE4; 0x79;
  0xE7; 0xC8; 0x37; 0x6D; 0x8D; 0xD5; 0x4E; 0xA9; 0x6C; 0x56; 0xF4; 0xEA; 0x65; 0x7A; 0xAE; 0x08;
  0xBA; 0x78; 0x25; 0x2E; 0x1C; 0xA6; 0xB4; 0xC6; 0xE8; 0xDD; 0x74; 0x1F; 0x4B; 0xBD; 0x8B; 0x8A;
  0x70; 0x3E; 0xB5; 0x66; 0x48; 0x03; 0xF6; 0x0E; 0x61; 0x35; 0x57; 0xB9; 0x86; 0xC1; 0x1D; 0x9E;
  0xE1; 0xF8; 0x98; 0x11; 0x69; 0xD9; 0x8E; 0x94; 0x9B; 0x1E; 0x87; 0xE9; 0xCE; 0x55; 0x28; 0xDF;
  0x8C; 0xA1; 0x89; 0x0D; 0xBF; 0xE6; 0x42; 0x68; 0x41; 0x99; 0x2D; 0x0F; 0xB0; 0x54; 0xBB; 0x16].

(** Forward table; the others are its rotations. *)
Definition FT0 : list Z := [
  0xA56363C6; 0x847C7CF8; 0x997777EE; 0x8D7B7BF6; 0x0DF2F2FF; 0xBD6B6BD6; 0xB16F6FDE; 0x54C5C591; 0x50303060; 0x03010102;
  0xA96767CE; 0x7D2B2B56; 0x19FEFEE7; 0x62D7D7B5; 0xE6ABAB4D; 0x9A7676EC; 0x45CACA8F; 0x9D82821F; 0x40C9C989; 0x877D7DFA;
  0x15FAFAEF; 0xEB5959B2; 0xC947478E; 0x0BF0F0FB; 0xECADAD41; 0x67D4D4B3; 0xFDA2A25F; 0xEAAFAF45; 0xBF9C9C23; 0xF7A4A453;
  0x967272E4; 0x5BC0C09B; 0xC2B7B775; 0x1CFDFDE1; 0xAE93933D; 0x6A26264C; 0x5A36366C; 0x413F3F7E; 0x02F7F7F5; 0x4FCCCC83;
  0x5C343468; 0xF4A5A551; 0x34E5E5D1; 0x08F1F1F9; 0x937171E2; 0x73D8D8AB; 0x53313162; 0x3F15152A; 0x0C040408; 0x52C7C795;
  0x65232346; 0x5EC3C39D; 0x28181830; 0xA1969637; 0x0F05050A; 0xB59A9A2F; 0x0907070E; 0x36121224; 0x9B80801B; 0x3DE2E2DF;
  0x26EBEBCD; 0x6927274E; 0xCDB2B27F; 0x9F7575EA; 0x1B090912; 0x9E83831D; 0x742C2C58; 0x2E1A1A34; 0x2D1B1B36; 0xB26E6EDC;
  0xEE5A5AB4; 0xFBA0A05B; 0xF65252A4; 0x4D3B3B76; 0x61D6D6B7; 0xCEB3B37D; 0x7B292952; 0x3EE3E3DD; 0x712F2F5E; 0x97848413;
  0xF55353A6; 0x68D1D1B9; 0x00000000; 0x2CEDEDC1; 0x60202040; 0x1FFCFCE3; 0xC8B1B179; 0xED5B5BB6; 0xBE6A6AD4; 0x46CBCB8D;
  0xD9BEBE67; 0x4B393972; 0xDE4A4A94; 0xD44C4C98; 0xE85858B0; 0x4ACFCF85; 0x6BD0D0BB; 0x2AEFEFC5; 0xE5AAAA4F; 0x16FBFBED;
  0xC5434386; 0xD74D4D9A; 0x55333366; 0x94858511; 0xCF45458A; 0x10F9F9E9; 0x06020204; 0x817F7FFE; 0xF05050A0; 0x443C3C78;
  0xBA9F9F25; 0xE3A8A84B; 0xF35151A2; 0xFEA3A35D; 0xC0404080; 0x8A8F8F05; 0xAD92923F; 0xBC9D9D21; 0x48383870; 0x04F5F5F1;
  0xDFBCBC63; 0xC1B6B677; 0x75DADAAF; 0x63212142; 0x30101020; 0x1AFFFFE5; 0x0EF3F3FD; 0x6DD2D2BF; 0x4CCDCD81; 0x140C0C18;
  0x35131326; 0x2FECECC3; 0xE15F5FBE; 0xA2979735; 0xCC444488; 0x3917172E; 0x57C4C493; 0xF2A7A755; 0x827E7EFC; 0x473D3D7A;
  0xAC6464C8; 0xE75D5DBA; 0x2B191932; 0x957373E6; 0xA06060C0; 0x98818119; 0xD14F4F9E; 0x7FDCDCA3; 0x66222244; 0x7E2A2A54;
  0xAB90903B; 0x8388880B; 0xCA46468C; 0x29EEEEC7; 0xD3B8B86B; 0x3C141428; 0x79DEDEA7; 0xE25E5EBC; 0x1D0B0B16; 0x76DBDBAD;
  0x3BE0E0DB; 0x56323264; 0x4E3A3A74; 0x1E0A0A14; 0xDB494992; 0x0A06060C; 0x6C242448; 0xE45C5CB8; 0x5DC2C29F; 0x6ED3D3BD;
  0xEFACAC43; 0xA66262C4; 0xA8919139; 0xA4959531; 0x37E4E4D3; 0x8B7979F2; 0x32E7E7D5; 0x43C8C88B; 0x5937376E; 0xB76D6DDA;
  0x8C8D8D01; 0x64D5D5B1; 0xD24E4E9C; 0xE0A9A949; 0xB46C6CD8; 0xFA5656AC; 0x07F4F4F3; 0x25EAEACF; 0xAF6565CA; 0x8E7A7AF4;
  0xE9AEAE47; 0x18080810; 0xD5BABA6F; 0x887878F0; 0x6F25254A; 0x722E2E5C; 0x241C1C38; 0xF1A6A657; 0xC7B4B473; 0x51C6C697;
  0x23E8E8CB; 0x7CDDDDA1; 0x9C7474E8; 0x211F1F3E; 0xDD4B4B96; 0xDCBDBD61; 0x868B8B0D; 0x858A8A0F; 0x907070E0; 0x423E3E7C;
  0xC4B5B571; 0xAA6666CC; 0xD8484890; 0x05030306; 0x01F6F6F7; 0x120E0E1C; 0xA36161C2; 0x5F35356A; 0xF95757AE; 0xD0B9B969;
  0x91868617; 0x58C1C199; 0x271D1D3A; 0xB99E9E27; 0x38E1E1D9; 0x13F8F8EB; 0xB398982B; 0x33111122; 0xBB6969D2; 0x70D9D9A9;
  0x898E8E07; 0xA7949433; 0xB69B9B2D; 0x221E1E3C; 0x92878715; 0x20E9E9C9; 0x49CECE87; 0xFF5555AA; 0x78282850; 0x7ADFDFA5;
  0x8F8C8C03; 0xF8A1A159; 0x80898909; 0x170D0D1A; 0xDABFBF65; 0x31E6E6D7; 0xC6424284; 0xB86868D0; 0xC3414182; 0xB0999929;
  0x772D2D5A; 0x110F0F1E; 0xCBB0B07B; 0xFC5454A8; 0xD6BBBB6D; 0x3A16162C].

(** Reverse S-box. *)
Definition RSb : list Z := [
  0x52; 0x09; 0x6A; 0xD5; 0x30; 0x36; 0xA5; 0x38; 0xBF; 0x40; 0xA3; 0x9E; 0x81; 0xF3; 0xD7; 0xFB;
  0x7C; 0xE3; 0x39; 0x82; 0x9B; 0x2F; 0xFF; 0x87; 0x34; 0x8E; 0x43; 0x44; 0xC4; 0xDE; 0xE9; 0xCB;
  0x54; 0x7B; 0x94; 0x32; 0xA6; 0xC2; 0x23; 0x3D; 0xEE; 0x4C; 0x95; 0x0B; 0x42; 0xFA; 0xC3; 0x4E;
  0x08; 0x2E; 0xA1; 0x66; 0x28; 0xD9; 0x24; 0xB2; 0x76; 0x5B; 0xA2; 0x49; 0x6D; 0x8B; 0xD1; 0x25;
  0x72; 0xF8; 0xF6; 0x64; 0x86; 0x68; 0x98; 0x16; 0xD4; 0xA4; 0x5C; 0xCC; 0x5D; 0x65; 0xB6; 0x92;
  0x6C; 0x70; 0x48; 0x50; 0xFD; 0xED; 0xB9; 0xDA; 0x5E; 0x15; 0x46; 0x57; 0xA7; 0x8D; 0x9D; 0x84;
  0x90; 0xD8; 0xAB; 0x00; 0x8C; 0xBC; 0xD3; 0x0A; 0xF7; 0xE4; 0x58; 0x05; 0xB8; 0xB3; 0x45; 0x06;
  0xD0; 0x2C; 0x1E; 0x8F; 0xCA; 0x3F; 0x0F; 0x02; 0xC1; 0xAF; 0xBD; 0x03; 0x01; 0x13; 0x8A; 0x6B;
  0x3A; 0x91; 0x11; 0x41; 0x4F; 0x67; 0xDC; 0xEA; 0x97; 0xF2; 0xCF; 0xCE; 0xF0; 0xB4; 0xE6; 0x73;
  0x96; 0xAC; 0x74; 0x22; 0xE7; 0xAD; 0x35; 0x85; 0xE2; 0xF9; 0x37; 0xE8; 0x1C; 0x75; 0xDF; 0x6E;
  0x47; 0xF1; 0x1A; 0x71; 0x1D; 0x29; 0xC5; 0x89; 0x6F; 0xB7; 0x62; 0x0E; 0xAA; 0x18; 0xBE; 0x1B;
  0xFC; 0x56; 0x3E; 0x4B; 0xC6; 0xD2; 0x79; 0x20; 0x9A; 0xDB; 0xC0; 0xFE; 0x78; 0xCD; 0x5A; 0xF4;
  0x1F; 0xDD; 0xA8; 0x33; 0x88; 0x07; 0xC7; 0x31; 0xB1; 0x12; 0x10; 0x59; 0x27; 0x80; 0xEC; 0x5F;
  0x60; 0x51; 0x7F; 0xA9; 0x19; 0xB5; 0x4A; 0x0D; 0x2D; 0xE5; 0x7A; 0x9F; 0x93; 0xC9; 0x9C; 0xEF;
  0xA0; 0xE0; 0x3B; 0x4D; 0xAE; 0x2A; 0xF5; 0xB0; 0xC8; 0xEB; 0xBB; 0x3C; 0x83; 0x53; 0x99; 0x61;
  0x17; 0x2B; 0x04; 0x7E; 0xBA; 0x77; 0xD6; 0x26; 0xE1; 0x69; 0x14; 0x63; 0x55; 0x21; 0x0C; 0x7D].

(** Reverse table. *)
Definition RT0 : list Z := [
  0x50A7F451; 0x5365417E; 0xC3A4171A; 0x965E273A; 0xCB6BAB3B; 0xF1459D1F; 0xAB58FAAC; 0x9303E34B; 0x55FA3020; 0xF66D76AD;
  0x9176CC88; 0x254C02F5; 0xFCD7E54F; 0xD7CB2AC5; 0x80443526; 0x8FA362B5; 0x495AB1DE; 0x671BBA25; 0x980EEA45; 0xE1C0FE5D;
  0x02752FC3; 0x12F04C81; 0xA397468D; 0xC6F9D36B; 0xE75F8F03; 0x959C9215; 0xEB7A6DBF; 0xDA595295; 0x2D83BED4; 0xD3217458;
  0x2969E049; 0x44C8C98E; 0x6A89C275; 0x78798EF4; 0x6B3E5899; 0xDD71B927; 0xB64FE1BE; 0x17AD88F0; 0x66AC20C9; 0xB43ACE7D;
  0x184ADF63; 0x82311AE5; 0x60335197; 0x457F5362; 0xE07764B1; 0x84AE6BBB; 0x1CA081FE; 0x942B08F9; 0x58684870; 0x19FD458F;
  0x876CDE94; 0xB7F87B52; 0x23D373AB; 0xE2024B72; 0x578F1FE3; 0x2AAB5566; 0x0728EBB2; 0x03C2B52F; 0x9A7BC586; 0xA50837D3;
  0xF2872830; 0xB2A5BF23; 0xBA6A0302; 0x5C8216ED; 0x2B1CCF8A; 0x92B479A7; 0xF0F207F3; 0xA1E2694E; 0xCDF4DA65; 0xD5BE0506;
  0x1F6234D1; 0x8AFEA6C4; 0x9D532E34; 0xA055F3A2; 0x32E18A05; 0x75EBF6A4; 0x39EC830B; 0xAAEF6040; 0x069F715E; 0x51106EBD;
  0xF98A213E; 0x3D06DD96; 0xAE053EDD; 0x46BDE64D; 0xB58D5491; 0x055DC471; 0x6FD40604; 0xFF155060; 0x24FB9819; 0x97E9BDD6;
  0xCC434089; 0x779ED967; 0xBD42E8B0; 0x888B8907; 0x385B19E7; 0xDBEEC879; 0x470A7CA1; 0xE90F427C; 0xC91E84F8; 0x00000000;
  0x83868009; 0x48ED2B32; 0xAC70111E; 0x4E725A6C; 0xFBFF0EFD; 0x5638850F; 0x1ED5AE3D; 0x27392D36; 0x64D90F0A; 0x21A65C68;
  0xD1545B9B; 0x3A2E3624; 0xB1670A0C; 0x0FE75793; 0xD296EEB4; 0x9E919B1B; 0x4FC5C080; 0xA220DC61; 0x694B775A; 0x161A121C;
  0x0ABA93E2; 0xE52AA0C0; 0x43E0223C; 0x1D171B12; 0x0B0D090E; 0xADC78BF2; 0xB9A8B62D; 0xC8A91E14; 0x8519F157; 0x4C0775AF;
  0xBBDD99EE; 0xFD607FA3; 0x9F2601F7; 0xBCF5725C; 0xC53B6644; 0x347EFB5B; 0x7629438B; 0xDCC623CB; 0x68FCEDB6; 0x63F1E4B8;
  0xCADC31D7; 0x10856342; 0x40229713; 0x2011C684; 0x7D244A85; 0xF83DBBD2; 0x1132F9AE; 0x6DA129C7; 0x4B2F9E1D; 0xF330B2DC;
  0xEC52860D; 0xD0E3C177; 0x6C16B32B; 0x99B970A9; 0xFA489411; 0x2264E947; 0xC48CFCA8; 0x1A3FF0A0; 0xD82C7D56; 0xEF903322;
  0xC74E4987; 0xC1D138D9; 0xFEA2CA8C; 0x360BD498; 0xCF81F5A6; 0x28DE7AA5; 0x268EB7DA; 0xA4BFAD3F; 0xE49D3A2C; 0x0D927850;
  0x9BCC5F6A; 0x62467E54; 0xC2138DF6; 0xE8B8D890; 0x5EF7392E; 0xF5AFC382; 0xBE805D9F; 0x7C93D069; 0xA92DD56F; 0xB31225CF;
  0x3B99ACC8; 0xA77D1810; 0x6E639CE8; 0x7BBB3BDB; 0x097826CD; 0xF418596E; 0x01B79AEC; 0xA89A4F83; 0x656E95E6; 0x7EE6FFAA;
  0x08CFBC21; 0xE6E815EF; 0xD99BE7BA; 0xCE366F4A; 0xD4099FEA; 0xD67CB029; 0xAFB2A431; 0x31233F2A; 0x3094A5C6; 0xC066A235;
  0x37BC4E74; 0xA6CA82FC; 0xB0D090E0; 0x15D8A733; 0x4A9804F1; 0xF7DAEC41; 0x0E50CD7F; 0x2FF69117; 0x8DD64D76; 0x4DB0EF43;
  0x544DAACC; 0xDF0496E4; 0xE3B5D19E; 0x1B886A4C; 0xB81F2CC1; 0x7F516546; 0x04EA5E9D; 0x5D358C01; 0x737487FA; 0x2E410BFB;
  0x5A1D67B3; 0x52D2DB92; 0x335610E9; 0x1347D66D; 0x8C61D79A; 0x7A0CA137; 0x8E14F859; 0x893C13EB; 0xEE27A9CE; 0x35C961B7;
  0xEDE51CE1; 0x3CB1477A; 0x59DFD29C; 0x3F73F255; 0x79CE1418; 0xBF37C773; 0xEACDF753; 0x5BAAFD5F; 0x146F3DDF; 0x86DB4478;
  0x81F3AFCA; 0x3EC468B9; 0x2C342438; 0x5F40A3C2; 0x72C31D16; 0x0C25E2BC; 0x8B493C28; 0x41950DFF; 0x7101A839; 0xDEB30C08;
  0x9CE4B4D8; 0x90C15664; 0x6184CB7B; 0x70B632D5; 0x745C6C48; 0x4257B8D0].

(** The macro [V] arranges the bytes of an entry for each of the four tables. *)
Definition rot8 (x : Z) : Z := Z.lor (u32 (Z.shiftl x 8)) (Z.shiftr x 24).
Definition FT1 : list Z := rot8 <$> FT0.
Definition FT2 : list Z := rot8 <$> FT1.
Definition FT3 : list Z := rot8 <$> FT2.
Definition RT1 : list Z := rot8 <$> RT0.
Definition RT2 : list Z := rot8 <$> RT1.
Definition RT3 : list Z := rot8 <$> RT2.

Definition RCON : list Z := [0x01; 0x02; 0x04; 0x08; 0x10; 0x20; 0x40; 0x80; 0x1B; 0x36].

Definition AES_ENCRYPT : Z := 1.
Definition AES_DECRYPT : Z := 0.
Definition ERR_AES_INVALID_KEY_LENGTH : Z := -0x0800.

Definition GET_ULONG_LE (b : list Z) (i : nat) : Z := load_le b i.
Definition PUT_ULONG_LE (n : Z) : list Z := store_le n.

(** Four table entries, one for each byte position. *)
Definition sum4 (t0 t1 t2 t3 : list Z) (a b c d : Z) : Z := Z.lxor (Z.lxor (Z.lxor (at_ t0 (B 0 a)) (at_ t1 (B 1 b))) (at_ t2 (B 2 c))) (at_ t3 (B 3 d)).
Definition bytes4 (t : list Z) (a b c d : Z) : Z :=
  Z.lxor (Z.lxor (Z.lxor (at_ t (B 0 a)) (Z.shiftl (at_ t (B 1 b)) 8)) (Z.shiftl (at_ t (B 2 c)) 16)) (Z.shiftl (at_ t (B 3 d)) 24).

(** ** Key schedules *)

Record qm_aes_context := mk_ctx { nr : Z; rk : list Z }.

(** [FSb] on the bytes of a word, rotated by one byte or not. *)
Definition rot_sub (w : Z) : Z :=
  Z.lxor (Z.lxor (Z.lxor (at_ FSb (B 1 w)) (Z.shiftl (at_ FSb (B 2 w)) 8)) (Z.shiftl (at_ FSb (B 3 w)) 16)) (Z.shiftl (at_ FSb (B 0 w)) 24).
Definition sub_word (w : Z) : Z := bytes4 FSb w w w w.

(** One round of the three loops; [RK] are the words at the pointer, and the result those behind it. *)
Definition expand4 (rcon : Z) (RK : list Z) : list Z :=
  match RK with
  | [k0; k1; k2; k3] =>
      let k4 := Z.lxor (Z.lxor k0 rcon) (rot_sub k3) in let k5 := Z.lxor k1 k4 in let k6 := Z.lxor k2 k5 in let k7 := Z.lxor k3 k6 in [k4; k5; k6; k7]
  | _ => []
  end.
Definition expand6 (rcon : Z) (RK : list Z) : list Z :=
  match RK with
  | [k0; k1; k2; k3; k4; k5] =>
      let k6 := Z.lxor (Z.lxor k0 rcon) (rot_sub k5) in let k7 := Z.lxor k1 k6 in let k8 := Z.lxor k2 k7 in let k9 := Z.lxor k3 k8 in
      let k10 := Z.lxor k4 k9 in let k11 := Z.lxor k5 k10 in [k6; k7; k8; k9; k10; k11]
  | _ => []
  end.
Definition expand8 (rcon : Z) (RK : list Z) : list Z :=
  match RK with
  | [k0; k1; k2; k3; k4; k5; k6; k7] =>
      let k8 := Z.lxor (Z.lxor k0 rcon) (rot_sub k7) in let k9 := Z.lxor k1 k8 in let k10 := Z.lxor k2 k9 in let k11 := Z.lxor k3 k10 in
      let k12 := Z.lxor k4 (sub_word k11) in let k13 := Z.lxor k5 k12 in let k14 := Z.lxor k6 k13 in let k15 := Z.lxor k7 k14 in [k8; k9; k10; k11; k12; k13; k14; k15]
  | _ => []
  end.

Fixpoint expand (step : Z -> list Z -> list Z) (rcons RK : list Z) : list Z :=
  match rcons with
  | [] => RK
  | c :: rest => RK ++ expand step rest (step c RK)
  end.

Definition key_words (n : nat) (key : list Z) : list Z := (fun i => GET_ULONG_LE key (4 * i)) <$> seq 0 n.

(** [inr] is the error code. *)
Definition qm_utils_aes_setkey_enc (key : list Z) (keysize : Z) : qm_aes_context + Z :=
  if keysize =? 128 then inl (mk_ctx 10 (expand expand4 (take 10 RCON) (key_words 4 key)))
  else if keysize =? 192 then inl (mk_ctx 12 (expand expand6 (take 8 RCON) (key_words 6 key)))
  else if keysize =? 256 then inl (mk_ctx 14 (expand expand8 (take 7 RCON) (key_words 8 key)))
  else inr ERR_AES_INVALID_KEY_LENGTH.

Definition inv_mix (w : Z) : Z :=
  Z.lxor (Z.lxor (Z.lxor (at_ RT0 (at_ FSb (B 0 w))) (at_ RT1 (at_ FSb (B 1 w)))) (at_ RT2 (at_ FSb (B 2 w)))) (at_ RT3 (at_ FSb (B 3 w))).

(** The words of round [i]. *)
Definition round_key (ks : list Z) (i : nat) : list Z := take 4 (drop (4 * i) ks).

(** [SK] goes through the rounds backwards, from [nr - 1] to 1. *)
Fixpoint reverse_keys (i : nat) (SK : list Z) : list Z :=
  match i with
  | O => []
  | S j => (inv_mix <$> round_key SK i) ++ reverse_keys j SK
  end.

Definition qm_utils_aes_setkey_dec (key : list Z) (keysize : Z) : qm_aes_context + Z :=
  match qm_utils_aes_setkey_enc key keysize with
  | inr e => inr e
  | inl cty =>
      let n := Z.to_nat (nr cty) in
      inl (mk_ctx (nr cty) (round_key (rk cty) n ++ reverse_keys (n - 1) (rk cty) ++ round_key (rk cty) 0))
  end.

(** ** The block cipher *)

Definition block : Type := Z * Z * Z * Z.

Definition AES_FROUND (RK : list Z) (y : block) : block :=
  let '(y0, y1, y2, y3) := y in let k i := at_ RK i in
  (Z.lxor (k 0) (sum4 FT0 FT1 FT2 FT3 y0 y1 y2 y3), Z.lxor (k 1) (sum4 FT0 FT1 FT2 FT3 y1 y2 y3 y0),
   Z.lxor (k 2) (sum4 FT0 FT1 FT2 FT3 y2 y3 y0 y1), Z.lxor (k 3) (sum4 FT0 FT1 FT2 FT3 y3 y0 y1 y2)).

Definition AES_RROUND (RK : list Z) (y : block) : block :=
  let '(y0, y1, y2, y3) := y in let k i := at_ RK i in
  (Z.lxor (k 0) (sum4 RT0 RT1 RT2 RT3 y0 y3 y2 y1), Z.lxor (k 1) (sum4 RT0 RT1 RT2 RT3 y1 y0 y3 y2),
   Z.lxor (k 2) (sum4 RT0 RT1 RT2 RT3 y2 y1 y0 y3), Z.lxor (k 3) (sum4 RT0 RT1 RT2 RT3 y3 y2 y1 y0)).

Definition last_fround (RK : list Z) (y : block) : block :=
  let '(y0, y1, y2, y3) := y in let k i := at_ RK i in
  (Z.lxor (k 0) (bytes4 FSb y0 y1 y2 y3), Z.lxor (k 1) (bytes4 FSb y1 y2 y3 y0), Z.lxor (k 2) (bytes4 FSb y2 y3 y0 y1), Z.lxor (k 3) (bytes4 FSb y3 y0 y1 y2)).

Definition last_rround (RK : list Z) (y : block) : block :=
  let '(y0, y1, y2, y3) := y in let k i := at_ RK i in
  (Z.lxor (k 0) (bytes4 RSb y0 y3 y2 y1), Z.lxor (k 1) (bytes4 RSb y1 y0 y3 y2), Z.lxor (k 2) (bytes4 RSb y2 y1 y0 y3), Z.lxor (k 3) (bytes4 RSb y3 y2 y1 y0)).

Definition add_key (RK : list Z) (x : block) : block := let '(x0, x1, x2, x3) := x in (Z.lxor x0 (at_ RK 0), Z.lxor x1 (at_ RK 1), Z.lxor x2 (at_ RK 2), Z.lxor x3 (at_ RK 3)).

(** The loop does two rounds at a time; round [i] uses the words of [round_key]. *)
Fixpoint double_rounds (round : list Z -> block -> block) (n i : nat) (ks : list Z) (x : block) : block :=
  match n with
  | O => x
  | S n => double_rounds round n (i + 2) ks (round (round_key ks (i + 1)) (round (round_key ks i) x))
  end.

Definition load_block (input : list Z) : block := (GET_ULONG_LE input 0, GET_ULONG_LE input 4, GET_ULONG_LE input 8, GET_ULONG_LE input 12).
Definition store_block (x : block) : list Z := let '(x0, x1, x2, x3) := x in PUT_ULONG_LE x0 ++ PUT_ULONG_LE x1 ++ PUT_ULONG_LE x2 ++ PUT_ULONG_LE x3.

Definition qm_utils_aes_crypt_ecb (ctx : qm_aes_context) (mode : Z) (input : list Z) : list Z :=
  let x := add_key (round_key (rk ctx) 0) (load_block input) in
  let n := (Z.to_nat (Z.shiftr (nr ctx) 1) - 1)%nat in
  let i := (1 + 2 * n)%nat in
  store_block
    (if mode =? AES_DECRYPT then last_rround (round_key (rk ctx) (i + 1)) (AES_RROUND (round_key (rk ctx) i) (double_rounds AES_RROUND n 1 (rk ctx) x))
     else last_fround (round_key (rk ctx) (i + 1)) (AES_FROUND (round_key (rk ctx) i) (double_rounds AES_FROUND n 1 (rk ctx) x))).

(** ** Modes *)

Definition xor_bytes (a b : list Z) : list Z := zip_with (fun x y => u8 (Z.lxor x y)) a b.

(** [n] blocks; the result is the output and the new vector. *)
Fixpoint cbc_encrypt_loop (ctx : qm_aes_context) (n : nat) (iv input : list Z) : list Z * list Z :=
  match n with
  | O => ([], iv)
  | S n =>
      let out := qm_utils_aes_crypt_ecb ctx AES_ENCRYPT (xor_bytes (take 16 input) iv) in
      let '(rest, iv) := cbc_encrypt_loop ctx n out (drop 16 input) in
      (out ++ rest, iv)
  end.
Fixpoint cbc_decrypt_loop (ctx : qm_aes_context) (n : nat) (iv input : list Z) : list Z * list Z :=
  match n with
  | O => ([], iv)
  | S n =>
      let out := xor_bytes (qm_utils_aes_crypt_ecb ctx AES_DECRYPT (take 16 input)) iv in
      let '(rest, iv) := cbc_decrypt_loop ctx n (take 16 input) (drop 16 input) in
      (out ++ rest, iv)
  end.

Definition qm_utils_aes_crypt_cbc (ctx : qm_aes_context) (mode : Z) (len : Z) (iv input : list Z) : list Z * list Z :=
  let n := Z.to_nat ((len + 15) / 16) in
  if mode =? AES_DECRYPT then cbc_decrypt_loop ctx n iv input else cbc_encrypt_loop ctx n iv input.

(** One byte: the vector is encrypted at the start of a block; the result is the byte, the vector and the offset. *)
Definition cfb_vector (ctx : qm_aes_context) (n : nat) (iv : list Z) : list Z := if (n =? 0)%nat then qm_utils_aes_crypt_ecb ctx AES_ENCRYPT iv else iv.
Definition next_offset (n : nat) : nat := Z.to_nat (Z.land (Z.of_nat n + 1) 0x0F).

Fixpoint qm_utils_aes_crypt_cfb128 (ctx : qm_aes_context) (mode : Z) (iv_off : nat) (iv input : list Z) : list Z * list Z * nat :=
  match input with
  | [] => ([], iv, iv_off)
  | c :: rest =>
      let iv := cfb_vector ctx iv_off iv in
      let o := u8 (Z.lxor c (at_ iv (Z.of_nat iv_off))) in
      let '(out, iv, n) := qm_utils_aes_crypt_cfb128 ctx mode (next_offset iv_off) (<[iv_off := if mode =? AES_DECRYPT then u8 c else o]> iv) rest in
      (o :: out, iv, n)
  end.

(** ** The tables *)

Lemma FSb_u8 b : is_u8 b -> is_u8 (at_ FSb b).
Proof. intros H. apply u8b_spec. on_bytes (fun b => u8b (at_ FSb b)) b H. Qed.
Lemma RSb_u8 b : is_u8 b -> is_u8 (at_ RSb b).
Proof. intros H. apply u8b_spec. on_bytes (fun b => u8b (at_ RSb b)) b H. Qed.

(** The boxes are inverse to each other. *)
Lemma RSb_FSb b : is_u8 b -> at_ RSb (at_ FSb b) = b.
Proof. intros H. apply Z.eqb_eq. on_bytes (fun b => at_ RSb (at_ FSb b) =? b) b H. Qed.
Lemma FSb_RSb b : is_u8 b -> at_ FSb (at_ RSb b) = b.
Proof. intros H. apply Z.eqb_eq. on_bytes (fun b => at_ FSb (at_ RSb b) =? b) b H. Qed.

(** A product by a linear function on bytes, from its values on the half bytes. *)
Definition additive_on (f : Z -> Z) (ys : list Z) : bool := all_bytes (fun x => forallb (fun y => f (Z.lxor x y) =? Z.lxor (f x) (f y)) ys).
Definition halves_low : list Z := Z.of_nat <$> seq 0 16.
Definition halves_high : list Z := (fun n => 16 * Z.of_nat n) <$> seq 0 16.

Lemma byte_halves y : is_u8 y -> exists h l, h ∈ halves_high /\ l ∈ halves_low /\ y = Z.lxor h l /\ is_u8 h /\ is_u8 l.
Proof.
  intros Hy. exists (16 * (y / 16)), (y mod 16).
  assert (0 <= y / 16 < 16) as Hd by (unfold is_u8 in Hy; split; [apply Z.div_pos; lia|apply Z.div_lt_upper_bound; lia]).
  pose proof (Z.mod_pos_bound y 16 ltac:(lia)) as Hm.
  split; [apply list_elem_of_fmap; exists (Z.to_nat (y / 16)); split; [lia|apply elem_of_seq; lia]|].
  split; [apply list_elem_of_fmap; exists (Z.to_nat (y mod 16)); split; [lia|apply elem_of_seq; lia]|].
  split; [|unfold is_u8; lia].
  rewrite <- Z.add_nocarry_lxor; [apply Z.div_mod; lia|].
  apply Z.bits_inj'. intros n Hn. rewrite Z.land_spec, Z.bits_0.
  change 16 with (2 ^ 4). destruct (Z.lt_ge_cases n 4).
  - by rewrite (Z.mul_comm (2 ^ 4)), Z.mul_pow2_bits_low by lia.
  - by rewrite Z.mod_pow2_bits_high, andb_false_r by lia.
Qed.

Lemma additive f x y : additive_on f halves_high = true -> additive_on f halves_low = true -> is_u8 x -> is_u8 y ->
  f (Z.lxor x y) = Z.lxor (f x) (f y).
Proof.
  intros Hh Hl Hx Hy. destruct (byte_halves y Hy) as (h & l & Eh & El & -> & Uh & Ul).
  assert (forall ys a b, additive_on f ys = true -> is_u8 a -> b ∈ ys -> f (Z.lxor a b) = Z.lxor (f a) (f b)) as Hadd.
  { intros ys a b H Ha Hb. apply (all_bytes_spec _ a) in H; [|done]. rewrite forallb_forall in H. by apply Z.eqb_eq, H, list_elem_of_In. }
  rewrite <- Z.lxor_assoc.
  rewrite (Hadd halves_low), (Hadd halves_high), (Hadd halves_low h l) by (done || by apply lxor_u8). apply Z.lxor_assoc.
Qed.

Lemma at_rot8 t i : at_ (rot8 <$> t) i = rot8 (at_ t i).
Proof. unfold at_. rewrite list_lookup_fmap. by destruct (t !! Z.to_nat i). Qed.

Lemma rot8_W w : is_u32 w -> rot8 w = W (B 3 w) (B 0 w) (B 1 w) (B 2 w).
Proof.
  intros Hw. apply Z.bits_inj'. intros n Hn. unfold rot8, u32. rewrite W_spec by (apply B_u8 || lia). rewrite Z.lor_spec, Z.shiftr_spec by lia.
  destruct (Z.lt_ge_cases n 32) as [H32|H32].
  - rewrite Z.mod_pow2_bits_low, Z.shiftl_spec by lia.
    destruct (Z.ltb_spec n 8); [|destruct (Z.ltb_spec n 16); [|destruct (Z.ltb_spec n 24)]]; rewrite B_spec by lia;
      match goal with |- _ = _ && (?m <? 8) => destruct (Z.ltb_spec m 8); [|lia] end; rewrite andb_true_r.
    + rewrite (Z.testbit_neg_r w (n - 8)) by lia. rewrite orb_false_l. f_equal.
    + rewrite (word_high w (n + 24)) by (done || lia). rewrite orb_false_r. f_equal. lia.
    + rewrite (word_high w (n + 24)) by (done || lia). rewrite orb_false_r. f_equal. lia.
    + rewrite (word_high w (n + 24)) by (done || lia). rewrite orb_false_r. f_equal. lia.
  - rewrite Z.mod_pow2_bits_high by lia. rewrite (word_high w (n + 24)) by (done || lia).
    destruct (Z.ltb_spec n 8); [lia|]. destruct (Z.ltb_spec n 16); [lia|]. destruct (Z.ltb_spec n 24); [lia|].
    symmetry. apply byte_high; [apply B_u8|lia].
Qed.

Lemma rot8_u32 w : is_u32 w -> is_u32 (rot8 w).
Proof. intros H. rewrite rot8_W by done. apply W_u32; apply B_u8. Qed.

Lemma rot8_lxor a b : is_u32 a -> is_u32 b -> rot8 (Z.lxor a b) = Z.lxor (rot8 a) (rot8 b).
Proof. intros Ha Hb. rewrite !rot8_W by (done || by apply lxor_u32). rewrite !B_lxor by lia. by rewrite W_lxor. Qed.

Lemma RT0_u32 b : is_u8 b -> is_u32 (at_ RT0 b).
Proof. intros H. apply u32b_spec. on_bytes (fun b => u32b (at_ RT0 b)) b H. Qed.

(** A byte times the inverse column, {0e,09,0d,0b}. *)
Definition inv_mul (b : Z) : Z := at_ RT0 (at_ FSb b).
Lemma inv_mul_u32 b : is_u8 b -> is_u32 (inv_mul b).
Proof. intros H. apply RT0_u32. by apply FSb_u8. Qed.
Lemma inv_mul_lxor x y : is_u8 x -> is_u8 y -> inv_mul (Z.lxor x y) = Z.lxor (inv_mul x) (inv_mul y).
Proof. apply additive; vm_compute; done. Qed.

Lemma inv_mix_alt w : inv_mix w = Z.lxor (Z.lxor (Z.lxor (inv_mul (B 0 w)) (rot8 (inv_mul (B 1 w)))) (rot8 (rot8 (inv_mul (B 2 w))))) (rot8 (rot8 (rot8 (inv_mul (B 3 w))))).
Proof. unfold inv_mix, RT3, RT2, RT1. rewrite !at_rot8. done. Qed.

#[local] Hint Resolve B_u8 lxor_u8 lxor_u32 rot8_u32 inv_mul_u32 W_u32 FSb_u8 RSb_u8 RT0_u32 : qm.

Lemma inv_mix_u32 w : is_u32 (inv_mix w).
Proof. rewrite inv_mix_alt. auto 10 with qm. Qed.

Lemma inv_mix_lxor x y : inv_mix (Z.lxor x y) = Z.lxor (inv_mix x) (inv_mix y).
Proof.
  rewrite !inv_mix_alt, !B_lxor, !inv_mul_lxor, !rot8_lxor by (lia || auto 10 with qm). xor_ac.
Qed.

(** The inverse column on an entry of a forward table leaves the box in its place. *)
Lemma inv_mix_FT b : is_u8 b ->
  inv_mix (at_ FT0 b) = at_ FSb b /\ inv_mix (at_ FT1 b) = Z.shiftl (at_ FSb b) 8 /\
  inv_mix (at_ FT2 b) = Z.shiftl (at_ FSb b) 16 /\ inv_mix (at_ FT3 b) = Z.shiftl (at_ FSb b) 24.
Proof.
  intros H. repeat split; apply Z.eqb_eq.
  - on_bytes (fun b => inv_mix (at_ FT0 b) =? at_ FSb b) b H.
  - on_bytes (fun b => inv_mix (at_ FT1 b) =? Z.shiftl (at_ FSb b) 8) b H.
  - on_bytes (fun b => inv_mix (at_ FT2 b) =? Z.shiftl (at_ FSb b) 16) b H.
  - on_bytes (fun b => inv_mix (at_ FT3 b) =? Z.shiftl (at_ FSb b) 24) b H.
Qed.

Lemma inv_mix_sum4 a b c d : inv_mix (sum4 FT0 FT1 FT2 FT3 a b c d) = bytes4 FSb a b c d.
Proof.
  unfold sum4, bytes4. rewrite !inv_mix_lxor.
  destruct (inv_mix_FT _ (B_u8 0 a)) as (-> & _ & _ & _). destruct (inv_mix_FT _ (B_u8 1 b)) as (_ & -> & _ & _).
  destruct (inv_mix_FT _ (B_u8 2 c)) as (_ & _ & -> & _). destruct (inv_mix_FT _ (B_u8 3 d)) as (_ & _ & _ & ->). done.
Qed.

Lemma bytes4_W t a b c d : bytes4 t a b c d = W (at_ t (B 0 a)) (at_ t (B 1 b)) (at_ t (B 2 c)) (at_ t (B 3 d)).
Proof. done. Qed.

(** ** Decryption undoes encryption *)

#[local] Opaque FSb RSb FT0 RT0 B rot8.

Definition words4 (x : block) : list Z := let '(a, b, c, d) := x in [a; b; c; d].
Definition block_ok (x : block) : Prop := List.Forall is_u32 (words4 x).

(** The boxes and the shift of the rows, a whole round without its column and key. *)
Definition sub_shift (y : block) : block :=
  let '(y0, y1, y2, y3) := y in (bytes4 FSb y0 y1 y2 y3, bytes4 FSb y1 y2 y3 y0, bytes4 FSb y2 y3 y0 y1, bytes4 FSb y3 y0 y1 y2).

Lemma bytes4_B a b c d :
  B 0 (bytes4 FSb a b c d) = at_ FSb (B 0 a) /\ B 1 (bytes4 FSb a b c d) = at_ FSb (B 1 b) /\
  B 2 (bytes4 FSb a b c d) = at_ FSb (B 2 c) /\ B 3 (bytes4 FSb a b c d) = at_ FSb (B 3 d).
Proof. rewrite bytes4_W. apply B_W; auto with qm. Qed.
Lemma bytes4_B0 a b c d : B 0 (bytes4 FSb a b c d) = at_ FSb (B 0 a).
Proof. exact (proj1 (bytes4_B a b c d)). Qed.
Lemma bytes4_B1 a b c d : B 1 (bytes4 FSb a b c d) = at_ FSb (B 1 b).
Proof. exact (proj1 (proj2 (bytes4_B a b c d))). Qed.
Lemma bytes4_B2 a b c d : B 2 (bytes4 FSb a b c d) = at_ FSb (B 2 c).
Proof. exact (proj1 (proj2 (proj2 (bytes4_B a b c d)))). Qed.
Lemma bytes4_B3 a b c d : B 3 (bytes4 FSb a b c d) = at_ FSb (B 3 d).
Proof. exact (proj2 (proj2 (proj2 (bytes4_B a b c d)))). Qed.
#[local] Hint Rewrite bytes4_B0 bytes4_B1 bytes4_B2 bytes4_B3 : qm_rw.

(** The key is added and taken away again; the boxes are undone. *)
Lemma add_last_fround RK y : add_key RK (last_fround RK y) = sub_shift y.
Proof. destruct y as [[[y0 y1] y2] y3]. cbn. f_equal; [f_equal; [f_equal|]|]; xor_ac. Qed.

Lemma last_rround_sub RK y : block_ok y -> last_rround RK (sub_shift y) = add_key RK y.
Proof.
  destruct y as [[[y0 y1] y2] y3]. intros H. cbn [words4 block_ok] in H. unfold block_ok in H. cbn [words4] in H.
  rewrite !list.Forall_cons in H. destruct H as (H0 & H1 & H2 & H3 & _).
  unfold last_rround, sub_shift, add_key. rewrite !(bytes4_W RSb). autorewrite with qm_rw. rewrite !RSb_FSb by auto with qm.
  rewrite !W_B by done. f_equal; [f_equal; [f_equal|]|]; apply Z.lxor_comm.
Qed.

Lemma add_add_key RK x : add_key RK (add_key RK x) = x.
Proof. destruct x as [[[x0 x1] x2] x3]. cbn. f_equal; [f_equal; [f_equal|]|]; xor_ac. Qed.

(** A reverse round with the transformed key takes the boxes of the state behind a forward
    round to the boxes of the state before it. *)
Lemma sum4_RT a b c d : sum4 RT0 RT1 RT2 RT3 (bytes4 FSb a b c d) (bytes4 FSb d a b c) (bytes4 FSb c d a b) (bytes4 FSb b c d a) = inv_mix a.
Proof. unfold sum4, inv_mix. autorewrite with qm_rw. done. Qed.

Lemma inv_mix_add k a b c d : Z.lxor (inv_mix k) (inv_mix (Z.lxor k (sum4 FT0 FT1 FT2 FT3 a b c d))) = bytes4 FSb a b c d.
Proof. rewrite <- inv_mix_lxor, <- inv_mix_sum4. f_equal. xor_ac. Qed.

Lemma at_inv_mix RK i : 0 <= i -> (Z.to_nat i < length RK)%nat -> at_ (inv_mix <$> RK) i = inv_mix (at_ RK i).
Proof.
  intros Hi Hl. unfold at_. rewrite list_lookup_fmap. destruct (lookup_lt_is_Some_2 RK (Z.to_nat i) Hl) as [x ->]. done.
Qed.

Definition inv_mix_keys (RK : list Z) : list Z := inv_mix <$> RK.

Lemma round_back RK y : length RK = 4%nat -> AES_RROUND (inv_mix_keys RK) (sub_shift (AES_FROUND RK y)) = sub_shift y.
Proof.
  intros Hl. destruct y as [[[y0 y1] y2] y3]. unfold AES_FROUND, sub_shift, AES_RROUND, inv_mix_keys. rewrite !sum4_RT, !at_inv_mix by (rewrite ?Hl; lia).
  f_equal; [f_equal; [f_equal|]|]; apply inv_mix_add.
Qed.

Definition rounds (round : list Z -> block -> block) (ks : list (list Z)) (x : block) : block := foldl (fun x k => round k x) x ks.

Lemma rounds_back ks y : List.Forall (fun k => length k = 4%nat) ks ->
  rounds AES_RROUND (reverse (inv_mix_keys <$> ks)) (sub_shift (rounds AES_FROUND ks y)) = sub_shift y.
Proof.
  intros H. revert y. induction H as [|k ks Hk H IH]; intros y; [done|].
  rewrite fmap_cons, reverse_cons. unfold rounds in *. rewrite foldl_app. cbn [foldl]. rewrite IH. by apply round_back.
Qed.

Lemma sum4_FT_u32 a b c d : is_u32 (sum4 FT0 FT1 FT2 FT3 a b c d).
Proof.
  assert (forall b, is_u8 b -> is_u32 (at_ FT0 b)) as H0.
  { intros x Hx. apply u32b_spec. on_bytes (fun b => u32b (at_ FT0 b)) x Hx. }
  unfold sum4, FT3, FT2, FT1. rewrite !at_rot8. auto 12 with qm.
Qed.

Lemma at_u32 RK i : List.Forall is_u32 RK -> is_u32 (at_ RK i).
Proof.
  intros H. unfold at_. destruct (RK !! Z.to_nat i) as [x|] eqn:E; [|by split].
  cbn. rewrite list.Forall_forall in H. apply H. by eapply list_elem_of_lookup_2.
Qed.

Lemma fround_ok RK y : List.Forall is_u32 RK -> block_ok (AES_FROUND RK y).
Proof.
  intros H. destruct y as [[[y0 y1] y2] y3]. unfold block_ok. cbn [AES_FROUND words4].
  repeat (apply List.Forall_cons; [auto using lxor_u32, at_u32, sum4_FT_u32|]). apply List.Forall_nil.
Qed.

Lemma add_key_ok RK x : List.Forall is_u32 RK -> block_ok x -> block_ok (add_key RK x).
Proof.
  intros H. destruct x as [[[y0 y1] y2] y3]. unfold block_ok. cbn [add_key words4].
  intros Hx. rewrite !list.Forall_cons in Hx. destruct Hx as (H0 & H1 & H2 & H3 & _). 
  repeat (apply List.Forall_cons; [auto using lxor_u32, at_u32|]). apply List.Forall_nil.
Qed.

Lemma rounds_ok ks x : List.Forall (List.Forall is_u32) ks -> block_ok x -> block_ok (rounds AES_FROUND ks x).
Proof.
  intros H. revert x. induction H as [|k ks Hk H IH]; intros x Hx; [done|]. apply IH. by apply fround_ok.
Qed.

(** The two ciphers, on the keys of the rounds. *)
Definition encrypt_block (k0 : list Z) (ks : list (list Z)) (kn : list Z) (x : block) : block := last_fround kn (rounds AES_FROUND ks (add_key k0 x)).
Definition decrypt_block (k0 : list Z) (ks : list (list Z)) (kn : list Z) (x : block) : block := last_rround kn (rounds AES_RROUND ks (add_key k0 x)).

Lemma decrypt_encrypt_block k0 ks kn x : List.Forall is_u32 k0 -> List.Forall (fun k => List.Forall is_u32 k /\ length k = 4%nat) ks -> block_ok x ->
  decrypt_block kn (reverse (inv_mix_keys <$> ks)) k0 (encrypt_block k0 ks kn x) = x.
Proof.
  intros H0 Hk Hx. unfold decrypt_block, encrypt_block. rewrite add_last_fround, rounds_back by (eapply list.Forall_impl; [exact Hk|]; intros k [_ Hl]; exact Hl).
  rewrite last_rround_sub by by apply add_key_ok. apply add_add_key.
Qed.

Lemma store_u8 x : List.Forall is_u8 (store_block x) /\ length (store_block x) = 16%nat.
Proof.
  destruct x as [[[x0 x1] x2] x3]. unfold store_block. rewrite !store_B. split; [|done].
  repeat (apply List.Forall_cons; [apply B_u8|]). apply List.Forall_nil.
Qed.

Lemma load_ok l : List.Forall is_u8 l -> block_ok (load_block l).
Proof. intros H. unfold block_ok. cbn. repeat (apply List.Forall_cons; [by apply load_u32|]). apply List.Forall_nil. Qed.

Lemma block_load_store x : block_ok x -> load_block (store_block x) = x.
Proof.
  intros Hx. destruct (store_u8 x) as [Hs _]. destruct x as [[[x0 x1] x2] x3]. unfold block_ok in Hx. cbn [words4] in Hx.
  rewrite !list.Forall_cons in Hx. destruct Hx as (H0 & H1 & H2 & H3 & _).
  unfold load_block. rewrite !load_W by done. unfold store_block. rewrite !store_B. unfold at_. rewrite !Nat2Z.id. cbn -[W B]. by rewrite !W_B.
Qed.

Lemma store_load l : List.Forall is_u8 l -> length l = 16%nat -> store_block (load_block l) = l.
Proof.
  intros H Hl. unfold load_block. rewrite !load_W by done. unfold store_block. rewrite !store_B.
  do 16 (destruct l as [|? l]; [done|]). destruct l; [|done]. rewrite !list.Forall_cons in H.
  unfold at_. rewrite !Nat2Z.id. cbn -[W B]. destruct H as (? & ? & ? & ? & ? & ? & ? & ? & ? & ? & ? & ? & ? & ? & ? & ? & _).
  repeat match goal with |- context [W ?a ?b ?c ?d] => let E := fresh in destruct (B_W a b c d) as (-> & -> & -> & ->); [done..|] end. done.
Qed.

(** ** Key schedules *)

Lemma rot_sub_u32 w : is_u32 (rot_sub w).
Proof. apply (W_u32 (at_ FSb (B 1 w)) (at_ FSb (B 2 w)) (at_ FSb (B 3 w)) (at_ FSb (B 0 w))); auto with qm. Qed.
Lemma sub_word_u32 w : is_u32 (sub_word w).
Proof. unfold sub_word. rewrite bytes4_W. apply W_u32; auto with qm. Qed.
#[local] Hint Resolve rot_sub_u32 sub_word_u32 : qm.

(** What one pass of a loop keeps: the number of words and their range. *)
Definition expands (m : nat) (step : Z -> list Z -> list Z) : Prop :=
  forall c RK, is_u32 c -> List.Forall is_u32 RK -> length RK = m -> List.Forall is_u32 (step c RK) /\ length (step c RK) = m.

Ltac expands_tac :=
  intros ? RK ? H Hl; repeat (destruct RK as [|? RK]; [discriminate Hl|]); destruct RK; [|discriminate Hl];
  rewrite !list.Forall_cons in H; decompose [and] H; split; [|reflexivity]; cbv zeta beta iota delta [expand4 expand6 expand8];
  repeat (apply List.Forall_cons; [auto 20 with qm|]); apply List.Forall_nil.

Lemma expands4 : expands 4 expand4.
Proof. expands_tac. Qed.
Lemma expands6 : expands 6 expand6.
Proof. expands_tac. Qed.
Lemma expands8 : expands 8 expand8.
Proof. expands_tac. Qed.

Lemma expand_ok m step rcons RK : expands m step -> List.Forall is_u32 rcons -> List.Forall is_u32 RK -> length RK = m ->
  List.Forall is_u32 (expand step rcons RK) /\ length (expand step rcons RK) = (m * (length rcons + 1))%nat.
Proof.
  intros Hs Hc. revert RK. induction Hc as [|c rest Hc Hr IH]; intros RK Hk Hl; cbn [expand length]; [split; [done|lia]|].
  destruct (Hs c RK Hc Hk Hl) as [Hk' Hl']. destruct (IH _ Hk' Hl') as [IH1 IH2].
  split; [by apply Forall_app|]. rewrite length_app, IH2. lia.
Qed.

Lemma RCON_u32 : List.Forall is_u32 RCON.
Proof. repeat (apply List.Forall_cons; [by split|]). apply List.Forall_nil. Qed.

Lemma key_words_ok n key : List.Forall is_u8 key -> List.Forall is_u32 (key_words n key) /\ length (key_words n key) = n.
Proof.
  intros H. unfold key_words. split; [|by rewrite length_fmap, length_seq].
  apply list.Forall_fmap, list.Forall_forall. intros i _. by apply load_u32.
Qed.

#[local] Opaque expand key_words.

(** A schedule that fits its number of rounds. *)
Definition schedule_ok (ctx : qm_aes_context) : Prop :=
  exists m, nr ctx = Z.of_nat (2 * S m) /\ List.Forall is_u32 (rk ctx) /\ (4 * (2 * S m + 1) <= length (rk ctx))%nat.

Lemma setkey_enc_ok key keysize ctx : List.Forall is_u8 key -> qm_utils_aes_setkey_enc key keysize = inl ctx -> schedule_ok ctx.
Proof.
  intros Hk H. pose proof RCON_u32 as HR. unfold qm_utils_aes_setkey_enc in H.
  destruct (keysize =? 128); [|destruct (keysize =? 192); [|destruct (keysize =? 256); [|done]]]; apply (inj inl) in H; subst ctx.
  - exists 4%nat. destruct (key_words_ok 4 key Hk) as [Hw Hl].
    destruct (expand_ok 4 expand4 (take 10 RCON) _ expands4 (Forall_take _ _ _ HR) Hw Hl) as [H1 H2]. split; [done|]. split; [exact H1|]. cbn [rk]. rewrite H2. cbn. lia.
  - exists 5%nat. destruct (key_words_ok 6 key Hk) as [Hw Hl].
    destruct (expand_ok 6 expand6 (take 8 RCON) _ expands6 (Forall_take _ _ _ HR) Hw Hl) as [H1 H2]. split; [done|]. split; [exact H1|]. cbn [rk]. rewrite H2. cbn. lia.
  - exists 6%nat. destruct (key_words_ok 8 key Hk) as [Hw Hl].
    destruct (expand_ok 8 expand8 (take 7 RCON) _ expands8 (Forall_take _ _ _ HR) Hw Hl) as [H1 H2]. split; [done|]. split; [exact H1|]. cbn [rk]. rewrite H2. cbn. lia.
Qed.

Lemma double_rounds_eq round n i ks x : double_rounds round n i ks x = rounds round (round_key ks <$> seq i (2 * n)) x.
Proof.
  revert i x. induction n as [|n IH]; intros i x; [done|]. cbn [double_rounds]. rewrite IH.
  replace (2 * S n)%nat with (S (S (2 * n))) by lia. cbn [seq]. rewrite !fmap_cons. unfold rounds. cbn [foldl].
  replace (S i) with (i + 1)%nat by lia. by replace (S (i + 1)) with (i + 2)%nat by lia.
Qed.

(** A whole block, in either direction, by the keys of its rounds. *)
Lemma crypt_ecb_eq ctx mode input m : nr ctx = Z.of_nat (2 * S m) ->
  qm_utils_aes_crypt_ecb ctx mode input =
  store_block ((if mode =? AES_DECRYPT then decrypt_block else encrypt_block)
    (round_key (rk ctx) 0) (round_key (rk ctx) <$> seq 1 (2 * m + 1)) (round_key (rk ctx) (2 * S m)) (load_block input)).
Proof.
  intros Hn. unfold qm_utils_aes_crypt_ecb. rewrite Hn.
  replace (Z.to_nat (Z.shiftr (Z.of_nat (2 * S m)) 1) - 1)%nat with m by (rewrite Z.shiftr_div_pow2 by lia; change (2 ^ 1) with 2; rewrite Nat2Z.inj_mul, Z.mul_comm, Z.div_mul by lia; lia).
  rewrite !double_rounds_eq. replace (2 * m + 1)%nat with (S (2 * m)) by lia. rewrite seq_S, fmap_app.
  replace (1 + 2 * m + 1)%nat with (2 * S m)%nat by lia. 
  destruct (mode =? AES_DECRYPT); unfold encrypt_block, decrypt_block, rounds; by rewrite foldl_app.
Qed.

Lemma round_key_length ks i : (4 * (i + 1) <= length ks)%nat -> length (round_key ks i) = 4%nat.
Proof. intros H. unfold round_key. rewrite length_take, length_drop. lia. Qed.
Lemma round_key_u32 ks i : List.Forall is_u32 ks -> List.Forall is_u32 (round_key ks i).
Proof. intros H. by apply Forall_take, Forall_drop. Qed.

Lemma round_key_concat cs i c : List.Forall (fun c => length c = 4%nat) cs -> cs !! i = Some c -> round_key (concat cs) i = c.
Proof.
  intros H. revert i. induction H as [|c' cs Hc H IH]; intros i Hi; [done|]. cbn [concat]. destruct i as [|i].
  - injection Hi as ->. unfold round_key. rewrite Nat.mul_0_r, drop_0, take_app_length'; done.
  - rewrite <- (IH i Hi). unfold round_key. f_equal. rewrite drop_app_ge by lia. f_equal. lia.
Qed.

Definition backward (SK : list Z) (i : nat) : list (list Z) := (fun j => inv_mix_keys (round_key SK j)) <$> reverse (seq 1 i).
Lemma reverse_keys_eq i SK : reverse_keys i SK = concat (backward SK i).
Proof.
  induction i as [|i IH]; [done|]. cbn [reverse_keys]. unfold backward. rewrite seq_S, reverse_app, fmap_app, concat_app. cbn -[seq round_key].
  rewrite app_nil_r. by rewrite IH.
Qed.

Lemma backward_length SK i : length (backward SK i) = i.
Proof. unfold backward. by rewrite length_fmap, length_reverse, length_seq. Qed.
Lemma backward_reverse SK i : backward SK i = reverse (inv_mix_keys <$> (round_key SK <$> seq 1 i)).
Proof. unfold backward. rewrite <- list_fmap_compose, <- fmap_reverse. done. Qed.

Lemma round_keys_concat a mid z : List.Forall (fun c => length c = 4%nat) (a :: mid ++ [z]) ->
  let ks := concat (a :: mid ++ [z]) in
  round_key ks 0 = a /\ round_key ks <$> seq 1 (length mid) = mid /\ round_key ks (length mid + 1) = z.
Proof.
  intros H ks. split; [by apply round_key_concat|]. split.
  - apply list_eq_same_length with (length mid); [done|by rewrite length_fmap, length_seq|]. intros i x y Hi Hx Hy.
    rewrite list_lookup_fmap, lookup_seq_lt in Hx by done. injection Hx as <-. apply round_key_concat; [done|]. cbn. by apply lookup_app_l_Some.
  - apply round_key_concat; [done|]. rewrite Nat.add_1_r. change ((mid ++ [z]) !! length mid = Some z). by rewrite lookup_app_r, Nat.sub_diag by lia.
Qed.

(** The two schedules of a key: the second has the first one's keys backwards, all but
    the outer two through the inverse column. *)
Definition key_pair (e d : qm_aes_context) : Prop :=
  exists m, nr e = Z.of_nat (2 * S m) /\ nr d = nr e /\ List.Forall is_u32 (rk e) /\ (4 * (2 * S m + 1) <= length (rk e))%nat /\
    round_key (rk d) 0 = round_key (rk e) (2 * S m) /\
    round_key (rk d) <$> seq 1 (2 * m + 1) = reverse (inv_mix_keys <$> (round_key (rk e) <$> seq 1 (2 * m + 1))) /\
    round_key (rk d) (2 * S m) = round_key (rk e) 0.

Lemma setkey_pair key keysize e d : List.Forall is_u8 key ->
  qm_utils_aes_setkey_enc key keysize = inl e -> qm_utils_aes_setkey_dec key keysize = inl d -> key_pair e d.
Proof.
  intros Hk He Hd. destruct (setkey_enc_ok _ _ _ Hk He) as (m & Hn & Hw & Hl).
  unfold qm_utils_aes_setkey_dec in Hd. rewrite He in Hd. apply (inj inl) in Hd. subst d. exists m. cbn [nr rk]. rewrite Hn.
  split; [done|]. split; [done|]. split; [done|]. split; [done|].
  rewrite Nat2Z.id. replace (2 * S m - 1)%nat with (2 * m + 1)%nat by lia. rewrite reverse_keys_eq.
  pose proof (round_keys_concat (round_key (rk e) (2 * S m)) (backward (rk e) (2 * m + 1)) (round_key (rk e) 0)) as H.
  cbn [concat] in H. rewrite concat_app in H. cbn [concat] in H. rewrite app_nil_r, backward_length in H.
  replace (2 * m + 1 + 1)%nat with (2 * S m)%nat in H by lia. rewrite <- backward_reverse. apply H.
  apply List.Forall_cons; [apply round_key_length; lia|]. apply Forall_app. split; [|apply List.Forall_cons; [apply round_key_length; lia|apply List.Forall_nil]].
  unfold backward. apply list.Forall_fmap, list.Forall_forall. intros j Hj. rewrite elem_of_reverse, elem_of_seq in Hj.
  cbn. unfold inv_mix_keys. rewrite length_fmap. apply round_key_length. lia.
Qed.

Lemma crypt_ecb_length ctx mode l : length (qm_utils_aes_crypt_ecb ctx mode l) = 16%nat.
Proof. apply store_u8. Qed.
Lemma crypt_ecb_u8 ctx mode l : List.Forall is_u8 (qm_utils_aes_crypt_ecb ctx mode l).
Proof. apply store_u8. Qed.

Lemma last_fround_ok RK y : List.Forall is_u32 RK -> block_ok (last_fround RK y).
Proof.
  intros H. destruct y as [[[y0 y1] y2] y3]. unfold block_ok. cbn [last_fround words4]. rewrite !bytes4_W.
  repeat (apply List.Forall_cons; [auto 20 using lxor_u32, at_u32 with qm|]). apply List.Forall_nil.
Qed.

Lemma ecb_back e d l : key_pair e d -> List.Forall is_u8 l -> length l = 16%nat ->
  qm_utils_aes_crypt_ecb d AES_DECRYPT (qm_utils_aes_crypt_ecb e AES_ENCRYPT l) = l.
Proof.
  intros (m & Hn & Hd & Hw & Hl & K0 & Ks & Kn) Hu Hlen.
  rewrite (crypt_ecb_eq d _ _ m), (crypt_ecb_eq e _ _ m) by congruence. cbn [Z.eqb AES_DECRYPT AES_ENCRYPT]. rewrite K0, Ks, Kn.
  rewrite block_load_store by (apply last_fround_ok, round_key_u32, Hw).
  rewrite decrypt_encrypt_block; [by apply store_load|by apply round_key_u32| |by apply load_ok].
  apply list.Forall_fmap, list.Forall_forall. intros j Hj. rewrite elem_of_seq in Hj.
  cbn. split; [by apply round_key_u32|apply round_key_length; lia].
Qed.

(** *** Chaining *)

Lemma xor_bytes_u8 a b : List.Forall is_u8 (xor_bytes a b).
Proof. unfold xor_bytes. revert b. induction a as [|x a IH]; intros [|y b]; cbn; try apply List.Forall_nil. apply List.Forall_cons; [apply u8_range|apply IH]. Qed.
Lemma xor_bytes_length a b : length a = length b -> length (xor_bytes a b) = length a.
Proof. intros H. unfold xor_bytes. rewrite length_zip_with. lia. Qed.
Lemma xor_bytes_back a b : List.Forall is_u8 a -> List.Forall is_u8 b -> length a = length b -> xor_bytes (xor_bytes a b) b = a.
Proof.
  intros Ha. revert b. induction Ha as [|x a Hx Ha IH]; intros [|y b] Hb Hl; try done. rewrite list.Forall_cons in Hb. destruct Hb as [Hy Hb].
  cbn in *. f_equal; [|apply IH; [done|lia]]. rewrite (u8_id (Z.lxor x y)) by by apply lxor_u8. rewrite u8_id; [xor_ac|]. auto using lxor_u8.
Qed.

Lemma cbc_back e d n iv l : key_pair e d -> List.Forall is_u8 iv -> length iv = 16%nat -> List.Forall is_u8 l -> length l = (16 * n)%nat ->
  let '(out, iv') := cbc_encrypt_loop e n iv l in
  List.Forall is_u8 out /\ length out = (16 * n)%nat /\ cbc_decrypt_loop d n iv out = (l, iv').
Proof.
  intros Hp. revert iv l. induction n as [|n IH]; intros iv l Hiv Hil Hl Hlen; cbn [cbc_encrypt_loop cbc_decrypt_loop].
  { destruct l; [|done]. split; [apply List.Forall_nil|done]. }
  set (x := xor_bytes (take 16 l) iv). set (c := qm_utils_aes_crypt_ecb e AES_ENCRYPT x).
  assert (length (take 16 l) = 16%nat) as Ht by (rewrite length_take; lia).
  assert (List.Forall is_u8 c /\ length c = 16%nat) as [Hc Hcl] by (split; [apply crypt_ecb_u8|apply crypt_ecb_length]).
  specialize (IH c (drop 16 l) Hc Hcl (Forall_drop _ _ _ Hl) ltac:(rewrite length_drop; lia)).
  destruct (cbc_encrypt_loop e n c (drop 16 l)) as [out iv'] eqn:E. destruct IH as (Ho & Hol & Hd).
  split; [by apply Forall_app|]. split; [rewrite length_app; lia|].
  rewrite take_app_length', drop_app_length' by done. rewrite Hd. unfold c at 1.
  rewrite (ecb_back e d x) by (done || apply xor_bytes_u8 || (unfold x; rewrite xor_bytes_length; lia)).
  unfold x. rewrite xor_bytes_back by (try apply Forall_take; done || lia). by rewrite take_drop.
Qed.

Lemma cfb_vector_ok e n iv : List.Forall is_u8 iv -> length iv = 16%nat -> List.Forall is_u8 (cfb_vector e n iv) /\ length (cfb_vector e n iv) = 16%nat.
Proof. intros H Hl. unfold cfb_vector. destruct (n =? 0)%nat; [split; [apply crypt_ecb_u8|apply crypt_ecb_length]|done]. Qed.

Lemma cfb_back e n iv l : List.Forall is_u8 iv -> length iv = 16%nat -> List.Forall is_u8 l ->
  let '(out, iv', n') := qm_utils_aes_crypt_cfb128 e AES_ENCRYPT n iv l in
  List.Forall is_u8 out /\ length out = length l /\ qm_utils_aes_crypt_cfb128 e AES_DECRYPT n iv out = (l, iv', n').
Proof.
  intros Hiv Hil Hl. revert n iv Hiv Hil. induction Hl as [|c l Hc Hl IH]; intros n iv Hiv Hil; cbn [qm_utils_aes_crypt_cfb128]; [done|].
  destruct (cfb_vector_ok e n iv Hiv Hil) as [Hv Hvl]. set (v := cfb_vector e n iv) in *. cbn [Z.eqb AES_DECRYPT AES_ENCRYPT].
  set (o := u8 (Z.lxor c (at_ v (Z.of_nat n)))).
  specialize (IH (next_offset n) (<[n := o]> v) ltac:(apply Forall_insert; [done|apply u8_range]) ltac:(by rewrite length_insert)).
  destruct (qm_utils_aes_crypt_cfb128 e AES_ENCRYPT (next_offset n) (<[n := o]> v) l) as [[out iv'] n'] eqn:E.
  destruct IH as (Ho & Hlen & Hd). split; [apply List.Forall_cons; [apply u8_range|done]|]. split; [cbn; by rewrite Hlen|].
  cbn [qm_utils_aes_crypt_cfb128]. fold v. cbn [Z.eqb AES_DECRYPT].
  rewrite (u8_id o) by apply u8_range. rewrite Hd.
  assert (u8 (Z.lxor o (at_ v (Z.of_nat n))) = c) as ->; [|done].
  unfold o. rewrite (u8_id (Z.lxor c _)) by (apply lxor_u8; [done|by apply at_u8]).
  replace (Z.lxor (Z.lxor c (at_ v (Z.of_nat n))) (at_ v (Z.of_nat n))) with c by xor_ac. by apply u8_id.
Qed.

(** What the modes give for a key that both schedules accept. *)
Lemma key_size_cases keysize : keysize = 128 \/ keysize = 192 \/ keysize = 256 ->
  forall key, exists e d, qm_utils_aes_setkey_enc key keysize = inl e /\ qm_utils_aes_setkey_dec key keysize = inl d.
Proof.
  intros H key. unfold qm_utils_aes_setkey_dec, qm_utils_aes_setkey_enc.
  destruct H as [-> | [-> | ->]]; cbn [Z.eqb Pos.eqb]; eexists _, _; split; reflexivity.
Qed.

(** C26: with a key of 128, 192 or 256 bits, decryption gives back what encryption was given, byte
    for byte, for whole blocks in CBC mode and for any number of bytes in CFB mode; both
    sides end with the same vector, so that a message may be cut into several calls. *)
Theorem aes_modes_roundtrip key keysize iv l n k : keysize = 128 \/ keysize = 192 \/ keysize = 256 ->
  List.Forall is_u8 key -> List.Forall is_u8 iv -> length iv = 16%nat -> (n < 16)%nat -> List.Forall is_u8 l ->
  exists e d, qm_utils_aes_setkey_enc key keysize = inl e /\ qm_utils_aes_setkey_dec key keysize = inl d /\
    (length l = (16 * k)%nat ->
     let '(out, iv') := qm_utils_aes_crypt_cbc e AES_ENCRYPT (Z.of_nat (length l)) iv l in
     length out = length l /\ qm_utils_aes_crypt_cbc d AES_DECRYPT (Z.of_nat (length l)) iv out = (l, iv')) /\
    (let '(out, iv', n') := qm_utils_aes_crypt_cfb128 e AES_ENCRYPT n iv l in
     length out = length l /\ qm_utils_aes_crypt_cfb128 e AES_DECRYPT n iv out = (l, iv', n')).
Proof.
  intros Hs Hk Hiv Hil _ Hl. destruct (key_size_cases keysize Hs key) as (e & d & He & Hd). exists e, d. split; [done|]. split; [done|].
  pose proof (setkey_pair key keysize e d Hk He Hd) as Hp. split.
  - intros Hlen. unfold qm_utils_aes_crypt_cbc. cbn [Z.eqb AES_DECRYPT AES_ENCRYPT].
    replace (Z.to_nat ((Z.of_nat (length l) + 15) / 16)) with k by (rewrite Hlen; replace (Z.of_nat (16 * k) + 15) with (Z.of_nat k * 16 + 15) by lia; rewrite Z.div_add_l by lia; change (15 / 16) with 0; lia).
    pose proof (cbc_back e d k iv l Hp Hiv Hil Hl Hlen) as H. destruct (cbc_encrypt_loop e k iv l) as [out iv'].
    destruct H as (_ & H1 & H2). split; [lia|done].
  - pose proof (cfb_back e n iv l Hiv Hil Hl) as H. destruct (qm_utils_aes_crypt_cfb128 e AES_ENCRYPT n iv l) as [[out iv'] n'].
    destruct H as (_ & H1 & H2). done.
Qed.

Lemma aes_modes_roundtrip_witness : exists e d, qm_utils_aes_setkey_enc (Z.of_nat <$> seq 0 24) 192 = inl e /\ qm_utils_aes_setkey_dec (Z.of_nat <$> seq 0 24) 192 = inl d /\
  let '(out, iv', n') := qm_utils_aes_crypt_cfb128 e AES_ENCRYPT 3 (replicate 16 7) [1; 2; 3; 4] in qm_utils_aes_crypt_cfb128 e AES_DECRYPT 3 (replicate 16 7) out = ([1; 2; 3; 4], iv', n').
Proof.
  destruct (aes_modes_roundtrip (Z.of_nat <$> seq 0 24) 192 (replicate 16 7) [1; 2; 3; 4] 3 0) as (e & d & He & Hd & _ & H).
  - right. by left.
  - apply u8b_list. vm_compute. done.
  - apply u8b_list. vm_compute. done.
  - reflexivity.
  - lia.
  - apply u8b_list. vm_compute. done.
  - exists e, d. split; [exact He|]. split; [exact Hd|]. destruct (qm_utils_aes_crypt_cfb128 e AES_ENCRYPT 3 (replicate 16 7) [1; 2; 3; 4]) as [[out iv'] n']. exact (proj2 H).
Defined.

(** ** The AES functions of the Bluetooth link on the ESP32 *)

Module BleSec.

(** [aes_ctx] of the struct is set up by every call, and so not part of the state. *)
Record qm_ble_aes_context_t := mk_ble_ctx { iv : list Z; key : list Z }.

Definition block_bytes (l : list Z) : bool := (length l =? 16)%nat && forallb u8b l.
Definition valid (c : qm_ble_aes_context_t) : bool := block_bytes (iv c) && block_bytes (key c).
(** A context that [init] has filled. *)
Definition context : Type := { c : qm_ble_aes_context_t | valid c = true }.

(** [alloc]: whether the heap has room.  Sixteen bytes are copied from each argument. *)
Definition qm_ble_aes128_init (alloc : bool) (key iv : list Z) : option context :=
  if alloc then
    let c := mk_ble_ctx (take 16 iv) (take 16 key) in
    match decide (valid c = true) with left H => Some (exist _ c H) | right _ => None end
  else None.

(** [siz] is the number of blocks; the vector of the context is copied, so that every call starts from it. *)
Definition platform_aes128_encrypt_decrypt (aes_ctx : context) (src : list Z) (siz : Z) (is_enc : bool) : list Z :=
  let qm_aes_ctx := proj1_sig aes_ctx in
  let dlen := Z.shiftl siz 4 in
  if is_enc then
    match qm_utils_aes_setkey_enc (key qm_aes_ctx) 128 with
    | inl ctx => fst (qm_utils_aes_crypt_cbc ctx AES_ENCRYPT dlen (iv qm_aes_ctx) src)
    | inr _ => []
    end
  else
    match qm_utils_aes_setkey_dec (key qm_aes_ctx) 128 with
    | inl ctx => fst (qm_utils_aes_crypt_cbc ctx AES_DECRYPT dlen (iv qm_aes_ctx) src)
    | inr _ => []
    end.

Definition blocks (l : list Z) : Z := Z.of_nat (length l) / 16.
Definition qm_ble_aes128_cbc_encrypt (aes : context) (src : list Z) : list Z := platform_aes128_encrypt_decrypt aes src (blocks src) true.
Definition qm_ble_aes128_cbc_decrypt (aes : context) (src : list Z) : list Z := platform_aes128_encrypt_decrypt aes src (blocks src) false.

Lemma block_bytes_spec l : block_bytes l = true -> length l = 16%nat /\ List.Forall is_u8 l.
Proof.
  unfold block_bytes. intros [H1%Nat.eqb_eq H2]%andb_prop. split; [done|]. rewrite forallb_forall in H2.
  apply List.Forall_forall. intros x Hx. by apply u8b_spec, H2.
Qed.

Lemma crypt_cbc_blocks ctx mode k iv l : length l = (16 * k)%nat ->
  qm_utils_aes_crypt_cbc ctx mode (Z.shiftl (blocks l) 4) iv l = if mode =? AES_DECRYPT then cbc_decrypt_loop ctx k iv l else cbc_encrypt_loop ctx k iv l.
Proof.
  intros Hl. unfold qm_utils_aes_crypt_cbc, blocks. rewrite Hl, Nat2Z.inj_mul, Z.mul_comm, Z.div_mul by lia.
  rewrite Z.shiftl_mul_pow2 by lia. change (2 ^ 4) with 16. rewrite Z.div_add_l by lia. change (15 / 16) with 0.
  by replace (Z.to_nat (Z.of_nat k + 0)) with k by lia.
Qed.

Lemma cbc_decrypt_ok d n iv l : length iv = 16%nat -> length l = (16 * n)%nat ->
  length (fst (cbc_decrypt_loop d n iv l)) = (16 * n)%nat /\ List.Forall is_u8 (fst (cbc_decrypt_loop d n iv l)).
Proof.
  revert iv l. induction n as [|n IH]; intros iv l Hiv Hl; cbn [cbc_decrypt_loop]; [split; [done|apply List.Forall_nil]|].
  destruct (IH (take 16 l) (drop 16 l)) as [H1 H2]; [rewrite length_take; lia|rewrite length_drop; lia|].
  destruct (cbc_decrypt_loop d n (take 16 l) (drop 16 l)) as [rest iv']. cbn [fst] in *.
  split; [rewrite length_app, H1, xor_bytes_length, crypt_ecb_length by (rewrite crypt_ecb_length; lia); lia|].
  apply Forall_app. split; [apply xor_bytes_u8|done].
Qed.

(** Both directions of a context, by its schedules. *)
Lemma context_keys (c : context) : exists e d, key_pair e d /\ List.Forall is_u8 (iv (proj1_sig c)) /\ length (iv (proj1_sig c)) = 16%nat /\
  (forall k l, length l = (16 * k)%nat -> qm_ble_aes128_cbc_encrypt c l = fst (cbc_encrypt_loop e k (iv (proj1_sig c)) l)) /\
  (forall k l, length l = (16 * k)%nat -> qm_ble_aes128_cbc_decrypt c l = fst (cbc_decrypt_loop d k (iv (proj1_sig c)) l)).
Proof.
  destruct c as [c Hc]. cbn [proj1_sig]. pose proof (andb_prop _ _ Hc) as Hv. destruct Hv as [[Hi1 Hi2]%block_bytes_spec [Hk1 Hk2]%block_bytes_spec].
  destruct (key_size_cases 128 (or_introl eq_refl) (key c)) as (e & d & He & Hd). exists e, d.
  split; [by apply (setkey_pair (key c) 128)|]. split; [done|]. split; [done|].
  unfold qm_ble_aes128_cbc_encrypt, qm_ble_aes128_cbc_decrypt, platform_aes128_encrypt_decrypt. cbn [proj1_sig]. rewrite He, Hd.
  split; intros k l Hl; by rewrite (crypt_cbc_blocks _ _ k).
Qed.

Lemma ble_encrypt_ok (c : context) k l : length l = (16 * k)%nat -> List.Forall is_u8 l ->
  length (qm_ble_aes128_cbc_encrypt c l) = (16 * k)%nat /\ List.Forall is_u8 (qm_ble_aes128_cbc_encrypt c l) /\ qm_ble_aes128_cbc_decrypt c (qm_ble_aes128_cbc_encrypt c l) = l.
Proof.
  intros Hl Hu. destruct (context_keys c) as (e & d & Hp & Hi & Hil & He & Hd). pose proof (cbc_back e d k _ l Hp Hi Hil Hu Hl) as H.
  destruct (cbc_encrypt_loop e k (iv (proj1_sig c)) l) as [out iv'] eqn:E. destruct H as (H1 & H2 & H3).
  rewrite (He k l Hl), E. cbn [fst]. by rewrite (Hd k out H2), H3.
Qed.
Lemma ble_decrypt_ok (c : context) k l : length l = (16 * k)%nat -> List.Forall is_u8 l ->
  length (qm_ble_aes128_cbc_decrypt c l) = (16 * k)%nat /\ List.Forall is_u8 (qm_ble_aes128_cbc_decrypt c l).
Proof. intros Hl _. destruct (context_keys c) as (e & d & _ & _ & Hil & _ & Hd). rewrite (Hd k l Hl). by apply cbc_decrypt_ok. Qed.

(** The platform keeps the promises the link relies on. *)
#[export] Instance esp32_aes (alloc : bool) : BleAes := {
  aes_ctx := context;
  Ble.qm_ble_aes128_init := qm_ble_aes128_init alloc;
  Ble.qm_ble_aes128_cbc_encrypt := qm_ble_aes128_cbc_encrypt;
  Ble.qm_ble_aes128_cbc_decrypt := qm_ble_aes128_cbc_decrypt;
  cbc_encrypt_length c k d Hl Hu := let '(conj H1 (conj H2 _)) := ble_encrypt_ok c k d Hl Hu in conj H1 H2;
  cbc_decrypt_length := ble_decrypt_ok;
  cbc_roundtrip c k d Hl Hu := proj2 (proj2 (ble_encrypt_ok c k d Hl Hu))
}.

End BleSec.
End Aes.
