(* ===== verification/AesFips.v ===== *)
(** * AES against FIPS 197

    The table-driven cipher of utility/aes/qm_utils_aes.c is the cipher of the standard. *)

From S2P Require Import Prelude Words Aes.
Import list_relations.list list_basics.list Words Aes.
Open Scope Z_scope.

Module AesFips.

(** ** FIPS 197

    The cipher of the standard, on bytes: the state is the sixteen bytes of the block,
    column after column; the box is computed from the inverse in GF(2^8). *)

Module Fips.

Definition xtime (b : Z) : Z := let s := 2 * b in if s <? 256 then s else Z.lxor s 0x11B.

(** The product in GF(2^8), over the bits of [b] from the lowest. *)
Fixpoint gmul_bits (n : nat) (a b : Z) : Z :=
  match n with
  | O => 0
  | S n => Z.lxor (if Z.odd b then a else 0) (gmul_bits n (xtime a) (Z.div2 b))
  end.
Definition gmul : Z -> Z -> Z := gmul_bits 8.

(** [b^254], the inverse (0 for 0). *)
Fixpoint gpow (b : Z) (n : nat) : Z := match n with O => 1 | S n => gmul b (gpow b n) end.
Definition ginv (b : Z) : Z := gpow b 254.

Definition rotl (b i : Z) : Z := Z.lxor (u8 (Z.shiftl b i)) (Z.shiftr b (8 - i)).
Definition sbox (b : Z) : Z :=
  let x := ginv b in Z.lxor (Z.lxor (Z.lxor (Z.lxor (Z.lxor x (rotl x 1)) (rotl x 2)) (rotl x 3)) (rotl x 4)) 0x63.

Definition xor_list : list Z -> list Z -> list Z := zip_with Z.lxor.

Definition sub_bytes (s : list Z) : list Z := sbox <$> s.

(** Row [r] of column [c] is byte [r + 4c]; row [r] goes [r] columns to the left. *)
Definition shift_rows (s : list Z) : list Z := (fun i => at_ s (Z.of_nat ((i + 4 * (i mod 4)) mod 16))) <$> seq 0 16.

Definition mix_column (a b c d : Z) : list Z :=
  [Z.lxor (Z.lxor (Z.lxor (gmul 2 a) (gmul 3 b)) c) d; Z.lxor (Z.lxor (Z.lxor a (gmul 2 b)) (gmul 3 c)) d;
   Z.lxor (Z.lxor (Z.lxor a b) (gmul 2 c)) (gmul 3 d); Z.lxor (Z.lxor (Z.lxor (gmul 3 a) b) c) (gmul 2 d)].
Fixpoint mix_columns (s : list Z) : list Z :=
  match s with
  | a :: b :: c :: d :: rest => mix_column a b c d ++ mix_columns rest
  | _ => []
  end.

(** A word is four bytes. *)
Definition sub_word4 (w : list Z) : list Z := sbox <$> w.
Definition rot_word (w : list Z) : list Z := drop 1 w ++ take 1 w.
Definition Rcon (i : nat) : list Z := [gpow 2 (i - 1); 0; 0; 0].

(** Word [i] of the schedule; [ws] are the words before it, the last one first. *)
Definition temp (Nk i : nat) (w : list Z) : list Z :=
  if (i mod Nk =? 0)%nat then xor_list (sub_word4 (rot_word w)) (Rcon (i / Nk))
  else if (6 <? Nk)%nat && (i mod Nk =? 4)%nat then sub_word4 w
  else w.
Fixpoint expand_from (Nk n i : nat) (ws : list (list Z)) : list (list Z) :=
  match n with
  | O => ws
  | S n => expand_from Nk n (i + 1) (xor_list (default [] (ws !! (Nk - 1)%nat)) (temp Nk i (default [] (ws !! 0%nat))) :: ws)
  end.

Definition key_word (key : list Z) (i : nat) : list Z := take 4 (drop (4 * i) key).
Definition key_expansion (Nk Nr : nat) (key : list Z) : list (list Z) := reverse (expand_from Nk (4 * (Nr + 1) - Nk) Nk (reverse (key_word key <$> seq 0 Nk))).

Definition round_key_bytes (ws : list (list Z)) (i : nat) : list Z := concat (take 4 (drop (4 * i) ws)).

Definition fips_round (ws : list (list Z)) (s : list Z) (i : nat) : list Z := xor_list (mix_columns (shift_rows (sub_bytes s))) (round_key_bytes ws i).
Definition cipher (Nk : nat) (key input : list Z) : list Z :=
  let Nr := (Nk + 6)%nat in
  let ws := key_expansion Nk Nr key in
  let s := foldl (fips_round ws) (xor_list input (round_key_bytes ws 0)) (seq 1 (Nr - 1)) in
  xor_list (shift_rows (sub_bytes s)) (round_key_bytes ws Nr).

End Fips.
Import Fips.

Example fips_128 : cipher 4 (Z.of_nat <$> seq 0 16)
  [0x00;0x11;0x22;0x33;0x44;0x55;0x66;0x77;0x88;0x99;0xaa;0xbb;0xcc;0xdd;0xee;0xff] =
  [0x69;0xc4;0xe0;0xd8;0x6a;0x7b;0x04;0x30;0xd8;0xcd;0xb7;0x80;0x70;0xb4;0xc5;0x5a].
Proof. vm_compute. reflexivity. Qed.
Example fips_256 : cipher 8 (Z.of_nat <$> seq 0 32)
  [0x00;0x11;0x22;0x33;0x44;0x55;0x66;0x77;0x88;0x99;0xaa;0xbb;0xcc;0xdd;0xee;0xff] =
  [0x8e;0xa2;0xb7;0xca;0x51;0x67;0x45;0xbf;0xea;0xfc;0x49;0x90;0x4b;0x49;0x60;0x89].
Proof. vm_compute. reflexivity. Qed.

(** ** The boxes and the columns *)

#[local] Hint Resolve B_u8 lxor_u8 lxor_u32 rot8_u32 W_u32 FSb_u8 : qm.

Lemma sbox_FSb b : is_u8 b -> sbox b = at_ FSb b.
Proof. intros H. apply Z.eqb_eq. on_bytes (fun b => sbox b =? at_ FSb b) b H. Qed.

Lemma gmul_u8 b : is_u8 b -> is_u8 (gmul 2 b) /\ is_u8 (gmul 3 b).
Proof.
  intros H. split; apply u8b_spec.
  - on_bytes (fun b => u8b (gmul 2 b)) b H.
  - on_bytes (fun b => u8b (gmul 3 b)) b H.
Qed.

(** An entry of the first table: the column of a byte in the first row. *)
Lemma FT0_W b : is_u8 b -> at_ FT0 b = W (gmul 2 (at_ FSb b)) (at_ FSb b) (at_ FSb b) (gmul 3 (at_ FSb b)).
Proof. intros H. apply Z.eqb_eq. on_bytes (fun b => at_ FT0 b =? W (gmul 2 (at_ FSb b)) (at_ FSb b) (at_ FSb b) (gmul 3 (at_ FSb b))) b H. Qed.

#[local] Opaque FSb FT0 gmul sbox B W.

Lemma rot8_of_W a b c d : is_u8 a -> is_u8 b -> is_u8 c -> is_u8 d -> rot8 (W a b c d) = W d a b c.
Proof. intros. rewrite rot8_W by auto with qm. destruct (B_W a b c d) as (-> & -> & -> & ->); done. Qed.

(** Four entries: the mixed column of the four boxes. *)
Lemma sum4_mix a b c d :
  PUT_ULONG_LE (sum4 FT0 FT1 FT2 FT3 a b c d) = mix_column (at_ FSb (B 0 a)) (at_ FSb (B 1 b)) (at_ FSb (B 2 c)) (at_ FSb (B 3 d)).
Proof.
  unfold sum4, FT3, FT2, FT1. rewrite !at_rot8, !FT0_W by apply B_u8.
  set (x := at_ FSb (B 0 a)). set (y := at_ FSb (B 1 b)). set (z := at_ FSb (B 2 c)). set (t := at_ FSb (B 3 d)).
  assert (is_u8 x /\ is_u8 y /\ is_u8 z /\ is_u8 t) as (Hx & Hy & Hz & Ht) by (subst x y z t; auto with qm). clearbody x y z t.
  destruct (gmul_u8 x Hx), (gmul_u8 y Hy), (gmul_u8 z Hz), (gmul_u8 t Ht).
  repeat rewrite !rot8_of_W by done. rewrite !W_lxor, store_B.
  match goal with |- context [W ?a ?b ?c ?d] => destruct (B_W a b c d) as (-> & -> & -> & ->); [auto 10 with qm..|] end.
  unfold mix_column. repeat f_equal; xor_ac.
Qed.

Lemma PUT_lxor a b : PUT_ULONG_LE (Z.lxor a b) = xor_list (PUT_ULONG_LE a) (PUT_ULONG_LE b).
Proof. rewrite !store_B, !B_lxor by lia. done. Qed.

Lemma PUT_bytes4 a b c d : PUT_ULONG_LE (bytes4 FSb a b c d) = [at_ FSb (B 0 a); at_ FSb (B 1 b); at_ FSb (B 2 c); at_ FSb (B 3 d)].
Proof. rewrite store_B, bytes4_W. destruct (B_W (at_ FSb (B 0 a)) (at_ FSb (B 1 b)) (at_ FSb (B 2 c)) (at_ FSb (B 3 d))) as (-> & -> & -> & ->); auto with qm. Qed.

(** *** Rounds *)

Definition keys_bytes (RK : list Z) : list Z := concat (PUT_ULONG_LE <$> RK).

Lemma shift_sub y : shift_rows (sub_bytes (store_block y)) =
  let '(y0, y1, y2, y3) := y in
  [at_ FSb (B 0 y0); at_ FSb (B 1 y1); at_ FSb (B 2 y2); at_ FSb (B 3 y3); at_ FSb (B 0 y1); at_ FSb (B 1 y2); at_ FSb (B 2 y3); at_ FSb (B 3 y0);
   at_ FSb (B 0 y2); at_ FSb (B 1 y3); at_ FSb (B 2 y0); at_ FSb (B 3 y1); at_ FSb (B 0 y3); at_ FSb (B 1 y0); at_ FSb (B 2 y1); at_ FSb (B 3 y2)].
Proof.
  destruct y as [[[y0 y1] y2] y3]. unfold store_block, sub_bytes. rewrite !store_B. cbn [app fmap list_fmap].
  rewrite !sbox_FSb by apply B_u8. reflexivity.
Qed.

Lemma xor_list_app a b a' b' : length a = length a' -> xor_list (a ++ b) (a' ++ b') = xor_list a a' ++ xor_list b b'.
Proof. intros H. by apply zip_with_app. Qed.

Lemma xor_list_comm a b : xor_list a b = xor_list b a.
Proof. unfold xor_list. revert b. induction a as [|x a IH]; intros [|y b]; cbn; [done..|]. by rewrite Z.lxor_comm, IH. Qed.

Lemma store_fround RK y : length RK = 4%nat -> store_block (AES_FROUND RK y) = xor_list (mix_columns (shift_rows (sub_bytes (store_block y)))) (keys_bytes RK).
Proof.
  intros Hl. do 4 (destruct RK as [|? RK]; [done|]). destruct RK; [|done]. rewrite shift_sub. destruct y as [[[y0 y1] y2] y3].
  unfold AES_FROUND, store_block. rewrite !PUT_lxor, !sum4_mix. rewrite !(xor_list_comm (PUT_ULONG_LE _)). reflexivity.
Qed.

Lemma store_last_fround RK y : length RK = 4%nat -> store_block (last_fround RK y) = xor_list (shift_rows (sub_bytes (store_block y))) (keys_bytes RK).
Proof.
  intros Hl. do 4 (destruct RK as [|? RK]; [done|]). destruct RK; [|done]. rewrite shift_sub. destruct y as [[[y0 y1] y2] y3].
  unfold last_fround, store_block. rewrite !PUT_lxor, !PUT_bytes4. rewrite !(xor_list_comm (PUT_ULONG_LE _)). reflexivity.
Qed.

Lemma store_add_key RK x : length RK = 4%nat -> store_block (add_key RK x) = xor_list (store_block x) (keys_bytes RK).
Proof.
  intros Hl. do 4 (destruct RK as [|? RK]; [done|]). destruct RK; [|done]. destruct x as [[[y0 y1] y2] y3].
  unfold add_key, store_block. rewrite !PUT_lxor. reflexivity.
Qed.

(** ** The key schedule *)

Lemma PUT_rot_sub w : PUT_ULONG_LE (rot_sub w) = sub_word4 (rot_word (PUT_ULONG_LE w)).
Proof.
  change (rot_sub w) with (W (at_ FSb (B 1 w)) (at_ FSb (B 2 w)) (at_ FSb (B 3 w)) (at_ FSb (B 0 w))). rewrite !store_B.
  destruct (B_W (at_ FSb (B 1 w)) (at_ FSb (B 2 w)) (at_ FSb (B 3 w)) (at_ FSb (B 0 w))) as (-> & -> & -> & ->); auto with qm.
  unfold sub_word4, rot_word. cbn [drop take app fmap list_fmap]. by rewrite !sbox_FSb by apply B_u8.
Qed.
Lemma PUT_sub_word w : PUT_ULONG_LE (sub_word w) = sub_word4 (PUT_ULONG_LE w).
Proof. unfold sub_word. rewrite PUT_bytes4, store_B. unfold sub_word4. cbn [fmap list_fmap]. by rewrite !sbox_FSb by apply B_u8. Qed.

(** The standard's schedule, on words: [n] steps from word [j] of group [r]. *)
Definition word_temp (Nk : nat) (rc : Z) (j : nat) (w : Z) : Z :=
  if (j =? 0)%nat then Z.lxor (rot_sub w) rc else if (6 <? Nk)%nat && (j =? 4)%nat then sub_word w else w.
Fixpoint word_expand (Nk : nat) (rc : Z) (n j : nat) (ws : list Z) : list Z :=
  match n with
  | O => ws
  | S n => word_expand Nk rc n (j + 1) (Z.lxor (default 0 (ws !! (Nk - 1)%nat)) (word_temp Nk rc j (default 0 (ws !! 0%nat))) :: ws)
  end.

Lemma temp_word Nk r j w rc : (j < Nk)%nat -> PUT_ULONG_LE rc = Rcon r -> temp Nk (Nk * r + j) (PUT_ULONG_LE w) = PUT_ULONG_LE (word_temp Nk rc j w).
Proof.
  intros Hj Hr. unfold temp, word_temp. replace (Nk * r + j)%nat with (j + r * Nk)%nat by lia. rewrite Nat.Div0.mod_add, Nat.mod_small by lia.
  destruct (Nat.eqb_spec j 0) as [->|].
  - rewrite Nat.add_0_l, Nat.div_mul by lia. by rewrite PUT_lxor, PUT_rot_sub, Hr.
  - destruct ((6 <? Nk)%nat && (j =? 4)%nat); [by rewrite PUT_sub_word|done].
Qed.

Lemma expand_from_word Nk r n j ws rc : (j + n <= Nk)%nat -> (Nk <= length ws)%nat -> (0 < Nk)%nat -> PUT_ULONG_LE rc = Rcon r ->
  expand_from Nk n (Nk * r + j) (PUT_ULONG_LE <$> ws) = PUT_ULONG_LE <$> word_expand Nk rc n j ws.
Proof.
  intros Hj Hl Hk Hr. revert j ws Hj Hl. induction n as [|n IH]; intros j ws Hj Hl; [done|]. cbn [expand_from word_expand].
  destruct (lookup_lt_is_Some_2 ws (Nk - 1)%nat) as [a Ha]; [lia|]. destruct (lookup_lt_is_Some_2 ws 0%nat) as [b Hb]; [lia|].
  rewrite !list_lookup_fmap, Ha, Hb. change (default [] (PUT_ULONG_LE <$> Some a)) with (PUT_ULONG_LE a). change (default [] (PUT_ULONG_LE <$> Some b)) with (PUT_ULONG_LE b). change (default 0 (Some a)) with a. change (default 0 (Some b)) with b. rewrite (temp_word _ _ _ _ rc) by (done || lia).
  rewrite <- PUT_lxor, <- Nat.add_assoc, <- IH; [done|lia|cbn; lia].
Qed.

Lemma expand_from_add Nk n m i ws : expand_from Nk (n + m) i ws = expand_from Nk m (i + n) (expand_from Nk n i ws).
Proof.
  revert i ws. induction n as [|n IH]; intros i ws; cbn [Nat.add expand_from]; [by rewrite Nat.add_0_r|].
  rewrite IH. f_equal. lia.
Qed.

(** One pass of a loop of the code is a group of the standard. *)
Definition is_group (Nk : nat) (step : Z -> list Z -> list Z) : Prop :=
  expands Nk step /\ forall rc RK older, length RK = Nk -> word_expand Nk rc Nk 0 (reverse RK ++ older) = reverse (step rc RK) ++ reverse RK ++ older.

Lemma lxor_swap a b c : Z.lxor a (Z.lxor b c) = Z.lxor (Z.lxor a c) b.
Proof. xor_ac. Qed.

Ltac group_tac :=
  intros rc RK older Hl; repeat (destruct RK as [|? RK]; [discriminate Hl|]); destruct RK; [|discriminate Hl];
  cbn -[rot_sub sub_word Z.lxor]; unfold word_temp; cbn -[rot_sub sub_word Z.lxor];
  rewrite (lxor_swap _ (rot_sub _) rc); reflexivity.

Lemma group4 : is_group 4 expand4.
Proof. split; [apply expands4|group_tac]. Qed.
Lemma group6 : is_group 6 expand6.
Proof. split; [apply expands6|group_tac]. Qed.
Lemma group8 : is_group 8 expand8.
Proof. split; [apply expands8|group_tac]. Qed.

Lemma expand_from_loop Nk step r RK older : (0 < Nk)%nat -> is_group Nk step -> forall rcons,
  (forall k rc, rcons !! k = Some rc -> is_u32 rc /\ PUT_ULONG_LE rc = Rcon (r + k)) -> List.Forall is_u32 RK -> length RK = Nk ->
  expand_from Nk (Nk * length rcons) (Nk * r) (PUT_ULONG_LE <$> (reverse RK ++ older)) = PUT_ULONG_LE <$> (reverse (expand step rcons RK) ++ older).
Proof.
  intros Hk [Hs Hg] rcons. revert r RK older. induction rcons as [|rc rest IH]; intros r RK older Hc Hu Hl; cbn [length expand].
  { by rewrite Nat.mul_0_r. }
  destruct (Hc 0%nat rc eq_refl) as [Hrc Hp]. rewrite Nat.add_0_r in Hp. destruct (Hs rc RK Hrc Hu Hl) as [Hu' Hl'].
  replace (Nk * S (length rest))%nat with (Nk + Nk * length rest)%nat by lia. rewrite expand_from_add.
  rewrite <- (Nat.add_0_r (Nk * r)), (expand_from_word _ _ _ _ _ rc), Hg, Nat.add_0_r by (done || rewrite ?length_app, ?length_reverse; lia).
  replace (Nk * r + Nk)%nat with (Nk * S r)%nat by lia. rewrite IH; [by rewrite reverse_app, <- app_assoc| |done|done].
  intros k rc' Hk'. rewrite Nat.add_succ_comm. by apply (Hc (S k)).
Qed.

(** Fewer words are the last part of more. *)
Lemma expand_from_suffix Nk n m i ws : exists new, length new = m /\ expand_from Nk (n + m) i ws = new ++ expand_from Nk n i ws.
Proof.
  rewrite expand_from_add. generalize (expand_from Nk n i ws) as l, (i + n)%nat as j. induction m as [|m IH]; intros l j; [by exists []|].
  cbn [expand_from]. destruct (IH (xor_list (default [] (l !! (Nk - 1)%nat)) (temp Nk j (default [] (l !! 0%nat))) :: l) (j + 1)%nat) as (new & Hn & ->).
  eexists (new ++ [_]). split; [rewrite length_app; cbn; lia|]. by rewrite <- app_assoc.
Qed.
Lemma expand_from_length Nk n i ws : length (expand_from Nk n i ws) = (n + length ws)%nat.
Proof. revert i ws. induction n as [|n IH]; intros; cbn [expand_from]; [done|]. rewrite IH. cbn. lia. Qed.

Lemma key_word_GET key i : List.Forall is_u8 key -> (4 * i + 4 <= length key)%nat -> key_word key i = PUT_ULONG_LE (GET_ULONG_LE key (4 * i)).
Proof.
  intros H Hl. rewrite store_B, load_W by done.
  destruct (B_W (at_ key (Z.of_nat (4 * i))) (at_ key (Z.of_nat (4 * i + 1))) (at_ key (Z.of_nat (4 * i + 2))) (at_ key (Z.of_nat (4 * i + 3)))) as (-> & -> & -> & ->);
    [by apply at_u8..|].
  unfold key_word, at_. rewrite !Nat2Z.id. revert Hl. generalize (4 * i)%nat as o. intros o Hl. apply list_eq_same_length with 4%nat; [done|rewrite length_take, length_drop; lia|].
  intros j x y Hj Hx Hy. rewrite lookup_take_lt, lookup_drop in Hx by done.
  destruct j as [|[|[|[|]]]]; [..|lia]; rewrite ?Nat.add_0_r in Hx; injection Hy as <-; by rewrite Hx.
Qed.

Lemma key_words_GET Nk key : List.Forall is_u8 key -> length key = (4 * Nk)%nat -> key_word key <$> seq 0 Nk = PUT_ULONG_LE <$> key_words Nk key.
Proof.
  intros H Hl. unfold key_words. rewrite <- list_fmap_compose. apply list_fmap_ext. intros k i Hi.
  apply key_word_GET; [done|]. apply lookup_seq in Hi. lia.
Qed.

(** The standard's words are the first words of the code's schedule. *)
Lemma key_expansion_eq Nk Nr step rcons key : (0 < Nk)%nat -> is_group Nk step -> List.Forall is_u8 key -> length key = (4 * Nk)%nat ->
  (forall k rc, rcons !! k = Some rc -> is_u32 rc /\ PUT_ULONG_LE rc = Rcon (1 + k)) ->
  (Nk <= 4 * (Nr + 1) <= Nk * (1 + length rcons))%nat ->
  key_expansion Nk Nr key = take (4 * (Nr + 1)) (PUT_ULONG_LE <$> expand step rcons (key_words Nk key)).
Proof.
  intros Hk Hg Hb Hl Hc Hn. destruct (key_words_ok Nk key Hb) as [Hw Hwl]. unfold key_expansion. rewrite key_words_GET, <- fmap_reverse by done.
  destruct (expand_from_suffix Nk (4 * (Nr + 1) - Nk) (Nk * (1 + length rcons) - 4 * (Nr + 1)) Nk (PUT_ULONG_LE <$> reverse (key_words Nk key))) as (new & Hnew & E).
  replace (4 * (Nr + 1) - Nk + (Nk * (1 + length rcons) - 4 * (Nr + 1)))%nat with (Nk * length rcons)%nat in E by lia.
  pose proof (expand_from_loop Nk step 1 (key_words Nk key) [] Hk Hg rcons Hc Hw Hwl) as L.
  rewrite !app_nil_r, Nat.mul_1_r, E in L. apply (f_equal reverse) in L. rewrite reverse_app, <- fmap_reverse, reverse_involutive in L.
  rewrite <- L, take_app_length'; [done|]. rewrite length_reverse, expand_from_length, length_fmap, length_reverse. lia.
Qed.

Lemma round_key_bytes_eq N ks i : (4 * (i + 1) <= N)%nat -> round_key_bytes (take N (PUT_ULONG_LE <$> ks)) i = keys_bytes (round_key ks i).
Proof.
  intros H. unfold round_key_bytes, keys_bytes, round_key. f_equal. rewrite <- fmap_take, <- fmap_drop, <- !fmap_take. f_equal.
  rewrite skipn_firstn_comm, take_take. f_equal. lia.
Qed.

Lemma RCON_Rcon R k rc : take R RCON !! k = Some rc -> is_u32 rc /\ PUT_ULONG_LE rc = Rcon (1 + k).
Proof.
  intros [H _]%lookup_take_Some. unfold RCON in H.
  do 10 (destruct k as [|k]; [injection H as <-; split; [by split|vm_compute; reflexivity]|]). done.
Qed.

Lemma store_rounds N ks l x : (forall i, i ∈ l -> (4 * (i + 1) <= N)%nat) -> (N <= length ks)%nat ->
  store_block (rounds AES_FROUND (round_key ks <$> l) x) = foldl (fips_round (take N (PUT_ULONG_LE <$> ks))) (store_block x) l.
Proof.
  intros Hl HN. revert x Hl. induction l as [|i l IH]; intros x Hl; [done|]. unfold rounds in *. rewrite fmap_cons. cbn [foldl].
  assert (4 * (i + 1) <= N)%nat as Hi by (apply Hl, list_elem_of_here). rewrite IH by (intros; apply Hl; by apply list_elem_of_further).
  f_equal. unfold fips_round. rewrite round_key_bytes_eq by done. apply store_fround, round_key_length. lia.
Qed.

(** A schedule whose words are the standard's gives the standard's cipher. *)
Lemma crypt_ecb_fips ctx m Nk key input : nr ctx = Z.of_nat (2 * S m) -> (Nk + 6)%nat = (2 * S m)%nat ->
  (4 * (2 * S m + 1) <= length (rk ctx))%nat -> key_expansion Nk (Nk + 6) key = take (4 * (2 * S m + 1)) (PUT_ULONG_LE <$> rk ctx) ->
  List.Forall is_u8 input -> length input = 16%nat ->
  qm_utils_aes_crypt_ecb ctx AES_ENCRYPT input = cipher Nk key input.
Proof.
  intros Hn HN Hl He Hi Hil. rewrite (crypt_ecb_eq _ _ _ m Hn). cbn [Z.eqb AES_DECRYPT AES_ENCRYPT]. unfold cipher. rewrite He, HN.
  unfold encrypt_block. rewrite store_last_fround by (apply round_key_length; lia).
  rewrite (store_rounds (4 * (2 * S m + 1))); [|intros i Hi'%elem_of_seq; lia|done].
  rewrite store_add_key, store_load by (done || apply round_key_length; lia). rewrite !round_key_bytes_eq by lia.
  by replace (2 * S m - 1)%nat with (2 * m + 1)%nat by lia.
Qed.

Lemma setkey_fips Nk Nr step rcons key m input :
  (0 < Nk)%nat -> is_group Nk step -> (forall k rc, rcons !! k = Some rc -> is_u32 rc /\ PUT_ULONG_LE rc = Rcon (1 + k)) ->
  List.Forall is_u32 rcons -> Nr = Z.of_nat (2 * S m) -> (Nk + 6)%nat = (2 * S m)%nat -> (4 * (2 * S m + 1) <= Nk * (1 + length rcons))%nat ->
  List.Forall is_u8 key -> length key = (4 * Nk)%nat -> List.Forall is_u8 input -> length input = 16%nat ->
  qm_utils_aes_crypt_ecb (mk_ctx Nr (expand step rcons (key_words Nk key))) AES_ENCRYPT input = cipher Nk key input.
Proof.
  intros Hk Hg Hc Hu HN Hm Hlen Hkey Hkl Hi Hil. destruct (key_words_ok Nk key Hkey) as [Hw Hwl].
  destruct (expand_ok Nk step rcons _ (proj1 Hg) Hu Hw Hwl) as [_ HL].
  apply (crypt_ecb_fips _ m); try done; cbn [rk]; [rewrite HL; lia|].
  rewrite <- Hm. apply key_expansion_eq; try done. rewrite Hm. lia.
Qed.

(** C11: encryption of a block under a key of 128, 192 or 256 bits is the cipher of FIPS 197,
    key schedule included: bytes through the box computed in GF(2^8), rows shifted, columns
    mixed, round keys added. *)
Theorem aes_is_fips197 Nk key input : Nk = 4%nat \/ Nk = 6%nat \/ Nk = 8%nat ->
  List.Forall is_u8 key -> length key = (4 * Nk)%nat -> List.Forall is_u8 input -> length input = 16%nat ->
  exists ctx, qm_utils_aes_setkey_enc key (32 * Z.of_nat Nk) = inl ctx /\ qm_utils_aes_crypt_ecb ctx AES_ENCRYPT input = cipher Nk key input.
Proof.
  intros H Hk Hkl Hi Hil.
  destruct H as [-> | [-> | ->]]; eexists; (split; [reflexivity|]).
  - apply (setkey_fips 4 10 expand4 (take 10 RCON) key 4); try done; try (cbn; lia). all: [> apply group4 | apply RCON_Rcon | apply Forall_take, RCON_u32].
  - apply (setkey_fips 6 12 expand6 (take 8 RCON) key 5); try done; try (cbn; lia). all: [> apply group6 | apply RCON_Rcon | apply Forall_take, RCON_u32].
  - apply (setkey_fips 8 14 expand8 (take 7 RCON) key 6); try done; try (cbn; lia). all: [> apply group8 | apply RCON_Rcon | apply Forall_take, RCON_u32].
Qed.

Lemma aes_is_fips197_witness : exists ctx, qm_utils_aes_setkey_enc (Z.of_nat <$> seq 0 16) 128 = inl ctx /\
  qm_utils_aes_crypt_ecb ctx AES_ENCRYPT [0x00;0x11;0x22;0x33;0x44;0x55;0x66;0x77;0x88;0x99;0xaa;0xbb;0xcc;0xdd;0xee;0xff] =
  [0x69;0xc4;0xe0;0xd8;0x6a;0x7b;0x04;0x30;0xd8;0xcd;0xb7;0x80;0x70;0xb4;0xc5;0x5a].
Proof.
  destruct (aes_is_fips197 4 (Z.of_nat <$> seq 0 16) [0x00;0x11;0x22;0x33;0x44;0x55;0x66;0x77;0x88;0x99;0xaa;0xbb;0xcc;0xdd;0xee;0xff]) as (ctx & H1 & H2).
  - by left.
  - apply u8b_list. vm_compute. done.
  - reflexivity.
  - apply u8b_list. vm_compute. done.
  - reflexivity.
  - exists ctx. split; [exact H1|]. rewrite H2. exact fips_128.
Defined.
End AesFips.
