(* ===== verification/BleLink.v ===== *)
(** * Bluetooth link: fragmentation and reassembly (components/qm_ble)

    What qm_ble_transport.c sends for a message, what it makes of received frames, and that
    the two fit together, with and without encryption. *)

From S2P Require Import Prelude Outcome Words Heap Ble Sha256 Aes.
Import list_relations.list list_basics.list Heap(slice, splice, heap_slice_app, splice_app) Ble Aes.
Open Scope Z_scope.

Module BleLink.

(** ** Frames *)

Section frames.
Context {cfg : BleConfig} {aes : BleAes}.

(** The payload of a frame and its padding. *)
Definition padding (n : nat) : list Z := replicate (Z.to_nat (bytes_to_pad (Z.of_nat n))) (bytes_to_pad (Z.of_nat n)).
Definition body (ctx : option aes_ctx) (c : list Z) : list Z :=
  match ctx with Some x => qm_ble_aes128_cbc_encrypt x (c ++ padding (length c)) | None => c end.

(** Frame [k] of a message; [ctx] is the cipher, if the message is encrypted. *)
Definition frame (ctx : option aes_ctx) (id cmd total k : Z) (c : list Z) : list Z :=
  [(match ctx with Some _ => 16 | None => 0 end) + id; cmd; 16 * total + k; Z.of_nat (length (body ctx c))] ++ body ctx c.

Fixpoint frames (ctx : option aes_ctx) (id cmd total k : Z) (cs : list (list Z)) : list (list Z) :=
  match cs with
  | [] => []
  | c :: rest => frame ctx id cmd total k c :: frames ctx id cmd total (k + 1) rest
  end.

(** The pieces of a message: all but the last are full. *)
Fixpoint well_cut (P : nat) (cs : list (list Z)) : Prop :=
  match cs with
  | [] => False
  | [c] => (0 < length c <= P)%nat
  | c :: rest => length c = P /\ well_cut P rest
  end.

Lemma well_cut_cons P c c' rest : well_cut P (c :: c' :: rest) <-> length c = P /\ well_cut P (c' :: rest).
Proof. done. Qed.

Lemma well_cut_exists P d : (0 < P)%nat -> d <> [] -> exists cs, well_cut P cs /\ mjoin cs = d.
Proof.
  intros HP. assert (H : forall m d, (length d <= m)%nat -> d <> [] -> exists cs, well_cut P cs /\ mjoin cs = d); [|by apply (H (length d))].
  clear d. intros m. induction m as [|m IH]; intros d Hm Hd; [destruct d; [done|simpl in Hm; lia]|].
  destruct (decide (length d <= P)%nat) as [Hle|Hgt].
  - exists [d]. split; [simpl; destruct d; [done|simpl in *; lia]|]. simpl. apply app_nil_r.
  - destruct (IH (drop P d)) as (cs & Hc & Hj); [rewrite length_drop; lia|intros Hn; apply (f_equal length) in Hn; rewrite length_drop in Hn; simpl in Hn; lia|].
    exists (take P d :: cs). split; [|simpl; rewrite Hj; apply take_drop]. destruct cs as [|c cs]; [done|]. apply well_cut_cons. split; [rewrite length_take; lia|done].
Qed.

Lemma well_cut_bounds P cs : well_cut P cs -> ((length cs - 1) * P < length (mjoin cs) <= length cs * P)%nat.
Proof.
  induction cs as [|c [|c' rest] IH]; [done|simpl; rewrite app_nil_r; lia|]. intros [Hc Hw]%well_cut_cons. specialize (IH Hw).
  change (mjoin (c :: c' :: rest)) with (c ++ mjoin (c' :: rest)). rewrite length_app. simpl length in *. lia.
Qed.

(** The pieces of a message, and the last frame number, are determined by its length. *)
Lemma well_cut_total P cs : (0 < P)%nat -> well_cut P cs ->
  let n := Z.of_nat (length (mjoin cs)) in let q := n / Z.of_nat P in (if q * Z.of_nat P =? n then q - 1 else q) = Z.of_nat (length cs) - 1 /\ 0 < n.
Proof.
  intros HP Hw. pose proof (well_cut_bounds P cs Hw) as Hb. cbv zeta. set (n := Z.of_nat (length (mjoin cs))). assert (Hl : (0 < length cs)%nat) by (destruct cs; [done|simpl; lia]).
  assert (Hn : (Z.of_nat (length cs) - 1) * Z.of_nat P < n <= Z.of_nat (length cs) * Z.of_nat P) by (unfold n; nia).
  split; [|nia]. destruct (Z.eqb_spec (n / Z.of_nat P * Z.of_nat P) n) as [He|Hne].
  - enough (n / Z.of_nat P = Z.of_nat (length cs)) by lia. nia.
  - symmetry. apply (Z.div_unique_pos _ _ _ (n - (Z.of_nat (length cs) - 1) * Z.of_nat P)); [|lia]. split; [lia|].
    destruct (decide (n = Z.of_nat (length cs) * Z.of_nat P)) as [He|]; [|lia]. exfalso. apply Hne. rewrite He, Z.div_mul; lia.
Qed.

(** ** Header bits *)

Lemma nibbles a b : 0 <= a -> 0 <= b < 16 -> Z.lor (Z.shiftl a 4) b = 16 * a + b.
Proof.
  intros Ha Hb. pose proof (Z.add_lor_land (Z.shiftl a 4) b) as H. assert (Hz : Z.land (Z.shiftl a 4) b = 0).
  { apply Z.bits_inj'. intros i Hi. rewrite Z.land_spec, Z.bits_0. destruct (decide (i < 4)); [by rewrite Z.shiftl_spec_low|]. rewrite (testbit_above 4 b i) by (simpl; lia). apply andb_false_r. }
  rewrite Hz, Z.add_0_r in H. rewrite H, Z.shiftl_mul_pow2 by lia. change (2 ^ 4) with 16. lia.
Qed.

Lemma low_nibble a : Z.land a 15 = a mod 16.
Proof. apply (Z.land_ones a 4). lia. Qed.

Lemma frame_header (t : tx_t) n ctx : encrypted t = (match ctx : option aes_ctx with Some _ => 1 | None => 0 end) -> 0 <= tx_id t < 16 -> 0 <= tx_total_frame t < 16 -> 0 <= tx_frame_seq t < 16 -> is_u8 n ->
  header t n = [(match ctx with Some _ => 16 | None => 0 end) + tx_id t; tx_cmd t; 16 * tx_total_frame t + tx_frame_seq t; n].
Proof.
  intros He Hi Ht Hs Hn. unfold header, QB_TRANSPORT_VER. change (Z.shiftl (Z.land 0 7) 5) with 0. rewrite Z.lor_0_l, !low_nibble, (Z.mod_small (tx_id t)), (Z.mod_small (tx_total_frame t)), (Z.mod_small (tx_frame_seq t)) by lia.
  rewrite He, !nibbles by first [lia|by destruct ctx; vm_compute]. replace (16 * Z.land _ 1) with (match ctx with Some _ => 16 | None => 0 end) by (by destruct ctx).
  rewrite !u8_id by (try done; destruct ctx; widths; lia). done.
Qed.

Lemma parse_first ctx id : 0 <= id < 16 -> IS_ENC ((match ctx : option aes_ctx with Some _ => 16 | None => 0 end) + id) = is_Some_b ctx /\ MSG_ID ((match ctx with Some _ => 16 | None => 0 end) + id) = id.
Proof.
  intros Hi. unfold IS_ENC, MSG_ID. rewrite low_nibble. assert (Hl : Z.land id 16 = 0).
  { apply Z.bits_inj'. intros i Hi0. rewrite Z.land_spec, Z.bits_0. destruct (decide (i < 4)) as [|]; [|rewrite (testbit_above 4 id i) by (simpl; lia); done]. assert (i = 0 \/ i = 1 \/ i = 2 \/ i = 3) as [-> | [-> | [-> | ->]]] by lia; apply andb_false_r. }
  destruct ctx.
  - replace (16 + id) with (Z.lor (Z.shiftl 1 4) id) by (rewrite nibbles; lia). rewrite Z.land_lor_distr_l, Hl. split; [done|]. rewrite nibbles by lia. zsolve.
  - rewrite Z.add_0_l, Hl. split; [done|]. zsolve.
Qed.

Lemma parse_third total k : 0 <= total < 16 -> 0 <= k < 16 -> TOTAL_FRAME (16 * total + k) = total /\ FRAME_SEQ (16 * total + k) = k.
Proof. intros Ht Hk. unfold TOTAL_FRAME, FRAME_SEQ. rewrite !low_nibble, Z.shiftr_div_pow2 by lia. change (2 ^ 4) with 16. zsolve. Qed.
End frames.

(** ** Sending *)

Section sending.
Context {cfg : BleConfig} {aes : BleAes} {hash : BleHash} {C : Type}.
Implicit Types w : world C.

Lemma ble_bind {A B} (m : M (C := C) A) (k : A -> M B) w a w1 : m w = Ret (a, w1) -> (m ≫= k) w = k a w1.
Proof. intros Hm. unfold mbind, M_bind. by rewrite Hm. Qed.

Lemma lift_some {A} (o : option A) a w : o = Some a -> lift (of_option o) w = Ret (a, w).
Proof. by intros ->. Qed.

(** Runs a step whose result is known. *)
Ltac run H := rewrite (ble_bind _ _ _ _ _ H).
Ltac field H := rewrite (ble_bind (lift (of_option _)) _ _ _ _ (lift_some _ _ _ H)).

Lemma splice_at pre old d post off : off = Z.of_nat (length pre) -> length old = length d -> splice (pre ++ old ++ post) off d = Some (pre ++ d ++ post).
Proof. intros -> Ho. by apply splice_app. Qed.
Lemma slice_at pre d post off n : off = Z.of_nat (length pre) -> n = Z.of_nat (length d) -> slice (pre ++ d ++ post) off n = Some d.
Proof. intros -> ->. apply heap_slice_app. Qed.

Lemma padding_spec n : let p := bytes_to_pad (Z.of_nat n) in 0 <= p < 16 /\ length (padding n) = Z.to_nat p /\
  exists k, (n + length (padding n) = 16 * k)%nat /\ Z.of_nat k = Z.of_nat n / 16 + (if p =? 0 then 0 else 1).
Proof.
  cbv zeta. unfold padding. rewrite length_replicate. set (p := bytes_to_pad (Z.of_nat n)). assert (Hp : p = (16 - Z.of_nat n mod 16) mod 16) by done.
  assert (Hr : 0 <= p < 16) by zsolve. split; [done|]. split; [done|]. exists (Z.to_nat (Z.of_nat n / 16 + (if p =? 0 then 0 else 1))). destruct (Z.eqb_spec p 0); split; zsolve.
Qed.

Lemma padding_bytes n : List.Forall is_u8 (padding n).
Proof. unfold padding. destruct (padding_spec n) as [Hp _]. apply Forall_replicate. widths. lia. Qed.

Lemma do_encrypt_spec w h0 h1 h2 c rest x : tx_buff (tx w) = [h0; h1; h2; Z.of_nat (length c)] ++ c ++ rest -> (0 < length c)%nat -> Z.of_nat (length c) + bytes_to_pad (Z.of_nat (length c)) <= QB_FRAME_SIZE_MAX ->
  (length (padding (length c)) <= length rest)%nat -> List.Forall is_u8 c -> p_aes_ctx w = Some x -> pad_len (tx w) = 0 ->
  exists rest', do_encrypt (Z.of_nat (length c)) w =
    Ret (tt, with_tx (set_pad_len (bytes_to_pad (Z.of_nat (length c))) (set_tx_buff ([h0; h1; h2; Z.of_nat (length (body (Some x) c))] ++ body (Some x) c ++ rest') (tx w))) w) /\
    (length c + length rest = length (body (Some x) c) + length rest')%nat.
Proof.
  intros Hb Hn Hmax Hr Hu Hx Hp. set (n := Z.of_nat (length c)) in *. destruct (padding_spec (length c)) as (Hpr & Hpl & k & Hk & Hkn). fold n in Hpr, Hpl, Hkn, Hmax |- *.
  set (p := bytes_to_pad n) in *. set (pd := padding (length c)) in *.
  assert (Hbody : length (body (Some x) c) = (length c + length pd)%nat /\ body (Some x) c = qm_ble_aes128_cbc_encrypt x (c ++ pd)).
  { split; [|done]. rewrite Hk. unfold body. fold pd. apply cbc_encrypt_length; [rewrite length_app; lia|]. apply Forall_app. split; [done|apply padding_bytes]. }
  destruct Hbody as [Hbl Hbe].
  exists (drop (length pd) rest). split; [|rewrite length_drop, Hbl; lia].
  unfold do_encrypt. fold p. unfold QB_FRAME_SIZE_MAX, QB_GATT_MTU_SIZE_MAX, QB_ATT_HDR_SIZE, QB_FRAME_HDR_SIZE in *. destruct (Z.gtb_spec n (247 - 3 - 4)); [lia|]. cbv zeta.
  set (hd := [h0; h1; h2; n]) in *. set (hd' := [h0; h1; h2; n + p]).
  assert (Hsplit : rest = take (length pd) rest ++ drop (length pd) rest) by (by rewrite take_drop).
  match goal with |- context [(?m ≫= _) w] => assert (Hm : m w = Ret (Z.of_nat k, with_tx (set_pad_len p (set_tx_buff (hd' ++ (c ++ pd) ++ drop (length pd) rest) (tx w))) w)) end.
  { destruct (Z.eqb_spec p 0) as [Hp0|Hp0]; cbn [negb].
    - assert (Hpd : pd = []) by (apply nil_length_inv; rewrite Hpl, Hp0; done). rewrite Hpd, app_nil_r. change (drop (length []) rest) with rest.
      assert (Hk4 : Z.shiftr n 4 = Z.of_nat k) by (rewrite Z.shiftr_div_pow2 by lia; change (2 ^ 4) with 16; lia). rewrite Hk4. unfold mret, M_ret. do 2 f_equal.
      unfold hd'. rewrite Hp0, Z.add_0_r. fold hd. rewrite <- Hb. destruct w as [t0 r0 i0 z0 k0 o0 x0 v0 a0 c0 l0 s0 p0]. destruct t0. simpl in *. subst. done.
    - rewrite (ble_bind get _ _ _ _ eq_refl), Hb. rewrite Hsplit at 1. assert (Hn3 : Z.of_nat (length (hd ++ c)) = HEADER_SIZE + n) by (rewrite length_app; unfold HEADER_SIZE; simpl length; lia).
      rewrite (app_assoc hd c).
      field (splice_at (hd ++ c) (take (length pd) rest) pd (drop (length pd) rest) (HEADER_SIZE + n) (eq_sym Hn3) ltac:(rewrite length_take; lia)). rewrite <- app_assoc.
      field (eq_refl : (hd ++ c ++ pd ++ drop (length pd) rest) !! 3%nat = Some n).
      field (splice_at [h0; h1; h2] [n] [u8 (n + p)] (c ++ pd ++ drop (length pd) rest) 3 eq_refl eq_refl).
      rewrite (ble_bind (upd_tx _) _ _ _ _ eq_refl), (ble_bind (upd_tx _) _ _ _ _ eq_refl).
      assert (Hk4 : u16 (Z.shiftr n 4 + 1) = Z.of_nat k) by (rewrite Z.shiftr_div_pow2 by lia; change (2 ^ 4) with 16; rewrite u16_id; [lia|zsolve]). rewrite Hk4, u8_id by (widths; lia).
      unfold mret, M_ret, hd'. rewrite <- !app_assoc. done. }
  run Hm. rewrite (ble_bind get _ _ _ _ eq_refl). cbn [tx with_tx p_aes_ctx set_pad_len set_tx_buff tx_buff].
  field (slice_at hd' (c ++ pd) (drop (length pd) rest) HEADER_SIZE (Z.shiftl (Z.of_nat k) 4) eq_refl ltac:(rewrite Z.shiftl_mul_pow2, length_app by lia; change (2 ^ 4) with 16; lia)).
  field Hx. rewrite <- Hbe.
  field (splice_at hd' (c ++ pd) (body (Some x) c) (drop (length pd) rest) HEADER_SIZE eq_refl ltac:(rewrite length_app; lia)).
  unfold hd'. replace (n + p) with (Z.of_nat (length (body (Some x) c))) by lia. done.
Qed.

(** The message that is being sent and what is left of it. *)
Definition sending (w : world C) (ctx : option aes_ctx) (rest : list Z) : Prop :=
  (exists sent, tx_data (tx w) = Some (sent ++ rest) /\ bytes_sent (tx w) = Z.of_nat (length sent) /\ tx_len (tx w) = Z.of_nat (length (sent ++ rest))) /\
  Z.of_nat (length (tx_buff (tx w))) = TX_BUFF_LEN /\ List.Forall is_u8 rest /\
  encrypted (tx w) = (match ctx with Some _ => 1 | None => 0 end) /\ (is_Some ctx -> p_aes_ctx w = ctx) /\
  0 <= tx_id (tx w) < 16 /\ 0 <= tx_total_frame (tx w) < 16 /\ tx_len (tx w) < 2 ^ 16.

(** What a packet holds at most. *)
Definition fits (ctx : option aes_ctx) (P : nat) : Prop :=
  let n := Z.of_nat P in
  match ctx with Some _ => (n + 1) mod 16 = 0 /\ n + 1 <= QB_FRAME_SIZE_MAX /\ n + 1 + HEADER_SIZE <= TX_BUFF_LEN | None => n <= 255 /\ n + HEADER_SIZE <= TX_BUFF_LEN end.

Lemma body_length ctx P c : fits ctx P -> (0 < length c <= P)%nat -> List.Forall is_u8 c ->
  Z.of_nat (length (body ctx c)) = Z.of_nat (length c) + (match ctx with Some _ => bytes_to_pad (Z.of_nat (length c)) | None => 0 end) /\
  Z.of_nat (length (body ctx c)) <= (match ctx with Some _ => QB_FRAME_SIZE_MAX | None => 255 end) /\ Z.of_nat (length (body ctx c)) + HEADER_SIZE <= TX_BUFF_LEN.
Proof.
  intros Hf Hc Hu. destruct ctx as [x|]; simpl in *; [|lia]. destruct (padding_spec (length c)) as (Hpr & Hpl & k & Hk & Hkn).
  assert (Hlen : length (qm_ble_aes128_cbc_encrypt x (c ++ padding (length c))) = (16 * k)%nat).
  { apply cbc_encrypt_length; [rewrite length_app; lia|]. apply Forall_app. split; [done|apply padding_bytes]. }
  rewrite Hlen. unfold QB_FRAME_SIZE_MAX, QB_GATT_MTU_SIZE_MAX, QB_ATT_HDR_SIZE, QB_FRAME_HDR_SIZE in *. split; [lia|]. enough (Z.of_nat (16 * k) <= Z.of_nat P + 1) by lia. destruct Hf as [Hm _]. zsolve.
Qed.


Lemma build_packet_spec w ctx P c rest : sending w ctx (c ++ rest) -> fits ctx P -> (0 < length c <= P)%nat -> 0 <= tx_frame_seq (tx w) < 16 ->
  exists b pad, build_packet (Z.of_nat (length c)) w = Ret (tt, with_tx (set_pad_len pad (set_tx_buff b (tx w))) w) /\ Z.of_nat (length b) = TX_BUFF_LEN /\
    slice b 0 (u16 (Z.of_nat (length c) + pad + HEADER_SIZE)) = Some (frame ctx (tx_id (tx w)) (tx_cmd (tx w)) (tx_total_frame (tx w)) (tx_frame_seq (tx w)) c).
Proof.
  intros ((sent & Hd & Hs & _) & Hb & Hu & He & Hx & Hid & Htot & _) Hf Hc Hseq. apply Forall_app in Hu as [Hu _]. destruct (body_length ctx P c Hf Hc Hu) as (Hbl & Hbmax & Hbt). assert (Hb255 : Z.of_nat (length (body ctx c)) <= 255) by (destruct ctx; [change QB_FRAME_SIZE_MAX with 240 in Hbmax|]; lia).
  assert (Hnb : Z.of_nat (length c) <= Z.of_nat (length (body ctx c))) by (destruct (padding_spec (length c)) as [? _]; destruct ctx; lia).
  set (n := Z.of_nat (length c)) in *. unfold build_packet. rewrite (ble_bind (upd_tx _) _ _ _ _ eq_refl), (ble_bind get _ _ _ _ eq_refl). set (t := set_pad_len 0 (tx w)). change (tx (with_tx t w)) with t. change (tx_buff t) with (tx_buff (tx w)).
  assert (exists hd old tail, tx_buff (tx w) = hd ++ old ++ tail /\ length hd = 4%nat /\ length old = length c) as (hd & old & tail & Hsplit & Hhd & Hold).
  { exists (take 4 (tx_buff (tx w))), (take (length c) (drop 4 (tx_buff (tx w)))), (drop (length c) (drop 4 (tx_buff (tx w)))). unfold HEADER_SIZE in Hbt.
    rewrite !take_drop. split; [done|]. rewrite !length_take, length_drop. split; [lia|]. lia. }
  assert (Hh : header t n = [(match ctx with Some _ => 16 | None => 0 end) + tx_id (tx w); tx_cmd (tx w); 16 * tx_total_frame (tx w) + tx_frame_seq (tx w); n]) by (apply (frame_header t n ctx); [done..|widths; lia]).
  rewrite Hh, Hsplit. set (h0 := (match ctx with Some _ => 16 | None => 0 end) + tx_id (tx w)). set (h2 := 16 * tx_total_frame (tx w) + tx_frame_seq (tx w)).
  field (splice_at [] hd [h0; tx_cmd (tx w); h2; n] (old ++ tail) 0 eq_refl Hhd). rewrite (ble_bind (upd_tx _) _ _ _ _ eq_refl), (proj2 (Z.eqb_neq n 0)) by lia. cbn [negb].
  rewrite (ble_bind get _ _ _ _ eq_refl). match goal with |- context [tx_data (tx ?v)] => set (w2 := v) end.
  change (tx_data (tx w2)) with (tx_data (tx w)). change (bytes_sent (tx w2)) with (bytes_sent (tx w)). change (encrypted (tx w2)) with (encrypted (tx w)). change (tx_buff (tx w2)) with ([h0; tx_cmd (tx w); h2; n] ++ old ++ tail).
  field Hd. field (slice_at sent c rest (bytes_sent (tx w)) n Hs eq_refl).
  field (splice_at [h0; tx_cmd (tx w); h2; n] old c tail HEADER_SIZE eq_refl Hold). rewrite (ble_bind (upd_tx _) _ _ _ _ eq_refl), He.
  set (w3 := with_tx (set_tx_buff ([h0; tx_cmd (tx w); h2; n] ++ c ++ tail) (tx w2)) w2). change HEADER_SIZE with 4 in Hbt. assert (Hlen : 4 + n + Z.of_nat (length tail) = TX_BUFF_LEN) by (rewrite <- Hb, Hsplit, !length_app, Hhd, Hold; lia). destruct ctx as [x|].
  - destruct (do_encrypt_spec w3 h0 (tx_cmd (tx w)) h2 c tail x) as (rest' & Hen & Hle); [done|lia| | |done|by apply Hx|done|].
    + fold n. lia.
    + destruct (padding_spec (length c)) as (_ & -> & _). fold n. lia.
    + cbn [negb Z.eqb]. fold n in Hen. exists ([h0; tx_cmd (tx w); h2; Z.of_nat (length (body (Some x) c))] ++ body (Some x) c ++ rest'), (bytes_to_pad n). split; [rewrite Hen; done|]. split; [rewrite !length_app; change (length [_; _; _; _]) with 4%nat; lia|].
      replace (u16 (n + bytes_to_pad n + HEADER_SIZE)) with (Z.of_nat (length (frame (Some x) (tx_id (tx w)) (tx_cmd (tx w)) (tx_total_frame (tx w)) (tx_frame_seq (tx w)) c))); [|rewrite u16_id by (widths; unfold HEADER_SIZE; lia); unfold frame; rewrite length_app; change (length [_; _; _; _]) with 4%nat; unfold HEADER_SIZE; cbn [body] in *; lia].
      apply (slice_at [] (frame (Some x) (tx_id (tx w)) (tx_cmd (tx w)) (tx_total_frame (tx w)) (tx_frame_seq (tx w)) c) rest'); done.
  - cbn [negb Z.eqb]. exists ([h0; tx_cmd (tx w); h2; n] ++ c ++ tail), 0. split; [done|]. split; [rewrite !length_app; change (length [_; _; _; _]) with 4%nat; lia|].
      replace (u16 (n + 0 + HEADER_SIZE)) with (Z.of_nat (length (frame None (tx_id (tx w)) (tx_cmd (tx w)) (tx_total_frame (tx w)) (tx_frame_seq (tx w)) c))); [|rewrite u16_id by (widths; unfold HEADER_SIZE; lia); unfold frame; rewrite length_app; change (length [_; _; _; _]) with 4%nat; unfold HEADER_SIZE; cbn [body] in *; lia].
      apply (slice_at [] (frame None (tx_id (tx w)) (tx_cmd (tx w)) (tx_total_frame (tx w)) (tx_frame_seq (tx w)) c) tail); done.
Qed.

(** The payload of a frame for packets of [m] bytes. *)
Definition room (enc : bool) (m : Z) : nat := Z.to_nat (if enc then 16 * ((m - 4) / 16) - 1 else m - 4).

Lemma block_floor n : 0 <= n -> Z.land n (Z.lnot (AES_BLK_SIZE - 1)) = 16 * (n / 16).
Proof.
  intros Hn. change (AES_BLK_SIZE - 1) with (Z.ones 4). rewrite <- Z.ldiff_land, Z.ldiff_ones_r, Z.shiftl_mul_pow2, Z.shiftr_div_pow2 by lia. change (2 ^ 4) with 16. lia.
Qed.

Lemma tx_buff_len_range : 20 <= TX_BUFF_LEN <= 244.
Proof. unfold TX_BUFF_LEN, QB_MAX_SUPPORTED_MTU. destruct BLE_4_2; lia. Qed.

Lemma room_payload enc (w : world C) : 20 <= max_pkt_size w <= TX_BUFF_LEN -> (encrypted (tx w) =? 0) = negb enc ->
  payload_max w = Z.of_nat (room enc (max_pkt_size w)) /\ (enc && EN_LONG_MTU = false -> pkt_payload_len enc w = Z.of_nat (room enc (max_pkt_size w))) /\ (0 < room enc (max_pkt_size w))%nat.
Proof.
  intros Hm He. pose proof tx_buff_len_range as Hr. unfold payload_max, pkt_payload_len, room. rewrite He, negb_involutive. change HEADER_SIZE with 4. rewrite (u16_id (max_pkt_size w - 4)) by (widths; lia).
  destruct enc; cbn [andb].
  - rewrite block_floor, (u16_id (16 * _)), u16_id by zsolve. split; [zsolve|]. split; [intros Hl; rewrite Hl; cbn [negb]; zsolve|zsolve].
  - split; [lia|]. split; [lia|lia].
Qed.

Lemma room_fits ctx (w : world C) : 20 <= max_pkt_size w <= TX_BUFF_LEN -> fits ctx (room (is_Some_b ctx) (max_pkt_size w)).
Proof.
  intros Hm. pose proof tx_buff_len_range as Hr. unfold fits, room. destruct ctx; cbn [is_Some_b]; change QB_FRAME_SIZE_MAX with 240; change HEADER_SIZE with 4; zsolve.
Qed.

(** The cipher of a message: none for the handshake and before there is a key. *)
Definition cipher_of (w : world C) (cmd : Z) : option aes_ctx := if is_Some_b (p_key w) && negb (cmd =? QM_BLE_CMD_AUTH) then p_aes_ctx w else None.

Lemma max_payload_range : QB_MAX_PAYLOAD_SIZE < 2 ^ 16.
Proof. unfold QB_MAX_PAYLOAD_SIZE. pose proof frame_number_range. change QB_FRAME_SIZE_MAX with 240. change QB_FRAME_SIZE_DEFAULT with 16. destruct EN_LONG_MTU; lia. Qed.


Context (accepts : nat -> bool) (event_handler : qm_ble_event_info_t -> world C -> outcome (world C)).

Definition op_of (ind : bool) (p : list Z) : air_op := if ind then Indication p else Notification p.

(** The peer is connected and has subscribed. *)
Definition can_send (ind : bool) (s : qm_ble_service_t) : Prop :=
  conn_handle s <> BLE_CONN_HANDLE_INVALID /\ (if ind then is_indication_enabled s else is_notification_enabled s) = true /\ TX_BUFF_LEN <= svc_max_pkt_size s.

Lemma active_func_spec w p : can_send (active_indication (tx w)) (svc w) -> Z.of_nat (length p) <= TX_BUFF_LEN -> accepts (stack_calls w) = true ->
  active_func accepts p w = Ret (QB_SUCCESS, with_air (air w ++ [op_of (active_indication (tx w)) p]) (S (stack_calls w)) w).
Proof.
  intros (Hc & Hs & Hm) Hp Ha. unfold active_func. rewrite (ble_bind get _ _ _ _ eq_refl). unfold qm_ble_service_send_indication, qm_ble_service_send_notification, hand_over, op_of.
  destruct (active_indication (tx w)); rewrite (ble_bind get _ _ _ _ eq_refl), (proj2 (Z.eqb_neq _ _) Hc), Hs; cbn [negb orb]; destruct (Z.gtb_spec (Z.of_nat (length p)) (svc_max_pkt_size (svc w))); try lia; by rewrite Ha.
Qed.

Lemma link_frame_length ctx id cmd total k c : length (frame ctx id cmd total k c) = (4 + length (body ctx c))%nat.
Proof. unfold frame. by rewrite length_app. Qed.

(** The state after a packet. *)
Definition after_packet (w : world C) (b : list Z) (pad n : Z) (p : list Z) : world C :=
  with_air (air w ++ [op_of (active_indication (tx w)) p]) (S (stack_calls w)) (with_tx (advance_tx n (set_pad_len pad (set_tx_buff b (tx w)))) w).

Lemma sending_advance w ctx c rest b pad p : sending w ctx (c ++ rest) -> Z.of_nat (length b) = TX_BUFF_LEN -> sending (after_packet w b pad (Z.of_nat (length c)) p) ctx rest.
Proof.
  intros ((sent & Hd & Hs & Hl) & Hb & Hu & He & Hx & Hid & Htot & Hl16) Hb'. apply Forall_app in Hu as [_ Hu].
  split; [|split; [done|split; [done|split; [done|split; [done|split; [done|done]]]]]]. exists (sent ++ c). cbn [after_packet with_air with_tx tx advance_tx set_pad_len set_tx_buff tx_data bytes_sent tx_len].
  rewrite <- app_assoc. split; [done|]. split; [|done]. rewrite Hs, u16_id; [rewrite length_app; lia|]. rewrite !length_app in Hl. widths. lia.
Qed.

Lemma left_spec w ctx rest : sending w ctx rest -> tx_bytes_left w = Z.of_nat (length rest).
Proof. intros ((sent & _ & Hs & Hl) & _ & _ & _ & _ & _ & _ & Hl16). unfold tx_bytes_left. rewrite Hs, Hl. rewrite length_app in *. rewrite u16_id; [lia|]. widths. lia. Qed.

Lemma send_step fuel w ctx P c rest pkt : sending w ctx (c ++ rest) -> fits ctx P -> (0 < length c <= P)%nat -> rest = [] \/ length c = P ->
  can_send (active_indication (tx w)) (svc w) -> accepts (stack_calls w) = true -> 0 <= tx_frame_seq (tx w) < 16 ->
  exists b pad, Z.of_nat (length b) = TX_BUFF_LEN /\
    let p := frame ctx (tx_id (tx w)) (tx_cmd (tx w)) (tx_total_frame (tx w)) (tx_frame_seq (tx w)) c in
    let w' := after_packet w b pad (Z.of_nat (length c)) p in
    send_loop accepts (S fuel) (Z.of_nat P) (Z.of_nat (length (c ++ rest))) pkt w =
    (if active_indication (tx w) || bool_decide (rest = []) then mret (QB_SUCCESS, u16 (pkt + 1)) else send_loop accepts fuel (Z.of_nat P) (Z.of_nat (length rest)) (u16 (pkt + 1))) w'.
Proof.
  intros Hse Hf Hc Hcr Hcan Hacc Hseq. destruct (build_packet_spec w ctx P c rest Hse Hf Hc Hseq) as (b & pad & Hbp & Hbl & Hsl). exists b, pad. split; [done|]. cbv zeta.
  set (p := frame _ _ _ _ _ c) in *. cbn [send_loop].
  assert (Hn : (if Z.of_nat (length (c ++ rest)) <? Z.of_nat P then Z.of_nat (length (c ++ rest)) else Z.of_nat P) = Z.of_nat (length c)).
  { rewrite length_app. destruct Hcr as [-> | ->]; simpl; [|destruct (Z.ltb_spec (Z.of_nat (P + length rest)) (Z.of_nat P)); lia]. destruct (Z.ltb_spec (Z.of_nat (length c + 0)) (Z.of_nat P)); lia. }
  rewrite Hn. run Hbp. rewrite (ble_bind get _ _ _ _ eq_refl). set (w1 := with_tx _ w). change (pad_len (tx w1)) with pad. change (tx_buff (tx w1)) with b. field Hsl.
  assert (Hpl : Z.of_nat (length p) <= TX_BUFF_LEN). { destruct Hse as (_ & _ & Hu & _). apply Forall_app in Hu as [Hu _]. destruct (body_length ctx P c Hf Hc Hu) as (_ & _ & Hbt). unfold p. rewrite link_frame_length. unfold HEADER_SIZE in Hbt. lia. }
  run (active_func_spec w1 p Hcan Hpl Hacc). change (QB_SUCCESS =? QB_SUCCESS) with true. cbv iota. rewrite (ble_bind (upd_tx _) _ _ _ _ eq_refl), (ble_bind get _ _ _ _ eq_refl).
  match goal with |- context [tx_bytes_left ?v] => set (w2 := v) end. change w2 with (after_packet w b pad (Z.of_nat (length c)) p) in *.
  rewrite (left_spec _ ctx rest) by (by apply sending_advance).
  change (active_indication (tx (after_packet w b pad (Z.of_nat (length c)) p))) with (active_indication (tx w)).
  replace (negb (Z.of_nat (length rest) >? 0)) with (bool_decide (rest = [])); [done|]. destruct rest; [done|]. cbn [length]. symmetry. rewrite bool_decide_false by done. destruct (Z.gtb_spec (Z.of_nat (S (length rest))) 0); [done|lia].
Qed.

(** What a message leaves in the sender. *)
Definition all_sent (t t' : tx_t) (k : nat) : Prop :=
  bytes_sent t' = tx_len t' /\ tx_len t' = tx_len t /\ pkt_req t' = pkt_req t + Z.of_nat k /\ pkt_cfm t' = pkt_cfm t /\ tx_cmd t' = tx_cmd t /\
  active_indication t' = active_indication t /\ Z.of_nat (length (tx_buff t')) = TX_BUFF_LEN.

Definition accepted (w : world C) (k : nat) : Prop := forall i, (stack_calls w <= i < stack_calls w + k)%nat -> accepts i = true.

Lemma sending_done w ctx : sending w ctx [] -> bytes_sent (tx w) = tx_len (tx w).
Proof. intros ((sent & _ & Hs & Hl) & _). by rewrite Hs, Hl, app_nil_r. Qed.

Lemma send_loop_notify ctx P cs : forall fuel w pkt, sending w ctx (mjoin cs) -> well_cut P cs -> fits ctx P -> active_indication (tx w) = false -> can_send false (svc w) -> accepted w (length cs) ->
  0 <= tx_frame_seq (tx w) /\ tx_frame_seq (tx w) + Z.of_nat (length cs) <= 16 -> (length cs <= fuel)%nat -> 0 <= pkt -> pkt + Z.of_nat (length cs) < 2 ^ 16 -> 0 <= pkt_req (tx w) -> pkt_req (tx w) + Z.of_nat (length cs) < 2 ^ 16 ->
  exists t', send_loop accepts fuel (Z.of_nat P) (Z.of_nat (length (mjoin cs))) pkt w =
      Ret ((QB_SUCCESS, pkt + Z.of_nat (length cs)), with_air (air w ++ (Notification <$> frames ctx (tx_id (tx w)) (tx_cmd (tx w)) (tx_total_frame (tx w)) (tx_frame_seq (tx w)) cs)) (stack_calls w + length cs) (with_tx t' w)) /\
    all_sent (tx w) t' (length cs).
Proof.
  induction cs as [|c cs IH]; intros fuel w pkt Hse Hw Hf Ha Hcan Hacc Hseq Hfu Hp0 Hp Hr0 Hr; [done|]. destruct fuel as [|fuel]; [simpl in Hfu; lia|]. cbn [length] in *.
  change (mjoin (c :: cs)) with (c ++ mjoin cs) in *.
  assert (Hcc : (0 < length c <= P)%nat /\ (mjoin cs = [] \/ length c = P) /\ (cs = [] \/ well_cut P cs)).
  { destruct cs as [|c' cs]; [split; [done|split; by left]|]. apply well_cut_cons in Hw as [Hw1 Hw2]. split; [|split; by right]. pose proof (well_cut_bounds P (c' :: cs) Hw2) as Hbd. destruct P; [rewrite !Nat.mul_0_r in Hbd; lia|lia]. }
  destruct Hcc as (Hc & Hcr & Hcs). rewrite <- Ha in Hcan.
  destruct (send_step fuel w ctx P c (mjoin cs) pkt Hse Hf Hc Hcr Hcan) as (b & pad & Hb & Hst); [apply Hacc; lia|lia|]. cbv zeta in Hst. rewrite Hst. clear Hst.
  set (p := frame _ _ _ _ _ c). set (w' := after_packet w b pad (Z.of_nat (length c)) p). assert (Hse' : sending w' ctx (mjoin cs)) by (by apply sending_advance). rewrite Ha. cbn [orb].
  assert (Hsq : tx_frame_seq (tx w') = tx_frame_seq (tx w) + 1) by (change (tx_frame_seq (tx w')) with (u8 (tx_frame_seq (tx w) + 1)); rewrite u8_id; [done|widths; lia]).
  assert (Hrq : pkt_req (tx w') = pkt_req (tx w) + 1) by (change (pkt_req (tx w')) with (u16 (pkt_req (tx w) + 1)); rewrite u16_id; [done|widths; lia]).
  assert (Hair : air w' = air w ++ [Notification p]) by (unfold w', after_packet, op_of; cbn [air with_air]; by rewrite Ha).
  rewrite u16_id by (widths; lia). destruct Hcs as [-> | Hwc].
  - rewrite bool_decide_true by done. exists (tx w'). split; [unfold mret, M_ret; do 2 f_equal; unfold w', after_packet; cbn [frames fmap list_fmap]; rewrite Ha, Nat.add_1_r; done|].
    split; [by apply (sending_done w' ctx)|]. split; [done|]. split; [rewrite Hrq; simpl; lia|]. done.
  - rewrite bool_decide_false by (intros Hn; pose proof (well_cut_bounds P cs Hwc) as Hbd; rewrite Hn in Hbd; by apply proj1, Nat.nlt_0_r in Hbd).
    destruct (IH fuel w' (pkt + 1)) as (t' & Hlp & H1 & H2 & H3 & H4 & H5 & H6 & H7); [done|done|done|exact Ha|by rewrite Ha in Hcan|intros i Hi; apply Hacc; change (stack_calls w') with (S (stack_calls w)) in Hi; lia|rewrite Hsq; lia|lia|lia|lia|rewrite Hrq; lia|rewrite Hrq; lia|].
    exists t'. split; [|split_and!; try done; by rewrite H3, Hrq; lia]. rewrite Hlp, Hsq, Hair. change (tx_id (tx w')) with (tx_id (tx w)). change (tx_cmd (tx w')) with (tx_cmd (tx w)). change (tx_total_frame (tx w')) with (tx_total_frame (tx w)).
    replace (pkt + 1 + Z.of_nat (length cs)) with (pkt + Z.of_nat (S (length cs))) by lia. do 2 f_equal. unfold w', after_packet. change (stack_calls (with_air _ _ _)) with (S (stack_calls w)). rewrite <- app_assoc, Nat.add_succ_comm. done.
Qed.

(** Everything but the sender and the air is unchanged. *)
Definition same_rest (w w' : world C) : Prop :=
  rx w' = rx w /\ tx_msg_id w' = tx_msg_id w /\ max_pkt_size w' = max_pkt_size w /\ p_key w' = p_key w /\ timeout w' = timeout w /\ p_aes_ctx w' = p_aes_ctx w /\
  svc w' = svc w /\ auth w' = auth w /\ core w' = core w /\ app w' = app w.

(** The sender has nothing to do. *)
Definition tx_idle (t : tx_t) : Prop := bytes_sent t = tx_len t /\ pkt_req t = pkt_cfm t /\ Z.of_nat (length (tx_buff t)) = TX_BUFF_LEN.

Lemma fragment_notify fuel w ctx P cs : sending w ctx (mjoin cs) -> payload_max w = Z.of_nat P -> well_cut P cs -> fits ctx P -> active_indication (tx w) = false -> can_send false (svc w) ->
  accepted w (length cs) -> (length cs <= 16)%nat -> tx_frame_seq (tx w) = 0 -> pkt_req (tx w) = 0 -> pkt_cfm (tx w) = 0 -> is_valid_tx_command (tx_cmd (tx w)) = true ->
  exists w', send_fragment accepts event_handler (S fuel) w = (qm_ble_core_event_notify event_handler QB_EVENT_TX_DONE;; mret QB_SUCCESS) w' /\
    air w' = air w ++ (Notification <$> frames ctx (tx_id (tx w)) (tx_cmd (tx w)) (tx_total_frame (tx w)) 0 cs) /\ tx_idle (tx w') /\ same_rest w w'.
Proof.
  intros Hse HP Hw Hf Ha Hcan Hacc Hk Hs0 Hr0 Hc0 Hv.
  assert (Hlen : (length cs <= S (length (mjoin cs)))%nat) by (pose proof (well_cut_bounds P cs Hw); destruct P; [rewrite !Nat.mul_0_r in *; lia|nia]). assert (Hpos : (0 < length cs)%nat) by (destruct cs; [done|simpl; lia]).
  destruct (send_loop_notify ctx P cs (S (length (mjoin cs))) w 0 Hse Hw Hf Ha Hcan Hacc) as (t' & Hlp & H1 & H2 & H3 & H4 & H5 & H6 & H7); [lia..|]. rewrite Hs0 in Hlp.
  rewrite Z.add_0_l in Hlp. cbn [send_fragment]. rewrite (ble_bind get _ _ _ _ eq_refl), (left_spec w ctx _ Hse), HP, Nat2Z.id. run Hlp. rewrite (ble_bind get _ _ _ _ eq_refl).
  set (w1 := with_air _ _ (with_tx t' w)). change (timeout w1) with (timeout w). change (tx w1) with t'. rewrite H6, Ha. cbn [negb].
  set (tm := negb (timeout w =? 0)). set (t2 := if tm then set_tx_timer true t' else t').
  rewrite (ble_bind (if tm then _ else _) _ w1 tt (with_tx t2 w1)) by (unfold t2, w1; destruct tm; destruct w; done).
  set (t3 := set_cfm (Z.of_nat (length cs)) t2). set (t4 := if tm then set_tx_timer false (clear_tx t3) else clear_tx t3).
  assert (Htd : txdone event_handler (send_fragment accepts event_handler fuel) (Z.of_nat (length cs)) (with_tx t2 w1) = qm_ble_core_event_notify event_handler QB_EVENT_TX_DONE (with_tx t4 w1)).
  { unfold txdone. rewrite (ble_bind get _ _ _ _ eq_refl), (ble_bind (upd_tx _) _ _ _ _ eq_refl), (ble_bind get _ _ _ _ eq_refl). change (tx (with_tx t2 w1)) with t2.
    assert (Ht2 : pkt_cfm t2 = 0 /\ pkt_req t2 = Z.of_nat (length cs) /\ tx_cmd t2 = tx_cmd (tx w) /\ bytes_sent t2 = tx_len t2) by (unfold t2; destruct tm; cbn [set_tx_timer pkt_cfm pkt_req tx_cmd bytes_sent tx_len]; rewrite H3, H4, H5, Hr0, Hc0; split_and!; lia || done).
    destruct Ht2 as (E1 & E2 & E3 & E4). rewrite E1, Z.add_0_l, u16_id by (widths; lia). change (with_tx _ (with_tx t2 w1)) with (with_tx t3 w1).
    unfold tx_bytes_left. change (tx (with_tx t3 w1)) with t3. change (bytes_sent t3) with (bytes_sent t2). change (tx_len t3) with (tx_len t2). change (pkt_cfm t3) with (Z.of_nat (length cs)). change (pkt_req t3) with (pkt_req t2). change (tx_cmd t3) with (tx_cmd t2).
    rewrite E4, Z.sub_diag, E2, E3, Hv, (Z.eqb_refl (Z.of_nat (length cs))), (proj2 (Z.eqb_neq (Z.of_nat (length cs)) 0)) by lia. cbn [negb andb]. change (u16 0 =? 0) with true. cbn [negb].
    rewrite (ble_bind reset_tx _ _ tt (with_tx t4 w1)); [done|]. unfold reset_tx. rewrite (ble_bind (upd_tx _) _ _ _ _ eq_refl), (ble_bind get _ _ _ _ eq_refl). change (timeout (with_tx _ _)) with (timeout w). fold tm. unfold t4. by destruct tm. }
  exists (with_tx t4 w1). split; [|split; [done|split; [|done]]].
  - unfold mbind, M_bind. rewrite Htd. destruct (qm_ble_core_event_notify event_handler QB_EVENT_TX_DONE (with_tx t4 w1)) as [[[] w'']| |]; done.
  - unfold tx_idle, t4, t3, t2. destruct tm; done.
Qed.

(** What is needed to send [d]: an idle sender, a cipher if there is a key, packets that fit the buffer, and at
    most 16 frames.  Encrypted messages are left out when long packets are configured. *)
Record can_transmit (w : world C) (cmd : Z) (d : list Z) : Prop := {
  ct_idle : tx_idle (tx w);
  ct_key : is_Some (p_key w) -> cmd <> QM_BLE_CMD_AUTH -> is_Some (p_aes_ctx w) /\ EN_LONG_MTU = false;
  ct_size : 20 <= max_pkt_size w <= TX_BUFF_LEN;
  ct_cmd : is_valid_tx_command cmd = true;
  ct_data : List.Forall is_u8 d /\ d <> [] /\ Z.of_nat (length d) <= QB_MAX_PAYLOAD_SIZE;
  ct_frames : (length d <= 16 * room (is_Some_b (cipher_of w cmd)) (max_pkt_size w))%nat
}.

Lemma cipher_flag w cmd d : can_transmit w cmd d -> is_Some_b (cipher_of w cmd) = is_Some_b (p_key w) && negb (cmd =? QM_BLE_CMD_AUTH) /\ (is_Some_b (cipher_of w cmd) && EN_LONG_MTU = false) /\ (is_Some (cipher_of w cmd) -> p_aes_ctx w = cipher_of w cmd).
Proof.
  intros [_ Hk _ _ _ _]. unfold cipher_of. assert (Hnone : false = false /\ false && EN_LONG_MTU = false /\ (is_Some (@None aes_ctx) -> p_aes_ctx w = None)) by (split_and!; [done|done|by intros [? ?]]).
  destruct (p_key w) as [k|]; [|exact Hnone]. cbn [is_Some_b andb]. destruct (Z.eqb_spec cmd QM_BLE_CMD_AUTH); [exact Hnone|]. cbn [negb].
  destruct Hk as [[x Hx] Hl]; [by eexists|done|]. by rewrite Hx, Hl.
Qed.

(** A message is prepared and handed to [send_fragment]. *)
Lemma tx_prepare fuel w ty id cmd d P cs : can_transmit w cmd d -> 0 < id < 16 -> P = room (is_Some_b (cipher_of w cmd)) (max_pkt_size w) -> well_cut P cs -> mjoin cs = d ->
  exists w1, qm_ble_transport_tx accepts event_handler fuel ty id cmd (Some d) (Z.of_nat (length d)) w = (_ ← send_fragment accepts event_handler fuel; mret (QB_SUCCESS, id)) w1 /\
    sending w1 (cipher_of w cmd) d /\ payload_max w1 = Z.of_nat P /\ active_indication (tx w1) = negb (ty =? QB_TX_NOTIFICATION) /\ tx_frame_seq (tx w1) = 0 /\ pkt_req (tx w1) = 0 /\ pkt_cfm (tx w1) = 0 /\
    tx_id (tx w1) = id /\ tx_cmd (tx w1) = cmd /\ tx_total_frame (tx w1) = Z.of_nat (length cs) - 1 /\ air w1 = air w /\ stack_calls w1 = stack_calls w /\ same_rest w w1.
Proof.
  intros Hct Hid HP Hw Hj. destruct (cipher_flag _ _ _ Hct) as (Hfl & Hlong & Hctx). pose proof Hct as [(Hb1 & Hb2 & Hb3) _ Hm _ (Hu & Hne & Hmax) H16].
  set (ctx := cipher_of w cmd) in *. set (enc := is_Some_b (p_key w) && negb (cmd =? QM_BLE_CMD_AUTH)) in *.
  unfold qm_ble_transport_tx. cbn [is_Some_b negb andb]. destruct (Z.gtb_spec (Z.of_nat (length d)) QB_MAX_PAYLOAD_SIZE) as [|_]; [lia|]. rewrite (ble_bind get _ _ _ _ eq_refl). fold enc.
  rewrite (ble_bind (upd_tx _) _ _ _ _ eq_refl), (ble_bind get _ _ _ _ eq_refl). set (wa := with_tx (set_encrypted (if enc then 1 else 0) (tx w)) w).
  change (tx_bytes_left wa) with (u16 (tx_len (tx w) - bytes_sent (tx w))). rewrite Hb1, Z.sub_diag. change (pkt_req (tx wa)) with (pkt_req (tx w)). change (pkt_cfm (tx wa)) with (pkt_cfm (tx w)). rewrite Hb2, (Z.eqb_refl (pkt_cfm (tx w))).
  change (u16 0 =? 0) with true. cbn [negb orb]. rewrite (ble_bind (upd_tx _) _ _ _ _ eq_refl). rewrite (proj2 (Z.eqb_neq id 0)), andb_false_r by lia.
  rewrite (ble_bind (mret id) _ _ _ _ eq_refl), (ble_bind (upd_tx _) _ _ _ _ eq_refl). cbn [is_Some_b andb]. rewrite (proj2 (Z.eqb_neq (Z.of_nat (length d)) 0)) by (destruct d; [done|simpl; lia]). cbn [negb].
  destruct (room_payload enc wa Hm ltac:(by destruct enc)) as (Hpm & Hpl & HP0). change (max_pkt_size wa) with (max_pkt_size w) in Hpm, Hpl, HP0. rewrite Hfl in *. rewrite <- HP in *. specialize (Hpl Hlong). change (pkt_payload_len enc wa) with (pkt_payload_len enc w) in Hpl. rewrite Hpl.
  destruct (well_cut_total P cs HP0 Hw) as [Htot Hn0]. rewrite Hj in Htot, Hn0. cbv zeta in Htot. set (n := Z.of_nat (length d)) in *. set (q := n / Z.of_nat P) in *.
  pose proof (well_cut_bounds P cs Hw) as Hbd. rewrite Hj in Hbd. assert (Hk : (0 < length cs <= 16)%nat) by (split; [destruct cs; [done|simpl; lia]|destruct P; nia]).
  assert (Hq : 0 <= q <= 16) by (split; [apply Z.div_pos; lia|apply Z.div_le_upper_bound; lia]).
  rewrite (proj2 (Z.eqb_neq (Z.of_nat P) 0)) by lia. set (w2 := with_tx (set_tx_id _ _) _). set (total := if q * Z.of_nat P =? n then q - 1 else q) in *.
  rewrite (ble_bind _ _ w2 tt (with_tx (set_tx_total total (tx w2)) w2)); [|field (eq_refl : Some q = Some q); rewrite (u8_id q) by (widths; lia); unfold upd_tx, total; destruct (q * Z.of_nat P =? n); [rewrite u8_id by (widths; lia)|]; done].

  rewrite (ble_bind (upd_tx _) _ _ _ _ eq_refl). match goal with |- exists _, (_ ≫= _) ?v = _ /\ _ => exists v end. split; [done|].
  assert (Hl16 : n < 2 ^ 16) by (pose proof max_payload_range; lia).
  split; [split; [exists []; done|split; [done|split; [done|split; [change (encrypted _) with (if enc then 1 else 0); rewrite <- Hfl; by destruct ctx|]]]]|].
  - split; [done|]. split; [cbn; lia|]. split; [change (tx_total_frame _) with total; lia|done].
  - split; [exact Hpm|]. split_and!; done.
Qed.

(** What a notification puts on the air. *)
Lemma notification_sent fuel w id cmd d : can_transmit w cmd d -> 0 < id < 16 -> can_send false (svc w) -> accepted w 16 ->
  exists cs w', well_cut (room (is_Some_b (cipher_of w cmd)) (max_pkt_size w)) cs /\ mjoin cs = d /\ (length cs <= 16)%nat /\
    qm_ble_transport_tx accepts event_handler (S fuel) QB_TX_NOTIFICATION id cmd (Some d) (Z.of_nat (length d)) w = (qm_ble_core_event_notify event_handler QB_EVENT_TX_DONE;; mret (QB_SUCCESS, id)) w' /\
    air w' = air w ++ (Notification <$> frames (cipher_of w cmd) id cmd (Z.of_nat (length cs) - 1) 0 cs) /\ tx_idle (tx w') /\ same_rest w w'.
Proof.
  intros Hct Hid Hcan Hacc. pose proof Hct as [_ _ Hm Hv (_ & Hne & _) H16]. destruct (room_payload (is_Some_b (cipher_of w cmd)) (with_tx (set_encrypted (if is_Some_b (cipher_of w cmd) then 1 else 0) (tx w)) w) Hm ltac:(by destruct (is_Some_b _))) as (_ & _ & HP0).
  set (P := room (is_Some_b (cipher_of w cmd)) (max_pkt_size w)) in *. destruct (well_cut_exists P d HP0 Hne) as (cs & Hw & Hj). pose proof (well_cut_bounds P cs Hw) as Hbd. rewrite Hj in Hbd.
  assert (Hk : (length cs <= 16)%nat) by (change (0 < P)%nat in HP0; nia).
  destruct (tx_prepare (S fuel) w QB_TX_NOTIFICATION id cmd d P cs Hct Hid eq_refl Hw Hj) as (w1 & Htx & Hse & Hpm & Hai & Hs0 & Hr0 & Hc0 & Hi & Hc & Ht & Hair & Hsc & Hsame).
  rewrite <- Hj in Hse. destruct (fragment_notify fuel w1 _ P cs Hse Hpm Hw) as (w' & Hsf & Hair' & Hidle & Hsame'); [by apply room_fits|done|by destruct Hsame as (_ & _ & _ & _ & _ & _ & -> & _)|intros i Hin; apply Hacc; lia|done|done|done|done|by rewrite Hc|].
  exists cs, w'. split; [done|]. split; [done|]. split; [done|]. split; [|split; [by rewrite Hair', Hair, Hi, Hc, Ht|split; [done|]]].
  - rewrite Htx. unfold mbind, M_bind. rewrite Hsf. unfold mbind, M_bind. by destruct (qm_ble_core_event_notify event_handler QB_EVENT_TX_DONE w') as [[[] w'']| |].
  - destruct Hsame as (? & ? & ? & ? & ? & ? & ? & ? & ? & ?), Hsame' as (? & ? & ? & ? & ? & ? & ? & ? & ? & ?). split_and!; congruence.
Qed.
End sending.

(** ** Receiving *)

Section receiving.
Context {cfg : BleConfig} {aes : BleAes} {hash : BleHash} {C : Type}.
Implicit Types r : world C.

Ltac run H := rewrite (ble_bind _ _ _ _ _ H).
Ltac field H := rewrite (ble_bind (lift (of_option _)) _ _ _ _ (lift_some _ _ _ H)).
Lemma byte_step {A} p k z (K : Z -> M (C := C) A) r : p !! k = Some z -> (byte p k ≫= K) r = K z r.
Proof. intros Hp. apply ble_bind, lift_some, Hp. Qed.
Ltac rbyte H := rewrite (byte_step _ _ _ _ _ H).

Lemma do_decrypt_spec x c : (0 < length c)%nat -> Z.of_nat (length c) mod 16 <> 0 -> Z.of_nat (length (body (Some x) c)) <= QB_FRAME_SIZE_MAX -> List.Forall is_u8 c ->
  do_decrypt (Some x) (body (Some x) c) = Some c.
Proof.
  intros Hc Hm Hl Hu. destruct (padding_spec (length c)) as (Hp & Hpl & k & Hk & Hkn). assert (Hp0 : bytes_to_pad (Z.of_nat (length c)) <> 0) by (unfold bytes_to_pad, AES_BLK_SIZE; zsolve).
  assert (Hcu : List.Forall is_u8 (c ++ padding (length c))) by (apply Forall_app; split; [done|apply padding_bytes]). assert (Hcl : length (c ++ padding (length c)) = (16 * k)%nat) by (rewrite length_app; lia).
  destruct (cbc_encrypt_length x k _ Hcl Hcu) as [Hbl Hbu]. unfold do_decrypt. cbn [body] in *. rewrite Hbl in *. destruct (Z.gtb_spec (Z.of_nat (16 * k)) QB_FRAME_SIZE_MAX) as [|_]; [lia|].
  assert (Htk : Z.to_nat (Z.shiftl (Z.shiftr (Z.of_nat (16 * k)) 4) 4) = (16 * k)%nat) by (rewrite Z.shiftl_mul_pow2, Z.shiftr_div_pow2 by lia; change (2 ^ 4) with 16; zsolve).
  rewrite Htk, <- Hbl, take_ge, (cbc_roundtrip x k) by done. change QB_FRAME_SIZE_MAX with 240 in *. set (pd := padding (length c)) in *. set (p := bytes_to_pad (Z.of_nat (length c))) in *.
  replace (replicate (Z.to_nat 240) 0) with ([] ++ replicate (16 * k) 0 ++ replicate (240 - 16 * k) 0) by (rewrite app_nil_l, <- replicate_add; f_equal; lia).
  rewrite (splice_at [] (replicate (16 * k) 0) (c ++ pd)) by (done || (rewrite length_replicate; lia)). cbn [mbind option_bind].
  assert (Hlast : ([] ++ (c ++ pd) ++ replicate (240 - 16 * k) 0) !! Z.to_nat (Z.of_nat (16 * k) - 1) = Some p).
  { rewrite app_nil_l, lookup_app_l by lia. rewrite lookup_app_r by lia. unfold pd, padding. fold p. apply lookup_replicate. split; [done|lia]. }
  rewrite Hbl, Hlast. cbn [mbind option_bind]. destruct (Z.ltb_spec p 1) as [|_]; [lia|]. destruct (Z.gtb_spec p 16) as [|_]; [lia|]. cbn [orb]. rewrite u16_id by (widths; lia).
  rewrite app_nil_l, <- app_assoc, take_app_le, take_ge by lia. done.
Qed.

(** What the receiver has of a message: [got], from the frames before frame [k]. *)
Definition awaiting (x : rx_t) (id cmd total k : Z) (got : list Z) : Prop :=
  Z.of_nat (length (rx_buff x)) = RX_BUFF_LEN /\ bytes_received x = Z.of_nat (length got) /\ take (length got) (rx_buff x) = got /\
  (if k =? 0 then got = [] /\ rx_total_frame x = rx_frame_seq x else rx_id x = id /\ rx_cmd x = cmd /\ rx_total_frame x = total /\ rx_frame_seq x = k - 1).

(** The cipher of the receiver fits the message, and the pieces can be decrypted. *)
Definition readable (r : world C) (ctx : option aes_ctx) (c : list Z) : Prop :=
  (is_Some ctx -> is_Some (p_key r) /\ p_aes_ctx r = ctx /\ Z.of_nat (length c) mod 16 <> 0) /\ (0 < length c)%nat /\ List.Forall is_u8 c /\
  Z.of_nat (length (body ctx c)) <= (match ctx with Some _ => QB_FRAME_SIZE_MAX | None => 255 end).

Lemma frame_slice ctx id cmd total k c : slice (frame ctx id cmd total k c) HEADER_SIZE (Z.of_nat (length (body ctx c))) = Some (body ctx c).
Proof. unfold frame. set (b := body ctx c). rewrite <- (app_nil_r b) at 2. by apply slice_at. Qed.

Lemma rx_payload_spec r ctx id cmd total k c got : readable r ctx c -> Z.of_nat (length (rx_buff (rx r))) = RX_BUFF_LEN -> bytes_received (rx r) = Z.of_nat (length got) -> take (length got) (rx_buff (rx r)) = got ->
  Z.of_nat (length got) + Z.of_nat (length (body ctx c)) <= RX_BUFF_LEN ->
  exists b, rx_payload (frame ctx id cmd total k c) (is_Some_b ctx) (Z.of_nat (length (body ctx c))) r = Ret (tt, with_rx (store_rx b (Z.of_nat (length (got ++ c))) (rx r)) r) /\
    Z.of_nat (length b) = RX_BUFF_LEN /\ take (length (got ++ c)) b = got ++ c.
Proof.
  intros (Hk & Hc & Hu & Hmax) Hb Hn Ht Hroom. assert (Hr16 : RX_BUFF_LEN < 2 ^ 16) by apply max_payload_range.
  assert (Hcb : (length c <= length (body ctx c))%nat) by (destruct ctx as [x|]; [|done]; destruct (padding_spec (length c)) as (_ & _ & j & Hj & _); cbn [body]; rewrite (proj1 (cbc_encrypt_length x j (c ++ padding (length c)) ltac:(rewrite length_app; lia) ltac:(apply Forall_app; split; [done|apply padding_bytes]))); lia).
  unfold rx_payload. rewrite (ble_bind get _ _ _ _ eq_refl), Hn, (u16_id (RX_BUFF_LEN - _)) by (widths; lia). destruct (Z.ltb_spec (RX_BUFF_LEN - Z.of_nat (length got)) (Z.of_nat (length (body ctx c)))) as [|_]; [lia|].
  destruct (Z.gtb_spec (Z.of_nat (length (body ctx c))) 0) as [_|]; [|lia].
  field (frame_slice ctx id cmd total k c).
  assert (Hdec : (if is_Some_b ctx then do_decrypt (p_aes_ctx r) (body ctx c) else Some (body ctx c)) = Some c).
  { destruct ctx as [x|]; [|done]. destruct Hk as (_ & -> & Hm); [by eexists|]. by apply do_decrypt_spec. }
  field Hdec. set (old := take (length c) (drop (length got) (rx_buff (rx r)))). set (tail := drop (length c) (drop (length got) (rx_buff (rx r)))).
  assert (Hsp : rx_buff (rx r) = got ++ old ++ tail) by (unfold old, tail; rewrite take_drop, <- Ht at 1; by rewrite take_drop). assert (Hol : length old = length c) by (unfold old; rewrite length_take, length_drop; lia).
  rewrite Hsp. field (splice_at got old c tail (Z.of_nat (length got)) eq_refl Hol). exists (got ++ c ++ tail).
  split; [unfold upd_rx; rewrite u16_id, length_app, Nat2Z.inj_add by (widths; lia); done|]. split; [rewrite <- Hb, Hsp, !length_app; lia|]. by rewrite app_assoc, take_app_length.
Qed.

Context (accepts : nat -> bool) (event_handler : qm_ble_event_info_t -> world C -> outcome (world C)).

Lemma rx_header_spec r ctx id cmd total k c got : awaiting (rx r) id cmd total k got -> 0 <= id < 16 -> 0 <= k <= total /\ total < 16 ->
  rx_header event_handler (frame ctx id cmd total k c) r = Ret (true, with_rx (mk_rx (rx_buff (rx r)) (Z.of_nat (length got)) id cmd total k (rx_timer (rx r))) r).
Proof.
  intros (Hb & Hn & Ht & Hst) Hid Hk. destruct (parse_first ctx id Hid) as [_ Hpi]. destruct (parse_third total k) as [Hpt Hpk]; [lia|lia|].
  set (d0 := _ + id) in *. set (d2 := 16 * total + k) in *. set (f := frame ctx id cmd total k c). unfold rx_header. rewrite (ble_bind get _ _ _ _ eq_refl). unfold rx_frames_left.
  destruct (Z.eqb_spec k 0) as [Hk0|Hk0].
  - destruct Hst as [-> ->]. rewrite Z.eqb_refl. cbn [negb]. rbyte (eq_refl : f !! 2%nat = Some d2). rewrite Hpk, Hk0. cbn [negb Z.eqb]. rbyte (eq_refl : f !! 0%nat = Some d0). rbyte (eq_refl : f !! 1%nat = Some cmd).
    rewrite (ble_bind (upd_rx _) _ _ _ _ eq_refl). unfold mret, M_ret, open_rx. by rewrite Hpi, Hpt.
  - destruct Hst as (E1 & E2 & E3 & E4). rewrite E3, E4, (proj2 (Z.eqb_neq _ _)) by lia. cbn [negb].
    rewrite (ble_bind (continues _ _) _ _ true r); [cbn [negb]; rbyte (eq_refl : f !! 2%nat = Some d2); rewrite (ble_bind (upd_rx _) _ _ _ _ eq_refl); unfold mret, M_ret, set_rx_seq; by rewrite Hpk, E1, E2, E3, Hn|].
    unfold continues. rbyte (eq_refl : f !! 0%nat = Some d0). rewrite Hpi, E1, Z.eqb_refl. cbn [negb]. rbyte (eq_refl : f !! 1%nat = Some cmd). rewrite E2, Z.eqb_refl. cbn [negb].
    rbyte (eq_refl : f !! 2%nat = Some d2). rewrite Hpt, Hpk, E3, E4, Z.eqb_refl. cbn [andb]. unfold mret, M_ret. do 2 f_equal. rewrite low_nibble. apply Z.eqb_eq. zsolve.
Qed.

Lemma rx_frame fuel r ctx id cmd total k c got : awaiting (rx r) id cmd total k got -> readable r ctx c -> 0 <= id < 16 -> 0 <= k <= total /\ total < 16 ->
  Z.of_nat (length got) + Z.of_nat (length (body ctx c)) <= RX_BUFF_LEN ->
  exists b, qm_ble_transport_rx accepts event_handler fuel (frame ctx id cmd total k c) r =
      rx_complete accepts event_handler fuel (with_rx (mk_rx b (Z.of_nat (length (got ++ c))) id cmd total k (rx_timer (rx r))) r) /\
    Z.of_nat (length b) = RX_BUFF_LEN /\ take (length (got ++ c)) b = got ++ c.
Proof.
  intros Haw Hrd Hid Hk Hroom. set (r1 := with_rx (mk_rx (rx_buff (rx r)) (Z.of_nat (length got)) id cmd total k (rx_timer (rx r))) r). pose proof Haw as (Hb & Hn & Ht & _).
  destruct (rx_payload_spec r1 ctx id cmd total k c got Hrd Hb eq_refl Ht Hroom) as (b & Hpay & Hbl & Hbt). exists b. split; [|done].
  destruct (parse_first ctx id Hid) as [Hen _]. unfold qm_ble_transport_rx. rewrite (ble_bind get _ _ _ _ eq_refl). set (f := frame ctx id cmd total k c) in *.
  assert (Hfl : Z.of_nat (length f) = HEADER_SIZE + Z.of_nat (length (body ctx c))) by (unfold f; rewrite link_frame_length; unfold HEADER_SIZE; lia). rewrite Hfl, Hn.
  replace (HEADER_SIZE + Z.of_nat (length (body ctx c)) - HEADER_SIZE) with (Z.of_nat (length (body ctx c))) by lia. rewrite (proj2 (Z.eqb_neq _ 0)) by (unfold HEADER_SIZE; lia).
  destruct (Z.gtb_spec (Z.of_nat (length (body ctx c)) + Z.of_nat (length got)) RX_BUFF_LEN) as [|_]; [lia|].
  rewrite (ble_bind _ _ _ _ _ (rx_header_spec r ctx id cmd total k c got Haw Hid Hk)). fold r1. cbn [negb]. rbyte (eq_refl : f !! 0%nat = Some ((match ctx with Some _ => 16 | None => 0 end) + id)). rewrite Hen.
  destruct Hrd as (Hkey & Hc & Hu & Hmax).
  assert (Hrem : is_Some_b ctx && negb (Z.rem (Z.of_nat (length (body ctx c))) 16 =? 0) = false).
  { destruct ctx as [x|]; [|done]. cbn [is_Some_b andb]. destruct (padding_spec (length c)) as (_ & _ & j & Hj & _). cbn [body]. rewrite (proj1 (cbc_encrypt_length x j (c ++ padding (length c)) ltac:(rewrite length_app; lia) ltac:(apply Forall_app; split; [done|apply padding_bytes]))).
    rewrite Z.rem_mod_nonneg by lia. replace (Z.of_nat (16 * j)) with (Z.of_nat j * 16) by lia. by rewrite Z.mod_mul. }
  rewrite Hrem. assert (Hkk : is_Some_b ctx && negb (is_Some_b (p_key r)) = false) by (destruct ctx; [|done]; destruct Hkey as [[y Hy] _]; [by eexists|]; by rewrite Hy). rewrite Hkk.
  rbyte (eq_refl : f !! 3%nat = Some (Z.of_nat (length (body ctx c)))). rewrite Z.eqb_refl, Z.ltb_irrefl. cbn [negb andb orb]. by rewrite (ble_bind _ _ _ _ _ Hpay).
Qed.

(** Feeds packets to the receiver. *)
Fixpoint receive (fuel : nat) (ps : list (list Z)) : M (C := C) unit :=
  match ps with
  | [] => mret tt
  | p :: rest => qm_ble_transport_rx accepts event_handler fuel p;; receive fuel rest
  end.

(** The room that the pieces need: a frame is checked against the buffer before it is decrypted. *)
Fixpoint fits_buffer (ctx : option aes_ctx) (n : nat) (cs : list (list Z)) : Prop :=
  match cs with
  | [] => True
  | c :: rest => Z.of_nat n + Z.of_nat (length (body ctx c)) <= RX_BUFF_LEN /\ fits_buffer ctx (n + length c) rest
  end.

(** The frames of a message from frame [k] on: the last one completes it. *)
Lemma receive_frames fuel ctx id cmd total cs : forall k r got, awaiting (rx r) id cmd total k got -> List.Forall (readable r ctx) cs -> 0 <= id < 16 -> 0 <= k -> total < 16 -> cs <> [] ->
  total = k + Z.of_nat (length cs) - 1 -> fits_buffer ctx (length got) cs ->
  exists r', receive fuel (frames ctx id cmd total k cs) r = (trans_rx_dispatcher accepts event_handler fuel;; reset_rx;; mret tt) r' /\
    (exists b tm, r' = with_rx (mk_rx b (Z.of_nat (length (got ++ mjoin cs))) id cmd total total tm) r /\ take (length (got ++ mjoin cs)) b = got ++ mjoin cs /\ Z.of_nat (length b) = RX_BUFF_LEN).
Proof.
  induction cs as [|c cs IH]; intros k r got Haw Hrd Hid Hk Ht Hne Htot Hfit; [done|]. apply list.Forall_cons in Hrd as [Hrc Hrd]. destruct Hfit as [Hroom Hfit]. cbn [length] in *.
  destruct (rx_frame fuel r ctx id cmd total k c got Haw Hrc Hid) as (b & Hrx & Hbl & Hbt); [lia|lia|]. cbn [frames receive]. set (r1 := with_rx _ r) in *.
  change (mjoin (c :: cs)) with (c ++ mjoin cs). rewrite app_assoc. destruct cs as [|c' cs].
  - assert (k = total) as -> by (simpl in Htot; lia). exists r1. split; [|exists b, (rx_timer (rx r)); by rewrite app_nil_r]. cbn [frames receive]. unfold mbind at 1, M_bind at 1. rewrite Hrx. unfold rx_complete. rewrite (ble_bind get _ _ _ _ eq_refl).
    unfold rx_frames_left. change (rx_total_frame (rx r1)) with total. change (rx_frame_seq (rx r1)) with total. rewrite Z.eqb_refl. cbn [negb]. unfold mbind, M_bind. destruct (trans_rx_dispatcher accepts event_handler fuel r1) as [[[] r2]| |]; [|done|done]. by destruct (reset_rx r2) as [[[] r3]| |].
  - set (tm := if negb (timeout r =? 0) then true else rx_timer (rx r)). set (r2 := with_rx (mk_rx b (Z.of_nat (length (got ++ c))) id cmd total k tm) r).
    rewrite (ble_bind _ _ r tt r2).
    2:{ rewrite Hrx. unfold rx_complete. rewrite (ble_bind get _ _ _ _ eq_refl). unfold rx_frames_left. change (rx_total_frame (rx r1)) with total. change (rx_frame_seq (rx r1)) with k. rewrite (proj2 (Z.eqb_neq total k)) by (simpl in Htot; lia).
        cbn [negb]. change (timeout r1) with (timeout r). unfold r2, tm. by destruct (timeout r =? 0). }
    destruct (IH (k + 1) r2 (got ++ c)) as (r' & Hrec & b' & tm' & Hr' & Htk & Hbl'); [|done|done|lia|lia|done|simpl in *; lia|by rewrite length_app|].
    + split; [done|]. split; [done|]. split; [done|]. rewrite (proj2 (Z.eqb_neq (k + 1) 0)) by lia. split_and!; try done. cbn. lia.
    + exists r'. split; [done|]. exists b', tm'. split; [by rewrite Hr'|done].
Qed.
End receiving.

(** ** Both ends *)

Section link.
Context {cfg : BleConfig} {aes : BleAes} {hash : BleHash} {C : Type}.

(** A receiver that is not in the middle of a message. *)
Definition rx_idle (x : rx_t) : Prop := rx_total_frame x = rx_frame_seq x /\ bytes_received x = 0 /\ Z.of_nat (length (rx_buff x)) = RX_BUFF_LEN.

Lemma idle_awaiting x id cmd total : rx_idle x -> awaiting x id cmd total 0 [].
Proof. intros (H1 & H2 & H3). by split_and!. Qed.

Lemma body_at_most ctx c : List.Forall is_u8 c -> (length (body ctx c) <= length c + (if is_Some_b ctx then 15 else 0))%nat.
Proof.
  intros Hu. destruct ctx as [x|]; cbn [body is_Some_b]; [|lia]. destruct (padding_spec (length c)) as (Hp & Hpl & j & Hj & _).
  rewrite (proj1 (cbc_encrypt_length x j (c ++ padding (length c)) ltac:(rewrite length_app; lia) ltac:(apply Forall_app; split; [done|apply padding_bytes]))). lia.
Qed.

Lemma fits_buffer_of ctx cs : forall n, List.Forall is_u8 (mjoin cs) -> Z.of_nat n + Z.of_nat (length (mjoin cs)) + (if is_Some_b ctx then 15 else 0) <= RX_BUFF_LEN -> fits_buffer ctx n cs.
Proof.
  induction cs as [|c cs IH]; intros n Hu Hr; [done|]. change (mjoin (c :: cs)) with (c ++ mjoin cs) in *. rewrite length_app in Hr. apply Forall_app in Hu as [Hc Hu]. pose proof (body_at_most ctx c Hc) as Hb.
  split; [|apply IH; [done|]]; destruct (is_Some_b ctx); lia.
Qed.

Lemma well_cut_pieces P cs : well_cut P cs -> (0 < P)%nat -> List.Forall (fun c : list Z => (0 < length c <= P)%nat) cs.
Proof.
  intros Hw HP. induction cs as [|c cs IH]; [done|]. destruct cs as [|c' cs]; [by apply list.Forall_singleton|]. apply well_cut_cons in Hw as [Hc Hw]. apply list.Forall_cons. split; [lia|by apply IH].
Qed.

Lemma mjoin_forall {A} (Q : A -> Prop) cs c : List.Forall Q (mjoin cs) -> c ∈ cs -> List.Forall Q c.
Proof.
  induction cs as [|c' cs IH]; intros Hq Hc; [by apply elem_of_nil in Hc|]. change (mjoin (c' :: cs)) with (c' ++ mjoin cs) in Hq. apply Forall_app in Hq as [H1 H2]. apply elem_of_cons in Hc as [->|Hc]; [done|by apply IH].
Qed.

Lemma link_frames_length ctx id cmd total k cs : length (frames ctx id cmd total k cs) = length cs.
Proof. revert k. induction cs as [|c cs IH]; intros k; [done|]. simpl. by rewrite IH. Qed.

Lemma pieces_readable (r : world C) ctx P cs : well_cut P cs -> fits ctx P -> List.Forall is_u8 (mjoin cs) -> (0 < P)%nat -> (is_Some ctx -> is_Some (p_key r) /\ p_aes_ctx r = ctx /\ (P < 16)%nat) -> List.Forall (readable r ctx) cs.
Proof.
  intros Hw Hf Hu HP Hk. apply Forall_forall. intros c Hc. pose proof (proj1 (Forall_forall _ _) (well_cut_pieces P cs Hw HP) c Hc) as Hl. cbv beta in Hl. pose proof (mjoin_forall _ _ _ Hu Hc) as Huc.
  split; [|split; [lia|split; [done|by apply (body_length ctx P c)]]]. intros Hx. destruct (Hk Hx) as (H1 & H2 & H3). split; [done|]. split; [done|]. zsolve.
Qed.

Context (accepts : nat -> bool) (handler : qm_ble_event_info_t -> world C -> outcome (world C)).
Context (accepts' : nat -> bool) (handler' : qm_ble_event_info_t -> world C -> outcome (world C)).

(** The dispatcher hands a complete message to the application. *)
Lemma dispatch_message fuel r b n id cmd total tm d : n = Z.of_nat (length d) -> take (length d) b = d -> Z.of_nat (length b) = RX_BUFF_LEN -> Z.of_nat (length d) <= RX_BUFF_LEN -> 0 <= total < 16 ->
  is_valid_rx_command cmd = true -> cmd <> QM_BLE_CMD_AUTH -> cmd <> QM_BLE_CMD_SET_RAND ->
  trans_rx_dispatcher accepts' handler' fuel (with_rx (mk_rx b n id cmd total total tm) r) = qm_ble_core_event_notify handler' (QB_EVENT_RX_INFO id cmd (total + 1) d) (with_rx (mk_rx b n id cmd total total tm) r).
Proof.
  intros -> Ht Hb Hl Htot Hv H1 H2. unfold trans_rx_dispatcher. rewrite (ble_bind get _ _ _ _ eq_refl). cbn [rx with_rx rx_cmd rx_buff bytes_received rx_id rx_frame_seq]. rewrite Hv. cbn [negb].
  rewrite (ble_bind (lift _) _ _ d (with_rx (mk_rx b (Z.of_nat (length d)) id cmd total total tm) r)) by (apply lift_some; rewrite <- (take_drop (length d) b), Ht; by apply (slice_at [])).
  rewrite (proj2 (Z.eqb_neq _ _) H1), (proj2 (Z.eqb_neq _ _) H2), u8_id by (widths; lia). done.
Qed.

End link.

(** ** Indications *)

Section indications.
Context {cfg : BleConfig} {aes : BleAes} {hash : BleHash} {C : Type}.
Context (accepts : nat -> bool) (handler : qm_ble_event_info_t -> world C -> outcome (world C)).

(** The stack confirms [n] indications, one after the other. *)
Fixpoint confirm (fuel n : nat) : M (C := C) unit :=
  match n with
  | O => mret tt
  | S n => send_indication_done accepts handler fuel QB_SUCCESS;; confirm fuel n
  end.

Lemma fragment_indicate fuel w ctx P c rest : sending w ctx (c ++ rest) -> payload_max w = Z.of_nat P -> fits ctx P -> (0 < length c <= P)%nat -> rest = [] \/ length c = P -> active_indication (tx w) = true ->
  can_send true (svc w) -> accepts (stack_calls w) = true -> 0 <= tx_frame_seq (tx w) < 16 ->
  exists w', send_fragment accepts handler (S fuel) w = Ret (QB_SUCCESS, w') /\ sending w' ctx rest /\
    air w' = air w ++ [Indication (frame ctx (tx_id (tx w)) (tx_cmd (tx w)) (tx_total_frame (tx w)) (tx_frame_seq (tx w)) c)] /\ stack_calls w' = S (stack_calls w) /\
    tx_frame_seq (tx w') = u8 (tx_frame_seq (tx w) + 1) /\ pkt_req (tx w') = u16 (pkt_req (tx w) + 1) /\ pkt_cfm (tx w') = pkt_cfm (tx w) /\ tx_id (tx w') = tx_id (tx w) /\ tx_cmd (tx w') = tx_cmd (tx w) /\
    tx_total_frame (tx w') = tx_total_frame (tx w) /\ active_indication (tx w') = true /\ payload_max w' = Z.of_nat P /\ same_rest w w'.
Proof.
  intros Hse HP Hf Hc Hcr Ha Hcan Hacc Hseq. rewrite <- Ha in Hcan. destruct (send_step accepts (Z.to_nat (Z.of_nat (length (c ++ rest)))) w ctx P c rest 0 Hse Hf Hc Hcr Hcan Hacc Hseq) as (b & pad & Hb & Hst). cbv zeta in Hst.
  rewrite Ha in Hst. cbn [orb] in Hst. set (p := frame _ _ _ _ _ c) in *. set (w1 := after_packet w b pad (Z.of_nat (length c)) p) in *. assert (Hse1 : sending w1 ctx rest) by (by apply sending_advance).
  set (tm := negb (timeout w =? 0)). set (w2 := if tm then with_tx (set_tx_timer true (tx w1)) w1 else w1).
  exists w2. split.
  { cbn [send_fragment]. rewrite (ble_bind get _ _ _ _ eq_refl), (left_spec w ctx _ Hse), HP, (ble_bind _ _ _ _ _ Hst), (ble_bind get _ _ _ _ eq_refl). change (timeout w1) with (timeout w). change (active_indication (tx w1)) with (active_indication (tx w)). rewrite Ha. cbn [negb]. fold tm.
    unfold w2. by destruct tm. }
  assert (Hair : air w1 = air w ++ [Indication p]) by (unfold w1, after_packet, op_of; cbn [air with_air]; by rewrite Ha).
  unfold w2. destruct tm; (split; [exact Hse1|]; split; [exact Hair|]; split_and!; done).
Qed.

Lemma confirm_loop ctx P fuel cs : forall w, sending w ctx (mjoin cs) -> cs = [] \/ well_cut P cs -> payload_max w = Z.of_nat P -> fits ctx P -> (0 < P)%nat -> active_indication (tx w) = true -> can_send true (svc w) ->
  accepted accepts w (length cs) -> 0 <= tx_frame_seq (tx w) /\ tx_frame_seq (tx w) + Z.of_nat (length cs) <= 16 -> 0 <= pkt_cfm (tx w) -> pkt_req (tx w) = pkt_cfm (tx w) + 1 -> pkt_req (tx w) + Z.of_nat (length cs) < 2 ^ 16 -> is_valid_tx_command (tx_cmd (tx w)) = true ->
  exists w', confirm (S fuel) (S (length cs)) w = (qm_ble_core_event_notify handler QB_EVENT_TX_DONE;; mret tt) w' /\
    air w' = air w ++ (Indication <$> frames ctx (tx_id (tx w)) (tx_cmd (tx w)) (tx_total_frame (tx w)) (tx_frame_seq (tx w)) cs) /\ tx_idle (tx w') /\ same_rest w w'.
Proof.
  induction cs as [|c cs IH]; intros w Hse Hw HP Hf HP0 Ha Hcan Hacc Hseq Hc0 Hrq Hr16 Hv; cbn [confirm length] in *.
  all: set (wc := with_tx (set_cfm (pkt_req (tx w)) (tx w)) w); assert (Hsc : sending wc ctx (mjoin _)) by exact Hse; pose proof (left_spec wc ctx _ Hsc) as Hleft.
  - exists (with_tx (if negb (timeout w =? 0) then set_tx_timer false (clear_tx (tx wc)) else clear_tx (tx wc)) w). split; [|split; [by rewrite app_nil_r|split; [|done]]].
    + unfold send_indication_done. change (QB_SUCCESS =? QB_SUCCESS) with true. cbv iota. unfold mbind at 1 2, M_bind at 1 2. unfold qm_ble_transport_txdone, txdone. rewrite (ble_bind get _ _ _ _ eq_refl), (ble_bind (upd_tx _) _ _ _ _ eq_refl), <- Hrq, u16_id by (widths; lia). fold wc.
      rewrite (ble_bind get _ _ _ _ eq_refl), Hleft. change (pkt_req (tx wc)) with (pkt_req (tx w)). change (pkt_cfm (tx wc)) with (pkt_req (tx w)). change (tx_cmd (tx wc)) with (tx_cmd (tx w)). rewrite Hv, (Z.eqb_refl (pkt_req (tx w))), (proj2 (Z.eqb_neq (pkt_req (tx w)) 0)) by lia. cbn [negb andb]. change (Z.of_nat (length (mjoin []))) with 0. cbn [Z.eqb negb].
      rewrite (ble_bind reset_tx _ _ tt (with_tx (if negb (timeout w =? 0) then set_tx_timer false (clear_tx (tx wc)) else clear_tx (tx wc)) w)); [done|]. unfold reset_tx. rewrite (ble_bind (upd_tx _) _ _ _ _ eq_refl), (ble_bind get _ _ _ _ eq_refl). change (timeout (with_tx _ wc)) with (timeout w). by destruct (timeout w =? 0).
    + destruct Hse as (_ & Hb & _). unfold tx_idle. destruct (negb (timeout w =? 0)); done.
  - destruct Hw as [|Hw]; [done|]. change (mjoin (c :: cs)) with (c ++ mjoin cs) in *.
    assert (Hcc : (0 < length c <= P)%nat /\ (mjoin cs = [] \/ length c = P) /\ (cs = [] \/ well_cut P cs)).
    { destruct cs as [|c' cs]; [split; [done|split; by left]|]. apply well_cut_cons in Hw as [Hw1 Hw2]. split; [lia|split; by right]. }
    destruct Hcc as (Hc & Hcr & Hcs). destruct (fragment_indicate fuel wc ctx P c (mjoin cs) Hsc HP Hf Hc Hcr Ha Hcan) as (w2 & Hsf & Hse2 & Hair & Hsc2 & Hsq & Hrq2 & Hcf2 & Hi2 & Hc2 & Ht2 & Ha2 & HP2 & Hsame); [apply Hacc; cbn; lia|cbn; lia|].
    rewrite (ble_bind _ _ w tt w2).
    2:{ unfold send_indication_done. change (QB_SUCCESS =? QB_SUCCESS) with true. cbv iota. unfold qm_ble_transport_txdone, txdone. rewrite (ble_bind get _ _ _ _ eq_refl), (ble_bind (upd_tx _) _ _ _ _ eq_refl), <- Hrq, u16_id by (widths; lia). fold wc.
        rewrite (ble_bind get _ _ _ _ eq_refl), Hleft, (proj2 (Z.eqb_neq _ 0)) by (rewrite length_app; lia). cbn [negb]. by rewrite (ble_bind _ _ _ _ _ Hsf). }
    change (tx_frame_seq (tx wc)) with (tx_frame_seq (tx w)) in *. change (pkt_req (tx wc)) with (pkt_req (tx w)) in *. change (pkt_cfm (tx wc)) with (pkt_req (tx w)) in *. change (tx_id (tx wc)) with (tx_id (tx w)) in *. change (tx_cmd (tx wc)) with (tx_cmd (tx w)) in *. change (tx_total_frame (tx wc)) with (tx_total_frame (tx w)) in *. change (stack_calls wc) with (stack_calls w) in *. change (air wc) with (air w) in *.
    rewrite u8_id in Hsq by (widths; lia). rewrite u16_id in Hrq2 by (widths; lia). assert (Hsvc : svc w2 = svc w) by apply Hsame.
    destruct (IH w2 Hse2 Hcs HP2 Hf HP0 Ha2) as (w' & Hcon & Hair' & Hidle & Hsame'); [by rewrite Hsvc|intros i Hi; apply Hacc; lia|lia|lia|lia|lia|by rewrite Hc2|].
    exists w'. split; [done|]. split; [rewrite Hair', Hair, Hi2, Hc2, Ht2, Hsq, <- app_assoc; done|]. split; [done|].
    destruct Hsame as (? & ? & ? & ? & ? & ? & ? & ? & ? & ?), Hsame' as (? & ? & ? & ? & ? & ? & ? & ? & ? & ?). split_and!; etransitivity; done.
Qed.

(** A message sent as indications goes out in the same frames, one per confirmation; the last
    confirmation reports the message as sent. *)
Theorem indications_complete fuel w id cmd d : can_transmit w cmd d -> 0 < id < 16 -> can_send true (svc w) -> accepted accepts w 16 ->
  exists cs w1 w', well_cut (room (is_Some_b (cipher_of w cmd)) (max_pkt_size w)) cs /\ mjoin cs = d /\
    qm_ble_transport_tx accepts handler (S fuel) QB_TX_INDICATION id cmd (Some d) (Z.of_nat (length d)) w = Ret ((QB_SUCCESS, id), w1) /\
    confirm (S fuel) (length cs) w1 = (qm_ble_core_event_notify handler QB_EVENT_TX_DONE;; mret tt) w' /\
    air w' = air w ++ (Indication <$> frames (cipher_of w cmd) id cmd (Z.of_nat (length cs) - 1) 0 cs) /\ tx_idle (tx w') /\ same_rest w w'.
Proof.
  intros Hct Hid Hcan Hacc. pose proof Hct as [_ _ Hm Hv (_ & Hne & _) H16]. pose proof tx_buff_len_range as Hrange. set (P := room (is_Some_b (cipher_of w cmd)) (max_pkt_size w)) in *.
  assert (HP0 : (0 < P)%nat) by (unfold P, room; destruct (is_Some_b _); zsolve). destruct (well_cut_exists P d HP0 Hne) as (cs & Hw & Hj). pose proof (well_cut_bounds P cs Hw) as Hbd. rewrite Hj in Hbd. assert (Hk : (length cs <= 16)%nat) by nia.
  destruct (tx_prepare accepts handler (S fuel) w QB_TX_INDICATION id cmd d P cs Hct Hid eq_refl Hw Hj) as (w1 & Htx & Hse & Hpm & Hai & Hs0 & Hr0 & Hc0 & Hi & Hc & Ht & Hair & Hsc & Hsame).
  destruct cs as [|c cs]; [done|]. rewrite <- Hj in Hse. change (mjoin (c :: cs)) with (c ++ mjoin cs) in Hse. assert (Hsvc : svc w1 = svc w) by apply Hsame.
  assert (Hcc : (0 < length c <= P)%nat /\ (mjoin cs = [] \/ length c = P) /\ (cs = [] \/ well_cut P cs)).
  { destruct cs as [|c' cs]; [split; [done|split; by left]|]. apply well_cut_cons in Hw as [Hw1 Hw2]. split; [lia|split; by right]. }
  destruct Hcc as (Hcl & Hcr & Hcs). destruct (fragment_indicate fuel w1 _ P c (mjoin cs) Hse Hpm) as (w2 & Hsf & Hse2 & Hair2 & Hsc2 & Hsq & Hrq2 & Hcf2 & Hi2 & Hc2 & Ht2 & Ha2 & HP2 & Hsame2); [by apply room_fits|done|done|done|by rewrite Hsvc|apply Hacc; lia|lia|].
  rewrite Hs0 in Hsq. rewrite Hr0 in Hrq2. assert (Hsvc2 : svc w2 = svc w) by (etransitivity; [apply Hsame2|done]).
  destruct (confirm_loop _ P fuel cs w2 Hse2 Hcs HP2) as (w' & Hcon & Hair' & Hidle & Hsame'); [by apply room_fits|done|done|by rewrite Hsvc2|intros i Hin; apply Hacc; simpl in *; lia|rewrite Hsq; change (u8 (0 + 1)) with 1; simpl in Hk; lia|lia|rewrite Hrq2, Hcf2, Hc0; done|rewrite Hrq2; change (u16 (0 + 1)) with 1; simpl in Hk; lia|by rewrite Hc2, Hc|].
  exists (c :: cs), w2, w'. split; [done|]. split; [done|]. split; [rewrite Htx; by rewrite (ble_bind _ _ _ _ _ Hsf)|]. split; [done|]. split; [|split; [done|]].
  - rewrite Hair', Hair2, Hair, Hi2, Hc2, Ht2, Hi, Hc, Ht, Hs0, Hsq, <- app_assoc. done.
  - destruct Hsame as (? & ? & ? & ? & ? & ? & ? & ? & ? & ?), Hsame2 as (? & ? & ? & ? & ? & ? & ? & ? & ? & ?), Hsame' as (? & ? & ? & ? & ? & ? & ? & ? & ? & ?). split_and!; congruence.
Qed.
End indications.

(** ** Arbitrary packets *)

Section safety.
Context {cfg : BleConfig} {aes : BleAes} {hash : BleHash} {C : Type}.
Implicit Types r : world C.

Ltac field H := rewrite (ble_bind (lift (of_option _)) _ _ _ _ (lift_some _ _ _ H)).

Definition rx_inv (x : rx_t) : Prop := Z.of_nat (length (rx_buff x)) = RX_BUFF_LEN /\ 0 <= bytes_received x <= RX_BUFF_LEN.

Lemma plain_spec ctx d : List.Forall is_u8 d ->
  let k := (length d / 16)%nat in let plain := match ctx with Some c => qm_ble_aes128_cbc_decrypt c (take (16 * k) d) | None => [] end in (length plain <= 16 * k)%nat.
Proof.
  intros Hu. cbv zeta. destruct ctx as [c|]; [|simpl; lia]. pose proof (Nat.div_mod_eq (length d) 16). rewrite (proj1 (cbc_decrypt_length c (length d / 16) (take (16 * (length d / 16)) d) ltac:(rewrite length_take; lia) ltac:(by apply Forall_take))). done.
Qed.

Lemma do_decrypt_safe ctx d : List.Forall is_u8 d -> (0 < length d <= 255)%nat -> exists d', do_decrypt ctx d = Some d' /\ (length d' <= length d)%nat.
Proof.
  intros Hu Hn. unfold do_decrypt. destruct (Z.gtb_spec (Z.of_nat (length d)) QB_FRAME_SIZE_MAX) as [|Hle]; [by exists d|]. change QB_FRAME_SIZE_MAX with 240 in *.
  pose proof (plain_spec ctx d Hu) as Hp. cbv zeta in Hp. set (k := (length d / 16)%nat) in *. assert (Hk : (16 * k <= length d)%nat) by (pose proof (Nat.div_mod_eq (length d) 16); lia).
  assert (Htk : Z.to_nat (Z.shiftl (Z.shiftr (Z.of_nat (length d)) 4) 4) = (16 * k)%nat).
  { rewrite Z.shiftl_mul_pow2, Z.shiftr_div_pow2 by lia. change (2 ^ 4) with (Z.of_nat 16). unfold k. rewrite <- Nat2Z.inj_div. lia. }
  rewrite Htk. set (plain := match ctx with Some c => _ | None => _ end) in *.
  replace (replicate (Z.to_nat 240) 0) with ([] ++ replicate (length plain) 0 ++ replicate (240 - length plain) 0) by (rewrite app_nil_l, <- replicate_add; f_equal; lia).
  rewrite (splice_at [] (replicate (length plain) 0) plain) by (done || apply length_replicate). cbn [mbind option_bind]. rewrite app_nil_l. set (b := plain ++ replicate (240 - length plain) 0).
  assert (Hbl : length b = 240%nat) by (unfold b; rewrite length_app, length_replicate; lia). destruct (lookup_lt_is_Some_2 b (Z.to_nat (Z.of_nat (length d) - 1))) as [pad Hpad]; [lia|]. rewrite Hpad. cbn [mbind option_bind].
  eexists. split; [done|]. rewrite length_take. destruct ((pad <? 1) || (pad >? 16)) eqn:Hr; [lia|]. apply orb_false_iff in Hr as [H1%Z.ltb_ge H2]. rewrite Z.gtb_ltb in H2. apply Z.ltb_ge in H2.
  assert (Hfull : (length d <= 16 * k)%nat).
  { destruct (decide (length d <= 16 * k)%nat) as [|Hgt]; [done|]. exfalso. unfold b in Hpad. rewrite lookup_app_r in Hpad by lia. apply lookup_replicate in Hpad as [-> _]. lia. }
  rewrite u16_id by (widths; lia). lia.
Qed.

Context (accepts : nat -> bool) (handler : qm_ble_event_info_t -> world C -> outcome (world C)).

Definition cleared (r : world C) : rx_t := if negb (timeout r =? 0) then set_rx_timer false (clear_rx (rx r)) else clear_rx (rx r).

Lemma reset_rx_spec r : reset_rx r = Ret (tt, with_rx (cleared r) r).
Proof. unfold reset_rx. rewrite (ble_bind (upd_rx _) _ _ _ _ eq_refl), (ble_bind get _ _ _ _ eq_refl). change (timeout (with_rx _ r)) with (timeout r). unfold cleared. by destruct (timeout r =? 0). Qed.

Lemma cleared_inv r : rx_inv (rx r) -> rx_idle (cleared r) /\ rx_inv (cleared r).
Proof. intros [Hb _]. assert (0 <= RX_BUFF_LEN) by lia. unfold cleared, rx_idle, rx_inv. destruct (negb (timeout r =? 0)); cbn; split_and!; done. Qed.

Lemma refuse_spec src code r : src ∈ [QM_ERROR_SRC_TRANSPORT_1ST_FRAME; QM_ERROR_SRC_TRANSPORT_OTHER_FRAMES; QM_ERROR_SRC_TRANSPORT_ENCRYPTED; QM_ERROR_SRC_TRANSPORT_RX_BUFF_SIZE] -> code <> QB_EINTERNAL ->
  rx_refuse handler src code r = Ret (tt, with_rx (cleared r) r).
Proof.
  intros Hs Hc. unfold rx_refuse. rewrite (ble_bind _ _ r tt r); [apply reset_rx_spec|]. unfold qm_ble_core_handle_err. rewrite (proj2 (Z.eqb_neq code QB_EINTERNAL) Hc).
  rewrite !elem_of_cons, elem_of_nil in Hs. by destruct Hs as [-> | [-> | [-> | [-> | []]]]].
Qed.

(** What a packet does to the receiver: it is refused, stored, or it completes a message. *)
Definition received_safely (fuel : nat) (r : world C) (m : outcome (unit * world C)) : Prop :=
  exists x, rx_inv x /\ (m = Ret (tt, with_rx x r) \/ m = (trans_rx_dispatcher accepts handler fuel;; reset_rx) (with_rx x r)).

Lemma refused_safely fuel src code r r0 : src ∈ [QM_ERROR_SRC_TRANSPORT_1ST_FRAME; QM_ERROR_SRC_TRANSPORT_OTHER_FRAMES; QM_ERROR_SRC_TRANSPORT_ENCRYPTED; QM_ERROR_SRC_TRANSPORT_RX_BUFF_SIZE] -> code <> QB_EINTERNAL -> rx_inv (rx r) -> (exists x, r = with_rx x r0) ->
  received_safely fuel r0 (rx_refuse handler src code r).
Proof.
  intros Hs Hc Hi [x ->]. rewrite refuse_spec by done. exists (cleared (with_rx x r0)). split; [by apply cleared_inv|]. by left.
Qed.

Lemma rx_payload_safe r p enc n : rx_inv (rx r) -> List.Forall is_u8 p -> is_u8 n -> HEADER_SIZE + n <= Z.of_nat (length p) -> exists x, rx_inv x /\ rx_payload p enc n r = Ret (tt, with_rx x r) /\ rx_total_frame x = rx_total_frame (rx r) /\ rx_frame_seq x = rx_frame_seq (rx r).
Proof.
  intros [Hb Hr] Hu Hn Hp. assert (Hr16 : RX_BUFF_LEN < 2 ^ 16) by apply max_payload_range. unfold rx_payload. rewrite (ble_bind get _ _ _ _ eq_refl), (u16_id (RX_BUFF_LEN - _)) by (widths; lia).
  set (m := if RX_BUFF_LEN - bytes_received (rx r) <? n then RX_BUFF_LEN - bytes_received (rx r) else n). assert (Hm : 0 <= m <= n /\ m <= RX_BUFF_LEN - bytes_received (rx r)) by (unfold m; destruct (Z.ltb_spec (RX_BUFF_LEN - bytes_received (rx r)) n); widths; lia).
  destruct (Z.gtb_spec m 0) as [Hm0|Hm0]; [|exists (rx r); split; [done|]; split; [by destruct r|done]].
  set (d := take (Z.to_nat m) (drop (Z.to_nat HEADER_SIZE) p)). assert (Hdl : length d = Z.to_nat m) by (unfold d; rewrite length_take, length_drop; unfold HEADER_SIZE in *; lia).
  assert (Hsl : slice p HEADER_SIZE m = Some d). { unfold slice. rewrite (proj2 (Z.leb_le 0 m)), (proj2 (Z.leb_le (HEADER_SIZE + m) _)) by lia. done. }
  field Hsl. assert (Hud : List.Forall is_u8 d) by (by apply Forall_take, Forall_drop).
  assert (exists d', (if enc then do_decrypt (p_aes_ctx r) d else Some d) = Some d' /\ (length d' <= length d)%nat) as (d' & Hd' & Hl') by (destruct enc; [apply do_decrypt_safe; [done|widths; lia]|by exists d]).
  field Hd'. set (o := Z.to_nat (bytes_received (rx r))).
  assert (Hs : rx_buff (rx r) = take o (rx_buff (rx r)) ++ take (length d') (drop o (rx_buff (rx r))) ++ drop (length d') (drop o (rx_buff (rx r)))) by (by rewrite !take_drop).
  rewrite Hs. field (splice_at (take o (rx_buff (rx r))) (take (length d') (drop o (rx_buff (rx r)))) d' (drop (length d') (drop o (rx_buff (rx r)))) (bytes_received (rx r)) ltac:(rewrite length_take; lia) ltac:(rewrite length_take, length_drop; lia)).
  eexists. split; [|split; [done|done]]. split; cbn [store_rx rx_buff bytes_received]; [rewrite !length_app, length_take, !length_drop; lia|rewrite u16_id by (widths; lia); lia].
Qed.

(** The header fits what the receiver waits for. *)
Definition expected (x : rx_t) (d0 d1 d2 : Z) : bool :=
  if rx_total_frame x =? rx_frame_seq x then FRAME_SEQ d2 =? 0
  else (rx_id x =? MSG_ID d0) && (rx_cmd x =? d1) && (rx_total_frame x =? TOTAL_FRAME d2) && (Z.land (rx_frame_seq x + 1) 0xF =? FRAME_SEQ d2).

Lemma rx_header_cases r d0 d1 d2 rest : rx_inv (rx r) ->
  exists x, rx_header handler (d0 :: d1 :: d2 :: rest) r = Ret (expected (rx r) d0 d1 d2, with_rx x r) /\ rx_inv x /\ (expected (rx r) d0 d1 d2 = false -> rx_idle x).
Proof.
  intros Hi. set (p := d0 :: d1 :: d2 :: rest). unfold rx_header. rewrite (ble_bind get _ _ _ _ eq_refl). unfold rx_frames_left, expected. destruct (Z.eqb_spec (rx_total_frame (rx r)) (rx_frame_seq (rx r))) as [He|Hne]; cbn [negb].
  - rewrite (byte_step p 2 d2) by done. destruct (FRAME_SEQ d2 =? 0); cbn [negb].
    + rewrite (byte_step p 0 d0), (byte_step p 1 d1) by done. eexists. split; [done|]. split; [|done]. destruct Hi as [Hb Hr]. split; [done|]. cbn. lia.
    + rewrite (ble_bind _ _ _ _ _ (refuse_spec QM_ERROR_SRC_TRANSPORT_1ST_FRAME QB_EINVALIDDATA r ltac:(left) ltac:(done))). exists (cleared r). split; [done|]. destruct (cleared_inv r Hi). by split.
  - assert (Hcon : continues (rx r) p r = Ret ((rx_id (rx r) =? MSG_ID d0) && (rx_cmd (rx r) =? d1) && (rx_total_frame (rx r) =? TOTAL_FRAME d2) && (Z.land (rx_frame_seq (rx r) + 1) 0xF =? FRAME_SEQ d2), r)).
    { unfold continues. rewrite (byte_step p 0 d0) by done. destruct (rx_id (rx r) =? MSG_ID d0); cbn [negb andb]; [|done]. rewrite (byte_step p 1 d1) by done. destruct (rx_cmd (rx r) =? d1); cbn [negb andb]; [|done]. by rewrite (byte_step p 2 d2) by done. }
    rewrite (ble_bind _ _ _ _ _ Hcon). set (ok := _ && _ : bool). destruct ok; cbn [negb].
    + rewrite (byte_step p 2 d2) by done. eexists. split; [done|]. split; [|done]. destruct Hi as [Hb Hr]. by split.
    + rewrite (ble_bind _ _ _ _ _ (refuse_spec QM_ERROR_SRC_TRANSPORT_OTHER_FRAMES QB_EINVALIDDATA r ltac:(right; left) ltac:(done))). exists (cleared r). split; [done|]. destruct (cleared_inv r Hi). by split.
Qed.

(** C13: Whatever bytes arrive, in packets of at least 4 bytes, the receiver stays inside its buffers: a packet is
    refused or stored, or completes a message, which is dispatched before the receiver is reset. *)
Theorem rx_total_safe fuel r p : rx_inv (rx r) -> List.Forall is_u8 p -> length p = 0%nat \/ (4 <= length p)%nat ->
  received_safely fuel r (qm_ble_transport_rx accepts handler fuel p r).
Proof.
  intros Hi Hu Hl. unfold qm_ble_transport_rx. rewrite (ble_bind get _ _ _ _ eq_refl). destruct (Z.eqb_spec (Z.of_nat (length p)) 0) as [H0|H0]; [exists (rx r); split; [done|]; left; by destruct r|].
  assert (Hself : exists x, r = with_rx x r) by (exists (rx r); by destruct r). destruct (Z.gtb_spec (Z.of_nat (length p) - HEADER_SIZE + bytes_received (rx r)) RX_BUFF_LEN) as [|_]; [apply refused_safely; [by do 3 right; left|done|done|done]|].
  destruct p as [|d0 [|d1 [|d2 [|d3 rest]]]]; simpl in Hl, H0; try lia. destruct (rx_header_cases r d0 d1 d2 (d3 :: rest) Hi) as (x & Hh & Hx & _). rewrite (ble_bind _ _ _ _ _ Hh).
  set (p := d0 :: d1 :: d2 :: d3 :: rest) in *. set (rx1 := with_rx x r). destruct (expected (rx r) d0 d1 d2); cbn [negb]; [|exists x; split; [done|by left]].
  assert (Hself1 : exists y, rx1 = with_rx y r) by (by exists x). rewrite (byte_step p 0 d0) by done. destruct (IS_ENC d0 && negb (Z.rem (Z.of_nat (length p) - HEADER_SIZE) 16 =? 0)); [apply refused_safely; [by do 2 right; left|done|done|done]|].
  destruct (IS_ENC d0 && negb (is_Some_b (p_key r))); [apply refused_safely; [by do 2 right; left|done|done|done]|]. rewrite (byte_step p 3 d3) by done.
  destruct ((negb (Z.of_nat (length p) =? HEADER_SIZE + d3) && negb (IS_ENC d0)) || ((Z.of_nat (length p) <? HEADER_SIZE + d3) && IS_ENC d0)) eqn:Hsize; [apply refused_safely; [by right; left|done|done|done]|].
  assert (Hd3 : is_u8 d3) by (do 4 (apply list.Forall_cons in Hu as [? Hu]); done).
  assert (Hfit : HEADER_SIZE + d3 <= Z.of_nat (length p)) by (destruct (Z.eqb_spec (Z.of_nat (length p)) (HEADER_SIZE + d3)), (Z.ltb_spec (Z.of_nat (length p)) (HEADER_SIZE + d3)), (IS_ENC d0); try lia; done).
  destruct (rx_payload_safe rx1 p (IS_ENC d0) d3 Hx Hu Hd3 Hfit) as (y & Hy & Hp & Ht & Hs). rewrite (ble_bind _ _ _ _ _ Hp). unfold rx_complete. rewrite (ble_bind get _ _ _ _ eq_refl).
  change (with_rx y rx1) with (with_rx y r). destruct (rx_frames_left (with_rx y r)); cbn [negb]; [|exists y; split; [done|by right]].
  change (timeout (with_rx y r)) with (timeout r). destruct (timeout r =? 0); cbn [negb]; [exists y; split; [done|by left]|]. exists (set_rx_timer true y). split; [done|by left].
Qed.

(** C33: A frame that does not continue the message, or is not the first of one, is dropped together with what was
    received so far; the receiver then waits for a new message. *)
Theorem wrong_frame_resets fuel r d0 d1 d2 rest : rx_inv (rx r) -> expected (rx r) d0 d1 d2 = false ->
  exists x, qm_ble_transport_rx accepts handler fuel (d0 :: d1 :: d2 :: rest) r = Ret (tt, with_rx x r) /\ rx_idle x.
Proof.
  intros Hi He. set (p := d0 :: d1 :: d2 :: rest). unfold qm_ble_transport_rx. rewrite (ble_bind get _ _ _ _ eq_refl), (proj2 (Z.eqb_neq _ 0)) by (simpl; lia).
  destruct (Z.gtb_spec (Z.of_nat (length p) - HEADER_SIZE + bytes_received (rx r)) RX_BUFF_LEN) as [|_].
  - rewrite refuse_spec by (done || by do 3 right; left). exists (cleared r). split; [done|]. by apply cleared_inv.
  - destruct (rx_header_cases r d0 d1 d2 rest Hi) as (x & Hh & Hx & Hd). fold p in Hh. rewrite (ble_bind _ _ _ _ _ Hh), He. exists x. split; [done|by apply Hd].
Qed.

(** Sending does not depend on what has been built, the timer or the confirmations. *)
Lemma sending_frame (w : world C) ctx d b pad n tm : sending w ctx d -> Z.of_nat (length b) = TX_BUFF_LEN -> sending (with_tx (set_cfm n (set_tx_timer tm (set_pad_len pad (set_tx_buff b (tx w))))) w) ctx d.
Proof. intros (Hd & Hb & Hu & He & Hx & Hi & Ht & Hl) Hb'. exact (conj Hd (conj Hb' (conj Hu (conj He (conj Hx (conj Hi (conj Ht Hl))))))). Qed.

Lemma stuck fuel ctx P d : fits ctx P -> (0 < P)%nat -> d <> [] -> forall w, sending w ctx d -> payload_max w = Z.of_nat P -> active_indication (tx w) = false -> 0 <= tx_frame_seq (tx w) < 16 ->
  conn_handle (svc w) = BLE_CONN_HANDLE_INVALID \/ is_notification_enabled (svc w) = false -> send_fragment accepts handler fuel w = NoFuel.
Proof.
  intros Hf HP Hd. induction fuel as [|fuel IH]; intros w Hse HPm Ha Hs Hno; [done|]. cbn [send_fragment]. rewrite (ble_bind get _ _ _ _ eq_refl), (left_spec w ctx d Hse), HPm.
  set (c := take P d). set (rest := drop P d). assert (Hd' : d = c ++ rest) by (symmetry; apply take_drop). assert (Hdl : (0 < length d)%nat) by (destruct d; [done|simpl; lia]).
  assert (Hc : (0 < length c <= P)%nat) by (unfold c; rewrite length_take; lia). pose proof Hse as Hse'. rewrite Hd' in Hse'.
  destruct (build_packet_spec w ctx P c rest Hse' Hf Hc Hs) as (b & pad & Hbp & Hbl & Hsl). set (w1 := with_tx (set_pad_len pad (set_tx_buff b (tx w))) w) in *.
  assert (Hn : (if Z.of_nat (length d) <? Z.of_nat P then Z.of_nat (length d) else Z.of_nat P) = Z.of_nat (length c)) by (unfold c; rewrite length_take; destruct (Z.ltb_spec (Z.of_nat (length d)) (Z.of_nat P)); lia).
  assert (Hlp : send_loop accepts (S (Z.to_nat (Z.of_nat (length d)))) (Z.of_nat P) (Z.of_nat (length d)) 0 w = Ret ((QB_EINVALIDSTATE, 0), w1)).
  { cbn [send_loop]. rewrite Hn, (ble_bind _ _ _ _ _ Hbp), (ble_bind get _ _ _ _ eq_refl). change (pad_len (tx w1)) with pad. change (tx_buff (tx w1)) with b. field Hsl.
    rewrite (ble_bind (active_func accepts _) _ w1 QB_EINVALIDSTATE w1); [done|]. unfold active_func. rewrite (ble_bind get _ _ _ _ eq_refl). change (active_indication (tx w1)) with (active_indication (tx w)). rewrite Ha.
    unfold qm_ble_service_send_notification. rewrite (ble_bind get _ _ _ _ eq_refl). change (svc w1) with (svc w). destruct Hno as [-> | ->]; [done|]. by rewrite orb_true_r. }
  rewrite (ble_bind _ _ _ _ _ Hlp), (ble_bind get _ _ _ _ eq_refl). change (timeout w1) with (timeout w). change (active_indication (tx w1)) with (active_indication (tx w)). rewrite Ha. cbn [negb].
  set (tm := if negb (timeout w =? 0) then true else tx_timer (tx w)). set (w2 := with_tx (set_tx_timer tm (tx w1)) w1).
  rewrite (ble_bind _ _ w1 tt w2) by (unfold w2, tm, w1; destruct (timeout w =? 0); [destruct w as [[]]; done|done]).
  set (w3 := with_tx (set_cfm (u16 (pkt_cfm (tx w) + 0)) (set_tx_timer tm (set_pad_len pad (set_tx_buff b (tx w))))) w). assert (Hse3 : sending w3 ctx d) by (by apply sending_frame).
  unfold mbind at 1, M_bind at 1. unfold txdone. rewrite (ble_bind get _ _ _ _ eq_refl), (ble_bind (upd_tx _) _ _ _ _ eq_refl). change (pkt_cfm (tx w2)) with (pkt_cfm (tx w)). change (with_tx _ w2) with w3. rewrite (ble_bind get _ _ _ _ eq_refl), (left_spec w3 ctx d Hse3), (proj2 (Z.eqb_neq _ 0)) by lia. cbn [negb].
  unfold mbind, M_bind. by rewrite IH.
Qed.

(** Sending a notification that the stack does not take, for instance because the peer has not subscribed,
    does not end: the failed packet is tried again from the completion of the same call. *)
Theorem unsubscribed_notification_diverges fuel w id cmd d : can_transmit w cmd d -> 0 < id < 16 ->
  conn_handle (svc w) = BLE_CONN_HANDLE_INVALID \/ is_notification_enabled (svc w) = false ->
  qm_ble_transport_tx accepts handler fuel QB_TX_NOTIFICATION id cmd (Some d) (Z.of_nat (length d)) w = NoFuel.
Proof.
  intros Hct Hid Hno. pose proof Hct as [_ _ Hm _ (_ & Hne & _) _]. pose proof tx_buff_len_range as Hrange. set (P := room (is_Some_b (cipher_of w cmd)) (max_pkt_size w)).
  assert (HP0 : (0 < P)%nat) by (unfold P, room; destruct (is_Some_b _); zsolve). destruct (well_cut_exists P d HP0 Hne) as (cs & Hw & Hj).
  destruct (tx_prepare accepts handler fuel w QB_TX_NOTIFICATION id cmd d P cs Hct Hid eq_refl Hw Hj) as (w1 & Htx & Hse & Hpm & Hai & Hs0 & _ & _ & _ & _ & _ & _ & _ & Hsame).
  rewrite Htx. unfold mbind, M_bind. rewrite (stuck fuel (cipher_of w cmd) P d) by (done || (by apply room_fits) || lia || (by destruct Hsame as (_ & _ & _ & _ & _ & _ & -> & _))). done.
Qed.
End safety.

(** ** Concrete links *)

(** No long packets, ten frames; AES of the ESP32 and SHA-256. *)
#[local] Instance small : BleConfig :=
  {| EN_LONG_MTU := false; BLE_4_2 := false; QB_VERSION := 2; QB_MAX_FRAME_NUMBER := 10; frame_number_range := conj (Zle_bool_imp_le 5 10 eq_refl) (Zle_bool_imp_le 10 20 eq_refl) |}.
#[local] Instance demo_aes : BleAes := BleSec.esp32_aes true.
#[local] Existing Instance Sha256.sha256_hash.

(** The application keeps the events. *)
Definition log_event (e : qm_ble_event_info_t) (w : world (list qm_ble_event_info_t)) : outcome (world (list qm_ble_event_info_t)) :=
  Ret (mk_world (tx w) (rx w) (tx_msg_id w) (max_pkt_size w) (p_key w) (timeout w) (p_aes_ctx w) (svc w) (auth w) (core w) (air w) (stack_calls w) (app w ++ [e])).

Definition demo_key : list Z := Z.of_nat <$> seq 1 16.
Definition demo_ctx : option aes_ctx := Ble.qm_ble_aes128_init demo_key demo_key.
(** Connected and subscribed; [k] is the key, if one is set. *)
Definition demo_world (k : option (list Z)) (s : qm_ble_service_t) : world (list qm_ble_event_info_t) :=
  mk_world blank_tx blank_rx 0 20 k 1000 (match k with Some _ => demo_ctx | None => None end) s
    (mk_auth QB_AUTH_STATE_DONE false (zeros MAX_IKM_LEN) 0 (zeros MAX_OKM_LEN) QB_AUTH_TYPE_PER_PK)
    (mk_core (zeros QB_MAX_ADV_DATA_LEN) 0 (zeros 25) 0 (zeros 6) (zeros 11) 0 (zeros 32) 0 (zeros 32) 0 (zeros 32) 0) [] 0 [].
Definition subscribed : qm_ble_service_t := mk_service BLE_CONN_HANDLE_MAGIC true true 20.
Definition demo_msg : list Z := Z.of_nat <$> seq 7 50.
Definition always (n : nat) : bool := true.

(** A message of 50 bytes, sent in four encrypted packets. *)
Example demo_run :
  match qm_ble_transport_tx always log_event 3 QB_TX_NOTIFICATION 5 QM_BLE_CMD_SET (Some demo_msg) 50 (demo_world (Some demo_key) subscribed) with
  | Ret (r, w') =>
      (r, app w', length (air w'),
       match receive always log_event 3 (omap (fun o => match o with Notification p => Some p | _ => None end) (air w')) (demo_world (Some demo_key) subscribed) with
       | Ret (_, r') => app r'
       | _ => []
       end)
  | _ => ((0, 0), [], 0%nat, [])
  end = ((QB_SUCCESS, 5), [QB_EVENT_TX_DONE], 4%nat, [QB_EVENT_RX_INFO 5 QM_BLE_CMD_SET 4 demo_msg]).
Proof. vm_compute. reflexivity. Qed.

Lemma demo_transmits k s : can_transmit (demo_world k s) QM_BLE_CMD_SET demo_msg.
Proof.
  split.
  - split; [done|]. split; [done|]. vm_compute. done.
  - intros [x Hk] _. split; [|done]. destruct k; [|done]. vm_compute. by eexists.
  - vm_compute. done.
  - done.
  - split; [apply Words.Words.u8b_list; vm_compute; done|]. split; [done|]. vm_compute. done.
  - apply Nat.leb_le. destruct k; vm_compute; done.
Qed.

Lemma demo_rx_idle k s : rx_idle (rx (demo_world k s)).
Proof. split_and!; vm_compute; done. Qed.

Lemma demo_can_send ind k : can_send ind (svc (demo_world k subscribed)).
Proof. split; [by vm_compute|]. split; [by destruct ind|vm_compute; done]. Qed.


Lemma indications_complete_witness : exists cs w1 w', mjoin cs = demo_msg /\
  qm_ble_transport_tx always log_event 3 QB_TX_INDICATION 5 QM_BLE_CMD_SET (Some demo_msg) (Z.of_nat (length demo_msg)) (demo_world (Some demo_key) subscribed) = Ret ((QB_SUCCESS, 5), w1) /\
  confirm always log_event 3 (length cs) w1 = (qm_ble_core_event_notify log_event QB_EVENT_TX_DONE;; mret tt) w'.
Proof.
  destruct (indications_complete always log_event 2 (demo_world (Some demo_key) subscribed) 5 QM_BLE_CMD_SET demo_msg) as (cs & w1 & w' & _ & Hj & H1 & H2 & _).
  - apply demo_transmits.
  - lia.
  - apply demo_can_send.
  - by intros i _.
  - exists cs, w1, w'. exact (conj Hj (conj H1 H2)).
Defined.

(** A receiver in the middle of a message. *)
Definition demo_receiving : world (list qm_ble_event_info_t) := with_rx (mk_rx (zeros RX_BUFF_LEN) 16 5 QM_BLE_CMD_SET 3 0 true) (demo_world None subscribed).
Lemma demo_rx_inv : rx_inv (rx demo_receiving).
Proof. split_and!; vm_compute; done. Qed.

Lemma rx_total_safe_witness : received_safely always log_event 3 demo_receiving (qm_ble_transport_rx always log_event 3 [5; QM_BLE_CMD_SET; 0x31; 2; 8; 9] demo_receiving).
Proof. apply rx_total_safe; [apply demo_rx_inv|apply Words.Words.u8b_list; vm_compute; done|right; apply Nat.leb_le; done]. Defined.

Lemma wrong_frame_resets_witness : exists x, qm_ble_transport_rx always log_event 3 [5; QM_BLE_CMD_SET; 0x32; 2; 8; 9] demo_receiving = Ret (tt, with_rx x demo_receiving) /\ rx_idle x.
Proof. apply (wrong_frame_resets always log_event 3 demo_receiving 5 QM_BLE_CMD_SET 0x32 [2; 8; 9]); [apply demo_rx_inv|vm_compute; done]. Defined.

Lemma unsubscribed_notification_diverges_witness :
  qm_ble_transport_tx always log_event 3 QB_TX_NOTIFICATION 5 QM_BLE_CMD_SET (Some demo_msg) (Z.of_nat (length demo_msg)) (demo_world None (mk_service BLE_CONN_HANDLE_MAGIC true false 20)) = NoFuel.
Proof. apply (unsubscribed_notification_diverges always log_event 3 _ 5 QM_BLE_CMD_SET demo_msg); [apply demo_transmits|lia|by right]. Defined.

(** ** Corner cases *)

(** What a peer makes of the packets on the air. *)
Definition packets (l : list air_op) : list (list Z) := omap (fun o => match o with Notification p => Some p | _ => None end) l.

(** Long packets: 36 bytes, so that two blocks fit. *)
Definition long : BleConfig :=
  {| EN_LONG_MTU := true; BLE_4_2 := true; QB_VERSION := 2; QB_MAX_FRAME_NUMBER := 10; frame_number_range := conj (Zle_bool_imp_le 5 10 eq_refl) (Zle_bool_imp_le 10 20 eq_refl) |}.
Definition exchange (cfg : BleConfig) (size : Z) (d : list Z) : list qm_ble_event_info_t :=
  let w := with_max_pkt size (with_svc (mk_service BLE_CONN_HANDLE_MAGIC true true 244) (with_tx (@blank_tx cfg) (with_rx (@blank_rx cfg) (demo_world (Some demo_key) subscribed)))) in
  match @qm_ble_transport_tx cfg _ _ always log_event 3 QB_TX_NOTIFICATION 5 QM_BLE_CMD_SET (Some d) (Z.of_nat (length d)) w with
  | Ret (_, w') => match @receive cfg _ _ _ always log_event 3 (packets (air w')) w with Ret (_, r) => app r | _ => [] end
  | _ => []
  end.

(** With long packets the number of frames is computed for 32 bytes a frame, but an encrypted
    frame carries 31: of 63 bytes the peer gets 62, and takes the message for complete. *)
Theorem long_encrypted_truncated : exchange long 36 (Z.of_nat <$> seq 1 63) = [QB_EVENT_RX_INFO 5 QM_BLE_CMD_SET 2 (Z.of_nat <$> seq 1 62)].
Proof. vm_compute. reflexivity. Qed.

(** A piece of whole blocks is not padded, and its last byte is taken for padding: sixteen
    bytes that end in 16 arrive as none. *)
Theorem full_block_stripped : exchange long 36 (Z.of_nat <$> seq 1 16) = [QB_EVENT_RX_INFO 5 QM_BLE_CMD_SET 1 []].
Proof. vm_compute. reflexivity. Qed.

(** An access outside an object. *)
Definition is_oob {A} (o : outcome A) : bool := match o with OutOfBounds => true | _ => false end.

(** After a reset the key is still set, but there is no cipher: the packet would be filled
    from memory that was never written. *)
Theorem reset_sends_uninitialised :
  is_oob ((qm_ble_transport_reset;; qm_ble_transport_tx always log_event 3 QB_TX_NOTIFICATION 5 QM_BLE_CMD_SET (Some [1; 2; 3]) 3) (demo_world (Some demo_key) subscribed)) = true.
Proof. vm_compute. reflexivity. Qed.

(** A packet of less than four bytes is read behind its end. *)
Theorem short_packet_overread : is_oob (qm_ble_transport_rx always log_event 3 [5; QM_BLE_CMD_SET] (demo_world None subscribed)) = true.
Proof. vm_compute. reflexivity. Qed.

(** A message that is refused because another one is on its way changes the mark that the
    frames of the other one carry. *)
Theorem busy_changes_encryption :
  match qm_ble_transport_tx always log_event 3 QB_TX_INDICATION 5 QM_BLE_CMD_SET (Some demo_msg) 50 (demo_world (Some demo_key) subscribed) with
  | Ret (_, w) =>
      match qm_ble_transport_tx always log_event 3 QB_TX_INDICATION 0 QM_BLE_CMD_AUTH (Some [1]) 1 w with
      | Ret (r, w') => Some (r, bytes_sent (tx w), encrypted (tx w), encrypted (tx w'))
      | _ => None
      end
  | _ => None
  end = Some (QB_EBUSY, 0, 15, 1, 0).
Proof. vm_compute. reflexivity. Qed.
End BleLink.
