(* ===== verification/BleAuth.v ===== *)
(** * Bluetooth link: authentication (components/qm_ble/core/qm_ble_auth.c)

    The key of a link and the handshake, with SHA-256 of utility/sha256 as the hash. *)

From S2P Require Import Prelude Outcome Words Heap Ble Merkle Sha256 Aes BleLink.
Import list_relations.list list_basics.list Heap(slice, splice, heap_slice_app, splice_app) Ble BleLink.
Open Scope Z_scope.

Module BleAuth.

Section auth.
Context {cfg : BleConfig} {aes : BleAes} {C : Type}.
#[local] Existing Instance Sha256.sha256_hash.
Implicit Types w : world C.

Ltac field H := rewrite (ble_bind (lift (of_option _)) _ _ _ _ (lift_some _ _ _ H)).

(** The text [t] is in the buffer, which is zero behind it. *)
Definition holding (w : world C) (t : list Z) : world C := with_auth (set_ikm (t ++ replicate (72 - length t) 0) (Z.of_nat (length t)) (auth w)) w.

Lemma holding_start w : ikm (auth w) = zeros MAX_IKM_LEN -> ikm_len (auth w) = 0 -> holding w [] = w.
Proof. intros H1 H2. destruct w as [? ? ? ? ? ? ? ? a ? ? ? ?]. destruct a. cbn in *. subst. reflexivity. Qed.

Lemma splice_zeros t d : (length t + length d <= 72)%nat ->
  splice (t ++ replicate (72 - length t) 0) (Z.of_nat (length t)) d = Some ((t ++ d) ++ replicate (72 - length (t ++ d)) 0).
Proof.
  intros H. replace (72 - length t)%nat with (length d + (72 - length (t ++ d)))%nat by (rewrite length_app; lia).
  rewrite replicate_add, <- app_assoc. apply (splice_app t (replicate (length d) 0) d). by rewrite length_replicate.
Qed.

Lemma append_step w t d n : n = Z.of_nat (length d) -> (length t + length d <= 72)%nat -> append_ikm d n (holding w t) = Ret (tt, holding w (t ++ d)).
Proof.
  intros -> Hl. unfold append_ikm. rewrite (ble_bind get _ _ _ _ eq_refl). cbn [auth holding with_auth ikm ikm_len set_ikm].
  rewrite (ble_bind (lift _) _ _ _ _ (lift_some _ _ _ (splice_zeros t d Hl))). unfold upd_auth, holding. rewrite u16_id by (widths; lia). rewrite length_app at 3. rewrite Nat2Z.inj_add. reflexivity.
Qed.

Lemma terminate_step w t : (length t < 72)%nat -> terminate (holding w t) = Ret (tt, holding w t).
Proof.
  intros Hl. unfold terminate, append_ikm. rewrite (ble_bind get _ _ _ _ eq_refl). cbn [auth holding with_auth ikm ikm_len set_ikm].
  rewrite (ble_bind (lift _) _ _ _ _ (lift_some _ _ _ (splice_zeros t [0] ltac:(cbn; lia)))). unfold upd_auth, holding. rewrite Z.add_0_r, u16_id by (widths; lia).
  replace ((t ++ [0]) ++ replicate (72 - length (t ++ [0])) 0) with (t ++ replicate (72 - length t) 0); [reflexivity|].
  rewrite <- app_assoc, length_app. f_equal. replace (72 - length t)%nat with (S (72 - (length t + length [0])))%nat by (cbn; lia). done.
Qed.

(** The secret part of the text, and the text of a challenge. *)
Definition secret_text (w : world C) : list Z :=
  match auth_type (auth w) with
  | QB_AUTH_TYPE_PER_DEV => take (Z.to_nat (device_id_len (core w))) (device_id (core w)) ++ [44] ++ take (Z.to_nat (device_secret_len (core w))) (device_secret (core w))
  | _ => take (Z.to_nat (product_secret_len (core w))) (product_secret (core w))
  end.
Definition pid_text (w : world C) : list Z := qm_ble_hex2string (set_u32_be (product_id (core w))).
Definition key_text (w : world C) (r : list Z) : list Z := r ++ [44] ++ pid_text w ++ [44] ++ secret_text w.

(** The lengths of the core are those of its members. *)
Definition core_ok (c : qm_ble_core_t) : Prop :=
  0 <= product_secret_len c <= Z.of_nat (length (product_secret c)) /\ 0 <= device_id_len c <= Z.of_nat (length (device_id c)) /\
  0 <= device_secret_len c <= Z.of_nat (length (device_secret c)).

Lemma slice_prefix d n : 0 <= n <= Z.of_nat (length d) -> slice d 0 n = Some (take (Z.to_nat n) d).
Proof.
  intros Hn. pose proof (heap_slice_app [] (take (Z.to_nat n) d) (drop (Z.to_nat n) d)) as H. rewrite app_nil_l, take_drop in H.
  rewrite length_take, Nat.min_l, Z2Nat.id in H by lia. exact H.
Qed.

Lemma hex_text_length w : length (pid_text w) = 8%nat.
Proof. reflexivity. Qed.
Lemma pid_text_length w : QB_PID_STR_LEN = Z.of_nat (length (pid_text w)).
Proof. by rewrite hex_text_length. Qed.

Lemma device_id_step w t : 0 <= device_id_len (core w) <= Z.of_nat (length (device_id (core w))) -> QB_VERSION <> 3 ->
  let i := take (Z.to_nat (device_id_len (core w))) (device_id (core w)) in (length t + length i <= 72)%nat ->
  append_device_id (holding w t) = Ret (tt, holding w (t ++ i)).
Proof.
  intros Hi Hv. cbv zeta. intros Hl. unfold append_device_id. rewrite (ble_bind get _ _ _ _ eq_refl). change (core (holding w t)) with (core w).
  rewrite (proj2 (Z.eqb_neq _ _) Hv). field (slice_prefix _ _ Hi). apply append_step; [rewrite length_take; lia|done].
Qed.

Lemma collect_step w t : core_ok (core w) -> QB_VERSION <> 3 ->
  let d := pid_text w ++ [44] ++ secret_text w in
  (length t + length d < 72)%nat -> collect_ikm (holding w t) = Ret (tt, holding w (t ++ d)).
Proof.
  intros (Hp & Hi & Hs) Hv. cbv zeta. unfold collect_ikm. rewrite !length_app, hex_text_length. cbn [length]. intros Hl.
  rewrite (ble_bind get _ _ _ _ eq_refl). change (core (holding w t)) with (core w). change (auth_type (auth (holding w t))) with (auth_type (auth w)).
  fold (pid_text w). rewrite (ble_bind _ _ _ _ _ (append_step w t (pid_text w) QB_PID_STR_LEN (pid_text_length w) ltac:(rewrite hex_text_length; lia))).
  rewrite (ble_bind comma _ _ _ _ (append_step w (t ++ pid_text w) [44] 1 eq_refl ltac:(rewrite length_app, hex_text_length; cbn; lia))).
  set (t2 := (t ++ pid_text w) ++ [44]). assert (length t2 = length t + 9)%nat as L2 by (unfold t2; rewrite !length_app, hex_text_length; cbn; lia).
  replace (t ++ pid_text w ++ [44] ++ secret_text w) with (t2 ++ secret_text w) by (unfold t2; by rewrite <- !app_assoc). clearbody t2.
  unfold secret_text in *. destruct (auth_type (auth w)).
  1, 2: field (slice_prefix _ _ Hp); rewrite (ble_bind _ _ _ _ _ (append_step w t2 (take (Z.to_nat (product_secret_len (core w))) (product_secret (core w))) (product_secret_len (core w)) ltac:(rewrite length_take; lia) ltac:(lia)));
    apply terminate_step; rewrite length_app; lia.
  rewrite !length_app in Hl. cbn [length] in Hl. set (i := take _ (device_id (core w))) in *. set (k := take _ (device_secret (core w))) in *.
  rewrite (ble_bind append_device_id _ _ _ _ (device_id_step w t2 Hi Hv ltac:(fold i; lia))). fold i.
  rewrite (ble_bind comma _ _ _ _ (append_step w (t2 ++ i) [44] 1 eq_refl ltac:(rewrite length_app; cbn; lia))).
  field (slice_prefix _ _ Hs). fold k.
  rewrite (ble_bind _ _ _ _ _ (append_step w ((t2 ++ i) ++ [44]) k (device_secret_len (core w)) ltac:(unfold k; rewrite length_take; lia) ltac:(rewrite !length_app; cbn; lia))).
  rewrite terminate_step by (rewrite !length_app; cbn; lia). by rewrite <- !app_assoc.
Qed.

Lemma key_text_bytes w r : List.Forall is_u8 r -> List.Forall is_u8 (secret_text w) -> List.Forall is_u8 (key_text w r).
Proof.
  intros Hr Hs. assert (is_u8 44) as H44 by by split. unfold key_text. rewrite !Forall_app. split; [done|]. split; [by apply list.Forall_singleton|]. split; [|split; [by apply list.Forall_singleton|done]].
  unfold pid_text, qm_ble_hex2string. apply list.Forall_forall. intros x (y & Hy & _)%list_elem_of_bind.
  assert (forall n, is_u8 (qm_ble_hex2ascii n)) as Ha by (intros n; unfold qm_ble_hex2ascii; destruct (n <=? 9); apply u8_range).
  apply list_elem_of_In in Hy. destruct Hy as [<- | [<- | []]]; apply Ha.
Qed.

Context (accepts : nat -> bool) (handler : qm_ble_event_info_t -> world C -> outcome (world C)).

(** C27: A device that waits for a challenge derives the key of the link from it: the first 16 bytes of the
    SHA-256 digest (FIPS 180-4) of the challenge, the product and the secret.  It sets the key and answers with the challenge
    encrypted under it, which, if the AES context could be created, a peer with the same key turns back into the challenge.
    QB_VERSION is not 3 and the text of the secret has at most 45 bytes ([device_text_overflows] shows a longer one). *)
Theorem challenge_answered fuel w r : state (auth w) = QB_AUTH_STATE_SVC_ENABLED -> ikm (auth w) = zeros MAX_IKM_LEN -> ikm_len (auth w) = 0 ->
  core_ok (core w) -> QB_VERSION <> 3 -> length r = 16%nat -> List.Forall is_u8 r -> List.Forall is_u8 (secret_text w) -> (length (secret_text w) <= 45)%nat ->
  let k := take 16 (Sha256.Fips180.sha256 (key_text w r)) in
  let answer := match qm_ble_aes128_init k Ble.iv with Some c => qm_ble_aes128_cbc_encrypt c r | None => replicate 16 0 end in
  exists w1, p_key w1 = Some k /\ p_aes_ctx w1 = qm_ble_aes128_init k Ble.iv /\ state (auth w1) = QB_AUTH_STATE_VERIFY /\ core w1 = core w /\ svc w1 = svc w /\ tx w1 = tx w /\ air w1 = air w /\
    qm_ble_auth_rx_command accepts handler fuel QM_BLE_CMD_SET_RAND r w =
      (err ← tx_func_indicate accepts handler fuel QM_BLE_CMD_AUTH answer RANDOM_SEQ_LEN;
       if negb (err =? QB_SUCCESS) then qm_ble_core_handle_err handler QM_ERROR_AUTH_CIPHER_RPT err else auth_finish handler) w1 /\
    forall c, p_aes_ctx w1 = Some c -> qm_ble_aes128_cbc_decrypt c answer = r.
Proof.
  intros Hs Hi Hn Hc Hv Hr Hu Hsu Hl k answer. set (w0 := with_auth (set_auth_state QB_AUTH_STATE_VERIFY (auth w)) w).
  assert (length (key_text w r) <= 71)%nat as Hkl by (unfold key_text; rewrite !length_app, hex_text_length, Hr; cbn; lia).
  exists (with_key (Some k) (qm_ble_aes128_init k Ble.iv) (with_auth (set_okm k (auth (holding w0 (key_text w r)))) (holding w0 (key_text w r)))).
  do 7 (split; [done|]). split.
  - unfold qm_ble_auth_rx_command. rewrite Hr. change (Z.of_nat 16 =? 0) with false. change (Z.of_nat 16 =? RANDOM_SEQ_LEN) with true. cbn match.
    rewrite (ble_bind get _ _ _ _ eq_refl), Hs. change (QM_BLE_CMD_SET_RAND =? QM_BLE_CMD_SET_RAND) with true. cbn match. cbn [negb].
    rewrite <- (holding_start w Hi Hn) at 1. rewrite (ble_bind _ _ _ _ _ (append_step w [] r RANDOM_SEQ_LEN ltac:(by rewrite Hr) ltac:(cbn; lia))). rewrite app_nil_l.
    rewrite (ble_bind comma _ _ _ _ (append_step w r [44] 1 eq_refl ltac:(cbn; lia))).
    rewrite (ble_bind (upd_auth (set_auth_state QB_AUTH_STATE_VERIFY)) _ (holding w (r ++ [44])) tt (holding w0 (r ++ [44])) eq_refl).
    assert (collect_ikm (holding w0 (r ++ [44])) = Ret (tt, holding w0 (key_text w r))) as Hcol.
    { rewrite (collect_step w0 (r ++ [44]) Hc Hv) by (change (pid_text w0) with (pid_text w); change (secret_text w0) with (secret_text w); rewrite !length_app, hex_text_length; cbn; lia).
      unfold key_text. rewrite <- app_assoc. done. }
    rewrite (ble_bind collect_ikm _ _ _ _ Hcol).
    assert (update_aes_key (holding w0 (key_text w r)) = Ret (tt, with_key (Some k) (qm_ble_aes128_init k Ble.iv) (with_auth (set_okm k (auth (holding w0 (key_text w r)))) (holding w0 (key_text w r))))) as Hup.
    { unfold update_aes_key. rewrite (ble_bind get _ _ _ _ eq_refl). change (ikm (auth (holding w0 (key_text w r)))) with (key_text w r ++ replicate (72 - length (key_text w r)) 0).
      change (ikm_len (auth (holding w0 (key_text w r)))) with (Z.of_nat (length (key_text w r))). field (slice_prefix (key_text w r ++ replicate (72 - length (key_text w r)) 0) (Z.of_nat (length (key_text w r))) ltac:(rewrite length_app; lia)).
      rewrite Nat2Z.id, take_app_length. change (qm_sha256 (key_text w r)) with (Sha256.qm_utils_sha256 (key_text w r)).
      rewrite Sha256.sha256_whole by (try (by apply key_text_bytes); lia). change (Z.to_nat MAX_OKM_LEN) with 16%nat. fold k. reflexivity. }
    rewrite (ble_bind update_aes_key _ _ _ _ Hup). rewrite (ble_bind get _ _ _ _ eq_refl). reflexivity.
  - intros c Hctx. change (qm_ble_aes128_init k Ble.iv = Some c) in Hctx. unfold answer. rewrite Hctx. exact (cbc_roundtrip c 1 r Hr Hu).
Qed.

(** The peer decides about the handshake: any peer that answers 0 is taken for authenticated. *)
Lemma verdict_of_peer fuel w v : state (auth w) = QB_AUTH_STATE_VERIFY ->
  qm_ble_auth_rx_command accepts handler fuel QM_BLE_CMD_AUTH [v] w =
    if v =? 0 then (qm_ble_core_event_notify handler QB_EVENT_AUTHENTICATED;; upd_auth (set_auth_timer false)) (with_auth (set_auth_state QB_AUTH_STATE_DONE (auth w)) w)
    else (upd_auth (set_auth_timer false);; qm_ble_disconnect) (with_auth (set_auth_state QB_AUTH_STATE_FAILED (auth w)) w).
Proof.
  intros Hs. unfold qm_ble_auth_rx_command. change (Z.of_nat (length [v]) =? 0) with false. cbn match. rewrite (ble_bind get _ _ _ _ eq_refl), Hs.
  change ((QM_BLE_CMD_AUTH =? QM_BLE_CMD_AUTH) && (Z.of_nat (length [v]) =? 1)) with true. cbn match.
  change ([v] !! 0%nat) with (Some v). unfold auth_finish. destruct (v =? 0) eqn:E; unfold mbind, M_bind, lift, of_option, upd_auth, get; cbn -[qm_ble_core_event_notify]; rewrite E; reflexivity.
Qed.
End auth.

(** ** Concrete handshakes *)

#[local] Instance auth_cfg : BleConfig :=
  {| EN_LONG_MTU := false; BLE_4_2 := false; QB_VERSION := 2; QB_MAX_FRAME_NUMBER := 10; frame_number_range := conj (Zle_bool_imp_le 5 10 eq_refl) (Zle_bool_imp_le 10 20 eq_refl) |}.
#[local] Instance auth_aes : BleAes := Aes.Aes.BleSec.esp32_aes true.
#[local] Existing Instance Sha256.sha256_hash.

Definition yes (n : nat) : bool := true.
Definition silent (e : qm_ble_event_info_t) (w : world unit) : outcome (world unit) := Ret w.
(** A device with a product secret of eight bytes, a name of [n] bytes and a device secret of 32. *)
Definition device (t : auth_kind) (n : Z) : world unit :=
  mk_world blank_tx blank_rx 0 20 None 0 None (mk_service BLE_CONN_HANDLE_MAGIC true true 20)
    (mk_auth QB_AUTH_STATE_SVC_ENABLED true (zeros MAX_IKM_LEN) 0 (zeros MAX_OKM_LEN) t)
    (mk_core (zeros 16) 0 (zeros 25) 0x12345678 (zeros 6) (zeros 11) 0 (replicate 8 65 ++ zeros 24) 8 (replicate 32 66) n (replicate 32 67) 32) [] 0 tt.
Definition challenge : list Z := Z.of_nat <$> seq 20 16.

Lemma challenge_answered_witness : exists w1 : world unit,
  p_key w1 = Some (take 16 (Sha256.Fips180.sha256 (challenge ++ [44; 49; 50; 51; 52; 53; 54; 55; 56; 44] ++ replicate 8 65))) /\ state (auth w1) = QB_AUTH_STATE_VERIFY.
Proof.
  destruct (challenge_answered yes silent 3 (device QB_AUTH_TYPE_PER_PK 8) challenge) as (w1 & H1 & _ & H2 & _).
  - reflexivity.
  - reflexivity.
  - reflexivity.
  - split_and!; vm_compute; done.
  - done.
  - reflexivity.
  - apply Words.Words.u8b_list. vm_compute. done.
  - apply Words.Words.u8b_list. vm_compute. done.
  - apply Nat.leb_le. vm_compute. done.
  - exists w1. split; [exact H1|exact H2].
Defined.

(** The text of a device with a name of 16 bytes and a secret of 32 does not fit its buffer of 72 bytes. *)
Theorem device_text_overflows : is_oob (qm_ble_auth_rx_command yes silent 3 QM_BLE_CMD_SET_RAND challenge (device QB_AUTH_TYPE_PER_DEV 16)) = true.
Proof. vm_compute. reflexivity. Qed.
End BleAuth.
