(* ===== verification/Digest.v ===== *)
(** * The contexts of MD5 and SHA-1 (utility/md5, utility/sha1)

    The two files count bytes, fill the buffer and finish a message with the same text; they
    differ in the compression of a block and in the order of bytes.  The text is here, with
    the compression as a parameter, and the proof that a message given in pieces is hashed
    as a whole. *)

From S2P Require Import Prelude Words Merkle.
Import list_relations.list list_basics.list Words Merkle.
Open Scope Z_scope.

Module Digest.

(** [total], and [state] with [buffer]. *)
Record hash_context := mk_hash { total : Z * Z; ctx : context (list Z) }.

(** [iot_md5_padding] and [iot_sha1_padding]. *)
Definition iot_padding : list Z := 0x80 :: replicate 63 0.

(** [memset] of the context. *)
Definition hash_init (words : nat) : hash_context := mk_hash (0, 0) (mk_context (replicate words 0) (replicate 64 0)).

(** [S(x,n)] *)
Definition S (x n : Z) : Z := Z.lor (u32 (Z.shiftl x n)) (Z.shiftr (Z.land x 0xFFFFFFFF) (32 - n)).

Section code.
Context (process : context (list Z) -> list Z -> context (list Z)).

Definition hash_update (x : hash_context) (input : list Z) : hash_context :=
  let ilen := Z.of_nat (length input) in
  if ilen =? 0 then x
  else
    let '(t0, t1) := total x in
    let left := Z.land t0 0x3F in
    let t0 := Z.land (u32 (t0 + u32 ilen)) 0xFFFFFFFF in
    let t1 := if t0 <? u32 ilen then u32 (t1 + 1) else t1 in
    mk_hash (t0, t1) (feed process (ctx x) (Z.to_nat left) input).

(** [put_length] stores the two halves of the number of bits, [put] a word of the state. *)
Definition hash_finish (put_length : Z -> Z -> list Z) (put : Z -> list Z) (x : hash_context) : list Z * hash_context :=
  let '(t0, t1) := total x in
  let high := Z.lor (Z.shiftr t0 29) (u32 (Z.shiftl t1 3)) in
  let low := u32 (Z.shiftl t0 3) in
  let msglen := put_length high low in
  let last := Z.land t0 0x3F in
  let padn := if last <? 56 then 56 - last else 120 - last in
  let x := hash_update x (take (Z.to_nat padn) iot_padding) in
  let x := hash_update x msglen in
  (concat (put <$> state (ctx x)), x).

(** ** What a context has been given *)

Context (compress : list Z -> list Z -> list Z) (ok : list Z -> Prop) (s0 : list Z).
Context (process_state : forall c d, ok (state c) -> length d = 64%nat -> List.Forall is_u8 d -> state (process c d) = compress (state c) d /\ ok (state (process c d))).
Context (process_buffer : forall c d, buffer (process c d) = buffer c).

Definition given (x : hash_context) (m : list Z) : Prop :=
  holds compress ok s0 (ctx x) m /\ total x = (u32 (Z.of_nat (length m)), u32 (Z.of_nat (length m) / 2 ^ 32)).

Lemma fill_of n : Z.to_nat (Z.land (u32 (Z.of_nat n)) 0x3F) = (n mod 64)%nat.
Proof.
  change 0x3F with (Z.ones 6). rewrite Z.land_ones by lia. unfold u32. rewrite Z.mod_mod_divide by (exists (2 ^ 26); reflexivity).
  change (2 ^ 6) with (Z.of_nat 64). rewrite <- Nat2Z.inj_mod. apply Nat2Z.id.
Qed.

(** The two halves of the count, with the carry. *)
Lemma count_add n k : 0 <= n -> 0 < k < 2 ^ 32 ->
  Z.land (u32 (u32 n + u32 k)) 0xFFFFFFFF = u32 (n + k) /\ (if u32 (n + k) <? u32 k then u32 (u32 (n / 2 ^ 32) + 1) else u32 (n / 2 ^ 32)) = u32 ((n + k) / 2 ^ 32).
Proof.
  intros Hn Hk. change 0xFFFFFFFF with (Z.ones 32). rewrite Z.land_ones by lia. rewrite u32_add_l, u32_add_r. split; [apply Z.mod_mod; lia|].
  rewrite u32_add_l. rewrite (u32_id k) by (widths; lia). pose proof (Z.div_mod n (2 ^ 32) ltac:(lia)) as Hd. pose proof (Z.mod_pos_bound n (2 ^ 32) ltac:(lia)) as Hr.
  set (q := n / 2 ^ 32) in *. set (r := n mod 2 ^ 32) in *. destruct (Z.lt_ge_cases (r + k) (2 ^ 32)) as [H|H].
  - assert ((n + k) / 2 ^ 32 = q) as -> by (symmetry; apply (Z.div_unique_pos _ _ _ (r + k)); lia).
    assert (u32 (n + k) = r + k) as -> by (unfold u32; symmetry; apply (Z.mod_unique_pos _ _ q); lia). by rewrite (proj2 (Z.ltb_ge _ _)) by lia.
  - assert ((n + k) / 2 ^ 32 = q + 1) as -> by (symmetry; apply (Z.div_unique_pos _ _ _ (r + k - 2 ^ 32)); lia).
    assert (u32 (n + k) = r + k - 2 ^ 32) as -> by (unfold u32; symmetry; apply (Z.mod_unique_pos _ _ (q + 1)); lia). by rewrite (proj2 (Z.ltb_lt _ _)) by lia.
Qed.

Lemma hash_update_given x m input : given x m -> List.Forall is_u8 input -> Z.of_nat (length input) < 2 ^ 32 -> given (hash_update x input) (m ++ input).
Proof using process_state process_buffer.
  intros [Hh Ht] Hi Hl. unfold hash_update. destruct (Z.eqb_spec (Z.of_nat (length input)) 0) as [H0|H0].
  { destruct input; [|done]. by rewrite app_nil_r. }
  rewrite Ht, fill_of. destruct (count_add (Z.of_nat (length m)) (Z.of_nat (length input)) ltac:(lia) ltac:(lia)) as [-> C2].
  split; cbn [ctx total].
  - apply feed_holds; [done| |done|done]. intros c d _ Hb Hu. by rewrite process_buffer.
  - rewrite C2, length_app, Nat2Z.inj_add. done.
Qed.

Lemma hash_starts_given b : ok s0 -> length b = 64%nat -> List.Forall is_u8 b -> given (mk_hash (0, 0) (mk_context s0 b)) [].
Proof. intros Ho Hb Hu. split; [|done]. split; [done|]. split; [done|]. split; [done|]. by split. Qed.

Lemma hash_updates_given x m pieces : given x m -> List.Forall (fun p => List.Forall is_u8 p /\ Z.of_nat (length p) < 2 ^ 32) pieces -> given (foldl hash_update x pieces) (m ++ concat pieces).
Proof using process_state process_buffer.
  intros Hg Hp. revert x m Hg. induction Hp as [|p pieces [Hp Hl] Hps IH]; intros x m Hg; cbn [foldl concat]; [by rewrite app_nil_r|].
  rewrite app_assoc. apply IH. by apply hash_update_given.
Qed.

(** ** The end of a message *)

Lemma lor_low a b : 0 <= a < 8 -> 0 <= b -> Z.lor a (8 * b) = a + 8 * b.
Proof.
  intros Ha Hb. rewrite <- Z.add_lor_land. assert (Z.land a (8 * b) = 0) as ->; [|lia].
  apply Z.bits_inj'. intros n Hn. rewrite Z.land_spec, Z.bits_0. change 8 with (2 ^ 3). rewrite (Z.mul_comm (2 ^ 3)), Z.mul_pow2_bits by lia.
  destruct (Z.lt_ge_cases n 3) as [H|H]; [by rewrite (Z.testbit_neg_r b), andb_false_r by lia|].
  destruct (Z.eq_dec a 0) as [->|]; [by rewrite Z.bits_0|]. rewrite Z.bits_above_log2; [done|lia|]. apply Z.lt_le_trans with 3; [apply Z.log2_lt_pow2; lia|done].
Qed.

(** The number of bits in two words. *)
Lemma bit_count n : 0 <= n ->
  Z.lor (Z.shiftr (u32 n) 29) (u32 (Z.shiftl (u32 (n / 2 ^ 32)) 3)) = u32 (8 * n / 2 ^ 32) /\ u32 (Z.shiftl (u32 n) 3) = u32 (8 * n).
Proof.
  intros Hn. rewrite !Z.shiftl_mul_pow2, Z.shiftr_div_pow2 by lia. change (2 ^ 3) with 8. split.
  - unfold u32. assert ((n / 2 ^ 32) mod 2 ^ 32 * 8 mod 2 ^ 32 = 8 * ((n / 2 ^ 32) mod 2 ^ 29)) as ->.
    { rewrite Zmult_mod_idemp_l, Z.mul_comm. change (2 ^ 32) with (8 * 2 ^ 29) at 2. by rewrite Zmult_mod_distr_l. }
    pose proof (Z.mod_pos_bound n (2 ^ 32) ltac:(lia)) as H1. pose proof (Z.mod_pos_bound (n / 2 ^ 32) (2 ^ 29) ltac:(lia)) as H2.
    rewrite lor_low; [|split; [apply Z.div_pos; lia|apply Z.div_lt_upper_bound; lia]|lia]. change (2 ^ 32) with 4294967296. change (2 ^ 29) with 536870912.
    Z.div_mod_to_equations. lia.
  - unfold u32. rewrite Zmult_mod_idemp_l. f_equal. lia.
Qed.

Lemma padding_cut n len : let last := Z.of_nat (n mod 64) in
  take (Z.to_nat (if last <? 56 then 56 - last else 120 - last)) iot_padding ++ len = padding n len /\ 0 < (if last <? 56 then 56 - last else 120 - last) <= 64.
Proof.
  intros last. pose proof (Nat.mod_upper_bound n 64 ltac:(lia)) as Hm. unfold padding. rewrite padding_zeros by done. unfold last.
  destruct (Z.ltb_spec (Z.of_nat (n mod 64)) 56) as [H|H].
  - rewrite (proj2 (Nat.leb_le _ _)) by lia. split; [|lia]. replace (Z.to_nat (56 - Z.of_nat (n mod 64))) with (Datatypes.S (55 - n mod 64))%nat by lia.
    unfold iot_padding. cbn [take]. rewrite take_replicate, Nat.min_l by lia. done.
  - rewrite (proj2 (Nat.leb_gt _ _)) by lia. split; [|lia]. replace (Z.to_nat (120 - Z.of_nat (n mod 64))) with (Datatypes.S (119 - n mod 64))%nat by lia.
    unfold iot_padding. cbn [take]. rewrite take_replicate, Nat.min_l by lia. done.
Qed.

Lemma iot_padding_u8 : List.Forall is_u8 iot_padding.
Proof. apply List.Forall_cons; [by split|apply zeros_u8]. Qed.

(** The digest is that of the whole message, padded with its number of bits. *)
Lemma hash_finish_given put_length put x m :
  let len n := put_length (u32 (8 * Z.of_nat n / 2 ^ 32)) (u32 (8 * Z.of_nat n)) in
  (forall n, length (len n) = 8%nat /\ List.Forall is_u8 (len n)) -> given x m ->
  fst (hash_finish put_length put x) = concat (put <$> iterate compress s0 len m).
Proof using process_state process_buffer.
  intros len Hlen Hg. pose proof Hg as [_ Ht]. unfold hash_finish. rewrite Ht. destruct (bit_count (Z.of_nat (length m)) ltac:(lia)) as [-> ->].
  fold (len (length m)). destruct (Hlen (length m)) as [L1 L2]. pose proof (fill_of (length m)) as Hf.
  assert (Z.land (u32 (Z.of_nat (length m))) 63 = Z.of_nat (length m mod 64)) as -> by (rewrite <- Hf, Z2Nat.id; [done|]; apply Z.land_nonneg; lia).
  destruct (padding_cut (length m) (len (length m))) as [P1 P2]. cbv zeta. cbn [fst]. set (padn := Z.to_nat (if Z.of_nat (length m mod 64) <? 56 then _ else _)) in *.
  pose proof (hash_update_given x m (take padn iot_padding) Hg (Forall_take _ _ _ iot_padding_u8) ltac:(rewrite length_take; cbn; lia)) as G1.
  pose proof (hash_update_given _ _ (len (length m)) G1 L2 ltac:(rewrite L1; reflexivity)) as [(Hs & _) _]. by rewrite Hs, <- app_assoc, P1.
Qed.
End code.

(** A rotation of a word. *)
Definition ROTL (n x : Z) : Z := Z.lor (u32 (Z.shiftl x n)) (Z.shiftr x (32 - n)).
Lemma S_ROTL x n : is_u32 x -> S x n = ROTL n x.
Proof. intros Hx. unfold S, ROTL. change 0xFFFFFFFF with (Z.ones 32). rewrite Z.land_ones by lia. fold (u32 x). by rewrite (u32_id x). Qed.
Lemma ROTL_u32 n x : 0 <= n -> n < 32 -> is_u32 x -> is_u32 (ROTL n x).
Proof.
  intros H0 Hn Hx. apply below_bits; [lia|apply Z.lor_nonneg; split; [apply u32_range|apply Z.shiftr_nonneg; unfold is_u32 in Hx; lia]|].
  intros k Hk. unfold ROTL, u32. rewrite Z.lor_spec, Z.mod_pow2_bits_high, Z.shiftr_spec, (word_high x) by (done || lia). done.
Qed.

(** Words of a state, each put into [k] bytes. *)
Lemma put_bytes (put : Z -> list Z) k ws : (forall w, length (put w) = k /\ List.Forall is_u8 (put w)) -> length (concat (put <$> ws)) = (k * length ws)%nat /\ List.Forall is_u8 (concat (put <$> ws)).
Proof.
  intros Hp. induction ws as [|w ws [IH1 IH2]]; [split; [cbn; lia|apply List.Forall_nil]|]. rewrite fmap_cons. cbn [concat]. destruct (Hp w) as [H1 H2]. rewrite length_app, IH1, H1. split; [cbn; lia|]. apply list.Forall_app. by split.
Qed.

(** A byte of the low half. *)
Lemma u8_of_u32 y j : 0 <= j < 4 -> u8 (u32 y / 2 ^ (8 * j)) = u8 (y / 2 ^ (8 * j)).
Proof.
  intros Hj. unfold u8, u32. rewrite <- !Z.shiftr_div_pow2 by lia. apply Z.bits_inj'. intros b Hb. destruct (Z.lt_ge_cases b 8) as [H|H]; [|by rewrite !Z.mod_pow2_bits_high by lia].
  rewrite !Z.mod_pow2_bits_low, !Z.shiftr_spec, Z.mod_pow2_bits_low by lia. done.
Qed.
End Digest.
