(* ===== verification/Md5.v ===== *)
(** * MD5 (utility/md5/qm_utils_md5.c)

    The compression of a block, line by line, and the functions on contexts; the digest is
    that of RFC 1321, whose constants are computed from the sine. *)

From S2P Require Import Prelude Words Merkle Digest.
Import list_relations.list list_basics.list Words Merkle Digest.
Open Scope Z_scope.

Module Md5.

(** [A], [B], [C] and [D] are the elements of a list. *)
Definition RA : nat := 0.
Definition RB : nat := 1.
Definition RC : nat := 2.
Definition RD : nat := 3.

(** A use of the macro [P], with the registers in their roles. *)
Record line := P { ra : nat; rb : nat; rc : nat; rd : nat; k : nat; s : Z; t : Z }.

(** [F] of the four rounds. *)
Definition F1 (x y z : Z) : Z := Z.lxor z (Z.land x (Z.lxor y z)).
Definition F2 (x y z : Z) : Z := Z.lxor y (Z.land z (Z.lxor x y)).
Definition F3 (x y z : Z) : Z := Z.lxor (Z.lxor x y) z.
Definition F4 (x y z : Z) : Z := Z.lxor y (Z.lor x (u32 (Z.lnot z))).

Definition run_line (F : Z -> Z -> Z -> Z) (X r : list Z) (l : line) : list Z :=
  let a := u32 (at_n r (ra l) + (F (at_n r (rb l)) (at_n r (rc l)) (at_n r (rd l)) + at_n X (k l) + t l)) in
  <[ra l := u32 (S a (s l) + at_n r (rb l))]> r.

Definition lines1 : list line := [
  P RA RB RC RD 0 7 0xD76AA478; P RD RA RB RC 1 12 0xE8C7B756;
  P RC RD RA RB 2 17 0x242070DB; P RB RC RD RA 3 22 0xC1BDCEEE;
  P RA RB RC RD 4 7 0xF57C0FAF; P RD RA RB RC 5 12 0x4787C62A;
  P RC RD RA RB 6 17 0xA8304613; P RB RC RD RA 7 22 0xFD469501;
  P RA RB RC RD 8 7 0x698098D8; P RD RA RB RC 9 12 0x8B44F7AF;
  P RC RD RA RB 10 17 0xFFFF5BB1; P RB RC RD RA 11 22 0x895CD7BE;
  P RA RB RC RD 12 7 0x6B901122; P RD RA RB RC 13 12 0xFD987193;
  P RC RD RA RB 14 17 0xA679438E; P RB RC RD RA 15 22 0x49B40821].
Definition lines2 : list line := [
  P RA RB RC RD 1 5 0xF61E2562; P RD RA RB RC 6 9 0xC040B340;
  P RC RD RA RB 11 14 0x265E5A51; P RB RC RD RA 0 20 0xE9B6C7AA;
  P RA RB RC RD 5 5 0xD62F105D; P RD RA RB RC 10 9 0x02441453;
  P RC RD RA RB 15 14 0xD8A1E681; P RB RC RD RA 4 20 0xE7D3FBC8;
  P RA RB RC RD 9 5 0x21E1CDE6; P RD RA RB RC 14 9 0xC33707D6;
  P RC RD RA RB 3 14 0xF4D50D87; P RB RC RD RA 8 20 0x455A14ED;
  P RA RB RC RD 13 5 0xA9E3E905; P RD RA RB RC 2 9 0xFCEFA3F8;
  P RC RD RA RB 7 14 0x676F02D9; P RB RC RD RA 12 20 0x8D2A4C8A].
Definition lines3 : list line := [
  P RA RB RC RD 5 4 0xFFFA3942; P RD RA RB RC 8 11 0x8771F681;
  P RC RD RA RB 11 16 0x6D9D6122; P RB RC RD RA 14 23 0xFDE5380C;
  P RA RB RC RD 1 4 0xA4BEEA44; P RD RA RB RC 4 11 0x4BDECFA9;
  P RC RD RA RB 7 16 0xF6BB4B60; P RB RC RD RA 10 23 0xBEBFBC70;
  P RA RB RC RD 13 4 0x289B7EC6; P RD RA RB RC 0 11 0xEAA127FA;
  P RC RD RA RB 3 16 0xD4EF3085; P RB RC RD RA 6 23 0x04881D05;
  P RA RB RC RD 9 4 0xD9D4D039; P RD RA RB RC 12 11 0xE6DB99E5;
  P RC RD RA RB 15 16 0x1FA27CF8; P RB RC RD RA 2 23 0xC4AC5665].
Definition lines4 : list line := [
  P RA RB RC RD 0 6 0xF4292244; P RD RA RB RC 7 10 0x432AFF97;
  P RC RD RA RB 14 15 0xAB9423A7; P RB RC RD RA 5 21 0xFC93A039;
  P RA RB RC RD 12 6 0x655B59C3; P RD RA RB RC 3 10 0x8F0CCC92;
  P RC RD RA RB 10 15 0xFFEFF47D; P RB RC RD RA 1 21 0x85845DD1;
  P RA RB RC RD 8 6 0x6FA87E4F; P RD RA RB RC 15 10 0xFE2CE6E0;
  P RC RD RA RB 6 15 0xA3014314; P RB RC RD RA 13 21 0x4E0811A1;
  P RA RB RC RD 4 6 0xF7537E82; P RD RA RB RC 11 10 0xBD3AF235;
  P RC RD RA RB 2 15 0x2AD7D2BB; P RB RC RD RA 9 21 0xEB86D391].

Definition words_of (data : list Z) : list Z := (fun i => load_le data (4 * i)) <$> seq 0 16.

Definition qm_utils_md5_process (c : context (list Z)) (data : list Z) : context (list Z) :=
  let X := words_of data in
  let st := state c in
  let r := [at_n st 0; at_n st 1; at_n st 2; at_n st 3] in
  let r := foldl (run_line F1 X) r lines1 in
  let r := foldl (run_line F2 X) r lines2 in
  let r := foldl (run_line F3 X) r lines3 in
  let r := foldl (run_line F4 X) r lines4 in
  mk_context [u32 (at_n st 0 + at_n r RA); u32 (at_n st 1 + at_n r RB); u32 (at_n st 2 + at_n r RC); u32 (at_n st 3 + at_n r RD)] (buffer c).

Definition md5_start : list Z := [0x67452301; 0xEFCDAB89; 0x98BADCFE; 0x10325476].

(** [qm_md5_context] is [hash_context]. *)
Definition qm_utils_md5_init : hash_context := hash_init 4.
Definition qm_utils_md5_starts (x : hash_context) : hash_context := mk_hash (0, 0) (mk_context md5_start (buffer (ctx x))).
Definition qm_utils_md5_update : hash_context -> list Z -> hash_context := hash_update qm_utils_md5_process.
Definition qm_utils_md5_finish : hash_context -> list Z * hash_context :=
  hash_finish qm_utils_md5_process (fun high low => store_le low ++ store_le high) store_le.
Definition qm_utils_md5 (input : list Z) : list Z := fst (qm_utils_md5_finish (qm_utils_md5_update (qm_utils_md5_starts qm_utils_md5_init) input)).

(** The result is [int8_t]; every value is an ASCII character. *)
Definition qm_utils_hb2hex (hb : Z) : Z :=
  let hb := Z.land hb 0xF in
  if hb <? 10 then 48 + hb else hb - 10 + 97.

(** One half byte; the branch that is not taken by any value leaves [output_char]. *)
Definition half_text (x output_char : Z) : Z :=
  if x <=? 9 then x + 48 else if 10 <=? x then x + 97 - 10 else output_char.
Fixpoint qm_utils_md5_hexstr (input : list Z) (output_char : Z) : list Z :=
  match input with
  | [] => []
  | b :: rest =>
      let h := half_text (Z.land (Z.shiftr b 4) 0x0F) output_char in
      let l := half_text (Z.land b 0x0F) h in
      h :: l :: qm_utils_md5_hexstr rest l
  end.

(** ** The standard (RFC 1321) *)

Module Rfc1321.

(** The sine of an integer angle by its power series, with 256 binary places; [u] is the
    term of order [2 j + 1]. *)
Fixpoint sine_terms (n : nat) (j x u : Z) : Z :=
  match n with
  | O => 0
  | Datatypes.S n => u + sine_terms n (j + 1) x (- (u * x * x) / ((2 * j + 2) * (2 * j + 3)))
  end.
(** The integer part of [2^32 * |sin i|]. *)
Definition T (i : nat) : Z := Z.abs (sine_terms 160 0 (Z.of_nat i) (Z.of_nat i * 2 ^ 256)) / 2 ^ 224.

Definition NOT (x : Z) : Z := 2 ^ 32 - 1 - x.
Definition f (i : nat) (x y z : Z) : Z :=
  match (i / 16)%nat with
  | 0%nat => Z.lor (Z.land x y) (Z.land (NOT x) z)
  | 1%nat => Z.lor (Z.land x z) (Z.land y (NOT z))
  | 2%nat => Z.lxor (Z.lxor x y) z
  | _ => Z.lxor y (Z.lor x (NOT z))
  end.
(** The word that step [i] takes, and its rotation. *)
Definition index (i : nat) : nat :=
  match (i / 16)%nat with
  | 0%nat => i
  | 1%nat => ((5 * i + 1) mod 16)%nat
  | 2%nat => ((3 * i + 5) mod 16)%nat
  | _ => ((7 * i) mod 16)%nat
  end.
Definition rotation (i : nat) : Z :=
  at_n (default [] ([[7; 12; 17; 22]; [5; 9; 14; 20]; [4; 11; 16; 23]; [6; 10; 15; 21]] !! (i / 16)%nat)) (i mod 4).

Definition regs : Type := Z * Z * Z * Z.
Definition step (X : list Z) (r : regs) (i : nat) : regs :=
  let '(a, b, c, d) := r in
  (d, u32 (b + ROTL (rotation i) (u32 (a + f i b c d + at_n X (index i) + T (i + 1)))), b, c).

(** Words with the low byte first. *)
Definition block_word (m : list Z) (i : nat) : Z := at_n m (4 * i) + 2 ^ 8 * at_n m (4 * i + 1) + 2 ^ 16 * at_n m (4 * i + 2) + 2 ^ 24 * at_n m (4 * i + 3).
Definition compress (H m : list Z) : list Z :=
  let '(a, b, c, d) := foldl (step (block_word m <$> seq 0 16)) (at_n H 0, at_n H 1, at_n H 2, at_n H 3) (seq 0 64) in
  [u32 (at_n H 0 + a); u32 (at_n H 1 + b); u32 (at_n H 2 + c); u32 (at_n H 3 + d)].

Definition bytes_le (n : nat) (x : Z) : list Z := (fun i => u8 (x / 2 ^ (8 * Z.of_nat i))) <$> seq 0 n.
(** The registers start with the digits in order, up and down. *)
Definition H0 : list Z := block_word [0x01; 0x23; 0x45; 0x67; 0x89; 0xAB; 0xCD; 0xEF; 0xFE; 0xDC; 0xBA; 0x98; 0x76; 0x54; 0x32; 0x10] <$> seq 0 4.
(** The number of bits, modulo 2^64. *)
Definition length_bytes (n : nat) : list Z := bytes_le 8 (8 * Z.of_nat n).
Definition md5 (m : list Z) : list Z := concat (bytes_le 4 <$> iterate compress H0 length_bytes m).

End Rfc1321.
Import Rfc1321.

(** ** Lines and steps *)

(** The registers in the roles of step [i]. *)
Definition roles (i : nat) : nat * nat * nat * nat :=
  match (i mod 4)%nat with
  | 0%nat => (RA, RB, RC, RD)
  | 1%nat => (RD, RA, RB, RC)
  | 2%nat => (RC, RD, RA, RB)
  | _ => (RB, RC, RD, RA)
  end.
Definition line_of (i : nat) : line := let '(a, b, c, d) := roles i in P a b c d (index i) (rotation i) (T (i + 1)).

Lemma lines_regular : lines1 = line_of <$> seq 0 16 /\ lines2 = line_of <$> seq 16 16 /\ lines3 = line_of <$> seq 32 16 /\ lines4 = line_of <$> seq 48 16.
Proof. split_and!; vm_compute; reflexivity. Qed.

Definition view (i : nat) (r : list Z) : regs := let '(a, b, c, d) := roles i in (at_n r a, at_n r b, at_n r c, at_n r d).

(** The functions of the code are those of the standard. *)
Lemma F_f i x y z : is_u32 x -> is_u32 y -> is_u32 z ->
  f i x y z = match (i / 16)%nat with 0%nat => F1 x y z | 1%nat => F2 x y z | 2%nat => F3 x y z | _ => F4 x y z end.
Proof.
  intros Hx Hy Hz. unfold f, NOT. rewrite <- !lnot_u32 by done.
  assert (forall u v, is_u32 v -> Z.land (u32 u) v = Z.land u v) as E.
  { intros u v Hv. apply Z.bits_inj'. intros n Hn. rewrite !Z.land_spec. unfold u32. destruct (Z.lt_ge_cases n 32) as [H|H]; [by rewrite Z.mod_pow2_bits_low|]. by rewrite (word_high v), !andb_false_r. }
  destruct (i / 16)%nat as [|[|[|]]]; [| |done|done].
  - rewrite E by done. unfold F1. bits_ac.
  - rewrite (Z.land_comm y), E by done. unfold F2. bits_ac.
Qed.

Definition words4 (r : list Z) : Prop := length r = 4%nat /\ List.Forall is_u32 r.

Lemma words4_cases r : words4 r -> exists a b c d, r = [a; b; c; d] /\ is_u32 a /\ is_u32 b /\ is_u32 c /\ is_u32 d.
Proof.
  intros [Hl Hu]. destruct r as [|a [|b [|c [|d [|]]]]]; try done. exists a, b, c, d. split; [done|].
  rewrite !list.Forall_cons in Hu. tauto.
Qed.

Lemma step_line F X r i : words4 r -> (forall x y z, is_u32 x -> is_u32 y -> is_u32 z -> F x y z = f i x y z) ->
  words4 (run_line F X r (line_of i)) /\ view (i + 1) (run_line F X r (line_of i)) = step X (view i r) i.
Proof.
  intros Hr HF. destruct (words4_cases r Hr) as (a & b & c & d & -> & Ha & Hb & Hc & Hd).
  assert (forall x n y, u32 (S (u32 x) n + y) = u32 (y + ROTL n (u32 x))) as E by (intros x n y; rewrite S_ROTL by apply u32_range; f_equal; lia).
  unfold line_of, view, roles. rewrite Nat.Div0.add_mod. change (1 mod 4)%nat with 1%nat. pose proof (Nat.mod_upper_bound i 4 ltac:(lia)) as Hm.
  destruct (i mod 4)%nat as [|[|[|[|]]]]; [..|lia]; unfold run_line; cbn [ra rb rc rd Md5.k Md5.s Md5.t RA RB RC RD]; unfold at_n; cbn -[T index rotation f S ROTL u32]; rewrite HF, E by done;
    (split; [split; [done|]; rewrite !list.Forall_cons; auto using u32_range|]); rewrite <- !Z.add_assoc; reflexivity.
Qed.

Lemma steps_lines F X r i n : words4 r -> (forall j x y z, (i <= j < i + n)%nat -> is_u32 x -> is_u32 y -> is_u32 z -> F x y z = f j x y z) ->
  words4 (foldl (run_line F X) r (line_of <$> seq i n)) /\ view (i + n) (foldl (run_line F X) r (line_of <$> seq i n)) = foldl (step X) (view i r) (seq i n).
Proof.
  revert i r. induction n as [|n IH]; intros i r Hr HF; [by rewrite Nat.add_0_r|]. cbn [seq]. rewrite fmap_cons. cbn [foldl].
  destruct (step_line F X r i Hr ltac:(intros; apply HF; lia || done)) as [H1 H2]. rewrite Nat.add_1_r in H2.
  destruct (IH (Datatypes.S i) _ H1 ltac:(intros; apply HF; lia || done)) as [H3 H4]. rewrite H2 in H4. by rewrite Nat.add_succ_r.
Qed.

(** ** Blocks and messages *)

Lemma words_of_spec d : List.Forall is_u8 d -> words_of d = block_word d <$> seq 0 16.
Proof.
  intros Hd. unfold words_of. apply list_fmap_ext. intros _ i _. rewrite load_W by done. unfold block_word, at_n, at_. rewrite !Nat2Z.id.
  assert (forall j, is_u8 (default 0 (d !! j))) as H by (intros j; pose proof (at_u8 d (Z.of_nat j) Hd) as H; unfold at_ in H; by rewrite Nat2Z.id in H).
  by rewrite W_sum by apply H.
Qed.

Lemma md5_process_spec c d : words4 (state c) -> length d = 64%nat -> List.Forall is_u8 d ->
  state (qm_utils_md5_process c d) = compress (state c) d /\ words4 (state (qm_utils_md5_process c d)).
Proof.
  intros Hs _ Hd. unfold qm_utils_md5_process, compress. cbn [state].
  assert (words4 [at_n (state c) 0; at_n (state c) 1; at_n (state c) 2; at_n (state c) 3]) as Hr.
  { destruct (words4_cases _ Hs) as (w0 & w1 & w2 & w3 & E & _). by rewrite E in Hs |- *. }
  rewrite words_of_spec by done. set (X := block_word d <$> seq 0 16). destruct lines_regular as (-> & -> & -> & ->).
  set (r0 := [at_n (state c) 0; at_n (state c) 1; at_n (state c) 2; at_n (state c) 3]) in *.
  assert (forall F i, (forall x y z, F x y z = match i with 0%nat => F1 x y z | 1%nat => F2 x y z | 2%nat => F3 x y z | _ => F4 x y z end) ->
    forall j x y z, (16 * i <= j < 16 * i + 16)%nat -> is_u32 x -> is_u32 y -> is_u32 z -> F x y z = f j x y z) as HF.
  { intros F i H j x y z Hj Hx Hy Hz. rewrite F_f by done. replace (j / 16)%nat with i by (apply (Nat.div_unique j 16 i (j - 16 * i)); lia). apply H. }
  destruct (steps_lines F1 X r0 0 16 Hr (HF F1 0%nat ltac:(done))) as [W1 V1].
  destruct (steps_lines F2 X _ 16 16 W1 (HF F2 1%nat ltac:(done))) as [W2 V2].
  destruct (steps_lines F3 X _ 32 16 W2 (HF F3 2%nat ltac:(done))) as [W3 V3].
  destruct (steps_lines F4 X _ 48 16 W3 (HF F4 3%nat ltac:(done))) as [W4 V4]. cbn [Nat.add] in V1, V2, V3, V4.
  set (r4 := foldl (run_line F4 X) _ _) in *. split; [|split; [done|]; rewrite !list.Forall_cons; auto using u32_range].
  change (at_n (state c) 0, at_n (state c) 1, at_n (state c) 2, at_n (state c) 3) with (view 0 r0).
  change (seq 0 64) with (seq 0 16 ++ seq 16 16 ++ seq 32 16 ++ seq 48 16). rewrite !foldl_app, <- V1, <- V2, <- V3, <- V4. reflexivity.
Qed.

Lemma md5_process_buffer c d : buffer (qm_utils_md5_process c d) = buffer c.
Proof. reflexivity. Qed.

(** A digest is 16 bytes. *)
Lemma md5_digest_bytes m : length (md5 m) = 16%nat /\ List.Forall is_u8 (md5 m).
Proof.
  unfold md5. assert (length (iterate compress H0 length_bytes m) = 4%nat) as Hl.
  { unfold iterate. apply (absorb_keeps compress (fun s => length s = 4%nat)); [done|]. intros s blk _. unfold compress. by destruct (foldl _ _ _) as [[[a b] c] d]. }
  destruct (put_bytes (bytes_le 4) 4 (iterate compress H0 length_bytes m)) as [H1 H2]; [|by rewrite H1, Hl].
  intros w. unfold bytes_le. split; [by rewrite length_fmap, length_seq|]. apply list.Forall_fmap, list.Forall_forall. intros i _. apply u8_range.
Qed.

#[local] Opaque qm_utils_md5_process compress.

Lemma store_bytes w : store_le w = bytes_le 4 w.
Proof. unfold store_le, bytes_le. cbn -[u8 Z.pow]. rewrite !Z.shiftr_div_pow2 by lia. cbn [Z.mul Z.of_nat]. change (2 ^ (8 * Z.of_nat 0)) with 1. by rewrite Z.div_1_r. Qed.

Lemma md5_store_length n : store_le (u32 (8 * Z.of_nat n)) ++ store_le (u32 (8 * Z.of_nat n / 2 ^ 32)) = length_bytes n.
Proof.
  rewrite !store_bytes. unfold length_bytes. generalize (8 * Z.of_nat n) as x. intros x. unfold bytes_le. change (seq 0 8) with (seq 0 4 ++ seq 4 4). rewrite fmap_app.
  assert (forall y j, (j < 4)%nat -> u8 (u32 y / 2 ^ (8 * Z.of_nat j)) = u8 (y / 2 ^ (8 * Z.of_nat j))) as E by (intros y j Hj; apply u8_of_u32; lia).
  f_equal.
  - apply list_fmap_ext. intros _ j Hj%list_elem_of_lookup_2. apply elem_of_seq in Hj. apply E. lia.
  - change (seq 4 4) with ((fun j => 4 + j)%nat <$> seq 0 4). rewrite <- list_fmap_compose. apply list_fmap_ext. intros _ j Hj%list_elem_of_lookup_2. apply elem_of_seq in Hj. cbn [compose].
    unfold compose. rewrite E, Z.div_div by lia. rewrite <- Z.pow_add_r by lia. do 3 f_equal. lia.
Qed.

Lemma md5_length_bytes_ok n : length (length_bytes n) = 8%nat /\ List.Forall is_u8 (length_bytes n).
Proof. unfold length_bytes, bytes_le. split; [by rewrite length_fmap, length_seq|]. apply list.Forall_fmap, list.Forall_forall. intros i _. apply u8_range. Qed.

Lemma starts_md5 x : length (buffer (ctx x)) = 64%nat -> List.Forall is_u8 (buffer (ctx x)) -> given compress words4 md5_start (qm_utils_md5_starts x) [].
Proof. apply hash_starts_given. split; [done|]. by apply u32b_list. Qed.

Lemma md5_finished x m : given compress words4 md5_start x m -> fst (qm_utils_md5_finish x) = md5 m.
Proof.
  intros Hg. unfold qm_utils_md5_finish. rewrite (hash_finish_given _ compress words4 md5_start md5_process_spec md5_process_buffer _ _ x m); [|intros n; rewrite md5_store_length; apply md5_length_bytes_ok|done].
  unfold md5. change H0 with md5_start. f_equal. transitivity (store_le <$> iterate compress md5_start length_bytes m).
  - f_equal. unfold iterate. by rewrite md5_store_length.
  - apply list_fmap_ext. intros; apply store_bytes.
Qed.

Lemma update_md5 x m p : given compress words4 md5_start x m -> List.Forall is_u8 p -> Z.of_nat (length p) < 2 ^ 32 -> given compress words4 md5_start (qm_utils_md5_update x p) (m ++ p).
Proof. apply (hash_update_given _ compress words4 md5_start md5_process_spec md5_process_buffer). Qed.

(** A message hashed piece by piece, however it is cut (each piece of less than 2^32 bytes, the width of
    the counter), has the digest of RFC 1321 of the whole. *)
Theorem md5_pieces pieces : List.Forall (fun p => List.Forall is_u8 p /\ Z.of_nat (length p) < 2 ^ 32) pieces ->
  fst (qm_utils_md5_finish (foldl qm_utils_md5_update (qm_utils_md5_starts qm_utils_md5_init) pieces)) = md5 (concat pieces).
Proof.
  intros Hp. apply md5_finished. apply (hash_updates_given _ compress words4 md5_start md5_process_spec md5_process_buffer _ []); [|done].
  apply starts_md5; [done|apply zeros_u8].
Qed.

Lemma md5_pieces_witness : fst (qm_utils_md5_finish (foldl qm_utils_md5_update (qm_utils_md5_starts qm_utils_md5_init) [[0x61]; [0x62; 0x63]])) = md5 [0x61; 0x62; 0x63].
Proof.
  apply (md5_pieces [[0x61]; [0x62; 0x63]]). repeat (apply List.Forall_cons; [split; [repeat (apply List.Forall_cons; [by split|]); apply List.Forall_nil|reflexivity]|]). apply List.Forall_nil.
Defined.

(** The digest of "abc". *)
Example md5_abc : qm_utils_md5 [0x61; 0x62; 0x63] = [0x90; 0x01; 0x50; 0x98; 0x3C; 0xD2; 0x4F; 0xB0; 0xD6; 0x96; 0x3F; 0x7D; 0x28; 0xE1; 0x7F; 0x72].
Proof. vm_compute. reflexivity. Qed.

(** The text of a digest is its bytes, two digits each, as [qm_utils_hb2hex] writes them. *)
Lemma hexstr_digits input c : List.Forall is_u8 input -> qm_utils_md5_hexstr input c = input ≫= (fun b => [qm_utils_hb2hex (Z.shiftr b 4); qm_utils_hb2hex b]).
Proof.
  intros H. revert c. induction H as [|b input Hb H IH]; intros c; [done|]. cbn [qm_utils_md5_hexstr]. rewrite IH.
  assert (forall x o, half_text (Z.land x 0x0F) o = qm_utils_hb2hex x) as E.
  { intros x o. unfold half_text, qm_utils_hb2hex. change 0xF with (Z.ones 4). rewrite Z.land_ones by lia. pose proof (Z.mod_pos_bound x (2 ^ 4) ltac:(lia)).
    destruct (Z.leb_spec (x mod 2 ^ 4) 9), (Z.ltb_spec (x mod 2 ^ 4) 10), (Z.leb_spec 10 (x mod 2 ^ 4)); lia. }
  by rewrite !E.
Qed.
End Md5.
