(* ===== verification/Sha1.v ===== *)
(** * SHA-1 (utility/sha1/qm_utils_sha1.c)

    The compression of a block with its window of sixteen words, and the functions on
    contexts; the digest is that of FIPS 180-4. *)

From S2P Require Import Prelude Words Merkle Digest.
Import list_relations.list list_basics.list Words Merkle Digest.
Open Scope Z_scope.

Module Sha1.

(** Words with the high byte first. *)
Definition IOT_SHA1_GET_UINT32_BE (b : list Z) (i : nat) : Z :=
  Z.lor (Z.lor (Z.lor (u32 (Z.shiftl (at_n b i) 24)) (u32 (Z.shiftl (at_n b (i + 1)) 16))) (u32 (Z.shiftl (at_n b (i + 2)) 8))) (at_n b (i + 3)).
Definition IOT_SHA1_PUT_UINT32_BE (n : Z) : list Z := [u8 (Z.shiftr n 24); u8 (Z.shiftr n 16); u8 (Z.shiftr n 8); u8 n].

(** The macro [R]: a word of the schedule, which replaces the one sixteen before it. *)
Definition slot (t : Z) : nat := Z.to_nat (Z.land t 0x0F).
Definition R (t : nat) (W : list Z) : Z * list Z :=
  let t := Z.of_nat t in
  let temp := Z.lxor (Z.lxor (Z.lxor (at_n W (slot (t - 3))) (at_n W (slot (t - 8)))) (at_n W (slot (t - 14)))) (at_n W (slot t)) in
  let w := S temp 1 in
  (w, <[slot t := w]> W).

(** The macro [P], with the registers (elements of a list) in their roles. *)
Definition P (F : Z -> Z -> Z -> Z) (K : Z) (roles : nat * nat * nat * nat * nat) (x : Z) (r : list Z) : list Z :=
  let '(a, b, c, d, e) := roles in
  let r := <[e := u32 (at_n r e + (S (at_n r a) 5 + F (at_n r b) (at_n r c) (at_n r d) + K + x))]> r in
  <[b := S (at_n r b) 30]> r.

Definition RA : nat := 0.
Definition RB : nat := 1.
Definition RC : nat := 2.
Definition RD : nat := 3.
Definition RE : nat := 4.

(** The lines come in groups of five: [P(A,B,C,D,E,..)], [P(E,A,B,C,D,..)], and so on. *)
Definition roles (t : nat) : nat * nat * nat * nat * nat :=
  match (t mod 5)%nat with
  | 0%nat => (RA, RB, RC, RD, RE)
  | 1%nat => (RE, RA, RB, RC, RD)
  | 2%nat => (RD, RE, RA, RB, RC)
  | 3%nat => (RC, RD, RE, RA, RB)
  | _ => (RB, RC, RD, RE, RA)
  end.

(** Line [t]: the first sixteen take a word of the block, the others call [R]. *)
Definition line (F : Z -> Z -> Z -> Z) (K : Z) (wr : list Z * list Z) (t : nat) : list Z * list Z :=
  let '(W, r) := wr in
  let '(x, W) := if (t <? 16)%nat then (at_n W t, W) else R t W in
  (W, P F K (roles t) x r).

Definition F1 (x y z : Z) : Z := Z.lxor z (Z.land x (Z.lxor y z)).
Definition F2 (x y z : Z) : Z := Z.lxor (Z.lxor x y) z.
Definition F3 (x y z : Z) : Z := Z.lor (Z.land x y) (Z.land z (Z.lor x y)).
Definition K1 : Z := 0x5A827999.
Definition K2 : Z := 0x6ED9EBA1.
Definition K3 : Z := 0x8F1BBCDC.
Definition K4 : Z := 0xCA62C1D6.

Definition qm_utils_sha1_process (c : context (list Z)) (data : list Z) : context (list Z) :=
  let W := (fun i => IOT_SHA1_GET_UINT32_BE data (4 * i)) <$> seq 0 16 in
  let st := state c in
  let r := [at_n st 0; at_n st 1; at_n st 2; at_n st 3; at_n st 4] in
  let wr := foldl (line F1 K1) (W, r) (seq 0 20) in
  let wr := foldl (line F2 K2) wr (seq 20 20) in
  let wr := foldl (line F3 K3) wr (seq 40 20) in
  let '(_, r) := foldl (line F2 K4) wr (seq 60 20) in
  mk_context [u32 (at_n st 0 + at_n r RA); u32 (at_n st 1 + at_n r RB); u32 (at_n st 2 + at_n r RC); u32 (at_n st 3 + at_n r RD); u32 (at_n st 4 + at_n r RE)] (buffer c).

Definition sha1_start : list Z := [0x67452301; 0xEFCDAB89; 0x98BADCFE; 0x10325476; 0xC3D2E1F0].

(** [qm_sha1_context] is [hash_context]. *)
Definition qm_utils_sha1_init : hash_context := hash_init 5.
Definition qm_utils_sha1_starts (x : hash_context) : hash_context := mk_hash (0, 0) (mk_context sha1_start (buffer (ctx x))).
Definition qm_utils_sha1_update : hash_context -> list Z -> hash_context := hash_update qm_utils_sha1_process.
Definition qm_utils_sha1_finish : hash_context -> list Z * hash_context :=
  hash_finish qm_utils_sha1_process (fun high low => IOT_SHA1_PUT_UINT32_BE high ++ IOT_SHA1_PUT_UINT32_BE low) IOT_SHA1_PUT_UINT32_BE.
Definition qm_utils_sha1 (input : list Z) : list Z := fst (qm_utils_sha1_finish (qm_utils_sha1_update (qm_utils_sha1_starts qm_utils_sha1_init) input)).

(** ** The standard (FIPS 180-4) *)

Module FipsSha1.

Definition f (t : nat) (x y z : Z) : Z :=
  match (t / 20)%nat with
  | 0%nat => Z.lxor (Z.land x y) (Z.land (2 ^ 32 - 1 - x) z)
  | 2%nat => Z.lxor (Z.lxor (Z.land x y) (Z.land x z)) (Z.land y z)
  | _ => Z.lxor (Z.lxor x y) z
  end.
(** The constants are the integer parts of [2^30] times the square roots of 2, 3, 5 and 10. *)
Definition K (t : nat) : Z := Z.sqrt (at_n [2; 3; 5; 10] (t / 20) * 2 ^ 60).

Definition block_word (m : list Z) (i : nat) : Z := 2 ^ 24 * at_n m (4 * i) + 2 ^ 16 * at_n m (4 * i + 1) + 2 ^ 8 * at_n m (4 * i + 2) + at_n m (4 * i + 3).
Definition next_word (ws : list Z) (t : nat) : Z := ROTL 1 (Z.lxor (Z.lxor (Z.lxor (at_n ws (t + 13)) (at_n ws (t + 8))) (at_n ws (t + 2))) (at_n ws t)).
Definition schedule (m : list Z) (n : nat) : list Z := extend next_word (block_word m <$> seq 0 16) n.

Definition regs : Type := Z * Z * Z * Z * Z.
Definition step (ws : list Z) (r : regs) (t : nat) : regs :=
  let '(a, b, c, d, e) := r in
  (u32 (ROTL 5 a + f t b c d + e + K t + at_n ws t), a, ROTL 30 b, c, d).

Definition compress (H m : list Z) : list Z :=
  let '(a, b, c, d, e) := foldl (step (schedule m 64)) (at_n H 0, at_n H 1, at_n H 2, at_n H 3, at_n H 4) (seq 0 80) in
  [u32 (at_n H 0 + a); u32 (at_n H 1 + b); u32 (at_n H 2 + c); u32 (at_n H 3 + d); u32 (at_n H 4 + e)].

Definition bytes_be (n : nat) (x : Z) : list Z := (fun i => u8 (x / 2 ^ (8 * Z.of_nat (n - 1 - i)))) <$> seq 0 n.
(** The digits up and down, low byte first, and the halves of a count down and up. *)
Definition H0 : list Z := block_word [0x67; 0x45; 0x23; 0x01; 0xEF; 0xCD; 0xAB; 0x89; 0x98; 0xBA; 0xDC; 0xFE; 0x10; 0x32; 0x54; 0x76; 0xC3; 0xD2; 0xE1; 0xF0] <$> seq 0 5.
Definition length_bytes (n : nat) : list Z := bytes_be 8 (8 * Z.of_nat n).
Definition sha1 (m : list Z) : list Z := concat (bytes_be 4 <$> iterate compress H0 length_bytes m).

End FipsSha1.
Import FipsSha1.

(** ** The schedule *)

Lemma get_be b i : List.Forall is_u8 b -> IOT_SHA1_GET_UINT32_BE b (4 * i) = block_word b i /\ is_u32 (block_word b i).
Proof.
  intros Hb. assert (forall j, is_u8 (at_n b j)) as Hu by (intros j; pose proof (at_u8 b (Z.of_nat j) Hb) as H; unfold at_ in H; by rewrite Nat2Z.id in H).
  unfold IOT_SHA1_GET_UINT32_BE, block_word. pose proof (Hu (4 * i)%nat) as H0. pose proof (Hu (4 * i + 1)%nat) as H1. pose proof (Hu (4 * i + 2)%nat) as H2. pose proof (Hu (4 * i + 3)%nat) as H3.
  revert H0 H1 H2 H3. generalize (at_n b (4 * i)) as w, (at_n b (4 * i + 1)) as x, (at_n b (4 * i + 2)) as y, (at_n b (4 * i + 3)) as z. intros w x y z Hw Hx Hy Hz.
  pose proof (W_sum z y x w Hz Hy Hx Hw) as Hs. pose proof (W_u32 z y x w Hz Hy Hx Hw) as Hu32. rewrite Hs in Hu32.
  replace (2 ^ 24 * w + 2 ^ 16 * x + 2 ^ 8 * y + z) with (z + 2 ^ 8 * y + 2 ^ 16 * x + 2 ^ 24 * w) by lia. split; [|done]. rewrite <- Hs.
  assert (forall v k, is_u8 v -> 0 <= k <= 24 -> u32 (Z.shiftl v k) = Z.shiftl v k) as E.
  { intros v k [Hv0 Hv] Hk. apply u32_id. rewrite Z.shiftl_mul_pow2 by lia. split; [apply Z.mul_nonneg_nonneg; lia|].
    apply Z.lt_le_trans with (2 ^ 8 * 2 ^ k); [apply Z.mul_lt_mono_pos_r; lia|]. rewrite <- Z.pow_add_r by lia. apply Z.pow_le_mono_r; lia. }
  rewrite !E by (done || lia). apply Z.bits_inj'. intros n Hn. rewrite !Z.lor_spec, !Z.shiftl_spec, W_spec by (done || lia).
  destruct (Z.ltb_spec n 8); [rewrite !(Z.testbit_neg_r _ (n - _)) by lia; done|]. rewrite (byte_high z) by (done || lia). rewrite orb_false_r.
  destruct (Z.ltb_spec n 16); [rewrite (Z.testbit_neg_r w), (Z.testbit_neg_r x) by lia; done|]. rewrite (byte_high y) by (done || lia). rewrite orb_false_r.
  destruct (Z.ltb_spec n 24); [rewrite (Z.testbit_neg_r w) by lia; done|]. rewrite (byte_high x) by (done || lia). apply orb_false_r.
Qed.

Lemma sha1_block_words_length m : length (block_word m <$> seq 0 16) = 16%nat.
Proof. by rewrite length_fmap, length_seq. Qed.
Lemma at_n_u32 l i : List.Forall is_u32 l -> is_u32 (at_n l i).
Proof. intros H. unfold at_n. destruct (l !! i) as [x|] eqn:E; [|by split]. cbn. rewrite list.Forall_forall in H. apply H. by eapply list_elem_of_lookup_2. Qed.

Lemma next_word_local ws ws' t : (forall i, (i < t + 16)%nat -> at_n ws i = at_n ws' i) -> next_word ws t = next_word ws' t.
Proof. intros H. unfold next_word. by rewrite !H by lia. Qed.

Lemma schedule_u32 m n : List.Forall is_u8 m -> List.Forall is_u32 (schedule m n).
Proof.
  intros Hm. apply extend_u32.
  - apply list.Forall_fmap, list.Forall_forall. intros i _. by apply get_be.
  - intros ws t Hw. apply ROTL_u32; [lia|lia|]. repeat apply lxor_u32; by apply at_n_u32.
Qed.

Lemma sha1_schedule_next m t : (t < 64)%nat -> at_n (schedule m 64) (t + 16) = next_word (schedule m 64) t.
Proof. apply extend_next; [apply sha1_block_words_length|apply next_word_local]. Qed.

Lemma sha1_slot_mod t j : (j <= t)%nat -> slot (Z.of_nat t - Z.of_nat j) = ((t - j) mod 16)%nat.
Proof. intros H. unfold slot. change 0x0F with (Z.ones 4). rewrite Z.land_ones by lia. change (2 ^ 4) with (Z.of_nat 16). rewrite <- Nat2Z.inj_sub, <- Nat2Z.inj_mod by done. apply Nat2Z.id. Qed.

Lemma R_spec m W t : List.Forall is_u8 m -> (16 <= t < 80)%nat -> window (schedule m 64) W t ->
  R t W = (at_n (schedule m 64) t, <[(t mod 16)%nat := at_n (schedule m 64) t]> W) /\ window (schedule m 64) (<[(t mod 16)%nat := at_n (schedule m 64) t]> W) (t + 1).
Proof.
  intros Hm Ht Hw. set (ws := schedule m 64) in *. assert (List.Forall is_u32 ws) as Hu by by apply schedule_u32.
  assert (S (Z.lxor (Z.lxor (Z.lxor (at_n W (slot (Z.of_nat t - 3))) (at_n W (slot (Z.of_nat t - 8)))) (at_n W (slot (Z.of_nat t - 14)))) (at_n W (slot (Z.of_nat t)))) 1 = at_n ws t) as E.
  { change 3 with (Z.of_nat 3). change 8 with (Z.of_nat 8). change 14 with (Z.of_nat 14). replace (slot (Z.of_nat t)) with (slot (Z.of_nat t - Z.of_nat 0)) by (f_equal; lia). rewrite !sha1_slot_mod by lia.
    replace ((t - 0) mod 16)%nat with ((t - 16) mod 16)%nat by (replace (t - 0)%nat with (t - 16 + 1 * 16)%nat by lia; by rewrite Nat.Div0.mod_add).
    rewrite !(window_at ws W t) by (done || lia). rewrite S_ROTL by (repeat apply lxor_u32; by apply at_n_u32).
    transitivity (at_n ws (t - 16 + 16)); [|f_equal; lia]. unfold ws. rewrite sha1_schedule_next by lia. unfold next_word. fold ws.
    replace (t - 16 + 13)%nat with (t - 3)%nat by lia. replace (t - 16 + 8)%nat with (t - 8)%nat by lia. by replace (t - 16 + 2)%nat with (t - 14)%nat by lia. }
  unfold R. rewrite E. replace (slot (Z.of_nat t)) with (t mod 16)%nat by (rewrite <- (Nat.sub_0_r t) at 1; rewrite <- sha1_slot_mod by lia; f_equal; lia). split; [done|]. by apply window_next.
Qed.

(** ** Lines and steps *)

Definition view (t : nat) (r : list Z) : regs := let '(a, b, c, d, e) := roles t in (at_n r a, at_n r b, at_n r c, at_n r d, at_n r e).
Definition words5 (r : list Z) : Prop := length r = 5%nat /\ List.Forall is_u32 r.
Lemma words5_cases r : words5 r -> exists a b c d e, r = [a; b; c; d; e] /\ is_u32 a /\ is_u32 b /\ is_u32 c /\ is_u32 d /\ is_u32 e.
Proof.
  intros [Hl Hu]. destruct r as [|a [|b [|c [|d [|e [|]]]]]]; try done. exists a, b, c, d, e. split; [done|]. rewrite !list.Forall_cons in Hu. tauto.
Qed.

(** The functions and constants of a round are those of the standard. *)
Definition round_of (F : Z -> Z -> Z -> Z) (k : Z) (t : nat) : Prop := (forall x y z, is_u32 x -> is_u32 y -> is_u32 z -> F x y z = f t x y z) /\ k = K t.
Lemma rounds : (forall t, (t < 20)%nat -> round_of F1 K1 t) /\ (forall t, (20 <= t < 40)%nat -> round_of F2 K2 t) /\ (forall t, (40 <= t < 60)%nat -> round_of F3 K3 t) /\ (forall t, (60 <= t < 80)%nat -> round_of F2 K4 t).
Proof.
  assert (forall t q, (20 * q <= t < 20 * q + 20)%nat -> (t / 20 = q)%nat) as Hq by (intros t q H; symmetry; apply (Nat.div_unique t 20 q (t - 20 * q)); lia).
  split_and!; intros t Ht; [pose proof (Hq t 0%nat ltac:(lia)) as E|pose proof (Hq t 1%nat ltac:(lia)) as E|pose proof (Hq t 2%nat ltac:(lia)) as E|pose proof (Hq t 3%nat ltac:(lia)) as E];
    (split; [intros x y z Hx Hy Hz; unfold f; rewrite E|unfold K; rewrite E; vm_compute; reflexivity]); [|done| |done].
  - rewrite <- lnot_u32 by done. unfold F1. apply Z.bits_inj'. intros n Hn. unfold u32. rewrite !Z.lxor_spec, !Z.land_spec, Z.lxor_spec.
    destruct (Z.lt_ge_cases n 32) as [H|H]; [rewrite Z.mod_pow2_bits_low, Z.lnot_spec by lia; by destruct (Z.testbit x n), (Z.testbit y n), (Z.testbit z n)|].
    by rewrite (word_high y), (word_high z), !andb_false_r by done.
  - unfold F3. bits_ac.
Qed.

Lemma step_P F k x r t ws : words5 r -> round_of F k t -> x = at_n ws t ->
  words5 (P F k (roles t) x r) /\ view (t + 1) (P F k (roles t) x r) = step ws (view t r) t.
Proof.
  intros Hr [HF ->] ->. destruct (words5_cases r Hr) as (a & b & c & d & e & -> & Ha & Hb & Hc & Hd & He).
  unfold view, roles. rewrite Nat.Div0.add_mod. change (1 mod 5)%nat with 1%nat. pose proof (Nat.mod_upper_bound t 5 ltac:(lia)) as Hm.
  assert (forall p q u v w, u32 (p + (q + u + v + w)) = u32 (q + u + p + v + w)) as E by (intros; f_equal; lia).
  assert (forall x, is_u32 x -> is_u32 (ROTL 30 x)) as Hrot by (intros; apply ROTL_u32; done || lia).
  destruct (t mod 5)%nat as [|[|[|[|[|]]]]]; [..|lia]; unfold P; cbn [RA RB RC RD RE]; unfold at_n; cbn -[K f S ROTL u32]; rewrite HF, !S_ROTL, E by done;
    (split; [split; [done|]; rewrite !list.Forall_cons; auto 10 using u32_range|reflexivity]).
Qed.

Lemma lines_steps F k m W r t n : List.Forall is_u8 m -> (t + n <= 80)%nat -> words5 r -> window (schedule m 64) W (Nat.max 16 t) -> (forall j, (t <= j < t + n)%nat -> round_of F k j) ->
  let '(W', r') := foldl (line F k) (W, r) (seq t n) in
  words5 r' /\ window (schedule m 64) W' (Nat.max 16 (t + n)) /\ view (t + n) r' = foldl (step (schedule m 64)) (view t r) (seq t n).
Proof.
  intros Hm. revert W r t. induction n as [|n IH]; intros W r t Ht Hr Hw HF; cbn [seq foldl]; [by rewrite Nat.add_0_r|].
  assert (exists W', line F k (W, r) t = (W', P F k (roles t) (at_n (schedule m 64) t) r) /\ window (schedule m 64) W' (Nat.max 16 (Datatypes.S t))) as (W' & -> & Hw').
  { unfold line. destruct (Nat.ltb_spec t 16) as [H|H].
    - exists W. replace (Nat.max 16 t) with 16%nat in Hw by lia. replace (Nat.max 16 (Datatypes.S t)) with 16%nat by lia. split; [|done]. do 2 f_equal.
      rewrite <- (Nat.mod_small t 16) at 1 by done. apply (window_at _ W 16); [done|lia].
    - replace (Nat.max 16 t) with t in Hw by lia. destruct (R_spec m W t Hm ltac:(lia) Hw) as [-> Hw']. eexists. split; [done|]. by replace (Nat.max 16 (Datatypes.S t)) with (t + 1)%nat by lia. }
  destruct (step_P F k _ r t (schedule m 64) Hr (HF t ltac:(lia)) eq_refl) as [Hr' Hv].
  specialize (IH W' _ (Datatypes.S t) ltac:(lia) Hr' Hw' ltac:(intros; apply HF; lia)). rewrite Nat.add_1_r in Hv. rewrite Hv in IH. by rewrite Nat.add_succ_r.
Qed.

(** ** Blocks and messages *)

Lemma window_start d : window (schedule d 64) (block_word d <$> seq 0 16) 16.
Proof.
  split; [apply sha1_block_words_length|]. intros i Hi. rewrite Nat.mod_small by lia. unfold schedule. rewrite extend_first by (apply sha1_block_words_length || lia).
  unfold at_n. by rewrite list_lookup_fmap, lookup_seq_lt by lia.
Qed.

Lemma sha1_process_spec c d : words5 (state c) -> length d = 64%nat -> List.Forall is_u8 d ->
  state (qm_utils_sha1_process c d) = compress (state c) d /\ words5 (state (qm_utils_sha1_process c d)).
Proof.
  intros Hs _ Hd. unfold qm_utils_sha1_process, compress.
  set (r0 := [at_n (state c) 0; at_n (state c) 1; at_n (state c) 2; at_n (state c) 3; at_n (state c) 4]).
  assert (words5 r0) as Hr by (unfold r0; destruct (words5_cases _ Hs) as (w0 & w1 & w2 & w3 & w4 & E & _); by rewrite E in Hs |- *).
  assert ((fun i => IOT_SHA1_GET_UINT32_BE d (4 * i)) <$> seq 0 16 = block_word d <$> seq 0 16) as -> by (apply list_fmap_ext; intros; by apply get_be).
  destruct rounds as (R1 & R2 & R3 & R4). pose proof (lines_steps F1 K1 d _ r0 0 20 Hd ltac:(lia) Hr (window_start d) ltac:(intros; apply R1; lia)) as L1.
  destruct (foldl (line F1 K1) _ _) as [W1 r1]. destruct L1 as (H1 & V1 & E1).
  pose proof (lines_steps F2 K2 d W1 r1 20 20 Hd ltac:(lia) H1 V1 ltac:(intros; apply R2; lia)) as L2. destruct (foldl (line F2 K2) _ _) as [W2 r2]. destruct L2 as (H2 & V2 & E2).
  pose proof (lines_steps F3 K3 d W2 r2 40 20 Hd ltac:(lia) H2 V2 ltac:(intros; apply R3; lia)) as L3. destruct (foldl (line F3 K3) _ _) as [W3 r3]. destruct L3 as (H3 & V3 & E3).
  pose proof (lines_steps F2 K4 d W3 r3 60 20 Hd ltac:(lia) H3 V3 ltac:(intros; apply R4; lia)) as L4. destruct (foldl (line F2 K4) _ _) as [W4 r4]. destruct L4 as (H4 & _ & E4).
  cbn [state]. split; [|split; [done|]; rewrite !list.Forall_cons; auto 10 using u32_range].
  change (at_n (state c) 0, at_n (state c) 1, at_n (state c) 2, at_n (state c) 3, at_n (state c) 4) with (view 0 r0).
  change (seq 0 80) with (seq 0 20 ++ seq 20 20 ++ seq 40 20 ++ seq 60 20). cbn [Nat.add] in E1, E2, E3, E4. rewrite !foldl_app, <- E1, <- E2, <- E3, <- E4. reflexivity.
Qed.

Lemma sha1_process_buffer c d : buffer (qm_utils_sha1_process c d) = buffer c.
Proof. unfold qm_utils_sha1_process. by destruct (foldl (line F2 K4) _ _). Qed.

(** A digest is 20 bytes. *)
Lemma sha1_digest_bytes m : length (sha1 m) = 20%nat /\ List.Forall is_u8 (sha1 m).
Proof.
  unfold sha1. assert (length (iterate compress H0 length_bytes m) = 5%nat) as Hl.
  { unfold iterate. apply (absorb_keeps compress (fun s => length s = 5%nat)); [done|]. intros s blk _. unfold compress. by destruct (foldl _ _ _) as [[[[a b] c] d] e]. }
  destruct (put_bytes (bytes_be 4) 4 (iterate compress H0 length_bytes m)) as [H1 H2]; [|by rewrite H1, Hl].
  intros w. unfold bytes_be. split; [by rewrite length_fmap, length_seq|]. apply list.Forall_fmap, list.Forall_forall. intros i _. apply u8_range.
Qed.

#[local] Opaque qm_utils_sha1_process compress.

Lemma put_be w : IOT_SHA1_PUT_UINT32_BE w = bytes_be 4 w.
Proof. unfold IOT_SHA1_PUT_UINT32_BE, bytes_be. cbn -[u8 Z.pow]. rewrite !Z.shiftr_div_pow2 by lia. cbn [Z.mul Z.of_nat]. change (2 ^ (8 * Z.of_nat 0)) with 1. by rewrite Z.div_1_r. Qed.

Lemma put_length n : IOT_SHA1_PUT_UINT32_BE (u32 (8 * Z.of_nat n / 2 ^ 32)) ++ IOT_SHA1_PUT_UINT32_BE (u32 (8 * Z.of_nat n)) = length_bytes n.
Proof.
  rewrite !put_be. unfold length_bytes. generalize (8 * Z.of_nat n) as x. intros x. unfold bytes_be. change (seq 0 8) with (seq 0 4 ++ seq 4 4). rewrite fmap_app.
  assert (forall y j, (j < 4)%nat -> u8 (u32 y / 2 ^ (8 * Z.of_nat j)) = u8 (y / 2 ^ (8 * Z.of_nat j))) as E by (intros y j Hj; apply u8_of_u32; lia).
  f_equal.
  - apply list_fmap_ext. intros _ j Hj%list_elem_of_lookup_2. apply elem_of_seq in Hj. rewrite E, Z.div_div, <- Z.pow_add_r by lia. do 3 f_equal. lia.
  - change (seq 4 4) with ((fun j => 4 + j)%nat <$> seq 0 4). rewrite <- list_fmap_compose. apply list_fmap_ext. intros _ j Hj%list_elem_of_lookup_2. apply elem_of_seq in Hj. unfold compose. rewrite E by lia. reflexivity.
Qed.

Lemma sha1_length_bytes_ok n : length (length_bytes n) = 8%nat /\ List.Forall is_u8 (length_bytes n).
Proof. unfold length_bytes, bytes_be. split; [by rewrite length_fmap, length_seq|]. apply list.Forall_fmap, list.Forall_forall. intros i _. apply u8_range. Qed.

Lemma starts_sha1 x : length (buffer (ctx x)) = 64%nat -> List.Forall is_u8 (buffer (ctx x)) -> given compress words5 sha1_start (qm_utils_sha1_starts x) [].
Proof. apply hash_starts_given. split; [done|]. by apply u32b_list. Qed.

Lemma sha1_finished x m : given compress words5 sha1_start x m -> fst (qm_utils_sha1_finish x) = sha1 m.
Proof.
  intros Hg. unfold qm_utils_sha1_finish. rewrite (hash_finish_given _ compress words5 sha1_start sha1_process_spec sha1_process_buffer _ _ x m); [|intros n; rewrite put_length; apply sha1_length_bytes_ok|done].
  unfold sha1. change H0 with sha1_start. f_equal. transitivity (IOT_SHA1_PUT_UINT32_BE <$> iterate compress sha1_start length_bytes m).
  - f_equal. unfold iterate. by rewrite put_length.
  - apply list_fmap_ext. intros; apply put_be.
Qed.

Lemma update_sha1 x m p : given compress words5 sha1_start x m -> List.Forall is_u8 p -> Z.of_nat (length p) < 2 ^ 32 -> given compress words5 sha1_start (qm_utils_sha1_update x p) (m ++ p).
Proof. apply (hash_update_given _ compress words5 sha1_start sha1_process_spec sha1_process_buffer). Qed.

(** A message hashed piece by piece, however it is cut (each piece of less than 2^32 bytes, the width of
    the counter), has the digest of FIPS 180-4 of the whole. *)
Theorem sha1_pieces pieces : List.Forall (fun p => List.Forall is_u8 p /\ Z.of_nat (length p) < 2 ^ 32) pieces ->
  fst (qm_utils_sha1_finish (foldl qm_utils_sha1_update (qm_utils_sha1_starts qm_utils_sha1_init) pieces)) = sha1 (concat pieces).
Proof.
  intros Hp. apply sha1_finished. apply (hash_updates_given _ compress words5 sha1_start sha1_process_spec sha1_process_buffer _ []); [|done].
  apply starts_sha1; [done|apply zeros_u8].
Qed.

Lemma sha1_pieces_witness : fst (qm_utils_sha1_finish (foldl qm_utils_sha1_update (qm_utils_sha1_starts qm_utils_sha1_init) [[0x61]; [0x62; 0x63]])) = sha1 [0x61; 0x62; 0x63].
Proof.
  apply (sha1_pieces [[0x61]; [0x62; 0x63]]). repeat (apply List.Forall_cons; [split; [repeat (apply List.Forall_cons; [by split|]); apply List.Forall_nil|reflexivity]|]). apply List.Forall_nil.
Defined.

(** The digest of "abc". *)
Example sha1_abc : qm_utils_sha1 [0x61; 0x62; 0x63] = [0xA9; 0x99; 0x3E; 0x36; 0x47; 0x06; 0x81; 0x6A; 0xBA; 0x3E; 0x25; 0x71; 0x78; 0x50; 0xC2; 0x6C; 0x9C; 0xD0; 0xD8; 0x9D].
Proof. vm_compute. reflexivity. Qed.
End Sha1.
