(* ===== verification/StrUtil.v ===== *)
(** * Text helpers (utility/string: qm_utils_string.c, qm_string.c)

    Numbers and bytes as text, the search for a value in JSON text, and the substitution of
    strings.  A string argument is the memory behind its pointer; a function that fills a
    buffer has the bytes it writes as result.  Characters are bytes. *)

From S2P Require Import Prelude Outcome Words Heap.
Import list_relations.list list_basics.list Words.
Open Scope Z_scope.

Module StrUtil.

Definition QM_ERROR : Z := 1.

(** The value of a digit, as the chains of comparisons find it. *)
Definition dec_val (c : Z) : option Z := if (48 <=? c) && (c <=? 57) then Some (c - 48) else None.
Definition hex_val (c : Z) : option Z :=
  if (48 <=? c) && (c <=? 57) then Some (c - 48)
  else if (65 <=? c) && (c <=? 70) then Some (10 + c - 65)
  else if (97 <=? c) && (c <=? 102) then Some (10 + c - 97)
  else None.

(** ** qm_utils_string.c *)

(** [48 + x], and [gap] more behind the digits. *)
Definition nibble (gap x : Z) : Z := let d := u8 (48 + x) in if d >? 57 then u8 (d + gap) else d.

Definition hex_to_strs (in_buf : option (list Z)) (len : Z) (out_buf : bool) : outcome (Z * list Z) :=
  match in_buf with
  | None => Ret (-1, [])
  | Some b =>
      if negb out_buf || (len =? 0) then Ret (-1, [])
      else
        d ← of_option (Heap.slice b 0 len);
        Ret (0, (d ≫= fun x => [nibble 39 (x / 16); nibble 39 (x mod 16)]) ++ [0])
  end.

Definition hex_to_strs_print (in_buf : option (list Z)) (len : Z) (out_buf : bool) : outcome (Z * list Z) :=
  match in_buf with
  | None => Ret (-1, [])
  | Some b =>
      if negb out_buf || (len =? 0) then Ret (-1, [])
      else
        d ← of_option (Heap.slice b 0 len);
        Ret (0, (d ≫= fun x => [nibble 7 (x / 16); nibble 7 (x mod 16); 32]) ++ [0])
  end.

(** The loop of the next two functions: [n] digits and a last one. *)
Fixpoint num_loop (val : Z -> option Z) (shift : Z -> Z) (n : nat) (str : list Z) (h : Z) {struct str} : outcome Z :=
  match str with
  | [] => OutOfBounds
  | c :: str =>
      match val c with
      | None => Ret 0
      | Some v =>
          let h := u32 (h + v) in
          match n with
          | O => Ret h
          | S n => num_loop val shift n str (u32 (shift h))
          end
      end
  end.

Definition hex_str_to_num (str : list Z) (len : Z) : outcome Z := num_loop hex_val (fun h => Z.shiftl h 4) (Z.to_nat (u8 (len - 1))) str 0.
Definition int_str_to_num (str : list Z) (len : Z) : outcome Z := num_loop dec_val (fun h => h * 10) (Z.to_nat (u8 (len - 1))) str 0.

(** [n] rounds, two characters each. *)
Fixpoint nums_loop (n : nat) (hex_str : list Z) : outcome (list Z) :=
  match n with
  | O => Ret []
  | S n =>
      v ← hex_str_to_num hex_str 2;
      rest ← nums_loop n (drop 2 hex_str);
      Ret (u8 v :: rest)
  end.
Definition hex_str_to_nums (hex_str : option (list Z)) (len : Z) (num_str : bool) : outcome (Z * list Z) :=
  match hex_str with
  | None => Ret (-1, [])
  | Some s => if negb num_str || (len =? 0) then Ret (-1, []) else l ← nums_loop (Z.to_nat ((len + 1) / 2)) s; Ret (0, l)
  end.

(** ** qm_string.c *)

Fixpoint strlen (s : list Z) : option nat :=
  match s with
  | [] => None
  | c :: s => if c =? 0 then Some 0%nat else S <$> strlen s
  end.

(** [alloc]: whether the heap has room; the result is the copy. *)
Definition qm_strdup (alloc : bool) (s : option (list Z)) : outcome (option (list Z)) :=
  match s with
  | None => Ret None
  | Some s => n ← of_option (strlen s); Ret (if alloc then Some (take (n + 1) s) else None)
  end.

(** The loops of [qm_str2uint] and [qm_str2uint64]; [wrap] is the width of [temp]. *)
Fixpoint str2uint_loop (wrap : Z -> Z) (input : list Z) (temp : Z) : Z * option Z :=
  match input with
  | [] => (QM_EOK, Some temp)
  | c :: input => if (c <? 48) || (c >? 57) then (- QM_EINVAL, None) else str2uint_loop wrap input (wrap (temp * 10 + c - 48))
  end.
Definition qm_str2uint (input : list Z) (input_len : Z) : outcome (Z * option Z) :=
  s ← of_option (Heap.slice input 0 input_len); Ret (str2uint_loop u32 s 0).
Definition qm_str2uint64 (input : list Z) (input_len : Z) : outcome (Z * option Z) :=
  s ← of_option (Heap.slice input 0 input_len); Ret (str2uint_loop u64 s 0).

(** The digits of [n] from the last one, stored into [temp], which has room for [size]. *)
Fixpoint digits (size : nat) (base : Z) (enc : Z -> Z) (n : Z) : outcome (list Z) :=
  match size with
  | O => OutOfBounds
  | S size =>
      if n / base >? 0 then rest ← digits size base enc (n / base); Ret (enc (n mod base) :: rest)
      else Ret [enc (n mod base)]
  end.

(** The result is what is written to [output], and [*output_len]. *)
Definition qm_uint2str (input : Z) : outcome (list Z * Z) :=
  temp ← digits 10 10 (fun d => d + 48) input; Ret (reverse temp, Z.of_nat (length temp)).
Definition qm_uint642str (input : Z) : outcome (list Z * Z) :=
  temp ← digits 20 10 (fun d => d + 48) input; Ret (reverse temp, Z.of_nat (length temp)).
(** [temp] has 11 elements, the first of which is skipped for a negative number. *)
Definition qm_int2str (input : Z) : outcome (list Z * Z) :=
  if input <? 0 then temp ← digits 10 10 (fun d => d + 48) (- input); Ret (45 :: reverse temp, Z.of_nat (length temp) + 1)
  else temp ← digits 11 10 (fun d => d + 48) input; Ret (reverse temp, Z.of_nat (length temp)).

Definition lower : list Z := [48; 49; 50; 51; 52; 53; 54; 55; 56; 57; 97; 98; 99; 100; 101; 102].
Definition upper : list Z := [48; 49; 50; 51; 52; 53; 54; 55; 56; 57; 65; 66; 67; 68; 69; 70].

(** The negation of the least number overflows, which is undefined ([None]); [temp] has 12
    elements, of which two or three are for the prefix and the sign. *)
Definition qm_int2hexstr (input : Z) : option (outcome (list Z * Z)) :=
  let nagative := input <? 0 in
  if input =? - 2 ^ 31 then None
  else
    let input := if nagative then - input else input in
    Some (temp ← digits (if nagative then 9 else 10) 16 (at_ lower) input;
          let temp := temp ++ [120; 48] ++ (if nagative then [45] else []) in
          Ret (reverse temp, Z.of_nat (length temp))).

Definition qm_hex2str (input : list Z) (input_len : Z) (lowercase : bool) : outcome (list Z) :=
  let encode := if lowercase then lower else upper in
  d ← of_option (Heap.slice input 0 input_len);
  Ret (d ≫= fun x => [at_ encode (Z.land (Z.shiftr x 4) 0xf); at_ encode (Z.land x 0xf)]).

(** A byte of [output]: characters that are no digits leave it or its half as it was. *)
Definition put_pair (a b old : Z) : Z :=
  let o := match hex_val a with Some v => u8 (Z.shiftl v 4) | None => old end in
  match hex_val b with Some v => Z.lor o v | None => o end.
Fixpoint str2hex_loop (n : nat) (input output : list Z) : outcome (list Z) :=
  match n with
  | O => Ret output
  | S n =>
      match input, output with
      | a :: b :: input, old :: output => rest ← str2hex_loop n input output; Ret (put_pair a b old :: rest)
      | _, _ => OutOfBounds
      end
  end.
Definition qm_str2hex (input : list Z) (input_len : Z) (output : list Z) : outcome (Z * list Z) :=
  if negb (input_len mod 2 =? 0) then Ret (- QM_EINVAL, output)
  else o ← str2hex_loop (Z.to_nat (input_len / 2)) input output; Ret (QM_EOK, o).

(** *** JSON text *)

Section json.
Context (input : list Z) (input_len : Z) (key : list Z) (key_len : Z).
Definition char (i : Z) : outcome Z := if i <? 0 then OutOfBounds else of_option (input !! Z.to_nat i).

(** The loops over [idx]; [n] rounds are left.  [Some i]: the loop stops at [i]. *)
Fixpoint scan (stop : Z -> bool) (n : nat) (idx : Z) : outcome (option Z) :=
  match n with
  | O => Ret None
  | S n => c ← char idx; if stop c then Ret (Some idx) else scan stop n (idx + 1)
  end.
Fixpoint scan_nested (open close : Z) (n : nat) (idx count : Z) : outcome (option Z) :=
  match n with
  | O => Ret None
  | S n =>
      c ← char idx;
      if c =? open then scan_nested open close n (idx + 1) (u8 (count + 1))
      else if c =? close then
        if u8 (count - 1) =? 0 then Ret (Some idx) else scan_nested open close n (idx + 1) (u8 (count - 1))
      else scan_nested open close n (idx + 1) count
  end.

(** The value behind a key, at [idx]: the code, [*value - input] and [*value_len]. *)
Definition json_result : Type := Z * option Z * option Z.
Definition finish (value : Z) (extra : Z) (found : option Z) : json_result :=
  match found with
  | Some i => (QM_EOK, Some value, Some (u32 (i - value + extra)))
  | None => (- QM_ERROR, Some value, None)
  end.
Definition json_read (idx : Z) : outcome json_result :=
  c ← char idx;
  if c =? 34 then found ← scan (fun c => c =? 34) (Z.to_nat (input_len - (idx + 1))) (idx + 1); Ret (finish (idx + 1) 0 found)
  else if (c =? 123) || (c =? 91) then
    found ← scan_nested c (if c =? 123 then 125 else 93) (Z.to_nat (input_len - idx)) idx 0; Ret (finish idx 1 found)
  else
    found ← scan (fun c => (c =? 44) || (c =? 93) || (c =? 125)) (Z.to_nat (input_len - idx)) idx; Ret (finish idx 0 found).

(** The key between quotation marks at [idx]. *)
Definition key_at (idx : Z) : outcome bool :=
  a ← of_option (Heap.slice input idx key_len);
  k ← of_option (Heap.slice key 0 key_len);
  if negb (bool_decide (a = k)) then Ret false
  else if negb (idx >? 0) then Ret false
  else
    q ← char (idx - 1);
    if negb (q =? 34) then Ret false
    else if negb (u32 (idx + key_len) <? input_len) then Ret false
    else q ← char (u32 (idx + key_len)); Ret (q =? 34).

Fixpoint json_loop (n : nat) (idx : Z) : outcome json_result :=
  match n with
  | O => Ret (- QM_ERROR, None, None)
  | S n =>
      if u32 (idx + key_len) >=? input_len then Ret (- QM_ERROR, None, None)
      else
        hit ← key_at idx;
        if negb hit then json_loop n (idx + 1)
        else
          let idx := u32 (idx + key_len) in
          if u32 (idx + 2) >=? input_len then Ret (- QM_ERROR, None, None)
          else
            c ← char (idx + 1);
            if negb (c =? 58) then Ret (- QM_ERROR, None, None)
            else json_read (idx + 2)
  end.
Definition qm_json_value : outcome json_result := json_loop (Z.to_nat input_len) 0.
End json.

(** *** Substitution *)

(** [memcpy(buffer + strlen(buffer), value, strlen(value))] *)
Definition append (buffer value : list Z) : outcome (list Z) :=
  n ← of_option (strlen buffer); of_option (Heap.splice buffer (Z.of_nat n) value).

(** [src] holds strings without their terminator; [None] is NULL. *)
Fixpoint sprintf_loop (fuel : nat) (fmt : list Z) (src : list (option (list Z))) (idx percent_idx : Z) (buffer : list Z) : outcome (list Z) :=
  match fuel with
  | O => NoFuel
  | S fuel =>
      if idx >=? Z.of_nat (length fmt) then Ret buffer
      else
        c ← of_option (fmt !! Z.to_nat idx);
        if (c =? 37) && (idx + 1 <? Z.of_nat (length fmt)) && bool_decide (fmt !! Z.to_nat (idx + 1) = Some 115) then
          v ← of_option (src !! Z.to_nat percent_idx);
          b ← append buffer (default [] v);
          sprintf_loop fuel fmt src (u8 (idx + 2)) (u8 (percent_idx + 1)) b
        else
          b ← append buffer [c];
          sprintf_loop fuel fmt src (u8 (idx + 1)) percent_idx b
  end.

(** [count] is a byte; [alloc]: whether the heap has room.  The result is the block. *)
Definition qm_utils_sprintf (alloc : bool) (fuel : nat) (fmt : list Z) (src : list (option (list Z))) (count : Z) : outcome (Z * option (list Z)) :=
  let fmt_len := Z.of_nat (length fmt) in
  if fmt_len <? 2 * count then Ret (- QM_EINVAL, None)
  else
    vs ← (if Z.of_nat (length src) <? count then OutOfBounds else Ret (take (Z.to_nat count) src));
    let buffer_len := u32 (fmt_len - 2 * count + Z.of_nat (length (concat (default [] <$> vs)))) in
    if negb alloc then Ret (- QM_ENOMEM, None)
    else
      b ← sprintf_loop fuel fmt src 0 0 (replicate (Z.to_nat buffer_len + 1) 0);
      Ret (QM_EOK, Some b).

(** ** Bytes as text *)

Lemma step_ret {A B} (a : A) (f : A -> outcome B) : (Ret a ≫= f) = f a.
Proof. reflexivity. Qed.

Lemma str_slice_all (l : list Z) post : Heap.slice (l ++ post) 0 (Z.of_nat (length l)) = Some l.
Proof. exact (Heap.heap_slice_app [] l post). Qed.
Lemma slice_whole (l : list Z) n : n = Z.of_nat (length l) -> Heap.slice l 0 n = Some l.
Proof. intros ->. pose proof (str_slice_all l []) as H. by rewrite app_nil_r in H. Qed.

Lemma pair_num a b rest p q : hex_val a = Some p -> hex_val b = Some q -> hex_str_to_num (a :: b :: rest) 2 = Ret (u32 (u32 (Z.shiftl (u32 p) 4) + q)).
Proof. intros Ha Hb. unfold hex_str_to_num. change (Z.to_nat (u8 (2 - 1))) with 1%nat. cbn [num_loop]. by rewrite Ha, Hb, Z.add_0_l. Qed.

(** Two characters that stand for the halves of a byte. *)
Definition spells (x a b : Z) : bool := bool_decide (hex_val a = Some (x / 16)) && bool_decide (hex_val b = Some (x mod 16)).
Lemma spells_num x a b rest : is_u8 x -> spells x a b = true -> hex_str_to_num (a :: b :: rest) 2 = Ret x.
Proof.
  intros Hx [Ha%bool_decide_eq_true Hb%bool_decide_eq_true]%andb_prop. rewrite (pair_num _ _ _ _ _ Ha Hb). f_equal. apply Z.eqb_eq.
  on_bytes (fun x => u32 (u32 (Z.shiftl (u32 (x / 16)) 4) + x mod 16) =? x) x Hx.
Qed.
Lemma spells_put x a b old : is_u8 x -> spells x a b = true -> put_pair a b old = x.
Proof.
  intros Hx [Ha%bool_decide_eq_true Hb%bool_decide_eq_true]%andb_prop. unfold put_pair. rewrite Ha, Hb. apply Z.eqb_eq.
  on_bytes (fun x => Z.lor (u8 (Z.shiftl (x / 16) 4)) (x mod 16) =? x) x Hx.
Qed.

Definition spelled (f : Z -> list Z) : Prop := forall x, is_u8 x -> exists a b, f x = [a; b] /\ spells x a b = true.
Lemma spelled_nums f l post : spelled f -> List.Forall is_u8 l -> nums_loop (length l) ((l ≫= f) ++ post) = Ret l.
Proof.
  intros Hf. induction 1 as [|x l Hx Hl IH]; [done|]. destruct (Hf x Hx) as (a & b & E & Hs). rewrite bind_cons, E. cbn [app nums_loop length].
  rewrite (spells_num x a b _ Hx Hs). cbn [drop]. rewrite step_ret, drop_0, IH, step_ret. by rewrite u8_id.
Qed.
Lemma spelled_hex f l post out : spelled f -> List.Forall is_u8 l -> length out = length l -> str2hex_loop (length l) ((l ≫= f) ++ post) out = Ret l.
Proof.
  intros Hf H. revert out. induction H as [|x l Hx Hl IH]; intros out Ho; [by destruct out|]. destruct out as [|o out]; [done|]. destruct (Hf x Hx) as (a & b & E & Hs). rewrite bind_cons, E. cbn [app str2hex_loop length].
  rewrite IH, step_ret by (cbn in Ho; lia). by rewrite (spells_put x a b o Hx Hs).
Qed.
Lemma spelled_length f l : spelled f -> List.Forall is_u8 l -> length (l ≫= f) = (2 * length l)%nat.
Proof. intros Hf. induction 1 as [|x l Hx Hl IH]; [done|]. destruct (Hf x Hx) as (a & b & E & _). rewrite bind_cons, length_app, IH, E. cbn. lia. Qed.

Lemma nibble_spelled : spelled (fun x => [nibble 39 (x / 16); nibble 39 (x mod 16)]).
Proof. intros x Hx. do 2 eexists. split; [done|]. on_bytes (fun x => spells x (nibble 39 (x / 16)) (nibble 39 (x mod 16))) x Hx. Qed.
Lemma table_spelled lc : spelled (fun x => [at_ (if lc : bool then lower else upper) (Z.land (Z.shiftr x 4) 0xf); at_ (if lc : bool then lower else upper) (Z.land x 0xf)]).
Proof.
  intros x Hx. do 2 eexists. split; [done|]. destruct lc.
  - on_bytes (fun x => spells x (at_ lower (Z.land (Z.shiftr x 4) 0xf)) (at_ lower (Z.land x 0xf))) x Hx.
  - on_bytes (fun x => spells x (at_ upper (Z.land (Z.shiftr x 4) 0xf)) (at_ upper (Z.land x 0xf))) x Hx.
Qed.

(** Bytes written as text by either pair of functions, in small or capital letters, are read back
    unchanged. *)
Theorem hex_text_roundtrip l out lc : List.Forall is_u8 l -> l <> [] -> length out = length l ->
  (exists t, hex_to_strs (Some l) (Z.of_nat (length l)) true = Ret (0, t) /\ hex_str_to_nums (Some t) (2 * Z.of_nat (length l)) true = Ret (0, l)) /\
  (exists t, qm_hex2str l (Z.of_nat (length l)) lc = Ret t /\ qm_str2hex t (2 * Z.of_nat (length l)) out = Ret (QM_EOK, l)).
Proof.
  intros Hl Hne Ho. assert (0 < length l)%nat as H0 by (destruct l; [done|cbn; lia]). split.
  - unfold hex_to_strs. rewrite slice_whole, (proj2 (Z.eqb_neq _ 0)) by lia. cbn [negb orb of_option]. rewrite step_ret. eexists. split; [done|].
    unfold hex_str_to_nums. rewrite (proj2 (Z.eqb_neq _ 0)) by lia. cbn [negb orb]. replace (Z.to_nat ((2 * Z.of_nat (length l) + 1) / 2)) with (length l) by (Z.div_mod_to_equations; lia).
    by rewrite (spelled_nums _ l [0] nibble_spelled Hl).
  - unfold qm_hex2str. rewrite slice_whole by done. cbn [of_option]. rewrite step_ret. eexists. split; [done|].
    unfold qm_str2hex. replace (2 * Z.of_nat (length l)) with (Z.of_nat (length l) * 2) by lia. rewrite Z.mod_mul, Z.div_mul, Nat2Z.id by lia. cbn [Z.eqb negb].
    pose proof (spelled_hex _ l [] out (table_spelled lc) Hl Ho) as H. rewrite app_nil_r in H. by rewrite H.
Qed.

Lemma hex_text_roundtrip_witness : exists t, qm_hex2str [0xC0; 0xFF; 0x3E] 3 true = Ret t /\ qm_str2hex t 6 [0; 0; 0] = Ret (QM_EOK, [0xC0; 0xFF; 0x3E]).
Proof.
  destruct (hex_text_roundtrip [0xC0; 0xFF; 0x3E] [0; 0; 0] true) as [_ H].
  - by apply u8b_list.
  - done.
  - reflexivity.
  - exact H.
Defined.

(** ** Numbers as text *)

Definition is_digit (c : Z) : Prop := 48 <= c <= 57.
(** The number that digits stand for, the first one first. *)
Definition value (l : list Z) (v : Z) : Z := foldl (fun a c => a * 10 + (c - 48)) v l.

Lemma digits_ok size n : 0 <= n < 10 ^ Z.of_nat size -> (0 < size)%nat ->
  exists l, digits size 10 (fun d => d + 48) n = Ret l /\ List.Forall is_digit l /\ value (reverse l) 0 = n /\ (0 < length l <= size)%nat /\ (n = 0 \/ last l <> Some 48).
Proof.
  revert n. induction size as [|size IH]; intros n Hn Hs; [lia|]. cbn [digits]. pose proof (Z.mod_pos_bound n 10 ltac:(lia)) as Hm. pose proof (Z.div_mod n 10 ltac:(lia)) as Hd.
  destruct (Z.gtb_spec (n / 10) 0) as [Hq|Hq].
  - assert (0 < size)%nat as Hs' by (destruct size; [cbn in Hn; Z.div_mod_to_equations; lia|lia]).
    rewrite Nat2Z.inj_succ, Z.pow_succ_r in Hn by lia. destruct (IH (n / 10) ltac:(split; [lia|]; apply Z.div_lt_upper_bound; lia) Hs') as (l & -> & H1 & H2 & H3 & H4).
    exists (n mod 10 + 48 :: l). split; [done|]. split; [apply List.Forall_cons; [unfold is_digit; lia|done]|]. split; [|split; [cbn; lia|]].
    + rewrite reverse_cons. unfold value. rewrite foldl_app. fold (value (reverse l) 0). rewrite H2. cbn. lia.
    + right. destruct l as [|x l]; [cbn in H3; lia|]. rewrite last_cons_cons. destruct H4; [lia|done].
  - exists [n mod 10 + 48]. assert (n = n mod 10) as E by (pose proof (Z.div_pos n 10 ltac:(lia) ltac:(lia)); lia). split; [done|]. split; [apply List.Forall_cons; [unfold is_digit; lia|apply List.Forall_nil]|].
    split; [cbn; lia|]. split; [cbn; lia|]. destruct (decide (n = 0)); [by left|]. right. cbn. intros [= H]. lia.
Qed.

Lemma str2uint_value k l v : 0 < k -> List.Forall is_digit l -> str2uint_loop (fun x => x mod 2 ^ k) l (v mod 2 ^ k) = (QM_EOK, Some (value l v mod 2 ^ k)).
Proof.
  intros Hk H. revert v. induction H as [|c l Hc Hl IH]; intros v; [done|]. cbn [str2uint_loop]. unfold is_digit in Hc.
  rewrite (proj2 (Z.ltb_ge c 48)) by lia. replace (c >? 57) with false by (symmetry; rewrite Z.gtb_ltb; apply Z.ltb_ge; lia). cbn [orb]. change (value (c :: l) v) with (value l (v * 10 + (c - 48))).
  rewrite <- IH. f_equal. rewrite <- Z.add_sub_assoc, Z.add_mod, Z.mul_mod, Z.mod_mod, <- Z.mul_mod, <- Z.add_mod by lia. done.
Qed.

Lemma num_loop_value l v : List.Forall is_digit l -> (0 < length l)%nat -> num_loop dec_val (fun h => h * 10) (length l - 1) l (u32 (v * 10)) = Ret (u32 (value l v)).
Proof.
  intros H. revert v. induction H as [|c l Hc Hl IH]; intros v Hn; [cbn in Hn; lia|]. cbn [num_loop length]. rewrite Nat.sub_succ, Nat.sub_0_r. unfold is_digit in Hc.
  unfold dec_val. rewrite (proj2 (Z.leb_le 48 c)), (proj2 (Z.leb_le c 57)) by lia. cbn [andb]. rewrite u32_add_l. destruct l as [|d l]; [done|].
  cbn [length]. specialize (IH (v * 10 + (c - 48)) ltac:(cbn; lia)). cbn [length] in IH. rewrite Nat.sub_succ, Nat.sub_0_r in IH.
  etransitivity; [|exact IH]. f_equal. unfold u32. by rewrite Zmult_mod_idemp_l.
Qed.

Lemma digits_more size size' b e n l l' : digits size b e n = Ret l -> digits size' b e n = Ret l' -> (size <= size')%nat -> l' = l.
Proof.
  revert size' n l l'. induction size as [|size IH]; intros size' n l l' H H' Hle; [done|]. destruct size' as [|size']; [lia|]. cbn [digits] in H, H'.
  destruct (n / b >? 0); [|congruence]. apply bind_Ret in H as (r & Hr & [= <-]), H' as (r' & Hr' & [= <-]). f_equal. apply (IH size' (n / b)); [done|done|lia].
Qed.

Lemma reverse_digits l : List.Forall is_digit l -> List.Forall is_digit (reverse l).
Proof. by rewrite list.Forall_reverse. Qed.

(** A number written in decimal is read back by the functions of both files, with 32 and 64 bits; it has no
    leading zero, fits the local buffer, and a negative number is a minus sign and its amount. *)
Theorem decimal_roundtrip n : 0 <= n < 2 ^ 64 ->
  (n < 2 ^ 32 -> exists t, qm_uint2str n = Ret (t, Z.of_nat (length t)) /\ (0 < length t <= 10)%nat /\ (n = 0 \/ head t <> Some 48) /\
     qm_str2uint t (Z.of_nat (length t)) = Ret (QM_EOK, Some n) /\ int_str_to_num t (Z.of_nat (length t)) = Ret n /\
     (0 < n <= 2 ^ 31 -> qm_int2str (- n) = Ret (45 :: t, Z.of_nat (length t) + 1)) /\ (n < 2 ^ 31 -> qm_int2str n = Ret (t, Z.of_nat (length t)))) /\
  (exists t, qm_uint642str n = Ret (t, Z.of_nat (length t)) /\ (0 < length t <= 20)%nat /\ qm_str2uint64 t (Z.of_nat (length t)) = Ret (QM_EOK, Some n)).
Proof.
  intros Hn. split.
  - intros H32. destruct (digits_ok 10 n ltac:(change (10 ^ Z.of_nat 10) with 10000000000; lia) ltac:(lia)) as (l & E & Hd & Hv & Hl & Hz).
    destruct (digits_ok 11 n ltac:(change (10 ^ Z.of_nat 11) with 100000000000; lia) ltac:(lia)) as (l' & E' & _).
    assert (l' = l) as -> by (by eapply digits_more; [exact E|exact E'|lia]).
    exists (reverse l). rewrite !length_reverse. unfold qm_uint2str, qm_int2str. rewrite E. split; [done|]. split; [done|]. split; [by rewrite head_reverse|].
    unfold qm_str2uint. rewrite slice_whole by (by rewrite length_reverse). cbn [of_option]. rewrite step_ret.
    pose proof (str2uint_value 32 (reverse l) 0 ltac:(lia) (reverse_digits l Hd)) as S1. rewrite Hv in S1. change (0 mod 2 ^ 32) with 0 in S1. rewrite Z.mod_small in S1 by lia.
    split; [f_equal; exact S1|]. split.
    + unfold int_str_to_num. replace (Z.to_nat (u8 (Z.of_nat (length l) - 1))) with (length (reverse l) - 1)%nat by (rewrite length_reverse, u8_id by (widths; lia); lia).
      change 0 with (u32 (0 * 10)) at 1. rewrite num_loop_value by (try apply reverse_digits; try rewrite length_reverse; done || lia). by rewrite Hv, u32_id by (widths; lia).
    + split; intros Hr.
      * rewrite (proj2 (Z.ltb_lt (- n) 0)), Z.opp_involutive, E by lia. done.
      * rewrite (proj2 (Z.ltb_ge n 0)), E' by lia. done.
  - destruct (digits_ok 20 n ltac:(change (10 ^ Z.of_nat 20) with 100000000000000000000; lia) ltac:(lia)) as (l & E & Hd & Hv & Hl & _).
    exists (reverse l). rewrite !length_reverse. unfold qm_uint642str. rewrite E. split; [done|]. split; [done|].
    unfold qm_str2uint64. rewrite slice_whole by (by rewrite length_reverse). cbn [of_option]. rewrite step_ret.
    pose proof (str2uint_value 64 (reverse l) 0 ltac:(lia) (reverse_digits l Hd)) as S1. rewrite Hv in S1. change (0 mod 2 ^ 64) with 0 in S1. rewrite Z.mod_small in S1 by lia. f_equal. exact S1.
Qed.

Lemma decimal_roundtrip_witness : exists t, qm_uint2str 4294967295 = Ret (t, Z.of_nat (length t)) /\ qm_str2uint t (Z.of_nat (length t)) = Ret (QM_EOK, Some 4294967295).
Proof.
  destruct (decimal_roundtrip 4294967295) as [H _]; [lia|]. destruct H as (t & H1 & _ & _ & H2 & _); [lia|]. by exists t.
Defined.

(** ** Values in JSON text *)

Section json_proofs.
Context (input key : list Z).
Abbreviation len := (Z.of_nat (length input)).
Abbreviation klen := (Z.of_nat (length key)).
Context (small : len + klen + 2 < 2 ^ 32).

Lemma char_in i : 0 <= i < len -> exists c, char input i = Ret c /\ input !! Z.to_nat i = Some c.
Proof using small.
  intros Hi. unfold char. rewrite (proj2 (Z.ltb_ge i 0)) by lia. destruct (lookup_lt_is_Some_2 input (Z.to_nat i)) as [c Hc]; [lia|]. exists c. by rewrite Hc.
Qed.

Lemma scan_in stop n idx : 0 <= idx -> idx + Z.of_nat n <= len -> exists r, scan input stop n idx = Ret r /\ forall i, r = Some i -> idx <= i < idx + Z.of_nat n.
Proof using small.
  revert idx. induction n as [|n IH]; intros idx H0 Hn; [by exists None|]. cbn [scan]. destruct (char_in idx ltac:(lia)) as (c & -> & _). rewrite step_ret.
  destruct (stop c); [exists (Some idx); split; [done|]; intros i [= <-]; lia|]. destruct (IH (idx + 1) ltac:(lia) ltac:(lia)) as (r & Hr & Hi). exists r. split; [done|]. intros i Hri. specialize (Hi i Hri). lia.
Qed.
Lemma scan_nested_in o c n idx count : 0 <= idx -> idx + Z.of_nat n <= len -> exists r, scan_nested input o c n idx count = Ret r /\ forall i, r = Some i -> idx <= i < idx + Z.of_nat n.
Proof using small.
  revert idx count. induction n as [|n IH]; intros idx count H0 Hn; [by exists None|]. cbn [scan_nested]. destruct (char_in idx ltac:(lia)) as (x & -> & _). rewrite step_ret.
  assert (forall k, exists r, scan_nested input o c n (idx + 1) k = Ret r /\ forall i, r = Some i -> idx <= i < idx + Z.of_nat (S n)) as Hk.
  { intros k. destruct (IH (idx + 1) k ltac:(lia) ltac:(lia)) as (r & Hr & Hi). exists r. split; [done|]. intros i Hri. specialize (Hi i Hri). lia. }
  destruct (x =? o); [apply Hk|]. destruct (x =? c); [|apply Hk]. destruct (u8 (count - 1) =? 0); [|apply Hk]. exists (Some idx). split; [done|]. intros i [= <-]. lia.
Qed.

(** The value lies in the text, or there is none. *)
Definition value_inside (r : json_result) : Prop :=
  let '(code, v, n) := r in
  (code = - QM_ERROR /\ n = None) \/ (code = QM_EOK /\ exists a k, v = Some a /\ n = Some k /\ 0 <= a /\ 0 <= k /\ a + k <= len).

Lemma finish_inside a e r idx n : 0 <= e <= 1 -> 0 <= a <= idx -> idx + Z.of_nat n <= len -> (forall i, r = Some i -> idx <= i < idx + Z.of_nat n) -> value_inside (finish a e r).
Proof using small.
  intros He Ha Hn Hr. destruct r as [i|]; [|by left]. right. split; [done|]. specialize (Hr i eq_refl). exists a, (i - a + e). rewrite u32_id by (widths; lia).
  split; [done|]. split; [done|]. lia.
Qed.

Lemma json_read_inside idx : 0 <= idx < len -> exists r, json_read input len idx = Ret r /\ value_inside r.
Proof using small.
  intros Hi. unfold json_read. destruct (char_in idx Hi) as (c & -> & _). rewrite step_ret. destruct (c =? 34).
  - destruct (scan_in (fun c => c =? 34) (Z.to_nat (len - (idx + 1))) (idx + 1) ltac:(lia) ltac:(lia)) as (r & -> & Hr). rewrite step_ret. eexists. split; [done|].
    by apply (finish_inside _ 0 r (idx + 1) (Z.to_nat (len - (idx + 1)))); try lia.
  - destruct ((c =? 123) || (c =? 91)).
    + destruct (scan_nested_in c (if c =? 123 then 125 else 93) (Z.to_nat (len - idx)) idx 0 ltac:(lia) ltac:(lia)) as (r & -> & Hr). rewrite step_ret. eexists. split; [done|].
      by apply (finish_inside _ 1 r idx (Z.to_nat (len - idx))); try lia.
    + destruct (scan_in (fun c => (c =? 44) || (c =? 93) || (c =? 125)) (Z.to_nat (len - idx)) idx ltac:(lia) ltac:(lia)) as (r & -> & Hr). rewrite step_ret. eexists. split; [done|].
      by apply (finish_inside _ 0 r idx (Z.to_nat (len - idx))); try lia.
Qed.

(** The test for the key looks for the key between quotation marks. *)
Definition quoted : list Z := 34 :: key ++ [34].
Definition quoted_at (j : nat) : Prop := take (length key + 2) (drop j input) = quoted.

Lemma key_at_spec i : 0 <= i -> i + klen < len ->
  exists b, key_at input len key klen i = Ret b /\ (b = true <-> 0 < i /\ quoted_at (Z.to_nat (i - 1))).
Proof using small.
  intros Hi Hl. unfold key_at. rewrite (slice_whole key) by done. unfold Heap.slice at 1. rewrite (proj2 (Z.leb_le 0 i)), (proj2 (Z.leb_le 0 klen)), (proj2 (Z.leb_le _ _)) by lia.
  cbn [andb of_option]. rewrite !step_ret, Nat2Z.id. set (a := take (length key) (drop (Z.to_nat i) input)).
  rewrite (u32_id (i + klen)) by (widths; lia). destruct (char_in (i + klen) ltac:(lia)) as (q2 & Hq2 & L2).
  destruct (Z.gtb_spec i 0) as [Hpos|Hpos]; cbn [negb]; [|exists false; split; [by destruct (bool_decide (a = key))|split; [done|lia]]].
  destruct (char_in (i - 1) ltac:(lia)) as (q1 & Hq1 & L1). rewrite Hq1, step_ret, (proj2 (Z.ltb_lt (i + klen) len)), Hq2, step_ret by lia. cbn [negb].
  assert (take (length key + 2) (drop (Z.to_nat (i - 1)) input) = q1 :: a ++ [q2]) as E.
  { rewrite (drop_S input q1 (Z.to_nat (i - 1)) L1). replace (length key + 2)%nat with (S (S (length key))) by lia. cbn [take]. f_equal. replace (S (Z.to_nat (i - 1))) with (Z.to_nat i) by lia.
    apply take_S_r. rewrite lookup_drop, <- L2. f_equal. lia. }
  unfold quoted_at, quoted. rewrite E. exists (bool_decide (a = key) && (q1 =? 34) && (q2 =? 34)). split; [by destruct (bool_decide (a = key)), (q1 =? 34)|].
  rewrite !andb_true_iff, bool_decide_eq_true, !Z.eqb_eq. split.
  - intros [[-> ->] ->]. done.
  - intros [_ [= -> [-> [= ->]]%app_inj_tail]]. done.
Qed.

Lemma json_loop_inside n idx : 0 <= idx -> idx + Z.of_nat n = len -> exists r, json_loop input len key klen n idx = Ret r /\ value_inside r.
Proof using small.
  revert idx. induction n as [|n IH]; intros idx H0 Hn; cbn [json_loop]; [eexists; split; [done|]; by left|].
  rewrite (u32_id (idx + klen)) by (widths; lia). rewrite Z.geb_leb. destruct (Z.leb_spec len (idx + klen)) as [|Hl]; [eexists; split; [done|]; by left|].
  destruct (key_at_spec idx H0 Hl) as (b & -> & _). rewrite step_ret. destruct b; cbn [negb]; [|apply IH; lia].
  rewrite (u32_id (idx + klen + 2)) by (widths; lia). rewrite Z.geb_leb. destruct (Z.leb_spec len (idx + klen + 2)) as [|Hl2]; [eexists; split; [done|]; by left|].
  destruct (char_in (idx + klen + 1) ltac:(lia)) as (c & -> & _). rewrite step_ret. destruct (c =? 58); cbn [negb]; [|eexists; split; [done|]; by left]. apply json_read_inside. lia.
Qed.

(** Nothing is found before the first quoted key. *)
Lemma json_loop_skip n idx k : 0 <= idx -> (forall j, (Z.to_nat idx <= S j < Z.to_nat idx + k)%nat -> ~ quoted_at j) -> (k <= n)%nat -> idx + Z.of_nat k + klen < len ->
  json_loop input len key klen n idx = json_loop input len key klen (n - k) (idx + Z.of_nat k).
Proof using small.
  revert n idx. induction k as [|k IH]; intros n idx H0 Hq Hk Hl; [rewrite Nat.sub_0_r; f_equal; lia|]. destruct n as [|n]; [lia|]. cbn [json_loop Nat.sub].
  rewrite (u32_id (idx + klen)) by (widths; lia). rewrite Z.geb_leb, (proj2 (Z.leb_gt _ _)) by lia. destruct (key_at_spec idx H0 ltac:(lia)) as (b & -> & Hb). rewrite step_ret.
  destruct b; cbn [negb].
  { exfalso. destruct (proj1 Hb eq_refl) as [Hp Hat]. apply (Hq (Z.to_nat (idx - 1))); [lia|done]. }
  rewrite (IH n (idx + 1)) by (lia || (intros j Hj; apply Hq; lia)). f_equal. lia.
Qed.

(** A scan stops at the first character it looks for. *)
Lemma scan_stops stop n idx l c : 0 <= idx -> take (length l + 1) (drop (Z.to_nat idx) input) = l ++ [c] -> List.Forall (fun x => stop x = false) l -> stop c = true -> (length l < n)%nat ->
  scan input stop n idx = Ret (Some (idx + Z.of_nat (length l))).
Proof using small.
  revert n idx. induction l as [|x l IH]; intros n idx H0 Ht Hl Hc Hn; (destruct n as [|n]; [cbn in Hn; lia|]); cbn [scan]; unfold char; rewrite (proj2 (Z.ltb_ge idx 0)) by lia.
  - assert (input !! Z.to_nat idx = Some c) as ->. { rewrite <- (Nat.add_0_r (Z.to_nat idx)), <- lookup_drop. destruct (drop (Z.to_nat idx) input); [done|]. cbn in Ht. by injection Ht as ->. }
    cbn [of_option]. rewrite step_ret, Hc. do 2 f_equal. cbn. lia.
  - assert (input !! Z.to_nat idx = Some x /\ take (length l + 1) (drop (Z.to_nat (idx + 1)) input) = l ++ [c]) as [-> Ht'].
    { replace (Z.to_nat (idx + 1)) with (Z.to_nat idx + 1)%nat by lia. rewrite <- drop_drop. rewrite <- (Nat.add_0_r (Z.to_nat idx)) at 1. rewrite <- lookup_drop.
      destruct (drop (Z.to_nat idx) input) as [|y d]; [done|]. cbn in Ht |- *. injection Ht as -> Ht. split; [done|]. by rewrite drop_0. }
    apply list.Forall_cons in Hl as [Hx Hl]. cbn [of_option]. rewrite step_ret, Hx. rewrite (IH n (idx + 1)) by (done || lia || (cbn in Hn; lia)). do 2 f_equal. cbn. lia.
Qed.
End json_proofs.

(** Looking for a key in any text stays inside the text: it ends, and what it gives back is a part of the
    text or an error. *)
Theorem json_value_safe input key : Z.of_nat (length input) + Z.of_nat (length key) + 2 < 2 ^ 32 ->
  exists r, qm_json_value input (Z.of_nat (length input)) key (Z.of_nat (length key)) = Ret r /\ value_inside input r.
Proof. intros H. unfold qm_json_value. apply (json_loop_inside input key H); [done|]. lia. Qed.

(** {"a":[1,{"b":2}],"c":"xy"} *)
Definition sample : list Z := [123; 34; 97; 34; 58; 91; 49; 44; 123; 34; 98; 34; 58; 50; 125; 93; 44; 34; 99; 34; 58; 34; 120; 121; 34; 125].
Lemma json_value_safe_witness : exists r, qm_json_value sample 26 [97] 1 = Ret r /\ value_inside sample r.
Proof. apply (json_value_safe sample [97]). reflexivity. Defined.

(** C40: the string directly behind the first occurrence of the quoted key, a colon and a quotation mark (no
    spaces) is found, whatever stands before and after it: the value starts behind the quotation mark and ends
    before the next one, so that it has none in it, also none that is escaped. *)
Theorem json_string_found pre key v post : let input := pre ++ quoted key ++ [58; 34] ++ v ++ [34] ++ post in
  Z.of_nat (length input) + Z.of_nat (length key) + 2 < 2 ^ 32 -> (forall j, (j < length pre)%nat -> ~ quoted_at input key j) -> ~ In 34 v ->
  exists a, qm_json_value input (Z.of_nat (length input)) key (Z.of_nat (length key)) = Ret (QM_EOK, Some (Z.of_nat a), Some (Z.of_nat (length v))) /\ take (length v) (drop a input) = v.
Proof.
  intros input Hs Hfirst Hv. exists (length pre + length key + 4)%nat.
  assert (length input = (length pre + length key + length v + length post + 5)%nat) as Hlen by (unfold input, quoted; rewrite !length_app; cbn [length]; rewrite length_app; cbn; lia).
  assert (drop (length pre + length key + 4) input = v ++ [34] ++ post) as Hd.
  { unfold input. rewrite (app_assoc pre), (app_assoc (pre ++ quoted key)). apply drop_app_length'. unfold quoted. rewrite !length_app. cbn [length]. rewrite length_app. cbn. lia. }
  split; [|rewrite Hd; apply take_app_length]. unfold qm_json_value.
  rewrite (json_loop_skip input key Hs _ 0 (length pre + 1)) by (lia || (intros j Hj; apply Hfirst; lia)). rewrite Z.add_0_l, Nat2Z.id.
  destruct (length input - (length pre + 1))%nat as [|n] eqn:En; [lia|]. cbn [json_loop]. rewrite (u32_id (Z.of_nat (length pre + 1) + _)) by (widths; lia).
  rewrite Z.geb_leb, (proj2 (Z.leb_gt _ _)) by lia. destruct (key_at_spec input key Hs (Z.of_nat (length pre + 1)) ltac:(lia) ltac:(lia)) as (b & -> & Hb). rewrite step_ret.
  assert (b = true) as ->.
  { apply Hb. split; [lia|]. unfold quoted_at. replace (Z.to_nat (Z.of_nat (length pre + 1) - 1)) with (length pre) by lia. unfold input. rewrite drop_app_length. apply take_app_length'. unfold quoted. cbn [length]. rewrite length_app. cbn. lia. }
  cbn [negb]. rewrite (u32_id (_ + 2)) by (widths; lia). rewrite Z.geb_leb, (proj2 (Z.leb_gt _ _)) by lia.
  assert (forall k c, (k < 2)%nat -> [58; 34] !! k = Some c -> input !! (length pre + length key + 2 + k)%nat = Some c) as Hc.
  { intros k c Hk Hkc. unfold input. rewrite (app_assoc pre), lookup_app_r, lookup_app_l; [rewrite <- Hkc; f_equal|cbn|]; unfold quoted; rewrite !length_app; cbn [length]; rewrite ?length_app; cbn; lia. }
  unfold char. rewrite (proj2 (Z.ltb_ge _ 0)) by lia. replace (Z.to_nat (Z.of_nat (length pre + 1) + Z.of_nat (length key) + 1)) with (length pre + length key + 2 + 0)%nat by lia. rewrite (Hc 0%nat 58) by (done || lia).
  cbn [of_option]. rewrite step_ret. cbn [Z.eqb negb Pos.eqb]. unfold json_read, char. rewrite (proj2 (Z.ltb_ge _ 0)) by lia.
  replace (Z.to_nat (Z.of_nat (length pre + 1) + Z.of_nat (length key) + 2)) with (length pre + length key + 2 + 1)%nat by lia. rewrite (Hc 1%nat 34) by (done || lia).
  cbn [of_option]. rewrite step_ret. cbn [Z.eqb Pos.eqb].
  rewrite (scan_stops input key Hs (fun c => c =? 34) _ _ v 34); [| lia | |apply List.Forall_forall; intros x Hx; apply Z.eqb_neq; by intros -> |done|lia].
  - rewrite step_ret. unfold finish. do 2 f_equal; [do 2 f_equal; lia|]. f_equal. rewrite u32_id by (widths; lia). lia.
  - replace (Z.to_nat (Z.of_nat (length pre + 1) + Z.of_nat (length key) + 2 + 1)) with (length pre + length key + 4)%nat by lia. rewrite Hd, app_assoc. apply take_app_length'. rewrite length_app. done.
Qed.

(** The value of "c" in the sample. *)
Lemma json_string_found_witness : exists a, qm_json_value sample 26 [99] 1 = Ret (QM_EOK, Some (Z.of_nat a), Some 2) /\ take 2 (drop a sample) = [120; 121].
Proof.
  apply (json_string_found (take 17 sample) [99] [120; 121] [125]).
  - reflexivity.
  - intros j Hj. do 17 (destruct j as [|j]; [vm_compute; done|]). cbn in Hj. lia.
  - cbn. intros [H|[H|[]]]; lia.
Defined.

(** Brackets are counted in a byte: behind 257 opening ones the first closing one ends the value. *)
Theorem deep_nesting_truncated : let input := [34; 97; 34; 58] ++ replicate 257 91 ++ replicate 257 93 in
  qm_json_value input (Z.of_nat (length input)) [97] 1 = Ret (QM_EOK, Some 4, Some 258).
Proof. vm_compute. reflexivity. Qed.

(** ** Substitution *)

(** The format with its placeholders replaced in order, and their number. *)
Fixpoint subst (fmt : list Z) (src : list (option (list Z))) : list Z :=
  match fmt with
  | [] => []
  | c :: rest =>
      match rest with
      | d :: rest' => if (c =? 37) && (d =? 115) then default [] (default None (head src)) ++ subst rest' (tail src) else c :: subst rest src
      | [] => [c]
      end
  end.
Fixpoint placeholders (fmt : list Z) : nat :=
  match fmt with
  | [] => 0
  | c :: rest =>
      match rest with
      | d :: rest' => if (c =? 37) && (d =? 115) then S (placeholders rest') else placeholders rest
      | [] => 0
      end
  end.

Lemma subst_two c d fmt src : subst (c :: d :: fmt) src = if (c =? 37) && (d =? 115) then default [] (default None (head src)) ++ subst fmt (tail src) else c :: subst (d :: fmt) src.
Proof. reflexivity. Qed.
Lemma placeholders_two c d fmt : placeholders (c :: d :: fmt) = if (c =? 37) && (d =? 115) then S (placeholders fmt) else placeholders (d :: fmt).
Proof. reflexivity. Qed.

Definition no_zero (l : list Z) : Prop := List.Forall (fun c => c <> 0) l.

Lemma strlen_app out rest : no_zero out -> strlen (out ++ 0 :: rest) = Some (length out).
Proof. induction 1 as [|c out Hc H IH]; [done|]. cbn [app strlen]. rewrite (proj2 (Z.eqb_neq c 0) Hc), IH. done. Qed.

Lemma append_ok out v k : no_zero out -> append (out ++ replicate (S (length v + k)) 0) v = Ret ((out ++ v) ++ replicate (S k) 0).
Proof.
  intros H. unfold append. assert (strlen (out ++ replicate (S (length v + k)) 0) = Some (length out)) as -> by (by apply strlen_app). cbn [of_option]. rewrite step_ret.
  replace (S (length v + k)) with (length v + S k)%nat by lia. rewrite replicate_add.
  rewrite Heap.splice_app by apply length_replicate. cbn [of_option]. by rewrite app_assoc.
Qed.

(** How the loop goes on from a position in the format. *)
Lemma sprintf_loop_ok fuel fmt src before todo used rest out : fmt = before ++ todo -> src = used ++ rest -> (length fmt <= 255)%nat -> (length src <= 255)%nat ->
  no_zero fmt -> List.Forall (fun v => no_zero (default [] v)) src -> no_zero out -> placeholders todo = length rest -> (length todo < fuel)%nat ->
  sprintf_loop fuel fmt src (Z.of_nat (length before)) (Z.of_nat (length used)) (out ++ replicate (S (length (subst todo rest))) 0) = Ret (out ++ subst todo rest ++ [0]).
Proof.
  revert before todo used rest out. induction fuel as [|fuel IH]; intros before todo used rest out Ef Es Hf Hs Hz Hzs Ho Hp Hfuel; [lia|]. cbn [sprintf_loop].
  assert (Z.of_nat (length fmt) = Z.of_nat (length before) + Z.of_nat (length todo)) as El by (rewrite Ef, length_app; lia). rewrite Z.geb_leb.
  destruct todo as [|c todo]; [rewrite (proj2 (Z.leb_le _ _)) by (cbn in El; lia); done|]. rewrite (proj2 (Z.leb_gt _ _)) by (cbn [length] in El; lia).
  assert (fmt !! Z.to_nat (Z.of_nat (length before)) = Some c) as -> by (rewrite Nat2Z.id, Ef; by apply list_lookup_middle). cbn [of_option]. rewrite step_ret.
  assert (no_zero (before ++ c :: todo)) as [_ Hz']%list.Forall_app by by rewrite <- Ef. apply list.Forall_cons in Hz' as [Hc Hz'].
  assert (forall e, todo = [] -> fmt !! Z.to_nat (Z.of_nat (length before) + 1) = Some e -> False) as Hend.
  { intros e -> He%lookup_lt_Some. cbn [length] in El. lia. }
  assert (Htest : (c =? 37) && (Z.of_nat (length before) + 1 <? Z.of_nat (length fmt)) && bool_decide (fmt !! Z.to_nat (Z.of_nat (length before) + 1) = Some 115)
    = match todo with d :: _ => (c =? 37) && (d =? 115) | [] => false end).
  { destruct todo as [|d todo]; [rewrite (proj2 (Z.ltb_ge _ _)) by (cbn [length] in El; lia); by rewrite andb_false_r|]. rewrite (proj2 (Z.ltb_lt _ _)), andb_true_r by (cbn [length] in El; lia). f_equal.
    replace (Z.to_nat (Z.of_nat (length before) + 1)) with (length (before ++ [c])) by (rewrite length_app; cbn; lia). rewrite Ef. replace (before ++ c :: d :: todo) with ((before ++ [c]) ++ d :: todo) by (by rewrite <- app_assoc).
    rewrite list_lookup_middle by done. destruct (Z.eqb_spec d 115) as [->|Hne]; [by apply bool_decide_eq_true|]. apply bool_decide_eq_false. congruence. }
  rewrite Htest. clear Htest Hend.
  assert (Hplain : subst (c :: todo) rest = c :: subst todo rest -> placeholders (c :: todo) = placeholders todo ->
    (b ← append (out ++ replicate (S (length (subst (c :: todo) rest))) 0) [c]; sprintf_loop fuel fmt src (u8 (Z.of_nat (length before) + 1)) (Z.of_nat (length used)) b) = Ret (out ++ subst (c :: todo) rest ++ [0])).
  { intros -> Hpl. rewrite Hpl in Hp. change (length (c :: subst todo rest)) with (length [c] + length (subst todo rest))%nat. rewrite (append_ok out [c] (length (subst todo rest)) Ho), step_ret. rewrite u8_id by (widths; cbn [length] in El; lia).
    replace (Z.of_nat (length before) + 1) with (Z.of_nat (length (before ++ [c]))) by (rewrite length_app; cbn; lia).
    rewrite (IH (before ++ [c]) todo used rest (out ++ [c])) by (done || (by rewrite <- app_assoc) || (cbn in Hfuel; lia) || (apply list.Forall_app; split; [done|]; apply List.Forall_cons; [done|apply List.Forall_nil])). by rewrite <- app_assoc. }
  destruct todo as [|d todo]; [by apply Hplain|]. destruct ((c =? 37) && (d =? 115)) eqn:Epc; [|apply Hplain; cbn [subst placeholders]; by rewrite Epc].
  cbn [subst placeholders] in Hp |- *. rewrite Epc in Hp |- *. destruct rest as [|v rest]; [done|]. cbn [head tail default]. injection Hp as Hp.
  assert (src !! Z.to_nat (Z.of_nat (length used)) = Some v) as -> by (rewrite Nat2Z.id, Es; by apply list_lookup_middle). cbn [of_option]. rewrite step_ret.
  assert (List.Forall (fun v => no_zero (default [] v)) (used ++ v :: rest)) as [_ [Hv _]%list.Forall_cons]%list.Forall_app by by rewrite <- Es.
  rewrite length_app, (append_ok out (default [] v) _ Ho), step_ret. rewrite !u8_id by (widths; cbn [length] in El; rewrite ?Es, ?length_app in Hs; cbn [length] in Hs; lia).
  replace (Z.of_nat (length before) + 2) with (Z.of_nat (length (before ++ [c; d]))) by (rewrite length_app; cbn; lia). replace (Z.of_nat (length used) + 1) with (Z.of_nat (length (used ++ [v]))) by (rewrite length_app; cbn; lia).
  rewrite (IH (before ++ [c; d]) todo (used ++ [v]) rest (out ++ default [] v)) by (done || (by rewrite <- app_assoc) || (cbn in Hfuel; lia) || (by apply list.Forall_app; split)). by rewrite <- !app_assoc.
Qed.

Lemma subst_length fmt src : placeholders fmt = length src -> (length (subst fmt src) + 2 * length src = length fmt + length (concat (default [] <$> src)))%nat.
Proof.
  remember (length fmt) as n eqn:En. revert fmt src En. induction (lt_wf n) as [n _ IH]. intros fmt src -> Hp. destruct fmt as [|c [|d fmt]]; [by destruct src|by destruct src|].
  rewrite subst_two. rewrite placeholders_two in Hp. destruct ((c =? 37) && (d =? 115)).
  - destruct src as [|v src]; [done|]. injection Hp as Hp. cbn [head tail default length]. rewrite fmap_cons. cbn [concat]. rewrite !length_app. pose proof (IH (length fmt) ltac:(cbn; lia) fmt src eq_refl Hp). cbn [default id] in *. lia.
  - pose proof (IH (length (d :: fmt)) ltac:(cbn; lia) (d :: fmt) src eq_refl Hp) as H. cbn [length] in *. lia.
Qed.

Lemma placeholders_room fmt : (2 * placeholders fmt <= length fmt)%nat.
Proof.
  remember (length fmt) as n eqn:En. revert fmt En. induction (lt_wf n) as [n _ IH]. intros fmt ->. destruct fmt as [|c [|d fmt]]; [done|cbn; lia|].
  rewrite placeholders_two. destruct ((c =? 37) && (d =? 115)).
  - pose proof (IH (length fmt) ltac:(cbn; lia) fmt eq_refl). cbn [length]. lia.
  - pose proof (IH (length (d :: fmt)) ltac:(cbn; lia) (d :: fmt) eq_refl) as H. cbn [length] in *. lia.
Qed.

(** A format of at most 255 characters with as many placeholders as there are strings gives the text with
    the strings in place of the placeholders, in a block of exactly this size and a terminator. *)
Theorem sprintf_substitutes fuel fmt src : (length fmt <= 255)%nat -> no_zero fmt -> List.Forall (fun v => no_zero (default [] v)) src -> placeholders fmt = length src ->
  Z.of_nat (length fmt) + Z.of_nat (length (concat (default [] <$> src))) < 2 ^ 32 -> (length fmt < fuel)%nat ->
  qm_utils_sprintf true fuel fmt src (Z.of_nat (length src)) = Ret (QM_EOK, Some (subst fmt src ++ [0])).
Proof.
  intros Hf Hz Hzs Hp Hsize Hfuel. pose proof (subst_length fmt src Hp) as Hl. unfold qm_utils_sprintf.
  assert (2 * length src <= length fmt)%nat as Hc by (rewrite <- Hp; apply placeholders_room).
  rewrite (proj2 (Z.ltb_ge _ _)) by lia. rewrite (proj2 (Z.ltb_ge _ _)) by lia. rewrite step_ret, Nat2Z.id, (firstn_all src). cbn [negb]. rewrite u32_id by (widths; lia).
  replace (Z.to_nat (Z.of_nat (length fmt) - 2 * Z.of_nat (length src) + Z.of_nat (length (concat (default [] <$> src)))) + 1)%nat with (S (length (subst fmt src))) by lia.
  pose proof (sprintf_loop_ok fuel fmt src [] fmt [] src [] eq_refl eq_refl Hf ltac:(lia) Hz Hzs (List.Forall_nil _) Hp Hfuel) as H. change (Z.of_nat (length [])) with 0 in H. rewrite !app_nil_l in H. by rewrite H.
Qed.

Lemma sprintf_substitutes_witness : qm_utils_sprintf true 10 [97; 37; 115; 98] [Some [120; 121]] 1 = Ret (QM_EOK, Some [97; 120; 121; 98; 0]).
Proof.
  apply (sprintf_substitutes 10 [97; 37; 115; 98] [Some [120; 121]]).
  - cbn. lia.
  - repeat (apply List.Forall_cons; [done|]). apply List.Forall_nil.
  - apply List.Forall_cons; [|apply List.Forall_nil]. repeat (apply List.Forall_cons; [done|]). apply List.Forall_nil.
  - reflexivity.
  - cbn. lia.
  - cbn. lia.
Defined.

(** The position is a byte: a format of 256 characters is read again from its start, and the block is overrun. *)
Theorem long_format_overruns : qm_utils_sprintf true 1000 (replicate 256 97) [] 0 = OutOfBounds.
Proof. vm_compute. reflexivity. Qed.
(** The size counts two characters for every string; with fewer placeholders the block is too small. *)
Theorem missing_placeholder_overruns : qm_utils_sprintf true 10 [97; 98] [Some []] 1 = OutOfBounds.
Proof. vm_compute. reflexivity. Qed.
(** A length of zero becomes 255 digits. *)
Theorem empty_number_overread : int_str_to_num [49; 50] 0 = OutOfBounds /\ hex_str_to_num [49; 50] 0 = OutOfBounds.
Proof. split; vm_compute; reflexivity. Qed.
(** The negation of the least number is undefined. *)
Theorem least_hexstr_undefined : qm_int2hexstr (- 2 ^ 31) = None.
Proof. reflexivity. Qed.
End StrUtil.
