(* ===== verification/Hmac.v ===== *)
(** * Message authentication and one-time passwords (utility/hmac, utility/totp)

    HMAC with MD5 and SHA-1, whose digests are written as text, and the passwords made from
    it.  Both are those of the standards, RFC 2104 and RFC 4226. *)

From S2P Require Import Prelude Outcome Words Merkle Heap Digest Md5 Sha1 StrUtil.
Import list_relations.list list_basics.list Words Merkle Digest.
Open Scope Z_scope.

Module Hmac.

Definition KEY_IOPAD_SIZE : Z := 64.
Definition MD5_DIGEST_SIZE : nat := 16.
Definition SHA1_DIGEST_SIZE : nat := 20.

(** The pads: the key, filled up with zeros, and each byte combined with [x]. *)
Definition key_pad (x : Z) (key : list Z) : list Z := (fun b => Z.lxor b x) <$> copy_at (replicate 64 0) 0 key.

Definition hex_text (out : list Z) : list Z := out ≫= fun b => [Md5.qm_utils_hb2hex (Z.shiftr b 4); Md5.qm_utils_hb2hex b].

(** The text of both functions, with the functions of the digest as arguments.  [digest] says
    whether the buffer is there; the result has what is written to it. *)
Section hmac.
Context (starts : hash_context) (update : hash_context -> list Z -> hash_context) (finish : hash_context -> list Z * hash_context).

Definition qm_utils_hmac (msg : option (list Z)) (msg_len : Z) (digest : bool) (key : option (list Z)) (key_len : Z) : outcome (Z * list Z) :=
  match msg, key with
  | Some msg, Some key =>
      if negb digest then Ret (- QM_EINVAL, [])
      else if key_len >? KEY_IOPAD_SIZE then Ret (- QM_EINVAL, [])
      else
        k ← of_option (Heap.slice key 0 key_len);
        m ← of_option (Heap.slice msg 0 msg_len);
        let context := update starts (key_pad 0x36 k) in
        let context := update context m in
        let '(out, _) := finish context in
        let context := update starts (key_pad 0x5c k) in
        let context := update context out in
        let '(out, _) := finish context in
        Ret (QM_EOK, hex_text out)
  | _, _ => Ret (- QM_EINVAL, [])
  end.
End hmac.

Definition qm_utils_hmac_md5 : option (list Z) -> Z -> bool -> option (list Z) -> Z -> outcome (Z * list Z) :=
  qm_utils_hmac (Md5.qm_utils_md5_starts Md5.qm_utils_md5_init) Md5.qm_utils_md5_update Md5.qm_utils_md5_finish.
Definition qm_utils_hmac_sha1 : option (list Z) -> Z -> bool -> option (list Z) -> Z -> outcome (Z * list Z) :=
  qm_utils_hmac (Sha1.qm_utils_sha1_starts Sha1.qm_utils_sha1_init) Sha1.qm_utils_sha1_update Sha1.qm_utils_sha1_finish.

(** ** The standard (RFC 2104, keys of at most one block) *)

Definition xor_with (x : Z) (l : list Z) : list Z := Z.lxor x <$> l.
Definition rfc2104 (H : list Z -> list Z) (key m : list Z) : list Z :=
  let K := key ++ replicate (64 - length key) 0 in
  H (xor_with 0x5c K ++ H (xor_with 0x36 K ++ m)).

Lemma key_pad_spec x key : (length key <= 64)%nat -> key_pad x key = xor_with x (key ++ replicate (64 - length key) 0).
Proof.
  intros Hk. unfold key_pad, xor_with, copy_at. cbn [take app Nat.add]. rewrite drop_replicate. apply list_fmap_ext. intros _ b _. apply Z.lxor_comm.
Qed.

Lemma xor_bytes x l : is_u8 x -> List.Forall is_u8 l -> List.Forall is_u8 (xor_with x l).
Proof. intros Hx Hl. unfold xor_with. apply list.Forall_fmap. eapply list.Forall_impl; [exact Hl|]. intros b Hb. by apply lxor_u8. Qed.

Section hmac_proof.
Context (starts : hash_context) (update : hash_context -> list Z -> hash_context) (finish : hash_context -> list Z * hash_context).
Context (got : hash_context -> list Z -> Prop) (H : list Z -> list Z).
Context (start_got : got starts []).
Context (update_got : forall x m p, got x m -> List.Forall is_u8 p -> Z.of_nat (length p) < 2 ^ 32 -> got (update x p) (m ++ p)).
Context (finish_got : forall x m, got x m -> fst (finish x) = H m).
Context (H_bytes : forall m, List.Forall is_u8 (H m) /\ Z.of_nat (length (H m)) < 2 ^ 32).

Lemma hmac_is_rfc2104 msg key post post' : List.Forall is_u8 msg -> List.Forall is_u8 key -> Z.of_nat (length msg) < 2 ^ 31 -> (length key <= 64)%nat ->
  qm_utils_hmac starts update finish (Some (msg ++ post)) (Z.of_nat (length msg)) true (Some (key ++ post')) (Z.of_nat (length key)) = Ret (QM_EOK, hex_text (rfc2104 H key msg)).
Proof using start_got update_got finish_got H_bytes.
  intros Hm Hk Hml Hkl. unfold qm_utils_hmac. cbn [negb]. replace (Z.of_nat (length key) >? KEY_IOPAD_SIZE) with false by (symmetry; rewrite Z.gtb_ltb; apply Z.ltb_ge; unfold KEY_IOPAD_SIZE; lia).
  rewrite !StrUtil.str_slice_all. cbn [of_option]. rewrite !StrUtil.step_ret, !key_pad_spec by done. set (K := key ++ replicate (64 - length key) 0).
  assert (List.Forall is_u8 K) as HK by (apply list.Forall_app; split; [done|apply zeros_u8]).
  assert (forall x, is_u8 x -> got (update starts (xor_with x K)) (xor_with x K)) as Hpad.
  { intros x Hx. rewrite <- (app_nil_l (xor_with x K)) at 2. apply update_got; [done|by apply xor_bytes|]. unfold xor_with, K. rewrite length_fmap, length_app, length_replicate. lia. }
  assert (is_u8 0x36 /\ is_u8 0x5c) as [H36 H5c] by by split.
  pose proof (finish_got _ _ (update_got _ _ msg (Hpad 0x36 H36) Hm ltac:(lia))) as F1. destruct (finish (update (update starts (xor_with 54 K)) msg)) as [out c1]. cbn [fst] in F1. subst out.
  destruct (H_bytes (xor_with 54 K ++ msg)) as [Hb Hl].
  pose proof (finish_got _ _ (update_got _ _ _ (Hpad 0x5c H5c) Hb Hl)) as F2. destruct (finish (update (update starts (xor_with 92 K)) _)) as [out c2]. cbn [fst] in F2. by subst out.
Qed.
End hmac_proof.

(** Two digits for a byte, in small letters. *)
Definition hex_of (l : list Z) : list Z := l ≫= fun b => [at_ StrUtil.lower (b / 16); at_ StrUtil.lower (b mod 16)].
Lemma hex_text_of l : List.Forall is_u8 l -> hex_text l = hex_of l.
Proof.
  intros H. unfold hex_text, hex_of. induction H as [|b l Hb H IH]; [done|]. rewrite !bind_cons, IH. f_equal.
  assert (Md5.qm_utils_hb2hex (Z.shiftr b 4) = at_ StrUtil.lower (b / 16)) as -> by (apply Z.eqb_eq; on_bytes (fun b => Md5.qm_utils_hb2hex (Z.shiftr b 4) =? at_ StrUtil.lower (b / 16)) b Hb).
  f_equal. f_equal. apply Z.eqb_eq. on_bytes (fun b => Md5.qm_utils_hb2hex b =? at_ StrUtil.lower (b mod 16)) b Hb.
Qed.

Lemma init_buffer n : length (buffer (ctx (hash_init n))) = 64%nat /\ List.Forall is_u8 (buffer (ctx (hash_init n))).
Proof. split; [done|apply zeros_u8]. Qed.

Lemma hmac_md5_spec msg key post post' : List.Forall is_u8 msg -> List.Forall is_u8 key -> Z.of_nat (length msg) < 2 ^ 31 -> (length key <= 64)%nat ->
  qm_utils_hmac_md5 (Some (msg ++ post)) (Z.of_nat (length msg)) true (Some (key ++ post')) (Z.of_nat (length key)) = Ret (QM_EOK, hex_of (rfc2104 Md5.Rfc1321.md5 key msg)).
Proof.
  intros Hm Hk Hml Hkl. unfold qm_utils_hmac_md5. rewrite (hmac_is_rfc2104 _ _ _ (given Md5.Rfc1321.compress Md5.words4 Md5.md5_start) Md5.Rfc1321.md5); try done.
  - rewrite hex_text_of; [done|apply Md5.md5_digest_bytes].
  - apply Md5.starts_md5; apply init_buffer.
  - apply Md5.update_md5.
  - apply Md5.md5_finished.
  - intros x. destruct (Md5.md5_digest_bytes x) as [-> ?]. by split.
Qed.
Lemma hmac_sha1_spec msg key post post' : List.Forall is_u8 msg -> List.Forall is_u8 key -> Z.of_nat (length msg) < 2 ^ 31 -> (length key <= 64)%nat ->
  qm_utils_hmac_sha1 (Some (msg ++ post)) (Z.of_nat (length msg)) true (Some (key ++ post')) (Z.of_nat (length key)) = Ret (QM_EOK, hex_of (rfc2104 Sha1.FipsSha1.sha1 key msg)).
Proof.
  intros Hm Hk Hml Hkl. unfold qm_utils_hmac_sha1. rewrite (hmac_is_rfc2104 _ _ _ (given Sha1.FipsSha1.compress Sha1.words5 Sha1.sha1_start) Sha1.FipsSha1.sha1); try done.
  - rewrite hex_text_of; [done|apply Sha1.sha1_digest_bytes].
  - apply Sha1.starts_sha1; apply init_buffer.
  - apply Sha1.update_sha1.
  - apply Sha1.sha1_finished.
  - intros x. destruct (Sha1.sha1_digest_bytes x) as [-> ?]. by split.
Qed.

(** C30: for a message of less than 2^31 bytes and a key of at most 64 bytes the text is the HMAC of RFC 2104
    in hexadecimal digits, over the MD5 of RFC 1321 and the SHA-1 of FIPS 180-4; longer keys, which the standard
    hashes first, are refused, and so is every call in which the message, the buffer for the digest or the key is NULL. *)
Theorem hmac_correct msg key post post' : List.Forall is_u8 msg -> List.Forall is_u8 key -> Z.of_nat (length msg) < 2 ^ 31 ->
  let n := Z.of_nat (length msg) in let k := Z.of_nat (length key) in
  qm_utils_hmac_md5 (Some (msg ++ post)) n true (Some (key ++ post')) k = (if k <=? 64 then Ret (QM_EOK, hex_of (rfc2104 Md5.Rfc1321.md5 key msg)) else Ret (- QM_EINVAL, [])) /\
  qm_utils_hmac_sha1 (Some (msg ++ post)) n true (Some (key ++ post')) k = (if k <=? 64 then Ret (QM_EOK, hex_of (rfc2104 Sha1.FipsSha1.sha1 key msg)) else Ret (- QM_EINVAL, [])) /\
  forall omsg omsg_len digest okey okey_len, omsg = None \/ digest = false \/ okey = None ->
    qm_utils_hmac_md5 omsg omsg_len digest okey okey_len = Ret (- QM_EINVAL, []) /\ qm_utils_hmac_sha1 omsg omsg_len digest okey okey_len = Ret (- QM_EINVAL, []).
Proof.
  intros Hm Hk Hml n k. rewrite assoc by apply _. split; [|by intros [] ? ? [] ? [?|[-> |?]]]. destruct (Z.leb_spec k 64) as [H|H].
  - split; [apply hmac_md5_spec; done || lia|apply hmac_sha1_spec; done || lia].
  - assert ((k >? KEY_IOPAD_SIZE) = true) as E by (rewrite Z.gtb_ltb; by apply Z.ltb_lt).
    unfold qm_utils_hmac_md5, qm_utils_hmac_sha1, qm_utils_hmac. cbn [negb]. by rewrite E.
Qed.

Definition jefe : list Z := [0x4A; 0x65; 0x66; 0x65].
Definition question : list Z := [0x77; 0x68; 0x61; 0x74; 0x20; 0x64; 0x6F; 0x20; 0x79; 0x61; 0x20; 0x77; 0x61; 0x6E; 0x74; 0x20; 0x66; 0x6F; 0x72; 0x20; 0x6E; 0x6F; 0x74; 0x68; 0x69; 0x6E; 0x67; 0x3F].
Lemma hmac_correct_witness : qm_utils_hmac_sha1 (Some (question ++ [0])) 28 true (Some (jefe ++ [])) 4 = Ret (QM_EOK, hex_of (rfc2104 Sha1.FipsSha1.sha1 jefe question)) /\
  qm_utils_hmac_md5 (Some question) 28 false (Some jefe) 4 = Ret (- QM_EINVAL, []).
Proof.
  destruct (hmac_correct question jefe [0] []) as (_ & H & N).
  - by apply u8b_list.
  - by apply u8b_list.
  - reflexivity.
  - split; [exact H|]. apply (N (Some question) 28 false (Some jefe) 4). right. left. reflexivity.
Defined.

(** The second test of RFC 2202: effcdf6ae5eb2fa2d27416d5f184df9c259a7c79. *)
Example hmac_rfc2202 : qm_utils_hmac_sha1 (Some question) 28 true (Some jefe) 4 =
  Ret (QM_EOK, hex_of [0xEF; 0xFC; 0xDF; 0x6A; 0xE5; 0xEB; 0x2F; 0xA2; 0xD2; 0x74; 0x16; 0xD5; 0xF1; 0x84; 0xDF; 0x9C; 0x25; 0x9A; 0x7C; 0x79]).
Proof. vm_compute. reflexivity. Qed.
End Hmac.
