(* ===== verification/Totp.v ===== *)
(** * One-time passwords (utility/totp/totp.c)

    A password is that of RFC 4226 with the time in seconds as counter; a period has several of
    them, and the next period still knows those of the period before. *)

From S2P Require Import Prelude Outcome Words Merkle Heap Digest Md5 Sha1 StrUtil Hmac.
Import list_relations.list list_basics.list Words.
Open Scope Z_scope.

Module Totp.

(** The options of totp/qm_kconfig. *)
Class TotpConfig := {
  CONFIG_TOTP_KEY_DIGITS : nat;
  CONFIG_TOTP_KEY_SETS : nat;
  key_digits_range : (3 <= CONFIG_TOTP_KEY_DIGITS <= 8)%nat;
  key_sets_range : (2 <= CONFIG_TOTP_KEY_SETS <= 16)%nat
}.

Definition TOTP_TIME_PADDED : nat := 8.
Definition TOTP_REFRESH_MIN_INTERVAL : Z := 600.
Definition TOTP_REFRESH_MAX_INTERVAL : Z := 3600.

Section code.
Context {cfg : TotpConfig}.

Definition CONFIG_TOTP_DIGITS : Z :=
  match CONFIG_TOTP_KEY_DIGITS with
  | 3%nat => 1000 | 4%nat => 10000 | 5%nat => 100000 | 6%nat => 1000000 | 7%nat => 10000000 | _ => 100000000
  end.

(** The time, from the last byte to the first. *)
Fixpoint pad_time (n : nat) (ctime : Z) (time_padded : list Z) : list Z :=
  match n with
  | O => time_padded
  | S n => pad_time n (Z.shiftr ctime 8) (u8 ctime :: time_padded)
  end.

(** The four bytes at the offset that the last byte gives, as a number. *)
Definition truncated (hmac : list Z) : outcome Z :=
  l ← of_option (hmac !! 19%nat);
  let offset := Z.to_nat (Z.land l 0xF) in
  a ← of_option (hmac !! (offset + 0)%nat);
  b ← of_option (hmac !! (offset + 1)%nat);
  c ← of_option (hmac !! (offset + 2)%nat);
  d ← of_option (hmac !! (offset + 3)%nat);
  let result := Z.lor (Z.lor (Z.lor (Z.shiftl (Z.land a 0x7F) 24) (Z.shiftl (Z.land b 0xFF) 16)) (Z.shiftl (Z.land c 0xFF) 8)) (Z.land d 0xFF) in
  Ret (Z.rem (Z.land result 0x7FFFFFFF) CONFIG_TOTP_DIGITS).

(** [key] says whether the pointer is there; the result has what is written to it. *)
Definition totp_get_key (secret : option (list Z)) (secret_len timestamp : Z) (key : bool) : outcome (Z * option Z) :=
  match secret with
  | None => Ret (- QM_EINVAL, None)
  | Some s =>
      if (secret_len =? 0) || (timestamp =? 0) || negb key then Ret (- QM_EINVAL, None)
      else
        '(ret, str_hmac) ← Hmac.qm_utils_hmac_sha1 (Some (pad_time TOTP_TIME_PADDED timestamp [])) (Z.of_nat TOTP_TIME_PADDED) true (Some s) secret_len;
        if negb (ret =? QM_EOK) then Ret (ret, None)
        else
          '(_, hmac) ← StrUtil.hex_str_to_nums (Some (str_hmac ++ [0])) 40 true;
          result ← truncated hmac;
          Ret (QM_EOK, Some result)
  end.

(** One of the two loops over the keys; a key that is refused keeps its old value. *)
Fixpoint key_loop (secret : list Z) (secret_len ctime interval : Z) (keys : list Z) : outcome (list Z) :=
  match keys with
  | [] => Ret []
  | old :: keys =>
      '(_, k) ← totp_get_key (Some secret) secret_len ctime true;
      rest ← key_loop secret secret_len (u32 (ctime + interval)) interval keys;
      Ret (default old k :: rest)
  end.

(** The arrays have [CONFIG_TOTP_KEY_SETS] elements. *)
Definition totp_get_keys (refresh_interval : Z) (secret : option (list Z)) (secret_len timestamp : Z) (p_totp p_last_totp : option (list Z)) : outcome (Z * option (list Z) * option (list Z)) :=
  if (refresh_interval <? TOTP_REFRESH_MIN_INTERVAL) || (refresh_interval >? TOTP_REFRESH_MAX_INTERVAL) then Ret (- QM_EINVAL, p_totp, p_last_totp)
  else
    match secret, p_totp, p_last_totp with
    | Some s, Some key, Some last_key =>
        if secret_len =? 0 then Ret (- QM_EINVAL, p_totp, p_last_totp)
        else
          let ctime := u32 (timestamp - timestamp mod refresh_interval) in
          let last_ctime := u32 (ctime - refresh_interval) in
          let interval := refresh_interval / Z.of_nat CONFIG_TOTP_KEY_SETS in
          key ← key_loop s secret_len ctime interval key;
          last_key ← key_loop s secret_len last_ctime interval last_key;
          Ret (QM_EOK, Some key, Some last_key)
    | _, _, _ => Ret (- QM_EINVAL, p_totp, p_last_totp)
    end.

(** ** The standard (RFC 4226) *)

(** The counter in eight bytes, the high byte first. *)
Definition counter_bytes (c : Z) : list Z := (fun i => c / 2 ^ (56 - 8 * Z.of_nat i) mod 256) <$> seq 0 8.
Definition dynamic_truncation (hs : list Z) : Z :=
  let o := Z.to_nat (at_n hs 19 mod 16) in
  (2 ^ 24 * at_n hs o + 2 ^ 16 * at_n hs (o + 1) + 2 ^ 8 * at_n hs (o + 2) + at_n hs (o + 3)) mod 2 ^ 31.
Definition hotp (key : list Z) (c : Z) : Z := dynamic_truncation (Hmac.rfc2104 Sha1.FipsSha1.sha1 key (counter_bytes c)) mod 10 ^ Z.of_nat CONFIG_TOTP_KEY_DIGITS.

Lemma digits_power : CONFIG_TOTP_DIGITS = 10 ^ Z.of_nat CONFIG_TOTP_KEY_DIGITS.
Proof.
  unfold CONFIG_TOTP_DIGITS. pose proof key_digits_range as H. destruct CONFIG_TOTP_KEY_DIGITS as [|[|[|[|[|[|[|[|[|]]]]]]]]]; try lia; reflexivity.
Qed.

Lemma pad_time_bytes c : 0 <= c -> pad_time TOTP_TIME_PADDED c [] = counter_bytes c.
Proof.
  intros Hc. unfold counter_bytes, TOTP_TIME_PADDED. cbn [pad_time seq fmap list_fmap]. rewrite !Z.shiftr_shiftr by lia. cbn [Z.add Pos.add Pos.succ]. rewrite !Z.shiftr_div_pow2 by lia. unfold u8.
  cbn [Z.of_nat Z.sub Z.mul Z.opp Z.add Z.pos_sub Pos.mul Pos.of_succ_nat Pos.succ Pos.pred_double Z.succ_double Z.pred_double Z.double]. change (2 ^ 0) with 1. rewrite Z.div_1_r. reflexivity.
Qed.

Lemma counter_bytes_ok c : length (counter_bytes c) = 8%nat /\ List.Forall is_u8 (counter_bytes c).
Proof. split; [done|]. unfold counter_bytes. apply list.Forall_fmap, list.Forall_forall. intros i _. apply Z.mod_pos_bound. lia. Qed.

(** The number is the truncation of the standard. *)
Lemma truncated_spec hs : length hs = 20%nat -> List.Forall is_u8 hs -> truncated hs = Ret (dynamic_truncation hs mod 10 ^ Z.of_nat CONFIG_TOTP_KEY_DIGITS).
Proof.
  intros Hl Hu. assert (forall i, (i < 20)%nat -> hs !! i = Some (at_n hs i) /\ is_u8 (at_n hs i)) as Hat.
  { intros i Hi. destruct (lookup_lt_is_Some_2 hs i) as [x Hx]; [lia|]. unfold at_n. rewrite Hx. split; [done|]. cbn. rewrite list.Forall_forall in Hu. apply Hu. by eapply list_elem_of_lookup_2. }
  unfold truncated, dynamic_truncation. destruct (Hat 19%nat ltac:(lia)) as [-> _]. cbn [of_option]. rewrite StrUtil.step_ret.
  change 0xF with (Z.ones 4). rewrite Z.land_ones by lia. change (2 ^ 4) with 16. pose proof (Z.mod_pos_bound (at_n hs 19) 16 ltac:(lia)) as Ho. set (o := Z.to_nat (at_n hs 19 mod 16)).
  assert (o < 16)%nat as Ho' by (unfold o; lia). clearbody o. rewrite (Nat.add_0_r o).
  destruct (Hat o ltac:(lia)) as [-> H0], (Hat (o + 1)%nat ltac:(lia)) as [-> H1], (Hat (o + 2)%nat ltac:(lia)) as [-> H2], (Hat (o + 3)%nat ltac:(lia)) as [-> H3].
  cbn [of_option]. rewrite !StrUtil.step_ret. revert H0 H1 H2 H3. generalize (at_n hs o) as a, (at_n hs (o + 1)) as b, (at_n hs (o + 2)) as c, (at_n hs (o + 3)) as d. intros a b c d Ha Hb Hc Hd.
  f_equal. rewrite digits_power. set (x := Z.land _ 0x7FFFFFFF).
  assert (x = (2 ^ 24 * a + 2 ^ 16 * b + 2 ^ 8 * c + d) mod 2 ^ 31) as ->.
  { replace (2 ^ 24 * a + 2 ^ 16 * b + 2 ^ 8 * c + d) with (W d c b a) by (rewrite W_sum by done; lia). unfold x. change 0x7FFFFFFF with (Z.ones 31). rewrite Z.land_ones by lia.
    apply Z.bits_inj'. intros n Hn. destruct (Z.lt_ge_cases n 31) as [H31|H31]; [|by rewrite !Z.mod_pow2_bits_high by lia]. rewrite !Z.mod_pow2_bits_low, W_spec by (done || lia).
    change 0x7F with (Z.ones 7). change 0xFF with (Z.ones 8). rewrite !Z.land_ones, !Z.lor_spec, !Z.shiftl_spec by lia.
    assert (forall v k, 0 <= k -> Z.testbit (v mod 2 ^ 8) k = (k <? 8) && Z.testbit v k) as E8.
    { intros v k Hk. destruct (Z.ltb_spec k 8); [by rewrite Z.mod_pow2_bits_low|by rewrite Z.mod_pow2_bits_high by lia]. }
    rewrite (E8 d n Hn). destruct (Z.ltb_spec n 8); cbn [andb]; [rewrite !(Z.testbit_neg_r _ (n - _)) by lia; done|]. rewrite orb_false_r, (E8 c (n - 8)) by lia.
    destruct (Z.ltb_spec (n - 8) 8), (Z.ltb_spec n 16); try lia; cbn [andb]; [rewrite !(Z.testbit_neg_r _ (n - 16)), !(Z.testbit_neg_r _ (n - 24)) by lia; done|]. rewrite orb_false_r, (E8 b (n - 16)) by lia.
    destruct (Z.ltb_spec (n - 16) 8), (Z.ltb_spec n 24); try lia; cbn [andb]; [rewrite !(Z.testbit_neg_r _ (n - 24)) by lia; done|]. rewrite orb_false_r. by rewrite Z.mod_pow2_bits_low by lia. }
  apply Z.rem_mod_nonneg; [apply Z.mod_pos_bound; lia|]. apply Z.pow_pos_nonneg; lia.
Qed.

Lemma hex_of_back l post : List.Forall is_u8 l -> StrUtil.nums_loop (length l) (Hmac.hex_of l ++ post) = Ret l.
Proof.
  apply (StrUtil.spelled_nums (fun b => [at_ StrUtil.lower (b / 16); at_ StrUtil.lower (b mod 16)])). intros x Hx. do 2 eexists. split; [done|].
  on_bytes (fun x => StrUtil.spells x (at_ StrUtil.lower (x / 16)) (at_ StrUtil.lower (x mod 16))) x Hx.
Qed.

Lemma get_key_hotp key post timestamp : List.Forall is_u8 key -> (0 < length key <= 64)%nat -> 0 < timestamp ->
  totp_get_key (Some (key ++ post)) (Z.of_nat (length key)) timestamp true = Ret (QM_EOK, Some (hotp key timestamp)).
Proof.
  intros Hk Hl Ht. unfold totp_get_key. rewrite (proj2 (Z.eqb_neq _ 0)), (proj2 (Z.eqb_neq timestamp 0)) by lia. cbn [orb negb]. rewrite pad_time_bytes by lia.
  destruct (counter_bytes_ok timestamp) as [Hcl Hcb]. pose proof (Hmac.hmac_sha1_spec (counter_bytes timestamp) key [] post Hcb Hk ltac:(rewrite Hcl; reflexivity) ltac:(lia)) as HM.
  rewrite app_nil_r, Hcl in HM. change TOTP_TIME_PADDED with 8%nat. rewrite HM, StrUtil.step_ret. cbn [Z.eqb negb QM_EOK].
  unfold hotp. generalize (counter_bytes timestamp) as m. intros m. set (hs := Hmac.rfc2104 _ key m). assert (length hs = 20%nat /\ List.Forall is_u8 hs) as [L U] by apply Sha1.sha1_digest_bytes. clearbody hs.
  unfold StrUtil.hex_str_to_nums. cbn [Z.eqb negb orb]. change (Z.to_nat ((40 + 1) / 2)) with 20%nat. rewrite <- L, (hex_of_back hs [0] U), !StrUtil.step_ret, truncated_spec, StrUtil.step_ret by done. reflexivity.
Qed.

(** A password is the one that RFC 4226 gives for the secret and the time as counter, with the configured
    number of digits; a time of zero and an empty or long secret are refused. *)
Theorem password_is_hotp key post timestamp : List.Forall is_u8 key -> (0 < length key)%nat -> 0 <= timestamp ->
  totp_get_key (Some (key ++ post)) (Z.of_nat (length key)) timestamp true =
    (if (timestamp =? 0) || (64 <? length key)%nat then Ret (- QM_EINVAL, None) else Ret (QM_EOK, Some (hotp key timestamp))) /\
  0 <= hotp key timestamp < 10 ^ Z.of_nat CONFIG_TOTP_KEY_DIGITS.
Proof.
  intros Hk Hl Ht. split; [|apply Z.mod_pos_bound, Z.pow_pos_nonneg; lia]. destruct (Z.eqb_spec timestamp 0) as [->|Hne]; cbn [orb].
  - unfold totp_get_key. by rewrite orb_true_r.
  - destruct (Nat.ltb_spec 64 (length key)) as [H|H]; [|apply get_key_hotp; done || lia].
    unfold totp_get_key. rewrite (proj2 (Z.eqb_neq _ 0)), (proj2 (Z.eqb_neq timestamp 0)) by lia. cbn [orb negb].
    unfold Hmac.qm_utils_hmac_sha1, Hmac.qm_utils_hmac. cbn [negb]. replace (Z.of_nat (length key) >? Hmac.KEY_IOPAD_SIZE) with true by (symmetry; rewrite Z.gtb_ltb; apply Z.ltb_lt; unfold Hmac.KEY_IOPAD_SIZE; lia). reflexivity.
Qed.

(** ** The passwords of a period *)

Definition passwords (key : list Z) (from interval : Z) : list Z := (fun i => hotp key (from + Z.of_nat i * interval)) <$> seq 0 CONFIG_TOTP_KEY_SETS.

Lemma key_loop_passwords key post t0 interval old i : List.Forall is_u8 key -> (0 < length key <= 64)%nat -> 0 <= interval -> 0 < t0 + Z.of_nat i * interval -> t0 + Z.of_nat (i + length old) * interval < 2 ^ 32 ->
  key_loop (key ++ post) (Z.of_nat (length key)) (t0 + Z.of_nat i * interval) interval old = Ret ((fun j => hotp key (t0 + Z.of_nat j * interval)) <$> seq i (length old)).
Proof.
  intros Hk Hl Hi. revert i. induction old as [|o old IH]; intros i H0 H1; [done|]. cbn [key_loop length seq]. rewrite get_key_hotp, StrUtil.step_ret by done.
  cbn [length] in H1. rewrite u32_id by (widths; nia). replace (t0 + Z.of_nat i * interval + interval) with (t0 + Z.of_nat (S i) * interval) by lia.
  rewrite IH by (try (cbn in H1; replace (S i + length old)%nat with (i + S (length old))%nat by lia); nia || done). reflexivity.
Qed.

(** C31: a call gives the passwords of the period in which the time lies, one for each part of it, and those of the
    period before: what was given out during one period is what the next period knows as the last.  The secret has 1 to
    64 bytes ([long_secret_no_passwords]), and the time lies two periods or more after 0 ([first_period_keeps_old]) and
    far enough from 2^32. *)
Theorem periods_overlap refresh key post timestamp old old' : TOTP_REFRESH_MIN_INTERVAL <= refresh <= TOTP_REFRESH_MAX_INTERVAL -> List.Forall is_u8 key -> (0 < length key <= 64)%nat ->
  2 * refresh <= timestamp -> timestamp + 2 * TOTP_REFRESH_MAX_INTERVAL < 2 ^ 32 -> length old = CONFIG_TOTP_KEY_SETS -> length old' = CONFIG_TOTP_KEY_SETS ->
  let start := timestamp / refresh * refresh in let interval := refresh / Z.of_nat CONFIG_TOTP_KEY_SETS in
  totp_get_keys refresh (Some (key ++ post)) (Z.of_nat (length key)) timestamp (Some old) (Some old') =
    Ret (QM_EOK, Some (passwords key start interval), Some (passwords key (start - refresh) interval)) /\
  totp_get_keys refresh (Some (key ++ post)) (Z.of_nat (length key)) (timestamp + refresh) (Some old) (Some old') =
    Ret (QM_EOK, Some (passwords key (start + refresh) interval), Some (passwords key start interval)).
Proof.
  intros Hr Hk Hl Ht Hmax Ho Ho' start interval. unfold TOTP_REFRESH_MIN_INTERVAL, TOTP_REFRESH_MAX_INTERVAL in Hr, Hmax. pose proof key_sets_range as Hsets.
  assert (0 <= interval /\ Z.of_nat CONFIG_TOTP_KEY_SETS * interval <= refresh) as [Hi Hsum] by (unfold interval; split; [apply Z.div_pos; lia|apply Z.mul_div_le; lia]).
  assert (forall ts, 2 * refresh <= ts -> ts + refresh < 2 ^ 32 -> totp_get_keys refresh (Some (key ++ post)) (Z.of_nat (length key)) ts (Some old) (Some old') =
    Ret (QM_EOK, Some (passwords key (ts / refresh * refresh) interval), Some (passwords key (ts / refresh * refresh - refresh) interval))) as Hcall.
  { intros ts H2 H3. unfold totp_get_keys, TOTP_REFRESH_MIN_INTERVAL, TOTP_REFRESH_MAX_INTERVAL. rewrite (proj2 (Z.ltb_ge _ _)) by lia. replace (refresh >? 3600) with false by (symmetry; rewrite Z.gtb_ltb; apply Z.ltb_ge; lia). cbn [orb].
    rewrite (proj2 (Z.eqb_neq _ 0)) by lia. fold interval. pose proof (Z.div_mod ts refresh ltac:(lia)) as Hd. pose proof (Z.mod_pos_bound ts refresh ltac:(lia)) as Hm.
    assert (2 <= ts / refresh) as Hq by (apply Z.div_le_lower_bound; lia). replace (ts - ts mod refresh) with (ts / refresh * refresh) by lia. set (st := ts / refresh * refresh).
    assert (2 * refresh <= st <= ts) as Hst by (unfold st; nia). clearbody st. rewrite (u32_id st) by (widths; lia). rewrite (u32_id (st - refresh)) by (widths; lia).
    pose proof (key_loop_passwords key post st interval old 0 Hk Hl Hi ltac:(lia) ltac:(rewrite Ho; cbn; nia)) as K1. pose proof (key_loop_passwords key post (st - refresh) interval old' 0 Hk Hl Hi ltac:(lia) ltac:(rewrite Ho'; cbn; nia)) as K2.
    rewrite Z.mul_0_l, Z.add_0_r in K1, K2. rewrite K1, StrUtil.step_ret, K2, StrUtil.step_ret, Ho, Ho'. reflexivity. }
  split; [apply Hcall; lia|]. rewrite Hcall by lia. assert ((timestamp + refresh) / refresh * refresh = start + refresh) as ->.
  { unfold start. replace (timestamp + refresh) with (timestamp + 1 * refresh) by lia. rewrite Z.div_add by lia. lia. }
  by replace (start + refresh - refresh) with start by lia.
Qed.
End code.

(** ** Concrete secrets *)

#[local] Instance six_digits : TotpConfig := {| CONFIG_TOTP_KEY_DIGITS := 6; CONFIG_TOTP_KEY_SETS := 8; key_digits_range := ltac:(lia); key_sets_range := ltac:(lia) |}.
(** The secret of the examples in RFC 4226. *)
Definition secret : list Z := Z.of_nat <$> (seq 49 9 ++ [48%nat] ++ seq 49 9 ++ [48%nat]).

(** The password of counter 1 there is 287082. *)
Example rfc4226_one : totp_get_key (Some secret) 20 1 true = Ret (QM_EOK, Some 287082).
Proof. vm_compute. reflexivity. Qed.

Lemma password_is_hotp_witness : totp_get_key (Some (secret ++ [0])) (Z.of_nat (length secret)) 1 true = Ret (QM_EOK, Some (hotp secret 1)).
Proof.
  destruct (password_is_hotp secret [0] 1) as [H _].
  - by apply u8b_list.
  - cbn. lia.
  - lia.
  - exact H.
Defined.

Lemma periods_overlap_witness :
  totp_get_keys 600 (Some (secret ++ [])) (Z.of_nat (length secret)) 2000 (Some (replicate 8 0)) (Some (replicate 8 0)) =
  Ret (QM_EOK, Some (passwords secret (2000 / 600 * 600) (600 / Z.of_nat CONFIG_TOTP_KEY_SETS)), Some (passwords secret (2000 / 600 * 600 - 600) (600 / Z.of_nat CONFIG_TOTP_KEY_SETS))).
Proof.
  destruct (periods_overlap 600 secret [] 2000 (replicate 8 0) (replicate 8 0)) as [H _].
  - split; discriminate.
  - by apply u8b_list.
  - cbn. lia.
  - lia.
  - reflexivity.
  - reflexivity.
  - reflexivity.
  - exact H.
Defined.

(** With a secret that [qm_utils_hmac_sha1] refuses the call succeeds and writes no password. *)
Theorem long_secret_no_passwords : totp_get_keys 600 (Some (replicate 65 49)) 65 2000 (Some (replicate 8 7)) (Some (replicate 8 7)) = Ret (QM_EOK, Some (replicate 8 7), Some (replicate 8 7)).
Proof. vm_compute. reflexivity. Qed.
(** In the first period of the clock the first password is not written, but the call succeeds. *)
Theorem first_period_keeps_old : match totp_get_keys 600 (Some secret) 20 100 (Some (replicate 8 7)) (Some (replicate 8 7)) with Ret (r, Some (k :: _), _) => Some (r, k) | _ => None end = Some (QM_EOK, 7).
Proof. vm_compute. reflexivity. Qed.
End Totp.
