(* ===== verification/BleOta.v ===== *)
(** * Bluetooth link: update over the air (components/qm_ble/core/qm_ble_ota.c)

    A request announces a firmware file with its size and digest, data messages bring it in
    pieces that are collected in a buffer of 256 bytes and written to flash block by block, and
    a last message has the file read back and its digest compared.

    Parameters: the two build options; the driver of the flash (hal/include/qm_ble_hal_ota.h) as
    a class, with its laws as a second one, which the ESP32 port (platform/mcu/esp32/hal/ota)
    discharges; the result of the [n]-th answer handed to the link; the callback of the
    application.  The timer is its handle with a flag: started or not. *)

From S2P Require Import Prelude Outcome Words Heap Merkle Crc Digest Md5 Ble BleLink StrUtil.
Import list_relations.list list_basics.list Heap(slice, splice, heap_slice_app, splice_app) Words Crc.
Open Scope Z_scope.

(** The options of qm_ble_bzopt.h. *)
Class OtaConfig := {
  QB_ENABLE_MCU_OTA : bool;
  QB_ENABLE_OTA_DATA_ASYNC : bool
}.

(** The driver.  A write is given the offset and the bytes and leaves a result, an offset and the
    new state; a read is given the offset, the buffer and the number of bytes. *)
Class OtaHal := {
  hal : Type;
  qm_ble_ota_start : hal -> outcome hal;
  qm_ble_ota_flash_write : hal -> Z -> list Z -> Z * Z * hal;
  qm_ble_ota_flash_read : hal -> Z -> list Z -> Z -> Z * Z * list Z;
  qm_ble_ota_end : Z -> hal -> hal
}.

(** A driver that appends whatever offset it is given: what it has [written] since the start, and
    that there is [room] for a file, which is there when the driver is [ready] to start.  The driver
    may rely on the file: it is given pieces of it, in order. *)
Class AppendingHal (H : OtaHal) := {
  ready : hal -> list Z -> Prop;
  written : hal -> list Z;
  room : hal -> list Z -> Prop;
  start_law h file : ready h file -> exists h', qm_ble_ota_start h = Ret h' /\ written h' = [] /\ room h' file;
  write_law h file off d : room h file -> d <> [] -> (written h ++ d) `prefix_of` file -> Z.of_nat (length file) < 2 ^ 32 -> exists h',
    qm_ble_ota_flash_write h off d = (0, Z.of_nat (length (written h) + length d), h') /\ written h' = written h ++ d /\ room h' file;
  read_law h file o (buf : list Z) k : room h file -> (o + k <= length (written h))%nat -> (0 < k <= length buf)%nat -> Z.of_nat (length file) < 2 ^ 32 ->
    qm_ble_ota_flash_read h (Z.of_nat o) buf (Z.of_nat k) = (0, Z.of_nat (o + k), take k (drop o (written h)) ++ drop k buf)
}.

Module BleOta.

(** ** Constants and data (qm_ble_ota.h, qm_ble_export.h, qm_ble_common.h) *)

Definition QM_BLE_OTA_REBOOT_TIME : Z := 10.
Definition QM_BLE_OTA_TOTAL_PACKAGES : Z := 0x10.
Definition QM_BLE_OTA_BUF_SIZE : Z := 256.
Definition QM_BLE_OTA_MAX_RETRY_COUNT : Z := 2.
Definition QM_BLE_OTA_ENABLE_SET (x : Z) : Z := u8 (Z.shiftl x 0).

Definition QM_BLE_OTA_VER_BOTH : Z := 0.
Definition QM_BLE_OTA_VER_BLE : Z := 1.
Definition QM_BLE_OTA_VER_MCU : Z := 2.

Definition QM_BLE_OTA_TYPE_BLE : Z := 1.
Definition QM_BLE_OTA_TYPE_MCU : Z := 2.

Definition QM_BLE_HASH_MD5 : Z := 1.
Definition QM_BLE_HASH_SHA1 : Z := 2.
Definition QM_BLE_HASH_CRC32 : Z := 3.
Definition QM_BLE_HASH_MD5_SIZE : Z := 16.
Definition QM_BLE_HASH_SHA1_SIZE : Z := 20.
Definition QM_BLE_HASH_CRC32_SIZE : Z := 4.
Definition QM_BLE_HASH_MAX_SIZE : nat := 64.

Definition QM_BLE_DEV_NORMAL : Z := 0.
Definition QM_BLE_DEV_LOWBATTERY : Z := 1.
Definition QM_BLE_DEV_BUSY : Z := 2.
Definition QM_BLE_DEV_VER_ERR : Z := 3.

Definition QM_BLE_COM_NO_ERR : Z := 0.
Definition QM_BLE_COM_ERR_SYSTEM : Z := 1.
Definition QM_BLE_COM_ERR_INVALID_PARA : Z := 4.
Definition QM_BLE_COM_ERR_LOW_BATTERY : Z := 6.
Definition QM_BLE_COM_ERR_VER : Z := 7.
Definition QM_BLE_COM_ERR_BUSY : Z := 8.
Definition QM_BLE_COM_ERR_VERIFY : Z := 9.

Definition QB_SUCCESS : Z := 0.
Definition QB_EINVALIDPARAM : Z := 1.
Definition QB_EDATASIZE : Z := 2.
Definition QB_EFLASH : Z := 19.

Inductive qm_ble_ota_state_t := QM_BLE_OTA_STATE_OFF | QM_BLE_OTA_STATE_IDLE | QM_BLE_OTA_STATE_DATA | QM_BLE_OTA_STATE_WRITE_SETTINGS | QM_BLE_OTA_STATE_FW_VERIFY.
Inductive qm_ble_ota_event_t := QM_BLE_OTA_REQ | QM_BLE_OTA_DATA | QM_BLE_OTA_DATA_LOOP | QM_BLE_OTA_DATA_PROGRESS | QM_BLE_OTA_VERIFY.

#[global] Instance ota_state_eq : EqDecision qm_ble_ota_state_t.
Proof. solve_decision. Defined.

Record qm_ble_ver_t := mk_ver { main_ver : Z; sub_ver : Z; fix_ver : Z }.

#[global] Instance ver_eq : EqDecision qm_ble_ver_t.
Proof. solve_decision. Defined.

Record qm_ble_ota_file_t := mk_file {
  ota_type : Z;
  hash : Z;
  hash_len : Z;
  hash_value : list Z;
  file_size : Z;
  ver : qm_ble_ver_t
}.
Definition blank_file : qm_ble_ota_file_t := mk_file 0 0 0 (replicate QM_BLE_HASH_MAX_SIZE 0) 0 (mk_ver 0 0 0).

(** What the callback is given: nothing, bytes, or the description of a file for the other
    processor (qm_ble_ota_notify_t). *)
Inductive cb_data :=
| NoData
| Bytes (d : list Z)
| Notify (hash hash_len : Z) (hash_value : list Z) (file_size : Z).

(** An answer: message, command, code and bytes. *)
Record ack := mk_ack { a_id : Z; a_cmd : Z; a_code : Z; a_bytes : list Z }.

(** The macro for 32-bit numbers. *)
Definition QM_BLE_SWAP32 (x : Z) : Z :=
  Z.lor (Z.lor (Z.lor (Z.shiftl (Z.land x 0x000000ff) 24) (Z.shiftl (Z.land x 0x0000ff00) 8)) (Z.shiftr (Z.land x 0x00ff0000) 8)) (Z.shiftr (Z.land x 0xff000000) 24).

(** The state. *)
Record qm_ble_ota_context_t (C : Type) := mk_ctx {
  ota_file : qm_ble_ota_file_t;
  ota_reason : Z;
  mcu_ver : qm_ble_ver_t;
  reboot_time : Z;
  msg_id : Z;
  ble_ver : qm_ble_ver_t;
  ota_data_buf : list Z;
  ota_buf_offset : Z;
  ota_download_file_size : Z;
  ota_download_percent : Z;
  status : qm_ble_ota_state_t;
  next_seq : Z;
  ota_timeout_cnt : Z;
  ota_timer : option bool;      (* None: no handle *)
  ota_cb : option (Z -> qm_ble_ota_event_t -> cb_data -> C -> Z * C)
}.
Arguments mk_ctx {C}.
Arguments ota_file {C}.
Arguments ota_reason {C}.
Arguments mcu_ver {C}.
Arguments reboot_time {C}.
Arguments msg_id {C}.
Arguments ble_ver {C}.
Arguments ota_data_buf {C}.
Arguments ota_buf_offset {C}.
Arguments ota_download_file_size {C}.
Arguments ota_download_percent {C}.
Arguments status {C}.
Arguments next_seq {C}.
Arguments ota_timeout_cnt {C}.
Arguments ota_timer {C}.
Arguments ota_cb {C}.

Section code.
Context {cfg : OtaConfig} {H : OtaHal} {C : Type}.
Implicit Types c : qm_ble_ota_context_t C.

Definition set_file f c : qm_ble_ota_context_t C := mk_ctx f (ota_reason c) (mcu_ver c) (reboot_time c) (msg_id c) (ble_ver c) (ota_data_buf c) (ota_buf_offset c) (ota_download_file_size c) (ota_download_percent c) (status c) (next_seq c) (ota_timeout_cnt c) (ota_timer c) (ota_cb c).
Definition set_reason r c : qm_ble_ota_context_t C := mk_ctx (ota_file c) r (mcu_ver c) (reboot_time c) (msg_id c) (ble_ver c) (ota_data_buf c) (ota_buf_offset c) (ota_download_file_size c) (ota_download_percent c) (status c) (next_seq c) (ota_timeout_cnt c) (ota_timer c) (ota_cb c).
Definition set_mcu v c : qm_ble_ota_context_t C := mk_ctx (ota_file c) (ota_reason c) v (reboot_time c) (msg_id c) (ble_ver c) (ota_data_buf c) (ota_buf_offset c) (ota_download_file_size c) (ota_download_percent c) (status c) (next_seq c) (ota_timeout_cnt c) (ota_timer c) (ota_cb c).
Definition set_reboot t c : qm_ble_ota_context_t C := mk_ctx (ota_file c) (ota_reason c) (mcu_ver c) t (msg_id c) (ble_ver c) (ota_data_buf c) (ota_buf_offset c) (ota_download_file_size c) (ota_download_percent c) (status c) (next_seq c) (ota_timeout_cnt c) (ota_timer c) (ota_cb c).
Definition set_msg_id n c : qm_ble_ota_context_t C := mk_ctx (ota_file c) (ota_reason c) (mcu_ver c) (reboot_time c) n (ble_ver c) (ota_data_buf c) (ota_buf_offset c) (ota_download_file_size c) (ota_download_percent c) (status c) (next_seq c) (ota_timeout_cnt c) (ota_timer c) (ota_cb c).
Definition set_buf b o c : qm_ble_ota_context_t C := mk_ctx (ota_file c) (ota_reason c) (mcu_ver c) (reboot_time c) (msg_id c) (ble_ver c) b o (ota_download_file_size c) (ota_download_percent c) (status c) (next_seq c) (ota_timeout_cnt c) (ota_timer c) (ota_cb c).
Definition set_size n c : qm_ble_ota_context_t C := mk_ctx (ota_file c) (ota_reason c) (mcu_ver c) (reboot_time c) (msg_id c) (ble_ver c) (ota_data_buf c) (ota_buf_offset c) n (ota_download_percent c) (status c) (next_seq c) (ota_timeout_cnt c) (ota_timer c) (ota_cb c).
Definition set_percent p c : qm_ble_ota_context_t C := mk_ctx (ota_file c) (ota_reason c) (mcu_ver c) (reboot_time c) (msg_id c) (ble_ver c) (ota_data_buf c) (ota_buf_offset c) (ota_download_file_size c) p (status c) (next_seq c) (ota_timeout_cnt c) (ota_timer c) (ota_cb c).
Definition set_status s c : qm_ble_ota_context_t C := mk_ctx (ota_file c) (ota_reason c) (mcu_ver c) (reboot_time c) (msg_id c) (ble_ver c) (ota_data_buf c) (ota_buf_offset c) (ota_download_file_size c) (ota_download_percent c) s (next_seq c) (ota_timeout_cnt c) (ota_timer c) (ota_cb c).
Definition set_seq n c : qm_ble_ota_context_t C := mk_ctx (ota_file c) (ota_reason c) (mcu_ver c) (reboot_time c) (msg_id c) (ble_ver c) (ota_data_buf c) (ota_buf_offset c) (ota_download_file_size c) (ota_download_percent c) (status c) n (ota_timeout_cnt c) (ota_timer c) (ota_cb c).
Definition set_timeouts n c : qm_ble_ota_context_t C := mk_ctx (ota_file c) (ota_reason c) (mcu_ver c) (reboot_time c) (msg_id c) (ble_ver c) (ota_data_buf c) (ota_buf_offset c) (ota_download_file_size c) (ota_download_percent c) (status c) (next_seq c) n (ota_timer c) (ota_cb c).
Definition set_timer (b : bool) c : qm_ble_ota_context_t C := mk_ctx (ota_file c) (ota_reason c) (mcu_ver c) (reboot_time c) (msg_id c) (ble_ver c) (ota_data_buf c) (ota_buf_offset c) (ota_download_file_size c) (ota_download_percent c) (status c) (next_seq c) (ota_timeout_cnt c) ((fun _ => b) <$> ota_timer c) (ota_cb c).

(** The context, the flash behind the driver, the answers so far and the application. *)
Record world := mk_world { ctx : qm_ble_ota_context_t C; flash : hal; acks : list ack; app : C }.
Definition with_ctx (c : qm_ble_ota_context_t C) (w : world) : world := mk_world c (flash w) (acks w) (app w).
Definition with_flash (h : hal) (w : world) : world := mk_world (ctx w) h (acks w) (app w).

(** The result of the [n]-th answer; what the stack held where a function has its buffer. *)
Context (post : nat -> Z) (stale : list Z).

Definition M (A : Type) : Type := world -> outcome (A * world).
#[global] Instance M_ret : MRet M := fun A a w => Ret (a, w).
#[global] Instance M_bind : MBind M := fun A B k m w =>
  match m w with Ret (a, w') => k a w' | OutOfBounds => OutOfBounds | NoFuel => NoFuel end.
Definition get : M world := fun w => Ret (w, w).
Definition lift {A} (o : outcome A) : M A := fun w => match o with Ret a => Ret (a, w) | OutOfBounds => OutOfBounds | NoFuel => NoFuel end.
Definition upd (f : qm_ble_ota_context_t C -> qm_ble_ota_context_t C) : M unit := fun w => Ret (tt, with_ctx (f (ctx w)) w).
Definition put_flash (h : hal) : M unit := fun w => Ret (tt, with_flash h w).

Definition qm_ble_ota_status_set (s : qm_ble_ota_state_t) : M unit := upd (set_status s).
Definition qm_ble_ota_next_seq_inc : M unit := upd (fun c => set_seq (u8 (next_seq c + 1)) c).
Definition qm_ble_ota_timeout_cnt_inc : M unit := upd (fun c => set_timeouts (u8 (ota_timeout_cnt c + 1)) c).
Definition qm_ble_ota_timeout_cnt_clear : M unit := upd (set_timeouts 0).
Definition qm_ble_ota_download_size_inc (n : Z) : M unit := upd (fun c => set_size (u32 (ota_download_file_size c + n)) c).

Definition qm_ble_ota_post_ack (id cmd code : Z) (buffer : list Z) : M Z := fun w =>
  Ret (post (length (acks w)), mk_world (ctx w) (flash w) (acks w ++ [mk_ack id cmd code buffer]) (app w)).

(** A call of the callback, if there is one. *)
Definition ask (event : qm_ble_ota_event_t) (d : cb_data) : M (option Z) := fun w =>
  match ota_cb (ctx w) with
  | None => Ret (None, w)
  | Some cb => let '(r, a) := cb (ota_type (ota_file (ctx w))) event d (app w) in Ret (Some r, mk_world (ctx w) (flash w) (acks w) a)
  end.

(** ** Versions *)

Definition qm_ble_ota_ver_padding (v : qm_ble_ver_t) : list Z := [main_ver v; sub_ver v; fix_ver v].

Definition qm_ble_ota_ver_handle (id : Z) (data : list Z) : M Z :=
  let len := Z.of_nat (length data) in
  if (len >? 1) || (len =? 0) then mret QB_EDATASIZE
  else
    w ← get;
    query_type ← lift (of_option (data !! 0%nat));
    if query_type =? QM_BLE_OTA_VER_BOTH then qm_ble_ota_post_ack id Ble.QM_BLE_CMD_OTA_QUERY_VER 0 (qm_ble_ota_ver_padding (ble_ver (ctx w)) ++ qm_ble_ota_ver_padding (mcu_ver (ctx w)))
    else if query_type =? QM_BLE_OTA_VER_BLE then qm_ble_ota_post_ack id Ble.QM_BLE_CMD_OTA_QUERY_VER 0 (qm_ble_ota_ver_padding (ble_ver (ctx w)))
    else if query_type =? QM_BLE_OTA_VER_MCU then qm_ble_ota_post_ack id Ble.QM_BLE_CMD_OTA_QUERY_VER 0 (qm_ble_ota_ver_padding (mcu_ver (ctx w)))
    else qm_ble_ota_post_ack id Ble.QM_BLE_CMD_OTA_QUERY_VER QM_BLE_COM_ERR_INVALID_PARA [].

Definition is_valid_ota_type (type : Z) : bool := (type =? QM_BLE_OTA_TYPE_BLE) || (type =? QM_BLE_OTA_TYPE_MCU).
Definition is_valid_hash_type (type : Z) : bool := (type =? QM_BLE_HASH_MD5) || (type =? QM_BLE_HASH_SHA1) || (type =? QM_BLE_HASH_CRC32).
Definition hash_len_get (type : Z) : Z :=
  if type =? QM_BLE_HASH_MD5 then QM_BLE_HASH_MD5_SIZE
  else if type =? QM_BLE_HASH_SHA1 then QM_BLE_HASH_SHA1_SIZE
  else if type =? QM_BLE_HASH_CRC32 then QM_BLE_HASH_CRC32_SIZE
  else 0.

Definition qm_ble_ota_ver_check (type : Z) (v : qm_ble_ver_t) : M unit :=
  w ← get;
  if type =? QM_BLE_OTA_TYPE_BLE then upd (set_reason (if bool_decide (ble_ver (ctx w) = v) then QM_BLE_DEV_VER_ERR else QM_BLE_DEV_NORMAL))
  else if type =? QM_BLE_OTA_TYPE_MCU then upd (set_reason (if bool_decide (mcu_ver (ctx w) = v) then QM_BLE_DEV_VER_ERR else QM_BLE_DEV_NORMAL))
  else mret tt.

(** ** Requests *)

(** The result and the file as far as it was read. *)
Definition qm_ble_ota_req_parse (data : list Z) (f : qm_ble_ota_file_t) : outcome (Z * qm_ble_ota_file_t) :=
  let len := Z.of_nat (length data) in
  if len =? 0 then Ret (QB_EINVALIDPARAM, f)
  else
    t ← of_option (data !! 0%nat);
    if negb (is_valid_ota_type t) then Ret (QB_EINVALIDPARAM, f)
    else
      let f := mk_file t (hash f) (hash_len f) (hash_value f) (file_size f) (ver f) in
      if len - 1 <? 3 then Ret (QB_EINVALIDPARAM, f)
      else
        a ← of_option (data !! 1%nat);
        b ← of_option (data !! 2%nat);
        d ← of_option (data !! 3%nat);
        let f := mk_file (ota_type f) (hash f) (hash_len f) (hash_value f) (file_size f) (mk_ver a b d) in
        if len - 4 <? 1 then Ret (QB_EINVALIDPARAM, f)
        else
          k ← of_option (data !! 4%nat);
          if negb (is_valid_hash_type k) then Ret (QB_EINVALIDPARAM, f)
          else
            let f := mk_file (ota_type f) k (hash_len f) (hash_value f) (file_size f) (ver f) in
            let hl := hash_len_get k in
            if len - 5 <? hl then Ret (QB_EINVALIDPARAM, f)
            else
              v ← of_option (slice data 5 hl);
              hv ← of_option (splice (hash_value f) 0 v);
              let f := mk_file (ota_type f) (hash f) hl hv (file_size f) (ver f) in
              let offset := 5 + hl in
              if len - offset <? 4 then Ret (QB_EINVALIDPARAM, f)
              else
                s ← of_option (slice data offset 4);
                let f := mk_file (ota_type f) (hash f) (hash_len f) (hash_value f) (QM_BLE_SWAP32 (load_le s 0)) (ver f) in
                if negb (offset + 4 =? len) then Ret (QB_EINVALIDPARAM, f) else Ret (0, f).

Definition qm_ble_ota_req_rsp (id com_code reason : Z) : M Z :=
  let '(is_upgrade, com_code) :=
    if com_code =? QM_BLE_COM_NO_ERR then
      if reason =? QM_BLE_DEV_NORMAL then (1, QM_BLE_COM_NO_ERR)
      else if reason =? QM_BLE_DEV_LOWBATTERY then (0, QM_BLE_COM_ERR_LOW_BATTERY)
      else if reason =? QM_BLE_DEV_BUSY then (0, QM_BLE_COM_ERR_BUSY)
      else if reason =? QM_BLE_DEV_VER_ERR then (0, QM_BLE_COM_ERR_VER)
      else (0, QM_BLE_COM_ERR_SYSTEM)
    else (0, com_code) in
  qm_ble_ota_post_ack id Ble.QM_BLE_CMD_OTA_REQUEST com_code ([QM_BLE_OTA_ENABLE_SET is_upgrade; QM_BLE_OTA_TOTAL_PACKAGES; QM_BLE_OTA_REBOOT_TIME] ++ store_le 0).

(** The answer of the application to a request becomes the reason. *)
Definition take_reason (r : option Z) : M unit := match r with Some r => upd (set_reason r) | None => mret tt end.

(** The version and the application decide on a request that was parsed. *)
Definition decide_request (id : Z) (f : qm_ble_ota_file_t) : M Z :=
  qm_ble_ota_ver_check (ota_type f) (ver f);;
  w ← get;
  (if ota_reason (ctx w) =? QM_BLE_DEV_NORMAL then
     (if QB_ENABLE_MCU_OTA && (ota_type f =? QM_BLE_OTA_TYPE_MCU) then
        v ← lift (of_option (slice (hash_value f) 0 (hash_len f)));
        r ← ask QM_BLE_OTA_REQ (Notify (hash f) (hash_len f) (v ++ replicate (QM_BLE_HASH_MAX_SIZE - length v) 0) (file_size f));
        take_reason r
      else mret tt);;
     (if ota_type f =? QM_BLE_OTA_TYPE_BLE then r ← ask QM_BLE_OTA_REQ NoData; take_reason r else mret tt)
   else mret tt);;
  w ← get;
  qm_ble_ota_req_rsp id 0 (ota_reason (ctx w)).

Definition qm_ble_ota_req_handle (id : Z) (data : list Z) : M Z :=
  if Z.of_nat (length data) =? 0 then mret QB_EINVALIDPARAM
  else
    upd (set_timer false);;
    w ← get;
    '(err, f) ← lift (qm_ble_ota_req_parse data (ota_file (ctx w)));
    upd (set_file f);;
    err_code ← (if negb (err =? QB_SUCCESS) then qm_ble_ota_req_rsp id QM_BLE_COM_ERR_INVALID_PARA (ota_reason (ctx w)) else decide_request id f);
    (if negb (err_code =? QB_SUCCESS) then qm_ble_ota_status_set QM_BLE_OTA_STATE_IDLE
     else upd (set_timer true);; qm_ble_ota_status_set QM_BLE_OTA_STATE_DATA);;
    mret err_code.

(** ** Data *)

Definition qm_ble_ota_data_rsp (id com_code : Z) : M Z :=
  w ← get;
  qm_ble_ota_post_ack id Ble.QM_BLE_CMD_OTA_DATA com_code ([id] ++ store_le (QM_BLE_SWAP32 (ota_download_file_size (ctx w)))).

Definition qm_ble_ota_data_async_rsp : M Z :=
  w ← get;
  qm_ble_ota_data_rsp (msg_id (ctx w)) QM_BLE_COM_NO_ERR;;
  mret QB_SUCCESS.

(** The buffer is written at [flash_offset]; the new offset, or nothing on an error. *)
Definition write_buffer (flash_offset : Z) : M (option Z) :=
  w ← get;
  d ← lift (of_option (slice (ota_data_buf (ctx w)) 0 (ota_buf_offset (ctx w))));
  let '(ret, off, h) := qm_ble_ota_flash_write (flash w) flash_offset d in
  put_flash h;;
  if negb (0 =? ret) then mret None
  else if negb (off =? ota_download_file_size (ctx w)) then mret None
  else mret (Some off).

(** [memcpy] of part of the message behind what is in the buffer. *)
Definition copy_in (data : list Z) (from n : Z) : M unit :=
  w ← get;
  d ← lift (of_option (slice data from n));
  b ← lift (of_option (splice (ota_data_buf (ctx w)) (ota_buf_offset (ctx w)) d));
  upd (set_buf b (u32 (ota_buf_offset (ctx w) + n))).

Definition fill_buffer (data : list Z) : M (option Z) :=
  let len := Z.of_nat (length data) in
  w ← get;
  if u32 (len + ota_buf_offset (ctx w)) >=? QM_BLE_OTA_BUF_SIZE then
    let deal_len := u16 (QM_BLE_OTA_BUF_SIZE - ota_buf_offset (ctx w)) in
    copy_in data 0 deal_len;;
    qm_ble_ota_download_size_inc deal_len;;
    (if QB_ENABLE_MCU_OTA && (ota_type (ota_file (ctx w)) =? QM_BLE_OTA_TYPE_MCU) then
       w ← get;
       d ← lift (of_option (slice (ota_data_buf (ctx w)) 0 (ota_buf_offset (ctx w))));
       ask QM_BLE_OTA_DATA (Bytes d);; mret tt
     else mret tt);;
    r ← (if ota_type (ota_file (ctx w)) =? QM_BLE_OTA_TYPE_BLE then write_buffer 0 else mret (Some 0));
    match r with
    | None => mret None
    | Some flash_offset =>
        w ← get;
        lift (if file_size (ota_file (ctx w)) =? 0 then OutOfBounds else Ret tt);;
        let percent := u8 (u32 (ota_download_file_size (ctx w) * 100) / file_size (ota_file (ctx w))) in
        upd (set_percent percent);;
        ask QM_BLE_OTA_DATA_PROGRESS (Bytes [percent]);;
        upd (fun c => set_buf (ota_data_buf c) 0 c);;
        copy_in data deal_len (len - deal_len);;
        qm_ble_ota_download_size_inc (len - deal_len);;
        mret (Some flash_offset)
    end
  else
    copy_in data 0 len;;
    qm_ble_ota_download_size_inc len;;
    mret (Some 0).

(** The end of a round of sixteen messages. *)
Definition end_of_loop (id : Z) : M unit :=
  w ← get;
  if QM_BLE_OTA_TOTAL_PACKAGES =? next_seq (ctx w) then
    upd (set_seq 0);;
    (if QB_ENABLE_OTA_DATA_ASYNC then ask QM_BLE_OTA_DATA_LOOP NoData;; mret tt
     else qm_ble_ota_data_rsp id QM_BLE_COM_NO_ERR;; mret tt)
  else mret tt.

(** The end of the file: whether the flash took it. *)
Definition end_of_file (id flash_offset : Z) : M bool :=
  w ← get;
  if ota_download_file_size (ctx w) >=? file_size (ota_file (ctx w)) then
    ok ← (if ota_type (ota_file (ctx w)) =? QM_BLE_OTA_TYPE_BLE then
            r ← (if negb (ota_buf_offset (ctx w) =? 0) then write_buffer flash_offset else mret (Some flash_offset));
            match r with
            | None => mret false
            | Some _ =>
                (if QB_ENABLE_MCU_OTA && (ota_type (ota_file (ctx w)) =? QM_BLE_OTA_TYPE_MCU) then
                   w ← get;
                   d ← lift (of_option (slice (ota_data_buf (ctx w)) 0 (ota_buf_offset (ctx w))));
                   ask QM_BLE_OTA_DATA (Bytes d);; mret tt
                 else mret tt);;
                qm_ble_ota_data_rsp id QM_BLE_COM_NO_ERR;;
                mret true
            end
          else mret true);
    if ok : bool then qm_ble_ota_status_set QM_BLE_OTA_STATE_FW_VERIFY;; mret true else mret false
  else mret true.

Definition flash_error (id : Z) : M Z :=
  qm_ble_ota_status_set QM_BLE_OTA_STATE_OFF;;
  qm_ble_ota_data_rsp id QM_BLE_COM_ERR_SYSTEM;;
  mret QB_EFLASH.

Definition qm_ble_ota_data_handle (id : Z) (data : list Z) : M Z :=
  w ← get;
  if id =? next_seq (ctx w) then
    qm_ble_ota_status_set QM_BLE_OTA_STATE_DATA;;
    qm_ble_ota_next_seq_inc;;
    qm_ble_ota_timeout_cnt_clear;;
    upd (set_msg_id id);;
    r ← fill_buffer data;
    match r with
    | None => flash_error id
    | Some flash_offset =>
        end_of_loop id;;
        ok ← end_of_file id flash_offset;
        if ok : bool then mret 0 else flash_error id
    end
  else
    qm_ble_ota_status_set QM_BLE_OTA_STATE_IDLE;;
    qm_ble_ota_data_rsp (msg_id (ctx w)) QM_BLE_COM_NO_ERR;;
    upd (set_timer true);;
    mret 0.
(** ** Verification *)

(** The loop over the file in both digest functions: [offset] runs to the size of the file in reads
    of at most the buffer; a read that fails ends it. *)
Fixpoint hash_loop {A} (update : A -> list Z -> outcome A) (h : hal) (size : Z) (fuel : nat) (offset : Z) (buf : list Z) (acc : A) : outcome A :=
  match fuel with
  | O => NoFuel
  | S fuel =>
      if offset <? size then
        let read_len := if u32 (size - offset) >? QM_BLE_OTA_BUF_SIZE then QM_BLE_OTA_BUF_SIZE else u32 (size - offset) in
        let '(ret, offset, buf) := qm_ble_ota_flash_read h offset buf read_len in
        if negb (ret =? 0) then Ret acc
        else d ← of_option (slice buf 0 read_len);
             acc ← update acc d;
             hash_loop update h size fuel offset buf acc
      else Ret acc
  end.

(** Enough for reads that move on. *)
Definition hash_fuel (size : Z) : nat := S (S (Z.to_nat (size / QM_BLE_OTA_BUF_SIZE))).

Definition qm_ble_ota_crc32_get (h : hal) (size : Z) : outcome Z :=
  hash_loop (fun crc d => qm_utils_crc32 d (Z.of_nat (length d)) crc) h size (hash_fuel size) 0 stale 0.

Definition qm_ble_ota_md5_get (h : hal) (size : Z) : outcome (list Z) :=
  x ← hash_loop (fun x d => Ret (Md5.qm_utils_md5_update x d)) h size (hash_fuel size) 0 stale (Md5.qm_utils_md5_starts Md5.qm_utils_md5_init);
  Ret (fst (Md5.qm_utils_md5_finish x)).

Definition qm_ble_hash_check : M bool :=
  w ← get;
  let f := ota_file (ctx w) in
  if hash f =? QM_BLE_HASH_MD5 then
    md5 ← lift (qm_ble_ota_md5_get (flash w) (file_size f));
    a ← lift (of_option (slice md5 0 (hash_len f)));
    b ← lift (of_option (slice (hash_value f) 0 (hash_len f)));
    mret (bool_decide (a = b))
  else if hash f =? QM_BLE_HASH_SHA1 then mret false
  else if hash f =? QM_BLE_HASH_CRC32 then
    crc32 ← lift (qm_ble_ota_crc32_get (flash w) (file_size f));
    a ← lift (of_option (slice (store_le (QM_BLE_SWAP32 crc32)) 0 (hash_len f)));
    b ← lift (of_option (slice (hash_value f) 0 (hash_len f)));
    mret (bool_decide (a = b))
  else mret false.

Definition qm_ble_ota_verify_rsp (id : Z) (is_valid : bool) : M Z :=
  qm_ble_ota_post_ack id Ble.QM_BLE_CMD_OTA_VERIFY (if is_valid then QM_BLE_COM_NO_ERR else QM_BLE_COM_ERR_VERIFY) [].

Definition qm_ble_ota_reset : M unit :=
  upd (set_file blank_file);;
  upd (fun c => set_buf (ota_data_buf c) 0 c);;
  upd (set_timeouts 0);;
  upd (set_size 0);;
  upd (set_seq 0);;
  upd (set_status QM_BLE_OTA_STATE_OFF);;
  upd (set_timer false).

Definition qm_ble_ota_verify_handle (id : Z) (data : list Z) : M Z :=
  upd (set_timer false);;
  w ← get;
  (if QB_ENABLE_MCU_OTA && (ota_type (ota_file (ctx w)) =? QM_BLE_OTA_TYPE_MCU) then
     r ← ask QM_BLE_OTA_VERIFY NoData;
     match r with
     | Some r => qm_ble_ota_verify_rsp id (r =? QM_BLE_DEV_NORMAL);; mret tt
     | None => mret tt
     end
   else mret tt);;
  (if ota_type (ota_file (ctx w)) =? QM_BLE_OTA_TYPE_BLE then
     is_valid ← qm_ble_hash_check;
     qm_ble_ota_verify_rsp id is_valid;;
     w ← get;
     put_flash (qm_ble_ota_end (Z.b2z is_valid) (flash w))
   else mret tt);;
  qm_ble_ota_reset;;
  mret QB_SUCCESS.

(** ** Entry points *)

Definition qm_ble_ota_dispatcher (id cmd : Z) (data : list Z) : M Z :=
  w ← get;
  let ota_state := status (ctx w) in
  (if cmd =? Ble.QM_BLE_CMD_OTA_QUERY_VER then qm_ble_ota_ver_handle id data;; mret tt
   else if cmd =? Ble.QM_BLE_CMD_OTA_REQUEST then
     qm_ble_ota_reset;;
     w ← get;
     h ← lift (qm_ble_ota_start (flash w));
     put_flash h;;
     qm_ble_ota_req_handle id data;;
     mret tt
   else if cmd =? Ble.QM_BLE_CMD_OTA_DATA then
     if negb (bool_decide (ota_state = QM_BLE_OTA_STATE_IDLE)) && negb (bool_decide (ota_state = QM_BLE_OTA_STATE_DATA)) then mret tt
     else
       err_code ← qm_ble_ota_data_handle id data;
       if negb (err_code =? QB_SUCCESS) then qm_ble_ota_status_set QM_BLE_OTA_STATE_IDLE else mret tt
   else if cmd =? Ble.QM_BLE_CMD_OTA_VERIFY then
     if negb (bool_decide (ota_state = QM_BLE_OTA_STATE_FW_VERIFY)) then mret tt
     else
       upd (set_timer false);;
       qm_ble_ota_verify_handle id data;;
       mret tt
   else mret tt);;
  mret QB_SUCCESS.

(** The timer: a first tick marks the transfer as idle, later ones repeat the last answer and, after
    two of them, end it.  The error handler of the core only logs for this source. *)
Definition qm_ble_ota_timer_callback : M unit :=
  w ← get;
  if bool_decide (status (ctx w) = QM_BLE_OTA_STATE_DATA) then qm_ble_ota_status_set QM_BLE_OTA_STATE_IDLE
  else
    qm_ble_ota_data_rsp (msg_id (ctx w)) QM_BLE_COM_NO_ERR;;
    qm_ble_ota_timeout_cnt_inc;;
    w ← get;
    if ota_timeout_cnt (ctx w) >=? QM_BLE_OTA_MAX_RETRY_COUNT then qm_ble_ota_reset else mret tt.

Definition qm_ble_ota_relate_event (disconnected : bool) : M unit := if disconnected then qm_ble_ota_reset else mret tt.

Definition qm_ble_mcu_ver_set (v : option qm_ble_ver_t) : M Z :=
  match v with None => mret QB_EINVALIDPARAM | Some v => upd (set_mcu v);; mret QB_SUCCESS end.
Definition qm_ble_mcu_reboot_time_set (time_s : Z) : M Z := upd (set_reboot time_s);; mret QB_SUCCESS.

(** The configuration: the versions and the callback. *)
Definition qm_ble_ota_init (conf : option (qm_ble_ver_t * qm_ble_ver_t * option (Z -> qm_ble_ota_event_t -> cb_data -> C -> Z * C))) : M Z :=
  match conf with
  | None => mret QB_EINVALIDPARAM
  | Some (b, m, cb) =>
      w ← get;
      let hdl := ota_timer (ctx w) in
      upd (fun _ => mk_ctx blank_file 0 m QM_BLE_OTA_REBOOT_TIME 0 b (replicate (Z.to_nat QM_BLE_OTA_BUF_SIZE) 0) 0 0 0 QM_BLE_OTA_STATE_OFF 0 0
                     (match hdl with None => Some false | Some t => Some t end) cb);;
      mret QB_SUCCESS
  end.
End code.

(** ** Transfers *)

(** The digests a request can name that are compared, and the file announced by it. *)
Inductive digest := MD5 | CRC32.
Definition hash_id (k : digest) : Z := match k with MD5 => QM_BLE_HASH_MD5 | CRC32 => QM_BLE_HASH_CRC32 end.
Definition digest_of (k : digest) (file : list Z) : list Z :=
  match k with MD5 => Md5.Rfc1321.md5 file | CRC32 => let c := crc_spec CRC_32 file in [B 3 c; B 2 c; B 1 c; B 0 c] end.
Definition digest_size (k : digest) : nat := match k with MD5 => 16 | CRC32 => 4 end.

(** The messages of a transfer: the request, the pieces of the file, numbered from 0 to 15 again and
    again, and the call for the verification. *)
Definition request (k : digest) (v : qm_ble_ver_t) (value : list Z) (size : Z) : list Z :=
  [QM_BLE_OTA_TYPE_BLE; main_ver v; sub_ver v; fix_ver v; hash_id k] ++ value ++ [B 3 size; B 2 size; B 1 size; B 0 size].
Fixpoint data_messages (i : nat) (pieces : list (list Z)) : list (Z * Z * list Z) :=
  match pieces with
  | [] => []
  | p :: pieces => (Z.of_nat (i mod 16), Ble.QM_BLE_CMD_OTA_DATA, p) :: data_messages (S i) pieces
  end.

Section transfer.
Context {cfg : OtaConfig} {H : OtaHal} {L : AppendingHal H} {C : Type} (post : nat -> Z) (stale : list Z).
Implicit Types w : world (C := C).

Fixpoint run (msgs : list (Z * Z * list Z)) : M (C := C) unit :=
  match msgs with
  | [] => mret tt
  | (id, cmd, data) :: msgs => qm_ble_ota_dispatcher post stale id cmd data;; run msgs
  end.

Lemma ota_bind {A B'} (m : M A) (k : A -> M B') w a w' : m w = Ret (a, w') -> (m ≫= k) w = k a w'.
Proof. intros Hm. unfold mbind, M_bind. by rewrite Hm. Qed.

Lemma messages_app a b w w' : run a w = Ret (tt, w') -> run (a ++ b) w = run b w'.
Proof.
  revert w. induction a as [|[[id cmd] d] a IH]; intros w; [by intros [= ->]|].
  change (((id, cmd, d) :: a) ++ b) with ((id, cmd, d) :: a ++ b). cbn [run]. unfold mbind, M_bind.
  destruct (qm_ble_ota_dispatcher post stale id cmd d w) as [[z w1]| |]; [apply IH|done|done].
Qed.

Ltac next := erewrite ota_bind; [|reflexivity].

(** *** Numbers in messages *)

Lemma masked_byte i x : 0 <= i -> Z.land x (Z.shiftl 0xFF (8 * i)) = Z.shiftl (B i x) (8 * i).
Proof.
  intros Hi. apply Z.bits_inj'. intros n Hn. rewrite Z.land_spec, !Z.shiftl_spec by lia. destruct (decide (n < 8 * i)).
  - rewrite !(Z.testbit_neg_r _ (n - _)) by lia. apply andb_false_r.
  - rewrite B_spec by lia. replace (n - 8 * i + 8 * i) with n by lia. f_equal. change 0xFF with (Z.ones 8).
    destruct (Z.ltb_spec (n - 8 * i) 8); [by rewrite Z.ones_spec_low by lia|by rewrite Z.ones_spec_high by lia].
Qed.

Lemma swap_W x : QM_BLE_SWAP32 x = W (B 3 x) (B 2 x) (B 1 x) (B 0 x).
Proof.
  transitivity (load_le [B 3 x; B 2 x; B 1 x; B 0 x] 0); [|apply load_W; repeat (apply List.Forall_cons; [apply B_u8|]); apply List.Forall_nil].
  unfold QM_BLE_SWAP32, load_le. change (0x000000ff) with (Z.shiftl 0xFF (8 * 0)). change 0x0000ff00 with (Z.shiftl 0xFF (8 * 1)). change 0x00ff0000 with (Z.shiftl 0xFF (8 * 2)). change 0xff000000 with (Z.shiftl 0xFF (8 * 3)).
  rewrite !masked_byte, !Z.shiftl_shiftl, !Z.shiftr_shiftl_l by lia. change (8 * 0 + 24) with 24. change (8 * 1 + 8) with 16. change (8 * 2 - 8) with 8. change (8 * 3 - 24) with 0. rewrite Z.shiftl_0_r.
  change (at_ _ (Z.of_nat 0)) with (B 3 x). change (at_ _ (Z.of_nat (0 + 1))) with (B 2 x). change (at_ _ (Z.of_nat (0 + 2))) with (B 1 x). change (at_ _ (Z.of_nat (0 + 3))) with (B 0 x). bits_ac.
Qed.

Lemma be_swapped n : is_u32 n -> QM_BLE_SWAP32 (load_le [B 3 n; B 2 n; B 1 n; B 0 n] 0) = n.
Proof.
  intros Hn. rewrite swap_W, load_W by (repeat (apply List.Forall_cons; [apply B_u8|]); apply List.Forall_nil).
  change (at_ _ (Z.of_nat 0)) with (B 3 n). change (at_ _ (Z.of_nat (0 + 1))) with (B 2 n). change (at_ _ (Z.of_nat (0 + 2))) with (B 1 n). change (at_ _ (Z.of_nat (0 + 3))) with (B 0 n).
  destruct (B_W (B 3 n) (B 2 n) (B 1 n) (B 0 n)) as (-> & -> & -> & ->); try apply B_u8. by apply W_B.
Qed.

Lemma swapped_be c : store_le (QM_BLE_SWAP32 c) = [B 3 c; B 2 c; B 1 c; B 0 c].
Proof. rewrite store_B, swap_W. destruct (B_W (B 3 c) (B 2 c) (B 1 c) (B 0 c)) as (-> & -> & -> & ->); try apply B_u8. done. Qed.

(** *** The buffer *)

Lemma copy_in_step w data from n front d old back pre tail :
  data = pre ++ d ++ tail -> from = Z.of_nat (length pre) -> n = Z.of_nat (length d) -> length old = length d ->
  ota_data_buf (ctx w) = front ++ old ++ back -> ota_buf_offset (ctx w) = Z.of_nat (length front) -> (length front + length d <= 256)%nat ->
  copy_in data from n w = Ret (tt, with_ctx (set_buf (front ++ d ++ back) (Z.of_nat (length (front ++ d))) (ctx w)) w).
Proof.
  intros -> -> -> Ho Hb Hoff Hl. unfold copy_in. next. rewrite (BleLink.slice_at pre d tail) by done. cbn [of_option]. next.
  rewrite Hb, (BleLink.splice_at front old d back) by done. cbn [of_option]. next. rewrite Hoff, length_app, Nat2Z.inj_add, u32_id by (widths; lia). done.
Qed.

Lemma write_buffer_step w n o d back : ota_data_buf (ctx w) = d ++ back -> ota_buf_offset (ctx w) = Z.of_nat (length d) ->
  room (flash w) n -> d <> [] -> (written (flash w) ++ d) `prefix_of` n -> Z.of_nat (length n) < 2 ^ 32 ->
  ota_download_file_size (ctx w) = Z.of_nat (length (written (flash w)) + length d) ->
  exists h off, write_buffer o w = Ret (Some off, with_flash h w) /\ written h = written (flash w) ++ d /\ room h n.
Proof.
  intros Hb Ho Hr Hne Hn Hn2 Hs. destruct (write_law (flash w) n o d Hr Hne Hn Hn2) as (h & Hw & Hwr & Hr'). exists h, (Z.of_nat (length (written (flash w)) + length d)). split; [|done].
  unfold write_buffer. next. rewrite Hb, Ho, StrUtil.str_slice_all. cbn [of_option]. next. rewrite Hw. next. rewrite Hs, !Z.eqb_refl. cbn [negb]. reflexivity.
Qed.

Lemma ask_step e d w : exists r a, ask e d w = Ret (r, mk_world (ctx w) (flash w) (acks w) a).
Proof. unfold ask. destruct (ota_cb (ctx w)) as [cb|]; [destruct (cb _ _ _ _) as [r a]; by exists (Some r), a|exists None, (app w); by destruct w]. Qed.

(** What arrived of the file [f]: what the flash has and what is in the buffer. *)
Record holds (f : qm_ble_ota_file_t) (n : list Z) (got : list Z) w : Prop := {
  h_file : ota_file (ctx w) = f;
  h_room : room (flash w) n;
  h_size : ota_download_file_size (ctx w) = Z.of_nat (length got);
  h_buf : exists rest back, ota_data_buf (ctx w) = rest ++ back /\ (length rest + length back = 256)%nat /\ (length rest < 256)%nat /\
            ota_buf_offset (ctx w) = Z.of_nat (length rest) /\ got = written (flash w) ++ rest
}.

Definition steady w w' : Prop := status (ctx w') = status (ctx w) /\ next_seq (ctx w') = next_seq (ctx w).

Lemma fill_buffer_step f n got p w : holds f n got w -> ota_type f = QM_BLE_OTA_TYPE_BLE -> 0 < file_size f -> (length p <= 256)%nat ->
  (got ++ p) `prefix_of` n -> Z.of_nat (length n) < 2 ^ 32 ->
  exists o w', fill_buffer p w = Ret (Some o, w') /\ holds f n (got ++ p) w' /\ steady w w'.
Proof.
  intros [Hf Hr Hs (rest & back & Hb & Hlb & Hlr & Ho & Hg)] Ht Hz Hp Hpre Hn2. pose proof (prefix_length _ _ Hpre) as Hn. rewrite length_app in Hn. unfold fill_buffer. next. rewrite Ho.
  rewrite u32_id by (widths; lia). change QM_BLE_OTA_BUF_SIZE with 256. destruct (Z.geb_spec (Z.of_nat (length p) + Z.of_nat (length rest)) 256) as [Hge|Hlt].
  2: { exists 0. eexists. split.
       - erewrite ota_bind; [|eapply (copy_in_step w p 0 (Z.of_nat (length p)) rest p (take (length p) back) (drop (length p) back) [] []);
           [by rewrite app_nil_r|done|done|rewrite length_take; lia|by rewrite take_drop|done|lia]]. next. reflexivity.
       - split; [|done]. split; [done|done| |].
         + cbn. rewrite Hs, length_app, Nat2Z.inj_add. apply u32_id. widths; lia.
         + exists (rest ++ p), (drop (length p) back). cbn. rewrite <- app_assoc, !length_app, length_drop. split_and!; [done|lia|lia|done|by rewrite Hg, app_assoc]. }
  set (k := (256 - length rest)%nat). assert (length back = k) as Hk by lia. set (p1 := take k p). set (p2 := drop k p).
  assert (length p1 = k) as Hp1 by (unfold p1; rewrite length_take; lia). assert (p = p1 ++ p2) as Hp12 by (unfold p1, p2; by rewrite take_drop).
  assert (u16 (256 - Z.of_nat (length rest)) = Z.of_nat k) as -> by (rewrite u16_id by (widths; lia); lia).
  erewrite ota_bind; [|eapply (copy_in_step w p 0 (Z.of_nat k) rest p1 back [] [] p2); [done|done|by rewrite Hp1|lia|by rewrite app_nil_r|done|lia]]. next.
  assert (length p = (k + length p2)%nat) as Hlp by (rewrite Hp12, length_app; lia).
  rewrite Hf, Ht. change (QM_BLE_OTA_TYPE_BLE =? QM_BLE_OTA_TYPE_MCU) with false. rewrite andb_false_r. next. change (QM_BLE_OTA_TYPE_BLE =? QM_BLE_OTA_TYPE_BLE) with true. cbn match.
  match goal with |- context [(write_buffer 0 ≫= _) ?x] => set (w1 := x) end.
  assert (length got = (length (written (flash w)) + length rest)%nat) as Hlg by (rewrite Hg, length_app; done).
  destruct (write_buffer_step w1 n 0 (rest ++ p1) []) as (h & off & Hw & Hh & Hrh).
  { unfold w1. cbn. by rewrite <- app_assoc. } { done. } { done. } { intros Hnil. apply (f_equal length) in Hnil. rewrite length_app in Hnil. cbn in Hnil. lia. }
  { change (flash w1) with (flash w). etransitivity; [|exact Hpre]. exists p2. by rewrite Hg, Hp12, <- !app_assoc. } { done. }
  { unfold w1 at 1. cbn. rewrite Hs, length_app, u32_id by (widths; lia). lia. }
  rewrite (ota_bind _ _ _ _ _ Hw). next. change (ota_file (ctx (with_flash h w1))) with (ota_file (ctx w)). rewrite Hf, (proj2 (Z.eqb_neq _ _)) by lia. next. next.
  match goal with |- context [(ask ?e ?d ≫= _) ?x] => destruct (ask_step e d x) as (r & app' & Ha); rewrite (ota_bind _ _ _ _ _ Ha) end. next.
  exists off. eexists. split.
  - erewrite ota_bind; [|eapply (copy_in_step _ p (Z.of_nat k) (Z.of_nat (length p) - Z.of_nat k) [] p2 (take (length p2) (rest ++ p1)) (drop (length p2) (rest ++ p1)) p1 []);
      [by rewrite app_nil_r|by rewrite Hp1|lia|rewrite length_take, length_app; lia|cbn; by rewrite app_nil_r, take_drop|done|cbn; lia]]. next. reflexivity.
  - split; [|done]. split; [done|done| |].
    + cbn. rewrite Hs, length_app, !u32_id by (rewrite ?u32_id by (widths; lia); widths; lia). lia.
    + exists p2, (drop (length p2) (rest ++ p1)). cbn. rewrite length_drop, length_app. split_and!; [done|lia|lia|done|]. rewrite Hh, Hg, Hp12. change (flash w1) with (flash w). by rewrite <- !app_assoc.
Qed.

(** Answers and calls of the application change nothing of this. *)
Lemma holds_frame f n got w w' : holds f n got w -> flash w' = flash w -> ota_file (ctx w') = ota_file (ctx w) -> ota_data_buf (ctx w') = ota_data_buf (ctx w) ->
  ota_buf_offset (ctx w') = ota_buf_offset (ctx w) -> ota_download_file_size (ctx w') = ota_download_file_size (ctx w) -> holds f n got w'.
Proof. intros [H1 H2 H3 (rest & back & H4)] E1 E2 E3 E4 E5. split; [congruence|by rewrite E1|congruence|]. exists rest, back. by rewrite E1, E3, E4. Qed.

Lemma end_of_loop_step f n got id i w : holds f n got w -> next_seq (ctx w) = Z.of_nat (S (i mod 16)) ->
  exists w', end_of_loop post id w = Ret (tt, w') /\ holds f n got w' /\ status (ctx w') = status (ctx w) /\ next_seq (ctx w') = Z.of_nat (S i mod 16).
Proof.
  intros Hh Hq. unfold end_of_loop. next. rewrite Hq. change QM_BLE_OTA_TOTAL_PACKAGES with 16. pose proof (Nat.mod_upper_bound i 16 ltac:(lia)) as Hi.
  assert (S i mod 16 = if decide (i mod 16 = 15) then 0 else S (i mod 16))%nat as ->.
  { replace (S i) with (i + 1)%nat by lia. rewrite Nat.Div0.add_mod. change (1 mod 16)%nat with 1%nat. destruct (decide _) as [->|]; [done|]. rewrite Nat.mod_small; lia. }
  destruct (Z.eqb_spec 16 (Z.of_nat (S (i mod 16)))) as [He|He]; destruct (decide _) as [Hd|Hd]; try (exfalso; lia).
  - next. destruct QB_ENABLE_OTA_DATA_ASYNC.
    + match goal with |- context [(ask ?e ?d ≫= _) ?x] => destruct (ask_step e d x) as (r & app' & Ha); rewrite (ota_bind _ _ _ _ _ Ha) end.
      eexists. split; [reflexivity|]. split; [by apply (holds_frame _ _ _ w)|done].
    + eexists. split; [reflexivity|]. split; [by apply (holds_frame _ _ _ w)|done].
  - eexists. split; [reflexivity|]. done.
Qed.

Lemma end_of_file_more f n got id o w : holds f n got w -> Z.of_nat (length got) < file_size f -> end_of_file post id o w = Ret (true, w).
Proof. intros Hh Hl. unfold end_of_file. next. rewrite (h_size _ _ _ _ Hh), (h_file _ _ _ _ Hh). destruct (Z.geb_spec (Z.of_nat (length got)) (file_size f)); [lia|done]. Qed.

(** The whole file is in the flash and waits for its verification. *)
Definition received (f : qm_ble_ota_file_t) (n : list Z) (file : list Z) w : Prop :=
  ota_file (ctx w) = f /\ room (flash w) n /\ written (flash w) = file /\ status (ctx w) = QM_BLE_OTA_STATE_FW_VERIFY.

Lemma end_of_file_last f n got id o w : holds f n got w -> ota_type f = QM_BLE_OTA_TYPE_BLE -> got `prefix_of` n -> Z.of_nat (length n) < 2 ^ 32 -> Z.of_nat (length got) = file_size f ->
  exists w', end_of_file post id o w = Ret (true, w') /\ received f n got w'.
Proof.
  intros [Hf Hr Hs (rest & back & Hb & Hlb & Hlr & Ho & Hg)] Ht Hn Hn2 Hl. unfold end_of_file. next. rewrite Hs, Hf, Ht. destruct (Z.geb_spec (Z.of_nat (length got)) (file_size f)); [|lia].
  change (QM_BLE_OTA_TYPE_BLE =? QM_BLE_OTA_TYPE_BLE) with true. change (QM_BLE_OTA_TYPE_BLE =? QM_BLE_OTA_TYPE_MCU) with false. rewrite andb_false_r. cbn match.
  assert (exists h off, (if negb (ota_buf_offset (ctx w) =? 0) then write_buffer o else mret (Some o)) w = Ret (Some off, with_flash h w) /\ written h = got /\ room h n) as (h & off & Hw & Hh & Hrh).
  { rewrite Ho. destruct rest as [|x rest].
    - exists (flash w), o. split; [by destruct w|]. by rewrite Hg, app_nil_r.
    - change (negb (Z.of_nat (length (x :: rest)) =? 0)) with true. cbn match. assert (length got = length (written (flash w)) + length (x :: rest))%nat as Hlg by (rewrite Hg, length_app; done).
      destruct (write_buffer_step w n o (x :: rest) back) as (h & off & Hw & Hh & Hrh); [done|done|done|done|by rewrite <- Hg|done|by rewrite Hs, Hlg|]. exists h, off. by rewrite Hg. }
  erewrite ota_bind; [|erewrite (ota_bind _ _ _ _ _ Hw); next; next; reflexivity]. cbn beta iota. next. eexists. split; [reflexivity|]. done.
Qed.

(** *** A message with data *)

Lemma data_message f n got p i w : holds f n got w -> status (ctx w) = QM_BLE_OTA_STATE_DATA -> next_seq (ctx w) = Z.of_nat (i mod 16) ->
  ota_type f = QM_BLE_OTA_TYPE_BLE -> 0 < file_size f -> (length p <= 256)%nat -> (got ++ p) `prefix_of` n -> Z.of_nat (length n) < 2 ^ 32 ->
  exists o w', holds f n (got ++ p) w' /\ status (ctx w') = QM_BLE_OTA_STATE_DATA /\ next_seq (ctx w') = Z.of_nat (S i mod 16) /\
    forall w'', end_of_file post (Z.of_nat (i mod 16)) o w' = Ret (true, w'') -> qm_ble_ota_dispatcher post stale (Z.of_nat (i mod 16)) Ble.QM_BLE_CMD_OTA_DATA p w = Ret (QB_SUCCESS, w'').
Proof.
  intros Hh Hst Hq Ht Hz Hp Hn Hn2. pose proof (Nat.mod_upper_bound i 16 ltac:(lia)) as Hi. set (id := Z.of_nat (i mod 16)) in *.
  set (w1 := with_ctx (set_msg_id id (set_timeouts 0 (set_seq (u8 (next_seq (ctx w) + 1)) (set_status QM_BLE_OTA_STATE_DATA (ctx w))))) w).
  destruct (fill_buffer_step f n got p w1) as (o & w2 & Hf & Hh2 & Hs2 & Hq2); [by apply (holds_frame _ _ _ w)|done|done|done|done|done|].
  destruct (end_of_loop_step f n (got ++ p) id i w2) as (w3 & Hl & Hh3 & Hs3 & Hq3); [done| |].
  { rewrite Hq2. change (next_seq (ctx w1)) with (u8 (next_seq (ctx w) + 1)). rewrite Hq. unfold id. rewrite u8_id by (widths; lia). lia. }
  exists o, w3. split; [done|]. split; [by rewrite Hs3, Hs2|]. split; [done|]. intros w4 He.
  unfold qm_ble_ota_dispatcher. next. rewrite Hst. change (Ble.QM_BLE_CMD_OTA_DATA =? Ble.QM_BLE_CMD_OTA_QUERY_VER) with false. change (Ble.QM_BLE_CMD_OTA_DATA =? Ble.QM_BLE_CMD_OTA_REQUEST) with false.
  change (Ble.QM_BLE_CMD_OTA_DATA =? Ble.QM_BLE_CMD_OTA_DATA) with true. cbn match. rewrite (bool_decide_true (QM_BLE_OTA_STATE_DATA = QM_BLE_OTA_STATE_DATA)) by done. cbn [negb]. rewrite andb_false_r.
  assert (qm_ble_ota_data_handle post id p w = Ret (0, w4)) as Hd.
  { unfold qm_ble_ota_data_handle. next. rewrite Hq, Z.eqb_refl. do 4 next. change (with_ctx _ _) with w1. rewrite (ota_bind _ _ _ _ _ Hf), (ota_bind _ _ _ _ _ Hl), (ota_bind _ _ _ _ _ He). done. }
  erewrite ota_bind; [|rewrite (ota_bind _ _ _ _ _ Hd); reflexivity]. done.
Qed.

Lemma data_received f n pieces i got w : holds f n got w -> status (ctx w) = QM_BLE_OTA_STATE_DATA -> next_seq (ctx w) = Z.of_nat (i mod 16) ->
  ota_type f = QM_BLE_OTA_TYPE_BLE -> pieces <> [] -> List.Forall (fun p => (0 < length p <= 256)%nat) pieces -> got ++ concat pieces = n -> Z.of_nat (length n) < 2 ^ 32 -> file_size f = Z.of_nat (length n) ->
  exists w', run (data_messages i pieces) w = Ret (tt, w') /\ received f n (got ++ concat pieces) w'.
Proof.
  revert i got w. induction pieces as [|p pieces IH]; intros i got w Hh Hst Hq Ht Hne Hp Hn Hn2 Hs; [done|]. apply Forall_cons in Hp as [Hp1 Hp2]. subst n. cbn [concat] in *.
  assert (length (got ++ p ++ concat pieces) = length got + length p + length (concat pieces))%nat as Hlen by (rewrite !length_app; lia).
  destruct (data_message f _ got p i w Hh Hst Hq Ht) as (o & w1 & Hh1 & Hst1 & Hq1 & Hrun); [lia|lia|by exists (concat pieces); rewrite <- app_assoc|done|]. cbn [data_messages run].
  destruct pieces as [|p' pieces].
  - cbn [concat] in *. rewrite app_nil_r in *. destruct (end_of_file_last f _ (got ++ p) (Z.of_nat (i mod 16)) o w1 Hh1 Ht) as (w2 & He & Hr); [done|done|by rewrite Hs|].
    exists w2. rewrite (ota_bind _ _ _ _ _ (Hrun w2 He)). split; [done|]. exact Hr.
  - rewrite (ota_bind _ _ _ _ _ (Hrun w1 (end_of_file_more f _ _ _ _ w1 Hh1 ltac:(rewrite Hs, Hlen, length_app; cbn [concat]; rewrite length_app; inversion Hp2; lia)))).
    rewrite app_assoc in *. apply IH; done.
Qed.

(** *** The request *)

Definition announced (k : digest) (v : qm_ble_ver_t) (value : list Z) (size : Z) : qm_ble_ota_file_t :=
  mk_file QM_BLE_OTA_TYPE_BLE (hash_id k) (Z.of_nat (digest_size k)) (value ++ replicate (64 - digest_size k) 0) size v.

Lemma request_parsed k v value size : length value = digest_size k -> is_u32 size ->
  qm_ble_ota_req_parse (request k v value size) blank_file = Ret (0, announced k v value size).
Proof.
  intros Hl Hs. unfold qm_ble_ota_req_parse, request. set (tail := [B 3 size; B 2 size; B 1 size; B 0 size]). set (head := [QM_BLE_OTA_TYPE_BLE; main_ver v; sub_ver v; fix_ver v; hash_id k]).
  assert (hash_len_get (hash_id k) = Z.of_nat (digest_size k)) as Hh by by destruct k. assert (digest_size k <= 16)%nat as Hd by (destruct k; cbn; lia).
  assert (Z.of_nat (length (head ++ value ++ tail)) = 9 + Z.of_nat (digest_size k)) as -> by (rewrite !length_app, Hl; cbn; lia).
  rewrite (proj2 (Z.eqb_neq _ _)) by lia. change ((head ++ value ++ tail) !! 0%nat) with (Some QM_BLE_OTA_TYPE_BLE). cbn [of_option]. rewrite StrUtil.step_ret. change (is_valid_ota_type QM_BLE_OTA_TYPE_BLE) with true. cbn [negb].
  rewrite (proj2 (Z.ltb_ge _ 3)) by lia. change ((head ++ value ++ tail) !! 1%nat) with (Some (main_ver v)). change ((head ++ value ++ tail) !! 2%nat) with (Some (sub_ver v)). change ((head ++ value ++ tail) !! 3%nat) with (Some (fix_ver v)).
  cbn [of_option]. rewrite !StrUtil.step_ret. rewrite (proj2 (Z.ltb_ge _ 1)) by lia. change ((head ++ value ++ tail) !! 4%nat) with (Some (hash_id k)). cbn [of_option]. rewrite StrUtil.step_ret.
  assert (is_valid_hash_type (hash_id k) = true) as -> by by destruct k. cbn [negb]. rewrite Hh, (proj2 (Z.ltb_ge (_ - 5) _)) by lia.
  rewrite (BleLink.slice_at head value tail 5 (Z.of_nat (digest_size k)) eq_refl ltac:(by rewrite Hl)). cbn [of_option]. rewrite StrUtil.step_ret. cbn [hash_value blank_file].
  pose proof (BleLink.splice_at [] (replicate (digest_size k) 0) value (replicate (64 - digest_size k) 0) 0 eq_refl ltac:(by rewrite length_replicate, Hl)) as Hsp.
  rewrite app_nil_l, app_nil_l, <- replicate_add, Nat.add_comm, Nat.sub_add in Hsp by lia. unfold blank_file, QM_BLE_HASH_MAX_SIZE. cbn [hash_value]. rewrite Hsp. cbn [of_option]. rewrite StrUtil.step_ret. rewrite (proj2 (Z.ltb_ge _ 4)) by lia.
  rewrite (app_assoc head value tail), <- (app_nil_r tail) at 1. rewrite (BleLink.slice_at (head ++ value) tail []) by (rewrite ?length_app, ?Hl; cbn; lia). cbn [of_option]. rewrite StrUtil.step_ret.
  rewrite (proj2 (Z.eqb_eq _ _)) by lia. cbn [negb ota_type hash hash_len hash_value ver]. unfold tail. rewrite be_swapped by done. by destruct v.
Qed.

Lemma request_accepted id f w : ota_file (ctx w) = f -> ota_type f = QM_BLE_OTA_TYPE_BLE -> ble_ver (ctx w) <> ver f ->
  (forall cb, ota_cb (ctx w) = Some cb -> fst (cb QM_BLE_OTA_TYPE_BLE QM_BLE_OTA_REQ NoData (app w)) = QM_BLE_DEV_NORMAL) -> post (length (acks w)) = QB_SUCCESS ->
  exists w', decide_request post id f w = Ret (QB_SUCCESS, w') /\ flash w' = flash w /\ ctx w' = set_reason QM_BLE_DEV_NORMAL (ctx w).
Proof.
  intros Hf Ht Hv Hcb Hp. unfold decide_request. erewrite ota_bind; [|unfold qm_ble_ota_ver_check; next; rewrite Ht; reflexivity]. rewrite bool_decide_false by done. next.
  rewrite Ht. change (QM_BLE_OTA_TYPE_BLE =? QM_BLE_OTA_TYPE_BLE) with true. change (QM_BLE_OTA_TYPE_BLE =? QM_BLE_OTA_TYPE_MCU) with false. rewrite andb_false_r. cbn match.
  match goal with |- context [(if ota_reason (ctx ?x) =? _ then _ else _)] => set (w1 := x) end. change (ota_reason (ctx w1) =? QM_BLE_DEV_NORMAL) with true. cbn match.
  assert (exists a, (mret tt ;; r ← ask QM_BLE_OTA_REQ NoData; take_reason r) w1 = Ret (tt, mk_world (ctx w1) (flash w1) (acks w1) a)) as (a & Ha).
  { next. unfold ask. unfold mbind, M_bind. change (ota_cb (ctx w1)) with (ota_cb (ctx w)). change (ota_file (ctx w1)) with (ota_file (ctx w)). change (app w1) with (app w). rewrite Hf, Ht.
    destruct (ota_cb (ctx w)) as [cb|]; [|by exists (app w)]. specialize (Hcb cb eq_refl). destruct (cb _ _ _ _) as [r a]. exists a. cbn in Hcb. by rewrite Hcb. }
  rewrite (ota_bind _ _ _ _ _ Ha). next. unfold qm_ble_ota_req_rsp, qm_ble_ota_post_ack. cbn -[store_le]. rewrite Hp. eexists. split; [reflexivity|done].
Qed.

Lemma request_message id k v value (file : list Z) w : ready (flash w) file -> length (ota_data_buf (ctx w)) = 256%nat -> length value = digest_size k -> is_u32 (Z.of_nat (length file)) ->
  ble_ver (ctx w) <> v -> (forall cb, ota_cb (ctx w) = Some cb -> fst (cb QM_BLE_OTA_TYPE_BLE QM_BLE_OTA_REQ NoData (app w)) = QM_BLE_DEV_NORMAL) -> post (length (acks w)) = QB_SUCCESS ->
  exists w', qm_ble_ota_dispatcher post stale id Ble.QM_BLE_CMD_OTA_REQUEST (request k v value (Z.of_nat (length file))) w = Ret (QB_SUCCESS, w') /\
    holds (announced k v value (Z.of_nat (length file))) file [] w' /\ status (ctx w') = QM_BLE_OTA_STATE_DATA /\ next_seq (ctx w') = 0.
Proof.
  intros Hr Hb Hl Hs Hv Hcb Hpost. destruct (start_law (flash w) _ Hr) as (h & Hstart & Hw0 & Hr0). unfold qm_ble_ota_dispatcher. next.
  change (Ble.QM_BLE_CMD_OTA_REQUEST =? Ble.QM_BLE_CMD_OTA_QUERY_VER) with false. change (Ble.QM_BLE_CMD_OTA_REQUEST =? Ble.QM_BLE_CMD_OTA_REQUEST) with true. cbn match.
  set (f := announced k v value (Z.of_nat (length file))).
  assert (exists w', qm_ble_ota_reset w = Ret (tt, w') /\ ota_file (ctx w') = blank_file /\ ota_data_buf (ctx w') = ota_data_buf (ctx w) /\ ota_buf_offset (ctx w') = 0 /\ ota_download_file_size (ctx w') = 0 /\
    next_seq (ctx w') = 0 /\ ble_ver (ctx w') = ble_ver (ctx w) /\ ota_cb (ctx w') = ota_cb (ctx w) /\ flash w' = flash w /\ acks w' = acks w /\ app w' = app w) as (w1 & Hreset & F1 & F2 & F3 & F4 & F5 & F6 & F7 & F8 & F9 & F10).
  { eexists. split; [reflexivity|]. by split_and!. }
  assert (exists w', qm_ble_ota_req_handle post id (request k v value (Z.of_nat (length file))) (with_flash h w1) = Ret (QB_SUCCESS, w') /\
    holds f file [] w' /\ status (ctx w') = QM_BLE_OTA_STATE_DATA /\ next_seq (ctx w') = 0) as (w' & Hrun & Hres).
  { unfold qm_ble_ota_req_handle. change (Z.of_nat (length (request k v value (Z.of_nat (length file)))) =? 0) with false. cbn match. next. next.
    change (ota_file (ctx (with_ctx _ _))) with (ota_file (ctx w1)). rewrite F1, request_parsed by done. next. cbn beta iota. next. change (negb (0 =? QB_SUCCESS)) with false. cbn match. fold f.
    match goal with |- context [(decide_request post id f ≫= _) ?x] => destruct (request_accepted id f x) as (w2 & Hd & Hfl & Hc); [done|done|by rewrite <- F6 in Hv|by intros cb; cbn; rewrite F7, F10; apply Hcb|by cbn; rewrite F9|] end.
    rewrite (ota_bind _ _ _ _ _ Hd). change (negb (QB_SUCCESS =? QB_SUCCESS)) with false. cbn match.
    erewrite ota_bind; [|next; reflexivity]. eexists. split; [reflexivity|]. split; [|split; [done|cbn; rewrite Hc; exact F5]].
    split; cbn; [by rewrite Hc|by rewrite Hfl|by rewrite Hc|]. exists [], (ota_data_buf (ctx w)). rewrite Hfl, Hc. cbn. rewrite F2, F3, Hb, Hw0. split_and!; done || lia. }
  exists w'. split; [|done]. erewrite ota_bind; [|rewrite (ota_bind _ _ _ _ _ Hreset); next; rewrite F8, Hstart; next; next; rewrite (ota_bind _ _ _ _ _ Hrun); reflexivity]. done.
Qed.

(** *** The verification *)

Lemma hash_loop_step {A} (update : A -> list Z -> outcome A) (P : A -> list Z -> Prop) h n :
  (forall acc m d, P acc m -> List.Forall is_u8 d -> (length d <= 256)%nat -> exists acc', update acc d = Ret acc' /\ P acc' (m ++ d)) ->
  room h n -> (length (written h) <= length n)%nat -> Z.of_nat (length n) < 2 ^ 32 -> List.Forall is_u8 (written h) ->
  forall fuel o buf acc, length buf = 256%nat -> (o <= length (written h))%nat -> (length (written h) + 256 <= 256 * fuel + o)%nat -> P acc (take o (written h)) ->
  exists acc', hash_loop update h (Z.of_nat (length (written h))) fuel (Z.of_nat o) buf acc = Ret acc' /\ P acc' (written h).
Proof.
  intros Hup Hr Hn Hn2 Hb fuel. set (file := written h) in *. induction fuel as [|fuel IH]; intros o buf acc Hl Ho Hf Hp; [lia|]. cbn [hash_loop].
  destruct (Z.ltb_spec (Z.of_nat o) (Z.of_nat (length file))) as [Hlt|Hge]; [|exists acc; split; [done|]; by rewrite take_ge in Hp by lia].
  rewrite u32_id by (widths; lia). set (k := Nat.min 256 (length file - o)). assert (0 < k <= 256 /\ o + k <= length file /\ (k = 256 \/ o + k = length file))%nat as Hk by lia.
  assert ((if Z.of_nat (length file) - Z.of_nat o >? QM_BLE_OTA_BUF_SIZE then QM_BLE_OTA_BUF_SIZE else Z.of_nat (length file) - Z.of_nat o) = Z.of_nat k) as ->.
  { unfold QM_BLE_OTA_BUF_SIZE, k. destruct (Z.gtb_spec (Z.of_nat (length file) - Z.of_nat o) 256); lia. }
  rewrite (read_law h n o buf k Hr) by (fold file; lia). fold file. change (negb (0 =? 0)) with false. cbn match. set (d := take k (drop o file)).
  assert (length d = k) as Hd by (unfold d; rewrite length_take, length_drop; lia). pose proof (BleLink.slice_at [] d (drop k buf) 0 (Z.of_nat k) eq_refl ltac:(by rewrite Hd)) as Hsl. rewrite app_nil_l in Hsl. rewrite Hsl. cbn [of_option]. rewrite StrUtil.step_ret.
  destruct (Hup acc (take o file) d Hp) as (acc' & Hu & Hp'); [by apply Forall_take, Forall_drop|lia|]. rewrite Hu, StrUtil.step_ret.
  apply IH; [rewrite length_app, length_drop; lia|lia|lia|]. by rewrite <- take_take_drop.
Qed.

Lemma hash_fuel_enough n : (n + 256 <= 256 * hash_fuel (Z.of_nat n) + 0)%nat.
Proof. unfold hash_fuel, QM_BLE_OTA_BUF_SIZE. pose proof (Z.div_mod (Z.of_nat n) 256 ltac:(lia)). pose proof (Z.mod_pos_bound (Z.of_nat n) 256 ltac:(lia)). lia. Qed.

Lemma file_hashed {A} (update : A -> list Z -> outcome A) (P : A -> list Z -> Prop) f file acc w :
  (forall acc m d, P acc m -> List.Forall is_u8 d -> (length d <= 256)%nat -> exists acc', update acc d = Ret acc' /\ P acc' (m ++ d)) -> P acc [] ->
  length stale = 256%nat -> received f file file w -> List.Forall is_u8 file -> Z.of_nat (length file) < 2 ^ 32 ->
  exists acc', hash_loop update (flash w) (Z.of_nat (length file)) (hash_fuel (Z.of_nat (length file))) 0 stale acc = Ret acc' /\ P acc' file.
Proof.
  intros Hup Hp Hstale (_ & Hr & Hw & _) Hb Hn. pose proof (hash_fuel_enough (length file)) as Hf.
  destruct (hash_loop_step update P (flash w) file Hup Hr) with (fuel := hash_fuel (Z.of_nat (length file))) (o := 0%nat) (buf := stale) (acc := acc) as (x & Hx & Hg); try (by rewrite ?Hw); [lia|].
  rewrite Hw in Hx, Hg. by exists x.
Qed.

Lemma hash_checked k v value file w : length stale = 256%nat -> received (announced k v value (Z.of_nat (length file))) file file w -> List.Forall is_u8 file -> length value = digest_size k -> Z.of_nat (length file) < 2 ^ 32 ->
  qm_ble_hash_check stale w = Ret (bool_decide (digest_of k file = value), w).
Proof.
  intros Hstale Hrec Hb Hv Hn. unfold qm_ble_hash_check. next. destruct (Hrec) as [Hf _]. rewrite Hf. cbn [hash hash_len hash_value file_size announced]. destruct k; cbn [hash_id digest_size digest_of] in *.
  - change (QM_BLE_HASH_MD5 =? QM_BLE_HASH_MD5) with true. cbn match.
    destruct (file_hashed (fun x d => Ret (Md5.qm_utils_md5_update x d)) (Digest.given Md5.Rfc1321.compress Md5.words4 Md5.md5_start) (announced MD5 v value (Z.of_nat (length file))) file (Md5.qm_utils_md5_starts Md5.qm_utils_md5_init) w) as (x & Hx & Hg); [|..|done|done|done|done|].
    + intros acc m d Hg Hd Hl. eexists. split; [reflexivity|]. apply Md5.update_md5; [done|done|lia].
    + apply Md5.starts_md5; [done|apply Merkle.zeros_u8].
    + unfold qm_ble_ota_md5_get. rewrite Hx, StrUtil.step_ret, (Md5.md5_finished _ _ Hg). next. destruct (Md5.md5_digest_bytes file) as [Hl _].
      rewrite (StrUtil.slice_whole (Md5.Rfc1321.md5 file)) by (by rewrite Hl). cbn [of_option]. next. rewrite <- Hv, StrUtil.str_slice_all. cbn [of_option]. next. done.
  - change (QM_BLE_HASH_CRC32 =? QM_BLE_HASH_MD5) with false. change (QM_BLE_HASH_CRC32 =? QM_BLE_HASH_SHA1) with false. change (QM_BLE_HASH_CRC32 =? QM_BLE_HASH_CRC32) with true. cbn match.
    destruct (file_hashed (fun crc d => qm_utils_crc32 d (Z.of_nat (length d)) crc) (fun c m => List.Forall is_u8 m /\ c = crc_spec CRC_32 m) (announced CRC32 v value (Z.of_nat (length file))) file 0 w) as (c & Hc & _ & ->); [|..|done|done|done|done|].
    + intros acc m d [Hm ->] Hd Hl. eexists. split; [by apply crc32_piece|]. split; [by apply Forall_app|done].
    + split; [apply List.Forall_nil|]. reflexivity.
    + unfold qm_ble_ota_crc32_get. rewrite Hc. next. rewrite swapped_be. match goal with |- context [of_option (slice [?a; ?b; ?c; ?d] 0 ?n)] => rewrite (StrUtil.slice_whole [a; b; c; d] n eq_refl) end. cbn [of_option]. next. rewrite <- Hv, StrUtil.str_slice_all. cbn [of_option]. next. done.
Qed.

Lemma verify_message id k v value file w : length stale = 256%nat -> received (announced k v value (Z.of_nat (length file))) file file w -> List.Forall is_u8 file -> length value = digest_size k -> Z.of_nat (length file) < 2 ^ 32 ->
  let valid := bool_decide (digest_of k file = value) in
  exists w', qm_ble_ota_dispatcher post stale id Ble.QM_BLE_CMD_OTA_VERIFY [] w = Ret (QB_SUCCESS, w') /\ flash w' = qm_ble_ota_end (Z.b2z valid) (flash w) /\
    last (acks w') = Some (mk_ack id Ble.QM_BLE_CMD_OTA_VERIFY (if valid then QM_BLE_COM_NO_ERR else QM_BLE_COM_ERR_VERIFY) []) /\ status (ctx w') = QM_BLE_OTA_STATE_OFF.
Proof.
  intros Hstale Hrec Hb Hv Hn valid. destruct (Hrec) as (Hf & Hr & Hw & Hst). unfold qm_ble_ota_dispatcher. next. rewrite Hst.
  change (Ble.QM_BLE_CMD_OTA_VERIFY =? Ble.QM_BLE_CMD_OTA_QUERY_VER) with false. change (Ble.QM_BLE_CMD_OTA_VERIFY =? Ble.QM_BLE_CMD_OTA_REQUEST) with false.
  change (Ble.QM_BLE_CMD_OTA_VERIFY =? Ble.QM_BLE_CMD_OTA_DATA) with false. change (Ble.QM_BLE_CMD_OTA_VERIFY =? Ble.QM_BLE_CMD_OTA_VERIFY) with true. cbn match. rewrite bool_decide_true by done. cbn [negb].
  set (w1 := with_ctx (set_timer false (ctx w)) w). set (w2 := with_ctx (set_timer false (ctx w1)) w1).
  assert (qm_ble_hash_check stale w2 = Ret (valid, w2)) as Hc by (by apply (hash_checked k v)).
  assert (exists w', qm_ble_ota_verify_handle post stale id [] w1 = Ret (QB_SUCCESS, w') /\ flash w' = qm_ble_ota_end (Z.b2z valid) (flash w) /\
    last (acks w') = Some (mk_ack id Ble.QM_BLE_CMD_OTA_VERIFY (if valid then QM_BLE_COM_NO_ERR else QM_BLE_COM_ERR_VERIFY) []) /\ status (ctx w') = QM_BLE_OTA_STATE_OFF) as (w' & Hh & Hres).
  { unfold qm_ble_ota_verify_handle. next. change (with_ctx _ w1) with w2. next. change (ota_file (ctx w2)) with (ota_file (ctx w)). rewrite Hf. cbn [ota_type announced].
    change (QM_BLE_OTA_TYPE_BLE =? QM_BLE_OTA_TYPE_BLE) with true. change (QM_BLE_OTA_TYPE_BLE =? QM_BLE_OTA_TYPE_MCU) with false. rewrite andb_false_r. cbn match. next.
    erewrite ota_bind; [|rewrite (ota_bind _ _ _ _ _ Hc); next; next; reflexivity]. next. eexists. split; [reflexivity|]. cbn. split; [done|]. split; [by rewrite last_snoc|done]. }
  exists w'. split; [|done]. erewrite ota_bind; [|next; rewrite (ota_bind _ _ _ _ _ Hh); reflexivity]. done.
Qed.

(** A file sent as request, pieces of at most 256 bytes in order and call for verification is in the
    flash byte for byte at the end.  It is accepted exactly if its digest is the one announced. *)
Lemma update_installs id id' k v value file pieces w :
  ready (flash w) file -> length (ota_data_buf (ctx w)) = 256%nat -> length stale = 256%nat ->
  List.Forall is_u8 file -> Z.of_nat (length file) < 2 ^ 32 -> length value = digest_size k ->
  pieces <> [] -> List.Forall (fun p => (0 < length p <= 256)%nat) pieces -> concat pieces = file ->
  ble_ver (ctx w) <> v -> (forall cb, ota_cb (ctx w) = Some cb -> fst (cb QM_BLE_OTA_TYPE_BLE QM_BLE_OTA_REQ NoData (app w)) = QM_BLE_DEV_NORMAL) -> post (length (acks w)) = QB_SUCCESS ->
  let valid := bool_decide (digest_of k file = value) in
  exists h w', run ((id, Ble.QM_BLE_CMD_OTA_REQUEST, request k v value (Z.of_nat (length file))) :: data_messages 0 pieces ++ [(id', Ble.QM_BLE_CMD_OTA_VERIFY, [])]) w = Ret (tt, w') /\
    written h = file /\ room h file /\ flash w' = qm_ble_ota_end (Z.b2z valid) h /\
    last (acks w') = Some (mk_ack id' Ble.QM_BLE_CMD_OTA_VERIFY (if valid then QM_BLE_COM_NO_ERR else QM_BLE_COM_ERR_VERIFY) []) /\ status (ctx w') = QM_BLE_OTA_STATE_OFF.
Proof.
  intros Hr Hb Hstale Hu Hn Hv Hne Hp Hc Hver Hcb Hpost valid.
  destruct (request_message id k v value file w) as (w1 & H1 & Hh1 & Hs1 & Hq1); [done|done|done|widths; lia|done|done|done|].
  destruct (data_received _ file pieces 0 [] w1 Hh1 Hs1 Hq1) as (w2 & H2 & Hr2); [done|done|done|by rewrite app_nil_l, Hc|done|done|]. rewrite app_nil_l, Hc in Hr2.
  destruct (verify_message id' k v value file w2) as (w3 & H3 & Hf3 & Ha3 & Hst3); [done|done|done|done|done|]. exists (flash w2), w3. split; [|by destruct Hr2 as (_ & ? & ? & _)].
  change (run (_ :: ?l)) with (qm_ble_ota_dispatcher post stale id Ble.QM_BLE_CMD_OTA_REQUEST (request k v value (Z.of_nat (length file))) ;; run l).
  rewrite (ota_bind _ _ _ _ _ H1), (messages_app _ _ _ _ H2). cbn [run]. by rewrite (ota_bind _ _ _ _ _ H3).
Qed.

(** A message out of sequence is dropped: nothing that arrived is lost, the expected number stays, and
    the answer names the last message taken. *)
Lemma wrong_sequence_kept f n got id p w : holds f n got w -> status (ctx w) = QM_BLE_OTA_STATE_DATA \/ status (ctx w) = QM_BLE_OTA_STATE_IDLE -> id <> next_seq (ctx w) ->
  exists w', qm_ble_ota_dispatcher post stale id Ble.QM_BLE_CMD_OTA_DATA p w = Ret (QB_SUCCESS, w') /\ holds f n got w' /\ next_seq (ctx w') = next_seq (ctx w) /\
    a_id <$> last (acks w') = Some (msg_id (ctx w)) /\ status (ctx w') = QM_BLE_OTA_STATE_IDLE.
Proof.
  intros Hh Hst Hid. eexists. split.
  - unfold qm_ble_ota_dispatcher. next. change (Ble.QM_BLE_CMD_OTA_DATA =? Ble.QM_BLE_CMD_OTA_QUERY_VER) with false. change (Ble.QM_BLE_CMD_OTA_DATA =? Ble.QM_BLE_CMD_OTA_REQUEST) with false.
    change (Ble.QM_BLE_CMD_OTA_DATA =? Ble.QM_BLE_CMD_OTA_DATA) with true. cbn match.
    replace (negb (bool_decide (status (ctx w) = QM_BLE_OTA_STATE_IDLE)) && negb (bool_decide (status (ctx w) = QM_BLE_OTA_STATE_DATA))) with false by (by destruct Hst as [-> | ->]).
    erewrite ota_bind; [|erewrite ota_bind; [|unfold qm_ble_ota_data_handle; next; rewrite (proj2 (Z.eqb_neq _ _) Hid); next; next; next; reflexivity]; reflexivity]. reflexivity.
  - split; [by apply (holds_frame _ _ _ w)|]. split; [done|]. cbn. by rewrite last_snoc.
Qed.
End transfer.
End BleOta.
