(* ===== verification/Esp32Ota.v ===== *)
(** * Flash driver for updates on the ESP32 (platform/mcu/esp32/hal/ota/qm_ota.c, platform/mcu/esp32/qm_ble/qm_ble_hal_ota.c)

    The driver writes the application slot that is not running, keeps its own position there, and
    switches to it when an accepted update ends.  The functions of the vendor (esp_ota and
    esp_partition) are a class, with what its documentation says of them as a second one; with
    these laws the driver is one that appends, as the update over Bluetooth needs it. *)

From S2P Require Import Prelude Outcome Words Heap Merkle Crc Digest Md5 Ble BleLink StrUtil BleOta.
Import list_relations.list list_basics.list Heap(slice, splice).
Open Scope Z_scope.

(** Numbers of the vendor's headers. *)
Definition ESP_OK : Z := 0.
Definition ESP_PARTITION_TYPE_APP : Z := 0.
Definition ESP_PARTITION_SUBTYPE_APP_FACTORY : Z := 0.
Definition ESP_PARTITION_SUBTYPE_APP_OTA_0 : Z := 0x10.
Definition ESP_PARTITION_SUBTYPE_APP_OTA_1 : Z := 0x11.

(** First byte of an image. *)
Definition ESP_IMAGE_HEADER_MAGIC : Z := 0xE9.

Record esp_partition_t := mk_partition { ptype : Z; subtype : Z; encrypted : bool }.

Class EspOta := {
  esp : Type;
  esp_ota_get_boot_partition : esp -> option esp_partition_t;
  esp_partition_find_first : esp -> Z -> Z -> option esp_partition_t;
  esp_ota_begin : esp -> esp_partition_t -> Z * Z * esp;                  (* error, handle; the size is OTA_SIZE_UNKNOWN *)
  esp_ota_write : esp -> Z -> list Z -> Z * esp;
  esp_ota_write_with_offset : esp -> Z -> list Z -> Z -> Z * esp;
  esp_partition_read : esp -> esp_partition_t -> Z -> Z -> option (list Z);
  esp_ota_end : esp -> Z -> Z * esp;
  esp_ota_set_boot_partition : esp -> esp_partition_t -> Z * esp
}.

(** A working flash: the bytes of a slot and the slot that a handle is open on.  Opening a slot with an
    unknown size erases all of it.  Writing is only promised what the vendor documents: the slot is
    not encrypted (else only multiples of 16 bytes can be written), the area is erased, and an image
    starts with its magic byte. *)
Class EspLaws (E : EspOta) := {
  contents : esp -> esp_partition_t -> list Z;
  open_on : esp -> Z -> option esp_partition_t;
  find_law s t u p : esp_partition_find_first s t u = Some p -> ptype p = t /\ subtype p = u;
  begin_law s p d s' : esp_ota_begin s p = (ESP_OK, d, s') -> open_on s' d = Some p /\ contents s' p = replicate (length (contents s p)) 0xFF;
  esp_write_law s d p l off : open_on s d = Some p -> encrypted p = false -> l <> [] -> List.Forall is_u8 l ->
    (off = 0 -> head l = Some ESP_IMAGE_HEADER_MAGIC) -> 0 <= off -> slice (contents s p) off (Z.of_nat (length l)) = Some (replicate (length l) 0xFF) ->
    exists s', esp_ota_write_with_offset s d l off = (ESP_OK, s') /\ open_on s' d = Some p /\ splice (contents s p) off l = Some (contents s' p);
  esp_read_law s p off n : 0 <= off -> 0 <= n -> off + n <= Z.of_nat (length (contents s p)) -> esp_partition_read s p off n = slice (contents s p) off n
}.

Module Esp32Ota.

(** ** The driver *)

Section driver.
Context {E : EspOta}.

(** The variables of both files: position, slot, handle and error of the driver; the timer of the
    restart, its flag [disconn]; then the vendor's state, the disconnections and whether the system restarted. *)
Record port := mk_port {
  offset_addr : Z;
  operate_partition : esp_partition_t;
  out_handle : Z;
  esp_write_error : Z;
  ota_reboot_timer : option bool;
  disconn : bool;
  dev : esp;
  disconnects : nat;
  restarted : bool
}.

(** The slot to write for the slot that runs. *)
Definition other_subtype (s : Z) : Z :=
  if s =? ESP_PARTITION_SUBTYPE_APP_FACTORY then ESP_PARTITION_SUBTYPE_APP_OTA_0
  else if s =? ESP_PARTITION_SUBTYPE_APP_OTA_0 then ESP_PARTITION_SUBTYPE_APP_OTA_1
  else if s =? ESP_PARTITION_SUBTYPE_APP_OTA_1 then ESP_PARTITION_SUBTYPE_APP_OTA_0
  else ESP_PARTITION_SUBTYPE_APP_OTA_0.

(** A slot that is not found fails the assertion. *)
Definition esp_ota_prepare (h : port) : outcome (bool * port) :=
  let h := mk_port 0 (operate_partition h) (out_handle h) (esp_write_error h) (ota_reboot_timer h) (disconn h) (dev h) (disconnects h) (restarted h) in
  match esp_ota_get_boot_partition (dev h) with
  | None => Ret (false, h)
  | Some boot =>
      if negb (ptype boot =? ESP_PARTITION_TYPE_APP) then Ret (false, h)
      else match esp_partition_find_first (dev h) ESP_PARTITION_TYPE_APP (other_subtype (subtype boot)) with
           | None => OutOfBounds
           | Some partition =>
               let '(err, d, s) := esp_ota_begin (dev h) partition in
               if negb (err =? ESP_OK) then Ret (false, mk_port 0 (mk_partition 0 0 false) d ESP_OK (ota_reboot_timer h) (disconn h) s (disconnects h) (restarted h))
               else Ret (true, mk_port 0 partition d ESP_OK (ota_reboot_timer h) (disconn h) s (disconnects h) (restarted h))
           end
  end.

Definition qm_ota_start (h : port) : outcome (Z * port) :=
  '(ok, h) ← esp_ota_prepare h;
  Ret (if ok : bool then 0 else -1, h).

(** [off_set]: the number at the pointer, if there is one, and what is there afterwards. *)
Definition qm_ota_write (h : port) (off_set : option Z) (in_buf : list Z) : Z * option Z * port :=
  let '(err, s) := match off_set with
                   | None => esp_ota_write (dev h) (out_handle h) in_buf
                   | Some _ => esp_ota_write_with_offset (dev h) (out_handle h) in_buf (offset_addr h)
                   end in
  let offset := match off_set with None => offset_addr h | Some _ => u32 (offset_addr h + Z.of_nat (length in_buf)) end in
  if negb (err =? ESP_OK) then (-1, off_set, mk_port offset (operate_partition h) (out_handle h) err (ota_reboot_timer h) (disconn h) s (disconnects h) (restarted h))
  else (0, (fun _ => offset) <$> off_set, mk_port offset (operate_partition h) (out_handle h) (esp_write_error h) (ota_reboot_timer h) (disconn h) s (disconnects h) (restarted h)).

(** The result of the vendor's read is not looked at: without one the buffer stays as it was. *)
Definition qm_ota_read (h : port) (off_set : Z) (out_buf : list Z) (out_buf_len : Z) : Z * Z * list Z :=
  if out_buf_len =? 0 then (- QM_EINVAL, off_set, out_buf)
  else let out_buf := match esp_partition_read (dev h) (operate_partition h) off_set out_buf_len with
                      | Some d => d ++ drop (length d) out_buf
                      | None => out_buf
                      end in
       (0, u32 (off_set + out_buf_len), out_buf).

Definition qm_ota_end (h : port) : Z * port :=
  let '(err, s) := esp_ota_end (dev h) (out_handle h) in
  let h := mk_port (offset_addr h) (operate_partition h) (out_handle h) (esp_write_error h) (ota_reboot_timer h) (disconn h) s (disconnects h) (restarted h) in
  if negb (err =? ESP_OK) then (-1, h)
  else if negb (esp_write_error h =? 0) then (-1, h)
  else
    let '(err, s) := esp_ota_set_boot_partition (dev h) (operate_partition h) in
    let h' r := mk_port (offset_addr h) (operate_partition h) (out_handle h) (esp_write_error h) (ota_reboot_timer h) (disconn h) s (disconnects h) r in
    if negb (err =? ESP_OK) then (-1, h' (restarted h)) else (0, h' true).

(** ** The driver of the Bluetooth link *)

Definition ota_delay_action (h : port) : port :=
  let h := if disconn h then mk_port (offset_addr h) (operate_partition h) (out_handle h) (esp_write_error h) (ota_reboot_timer h) (disconn h) (dev h) (S (disconnects h)) (restarted h)
           else snd (qm_ota_end h) in
  mk_port (offset_addr h) (operate_partition h) (out_handle h) (esp_write_error h) (ota_reboot_timer h) false (dev h) (disconnects h) (restarted h).

Definition set_reboot_timer (t : option bool) (h : port) : port :=
  mk_port (offset_addr h) (operate_partition h) (out_handle h) (esp_write_error h) t (disconn h) (dev h) (disconnects h) (restarted h).

Definition ble_ota_start (h : port) : outcome port :=
  '(_, h) ← qm_ota_start h;
  Ret (match ota_reboot_timer h with None => set_reboot_timer (Some false) h | Some _ => h end).

Definition ble_ota_end (finish : Z) (h : port) : port :=
  if negb (finish =? 0) then set_reboot_timer ((fun _ => true) <$> ota_reboot_timer h) h else h.

Definition ble_ota_flash_write (h : port) (offset : Z) (buf : list Z) : Z * Z * port :=
  let '(ret, off, h) := qm_ota_write h (Some offset) buf in (ret, default offset off, h).

Definition ble_ota_flash_read (h : port) (offset : Z) (buf : list Z) (buf_len : Z) : Z * Z * list Z := qm_ota_read h offset buf buf_len.

#[global] Instance esp32_hal : OtaHal :=
  {| hal := port; qm_ble_ota_start := ble_ota_start; qm_ble_ota_flash_write := ble_ota_flash_write; qm_ble_ota_flash_read := ble_ota_flash_read; qm_ble_ota_end := ble_ota_end |}.
End driver.

(** ** The driver appends *)

Section laws.
Context {E : EspOta} {L : EspLaws E}.

Definition slot (h : port) : list Z := contents (dev h) (operate_partition h).
Definition esp_ready (h : port) (n : nat) : Prop :=
  exists h', qm_ota_start h = Ret (0, h') /\ encrypted (operate_partition h') = false /\ (n <= length (slot h'))%nat /\ Z.of_nat (length (slot h')) < 2 ^ 32.
Definition esp_written (h : port) : list Z := take (Z.to_nat (offset_addr h)) (slot h).
(** The slot is open, and erased behind what was written. *)
Definition esp_room (h : port) (n : nat) : Prop :=
  open_on (dev h) (out_handle h) = Some (operate_partition h) /\ encrypted (operate_partition h) = false /\ 0 <= offset_addr h <= Z.of_nat (length (slot h)) /\
  (n <= length (slot h))%nat /\ Z.of_nat (length (slot h)) < 2 ^ 32 /\
  drop (Z.to_nat (offset_addr h)) (slot h) = replicate (length (slot h) - Z.to_nat (offset_addr h)) 0xFF.

Lemma started h h' : qm_ota_start h = Ret (0, h') ->
  offset_addr h' = 0 /\ open_on (dev h') (out_handle h') = Some (operate_partition h') /\ slot h' = replicate (length (slot h')) 0xFF.
Proof.
  unfold qm_ota_start, esp_ota_prepare. cbn [dev]. destruct (esp_ota_get_boot_partition _) as [boot|]; [|done]. destruct (negb _); [done|].
  destruct (esp_partition_find_first _ _ _) as [p|]; [|done]. destruct (esp_ota_begin _ p) as [[err d] s] eqn:Hb. destruct (Z.eqb_spec err ESP_OK) as [->|]; cbn; [|done].
  intros [= <-]. split; [done|]. destruct (begin_law _ _ _ _ Hb) as [Hop Hc]. split; [exact Hop|]. unfold slot. cbn. by rewrite Hc, length_replicate.
Qed.

Lemma start_timer h r h' : qm_ota_start h = Ret (r, h') -> ota_reboot_timer h' = ota_reboot_timer h.
Proof.
  unfold qm_ota_start, esp_ota_prepare. cbn [dev]. destruct (esp_ota_get_boot_partition _) as [boot|]; [|by intros [= _ <-]]. destruct (negb _); [by intros [= _ <-]|].
  destruct (esp_partition_find_first _ _ _) as [p|]; [|done]. destruct (esp_ota_begin _ p) as [[err d] s]. destruct (negb (err =? ESP_OK)); by intros [= _ <-].
Qed.

Lemma written_length h n : esp_room h n -> Z.of_nat (length (esp_written h)) = offset_addr h.
Proof. intros (_ & _ & Ho & _). unfold esp_written. rewrite length_take. lia. Qed.

Lemma esp_start h n : esp_ready h n -> exists h', ble_ota_start h = Ret h' /\ esp_written h' = [] /\ esp_room h' n.
Proof.
  intros (h1 & Hs & He & Hn & Hz). destruct (started _ _ Hs) as (Ho & Hop & Hff). unfold ble_ota_start. rewrite Hs, StrUtil.step_ret. cbn beta iota. eexists. split; [reflexivity|].
  destruct (ota_reboot_timer h1); unfold esp_written, esp_room; cbn; rewrite Ho; (split; [done|]); split_and!; try done; try lia;
    cbn; rewrite drop_0, Nat.sub_0_r; exact Hff.
Qed.

(** The area behind what was written is erased. *)
Lemma erased_behind h n k : esp_room h n -> (Z.to_nat (offset_addr h) + k <= length (slot h))%nat ->
  slice (slot h) (offset_addr h) (Z.of_nat k) = Some (replicate k 0xFF).
Proof.
  intros (_ & _ & Ho & _ & _ & Hff) Hk. unfold slice. rewrite !(proj2 (Z.leb_le _ _)) by lia. cbn [andb]. rewrite Hff, Nat2Z.id, take_replicate. f_equal. f_equal. lia.
Qed.

Lemma esp_write h n off d : esp_room h n -> d <> [] -> List.Forall is_u8 d -> (esp_written h = [] -> head d = Some ESP_IMAGE_HEADER_MAGIC) ->
  (length (esp_written h) + length d <= n)%nat -> Z.of_nat n < 2 ^ 32 -> exists h',
  ble_ota_flash_write h off d = (0, Z.of_nat (length (esp_written h) + length d), h') /\ esp_written h' = esp_written h ++ d /\ esp_room h' n.
Proof.
  intros Hr Hne Hu Hmagic Hd Hn. pose proof (written_length h n Hr) as Hl. pose proof (erased_behind h n (length d) Hr) as Her. destruct Hr as (Hop & He & Ho & Hs & Hz & Hff).
  destruct (esp_write_law (dev h) (out_handle h) (operate_partition h) d (offset_addr h) Hop He Hne Hu) as (s & Hw & Hop' & Hsp); [|lia|apply Her; lia|].
  { intros H0. apply Hmagic. unfold esp_written. by rewrite H0. }
  unfold ble_ota_flash_write, qm_ota_write. rewrite Hw. cbn [negb Z.eqb ESP_OK fmap option_fmap option_map default]. rewrite u32_id by (widths; lia). rewrite Nat2Z.inj_add, Hl. eexists. split; [reflexivity|].
  unfold splice in Hsp. destruct (_ && _) in Hsp; [|done]. injection Hsp as Hsp. unfold esp_written, esp_room, slot in *. cbn [dev operate_partition offset_addr out_handle]. rewrite <- Hsp. split.
  - rewrite app_assoc, take_app_le by (rewrite length_app, length_take; lia). apply take_ge. rewrite length_app, length_take. lia.
  - rewrite !length_app, length_take, length_drop. split_and!; try done; try lia.
    rewrite app_assoc, drop_app_ge by (rewrite length_app, length_take; lia). rewrite drop_drop, length_app, length_take.
    replace (Z.to_nat (offset_addr h) + length d + (Z.to_nat (offset_addr h + Z.of_nat (length d)) - (Z.to_nat (offset_addr h) `min` length (contents (dev h) (operate_partition h)) + length d)))%nat
      with (Z.to_nat (offset_addr h) + length d)%nat by lia.
    rewrite <- drop_drop, Hff, drop_replicate. f_equal. lia.
Qed.

Lemma esp_read h n o (buf : list Z) k : esp_room h n -> (o + k <= length (esp_written h))%nat -> (0 < k <= length buf)%nat -> Z.of_nat n < 2 ^ 32 ->
  qm_ota_read h (Z.of_nat o) buf (Z.of_nat k) = (0, Z.of_nat (o + k), take k (drop o (esp_written h)) ++ drop k buf).
Proof.
  intros Hr Hk Hb Hn. pose proof (written_length h n Hr) as Hl. destruct Hr as (Hop & He & Ho & Hs & Hz & _). unfold qm_ota_read. rewrite (proj2 (Z.eqb_neq _ _)) by lia.
  unfold esp_written in *. rewrite length_take in *.
  rewrite esp_read_law by (fold (slot h); lia). fold (slot h). unfold slice. rewrite !(proj2 (Z.leb_le _ _)) by lia. cbn [andb]. rewrite !Nat2Z.id, u32_id by (widths; lia).
  assert (take k (drop o (take (Z.to_nat (offset_addr h)) (slot h))) = take k (drop o (slot h))) as ->.
  { rewrite List.skipn_firstn_comm, take_take. f_equal. lia. }
  assert (length (take k (drop o (slot h))) = k) as -> by (rewrite length_take, length_drop; lia). f_equal. f_equal. lia.
Qed.

(** The slot and the timer stay those of the start. *)
Definition like (base h : port) : Prop := operate_partition h = operate_partition base /\ ota_reboot_timer h = ota_reboot_timer base.

Lemma write_like h off d ret o h' : ble_ota_flash_write h off d = (ret, o, h') -> like h h'.
Proof. unfold ble_ota_flash_write, qm_ota_write. destruct (esp_ota_write_with_offset _ _ _ _) as [err s]. destruct (negb (err =? ESP_OK)); by intros [= <- <- <-]. Qed.

(** A file that the vendor's functions take for an image. *)
Definition image (file : list Z) : Prop := List.Forall is_u8 file /\ head file = Some ESP_IMAGE_HEADER_MAGIC.

#[global, refine] Instance esp32_appends (base : port) : AppendingHal esp32_hal :=
  {| ready h file := image file /\ esp_ready h (length file) /\ ble_ota_start h = Ret base; written := esp_written;
     room h file := image file /\ esp_room h (length file) /\ like base h |}.
Proof using L.
  - intros h file (Hi & Hr & Hs). destruct (esp_start h _ Hr) as (h' & Hs' & Hw & Hr'). exists h'. assert (h' = base) as -> by congruence. by split_and!.
  - intros h file off d ([Hu Hm] & Hr & Hl) Hne [back Hpre] Hn2. assert (List.Forall is_u8 d) as Hd by (rewrite Hpre in Hu; by apply Forall_app in Hu as [[_ ?]%Forall_app _]).
    destruct (esp_write h (length file) off d Hr Hne Hd) as (h' & Hw & He & Hr'); [|rewrite Hpre, !length_app; lia|done|].
    { intros H0. rewrite Hpre, H0 in Hm. by destruct d. }
    exists h'. do 2 (split; [done|]). split; [by split|]. split; [done|]. destruct (write_like _ _ _ _ _ _ Hw), Hl. split; congruence.
  - intros h file o buf k (_ & Hr & _). apply esp_read, Hr.
Defined.

(** The slot that is written is never the one that runs. *)
Lemma running_slot_kept h h' boot : esp_ota_get_boot_partition (dev h) = Some boot -> qm_ota_start h = Ret (0, h') -> subtype (operate_partition h') <> subtype boot.
Proof using L.
  unfold qm_ota_start, esp_ota_prepare. cbn [dev]. intros ->. destruct (negb _); [done|]. destruct (esp_partition_find_first _ _ _) as [p|] eqn:Hf; [|done].
  destruct (esp_ota_begin _ p) as [[err d] s]. destruct (negb (err =? ESP_OK)); [done|]. intros [= <-]. cbn. apply find_law in Hf as [_ ->]. unfold other_subtype.
  destruct (Z.eqb_spec (subtype boot) ESP_PARTITION_SUBTYPE_APP_FACTORY) as [->|]; [done|]. destruct (Z.eqb_spec (subtype boot) ESP_PARTITION_SUBTYPE_APP_OTA_0) as [->|]; [done|].
  destruct (Z.eqb_spec (subtype boot) ESP_PARTITION_SUBTYPE_APP_OTA_1) as [->|]; [done|]. by apply not_eq_sym.
Qed.

Context {cfg : OtaConfig} {C : Type}.
Import BleOta.

End laws.

(** ** A flash with two slots *)

Module TwoSlots.
(** The running slot, the two slots for updates and the open one. *)
Record flash2 := mk_flash { boot : esp_partition_t; slot0 : list Z; slot1 : list Z; opened : option esp_partition_t }.

Definition bytes_of (s : flash2) (p : esp_partition_t) : list Z := if subtype p =? ESP_PARTITION_SUBTYPE_APP_OTA_0 then slot0 s else slot1 s.
Definition put_bytes (p : esp_partition_t) (l : list Z) (s : flash2) : flash2 :=
  if subtype p =? ESP_PARTITION_SUBTYPE_APP_OTA_0 then mk_flash (boot s) l (slot1 s) (opened s) else mk_flash (boot s) (slot0 s) l (opened s).

Definition open_slot (p : esp_partition_t) (s : flash2) : flash2 := mk_flash (boot s) (slot0 s) (slot1 s) (Some p).

(** Programming flash only clears bits. *)
Definition program (b : list Z) (off : Z) (l : list Z) : option (list Z) :=
  old ← slice b off (Z.of_nat (length l)); splice b off (zip_with Z.land old l).

Lemma program_erased b off l : List.Forall is_u8 l -> slice b off (Z.of_nat (length l)) = Some (replicate (length l) 0xFF) -> program b off l = splice b off l.
Proof.
  intros Hl Hs. unfold program. rewrite Hs. cbn [mbind option_bind]. f_equal. clear Hs. induction Hl as [|x l Hx Hl IH]; [done|]. cbn [replicate length zip_with].
  f_equal; [|done]. rewrite Z.land_comm. change 255 with (Z.ones 8). rewrite Z.land_ones by lia. apply Z.mod_small. exact Hx.
Qed.

#[global] Instance two_slots : EspOta := {|
  esp := flash2;
  esp_ota_get_boot_partition s := Some (boot s);
  esp_partition_find_first s t u := if (u =? ESP_PARTITION_SUBTYPE_APP_OTA_0) || (u =? ESP_PARTITION_SUBTYPE_APP_OTA_1) then Some (mk_partition t u false) else None;
  esp_ota_begin s p := (ESP_OK, 1, open_slot p (put_bytes p (replicate (length (bytes_of s p)) 0xFF) s));
  esp_ota_write s d l := (-1, s);
  esp_ota_write_with_offset s d l off :=
    match opened s with
    | Some p =>
        if (encrypted p && negb (Z.of_nat (length l) mod 16 =? 0)) || ((off =? 0) && negb (bool_decide (head l = Some ESP_IMAGE_HEADER_MAGIC))) then (-1, s)
        else match program (bytes_of s p) off l with Some b => (ESP_OK, put_bytes p b s) | None => (-1, s) end
    | None => (-1, s)
    end;
  esp_partition_read s p off n := slice (bytes_of s p) off n;
  esp_ota_end s d := (ESP_OK, mk_flash (boot s) (slot0 s) (slot1 s) None);
  esp_ota_set_boot_partition s p := (ESP_OK, mk_flash p (slot0 s) (slot1 s) (opened s))
|}.

#[global, refine] Instance two_slots_work : EspLaws two_slots := {| contents := bytes_of; open_on s d := opened s |}.
Proof.
  - intros s t u p. cbn. destruct (_ || _); [|done]. by intros [= <-].
  - intros s p d s'. cbn. intros [= <- <-]. split; [done|]. unfold bytes_of, open_slot, put_bytes. by destruct (subtype p =? ESP_PARTITION_SUBTYPE_APP_OTA_0).
  - intros s d p l off. cbn [esp_ota_write_with_offset two_slots]. intros Hop He Hne Hu Hm Ho Hl. rewrite Hop, He, (program_erased _ _ _ Hu Hl). cbn [andb orb].
    replace ((off =? 0) && _) with false by (symmetry; destruct (Z.eqb_spec off 0) as [->|]; [|done]; by rewrite bool_decide_true by auto).
    unfold slice in Hl. destruct (_ && _) eqn:Hb in Hl; [|done]. apply andb_prop in Hb as [Hb1 Hb]. apply andb_prop in Hb1 as [_ Hb1].
    assert (splice (bytes_of s p) off l = Some (take (Z.to_nat off) (bytes_of s p) ++ l ++ drop (Z.to_nat off + length l) (bytes_of s p))) as Hsp
      by (unfold splice; rewrite (proj2 (Z.leb_le _ _) Ho), Hb; done).
    rewrite Hsp. eexists. split; [reflexivity|]. unfold put_bytes, bytes_of in *. destruct (subtype p =? ESP_PARTITION_SUBTYPE_APP_OTA_0) eqn:Hp; (split; [exact Hop|done]).
  - done.
Defined.

Definition running : esp_partition_t := mk_partition ESP_PARTITION_TYPE_APP ESP_PARTITION_SUBTYPE_APP_OTA_0 false.
Definition fresh : port := mk_port 0 (mk_partition 0 0 false) 0 0 None true (mk_flash running (replicate 1024 0) (replicate 1024 0x55) None) 0 false.
End TwoSlots.

(** ** Concrete updates *)

Import BleOta TwoSlots.

#[local] Instance plain : OtaConfig := {| QB_ENABLE_MCU_OTA := true; QB_ENABLE_OTA_DATA_ASYNC := false |}.
Definition sent (n : nat) : Z := QB_SUCCESS.
Definition rubbish : list Z := replicate 256 7.
Definition idle_ctx {C} : qm_ble_ota_context_t C :=
  mk_ctx blank_file 0 (mk_ver 1 0 0) QM_BLE_OTA_REBOOT_TIME 0 (mk_ver 1 0 0) (replicate 256 0) 0 0 0 QM_BLE_OTA_STATE_OFF 0 0 (Some false) None.
Definition device : world (H := esp32_hal) (C := unit) := mk_world idle_ctx fresh [] tt.
Definition version : qm_ble_ver_t := mk_ver 1 0 1.

(** A file of 600 bytes in pieces of 200: three messages, two full buffers and a rest. *)
Definition file600 : list Z := (fun i => (Z.of_nat i + ESP_IMAGE_HEADER_MAGIC) mod 256) <$> seq 0 600.
Definition pieces600 : list (list Z) := [take 200 file600; take 200 (drop 200 file600); drop 400 file600].

Example file_switched_to :
  (w ← run sent rubbish ((9, Ble.QM_BLE_CMD_OTA_REQUEST, request CRC32 version (digest_of CRC32 file600) 600) :: data_messages 0 pieces600 ++ [(5, Ble.QM_BLE_CMD_OTA_VERIFY, [])]) device;
   let h := ota_delay_action (ota_delay_action (flash (snd w))) in
   Ret (bool_decide (take 600 (slot1 (dev h)) = file600), subtype (boot (dev h)), restarted h, disconnects h, ota_reboot_timer h)) = Ret (true, ESP_PARTITION_SUBTYPE_APP_OTA_1, true, 1%nat, Some true).
Proof. vm_compute. reflexivity. Qed.


(** A request for the version that runs is answered with a refusal, but the transfer goes on: the file is taken
    and the restart set off. *)
Theorem refused_update_goes_on :
  (w ← run sent rubbish ((9, Ble.QM_BLE_CMD_OTA_REQUEST, request CRC32 (mk_ver 1 0 0) (digest_of CRC32 file600) 600) :: data_messages 0 pieces600 ++ [(5, Ble.QM_BLE_CMD_OTA_VERIFY, [])]) device;
   Ret (a_code <$> head (acks (snd w)), (fun a => take 1 (a_bytes a)) <$> head (acks (snd w)), ota_reboot_timer (flash (snd w)))) = Ret (Some QM_BLE_COM_ERR_VER, Some [0], Some true).
Proof. vm_compute. reflexivity. Qed.

(** A request that cannot be parsed opens the transfer all the same, of a file of size 0: the first full buffer divides by it. *)
Theorem malformed_request_divides_by_zero :
  BleLink.is_oob (run sent rubbish [(9, Ble.QM_BLE_CMD_OTA_REQUEST, [0]); (0, Ble.QM_BLE_CMD_OTA_DATA, ESP_IMAGE_HEADER_MAGIC :: replicate 255 1)] device) = true.
Proof. vm_compute. reflexivity. Qed.

(** A message of 320 bytes, the largest with twenty frames of 16, behind 250 bytes leaves more after the first block
    than the buffer takes. *)
Theorem long_piece_overruns :
  BleLink.is_oob (run sent rubbish [(9, Ble.QM_BLE_CMD_OTA_REQUEST, request CRC32 version [0; 0; 0; 0] 1000); (0, Ble.QM_BLE_CMD_OTA_DATA, ESP_IMAGE_HEADER_MAGIC :: replicate 249 1); (1, Ble.QM_BLE_CMD_OTA_DATA, replicate 320 2)] device) = true.
Proof. vm_compute. reflexivity. Qed.

(** A digest by SHA-1 is accepted in the request and never compared: every such file is rejected. *)
Lemma sha1_never_valid {H : OtaHal} {C} stale (w : world (C := C)) : hash (ota_file (ctx w)) = QM_BLE_HASH_SHA1 -> qm_ble_hash_check stale w = Ret (false, w).
Proof. intros Hh. unfold qm_ble_hash_check, mbind, M_bind, get. rewrite Hh. reflexivity. Qed.

(** An error of the flash closes the transfer, and the dispatcher opens it again: the next message is taken and writes again. *)
Definition no_room : world (H := esp32_hal) (C := unit) :=
  mk_world idle_ctx (mk_port 0 (mk_partition 0 0 false) 0 0 None true (mk_flash TwoSlots.running [] (replicate 100 255) None) 0 false) [] tt.
Theorem flash_error_reopens :
  (w ← run sent rubbish [(9, Ble.QM_BLE_CMD_OTA_REQUEST, request CRC32 version [0; 0; 0; 0] 600); (0, Ble.QM_BLE_CMD_OTA_DATA, ESP_IMAGE_HEADER_MAGIC :: replicate 255 1); (1, Ble.QM_BLE_CMD_OTA_DATA, replicate 10 1)] no_room;
   Ret (a_code <$> acks (snd w), status (ctx (snd w)), next_seq (ctx (snd w)))) = Ret ([QM_BLE_COM_NO_ERR; QM_BLE_COM_ERR_SYSTEM; QM_BLE_COM_ERR_SYSTEM], QM_BLE_OTA_STATE_IDLE, 2).
Proof. vm_compute. reflexivity. Qed.

(** The other processor: the callback collects the data it is given. *)
Definition collect (type : Z) (e : qm_ble_ota_event_t) (d : cb_data) (a : list Z) : Z * list Z :=
  match e, d with QM_BLE_OTA_DATA, Bytes b => (0, a ++ b) | _, _ => (0, a) end.
Definition mcu_device : world (H := esp32_hal) (C := list Z) :=
  mk_world (mk_ctx blank_file 0 (mk_ver 1 0 0) QM_BLE_OTA_REBOOT_TIME 0 (mk_ver 1 0 0) (replicate 256 0) 0 0 0 QM_BLE_OTA_STATE_OFF 0 0 (Some false) (Some collect)) fresh [] [].

(** Its last block, when it is not full, is neither handed over nor answered. *)
Theorem mcu_rest_lost :
  (w ← run sent rubbish ((9, Ble.QM_BLE_CMD_OTA_REQUEST, [QM_BLE_OTA_TYPE_MCU] ++ drop 1 (request CRC32 version [0; 0; 0; 0] 600)) :: data_messages 0 pieces600) mcu_device;
   Ret (length (app (snd w)), length (acks (snd w)), status (ctx (snd w)))) = Ret (512%nat, 1%nat, QM_BLE_OTA_STATE_FW_VERIFY).
Proof. vm_compute. reflexivity. Qed.

(** ** A driver as documented *)

(** The header says that a write starts at the given offset and moves it on. *)
Definition documented_hal : OtaHal := {|
  hal := list Z;
  qm_ble_ota_start h := Ret h;
  qm_ble_ota_flash_write h off d := match splice h off d with Some h' => (0, off + Z.of_nat (length d), h') | None => (-1, off, h) end;
  qm_ble_ota_flash_read h off buf n := match slice h off n with Some d => (0, off + n, d ++ drop (length d) buf) | None => (-1, off, buf) end;
  qm_ble_ota_end finish h := h
|}.

(** The offset starts at 0 with every message, so with this driver the second block is an error. *)
Theorem documented_driver_fails :
  (w ← run (H := documented_hal) sent rubbish ((9, Ble.QM_BLE_CMD_OTA_REQUEST, request CRC32 version (digest_of CRC32 file600) 600) :: data_messages 0 pieces600) (mk_world (H := documented_hal) (C := unit) idle_ctx (replicate 1024 255) [] tt);
   Ret (a_code <$> acks (snd w))) = Ret [QM_BLE_COM_NO_ERR; QM_BLE_COM_ERR_SYSTEM].
Proof. vm_compute. reflexivity. Qed.
End Esp32Ota.
